(* ===== verification/_CoqProject ===== *)
-Q . S2P
Prelude.v
Status.v
Wire.v
Messages.v
FilterConfig.v
Socket.v
Pipe.v
Transfer.v
Framing.v
Handlers.v
Client.v
Server.v
FrameBoundary.v
SlotAllocator.v
FrameMetrics.v
Numbers.v
GpuTime.v
GpuInvariant.v
GpuFrame.v
GpuHooks.v
RuntimeLayer.v
RuntimeFilter.v
RuntimeState.v
ServerHandler.v
Memory.v
Pm4.v
StateTracker.v
Emulate.v
CaptureData.v
RdFile.v
DiveFile.v
Traversal.v
EmulateSteps.v
EmulateRefine.v
EmulateEnds.v
EmulateTrace.v
EmulateMasks.v
EmulateHazards.v
BlockData.v
GfxrFile.v
GfxrCapture.v
Topology.v
Hierarchy.v
Annotations.v
GfxrHierarchy.v
GfxrLayout.v
GfxrTree.v
EventInfo.v
DiveStrings.v
NodeTree.v
PacketNodes.v
HierarchyCreator.v
CreatorTypes.v
EmulateKeeps.v
CreatorTrees.v
CreatorTrace.v
CreatorEnds.v
RegisterNodes.v
EventState.v
EventFields.v
FillState.v
MetaData.v
MetaEvents.v
MetaEnds.v
GpuTiming.v
CsvText.v
PerfData.v
Correlator.v
DumpResources.v
