(* ===== verification/Prelude.v ===== *)
(** * Dive: a verification development

    Dive is a GPU profiler for Android. A Vulkan layer inside of the profiled
    application (the runtime layer) filters draw calls, times the work on the GPU
    and answers requests of the host; the host talks to it through a message
    protocol over a socket; the host's core reads captures, emulates the GPU
    commands in them and shows them. This development models the protocol with both
    of its ends, the GPU timing, the runtime layer, the captured memory, the
    emulation and the editing of GFXR captures, and proves what makes them correct.

    ** Parts, files and sources

    Network, [src/network] and [src/src/dive/common]:
    - [Status]: status values, [common/status.h], and the monads [StatusM]
      (a state and a value or an error) that most operations are written in.
    - [Wire], [Messages]: the integers, strings and message classes on the wire,
      [messages.{h,cc}]. A reader takes the buffer and an offset and gives a value
      or an error and the new offset, as the functions of the source do.
    - [FilterConfig]: [drawcall_filter_config.h] and the two conversions
      between a configuration and the message that carries it.
    - [Socket], [Transfer]: [socket_connection.{h,cc}]. The class [SocketApi] is
      the kernel's side of the system calls and is unconstrained: a call may
      fail, be interrupted, or transfer less than it was asked to. [LiveStream]
      adds the laws of a stream that is up; [FileApi] and [FileStoreLaws] are the
      file system. [Pipe] is an instance of all of them, on which the witnesses
      are evaluated.
    - [Framing]: [SendSocketMessage] and [ReceiveSocketMessage].
    - [Handlers]: [message_utils.cc], [base_message_handler.cc] and the default
      handler of [unix_domain_server.cc].
    - [Client]: [tcp_client.{h,cc}]. [client_reachable] closes the new client under
      its methods, the keep-alive thread's iterations and changes of the world.
    - [Server]: [unix_domain_server.{h,cc}]. The thread's loop is a step function
      on program points, and [Stop] four steps that interleave with it; the class
      [IMessageHandler] is the handler's interface.

    GPU timing, [src/gpu_time]:
    - [FrameBoundary]: [frame_boundary_detector.{h,cpp}].
    - [SlotAllocator]: [GPUTime::TimeStampSlotAllocator].
    - [FrameMetrics]: [GPUTime::FrameMetrics] and the reports. Doubles are the
      Standard Library's [spec_float] at binary64; [show_fixed] prints one.
    - [GpuTime]: the members and the hooks of [GPUTime]; [GpuInvariant] and
      [GpuFrame] hold their lemmas, [GpuHooks] the theorems. The class
      [VulkanApi] is the device. A hook returns [None] where the source indexes
      an array out of its bounds.

    Runtime layer, [src/runtime_layer]:
    - [RuntimeLayer]: [DiveRuntimeLayer], one definition for each intercepted
      Vulkan function; the class [DriverApi] is the next layer's answer to a
      call. The thread-local maps are indexed by the thread that makes the call.
    - [RuntimeFilter]: draw filters and timestamp queries; [RuntimeState]:
      sequences of calls, frame-boundary tasks, tracked pipelines, detectors.
    - [ServerHandler]: [server_message_handler.cc], which connects the protocol
      to the layer.

    Captures, [src/dive_core]:
    - [Memory]: [MemoryAllocationInfo] and [MemoryManager] of
      [pm4_capture_data.{h,cpp}]; the abstract memory is a partial map from
      addresses to bytes for each submit.
    - [Pm4]: packet headers, and the interfaces of the emulation: the class
      [AdrenoPm4] stands for the packet definitions that the build generates,
      [IMemoryManager] for [memory_manager_base.h], with [MemoryLaws] for what
      clients may rely on, which [MemoryManager] fulfills.
    - [StateTracker]: [EmulateStateTracker] of [common/emulate_pm4.{h,cpp}].
    - [CaptureData], [RdFile], [DiveFile]: [Pm4CaptureData] of
      [pm4_capture_data.{h,cpp}] and its loaders for files in the formats of
      freedreno ([.rd]) and of Dive; the class [Archive] reads compressed files.
    - [Emulate]: [EmulatePM4] and [EmulateCallbacksBase]. A C++ function that
      returns [false] ends the monad [Emu]; the callbacks are a class.
    - [Traversal]: the specification of the emulation, a recursive traversal;
      [EmulateSteps], [EmulateRefine], [EmulateEnds], [EmulateTrace], [EmulateMasks] and
      [EmulateHazards]: the lemmas on each operation, the refinement, its
      termination, the record of what every client of the emulation is called with, the
      enable masks and what goes wrong.

    The hierarchy of a PM4 capture, [src/dive_core]:
    - [EventInfo]: [capture_event_info.{h,cpp}]; the class [Pm4Info] is the generated
      tables of packets, registers and enumerators. [DiveStrings]: [dive_strings.{h,cpp}].
    - [NodeTree]: the nodes and links that [CommandHierarchyCreator] of
      [command_hierarchy.{h,cpp}] collects and the topologies it makes of them, with the
      typing of their edges; the monad [Steps] and its triples. [PacketNodes]: the nodes
      below a packet.
    - [HierarchyCreator]: the creator's state and callbacks, and [CreateTrees], which
      runs [Emulate] with them. [CreatorTypes] has their specifications, [EmulateKeeps]
      carries invariants of callbacks through an emulation, [CreatorTrees] has what is
      created, [CreatorTrace] which submits, IBs and packets it shows, [CreatorEnds] that it
      is created, and [RegisterNodes] relates the registers shown
      to those of [StateTracker].

    The events of a PM4 capture, [src/dive_core]:
    - [EventState]: [EventStateInfo] of [event_state.{h,cpp}], a structure of arrays, and the
      relation to the rows it represents. [EventFields]: the members for each field.
    - [FillState]: the functions of [CaptureMetadataCreator] of [data_core.{h,cpp}] that fill
      an event's state from the registers, with their specification by fields.
    - [MetaData]: [CaptureMetadataCreator], run by [Emulate]. [MetaEvents] has the invariant
      of what is collected and from which packets and registers, [MetaEnds] relates these to
      the capture, and has the properties and that it ends.

    GFXR captures, [src/gfxr_ext], [src/gfxr_dump_resources] and [src/dive_core]:
    - [BlockData]: [DiveBlockData] of [dive_block_data.{h,cpp}], the map of a capture's
      blocks and its modifications, with the order in which they are traversed.
    - [GfxrFile]: [WriterBlockVisitor] and [WriteGFXRFile]. The class [PlatformFiles] is
      gfxreconstruct's file functions, [PlatformLaws] what streams promise, [Disk] an
      instance of both.
    - [GfxrCapture]: [dive_file_processor.{h,cpp}] on the block loop of gfxreconstruct,
      and [gfxr_capture_data.{h,cpp}]. The class [GfxrReader] is the parser.
    - [Topology], [Hierarchy]: [Topology], [SharedNodeTopology] and [CommandHierarchy]
      of [command_hierarchy.{h,cpp}], which both kinds of captures are shown through.
    - [Annotations]: [dive_annotation_processor.{h,cpp}] and the accessors of
      [gfxr_capture_data.cpp]; the class [OrderedJson] is the JSON library.
    - [GfxrHierarchy]: [gfxr_vulkan_command_hierarchy.{h,cpp}]. [GfxrLayout] defines the
      trees it should show and how a tree lies in the arrays, [GfxrTree] proves that
      it does.
    - [DumpResources]: [gfxr_dump_resources], the search for command buffers whose
      resources can be dumped; one state machine for each command buffer.

    Tables, [src/dive_core] and [src/src/dive/utils]:
    - [Numbers]: [string_utils.{h,cpp}] and the conversions of the C library that
      it uses. [CsvText]: lines and fields with quotes, of the same file.
    - [GpuTiming]: [AvailableGpuTiming] of [available_gpu_time.{h,cpp}].
    - [PerfData]: [available_metrics.{h,cpp}] and [PerfMetricsData] of
      [perf_metrics_data.{h,cpp}].
    - [Correlator]: [PerfMetricsDataProvider] of [perf_metrics_data.{h,cpp}], which
      averages the records of a capture's frames and matches them with its nodes.

    How they interact: the application calls [RuntimeLayer], which calls [GpuTime]
    and its own [FrameBoundary] detector; the host calls [Client], whose messages
    go through [Framing] and [Socket] to [Server], which hands them to
    [ServerHandler] or [Handlers]; the former posts tasks that [RuntimeLayer]
    runs at the next frame boundary. [GfxrCapture] fills a [BlockData], which the user
    edits and [GfxrFile] writes; [Annotations] collects its calls, from which
    [GfxrHierarchy] builds a [Hierarchy]. A replay of such a capture writes the reports of
    [FrameMetrics], which [GpuTiming] reads; [Correlator] matches the records of [PerfData]
    with the draws of a [Hierarchy].

    ** What is proved

    - The protocol: messages survive the wire unchanged and in order however the
      kernel splits the transfers (C1, C3), violations
      close the connection (C32), files and strings arrive whole
      ([Transfer.file_delivered]), every request gets the reply the client expects
      (C27, C30, [Client.client_server_requests]).
    - The ends of the protocol: the client's status tells the truth
      ([Client.client_status_invariant]), the server's callbacks are
      bracketed (C31), and what stopping it costs
      ([Server.stop_hazards]).
    - The GPU timing: slots are never shared and always in range
      (C2, C6), the hooks stay inside of
      their arrays but for two named cases (C26), a recording gets the right
      timestamps ([GpuHooks.recording_timestamps]), a frame boundary the right times
      (C5), the statistics are a sliding window
      ([FrameMetrics.frame_window]),
      and the detector flags what it should ([FrameBoundary.detector_refines]).
    - The layer: which draws reach the driver (C28), by which state
      they are filtered ([RuntimeFilter.filters_see_their_thread]), and when a requested
      filter takes effect ([RuntimeState.filter_request_latency]).
    - The captured memory: what loading leaves of blocks that were captured more
      than once ([Memory.finalized_memory]), that a read through the cache and across blocks
      is a read of the abstract memory (C9), and what the contiguous
      sizes mean ([Memory.contiguous_memory]).
    - Loading captures: a capture file of either format is loaded as what it
      describes (C11, C12), which files make the
      loaders fail, and which make them run forever ([RdFile.rd_load_ends],
      C38, [DiveFile.dive_load_errors], [RdFile.rd_load_hazards]).
    - The emulation: which registers a
      packet sets (C37); the walk with its stack, queues and skipped
      IBs refines a recursive traversal, for every implementation of the callbacks
      (C7), and ends on a well-formed submit (C36); every client
      sees just the traversal of the capture (C39); the
      enable masks are balanced without chains ([EmulateMasks.masks_balanced]); and what the
      emulation does not withstand ([EmulateHazards.emulation_hazards]).
    - GFXR captures: editing works on one ordered map (C13), writing
      an edited capture gives what that map describes ([GfxrFile.edited_file_written]), loading
      and writing a capture reproduces it (C4), and a frame is replayed as
      often as asked (C33).
    - The command hierarchy: what a node is given is what its getters return
      ([Hierarchy.aux_info_kept]), the walk over a topology visits every node once, in preorder
      (C20), the annotation processor collects what was recorded and
      submitted (C21, [Annotations.rerecorded_counts]), and the hierarchy of a GFXR
      capture is the tree of its submits, command buffers, labels, render passes and
      arguments (C14, [GfxrTree.loose_commands_misplaced]).
    - The hierarchy of a PM4 capture: it is created to an end, with a node for each submit,
      IB and packet of the capture (C34), it is well-typed (C15), its events are numbered in
      the order of the capture (C16), the registers that a packet shows
      are those that the emulation sets (C19), the filters of passes
      exclude what their names say ([CreatorTrees.tiles_filtered]), and what misplaces an IB or its
      packets ([CreatorTrees.later_ibs_misplaced]).
    - The events of a PM4 capture: the structure of arrays that holds their states is a
      list of maps (C8, [EventFields.accessors_independent],
      [EventState.cleared_marks], [EventState.assigned_marks],
      [EventState.marks_shared]); what is collected is what the packets and
      registers of the capture say of each event, its state and its shaders (C17), of a
      draw by a table of fields and registers (C18); it is collected
      to an end (C35); and what it takes for the same or does not
      withstand ([MetaEnds.metadata_hazards]).
    - Tables: the text of a table of times or counters is read as what was written
      ([CsvText.csv_read]); the GPU times that a replay writes are those shown, through
      text and single precision (C22), and what an object or a row is served
      is its entry of the table (C10); counter records are loaded in order,
      without the malformed ones (C25), and the descriptions of metrics
      are found by their keys ([PerfData.metrics_by_key]). The analysis shows averages
      over the frames with the same draws (C23), and gives draws and tile
      passes of the hierarchy their records (C24,
      [Correlator.tile_passes_correlated]).
    - Dumping resources: every entry found can be used (C29), and every
      recording is found however it is interleaved ([DumpResources.recording_found]).

    ** Bounds and fuel

    [Recv] and [Send] loop until all bytes are transferred; their fuel is the
    number of bytes, and every iteration that goes on transfers at least one
    ([Socket.send_loop_total], [recv_loop_total]). [ReceiveFile] and [SendFile]
    take a chunk of at least one byte per iteration. [ReceiveString] reads up to a
    null that the peer need not send; it has explicit fuel, and [string_delivered]
    says how much is enough. [AllocateSlot] tries each of the 8192 slots once. The
    wait of the frame evaluation is bounded by [kMaxQueryCount] in the source.
    [ExecuteSubmit] and the search for the end of a tiled pass have explicit fuel,
    since a capture can make them run forever ([EmulateHazards.emulation_hazards]);
    C36 says when there is enough. The fuel of [CheckAndAdvanceIB] is
    computed from the state and always enough ([EmulateRefine.check_loop_enough]),
    and that of the register loops is the packet's count. That of the copy loop of
    [GfxrFile] is the number of buffers in a block ([copy_fuel_enough]), that of the
    traversal the number of blocks, which must fit 32 bits, and that of
    [ProcessAllFrames] the number of blocks read, which has no bound when a frame
    is replayed forever (C33). The capture loaders take a byte per iteration, unless they are
    stuck at the end of the file. The walk [next_up] climbs at most as many levels as
    there are nodes, and the fuel of [GetArgs] is the depth of the JSON value. The loops over the
    registers of a packet have its count as fuel, which is always enough
    (C34). The loops over lines and fields of tables have the length of what
    is left as fuel, of which every iteration takes some ([CsvText.lines_loop],
    [CsvText.fields_loop]). The event state is related to its specification for 2^24
    events, of which the marks still have numbers of 32 bits; so many events have less
    than 2^32 shaders. Lengths, counters, masks,
    addresses and timestamps wrap at their widths.

    ** What is not modelled

    Logging and console output; the Windows branches of the socket; the stack
    traces of statuses; null function pointers of the layer's dispatch; atomics,
    which are only used under a mutex or as single flags; assertions, which a
    release build does not have. Hooks and requests hold their mutex, so each is
    one step; [OnQueueSubmit] lets go of it between collecting the command buffers
    and the frame boundary, and is modelled both as one step and as two. The packet
    definitions are generated by the build. Of gfxreconstruct, only the block loop of
    its file processor is modelled; its parser is an interface, and blocks in asset
    files are left out. Numbers are read and written in the C locale.
    The other parts of the program (the
    command-line tools, the user interface and others) are not modelled. *)

From stdpp Require Export base gmap list strings pretty.
From Stdlib Require Export ZArith Lia Strings.Byte.
From coqutil Require Byte Word.LittleEndianList.

#[global] Open Scope Z_scope.

(** ** Machine integers

    A w-bit unsigned integer of the source is a [Z]; the wrap-around of an
    operation is written where the source can overflow. *)
Definition wrap (w z : Z) : Z := z mod 2 ^ w.

Declare Scope dive_scope.
Delimit Scope dive_scope with dive.
Notation "'u8' z" := (wrap 8 z) (at level 9, z at level 9) : dive_scope.
Notation "'u16' z" := (wrap 16 z) (at level 9, z at level 9) : dive_scope.
Notation "'u32' z" := (wrap 32 z) (at level 9, z at level 9) : dive_scope.
Notation "'u64' z" := (wrap 64 z) (at level 9, z at level 9) : dive_scope.
#[global] Open Scope dive_scope.

(** [in_width w z]: [z] is the value of a w-bit unsigned integer. *)
Definition in_width (w z : Z) : Prop := 0 <= z < 2 ^ w.

#[global] Instance in_width_dec w z : Decision (in_width w z).
Proof. unfold in_width. apply _. Defined.

#[global] Instance byte_eq_dec : EqDecision byte := Byte.byte_eq_dec.

(** [bits lo n z]: the [n]-bit field of [z] that starts at bit [lo]. *)
Definition bits (lo n z : Z) : Z := Z.land (Z.shiftr z lo) (Z.ones n).

Create HintDb dive.
Create Rewrite HintDb dive_rw.

Lemma wrap_small w z : in_width w z -> wrap w z = z.
Proof. apply Z.mod_small. Qed.

Lemma wrap_range w z : 0 <= w -> in_width w (wrap w z).
Proof. intros Hw. apply Z.mod_pos_bound. lia. Qed.

Lemma wrap_wrap w z : wrap w (wrap w z) = wrap w z.
Proof. apply Zmod_mod. Qed.

Lemma in_width_wrap_iff w z : 0 <= w -> in_width w z <-> wrap w z = z.
Proof.
  intros Hw. split; [apply wrap_small|].
  intros <-. by apply wrap_range.
Qed.

Lemma bits_range lo n z : 0 <= n -> in_width n (bits lo n z).
Proof.
  intros Hn. unfold bits. rewrite Z.land_ones by done.
  apply Z.mod_pos_bound. lia.
Qed.

#[export] Hint Resolve wrap_range bits_range : dive.
#[export] Hint Rewrite wrap_wrap : dive_rw.

(** ** Lists *)

Lemma take_drop_app_length {A} (l k : list A) :
  take (length l) (l ++ k) = l /\ drop (length l) (l ++ k) = k.
Proof. by rewrite take_app_length, drop_app_length. Qed.

(** Splitting [take] at an intermediate point: used by every loop that
    assembles a buffer out of chunks. *)
Lemma take_add {A} (n m : nat) (l : list A) :
  take (n + m) l = take n l ++ take m (drop n l).
Proof. by rewrite take_take_drop. Qed.

Lemma take_prefix {A} (l k : list A) (n : nat) :
  l `prefix_of` k -> (length l <= n)%nat -> l `prefix_of` take n k.
Proof.
  intros [r ->] Hn. rewrite take_app_ge by lia.
  by eexists.
Qed.

Lemma prefix_take_length {A} (l k : list A) :
  l `prefix_of` k -> l = take (length l) k.
Proof. intros [r ->]. by rewrite take_app_length. Qed.

(** A prefix of [b1 ++ b2] ends in [b1] or goes on into [b2]. *)
Lemma prefix_app_or {A} (p b1 b2 : list A) :
  p `prefix_of` b1 ++ b2 ->
  p `prefix_of` b1 \/ exists p2, p = b1 ++ p2 /\ p2 `prefix_of` b2.
Proof.
  intros [k Hk]. destruct (app_eq_inv _ _ _ _ Hk) as [(l & -> & ->)|(l & -> & ->)].
  - left. by eexists.
  - right. exists l. split; [done|by eexists].
Qed.

(** ** Strings *)

Lemma string_app_cons c (a b : string) : String c a +:+ b = String c (a +:+ b).
Proof. done. Qed.

Lemma string_app_nil_l (a : string) : "" +:+ a = a.
Proof. done. Qed.

Lemma string_app_assoc (a b c : string) : (a +:+ b) +:+ c = a +:+ b +:+ c.
Proof. induction a as [|x a IH]; [done|]. by rewrite !string_app_cons, IH. Qed.

Lemma string_app_nil_r (a : string) : a +:+ "" = a.
Proof. induction a as [|x a IH]; [done|]. by rewrite string_app_cons, IH. Qed.

(** ** Tactics *)

(** Case analysis on every [match] the goal is stuck on, closing the
    impossible branches. *)
Ltac cases_in H :=
  repeat match type of H with
         | context [match ?x with _ => _ end] =>
             let E := fresh "E" in destruct x eqn:E; simplify_eq/=; try done
         end.

Ltac cases_goal :=
  repeat match goal with
         | |- context [match ?x with _ => _ end] =>
             let E := fresh "E" in destruct x eqn:E; simplify_eq/=; try done
         end.

(** Boolean comparisons of [Z] in hypotheses as propositions. *)
Ltac zbool :=
  repeat match goal with
         | H : (_ && _)%bool = true |- _ => apply andb_true_iff in H as [? ?]
         | H : (_ || _)%bool = false |- _ => apply orb_false_iff in H as [? ?]
         | H : negb _ = true |- _ => apply negb_true_iff in H
         | H : negb _ = false |- _ => apply negb_false_iff in H
         | H : (_ <? _) = true |- _ => apply Z.ltb_lt in H
         | H : (_ <? _) = false |- _ => apply Z.ltb_ge in H
         | H : (_ <=? _) = true |- _ => apply Z.leb_le in H
         | H : (_ <=? _) = false |- _ => apply Z.leb_gt in H
         | H : (_ =? _) = true |- _ => apply Z.eqb_eq in H
         | H : (_ =? _) = false |- _ => apply Z.eqb_neq in H
         end.
