(* ===== verification/Status.v ===== *)
(** * Status: [absl::Status] as the Dive sources use it

    [src/dive/common/status.h] builds every error of the program;
    [src/dive/common/macros.h] threads errors through a function
    ([RETURN_IF_ERROR], [ASSIGN_OR_RETURN]).  A function of the source that
    returns [absl::StatusOr<A>] and changes a state [S] is a [StatusM S A]:
    the state survives an error, as in the source, where the fields that were
    assigned before the early return keep their new values.

    The text of the logical stack trace that [AddStackTrace] attaches comes
    from absl's symbolizer; the model records whether a status carries one. *)

From S2P Require Import Prelude.

Inductive StatusCode :=
  | kOk | kCancelled | kInvalidArgument | kDeadlineExceeded | kNotFound
  | kAlreadyExists | kPermissionDenied | kFailedPrecondition | kAborted
  | kOutOfRange | kUnimplemented | kInternal | kUnavailable | kDataLoss.

#[global] Instance StatusCode_eq_dec : EqDecision StatusCode.
Proof. solve_decision. Defined.

Record Status := mkStatus {
  code : StatusCode;
  message : string;
  has_stack_trace : bool
}.

#[global] Instance Status_eq_dec : EqDecision Status.
Proof. solve_decision. Defined.

Definition status_ok (s : Status) : bool := bool_decide (code s = kOk).

Definition AddStackTrace (s : Status) : Status :=
  mkStatus (code s) (message s) true.

Definition OkStatus : Status := mkStatus kOk "" false.
Definition InvalidArgumentError (m : string) := AddStackTrace (mkStatus kInvalidArgument m false).
Definition UnimplementedError (m : string) := AddStackTrace (mkStatus kUnimplemented m false).
Definition NotFoundError (m : string) := AddStackTrace (mkStatus kNotFound m false).
Definition FailedPreconditionError (m : string) := AddStackTrace (mkStatus kFailedPrecondition m false).
Definition UnavailableError (m : string) := AddStackTrace (mkStatus kUnavailable m false).
Definition AlreadyExistsError (m : string) := AddStackTrace (mkStatus kAlreadyExists m false).
Definition AbortedError (m : string) := AddStackTrace (mkStatus kAborted m false).
Definition CancelledError (m : string) := AddStackTrace (mkStatus kCancelled m false).
Definition DataLossError (m : string) := AddStackTrace (mkStatus kDataLoss m false).
Definition DeadlineExceededError (m : string) := AddStackTrace (mkStatus kDeadlineExceeded m false).
Definition InternalError (m : string) := AddStackTrace (mkStatus kInternal m false).
Definition OutOfRangeError (m : string) := AddStackTrace (mkStatus kOutOfRange m false).
Definition PermissionDeniedError (m : string) := AddStackTrace (mkStatus kPermissionDenied m false).

(** [StatusWithContext]: prepends a context, keeps the code and the trace. *)
Definition StatusWithContext (s : Status) (context : string) : Status :=
  mkStatus (code s) (context +:+ ": " +:+ message s) (has_stack_trace s).

(** ** [absl::StatusOr] and the state-and-error monad *)

Inductive StatusOr (A : Type) :=
  | Value (a : A)
  | Error (s : Status).
Arguments Value {A} a.
Arguments Error {A} s.

(** [result.status()] *)
Definition status_of {A} (r : StatusOr A) : Status :=
  match r with Value _ => OkStatus | Error s => s end.

Definition is_value {A} (r : StatusOr A) : bool :=
  match r with Value _ => true | Error _ => false end.

Definition StatusM (S A : Type) : Type := S -> StatusOr A * S.

Definition ret {S A} (a : A) : StatusM S A := fun s => (Value a, s).

(** Sequencing; the first error returns, which is what both macros do. *)
Definition bind {S A B} (m : StatusM S A) (k : A -> StatusM S B) : StatusM S B := fun s =>
  match m s with
  | (Value a, s') => k a s'
  | (Error e, s') => (Error e, s')
  end.

Declare Scope status_scope.
Delimit Scope status_scope with status.
Notation "'let*' x ':=' m 'in' k" := (bind m (fun x => k))
  (at level 10, x pattern, m at level 100, k at level 200)
  : status_scope.
Notation "'do*' m 'in' k" := (bind m (fun _ => k))
  (at level 10, m at level 100, k at level 200) : status_scope.
#[global] Open Scope status_scope.

Definition fail_with {S A} (e : Status) : StatusM S A := fun s => (Error e, s).
Definition get_state {S} : StatusM S S := fun s => (Value s, s).
Definition modify_state {S} (f : S -> S) : StatusM S unit := fun s => (Value tt, f s).

(** [StatusWithContext] applied to the error of a computation. *)
Definition with_context {S A} (c : string) (m : StatusM S A) : StatusM S A := fun s =>
  match m s with
  | (Error e, s') => (Error (StatusWithContext e c), s')
  | ok => ok
  end.

(** ** Facts *)

Lemma StatusWithContext_code s c : code (StatusWithContext s c) = code s.
Proof. done. Qed.

Lemma StatusWithContext_not_ok s c :
  status_ok s = false -> status_ok (StatusWithContext s c) = false.
Proof. done. Qed.

Lemma bind_value {S A B} (m : StatusM S A) (k : A -> StatusM S B) s a s' :
  m s = (Value a, s') -> bind m k s = k a s'.
Proof. intros H. unfold bind. by rewrite H. Qed.

Lemma bind_error {S A B} (m : StatusM S A) (k : A -> StatusM S B) s e s' :
  m s = (Error e, s') -> bind m k s = (Error e, s').
Proof. intros H. unfold bind. by rewrite H. Qed.

Lemma bind_value_inv {S A B} (m : StatusM S A) (k : A -> StatusM S B) s b s'' :
  bind m k s = (Value b, s'') ->
  exists a s', m s = (Value a, s') /\ k a s' = (Value b, s'').
Proof.
  unfold bind. destruct (m s) as [[a|e] s'] eqn:E; [|done].
  eauto.
Qed.

#[export] Hint Resolve bind_value bind_error : dive.
