(* ===== verification/Wire.v ===== *)
(** * Wire: the scalar encodings of the network protocol

    Models the [Write*ToBuffer] and [Read*FromBuffer] helpers of
    [src/network/messages.cc].  A [Buffer] ([std::vector<uint8_t>]) is a list
    of bytes; a [std::string] is a Rocq [string], whose characters are bytes;
    [size_t offset] is a [Z] (64-bit on every target the code is built for,
    so that [offset + len], with [offset] at most a buffer's size and [len]
    below 2^32, does not wrap).

    The section at the end states what a reader and a writer promise each
    other, as the predicate [reads_back], and proves it for every scalar; the
    message classes of [Messages.v] are proved against that promise only. *)

From S2P Require Import Prelude Status.
From coqutil Require Byte Word.LittleEndianList.

Abbreviation Buffer := (list byte).
Abbreviation le_split := LittleEndianList.le_split.
Abbreviation le_combine := LittleEndianList.le_combine.

(** [src.size()] *)
Definition size (src : Buffer) : Z := Z.of_nat (length src).

(** ** Byte order: the host is little-endian, so that [htonl] swaps *)
Definition htonl (v : Z) : Z := le_combine (rev (le_split 4 v)).
Definition ntohl (v : Z) : Z := le_combine (rev (le_split 4 v)).

(** ** Writers *)
Definition WriteBoolToBuffer (value : bool) (dest : Buffer) : Buffer :=
  dest ++ [Byte.byte.of_Z (Z.b2z value)].

Definition WriteUint32ToBuffer (value : Z) (dest : Buffer) : Buffer :=
  let net_val := htonl value in
  dest ++ le_split 4 net_val.

Definition WriteUint64ToBuffer (value : Z) (dest : Buffer) : Buffer :=
  let dest := WriteUint32ToBuffer (wrap 32 (Z.shiftr value 32)) dest in
  WriteUint32ToBuffer (wrap 32 (Z.land value 0xFFFFFFFF)) dest.

Definition WriteStringToBuffer (str : string) (dest : Buffer) : Buffer :=
  let dest := WriteUint32ToBuffer (wrap 32 (Z.of_nat (String.length str))) dest in
  dest ++ String.list_byte_of_string str.

(** ** Readers: they advance [offset], the state of the monad *)
Definition reader (A : Type) : Type := Buffer -> StatusM Z A.

(** The [n] bytes of [src] from [offset] on ([memcpy] out of the buffer). *)
Definition bytes_at (src : Buffer) (offset n : Z) : Buffer :=
  take (Z.to_nat n) (drop (Z.to_nat offset) src).

Definition ReadBoolFromBuffer : reader bool := fun src offset =>
  if size src <? offset + 1 then
    (Error (InvalidArgumentError "Buffer too small to read a bool."), offset)
  else
    let value := negb (le_combine (bytes_at src offset 1) =? 0) in
    (Value value, offset + 1).

Definition ReadUint32FromBuffer : reader Z := fun src offset =>
  if size src <? offset + 4 then
    (Error (InvalidArgumentError "Buffer too small to read an uint32_t."), offset)
  else
    let net_val := le_combine (bytes_at src offset 4) in
    (Value (ntohl net_val), offset + 4).

Definition ReadUint64FromBuffer : reader Z := fun src =>
  let* high := ReadUint32FromBuffer src in
  let* low := ReadUint32FromBuffer src in
  ret (Z.lor (wrap 64 (Z.shiftl high 32)) low).

Definition ReadStringFromBuffer : reader string := fun src =>
  let* len := ReadUint32FromBuffer src in
  fun offset =>
    if size src <? offset + len then
      (Error (InvalidArgumentError "Buffer too small for declared string length."), offset)
    else
      (Value (String.string_of_list_byte (bytes_at src offset len)), offset + len).

(** ** Little- and big-endian words *)

Lemma length_le_split n z : length (le_split n z) = n.
Proof. apply LittleEndianList.length_le_split. Qed.

Lemma rev_involutive_swap v :
  in_width 32 v -> ntohl (htonl v) = v.
Proof.
  intros Hv. unfold ntohl, htonl.
  rewrite (LittleEndianList.split_le_combine' (rev _) 4)
    by (by rewrite length_rev, length_le_split).
  rewrite rev_involutive, LittleEndianList.le_combine_split.
  by apply Z.mod_small.
Qed.

Lemma le_combine_range (l : list byte) :
  0 <= le_combine l < 2 ^ (8 * Z.of_nat (length l)).
Proof. apply LittleEndianList.le_combine_bound. Qed.

Lemma htonl_range v : in_width 32 (htonl v).
Proof.
  unfold htonl, in_width.
  pose proof (le_combine_range (rev (le_split 4 v))) as H.
  by rewrite length_rev, length_le_split in H.
Qed.

(** The four bytes on the wire are the value's, most significant first. *)
Lemma WriteUint32_big_endian v dest :
  WriteUint32ToBuffer v dest = dest ++ rev (le_split 4 v).
Proof.
  unfold WriteUint32ToBuffer, htonl. f_equal.
  apply LittleEndianList.split_le_combine'.
  by rewrite length_rev, length_le_split.
Qed.

Lemma u64_halves v :
  in_width 64 v ->
  Z.lor (wrap 64 (Z.shiftl (wrap 32 (Z.shiftr v 32)) 32)) (wrap 32 (Z.land v 0xFFFFFFFF)) = v.
Proof.
  intros Hv. unfold wrap, in_width in *.
  change 0xFFFFFFFF with (Z.ones 32).
  rewrite <- !Z.land_ones by lia.
  apply Z.bits_inj'. intros i Hi.
  rewrite Z.lor_spec, !Z.land_spec, Z.shiftl_spec by done.
  destruct (Z.lt_ge_cases i 32) as [Hlt|Hge].
  - rewrite (Z.testbit_neg_r _ (i - 32)) by lia.
    rewrite !Z.ones_spec_low by lia. by rewrite !andb_true_r.
  - rewrite (Z.ones_spec_high 32 i), !andb_false_r, orb_false_r by lia.
    rewrite Z.land_spec, Z.shiftr_spec by lia.
    replace (i - 32 + 32) with i by lia.
    destruct (Z.lt_ge_cases i 64) as [H64|H64].
    + rewrite !Z.ones_spec_low by lia. by rewrite !andb_true_r.
    + rewrite (Z.ones_spec_high 64) by lia. rewrite andb_false_r.
      destruct (Z.eq_dec v 0) as [->|Hv0]; [by rewrite Z.bits_0|].
      symmetry. apply Z.bits_above_log2; [lia|].
      apply Z.log2_lt_pow2; [lia|].
      eapply Z.lt_le_trans; [apply Hv|]. apply Z.pow_le_mono_r; lia.
Qed.

(** ** What a reader promises to the writer of the same value *)

(** [reads_back rd b a]: wherever the bytes [b] stand in a buffer, [rd]
    returns [a] and leaves the offset behind them. *)
Definition reads_back {A} (rd : reader A) (b : Buffer) (a : A) : Prop :=
  forall pre post : Buffer,
    rd (pre ++ b ++ post) (size pre) = (Value a, size pre + size b).

Lemma size_app b1 b2 : size (b1 ++ b2) = size b1 + size b2.
Proof. unfold size. rewrite length_app. lia. Qed.

Lemma size_nonneg b : 0 <= size b.
Proof. unfold size. lia. Qed.

#[export] Hint Resolve size_nonneg htonl_range : dive.
#[export] Hint Rewrite size_app : dive_rw.

Lemma bytes_at_middle (pre b post : Buffer) :
  bytes_at (pre ++ b ++ post) (size pre) (size b) = b.
Proof.
  unfold bytes_at, size. rewrite !Nat2Z.id.
  by rewrite drop_app_length, take_app_length.
Qed.

Lemma bytes_at_middle_n (pre b post : Buffer) n :
  size b = n -> bytes_at (pre ++ b ++ post) (size pre) n = b.
Proof. intros <-. apply bytes_at_middle. Qed.

Lemma fits_middle (pre b post : Buffer) n :
  size b = n -> (size (pre ++ b ++ post) <? size pre + n) = false.
Proof.
  intros <-. apply Z.ltb_ge. rewrite !size_app.
  pose proof (size_nonneg post). lia.
Qed.

Lemma reads_back_bool v : reads_back ReadBoolFromBuffer (WriteBoolToBuffer v []) v.
Proof.
  intros pre post. unfold ReadBoolFromBuffer, WriteBoolToBuffer. rewrite app_nil_l.
  rewrite fits_middle, bytes_at_middle_n by done.
  by destruct v.
Qed.

Lemma reads_back_u32 v :
  in_width 32 v -> reads_back ReadUint32FromBuffer (WriteUint32ToBuffer v []) v.
Proof.
  intros Hv pre post. unfold ReadUint32FromBuffer, WriteUint32ToBuffer. rewrite app_nil_l.
  assert (size (le_split 4 (htonl v)) = 4) as Hs
    by (unfold size; by rewrite length_le_split).
  rewrite fits_middle, bytes_at_middle_n by done.
  rewrite LittleEndianList.le_combine_split, Hs.
  change (2 ^ (Z.of_nat 4 * 8)) with (2 ^ 32).
  rewrite (Z.mod_small (htonl v)) by apply htonl_range.
  by rewrite rev_involutive_swap.
Qed.

(** Two readers in sequence read the concatenation of two writers' bytes. *)
Lemma reads_back_bind {A B} (r1 : reader A) (r2 : A -> reader B) b1 b2 a b :
  reads_back r1 b1 a -> reads_back (r2 a) b2 b ->
  reads_back (fun src => bind (r1 src) (fun x => r2 x src)) (b1 ++ b2) b.
Proof.
  intros H1 H2 pre post.
  specialize (H1 pre (b2 ++ post)). specialize (H2 (pre ++ b1) post).
  rewrite <- !app_assoc in *.
  rewrite (bind_value _ _ _ _ _ H1).
  rewrite size_app in *. rewrite H2. f_equal. lia.
Qed.

Lemma reads_back_ret {A} (a : A) : reads_back (fun _ => ret a) [] a.
Proof. intros pre post. unfold ret. by rewrite Z.add_0_r. Qed.

(** Writers append: the bytes they add do not depend on the destination. *)
Lemma WriteBool_app v dest : WriteBoolToBuffer v dest = dest ++ WriteBoolToBuffer v [].
Proof. done. Qed.
Lemma WriteUint32_app v dest : WriteUint32ToBuffer v dest = dest ++ WriteUint32ToBuffer v [].
Proof. done. Qed.
Lemma WriteUint64_app v dest : WriteUint64ToBuffer v dest = dest ++ WriteUint64ToBuffer v [].
Proof. unfold WriteUint64ToBuffer, WriteUint32ToBuffer. by rewrite app_nil_l, app_assoc. Qed.
Lemma WriteString_app s dest : WriteStringToBuffer s dest = dest ++ WriteStringToBuffer s [].
Proof. unfold WriteStringToBuffer, WriteUint32ToBuffer. by rewrite app_nil_l, app_assoc. Qed.

Lemma reads_back_map {A B} (r : reader A) (f : A -> B) b a :
  reads_back r b a -> reads_back (fun src => let* x := r src in ret (f x)) b (f a).
Proof.
  intros H pre post. by rewrite (bind_value _ _ _ _ _ (H pre post)).
Qed.

Lemma reads_back_u64 v :
  in_width 64 v -> reads_back ReadUint64FromBuffer (WriteUint64ToBuffer v []) v.
Proof.
  intros Hv. unfold WriteUint64ToBuffer. rewrite WriteUint32_app.
  rewrite <- (u64_halves v Hv) at 3.
  eapply (reads_back_bind ReadUint32FromBuffer
           (fun high src => let* low := ReadUint32FromBuffer src in
                            ret (Z.lor (wrap 64 (Z.shiftl high 32)) low))).
  - apply reads_back_u32, wrap_range. lia.
  - apply (reads_back_map ReadUint32FromBuffer), reads_back_u32, wrap_range. lia.
Qed.

Lemma length_list_byte_of_string s :
  length (String.list_byte_of_string s) = String.length s.
Proof.
  unfold String.list_byte_of_string. rewrite length_map.
  induction s; simpl; congruence.
Qed.

(** A string of fewer than 2^32 bytes is read back. *)
Lemma reads_back_string s :
  in_width 32 (Z.of_nat (String.length s)) ->
  reads_back ReadStringFromBuffer (WriteStringToBuffer s []) s.
Proof.
  intros Hs. unfold WriteStringToBuffer.
  eapply (reads_back_bind ReadUint32FromBuffer
    (fun len src offset =>
       if size src <? offset + len then (Error _, offset)
       else (Value (String.string_of_list_byte (bytes_at src offset len)), offset + len))).
  - apply reads_back_u32, wrap_range. lia.
  - rewrite wrap_small by done. intros pre post.
    assert (size (String.list_byte_of_string s) = Z.of_nat (String.length s)) as Hz
      by (unfold size; by rewrite length_list_byte_of_string).
    rewrite fits_middle, bytes_at_middle_n by done.
    by rewrite String.string_of_list_byte_of_string, Hz.
Qed.

(** [rejects_truncated rd b]: on every strict prefix of [b] that ends the
    buffer the reader fails with [kInvalidArgument]. *)
Definition rejects_truncated {A} (rd : reader A) (b : Buffer) : Prop :=
  forall pre p : Buffer, p `prefix_of` b -> (length p < length b)%nat ->
    exists e off, rd (pre ++ p) (size pre) = (Error e, off) /\ code e = kInvalidArgument.

(** The whole promise: [b] is an encoding of [a] that [rd] reads back and of
    which it accepts no strict prefix. *)
Record codec {A} (rd : reader A) (b : Buffer) (a : A) : Prop := mkCodec {
  codec_reads_back : reads_back rd b a;
  codec_rejects : rejects_truncated rd b
}.

Lemma too_short (pre p : Buffer) n :
  size p < n -> (size (pre ++ p) <? size pre + n) = true.
Proof. intros H. apply Z.ltb_lt. rewrite size_app. lia. Qed.

(** A strict prefix of a concatenation ends in its first or second part. *)
Lemma strict_prefix_app (p b1 b2 : Buffer) :
  p `prefix_of` b1 ++ b2 -> (length p < length (b1 ++ b2))%nat ->
  (p `prefix_of` b1 /\ (length p < length b1)%nat) \/
  exists p2, p = b1 ++ p2 /\ p2 `prefix_of` b2 /\ (length p2 < length b2)%nat.
Proof.
  intros Hp Hl. destruct (prefix_app_or p b1 b2 Hp) as [H|(p2 & -> & H)].
  - destruct (decide (length p = length b1)) as [He|Hne].
    + right. exists []. rewrite app_nil_r.
      assert (p = b1) as -> by (destruct H as [k ->]; rewrite length_app in He;
        destruct k; [by rewrite app_nil_r|simpl in He; lia]).
      repeat split; [apply prefix_nil|]. rewrite length_app in Hl. simpl. lia.
    + left. split; [done|]. pose proof (prefix_length _ _ H). lia.
  - right. exists p2. repeat split; [done|]. rewrite !length_app in Hl. lia.
Qed.

Lemma codec_bind {A B} (r1 : reader A) (r2 : A -> reader B) b1 b2 a b :
  codec r1 b1 a -> codec (r2 a) b2 b ->
  codec (fun src => bind (r1 src) (fun x => r2 x src)) (b1 ++ b2) b.
Proof.
  intros [H1 T1] [H2 T2]. split; [by eapply reads_back_bind|].
  intros pre p Hp Hl. destruct (strict_prefix_app _ _ _ Hp Hl)
    as [[Hp1 Hl1]|(p2 & -> & Hp2 & Hl2)].
  - destruct (T1 pre p Hp1 Hl1) as (e & off & He & Hc).
    exists e, off. by rewrite (bind_error _ _ _ _ _ He).
  - rewrite (bind_value _ _ _ _ _ (H1 pre p2)).
    destruct (T2 (pre ++ b1) p2 Hp2 Hl2) as (e & off & He & Hc).
    exists e, off. by rewrite app_assoc, <- size_app.
Qed.

Lemma codec_ret {A} (a : A) : codec (fun _ => ret a) [] a.
Proof. split; [apply reads_back_ret|]. intros pre p _ Hl. simpl in Hl. lia. Qed.

Lemma codec_map {A B} (r : reader A) (f : A -> B) b a :
  codec r b a -> codec (fun src => let* x := r src in ret (f x)) b (f a).
Proof.
  intros [H T]. split; [by apply reads_back_map|].
  intros pre p Hp Hl. destruct (T pre p Hp Hl) as (e & off & He & Hc).
  exists e, off. by rewrite (bind_error _ _ _ _ _ He).
Qed.

Lemma codec_bool v : codec ReadBoolFromBuffer (WriteBoolToBuffer v []) v.
Proof.
  split; [apply reads_back_bool|]. intros pre p _ Hl.
  unfold ReadBoolFromBuffer. rewrite too_short; [eauto|].
  unfold size, WriteBoolToBuffer in *. simpl in Hl. lia.
Qed.

Lemma length_WriteUint32 v : length (WriteUint32ToBuffer v []) = 4%nat.
Proof. unfold WriteUint32ToBuffer. rewrite app_nil_l. apply length_le_split. Qed.

Lemma codec_u32 v :
  in_width 32 v -> codec ReadUint32FromBuffer (WriteUint32ToBuffer v []) v.
Proof.
  intros Hv. split; [by apply reads_back_u32|]. intros pre p _ Hl.
  unfold ReadUint32FromBuffer. rewrite too_short; [eauto|].
  rewrite length_WriteUint32 in Hl. unfold size. lia.
Qed.

Lemma codec_u64 v :
  in_width 64 v -> codec ReadUint64FromBuffer (WriteUint64ToBuffer v []) v.
Proof.
  intros Hv. unfold WriteUint64ToBuffer. rewrite WriteUint32_app.
  rewrite <- (u64_halves v Hv) at 3.
  eapply (codec_bind ReadUint32FromBuffer
           (fun high src => let* low := ReadUint32FromBuffer src in
                            ret (Z.lor (wrap 64 (Z.shiftl high 32)) low))).
  - apply codec_u32, wrap_range. lia.
  - apply (codec_map ReadUint32FromBuffer), codec_u32, wrap_range. lia.
Qed.

Lemma codec_string s :
  in_width 32 (Z.of_nat (String.length s)) ->
  codec ReadStringFromBuffer (WriteStringToBuffer s []) s.
Proof.
  intros Hs. split; [by apply reads_back_string|].
  unfold WriteStringToBuffer. rewrite wrap_small by done. intros pre p Hp Hl.
  destruct (codec_u32 _ Hs) as [R T].
  destruct (strict_prefix_app _ _ _ Hp Hl) as [[Hp1 Hl1]|(p2 & -> & Hp2 & Hl2)].
  - destruct (T pre p Hp1 Hl1) as (e & off & He & Hc).
    exists e, off. unfold ReadStringFromBuffer. by rewrite (bind_error _ _ _ _ _ He).
  - unfold ReadStringFromBuffer. rewrite (bind_value _ _ _ _ _ (R pre p2)).
    rewrite app_assoc, <- size_app, too_short; [eauto|].
    rewrite length_list_byte_of_string in Hl2. unfold size. lia.
Qed.

#[export] Hint Resolve codec_bool codec_u32 codec_u64 codec_string codec_ret : dive.

(** Turns nested writer calls into a concatenation of encodings. *)
Ltac split_writers :=
  repeat match goal with
    | |- context [WriteBoolToBuffer ?v ?d] =>
        lazymatch d with [] => fail | _ => rewrite (WriteBool_app v d) end
    | |- context [WriteUint32ToBuffer ?v ?d] =>
        lazymatch d with [] => fail | _ => rewrite (WriteUint32_app v d) end
    | |- context [WriteUint64ToBuffer ?v ?d] =>
        lazymatch d with [] => fail | _ => rewrite (WriteUint64_app v d) end
    | |- context [WriteStringToBuffer ?v ?d] =>
        lazymatch d with [] => fail | _ => rewrite (WriteString_app v d) end
    end;
  rewrite <- ?app_assoc.

#[global] Arguments WriteBoolToBuffer : simpl never.
#[global] Arguments WriteUint32ToBuffer : simpl never.
#[global] Arguments WriteUint64ToBuffer : simpl never.
#[global] Arguments WriteStringToBuffer : simpl never.
