(* ===== verification/Messages.v ===== *)
(** * Messages: the payloads of the network protocol

    Models the message classes of [src/network/messages.h] with their
    [Serialize]/[Deserialize] in [src/network/messages.cc] and the data of
    [src/network/drawcall_filter_config.h].

    A class that overrides [Serialize]/[Deserialize] is a record with an
    instance of [Payload]; [PayloadLaws] is what the framing layer
    ([Framing.v]) relies on.  The classes the factory of
    [ReceiveSocketMessage] can create are the constructors of [Message]. *)

From S2P Require Import Prelude Status Wire.

Inductive MessageType :=
  | HANDSHAKE_REQUEST | HANDSHAKE_RESPONSE | PING_MESSAGE | PONG_MESSAGE
  | PM4_CAPTURE_REQUEST | PM4_CAPTURE_RESPONSE
  | DOWNLOAD_FILE_REQUEST | DOWNLOAD_FILE_RESPONSE
  | FILE_SIZE_REQUEST | FILE_SIZE_RESPONSE
  | REMOVE_FILE_REQUEST | REMOVE_FILE_RESPONSE
  | DRAWCALL_FILTER_CONFIG_REQUEST | DRAWCALL_FILTER_CONFIG_RESPONSE
  | LIVE_PSOS_REQUEST | LIVE_PSOS_RESPONSE
  | LIVE_RENDER_PASSES_REQUEST | LIVE_RENDER_PASSES_RESPONSE
  | DISABLE_TIMESTAMP_REQUEST | DISABLE_TIMESTAMP_RESPONSE.

#[global] Instance MessageType_eq_dec : EqDecision MessageType.
Proof. solve_decision. Defined.

(** [static_cast<uint32_t>(MessageType)] *)
Definition MessageType_to_Z (t : MessageType) : Z :=
  match t with
  | HANDSHAKE_REQUEST => 1 | HANDSHAKE_RESPONSE => 2
  | PING_MESSAGE => 3 | PONG_MESSAGE => 4
  | PM4_CAPTURE_REQUEST => 5 | PM4_CAPTURE_RESPONSE => 6
  | DOWNLOAD_FILE_REQUEST => 7 | DOWNLOAD_FILE_RESPONSE => 8
  | FILE_SIZE_REQUEST => 9 | FILE_SIZE_RESPONSE => 10
  | REMOVE_FILE_REQUEST => 11 | REMOVE_FILE_RESPONSE => 12
  | DRAWCALL_FILTER_CONFIG_REQUEST => 13 | DRAWCALL_FILTER_CONFIG_RESPONSE => 14
  | LIVE_PSOS_REQUEST => 15 | LIVE_PSOS_RESPONSE => 16
  | LIVE_RENDER_PASSES_REQUEST => 17 | LIVE_RENDER_PASSES_RESPONSE => 18
  | DISABLE_TIMESTAMP_REQUEST => 19 | DISABLE_TIMESTAMP_RESPONSE => 20
  end.

(** ** Deserialisation: fields assigned one by one, from offset 0 *)

Section Deserialising.
Context {Self : Type}.

(** A reader advances the offset and leaves the object alone. *)
Definition lift_reader {A} (rd : reader A) (src : Buffer) : StatusM (Self * Z) A :=
  fun '(self, offset) =>
    let '(r, offset') := rd src offset in (r, (self, offset')).

(** [ASSIGN_OR_RETURN(m_field, ReadX(src, offset))] *)
Definition assign {A} (set : A -> Self -> Self) (rd : reader A) (src : Buffer)
  : StatusM (Self * Z) unit :=
  let* a := lift_reader rd src in
  modify_state (fun '(self, offset) => (set a self, offset)).

(** [if (offset != src.size()) return InvalidArgumentError(...)] *)
Definition check_end (msg : string) (src : Buffer) : StatusM (Self * Z) unit :=
  fun '(self, offset) =>
    if offset =? size src then (Value tt, (self, offset))
    else (Error (InvalidArgumentError msg), (self, offset)).

(** [for (uint32_t i = 0; i < count; ++i) { ...; v.push_back(std::move(x)); }];
    [n] is what is left to read. *)
Fixpoint read_loop {A} (push_back : A -> Self -> Self) (rd : reader A) (n : nat)
    (src : Buffer) : StatusM (Self * Z) unit :=
  match n with
  | O => ret tt
  | S n =>
      do* assign push_back rd src in
      read_loop push_back rd n src
  end.

Definition run_deserialize (c : Buffer -> StatusM (Self * Z) unit)
    (self : Self) (src : Buffer) : Status * Self :=
  let '(r, (self', _)) := c src (self, 0) in (status_of r, self').
End Deserialising.

(** ** Interface: a payload, and what the framing layer expects of it *)

Class Payload (M : Type) := {
  Serialize : M -> Buffer -> Status * Buffer;
  Deserialize : M -> Buffer -> Status * M;
  (** the field values fit their C++ types *)
  payload_wf : M -> Prop
}.

Class PayloadLaws (M : Type) `{Payload M} := {
  serialize_ok : forall m dest, fst (Serialize m dest) = OkStatus;
  deserialize_serialize : forall m m0,
    payload_wf m -> Deserialize m0 (snd (Serialize m [])) = (OkStatus, m);
  deserialize_truncated : forall m m0 p,
    payload_wf m -> p `prefix_of` snd (Serialize m []) ->
    (length p < length (snd (Serialize m [])))%nat ->
    code (fst (Deserialize m0 p)) = kInvalidArgument
}.

(** Payloads that also reject trailing bytes (all but [EmptyMessage]). *)
Class ExactPayload (M : Type) `{Payload M} :=
  deserialize_trailing : forall m m0 x extra,
    payload_wf m ->
    code (fst (Deserialize m0 (snd (Serialize m []) ++ x :: extra))) = kInvalidArgument.

Definition str_wf (s : string) : Prop := in_width 32 (Z.of_nat (String.length s)).

(** ** The message classes *)

Record HandshakeMessage := mkHandshake { m_major_version : Z; m_minor_version : Z }.

Definition set_m_major_version v (m : HandshakeMessage) := mkHandshake v (m_minor_version m).
Definition set_m_minor_version v (m : HandshakeMessage) := mkHandshake (m_major_version m) v.

Definition HandshakeMessage_Serialize (m : HandshakeMessage) (dest : Buffer) : Status * Buffer :=
  let dest := [] in (* dest.clear() *)
  let dest := WriteUint32ToBuffer (m_major_version m) dest in
  let dest := WriteUint32ToBuffer (m_minor_version m) dest in
  (OkStatus, dest).

Definition HandshakeMessage_Deserialize : HandshakeMessage -> Buffer -> Status * HandshakeMessage :=
  run_deserialize (fun src =>
    do* assign set_m_major_version ReadUint32FromBuffer src in
    do* assign set_m_minor_version ReadUint32FromBuffer src in
    check_end "Handshake message has unexpected trailing data." src).

Definition HandshakeMessage_wf (m : HandshakeMessage) : Prop :=
  in_width 32 (m_major_version m) /\
  in_width 32 (m_minor_version m).

#[export] Instance HandshakeMessage_Payload : Payload HandshakeMessage :=
  { Serialize := HandshakeMessage_Serialize; Deserialize := HandshakeMessage_Deserialize;
    payload_wf := HandshakeMessage_wf }.

(** [EmptyMessage] neither clears [dest] nor looks at [src]. *)
Inductive EmptyMessage := mkEmpty.

Definition EmptyMessage_Serialize (m : EmptyMessage) (dest : Buffer) : Status * Buffer :=
  (OkStatus, dest).

Definition EmptyMessage_Deserialize (m : EmptyMessage) (src : Buffer) : Status * EmptyMessage :=
  (OkStatus, m).

#[export] Instance EmptyMessage_Payload : Payload EmptyMessage :=
  { Serialize := EmptyMessage_Serialize; Deserialize := EmptyMessage_Deserialize;
    payload_wf := fun _ => True }.

Record StringMessage := mkString {
  m_str : string
}.

Definition set_m_str v (m : StringMessage) := mkString v.

Definition StringMessage_Serialize (m : StringMessage) (dest : Buffer) : Status * Buffer :=
  let dest := [] in (* dest.clear() *)
  let dest := WriteStringToBuffer (m_str m) dest in
  (OkStatus, dest).

Definition StringMessage_Deserialize : StringMessage -> Buffer -> Status * StringMessage :=
  run_deserialize (fun src =>
    do* assign set_m_str ReadStringFromBuffer src in
    check_end "String message has unexpected trailing data." src).

Definition StringMessage_wf (m : StringMessage) : Prop :=
  str_wf (m_str m).

#[export] Instance StringMessage_Payload : Payload StringMessage :=
  { Serialize := StringMessage_Serialize; Deserialize := StringMessage_Deserialize;
    payload_wf := StringMessage_wf }.

Record RemoveFileResponse := mkRemoveFileResponse {
  rm_error_reason : string;
  rm_success : bool
}.

Definition set_rm_error_reason v (m : RemoveFileResponse) := mkRemoveFileResponse v (rm_success m).
Definition set_rm_success v (m : RemoveFileResponse) := mkRemoveFileResponse (rm_error_reason m) v.

Definition RemoveFileResponse_Serialize (m : RemoveFileResponse) (dest : Buffer) : Status * Buffer :=
  let dest := [] in (* dest.clear() *)
  let dest := WriteStringToBuffer (rm_error_reason m) dest in
  let dest := WriteBoolToBuffer (rm_success m) dest in
  (OkStatus, dest).

Definition RemoveFileResponse_Deserialize : RemoveFileResponse -> Buffer -> Status * RemoveFileResponse :=
  run_deserialize (fun src =>
    do* assign set_rm_error_reason ReadStringFromBuffer src in
    do* assign set_rm_success ReadBoolFromBuffer src in
    check_end "RemoveFileResponse has unexpected trailing data." src).

Definition RemoveFileResponse_wf (m : RemoveFileResponse) : Prop :=
  str_wf (rm_error_reason m).

#[export] Instance RemoveFileResponse_Payload : Payload RemoveFileResponse :=
  { Serialize := RemoveFileResponse_Serialize; Deserialize := RemoveFileResponse_Deserialize;
    payload_wf := RemoveFileResponse_wf }.

Record DownloadFileResponse := mkDownloadFileResponse {
  dl_found : bool;
  dl_error_reason : string;
  dl_file_path : string;
  dl_file_size : Z
}.

Definition set_dl_found v (m : DownloadFileResponse) := mkDownloadFileResponse v (dl_error_reason m) (dl_file_path m) (dl_file_size m).
Definition set_dl_error_reason v (m : DownloadFileResponse) := mkDownloadFileResponse (dl_found m) v (dl_file_path m) (dl_file_size m).
Definition set_dl_file_path v (m : DownloadFileResponse) := mkDownloadFileResponse (dl_found m) (dl_error_reason m) v (dl_file_size m).
Definition set_dl_file_size v (m : DownloadFileResponse) := mkDownloadFileResponse (dl_found m) (dl_error_reason m) (dl_file_path m) v.

Definition DownloadFileResponse_Serialize (m : DownloadFileResponse) (dest : Buffer) : Status * Buffer :=
  let dest := [] in (* dest.clear() *)
  let dest := WriteBoolToBuffer (dl_found m) dest in
  let dest := WriteStringToBuffer (dl_error_reason m) dest in
  let dest := WriteStringToBuffer (dl_file_path m) dest in
  let dest := WriteUint64ToBuffer (dl_file_size m) dest in
  (OkStatus, dest).

Definition DownloadFileResponse_Deserialize : DownloadFileResponse -> Buffer -> Status * DownloadFileResponse :=
  run_deserialize (fun src =>
    do* assign set_dl_found ReadBoolFromBuffer src in
    do* assign set_dl_error_reason ReadStringFromBuffer src in
    do* assign set_dl_file_path ReadStringFromBuffer src in
    do* assign set_dl_file_size ReadUint64FromBuffer src in
    check_end "Message has unexpected trailing data." src).

Definition DownloadFileResponse_wf (m : DownloadFileResponse) : Prop :=
  str_wf (dl_error_reason m) /\
  str_wf (dl_file_path m) /\
  in_width 64 (dl_file_size m).

#[export] Instance DownloadFileResponse_Payload : Payload DownloadFileResponse :=
  { Serialize := DownloadFileResponse_Serialize; Deserialize := DownloadFileResponse_Deserialize;
    payload_wf := DownloadFileResponse_wf }.

Record FileSizeResponse := mkFileSizeResponse {
  fs_found : bool;
  fs_error_reason : string;
  fs_file_size : Z
}.

Definition set_fs_found v (m : FileSizeResponse) := mkFileSizeResponse v (fs_error_reason m) (fs_file_size m).
Definition set_fs_error_reason v (m : FileSizeResponse) := mkFileSizeResponse (fs_found m) v (fs_file_size m).
Definition set_fs_file_size v (m : FileSizeResponse) := mkFileSizeResponse (fs_found m) (fs_error_reason m) v.

Definition FileSizeResponse_Serialize (m : FileSizeResponse) (dest : Buffer) : Status * Buffer :=
  let dest := [] in (* dest.clear() *)
  let dest := WriteBoolToBuffer (fs_found m) dest in
  let dest := WriteStringToBuffer (fs_error_reason m) dest in
  let dest := WriteUint64ToBuffer (fs_file_size m) dest in
  (OkStatus, dest).

Definition FileSizeResponse_Deserialize : FileSizeResponse -> Buffer -> Status * FileSizeResponse :=
  run_deserialize (fun src =>
    do* assign set_fs_found ReadBoolFromBuffer src in
    do* assign set_fs_error_reason ReadStringFromBuffer src in
    do* assign set_fs_file_size ReadUint64FromBuffer src in
    check_end "Message has unexpected trailing data." src).

Definition FileSizeResponse_wf (m : FileSizeResponse) : Prop :=
  str_wf (fs_error_reason m) /\
  in_width 64 (fs_file_size m).

#[export] Instance FileSizeResponse_Payload : Payload FileSizeResponse :=
  { Serialize := FileSizeResponse_Serialize; Deserialize := FileSizeResponse_Deserialize;
    payload_wf := FileSizeResponse_wf }.

Record DrawcallFilterConfigRequest := mkDrawcallFilterConfigRequest {
  rq_target_render_pass_name : string;
  rq_vertex_count : Z;
  rq_index_count : Z;
  rq_instance_count : Z;
  rq_max_drawcalls : Z;
  rq_filter_by_vertex_count : bool;
  rq_filter_by_index_count : bool;
  rq_filter_by_instance_count : bool;
  rq_enable_drawcall_limit : bool;
  rq_filter_by_alpha_blended : bool;
  rq_filter_by_render_pass : bool
}.

Definition set_rq_target_render_pass_name v (m : DrawcallFilterConfigRequest) := mkDrawcallFilterConfigRequest v (rq_vertex_count m) (rq_index_count m) (rq_instance_count m) (rq_max_drawcalls m) (rq_filter_by_vertex_count m) (rq_filter_by_index_count m) (rq_filter_by_instance_count m) (rq_enable_drawcall_limit m) (rq_filter_by_alpha_blended m) (rq_filter_by_render_pass m).
Definition set_rq_vertex_count v (m : DrawcallFilterConfigRequest) := mkDrawcallFilterConfigRequest (rq_target_render_pass_name m) v (rq_index_count m) (rq_instance_count m) (rq_max_drawcalls m) (rq_filter_by_vertex_count m) (rq_filter_by_index_count m) (rq_filter_by_instance_count m) (rq_enable_drawcall_limit m) (rq_filter_by_alpha_blended m) (rq_filter_by_render_pass m).
Definition set_rq_index_count v (m : DrawcallFilterConfigRequest) := mkDrawcallFilterConfigRequest (rq_target_render_pass_name m) (rq_vertex_count m) v (rq_instance_count m) (rq_max_drawcalls m) (rq_filter_by_vertex_count m) (rq_filter_by_index_count m) (rq_filter_by_instance_count m) (rq_enable_drawcall_limit m) (rq_filter_by_alpha_blended m) (rq_filter_by_render_pass m).
Definition set_rq_instance_count v (m : DrawcallFilterConfigRequest) := mkDrawcallFilterConfigRequest (rq_target_render_pass_name m) (rq_vertex_count m) (rq_index_count m) v (rq_max_drawcalls m) (rq_filter_by_vertex_count m) (rq_filter_by_index_count m) (rq_filter_by_instance_count m) (rq_enable_drawcall_limit m) (rq_filter_by_alpha_blended m) (rq_filter_by_render_pass m).
Definition set_rq_max_drawcalls v (m : DrawcallFilterConfigRequest) := mkDrawcallFilterConfigRequest (rq_target_render_pass_name m) (rq_vertex_count m) (rq_index_count m) (rq_instance_count m) v (rq_filter_by_vertex_count m) (rq_filter_by_index_count m) (rq_filter_by_instance_count m) (rq_enable_drawcall_limit m) (rq_filter_by_alpha_blended m) (rq_filter_by_render_pass m).
Definition set_rq_filter_by_vertex_count v (m : DrawcallFilterConfigRequest) := mkDrawcallFilterConfigRequest (rq_target_render_pass_name m) (rq_vertex_count m) (rq_index_count m) (rq_instance_count m) (rq_max_drawcalls m) v (rq_filter_by_index_count m) (rq_filter_by_instance_count m) (rq_enable_drawcall_limit m) (rq_filter_by_alpha_blended m) (rq_filter_by_render_pass m).
Definition set_rq_filter_by_index_count v (m : DrawcallFilterConfigRequest) := mkDrawcallFilterConfigRequest (rq_target_render_pass_name m) (rq_vertex_count m) (rq_index_count m) (rq_instance_count m) (rq_max_drawcalls m) (rq_filter_by_vertex_count m) v (rq_filter_by_instance_count m) (rq_enable_drawcall_limit m) (rq_filter_by_alpha_blended m) (rq_filter_by_render_pass m).
Definition set_rq_filter_by_instance_count v (m : DrawcallFilterConfigRequest) := mkDrawcallFilterConfigRequest (rq_target_render_pass_name m) (rq_vertex_count m) (rq_index_count m) (rq_instance_count m) (rq_max_drawcalls m) (rq_filter_by_vertex_count m) (rq_filter_by_index_count m) v (rq_enable_drawcall_limit m) (rq_filter_by_alpha_blended m) (rq_filter_by_render_pass m).
Definition set_rq_enable_drawcall_limit v (m : DrawcallFilterConfigRequest) := mkDrawcallFilterConfigRequest (rq_target_render_pass_name m) (rq_vertex_count m) (rq_index_count m) (rq_instance_count m) (rq_max_drawcalls m) (rq_filter_by_vertex_count m) (rq_filter_by_index_count m) (rq_filter_by_instance_count m) v (rq_filter_by_alpha_blended m) (rq_filter_by_render_pass m).
Definition set_rq_filter_by_alpha_blended v (m : DrawcallFilterConfigRequest) := mkDrawcallFilterConfigRequest (rq_target_render_pass_name m) (rq_vertex_count m) (rq_index_count m) (rq_instance_count m) (rq_max_drawcalls m) (rq_filter_by_vertex_count m) (rq_filter_by_index_count m) (rq_filter_by_instance_count m) (rq_enable_drawcall_limit m) v (rq_filter_by_render_pass m).
Definition set_rq_filter_by_render_pass v (m : DrawcallFilterConfigRequest) := mkDrawcallFilterConfigRequest (rq_target_render_pass_name m) (rq_vertex_count m) (rq_index_count m) (rq_instance_count m) (rq_max_drawcalls m) (rq_filter_by_vertex_count m) (rq_filter_by_index_count m) (rq_filter_by_instance_count m) (rq_enable_drawcall_limit m) (rq_filter_by_alpha_blended m) v.

Definition DrawcallFilterConfigRequest_Serialize (m : DrawcallFilterConfigRequest) (dest : Buffer) : Status * Buffer :=
  let dest := [] in (* dest.clear() *)
  let dest := WriteStringToBuffer (rq_target_render_pass_name m) dest in
  let dest := WriteUint32ToBuffer (rq_vertex_count m) dest in
  let dest := WriteUint32ToBuffer (rq_index_count m) dest in
  let dest := WriteUint32ToBuffer (rq_instance_count m) dest in
  let dest := WriteUint32ToBuffer (rq_max_drawcalls m) dest in
  let dest := WriteBoolToBuffer (rq_filter_by_vertex_count m) dest in
  let dest := WriteBoolToBuffer (rq_filter_by_index_count m) dest in
  let dest := WriteBoolToBuffer (rq_filter_by_instance_count m) dest in
  let dest := WriteBoolToBuffer (rq_enable_drawcall_limit m) dest in
  let dest := WriteBoolToBuffer (rq_filter_by_alpha_blended m) dest in
  let dest := WriteBoolToBuffer (rq_filter_by_render_pass m) dest in
  (OkStatus, dest).

Definition DrawcallFilterConfigRequest_Deserialize : DrawcallFilterConfigRequest -> Buffer -> Status * DrawcallFilterConfigRequest :=
  run_deserialize (fun src =>
    do* assign set_rq_target_render_pass_name ReadStringFromBuffer src in
    do* assign set_rq_vertex_count ReadUint32FromBuffer src in
    do* assign set_rq_index_count ReadUint32FromBuffer src in
    do* assign set_rq_instance_count ReadUint32FromBuffer src in
    do* assign set_rq_max_drawcalls ReadUint32FromBuffer src in
    do* assign set_rq_filter_by_vertex_count ReadBoolFromBuffer src in
    do* assign set_rq_filter_by_index_count ReadBoolFromBuffer src in
    do* assign set_rq_filter_by_instance_count ReadBoolFromBuffer src in
    do* assign set_rq_enable_drawcall_limit ReadBoolFromBuffer src in
    do* assign set_rq_filter_by_alpha_blended ReadBoolFromBuffer src in
    do* assign set_rq_filter_by_render_pass ReadBoolFromBuffer src in
    check_end "DrawcallFilteringRequest has unexpected trailing data." src).

Definition DrawcallFilterConfigRequest_wf (m : DrawcallFilterConfigRequest) : Prop :=
  str_wf (rq_target_render_pass_name m) /\
  in_width 32 (rq_vertex_count m) /\
  in_width 32 (rq_index_count m) /\
  in_width 32 (rq_instance_count m) /\
  in_width 32 (rq_max_drawcalls m).

#[export] Instance DrawcallFilterConfigRequest_Payload : Payload DrawcallFilterConfigRequest :=
  { Serialize := DrawcallFilterConfigRequest_Serialize; Deserialize := DrawcallFilterConfigRequest_Deserialize;
    payload_wf := DrawcallFilterConfigRequest_wf }.

Record PSOInfo := mkPSOInfo {
  pso_name : string;
  pso_pipeline_handle : Z;
  pso_has_alpha_blend : bool
}.

Record LivePSOsResponse := mkLivePSOsResponse { m_psos : list PSOInfo }.

Definition WritePSOInfo (x : PSOInfo) (dest : Buffer) : Buffer :=
  let dest := WriteStringToBuffer (pso_name x) dest in
  let dest := WriteUint64ToBuffer (pso_pipeline_handle x) dest in
  let dest := WriteBoolToBuffer (pso_has_alpha_blend x) dest in
  dest.

Definition LivePSOsResponse_Serialize (m : LivePSOsResponse) (dest : Buffer) : Status * Buffer :=
  let dest := [] in (* dest.clear() *)
  let dest := WriteUint32ToBuffer (wrap 32 (Z.of_nat (length (m_psos m)))) dest in
  (OkStatus, fold_left (fun dest x => WritePSOInfo x dest) (m_psos m) dest).

(** One iteration of the loop: a fresh element, its fields assigned in turn. *)
Definition ReadPSOInfo : reader PSOInfo := fun src =>
  let* name := ReadStringFromBuffer src in
  let* pipeline_handle := ReadUint64FromBuffer src in
  let* has_alpha_blend := ReadBoolFromBuffer src in
  ret (mkPSOInfo name pipeline_handle has_alpha_blend).

Definition LivePSOsResponse_clear (m : LivePSOsResponse) : LivePSOsResponse := mkLivePSOsResponse [].
Definition LivePSOsResponse_push_back (x : PSOInfo) (m : LivePSOsResponse) : LivePSOsResponse :=
  mkLivePSOsResponse (m_psos m ++ [x]).

Definition LivePSOsResponse_Deserialize : LivePSOsResponse -> Buffer -> Status * LivePSOsResponse :=
  run_deserialize (fun src =>
    let* count := lift_reader ReadUint32FromBuffer src in
    do* modify_state (fun '(self, offset) => (LivePSOsResponse_clear self, offset)) in
    do* read_loop LivePSOsResponse_push_back ReadPSOInfo (Z.to_nat count) src in
    check_end "LivePSOsResponse has unexpected trailing data." src).

Definition PSOInfo_wf (x : PSOInfo) : Prop := str_wf (pso_name x) /\ in_width 64 (pso_pipeline_handle x).

Definition LivePSOsResponse_wf (m : LivePSOsResponse) : Prop :=
  in_width 32 (Z.of_nat (length (m_psos m))) /\ Forall PSOInfo_wf (m_psos m).

#[export] Instance LivePSOsResponse_Payload : Payload LivePSOsResponse :=
  { Serialize := LivePSOsResponse_Serialize; Deserialize := LivePSOsResponse_Deserialize;
    payload_wf := LivePSOsResponse_wf }.

Record RenderPassInfo := mkRenderPassInfo {
  rp_name : string;
  rp_render_pass_handle : Z
}.

Record LiveRenderPassesResponse := mkLiveRenderPassesResponse { m_rps : list RenderPassInfo }.

Definition WriteRenderPassInfo (x : RenderPassInfo) (dest : Buffer) : Buffer :=
  let dest := WriteStringToBuffer (rp_name x) dest in
  let dest := WriteUint64ToBuffer (rp_render_pass_handle x) dest in
  dest.

Definition LiveRenderPassesResponse_Serialize (m : LiveRenderPassesResponse) (dest : Buffer) : Status * Buffer :=
  let dest := [] in (* dest.clear() *)
  let dest := WriteUint32ToBuffer (wrap 32 (Z.of_nat (length (m_rps m)))) dest in
  (OkStatus, fold_left (fun dest x => WriteRenderPassInfo x dest) (m_rps m) dest).

(** One iteration of the loop: a fresh element, its fields assigned in turn. *)
Definition ReadRenderPassInfo : reader RenderPassInfo := fun src =>
  let* name := ReadStringFromBuffer src in
  let* render_pass_handle := ReadUint64FromBuffer src in
  ret (mkRenderPassInfo name render_pass_handle).

Definition LiveRenderPassesResponse_clear (m : LiveRenderPassesResponse) : LiveRenderPassesResponse := mkLiveRenderPassesResponse [].
Definition LiveRenderPassesResponse_push_back (x : RenderPassInfo) (m : LiveRenderPassesResponse) : LiveRenderPassesResponse :=
  mkLiveRenderPassesResponse (m_rps m ++ [x]).

Definition LiveRenderPassesResponse_Deserialize : LiveRenderPassesResponse -> Buffer -> Status * LiveRenderPassesResponse :=
  run_deserialize (fun src =>
    let* count := lift_reader ReadUint32FromBuffer src in
    do* modify_state (fun '(self, offset) => (LiveRenderPassesResponse_clear self, offset)) in
    do* read_loop LiveRenderPassesResponse_push_back ReadRenderPassInfo (Z.to_nat count) src in
    check_end "LiveRenderPassesResponse has unexpected trailing data." src).

Definition RenderPassInfo_wf (x : RenderPassInfo) : Prop := str_wf (rp_name x) /\ in_width 64 (rp_render_pass_handle x).

Definition LiveRenderPassesResponse_wf (m : LiveRenderPassesResponse) : Prop :=
  in_width 32 (Z.of_nat (length (m_rps m))) /\ Forall RenderPassInfo_wf (m_rps m).

#[export] Instance LiveRenderPassesResponse_Payload : Payload LiveRenderPassesResponse :=
  { Serialize := LiveRenderPassesResponse_Serialize; Deserialize := LiveRenderPassesResponse_Deserialize;
    payload_wf := LiveRenderPassesResponse_wf }.

Record DisableTimestampRequest := mkDisableTimestampRequest {
  m_disable : bool
}.

Definition set_m_disable v (m : DisableTimestampRequest) := mkDisableTimestampRequest v.

Definition DisableTimestampRequest_Serialize (m : DisableTimestampRequest) (dest : Buffer) : Status * Buffer :=
  let dest := [] in (* dest.clear() *)
  let dest := WriteBoolToBuffer (m_disable m) dest in
  (OkStatus, dest).

Definition DisableTimestampRequest_Deserialize : DisableTimestampRequest -> Buffer -> Status * DisableTimestampRequest :=
  run_deserialize (fun src =>
    do* assign set_m_disable ReadBoolFromBuffer src in
    check_end "DisableTimestampRequest has unexpected trailing data." src).

Definition DisableTimestampRequest_wf (m : DisableTimestampRequest) : Prop :=
  True.

#[export] Instance DisableTimestampRequest_Payload : Payload DisableTimestampRequest :=
  { Serialize := DisableTimestampRequest_Serialize; Deserialize := DisableTimestampRequest_Deserialize;
    payload_wf := DisableTimestampRequest_wf }.

(** ** Reading back a sequence of assignments *)

(** [fills c b f]: on the bytes [b] the assignments [c] turn the object by [f],
    and they fail with [kInvalidArgument] when the buffer ends inside [b]. *)
Record fills {Self} (c : Buffer -> StatusM (Self * Z) unit) (b : Buffer)
    (f : Self -> Self) : Prop := mkFills {
  fills_all : forall pre post self,
    c (pre ++ b ++ post) (self, size pre) = (Value tt, (f self, size pre + size b));
  fills_truncated : forall pre p self,
    p `prefix_of` b -> (length p < length b)%nat ->
    exists e st, c (pre ++ p) (self, size pre) = (Error e, st) /\ code e = kInvalidArgument
}.

Section Fills.
Context {Self : Type}.

Lemma fills_ret : @fills Self (fun _ => ret tt) [] id.
Proof.
  split; [|intros ?? ? _ Hl; simpl in Hl; lia].
  intros. unfold ret. by rewrite Z.add_0_r.
Qed.

Lemma fills_assign {A} (set : A -> Self -> Self) rd b a :
  codec rd b a -> fills (assign set rd) b (set a).
Proof.
  intros [H T]. split.
  - intros pre post self. unfold assign, lift_reader, bind. by rewrite H.
  - intros pre p self Hp Hl. destruct (T pre p Hp Hl) as (e & off & He & Hc).
    unfold assign, lift_reader, bind. rewrite He. eauto.
Qed.

Lemma fills_seq (c1 c2 : Buffer -> StatusM (Self * Z) unit) b1 b2 f1 f2 :
  fills c1 b1 f1 -> fills c2 b2 f2 ->
  fills (fun src => do* c1 src in c2 src) (b1 ++ b2) (f2 ∘ f1).
Proof.
  intros [H1 T1] [H2 T2]. split.
  - intros pre post self. specialize (H1 pre (b2 ++ post) self).
    specialize (H2 (pre ++ b1) post (f1 self)).
    rewrite <- !app_assoc in *. rewrite (bind_value _ _ _ _ _ H1).
    rewrite size_app in *. rewrite H2. f_equal. f_equal. lia.
  - intros pre p self Hp Hl. destruct (strict_prefix_app _ _ _ Hp Hl)
      as [[Hp1 Hl1]|(p2 & -> & Hp2 & Hl2)].
    + destruct (T1 pre p self Hp1 Hl1) as (e & st & He & Hc).
      exists e, st. by rewrite (bind_error _ _ _ _ _ He).
    + rewrite (bind_value _ _ _ _ _ (H1 pre p2 self)).
      destruct (T2 (pre ++ b1) p2 (f1 self) Hp2 Hl2) as (e & st & He & Hc).
      exists e, st. by rewrite app_assoc, <- size_app.
Qed.

Lemma fills_modify (f : Self -> Self) :
  fills (fun _ => modify_state (fun '(self, offset) => (f self, offset))) [] f.
Proof.
  split; [|intros ?? ? _ Hl; simpl in Hl; lia].
  intros. unfold modify_state. by rewrite Z.add_0_r.
Qed.

Lemma fills_ext (c : Buffer -> StatusM (Self * Z) unit) b f g :
  (forall x, f x = g x) -> fills c b f -> fills c b g.
Proof. intros E [H T]. split; [|done]. intros. by rewrite <- E. Qed.

End Fills.

(** [deserializes c b f]: [c] ends in the trailing-data check. It accepts
    exactly [b]: it fails on [b] with bytes appended or cut off. *)
Record deserializes {Self} (c : Buffer -> StatusM (Self * Z) unit) (b : Buffer)
    (f : Self -> Self) : Prop := mkDeserializes {
  ds_exact : forall pre self,
    c (pre ++ b) (self, size pre) = (Value tt, (f self, size pre + size b));
  ds_trailing : forall pre x extra self, exists e st,
    c (pre ++ b ++ x :: extra) (self, size pre) = (Error e, st) /\ code e = kInvalidArgument;
  ds_truncated : forall pre p self,
    p `prefix_of` b -> (length p < length b)%nat ->
    exists e st, c (pre ++ p) (self, size pre) = (Error e, st) /\ code e = kInvalidArgument
}.

Section Deserializes.
Context {Self : Type}.

Lemma deser_end msg : deserializes (Self := Self) (check_end msg) [] id.
Proof.
  split.
  - intros pre self. unfold check_end. rewrite app_nil_r, Z.eqb_refl.
    by rewrite Z.add_0_r.
  - intros pre x extra self. unfold check_end. rewrite size_app.
    destruct (Z.eqb_spec (size pre) (size pre + size ([] ++ x :: extra))) as [E|E]; [|eauto].
    unfold size in E. simpl in E. lia.
  - intros ??? _ Hl. simpl in Hl. lia.
Qed.

Lemma deser_seq (c1 c2 : Buffer -> StatusM (Self * Z) unit) b1 b2 f1 f2 :
  fills c1 b1 f1 -> deserializes c2 b2 f2 ->
  deserializes (fun src => do* c1 src in c2 src) (b1 ++ b2) (f2 ∘ f1).
Proof.
  intros [H1 T1] [H2 R2 T2]. split.
  - intros pre self. specialize (H2 (pre ++ b1) (f1 self)).
    rewrite (bind_value _ _ _ _ _ (H1 pre b2 self)).
    rewrite <- app_assoc, size_app in *. rewrite H2. f_equal. f_equal. lia.
  - intros pre x extra self.
    specialize (R2 (pre ++ b1) x extra (f1 self)) as (e & st & He & Hc).
    exists e, st. rewrite <- !app_assoc in *.
    rewrite (bind_value _ _ _ _ _ (H1 pre (b2 ++ x :: extra) self)).
    by rewrite <- size_app.
  - intros pre p self Hp Hl. destruct (strict_prefix_app _ _ _ Hp Hl)
      as [[Hp1 Hl1]|(p2 & -> & Hp2 & Hl2)].
    + destruct (T1 pre p self Hp1 Hl1) as (e & st & He & Hc).
      exists e, st. by rewrite (bind_error _ _ _ _ _ He).
    + rewrite (bind_value _ _ _ _ _ (H1 pre p2 self)).
      destruct (T2 (pre ++ b1) p2 (f1 self) Hp2 Hl2) as (e & st & He & Hc).
      exists e, st. by rewrite app_assoc, <- size_app.
Qed.

(** A reader whose value the rest depends on, such as a count. *)
Lemma deser_read {A} (rd : reader A) (k : A -> Buffer -> StatusM (Self * Z) unit)
    b1 b2 a f :
  codec rd b1 a -> deserializes (k a) b2 f ->
  deserializes (fun src => let* x := lift_reader rd src in k x src) (b1 ++ b2) f.
Proof.
  intros [H1 T1] [H2 R2 T2]. unfold lift_reader. split.
  - intros pre self. specialize (H2 (pre ++ b1) self). unfold bind.
    rewrite (H1 pre b2), <- size_app, <- app_assoc in *.
    rewrite H2. rewrite !size_app. by rewrite Z.add_assoc.
  - intros pre x extra self.
    specialize (R2 (pre ++ b1) x extra self) as (e & st & He & Hc).
    exists e, st. rewrite <- !app_assoc in *. unfold bind.
    by rewrite (H1 pre (b2 ++ x :: extra)), <- size_app.
  - intros pre p self Hp Hl. unfold bind. destruct (strict_prefix_app _ _ _ Hp Hl)
      as [[Hp1 Hl1]|(p2 & -> & Hp2 & Hl2)].
    + destruct (T1 pre p Hp1 Hl1) as (e & st & He & Hc). rewrite He. eauto.
    + rewrite (H1 pre p2).
      destruct (T2 (pre ++ b1) p2 self Hp2 Hl2) as (e & st & He & Hc).
      exists e, st. by rewrite app_assoc, <- size_app.
Qed.

Context (c : Buffer -> StatusM (Self * Z) unit) (b : Buffer) (f : Self -> Self).
Context (D : deserializes c b f).

Lemma run_exact self : run_deserialize c self b = (OkStatus, f self).
Proof using D.
  pose proof (ds_exact _ _ _ D [] self) as H. simpl in H.
  change (size []) with 0 in H. unfold run_deserialize. by rewrite H.
Qed.

Lemma run_trailing self x extra :
  code (fst (run_deserialize c self (b ++ x :: extra))) = kInvalidArgument.
Proof using D.
  destruct (ds_trailing _ _ _ D [] x extra self) as (e & st & H & Hc).
  simpl in H. change (size []) with 0 in H. unfold run_deserialize. rewrite H.
  by destruct st.
Qed.

Lemma run_truncated self p :
  p `prefix_of` b -> (length p < length b)%nat ->
  code (fst (run_deserialize c self p)) = kInvalidArgument.
Proof using D.
  intros Hp Hl. destruct (ds_truncated _ _ _ D [] p self Hp Hl) as (e & st & H & Hc).
  simpl in H. change (size []) with 0 in H. unfold run_deserialize. rewrite H.
  by destruct st.
Qed.
End Deserializes.

#[export] Hint Resolve fills_ret fills_assign fills_modify deser_end : dive.

(** A class built on [run_deserialize] satisfies the interface as soon as its
    [Deserialize] accepts its [Serialize]'s bytes and sets every field. *)
Lemma payload_laws_intro {M} `{Payload M} c :
  (forall m0 b, Deserialize m0 b = run_deserialize c m0 b) ->
  (forall m dest, fst (Serialize m dest) = OkStatus) ->
  (forall m, payload_wf m -> exists f,
     deserializes c (snd (Serialize m [])) f /\ forall m0, f m0 = m) ->
  PayloadLaws M /\ ExactPayload M.
Proof.
  intros HD HS HF. split; [split|].
  - apply HS.
  - intros m m0 Hm. destruct (HF m Hm) as (f & D & E).
    by rewrite HD, (run_exact _ _ _ D), E.
  - intros m m0 p Hm Hp Hl. destruct (HF m Hm) as (f & D & E).
    rewrite HD. by eapply run_truncated.
  - intros m m0 x extra Hm. destruct (HF m Hm) as (f & D & E).
    rewrite HD. by eapply run_trailing.
Qed.

Lemma deser_last {Self} (c : Buffer -> StatusM (Self * Z) unit) b f msg :
  fills c b f -> deserializes (fun src => do* c src in check_end msg src) b f.
Proof.
  intros F. rewrite <- (app_nil_r b).
  exact (deser_seq _ _ _ _ _ _ F (deser_end msg)).
Qed.

Create HintDb wf.
#[export] Hint Unfold str_wf HandshakeMessage_wf StringMessage_wf RemoveFileResponse_wf
  DownloadFileResponse_wf FileSizeResponse_wf DrawcallFilterConfigRequest_wf
  DisableTimestampRequest_wf PSOInfo_wf RenderPassInfo_wf : wf.

(** Follows the fields: each assignment consumes its encoding. *)
Ltac deser_fields :=
  first
    [ eapply deser_seq; [apply fills_assign; solve [eauto 4 with dive]|deser_fields]
    | eapply deser_last; apply fills_assign; solve [eauto 4 with dive] ].

Ltac solve_payload :=
  eapply payload_laws_intro; [reflexivity|reflexivity|];
  intros m Hm; destruct m; cbn in Hm; autounfold with wf in Hm; cbn in Hm;
  destruct_and?; cbn; split_writers;
  eexists; split; [deser_fields | intros []; reflexivity].

Lemma HandshakeMessage_laws : PayloadLaws HandshakeMessage /\ ExactPayload HandshakeMessage.
Proof. solve_payload. Qed.

Lemma StringMessage_laws : PayloadLaws StringMessage /\ ExactPayload StringMessage.
Proof. solve_payload. Qed.

Lemma RemoveFileResponse_laws : PayloadLaws RemoveFileResponse /\ ExactPayload RemoveFileResponse.
Proof. solve_payload. Qed.

Lemma DownloadFileResponse_laws :
  PayloadLaws DownloadFileResponse /\ ExactPayload DownloadFileResponse.
Proof. solve_payload. Qed.

Lemma FileSizeResponse_laws : PayloadLaws FileSizeResponse /\ ExactPayload FileSizeResponse.
Proof. solve_payload. Qed.

Lemma DrawcallFilterConfigRequest_laws :
  PayloadLaws DrawcallFilterConfigRequest /\ ExactPayload DrawcallFilterConfigRequest.
Proof. solve_payload. Qed.

Lemma DisableTimestampRequest_laws :
  PayloadLaws DisableTimestampRequest /\ ExactPayload DisableTimestampRequest.
Proof. solve_payload. Qed.

(** ** Messages that carry a list *)

Section ListPayload.
Context {Self Elem : Type}.
Context (push_back : Elem -> Self -> Self) (rd : reader Elem).
Context (wr : Elem -> Buffer -> Buffer).
Context (wr_app : forall x dest, wr x dest = dest ++ wr x []).

Definition encode_all (l : list Elem) : Buffer := concat (map (fun x => wr x []) l).

Lemma fold_writes l dest :
  fold_left (fun dest x => wr x dest) l dest = dest ++ encode_all l.
Proof using wr_app.
  revert dest. induction l as [|x l IH]; intros dest; simpl.
  - by rewrite app_nil_r.
  - rewrite IH, (wr_app x dest). unfold encode_all. simpl. by rewrite app_assoc.
Qed.

Lemma fills_read_loop (wf : Elem -> Prop) l :
  (forall x, wf x -> codec rd (wr x []) x) -> Forall wf l ->
  fills (read_loop push_back rd (length l)) (encode_all l)
        (fun s => fold_left (fun s x => push_back x s) l s).
Proof using Type.
  intros C. induction 1 as [|x l Hx _ IH]; simpl; [apply fills_ret|].
  eapply fills_ext; [|eapply fills_seq; [apply fills_assign, C, Hx|apply IH]].
  done.
Qed.
End ListPayload.

Lemma codec_PSOInfo x : PSOInfo_wf x -> codec ReadPSOInfo (WritePSOInfo x []) x.
Proof.
  destruct x as [n h a]. intros [H1 H2]. unfold WritePSOInfo, ReadPSOInfo, str_wf in *.
  simpl in *. split_writers.
  eapply (codec_bind ReadStringFromBuffer (fun name src =>
    let* pipeline_handle := ReadUint64FromBuffer src in
    let* has_alpha_blend := ReadBoolFromBuffer src in
    ret (mkPSOInfo name pipeline_handle has_alpha_blend))); [by auto with dive|].
  eapply (codec_bind ReadUint64FromBuffer (fun pipeline_handle src =>
    let* has_alpha_blend := ReadBoolFromBuffer src in
    ret (mkPSOInfo n pipeline_handle has_alpha_blend))); [by auto with dive|].
  by apply (codec_map ReadBoolFromBuffer (mkPSOInfo n h)), codec_bool.
Qed.

Lemma codec_RenderPassInfo x :
  RenderPassInfo_wf x -> codec ReadRenderPassInfo (WriteRenderPassInfo x []) x.
Proof.
  destruct x as [n h]. intros [H1 H2]. unfold WriteRenderPassInfo, ReadRenderPassInfo, str_wf in *.
  simpl in *. split_writers.
  eapply (codec_bind ReadStringFromBuffer (fun name src =>
    let* handle := ReadUint64FromBuffer src in
    ret (mkRenderPassInfo name handle))); [by auto with dive|].
  by apply (codec_map ReadUint64FromBuffer (mkRenderPassInfo n)), codec_u64.
Qed.

Lemma WritePSOInfo_app x dest : WritePSOInfo x dest = dest ++ WritePSOInfo x [].
Proof. unfold WritePSOInfo. split_writers. by rewrite ?app_nil_l, <- ?app_assoc. Qed.

Lemma WriteRenderPassInfo_app x dest :
  WriteRenderPassInfo x dest = dest ++ WriteRenderPassInfo x [].
Proof. unfold WriteRenderPassInfo. split_writers. by rewrite ?app_nil_l, <- ?app_assoc. Qed.

Lemma fold_push_psos l acc :
  fold_left (fun s x => LivePSOsResponse_push_back x s) l (mkLivePSOsResponse acc)
  = mkLivePSOsResponse (acc ++ l).
Proof.
  revert acc. induction l as [|x l IH]; intros acc; simpl; [by rewrite app_nil_r|].
  unfold LivePSOsResponse_push_back at 2. simpl. by rewrite IH, <- app_assoc.
Qed.

Lemma fold_push_rps l acc :
  fold_left (fun s x => LiveRenderPassesResponse_push_back x s) l (mkLiveRenderPassesResponse acc)
  = mkLiveRenderPassesResponse (acc ++ l).
Proof.
  revert acc. induction l as [|x l IH]; intros acc; simpl; [by rewrite app_nil_r|].
  unfold LiveRenderPassesResponse_push_back at 2. simpl. by rewrite IH, <- app_assoc.
Qed.

(** A count, a clear, the loop and the trailing-data check. *)
Lemma deser_list {Self Elem} (push : Elem -> Self -> Self) rd wr (wf : Elem -> Prop)
    (clear : Self -> Self) msg l :
  (forall x, wf x -> codec rd (wr x []) x) ->
  in_width 32 (Z.of_nat (length l)) -> Forall wf l ->
  deserializes (fun src =>
      let* count := lift_reader ReadUint32FromBuffer src in
      do* modify_state (fun '(self, offset) => (clear self, offset)) in
      do* read_loop push rd (Z.to_nat count) src in
      check_end msg src)
    (WriteUint32ToBuffer (Z.of_nat (length l)) [] ++ encode_all wr l)
    (fun s => fold_left (fun s x => push x s) l (clear s)).
Proof.
  intros C Hn Hl.
  eapply (deser_read ReadUint32FromBuffer (fun count src =>
      do* modify_state (fun '(self, offset) => (clear self, offset)) in
      do* read_loop push rd (Z.to_nat count) src in
      check_end msg src)); [by apply codec_u32|].
  rewrite Nat2Z.id, <- (app_nil_l (encode_all wr l)).
  eapply (deser_seq (fun _ => modify_state _)); [apply fills_modify|].
  eapply deser_last. by eapply fills_read_loop.
Qed.

Lemma LivePSOsResponse_laws : PayloadLaws LivePSOsResponse /\ ExactPayload LivePSOsResponse.
Proof.
  eapply payload_laws_intro; [reflexivity|reflexivity|].
  intros [l] [Hn Hl]. cbn in *. rewrite (fold_writes _ WritePSOInfo_app), wrap_small by done.
  eexists. split.
  - eapply deser_list; [apply codec_PSOInfo|done|done].
  - intros m0. exact (fold_push_psos l []).
Qed.

Lemma LiveRenderPassesResponse_laws :
  PayloadLaws LiveRenderPassesResponse /\ ExactPayload LiveRenderPassesResponse.
Proof.
  eapply payload_laws_intro; [reflexivity|reflexivity|].
  intros [l] [Hn Hl]. cbn in *. rewrite (fold_writes _ WriteRenderPassInfo_app), wrap_small by done.
  eexists. split.
  - eapply deser_list; [apply codec_RenderPassInfo|done|done].
  - intros m0. exact (fold_push_rps l []).
Qed.

Lemma EmptyMessage_laws : PayloadLaws EmptyMessage.
Proof.
  split; [done|by intros [] []|]. intros m m0 p _ _ Hl. simpl in Hl. lia.
Qed.

#[export] Existing Instance EmptyMessage_laws.
#[export] Instance HandshakeMessage_PayloadLaws : PayloadLaws HandshakeMessage := proj1 HandshakeMessage_laws.
#[export] Instance StringMessage_PayloadLaws : PayloadLaws StringMessage := proj1 StringMessage_laws.
#[export] Instance RemoveFileResponse_PayloadLaws : PayloadLaws RemoveFileResponse := proj1 RemoveFileResponse_laws.
#[export] Instance DownloadFileResponse_PayloadLaws : PayloadLaws DownloadFileResponse := proj1 DownloadFileResponse_laws.
#[export] Instance FileSizeResponse_PayloadLaws : PayloadLaws FileSizeResponse := proj1 FileSizeResponse_laws.
#[export] Instance DrawcallFilterConfigRequest_PayloadLaws : PayloadLaws DrawcallFilterConfigRequest := proj1 DrawcallFilterConfigRequest_laws.
#[export] Instance DisableTimestampRequest_PayloadLaws : PayloadLaws DisableTimestampRequest := proj1 DisableTimestampRequest_laws.
#[export] Instance LivePSOsResponse_PayloadLaws : PayloadLaws LivePSOsResponse := proj1 LivePSOsResponse_laws.
#[export] Instance LiveRenderPassesResponse_PayloadLaws : PayloadLaws LiveRenderPassesResponse := proj1 LiveRenderPassesResponse_laws.
#[export] Instance HandshakeMessage_ExactPayload : ExactPayload HandshakeMessage := proj2 HandshakeMessage_laws.
#[export] Instance StringMessage_ExactPayload : ExactPayload StringMessage := proj2 StringMessage_laws.
#[export] Instance RemoveFileResponse_ExactPayload : ExactPayload RemoveFileResponse := proj2 RemoveFileResponse_laws.
#[export] Instance DownloadFileResponse_ExactPayload : ExactPayload DownloadFileResponse := proj2 DownloadFileResponse_laws.
#[export] Instance FileSizeResponse_ExactPayload : ExactPayload FileSizeResponse := proj2 FileSizeResponse_laws.
#[export] Instance DrawcallFilterConfigRequest_ExactPayload : ExactPayload DrawcallFilterConfigRequest := proj2 DrawcallFilterConfigRequest_laws.
#[export] Instance DisableTimestampRequest_ExactPayload : ExactPayload DisableTimestampRequest := proj2 DisableTimestampRequest_laws.
#[export] Instance LivePSOsResponse_ExactPayload : ExactPayload LivePSOsResponse := proj2 LivePSOsResponse_laws.
#[export] Instance LiveRenderPassesResponse_ExactPayload : ExactPayload LiveRenderPassesResponse := proj2 LiveRenderPassesResponse_laws.

(** ** The message objects: one constructor per concrete class *)

Inductive Message :=
  | HandshakeRequest (m : HandshakeMessage)
  | HandshakeResponse (m : HandshakeMessage)
  | PingMessage (m : EmptyMessage)
  | PongMessage (m : EmptyMessage)
  | Pm4CaptureRequest (m : EmptyMessage)
  | Pm4CaptureResponse (m : StringMessage)
  | DownloadFileRequest (m : StringMessage)
  | MsgDownloadFileResponse (m : DownloadFileResponse)
  | FileSizeRequest (m : StringMessage)
  | MsgFileSizeResponse (m : FileSizeResponse)
  | RemoveFileRequest (m : StringMessage)
  | MsgRemoveFileResponse (m : RemoveFileResponse)
  | MsgDrawcallFilterConfigRequest (m : DrawcallFilterConfigRequest)
  | DrawcallFilterConfigResponse (m : EmptyMessage)
  | LivePSOsRequest (m : EmptyMessage)
  | MsgLivePSOsResponse (m : LivePSOsResponse)
  | LiveRenderPassesRequest (m : EmptyMessage)
  | MsgLiveRenderPassesResponse (m : LiveRenderPassesResponse)
  | MsgDisableTimestampRequest (m : DisableTimestampRequest)
  | DisableTimestampResponse (m : EmptyMessage).

(** The virtual [GetMessageType]. *)
Definition GetMessageType (msg : Message) : MessageType :=
  match msg with
  | HandshakeRequest _ => HANDSHAKE_REQUEST
  | HandshakeResponse _ => HANDSHAKE_RESPONSE
  | PingMessage _ => PING_MESSAGE
  | PongMessage _ => PONG_MESSAGE
  | Pm4CaptureRequest _ => PM4_CAPTURE_REQUEST
  | Pm4CaptureResponse _ => PM4_CAPTURE_RESPONSE
  | DownloadFileRequest _ => DOWNLOAD_FILE_REQUEST
  | MsgDownloadFileResponse _ => DOWNLOAD_FILE_RESPONSE
  | FileSizeRequest _ => FILE_SIZE_REQUEST
  | MsgFileSizeResponse _ => FILE_SIZE_RESPONSE
  | RemoveFileRequest _ => REMOVE_FILE_REQUEST
  | MsgRemoveFileResponse _ => REMOVE_FILE_RESPONSE
  | MsgDrawcallFilterConfigRequest _ => DRAWCALL_FILTER_CONFIG_REQUEST
  | DrawcallFilterConfigResponse _ => DRAWCALL_FILTER_CONFIG_RESPONSE
  | LivePSOsRequest _ => LIVE_PSOS_REQUEST
  | MsgLivePSOsResponse _ => LIVE_PSOS_RESPONSE
  | LiveRenderPassesRequest _ => LIVE_RENDER_PASSES_REQUEST
  | MsgLiveRenderPassesResponse _ => LIVE_RENDER_PASSES_RESPONSE
  | MsgDisableTimestampRequest _ => DISABLE_TIMESTAMP_REQUEST
  | DisableTimestampResponse _ => DISABLE_TIMESTAMP_RESPONSE
  end.

(** A default-constructed object of the class of a type; the [switch] of
    [ReceiveSocketMessage] ([None]: its [default] branch). *)
Definition make_message (type : Z) : option Message :=
  if type =? MessageType_to_Z HANDSHAKE_REQUEST then Some (HandshakeRequest (mkHandshake 0 0)) else
  if type =? MessageType_to_Z HANDSHAKE_RESPONSE then Some (HandshakeResponse (mkHandshake 0 0)) else
  if type =? MessageType_to_Z PING_MESSAGE then Some (PingMessage (mkEmpty)) else
  if type =? MessageType_to_Z PONG_MESSAGE then Some (PongMessage (mkEmpty)) else
  if type =? MessageType_to_Z PM4_CAPTURE_REQUEST then Some (Pm4CaptureRequest (mkEmpty)) else
  if type =? MessageType_to_Z PM4_CAPTURE_RESPONSE then Some (Pm4CaptureResponse (mkString "")) else
  if type =? MessageType_to_Z DOWNLOAD_FILE_REQUEST then Some (DownloadFileRequest (mkString "")) else
  if type =? MessageType_to_Z DOWNLOAD_FILE_RESPONSE then Some (MsgDownloadFileResponse (mkDownloadFileResponse false "" "" 0)) else
  if type =? MessageType_to_Z FILE_SIZE_REQUEST then Some (FileSizeRequest (mkString "")) else
  if type =? MessageType_to_Z FILE_SIZE_RESPONSE then Some (MsgFileSizeResponse (mkFileSizeResponse false "" 0)) else
  if type =? MessageType_to_Z REMOVE_FILE_REQUEST then Some (RemoveFileRequest (mkString "")) else
  if type =? MessageType_to_Z REMOVE_FILE_RESPONSE then Some (MsgRemoveFileResponse (mkRemoveFileResponse "" false)) else
  if type =? MessageType_to_Z DRAWCALL_FILTER_CONFIG_REQUEST then Some (MsgDrawcallFilterConfigRequest (mkDrawcallFilterConfigRequest "" 0 0 0 0 false false false false false false)) else
  if type =? MessageType_to_Z DRAWCALL_FILTER_CONFIG_RESPONSE then Some (DrawcallFilterConfigResponse (mkEmpty)) else
  if type =? MessageType_to_Z LIVE_PSOS_REQUEST then Some (LivePSOsRequest (mkEmpty)) else
  if type =? MessageType_to_Z LIVE_PSOS_RESPONSE then Some (MsgLivePSOsResponse (mkLivePSOsResponse [])) else
  if type =? MessageType_to_Z LIVE_RENDER_PASSES_REQUEST then Some (LiveRenderPassesRequest (mkEmpty)) else
  if type =? MessageType_to_Z LIVE_RENDER_PASSES_RESPONSE then Some (MsgLiveRenderPassesResponse (mkLiveRenderPassesResponse [])) else
  if type =? MessageType_to_Z DISABLE_TIMESTAMP_REQUEST then Some (MsgDisableTimestampRequest (mkDisableTimestampRequest false)) else
  if type =? MessageType_to_Z DISABLE_TIMESTAMP_RESPONSE then Some (DisableTimestampResponse (mkEmpty)) else
  None.

(** Dispatch of the virtual [Serialize], [Deserialize]. *)
Definition msg_serialize (msg : Message) (dest : Buffer) : Status * Buffer :=
  match msg with
  | HandshakeRequest m => Serialize m dest
  | HandshakeResponse m => Serialize m dest
  | PingMessage m => Serialize m dest
  | PongMessage m => Serialize m dest
  | Pm4CaptureRequest m => Serialize m dest
  | Pm4CaptureResponse m => Serialize m dest
  | DownloadFileRequest m => Serialize m dest
  | MsgDownloadFileResponse m => Serialize m dest
  | FileSizeRequest m => Serialize m dest
  | MsgFileSizeResponse m => Serialize m dest
  | RemoveFileRequest m => Serialize m dest
  | MsgRemoveFileResponse m => Serialize m dest
  | MsgDrawcallFilterConfigRequest m => Serialize m dest
  | DrawcallFilterConfigResponse m => Serialize m dest
  | LivePSOsRequest m => Serialize m dest
  | MsgLivePSOsResponse m => Serialize m dest
  | LiveRenderPassesRequest m => Serialize m dest
  | MsgLiveRenderPassesResponse m => Serialize m dest
  | MsgDisableTimestampRequest m => Serialize m dest
  | DisableTimestampResponse m => Serialize m dest
  end.

Definition deserialize_as {M} `{Payload M} (wrap_msg : M -> Message) (m : M) (src : Buffer)
  : Status * Message :=
  let '(st, m') := Deserialize m src in (st, wrap_msg m').

Definition msg_deserialize (msg : Message) (src : Buffer) : Status * Message :=
  match msg with
  | HandshakeRequest m => deserialize_as HandshakeRequest m src
  | HandshakeResponse m => deserialize_as HandshakeResponse m src
  | PingMessage m => deserialize_as PingMessage m src
  | PongMessage m => deserialize_as PongMessage m src
  | Pm4CaptureRequest m => deserialize_as Pm4CaptureRequest m src
  | Pm4CaptureResponse m => deserialize_as Pm4CaptureResponse m src
  | DownloadFileRequest m => deserialize_as DownloadFileRequest m src
  | MsgDownloadFileResponse m => deserialize_as MsgDownloadFileResponse m src
  | FileSizeRequest m => deserialize_as FileSizeRequest m src
  | MsgFileSizeResponse m => deserialize_as MsgFileSizeResponse m src
  | RemoveFileRequest m => deserialize_as RemoveFileRequest m src
  | MsgRemoveFileResponse m => deserialize_as MsgRemoveFileResponse m src
  | MsgDrawcallFilterConfigRequest m => deserialize_as MsgDrawcallFilterConfigRequest m src
  | DrawcallFilterConfigResponse m => deserialize_as DrawcallFilterConfigResponse m src
  | LivePSOsRequest m => deserialize_as LivePSOsRequest m src
  | MsgLivePSOsResponse m => deserialize_as MsgLivePSOsResponse m src
  | LiveRenderPassesRequest m => deserialize_as LiveRenderPassesRequest m src
  | MsgLiveRenderPassesResponse m => deserialize_as MsgLiveRenderPassesResponse m src
  | MsgDisableTimestampRequest m => deserialize_as MsgDisableTimestampRequest m src
  | DisableTimestampResponse m => deserialize_as DisableTimestampResponse m src
  end.

Definition msg_wf (msg : Message) : Prop :=
  match msg with
  | HandshakeRequest m => payload_wf m
  | HandshakeResponse m => payload_wf m
  | PingMessage m => payload_wf m
  | PongMessage m => payload_wf m
  | Pm4CaptureRequest m => payload_wf m
  | Pm4CaptureResponse m => payload_wf m
  | DownloadFileRequest m => payload_wf m
  | MsgDownloadFileResponse m => payload_wf m
  | FileSizeRequest m => payload_wf m
  | MsgFileSizeResponse m => payload_wf m
  | RemoveFileRequest m => payload_wf m
  | MsgRemoveFileResponse m => payload_wf m
  | MsgDrawcallFilterConfigRequest m => payload_wf m
  | DrawcallFilterConfigResponse m => payload_wf m
  | LivePSOsRequest m => payload_wf m
  | MsgLivePSOsResponse m => payload_wf m
  | LiveRenderPassesRequest m => payload_wf m
  | MsgLiveRenderPassesResponse m => payload_wf m
  | MsgDisableTimestampRequest m => payload_wf m
  | DisableTimestampResponse m => payload_wf m
  end.

(** The classes derived from [EmptyMessage]. *)
Definition is_empty_message (msg : Message) : bool :=
  match msg with
  | PingMessage _ | PongMessage _ | Pm4CaptureRequest _ | DrawcallFilterConfigResponse _ | LivePSOsRequest _ | LiveRenderPassesRequest _ | DisableTimestampResponse _ => true
  | _ => false
  end.

#[export] Instance Message_Payload : Payload Message :=
  { Serialize := msg_serialize; Deserialize := msg_deserialize; payload_wf := msg_wf }.

(** ** The factory and the round trip of message objects *)

Lemma make_message_of_type t :
  exists blank, make_message (MessageType_to_Z t) = Some blank /\ GetMessageType blank = t.
Proof. destruct t; eexists; split; reflexivity. Qed.

Lemma make_message_default z : ~ (1 <= z <= 20) -> make_message z = None.
Proof.
  intros H. unfold make_message.
  repeat match goal with
    | |- context [z =? ?c] => destruct (Z.eqb_spec z c) as [E|_]; [simpl in E; lia|]
    end.
  done.
Qed.

Section Dispatch.
Context {M : Type} `{PayloadLaws M} (wrap_msg : M -> Message).

Lemma deserialize_as_serialize m m0 :
  payload_wf m -> deserialize_as wrap_msg m0 (snd (Serialize m [])) = (OkStatus, wrap_msg m).
Proof. intros Hm. unfold deserialize_as. by rewrite deserialize_serialize. Qed.

Lemma deserialize_as_truncated m m0 p :
  payload_wf m -> p `prefix_of` snd (Serialize m []) ->
  (length p < length (snd (Serialize m [])))%nat ->
  code (fst (deserialize_as wrap_msg m0 p)) = kInvalidArgument.
Proof.
  intros Hm Hp Hl. unfold deserialize_as.
  pose proof (deserialize_truncated m m0 p Hm Hp Hl) as Hc.
  by destruct (Deserialize m0 p).
Qed.

Lemma deserialize_as_trailing `{!ExactPayload M} m m0 x extra :
  payload_wf m ->
  code (fst (deserialize_as wrap_msg m0 (snd (Serialize m []) ++ x :: extra)))
    = kInvalidArgument.
Proof.
  intros Hm. unfold deserialize_as.
  pose proof (deserialize_trailing m m0 x extra Hm) as Hc.
  by destruct (Deserialize m0 _).
Qed.
End Dispatch.

(** Two objects of the same class: what the factory's [blank] is to the
    message whose bytes it is given. *)
Ltac same_class msg blank H :=
  destruct msg; destruct blank; try discriminate H;
  cbn [msg_serialize msg_deserialize msg_wf is_empty_message] in *.

Lemma msg_deserialize_serialize msg blank :
  msg_wf msg -> GetMessageType blank = GetMessageType msg ->
  msg_deserialize blank (snd (msg_serialize msg [])) = (OkStatus, msg).
Proof.
  intros Hwf Ht. same_class msg blank Ht; by apply deserialize_as_serialize.
Qed.

Lemma msg_deserialize_truncated msg blank p :
  msg_wf msg -> GetMessageType blank = GetMessageType msg ->
  p `prefix_of` snd (msg_serialize msg []) ->
  (length p < length (snd (msg_serialize msg [])))%nat ->
  code (fst (msg_deserialize blank p)) = kInvalidArgument.
Proof.
  intros Hwf Ht Hp Hl.
  same_class msg blank Ht; by eapply (deserialize_as_truncated (M := _)).
Qed.

Lemma msg_deserialize_trailing msg blank x extra :
  msg_wf msg -> is_empty_message msg = false -> GetMessageType blank = GetMessageType msg ->
  code (fst (msg_deserialize blank (snd (msg_serialize msg []) ++ x :: extra)))
    = kInvalidArgument.
Proof.
  intros Hwf He Ht.
  same_class msg blank Ht; try done;
  (eapply @deserialize_as_trailing; [apply _|done]).
Qed.

Lemma msg_serialize_ok msg : fst (msg_serialize msg []) = OkStatus.
Proof. destruct msg; by apply serialize_ok. Qed.

(** ** Properties *)

(** C3: every message object whose fields fit their C++ types is restored by
    the object the factory makes for its type code: [Deserialize] of its
    [Serialize] succeeds and gives every field back, whatever the object held;
    a payload cut short is refused with [kInvalidArgument], and so is one with
    trailing bytes, except by the classes derived from [EmptyMessage]. *)
Theorem message_codec (msg blank : Message) :
  msg_wf msg ->
  make_message (MessageType_to_Z (GetMessageType msg)) = Some blank ->
  let payload := snd (msg_serialize msg []) in
  msg_deserialize blank payload = (OkStatus, msg) /\
  (forall p, p `prefix_of` payload -> (length p < length payload)%nat ->
     code (fst (msg_deserialize blank p)) = kInvalidArgument) /\
  (is_empty_message msg = false -> forall x extra,
     code (fst (msg_deserialize blank (payload ++ x :: extra))) = kInvalidArgument).
Proof.
  intros Hwf Hb payload.
  destruct (make_message_of_type (GetMessageType msg)) as (b & Hb' & Ht).
  rewrite Hb in Hb'. injection Hb' as <-.
  repeat split; intros.
  - by apply msg_deserialize_serialize.
  - by eapply msg_deserialize_truncated.
  - by apply msg_deserialize_trailing.
Qed.

Definition sample_psos : Message :=
  MsgLivePSOsResponse (mkLivePSOsResponse
    [mkPSOInfo "opaque" 0x123456789ABCDEF0 false; mkPSOInfo "" 7 true]).

Lemma message_codec_witness :
  msg_wf sample_psos /\
  msg_deserialize (MsgLivePSOsResponse (mkLivePSOsResponse []))
    (snd (msg_serialize sample_psos [])) = (OkStatus, sample_psos).
Proof.
  assert (msg_wf sample_psos) as Hwf.
  { split; [by vm_compute|]. repeat constructor; by vm_compute. }
  split; [exact Hwf|].
  exact (proj1 (message_codec sample_psos _ Hwf eq_refl)).
Defined.

(** The type codes on the wire and the classes correspond one to one: the
    code of a type makes an object of that type and no other type has the
    code, and exactly the codes 1 to 20 make an object. *)
Theorem message_type_codes :
  (forall t, exists blank,
     make_message (MessageType_to_Z t) = Some blank /\ GetMessageType blank = t) /\
  (forall t1 t2, MessageType_to_Z t1 = MessageType_to_Z t2 -> t1 = t2) /\
  (forall z, is_Some (make_message z) <-> 1 <= z <= 20) /\
  (forall z blank, make_message z = Some blank -> MessageType_to_Z (GetMessageType blank) = z).
Proof.
  split; [apply make_message_of_type|].
  split; [by intros [] []|].
  assert (forall z blank, make_message z = Some blank ->
            MessageType_to_Z (GetMessageType blank) = z) as Hcode.
  { intros z blank. unfold make_message.
    repeat match goal with
      | |- context [z =? ?c] => destruct (Z.eqb_spec z c) as [->|_]; [by intros [= <-]|]
      end. done. }
  split; [|done]. intros z. split.
  - intros [blank Hb]. destruct (decide (1 <= z <= 20)) as [|Hn]; [done|].
    by rewrite make_message_default in Hb.
  - intros Hz.
    assert (z = 1 \/ z = 2 \/ z = 3 \/ z = 4 \/ z = 5 \/ z = 6 \/ z = 7 \/ z = 8 \/ z = 9 \/
            z = 10 \/ z = 11 \/ z = 12 \/ z = 13 \/ z = 14 \/ z = 15 \/ z = 16 \/ z = 17 \/
            z = 18 \/ z = 19 \/ z = 20) as Hcases by lia.
    destruct_or!; subst z; by eexists.
Qed.
