(* ===== verification/FilterConfig.v ===== *)
(** * FilterConfig: the draw-call filter and its request

    [DrawcallFilterConfig] of [src/network/drawcall_filter_config.h], with the
    two translations between it and [DrawcallFilterConfigRequest]: the setters
    of [TcpClient::SendDrawcallFilterConfig] and the designated initialisers of
    [ServerMessageHandler::HandleMessage]. *)

From S2P Require Import Prelude Status Wire Messages.

Record DrawcallFilterConfig := mkDrawcallFilterConfig {
  target_render_pass_name : string;
  target_vertex_count : Z;
  target_index_count : Z;
  target_instance_count : Z;
  max_drawcalls : Z;
  filter_by_vertex_count : bool;
  filter_by_index_count : bool;
  filter_by_instance_count : bool;
  enable_drawcall_limit : bool;
  filter_by_alpha_blended : bool;
  filter_by_render_pass : bool
}.

#[export] Instance DrawcallFilterConfig_eq_dec : EqDecision DrawcallFilterConfig.
Proof. solve_decision. Defined.

(** The member initialisers. *)
Definition default_filter_config : DrawcallFilterConfig :=
  mkDrawcallFilterConfig "" 0 0 0 0 false false false false false false.

Definition default_filter_request : DrawcallFilterConfigRequest :=
  mkDrawcallFilterConfigRequest "" 0 0 0 0 false false false false false false.

(** The client's setters, in their order. *)
Definition filter_request (config : DrawcallFilterConfig) : DrawcallFilterConfigRequest :=
  let request := default_filter_request in
  let request := set_rq_filter_by_vertex_count (filter_by_vertex_count config) request in
  let request := set_rq_filter_by_index_count (filter_by_index_count config) request in
  let request := set_rq_filter_by_instance_count (filter_by_instance_count config) request in
  let request := set_rq_max_drawcalls (max_drawcalls config) request in
  let request := set_rq_vertex_count (target_vertex_count config) request in
  let request := set_rq_index_count (target_index_count config) request in
  let request := set_rq_instance_count (target_instance_count config) request in
  let request := set_rq_enable_drawcall_limit (enable_drawcall_limit config) request in
  let request := set_rq_filter_by_alpha_blended (filter_by_alpha_blended config) request in
  let request := set_rq_filter_by_render_pass (filter_by_render_pass config) request in
  set_rq_target_render_pass_name (target_render_pass_name config) request.

(** The server's initialisers. *)
Definition filter_config (request : DrawcallFilterConfigRequest) : DrawcallFilterConfig := {|
  target_render_pass_name := rq_target_render_pass_name request;
  target_vertex_count := rq_vertex_count request;
  target_index_count := rq_index_count request;
  target_instance_count := rq_instance_count request;
  max_drawcalls := rq_max_drawcalls request;
  filter_by_vertex_count := rq_filter_by_vertex_count request;
  filter_by_index_count := rq_filter_by_index_count request;
  filter_by_instance_count := rq_filter_by_instance_count request;
  enable_drawcall_limit := rq_enable_drawcall_limit request;
  filter_by_alpha_blended := rq_filter_by_alpha_blended request;
  filter_by_render_pass := rq_filter_by_render_pass request
|}.

(** The server reads back the configuration the client filled in. *)
Lemma filter_config_request config : filter_config (filter_request config) = config.
Proof. by destruct config. Qed.

Lemma filter_request_config request : filter_request (filter_config request) = request.
Proof. by destruct request. Qed.

#[export] Hint Rewrite filter_config_request filter_request_config : dive_rw.
