(* ===== verification/Socket.v ===== *)
(** * Socket: [SocketConnection] over the operating system's stream sockets

    Models [src/network/socket_connection.{h,cc}] (the POSIX branches of its
    [#ifdef]s).  The kernel and the file system are not code of this
    repository: [SocketApi] and [FileApi] are the calls the code makes, over a
    state [W] of the outside world, and everything here is parametric in them.
    [StreamLaws] and [LiveStream] state what the documentation of stream
    sockets promises; [Pipe] at the end of the file is a concrete world that
    satisfies both, with short reads and short writes.

    A loop that transfers [size] bytes runs on fuel [size]: every iteration
    moves at least one byte, because a transfer of 0 bytes returns an error.
    [recv_loop_total] and [send_loop_total] prove that this fuel is enough. *)

From S2P Require Import Prelude Status Wire.

(** ** The outside world *)

Inductive errno :=
  | E_AGAIN | E_WOULDBLOCK | E_PIPE | E_CONNRESET
  | E_OTHER (n : Z).

Inductive poll_result :=
  | PollFailed (e : errno)
  | PollTimedOut
  | PollReady (pollin : bool).

Inductive recv_result :=
  | RecvFailed (e : errno)
  | RecvBytes (l : list byte).

Inductive send_result :=
  | SendFailed (e : errno)
  | Sent (n : nat).

Class SocketApi (W : Type) := {
  addrinfo : Type;
  network_initialized : bool;
  sys_strerror : errno -> string;
  (** [getaddrinfo]: an error text, or the list of addresses *)
  sys_getaddrinfo : string -> Z -> W -> (string + list addrinfo) * W;
  (** [socket()]: [-1] with an error number, or a descriptor *)
  sys_socket : option addrinfo -> W -> (errno + Z) * W;
  sys_connect : Z -> addrinfo -> W -> option errno * W;
  sys_bind : Z -> string -> W -> option errno * W;
  sys_listen : Z -> W -> option errno * W;
  sys_accept : Z -> W -> (errno + Z) * W;
  sys_poll : Z -> Z -> W -> poll_result * W;
  sys_recv : Z -> Z -> W -> recv_result * W;
  sys_send : Z -> list byte -> W -> send_result * W;
  (** [shutdown] followed by [close] *)
  sys_shutdown_close : Z -> W -> W
}.

Class FileApi (W : Type) := {
  (** [std::ifstream(path, binary | ate)]: [None] when opening failed *)
  ifs_open : string -> W -> option Z * W;
  ifs_tellg : Z -> W -> Z * W;
  (** [read(buffer, n)]: [None] when the stream is in a failed state after it *)
  ifs_read : Z -> Z -> W -> option (list byte) * W;
  ifs_close : Z -> W -> W;
  ofs_open : string -> W -> option Z * W;
  ofs_write : Z -> list byte -> W -> bool * W;
  ofs_close : Z -> W -> W;
  (** [std::filesystem] with an [std::error_code]: the code's message, if set *)
  fs_is_regular_file : string -> W -> bool * option string * W;
  fs_file_size : string -> W -> Z * option string * W;
  fs_remove : string -> W -> bool * option string * W
}.

Definition kNoTimeout : Z := -1.
Definition kAcceptTimeout : Z := 2000.
Definition kInvalidSocketValue : Z := -1.
Definition CHUNK_SIZE : Z := 4096.

Record SocketConnection := mkSocketConnection {
  m_socket : Z;
  m_is_listening : bool;
  m_accept_timout_ms : Z
}.

(** The private constructor. *)
Definition new_SocketConnection (initial_socket_value : Z) : SocketConnection :=
  mkSocketConnection initial_socket_value false kAcceptTimeout.

Definition IsOpen (c : SocketConnection) : bool :=
  negb (m_socket c =? kInvalidSocketValue).

(** Runs a loop whose fuel is proved to be enough. *)
Definition run_fueled {S A} (r : option (StatusOr A * S)) (s : S) : StatusOr A * S :=
  match r with
  | Some x => x
  | None => (Error (InternalError "out of fuel"), s)
  end.

Section SocketConnection.
Context {W : Type} `{SocketApi W} `{FileApi W}.

(** A method of [SocketConnection]: it changes the object and the world. *)
Abbreviation SockM A := (StatusM (SocketConnection * W) A).

Definition Create (initial_socket_value : Z) : StatusOr SocketConnection :=
  if negb network_initialized then
    Error (InternalError "Create: Network failed to initialize.")
  else Value (new_SocketConnection initial_socket_value).

Definition Close : SocketConnection * W -> SocketConnection * W := fun '(c, w) =>
  if negb (m_socket c =? kInvalidSocketValue) then
    (mkSocketConnection kInvalidSocketValue false (m_accept_timout_ms c),
     sys_shutdown_close (m_socket c) w)
  else (c, w).

Definition set_socket (fd : Z) (c : SocketConnection) : SocketConnection :=
  mkSocketConnection fd (m_is_listening c) (m_accept_timout_ms c).
Definition set_listening (b : bool) (c : SocketConnection) : SocketConnection :=
  mkSocketConnection (m_socket c) b (m_accept_timout_ms c).

Definition close_if_open : SocketConnection * W -> SocketConnection * W := fun '(c, w) =>
  if IsOpen c then Close (c, w) else (c, w).

Definition BindAndListenOnUnixDomain (server_address : string) : SockM unit := fun s =>
  let '(c, w) := close_if_open s in
  match sys_socket None w with
  | (inl e, w) =>
      (Error (InternalError ("BindAndListenOnUnixDomain: socket() creation failed: "
                             +:+ sys_strerror e)),
       (set_socket kInvalidSocketValue c, w))
  | (inr fd, w) =>
      let c := set_socket fd c in
      match sys_bind fd server_address w with
      | (Some e, w) =>
          (Error (InternalError ("BindAndListenOnUnixDomain: bind() failed: "
                                 +:+ sys_strerror e)), Close (c, w))
      | (None, w) =>
          match sys_listen fd w with
          | (Some e, w) =>
              (Error (InternalError ("BindAndListenOnUnixDomain: listen() failed: "
                                     +:+ sys_strerror e)), Close (c, w))
          | (None, w) => (Value tt, (set_listening true c, w))
          end
      end
  end.

Definition Accept : SockM SocketConnection := fun '(c, w) =>
  if negb (IsOpen c) || negb (m_is_listening c) then
    (Error (FailedPreconditionError "Accept: Socket not created or not listening."), (c, w))
  else
    match sys_poll (m_socket c) (m_accept_timout_ms c) w with
    | (PollFailed e, w) =>
        (Error (InternalError ("Accept: poll() failed: " +:+ sys_strerror e)), (c, w))
    | (PollTimedOut, w) =>
        (Error (DeadlineExceededError "Accept: Timeout waiting for connection."), (c, w))
    | (PollReady false, w) =>
        (Error (InternalError
           "Accept: poll() returned without POLLIN or known error event."), (c, w))
    | (PollReady true, w) =>
        match sys_accept (m_socket c) w with
        | (inl (E_AGAIN | E_WOULDBLOCK), w) =>
            (Error (UnavailableError "Accept: accept() would block."), (c, w))
        | (inl e, w) =>
            (Error (InternalError ("Accept: accept() system call failed: "
                                   +:+ sys_strerror e)), (c, w))
        | (inr fd, w) => (Value (new_SocketConnection fd), (c, w))
        end
    end.

(** The loop over the resolved addresses; [last] is [last_attempt_status]. *)
Fixpoint connect_loop (addrs : list addrinfo) (last : Status) (s : SocketConnection * W)
  : Status * (SocketConnection * W) :=
  match addrs with
  | [] => (last, s)
  | p :: rest =>
      let '(c, w) := s in
      match sys_socket (Some p) w with
      | (inl e, w) =>
          connect_loop rest
            (InternalError ("Connect: socket() creation failed: " +:+ sys_strerror e))
            (set_socket kInvalidSocketValue c, w)
      | (inr fd, w) =>
          let c := set_socket fd c in
          match sys_connect fd p w with
          | (Some e, w) =>
              connect_loop rest
                (UnavailableError ("Connect: connect() system call failed: "
                                   +:+ sys_strerror e))
                (Close (c, w))
          | (None, w) => (OkStatus, (c, w))
          end
      end
  end.

Definition Connect (host : string) (port : Z) : SockM unit := fun s =>
  let '(c, w) := close_if_open s in
  match sys_getaddrinfo host port w with
  | (inl txt, w) =>
      (Error (UnavailableError ("Connect: getaddrinfo failed: " +:+ txt)), (c, w))
  | (inr server_info, w) =>
      let '(last_attempt_status, (c, w)) := connect_loop server_info OkStatus (c, w) in
      if negb (status_ok last_attempt_status) then (Error last_attempt_status, (c, w))
      else (Value tt, (set_listening false c, w))
  end.

(** [data] is what is left to send. *)
Fixpoint send_loop (fuel : nat) (data : list byte) (s : SocketConnection * W)
  : option (StatusOr unit * (SocketConnection * W)) :=
  match data with
  | [] => Some (Value tt, s)
  | _ :: _ =>
      match fuel with
      | O => None
      | S fuel =>
          let '(c, w) := s in
          match sys_send (m_socket c) data w with
          | (SendFailed (E_AGAIN | E_WOULDBLOCK), w) =>
              Some (Error (UnavailableError "Send: Operation would block."), (c, w))
          | (SendFailed (E_PIPE | E_CONNRESET), w) =>
              Some (Error (AbortedError
                "Send: Connection reset by peer (EPIPE/ECONNRESET)."), Close (c, w))
          | (SendFailed e, w) =>
              Some (Error (InternalError ("Send: send() failed: " +:+ sys_strerror e)), (c, w))
          | (Sent O, w) =>
              Some (Error (AbortedError "Send: Peer has closed the connection."), (c, w))
          | (Sent sent, w) => send_loop fuel (drop sent data) (c, w)
          end
      end
  end.

Definition Send (data : list byte) : SockM unit := fun '(c, w) =>
  if negb (IsOpen c) || m_is_listening c then
    (Error (FailedPreconditionError
       "Send: Socket is invalid or operation not supported on a listening socket."), (c, w))
  else run_fueled (send_loop (length data) data (c, w)) (c, w).

(** [left] is [size - total_received]; [got] the bytes in the buffer. *)
Fixpoint recv_loop (fuel : nat) (timeout_ms : Z) (left : Z) (got : list byte)
    (s : SocketConnection * W) : option (StatusOr (list byte) * (SocketConnection * W)) :=
  if left <=? 0 then Some (Value got, s) else
  match fuel with
  | O => None
  | S fuel =>
      let '(c, w) := s in
      match sys_poll (m_socket c) timeout_ms w with
      | (PollFailed e, w) =>
          Some (Error (InternalError ("Recv: poll() failed: " +:+ sys_strerror e)), (c, w))
      | (PollTimedOut, w) =>
          Some (Error (DeadlineExceededError "Recv: Timeout waiting for data."), (c, w))
      | (PollReady false, w) =>
          Some (Error (InternalError
            "Recv: poll() returned an error event on the socket."), (c, w))
      | (PollReady true, w) =>
          match sys_recv (m_socket c) left w with
          | (RecvFailed (E_AGAIN | E_WOULDBLOCK), w) =>
              Some (Error (UnavailableError "Recv: Operation would block."), (c, w))
          | (RecvFailed E_CONNRESET, w) =>
              Some (Error (AbortedError "Recv: Connection reset by peer."), Close (c, w))
          | (RecvFailed e, w) =>
              Some (Error (InternalError ("Recv: recv() system call failed: "
                                          +:+ sys_strerror e)), (c, w))
          | (RecvBytes [], w) =>
              Some (Error (OutOfRangeError
                "Recv: Connection gracefully closed by peer."), (c, w))
          | (RecvBytes l, w) =>
              recv_loop fuel timeout_ms (left - Z.of_nat (length l)) (got ++ l) (c, w)
          end
      end
  end.

(** [Recv]: the bytes written to [data]; the returned size is their number. *)
Definition Recv (size : Z) (timeout_ms : Z) : SockM (list byte) := fun '(c, w) =>
  if negb (IsOpen c) || m_is_listening c then
    (Error (FailedPreconditionError
       "Recv: Socket is invalid or operation not supported on a listening socket."), (c, w))
  else if size =? 0 then (Value [], (c, w))
  else run_fueled (recv_loop (Z.to_nat size) timeout_ms size [] (c, w)) (c, w).

(** Includes the null terminator. *)
Definition SendString (s : string) : SockM unit :=
  Send (String.list_byte_of_string s ++ [Byte.x00]).

(** [while (true)] over [Recv(&c, 1)]: the peer decides how long it runs. *)
Fixpoint receive_string_loop (fuel : nat) (received : list byte) (s : SocketConnection * W)
  : option (StatusOr string * (SocketConnection * W)) :=
  match fuel with
  | O => None
  | S fuel =>
      match Recv 1 kNoTimeout s with
      | (Error e, s) =>
          if bool_decide (code e = kOutOfRange) then
            Some (Error (DataLossError
              "Connection closed before a null terminator was received."), s)
          else Some (Error e, s)
      | (Value l, s) =>
          let c := hd Byte.x00 l in
          if bool_decide (c = Byte.x00) then
            Some (Value (String.string_of_list_byte received), s)
          else receive_string_loop fuel (received ++ [c]) s
      end
  end.

Definition ReceiveString (fuel : nat) (s : SocketConnection * W) :=
  receive_string_loop fuel [] s.

(** ** Files in chunks of [CHUNK_SIZE] bytes *)

Fixpoint send_file_loop (fuel : nat) (file_path : string) (file file_size total_sent : Z)
    (s : SocketConnection * W) : option (StatusOr unit * (SocketConnection * W)) :=
  if negb (total_sent <? file_size) then
    let '(c, w) := s in Some (Value tt, (c, ifs_close file w))
  else
  match fuel with
  | O => None
  | S fuel =>
      let '(c, w) := s in
      let to_read := Z.min CHUNK_SIZE (file_size - total_sent) in
      match ifs_read file to_read w with
      | (None, w) =>
          Some (Error (InternalError ("SendFile: Failed to read chunk from file '"
                                      +:+ file_path +:+ "'")), (c, ifs_close file w))
      | (Some [], w) =>
          Some (Error (DataLossError ("SendFile: File size mismatch. Read 0 bytes before reaching expected end of file '"
                                      +:+ file_path +:+ "'")), (c, ifs_close file w))
      | (Some chunk, w) =>
          match Send chunk (c, w) with
          | (Error e, (c, w)) =>
              (* the stream is closed by its destructor *)
              Some (Error (StatusWithContext e ("SendFile: Failed to send chunk for file '"
                                                +:+ file_path +:+ "'")),
                    (c, ifs_close file w))
          | (Value _, s) =>
              send_file_loop fuel file_path file file_size
                (total_sent + Z.of_nat (length chunk)) s
          end
      end
  end.

Definition SendFile (file_path : string) : SockM unit := fun '(c, w) =>
  match ifs_open file_path w with
  | (None, w) =>
      (Error (NotFoundError ("SendFile: Failed to open file '" +:+ file_path +:+ "'")), (c, w))
  | (Some file, w) =>
      let '(file_size, w) := ifs_tellg file w in
      if file_size <? 0 then
        (Error (InternalError ("SendFile: Failed to determine size of file '"
                               +:+ file_path +:+ "'")), (c, ifs_close file w))
      else run_fueled (send_file_loop (Z.to_nat file_size) file_path file file_size 0 (c, w))
                      (c, w)
  end.

(** [progress]: the optional callback, an effect on the world. *)
Fixpoint receive_file_loop (fuel : nat) (file_path : string) (file file_size : Z)
    (progress : option (Z -> W -> W)) (total_received : Z) (s : SocketConnection * W)
  : option (StatusOr unit * (SocketConnection * W)) :=
  if negb (total_received <? file_size) then
    let '(c, w) := s in Some (Value tt, (c, ofs_close file w))
  else
  match fuel with
  | O => None
  | S fuel =>
      let to_receive := Z.min CHUNK_SIZE (file_size - total_received) in
      match Recv to_receive kNoTimeout s with
      | (Error e, (c, w)) =>
          Some (Error (StatusWithContext e ("ReceiveFile: Failed to receive chunk for '"
                                            +:+ file_path +:+ "'")), (c, ofs_close file w))
      | (Value chunk, (c, w)) =>
          match ofs_write file chunk w with
          | (false, w) =>
              Some (Error (InternalError ("ReceiveFile: Failed to write to file '"
                                          +:+ file_path +:+ "'")), (c, ofs_close file w))
          | (true, w) =>
              let total_received := total_received + Z.of_nat (length chunk) in
              let w := match progress with Some f => f total_received w | None => w end in
              receive_file_loop fuel file_path file file_size progress total_received (c, w)
          end
      end
  end.

Definition ReceiveFile (file_path : string) (file_size : Z)
    (progress : option (Z -> W -> W)) : SockM unit := fun '(c, w) =>
  match ofs_open file_path w with
  | (None, w) =>
      (Error (PermissionDeniedError ("ReceiveFile: Failed to open file '" +:+ file_path
                                     +:+ "' for writing.")), (c, w))
  | (Some file, w) =>
      run_fueled (receive_file_loop (Z.to_nat file_size) file_path file file_size progress 0
                    (c, w)) (c, w)
  end.
End SocketConnection.

(** ** What stream sockets promise *)

(** Safety: bytes come out in the order they went in, none lost or invented,
    however the kernel cuts them up. [incoming] is what the peer has sent and
    we have not received, [outgoing] what we have handed over. *)
Class StreamLaws (W : Type) `{SocketApi W} := {
  incoming : Z -> W -> list byte;
  outgoing : Z -> W -> list byte;
  poll_stream : forall fd t w,
    incoming fd (snd (sys_poll fd t w)) = incoming fd w /\
    outgoing fd (snd (sys_poll fd t w)) = outgoing fd w;
  recv_stream : forall fd n w l w', 0 < n -> sys_recv fd n w = (RecvBytes l, w') ->
    Z.of_nat (length l) <= n /\ incoming fd w = l ++ incoming fd w' /\
    outgoing fd w' = outgoing fd w;
  send_stream : forall fd l w n w', sys_send fd l w = (Sent n, w') ->
    outgoing fd w' = outgoing fd w ++ take n l /\ incoming fd w' = incoming fd w
}.

(** Liveness: on a connection that is up, waiting data is delivered and the
    peer takes at least one byte. *)
Class LiveStream (W : Type) `{StreamLaws W} := {
  up : Z -> W -> Prop;
  poll_live : forall fd t w, up fd w -> incoming fd w <> [] ->
    exists w', sys_poll fd t w = (PollReady true, w') /\ up fd w';
  recv_live : forall fd n w, up fd w -> 0 < n -> incoming fd w <> [] ->
    exists l w', sys_recv fd n w = (RecvBytes l, w') /\ l <> [] /\ up fd w';
  send_live : forall fd l w, up fd w -> l <> [] ->
    exists n w', sys_send fd l w = (Sent (S n), w') /\ up fd w'
}.

(** ** The transfer loops *)

Section Loops.
Context {W : Type} `{SocketApi W} `{FileApi W}.
Implicit Types (c : SocketConnection) (w : W).

(** Fuel [size] is enough, whatever the kernel answers. *)
Lemma send_loop_total fuel data s :
  (length data <= fuel)%nat -> is_Some (send_loop fuel data s).
Proof.
  revert data s. induction fuel as [|fuel IH]; intros [|b data] [c w] Hf;
    simpl in *; try lia; eauto.
  destruct (sys_send (m_socket c) (b :: data) w) as [[[]|[|n]] w']; eauto.
  apply IH. rewrite length_drop. simpl. lia.
Qed.

Lemma recv_loop_total fuel t left got s :
  left <= Z.of_nat fuel -> is_Some (recv_loop fuel t left got s).
Proof.
  revert left got s. induction fuel as [|fuel IH]; intros left got [c w] Hf; simpl.
  - destruct (Z.leb_spec left 0); [eauto|lia].
  - destruct (Z.leb_spec left 0); [eauto|].
    destruct (sys_poll (m_socket c) t w) as [[| |[]] w1]; eauto.
    destruct (sys_recv (m_socket c) left w1) as [[[]|[|b l]] w2]; eauto.
    apply IH. simpl. lia.
Qed.

(** Neither method ever reports running out of fuel. *)
Lemma Send_loop_eq data c w :
  IsOpen c = true -> m_is_listening c = false ->
  send_loop (length data) data (c, w) = Some (Send data (c, w)).
Proof.
  intros Ho Hl. unfold Send. rewrite Ho, Hl. simpl.
  destruct (send_loop_total (length data) data (c, w)) as [r ->]; [lia|done].
Qed.

Lemma Recv_loop_eq n t c w :
  IsOpen c = true -> m_is_listening c = false -> 0 < n ->
  recv_loop (Z.to_nat n) t n [] (c, w) = Some (Recv n t (c, w)).
Proof.
  intros Ho Hl Hn. unfold Recv. rewrite Ho, Hl. simpl.
  destruct (Z.eqb_spec n 0); [lia|].
  destruct (recv_loop_total (Z.to_nat n) t n [] (c, w)) as [r ->]; [lia|done].
Qed.

(** Closing is idempotent and leaves an unusable connection. *)
Lemma Close_closed s : IsOpen (fst (Close s)) = false.
Proof.
  destruct s as [c w]. unfold Close, IsOpen.
  destruct (Z.eqb_spec (m_socket c) kInvalidSocketValue) as [E|E]; simpl; [|done].
  by rewrite E.
Qed.

Lemma Close_Close s : Close (Close s) = Close s.
Proof.
  destruct s as [c w]. unfold Close.
  destruct (Z.eqb_spec (m_socket c) kInvalidSocketValue) as [E|E]; simpl; [|done].
  by rewrite E.
Qed.
End Loops.

(** ** Successful calls keep the connection *)

(** [keeps m]: a call that succeeds leaves the connection object as it was
    (only failures close it). *)
Definition keeps {W A} (m : StatusM (SocketConnection * W) A) : Prop :=
  forall c w a s', m (c, w) = (Value a, s') -> fst s' = c.

Section Keeps.
Context {W : Type} `{SocketApi W} `{FileApi W}.
Implicit Types (c : SocketConnection) (w : W).

Lemma keeps_ret {A} (a : A) : keeps (W := W) (ret a).
Proof. intros c w a' s' [= <- <-]. done. Qed.

Lemma keeps_fail {A} e : keeps (W := W) (A := A) (fail_with e).
Proof. done. Qed.

Lemma keeps_bind {A B} (m : StatusM (SocketConnection * W) A)
    (k : A -> StatusM (SocketConnection * W) B) :
  keeps m -> (forall a, keeps (k a)) -> keeps (bind m k).
Proof.
  intros Hm Hk c w b s' Hb. apply bind_value_inv in Hb as (a & [c1 w1] & HA & HB).
  apply Hm in HA. simpl in HA. subst c1. by eapply Hk.
Qed.

(** After a call that never succeeds the connection does not matter. *)
Lemma keeps_bind_fail {A B} (m : StatusM (SocketConnection * W) A) e :
  keeps (A := B) (bind m (fun _ => fail_with e)).
Proof. intros c w b s' Hb. by apply bind_value_inv in Hb as (a & s1 & _ & Hf). Qed.

Lemma send_loop_keeps fuel data c w s' :
  send_loop fuel data (c, w) = Some (Value tt, s') -> fst s' = c.
Proof.
  revert data w. induction fuel as [|fuel IH]; intros [|b data] w Hs; simpl in Hs;
    simplify_eq; try done.
  destruct (sys_send (m_socket c) (b :: data) w) as [[[]|[|n]] w1]; simplify_eq. by eapply IH.
Qed.

Lemma Send_keeps data : keeps (Send data).
Proof.
  intros c w [] s' HS. pose proof HS as HS'. unfold Send in HS'.
  destruct (negb (IsOpen c) || m_is_listening c) eqn:E; [done|].
  apply orb_false_iff in E as [Ho Hl]. apply negb_false_iff in Ho.
  eapply (send_loop_keeps (length data)). rewrite Send_loop_eq by done. by rewrite HS.
Qed.

Lemma recv_loop_keeps fuel t left got c w l s' :
  recv_loop fuel t left got (c, w) = Some (Value l, s') -> fst s' = c.
Proof.
  revert left got w. induction fuel as [|fuel IH]; intros left got w Hr; simpl in Hr;
    destruct (Z.leb_spec left 0); simplify_eq; try done.
  destruct (sys_poll (m_socket c) t w) as [[| |[]] w1]; simplify_eq.
  destruct (sys_recv (m_socket c) left w1) as [[[]|[|b k]] w2]; simplify_eq. by eapply IH.
Qed.

Lemma Recv_keeps n t : keeps (Recv n t).
Proof.
  intros c w l s' HR. unfold Recv in HR.
  destruct (negb (IsOpen c) || m_is_listening c) eqn:E; [done|].
  destruct (n =? 0); [by simplify_eq|]. unfold run_fueled in HR.
  destruct (recv_loop (Z.to_nat n) t n [] (c, w)) eqn:E'; simplify_eq.
  by eapply recv_loop_keeps.
Qed.

Lemma receive_file_loop_keeps fuel path file size progress total c w s' :
  receive_file_loop fuel path file size progress total (c, w) = Some (Value tt, s') ->
  fst s' = c.
Proof.
  revert total w. induction fuel as [|fuel IH]; intros total w Hr;
    cbn [receive_file_loop] in Hr; destruct (negb (total <? size)); simplify_eq; try done.
  destruct (Recv (CHUNK_SIZE `min` (size - total)) kNoTimeout (c, w)) as [[l|e] [c1 w1]] eqn:E;
    [|done].
  apply Recv_keeps in E. simpl in E. subst c1.
  destruct (ofs_write file l w1) as [[] w2]; [|done]. by eapply IH.
Qed.

Lemma ReceiveFile_keeps path n progress : keeps (ReceiveFile path n progress).
Proof.
  intros c w [] s' HR. unfold ReceiveFile in HR.
  destruct (ofs_open path w) as [[f|] w1]; [|done]. unfold run_fueled in HR.
  destruct (receive_file_loop _ path f n progress 0 (c, w1)) eqn:E; simplify_eq.
  by eapply receive_file_loop_keeps.
Qed.
End Keeps.

Section Streams.
Context {W : Type} `{FileApi W} `{StreamLaws W}.
Implicit Types (c : SocketConnection) (w : W).

Lemma send_loop_ok fuel data c w s' :
  send_loop fuel data (c, w) = Some (Value tt, s') ->
  fst s' = c /\ outgoing (m_socket c) (snd s') = outgoing (m_socket c) w ++ data /\
  incoming (m_socket c) (snd s') = incoming (m_socket c) w.
Proof.
  revert data w. induction fuel as [|fuel IH]; intros [|b data] w Hs; simpl in Hs;
    simplify_eq; try (simpl; by rewrite app_nil_r).
  destruct (sys_send (m_socket c) (b :: data) w) as [[[]|[|n]] w1] eqn:E; simplify_eq.
  destruct (send_stream _ _ _ _ _ E) as [Ho Hi].
  destruct (IH _ _ Hs) as (-> & -> & ->). repeat split; [|done].
  rewrite Ho, <- app_assoc. by rewrite (take_drop (S n) (b :: data)).
Qed.

Lemma recv_loop_ok fuel t left got c w l s' :
  recv_loop fuel t left got (c, w) = Some (Value l, s') -> 0 <= left ->
  fst s' = c /\ outgoing (m_socket c) (snd s') = outgoing (m_socket c) w /\
  exists l', l = got ++ l' /\ Z.of_nat (length l') = left /\
    incoming (m_socket c) w = l' ++ incoming (m_socket c) (snd s').
Proof.
  revert left got w. induction fuel as [|fuel IH]; intros left got w Hr Hleft; simpl in Hr;
    destruct (Z.leb_spec left 0) as [Hl0|Hl0]; simplify_eq.
  - simpl. repeat split. exists []. rewrite app_nil_r. simpl. repeat split. lia.
  - simpl. repeat split. exists []. rewrite app_nil_r. simpl. repeat split. lia.
  - pose proof (poll_stream (m_socket c) t w) as [Hpi Hpo].
    destruct (sys_poll (m_socket c) t w) as [[| |[]] w1] eqn:Ep; simplify_eq. simpl in *.
    destruct (sys_recv (m_socket c) left w1) as [[[]|[|b k]] w2] eqn:E; simplify_eq.
    destruct (recv_stream _ _ _ _ _ Hl0 E) as (Hlen & Hi & Ho).
    destruct (IH _ _ _ Hr) as (-> & -> & l' & -> & Hl' & Hi').
    { cbn [length] in *. lia. }
    rewrite Ho, Hpo. repeat split. exists ((b :: k) ++ l').
    rewrite <- app_assoc. repeat split.
    + rewrite length_app. lia.
    + by rewrite <- Hpi, Hi, Hi', <- app_assoc.
Qed.

Lemma Send_ok data c w s' :
  Send data (c, w) = (Value tt, s') ->
  fst s' = c /\ outgoing (m_socket c) (snd s') = outgoing (m_socket c) w ++ data /\
  incoming (m_socket c) (snd s') = incoming (m_socket c) w.
Proof.
  intros HS. pose proof HS as HS'. unfold Send in HS'.
  destruct (negb (IsOpen c) || m_is_listening c) eqn:E; [done|].
  apply orb_false_iff in E as [Ho Hl]. apply negb_false_iff in Ho.
  eapply send_loop_ok. rewrite Send_loop_eq by done. by rewrite HS.
Qed.

Lemma Recv_ok n t c w l s' :
  Recv n t (c, w) = (Value l, s') -> 0 <= n ->
  fst s' = c /\ outgoing (m_socket c) (snd s') = outgoing (m_socket c) w /\
  Z.of_nat (length l) = n /\
  incoming (m_socket c) w = l ++ incoming (m_socket c) (snd s').
Proof.
  intros HR Hn. pose proof HR as HR'. unfold Recv in HR'.
  destruct (negb (IsOpen c) || m_is_listening c) eqn:E; [done|].
  apply orb_false_iff in E as [Ho Hl]. apply negb_false_iff in Ho.
  destruct (Z.eqb_spec n 0) as [->|Hn0]; [by simplify_eq|].
  destruct (recv_loop_ok (Z.to_nat n) t n [] c w l s') as (? & ? & l' & -> & ? & ?);
    [rewrite Recv_loop_eq by (done || lia); by rewrite HR|lia|].
  by repeat split.
Qed.
End Streams.

Section Liveness.
Context {W : Type} `{FileApi W} `{LiveStream W}.
Implicit Types (c : SocketConnection) (w : W).

Lemma send_loop_live fuel data c w :
  up (m_socket c) w -> (length data <= fuel)%nat ->
  exists w', send_loop fuel data (c, w) = Some (Value tt, (c, w')) /\ up (m_socket c) w'.
Proof.
  revert data w. induction fuel as [|fuel IH]; intros [|b data] w Hup Hf; simpl in *;
    try lia; eauto.
  destruct (send_live (m_socket c) (b :: data) w Hup) as (n & w1 & -> & Hup1); [done|].
  apply IH; [done|]. rewrite length_drop. simpl. lia.
Qed.

Lemma recv_loop_live fuel t left got c w :
  up (m_socket c) w -> left <= Z.of_nat fuel ->
  left <= Z.of_nat (length (incoming (m_socket c) w)) ->
  exists l w', recv_loop fuel t left got (c, w) = Some (Value l, (c, w')) /\
               up (m_socket c) w'.
Proof.
  revert left got w. induction fuel as [|fuel IH]; intros left got w Hup Hf Hin; simpl;
    destruct (Z.leb_spec left 0) as [Hl0|Hl0]; try lia; eauto.
  assert (incoming (m_socket c) w <> []) as Hne by (intros E; rewrite E in Hin; simpl in Hin; lia).
  pose proof (poll_stream (m_socket c) t w) as [Hpi _].
  destruct (poll_live (m_socket c) t w Hup Hne) as (w1 & Ep & Hup1). rewrite Ep in *. simpl in Hpi.
  destruct (recv_live (m_socket c) left w1 Hup1 Hl0) as (l & w2 & Er & Hl & Hup2);
    [by rewrite Hpi|].
  rewrite Er. destruct l as [|b l]; [done|].
  destruct (recv_stream _ _ _ _ _ Hl0 Er) as (Hlen & Hi & _).
  rewrite <- Hpi, Hi, length_app in Hin.
  apply IH; [done| |]; cbn [length] in *; lia.
Qed.

Lemma Send_live data c w :
  IsOpen c = true -> m_is_listening c = false -> up (m_socket c) w ->
  exists w', Send data (c, w) = (Value tt, (c, w')) /\ up (m_socket c) w'.
Proof.
  intros Ho Hl Hup.
  destruct (send_loop_live (length data) data c w Hup) as (w' & E & Hup'); [lia|].
  rewrite Send_loop_eq in E by done. injection E as E. eauto.
Qed.

Lemma Recv_live n t c w :
  IsOpen c = true -> m_is_listening c = false -> up (m_socket c) w -> 0 <= n ->
  n <= Z.of_nat (length (incoming (m_socket c) w)) ->
  exists l w', Recv n t (c, w) = (Value l, (c, w')) /\ up (m_socket c) w'.
Proof.
  intros Ho Hl Hup Hn Hin. destruct (Z.eq_dec n 0) as [->|Hn0].
  - exists [], w. split; [|done]. unfold Recv. by rewrite Ho, Hl.
  - destruct (recv_loop_live (Z.to_nat n) t n [] c w Hup) as (l & w' & E & Hup'); [lia|done|].
    rewrite Recv_loop_eq in E by (done || lia). injection E as E. eauto.
Qed.
End Liveness.
