(* ===== verification/Pipe.v ===== *)
(** * Pipe: a concrete outside world

    A connection whose two directions are byte lists and whose kernel moves at
    most [chunk + 1] bytes per call, and a file system that is a finite map.
    It satisfies [StreamLaws] and [LiveStream]: the hypotheses of the network
    theorems hold of it, and the witnesses evaluate on it. *)

From S2P Require Import Prelude Status Wire Messages Socket.

Record Pipe := mkPipe {
  rx : list byte;
  tx : list byte;
  chunk : nat;
  files : gmap string (list byte);
  reading : list byte;
  writing : string
}.

Definition set_rx (l : list byte) (p : Pipe) := mkPipe l (tx p) (chunk p) (files p) (reading p) (writing p).
Definition set_tx (l : list byte) (p : Pipe) := mkPipe (rx p) l (chunk p) (files p) (reading p) (writing p).
Definition set_files f (p : Pipe) := mkPipe (rx p) (tx p) (chunk p) f (reading p) (writing p).
Definition set_reading l (p : Pipe) := mkPipe (rx p) (tx p) (chunk p) (files p) l (writing p).
Definition set_writing n (p : Pipe) := mkPipe (rx p) (tx p) (chunk p) (files p) (reading p) n.

Definition pipe_recv (n : Z) (p : Pipe) : recv_result * Pipe :=
  let k := Nat.min (Z.to_nat n) (S (chunk p)) in
  (RecvBytes (take k (rx p)), set_rx (drop k (rx p)) p).

Definition pipe_send (l : list byte) (p : Pipe) : send_result * Pipe :=
  let k := Nat.min (length l) (S (chunk p)) in
  (Sent k, set_tx (tx p ++ take k l) p).

#[export] Instance Pipe_SocketApi : SocketApi Pipe := {
  addrinfo := unit;
  network_initialized := true;
  sys_strerror := fun _ => "error";
  sys_getaddrinfo := fun _ _ p => (inr [tt], p);
  sys_socket := fun _ p => (inr 3, p);
  sys_connect := fun _ _ p => (None, p);
  sys_bind := fun _ _ p => (None, p);
  sys_listen := fun _ p => (None, p);
  sys_accept := fun _ p => (inr 4, p);
  sys_poll := fun _ _ p => (if bool_decide (rx p = []) then PollTimedOut else PollReady true, p);
  sys_recv := fun _ n p => pipe_recv n p;
  sys_send := fun _ l p => pipe_send l p;
  sys_shutdown_close := fun _ p => p
}.

#[export] Instance Pipe_FileApi : FileApi Pipe := {
  ifs_open := fun path p =>
    match files p !! path with
    | Some l => (Some 0, set_reading l p)
    | None => (None, p)
    end;
  ifs_tellg := fun _ p => (Z.of_nat (length (reading p)), p);
  ifs_read := fun _ n p =>
    if Z.of_nat (length (reading p)) <? n then (None, p)
    else (Some (take (Z.to_nat n) (reading p)), set_reading (drop (Z.to_nat n) (reading p)) p);
  ifs_close := fun _ p => p;
  ofs_open := fun path p => (Some 0, set_writing path (set_files (<[path := []]> (files p)) p));
  ofs_write := fun _ l p =>
    (true, set_files (<[writing p := default [] (files p !! writing p) ++ l]> (files p)) p);
  ofs_close := fun _ p => p;
  fs_is_regular_file := fun path p =>
    (bool_decide (is_Some (files p !! path)), None, p);
  fs_file_size := fun path p =>
    match files p !! path with
    | Some l => (Z.of_nat (length l), None, p)
    | None => (-1, Some "No such file or directory", p)
    end;
  fs_remove := fun path p =>
    (bool_decide (is_Some (files p !! path)), None, set_files (delete path (files p)) p)
}.

#[export] Program Instance Pipe_StreamLaws : StreamLaws Pipe := {
  incoming := fun _ p => rx p;
  outgoing := fun _ p => tx p
}.
Next Obligation. done. Qed.
Next Obligation.
  intros fd n p l p' Hn. simpl. unfold pipe_recv. intros [= <- <-]. simpl.
  rewrite take_drop. repeat split. rewrite length_take. lia.
Qed.
Next Obligation.
  intros fd l p n p'. simpl. unfold pipe_send. intros [= <- <-]. done.
Qed.

#[export] Program Instance Pipe_LiveStream : LiveStream Pipe := { up := fun _ _ => True }.
Next Obligation.
  intros fd t p _ Hne. simpl in *. rewrite bool_decide_eq_false_2 by done. eauto.
Qed.
Next Obligation.
  intros fd n p _ Hn Hne. simpl in *. unfold pipe_recv.
  eexists _, _. split; [done|]. split; [|done].
  destruct (rx p) as [|b r]; [done|]. destruct (Z.to_nat n) eqn:E; [lia|]. done.
Qed.
Next Obligation.
  intros fd [|b l] p _ Hne; [done|]. simpl. unfold pipe_send. simpl. eauto.
Qed.

(** A connected descriptor on a pipe. *)
Definition pipe_conn : SocketConnection := mkSocketConnection 3 false kAcceptTimeout.
Definition pipe_with (l : list byte) (k : nat) : Pipe := mkPipe l [] k ∅ [] "".
