(* ===== verification/Transfer.v ===== *)
(** * Transfer: strings and files over a socket

    The transfer methods of [SocketConnection] ([src/network/socket_connection.cc],
    modelled in [Socket]) used end to end: what [SendString] and [SendFile] put
    on the stream is what [ReceiveString] and [ReceiveFile] take off it.

    [FileStore] states what the [FileApi] functions promise about the contents
    of files; the transfer theorems are proved against it. *)

From S2P Require Import Prelude Status Wire Messages Socket Pipe.

(** ** What a file system promises *)

(** [content]: the bytes of a file; [unread]: what an input stream has yet to
    give; [target]: the path an output stream writes to. *)
Class FileStore (W : Type) `{FileApi W} `{LiveStream W} := {
  content : string -> W -> option (list byte);
  unread : Z -> W -> list byte;
  target : Z -> W -> string
}.

Section Frames.
Context {W : Type} `{FileStore W}.

(** A step of the program that leaves the connections alone. *)
Definition same_net (w w' : W) : Prop := forall fd,
  incoming fd w' = incoming fd w /\ outgoing fd w' = outgoing fd w /\ (up fd w -> up fd w').

(** A step of the program that leaves files and file streams alone. *)
Definition same_files (w w' : W) : Prop :=
  (forall path, content path w' = content path w) /\
  (forall fd, unread fd w' = unread fd w /\ target fd w' = target fd w).

#[global] Instance same_net_preorder : PreOrder same_net.
Proof.
  split; [by intros w fd|]. intros w1 w2 w3 H12 H23 fd.
  destruct (H12 fd) as (Hi & Ho & Hu), (H23 fd) as (Hi' & Ho' & Hu').
  rewrite Hi', Ho'. auto.
Qed.

#[global] Instance same_files_preorder : PreOrder same_files.
Proof.
  split; [done|]. intros w1 w2 w3 [C12 F12] [C23 F23]. split; intros x.
  - by rewrite C23.
  - destruct (F12 x) as [U T], (F23 x) as [U' T']. by rewrite U', T'.
Qed.
End Frames.

Class FileStoreLaws (W : Type) `{FileStore W} := {
  poll_files : forall fd t w, same_files w (snd (sys_poll fd t w));
  recv_files : forall fd n w, same_files w (snd (sys_recv fd n w));
  send_files : forall fd l w, same_files w (snd (sys_send fd l w));
  read_open : forall path w fd w', ifs_open path w = (Some fd, w') ->
    content path w = Some (unread fd w') /\ same_net w w';
  read_size : forall fd w, exists w', ifs_tellg fd w = (Z.of_nat (length (unread fd w)), w') /\
    unread fd w' = unread fd w /\ same_net w w';
  read_bytes : forall fd n w, 0 <= n <= Z.of_nat (length (unread fd w)) ->
    exists w', ifs_read fd n w = (Some (take (Z.to_nat n) (unread fd w)), w') /\
      unread fd w' = drop (Z.to_nat n) (unread fd w) /\ same_net w w';
  read_close : forall fd w, same_net w (ifs_close fd w);
  write_open : forall path w fd w', ofs_open path w = (Some fd, w') ->
    content path w' = Some [] /\ target fd w' = path /\ same_net w w';
  write_bytes : forall fd l w old, content (target fd w) w = Some old ->
    exists w', ofs_write fd l w = (true, w') /\ target fd w' = target fd w /\
      content (target fd w) w' = Some (old ++ l) /\ same_net w w';
  write_close : forall fd w, same_net w (ofs_close fd w) /\
    forall path, content path (ofs_close fd w) = content path w;
  stat_regular : forall path w, same_net w (snd (fs_is_regular_file path w)) /\
    same_files w (snd (fs_is_regular_file path w));
  stat_size : forall path w, same_net w (snd (fs_file_size path w)) /\
    same_files w (snd (fs_file_size path w));
  stat_size_content : forall path w n w' data,
    fs_file_size path w = (n, None, w') -> content path w = Some data ->
    n = Z.of_nat (length data);
  remove_net : forall path w, same_net w (snd (fs_remove path w))
}.

(** ** The transfer loops leave files alone *)

#[local] Arguments Send : simpl never.
#[local] Arguments Recv : simpl never.

Section Transfer.
Context {W : Type} `{FileStoreLaws W}.
Implicit Types (c : SocketConnection) (w : W).

Lemma send_loop_files fuel data c w r s' :
  send_loop fuel data (c, w) = Some (Value r, s') -> same_files w (snd s').
Proof.
  revert data w. induction fuel as [|fuel IH]; intros [|b data] w Hs; simpl in Hs;
    simplify_eq; try done.
  pose proof (send_files (m_socket c) (b :: data) w) as Hf.
  destruct (sys_send (m_socket c) (b :: data) w) as [[[]|[|n]] w1]; simplify_eq.
  etrans; [exact Hf|]. by eapply IH.
Qed.

Lemma recv_loop_files fuel t left got c w l s' :
  recv_loop fuel t left got (c, w) = Some (Value l, s') -> same_files w (snd s').
Proof.
  revert left got w. induction fuel as [|fuel IH]; intros left got w Hr; simpl in Hr;
    destruct (Z.leb_spec left 0); simplify_eq; try done.
  pose proof (poll_files (m_socket c) t w) as Hp.
  destruct (sys_poll (m_socket c) t w) as [[| |[]] w1]; simplify_eq.
  pose proof (recv_files (m_socket c) left w1) as Hf.
  destruct (sys_recv (m_socket c) left w1) as [[[]|[|b k]] w2]; simplify_eq.
  etrans; [exact Hp|]. etrans; [exact Hf|]. by eapply IH.
Qed.

(** A send on a live connection, with everything it does. *)
Lemma Send_step data c w :
  IsOpen c = true -> m_is_listening c = false -> up (m_socket c) w ->
  exists w', Send data (c, w) = (Value tt, (c, w')) /\ up (m_socket c) w' /\
    outgoing (m_socket c) w' = outgoing (m_socket c) w ++ data /\
    incoming (m_socket c) w' = incoming (m_socket c) w /\ same_files w w'.
Proof.
  intros Ho Hl Hup. destruct (Send_live data c w Ho Hl Hup) as (w' & E & Hup').
  destruct (Send_ok _ _ _ _ E) as (_ & Hout & Hin).
  exists w'. repeat split; try done.
  all: assert (send_loop (length data) data (c, w) = Some (Value tt, (c, w'))) as Hs
    by (rewrite Send_loop_eq by done; by rewrite E); apply send_loop_files in Hs.
  - apply Hs.
  - apply Hs.
  - apply Hs.
Qed.

Lemma Recv_step n t c w data rest :
  IsOpen c = true -> m_is_listening c = false -> up (m_socket c) w ->
  incoming (m_socket c) w = data ++ rest -> n = Z.of_nat (length data) ->
  exists w', Recv n t (c, w) = (Value data, (c, w')) /\ up (m_socket c) w' /\
    incoming (m_socket c) w' = rest /\ outgoing (m_socket c) w' = outgoing (m_socket c) w /\
    same_files w w'.
Proof.
  intros Ho Hl Hup Hin ->.
  destruct (Recv_live (Z.of_nat (length data)) t c w Ho Hl Hup) as (l & w' & E & Hup'); [lia| |].
  { rewrite Hin, length_app. lia. }
  destruct (Recv_ok _ _ _ _ _ _ E) as (_ & Hout & Hlen & Hi); [lia|]. cbn [fst snd] in *.
  rewrite Hin in Hi. apply app_inj_1 in Hi as [<- Hi]; [|lia].
  exists w'. split; [done|]. split; [done|]. split; [done|]. split; [done|].
  destruct (Z.eq_dec (Z.of_nat (length data)) 0) as [E0|Hn].
  - unfold Recv in E. rewrite Ho, Hl, E0 in E. simpl in E. by simplify_eq.
  - eapply (recv_loop_files (Z.to_nat (Z.of_nat (length data))) t _ [] c w data (c, w')).
    rewrite Recv_loop_eq by (done || lia). by rewrite E.
Qed.

(** ** Strings *)

Definition no_null (s : string) : Prop := Byte.x00 ∉ String.list_byte_of_string s.

Lemma receive_string_loop_live fuel l rest received c w :
  (length l < fuel)%nat -> Byte.x00 ∉ l ->
  IsOpen c = true -> m_is_listening c = false -> up (m_socket c) w ->
  incoming (m_socket c) w = l ++ Byte.x00 :: rest ->
  exists w', receive_string_loop fuel received (c, w) =
      Some (Value (String.string_of_list_byte (received ++ l)), (c, w')) /\
    up (m_socket c) w' /\ incoming (m_socket c) w' = rest.
Proof.
  revert l received w. induction fuel as [|fuel IH]; intros l received w Hf Hn Ho Hl Hup Hin;
    [lia|].
  destruct l as [|b l]; cbn [receive_string_loop app] in *.
  - destruct (Recv_step 1 kNoTimeout c w [Byte.x00] rest) as (w1 & -> & Hup1 & Hi1 & _); try done.
    cbn [hd]. rewrite bool_decide_eq_true_2, app_nil_r by done. eauto.
  - destruct (Recv_step 1 kNoTimeout c w [b] (l ++ Byte.x00 :: rest))
      as (w1 & -> & Hup1 & Hi1 & _); try done.
    cbn [hd]. apply not_elem_of_cons in Hn as [Hb Hn].
    rewrite bool_decide_eq_false_2 by congruence.
    destruct (IH l (received ++ [b]) w1) as (w2 & -> & ?); try done; [simpl in Hf; lia|].
    rewrite <- app_assoc. eauto.
Qed.

(** ** Files *)

Lemma send_file_loop_live fuel path file size c w :
  IsOpen c = true -> m_is_listening c = false -> up (m_socket c) w ->
  forall total, size - total = Z.of_nat (length (unread file w)) -> size - total <= Z.of_nat fuel ->
  exists w', send_file_loop fuel path file size total (c, w) = Some (Value tt, (c, w')) /\
    up (m_socket c) w' /\
    outgoing (m_socket c) w' = outgoing (m_socket c) w ++ unread file w /\
    incoming (m_socket c) w' = incoming (m_socket c) w.
Proof.
  intros Ho Hl. revert w. induction fuel as [|fuel IH]; intros w Hup total Hsz Hf; simpl;
    destruct (Z.ltb_spec total size) as [Hlt|Hge]; simpl; try lia.
  1,3: destruct (read_close file w (m_socket c)) as (Hi & Hout & Hu);
    exists (ifs_close file w); rewrite Hi, Hout;
    destruct (unread file w); [by rewrite app_nil_r; auto|cbn [length] in *; lia].
  set (n := Z.min CHUNK_SIZE (size - total)).
  assert (0 < n <= size - total) as Hn by (unfold n, CHUNK_SIZE; lia).
  destruct (read_bytes file n w) as (w1 & -> & Hun & Hnet); [lia|].
  assert (length (take (Z.to_nat n) (unread file w)) = Z.to_nat n) as Hlen
    by (rewrite length_take; lia).
  destruct (take (Z.to_nat n) (unread file w)) as [|b chunk] eqn:E; [simpl in Hlen; lia|].
  destruct (Hnet (m_socket c)) as (Hi1 & Ho1 & Hu1).
  destruct (Send_step (b :: chunk) c w1) as (w2 & -> & Hup2 & Ho2 & Hi2 & _ & Hfs);
    [done|done|by apply Hu1|]. destruct (Hfs file) as [Hun2 _].
  rewrite Hlen, <- E in *.
  destruct (IH w2 Hup2 (total + Z.of_nat (Z.to_nat n))) as (w3 & -> & Hup3 & Ho3 & Hi3);
    [rewrite Hun2, Hun, length_drop; lia|lia|].
  exists w3. rewrite Ho3, Hi3, Hi2, Ho2, Hun2, Hun, Ho1, Hi1, <- app_assoc.
  by rewrite (take_drop (Z.to_nat n)).
Qed.

Lemma SendFile_live path file w0 c w :
  IsOpen c = true -> m_is_listening c = false -> up (m_socket c) w ->
  ifs_open path w = (Some file, w0) ->
  exists data w', content path w = Some data /\ SendFile path (c, w) = (Value tt, (c, w')) /\
    up (m_socket c) w' /\ outgoing (m_socket c) w' = outgoing (m_socket c) w ++ data /\
    incoming (m_socket c) w' = incoming (m_socket c) w.
Proof.
  intros Ho Hl Hup Hopen. unfold SendFile. rewrite Hopen.
  destruct (read_open _ _ _ _ Hopen) as (Hc & Hn0).
  destruct (read_size file w0) as (w1 & -> & Hun & Hn1).
  destruct (Z.ltb_spec (Z.of_nat (length (unread file w0))) 0); [lia|].
  destruct (Hn0 (m_socket c)) as (Hi0 & Ho0 & Hu0), (Hn1 (m_socket c)) as (Hi1 & Ho1 & Hu1).
  destruct (send_file_loop_live (Z.to_nat (Z.of_nat (length (unread file w0)))) path file
              (Z.of_nat (length (unread file w0))) c w1) with (total := 0)
    as (w2 & E & Hup2 & Hout & Hin); try (rewrite ?Hun; (done || lia)); [by apply Hu1, Hu0|].
  rewrite Hun in E, Hout || idtac. rewrite E. exists (unread file w0), w2.
  rewrite Hout, Hin, Hi1, Ho1, Hi0, Ho0. by rewrite ?Hun.
Qed.

(** A progress callback that touches neither the connection nor files. *)
Definition quiet (progress : option (Z -> W -> W)) : Prop :=
  forall f, progress = Some f -> forall n w, same_net w (f n w) /\ same_files w (f n w).

Lemma quiet_step progress n w :
  quiet progress ->
  same_net w (match progress with Some f => f n w | None => w end) /\
  same_files w (match progress with Some f => f n w | None => w end).
Proof. intros Hq. destruct progress as [f|]; [by apply Hq|done]. Qed.

Lemma receive_file_loop_live fuel path file size progress c :
  quiet progress -> IsOpen c = true -> m_is_listening c = false ->
  forall data rest old total w, up (m_socket c) w ->
  incoming (m_socket c) w = data ++ rest ->
  size - total = Z.of_nat (length data) -> size - total <= Z.of_nat fuel ->
  target file w = path -> content path w = Some old ->
  exists w', receive_file_loop fuel path file size progress total (c, w) =
      Some (Value tt, (c, w')) /\ up (m_socket c) w' /\
    incoming (m_socket c) w' = rest /\ outgoing (m_socket c) w' = outgoing (m_socket c) w /\
    content path w' = Some (old ++ data).
Proof.
  intros Hq Ho Hl. induction fuel as [|fuel IH]; intros data rest old total w Hup Hin Hsz Hf Ht Hold;
    simpl; destruct (Z.ltb_spec total size) as [Hlt|Hge]; simpl; try lia.
  1,3: destruct (write_close file w) as [Hnet Hc]; destruct (Hnet (m_socket c)) as (Hi & Hout & Hu);
    exists (ofs_close file w); rewrite Hi, Hout, Hc;
    (destruct data; [by rewrite app_nil_r; auto|cbn [length] in *; lia]).
  set (n := Z.min CHUNK_SIZE (size - total)).
  assert (0 < n <= size - total) as Hn by (unfold n, CHUNK_SIZE; lia).
  destruct (Recv_step n kNoTimeout c w (take (Z.to_nat n) data) (drop (Z.to_nat n) data ++ rest))
    as (w1 & -> & Hup1 & Hi1 & Ho1 & Hc1 & Hfs1); try done.
  { by rewrite app_assoc, take_drop. }
  { rewrite length_take. lia. }
  destruct (Hfs1 file) as [_ Ht1].
  destruct (write_bytes file (take (Z.to_nat n) data) w1 old) as (w2 & -> & Ht2 & Hc2 & Hn2).
  { by rewrite Ht1, Ht, Hc1. }
  rewrite length_take.
  match goal with |- context [match progress with Some f => f ?k w2 | None => w2 end] =>
    destruct (quiet_step progress k w2 Hq) as [Hn3 [Hc3 Hfs3]];
    set (w3 := match progress with Some f => f k w2 | None => w2 end) in * end.
  destruct (Hfs3 file) as [_ Ht3].
  destruct (Hn2 (m_socket c)) as (Hi2 & Ho2 & Hu2), (Hn3 (m_socket c)) as (Hi3 & Ho3 & Hu3).
  edestruct (IH (drop (Z.to_nat n) data) rest (old ++ take (Z.to_nat n) data)) as (w4 & -> & Hup4 & Hi4 & Ho4 & Hc4).
  { apply Hu3, Hu2, Hup1. }
  { by rewrite Hi3, Hi2. }
  { rewrite length_drop. lia. }
  { lia. }
  { by rewrite Ht3, Ht2, Ht1. }
  { rewrite Hc3. by rewrite Ht1, Ht in Hc2. }
  exists w4. rewrite Hi4, Ho4, Hc4, Ho3, Ho2, Ho1, <- app_assoc. by rewrite take_drop.
Qed.

Lemma ReceiveFile_live path file w0 progress data rest c w :
  quiet progress -> IsOpen c = true -> m_is_listening c = false -> up (m_socket c) w ->
  ofs_open path w = (Some file, w0) -> incoming (m_socket c) w = data ++ rest ->
  exists w', ReceiveFile path (Z.of_nat (length data)) progress (c, w) = (Value tt, (c, w')) /\
    up (m_socket c) w' /\ incoming (m_socket c) w' = rest /\
    outgoing (m_socket c) w' = outgoing (m_socket c) w /\ content path w' = Some data.
Proof.
  intros Hq Ho Hl Hup Hopen Hin. unfold ReceiveFile. rewrite Hopen.
  destruct (write_open _ _ _ _ Hopen) as (Hc & Ht & Hnet).
  destruct (Hnet (m_socket c)) as (Hi0 & Ho0 & Hu0).
  destruct (receive_file_loop_live (Z.to_nat (Z.of_nat (length data))) path file
              (Z.of_nat (length data)) progress c Hq Ho Hl data rest [] 0 w0)
    as (w' & -> & ? & ? & Hout & ?); try (done || lia); [by apply Hu0|by rewrite Hi0|].
  exists w'. by rewrite Hout, Ho0.
Qed.
End Transfer.

(** ** The pipe keeps files *)

#[export] Instance Pipe_FileStore : FileStore Pipe := {
  content := fun path p => files p !! path;
  unread := fun _ p => reading p;
  target := fun _ p => writing p
}.

#[export] Instance Pipe_FileStoreLaws : FileStoreLaws Pipe.
Proof.
  split; try done.
  - intros path p fd p'. simpl. destruct (files p !! path) eqn:E; [|done]. by intros [= <- <-].
  - intros fd p. simpl. eexists. by repeat split.
  - intros fd n p Hn. simpl in *. destruct (Z.ltb_spec (Z.of_nat (length (reading p))) n); [lia|].
    eexists. by repeat split.
  - intros path p fd p'. simpl. intros [= <- <-]. simpl. by rewrite lookup_insert_eq.
  - intros fd l p old. simpl. intros ->. eexists. split; [done|]. simpl.
    by rewrite lookup_insert_eq.
  - intros path p. simpl. by destruct (files p !! path).
  - intros path p n p' data. simpl. intros E Hc. rewrite Hc in E. by injection E as <-.
Qed.

(** ** Properties *)

(** A file goes over a connection whole. [SendFile] of a file that opens
    puts exactly its bytes on the stream, chunk by chunk, and [ReceiveFile] of
    that many bytes writes a file with exactly those bytes and leaves what
    follows on the stream, whatever a progress callback that keeps its hands
    off does in between; neither runs out of fuel. *)
Theorem file_delivered {W1 W2 : Type} `{FileStoreLaws W1} `{FileStoreLaws W2}
    path1 path2 c1 (w1 : W1) f1 v1 c2 (w2 : W2) f2 v2 progress :
  IsOpen c1 = true -> m_is_listening c1 = false -> up (m_socket c1) w1 ->
  IsOpen c2 = true -> m_is_listening c2 = false -> up (m_socket c2) w2 ->
  ifs_open path1 w1 = (Some f1, v1) -> ofs_open path2 w2 = (Some f2, v2) -> quiet progress ->
  exists data w1', content path1 w1 = Some data /\
    SendFile path1 (c1, w1) = (Value tt, (c1, w1')) /\
    outgoing (m_socket c1) w1' = outgoing (m_socket c1) w1 ++ data /\
    forall rest, incoming (m_socket c2) w2 = data ++ rest ->
    exists w2', ReceiveFile path2 (Z.of_nat (length data)) progress (c2, w2)
        = (Value tt, (c2, w2')) /\
      incoming (m_socket c2) w2' = rest /\ content path2 w2' = Some data.
Proof.
  intros Ho1 Hl1 Hup1 Ho2 Hl2 Hup2 Hr Hw Hq.
  destruct (SendFile_live _ _ _ _ _ Ho1 Hl1 Hup1 Hr) as (data & w1' & Hc & HS & _ & Hout & _).
  exists data, w1'. repeat split; try done. intros rest Hin.
  destruct (ReceiveFile_live _ _ _ _ _ _ _ _ Hq Ho2 Hl2 Hup2 Hw Hin) as (w2' & HR & _ & Hi & _ & Hc2).
  eauto.
Qed.

Definition file_pipe : Pipe :=
  mkPipe [] [] 6 {[ "trace.rd" := String.list_byte_of_string "Adreno capture" ]} [] "".

Lemma file_delivered_witness :
  exists w2', ReceiveFile "out.rd" 14 None (pipe_conn, pipe_with (String.list_byte_of_string "Adreno capture!") 2)
    = (Value tt, (pipe_conn, w2')) /\
  files w2' !! ("out.rd" : string) = Some (String.list_byte_of_string "Adreno capture").
Proof.
  assert (forall p : Pipe, up (m_socket pipe_conn) p) as Hup by done.
  set (w2 := pipe_with (String.list_byte_of_string "Adreno capture!") 2).
  set (v1 := set_reading (String.list_byte_of_string "Adreno capture") file_pipe).
  set (v2 := set_writing "out.rd" (set_files {[ "out.rd" := [] ]} w2)).
  assert (ifs_open "trace.rd" file_pipe = (Some 0, v1)) as Hr by (vm_compute; reflexivity).
  assert (ofs_open "out.rd" w2 = (Some 0, v2)) as Hw by (vm_compute; reflexivity).
  destruct (file_delivered (W1 := Pipe) (W2 := Pipe) "trace.rd" "out.rd" pipe_conn file_pipe 0 v1
     pipe_conn w2 0 v2 None eq_refl eq_refl (Hup _) eq_refl eq_refl (Hup _) Hr Hw)
    as (data & w1' & Hc & _ & _ & Hrecv).
  - intros f [=].
  - assert (data = String.list_byte_of_string "Adreno capture") as ->
      by (vm_compute in Hc; by injection Hc as <-).
    destruct (Hrecv (String.list_byte_of_string "!") eq_refl) as (w2' & HR & _ & Hc2).
    exists w2'. split; [exact HR|exact Hc2].
Defined.

(** A string without a null byte is restored by the peer:
    [SendString] appends it and one null to the stream, and [ReceiveString]
    gives it back and stops right behind the null, with fuel for one byte more
    than the string's length. *)
Theorem string_delivered {W1 W2 : Type} `{FileStoreLaws W1} `{FileStoreLaws W2}
    (s : string) c1 (w1 : W1) c2 (w2 : W2) fuel rest :
  no_null s -> (String.length s < fuel)%nat ->
  IsOpen c1 = true -> m_is_listening c1 = false -> up (m_socket c1) w1 ->
  IsOpen c2 = true -> m_is_listening c2 = false -> up (m_socket c2) w2 ->
  let bytes := String.list_byte_of_string s ++ [Byte.x00] in
  (exists w1', SendString s (c1, w1) = (Value tt, (c1, w1')) /\
     outgoing (m_socket c1) w1' = outgoing (m_socket c1) w1 ++ bytes) /\
  (incoming (m_socket c2) w2 = bytes ++ rest ->
   exists w2', ReceiveString fuel (c2, w2) = Some (Value s, (c2, w2')) /\
     incoming (m_socket c2) w2' = rest).
Proof.
  intros Hn Hf Ho1 Hl1 Hup1 Ho2 Hl2 Hup2. split.
  - destruct (Send_step (String.list_byte_of_string s ++ [Byte.x00]) c1 w1)
      as (w1' & E & _ & Hout & _); eauto.
  - intros Hin. rewrite <- app_assoc in Hin.
    destruct (receive_string_loop_live fuel _ _ [] c2 w2 ltac:(rewrite length_list_byte_of_string; exact Hf)
                Hn Ho2 Hl2 Hup2 Hin) as (w2' & E & _ & Hi).
    exists w2'. split; [|done]. unfold ReceiveString. rewrite E. simpl.
    by rewrite String.string_of_list_byte_of_string.
Qed.

Lemma string_delivered_witness :
  exists w2', ReceiveString 4 (pipe_conn, pipe_with [Byte.x41; Byte.x42; Byte.x00; Byte.x43] 0)
    = Some (Value "AB", (pipe_conn, w2')) /\ rx w2' = [Byte.x43].
Proof.
  assert (forall p : Pipe, up (m_socket pipe_conn) p) as Hup by done.
  destruct (string_delivered (W1 := Pipe) (W2 := Pipe) "AB" pipe_conn file_pipe pipe_conn
     (pipe_with [Byte.x41; Byte.x42; Byte.x00; Byte.x43] 0) 4 [Byte.x43])
    as [_ Hr]; try done.
  - unfold no_null. apply (bool_decide_unpack _). by vm_compute.
  - simpl. lia.
  - by apply Hr.
Defined.
