(* ===== verification/Framing.v ===== *)
(** * Framing: whole messages over a socket

    Models [ReceiveBuffer], [SendBuffer], [ReceiveSocketMessage] and
    [SendSocketMessage] of [src/network/messages.cc]: a header of two
    big-endian words (type, payload length) followed by the payload.

    The functions take a [SocketConnection*] that may be null: the state is an
    [option SocketConnection] with the outside world. *)

From S2P Require Import Prelude Status Wire Messages Socket Pipe.

Definition kMaxPayloadSize : Z := 16 * 1024 * 1024.
Definition kHeaderSize : Z := 8.

Section Framing.
Context {W : Type} `{SocketApi W} `{FileApi W}.

(** [if (!conn) return InvalidArgumentError(...)], then the body. *)
Definition with_conn {A} (body : StatusM (SocketConnection * W) A)
  : StatusM (option SocketConnection * W) A := fun '(conn, w) =>
  match conn with
  | None => (Error (InvalidArgumentError "Provided SocketConnection is null."), (None, w))
  | Some c => let '(r, (c, w)) := body (c, w) in (r, (Some c, w))
  end.

(** [while (total_received < size)]; [left] is [size - total_received]. *)
Fixpoint receive_buffer_loop (fuel : nat) (timeout_ms left : Z) (buffer : Buffer)
    (s : SocketConnection * W) : option (StatusOr Buffer * (SocketConnection * W)) :=
  if left <=? 0 then Some (Value buffer, s) else
  match fuel with
  | O => None
  | S fuel =>
      match Recv left timeout_ms s with
      | (Error e, s) => Some (Error e, s)
      | (Value received, s) =>
          receive_buffer_loop fuel timeout_ms (left - Z.of_nat (length received))
            (buffer ++ received) s
      end
  end.

Definition receive_buffer (size timeout_ms : Z) : StatusM (SocketConnection * W) Buffer :=
  fun s => run_fueled (receive_buffer_loop (Z.to_nat size) timeout_ms size [] s) s.

Definition ReceiveBuffer (size timeout_ms : Z) :=
  with_conn (receive_buffer size timeout_ms).

Definition SendBuffer (buffer : Buffer) := with_conn (Send buffer).

Definition close_conn : StatusM (SocketConnection * W) unit :=
  fun s => (Value tt, Close s).

(** The parsed header: type and payload length. *)
Definition parse_header (header_buffer : Buffer) : Z * Z :=
  let net_type := le_combine (bytes_at header_buffer 0 4) in
  let net_length := le_combine (bytes_at header_buffer 4 4) in
  (ntohl net_type, ntohl net_length).

Definition receive_socket_message (timeout_ms : Z)
  : StatusM (SocketConnection * W) Message :=
  let* header_buffer := receive_buffer kHeaderSize timeout_ms in
  let '(type, payload_length) := parse_header header_buffer in
  if kMaxPayloadSize <? payload_length then
    do* close_conn in
    fail_with (InvalidArgumentError ("Payload size " +:+ pretty payload_length
                                     +:+ " exceeds limit."))
  else
    let* payload_buffer := receive_buffer payload_length timeout_ms in
    match make_message type with
    | None =>
        do* close_conn in
        fail_with (InvalidArgumentError ("Unknown message type: " +:+ pretty type))
    | Some message =>
        let '(status, message) := msg_deserialize message payload_buffer in
        if negb (status_ok status) then
          do* close_conn in fail_with status
        else ret message
    end.

Definition ReceiveSocketMessage (timeout_ms : Z) := with_conn (receive_socket_message timeout_ms).

Definition header_bytes (type payload_size : Z) : Buffer :=
  let net_type := htonl type in
  let net_payload_length := htonl (wrap 32 payload_size) in
  le_split 4 net_type ++ le_split 4 net_payload_length.

Definition send_socket_message (message : Message) : StatusM (SocketConnection * W) unit :=
  let '(status, payload_buffer) := msg_serialize message [] in
  if negb (status_ok status) then fail_with status
  else if kMaxPayloadSize <? size payload_buffer then
    fail_with (InvalidArgumentError "Serialized payload size exceeds limit.")
  else
    do* Send (header_bytes (MessageType_to_Z (GetMessageType message)) (size payload_buffer)) in
    do* Send payload_buffer in
    ret tt.

Definition SendSocketMessage (message : Message) := with_conn (send_socket_message message).

(** ** Facts that hold for every kernel *)

Lemma recv_loop_length fuel t left got s l s' :
  recv_loop fuel t left got s = Some (Value l, s') ->
  left <= Z.of_nat (length l) - Z.of_nat (length got).
Proof.
  revert left got s. induction fuel as [|fuel IH]; intros left got [c w] Hr; simpl in Hr;
    destruct (Z.leb_spec left 0); simplify_eq; try lia.
  destruct (sys_poll (m_socket c) t w) as [[| |[]] w1]; simplify_eq.
  destruct (sys_recv (m_socket c) left w1) as [[[]|[|b k]] w2]; simplify_eq.
  apply IH in Hr. rewrite length_app in Hr. lia.
Qed.

(** [Recv] fills the buffer, so that one call is enough. *)
Lemma Recv_length n t s l s' :
  Recv n t s = (Value l, s') -> n <= Z.of_nat (length l).
Proof.
  destruct s as [c w]. intros HR. pose proof HR as HR'. unfold Recv in HR'.
  destruct (negb (IsOpen c) || m_is_listening c) eqn:E; [done|].
  apply orb_false_iff in E as [Ho Hl]. apply negb_false_iff in Ho.
  destruct (Z.eqb_spec n 0) as [->|Hn0]; [simplify_eq; simpl; lia|].
  destruct (Z.leb_spec n 0) as [Hle|Hpos]; [lia|].
  assert (recv_loop (Z.to_nat n) t n [] (c, w) = Some (Value l, s')) as Hloop
    by (rewrite Recv_loop_eq by (done || lia); by rewrite HR).
  apply recv_loop_length in Hloop. simpl in Hloop. lia.
Qed.

Lemma receive_buffer_0 t s : receive_buffer 0 t s = (Value [], s).
Proof. done. Qed.

Lemma receive_buffer_Recv n t s :
  0 < n -> receive_buffer n t s = Recv n t s.
Proof.
  intros Hn. unfold receive_buffer. destruct (Z.to_nat n) as [|k] eqn:Hk; [lia|]. simpl.
  destruct (Z.leb_spec n 0); [lia|].
  destruct (Recv n t s) as [[l|e] s'] eqn:E; [|done].
  apply Recv_length in E.
  destruct k; simpl; destruct (Z.leb_spec (n - Z.of_nat (length l)) 0); try lia; done.
Qed.

Lemma close_closed_conn (s : SocketConnection * W) e :
  (do* close_conn in fail_with (A := Message) e) s = (Error e, Close s).
Proof. done. Qed.

(** ** Successful calls keep the connection *)

Lemma receive_buffer_keeps n t : keeps (receive_buffer n t).
Proof.
  destruct (Z.leb_spec n 0) as [Hn|Hn].
  - intros c w l s'. unfold receive_buffer. destruct (Z.to_nat n) as [|k] eqn:Hk; [|lia].
    simpl. destruct (Z.leb_spec n 0); [|lia]. by intros [= <- <-].
  - intros c w l s'. rewrite receive_buffer_Recv by done. apply Recv_keeps.
Qed.

Lemma receive_socket_message_keeps t : keeps (receive_socket_message t).
Proof.
  apply keeps_bind; [apply receive_buffer_keeps|]. intros hdr.
  destruct (parse_header hdr) as [ty len].
  destruct (kMaxPayloadSize <? len); [apply keeps_bind_fail|].
  apply keeps_bind; [apply receive_buffer_keeps|]. intros pl.
  destruct (make_message ty) as [blank|]; [|apply keeps_bind_fail].
  destruct (msg_deserialize blank pl) as [st msg].
  destruct (negb (status_ok st)); [apply keeps_bind_fail|apply keeps_ret].
Qed.

Lemma send_socket_message_keeps msg : keeps (send_socket_message msg).
Proof.
  unfold send_socket_message. destruct (msg_serialize msg []) as [st pl].
  destruct (negb (status_ok st)); [apply keeps_fail|].
  destruct (kMaxPayloadSize <? size pl); [apply keeps_fail|].
  repeat (apply keeps_bind; [apply Send_keeps|intros _]). apply keeps_ret.
Qed.
End Framing.

(** ** Frames *)

(** What [SendSocketMessage] puts on the stream for a message. *)
Definition payload (message : Message) : Buffer := snd (msg_serialize message []).
Definition frame (message : Message) : Buffer :=
  header_bytes (MessageType_to_Z (GetMessageType message)) (size (payload message))
    ++ payload message.

(** A message that [SendSocketMessage] does not refuse. *)
Definition sendable (message : Message) : Prop :=
  msg_wf message /\ size (payload message) <= kMaxPayloadSize.

Lemma MessageType_range t : in_width 32 (MessageType_to_Z t).
Proof. by destruct t. Qed.

Lemma header_length type n : length (header_bytes type n) = 8%nat.
Proof. unfold header_bytes. by rewrite length_app, !length_le_split. Qed.

Lemma bytes_at_app_l (b1 b2 : Buffer) n :
  size b1 = n -> bytes_at (b1 ++ b2) 0 n = b1.
Proof. intros <-. exact (bytes_at_middle [] b1 b2). Qed.

Lemma word_back v : in_width 32 v -> ntohl (le_combine (le_split 4 (htonl v))) = v.
Proof.
  intros Hv. rewrite LittleEndianList.le_combine_split.
  change (2 ^ (Z.of_nat 4 * 8)) with (2 ^ 32).
  rewrite Z.mod_small by apply htonl_range. by apply rev_involutive_swap.
Qed.

Lemma parse_header_bytes type n :
  in_width 32 type -> in_width 32 n -> parse_header (header_bytes type n) = (type, n).
Proof.
  intros Ht Hn. unfold parse_header, header_bytes. rewrite (wrap_small 32 n Hn).
  assert (forall v, size (le_split 4 v) = 4) as Hs by (intros; unfold size; by rewrite length_le_split).
  rewrite (bytes_at_app_l (le_split 4 (htonl type))) by apply Hs.
  rewrite <- (Hs (htonl type)) at 1.
  rewrite <- (app_nil_r (le_split 4 (htonl n))).
  rewrite (bytes_at_middle_n (le_split 4 (htonl type)) (le_split 4 (htonl n)) [] 4) by apply Hs.
  by rewrite !word_back.
Qed.

Section Delivery.
Context {W : Type} `{FileApi W} `{StreamLaws W}.
Implicit Types (c : SocketConnection) (w : W).

Lemma receive_buffer_ok n t c w l s' :
  receive_buffer n t (c, w) = (Value l, s') -> 0 <= n ->
  fst s' = c /\ outgoing (m_socket c) (snd s') = outgoing (m_socket c) w /\
  Z.of_nat (length l) = n /\
  incoming (m_socket c) w = l ++ incoming (m_socket c) (snd s').
Proof.
  intros HR Hn. destruct (Z.eq_dec n 0) as [->|Hn0].
  - rewrite receive_buffer_0 in HR. by simplify_eq.
  - rewrite receive_buffer_Recv in HR by lia. by eapply Recv_ok.
Qed.

Lemma send_socket_message_ok msg c w r s' :
  send_socket_message msg (c, w) = (Value r, s') ->
  fst s' = c /\
  outgoing (m_socket c) (snd s') = outgoing (m_socket c) w ++ frame msg /\
  incoming (m_socket c) (snd s') = incoming (m_socket c) w.
Proof.
  unfold send_socket_message, frame, payload.
  pose proof (msg_serialize_ok msg) as Hok.
  destruct (msg_serialize msg []) as [st pl] eqn:E. cbn [fst snd] in *. subst st. simpl.
  destruct (kMaxPayloadSize <? size pl); [done|]. intros Hs.
  apply bind_value_inv in Hs as ([] & [c1 w1] & HA & Hs).
  apply bind_value_inv in Hs as ([] & [c2 w2] & HB & Hs).
  unfold ret in Hs. simplify_eq.
  apply Send_ok in HA as (Hc1 & Ho1 & Hi1). cbn [fst snd] in *. subst c1.
  apply Send_ok in HB as (Hc2 & Ho2 & Hi2). cbn [fst snd] in *. subst c2.
  rewrite Ho2, Ho1, <- app_assoc. by rewrite Hi2, Hi1.
Qed.

Lemma prefix_eq_length (a b x y : Buffer) :
  a ++ x = b ++ y -> length a = length b -> a = b /\ x = y.
Proof. intros E L. by apply app_inj_1. Qed.

(** Receiving from a stream that starts with a frame: if anything comes out,
    it is the framed message, and exactly the frame is consumed. *)
Lemma receive_frame msg rest t c w r s' :
  sendable msg -> incoming (m_socket c) w = frame msg ++ rest ->
  receive_socket_message t (c, w) = (Value r, s') ->
  r = msg /\ fst s' = c /\ incoming (m_socket c) (snd s') = rest /\
  outgoing (m_socket c) (snd s') = outgoing (m_socket c) w.
Proof.
  intros [Hwf Hmax] Hin. unfold receive_socket_message. intros Hr.
  apply bind_value_inv in Hr as (hdr & [c1 w1] & HA & Hr).
  apply receive_buffer_ok in HA as (Hc1 & Ho1 & Hlen1 & Hi1); [|done]. cbn [fst snd] in *. subst c1.
  rewrite Hin in Hi1. unfold frame in Hi1. rewrite <- app_assoc in Hi1.
  apply prefix_eq_length in Hi1 as [Hhdr Hi1]; [|rewrite header_length; unfold kHeaderSize in Hlen1; lia].
  subst hdr. pose proof (size_nonneg (payload msg)) as Hnn.
  assert (in_width 32 (size (payload msg))) as Hsz
    by (unfold in_width, kMaxPayloadSize in *; lia).
  rewrite parse_header_bytes in Hr by (assumption || apply MessageType_range).
  destruct (Z.ltb_spec kMaxPayloadSize (size (payload msg))) as [|_]; [lia|].
  apply bind_value_inv in Hr as (pl & [c2 w2] & HB & Hr).
  apply receive_buffer_ok in HB as (Hc2 & Ho2 & Hlen2 & Hi2); [|done]. cbn [fst snd] in *. subst c2.
  rewrite <- Hi1 in Hi2.
  apply prefix_eq_length in Hi2 as [Hpl Hi2]; [|unfold size in Hlen2; lia]. subst pl.
  destruct (make_message_of_type (GetMessageType msg)) as (blank & Hb & Ht).
  rewrite Hb in Hr. unfold payload in Hr.
  rewrite msg_deserialize_serialize in Hr by done. simpl in Hr.
  unfold ret in Hr. simplify_eq. simpl. by rewrite Ho2, Ho1.
Qed.
End Delivery.

Section DeliveryLive.
Context {W : Type} `{FileApi W} `{LiveStream W}.
Implicit Types (c : SocketConnection) (w : W).

Lemma receive_buffer_live n t c w :
  IsOpen c = true -> m_is_listening c = false -> up (m_socket c) w -> 0 <= n ->
  n <= Z.of_nat (length (incoming (m_socket c) w)) ->
  exists l w', receive_buffer n t (c, w) = (Value l, (c, w')) /\ up (m_socket c) w'.
Proof.
  intros Ho Hl Hup Hn Hin. destruct (Z.eq_dec n 0) as [->|Hn0].
  - rewrite receive_buffer_0. eauto.
  - rewrite receive_buffer_Recv by lia. by apply Recv_live.
Qed.

Lemma send_live_frame msg c w :
  sendable msg -> IsOpen c = true -> m_is_listening c = false -> up (m_socket c) w ->
  exists w', send_socket_message msg (c, w) = (Value tt, (c, w')) /\ up (m_socket c) w'.
Proof.
  intros [Hwf Hmax] Ho Hl Hup. unfold send_socket_message, payload in *.
  pose proof (msg_serialize_ok msg) as Hok.
  destruct (msg_serialize msg []) as [st pl] eqn:E. cbn [fst snd] in *. subst st. simpl.
  destruct (Z.ltb_spec kMaxPayloadSize (size pl)); [lia|].
  destruct (Send_live (header_bytes (MessageType_to_Z (GetMessageType msg)) (size pl)) c w)
    as (w1 & HA & Hup1); [done..|].
  destruct (Send_live pl c w1) as (w2 & HB & Hup2); [done..|].
  exists w2. split; [|done]. rewrite (bind_value _ _ _ _ _ HA), (bind_value _ _ _ _ _ HB). done.
Qed.

Lemma receive_live_frame msg rest t c w :
  sendable msg -> incoming (m_socket c) w = frame msg ++ rest ->
  IsOpen c = true -> m_is_listening c = false -> up (m_socket c) w ->
  exists w', receive_socket_message t (c, w) = (Value msg, (c, w')) /\
    up (m_socket c) w' /\ incoming (m_socket c) w' = rest /\
    outgoing (m_socket c) w' = outgoing (m_socket c) w.
Proof.
  intros Hs Hin Ho Hl Hup. pose proof Hs as [Hwf Hmax].
  assert (exists r w', receive_socket_message t (c, w) = (Value r, (c, w')) /\
            up (m_socket c) w') as (r & w' & Hr & Hup').
  { unfold receive_socket_message.
    destruct (receive_buffer_live kHeaderSize t c w) as (hdr & w1 & HA & Hup1); try done.
    { rewrite Hin. unfold frame. rewrite !length_app, header_length. unfold kHeaderSize. lia. }
    rewrite (bind_value _ _ _ _ _ HA).
    apply receive_buffer_ok in HA as (_ & _ & Hlen1 & Hi1); [|done]. cbn [fst snd] in Hi1.
    rewrite Hin in Hi1. unfold frame in Hi1. rewrite <- app_assoc in Hi1.
    apply prefix_eq_length in Hi1 as [Hhdr Hi1]; [|rewrite header_length; unfold kHeaderSize in Hlen1; lia].
    subst hdr. pose proof (size_nonneg (payload msg)) as Hnn.
    assert (in_width 32 (size (payload msg))) as Hsz
      by (unfold in_width, kMaxPayloadSize in *; lia).
    rewrite parse_header_bytes by (assumption || apply MessageType_range).
    destruct (Z.ltb_spec kMaxPayloadSize (size (payload msg))) as [|_]; [lia|].
    destruct (receive_buffer_live (size (payload msg)) t c w1) as (pl & w2 & HB & Hup2); try done.
    { rewrite <- Hi1, length_app. unfold size. lia. }
    rewrite (bind_value _ _ _ _ _ HB).
    apply receive_buffer_ok in HB as (_ & _ & Hlen2 & Hi2); [|done]. cbn [fst snd] in Hi2.
    rewrite <- Hi1 in Hi2.
    apply prefix_eq_length in Hi2 as [Hpl _]; [|unfold size in Hlen2; lia]. subst pl.
    destruct (make_message_of_type (GetMessageType msg)) as (blank & -> & Ht).
    unfold payload. rewrite msg_deserialize_serialize by done. simpl. eauto. }
  destruct (receive_frame _ _ _ _ _ _ _ Hs Hin Hr) as (-> & _ & Hi & Hout).
  eauto.
Qed.
End DeliveryLive.

(** ** Sequences of messages *)

Section Sequences.
Context {W : Type} `{SocketApi W} `{FileApi W}.

Fixpoint send_all (msgs : list Message) : StatusM (option SocketConnection * W) unit :=
  match msgs with
  | [] => ret tt
  | msg :: msgs => do* SendSocketMessage msg in send_all msgs
  end.

Fixpoint receive_all (n : nat) (timeout_ms : Z)
  : StatusM (option SocketConnection * W) (list Message) :=
  match n with
  | O => ret []
  | S n =>
      let* msg := ReceiveSocketMessage timeout_ms in
      let* msgs := receive_all n timeout_ms in
      ret (msg :: msgs)
  end.
End Sequences.

Definition stream_of (msgs : list Message) : Buffer := concat (map frame msgs).

Section SequenceDelivery.
Context {W : Type} `{FileApi W} `{LiveStream W}.

Lemma send_all_live msgs c (w : W) :
  Forall sendable msgs -> IsOpen c = true -> m_is_listening c = false -> up (m_socket c) w ->
  exists w', send_all msgs (Some c, w) = (Value tt, (Some c, w')) /\
    outgoing (m_socket c) w' = outgoing (m_socket c) w ++ stream_of msgs.
Proof.
  intros Hs Ho Hl. revert w. induction Hs as [|msg msgs Hm Hs IH]; intros w Hup.
  - exists w. split; [done|]. unfold stream_of. simpl. by rewrite app_nil_r.
  - destruct (send_live_frame msg c w) as (w1 & HA & Hup1); [done..|].
    destruct (IH w1 Hup1) as (w2 & HB & Hout). exists w2.
    pose proof (send_socket_message_ok _ _ _ _ _ HA) as (_ & Ho1 & _). cbn [fst snd] in *.
    split.
    + cbn [send_all]. erewrite bind_value; [exact HB|].
      unfold SendSocketMessage, with_conn. by rewrite HA.
    + rewrite Hout, Ho1. unfold stream_of. simpl. by rewrite <- app_assoc.
Qed.

Lemma receive_all_live msgs rest t c (w : W) :
  Forall sendable msgs -> IsOpen c = true -> m_is_listening c = false -> up (m_socket c) w ->
  incoming (m_socket c) w = stream_of msgs ++ rest ->
  exists w', receive_all (length msgs) t (Some c, w) = (Value msgs, (Some c, w')) /\
    incoming (m_socket c) w' = rest.
Proof.
  intros Hs Ho Hl. revert w. induction Hs as [|msg msgs Hm Hs IH]; intros w Hup Hin.
  - exists w. by split.
  - unfold stream_of in Hin. simpl in Hin. rewrite <- app_assoc in Hin.
    destruct (receive_live_frame msg _ t c w Hm Hin) as (w1 & HA & Hup1 & Hi1 & _); [done..|].
    destruct (IH w1 Hup1 Hi1) as (w2 & HB & Hi2). exists w2. split; [|done].
    cbn [length receive_all]. erewrite bind_value;
      [|unfold ReceiveSocketMessage, with_conn; by rewrite HA].
    by rewrite (bind_value _ _ _ _ _ HB).
Qed.
End SequenceDelivery.

(** ** Protocol violations *)

Section Violations.
Context {W : Type} `{SocketApi W}.
Implicit Types (s : SocketConnection * W).

Lemma recv_loop_code fuel t left got s e s' :
  recv_loop fuel t left got s = Some (Error e, s') -> code e <> kInvalidArgument.
Proof.
  revert left got s. induction fuel as [|fuel IH]; intros left got [c w] Hr; simpl in Hr;
    destruct (Z.leb_spec left 0); simplify_eq.
  destruct (sys_poll (m_socket c) t w) as [[| |[]] w1]; simplify_eq; try done.
  destruct (sys_recv (m_socket c) left w1) as [[[]|[|b k]] w2]; simplify_eq; try done.
  by eapply IH.
Qed.

Lemma Recv_code n t s e s' : Recv n t s = (Error e, s') -> code e <> kInvalidArgument.
Proof.
  destruct s as [c w]. unfold Recv.
  destruct (negb (IsOpen c) || m_is_listening c); [by intros [= <- <-]|].
  destruct (n =? 0); [done|]. unfold run_fueled.
  destruct (recv_loop (Z.to_nat n) t n [] (c, w)) as [[r s1]|] eqn:E.
  - intros [= -> ->]. by eapply recv_loop_code.
  - by intros [= <- <-].
Qed.

Lemma receive_buffer_code n t s e s' :
  receive_buffer n t s = (Error e, s') -> code e <> kInvalidArgument.
Proof.
  destruct (Z.leb_spec n 0) as [Hn|Hn].
  - unfold receive_buffer. destruct (Z.to_nat n) as [|k] eqn:Hk; [|lia].
    simpl. destruct (Z.leb_spec n 0); [done|lia].
  - rewrite receive_buffer_Recv by done. apply Recv_code.
Qed.

(** The error of a payload is always [kInvalidArgument]. *)
Lemma violation_closed t s e s' :
  receive_socket_message t s = (Error e, s') -> code e = kInvalidArgument ->
  IsOpen (fst s') = false.
Proof.
  unfold receive_socket_message, bind at 1. intros Hr He.
  destruct (receive_buffer kHeaderSize t s) as [[hdr|e1] s1] eqn:E1; simplify_eq;
    [|by apply receive_buffer_code in E1].
  destruct (parse_header hdr) as [ty len].
  destruct (kMaxPayloadSize <? len).
  { rewrite close_closed_conn in Hr. injection Hr as <- <-. apply Close_closed. }
  unfold bind at 1 in Hr.
  destruct (receive_buffer len t s1) as [[pl|e2] s2] eqn:E2; simplify_eq;
    [|by apply receive_buffer_code in E2].
  destruct (make_message ty) as [blank|].
  - destruct (msg_deserialize blank pl) as [st msg]. destruct (status_ok st); simpl in Hr.
    + unfold ret in Hr. done.
    + rewrite close_closed_conn in Hr. injection Hr as <- <-. apply Close_closed.
  - rewrite close_closed_conn in Hr. injection Hr as <- <-. apply Close_closed.
Qed.
End Violations.

Section ViolationsLive.
Context {W : Type} `{FileApi W} `{LiveStream W}.
Implicit Types (c : SocketConnection) (w : W).

(** A header on the stream is read and understood. *)
Lemma receive_header_live type len rest t c w :
  in_width 32 type -> in_width 32 len ->
  incoming (m_socket c) w = header_bytes type len ++ rest ->
  IsOpen c = true -> m_is_listening c = false -> up (m_socket c) w ->
  exists w', receive_buffer kHeaderSize t (c, w) = (Value (header_bytes type len), (c, w')) /\
    up (m_socket c) w' /\ incoming (m_socket c) w' = rest.
Proof.
  intros Ht Hlen Hin Ho Hl Hup.
  destruct (receive_buffer_live kHeaderSize t c w) as (hdr & w1 & HA & Hup1); try done.
  { rewrite Hin, length_app, header_length. unfold kHeaderSize. lia. }
  pose proof HA as HA'.
  apply receive_buffer_ok in HA as (_ & _ & Hlen1 & Hi1); [|done]. cbn [fst snd] in *.
  rewrite Hin in Hi1. apply prefix_eq_length in Hi1 as [<- Hi1];
    [|rewrite header_length; unfold kHeaderSize in Hlen1; lia].
  eauto.
Qed.

Lemma oversized_refused type len rest t c w :
  in_width 32 type -> in_width 32 len -> kMaxPayloadSize < len ->
  incoming (m_socket c) w = header_bytes type len ++ rest ->
  IsOpen c = true -> m_is_listening c = false -> up (m_socket c) w ->
  exists e w', receive_socket_message t (c, w) = (Error e, Close (c, w')) /\
    code e = kInvalidArgument /\ incoming (m_socket c) w' = rest.
Proof.
  intros Ht Hlen Hbig Hin Ho Hl Hup.
  destruct (receive_header_live _ _ _ t c w Ht Hlen Hin Ho Hl Hup) as (w1 & HA & Hup1 & Hi1).
  unfold receive_socket_message. rewrite (bind_value _ _ _ _ _ HA), parse_header_bytes by done.
  destruct (Z.ltb_spec kMaxPayloadSize len); [|lia]. rewrite close_closed_conn. eauto 6.
Qed.

Lemma unknown_refused type (pl rest : Buffer) t c w :
  in_width 32 type -> ~ 1 <= type <= 20 -> size pl <= kMaxPayloadSize ->
  incoming (m_socket c) w = header_bytes type (size pl) ++ pl ++ rest ->
  IsOpen c = true -> m_is_listening c = false -> up (m_socket c) w ->
  exists e w', receive_socket_message t (c, w) = (Error e, Close (c, w')) /\
    code e = kInvalidArgument /\ incoming (m_socket c) w' = rest.
Proof.
  intros Ht Hunk Hmax Hin Ho Hl Hup. pose proof (size_nonneg pl) as Hnn.
  assert (in_width 32 (size pl)) as Hlen by (unfold in_width, kMaxPayloadSize in *; lia).
  destruct (receive_header_live _ _ _ t c w Ht Hlen Hin Ho Hl Hup) as (w1 & HA & Hup1 & Hi1).
  unfold receive_socket_message. rewrite (bind_value _ _ _ _ _ HA), parse_header_bytes by done.
  destruct (Z.ltb_spec kMaxPayloadSize (size pl)); [lia|].
  destruct (receive_buffer_live (size pl) t c w1) as (pl' & w2 & HB & Hup2); try done.
  { rewrite Hi1, length_app. unfold size. lia. }
  rewrite (bind_value _ _ _ _ _ HB), make_message_default, close_closed_conn by done.
  apply receive_buffer_ok in HB as (_ & _ & Hlen2 & Hi2); [|done]. cbn [fst snd] in *.
  rewrite Hi1 in Hi2. apply prefix_eq_length in Hi2 as [_ Hi2]; [|unfold size in Hlen2; lia].
  eauto 6.
Qed.
End ViolationsLive.

(** ** Properties *)

(** C1: a sequence of messages that [SendSocketMessage] accepts reaches the
    peer unchanged and in order. On a connection that is up every send
    succeeds and adds exactly the messages' frames to the stream, and a peer
    whose stream starts with those frames receives exactly those messages and
    consumes exactly their bytes, however the two kernels split the transfers
    into short reads and writes. *)
Theorem messages_delivered {W1 W2 : Type} `{FileApi W1} `{LiveStream W1}
    `{FileApi W2} `{LiveStream W2} (msgs : list Message) c1 (w1 : W1) c2 (w2 : W2) rest t :
  Forall sendable msgs ->
  IsOpen c1 = true -> m_is_listening c1 = false -> up (m_socket c1) w1 ->
  IsOpen c2 = true -> m_is_listening c2 = false -> up (m_socket c2) w2 ->
  (exists w1', send_all msgs (Some c1, w1) = (Value tt, (Some c1, w1')) /\
     outgoing (m_socket c1) w1' = outgoing (m_socket c1) w1 ++ stream_of msgs) /\
  (incoming (m_socket c2) w2 = stream_of msgs ++ rest ->
   exists w2', receive_all (length msgs) t (Some c2, w2) = (Value msgs, (Some c2, w2')) /\
     incoming (m_socket c2) w2' = rest).
Proof.
  intros Hs Ho1 Hl1 Hup1 Ho2 Hl2 Hup2. split.
  - by apply send_all_live.
  - intros Hin. by apply receive_all_live.
Qed.

Definition sample_messages : list Message :=
  [HandshakeRequest (mkHandshake 1 0); PingMessage mkEmpty;
   DownloadFileRequest (mkString "/sdcard/trace.rd")].

Lemma messages_delivered_witness :
  exists w', receive_all 3 kNoTimeout (Some pipe_conn, pipe_with (stream_of sample_messages) 2)
    = (Value sample_messages, (Some pipe_conn, w')) /\ rx w' = [].
Proof.
  assert (Forall sendable sample_messages) as Hs.
  { repeat constructor; vm_compute; try done; intros E; discriminate E. }
  assert (forall p : Pipe, up (m_socket pipe_conn) p) as Hup by done.
  destruct (messages_delivered (W1 := Pipe) (W2 := Pipe) sample_messages pipe_conn (pipe_with [] 0) pipe_conn
              (pipe_with (stream_of sample_messages) 2) [] kNoTimeout Hs
              eq_refl eq_refl (Hup _) eq_refl eq_refl (Hup _)) as [_ Hr].
  destruct (Hr eq_refl) as (w' & E & Hi). exists w'. split; [exact E|exact Hi].
Defined.

(** C32: a peer that breaks the protocol is cut off. Whatever the kernel does,
    when [ReceiveSocketMessage] reports [kInvalidArgument] on a connection the
    connection is closed; and on a live stream a header that announces more
    than [kMaxPayloadSize] is refused with nothing read behind it, and a frame
    of an unknown type is refused. *)
Theorem violations_close {W : Type} `{FileApi W} `{LiveStream W} (t : Z) c (w : W) :
  (forall e c' w', ReceiveSocketMessage t (Some c, w) = (Error e, (Some c', w')) ->
     code e = kInvalidArgument -> IsOpen c' = false) /\
  (IsOpen c = true -> m_is_listening c = false -> up (m_socket c) w ->
   forall type pl rest, in_width 32 type ->
   (forall len, in_width 32 len -> kMaxPayloadSize < len ->
      incoming (m_socket c) w = header_bytes type len ++ rest ->
      exists e w', receive_socket_message t (c, w) = (Error e, Close (c, w')) /\
        code e = kInvalidArgument /\ incoming (m_socket c) w' = rest) /\
   (~ 1 <= type <= 20 -> size pl <= kMaxPayloadSize ->
      incoming (m_socket c) w = header_bytes type (size pl) ++ pl ++ rest ->
      exists e w', receive_socket_message t (c, w) = (Error e, Close (c, w')) /\
        code e = kInvalidArgument /\ incoming (m_socket c) w' = rest)).
Proof.
  split.
  - intros e c' w' Hr He. unfold ReceiveSocketMessage, with_conn in Hr.
    destruct (receive_socket_message t (c, w)) as [r [c1 w1]] eqn:E. simplify_eq.
    exact (violation_closed _ _ _ _ E He).
  - intros Ho Hl Hup type pl rest Ht. split; [intros len|]; intros.
    + by apply (oversized_refused type len rest).
    + by apply (unknown_refused type pl rest).
Qed.

Lemma violations_close_witness :
  exists e w', receive_socket_message kNoTimeout
      (pipe_conn, pipe_with (header_bytes 3 (kMaxPayloadSize + 1) ++ [Byte.x07]) 0)
    = (Error e, Close (pipe_conn, w')) /\ code e = kInvalidArgument /\ rx w' = [Byte.x07].
Proof.
  assert (forall p : Pipe, up (m_socket pipe_conn) p) as Hup by done.
  refine (proj1 (proj2 (violations_close kNoTimeout pipe_conn
            (pipe_with (header_bytes 3 (kMaxPayloadSize + 1) ++ [Byte.x07]) 0))
            eq_refl eq_refl (Hup _) 3 [] [Byte.x07] _) (kMaxPayloadSize + 1) _ _ eq_refl);
    vm_compute; split; (done || intros E; discriminate E).
Defined.
