(* ===== verification/Handlers.v ===== *)
(** * Handlers: the server's replies to requests

    Models [src/network/message_utils.cc] (the reply to each request),
    [BaseMessageHandler] of [src/network/base_message_handler.cc] and
    [DefaultMessageHandler] of [src/network/unix_domain_server.cc], and the
    interface [IMessageHandler] of [src/network/message_handler.h] the server is
    written against. Log output is left out. *)

From S2P Require Import Prelude Status Wire Messages Socket Pipe Transfer Framing.

(** [IMessageHandler]: [St] is the state of the handler object. *)
Class IMessageHandler (W St : Type) := {
  OnConnect : St * W -> St * W;
  HandleMessage : option Message -> St * (option SocketConnection * W) ->
                  St * (option SocketConnection * W);
  OnDisconnect : St * W -> St * W
}.

Section MessageUtils.
Context {W : Type} `{SocketApi W} `{FileApi W}.

(** The client connection, possibly null, and the outside world. *)
Abbreviation ConnM A := (StatusM (option SocketConnection * W) A).

Definition SendPong : ConnM unit := SendSocketMessage (PongMessage mkEmpty).

Definition Handshake (request : HandshakeMessage) : ConnM unit :=
  let response := mkHandshake 0 0 in
  let response := set_m_major_version (m_major_version request) response in
  let response := set_m_minor_version (m_minor_version request) response in
  SendSocketMessage (HandshakeResponse response).

(** The answer filled in from [std::filesystem]. *)
Definition fill_DownloadFileResponse (file_path : string) (w : W) : DownloadFileResponse * W :=
  let response := mkDownloadFileResponse false "" "" 0 in
  match fs_is_regular_file file_path w with
  | (true, _, w) =>
      match fs_file_size file_path w with
      | (file_size, None, w) =>
          let response := set_dl_found true response in
          let response := set_dl_file_path file_path response in
          (set_dl_file_size file_size response, w)
      | (_, Some ec, w) =>
          (set_dl_error_reason ec (set_dl_found false response), w)
      end
  | (false, ec, w) =>
      (set_dl_error_reason
         (default "Path does not exist or is not a regular file" ec)
         (set_dl_found false response), w)
  end.

Definition DownloadFile (request : StringMessage) : ConnM unit := fun '(client_conn, w) =>
  let file_path := m_str request in
  let '(response, w) := fill_DownloadFileResponse file_path w in
  (do* with_context "DownloadFile" (SendSocketMessage (MsgDownloadFileResponse response)) in
   if negb (dl_found response) then fail_with (NotFoundError (dl_error_reason response))
   else with_conn (SendFile file_path)) (client_conn, w).

Definition fill_FileSizeResponse (file_path : string) (w : W) : FileSizeResponse * W :=
  let response := mkFileSizeResponse false "" 0 in
  match fs_is_regular_file file_path w with
  | (true, _, w) =>
      match fs_file_size file_path w with
      | (file_size, None, w) =>
          (set_fs_file_size file_size (set_fs_found true response), w)
      | (_, Some ec, w) =>
          (set_fs_error_reason ec (set_fs_found false response), w)
      end
  | (false, ec, w) =>
      (set_fs_error_reason
         (default "Path does not exist or is not a regular file" ec)
         (set_fs_found false response), w)
  end.

Definition GetFileSize (request : StringMessage) : ConnM unit := fun '(client_conn, w) =>
  let '(response, w) := fill_FileSizeResponse (m_str request) w in
  SendSocketMessage (MsgFileSizeResponse response) (client_conn, w).

Definition fill_RemoveFileResponse (file_path : string) (w : W) : RemoveFileResponse * W :=
  let response := mkRemoveFileResponse "" false in
  match fs_remove file_path w with
  | (true, _, w) => (set_rm_success true response, w)
  | (false, ec, w) =>
      (set_rm_error_reason (default "Unknown error" ec) (set_rm_success false response), w)
  end.

Definition RemoveFile (request : StringMessage) : ConnM unit := fun '(client_conn, w) =>
  let '(response, w) := fill_RemoveFileResponse (m_str request) w in
  SendSocketMessage (MsgRemoveFileResponse response) (client_conn, w).

(** A call whose error is only logged. *)
Definition logged (m : ConnM unit) (s : option SocketConnection * W)
  : option SocketConnection * W := snd (m s).

Definition BaseMessageHandler_HandleMessage (message : option Message)
    (s : option SocketConnection * W) : option SocketConnection * W :=
  match message, s with
  | None, _ => s
  | _, (None, _) => s
  | Some message, _ =>
      match message with
      | PingMessage _ => logged SendPong s
      | HandshakeRequest request => logged (Handshake request) s
      | DownloadFileRequest request => logged (DownloadFile request) s
      | FileSizeRequest request => logged (GetFileSize request) s
      | RemoveFileRequest request => logged (RemoveFile request) s
      | _ => s
      end
  end.

Definition DefaultMessageHandler_HandleMessage (message : option Message)
    (s : option SocketConnection * W) : option SocketConnection * W :=
  match message, s with
  | None, _ => s
  | _, (None, _) => s
  | Some message, _ =>
      match message with
      | HandshakeRequest request =>
          let response := mkHandshake (m_major_version request) (m_minor_version request) in
          logged (SendSocketMessage (HandshakeResponse response)) s
      | PingMessage _ => logged (SendSocketMessage (PongMessage mkEmpty)) s
      | _ => s
      end
  end.
End MessageUtils.

(** [BaseMessageHandler] and [DefaultMessageHandler] as handlers: neither keeps
    state, and their connect and disconnect callbacks only log. *)
Inductive BaseMessageHandler := mkBaseMessageHandler.
Inductive DefaultMessageHandler := mkDefaultMessageHandler.

#[export] Instance BaseMessageHandler_handler {W} `{SocketApi W} `{FileApi W}
  : IMessageHandler W BaseMessageHandler := {
  OnConnect := fun s => s;
  HandleMessage := fun message '(h, s) => (h, BaseMessageHandler_HandleMessage message s);
  OnDisconnect := fun s => s
}.

#[export] Instance DefaultMessageHandler_handler {W} `{SocketApi W} `{FileApi W}
  : IMessageHandler W DefaultMessageHandler := {
  OnConnect := fun s => s;
  HandleMessage := fun message '(h, s) => (h, DefaultMessageHandler_HandleMessage message s);
  OnDisconnect := fun s => s
}.

(** ** What a handler puts on the stream *)

Section Replies.
Context {W : Type} `{FileStoreLaws W}.
Implicit Types (c : SocketConnection) (w : W).

Lemma SendSocketMessage_step msg c w :
  sendable msg -> IsOpen c = true -> m_is_listening c = false -> up (m_socket c) w ->
  exists w', SendSocketMessage msg (Some c, w) = (Value tt, (Some c, w')) /\
    up (m_socket c) w' /\
    outgoing (m_socket c) w' = outgoing (m_socket c) w ++ frame msg /\
    incoming (m_socket c) w' = incoming (m_socket c) w /\ same_files w w'.
Proof.
  intros [Hwf Hmax] Ho Hl Hup. unfold SendSocketMessage, with_conn, send_socket_message, frame, payload in *.
  pose proof (msg_serialize_ok msg) as Hok.
  destruct (msg_serialize msg []) as [st pl]. cbn [fst snd] in *. subst st. simpl.
  destruct (Z.ltb_spec kMaxPayloadSize (size pl)); [lia|].
  destruct (Send_step (header_bytes (MessageType_to_Z (GetMessageType msg)) (size pl)) c w)
    as (w1 & HA & Hup1 & Ho1 & Hi1 & Hf1); [done..|].
  destruct (Send_step pl c w1) as (w2 & HB & Hup2 & Ho2 & Hi2 & Hf2); [done..|].
  exists w2. rewrite (bind_value _ _ _ _ _ HA), (bind_value _ _ _ _ _ HB).
  rewrite Ho2, Ho1, Hi2, Hi1, <- app_assoc. split; [done|]. repeat split; try done.
  all: (etrans; [apply Hf1|apply Hf2]) || (etrans; [apply Hf2|apply Hf1]).
Qed.

(** The reply to a request, other than the file of a download. *)
Definition reply (message : Message) (w : W) : option (Message * W) :=
  match message with
  | PingMessage _ => Some (PongMessage mkEmpty, w)
  | HandshakeRequest request => Some (HandshakeResponse request, w)
  | DownloadFileRequest request =>
      let '(r, w) := fill_DownloadFileResponse (m_str request) w in
      Some (MsgDownloadFileResponse r, w)
  | FileSizeRequest request =>
      let '(r, w) := fill_FileSizeResponse (m_str request) w in Some (MsgFileSizeResponse r, w)
  | RemoveFileRequest request =>
      let '(r, w) := fill_RemoveFileResponse (m_str request) w in
      Some (MsgRemoveFileResponse r, w)
  | _ => None
  end.

(** Asking the file system leaves the connections alone. *)
Lemma reply_net message w r w' : reply message w = Some (r, w') -> same_net w w'.
Proof.
  assert (forall path, same_net w (snd (fs_is_regular_file path w))) as Hreg
    by (intros; apply stat_regular).
  assert (forall path w1, same_net w1 (snd (fs_file_size path w1))) as Hsize
    by (intros; apply stat_size).
  destruct message as [| | | | | |[path]| |[path]| |[path]| | | | | | | | |]; simpl; try done.
  all: try by intros [= <- <-].
  - unfold fill_DownloadFileResponse. specialize (Hreg path).
    destruct (fs_is_regular_file path w) as [[[] ec] w1]; [|by intros [= <- <-]].
    specialize (Hsize path w1). simpl in Hreg.
    destruct (fs_file_size path w1) as [[n [e|]] w2]; intros [= <- <-]; by etrans.
  - unfold fill_FileSizeResponse. specialize (Hreg path).
    destruct (fs_is_regular_file path w) as [[[] ec] w1]; [|by intros [= <- <-]].
    specialize (Hsize path w1). simpl in Hreg.
    destruct (fs_file_size path w1) as [[n [e|]] w2]; intros [= <- <-]; by etrans.
  - unfold fill_RemoveFileResponse. pose proof (remove_net path w) as Hrm.
    by destruct (fs_remove path w) as [[[] ec] w1]; intros [= <- <-].
Qed.

(** Files a download can or cannot read. *)
Definition opens (path : string) (w : W) : Prop :=
  exists fd w', ifs_open path w = (Some fd, w').

(** The path names a regular file of contents [data]. *)
Definition is_file (path : string) (data : list byte) (w : W) : Prop :=
  content path w = Some data /\
  exists ec w1 w2, fs_is_regular_file path w = (true, ec, w1) /\
                   fs_file_size path w1 = (Z.of_nat (length data), None, w2).

Definition download_offer (path : string) (data : list byte) : Message :=
  MsgDownloadFileResponse (mkDownloadFileResponse true "" path (Z.of_nat (length data))).

Lemma fill_DownloadFileResponse_file path data w :
  is_file path data w ->
  exists w', fill_DownloadFileResponse path w =
      (mkDownloadFileResponse true "" path (Z.of_nat (length data)), w') /\
    same_net w w' /\ content path w' = Some data.
Proof.
  intros (Hc & ec & w1 & w2 & Hreg & Hsz). unfold fill_DownloadFileResponse.
  rewrite Hreg, Hsz. exists w2. split; [done|].
  pose proof (stat_regular path w) as [Hn1 Hf1]. pose proof (stat_size path w1) as [Hn2 Hf2].
  rewrite Hreg in Hn1, Hf1. rewrite Hsz in Hn2, Hf2. simpl in *. split; [by etrans|].
  destruct Hf1 as [Hf1 _], Hf2 as [Hf2 _]. by rewrite Hf2, Hf1.
Qed.

(** The offer of a download is sent, and what the handler does next. *)
Lemma DownloadFile_offer path data c w :
  is_file path data w -> sendable (download_offer path data) ->
  IsOpen c = true -> m_is_listening c = false -> up (m_socket c) w ->
  exists w1, DownloadFile (mkString path) (Some c, w) = with_conn (SendFile path) (Some c, w1) /\
    up (m_socket c) w1 /\ content path w1 = Some data /\
    outgoing (m_socket c) w1 = outgoing (m_socket c) w ++ frame (download_offer path data) /\
    incoming (m_socket c) w1 = incoming (m_socket c) w.
Proof.
  intros Hfile Hs Ho Hl Hup.
  destruct (fill_DownloadFileResponse_file _ _ _ Hfile) as (w0 & Hfill & Hnet & Hc).
  destruct (Hnet (m_socket c)) as (Hi0 & Ho0 & Hu0).
  destruct (SendSocketMessage_step _ c w0 Hs Ho Hl (Hu0 Hup)) as (w1 & HS & Hup1 & Ho1 & Hi1 & Hf1 & _).
  exists w1. rewrite Hf1, Ho1, Hi1, Ho0, Hi0. split; [|done].
  unfold DownloadFile. cbn [m_str]. rewrite Hfill. unfold bind, with_context.
  unfold download_offer in HS. by rewrite HS.
Qed.
End Replies.

(** ** Properties *)

(** [BaseMessageHandler] answers each request it knows with exactly one
    frame. On a connection that is up, a ping, a handshake, a file-size or a
    remove request adds the frame of its reply to the stream and nothing else
    (the handshake with the client's own version), a message of any other class
    but a download request changes nothing, the connection stays usable, and a
    null message or connection is ignored. *)
Theorem base_handler_replies {W : Type} `{FileStoreLaws W} (message : Message) c (w : W) :
  IsOpen c = true -> m_is_listening c = false -> up (m_socket c) w ->
  (forall path, message <> DownloadFileRequest path) ->
  match reply message w with
  | Some (r, _) =>
      sendable r ->
      exists w', BaseMessageHandler_HandleMessage (Some message) (Some c, w) = (Some c, w') /\
        up (m_socket c) w' /\
        outgoing (m_socket c) w' = outgoing (m_socket c) w ++ frame r /\
        incoming (m_socket c) w' = incoming (m_socket c) w
  | None => BaseMessageHandler_HandleMessage (Some message) (Some c, w) = (Some c, w)
  end /\
  BaseMessageHandler_HandleMessage None (Some c, w) = (Some c, w) /\
  BaseMessageHandler_HandleMessage (Some message) (None, w) = (None, w).
Proof.
  intros Ho Hl Hup Hdl. split; [|split; [done|by destruct message]].
  pose proof (reply_net message w) as Hnet.
  assert (forall m (w1 : W), same_net w w1 -> sendable m ->
    exists w', logged (SendSocketMessage m) (Some c, w1) = (Some c, w') /\ up (m_socket c) w' /\
      outgoing (m_socket c) w' = outgoing (m_socket c) w ++ frame m /\
      incoming (m_socket c) w' = incoming (m_socket c) w) as Hsend.
  { intros m w1 Hn Hs. destruct (Hn (m_socket c)) as (Hi0 & Ho0 & Hu0).
    destruct (SendSocketMessage_step m c w1 Hs Ho Hl (Hu0 Hup)) as (w' & E & Hup' & Ho' & Hi' & _).
    exists w'. unfold logged. rewrite E, Ho', Hi', Ho0, Hi0. done. }
  destruct message; cbn [reply] in *; try done.
  - intros Hs. destruct m as [major minor]. exact (Hsend (HandshakeResponse (mkHandshake major minor)) w (reflexivity w) Hs).
  - intros Hs. by apply (Hsend (PongMessage mkEmpty) w).
  - by destruct (Hdl m).
  - cbn [BaseMessageHandler_HandleMessage]. unfold GetFileSize, logged.
    destruct (fill_FileSizeResponse (m_str m) w) as [r w1]. intros Hs.
    apply (Hsend (MsgFileSizeResponse r) w1); [by eapply Hnet|done].
  - cbn [BaseMessageHandler_HandleMessage]. unfold RemoveFile, logged.
    destruct (fill_RemoveFileResponse (m_str m) w) as [r w1]. intros Hs.
    apply (Hsend (MsgRemoveFileResponse r) w1); [by eapply Hnet|done].
Qed.

Lemma base_handler_replies_witness :
  exists w', BaseMessageHandler_HandleMessage (Some (FileSizeRequest (mkString "trace.rd")))
      (Some pipe_conn, file_pipe) = (Some pipe_conn, w') /\
    tx w' = frame (MsgFileSizeResponse (mkFileSizeResponse true "" 14)).
Proof.
  assert (forall p : Pipe, up (m_socket pipe_conn) p) as Hup by done.
  destruct (base_handler_replies (FileSizeRequest (mkString "trace.rd")) pipe_conn file_pipe
    eq_refl eq_refl (Hup _) ltac:(done)) as [Hr _].
  assert (exists p, reply (FileSizeRequest (mkString "trace.rd")) file_pipe =
    Some (MsgFileSizeResponse (mkFileSizeResponse true "" 14), p)) as [p E]
    by (eexists; vm_compute; reflexivity).
  rewrite E in Hr. destruct Hr as (w' & HB & _ & Hout & _).
  { split; [by vm_compute|]. intros E'. by vm_compute in E'. }
  exists w'. split; [exact HB|exact Hout].
Defined.

(** What a download request gets. If the path names a regular file the
    handler first sends the offer with the file's path and size; if the file
    then opens, its bytes follow and nothing else. If it does not open (the
    server may stat but not read it) the handler stops behind the offer: the
    peer has been promised bytes that never come, on a connection that stays
    up. *)
Theorem download_served {W : Type} `{FileStoreLaws W} path data c (w : W) :
  is_file path data w -> sendable (download_offer path data) ->
  IsOpen c = true -> m_is_listening c = false -> up (m_socket c) w ->
  let handled := BaseMessageHandler_HandleMessage (Some (DownloadFileRequest (mkString path)))
                   (Some c, w) in
  let offer := frame (download_offer path data) in
  ((forall w', content path w' = Some data -> opens path w') ->
   exists w', handled = (Some c, w') /\ up (m_socket c) w' /\
     outgoing (m_socket c) w' = outgoing (m_socket c) w ++ offer ++ data) /\
  ((forall w', fst (ifs_open path w') = None /\ same_net w' (snd (ifs_open path w'))) ->
   exists w', handled = (Some c, w') /\ up (m_socket c) w' /\
     outgoing (m_socket c) w' = outgoing (m_socket c) w ++ offer).
Proof.
  intros Hfile Hs Ho Hl Hup handled offer.
  destruct (DownloadFile_offer _ _ _ _ Hfile Hs Ho Hl Hup) as (w1 & HD & Hup1 & Hc & Hout & _).
  subst handled offer. cbn [BaseMessageHandler_HandleMessage]. unfold logged. rewrite HD.
  unfold with_conn. split.
  - intros Hopen. destruct (Hopen w1 Hc) as (fd & w2 & E).
    destruct (SendFile_live _ _ _ _ _ Ho Hl Hup1 E) as (data' & w3 & Hc' & HS & Hup3 & Hout3 & _).
    rewrite Hc in Hc'. injection Hc' as <-.
    exists w3. rewrite HS, Hout3, Hout, <- app_assoc. done.
  - intros Hno. destruct (Hno w1) as [Hn Hnet]. destruct (Hnet (m_socket c)) as (_ & Ho2 & Hu2).
    unfold SendFile. destruct (ifs_open path w1) as [[fd|] w2]; [done|]. cbn [snd] in *.
    exists w2. rewrite Ho2, Hout. auto.
Qed.

Lemma download_served_witness :
  exists w', BaseMessageHandler_HandleMessage (Some (DownloadFileRequest (mkString "trace.rd")))
      (Some pipe_conn, file_pipe) = (Some pipe_conn, w') /\
    tx w' = frame (download_offer "trace.rd" (String.list_byte_of_string "Adreno capture"))
            ++ String.list_byte_of_string "Adreno capture".
Proof.
  assert (forall p : Pipe, up (m_socket pipe_conn) p) as Hup by done.
  assert (sendable (download_offer "trace.rd" (String.list_byte_of_string "Adreno capture"))) as Hs
    by (split; [by vm_compute|intros E'; by vm_compute in E']).
  destruct (download_served "trace.rd" (String.list_byte_of_string "Adreno capture") pipe_conn file_pipe)
    as [Hok _]; [|exact Hs|reflexivity|reflexivity|exact (Hup _)|].
  - split; [by vm_compute|]. exists None, file_pipe, file_pipe. split; by vm_compute.
  - destruct Hok as (w' & HB & _ & Hout); [intros p Hp|].
    + exists 0, (set_reading (String.list_byte_of_string "Adreno capture") p).
      unfold ifs_open, Pipe_FileApi. unfold content, Pipe_FileStore in Hp. by rewrite Hp.
    + exists w'. split; [exact HB|exact Hout].
Defined.
