(* ===== verification/Client.v ===== *)
(** * Client: the host's connection to the server

    Models [TcpClient] of [src/network/tcp_client.{h,cc}]. The object holds the
    connection, the client status and the keep-alive thread; [running] is
    [m_keep_alive.running] and [joinable] says whether the thread object holds a
    thread that has not been joined.

    Requests and pings run under [m_connection_mutex], and [Connect] and
    [Disconnect] first join the keep-alive thread, so each is one step; the
    keep-alive thread's own step is one iteration of [KeepAliveLoop]. The wait
    of [StopKeepAlive] for the thread adds no behaviour: an iteration that is
    under way when it is called appears as a step before it. *)

From S2P Require Import Prelude Status Wire Messages FilterConfig Socket Pipe Transfer Framing Handlers.

Definition kPingTimeoutMs : Z := 5000.
Definition kHandshakeMajorVersion : Z := 1.
Definition kHandshakeMinorVersion : Z := 0.

Inductive ClientStatus := DISCONNECTED | CONNECTING | CONNECTED | CONNECTION_FAILED.

#[global] Instance ClientStatus_eq_dec : EqDecision ClientStatus.
Proof. solve_decision. Defined.

Record TcpClient := mkTcpClient {
  m_connection : option SocketConnection;
  m_status : ClientStatus;
  running : bool;
  joinable : bool
}.

Definition set_connection c (t : TcpClient) := mkTcpClient c (m_status t) (running t) (joinable t).
Definition set_status s (t : TcpClient) := mkTcpClient (m_connection t) s (running t) (joinable t).
Definition set_running b (t : TcpClient) := mkTcpClient (m_connection t) (m_status t) b (joinable t).
Definition set_joinable b (t : TcpClient) := mkTcpClient (m_connection t) (m_status t) (running t) b.

Definition new_TcpClient : TcpClient := mkTcpClient None DISCONNECTED false false.

Definition IsConnected (t : TcpClient) : bool :=
  bool_decide (m_status t = CONNECTED) &&
  match m_connection t with Some c => IsOpen c | None => false end.

Section TcpClient.
Context {W : Type} `{SocketApi W} `{FileApi W}.

Abbreviation ClientM A := (StatusM (TcpClient * W) A).

Definition SetClientStatus (st : ClientStatus) : TcpClient * W -> TcpClient * W :=
  fun '(t, w) => (set_status st t, w).

Definition SetStatusAndReturnError {A} (st : ClientStatus) (e : Status) : ClientM A :=
  fun s => (Error e, SetClientStatus st s).

(** [m_connection.reset()]: the destructor closes the socket. *)
Definition reset_connection : TcpClient * W -> TcpClient * W := fun '(t, w) =>
  match m_connection t with
  | Some c => (set_connection None t, snd (Close (c, w)))
  | None => (t, w)
  end.

(** A call that is given [m_connection.get()]. *)
Definition on_connection {A} (m : StatusM (option SocketConnection * W) A) : ClientM A :=
  fun '(t, w) =>
    let '(r, (c, w)) := m (m_connection t, w) in (r, (set_connection c t, w)).

(** An error of [m] marks the connection as failed. *)
Definition or_fail {A} (context : string) (m : ClientM A) : ClientM A := fun s =>
  match m s with
  | (Error e, s) => SetStatusAndReturnError CONNECTION_FAILED (StatusWithContext e context) s
  | ok => ok
  end.

Definition check_connected (message : string) : ClientM unit := fun '(t, w) =>
  if negb (IsConnected t) then (Error (FailedPreconditionError message), (t, w))
  else (Value tt, (t, w)).

Definition unexpected {A} (text : string) (expected : MessageType) (response : Message)
  : ClientM A :=
  fail_with (FailedPreconditionError
    (text +:+ "(Expected: " +:+ pretty (MessageType_to_Z expected) +:+ ", Got: "
     +:+ pretty (MessageType_to_Z (GetMessageType response)) +:+ ").")).

(** The start every request has in common: check the connection, send,
    receive. *)
Definition transact (who not_connected : string) (request : Message) (timeout_ms : Z)
    (recv_fail : string) : ClientM Message :=
  do* check_connected not_connected in
  do* or_fail (who +:+ ": SendSocketMessage fail") (on_connection (SendSocketMessage request)) in
  or_fail (who +:+ recv_fail) (on_connection (ReceiveSocketMessage timeout_ms)).

Definition StartPm4Capture : ClientM string :=
  let* response := transact "StartPm4Capture" "StartPm4Capture: Client is not connected."
                     (Pm4CaptureRequest mkEmpty) kNoTimeout ": ReceiveSocketMessage fail" in
  match response with
  | Pm4CaptureResponse pm4_response => ret (m_str pm4_response)
  | _ => unexpected "StartPm4Capture: Unexpected message type in Capture response "
           PM4_CAPTURE_RESPONSE response
  end.

Definition DownloadFileFromServer (remote_file_path local_save_path : string)
    (progress_callback : option (Z -> W -> W)) : ClientM unit :=
  let* response := transact "DownloadFileFromServer"
                     "DownloadFileFromServer: Client is not connected."
                     (DownloadFileRequest (mkString remote_file_path)) kNoTimeout
                     ": ReceiveSocketMessage fail" in
  match response with
  | MsgDownloadFileResponse download_response =>
      if negb (dl_found download_response) then
        fail_with (NotFoundError
          ("DownloadFileFromServer: Server could not provide file. Reason: "
           +:+ dl_error_reason download_response))
      else
        or_fail "DownloadFileFromServer: ReceiveFile fail"
          (on_connection (with_conn
             (ReceiveFile local_save_path (dl_file_size download_response) progress_callback)))
  | _ => unexpected "DownloadFileFromServer: Unexpected message type in Download response "
           DOWNLOAD_FILE_RESPONSE response
  end.

Definition GetCaptureFileSize (remote_file_path : string) : ClientM Z :=
  let* response := transact "GetCaptureFileSize" "GetCaptureFileSize: Client is not connected."
                     (FileSizeRequest (mkString remote_file_path)) kNoTimeout
                     ": ReceiveSocketMessage fail" in
  match response with
  | MsgFileSizeResponse file_size_response =>
      if negb (fs_found file_size_response) then
        fail_with (NotFoundError
          ("GetCaptureFileSize: Server could not find file. Reason: "
           +:+ fs_error_reason file_size_response))
      else ret (Messages.fs_file_size file_size_response)
  | _ => unexpected "GetCaptureFileSize: Unexpected message type in response "
           FILE_SIZE_RESPONSE response
  end.

Definition Client_RemoveFile (remote_file_path : string) : ClientM unit :=
  let* response := transact "RemoveFile" "RemoveFile: Client is not connected."
                     (RemoveFileRequest (mkString remote_file_path)) kNoTimeout
                     ": ReceiveSocketMessage fail" in
  match response with
  | MsgRemoveFileResponse remove_response =>
      if negb (rm_success remove_response) then
        fail_with (InternalError
          ("RemoveFile: Server failed to remove file. Reason: "
           +:+ rm_error_reason remove_response))
      else ret tt
  | _ => unexpected "RemoveFile: Unexpected message type in response "
           REMOVE_FILE_RESPONSE response
  end.

Definition SendDrawcallFilterConfig (config : DrawcallFilterConfig) : ClientM unit :=
  let* response := transact "SendDrawcallFilterConfig"
                     "SendDrawcallFilterConfig: Client is not connected."
                     (MsgDrawcallFilterConfigRequest (filter_request config)) kNoTimeout
                     ": ReceiveSocketMessage fail" in
  match response with
  | DrawcallFilterConfigResponse _ => ret tt
  | _ => unexpected "SendDrawcallFilterConfig: Unexpected message type in response "
           DRAWCALL_FILTER_CONFIG_RESPONSE response
  end.

Definition Client_GetLivePSOs : ClientM (list PSOInfo) :=
  let* response := transact "GetLivePSOs" "GetLivePSOs: Client not connected."
                     (LivePSOsRequest mkEmpty) kNoTimeout ": ReceiveSocketMessage fail" in
  match response with
  | MsgLivePSOsResponse m => ret (m_psos m)
  | _ => unexpected "GetLivePSOs: Unexpected message type in response "
           LIVE_PSOS_RESPONSE response
  end.

Definition Client_GetLiveRenderPasses : ClientM (list RenderPassInfo) :=
  let* response := transact "GetLiveRenderPasses" "GetLiveRenderPasses: Client not connected."
                     (LiveRenderPassesRequest mkEmpty) kNoTimeout
                     ": ReceiveSocketMessage fail" in
  match response with
  | MsgLiveRenderPassesResponse m => ret (m_rps m)
  | _ => unexpected "GetLiveRenderPasses: Unexpected message type in response "
           LIVE_RENDER_PASSES_RESPONSE response
  end.

Definition SendDisableTimestamp (disable : bool) : ClientM unit :=
  let* response := transact "SendDisableTimestamp"
                     "SendDisableTimestamp: Client is not connected."
                     (MsgDisableTimestampRequest (mkDisableTimestampRequest disable)) kNoTimeout
                     ": ReceiveSocketMessage fail" in
  match response with
  | DisableTimestampResponse _ => ret tt
  | _ => unexpected "SendDisableTimestamp: Unexpected message type in response "
           DISABLE_TIMESTAMP_RESPONSE response
  end.

Definition PingServer : ClientM unit :=
  let* response := transact "PingServer" "PingServer: Client is not connected."
                     (PingMessage mkEmpty) kPingTimeoutMs ": ReceiveSocketMessage fail" in
  match response with
  | PongMessage _ => ret tt
  | _ => unexpected "PingServer: Unexpected message type in Ping response "
           PONG_MESSAGE response
  end.

Definition PerformHandshake : ClientM unit :=
  let hs_request := mkHandshake kHandshakeMajorVersion kHandshakeMinorVersion in
  let* response := transact "PerformHandshake" "PerformHandshake: Client is not connected."
                     (HandshakeRequest hs_request) kNoTimeout ": ReceiveSocketMessage failed" in
  match response with
  | HandshakeResponse hs_response =>
      if negb (m_major_version hs_response =? m_major_version hs_request) ||
         negb (m_minor_version hs_response =? m_minor_version hs_request) then
        fail_with (FailedPreconditionError
          ("PerformHandshake: Handshake version mismatch. Server is v"
           +:+ pretty (m_major_version hs_response) +:+ "."
           +:+ pretty (m_minor_version hs_response) +:+ " Client requires v"
           +:+ pretty (m_major_version hs_request) +:+ "."
           +:+ pretty (m_minor_version hs_request)))
      else ret tt
  | _ => unexpected "PerformHandshake: Unexpected message type in Handshake response "
           HANDSHAKE_RESPONSE response
  end.

(** [StopKeepAlive]: stop the loop and join the thread. *)
Definition StopKeepAlive : TcpClient * W -> TcpClient * W := fun '(t, w) =>
  (set_joinable false (set_running false t), w).

Definition StartKeepAlive : ClientM unit := fun '(t, w) =>
  if running t then
    (Error (AlreadyExistsError "StartKeepAlive: Keep-alive is already running."), (t, w))
  else if negb (IsConnected t) then
    (Error (FailedPreconditionError "StartKeepAlive: Client is not connected."), (t, w))
  else (Value tt, (set_joinable true (set_running true t), w)).

(** One iteration of [KeepAliveLoop] after the wait timed out. *)
Definition KeepAlive_iteration : TcpClient * W -> TcpClient * W := fun '(t, w) =>
  if negb (running t) then (t, w)
  else if IsConnected t then
    match PingServer (t, w) with
    | (Error _, s) => let '(t, w) := SetClientStatus CONNECTION_FAILED s in (set_running false t, w)
    | (Value _, s) => s
    end
  else (set_running false t, w).

(** A failure of [Connect] drops the connection. *)
Definition fail_connect (e : Status) : ClientM unit := fun s =>
  SetStatusAndReturnError CONNECTION_FAILED e (reset_connection s).

Definition Client_Connect (host : string) (port : Z) : ClientM unit := fun s =>
  if bool_decide (m_status (fst s) = CONNECTED) || bool_decide (m_status (fst s) = CONNECTING) then
    (Error (AlreadyExistsError
      "Connect: Client is already connected or in the process of connecting."), s)
  else
    let s := reset_connection (StopKeepAlive s) in
    let s := SetClientStatus CONNECTING s in
    match Create kInvalidSocketValue with
    | Error e => SetStatusAndReturnError CONNECTION_FAILED (StatusWithContext e "Connect") s
    | Value connection =>
        let '(t, w) := s in
        match on_connection (with_conn (Connect host port)) (set_connection (Some connection) t, w) with
        | (Error e, s) => fail_connect (StatusWithContext e "Connect: Connect fail") s
        | (Value _, s) =>
            let s := SetClientStatus CONNECTED s in
            match PerformHandshake s with
            | (Error e, s) => fail_connect (StatusWithContext e "Connect: Handshake failed") s
            | (Value _, s) =>
                match StartKeepAlive s with
                | (Error e, s) =>
                    if bool_decide (code e = kAlreadyExists) then (Value tt, s)
                    else fail_connect (StatusWithContext e "Connect: KeepAlive fail") s
                | (Value _, s) => (Value tt, s)
                end
            end
        end
    end.

Definition Disconnect : TcpClient * W -> TcpClient * W := fun s =>
  SetClientStatus DISCONNECTED (reset_connection (StopKeepAlive s)).
End TcpClient.

(** ** What a request can do to the client *)

(** A request either leaves the client as it was, or fails and marks the
    connection as failed; the keep-alive flags are not its business. *)
Definition request_ok {W A} (m : StatusM (TcpClient * W) A) : Prop :=
  forall t w r t' w', m (t, w) = (r, (t', w')) ->
  t' = t \/ (is_value r = false /\ m_status t' = CONNECTION_FAILED /\
             running t' = running t /\ joinable t' = joinable t).

Section Requests.
Context {W : Type} `{SocketApi W} `{FileApi W}.
Implicit Types (t : TcpClient) (w : W).

Lemma request_ok_ret {A} (a : A) : request_ok (W := W) (ret a).
Proof. intros t w r t' w' [= <- <- <-]. by left. Qed.

Lemma request_ok_fail {A} e : request_ok (W := W) (A := A) (fail_with e).
Proof. intros t w r t' w' [= <- <- <-]. by left. Qed.

Lemma request_ok_bind {A B} (m : StatusM (TcpClient * W) A) (k : A -> StatusM (TcpClient * W) B) :
  request_ok m -> (forall a, request_ok (k a)) -> request_ok (bind m k).
Proof.
  intros Hm Hk t w r t' w' Hb. unfold bind in Hb.
  destruct (m (t, w)) as [[a|e] [t1 w1]] eqn:E.
  - destruct (Hm _ _ _ _ _ E) as [->|(Hf & _)]; [|done]. by eapply Hk.
  - destruct (Hm _ _ _ _ _ E) as [->|Hf]; simplify_eq; [by left|by right].
Qed.

Lemma request_ok_check text : request_ok (W := W) (check_connected text).
Proof.
  intros t w r t' w'. unfold check_connected. destruct (negb (IsConnected t)); intros [= <- <- <-];
    by left.
Qed.

Lemma request_ok_or_fail {A} text (m : StatusM (SocketConnection * W) A) :
  keeps m -> request_ok (or_fail text (on_connection (with_conn m))).
Proof.
  intros Hm t w r t' w'. unfold or_fail, on_connection, with_conn.
  destruct t as [[c|] st ru jo]; cbn [m_connection].
  - destruct (m (c, w)) as [[a|e] [c1 w1]] eqn:E; intros [= <- <- <-]; [|by right].
    apply Hm in E. simpl in E. subst c1. by left.
  - intros [= <- <- <-]. by right.
Qed.

Lemma transact_request who txt request timeout txt' :
  request_ok (W := W) (transact who txt request timeout txt').
Proof.
  apply request_ok_bind; [apply request_ok_check|intros _].
  apply request_ok_bind; [|intros _]; apply request_ok_or_fail.
  - apply send_socket_message_keeps.
  - apply receive_socket_message_keeps.
Qed.

Lemma transact_connected who txt request timeout txt' t w a s' :
  transact (W := W) who txt request timeout txt' (t, w) = (Value a, s') ->
  IsConnected t = true /\ fst s' = t.
Proof.
  intros Ht. split.
  - unfold transact in Ht. apply bind_value_inv in Ht as ([] & s1 & Hc & _).
    unfold check_connected in Hc. by destruct (IsConnected t).
  - destruct s' as [t' w']. by destruct (transact_request _ _ _ _ _ _ _ _ _ _ Ht) as [->|[? _]].
Qed.
End Requests.

Ltac request_tac :=
  intros; unfold unexpected;
  apply request_ok_bind; [apply transact_request|];
  intros []; try apply request_ok_fail; try apply request_ok_ret;
  match goal with |- request_ok (if ?b then _ else _) => destruct b end;
  try apply request_ok_fail; try apply request_ok_ret.

Section RequestList.
Context {W : Type} `{SocketApi W} `{FileApi W}.

(** Every public request, and the ping of the keep-alive thread. *)
Inductive is_request : (TcpClient * W -> TcpClient * W) -> Prop :=
  | req_pm4 : is_request (fun s => snd (StartPm4Capture s))
  | req_download remote local cb :
      is_request (fun s => snd (DownloadFileFromServer remote local cb s))
  | req_size path : is_request (fun s => snd (GetCaptureFileSize path s))
  | req_remove path : is_request (fun s => snd (Client_RemoveFile path s))
  | req_filter config : is_request (fun s => snd (SendDrawcallFilterConfig config s))
  | req_psos : is_request (fun s => snd (Client_GetLivePSOs s))
  | req_rps : is_request (fun s => snd (Client_GetLiveRenderPasses s))
  | req_timestamp b : is_request (fun s => snd (SendDisableTimestamp b s)).

Lemma PingServer_request : request_ok (W := W) PingServer.
Proof. request_tac. Qed.

Lemma PerformHandshake_request : request_ok (W := W) PerformHandshake.
Proof. request_tac. Qed.

Lemma DownloadFileFromServer_request remote local cb :
  request_ok (W := W) (DownloadFileFromServer remote local cb).
Proof. request_tac. apply request_ok_or_fail, ReceiveFile_keeps. Qed.

Lemma is_request_ok f t (w : W) : is_request f ->
  fst (f (t, w)) = t \/
  (m_status (fst (f (t, w))) = CONNECTION_FAILED /\
   running (fst (f (t, w))) = running t /\ joinable (fst (f (t, w))) = joinable t).
Proof.
  assert (forall A (m : StatusM (TcpClient * W) A), request_ok m ->
    fst (snd (m (t, w))) = t \/
    (m_status (fst (snd (m (t, w)))) = CONNECTION_FAILED /\
     running (fst (snd (m (t, w)))) = running t /\
     joinable (fst (snd (m (t, w)))) = joinable t)) as Hm.
  { intros A m Hm. destruct (m (t, w)) as [r [t' w']] eqn:E.
    destruct (Hm _ _ _ _ _ E) as [->|(_ & ?)]; auto. }
  intros []; apply Hm; (apply DownloadFileFromServer_request || request_tac).
Qed.
End RequestList.

(** ** The client as a transition system *)

Section Steps.
Context {W : Type} `{SocketApi W} `{FileApi W}.

(** What can happen to a client: a call of one of its methods, an iteration
    of the keep-alive thread while it runs, or something in the outside
    world. *)
Inductive client_step : TcpClient * W -> TcpClient * W -> Prop :=
  | step_connect host port s : client_step s (snd (Client_Connect host port s))
  | step_disconnect s : client_step s (Disconnect s)
  | step_request f s : is_request f -> client_step s (f s)
  | step_keep_alive s : running (fst s) = true -> client_step s (KeepAlive_iteration s)
  | step_world t w w' : client_step (t, w) (t, w').

Inductive client_reachable : TcpClient * W -> Prop :=
  | reach_new w : client_reachable (new_TcpClient, w)
  | reach_step s s' : client_reachable s -> client_step s s' -> client_reachable s'.
End Steps.

Record client_inv (t : TcpClient) : Prop := mkClientInv {
  inv_settled : m_status t <> CONNECTING;
  inv_connected : m_status t = CONNECTED -> IsConnected t = true /\ running t = true;
  inv_disconnected : m_status t = DISCONNECTED -> m_connection t = None /\ running t = false;
  inv_thread : running t = true -> joinable t = true
}.

Section Invariant.
Context {W : Type} `{SocketApi W} `{FileApi W}.
Implicit Types (t : TcpClient) (w : W).

Lemma failed_inv t :
  m_status t = CONNECTION_FAILED -> (running t = true -> joinable t = true) -> client_inv t.
Proof. intros Hs Hr. split; rewrite ?Hs; done. Qed.

Lemma reset_connection_fields s :
  m_connection (fst (reset_connection (W := W) s)) = None /\
  m_status (fst (reset_connection s)) = m_status (fst s) /\
  running (fst (reset_connection s)) = running (fst s) /\
  joinable (fst (reset_connection s)) = joinable (fst s).
Proof. by destruct s as [[[c|] st ru jo] w]. Qed.

Lemma fail_connect_fields e s r s' :
  fail_connect (W := W) e s = (r, s') ->
  r = Error e /\ m_status (fst s') = CONNECTION_FAILED /\ m_connection (fst s') = None /\
  running (fst s') = running (fst s).
Proof.
  unfold fail_connect, SetStatusAndReturnError. intros [= <- <-].
  destruct (reset_connection_fields s) as (Hc & _ & Hr & _).
  destruct (reset_connection s) as [t w]. simpl in *. by repeat split.
Qed.

(** [Connect] on a client that is not connected. *)
Lemma Connect_cases host port t w r t' w' :
  m_status t <> CONNECTED -> m_status t <> CONNECTING ->
  Client_Connect host port (t, w) = (r, (t', w')) ->
  (r = Value tt /\ m_status t' = CONNECTED /\ IsConnected t' = true /\
     running t' = true /\ joinable t' = true) \/
  (is_value r = false /\ m_status t' = CONNECTION_FAILED /\ m_connection t' = None /\
     running t' = false).
Proof.
  intros Hs1 Hs2. unfold Client_Connect. cbn [fst].
  rewrite !bool_decide_eq_false_2 by done. cbn [orb].
  destruct (reset_connection_fields (StopKeepAlive (t, w))) as (Hc0 & _ & Hr0 & _).
  destruct (reset_connection (StopKeepAlive (t, w))) as [t0 w0]. cbn [fst SetClientStatus] in *.
  change (running (fst (StopKeepAlive (t, w)))) with false in Hr0.
  destruct (Create kInvalidSocketValue) as [connection|e0].
  2: { intros [= <- <- <-]. right. by repeat split. }
  destruct (on_connection _ _) as [[u|e1] [t1 w1]] eqn:E1.
  all: assert (running t1 = false) as Hr1
    by (unfold on_connection in E1; destruct (with_conn _ _) as [r1 [c1 w1']];
        simplify_eq; simpl; by rewrite Hr0).
  2: { intros HF. apply fail_connect_fields in HF as (-> & ? & ? & Hr). right.
       cbn [fst] in *. by rewrite Hr, Hr1. }
  cbn [SetClientStatus].
  destruct (PerformHandshake (set_status CONNECTED t1, w1)) as [[u2|e2] [t2 w2]] eqn:E2.
  2: { intros HF. apply fail_connect_fields in HF as (-> & ? & ? & Hr). right.
       cbn [fst] in *. rewrite Hr. repeat split; try done.
       apply PerformHandshake_request in E2 as [->|(_ & _ & -> & _)]; exact Hr1. }
  pose proof E2 as E2'. unfold PerformHandshake in E2'.
  apply bind_value_inv in E2' as (resp & s1 & E2' & _).
  apply transact_connected in E2' as [Hconn _].
  apply PerformHandshake_request in E2 as [->|[? _]]; [|done].
  unfold StartKeepAlive. rewrite Hconn. cbn [running set_status]. rewrite Hr1.
  intros [= <- <- <-]. left. by repeat split.
Qed.

Lemma client_step_inv (s s' : TcpClient * W) :
  client_inv (fst s) -> client_step s s' -> client_inv (fst s').
Proof.
  intros Hinv. destruct 1 as [host port [t w]|[t w]|f [t w] Hf|[t w] Hr|t w w'].
  - destruct (decide (m_status t = CONNECTED)) as [Hc|Hc].
    { unfold Client_Connect. cbn [fst]. by rewrite bool_decide_eq_true_2. }
    destruct (Client_Connect host port (t, w)) as [r [t' w']] eqn:E.
    apply Connect_cases in E as [(-> & Hs & HC & Hr & Hj)|(_ & Hs & Hn & Hr)];
      [| |done|apply Hinv]; cbn [fst snd].
    + split; rewrite ?Hs; done.
    + apply failed_inv; [done|]. by rewrite Hr.
  - unfold Disconnect.
    destruct (reset_connection_fields (StopKeepAlive (t, w))) as (Hc0 & _ & Hr0 & _).
    destruct (reset_connection (StopKeepAlive (t, w))) as [t0 w0]. cbn [fst SetClientStatus] in *.
    split; cbn [m_status set_status running m_connection]; try done.
    intros Hr. cbn [running set_status] in Hr. by rewrite Hr0 in Hr.
  - cbn [fst] in Hinv. destruct (is_request_ok f t w Hf) as [->|(Hs & Hr & Hj)]; [done|].
    apply failed_inv; [done|]. rewrite Hr, Hj. apply Hinv.
  - cbn [fst] in *. unfold KeepAlive_iteration. rewrite Hr. cbn [negb].
    destruct (IsConnected t) eqn:Hc.
    + destruct (PingServer (t, w)) as [[u|e] [t1 w1]] eqn:E; cbn [fst].
      * apply PingServer_request in E as [->|[? _]]; done.
      * by apply failed_inv.
    + destruct Hinv as [H1 H2 H3 H4]. cbn [fst].
      split; cbn [m_status set_running running m_connection joinable]; try done.
      * intros Hs. destruct (H2 Hs) as [HC _]. congruence.
      * intros Hs. by destruct (H3 Hs).
  - done.
Qed.
End Invariant.

(** ** Properties *)

(** However its methods, the keep-alive thread and the outside world take
    turns, a client that says [CONNECTED] has an open connection and a running
    keep-alive thread, a client that says [DISCONNECTED] holds no connection
    and no thread, [CONNECTING] is never seen between calls, and a running
    thread is one [StopKeepAlive] can join. *)
Theorem client_status_invariant {W : Type} `{SocketApi W} `{FileApi W} (s : TcpClient * W) :
  client_reachable s -> client_inv (fst s).
Proof.
  induction 1 as [w|s s' _ IH Hstep]; [by split|]. by eapply client_step_inv.
Qed.

Lemma client_status_invariant_witness :
  client_inv (fst (Disconnect (snd (Client_Connect "localhost" 19999 (new_TcpClient, pipe_with [] 0))))).
Proof.
  apply (client_status_invariant (W := Pipe)).
  eapply reach_step; [|apply step_disconnect].
  eapply reach_step; [apply reach_new|apply step_connect].
Defined.

(** [Connect] has two outcomes and no third. A client that is connected
    is told [kAlreadyExists] and not touched. Otherwise [Connect] either
    succeeds, and then the client is [CONNECTED] over an open connection with
    the keep-alive thread running, or it fails, and then the client is
    [CONNECTION_FAILED] with the connection dropped and no thread, whichever
    step went wrong: socket creation, connecting, handshake. *)
Theorem connect_outcome {W : Type} `{SocketApi W} `{FileApi W} host port t (w : W) r t' w' :
  client_reachable (t, w) -> Client_Connect host port (t, w) = (r, (t', w')) ->
  (m_status t = CONNECTED /\ t' = t /\ w' = w /\ code (status_of r) = kAlreadyExists) \/
  (m_status t <> CONNECTED /\ r = Value tt /\ m_status t' = CONNECTED /\
     IsConnected t' = true /\ running t' = true) \/
  (m_status t <> CONNECTED /\ is_value r = false /\ m_status t' = CONNECTION_FAILED /\
     m_connection t' = None /\ running t' = false).
Proof.
  intros Hreach HC. assert (client_inv t) as Hinv.
  { clear HC. remember (t, w) as s eqn:Es. change t with (fst (t, w)). rewrite <- Es. clear t w Es.
    induction Hreach as [w|s s' _ IH Hstep]; [by split|]. by eapply client_step_inv. }
  destruct (decide (m_status t = CONNECTED)) as [Hs|Hs].
  - left. unfold Client_Connect in HC. cbn [fst] in HC.
    rewrite bool_decide_eq_true_2 in HC by done. by injection HC as <- <- <-.
  - right. apply Connect_cases in HC as [(? & ? & ? & ? & _)|?]; [|tauto|done|apply Hinv].
    by left.
Qed.

Lemma connect_outcome_witness :
  exists t' w' r, Client_Connect "localhost" 19999 (new_TcpClient, pipe_with [] 0) = (r, (t', w')) /\
    is_value r = false /\ m_status t' = CONNECTION_FAILED /\ m_connection t' = None.
Proof.
  set (s := Client_Connect "localhost" 19999 (new_TcpClient, pipe_with [] 0)).
  exists (fst (snd s)), (snd (snd s)), (fst s).
  assert (s = (fst s, (fst (snd s), snd (snd s)))) as E by (by destruct s as [r [t' w']]).
  split; [exact E|].
  destruct (connect_outcome (W := Pipe) _ _ _ _ _ _ _ (reach_new _) E) as [(Hx & _)|[(_ & Hx & _)|(_ & ? & ? & ? & _)]].
  - discriminate Hx.
  - vm_compute in Hx. discriminate Hx.
  - auto.
Defined.

(** ** Requests against a server *)

Section Exchange.
Context {W : Type} `{FileStoreLaws W}.
Implicit Types (c : SocketConnection) (t : TcpClient) (w : W).

(** A connected client on a connection that is up. *)
Definition online t c w : Prop :=
  m_status t = CONNECTED /\ m_connection t = Some c /\
  IsOpen c = true /\ m_is_listening c = false /\ up (m_socket c) w.

Lemma online_IsConnected t c w : online t c w -> IsConnected t = true.
Proof. intros (Hs & Hc & Ho & _). unfold IsConnected. by rewrite Hs, Hc, Ho. Qed.

Lemma set_connection_same t c : m_connection t = Some c -> set_connection (Some c) t = t.
Proof. destruct t. simpl. by intros ->. Qed.

(** The first two steps of a request against a stream that holds a reply. *)
Lemma transact_live who txt request timeout txt' response rest t c w :
  online t c w -> sendable request -> sendable response ->
  incoming (m_socket c) w = frame response ++ rest ->
  exists w', transact who txt request timeout txt' (t, w) = (Value response, (t, w')) /\
    online t c w' /\ incoming (m_socket c) w' = rest /\
    outgoing (m_socket c) w' = outgoing (m_socket c) w ++ frame request.
Proof.
  intros Hon Hreq Hresp Hin. pose proof (online_IsConnected _ _ _ Hon) as HC.
  destruct Hon as (Hs & Hc & Ho & Hl & Hup).
  destruct (SendSocketMessage_step request c w Hreq Ho Hl Hup) as (w1 & HS & Hup1 & Ho1 & Hi1 & _).
  rewrite Hin in Hi1.
  destruct (receive_live_frame response rest timeout c w1 Hresp Hi1 Ho Hl Hup1)
    as (w2 & HR & Hup2 & Hi2 & Ho2).
  exists w2. rewrite Hi2, Ho2, Ho1. split; [|by repeat split].
  assert (forall w, set_connection (Some c) t = t) as Hset by (intros; by apply set_connection_same).
  unfold transact, bind, check_connected, or_fail, on_connection. rewrite HC. cbn [negb].
  rewrite Hc, HS, Hset by done. cbn [m_connection]. rewrite Hc.
  unfold ReceiveSocketMessage, with_conn. rewrite HR. by rewrite Hset.
Qed.
End Exchange.

Lemma fill_FileSizeResponse_file {W : Type} `{FileStoreLaws W} path data (w : W) :
  is_file path data w ->
  exists w', fill_FileSizeResponse path w =
    (mkFileSizeResponse true "" (Z.of_nat (length data)), w').
Proof.
  intros (_ & ec & w1 & w2 & Hreg & Hsz). unfold fill_FileSizeResponse. rewrite Hreg, Hsz. eauto.
Qed.

Section Results.
Context {W : Type} `{FileStoreLaws W}.

(** A request [m] sent on [w] against the reply [response] gives [result],
    leaves the client as it was, and uses up exactly the reply's frame. *)
Definition answered {A} (m : StatusM (TcpClient * W) A) (request response : Message)
    (result : StatusOr A) t c w : Prop :=
  forall rest, sendable request -> sendable response ->
  incoming (m_socket c) w = frame response ++ rest ->
  exists w', m (t, w) = (result, (t, w')) /\ online t c w' /\
    incoming (m_socket c) w' = rest /\
    outgoing (m_socket c) w' = outgoing (m_socket c) w ++ frame request.

Lemma answered_transact {A} who txt timeout txt' (k : Message -> StatusM (TcpClient * W) A)
    request response result t c w :
  online t c w -> (forall w', k response (t, w') = (result, (t, w'))) ->
  answered (bind (transact who txt request timeout txt') k) request response result t c w.
Proof.
  intros Hon Hk rest Hreq Hresp Hin.
  destruct (transact_live who txt request timeout txt' response rest t c w Hon Hreq Hresp Hin)
    as (w' & E & Hon' & Hi & Ho).
  exists w'. rewrite (bind_value _ _ _ _ _ E), Hk. done.
Qed.
End Results.

(** Client and server agree on what the requests mean. When the stream
    of a connected client holds the frame that [BaseMessageHandler] sends for a
    request, the handshake and the ping succeed, the file-size request gives
    the size of the server's file, and the remove request succeeds exactly when
    the server removed the file; each request adds its own frame to the other
    direction, consumes the reply, and leaves the client connected. *)
Theorem client_server_requests {W1 W2 : Type} `{FileStoreLaws W1} `{FileStoreLaws W2}
    path (ws : W1) t c (w : W2) :
  online t c w ->
  (forall r ws', reply (HandshakeRequest (mkHandshake kHandshakeMajorVersion kHandshakeMinorVersion)) ws
       = Some (r, ws') ->
     answered PerformHandshake
       (HandshakeRequest (mkHandshake kHandshakeMajorVersion kHandshakeMinorVersion)) r (Value tt) t c w) /\
  (forall r ws', reply (PingMessage mkEmpty) ws = Some (r, ws') ->
     answered PingServer (PingMessage mkEmpty) r (Value tt) t c w) /\
  (forall data r ws', is_file path data ws ->
     reply (FileSizeRequest (mkString path)) ws = Some (r, ws') ->
     answered (GetCaptureFileSize path) (FileSizeRequest (mkString path)) r
       (Value (Z.of_nat (length data))) t c w) /\
  (forall r ws', reply (RemoveFileRequest (mkString path)) ws = Some (r, ws') ->
     exists result, answered (Client_RemoveFile path) (RemoveFileRequest (mkString path)) r result t c w /\
       (result = Value tt <-> fst (fst (fs_remove path ws)) = true)).
Proof.
  intros Hon. split; [|split; [|split]].
  - intros r ws' [= <- <-]. by apply answered_transact.
  - intros r ws' [= <- <-]. by apply answered_transact.
  - intros data r ws' Hfile Hr. cbn [reply m_str] in Hr.
    destruct (fill_FileSizeResponse_file _ _ _ Hfile) as (w' & E). rewrite E in Hr.
    injection Hr as <- <-. by apply answered_transact.
  - intros r ws' Hr. cbn [reply m_str] in Hr. unfold fill_RemoveFileResponse in Hr.
    destruct (fs_remove path ws) as [[[] ec] w']; injection Hr as <- <-.
    + exists (Value tt). split; [|done]. by apply answered_transact.
    + eexists. split; [by apply answered_transact|]. done.
Qed.

Definition online_client : TcpClient := mkTcpClient (Some pipe_conn) CONNECTED true true.

Lemma client_server_requests_witness :
  exists w', GetCaptureFileSize "trace.rd" (online_client,
      pipe_with (frame (MsgFileSizeResponse (mkFileSizeResponse true "" 14))) 3)
    = (Value 14, (online_client, w')) /\
    tx w' = frame (FileSizeRequest (mkString "trace.rd")).
Proof.
  set (w := pipe_with (frame (MsgFileSizeResponse (mkFileSizeResponse true "" 14))) 3).
  assert (online online_client pipe_conn w) as Hon by done.
  destruct (client_server_requests (W1 := Pipe) "trace.rd" file_pipe online_client pipe_conn w Hon)
    as (_ & _ & Hsize & _).
  destruct (Hsize (String.list_byte_of_string "Adreno capture")
              (MsgFileSizeResponse (mkFileSizeResponse true "" 14)) file_pipe) with (rest := @nil byte)
    as (w' & E & _ & _ & Hout).
  - split; [by vm_compute|]. exists None, file_pipe, file_pipe. split; by vm_compute.
  - by vm_compute.
  - split; [by vm_compute|]. intros E. by vm_compute in E.
  - split; [by vm_compute|]. intros E. by vm_compute in E.
  - by rewrite app_nil_r.
  - exists w'. split; [exact E|exact Hout].
Defined.

(** C27: a download end to end, with file systems where reads and writes of open files do
    not fail ([FileStoreLaws]). When the stream of a connected client holds what the
    server's handler puts out, on an open connection, for the download request of a file it
    can read (request and offer within the limit of a payload), the local file can be
    opened for writing, and the progress callback touches neither the sockets nor the
    files, then [DownloadFileFromServer] writes a local file with exactly the server's
    bytes, succeeds, and leaves the rest of the stream and the client alone. *)
Theorem download_end_to_end {W1 W2 : Type} `{FileStoreLaws W1} `{FileStoreLaws W2}
    path local data (ws ws' : W1) cs t c (w : W2) progress out rest :
  is_file path data ws -> (forall w' : W1, content path w' = Some data -> opens path w') ->
  sendable (download_offer path data) -> sendable (DownloadFileRequest (mkString path)) ->
  IsOpen cs = true -> m_is_listening cs = false -> up (m_socket cs) ws ->
  BaseMessageHandler_HandleMessage (Some (DownloadFileRequest (mkString path))) (Some cs, ws)
    = (Some cs, ws') ->
  outgoing (m_socket cs) ws' = outgoing (m_socket cs) ws ++ out ->
  online t c w -> incoming (m_socket c) w = out ++ rest ->
  (forall w' : W2, exists fd v, ofs_open local w' = (Some fd, v)) -> quiet progress ->
  exists w', DownloadFileFromServer path local progress (t, w) = (Value tt, (t, w')) /\
    online t c w' /\ incoming (m_socket c) w' = rest /\ content local w' = Some data.
Proof.
  intros Hfile Hopens Hoffer Hreq Hocs Hlcs Hupcs Hh Hout Hon Hin Hwr Hq.
  destruct (download_served _ _ _ _ Hfile Hoffer Hocs Hlcs Hupcs) as [Hok _].
  destruct (Hok Hopens) as (ws1 & E1 & _ & Hout1). rewrite Hh in E1. injection E1 as <-.
  rewrite Hout in Hout1. apply app_inv_head in Hout1 as ->. rewrite <- app_assoc in Hin.
  destruct (transact_live "DownloadFileFromServer" "DownloadFileFromServer: Client is not connected."
    _ kNoTimeout ": ReceiveSocketMessage fail" _ _ _ _ _ Hon Hreq Hoffer Hin) as (w1 & E & Hon1 & Hi1 & _).
  unfold DownloadFileFromServer. rewrite (bind_value _ _ _ _ _ E). unfold download_offer.
  cbn [dl_found dl_file_size negb]. pose proof Hon1 as (Hs & Hc & Ho & Hl & Hup).
  destruct (Hwr w1) as (fd1 & v1 & Hop).
  destruct (ReceiveFile_live _ _ _ progress data rest c w1 Hq Ho Hl Hup Hop Hi1)
    as (w2 & ER & Hup2 & Hi2 & _ & Hcont).
  exists w2. unfold or_fail, on_connection, with_conn. rewrite Hc, ER.
  rewrite (set_connection_same t c Hc). done.
Qed.

Lemma download_end_to_end_witness :
  exists w', DownloadFileFromServer "trace.rd" "local.rd" None (online_client,
      pipe_with (frame (download_offer "trace.rd" (String.list_byte_of_string "Adreno capture"))
                 ++ String.list_byte_of_string "Adreno capture") 4)
    = (Value tt, (online_client, w')) /\
    files w' !! ("local.rd" : string) = Some (String.list_byte_of_string "Adreno capture").
Proof.
  set (data := String.list_byte_of_string "Adreno capture").
  set (offer := frame (download_offer "trace.rd" data)).
  set (w := pipe_with (offer ++ data) 4).
  set (ws' := snd (BaseMessageHandler_HandleMessage
    (Some (DownloadFileRequest (mkString "trace.rd"))) (Some pipe_conn, file_pipe))).
  destruct (download_end_to_end (W1 := Pipe) "trace.rd" "local.rd" data file_pipe ws' pipe_conn
    online_client pipe_conn w None (offer ++ data) []) as (w' & E & _ & _ & Hc).
  - split; [by vm_compute|]. exists None, file_pipe, file_pipe. split; by vm_compute.
  - intros p Hp. exists 0, (set_reading data p).
    unfold ifs_open, Pipe_FileApi. unfold content, Pipe_FileStore in Hp. by rewrite Hp.
  - split; [by vm_compute|]. intros E. by vm_compute in E.
  - split; [by vm_compute|]. intros E. by vm_compute in E.
  - reflexivity.
  - reflexivity.
  - exact I.
  - vm_compute. reflexivity.
  - vm_compute. reflexivity.
  - by repeat split.
  - rewrite app_nil_r. reflexivity.
  - intros p. exists 0. eexists. reflexivity.
  - intros f [=].
  - exists w'. split; [exact E|exact Hc].
Defined.
