(* ===== verification/Server.v ===== *)
(** * Server: the accept-and-handle loop

    Models [UnixDomainServer] of [src/network/unix_domain_server.{h,cc}] against
    the interface [IMessageHandler]. The server thread and a thread that calls
    [Stop] interleave, so the loop is cut at its blocking calls: a value of
    [LoopPoint] says where the server thread stands, [loop_step] runs it to the
    next point, and the three effects of [Stop] on shared state are steps of
    their own. A connection object that [Stop] destroys while the server thread
    waits inside one of its methods is, in the model, destroyed when the method
    has returned. *)

From S2P Require Import Prelude Status Wire Messages Socket Pipe Transfer Framing Handlers.

Inductive LoopPoint :=
  | LoopHead                                    (* [while (m_is_running.load())] *)
  | Accepted (r : StatusOr SocketConnection)    (* [Accept] has returned *)
  | ClientCheck                                 (* [if (m_client_connection)] *)
  | Received (r : StatusOr Message)             (* [ReceiveSocketMessage] has returned *)
  | LoopExited.

Record UnixDomainServer (St : Type) := mkServer {
  m_listen_connection : option SocketConnection;
  m_client_connection : option SocketConnection;
  m_handler : St;
  m_is_running : bool;
  m_server_thread : option LoopPoint   (* the thread, while it can be joined *)
}.
Arguments mkServer {St}.
Arguments m_listen_connection {St}.
Arguments m_client_connection {St}.
Arguments m_handler {St}.
Arguments m_is_running {St}.
Arguments m_server_thread {St}.

Section Server.
Context {W St : Type} `{SocketApi W} `{FileApi W} `{!IMessageHandler W St}.

Abbreviation ServerState := (UnixDomainServer St * W)%type.

Definition set_listen c (s : UnixDomainServer St) :=
  mkServer c (m_client_connection s) (m_handler s) (m_is_running s) (m_server_thread s).
Definition set_client c (s : UnixDomainServer St) :=
  mkServer (m_listen_connection s) c (m_handler s) (m_is_running s) (m_server_thread s).
Definition set_handler (h : St) (s : UnixDomainServer St) :=
  mkServer (m_listen_connection s) (m_client_connection s) h (m_is_running s) (m_server_thread s).
Definition set_is_running b (s : UnixDomainServer St) :=
  mkServer (m_listen_connection s) (m_client_connection s) (m_handler s) b (m_server_thread s).
Definition set_thread p (s : UnixDomainServer St) :=
  mkServer (m_listen_connection s) (m_client_connection s) (m_handler s) (m_is_running s) p.

Definition new_UnixDomainServer (handler : St) : UnixDomainServer St :=
  mkServer None None handler false None.

(** The destructor of a connection that may be null. *)
Definition destroy (c : option SocketConnection) (w : W) : W :=
  match c with Some c => snd (Close (c, w)) | None => w end.

(** [Start]; [None]: [std::terminate], because the assignment to
    [m_server_thread] finds a thread that was not joined. *)
Definition Start (server_address : string) (state : ServerState) : option (Status * ServerState) :=
  let '(s, w) := state in
  if m_is_running s then Some (AlreadyExistsError "Start: Server is already running.", (s, w))
  else
    match Create kInvalidSocketValue with
    | Error e => Some (StatusWithContext e "Start: Failed to create socket", (s, w))
    | Value connection =>
        match BindAndListenOnUnixDomain server_address (connection, w) with
        | (Error e, (connection, w)) =>
            Some (StatusWithContext e "Start: Failed to bind and listen socket",
                  (s, destroy (Some connection) w))
        | (Value _, (connection, w)) =>
            let w := destroy (m_listen_connection s) w in
            let s := set_is_running true (set_listen (Some connection) s) in
            match m_server_thread s with
            | Some _ => None
            | None => Some (OkStatus, (set_thread (Some LoopHead) s, w))
            end
        end
    end.

Definition ResetClientConnection : ServerState -> ServerState := fun '(s, w) =>
  (set_client None s, destroy (m_client_connection s) w).

Definition call_OnConnect : ServerState -> ServerState := fun '(s, w) =>
  let '(h, w) := OnConnect (m_handler s, w) in (set_handler h s, w).

Definition call_OnDisconnect : ServerState -> ServerState := fun '(s, w) =>
  let '(h, w) := OnDisconnect (m_handler s, w) in (set_handler h s, w).

Definition call_HandleMessage (message : Message) : ServerState -> ServerState := fun '(s, w) =>
  let '(h, (c, w)) := HandleMessage (Some message) (m_handler s, (m_client_connection s, w)) in
  (set_client c (set_handler h s), w).

Definition goto (p : LoopPoint) : ServerState -> ServerState := fun '(s, w) =>
  (set_thread (Some p) s, w).

(** Behind the loop: [m_is_running.store(false)] and the notification. *)
Definition exit_loop : ServerState -> ServerState := fun '(s, w) =>
  (set_thread (Some LoopExited) (set_is_running false s), w).

(** From one point of [AcceptAndHandleClientLoop] to the next. *)
Definition loop_step (p : LoopPoint) (state : ServerState) : ServerState :=
  let '(s, w) := state in
  match p with
  | LoopHead =>
      if negb (m_is_running s) then exit_loop (s, w)
      else
        match m_client_connection s with
        | Some _ => goto ClientCheck (s, w)
        | None =>
            match m_listen_connection s with
            | None => exit_loop (s, w)
            | Some listen =>
                if negb (IsOpen listen) then exit_loop (s, w)
                else
                  let '(r, (listen, w)) := Accept (listen, w) in
                  goto (Accepted r) (set_listen (Some listen) s, w)
            end
        end
  | Accepted (Error _) =>
      if negb (m_is_running s) then exit_loop (s, w) else goto LoopHead (s, w)
  | Accepted (Value connection) =>
      goto ClientCheck (call_OnConnect (set_client (Some connection) s, destroy (m_client_connection s) w))
  | ClientCheck =>
      match m_client_connection s with
      | None => goto LoopHead (s, w)
      | Some client =>
          if negb (IsOpen client) then
            goto LoopHead (ResetClientConnection (call_OnDisconnect (s, w)))
          else
            let '(r, (client, w)) := ReceiveSocketMessage kNoTimeout (Some client, w) in
            goto (Received r) (set_client client s, w)
      end
  | Received (Error _) =>
      if negb (m_is_running s) then exit_loop (call_OnDisconnect (s, w))
      else goto LoopHead (ResetClientConnection (call_OnDisconnect (s, w)))
  | Received (Value message) => goto LoopHead (call_HandleMessage message (s, w))
  | LoopExited => (s, w)
  end.

(** The effects of [Stop], in its order. *)
Definition Stop_signal : ServerState -> ServerState := fun '(s, w) => (set_is_running false s, w).
Definition Stop_listen : ServerState -> ServerState := fun '(s, w) =>
  (set_listen None s, destroy (m_listen_connection s) w).
Definition Stop_client : ServerState -> ServerState := ResetClientConnection.
Definition Stop_join : ServerState -> ServerState := fun '(s, w) => (set_thread None s, w).

(** [stopping]: how many of the four effects of a [Stop] that is under way
    have happened. *)
Inductive server_step : nat * ServerState -> nat * ServerState -> Prop :=
  | step_loop k s w p : m_server_thread s = Some p ->
      server_step (k, (s, w)) (k, loop_step p (s, w))
  | step_signal s : server_step (0%nat, s) (1%nat, Stop_signal s)
  | step_stop_listen s : server_step (1%nat, s) (2%nat, Stop_listen s)
  | step_stop_client s : server_step (2%nat, s) (3%nat, Stop_client s)
  | step_join s w : m_server_thread s = Some LoopExited ->
      server_step (3%nat, (s, w)) (0%nat, Stop_join (s, w))
  | step_join_none s w : m_server_thread s = None ->
      server_step (3%nat, (s, w)) (0%nat, (s, w))
  | step_world k s w w' : server_step (k, (s, w)) (k, (s, w')).

(** Reachable from a new server with [starts] successful calls of [Start]. *)
Inductive server_reachable (h : St) : nat -> nat * ServerState -> Prop :=
  | server_reach_new w : server_reachable h 0 (0%nat, (new_UnixDomainServer h, w))
  | server_reach_step n s s' :
      server_reachable h n s -> server_step s s' -> server_reachable h n s'
  | server_reach_start n address state st state' :
      server_reachable h n (0%nat, state) -> Start address state = Some (st, state') ->
      server_reachable h (if status_ok st then S n else n) (0%nat, state').
End Server.

(** ** The callbacks, observed *)

Inductive Callback := Connected | Handled | Disconnected.

(** A handler that answers like [BaseMessageHandler] and keeps a record of the
    calls it gets, the latest first. *)
#[export] Instance Recorder_handler {W} `{SocketApi W} `{FileApi W} (base : Type)
    `{!IMessageHandler W base} : IMessageHandler W (list Callback * base) := {
  OnConnect := fun '((log, h), w) =>
    let '(h, w) := OnConnect (h, w) in ((Connected :: log, h), w);
  HandleMessage := fun message '((log, h), s) =>
    let '(h, s) := HandleMessage message (h, s) in ((Handled :: log, h), s);
  OnDisconnect := fun '((log, h), w) =>
    let '(h, w) := OnDisconnect (h, w) in ((Disconnected :: log, h), w)
}.

(** Whether a client is connected after the calls in [log]; [None] when the
    calls do not make sense: a second connect, or a message or disconnect
    without a client. *)
Fixpoint session (log : list Callback) : option bool :=
  match log with
  | [] => Some false
  | e :: log =>
      match e, session log with
      | Connected, Some false => Some true
      | Handled, Some true => Some true
      | Disconnected, Some true => Some false
      | _, _ => None
      end
  end.

#[local] Arguments Accept : simpl never.
#[local] Arguments ReceiveSocketMessage : simpl never.

(** A handler does not take the connection object away. *)
Class HandlerLaws (W St : Type) `{!IMessageHandler W St} := {
  handle_keeps : forall message h c w,
    is_Some (fst (snd (HandleMessage message (h, (Some c, w)))))
}.

Section HandlerKeeps.
Context {W : Type} `{SocketApi W} `{FileApi W}.

Lemma with_conn_Some {A} (m : StatusM (SocketConnection * W) A) c w :
  exists r c' w', with_conn m (Some c, w) = (r, (Some c', w')).
Proof. unfold with_conn. destruct (m (c, w)) as [r [c' w']]. eauto. Qed.

Lemma logged_send_keeps msg c (w : W) :
  is_Some (fst (logged (SendSocketMessage msg) (Some c, w))).
Proof.
  unfold logged. destruct (with_conn_Some (send_socket_message msg) c w) as (r & c' & w' & E).
  unfold SendSocketMessage. rewrite E. eauto.
Qed.

#[export] Instance BaseMessageHandler_laws : HandlerLaws W BaseMessageHandler.
Proof.
  split. intros [message|] h c w; cbn; [|eauto].
  destruct message; try (by eexists); try apply logged_send_keeps.
  - cbn [BaseMessageHandler_HandleMessage]. unfold logged, DownloadFile.
    destruct (fill_DownloadFileResponse (m_str m) w) as [r w1]. unfold bind, with_context.
    destruct (with_conn_Some (send_socket_message (MsgDownloadFileResponse r)) c w1) as (x & c' & w' & E).
    unfold SendSocketMessage. rewrite E. destruct x; [|by eexists].
    destruct (negb (dl_found r)); [by eexists|].
    destruct (with_conn_Some (SendFile (m_str m)) c' w') as (x' & c2 & w2 & ->). by eexists.
  - unfold logged, GetFileSize. destruct (fill_FileSizeResponse (m_str m) w) as [r w1].
    apply logged_send_keeps.
  - unfold logged, RemoveFile. destruct (fill_RemoveFileResponse (m_str m) w) as [r w1].
    apply logged_send_keeps.
Qed.

#[export] Instance DefaultMessageHandler_laws : HandlerLaws W DefaultMessageHandler.
Proof.
  split. intros [message|] h c w; cbn; [|eauto].
  destruct message; try (by eexists); apply logged_send_keeps.
Qed.
End HandlerKeeps.

Lemma BindAndListen_error {W} `{SocketApi W} `{FileApi W} address s e s' :
  BindAndListenOnUnixDomain address s = (Error e, s') ->
  status_ok (StatusWithContext e "Start: Failed to bind and listen socket") = false.
Proof.
  intros Hb. apply StatusWithContext_not_ok. revert Hb. unfold BindAndListenOnUnixDomain.
  destruct (close_if_open s) as [c2 w2].
  destruct (sys_socket None w2) as [[e1|fd] w3]; [by intros [= <- _]|].
  destruct (sys_bind fd address w3) as [[e1|] w4]; [by intros [= <- _]|].
  destruct (sys_listen fd w4) as [[e1|] w5]; [by intros [= <- _]|done].
Qed.

Section Callbacks.
Context {W base : Type} `{SocketApi W} `{FileApi W} `{!IMessageHandler W base} `{!HandlerLaws W base}.

Abbreviation Srv := (UnixDomainServer (list Callback * base)).

Definition log_of (s : Srv) : list Callback := fst (m_handler s).
Definition has_client (s : Srv) : bool := bool_decide (is_Some (m_client_connection s)).

(** What the calls so far say at each point of the loop. [k] counts the
    effects of a [Stop] under way; while there are none and the loop stands
    at its head, a client is recorded exactly when there is one. *)
Definition session_inv (s : Srv) : Prop :=
  match m_server_thread s with
  | None => is_Some (session (log_of s))
  | Some LoopHead => exists b, session (log_of s) = Some b /\
      (m_is_running s = true -> b = has_client s)
  | Some (Accepted _) => session (log_of s) = Some false /\ m_client_connection s = None
  | Some ClientCheck | Some (Received _) => session (log_of s) = Some true /\
      (m_is_running s = true -> has_client s = true)
  | Some LoopExited => is_Some (session (log_of s)) /\ m_is_running s = false
  end.

Lemma loop_step_session p (s : Srv) (w : W) :
  m_server_thread s = Some p -> session_inv s -> session_inv (fst (loop_step p (s, w))).
Proof.
  destruct s as [li cl [log h] ru th]. intros Hth. cbn in Hth. subst th.
  unfold session_inv, log_of, has_client. cbn [m_server_thread m_handler fst m_client_connection m_is_running].
  destruct p as [|[conn|e]| |[msg|e]|]; cbn [loop_step].
  - intros (b & Hb & Hrun). destruct ru; cbn; [|eauto]. specialize (Hrun eq_refl). subst b.
    destruct cl as [c|]; cbn; [done|].
    destruct li as [l|]; cbn; [|eauto]. destruct (negb (IsOpen l)); cbn; [eauto|].
    destruct (Accept (l, w)) as [r [l' w']]. cbn. split; [exact Hb|done].
  - intros [Hb ->]. cbn. destruct (OnConnect (h, w)) as [h' w']. cbn. by rewrite Hb.
  - intros [Hb ->]. destruct ru; cbn; eauto.
  - intros [Hb Hrun]. cbn. destruct cl as [c|]; cbn;
      [|exists true; split; [exact Hb|intros Hr; discriminate (Hrun Hr)]].
    destruct (negb (IsOpen c)); cbn.
    + destruct (OnDisconnect (h, w)) as [h' w']. cbn. rewrite Hb. by exists false.
    + destruct (with_conn_Some (receive_socket_message kNoTimeout) c w) as (r & c' & w' & E).
      unfold ReceiveSocketMessage. by rewrite E.
  - intros [Hb Hrun]. cbn.
    destruct (HandleMessage (Some msg) (h, (cl, w))) as [h' [c' w']] eqn:E. cbn. rewrite Hb.
    exists true. split; [done|]. intros Hr. specialize (Hrun Hr).
    destruct cl as [c|]; [|done]. pose proof (handle_keeps (Some msg) h c w) as Hk.
    rewrite E in Hk. cbn in Hk. by rewrite bool_decide_eq_true_2.
  - intros [Hb _]. destruct ru; cbn; destruct (OnDisconnect (h, w)) as [h' w']; cbn;
      rewrite Hb; [by exists false|eauto].
  - done.
Qed.

(** The effects of [Stop] keep it: a server that is not running owes nothing
    about its client. *)
Lemma stopped_session (s : Srv) c :
  m_is_running s = false -> session_inv s -> session_inv (set_client None (set_listen c s)).
Proof.
  destruct s as [li cl [log h] ru th]. unfold session_inv, log_of, has_client. cbn. intros ->.
  destruct th as [[| | | |]|]; cbn; [intros (b & Hb & _); by exists b|..|done]; by intros [Hb _].
Qed.

Lemma signal_session (s : Srv) : session_inv s -> session_inv (set_is_running false s).
Proof.
  destruct s as [li cl [log h] ru th]. unfold session_inv, log_of, has_client. cbn.
  destruct th as [[| | | |]|]; cbn; [intros (b & Hb & _); by exists b|..|done]; by intros [Hb ?].
Qed.

Lemma loop_step_running p (s : Srv) (w : W) :
  m_is_running s = false -> m_is_running (fst (loop_step p (s, w))) = false.
Proof.
  destruct s as [li cl [log h] ru th]. cbn. intros ->. destruct p as [|[conn|e]| |[msg|e]|]; cbn; try done.
  - destruct (OnConnect (h, destroy cl w)) as [h' w']. done.
  - destruct cl as [c|]; cbn; [|done]. destruct (negb (IsOpen c)); cbn.
    + by destruct (OnDisconnect (h, w)).
    + by destruct (ReceiveSocketMessage kNoTimeout (Some c, w)) as [r [c' w']].
  - by destruct (HandleMessage (Some msg) (h, (cl, w))) as [h' [c' w']].
  - by destruct (OnDisconnect (h, w)).
Qed.

(** What holds along a run with at most one successful [Start]. *)
Definition run_inv (starts k : nat) (s : Srv) : Prop :=
  (k <> 0%nat -> m_is_running s = false) /\
  match starts with
  | O => m_server_thread s = None /\ m_client_connection s = None /\ log_of s = [] /\
         m_is_running s = false
  | S O => session_inv s
  | _ => True
  end.

(** [run_inv] survives every step of the server, ... *)
Lemma server_step_inv starts (x x' : nat * (Srv * W)) :
  server_step x x' -> run_inv starts (fst x) (fst (snd x)) -> run_inv starts (fst x') (fst (snd x')).
Proof.
  destruct 1 as [k s w p Hp|[s w]|[s w]|[s w]|s w Hp|s w Hp|k s w w']; cbn [fst snd];
    intros [Hk Hinv];
    (split; [intros Hn; first [done|by apply loop_step_running, Hk|by apply Hk]|]);
    destruct starts as [|[|]]; try done.
  - destruct Hinv; congruence.
  - by apply loop_step_session.
  - destruct Hinv as (? & ? & ? & ?). by destruct s as [li cl [log h] ru th].
  - by apply signal_session.
  - destruct Hinv as (? & ? & ? & ?). by destruct s as [li cl [log h] ru th].
  - destruct s as [li cl [log h] ru th]. by apply (stopped_session _ li (Hk ltac:(done))).
  - destruct Hinv as (? & ? & ? & ?). by destruct s as [li cl [log h] ru th].
  - revert Hinv. destruct s as [li cl [log h] ru th]. unfold session_inv, log_of. cbn in *.
    subst th. by intros [? _].
Qed.

(** ... and every call of [Start], which counts when it succeeds. *)
Lemma Start_inv starts address (s s' : Srv) (w w' : W) st :
  Start address (s, w) = Some (st, (s', w')) -> run_inv starts 0 s ->
  run_inv (if status_ok st then S starts else starts) 0 s'.
Proof.
  intros HS [_ Hinv]. split; [done|]. revert HS. unfold Start.
  destruct (m_is_running s) eqn:Hr;
    [intros [= <- <- <-]; rewrite Hr; exact Hinv|].
  destruct (Create kInvalidSocketValue) as [c|e0] eqn:Hc.
  2: { unfold Create in Hc. destruct (negb network_initialized); [|done]. injection Hc as <-.
       intros [= <- <- <-]. rewrite Hr. exact Hinv. }
  destruct (BindAndListenOnUnixDomain address (c, w)) as [[u|e] [c1 w1]] eqn:Hb.
  - cbn. destruct (m_server_thread s) eqn:Hth; [done|]. intros [= <- <- <-]. cbn.
    destruct starts as [|starts]; [|done]. destruct Hinv as (_ & Hcl & Hlog & _).
    destruct s as [li cl [log h] ru th]. unfold session_inv, has_client, log_of in *. cbn in *.
    subst. by exists false.
  - intros [= <- <- <-].
    by rewrite (BindAndListen_error _ _ _ _ Hb), Hr.
Qed.

Lemma server_reachable_inv starts (h : base) (x : nat * (Srv * W)) :
  server_reachable ([], h) starts x -> run_inv starts (fst x) (fst (snd x)).
Proof.
  induction 1 as [w|n x x' _ IH Hstep|n address [s w] st [s' w'] _ IH HS].
  - by split.
  - by eapply server_step_inv.
  - by eapply Start_inv.
Qed.
End Callbacks.

(** ** Properties *)

(** C31: along every run of a server that is started once, whatever the
    clients, the kernel and a concurrent [Stop] do, the handler's callbacks
    make sense: [OnConnect] and [OnDisconnect] alternate, starting with
    [OnConnect], and [HandleMessage] is only called in between. While the
    server runs and stands at the head of its loop, a client object exists
    exactly when the last of the two calls was [OnConnect]. *)
Theorem callbacks_well_bracketed {W base : Type} `{SocketApi W} `{FileApi W}
    `{!IMessageHandler W base} `{!HandlerLaws W base}
    (h : base) starts k (s : UnixDomainServer (list Callback * base)) (w : W) :
  server_reachable ([], h) starts (k, (s, w)) -> (starts <= 1)%nat ->
  exists b, session (log_of s) = Some b /\
    (m_server_thread s = Some LoopHead -> m_is_running s = true -> b = has_client s).
Proof.
  intros Hr Hs. apply server_reachable_inv in Hr as [_ Hinv]. cbn [fst snd] in Hinv.
  destruct starts as [|[|]]; [| |lia].
  - destruct Hinv as (Hth & _ & -> & _). exists false. split; [done|]. by rewrite Hth.
  - unfold session_inv in Hinv. destruct (m_server_thread s) as [[| | | |]|]; try done.
    + destruct Hinv as (b & Hb & Hrun). eauto.
    + destruct Hinv as [-> _]. by exists false.
    + destruct Hinv as [-> _]. by exists true.
    + destruct Hinv as [-> _]. by exists true.
    + destruct Hinv as [[b ->] _]. by exists b.
    + destruct Hinv as [b ->]. by exists b.
Qed.

(** A listening server over a pipe, its loop run to the given points. *)
Definition pipe_server : UnixDomainServer (list Callback * BaseMessageHandler) :=
  new_UnixDomainServer ([], mkBaseMessageHandler).

Definition Recorded := (UnixDomainServer (list Callback * BaseMessageHandler) * Pipe)%type.

Definition started : Recorded :=
  match Start "dive" (pipe_server, pipe_with (frame (PingMessage mkEmpty)) 15) with
  | Some (_, s) => s
  | None => (pipe_server, pipe_with [] 0)
  end.

Fixpoint run_loop (n : nat) (s : Recorded) : Recorded :=
  match n, m_server_thread (fst s) with
  | S n, Some p => run_loop n (loop_step p s)
  | _, _ => s
  end.

Lemma run_loop_reachable n k (s : Recorded) h starts :
  server_reachable h starts (k, s) -> server_reachable h starts (k, run_loop n s).
Proof.
  revert s. induction n as [|n IH]; intros [s w] Hr; cbn [run_loop fst]; [done|].
  destruct (m_server_thread s) as [p|] eqn:E; [|done].
  apply IH. eapply server_reach_step; [exact Hr|]. by apply step_loop.
Qed.

Lemma started_reachable : server_reachable ([], mkBaseMessageHandler) 1 (0%nat, started).
Proof.
  change 1%nat with (if status_ok OkStatus then 1%nat else 0%nat).
  eapply (server_reach_start _ 0 "dive"); [apply server_reach_new|]. reflexivity.
Qed.

(** Three calls: a client connected, its ping was handled, and it went away. *)
Lemma callbacks_well_bracketed_witness :
  log_of (fst (run_loop 7 started)) = [Disconnected; Handled; Connected] /\
  exists b, session (log_of (fst (run_loop 7 started))) = Some b.
Proof.
  split; [vm_compute; reflexivity|].
  destruct (callbacks_well_bracketed (W := Pipe) mkBaseMessageHandler 1 0
              (fst (run_loop 7 started)) (snd (run_loop 7 started))) as (b & Hb & _).
  - destruct (run_loop 7 started) as [s w] eqn:E. cbn [fst snd]. rewrite <- E.
    apply run_loop_reachable, started_reachable.
  - lia.
  - by exists b.
Defined.

(** All of a [Stop] but the join. *)
Definition stop_effects (s : Recorded) : Recorded := Stop_client (Stop_listen (Stop_signal s)).

Lemma stop_effects_reachable (s : Recorded) h starts :
  server_reachable h starts (0%nat, s) -> server_reachable h starts (3%nat, stop_effects s).
Proof. intros Hr. do 3 (eapply server_reach_step; [|constructor]). exact Hr. Qed.

(** Stopped while its client was idle, and started again with a new client. *)
Definition stopped_idle : Recorded := run_loop 1 (stop_effects (run_loop 4 started)).

Definition restarted : Recorded :=
  match Start "dive" (fst (Stop_join stopped_idle), pipe_with (frame (PingMessage mkEmpty)) 15) with
  | Some (_, s) => run_loop 2 s
  | None => stopped_idle
  end.

Lemma restarted_reachable : server_reachable ([], mkBaseMessageHandler) 2 (0%nat, restarted).
Proof.
  assert (server_reachable ([], mkBaseMessageHandler) 1 (3%nat, stopped_idle)) as Hs
    by (apply run_loop_reachable, stop_effects_reachable, run_loop_reachable, started_reachable).
  assert (server_reachable ([], mkBaseMessageHandler) 1 (0%nat, Stop_join stopped_idle)) as Hj.
  { eapply server_reach_step; [exact Hs|]. destruct stopped_idle as [s w] eqn:E. apply step_join.
    change s with (fst (s, w)). rewrite <- E. vm_compute. reflexivity. }
  unfold restarted. destruct (Start _ _) as [[st s]|] eqn:E; [|by vm_compute in E].
  apply run_loop_reachable.
  assert (status_ok st = true) as Hst by (vm_compute in E; by injection E as <- <-).
  change 2%nat with (if true then 2%nat else 1%nat). rewrite <- Hst.
  eapply server_reach_start; [|exact E]. eapply server_reach_step; [exact Hj|].
  destruct (Stop_join stopped_idle) as [s0 w0]. apply step_world.
Qed.

(** Examples of what stopping costs. (1) When [Stop] meets a connected client at the
    head of the loop, the loop ends without [OnDisconnect]; a server that is
    then started again calls [OnConnect] a second time in a row. (2) When an
    accept completes while [Stop] runs, all of [Stop] but the join can be over while the
    server thread still is to receive, without a timeout, a message of the client it
    accepted. (3) A server whose loop
    ended by itself is never started again: [Start] fails, or it ends the
    program, because the old thread was not joined. *)
Theorem stop_hazards :
  (exists s : Recorded, server_reachable ([], mkBaseMessageHandler) 2 (0%nat, s) /\
     log_of (fst s) = [Connected; Handled; Connected] /\ session (log_of (fst s)) = None) /\
  (exists s : Recorded, server_reachable ([], mkBaseMessageHandler) 1 (3%nat, s) /\
     m_is_running (fst s) = false /\ m_server_thread (fst s) = Some ClientCheck /\
     exists c, m_client_connection (fst s) = Some c /\ IsOpen c = true /\
       m_server_thread (fst (loop_step ClientCheck s)) =
         Some (Received (fst (ReceiveSocketMessage kNoTimeout (Some c, snd s))))) /\
  (forall address (s : Recorded) p, m_is_running (fst s) = false ->
     m_server_thread (fst s) = Some p ->
     forall st s', Start address s = Some (st, s') -> status_ok st = false).
Proof.
  split; [|split].
  - exists restarted. split; [apply restarted_reachable|]. split; vm_compute; reflexivity.
  - exists (run_loop 1 (stop_effects (run_loop 1 started))). split.
    + apply run_loop_reachable, stop_effects_reachable, run_loop_reachable, started_reachable.
    + split; [by vm_compute|]. split; [by vm_compute|].
      eexists. repeat split; vm_compute; reflexivity.
  - intros address [s w] p Hr Hth st s' HS. cbn [fst] in *. unfold Start in HS.
    rewrite Hr in HS.
    destruct (Create kInvalidSocketValue) as [c|e] eqn:Hc; [|discriminate Hc].
    destruct (BindAndListenOnUnixDomain address (c, w)) as [[u|e] [c1 w1]] eqn:Hb.
    { cbn in HS. by rewrite Hth in HS. }
    injection HS as <- _. by apply BindAndListen_error in Hb.
Qed.
