(* ===== verification/FrameBoundary.v ===== *)
(** * FrameBoundary: which command buffers end a frame

    Models [FrameBoundaryDetector] of
    [src/gpu_time/frame_boundary_detector.{h,cpp}] and the Vulkan argument
    structures it shares with [GpuTime] and [RuntimeLayer]. Handles are
    integers, 0 being [VK_NULL_HANDLE]; a pointer to an array is an [option] of
    a list, [None] being the null pointer. The whole object is guarded by one
    mutex, so each method is one step. *)

From S2P Require Import Prelude.
From stdpp Require Import fin_maps fin_map_dom gmap.

#[local] Open Scope Z_scope.

Abbreviation VkCommandBuffer := Z.
Abbreviation VkCommandPool := Z.

Definition VK_NULL_HANDLE : Z := 0.

Record VkCommandBufferAllocateInfo := mkAllocateInfo {
  commandPool : VkCommandPool;
  level_secondary : bool;         (* [level == VK_COMMAND_BUFFER_LEVEL_SECONDARY] *)
  allocateCount : nat             (* [commandBufferCount] *)
}.

Record VkSubmitInfo := mkSubmitInfo {
  commandBufferCount : nat;
  pCommandBuffers : option (list VkCommandBuffer)
}.

(** The [pCommandBuffers[c]] a loop over [commandBufferCount] visits, for a
    pointer that is not null. *)
Definition submitted (s : VkSubmitInfo) (l : list VkCommandBuffer) : list VkCommandBuffer :=
  take (commandBufferCount s) l.

Definition kVulkanVrFrameDelimiterString : string := "vr-marker,frame_end,type,application".

Record BoundaryStatus := mkBoundaryStatus { bs_message : string; bs_success : bool }.
Definition BoundaryOk : BoundaryStatus := mkBoundaryStatus "" true.

Record BoundaryInfo := mkBoundaryInfo { bi_pool : VkCommandPool; is_frameboundary : bool }.

Definition set_boundary (b : bool) (i : BoundaryInfo) : BoundaryInfo := mkBoundaryInfo (bi_pool i) b.

(** [m_cmds]. *)
Abbreviation FrameBoundaryDetector := (gmap VkCommandBuffer BoundaryInfo).

Definition Detector_OnAllocateCommandBuffers (allocate_info : option VkCommandBufferAllocateInfo)
    (command_buffers : option (list VkCommandBuffer)) (m_cmds : FrameBoundaryDetector)
  : FrameBoundaryDetector :=
  match allocate_info, command_buffers with
  | Some info, Some cmds =>
      if level_secondary info then m_cmds
      else fold_left (fun m cmd => <[cmd := mkBoundaryInfo (commandPool info) false]> m)
             (take (allocateCount info) cmds) m_cmds
  | _, _ => m_cmds
  end.

Definition Detector_OnFreeCommandBuffers (count : nat) (command_buffers : option (list VkCommandBuffer))
    (m_cmds : FrameBoundaryDetector) : FrameBoundaryDetector :=
  match command_buffers with
  | None => m_cmds
  | Some cmds => fold_left (fun m cmd => delete cmd m) (take count cmds) m_cmds
  end.

Definition Detector_OnResetCommandBuffer (cmd : VkCommandBuffer) (m_cmds : FrameBoundaryDetector)
  : FrameBoundaryDetector := alter (set_boundary false) cmd m_cmds.

Definition Detector_OnResetCommandPool (pool : VkCommandPool) (m_cmds : FrameBoundaryDetector)
  : FrameBoundaryDetector :=
  (fun info => if bi_pool info =? pool then set_boundary false info else info) <$> m_cmds.

(** [label]: [None] when the structure or its name is null. *)
Definition MarkBoundary (cmd : VkCommandBuffer) (label : option string) (m_cmds : FrameBoundaryDetector)
  : BoundaryStatus * FrameBoundaryDetector :=
  match label with
  | None => (mkBoundaryStatus "label_info_ptr or label_info_ptr->pLabelName is null!" false, m_cmds)
  | Some name =>
      if bool_decide (kVulkanVrFrameDelimiterString = name) then
        match m_cmds !! cmd with
        | Some info => (BoundaryOk, <[cmd := set_boundary true info]> m_cmds)
        | None =>
            (mkBoundaryStatus "command_buffer is not in the cmd cache (a frame boundary should be always in a primary command buffer)" false,
             m_cmds)
        end
      else (BoundaryOk, m_cmds)
  end.

Definition IsFrameBoundary (cmd : VkCommandBuffer) (m_cmds : FrameBoundaryDetector) : bool :=
  match m_cmds !! cmd with Some info => is_frameboundary info | None => false end.

Definition ContainsFrameBoundary (submits : option (list VkSubmitInfo)) (m_cmds : FrameBoundaryDetector)
  : bool :=
  match submits with
  | None => false
  | Some submits =>
      existsb (fun s =>
        match pCommandBuffers s with
        | None => false
        | Some l => existsb (fun cmd => IsFrameBoundary cmd m_cmds) (submitted s l)
        end) submits
  end.

(** The inner loop's body of [ClearBoundaryFlags]. *)
Definition clear_boundary (m : FrameBoundaryDetector) (cmd : VkCommandBuffer) : FrameBoundaryDetector :=
  match m !! cmd with
  | Some info => if is_frameboundary info then <[cmd := set_boundary false info]> m else m
  | None => m
  end.

Definition ClearBoundaryFlags (submits : option (list VkSubmitInfo)) (m_cmds : FrameBoundaryDetector)
  : FrameBoundaryDetector :=
  match submits with
  | None => m_cmds
  | Some submits =>
      fold_left (fun m s =>
        match pCommandBuffers s with
        | None => m
        | Some l => fold_left clear_boundary (submitted s l) m
        end) submits m_cmds
  end.

(** ** The abstract detector

    The primary command buffers with their pools, and the set of those that end
    a frame. *)

Definition tracked (d : FrameBoundaryDetector) : gmap VkCommandBuffer VkCommandPool := bi_pool <$> d.

Definition flagged (d : FrameBoundaryDetector) : gset VkCommandBuffer :=
  dom (filter (fun p => is_frameboundary p.2 = true) d).

Lemma elem_of_flagged cmd d : cmd ∈ flagged d <-> IsFrameBoundary cmd d = true.
Proof.
  unfold flagged, IsFrameBoundary. rewrite elem_of_dom. split.
  - intros [i Hi]. apply map_lookup_filter_Some in Hi as [-> Hb]. done.
  - destruct (d !! cmd) as [i|] eqn:E; [|done]. intros Hb. exists i.
    by apply map_lookup_filter_Some.
Qed.

(** All submitted command buffers, as one list. *)
Definition all_submitted (submits : list VkSubmitInfo) : list VkCommandBuffer :=
  flat_map (fun s => default [] (submitted s <$> pCommandBuffers s)) submits.

Lemma IsFrameBoundary_insert cmd cmd' i d :
  IsFrameBoundary cmd' (<[cmd := i]> d) =
  if bool_decide (cmd = cmd') then is_frameboundary i else IsFrameBoundary cmd' d.
Proof. unfold IsFrameBoundary. rewrite lookup_insert. by case_decide; case_bool_decide. Qed.

Lemma clear_boundary_flags cmd cmd' d :
  IsFrameBoundary cmd' (clear_boundary d cmd) =
  negb (bool_decide (cmd = cmd')) && IsFrameBoundary cmd' d.
Proof.
  unfold clear_boundary. destruct (d !! cmd) as [i|] eqn:E.
  - destruct (is_frameboundary i) eqn:Hb.
    + rewrite IsFrameBoundary_insert. by case_bool_decide.
    + case_bool_decide as Hc; [|done]. subst. unfold IsFrameBoundary. by rewrite E.
  - case_bool_decide as Hc; [|done]. subst. unfold IsFrameBoundary. by rewrite E.
Qed.

Lemma clear_boundaries_flags l cmd d :
  IsFrameBoundary cmd (fold_left clear_boundary l d) =
  negb (bool_decide (cmd ∈ l)) && IsFrameBoundary cmd d.
Proof.
  revert d. induction l as [|c l IH]; intros d; simpl; [done|].
  rewrite IH, clear_boundary_flags.
  rewrite (bool_decide_ext (cmd ∈ c :: l) (c = cmd \/ cmd ∈ l)), bool_decide_or
    by (rewrite elem_of_cons; intuition).
  by destruct (bool_decide (c = cmd)), (bool_decide (cmd ∈ l)).
Qed.

Lemma clear_boundary_tracked cmd d : tracked (clear_boundary d cmd) = tracked d.
Proof.
  unfold clear_boundary, tracked. destruct (d !! cmd) as [i|] eqn:E; [|done].
  destruct (is_frameboundary i); [|done]. rewrite fmap_insert.
  apply insert_id. by rewrite lookup_fmap, E.
Qed.

Lemma clear_all_eq submits d :
  ClearBoundaryFlags (Some submits) d = fold_left clear_boundary (all_submitted submits) d.
Proof.
  unfold ClearBoundaryFlags. revert d. induction submits as [|s submits IH]; intros d; simpl; [done|].
  rewrite fold_left_app, IH. by destruct (pCommandBuffers s).
Qed.

Lemma contains_iff submits d :
  ContainsFrameBoundary (Some submits) d = true <->
  exists cmd, cmd ∈ all_submitted submits /\ cmd ∈ flagged d.
Proof.
  unfold ContainsFrameBoundary. rewrite existsb_exists. split.
  - intros (s & Hs & Hb). destruct (pCommandBuffers s) as [l|] eqn:E; [|done].
    apply existsb_exists in Hb as (cmd & Hc & Hb). exists cmd. rewrite elem_of_flagged. split; [|done].
    apply list_elem_of_In, in_flat_map. exists s. by rewrite E.
  - intros (cmd & Hc & Hf). apply list_elem_of_In, in_flat_map in Hc as (s & Hs & Hc).
    exists s. split; [done|]. destruct (pCommandBuffers s) as [l|]; [|done].
    apply existsb_exists. exists cmd. by rewrite <- elem_of_flagged.
Qed.

(** What [IsFrameBoundary] says after each operation. *)

Lemma alter_flags cmd cmd' d :
  IsFrameBoundary cmd' (Detector_OnResetCommandBuffer cmd d) =
  negb (bool_decide (cmd = cmd')) && IsFrameBoundary cmd' d.
Proof.
  unfold Detector_OnResetCommandBuffer, IsFrameBoundary. case_bool_decide as Hc.
  - subst. rewrite lookup_alter_eq. by destruct (d !! cmd').
  - by rewrite lookup_alter_ne.
Qed.

Lemma reset_pool_flags pool cmd d :
  IsFrameBoundary cmd (Detector_OnResetCommandPool pool d) =
  negb (bool_decide (tracked d !! cmd = Some pool)) && IsFrameBoundary cmd d.
Proof.
  unfold Detector_OnResetCommandPool, IsFrameBoundary, tracked. rewrite !lookup_fmap.
  destruct (d !! cmd) as [i|]; simpl; [|done].
  destruct (Z.eqb_spec (bi_pool i) pool) as [->|Hn]; simpl.
  - by rewrite bool_decide_eq_true_2.
  - by rewrite bool_decide_eq_false_2 by congruence.
Qed.

Lemma allocate_flags pool l cmd d :
  IsFrameBoundary cmd (fold_left (fun m cmd => <[cmd := mkBoundaryInfo pool false]> m) l d) =
  negb (bool_decide (cmd ∈ l)) && IsFrameBoundary cmd d.
Proof.
  revert d. induction l as [|c l IH]; intros d; simpl; [done|].
  rewrite IH, IsFrameBoundary_insert.
  rewrite (bool_decide_ext (cmd ∈ c :: l) (c = cmd \/ cmd ∈ l)), bool_decide_or
    by (rewrite elem_of_cons; intuition).
  by destruct (bool_decide (c = cmd)), (bool_decide (cmd ∈ l)).
Qed.

Lemma free_flags l cmd (d : FrameBoundaryDetector) :
  IsFrameBoundary cmd (fold_left (fun m cmd => delete cmd m) l d) =
  negb (bool_decide (cmd ∈ l)) && IsFrameBoundary cmd d.
Proof.
  revert d. induction l as [|c l IH]; intros d; simpl; [done|].
  rewrite IH.
  rewrite (bool_decide_ext (cmd ∈ c :: l) (c = cmd \/ cmd ∈ l)), bool_decide_or
    by (rewrite elem_of_cons; intuition).
  unfold IsFrameBoundary. rewrite lookup_delete.
  destruct (decide (c = cmd)) as [->|Hc];
    [rewrite (bool_decide_eq_true_2 (cmd = cmd)) by done
    |rewrite (bool_decide_eq_false_2 (c = cmd)) by done];
    by destruct (bool_decide (cmd ∈ l)).
Qed.

(** Flags that are the old ones outside a set. *)
Lemma flagged_difference d d' (P : gset VkCommandBuffer) :
  (forall c, IsFrameBoundary c d' = negb (bool_decide (c ∈ P)) && IsFrameBoundary c d) ->
  flagged d' = flagged d ∖ P.
Proof.
  intros Hf. apply set_eq. intros c. rewrite elem_of_difference, !elem_of_flagged, Hf.
  rewrite andb_true_iff, negb_true_iff, bool_decide_eq_false. tauto.
Qed.

Lemma clear_all_tracked l d : tracked (fold_left clear_boundary l d) = tracked d.
Proof.
  revert d. induction l as [|c l IH]; intros d; simpl; [done|]. by rewrite IH, clear_boundary_tracked.
Qed.

(** ** Properties *)

(** The detector implements the abstract one: a set of flagged command
    buffers. The delimiter label flags exactly its command buffer and is
    refused, with nothing changed, when the buffer is not tracked; any other
    label changes nothing. A submission contains a frame boundary exactly when
    it submits a flagged buffer, and clearing unflags exactly what was
    submitted. A reset unflags one buffer, a pool reset the buffers of the
    pool, and neither changes what is tracked; an allocation of primary buffers
    and a free unflag the buffers they name. *)
Theorem detector_refines (d : FrameBoundaryDetector) cmd submits pool info cmds :
  (let '(st, d') := MarkBoundary cmd (Some kVulkanVrFrameDelimiterString) d in
   if bool_decide (is_Some (tracked d !! cmd))
   then bs_success st = true /\ flagged d' = {[ cmd ]} ∪ flagged d /\ tracked d' = tracked d
   else bs_success st = false /\ d' = d) /\
  (forall name, name <> kVulkanVrFrameDelimiterString ->
     MarkBoundary cmd (Some name) d = (BoundaryOk, d)) /\
  (ContainsFrameBoundary (Some submits) d = true <->
     exists c, c ∈ all_submitted submits /\ c ∈ flagged d) /\
  flagged (ClearBoundaryFlags (Some submits) d) = flagged d ∖ list_to_set (all_submitted submits) /\
  tracked (ClearBoundaryFlags (Some submits) d) = tracked d /\
  flagged (Detector_OnResetCommandBuffer cmd d) = flagged d ∖ {[ cmd ]} /\
  tracked (Detector_OnResetCommandBuffer cmd d) = tracked d /\
  (forall c, c ∈ flagged (Detector_OnResetCommandPool pool d) <->
     c ∈ flagged d /\ tracked d !! c <> Some pool) /\
  tracked (Detector_OnResetCommandPool pool d) = tracked d /\
  flagged (Detector_OnAllocateCommandBuffers (Some info) (Some cmds) d) =
    (if level_secondary info then flagged d
     else flagged d ∖ list_to_set (take (allocateCount info) cmds)) /\
  flagged (Detector_OnFreeCommandBuffers (length cmds) (Some cmds) d) =
    flagged d ∖ list_to_set cmds.
Proof.
  split_and!.
  - unfold MarkBoundary. rewrite bool_decide_eq_true_2 by done.
    assert (tracked d !! cmd = bi_pool <$> (d !! cmd)) as Ht by apply lookup_fmap.
    rewrite Ht. destruct (d !! cmd) as [i|] eqn:E; simpl; [|done]. split; [done|]. split.
    + apply set_eq. intros c. rewrite elem_of_union, elem_of_singleton, !elem_of_flagged,
        IsFrameBoundary_insert. case_bool_decide; simpl; intuition congruence.
    + unfold tracked. rewrite fmap_insert. apply insert_id. by rewrite lookup_fmap, E.
  - intros name Hn. unfold MarkBoundary. by rewrite bool_decide_eq_false_2 by congruence.
  - apply contains_iff.
  - rewrite clear_all_eq. apply flagged_difference. intros c. rewrite clear_boundaries_flags.
    f_equal. f_equal. apply bool_decide_ext. by rewrite elem_of_list_to_set.
  - rewrite clear_all_eq. apply clear_all_tracked.
  - apply flagged_difference. intros c. rewrite alter_flags. f_equal. f_equal.
    apply bool_decide_ext. rewrite elem_of_singleton. naive_solver.
  - unfold tracked, Detector_OnResetCommandBuffer. apply map_eq. intros c.
    rewrite !lookup_fmap. destruct (decide (cmd = c)) as [->|Hc];
      [rewrite lookup_alter_eq|by rewrite lookup_alter_ne]. by destruct (d !! c).
  - intros c. rewrite !elem_of_flagged, reset_pool_flags.
    rewrite andb_true_iff, negb_true_iff, bool_decide_eq_false. tauto.
  - unfold tracked, Detector_OnResetCommandPool. rewrite <- map_fmap_compose.
    apply map_fmap_ext. intros c i _. unfold compose. by destruct (bi_pool i =? pool).
  - unfold Detector_OnAllocateCommandBuffers. destruct (level_secondary info); [done|].
    apply flagged_difference. intros c. rewrite allocate_flags. f_equal. f_equal.
    apply bool_decide_ext. by rewrite elem_of_list_to_set.
  - unfold Detector_OnFreeCommandBuffers. rewrite firstn_all.
    apply flagged_difference. intros c. rewrite free_flags. f_equal. f_equal.
    apply bool_decide_ext. by rewrite elem_of_list_to_set.
Qed.
