(* ===== verification/SlotAllocator.v ===== *)
(** * SlotAllocator: timestamp slots in a query pool

    Models [GPUTime::TimeStampSlotAllocator] of [src/gpu_time/gpu_time.{h,cpp}]:
    8192 slots, one bit each in 128 words of 64 bits, handed out in a next-fit
    order. [GPUTime] calls it with its mutex held, so the compare-and-exchange
    loops run without interference: a spurious failure only repeats the
    iteration, and the exchange is modelled as the update it ends with.

    [FreeSlots] indexes the array with whatever slot it is given; [None] is an
    access outside of it. *)

From S2P Require Import Prelude.

Definition kSlotsPerBlock : Z := 64.
Definition kNumBlocks : Z := 128.
Definition kTotalSlots : Z := kSlotsPerBlock * kNumBlocks.
Definition kInvalidIndex : Z := wrap 32 (-1).

Record TimeStampSlotAllocator := mkAllocator {
  m_masks : list Z;
  m_cur : Z
}.

Definition Allocator_Reset : TimeStampSlotAllocator :=
  mkAllocator (replicate (Z.to_nat kNumBlocks) 0) 0.

(** [m_masks[block_idx]] for an index in range. *)
Definition block (a : TimeStampSlotAllocator) (block_idx : Z) : Z :=
  default 0 (m_masks a !! Z.to_nat block_idx).

(** The [for] loop over [i], [n] iterations before its end. *)
Fixpoint allocate_loop (n : nat) (a : TimeStampSlotAllocator) (current_idx i : Z)
  : Z * TimeStampSlotAllocator :=
  match n with
  | O => (kInvalidIndex, a)
  | S n =>
      let slot_idx := wrap 32 (current_idx + i) mod kTotalSlots in
      let block_idx := slot_idx / kSlotsPerBlock in
      let bit_idx := slot_idx mod kSlotsPerBlock in
      let mask := wrap 64 (Z.shiftl 1 bit_idx) in
      let old_mask := block a block_idx in
      if Z.land old_mask mask =? 0 then
        (slot_idx, mkAllocator (<[Z.to_nat block_idx := Z.lor old_mask mask]> (m_masks a))
                               (wrap 32 (slot_idx + 1) mod kTotalSlots))
      else allocate_loop n a current_idx (i + 1)
  end.

Definition AllocateSlot (a : TimeStampSlotAllocator) : Z * TimeStampSlotAllocator :=
  allocate_loop (Z.to_nat kTotalSlots) a (m_cur a) 0.

Definition FreeSlot (slot : Z) (a : TimeStampSlotAllocator) : option TimeStampSlotAllocator :=
  let block_idx := slot / kSlotsPerBlock in
  let bit_idx := slot mod kSlotsPerBlock in
  let mask := wrap 64 (Z.shiftl 1 bit_idx) in
  match m_masks a !! Z.to_nat block_idx with
  | None => None
  | Some old_mask =>
      if Z.land old_mask mask =? 0 then Some a
      else Some (mkAllocator (<[Z.to_nat block_idx := Z.land old_mask (wrap 64 (Z.lnot mask))]> (m_masks a))
                             (m_cur a))
  end.

Fixpoint FreeSlots (slots : list Z) (a : TimeStampSlotAllocator) : option TimeStampSlotAllocator :=
  match slots with
  | [] => Some a
  | slot :: slots => match FreeSlot slot a with None => None | Some a => FreeSlots slots a end
  end.

(** ** The allocator as a set of slots *)

Definition valid_slot (s : Z) : Prop := 0 <= s < kTotalSlots.

Definition taken (a : TimeStampSlotAllocator) (s : Z) : bool :=
  Z.testbit (block a (s / kSlotsPerBlock)) (s mod kSlotsPerBlock).

Lemma kInvalidIndex_invalid : ~ valid_slot kInvalidIndex.
Proof. intros [_ Hlt]. vm_compute in Hlt. discriminate Hlt. Qed.

Lemma kInvalidIndex_large : kTotalSlots <= kInvalidIndex.
Proof. intros E. vm_compute in E. discriminate E. Qed.

Record allocator_inv (a : TimeStampSlotAllocator) : Prop := mkAllocatorInv {
  inv_blocks : length (m_masks a) = Z.to_nat kNumBlocks;
  inv_cur : valid_slot (m_cur a)
}.

#[local] Ltac slots := unfold valid_slot, kTotalSlots, kSlotsPerBlock, kNumBlocks in *.

Lemma mask_eq b : 0 <= b < 64 -> wrap 64 (Z.shiftl 1 b) = 2 ^ b.
Proof.
  intros Hb. rewrite Z.shiftl_1_l. apply wrap_small. split; [apply Z.pow_nonneg; lia|].
  apply Z.pow_lt_mono_r; lia.
Qed.

Lemma land_pow2_zero m b : 0 <= b -> (Z.land m (2 ^ b) =? 0) = negb (Z.testbit m b).
Proof.
  intros Hb. destruct (Z.testbit m b) eqn:E; simpl.
  - apply Z.eqb_neq. intros E0.
    assert (Z.testbit (Z.land m (2 ^ b)) b = false) as Hf by (rewrite E0; apply Z.bits_0).
    by rewrite Z.land_spec, E, Z.pow2_bits_true in Hf.
  - apply Z.eqb_eq. apply Z.bits_inj'. intros n Hn. rewrite Z.bits_0, Z.land_spec.
    destruct (Z.eq_dec b n) as [->|Hne]; [by rewrite E|].
    by rewrite (Z.pow2_bits_false b n), andb_false_r by lia.
Qed.

Lemma slot_split s : valid_slot s ->
  0 <= s / kSlotsPerBlock < kNumBlocks /\ 0 <= s mod kSlotsPerBlock < kSlotsPerBlock /\
  s = kSlotsPerBlock * (s / kSlotsPerBlock) + s mod kSlotsPerBlock.
Proof.
  slots. intros Hs. repeat split; try apply Z.mod_pos_bound; try apply Z.div_pos; try lia.
  - apply Z.div_lt_upper_bound; lia.
  - apply Z.div_mod. lia.
Qed.

(** Changing one bit of one block. *)
Lemma taken_update a s old new f t :
  allocator_inv a -> valid_slot s -> valid_slot t ->
  m_masks a !! Z.to_nat (s / kSlotsPerBlock) = Some old ->
  (forall b, 0 <= b < 64 -> Z.testbit new b = f (Z.eqb b (s mod kSlotsPerBlock)) (Z.testbit old b)) ->
  (forall x, f false x = x) ->
  Z.testbit (default 0 (<[Z.to_nat (s / kSlotsPerBlock) := new]> (m_masks a)
                          !! Z.to_nat (t / kSlotsPerBlock))) (t mod kSlotsPerBlock)
  = f (t =? s) (taken a t).
Proof.
  intros Hinv Hs Ht Hold Hnew Hf. unfold taken, block.
  destruct (slot_split s Hs) as (Hsb & Hsm & Hse), (slot_split t Ht) as (Htb & Htm & Hte).
  destruct (Z.eq_dec (s / kSlotsPerBlock) (t / kSlotsPerBlock)) as [E|E].
  - rewrite <- E, list_lookup_insert_eq by (rewrite (inv_blocks a Hinv); lia).
    rewrite Hold. simpl. rewrite Hnew by exact Htm. f_equal.
    apply eq_iff_eq_true. rewrite !Z.eqb_eq. lia.
  - rewrite list_lookup_insert_ne by lia.
    replace (t =? s) with false by (symmetry; apply Z.eqb_neq; intros ->; done). by rewrite Hf.
Qed.

Lemma block_lookup a s : allocator_inv a -> valid_slot s ->
  m_masks a !! Z.to_nat (s / kSlotsPerBlock) = Some (block a (s / kSlotsPerBlock)).
Proof.
  intros Hinv Hs. destruct (slot_split s Hs) as (Hsb & _ & _). unfold block.
  destruct (lookup_lt_is_Some_2 (m_masks a) (Z.to_nat (s / kSlotsPerBlock))) as [x ->]; [|done].
  rewrite (inv_blocks a Hinv). lia.
Qed.

(** The bit test of both functions is [taken]. *)
Lemma test_taken a s : valid_slot s ->
  (Z.land (block a (s / kSlotsPerBlock)) (wrap 64 (Z.shiftl 1 (s mod kSlotsPerBlock))) =? 0)
  = negb (taken a s).
Proof.
  intros Hs. destruct (slot_split s Hs) as (_ & Hm & _).
  rewrite mask_eq by exact Hm. apply land_pow2_zero. lia.
Qed.

Lemma Reset_inv : allocator_inv Allocator_Reset.
Proof. split; [apply length_replicate|]. slots. simpl. lia. Qed.

Lemma Reset_taken s : taken Allocator_Reset s = false.
Proof.
  unfold taken, block, Allocator_Reset. cbn [m_masks].
  destruct (replicate _ 0 !! _) as [x|] eqn:E; simpl; [|apply Z.bits_0].
  apply lookup_replicate in E as [-> _]. apply Z.bits_0.
Qed.

(** ** Allocation *)

Lemma set_taken a s cur : allocator_inv a -> valid_slot s -> valid_slot cur ->
  let a' := mkAllocator (<[Z.to_nat (s / kSlotsPerBlock) :=
      Z.lor (block a (s / kSlotsPerBlock)) (wrap 64 (Z.shiftl 1 (s mod kSlotsPerBlock)))]> (m_masks a)) cur in
  allocator_inv a' /\ forall t, valid_slot t -> taken a' t = (t =? s) || taken a t.
Proof.
  intros Hinv Hs Hcur a'. subst a'. split.
  - split; cbn [m_masks m_cur]; [rewrite length_insert; apply Hinv|done].
  - intros t Ht. unfold taken at 1, block at 1. cbn [m_masks].
    rewrite (taken_update a s _ _ orb t Hinv Hs Ht (block_lookup a s Hinv Hs)); [done| |done].
    intros b Hb. destruct (slot_split s Hs) as (_ & Hm & _).
    rewrite mask_eq by exact Hm. rewrite Z.lor_spec, Z.pow2_bits_eqb, Z.eqb_sym by lia. apply orb_comm.
Qed.

Lemma allocate_loop_spec n a cur i :
  allocator_inv a -> valid_slot cur -> 0 <= i -> i + Z.of_nat n <= kTotalSlots ->
  let '(s, a') := allocate_loop n a cur i in
  (s = kInvalidIndex /\ a' = a /\
     forall k, i <= k < i + Z.of_nat n -> taken a ((cur + k) mod kTotalSlots) = true) \/
  (exists k, i <= k < i + Z.of_nat n /\ s = (cur + k) mod kTotalSlots /\
     (forall j, i <= j < k -> taken a ((cur + j) mod kTotalSlots) = true) /\
     taken a s = false /\ allocator_inv a' /\ m_cur a' = (s + 1) mod kTotalSlots /\
     forall t, valid_slot t -> taken a' t = (t =? s) || taken a t).
Proof.
  intros Hinv Hcur. revert i. induction n as [|n IH]; intros i Hi Hn; cbn [allocate_loop].
  - left. repeat split; try done. lia.
  - rewrite wrap_small by (slots; unfold in_width; lia).
    set (s := (cur + i) mod kTotalSlots).
    assert (valid_slot s) as Hs by (apply Z.mod_pos_bound; slots; lia).
    rewrite test_taken by done. destruct (taken a s) eqn:Ht; cbn [negb].
    + specialize (IH (i + 1)). destruct (allocate_loop n a cur (i + 1)) as [s' a'].
      destruct IH as [(-> & -> & Hall)|(k & Hk & -> & Hall & Hf & Hrest)]; [lia|lia| |].
      * left. repeat split; try done. intros k Hk.
        destruct (Z.eq_dec k i) as [->|]; [done|]. apply Hall. lia.
      * right. exists k. repeat split; try lia; try apply Hrest; try done.
        intros j Hj. destruct (Z.eq_dec j i) as [->|]; [done|]. apply Hall. lia.
    + right. exists i. split; [lia|]. split; [done|]. split; [lia|]. split; [done|].
      rewrite (wrap_small 32 (s + 1)) by (slots; unfold in_width; lia).
      assert (valid_slot ((s + 1) mod kTotalSlots)) as Hc by (apply Z.mod_pos_bound; slots; lia).
      destruct (set_taken a s _ Hinv Hs Hc) as [H1 H2]. split; [done|]. by split.
Qed.

(** Every slot is some step away from the current one. *)
Lemma slot_distance cur t : valid_slot cur -> valid_slot t ->
  exists k, 0 <= k < kTotalSlots /\ t = (cur + k) mod kTotalSlots.
Proof.
  intros Hc Ht. exists ((t - cur) mod kTotalSlots). split; [apply Z.mod_pos_bound; slots; lia|].
  rewrite Zplus_mod_idemp_r. replace (cur + (t - cur)) with t by lia.
  symmetry. by apply Z.mod_small.
Qed.

Lemma AllocateSlot_spec a : allocator_inv a ->
  let '(s, a') := AllocateSlot a in
  allocator_inv a' /\
  ((s = kInvalidIndex /\ a' = a /\ forall t, valid_slot t -> taken a t = true) \/
   (valid_slot s /\ taken a s = false /\ forall t, valid_slot t -> taken a' t = (t =? s) || taken a t)).
Proof.
  intros Hinv. pose proof (allocate_loop_spec (Z.to_nat kTotalSlots) a (m_cur a) 0 Hinv (inv_cur a Hinv))
    as HA.
  unfold AllocateSlot. destruct (allocate_loop _ a (m_cur a) 0) as [s a'].
  destruct HA as [(-> & -> & Hall)|(k & Hk & -> & _ & Hf & Hinv' & _ & Ht)]; [lia|slots; lia| |].
  - split; [done|]. left. repeat split; try done. intros t Ht.
    destruct (slot_distance (m_cur a) t (inv_cur a Hinv) Ht) as (k & Hk & ->).
    apply Hall. slots. lia.
  - split; [done|]. right. split; [apply Z.mod_pos_bound; slots; lia|]. done.
Qed.

(** ** Freeing *)

Lemma FreeSlot_spec s a : allocator_inv a -> valid_slot s ->
  exists a', FreeSlot s a = Some a' /\ allocator_inv a' /\ m_cur a' = m_cur a /\
    forall t, valid_slot t -> taken a' t = negb (t =? s) && taken a t.
Proof.
  intros Hinv Hs. unfold FreeSlot. rewrite (block_lookup a s Hinv Hs), test_taken by done.
  destruct (taken a s) eqn:Ht; cbn [negb].
  - eexists. split; [done|]. split; [|split; [done|]].
    + split; cbn [m_masks m_cur]; [rewrite length_insert|]; apply Hinv.
    + intros t Hvt. unfold taken at 1, block at 1. cbn [m_masks].
      rewrite (taken_update a s _ _ (fun x y => negb x && y) t Hinv Hs Hvt (block_lookup a s Hinv Hs));
        [done| |done].
      intros b Hb. destruct (slot_split s Hs) as (_ & Hm & _).
      rewrite mask_eq by exact Hm. rewrite Z.land_spec. unfold wrap.
      rewrite Z.mod_pow2_bits_low by lia. rewrite Z.lnot_spec, Z.pow2_bits_eqb, Z.eqb_sym by lia.
      apply andb_comm.
  - exists a. repeat split; try done; try apply Hinv. intros t Hvt.
    destruct (Z.eqb_spec t s) as [->|]; [by rewrite Ht|done].
Qed.

Lemma FreeSlots_spec slots a : allocator_inv a -> Forall valid_slot slots ->
  exists a', FreeSlots slots a = Some a' /\ allocator_inv a' /\
    forall t, valid_slot t -> taken a' t = negb (bool_decide (t ∈ slots)) && taken a t.
Proof.
  revert a. induction slots as [|s slots IH]; intros a Hinv Hall; cbn [FreeSlots].
  - exists a. repeat split; try done; apply Hinv.
  - apply Forall_cons in Hall as [Hs Hall].
    destruct (FreeSlot_spec s a Hinv Hs) as (a1 & -> & Hinv1 & _ & Ht1).
    destruct (IH a1 Hinv1 Hall) as (a2 & -> & Hinv2 & Ht2). exists a2. split; [done|].
    split; [done|]. intros t Hvt. rewrite Ht2, Ht1 by done.
    rewrite (bool_decide_ext (t ∈ s :: slots) (t = s \/ t ∈ slots)), bool_decide_or
      by (by rewrite elem_of_cons).
    replace (bool_decide (t = s)) with (t =? s)
      by (destruct (Z.eqb_spec t s); [by rewrite bool_decide_eq_true_2|by rewrite bool_decide_eq_false_2]).
    by destruct (t =? s), (bool_decide (t ∈ slots)).
Qed.

Lemma FreeSlots_out_of_bounds slots s a :
  allocator_inv a -> kTotalSlots <= s -> s ∈ slots ->
  (forall t, t ∈ slots -> valid_slot t \/ kTotalSlots <= t) -> FreeSlots slots a = None.
Proof.
  intros Hinv Hbad. revert a Hinv. induction slots as [|x slots IH]; intros a Hinv Hin Hall.
  - by apply elem_of_nil in Hin.
  - cbn [FreeSlots]. destruct (Hall x) as [Hx|Hx]; [by left| |].
    + destruct (FreeSlot_spec x a Hinv Hx) as (a1 & -> & Hinv1 & _).
      apply IH; [done| |intros t Ht; apply Hall; by right].
      apply elem_of_cons in Hin as [->|?]; [slots; lia|done].
    + unfold FreeSlot. assert (m_masks a !! Z.to_nat (x / kSlotsPerBlock) = None) as ->; [|done].
      apply lookup_ge_None_2. rewrite (inv_blocks a Hinv).
      assert (kNumBlocks <= x / kSlotsPerBlock) by (apply Z.div_le_lower_bound; slots; lia). lia.
Qed.

(** ** The set of live slots *)

Definition live (a : TimeStampSlotAllocator) : gset Z :=
  list_to_set (filter (fun s => taken a s = true) (seqZ 0 kTotalSlots)).

Lemma elem_of_live a s : s ∈ live a <-> valid_slot s /\ taken a s = true.
Proof.
  unfold live. rewrite elem_of_list_to_set, list_elem_of_filter, elem_of_seqZ.
  unfold valid_slot. split; intros; [|split]; tauto || lia.
Qed.

(** ** Properties *)

(** C6: the allocator implements a set of live slots, of which none is ever
    given out twice. [AllocateSlot] gives the first free slot at or after the
    cursor, going round the 8192 slots, adds exactly it to the set and moves the
    cursor behind it; it gives [kInvalidIndex], and changes nothing, exactly
    when all slots are live. [FreeSlots] of slots in range removes exactly them
    (free or not, repeated or not); of a list with a slot out of range, such as
    [kInvalidIndex] itself, it leaves the array of masks. *)
Theorem slot_allocator_refines (a : TimeStampSlotAllocator) (slots : list Z) :
  allocator_inv a ->
  (let '(s, a') := AllocateSlot a in
   allocator_inv a' /\
   (if bool_decide (s = kInvalidIndex) then a' = a /\ forall t, valid_slot t -> t ∈ live a
   else (s ∉ live a) /\ live a' = ({[ s ]} ∪ live a) /\ m_cur a' = (s + 1) mod kTotalSlots /\
        exists k, 0 <= k < kTotalSlots /\ s = (m_cur a + k) mod kTotalSlots /\
          forall j, 0 <= j < k -> (m_cur a + j) mod kTotalSlots ∈ live a)) /\
  (Forall valid_slot slots ->
   exists a', FreeSlots slots a = Some a' /\ allocator_inv a' /\
     live a' = live a ∖ list_to_set slots) /\
  (Forall (fun s => 0 <= s) slots -> Exists (fun s => kTotalSlots <= s) slots ->
   FreeSlots slots a = None) /\
  live Allocator_Reset = ∅.
Proof.
  intros Hinv. split_and!.
  - pose proof (allocate_loop_spec (Z.to_nat kTotalSlots) a (m_cur a) 0 Hinv (inv_cur a Hinv)) as HA.
    unfold AllocateSlot. destruct (allocate_loop _ a (m_cur a) 0) as [s a'].
    assert (forall k, valid_slot ((m_cur a + k) mod kTotalSlots)) as Hv
      by (intros; apply Z.mod_pos_bound; slots; lia).
    destruct HA as [(-> & -> & Hall)|(k & Hk & -> & Hall & Hf & Hinv' & Hcur & Ht)]; [lia|slots; lia| |].
    + split; [done|]. rewrite bool_decide_eq_true_2 by done. split; [done|].
      intros t Hvt. apply elem_of_live. split; [done|].
      destruct (slot_distance (m_cur a) t (inv_cur a Hinv) Hvt) as (k & Hk & ->).
      apply Hall. slots. lia.
    + split; [done|]. specialize (Hv k) as Hvk. rewrite bool_decide_eq_false_2.
      2: { intros E. rewrite E in Hvk. by apply kInvalidIndex_invalid in Hvk. }
      split; [rewrite elem_of_live; intros [_ ?]; congruence|]. split; [|split; [done|]].
      * apply set_eq. intros t. rewrite elem_of_union, elem_of_singleton, !elem_of_live. split.
        -- intros [Hvt Htt]. rewrite Ht, orb_true_iff, Z.eqb_eq in Htt by done. tauto.
        -- intros [->|[Hvt Htt]]; (split; [done|]); rewrite Ht by done; [by rewrite Z.eqb_refl|].
           by rewrite Htt, orb_true_r.
      * exists k. split; [slots; lia|]. split; [done|]. intros j Hj. apply elem_of_live.
        split; [done|]. by apply Hall.
  - intros Hall. destruct (FreeSlots_spec slots a Hinv Hall) as (a' & E & Hinv' & Ht).
    exists a'. split; [done|]. split; [done|]. apply set_eq. intros t.
    rewrite elem_of_difference, elem_of_list_to_set, !elem_of_live. split.
    + intros [Hvt Htt]. rewrite Ht, andb_true_iff, negb_true_iff, bool_decide_eq_false in Htt by done.
      tauto.
    + intros [[Hvt Htt] Hn]. split; [done|]. rewrite Ht, Htt by done.
      by rewrite bool_decide_eq_false_2.
  - intros Hpos Hex. apply Exists_exists in Hex as (s & Hs & Hbad).
    apply (FreeSlots_out_of_bounds slots s a Hinv Hbad Hs).
    intros t Ht. pose proof (proj1 (Forall_forall _ _) Hpos t Ht) as Hp. cbn in Hp. slots. lia.
  - apply set_eq. intros t. rewrite elem_of_live, elem_of_empty, Reset_taken. intuition discriminate.
Qed.

Lemma slot_allocator_refines_witness :
  exists a', FreeSlots [0; 1] Allocator_Reset = Some a' /\
    live a' = live Allocator_Reset ∖ list_to_set [0; 1].
Proof.
  destruct (slot_allocator_refines Allocator_Reset [0; 1] Reset_inv) as (_ & HF & _).
  destruct HF as (a' & E & _ & Hl).
  { repeat (apply Forall_cons; split; [split; [lia|reflexivity]|]). apply Forall_nil. exact I. }
  exists a'. split; [exact E|exact Hl].
Defined.
