(* ===== verification/FrameMetrics.v ===== *)
(** * FrameMetrics: the statistics of the last frames

    Models [GPUTime::FrameMetrics] and the two reports built from it,
    [GetStatsString] and [GetStatsCSVString], of [src/gpu_time/gpu_time.{h,cpp}].
    A [double] is an IEEE binary64 value, [spec_float] of the Standard Library,
    with its correctly rounded operations. A deque is a list, its front first;
    popping an empty one is undefined behaviour, [None]. *)

From S2P Require Import Prelude.
From Stdlib Require Import SpecFloat.
From stdpp Require Import sorting.

#[local] Open Scope Z_scope.

(** ** Doubles *)

Abbreviation double := spec_float.

Definition d_add : double -> double -> double := SFadd 53 1024.
Definition d_sub : double -> double -> double := SFsub 53 1024.
Definition d_mul : double -> double -> double := SFmul 53 1024.
Definition d_div : double -> double -> double := SFdiv 53 1024.
Definition d_sqrt : double -> double := SFsqrt 53 1024.
Definition d_ltb : double -> double -> bool := SFltb.

(** [static_cast<double>] of an unsigned integer. *)
Definition d_of_Z (z : Z) : double := binary_normalize 53 1024 z 0 false.

Definition d_zero : double := S754_zero false.
Definition d_max : double := S754_finite false 9007199254740991 971.
Definition d_lowest : double := S754_finite true 9007199254740991 971.

(** [std::min], [std::max]. *)
Definition std_min (a b : double) : double := if d_ltb b a then b else a.
Definition std_max (a b : double) : double := if d_ltb a b then b else a.

(** [std::sort]; of doubles that are not NaNs, the result is determined up to
    the order of zeros. *)
Fixpoint insert_sorted (x : double) (l : list double) : list double :=
  match l with
  | [] => [x]
  | y :: l' => if d_ltb y x then y :: insert_sorted x l' else x :: l
  end.

Definition std_sort (l : list double) : list double := fold_right insert_sorted [] l.

(** ** FrameMetrics *)

Definition kFrameMetricsLimit : nat := 1000.
Definition kInvalidRenderPassCount : Z := wrap 64 (-1).

Record Stats := mkStats { average : double; median : double; smin : double; smax : double; stddev : double }.

Definition default_Stats : Stats := mkStats d_zero d_zero d_max d_lowest d_zero.

Record FrameMetrics := mkMetrics {
  m_frame_time : list double;
  m_cmd_renderpass_count_vec : list Z;
  m_cmd_time_vec : list (list double);
  m_renderpass_time_vec : list (list double)
}.

Definition new_FrameMetrics : FrameMetrics := mkMetrics [] [] [] [].

Definition Metrics_Reset (m : FrameMetrics) : FrameMetrics :=
  mkMetrics [] (m_cmd_renderpass_count_vec m) [] [].

Definition pop_front {A} (l : list A) : option (list A) :=
  match l with [] => None | _ :: l => Some l end.

Definition AddFrameData (frame_time : double) (cmd_time_vec renderpass_time_vec : list double)
    (cmd_renderpass_count_vec : list Z) (m : FrameMetrics) : option FrameMetrics :=
  let new_frame_cmd_count := length cmd_time_vec in
  let new_frame_renderpass_count := length renderpass_time_vec in
  let m :=
    if negb (length (m_cmd_time_vec m) =? new_frame_cmd_count)%nat ||
       negb (length (m_renderpass_time_vec m) =? new_frame_renderpass_count)%nat then
      let m := Metrics_Reset m in
      mkMetrics (m_frame_time m) cmd_renderpass_count_vec
        (replicate new_frame_cmd_count []) (replicate new_frame_renderpass_count [])
    else m in
  popped ← (if (length (m_frame_time m) =? kFrameMetricsLimit)%nat then
       ft ← pop_front (m_frame_time m);
       cs ← mapM pop_front (m_cmd_time_vec m);
       rs ← mapM pop_front (m_renderpass_time_vec m);
       Some (mkMetrics ft (m_cmd_renderpass_count_vec m) cs rs)
     else Some m);
  Some (mkMetrics (m_frame_time popped ++ [frame_time]) (m_cmd_renderpass_count_vec popped)
    (zip_with (fun d x => d ++ [x]) (m_cmd_time_vec popped) cmd_time_vec)
    (zip_with (fun d x => d ++ [x]) (m_renderpass_time_vec popped) renderpass_time_vec)).

Definition CalculateAverage (data : list double) : double :=
  match data with
  | [] => d_zero
  | _ => d_div (fold_left d_add data d_zero) (d_of_Z (Z.of_nat (length data)))
  end.

Definition CalculateMedian (data : list double) : double :=
  match data with
  | [] => d_zero
  | _ =>
      let sorted_data := std_sort data in
      let size := length sorted_data in
      if (size mod 2 =? 0)%nat then
        let mid1 := nth (size / 2 - 1) sorted_data d_zero in
        let mid2 := nth (size / 2) sorted_data d_zero in
        d_div (d_add mid1 mid2) (d_of_Z 2)
      else nth (size / 2) sorted_data d_zero
  end.

Definition CalculateStdDev (data : list double) (average : double) : double :=
  if (length data <? 2)%nat then d_zero
  else
    let variance :=
      fold_left (fun v d => d_add v (d_mul (d_sub d average) (d_sub d average))) data d_zero in
    d_sqrt (d_div variance (d_of_Z (Z.of_nat (length data - 1)))).

Definition GetStatistics (data : list double) : Stats :=
  let mn := fold_left std_min data d_max in
  let mx := fold_left std_max data d_lowest in
  let avg := CalculateAverage data in
  mkStats avg (CalculateMedian data) mn mx (CalculateStdDev data avg).

Definition GetFrameTimeStats (m : FrameMetrics) : Stats := GetStatistics (m_frame_time m).

Definition GetFrameCmdTimeStats (index : nat) (m : FrameMetrics) : Stats :=
  match m_cmd_time_vec m !! index with Some data => GetStatistics data | None => default_Stats end.

Definition GetFrameRenderPassTimeStats (index : nat) (m : FrameMetrics) : Stats :=
  match m_renderpass_time_vec m !! index with
  | Some data => GetStatistics data
  | None => default_Stats
  end.

Definition GetFrameCmdCount (m : FrameMetrics) : nat := length (m_cmd_time_vec m).
Definition GetFrameRenderPassCount (m : FrameMetrics) : nat := length (m_renderpass_time_vec m).

Definition GetCmdRenderPassCount (index : nat) (m : FrameMetrics) : Z :=
  default kInvalidRenderPassCount (m_cmd_renderpass_count_vec m !! index).

(** ** Reports *)

(** The nearest integer to [n / 2^k], ties to even. *)
Definition round_shift (n k : Z) : Z :=
  let q := n / 2 ^ k in
  let r := n mod 2 ^ k in
  match (2 * r ?= 2 ^ k) with
  | Lt => q
  | Gt => q + 1
  | Eq => if Z.even q then q else q + 1
  end.

Definition pad (width : nat) (s : string) : string :=
  String.string_of_list_ascii (replicate (width - String.length s) (Ascii.ascii_of_nat 48)) +:+ s.

(** [std::fixed << std::setprecision(p)], for [p] at least 1. *)
Definition show_fixed (p : nat) (d : double) : string :=
  match d with
  | S754_nan => "nan"
  | S754_infinity s => if s then "-inf" else "inf"
  | S754_zero s => (if s then "-" else "") +:+ "0." +:+ pad p ""
  | S754_finite s m e =>
      let scale := 10 ^ Z.of_nat p in
      let n := if 0 <=? e then Z.pos m * 2 ^ e * scale else round_shift (Z.pos m * scale) (- e) in
      (if s then "-" else "") +:+ pretty (n / scale) +:+ "." +:+ pad p (pretty (n mod scale))
  end.

Definition newline : string := String (Ascii.ascii_of_nat 10) "".
Definition tab : string := String (Ascii.ascii_of_nat 9) "".

Definition PopulateStatsString (indent : string) (stats : Stats) : string :=
  indent +:+ "  Mean: " +:+ show_fixed 2 (average stats) +:+ " ms" +:+ newline
  +:+ indent +:+ "  Median: " +:+ show_fixed 2 (median stats) +:+ " ms" +:+ newline.

(** The inner loop of a report: [n] render passes from [index] on. *)
Fixpoint report_renderpasses (line : nat -> Stats -> string) (m : FrameMetrics) (n index : nat)
  : string :=
  match n with
  | O => ""
  | S n => line index (GetFrameRenderPassTimeStats index m) +:+ report_renderpasses line m n (S index)
  end.

(** The outer loop, over command buffers; [rp] is the running index of render
    passes. *)
Fixpoint report_cmds (line rp_line : nat -> Stats -> string) (m : FrameMetrics) (n i rp : nat)
  : string :=
  match n with
  | O => ""
  | S n =>
      let count := Z.to_nat (GetCmdRenderPassCount i m) in
      line i (GetFrameCmdTimeStats i m) +:+ report_renderpasses rp_line m count rp
      +:+ report_cmds line rp_line m n (S i) (rp + count)
  end.

Definition GetStatsString (m : FrameMetrics) (m_frame_index : Z) : string :=
  "Frame " +:+ pretty m_frame_index +:+ " processed successfully." +:+ newline
  +:+ "FrameMetrics:" +:+ newline
  +:+ PopulateStatsString "" (GetFrameTimeStats m)
  +:+ "Command Buffer Metrics:" +:+ newline
  +:+ report_cmds
        (fun i stats => tab +:+ "CommandBuffer" +:+ pretty (Z.of_nat i) +:+ ": " +:+ newline
                        +:+ PopulateStatsString tab stats)
        (fun i stats => tab +:+ tab +:+ "RenderPass" +:+ pretty (Z.of_nat i) +:+ ": " +:+ newline
                        +:+ PopulateStatsString (tab +:+ tab) stats)
        m (GetFrameCmdCount m) 0 0.

Definition csv_line (kind : string) (index : Z) (stats : Stats) : string :=
  kind +:+ "," +:+ pretty index +:+ "," +:+ show_fixed 3 (average stats) +:+ ","
  +:+ show_fixed 3 (median stats) +:+ newline.

Definition GetStatsCSVString (m : FrameMetrics) (m_frame_index : Z) : string :=
  csv_line "Frame" m_frame_index (GetFrameTimeStats m)
  +:+ report_cmds (fun i => csv_line "CommandBuffer" (Z.of_nat i))
                  (fun i => csv_line "RenderPass" (Z.of_nat i)) m (GetFrameCmdCount m) 0 0.

(** ** The order of doubles *)

Definition is_nan (d : double) : Prop := d = S754_nan.

(** Doubles that are not NaNs, as lexicographically ordered triples. *)
Definition key (d : double) : Z * Z * Z :=
  match d with
  | S754_zero _ | S754_nan => (0, 0, 0)
  | S754_infinity s => (if s then -2 else 2, 0, 0)
  | S754_finite true m e => (-1, -e, -Z.pos m)
  | S754_finite false m e => (1, e, Z.pos m)
  end.

Definition klt (x y : Z * Z * Z) : Prop :=
  let '(a, b, c) := x in let '(a', b', c') := y in
  a < a' \/ a = a' /\ (b < b' \/ b = b' /\ c < c').

Lemma ltb_key a b : ~ is_nan a -> ~ is_nan b -> d_ltb a b = true <-> klt (key a) (key b).
Proof.
  unfold is_nan, d_ltb, SFltb. intros Ha Hb.
  destruct a as [s|s| |s m e]; try done; destruct b as [s'|s'| |s' m' e']; try done;
    unfold SFcompare, key, klt; try (destruct s); try (destruct s'); try (split; done || lia).
  - destruct (Z.compare_spec e e') as [->|He|He]; [|split; done || lia..].
    change (Pos.compare_cont Eq m m') with (m ?= m')%positive.
    destruct (Pos.compare_spec m m') as [->|Hm|Hm]; simpl; split; done || lia.
  - destruct (Z.compare_spec e e') as [->|He|He]; [|split; done || lia..].
    change (Pos.compare_cont Eq m m') with (m ?= m')%positive.
    destruct (Pos.compare_spec m m') as [->|Hm|Hm]; simpl; split; done || lia.
Qed.

(** [d_le a b]: [b] is not smaller, the order behind [std::min] and sorting. *)
Definition d_le (a b : double) : Prop := d_ltb b a = false.

Lemma d_le_key a b : ~ is_nan a -> ~ is_nan b -> d_le a b <-> ~ klt (key b) (key a).
Proof. intros Ha Hb. unfold d_le. by rewrite <- not_true_iff_false, ltb_key. Qed.

#[local] Ltac by_keys :=
  rewrite ?d_le_key, ?ltb_key in * by done;
  repeat match goal with |- context [key ?x] => destruct (key x) as [[? ?] ?] end;
  repeat match goal with H : context [key ?x] |- _ => destruct (key x) as [[? ?] ?] end;
  unfold klt in *; lia.

Lemma d_le_trans a b c : ~ is_nan a -> ~ is_nan b -> ~ is_nan c -> d_le a b -> d_le b c -> d_le a c.
Proof. intros Ha Hb Hc Hab Hbc. by_keys. Qed.

Lemma d_lt_le a b : ~ is_nan a -> ~ is_nan b -> d_ltb a b = true -> d_le a b.
Proof. intros Ha Hb Hab. by_keys. Qed.

Lemma d_le_refl a : ~ is_nan a -> d_le a a.
Proof. intros Ha. by_keys. Qed.

(** ** Sorting *)

Lemma insert_sorted_perm x l : insert_sorted x l ≡ₚ x :: l.
Proof.
  induction l as [|y l IH]; simpl; [done|]. destruct (d_ltb y x); [|done].
  rewrite IH. apply Permutation_swap.
Qed.

Lemma std_sort_perm l : std_sort l ≡ₚ l.
Proof. induction l as [|x l IH]; simpl; [done|]. by rewrite insert_sorted_perm, IH. Qed.

Definition no_nan (l : list double) : Prop := Forall (fun d => ~ is_nan d) l.

Lemma insert_sorted_sorted x l :
  no_nan (x :: l) -> StronglySorted d_le l -> StronglySorted d_le (insert_sorted x l).
Proof.
  unfold no_nan. rewrite Forall_cons. intros [Hx Hl] Hs.
  induction Hs as [|y l Hs IH Hy]; simpl; [repeat constructor|].
  apply Forall_cons in Hl as [Hny Hl]. destruct (d_ltb y x) eqn:E.
  - constructor; [by apply IH|]. rewrite insert_sorted_perm. constructor; [by apply d_lt_le|done].
  - constructor; [by constructor|]. constructor; [exact E|].
    eapply Forall_impl; [apply Forall_and; split; [exact Hy|exact Hl]|].
    intros z [Hyz Hz]. by apply (d_le_trans x y z).
Qed.

Lemma std_sort_sorted l : no_nan l -> StronglySorted d_le (std_sort l).
Proof.
  induction l as [|x l IH]; intros Hl; simpl; [constructor|].
  pose proof Hl as Hl'. apply Forall_cons in Hl' as [Hx Hl'].
  apply insert_sorted_sorted; [|by apply IH].
  constructor; [done|]. by rewrite std_sort_perm.
Qed.

(** ** Extremes *)

Lemma fold_min_spec l acc : no_nan (acc :: l) ->
  let r := fold_left std_min l acc in
  (r = acc \/ r ∈ l) /\ ~ is_nan r /\ d_le r acc /\ Forall (d_le r) l.
Proof.
  revert acc. induction l as [|x l IH]; intros acc Hn; simpl.
  - apply Forall_cons in Hn as [Ha _]. repeat split; auto using d_le_refl.
  - apply Forall_cons in Hn as [Ha Hn]. apply Forall_cons in Hn as [Hx Hn].
    assert (std_min acc x = (if d_ltb x acc then x else acc)) as E by done.
    destruct (IH (std_min acc x)) as (Hr & Hnr & Hle & Hall).
    { constructor; [|done]. rewrite E. by destruct (d_ltb x acc). }
    set (r := fold_left std_min l (std_min acc x)) in *. rewrite E in *.
    destruct (d_ltb x acc) eqn:Hlt.
    + repeat split; try done.
      * right. rewrite elem_of_cons. tauto.
      * apply (d_le_trans r x acc); try done. by apply d_lt_le.
      * by constructor.
    + repeat split; try done.
      * rewrite elem_of_cons. tauto.
      * constructor; [|done]. by apply (d_le_trans r acc x).
Qed.

Lemma fold_max_spec l acc : no_nan (acc :: l) ->
  let r := fold_left std_max l acc in
  (r = acc \/ r ∈ l) /\ ~ is_nan r /\ d_le acc r /\ Forall (fun x => d_le x r) l.
Proof.
  revert acc. induction l as [|x l IH]; intros acc Hn; simpl.
  - apply Forall_cons in Hn as [Ha _]. repeat split; auto using d_le_refl.
  - apply Forall_cons in Hn as [Ha Hn]. apply Forall_cons in Hn as [Hx Hn].
    assert (std_max acc x = (if d_ltb acc x then x else acc)) as E by done.
    destruct (IH (std_max acc x)) as (Hr & Hnr & Hle & Hall).
    { constructor; [|done]. rewrite E. by destruct (d_ltb acc x). }
    set (r := fold_left std_max l (std_max acc x)) in *. rewrite E in *.
    destruct (d_ltb acc x) eqn:Hlt.
    + repeat split; try done.
      * right. rewrite elem_of_cons. tauto.
      * apply (d_le_trans acc x r); try done. by apply d_lt_le.
      * by constructor.
    + repeat split; try done.
      * rewrite elem_of_cons. tauto.
      * constructor; [|done]. by apply (d_le_trans x acc r).
Qed.

(** A fold that stays at its start value meets an element equal to it. *)
Lemma key_between x d : ~ is_nan x -> ~ is_nan d -> d_le x d -> d_le d x -> key d = key x.
Proof.
  intros Hx Hd. rewrite !d_le_key by done.
  destruct (key x) as [[a b] c], (key d) as [[a' b'] c']. unfold klt. intros H1 H2.
  f_equal; [f_equal|]; lia.
Qed.

Lemma between_max d : ~ is_nan d -> d_le d_max d -> d_le d d_max -> d = d_max.
Proof.
  intros Hd H1 H2. pose proof (key_between d_max d ltac:(done) Hd H1 H2) as E.
  unfold d_max in *. destruct d as [s|[]| |[] m e]; cbn in E; try done.
  by injection E as -> ->.
Qed.

Lemma between_lowest d : ~ is_nan d -> d_le d_lowest d -> d_le d d_lowest -> d = d_lowest.
Proof.
  intros Hd H1 H2. pose proof (key_between d_lowest d ltac:(done) Hd H1 H2) as E.
  unfold d_lowest in *. destruct d as [s|[]| |[] m e]; cbn in E; try done.
  injection E as He ->. f_equal. lia.
Qed.

Lemma fold_min_member data :
  no_nan data -> Forall (fun d => d_le d d_max) data -> data <> [] ->
  fold_left std_min data d_max ∈ data /\ Forall (d_le (fold_left std_min data d_max)) data.
Proof.
  intros Hn Hhi Hne. destruct (fold_min_spec data d_max) as (Hr & _ & _ & Hall); [by constructor|].
  split; [|done]. destruct Hr as [Hr|Hr]; [|done]. rewrite Hr in Hall |- *.
  destruct data as [|d data]; [done|].
  rewrite (between_max d);
    [by left|exact (Forall_inv Hn)|exact (Forall_inv Hall)|exact (Forall_inv Hhi)].
Qed.

Lemma fold_max_member data :
  no_nan data -> Forall (d_le d_lowest) data -> data <> [] ->
  fold_left std_max data d_lowest ∈ data /\
  Forall (fun d => d_le d (fold_left std_max data d_lowest)) data.
Proof.
  intros Hn Hlo Hne. destruct (fold_max_spec data d_lowest) as (Hr & _ & _ & Hall); [by constructor|].
  split; [|done]. destruct Hr as [Hr|Hr]; [|done]. rewrite Hr in Hall |- *.
  destruct data as [|d data]; [done|].
  rewrite (between_lowest d);
    [by left|exact (Forall_inv Hn)|exact (Forall_inv Hlo)|exact (Forall_inv Hall)].
Qed.

(** ** The sliding window *)

(** The last [kFrameMetricsLimit] elements after one more. *)
Definition window (l : list double) (x : double) : list double :=
  let l' := l ++ [x] in drop (length l' - kFrameMetricsLimit) l'.

(** The series of a [FrameMetrics] belong together. *)
Record metrics_inv (m : FrameMetrics) : Prop := mkMetricsInv {
  inv_limit : (length (m_frame_time m) <= kFrameMetricsLimit)%nat;
  inv_cmds : Forall (fun d => length d = length (m_frame_time m)) (m_cmd_time_vec m);
  inv_rps : Forall (fun d => length d = length (m_frame_time m)) (m_renderpass_time_vec m);
  inv_counts : length (m_cmd_renderpass_count_vec m) = length (m_cmd_time_vec m)
}.

Lemma new_metrics_inv : metrics_inv new_FrameMetrics.
Proof. split; simpl; try lia; auto. Qed.

Lemma window_short l x : (length l < kFrameMetricsLimit)%nat -> window l x = l ++ [x].
Proof.
  intros Hl. unfold window. rewrite length_app. cbn [length].
  replace (length l + 1 - kFrameMetricsLimit)%nat with O by lia. done.
Qed.

Lemma window_full l x y : length (y :: l) = kFrameMetricsLimit -> window (y :: l) x = l ++ [x].
Proof.
  intros Hl. unfold window. rewrite length_app, Hl. cbn [length].
  replace (kFrameMetricsLimit + 1 - kFrameMetricsLimit)%nat with 1%nat by lia. done.
Qed.

Lemma window_length l x : (length l <= kFrameMetricsLimit)%nat ->
  length (window l x) = Nat.min (S (length l)) kFrameMetricsLimit.
Proof. intros Hl. unfold window. rewrite length_drop, length_app. cbn [length]. lia. Qed.

(** Pushing a frame's value on each of several series of length [n]. *)
Lemma push_series (n : nat) (ds : list (list double)) xs :
  (n < kFrameMetricsLimit)%nat -> Forall (fun d => length d = n) ds ->
  zip_with (fun d x => d ++ [x]) ds xs = zip_with window ds xs.
Proof.
  intros Hn Hds. revert xs. induction Hds as [|d ds Hd Hds IH]; intros [|x xs]; simpl; [done..|].
  rewrite window_short by lia. by rewrite IH.
Qed.

Lemma pop_series (ds : list (list double)) :
  Forall (fun d => length d = kFrameMetricsLimit) ds ->
  exists ds', mapM pop_front ds = Some ds' /\
    forall xs, zip_with (fun d x => d ++ [x]) ds' xs = zip_with window ds xs.
Proof.
  induction 1 as [|d ds Hd Hds (ds' & E & Hw)]; [by exists []|].
  destruct d as [|y d]; [done|]. exists (d :: ds'). split; [cbn; by rewrite E|].
  intros [|x xs]; [done|]. cbn [zip_with]. by rewrite window_full, Hw.
Qed.

Lemma window_series_length (n : nat) (ds : list (list double)) xs :
  (n <= kFrameMetricsLimit)%nat -> Forall (fun d => length d = n) ds ->
  Forall (fun d => length d = Nat.min (S n) kFrameMetricsLimit) (zip_with window ds xs).
Proof.
  intros Hn Hds. revert xs. induction Hds as [|d ds Hd Hds IH]; intros [|x xs]; simpl; auto.
  constructor; [|by apply IH]. rewrite window_length by lia. by rewrite Hd.
Qed.

(** [AddFrameData] on series that have the frame's shape. *)
Lemma push_frame m ft cmds rps counts :
  metrics_inv m -> length (m_cmd_time_vec m) = length cmds ->
  length (m_renderpass_time_vec m) = length rps ->
  AddFrameData ft cmds rps counts m = Some (mkMetrics (window (m_frame_time m) ft)
    (m_cmd_renderpass_count_vec m) (zip_with window (m_cmd_time_vec m) cmds)
    (zip_with window (m_renderpass_time_vec m) rps)).
Proof.
  intros Hinv Hc Hr. unfold AddFrameData. rewrite Hc, Hr, !Nat.eqb_refl. cbn [negb orb].
  destruct Hinv as [Hlim Hcs Hrs _].
  destruct (Nat.eqb_spec (length (m_frame_time m)) kFrameMetricsLimit) as [E|E].
  - rewrite E in Hcs, Hrs.
    destruct (pop_series _ Hcs) as (cs' & -> & Hcw), (pop_series _ Hrs) as (rs' & -> & Hrw).
    destruct (m_frame_time m) as [|y l] eqn:Ef; [done|].
    by rewrite (window_full l ft y), <- Hcw, <- Hrw.
  - rewrite window_short by lia.
    by rewrite <- !(push_series (length (m_frame_time m))) by (done || lia).
Qed.

(** The series a frame of the given shape is added to: the old ones, or fresh
    ones when the shape is new. *)
Definition same_shape (cmds rps : list double) (m : FrameMetrics) : bool :=
  (length (m_cmd_time_vec m) =? length cmds)%nat &&
  (length (m_renderpass_time_vec m) =? length rps)%nat.

Definition reshaped (cmds rps : list double) (counts : list Z) (m : FrameMetrics) : FrameMetrics :=
  if same_shape cmds rps m then m
  else mkMetrics [] counts (replicate (length cmds) []) (replicate (length rps) []).

Lemma reshaped_shape cmds rps counts m :
  same_shape cmds rps (reshaped cmds rps counts m) = true.
Proof.
  unfold reshaped. destruct (same_shape cmds rps m) eqn:E; [done|].
  unfold same_shape. cbn [m_cmd_time_vec m_renderpass_time_vec].
  by rewrite !length_replicate, !Nat.eqb_refl.
Qed.

Lemma reshaped_inv cmds rps counts m :
  metrics_inv m -> length counts = length cmds -> metrics_inv (reshaped cmds rps counts m).
Proof.
  intros Hinv Hc. unfold reshaped. destruct (same_shape cmds rps m); [done|].
  split; cbn; [lia|apply Forall_replicate..|]; try done. by rewrite length_replicate.
Qed.

Lemma AddFrameData_reshaped ft cmds rps counts m :
  AddFrameData ft cmds rps counts m = AddFrameData ft cmds rps counts (reshaped cmds rps counts m).
Proof.
  pose proof (reshaped_shape cmds rps counts m) as Hs. unfold same_shape in Hs.
  apply andb_true_iff in Hs as [Hs1 Hs2].
  unfold AddFrameData at 2. rewrite Hs1, Hs2. cbn [negb orb].
  unfold AddFrameData, reshaped, same_shape.
  destruct (length (m_cmd_time_vec m) =? length cmds)%nat; [|done].
  by destruct (length (m_renderpass_time_vec m) =? length rps)%nat.
Qed.

(** Adding a frame: the series of its shape, one value longer. *)
Lemma AddFrameData_spec ft cmds rps counts (m : FrameMetrics) :
  metrics_inv m -> length counts = length cmds ->
  let m0 := reshaped cmds rps counts m in
  exists m', AddFrameData ft cmds rps counts m = Some m' /\ metrics_inv m' /\
    m_frame_time m' = window (m_frame_time m0) ft /\
    m_cmd_time_vec m' = zip_with window (m_cmd_time_vec m0) cmds /\
    m_renderpass_time_vec m' = zip_with window (m_renderpass_time_vec m0) rps /\
    GetFrameCmdCount m' = length cmds /\ GetFrameRenderPassCount m' = length rps /\
    forall i, (i < GetFrameCmdCount m')%nat -> is_Some (m_cmd_renderpass_count_vec m' !! i).
Proof.
  intros Hinv Hc m0. pose proof (reshaped_inv cmds rps counts m Hinv Hc) as Hinv0.
  pose proof (reshaped_shape cmds rps counts m) as Hs. fold m0 in Hinv0, Hs.
  apply andb_true_iff in Hs as [Hs1 Hs2]. apply Nat.eqb_eq in Hs1, Hs2.
  rewrite AddFrameData_reshaped. fold m0. rewrite push_frame by done.
  eexists. split; [done|]. destruct Hinv0 as [Hlim Hcs Hrs Hco].
  assert (length (zip_with window (m_cmd_time_vec m0) cmds) = length cmds) as Hl1
    by (rewrite length_zip_with; lia).
  assert (length (zip_with window (m_renderpass_time_vec m0) rps) = length rps) as Hl2
    by (rewrite length_zip_with; lia).
  assert (length (m_cmd_renderpass_count_vec m0) = length cmds) as Hl3 by congruence.
  split.
  - split; cbn [m_frame_time m_cmd_time_vec m_renderpass_time_vec m_cmd_renderpass_count_vec].
    + rewrite window_length by done. lia.
    + rewrite window_length by done. by apply window_series_length.
    + rewrite window_length by done. by apply window_series_length.
    + by rewrite Hl1.
  - unfold GetFrameCmdCount, GetFrameRenderPassCount.
    cbn [m_frame_time m_cmd_time_vec m_renderpass_time_vec m_cmd_renderpass_count_vec].
    rewrite Hl1, Hl2. repeat split; try done.
    intros i Hi. apply lookup_lt_is_Some_2. by rewrite Hl3.
Qed.

(** ** Properties *)

(** Adding a frame never fails and keeps the statistics a sliding window.
    If the frame has as many command buffers and render passes as the ones
    before it, every series (the frame's, each command buffer's and each render
    pass's) gets its new value and keeps the last 1000; otherwise all of them
    start again with this frame. The series stay equally long, no empty deque
    is popped, and every command buffer of the report has a render-pass count
    (the reports' inner loop never runs on [kInvalidRenderPassCount]). *)
Theorem frame_window ft cmds rps counts (m : FrameMetrics) :
  metrics_inv m -> length counts = length cmds ->
  let m0 := reshaped cmds rps counts m in
  exists m', AddFrameData ft cmds rps counts m = Some m' /\ metrics_inv m' /\
    m_frame_time m' = window (m_frame_time m0) ft /\
    m_cmd_time_vec m' = zip_with window (m_cmd_time_vec m0) cmds /\
    m_renderpass_time_vec m' = zip_with window (m_renderpass_time_vec m0) rps /\
    GetFrameCmdCount m' = length cmds /\ GetFrameRenderPassCount m' = length rps /\
    forall i, (i < GetFrameCmdCount m')%nat -> is_Some (m_cmd_renderpass_count_vec m' !! i).
Proof. exact (AddFrameData_spec ft cmds rps counts m). Qed.

Lemma frame_window_witness :
  exists m', AddFrameData (d_of_Z 3) [d_of_Z 3] [] [0] new_FrameMetrics = Some m' /\
    m_frame_time m' = [d_of_Z 3] /\ metrics_inv m'.
Proof.
  destruct (frame_window (d_of_Z 3) [d_of_Z 3] [] [0] new_FrameMetrics new_metrics_inv eq_refl)
    as (m' & E & Hinv & Hf & _).
  exists m'. split; [exact E|]. split; [rewrite Hf; vm_compute; reflexivity|exact Hinv].
Defined.

(** The render-pass counts of the report can be stale. As long as the
    totals of command buffers and render passes stay the same, the counts of a
    new frame are dropped and those of the first frame of that shape are kept:
    after a frame whose one render pass is in the first of two command buffers
    and a frame that has it in the second, the report still attributes it to
    the first. *)
Theorem render_pass_counts_stale ft cmds rps counts (m : FrameMetrics) :
  (metrics_inv m -> same_shape cmds rps m = true ->
   exists m', AddFrameData ft cmds rps counts m = Some m' /\
     m_cmd_renderpass_count_vec m' = m_cmd_renderpass_count_vec m) /\
  (exists m', (m1 ← AddFrameData ft [ft; ft] [ft] [1; 0] new_FrameMetrics;
               AddFrameData ft [ft; ft] [ft] [0; 1] m1) = Some m' /\
     GetCmdRenderPassCount 0 m' = 1 /\ GetCmdRenderPassCount 1 m' = 0).
Proof.
  split.
  - intros Hinv Hs. apply andb_true_iff in Hs as [Hs1 Hs2]. apply Nat.eqb_eq in Hs1, Hs2.
    rewrite push_frame by done. by eexists.
  - eexists. split; [reflexivity|]. by split.
Qed.

(** What [GetStatistics] computes. On data that are not NaNs and lie in
    the range of finite doubles, the minimum and the maximum are elements and
    bound all others; the median of an odd number of values is the middle of a
    sorted permutation of them, and of an even number the rounded mean of the
    two middle ones; a single value has standard deviation 0; no data give
    the zero average, median and deviation. *)
Theorem statistics_meaning (data : list double) :
  no_nan data -> Forall (d_le d_lowest) data -> Forall (fun d => d_le d d_max) data ->
  let st := GetStatistics data in
  (data <> [] -> smin st ∈ data /\ Forall (d_le (smin st)) data /\
                 smax st ∈ data /\ Forall (fun d => d_le d (smax st)) data) /\
  (data <> [] -> exists sorted, sorted ≡ₚ data /\ StronglySorted d_le sorted /\
     median st =
       if (length data mod 2 =? 0)%nat
       then d_div (d_add (nth (length data / 2 - 1) sorted d_zero) (nth (length data / 2) sorted d_zero))
                  (d_of_Z 2)
       else nth (length data / 2) sorted d_zero) /\
  ((length data <= 1)%nat -> stddev st = d_zero) /\
  (data = [] -> average st = d_zero /\ median st = d_zero).
Proof.
  intros Hn Hlo Hhi st. split_and!.
  - intros Hne. destruct (fold_min_member data Hn Hhi Hne) as [H1 H2].
    by destruct (fold_max_member data Hn Hlo Hne) as [H3 H4].
  - intros Hne. exists (std_sort data). split; [apply std_sort_perm|].
    split; [by apply std_sort_sorted|].
    subst st. unfold GetStatistics, CalculateMedian. cbn [median].
    destruct data as [|d data]; [done|].
    by rewrite (Permutation_length (std_sort_perm (d :: data))).
  - intros Hl. subst st. unfold GetStatistics, CalculateStdDev. cbn [stddev].
    by destruct (Nat.ltb_spec (length data) 2); [|lia].
  - by intros ->.
Qed.

Lemma statistics_meaning_witness :
  smin (GetStatistics [d_of_Z 3; d_of_Z 1; d_of_Z 2]) ∈ [d_of_Z 3; d_of_Z 1; d_of_Z 2] /\
  median (GetStatistics [d_of_Z 3; d_of_Z 1; d_of_Z 2]) = d_of_Z 2.
Proof.
  destruct (statistics_meaning [d_of_Z 3; d_of_Z 1; d_of_Z 2]) as (Hm & _).
  - repeat constructor; intros [=].
  - repeat constructor.
  - repeat constructor.
  - split; [by apply Hm|vm_compute; reflexivity].
Defined.
