(* ===== verification/Numbers.v ===== *)
(** * Numbers: strings and numbers

    The conversions of the C and C++ standard library that the tables of
    [src/dive_core] read their fields with, [std::strtoull], [std::strtoll],
    [std::strtof], [std::strtod], [std::stoi] and [std::stof] in the C locale, and
    [StringUtils::SafeConvertFromString], [Trim] and [RemoveQuotes] of
    [src/src/dive/utils/string_utils.{h,cpp}] built from them. *)

From Stdlib Require Import SpecFloat Ascii.
From S2P Require Import Prelude FrameMetrics.

#[local] Open Scope Z_scope.

(** ** Characters *)

Definition char_code (c : ascii) : Z := Z.of_N (N_of_ascii c).

(** [std::isspace] *)
Definition isspace (c : ascii) : bool :=
  let n := char_code c in (n =? 32) || ((9 <=? n) && (n <=? 13)).

(** The value of a digit of any base. *)
Definition digit_value (c : ascii) : option Z :=
  let n := char_code c in
  if (48 <=? n) && (n <=? 57) then Some (n - 48)
  else if (65 <=? n) && (n <=? 90) then Some (n - 55)
  else if (97 <=? n) && (n <=? 122) then Some (n - 87)
  else None.

Definition digit_in (base : Z) (c : ascii) : option Z :=
  d ← digit_value c; if d <? base then Some d else None.

Definition to_lower (c : ascii) : ascii :=
  let n := char_code c in
  if (65 <=? n) && (n <=? 90) then ascii_of_N (Z.to_N (n + 32)) else c.

(** The C string of a [std::string]: up to its first NUL. *)
Fixpoint c_str (s : string) : string :=
  match s with
  | String c s => if char_code c =? 0 then EmptyString else String c (c_str s)
  | EmptyString => EmptyString
  end.

(** ** Trimming *)

Fixpoint trim_left (s : string) : string :=
  match s with
  | String c s' => if isspace c then trim_left s' else s
  | EmptyString => EmptyString
  end.

Fixpoint trim_right (s : string) : string :=
  match s with
  | String c s =>
      let t := trim_right s in
      if isspace c && bool_decide (t = EmptyString) then EmptyString else String c t
  | EmptyString => EmptyString
  end.

Definition Trim (s : string) : string := trim_left (trim_right s).

Definition quote : ascii := ascii_of_nat 34.

Fixpoint last_char (s : string) : option ascii :=
  match s with
  | EmptyString => None
  | String c EmptyString => Some c
  | String _ s => last_char s
  end.

Definition RemoveQuotes (s : string) : string :=
  if (2 <=? String.length s)%nat && bool_decide (String.get 0 s = Some quote)
     && bool_decide (last_char s = Some quote)
  then String.substring 1 (String.length s - 2) s else s.

(** ** Integers *)

(** A sign, and whether it is a minus. *)
Definition scan_sign (s : string) : bool * string :=
  match s with
  | String "-" s => (true, s)
  | String "+" s => (false, s)
  | _ => (false, s)
  end.

(** The digits in front: how many, their value after [acc], and the rest. *)
Fixpoint scan_digits (base : Z) (s : string) (n : nat) (acc : Z) : nat * Z * string :=
  match s with
  | String c s' =>
      match digit_in base c with
      | Some d => scan_digits base s' (S n) (acc * base + d)
      | None => (n, acc, s)
      end
  | EmptyString => (n, acc, s)
  end.

(** What a conversion found: its value, whether [errno] is [ERANGE], and the rest
    of the string; [None]: nothing was converted, [end == start]. *)
Record Scanned (A : Type) := mkScanned { value : A; erange : bool; rest : string }.
#[global] Arguments mkScanned {_} _ _ _.
#[global] Arguments value {_} _.
#[global] Arguments erange {_} _.
#[global] Arguments rest {_} _.

(** The sign and the number behind white space. *)
Definition scan_integer (s : string) : option (bool * Z * string) :=
  let '(neg, s) := scan_sign (trim_left s) in
  match scan_digits 10 s 0 0 with
  | (O, _, _) => None
  | (_, z, r) => Some (neg, z, r)
  end.

(** A minus sign negates the unsigned result. *)
Definition strtoull (s : string) : option (Scanned Z) :=
  '(neg, z, r) ← scan_integer s;
  Some (if 2 ^ 64 <=? z then mkScanned (2 ^ 64 - 1) true r
        else mkScanned (if neg : bool then wrap 64 (- z) else z) false r).

Definition strtoll (s : string) : option (Scanned Z) :=
  '(neg, z, r) ← scan_integer s;
  let z := if neg : bool then - z else z in
  Some (if z <? - 2 ^ 63 then mkScanned (- 2 ^ 63) true r
        else if 2 ^ 63 <=? z then mkScanned (2 ^ 63 - 1) true r
        else mkScanned z false r).

(** The exceptions of [std::stoi] and [std::stof]. *)
Inductive Thrown := invalid_argument | out_of_range.

Definition stoi (s : string) : Z + Thrown :=
  match strtoll (c_str s) with
  | None => inr invalid_argument
  | Some r =>
      if erange r || (value r <? - 2 ^ 31) || (2 ^ 31 <=? value r) then inr out_of_range
      else inl (value r)
  end.

(** ** Floating-point numbers *)

(** The forms of a number: [n * 10^e], [n * 2^e], infinity and NaN. *)
Inductive Numeral := Decimal (n e : Z) | Hexadecimal (n e : Z) | Infinite | NotANumber.

(** An exponent behind [mark]; without digits it is not part of the number. *)
Definition scan_exponent (mark : ascii) (s : string) : Z * string :=
  match s with
  | String c s' =>
      if bool_decide (to_lower c = mark) then
        let '(neg, s'') := scan_sign s' in
        match scan_digits 10 s'' 0 0 with
        | (O, _, _) => (0, s)
        | (_, z, r) => (if neg then - z else z, r)
        end
      else (0, s)
  | EmptyString => (0, s)
  end.

(** Digits with an optional point: their value, the number of them behind the
    point, and the rest. *)
Definition scan_mantissa (base : Z) (s : string) : option (Z * nat * string) :=
  let '(n, z, r) := scan_digits base s 0 0 in
  let '(k, z, r') :=
    match r with
    | String "." r => scan_digits base r 0 z
    | _ => (O, z, r)
    end in
  if ((n + k)%nat =? 0)%nat then None else Some (z, k, r').

Definition scan_decimal (s : string) : option (Numeral * string) :=
  '(z, k, r) ← scan_mantissa 10 s;
  let '(e, r) := scan_exponent "e" r in
  Some (Decimal z (e - Z.of_nat k), r).

Definition scan_hexadecimal (s : string) : option (Numeral * string) :=
  match s with
  | String "0" (String x s) =>
      if bool_decide (to_lower x = "x"%char) then
        '(z, k, r) ← scan_mantissa 16 s;
        let '(e, r) := scan_exponent "p" r in
        Some (Hexadecimal z (e - 4 * Z.of_nat k), r)
      else None
  | _ => None
  end.

(** [word] in front, in either case. *)
Fixpoint scan_word (word s : string) : option string :=
  match word, s with
  | EmptyString, _ => Some s
  | String w word, String c s =>
      if bool_decide (to_lower c = w) then scan_word word s else None
  | _, EmptyString => None
  end.

(** The characters between the parentheses of a NaN. *)
Fixpoint scan_nan_chars (s : string) : option string :=
  match s with
  | String c s =>
      if bool_decide (c = ")"%char) then Some s
      else if bool_decide (c = "_"%char) || bool_decide (is_Some (digit_value c)) then scan_nan_chars s
      else None
  | EmptyString => None
  end.

Definition scan_special (s : string) : option (Numeral * string) :=
  match scan_word "infinity" s, scan_word "inf" s, scan_word "nan" s with
  | Some r, _, _ | None, Some r, _ => Some (Infinite, r)
  | None, None, Some r =>
      Some (NotANumber,
            match r with
            | String "(" chars => default r (scan_nan_chars chars)
            | _ => r
            end)
  | None, None, None => None
  end.

(** The first of the forms that fits. *)
Definition scan_numeral (s : string) : option (Numeral * string) :=
  match scan_special s, scan_hexadecimal s with
  | Some r, _ => Some r
  | None, Some r => Some r
  | None, None => scan_decimal s
  end.

(** The nearest value of the format to [n / d * 2^e], correctly rounded, and
    whether that is [ERANGE]: too large, or tiny and not exact. *)
Definition round_to (prec emax : Z) (neg : bool) (n d : positive) (e : Z) : double * bool :=
  let r := SFdiv prec emax (S754_finite neg n e) (S754_finite false d 0) in
  (r, match r with
      | S754_finite _ m e' =>
          (Zdigits2 (Z.pos m) <? prec)
          && negb (Z.pos m * Z.pos d * 2 ^ Z.max 0 (e' - e) =? Z.pos n * 2 ^ Z.max 0 (e - e'))
      | _ => true
      end).

Definition numeral_value (prec emax : Z) (neg : bool) (x : Numeral) : double * bool :=
  match x with
  | Decimal (Z.pos n) e =>
      if 0 <=? e then round_to prec emax neg (Z.to_pos (Z.pos n * 10 ^ e)) 1 0
      else round_to prec emax neg n (Z.to_pos (10 ^ (- e))) 0
  | Hexadecimal (Z.pos n) e => round_to prec emax neg n 1 e
  | Decimal _ _ | Hexadecimal _ _ => (S754_zero neg, false)
  | Infinite => (S754_infinity neg, false)
  | NotANumber => (S754_nan, false)
  end.

(** [strtof] at [prec = 24], [emax = 128]; [strtod] at [prec = 53], [emax = 1024]. *)
Definition strtofloat (prec emax : Z) (s : string) : option (Scanned double) :=
  let '(neg, s) := scan_sign (trim_left s) in
  '(x, r) ← scan_numeral s;
  let '(d, e) := numeral_value prec emax neg x in
  Some (mkScanned d e r).

Definition strtof : string -> option (Scanned double) := strtofloat 24 128.
Definition strtod : string -> option (Scanned double) := strtofloat 53 1024.

Definition stof (s : string) : double + Thrown :=
  match strtof (c_str s) with
  | None => inr invalid_argument
  | Some r => if erange r then inr out_of_range else inl (value r)
  end.

(** ** SafeConvertFromString *)

(** The whole string has to be converted. *)
Definition converted {A} (r : option (Scanned A)) : option A :=
  r ← r; if erange r || negb (bool_decide (rest r = EmptyString)) then None else Some (value r).

(** For an unsigned type of [w] bits, a signed one, and [double]. *)
Definition SafeConvertUnsigned (w : Z) (s : string) : option Z :=
  z ← converted (strtoull (c_str s)); if 2 ^ w - 1 <? z then None else Some z.

Definition SafeConvertSigned (w : Z) (s : string) : option Z :=
  z ← converted (strtoll (c_str s));
  if (z <? - 2 ^ (w - 1)) || (2 ^ (w - 1) - 1 <? z) then None else Some z.

Definition SafeConvertDouble (s : string) : option double := converted (strtod (c_str s)).

Example strings_read :
  SafeConvertUnsigned 32 " +42" = Some 42 /\ SafeConvertUnsigned 64 "-1" = Some (2 ^ 64 - 1)
  /\ SafeConvertUnsigned 32 "-1" = None /\ SafeConvertUnsigned 8 "256" = None
  /\ SafeConvertUnsigned 32 "7 " = None /\ SafeConvertSigned 8 "-128" = Some (-128)
  /\ stoi "12.5" = inl 12 /\ stoi "x" = inr invalid_argument
  /\ stoi "2147483648" = inr out_of_range.
Proof. vm_compute. repeat split. Qed.

Example floats_read :
  (show_fixed 3 <$> SafeConvertDouble "12.3455") = Some "12.345"%string
  /\ SafeConvertDouble "1e400" = None /\ SafeConvertDouble "0x1.8p1" = Some (d_of_Z 3)
  /\ SafeConvertDouble "-inf" = Some (S754_infinity true) /\ SafeConvertDouble "1e" = None
  /\ SafeConvertDouble "2.5e-324" = None
  /\ stof "0.1" = inl (S754_finite false 13421773 (-27)) /\ stof ".5.5" = inl (S754_finite false 8388608 (-24)).
Proof. vm_compute. repeat split. Qed.

(** ** Texts of digits *)

Fixpoint all_chars (P : ascii -> bool) (s : string) : bool :=
  match s with String c s => P c && all_chars P s | EmptyString => true end.

Definition is_digit (c : ascii) : bool := bool_decide (is_Some (digit_in 10 c)).

Lemma all_chars_app P s t : all_chars P (s +:+ t) = all_chars P s && all_chars P t.
Proof. induction s as [|c s IH]; [done|]. rewrite string_app_cons. simpl. by rewrite IH, andb_assoc. Qed.

Lemma all_chars_impl (P Q : ascii -> bool) s :
  (forall c, P c = true -> Q c = true) -> all_chars P s = true -> all_chars Q s = true.
Proof.
  intros HPQ. induction s as [|c s IH]; simpl; [done|]. rewrite !andb_true_iff.
  intros [Hc Hs]. auto.
Qed.

Lemma pretty_char_digit x : (x < 10)%N -> digit_in 10 (pretty_N_char x) = Some (Z.of_N x).
Proof.
  intros Hx. assert (x ∈ [0;1;2;3;4;5;6;7;8;9]%N) as Hin.
  { rewrite !elem_of_cons. lia. }
  rewrite !elem_of_cons, elem_of_nil in Hin. by destruct_or? Hin; subst.
Qed.

Lemma pretty_char_is_digit x : (x < 10)%N -> is_digit (pretty_N_char x) = true.
Proof. intros Hx. unfold is_digit. by rewrite pretty_char_digit. Qed.

Lemma pretty_go_ind (P : N -> string -> Prop) :
  (forall s, P 0%N s) ->
  (forall x s, (0 < x)%N -> P (x / 10)%N (String (pretty_N_char (x mod 10)) s) -> P x s) ->
  forall x s, P x s.
Proof.
  intros H0 HS x. induction (N.lt_wf_0 x) as [x _ IH]. intros s.
  destruct (decide (x = 0%N)) as [->|Hx]; [apply H0|].
  apply HS; [lia|]. apply IH. apply N.div_lt; lia.
Qed.

Lemma pretty_go_app x s r : pretty_N_go x s +:+ r = pretty_N_go x (s +:+ r).
Proof.
  revert x s. apply pretty_go_ind; [done|]. intros x s Hx IH.
  by rewrite (pretty_N_go_step x s), (pretty_N_go_step x (s +:+ r)), IH.
Qed.

Lemma mod_10_lt (x : N) : (x mod 10 < 10)%N.
Proof. by apply N.mod_lt. Qed.

Lemma pretty_go_digits x s :
  all_chars is_digit s = true -> all_chars is_digit (pretty_N_go x s) = true.
Proof.
  revert x s.
  apply (pretty_go_ind (fun x s =>
    all_chars is_digit s = true -> all_chars is_digit (pretty_N_go x s) = true)); [by intros s ?|].
  intros x s Hx IH Hs.
  rewrite pretty_N_go_step by done. apply IH. simpl.
  by rewrite pretty_char_is_digit by apply mod_10_lt.
Qed.

Lemma scan_pretty_go x s n acc :
  exists k, scan_digits 10 (pretty_N_go x s) n acc
            = scan_digits 10 s (n + k) (acc * 10 ^ Z.of_nat k + Z.of_N x)
            /\ ((0 < x)%N -> (0 < k)%nat).
Proof.
  revert x s n acc. apply (pretty_go_ind (fun x s => forall n acc, _)).
  - intros s n acc. exists O. split; [|lia]. simpl. rewrite Nat.add_0_r. f_equal. lia.
  - intros x s Hx IH n acc. rewrite pretty_N_go_step by done.
    destruct (IH n acc) as (k & -> & _). exists (S k). split; [|lia].
    simpl. rewrite pretty_char_digit by apply mod_10_lt. f_equal; [lia|].
    pose proof (N.div_mod' x 10). replace (Z.of_nat (S k)) with (Z.of_nat k + 1) by lia.
    rewrite Z.pow_add_r by lia. lia.
Qed.

Lemma pretty_N_unfold (x : N) : x <> 0%N -> pretty x = pretty_N_go x "".
Proof. intros Hx. unfold pretty, pretty_N. by rewrite decide_False. Qed.

Lemma scan_pretty_N (x : N) r n acc :
  exists k, (0 < k)%nat /\
    scan_digits 10 (pretty x +:+ r) n acc
    = scan_digits 10 r (n + k) (acc * 10 ^ Z.of_nat k + Z.of_N x).
Proof.
  destruct (decide (x = 0%N)) as [->|Hx].
  - exists 1%nat. split; [lia|]. simpl. f_equal; lia.
  - rewrite pretty_N_unfold, pretty_go_app by done. simpl.
    destruct (scan_pretty_go x r n acc) as (k & E & Hk). exists k. split; [apply Hk; lia|done].
Qed.

Lemma pretty_N_digits (x : N) : all_chars is_digit (pretty x) = true.
Proof.
  destruct (decide (x = 0%N)) as [->|Hx]; [done|].
  rewrite pretty_N_unfold by done. by apply pretty_go_digits.
Qed.

Lemma pretty_Z_N (z : Z) : 0 <= z -> pretty z = pretty (Z.to_N z).
Proof. by destruct z. Qed.

Lemma pretty_head (z : Z) : 0 <= z ->
  exists c t, pretty z = String c t /\ is_digit c = true /\ all_chars is_digit t = true.
Proof.
  intros Hz. rewrite pretty_Z_N by done. pose proof (pretty_N_digits (Z.to_N z)) as Hd.
  destruct (pretty (Z.to_N z)) as [|c t] eqn:E.
  - destruct (scan_pretty_N (Z.to_N z) "" 0 0) as (k & Hk & Hs). rewrite E in Hs. simpl in Hs.
    injection Hs. lia.
  - simpl in Hd. apply andb_true_iff in Hd. eauto.
Qed.

(** What a digit is not. *)
Lemma digit_code c : is_digit c = true -> 48 <= char_code c <= 57.
Proof.
  unfold is_digit, digit_in, digit_value. intros [d Hd]%bool_decide_eq_true.
  destruct (_ && _) eqn:E1; [zbool; lia|]. simpl in Hd.
  destruct ((65 <=? _) && _) eqn:E2; simpl in Hd.
  { zbool. destruct (_ <? 10) eqn:E; [zbool; lia|done]. }
  destruct ((97 <=? _) && _) eqn:E3; simpl in Hd; [|done].
  zbool. destruct (_ <? 10) eqn:E; [zbool; lia|done].
Qed.

Lemma digit_not c c' : is_digit c = true -> ~ 48 <= char_code c' <= 57 -> c <> c'.
Proof. intros Hc%digit_code Hc' ->. done. Qed.

Lemma digit_not_space c : is_digit c = true -> isspace c = false.
Proof.
  intros Hc%digit_code. unfold isspace.
  apply orb_false_iff. split; [apply Z.eqb_neq; lia|]. apply andb_false_iff. right. apply Z.leb_gt. lia.
Qed.

Lemma digit_to_lower c : is_digit c = true -> to_lower c = c.
Proof.
  intros Hc%digit_code. unfold to_lower. destruct (_ && _) eqn:E; [zbool; lia|done].
Qed.

Lemma digit_not_nul c : is_digit c = true -> (char_code c =? 0) = false.
Proof. intros Hc%digit_code. apply Z.eqb_neq. lia. Qed.

Lemma trim_left_digit c s : is_digit c = true -> trim_left (String c s) = String c s.
Proof. intros Hc. simpl. by rewrite digit_not_space. Qed.

Lemma scan_sign_digit c s : is_digit c = true -> scan_sign (String c s) = (false, String c s).
Proof.
  intros Hc. assert (c <> "-"%char) as Hm by (apply digit_not; [done|by intros [[] []]]).
  assert (c <> "+"%char) as Hp by (apply digit_not; [done|by intros [[] []]]).
  unfold scan_sign. by repeat case_match; simplify_eq.
Qed.

Lemma c_str_id s : all_chars (fun c => negb (char_code c =? 0)) s = true -> c_str s = s.
Proof.
  induction s as [|c s IH]; simpl; [done|]. rewrite andb_true_iff, negb_true_iff.
  intros [-> Hs]. by rewrite IH.
Qed.

Lemma digits_no_nul s :
  all_chars is_digit s = true -> all_chars (fun c => negb (char_code c =? 0)) s = true.
Proof. apply all_chars_impl. intros c Hc. by rewrite digit_not_nul. Qed.

Lemma scan_integer_pretty z : 0 <= z -> scan_integer (pretty z) = Some (false, z, ""%string).
Proof.
  intros Hz. unfold scan_integer.
  destruct (pretty_head z) as (c & t & E & Hc & Ht); [done|].
  rewrite E, trim_left_digit, scan_sign_digit by done. rewrite <- E, pretty_Z_N by done.
  destruct (scan_pretty_N (Z.to_N z) "" 0 0) as (k & Hk & Hs). rewrite string_app_nil_r in Hs.
  rewrite Hs. simpl. destruct k; [lia|]. f_equal. f_equal. f_equal. lia.
Qed.

Lemma c_str_pretty (z : Z) : 0 <= z -> c_str (pretty z) = pretty z.
Proof.
  intros Hz. apply c_str_id, digits_no_nul. rewrite pretty_Z_N by done. apply pretty_N_digits.
Qed.

(** An unsigned value that fits is read back. *)
Lemma unsigned_read w z : w <= 64 -> in_width w z -> SafeConvertUnsigned w (pretty z) = Some z.
Proof.
  intros Hw [Hz Hlt]. unfold SafeConvertUnsigned, strtoull.
  rewrite c_str_pretty, scan_integer_pretty by done. simpl.
  assert (2 ^ w <= 2 ^ 64) by (apply Z.pow_le_mono_r; lia).
  destruct (2 ^ 64 <=? z) eqn:E; [zbool; lia|]. simpl.
  unfold converted. simpl. destruct (_ <? z) eqn:E'; [zbool; lia|done].
Qed.

Lemma stoi_pretty z : 0 <= z < 2 ^ 31 -> stoi (pretty z) = inl z.
Proof.
  intros Hz. unfold stoi, strtoll. rewrite c_str_pretty, scan_integer_pretty by lia. simpl.
  destruct (z <? - 2 ^ 63) eqn:E1; [zbool; lia|]. destruct (2 ^ 63 <=? z) eqn:E2; [zbool; lia|].
  simpl. destruct (_ || _) eqn:E; [|done].
  apply orb_true_iff in E as [E|E]; zbool; lia.
Qed.

(** ** Times in thousandths *)

(** What [show_fixed 3] writes for [n] thousandths. *)
Definition fixed_text (n : Z) : string := pretty (n / 1000) +:+ "." +:+ pad 3 (pretty (n mod 1000)).

(** The thousandths of a double that is printed, ties to even. *)
Definition thousandths (d : double) : Z :=
  match d with
  | S754_finite _ m e =>
      if 0 <=? e then Z.pos m * 2 ^ e * 1000 else round_shift (Z.pos m * 1000) (- e)
  | _ => 0
  end.

(** Not negative, and at most [ms]. *)
Definition within (ms : Z) (d : double) : Prop :=
  match d with
  | S754_zero false => True
  | S754_finite false m e => Z.pos m * 2 ^ Z.max 0 e <= ms * 2 ^ Z.max 0 (- e)
  | _ => False
  end.

#[global] Instance within_dec ms d : Decision (within ms d).
Proof. unfold within. destruct d as [[]|?| |[] m e]; apply _. Defined.

Lemma round_shift_le n k b : 0 <= k -> n <= b * 2 ^ k -> round_shift n k <= b.
Proof.
  intros Hk Hn. unfold round_shift.
  pose proof (Z.div_mod n (2 ^ k)) as Hd. pose proof (Z.mod_pos_bound n (2 ^ k)) as Hm.
  assert (0 < 2 ^ k) by (apply Z.pow_pos_nonneg; lia).
  assert (n / 2 ^ k <= b) by (apply Z.div_le_upper_bound; lia).
  assert (n / 2 ^ k = b -> n mod 2 ^ k = 0) by nia.
  destruct (Z.compare_spec (2 * (n mod 2 ^ k)) (2 ^ k)); [destruct (Z.even _)|..]; lia.
Qed.

Lemma round_shift_nonneg n k : 0 <= k -> 0 <= n -> 0 <= round_shift n k.
Proof.
  intros Hk Hn. unfold round_shift.
  assert (0 <= n / 2 ^ k) by (apply Z.div_pos; [done|apply Z.pow_pos_nonneg; lia]).
  case_match; [case_match|..]; lia.
Qed.

Lemma within_thousandths ms d : within ms d -> 0 <= thousandths d <= ms * 1000 \/ ms < 0.
Proof.
  destruct d as [[]|s| |[] m e]; simpl; try done; intros Hw; [lia|].
  destruct (0 <=? e) eqn:E; zbool.
  - rewrite Z.max_r, Z.max_l in Hw by lia. assert (0 < 2 ^ e) by (apply Z.pow_pos_nonneg; lia). nia.
  - rewrite Z.max_l, Z.max_r in Hw by lia. left. split; [apply round_shift_nonneg; lia|].
    apply round_shift_le; [lia|]. nia.
Qed.

Lemma show_fixed_text ms d : within ms d -> show_fixed 3 d = fixed_text (thousandths d).
Proof. by destruct d as [[]|s| |[] m e]. Qed.

(** The three digits behind the point. *)
Definition digit_char (z : Z) : ascii := pretty_N_char (Z.to_N z).

Definition three_digits (y : Z) : string :=
  String (digit_char (y / 100)) (String (digit_char (y / 10 mod 10)) (String (digit_char (y mod 10)) "")).

Lemma pad_checked :
  forallb (fun y => bool_decide (pad 3 (pretty (Z.of_nat y)) = three_digits (Z.of_nat y))) (seq 0 1000)
  = true.
Proof. vm_compute. reflexivity. Qed.

Lemma pad_three y : 0 <= y < 1000 -> pad 3 (pretty y) = three_digits y.
Proof.
  intros Hy. pose proof pad_checked as H. rewrite forallb_forall in H.
  specialize (H (Z.to_nat y)). rewrite Z2Nat.id in H by lia.
  apply bool_decide_eq_true in H; [done|]. apply in_seq. lia.
Qed.

Lemma digit_char_value z : 0 <= z < 10 -> digit_in 10 (digit_char z) = Some z.
Proof. intros Hz. unfold digit_char. rewrite pretty_char_digit by lia. f_equal. lia. Qed.

Lemma scan_three y r n acc : 0 <= y < 1000 ->
  scan_digits 10 (three_digits y +:+ r) n acc = scan_digits 10 r (n + 3) (acc * 1000 + y).
Proof.
  intros Hy. unfold three_digits. rewrite !string_app_cons. simpl.
  assert (y = 100 * (y / 100) + 10 * (y / 10 mod 10) + y mod 10) as E.
  { Z.div_mod_to_equations. lia. }
  rewrite !digit_char_value by (Z.div_mod_to_equations; lia).
  change ("" +:+ r) with r. f_equal; lia.
Qed.

Lemma three_digits_digits y : 0 <= y < 1000 -> all_chars is_digit (three_digits y) = true.
Proof.
  intros Hy. simpl. unfold digit_char.
  rewrite !pretty_char_is_digit by (Z.div_mod_to_equations; lia). done.
Qed.

Lemma fixed_text_eq n : fixed_text n = pretty (n / 1000) +:+ "." +:+ three_digits (n mod 1000).
Proof. unfold fixed_text. rewrite pad_three; [done|]. apply Z.mod_pos_bound. lia. Qed.

(** The characters of a number with a point. *)
Definition is_fixed_char (c : ascii) : bool := is_digit c || bool_decide (c = "."%char).

Lemma fixed_text_chars n : 0 <= n -> all_chars is_fixed_char (fixed_text n) = true.
Proof.
  intros Hn. rewrite fixed_text_eq, !all_chars_app, !andb_true_iff.
  assert (forall s, all_chars is_digit s = true -> all_chars is_fixed_char s = true) as Hi.
  { intros s. apply all_chars_impl. intros c Hc. unfold is_fixed_char. by rewrite Hc. }
  split; [|split; [done|]]; apply Hi.
  - rewrite pretty_Z_N by (apply Z.div_pos; lia). apply pretty_N_digits.
  - apply three_digits_digits, Z.mod_pos_bound. lia.
Qed.

Lemma fixed_char_code c : is_fixed_char c = true -> char_code c = 46 \/ 48 <= char_code c <= 57.
Proof.
  unfold is_fixed_char. rewrite orb_true_iff, bool_decide_eq_true. intros [?%digit_code| ->]; auto.
Qed.

Lemma fixed_text_head n : 0 <= n ->
  exists c d t, fixed_text n = String c (String d t) /\ is_digit c = true /\ is_fixed_char d = true.
Proof.
  intros Hn. pose proof (fixed_text_chars n Hn) as Hc. revert Hc. unfold fixed_text.
  destruct (pretty_head (n / 1000)) as (c & [|d t] & -> & H & _); [apply Z.div_pos; lia|..];
    rewrite !string_app_cons; simpl all_chars; intros Hc; zbool; eauto 10.
Qed.

Lemma scan_word_digit w word c s :
  is_digit c = true -> ~ 48 <= char_code w <= 57 -> scan_word (String w word) (String c s) = None.
Proof.
  intros Hc Hw. simpl. rewrite digit_to_lower by done. rewrite bool_decide_false; [done|].
  by apply digit_not.
Qed.

Lemma scan_numeral_fixed n : 0 <= n -> scan_numeral (fixed_text n) = Some (Decimal n (-3), ""%string).
Proof.
  intros Hn. unfold scan_numeral.
  assert (scan_special (fixed_text n) = None /\ scan_hexadecimal (fixed_text n) = None) as [-> ->].
  { destruct (fixed_text_head n Hn) as (c & d & t & -> & Hc & Hd). split.
    - unfold scan_special. by rewrite !scan_word_digit by (done || (intros []; done)).
    - unfold scan_hexadecimal. assert (to_lower d <> "x"%char).
      { apply fixed_char_code in Hd. unfold to_lower.
        destruct (_ && _) eqn:E; [zbool; lia|]. intros ->. vm_compute in Hd. by destruct Hd as [|[]]. }
      repeat case_match; simplify_eq; try done. by rewrite bool_decide_false in *. }
  unfold scan_decimal, scan_mantissa. rewrite fixed_text_eq.
  rewrite pretty_Z_N by (apply Z.div_pos; lia).
  destruct (scan_pretty_N (Z.to_N (n / 1000)) ("." +:+ three_digits (n mod 1000)) 0 0) as (k & Hk & ->).
  rewrite string_app_cons. change ("" +:+ ?s) with s. simpl scan_digits at 1.
  rewrite <- (string_app_nil_r (three_digits _)), scan_three by (apply Z.mod_pos_bound; lia).
  cbn [scan_digits]. destruct (_ =? 0)%nat eqn:E; [apply Nat.eqb_eq in E; lia|].
  simpl. do 3 f_equal. rewrite Z2N.id by (apply Z.div_pos; lia).
  rewrite (Z.div_mod n 1000) at 3 by lia. lia.
Qed.

Lemma strtof_fixed n : 0 <= n ->
  strtof (fixed_text n)
  = let '(d, e) := numeral_value 24 128 false (Decimal n (-3)) in Some (mkScanned d e ""%string).
Proof.
  intros Hn. unfold strtof, strtofloat.
  pose proof (scan_numeral_fixed n Hn) as Hs.
  destruct (fixed_text_head n Hn) as (c & d & t & E & Hc & Hd). rewrite E in *.
  rewrite trim_left_digit, scan_sign_digit by done. by rewrite Hs.
Qed.

(** ** Rounding thousandths to binary32 *)

Lemma digits2_bounds p :
  2 ^ (Z.pos (digits2_pos p) - 1) <= Z.pos p < 2 ^ Z.pos (digits2_pos p).
Proof.
  induction p as [p IH|p IH|]; simpl digits2_pos; [..|done];
    rewrite Pos2Z.inj_succ, <- Z.add_1_r, Z.add_simpl_r;
    rewrite Z.pow_add_r by lia;
    replace (2 ^ Z.pos (digits2_pos p)) with (2 * 2 ^ (Z.pos (digits2_pos p) - 1)) in *
      by (rewrite <- Z.pow_succ_r by lia; f_equal; lia); lia.
Qed.

Lemma Zdigits2_range z d : 0 < d -> 2 ^ (d - 1) <= z < 2 ^ d -> Zdigits2 z = d.
Proof.
  intros Hd Hz. assert (0 < 2 ^ (d - 1)) by (apply Z.pow_pos_nonneg; lia).
  destruct z as [|p|p]; [lia| |lia]. simpl. pose proof (digits2_bounds p) as Hp.
  assert (Z.pos (digits2_pos p) - 1 < d) by (apply (Z.pow_lt_mono_r_iff 2); lia).
  assert (d - 1 < Z.pos (digits2_pos p)) by (apply (Z.pow_lt_mono_r_iff 2); lia). lia.
Qed.

Lemma loc_of_shr m l : loc_of_shr_record (shr_record_of_loc m l) = l.
Proof. by destruct l as [|[]]. Qed.

(** Not shifted: the mantissa has all its bits. *)
Lemma shr_fexp_24 m e l : -149 <= e -> 2 ^ 23 <= m < 2 ^ 24 ->
  shr_fexp 24 128 m e l = (shr_record_of_loc m l, e).
Proof.
  intros He Hm. unfold shr_fexp. rewrite (Zdigits2_range m 24) by (done || lia).
  unfold fexp, emin. replace (Z.max (24 + e - 24) (3 - 128 - 24) - e) with 0 by lia. done.
Qed.

Lemma shr_fexp_25 m e l : -149 <= e -> 2 ^ 24 <= m < 2 ^ 25 ->
  shr_fexp 24 128 m e l = (shr_1 (shr_record_of_loc m l), e + 1).
Proof.
  intros He Hm. unfold shr_fexp. rewrite (Zdigits2_range m 25) by (done || lia).
  unfold fexp, emin. replace (Z.max (25 + e - 24) (3 - 128 - 24) - e) with 1 by lia. done.
Qed.

Lemma shr_1_eq m l : 0 <= m ->
  shr_m (shr_1 (shr_record_of_loc m l)) = m / 2
  /\ loc_of_shr_record (shr_1 (shr_record_of_loc m l))
     = match l, Z.odd m with
       | loc_Exact, false => loc_Exact
       | loc_Exact, true => loc_Inexact Eq
       | loc_Inexact _, false => loc_Inexact Lt
       | loc_Inexact _, true => loc_Inexact Gt
       end.
Proof.
  intros Hm. destruct m as [|p|p]; [by destruct l as [|[]]| |lia].
  rewrite <- Z.div2_div. split; by destruct l as [|[]], p.
Qed.

(** The nearest-even neighbour is half a unit away at most: of [1000 q + r], in
    units of [1000], and of [2000 h + k] behind a shift. *)
Lemma round_near q r : 0 <= r < 1000 ->
  let m := round_nearest_even q (new_location 1000 r) in
  (m = q \/ m = q + 1) /\ 2 * Z.abs (1000 * m - (1000 * q + r)) <= 1000.
Proof.
  intros Hr. unfold new_location, new_location_even. change (Z.even 1000) with true. cbv beta zeta iota.
  destruct (r =? 0) eqn:E; zbool; [cbn [round_nearest_even]; lia|].
  destruct (Z.compare_spec (2 * r) 1000); cbn [round_nearest_even]; [destruct (Z.even q)|..]; lia.
Qed.

Lemma round_near_shifted q r : 0 <= q -> 0 <= r < 1000 ->
  let mrs := shr_1 (shr_record_of_loc q (new_location 1000 r)) in
  let m := round_nearest_even (shr_m mrs) (loc_of_shr_record mrs) in
  (m = q / 2 \/ m = q / 2 + 1) /\ Z.abs (2000 * m - (1000 * q + r)) <= 1000.
Proof.
  intros Hq Hr. cbv zeta. destruct (shr_1_eq q (new_location 1000 r) Hq) as [-> ->].
  pose proof (Z.div_mod q 2) as Hd. rewrite Zmod_odd in Hd.
  unfold new_location, new_location_even. change (Z.even 1000) with true. cbv beta zeta iota.
  destruct (r =? 0) eqn:E, (Z.odd q); zbool; cbn [round_nearest_even]; try destruct (Z.even _); lia.
Qed.

(** The quotient, its exponent, and how far it is from [n] thousandths. *)
Lemma thousandth_quotient n : 0 < n <= 16383000 ->
  exists q r k, SFdiv_core_binary 24 128 n 0 1000 0 = (q, - k, new_location 1000 r)
    /\ n * 2 ^ k = 1000 * q + r /\ 0 <= r < 1000
    /\ 2 ^ 23 <= q < 2 ^ 25 - 1 /\ 10 <= k <= 33 /\ (k = 10 -> q + 1 < 2 ^ 24).
Proof.
  intros Hn. unfold SFdiv_core_binary. destruct n as [|p|]; try lia.
  pose proof (digits2_bounds p) as Hp. change (Zdigits2 (Z.pos p)) with (Z.pos (digits2_pos p)).
  set (d := Z.pos (digits2_pos p)) in *. change (Zdigits2 1000) with 10.
  assert (d - 1 < 24) by (apply (Z.pow_lt_mono_r_iff 2); lia).
  unfold fexp, emin. replace (Z.min _ _) with (- (34 - d)) by lia.
  set (k := 34 - d). replace (0 - 0 - - k) with k by lia. rewrite Z.shiftl_mul_pow2 by lia.
  assert (2 ^ 33 <= Z.pos p * 2 ^ k < 2 ^ 34) as HP.
  { replace 33 with (d - 1 + k) by lia. replace 34 with (d + k) by lia.
    rewrite !Z.pow_add_r by lia. assert (0 < 2 ^ k) by (apply Z.pow_pos_nonneg; lia). nia. }
  destruct k as [|k'|] eqn:Ek; [lia| |lia]. rewrite <- Ek in *.
  pose proof (Z.div_eucl_eq (Z.pos p * 2 ^ k) 1000) as Hde. 
  pose proof (Z.mod_pos_bound (Z.pos p * 2 ^ k) 1000) as Hmod. unfold Z.modulo in Hmod.
  destruct (Z.div_eucl _ 1000) as [q r]. exists q, r, k.
  split; [done|]. split; [lia|]. split; [lia|]. split; [lia|]. split; [lia|].
  intros E10. rewrite E10 in *. lia.
Qed.

Lemma float_near n : 0 < n <= 16383000 ->
  exists m k, SFdiv 24 128 (S754_finite false (Z.to_pos n) 0) (S754_finite false 1000 0)
              = S754_finite false m (- k)
    /\ 10 <= k /\ Zdigits2 (Z.pos m) = 24 /\ 2 * Z.abs (Z.pos m * 1000 - n * 2 ^ k) <= 1000.
Proof.
  intros Hn. destruct (thousandth_quotient n Hn) as (q & r & k & E & HP & Hr & Hq & Hk & H10).
  unfold SFdiv. rewrite Z2Pos.id, E by lia. unfold binary_round_aux.
  destruct (decide (q < 2 ^ 24)) as [Hlt|Hge].
  - rewrite shr_fexp_24 by lia. cbn [xorb].
    replace (shr_m (shr_record_of_loc q _)) with q by (by destruct (new_location 1000 r) as [|[]]).
    rewrite loc_of_shr. destruct (round_near q r Hr) as [Hm Hnear].
    cbv zeta in *. set (m := round_nearest_even q _) in *.
    destruct (decide (m = 2 ^ 24)) as [E24|Hne].
    + rewrite E24, shr_fexp_25 by lia.
      replace (shr_1 (shr_record_of_loc (2 ^ 24) loc_Exact))
        with {| shr_m := 8388608; shr_r := false; shr_s := false |} by done.
      cbn [shr_m]. rewrite (proj2 (Z.leb_le _ _)) by lia. exists 8388608%positive, (k - 1).
      assert (2 ^ k = 2 * 2 ^ (k - 1)) as Ek by (rewrite <- Z.pow_succ_r by lia; f_equal; lia).
      rewrite Ek in HP. split; [f_equal; lia|]. split; [lia|]. split; [done|]. lia.
    + rewrite shr_fexp_24 by lia. cbn [shr_record_of_loc shr_m].
    destruct m as [|p|] eqn:Em; try lia.
      rewrite (proj2 (Z.leb_le _ _)) by lia. exists p, k.
      split; [done|]. split; [lia|]. split; [apply Zdigits2_range; lia|]. lia.
  - rewrite shr_fexp_25 by lia. cbn [xorb].
    destruct (round_near_shifted q r) as [Hm Hnear]; [lia..|]. cbv zeta in *.
    set (m := round_nearest_even _ _) in *. assert (2 ^ 23 <= m < 2 ^ 24) as Hmb.
    { Z.div_mod_to_equations. lia. }
    rewrite shr_fexp_24 by lia. cbn [shr_record_of_loc shr_m].
    destruct m as [|p|] eqn:Em; try lia.
    rewrite (proj2 (Z.leb_le _ _)) by lia. exists p, (k - 1).
    assert (2 ^ k = 2 * 2 ^ (k - 1)) as Ek by (rewrite <- Z.pow_succ_r by lia; f_equal; lia).
    rewrite Ek in HP. split; [f_equal; lia|]. split; [lia|]. split; [apply Zdigits2_range; lia|]. lia.
Qed.

Lemma round_shift_near x n k : 0 < k -> 2 * Z.abs (x - n * 2 ^ k) < 2 ^ k -> round_shift x k = n.
Proof.
  intros Hk Hx. unfold round_shift.
  assert (x / 2 ^ k = n /\ 2 * (x mod 2 ^ k) < 2 ^ k
          \/ x / 2 ^ k = n - 1 /\ 2 ^ k < 2 * (x mod 2 ^ k)) as [[-> ?]|[-> ?]].
  { pose proof (Z.div_mod x (2 ^ k)) as Hd. pose proof (Z.mod_pos_bound x (2 ^ k)) as Hm.
    set (p := 2 ^ k) in *. set (q := x / p) in *. set (r := x mod p) in *.
    assert (q = n \/ q = n - 1) as [-> | ->] by nia; [left|right]; split; nia. }
  - destruct (Z.compare_spec (2 * (x mod 2 ^ k)) (2 ^ k)); lia.
  - destruct (Z.compare_spec (2 * (x mod 2 ^ k)) (2 ^ k)); lia.
Qed.

Lemma show_fixed_finite m e :
  show_fixed 3 (S754_finite false m e) = fixed_text (thousandths (S754_finite false m e)).
Proof. done. Qed.

(** A printed time is read as the float that prints the same. *)
Lemma thousandths_read n : 0 <= n <= 16383000 ->
  exists f, stof (fixed_text n) = inl f /\ show_fixed 3 f = fixed_text n.
Proof.
  intros Hn. unfold stof. rewrite c_str_id, strtof_fixed by
    (lia || (eapply all_chars_impl; [|apply fixed_text_chars; lia];
             intros c Hc%fixed_char_code; apply negb_true_iff, Z.eqb_neq; lia)).
  destruct n as [|p|]; [by exists (S754_zero false)| |lia].
  unfold numeral_value, round_to. change (0 <=? -3) with false. cbv iota.
  change (Z.to_pos (10 ^ (- -3))) with 1000%positive.
  destruct (float_near (Z.pos p)) as (m & k & E & Hk & Hm & Hnear); [lia|].
  simpl Z.to_pos in E. rewrite E, Hm. exists (S754_finite false m (- k)). split; [done|].
  rewrite show_fixed_finite. unfold thousandths. rewrite (proj2 (Z.leb_gt _ _)) by lia.
  rewrite Z.opp_involutive. f_equal. apply round_shift_near; [lia|].
  assert (2 ^ 10 <= 2 ^ k) by (apply Z.pow_le_mono_r; lia). lia.
Qed.
