(* ===== verification/GpuTime.v ===== *)
(** * GpuTime: GPU times of frames, command buffers and render passes

    Models [GPUTime] of [src/gpu_time/gpu_time.{h,cpp}]: the hooks that a layer
    calls around Vulkan commands, the timestamp slots they hand out, and the
    evaluation of the timestamps at a frame boundary.

    The Vulkan functions it is given are the class [VulkanApi] over a world [G]
    (not code of this repository); [None] is undefined behaviour (an access
    outside of an array, a null pointer). Every hook holds the object's mutex,
    so it is one step; [OnQueueSubmit] lets go of it while it waits for the
    device, so its two halves are also given separately. *)

From S2P Require Import Prelude FrameBoundary SlotAllocator FrameMetrics.

#[local] Open Scope Z_scope.

(** Results land in [m_timestamps_with_availability], one pair of value and
    availability per slot. *)
Abbreviation Timestamps := (list (Z * Z)).

Class VulkanApi (G : Type) := {
  vkCreateQueryPool : Z -> Z -> Z -> G -> (Z * Z) * G;  (* device, count, allocator: result, pool *)
  vkResetQueryPool : Z -> Z -> Z -> Z -> G -> G;
  vkDestroyQueryPool : Z -> Z -> Z -> G -> G;
  vkQueueWaitIdle : Z -> G -> G;
  vkDeviceWaitIdle : Z -> G -> G;
  vkCmdWriteTimestamp : Z -> Z -> Z -> Z -> G -> G;     (* command buffer, stage, pool, query *)
  (** results of all slots with 64 bits and availability, over a buffer *)
  vkGetQueryPoolResults : Z -> Z -> Timestamps -> G -> (Z * Timestamps) * G;
  sleep_for : Z -> G -> G
}.

(** The driver writes into the buffer, it does not move it. *)
Class VulkanLaws (G : Type) `{VulkanApi G} := {
  results_length : forall device pool ts g,
    length (snd (fst (vkGetQueryPoolResults device pool ts g))) = length ts
}.

Definition VK_SUCCESS : Z := 0.
Definition VK_NOT_READY : Z := 1.
Definition VK_COMMAND_BUFFER_USAGE_ONE_TIME_SUBMIT_BIT : Z := 1.
Definition VK_COMMAND_BUFFER_USAGE_SIMULTANEOUS_USE_BIT : Z := 4.
Definition VK_PIPELINE_STAGE_TOP_OF_PIPE_BIT : Z := 1.
Definition VK_PIPELINE_STAGE_BOTTOM_OF_PIPE_BIT : Z := 8192.

Record GpuTimeStatus := mkGpuTimeStatus { gts_message : string; success : bool }.
Definition GpuOk : GpuTimeStatus := mkGpuTimeStatus "" true.

Record SubmitStatus := mkSubmitStatus { gpu_time_status : GpuTimeStatus; contains_frame_boundary : bool }.

Record CommandBufferInfo := mkCmdInfo {
  renderpass_slots : list Z;
  pool : VkCommandPool;
  begin_timestamp_offset : Z;
  end_timestamp_offset : Z;
  usage_one_submit : bool;
  reusable : bool
}.

Definition default_CommandBufferInfo : CommandBufferInfo :=
  mkCmdInfo [] VK_NULL_HANDLE kInvalidIndex kInvalidIndex false false.

(** [CommandBufferInfo::Reset]. *)
Definition Info_Reset (i : CommandBufferInfo) : CommandBufferInfo :=
  mkCmdInfo (renderpass_slots i) (pool i) (begin_timestamp_offset i) (end_timestamp_offset i) false false.

Definition set_slots l (i : CommandBufferInfo) :=
  mkCmdInfo l (pool i) (begin_timestamp_offset i) (end_timestamp_offset i) (usage_one_submit i) (reusable i).
Definition set_usage one_submit reuse (i : CommandBufferInfo) :=
  mkCmdInfo (renderpass_slots i) (pool i) (begin_timestamp_offset i) (end_timestamp_offset i) one_submit reuse.

Record GPUTime := mkGPUTime {
  m_boundary_detector : FrameBoundaryDetector;
  m_timestamps_with_availability : Timestamps;
  m_metrics : FrameMetrics;
  m_queues : gset Z;
  m_cmds : gmap VkCommandBuffer CommandBufferInfo;
  m_frame_cmds : list VkCommandBuffer;
  m_timestamp_allocator : TimeStampSlotAllocator;
  m_device : Z;
  m_allocator : Z;
  m_query_pool : Z;
  m_timestamp_period : double;
  m_frame_index : Z;
  m_valid_frame : bool;
  m_enable : bool
}.

Definition new_GPUTime : GPUTime :=
  mkGPUTime ∅ (replicate (Z.to_nat kTotalSlots) (0, 0)) new_FrameMetrics ∅ ∅ [] Allocator_Reset
    VK_NULL_HANDLE 0 VK_NULL_HANDLE d_zero 0 true false.

Definition set_detector x (t : GPUTime) := mkGPUTime x (m_timestamps_with_availability t) (m_metrics t) (m_queues t) (m_cmds t) (m_frame_cmds t) (m_timestamp_allocator t) (m_device t) (m_allocator t) (m_query_pool t) (m_timestamp_period t) (m_frame_index t) (m_valid_frame t) (m_enable t).
Definition set_timestamps x (t : GPUTime) := mkGPUTime (m_boundary_detector t) x (m_metrics t) (m_queues t) (m_cmds t) (m_frame_cmds t) (m_timestamp_allocator t) (m_device t) (m_allocator t) (m_query_pool t) (m_timestamp_period t) (m_frame_index t) (m_valid_frame t) (m_enable t).
Definition set_metrics x (t : GPUTime) := mkGPUTime (m_boundary_detector t) (m_timestamps_with_availability t) x (m_queues t) (m_cmds t) (m_frame_cmds t) (m_timestamp_allocator t) (m_device t) (m_allocator t) (m_query_pool t) (m_timestamp_period t) (m_frame_index t) (m_valid_frame t) (m_enable t).
Definition set_queues x (t : GPUTime) := mkGPUTime (m_boundary_detector t) (m_timestamps_with_availability t) (m_metrics t) x (m_cmds t) (m_frame_cmds t) (m_timestamp_allocator t) (m_device t) (m_allocator t) (m_query_pool t) (m_timestamp_period t) (m_frame_index t) (m_valid_frame t) (m_enable t).
Definition set_cmds x (t : GPUTime) := mkGPUTime (m_boundary_detector t) (m_timestamps_with_availability t) (m_metrics t) (m_queues t) x (m_frame_cmds t) (m_timestamp_allocator t) (m_device t) (m_allocator t) (m_query_pool t) (m_timestamp_period t) (m_frame_index t) (m_valid_frame t) (m_enable t).
Definition set_frame_cmds x (t : GPUTime) := mkGPUTime (m_boundary_detector t) (m_timestamps_with_availability t) (m_metrics t) (m_queues t) (m_cmds t) x (m_timestamp_allocator t) (m_device t) (m_allocator t) (m_query_pool t) (m_timestamp_period t) (m_frame_index t) (m_valid_frame t) (m_enable t).
Definition set_allocator x (t : GPUTime) := mkGPUTime (m_boundary_detector t) (m_timestamps_with_availability t) (m_metrics t) (m_queues t) (m_cmds t) (m_frame_cmds t) x (m_device t) (m_allocator t) (m_query_pool t) (m_timestamp_period t) (m_frame_index t) (m_valid_frame t) (m_enable t).
Definition set_device dev alloc qp period (t : GPUTime) := mkGPUTime (m_boundary_detector t) (m_timestamps_with_availability t) (m_metrics t) (m_queues t) (m_cmds t) (m_frame_cmds t) (m_timestamp_allocator t) dev alloc qp period (m_frame_index t) (m_valid_frame t) (m_enable t).
Definition set_frame_index x (t : GPUTime) := mkGPUTime (m_boundary_detector t) (m_timestamps_with_availability t) (m_metrics t) (m_queues t) (m_cmds t) (m_frame_cmds t) (m_timestamp_allocator t) (m_device t) (m_allocator t) (m_query_pool t) (m_timestamp_period t) x (m_valid_frame t) (m_enable t).
Definition set_valid_frame x (t : GPUTime) := mkGPUTime (m_boundary_detector t) (m_timestamps_with_availability t) (m_metrics t) (m_queues t) (m_cmds t) (m_frame_cmds t) (m_timestamp_allocator t) (m_device t) (m_allocator t) (m_query_pool t) (m_timestamp_period t) (m_frame_index t) x (m_enable t).
Definition SetEnable x (t : GPUTime) := mkGPUTime (m_boundary_detector t) (m_timestamps_with_availability t) (m_metrics t) (m_queues t) (m_cmds t) (m_frame_cmds t) (m_timestamp_allocator t) (m_device t) (m_allocator t) (m_query_pool t) (m_timestamp_period t) (m_frame_index t) (m_valid_frame t) x.

(** The elements [p[0]], ..., [p[count - 1]] of an array. *)
Definition array_elements {A} (count : nat) (p : option (list A)) : option (list A) :=
  match count, p with
  | O, _ => Some []
  | _, None => None
  | _, Some l => if (count <=? length l)%nat then Some (take count l) else None
  end.

(** Hexadecimal digits, at least [width] of them. *)
Fixpoint hex_digits (fuel : nat) (z : Z) : string :=
  match fuel with
  | O => ""
  | S fuel =>
      let digit := default Ascii.zero (String.get (Z.to_nat (z mod 16)) "0123456789abcdef") in
      (if z / 16 =? 0 then "" else hex_digits fuel (z / 16)) +:+ String digit ""
  end.
Definition show_hex (width : nat) (z : Z) : string := pad width (hex_digits 16 z).
Definition show_ptr (z : Z) : string := "0x" +:+ show_hex 1 z.

(** ** State changes that call no Vulkan function *)

Definition free_slots (slots : list Z) (t : GPUTime) : option GPUTime :=
  a ← FreeSlots slots (m_timestamp_allocator t); Some (set_allocator a t).

Definition RemoveCmdFromFrameCache (cmd : VkCommandBuffer) (t : GPUTime) : option GPUTime :=
  match m_cmds t !! cmd with
  | None => Some t
  | Some info =>
      t ← free_slots (renderpass_slots info) t;
      let t := set_cmds (<[cmd := Info_Reset (set_slots [] info)]> (m_cmds t)) t in
      Some (set_frame_cmds (filter (fun c => c <> cmd) (m_frame_cmds t)) t)
  end.

(** What a free and a pool's destruction do to one command buffer. *)
Definition drop_cmd (cmd : VkCommandBuffer) (info : CommandBufferInfo) (t : GPUTime) : option GPUTime :=
  t ← free_slots [begin_timestamp_offset info; end_timestamp_offset info] t;
  t ← RemoveCmdFromFrameCache cmd t;
  Some (set_cmds (delete cmd (m_cmds t)) t).

Fixpoint foldM {A S} (f : A -> S -> option S) (l : list A) (s : S) : option S :=
  match l with [] => Some s | x :: l => s ← f x s; foldM f l s end.

(** The iteration order of the hash map is some order of its entries. *)
Definition OnDestroyCommandPool (command_pool : VkCommandPool) (t : GPUTime)
  : option (GpuTimeStatus * GPUTime) :=
  if command_pool =? VK_NULL_HANDLE then Some (GpuOk, t)
  else
    t ← foldM (fun '(cmd, info) t => if pool info =? command_pool then drop_cmd cmd info t else Some t)
          (map_to_list (m_cmds t)) t;
    Some (GpuOk, t).

(** The loop of [OnAllocateCommandBuffers]; it can return early. *)
Fixpoint allocate_cmds (command_pool : VkCommandPool) (cmds : list VkCommandBuffer) (t : GPUTime)
  : GpuTimeStatus * GPUTime :=
  match cmds with
  | [] => (GpuOk, t)
  | cmd :: cmds =>
      match m_cmds t !! cmd with
      | Some _ =>
          (mkGpuTimeStatus (show_ptr cmd +:+ " has been already added!") false, set_valid_frame false t)
      | None =>
          let '(begin_slot, a) := AllocateSlot (m_timestamp_allocator t) in
          let '(end_slot, a) := AllocateSlot a in
          let t := set_allocator a t in
          if (begin_slot =? kInvalidIndex) || (end_slot =? kInvalidIndex) then
            (mkGpuTimeStatus "Exceeded maximum number of query slots." false, t)
          else
            allocate_cmds command_pool cmds
              (set_cmds (<[cmd := mkCmdInfo [] command_pool begin_slot end_slot false false]> (m_cmds t)) t)
      end
  end.

Definition OnAllocateCommandBuffers (allocate_info : option VkCommandBufferAllocateInfo)
    (command_buffers : option (list VkCommandBuffer)) (t : GPUTime) : option (GpuTimeStatus * GPUTime) :=
  let t := set_detector (Detector_OnAllocateCommandBuffers allocate_info command_buffers
                           (m_boundary_detector t)) t in
  info ← allocate_info;
  if level_secondary info then Some (GpuOk, t)
  else
    cmds ← array_elements (allocateCount info) command_buffers;
    Some (allocate_cmds (commandPool info) cmds t).

Definition OnFreeCommandBuffers (command_buffer_count : nat)
    (command_buffers : option (list VkCommandBuffer)) (t : GPUTime) : option (GpuTimeStatus * GPUTime) :=
  let t := set_detector (Detector_OnFreeCommandBuffers command_buffer_count command_buffers
                           (m_boundary_detector t)) t in
  cmds ← array_elements command_buffer_count command_buffers;
  t ← foldM (fun cmd t => match m_cmds t !! cmd with
                          | None => Some t
                          | Some info => drop_cmd cmd info t
                          end) cmds t;
  Some (GpuOk, t).

Definition OnResetCommandBuffer (cmd : VkCommandBuffer) (t : GPUTime) : option (GpuTimeStatus * GPUTime) :=
  let t := set_detector (Detector_OnResetCommandBuffer cmd (m_boundary_detector t)) t in
  match m_cmds t !! cmd with
  | None => Some (GpuOk, t)
  | Some _ => t ← RemoveCmdFromFrameCache cmd t; Some (GpuOk, t)
  end.

Definition OnResetCommandPool (command_pool : VkCommandPool) (t : GPUTime)
  : option (GpuTimeStatus * GPUTime) :=
  let t := set_detector (Detector_OnResetCommandPool command_pool (m_boundary_detector t)) t in
  t ← foldM (fun '(cmd, info) t =>
               if pool info =? command_pool then RemoveCmdFromFrameCache cmd t else Some t)
        (map_to_list (m_cmds t)) t;
  Some (GpuOk, t).

Definition OnGetDeviceQueue (queue : Z) (t : GPUTime) : GpuTimeStatus * GPUTime :=
  (GpuOk, set_queues ({[ queue ]} ∪ m_queues t) t).
Definition OnGetDeviceQueue2 (queue : Z) (t : GPUTime) : GpuTimeStatus * GPUTime :=
  (GpuOk, set_queues ({[ queue ]} ∪ m_queues t) t).

Definition OnCmdInsertDebugUtilsLabelEXT (cmd : VkCommandBuffer) (label : option string) (t : GPUTime)
  : GpuTimeStatus * GPUTime :=
  let '(status, d) := MarkBoundary cmd label (m_boundary_detector t) in
  let t := set_detector d t in
  if negb (bs_success status) then (mkGpuTimeStatus (bs_message status) false, t) else (GpuOk, t).

Definition ClearFrameCache (t : GPUTime) : GPUTime := set_frame_cmds [] t.

(** ** Hooks that call Vulkan *)

Section Hooks.
Context {G : Type} `{VulkanApi G}.

Abbreviation HookM A := (option (A * (GPUTime * G))).

Definition OnCreateDevice (device allocator : Z) (timestamp_period : double) : GPUTime * G ->
    GpuTimeStatus * (GPUTime * G) := fun '(t, g) =>
  if device =? VK_NULL_HANDLE then
    (mkGpuTimeStatus "Need to pass in a valid device!" false, (set_valid_frame false t, g))
  else
    let '((result, query_pool), g) := vkCreateQueryPool device kTotalSlots allocator g in
    let t := set_device device allocator query_pool timestamp_period t in
    if negb (result =? VK_SUCCESS) then
      (mkGpuTimeStatus ("vkCreateQueryPool failed with VkResult: " +:+ pretty result) false,
       (set_valid_frame false t, g))
    else (GpuOk, (t, vkResetQueryPool device query_pool 0 kTotalSlots g)).

(** The first two returns say [success] although they carry a message. *)
Definition OnDestroyDevice (device : Z) : GPUTime * G -> GpuTimeStatus * (GPUTime * G) := fun '(t, g) =>
  if negb (device =? m_device t) then
    (mkGpuTimeStatus "Not destroying the cached device!" true, (t, g))
  else if negb (m_device t =? VK_NULL_HANDLE) && negb (m_query_pool t =? VK_NULL_HANDLE) then
    if bool_decide (m_queues t = ∅) then (mkGpuTimeStatus "vk queue is empty!" true, (t, g))
    else
      let g := fold_left (fun g q => vkQueueWaitIdle q g) (elements (m_queues t)) g in
      let g := vkDestroyQueryPool (m_device t) (m_query_pool t) (m_allocator t) g in
      (GpuOk, (set_device VK_NULL_HANDLE 0 VK_NULL_HANDLE (m_timestamp_period t)
                 (set_queues ∅ t), g))
  else
    (GpuOk, (set_device VK_NULL_HANDLE (m_allocator t) (m_query_pool t) (m_timestamp_period t) t, g)).

(** The destructor. *)
Definition GPUTime_destroy : GPUTime * G -> G := fun '(t, g) =>
  if negb (m_query_pool t =? VK_NULL_HANDLE)
  then vkDestroyQueryPool (m_device t) (m_query_pool t) (m_allocator t) g else g.

Definition OnBeginCommandBuffer (cmd : VkCommandBuffer) (flags : Z) : GPUTime * G -> HookM GpuTimeStatus :=
  fun '(t, g) =>
  if negb (m_enable t) then Some (GpuOk, (t, g))
  else
    match m_cmds t !! cmd with
    | None => Some (GpuOk, (t, g))
    | Some info =>
        t ← free_slots (renderpass_slots info) t;
        let info := set_slots [] info in
        let info := if usage_one_submit info then Info_Reset info else info in
        let info := set_usage
          (negb (Z.land flags VK_COMMAND_BUFFER_USAGE_ONE_TIME_SUBMIT_BIT =? 0))
          (negb (Z.land flags VK_COMMAND_BUFFER_USAGE_SIMULTANEOUS_USE_BIT =? 0)) info in
        let t := set_cmds (<[cmd := info]> (m_cmds t)) t in
        Some (GpuOk, (t, vkCmdWriteTimestamp cmd VK_PIPELINE_STAGE_TOP_OF_PIPE_BIT (m_query_pool t)
                           (begin_timestamp_offset info) g))
    end.

Definition OnEndCommandBuffer (cmd : VkCommandBuffer) : GPUTime * G -> HookM GpuTimeStatus :=
  fun '(t, g) =>
  if negb (m_enable t) then Some (GpuOk, (t, g))
  else
    match m_cmds t !! cmd with
    | None => Some (GpuOk, (t, g))
    | Some info =>
        Some (GpuOk, (t, vkCmdWriteTimestamp cmd VK_PIPELINE_STAGE_BOTTOM_OF_PIPE_BIT (m_query_pool t)
                           (end_timestamp_offset info) g))
    end.

(** [BeginRenderPass] and [EndRenderPass] differ in the stage only. *)
Definition mark_render_pass (stage : Z) (cmd : VkCommandBuffer) : GPUTime * G -> HookM GpuTimeStatus :=
  fun '(t, g) =>
  if negb (m_enable t) then Some (GpuOk, (t, g))
  else
    match m_cmds t !! cmd with
    | None => Some (GpuOk, (t, g))
    | Some info =>
        let '(slot, a) := AllocateSlot (m_timestamp_allocator t) in
        let t := set_allocator a t in
        let t := set_cmds (<[cmd := set_slots (renderpass_slots info ++ [slot]) info]> (m_cmds t)) t in
        Some (GpuOk, (t, vkCmdWriteTimestamp cmd stage (m_query_pool t) slot g))
    end.

Definition BeginRenderPass := mark_render_pass VK_PIPELINE_STAGE_TOP_OF_PIPE_BIT.
Definition EndRenderPass := mark_render_pass VK_PIPELINE_STAGE_BOTTOM_OF_PIPE_BIT.

Definition OnCmdBeginRenderPass := BeginRenderPass.
Definition OnCmdEndRenderPass := EndRenderPass.
Definition OnCmdBeginRenderPass2 := BeginRenderPass.
Definition OnCmdEndRenderPass2 := EndRenderPass.
Definition OnCmdBeginRenderPass2KHR := BeginRenderPass.
Definition OnCmdEndRenderPass2KHR := EndRenderPass.

(** *** The frame boundary *)

Definition get_results : GPUTime * G -> Z * (GPUTime * G) := fun '(t, g) =>
  let '((result, ts), g) :=
    vkGetQueryPoolResults (m_device t) (m_query_pool t) (m_timestamps_with_availability t) g in
  (result, (set_timestamps ts t, g)).

Definition timestamp (t : GPUTime) (slot : Z) : option Z :=
  fst <$> m_timestamps_with_availability t !! Z.to_nat slot.
Definition availability (t : GPUTime) (slot : Z) : option Z :=
  snd <$> m_timestamps_with_availability t !! Z.to_nat slot.

(** The [for] loop inside the wait: whether both timestamps of every command
    buffer of the frame are available, up to the first one that is not. *)
Fixpoint all_available (cmds : list VkCommandBuffer) (t : GPUTime) : option bool :=
  match cmds with
  | [] => Some true
  | cmd :: cmds =>
      match m_cmds t !! cmd with
      | None => all_available cmds t
      | Some info =>
          let begin_offset := begin_timestamp_offset info in
          let end_offset := end_timestamp_offset info in
          if (begin_offset =? kInvalidIndex) || (end_offset =? kInvalidIndex)
          then all_available cmds t
          else
            availability_end ← availability t end_offset;
            availability_begin ← availability t begin_offset;
            if (availability_begin =? 0) || (availability_end =? 0) then Some false
            else all_available cmds t
      end
  end.

Definition kMaxQueryCount : nat := 5.

(** The [do ... while]; [n] is [kMaxQueryCount - query_count], and the result
    is [all_timestamp_available]. *)
Fixpoint wait_available (n : nat) (s : GPUTime * G) : HookM bool :=
  match n with
  | O => Some (false, s)
  | S n =>
      all ← all_available (m_frame_cmds (fst s)) (fst s);
      if (all : bool) then Some (true, s)
      else
        let '(t, g) := s in
        let '(_, s) := get_results (t, sleep_for 14 g) in
        wait_available n s
  end.

(** The report of a wait that gave up. [m_cmds[cmd]] makes an entry when
    there is none. *)
Fixpoint unavailable_report (cmd_index : Z) (cmds : list VkCommandBuffer) (t : GPUTime)
  : option (string * GPUTime) :=
  match cmds with
  | [] => Some ("", t)
  | cmd :: cmds =>
      let info := default default_CommandBufferInfo (m_cmds t !! cmd) in
      let t := set_cmds (<[cmd := info]> (m_cmds t)) t in
      let b := begin_timestamp_offset info in
      let e := end_timestamp_offset info in
      avail ← (if negb (b =? kInvalidIndex) && negb (e =? kInvalidIndex) then
                 ae ← availability t e; ab ← availability t b; Some (ab, ae)
               else Some (0, 0));
      rest ← unavailable_report (cmd_index + 1) cmds t;
      Some (pretty cmd_index
            +:+ (if (fst avail =? 0) || (snd avail =? 0) then "_NA: " else "_A : ")
            +:+ "0x" +:+ show_hex 4 (Z.land cmd 65535) +:+ " : S" +:+ pretty b +:+ " : E" +:+ pretty e
            +:+ newline +:+ fst rest, snd rest)
  end.

Definition kNanoToMilli : double := d_div (d_of_Z 1) (d_of_Z 1000000).

(** The lambda [GetTimeDuration]; the inner [None] is [std::nullopt]. *)
Definition GetTimeDuration (begin_offset end_offset : Z) (t : GPUTime) : option (option double) :=
  if (begin_offset =? kInvalidIndex) || (end_offset =? kInvalidIndex) then Some None
  else
    availability_end ← availability t end_offset;
    availability_begin ← availability t begin_offset;
    if (availability_begin =? 0) || (availability_end =? 0) then Some None
    else
      e ← timestamp t end_offset;
      b ← timestamp t begin_offset;
      let elapsed_timestamp_increments := wrap 64 (e - b) in
      Some (Some (d_mul (d_mul (d_of_Z elapsed_timestamp_increments) (m_timestamp_period t)) kNanoToMilli)).

(** The inner loop over [renderpass_slots], two at a time. The inner [inl]
    is the index of the render pass whose result is missing. *)
Fixpoint renderpass_durations (r : Z) (slots : list Z) (t : GPUTime)
  : option (Z + list double) :=
  match slots with
  | [] => Some (inr [])
  | [_] => None
  | b :: e :: slots =>
      d ← GetTimeDuration b e t;
      match d with
      | None => Some (inl r)
      | Some ms =>
          rest ← renderpass_durations (r + 2) slots t;
          Some (match rest with inl r => inl r | inr ds => inr (ms :: ds) end)
      end
  end.

Record FrameTimes := mkFrameTimes {
  frame_time : double;
  cmds_time : list double;
  renderpasses_time : list double;
  cmd_renderpass_counts : list Z
}.

Definition offsets_text (info : CommandBufferInfo) : string :=
  " Begin Offset:" +:+ pretty (begin_timestamp_offset info)
  +:+ " End Offset:" +:+ pretty (end_timestamp_offset info).

(** The loop over the frame's command buffers; the inner [inl] is the message
    of the failure. *)
Fixpoint frame_durations (cmds : list VkCommandBuffer) (acc : FrameTimes) (t : GPUTime)
  : option (string + FrameTimes) :=
  match cmds with
  | [] => Some (inr acc)
  | cmd :: cmds =>
      match m_cmds t !! cmd with
      | None => frame_durations cmds acc t
      | Some info =>
          d ← GetTimeDuration (begin_timestamp_offset info) (end_timestamp_offset info) t;
          match d with
          | None => Some (inl ("Query result is not available for cmd " +:+ show_ptr cmd
                               +:+ offsets_text info))
          | Some ms =>
              rps ← renderpass_durations 0 (renderpass_slots info) t;
              match rps with
              | inl r => Some (inl ("Query result is not available for renderpass " +:+ pretty r
                                    +:+ " in the cmd " +:+ show_ptr cmd +:+ offsets_text info))
              | inr ds =>
                  frame_durations cmds
                    (mkFrameTimes (d_add (frame_time acc) ms) (cmds_time acc ++ [ms])
                       (renderpasses_time acc ++ ds)
                       (cmd_renderpass_counts acc ++ [Z.of_nat (length (renderpass_slots info)) / 2])) t
              end
          end
      end
  end.

(** The evaluation behind the wait. *)
Definition evaluate_frame (s : GPUTime * G) : HookM GpuTimeStatus :=
  let '(t, g) := s in
  r ← frame_durations (m_frame_cmds t) (mkFrameTimes d_zero [] [] []) t;
  match r with
  | inl message => Some (mkGpuTimeStatus message false, (set_valid_frame false t, g))
  | inr f =>
      if m_valid_frame t then
        m ← AddFrameData (frame_time f) (cmds_time f) (renderpasses_time f)
              (cmd_renderpass_counts f) (m_metrics t);
        Some (GpuOk, (set_metrics m t, g))
      else Some (GpuOk, (t, g))
  end.

Definition UpdateFrameMetrics (s : GPUTime * G) : HookM GpuTimeStatus :=
  let '(result, s) := get_results s in
  if result =? VK_SUCCESS then evaluate_frame s
  else if result =? VK_NOT_READY then
    w ← wait_available kMaxQueryCount s;
    let '(all_timestamp_available, s) := w in
    if (all_timestamp_available : bool) then evaluate_frame s
    else
      let '(t, g) := s in
      let t := set_valid_frame false t in
      rep ← unavailable_report 0 (m_frame_cmds t) t;
      Some (mkGpuTimeStatus (pretty (Z.of_nat (length (m_frame_cmds t))) +:+ " cmds:" +:+ newline
                             +:+ fst rep) false, (snd rep, g))
  else
    Some (mkGpuTimeStatus ("vkGetQueryPoolResults failed with VkResult: " +:+ pretty result) false,
          (set_valid_frame false (fst s), snd s)).

Definition OnFrameBoundary (s : GPUTime * G) : HookM GpuTimeStatus :=
  u ← (if m_valid_frame (fst s) then UpdateFrameMetrics s else Some (GpuOk, s));
  let '(update_status, (t, g)) := u in
  let t := set_frame_index (wrap 64 (m_frame_index t + 1)) t in
  let t := set_frame_cmds [] t in
  let g := vkResetQueryPool (m_device t) (m_query_pool t) 0 kTotalSlots g in
  Some (update_status, (set_valid_frame true t, g)).

(** *** Submission *)

(** The command buffers of one submit structure, appended to the frame; an
    early return carries its status. *)
Fixpoint collect_cmds (cmds : list VkCommandBuffer) (t : GPUTime) : option SubmitStatus * GPUTime :=
  match cmds with
  | [] => (None, t)
  | cmd :: cmds =>
      match m_cmds t !! cmd with
      | None =>
          (Some (mkSubmitStatus (mkGpuTimeStatus (show_ptr cmd +:+ " is not in the cmd cache!") false) false),
           set_valid_frame false t)
      | Some info =>
          if reusable info then
            (Some (mkSubmitStatus (mkGpuTimeStatus (show_ptr cmd +:+ " Reusable cmd is not supported!") false)
                     (IsFrameBoundary cmd (m_boundary_detector t))),
             set_valid_frame false t)
          else collect_cmds cmds (set_frame_cmds (m_frame_cmds t ++ [cmd]) t)
      end
  end.

Fixpoint collect_submits (submits : list VkSubmitInfo) (t : GPUTime)
  : option (option SubmitStatus * GPUTime) :=
  match submits with
  | [] => Some (None, t)
  | s :: submits =>
      cmds ← array_elements (commandBufferCount s) (pCommandBuffers s);
      match collect_cmds cmds t with
      | (Some st, t) => Some (Some st, t)
      | (None, t) => collect_submits submits t
      end
  end.

(** The first half of [OnQueueSubmit], under the lock. *)
Definition submit_collect (submits : option (list VkSubmitInfo)) (t : GPUTime)
  : option (option SubmitStatus * GPUTime) :=
  match submits with
  | None => Some (None, t)
  | Some submits =>
      first ← head submits;
      match pCommandBuffers first with
      | None => Some (None, t)
      | Some _ => collect_submits submits t
      end
  end.

Definition OnQueueSubmit (submits : option (list VkSubmitInfo)) (s : GPUTime * G)
  : HookM SubmitStatus :=
  let '(t, g) := s in
  if negb (m_enable t) then Some (mkSubmitStatus GpuOk false, (t, g))
  else
    let is_frame_boundary := ContainsFrameBoundary submits (m_boundary_detector t) in
    c ← submit_collect submits t;
    match c with
    | (Some status, t) => Some (status, (t, g))
    | (None, t) =>
        if is_frame_boundary then
          (* the mutex is free during the wait *)
          b ← OnFrameBoundary (t, vkDeviceWaitIdle (m_device t) g);
          let '(update_status, s) := b in
          Some (mkSubmitStatus (if negb (success update_status) then update_status else GpuOk) true, s)
        else Some (mkSubmitStatus GpuOk false, (t, g))
    end.

Definition OnQueuePresent (s : GPUTime * G) : HookM GpuTimeStatus :=
  let '(t, g) := s in
  if negb (m_enable t) then Some (GpuOk, (t, g))
  else OnFrameBoundary (t, vkDeviceWaitIdle (m_device t) g).
End Hooks.

(** ** A device to evaluate on *)

(** It counts the timestamp commands it gets and has every result at once, the
    timestamp of slot [s] being [1000 * s]. *)
Definition test_results (ts : Timestamps) : Timestamps := imap (fun k _ => (1000 * Z.of_nat k, 1)) ts.

Definition test_vulkan : VulkanApi Z := {|
  vkCreateQueryPool _ _ _ g := ((VK_SUCCESS, 77), g);
  vkResetQueryPool _ _ _ _ g := g;
  vkDestroyQueryPool _ _ _ g := g;
  vkQueueWaitIdle _ g := g;
  vkDeviceWaitIdle _ g := g;
  vkCmdWriteTimestamp _ _ _ _ g := g + 1;
  vkGetQueryPoolResults _ _ ts g := ((VK_SUCCESS, test_results ts), g);
  sleep_for _ g := g
|}.
