(* ===== verification/GpuInvariant.v ===== *)
(** * GpuInvariant: which command buffer owns which timestamp slot

    The invariant [gpu_inv] of [GPUTime]: every command buffer owns its two
    slots and those of its render passes, no slot has two owners, the frame's
    command buffers are known, and the metrics and the timestamp array have the
    sizes the code relies on. Every hook that calls no more than the allocator
    keeps it. *)

From S2P Require Import Prelude FrameBoundary SlotAllocator FrameMetrics GpuTime.

#[local] Open Scope Z_scope.

(** ** Who owns which slot *)

(** The slots of a command buffer; a render pass that found the pool exhausted
    holds [kInvalidIndex], which is no slot. *)
Definition own (i : CommandBufferInfo) : list Z :=
  filter (fun s => s <> kInvalidIndex)
    (begin_timestamp_offset i :: end_timestamp_offset i :: renderpass_slots i).

Record info_ok (L : gset Z) (i : CommandBufferInfo) : Prop := mkInfoOk {
  ok_begin : begin_timestamp_offset i <> kInvalidIndex;
  ok_end : end_timestamp_offset i <> kInvalidIndex;
  ok_nodup : NoDup (own i);
  ok_live : forall s, s ∈ own i -> s ∈ L
}.

(** Every command buffer owns live slots, each at most once, and no slot has
    two owners. *)
Record slots_inv (cmds : gmap VkCommandBuffer CommandBufferInfo) (L : gset Z) : Prop := mkSlotsInv {
  si_info : forall c i, cmds !! c = Some i -> info_ok L i;
  si_disjoint : forall c1 c2 i1 i2 s, cmds !! c1 = Some i1 -> cmds !! c2 = Some i2 ->
    s ∈ own i1 -> s ∈ own i2 -> c1 = c2
}.

Lemma elem_of_own s i :
  s ∈ own i <-> s <> kInvalidIndex /\
    (s = begin_timestamp_offset i \/ s = end_timestamp_offset i \/ s ∈ renderpass_slots i).
Proof. unfold own. by rewrite list_elem_of_filter, !elem_of_cons. Qed.

Lemma own_set_usage u r i : own (set_usage u r i) = own i.
Proof. done. Qed.

Lemma own_Reset i : own (Info_Reset i) = own i.
Proof. done. Qed.

Lemma own_no_renderpass L i : info_ok L i ->
  own (set_slots [] i) = [begin_timestamp_offset i; end_timestamp_offset i] /\
  own i = [begin_timestamp_offset i; end_timestamp_offset i]
          ++ filter (fun s => s <> kInvalidIndex) (renderpass_slots i).
Proof.
  intros [Hb He _ _]. unfold own. cbn [begin_timestamp_offset end_timestamp_offset renderpass_slots set_slots].
  by rewrite !filter_cons_True by done.
Qed.

Lemma slots_inv_empty L : slots_inv ∅ L.
Proof. by split. Qed.

(** An entry keeps some of its slots, and slots of its own leave the set. *)
Lemma slots_inv_shrink cmds L cmd i i' (F : gset Z) :
  slots_inv cmds L -> cmds !! cmd = Some i ->
  (forall s, s ∈ F -> s ∈ own i \/ s ∉ L) ->
  begin_timestamp_offset i' <> kInvalidIndex -> end_timestamp_offset i' <> kInvalidIndex ->
  NoDup (own i') -> (forall s, s ∈ own i' -> s ∈ own i /\ s ∉ F) ->
  slots_inv (<[cmd := i']> cmds) (L ∖ F).
Proof.
  intros [Hinfo Hdis] Hi HF Hb He Hnd Hsub. split.
  - intros c j Hj. apply lookup_insert_Some in Hj as [[<- <-]|[Hne Hj]].
    + split; try done. intros s Hs. destruct (Hsub s Hs) as [Ho Hn].
      apply elem_of_difference. split; [by apply (Hinfo cmd i Hi)|done].
    + destruct (Hinfo c j Hj) as [? ? ? Hl]. split; try done. intros s Hs.
      apply elem_of_difference. split; [by apply Hl|]. intros HsF.
      destruct (HF s HsF) as [Ho|Hn]; [|by apply Hn, Hl].
      by apply Hne, (Hdis cmd c i j s).
  - intros c1 c2 j1 j2 s H1 H2 Hs1 Hs2.
    apply lookup_insert_Some in H1 as [[<- <-]|[Hne1 H1]];
    apply lookup_insert_Some in H2 as [[<- <-]|[Hne2 H2]]; [done| | |by eapply Hdis].
    + apply (Hdis cmd c2 i j2 s); try done. by apply Hsub.
    + apply (Hdis c1 cmd j1 i s); try done. by apply Hsub.
Qed.

Lemma slots_inv_delete cmds L cmd i (F : gset Z) :
  slots_inv cmds L -> cmds !! cmd = Some i -> (forall s, s ∈ F -> s ∈ own i \/ s ∉ L) ->
  slots_inv (delete cmd cmds) (L ∖ F).
Proof.
  intros [Hinfo Hdis] Hi HF. split.
  - intros c j Hj. apply lookup_delete_Some in Hj as [Hne Hj].
    destruct (Hinfo c j Hj) as [? ? ? Hl]. split; try done. intros s Hs.
    apply elem_of_difference. split; [by apply Hl|]. intros HsF.
    destruct (HF s HsF) as [Ho|Hn]; [|by apply Hn, Hl]. by apply Hne, (Hdis cmd c i j s).
  - intros c1 c2 j1 j2 s H1 H2. apply lookup_delete_Some in H1 as [_ H1].
    apply lookup_delete_Some in H2 as [_ H2]. by apply (Hdis c1 c2 j1 j2 s).
Qed.

(** An entry takes slots that were not live. *)
Lemma slots_inv_grow cmds L cmd i' (N : gset Z) :
  slots_inv cmds L -> N ## L ->
  begin_timestamp_offset i' <> kInvalidIndex -> end_timestamp_offset i' <> kInvalidIndex ->
  NoDup (own i') ->
  (forall s, s ∈ own i' -> s ∈ N \/ exists i, cmds !! cmd = Some i /\ s ∈ own i) ->
  slots_inv (<[cmd := i']> cmds) (N ∪ L).
Proof.
  intros [Hinfo Hdis] HN Hb He Hnd Hsub.
  assert (forall c j s, cmds !! c = Some j -> s ∈ own j -> s ∈ L) as HL
    by (intros c j s Hj Hs; by apply (Hinfo c j Hj)).
  split.
  - intros c j Hj. apply lookup_insert_Some in Hj as [[<- <-]|[Hne Hj]].
    + split; try done. intros s Hs. apply elem_of_union.
      destruct (Hsub s Hs) as [?|(i & Hi & Ho)]; [by left|right; by eapply HL].
    + destruct (Hinfo c j Hj) as [? ? ? Hl]. split; try done. intros s Hs.
      apply elem_of_union. right. by apply Hl.
  - assert (forall c j s, cmd <> c -> cmds !! c = Some j -> s ∈ own i' -> s ∈ own j -> False) as Hno.
    { intros c j s Hne Hj Hs Hs'. destruct (Hsub s Hs) as [HsN|(i & Hi & Ho)].
      - apply (HN s HsN). by eapply HL.
      - by apply Hne, (Hdis cmd c i j s). }
    intros c1 c2 j1 j2 s H1 H2 Hs1 Hs2.
    apply lookup_insert_Some in H1 as [[<- <-]|[Hne1 H1]];
    apply lookup_insert_Some in H2 as [[<- <-]|[Hne2 H2]]; [done| | |by eapply Hdis].
    + by destruct (Hno c2 j2 s).
    + by destruct (Hno c1 j1 s).
Qed.

Lemma slots_inv_mono cmds L L' : slots_inv cmds L -> L ⊆ L' -> slots_inv cmds L'.
Proof.
  intros [Hinfo Hdis] HL. split; [|done]. intros c i Hi. destruct (Hinfo c i Hi) as [? ? ? Hl].
  split; try done. intros s Hs. by apply HL, Hl.
Qed.

(** ** The invariant *)

Record gpu_inv (t : GPUTime) : Prop := mkGpuInv {
  gi_allocator : allocator_inv (m_timestamp_allocator t);
  gi_slots : slots_inv (m_cmds t) (live (m_timestamp_allocator t));
  gi_frame : forall c, c ∈ m_frame_cmds t -> is_Some (m_cmds t !! c);
  gi_timestamps : length (m_timestamps_with_availability t) = Z.to_nat kTotalSlots;
  gi_metrics : metrics_inv (m_metrics t)
}.

Lemma new_gpu_inv : gpu_inv new_GPUTime.
Proof.
  split.
  - apply Reset_inv.
  - apply slots_inv_empty.
  - intros c Hc. by apply elem_of_nil in Hc.
  - apply length_replicate.
  - apply new_metrics_inv.
Qed.

(** Slots that come from an entry. *)
Definition slot_like (s : Z) : Prop := valid_slot s \/ s = kInvalidIndex.

Lemma slot_like_nonneg s : slot_like s -> 0 <= s /\ (valid_slot s \/ kTotalSlots <= s).
Proof.
  intros [Hs| ->]; [by split; [apply Hs|left]|]. split; [by vm_compute|].
  right. apply kInvalidIndex_large.
Qed.

(** Freeing either removes exactly the slots, or the list holds an invalid
    one. *)
Lemma free_slots_spec slots t t' :
  allocator_inv (m_timestamp_allocator t) -> Forall slot_like slots ->
  free_slots slots t = Some t' ->
  Forall valid_slot slots /\
  exists a', t' = set_allocator a' t /\ allocator_inv a' /\
    live a' = live (m_timestamp_allocator t) ∖ list_to_set slots.
Proof.
  intros Hinv Hall Hf. unfold free_slots in Hf.
  destruct (decide (Forall (fun s => s <> kInvalidIndex) slots)) as [Hv|Hv].
  - assert (Forall valid_slot slots) as Hval.
    { apply Forall_forall. intros s Hs.
      pose proof (proj1 (Forall_forall _ _) Hall s Hs) as [?|?]; [done|].
      by destruct (proj1 (Forall_forall _ _) Hv s Hs). }
    split; [done|]. destruct (FreeSlots_spec _ _ Hinv Hval) as (a' & E & Hinv' & Ht).
    rewrite E in Hf. cbn in Hf. injection Hf as <-. exists a'. split; [done|]. split; [done|].
    apply set_eq. intros s. rewrite elem_of_difference, elem_of_list_to_set, !elem_of_live. split.
    + intros [Hvs Hts]. rewrite Ht, andb_true_iff, negb_true_iff, bool_decide_eq_false in Hts by done.
      tauto.
    + intros [[Hvs Hts] Hn]. split; [done|]. rewrite Ht, Hts by done. by rewrite bool_decide_eq_false_2.
  - apply not_Forall_Exists, Exists_exists in Hv as (s & Hs & Hbad); [|solve_decision].
    apply dec_stable in Hbad. subst s.
    assert (FreeSlots slots (m_timestamp_allocator t) = None) as E.
    { apply (FreeSlots_out_of_bounds slots kInvalidIndex); [exact Hinv|apply kInvalidIndex_large|exact Hs|].
      intros s Hs'. apply slot_like_nonneg. by apply (proj1 (Forall_forall _ _) Hall). }
    rewrite E in Hf. discriminate Hf.
Qed.

Lemma free_slots_total slots t :
  allocator_inv (m_timestamp_allocator t) -> Forall valid_slot slots ->
  is_Some (free_slots slots t).
Proof.
  intros Hinv Hall. unfold free_slots.
  destruct (FreeSlots_spec _ _ Hinv Hall) as (a' & -> & _). by eexists.
Qed.

Lemma free_slots_invalid slots t :
  allocator_inv (m_timestamp_allocator t) -> Forall slot_like slots -> kInvalidIndex ∈ slots ->
  free_slots slots t = None.
Proof.
  intros Hinv Hall Hin. destruct (free_slots slots t) as [t'|] eqn:E; [|done].
  apply free_slots_spec in E as [Hv _]; [|done..].
  pose proof (proj1 (Forall_forall _ _) Hv _ Hin) as Hx. by apply kInvalidIndex_invalid in Hx.
Qed.

Section Entry.
Context (t : GPUTime) (Hinv : gpu_inv t) (cmd : VkCommandBuffer) (info : CommandBufferInfo).
Context (Hi : m_cmds t !! cmd = Some info).

Lemma entry_ok : info_ok (live (m_timestamp_allocator t)) info.
Proof. by apply (si_info _ _ (gi_slots t Hinv) cmd). Qed.

Lemma entry_slot s : s = begin_timestamp_offset info \/ s = end_timestamp_offset info \/
  s ∈ renderpass_slots info -> slot_like s.
Proof.
  intros Hs. destruct (decide (s = kInvalidIndex)) as [->|Hn]; [by right|]. left.
  assert (s ∈ live (m_timestamp_allocator t)) as Hl
    by (apply (ok_live _ _ entry_ok), elem_of_own; tauto).
  by apply elem_of_live in Hl as [? _].
Qed.

Lemma entry_renderpass : Forall slot_like (renderpass_slots info).
Proof. apply Forall_forall. intros s Hs. apply entry_slot. tauto. Qed.

Lemma entry_ends : Forall valid_slot [begin_timestamp_offset info; end_timestamp_offset info].
Proof.
  pose proof entry_ok as [Hb He _ Hl].
  assert (forall s, s ∈ own info -> valid_slot s) as Hv
    by (intros s Hs; by apply Hl, elem_of_live in Hs as [? _]).
  apply Forall_cons; split; [|apply Forall_cons; split; [|by apply Forall_nil]];
    apply Hv, elem_of_own; tauto.
Qed.
End Entry.

(** ** Every hook keeps the invariant *)

#[local] Arguments free_slots : simpl never.
#[local] Arguments drop_cmd : simpl never.
#[local] Arguments RemoveCmdFromFrameCache : simpl never.

Lemma list_to_set_own (slots : list Z) (i : CommandBufferInfo) :
  Forall valid_slot slots -> (forall s, s ∈ slots -> s = begin_timestamp_offset i \/
    s = end_timestamp_offset i \/ s ∈ renderpass_slots i) ->
  forall s, s ∈ (list_to_set slots : gset Z) -> s ∈ own i.
Proof.
  intros Hv Hs s Hin. apply elem_of_list_to_set in Hin. apply elem_of_own. split; [|by apply Hs].
  intros ->. pose proof (proj1 (Forall_forall _ _) Hv _ Hin) as Hx. by apply kInvalidIndex_invalid in Hx.
Qed.

Lemma begin_end_distinct L i : info_ok L i -> forall s, s ∈ own (set_slots [] i) ->
  s ∈ own i /\ s ∉ (list_to_set (renderpass_slots i) : gset Z).
Proof.
  intros Hok s Hs. destruct (own_no_renderpass L i Hok) as [E1 E2]. rewrite E1 in Hs.
  split; [rewrite E2; apply elem_of_app; by left|].
  rewrite elem_of_list_to_set. intros Hr. pose proof (ok_nodup L i Hok) as Hnd. rewrite E2 in Hnd.
  apply NoDup_app in Hnd as (_ & Hdis & _). apply (Hdis s Hs).
  apply list_elem_of_filter. split; [|done]. rewrite !elem_of_cons, elem_of_nil in Hs.
  destruct Hs as [->|[->|[]]]; apply Hok.
Qed.

Lemma nodup_no_renderpass L i : info_ok L i -> NoDup (own (set_slots [] i)).
Proof.
  intros Hok. destruct (own_no_renderpass L i Hok) as [-> E2].
  pose proof (ok_nodup L i Hok) as Hnd. rewrite E2 in Hnd. by apply NoDup_app in Hnd as (? & _).
Qed.

(** Replacing an entry by one without render passes, whose slots were freed. *)
Lemma clear_renderpasses_inv t cmd info i' a' :
  gpu_inv t -> m_cmds t !! cmd = Some info -> own i' = own (set_slots [] info) ->
  begin_timestamp_offset i' = begin_timestamp_offset info ->
  end_timestamp_offset i' = end_timestamp_offset info ->
  Forall valid_slot (renderpass_slots info) -> allocator_inv a' ->
  live a' = live (m_timestamp_allocator t) ∖ list_to_set (renderpass_slots info) ->
  gpu_inv (set_cmds (<[cmd := i']> (m_cmds t)) (set_allocator a' t)).
Proof.
  intros Hinv Hi Hown Hb He Hv Ha Hl. pose proof (entry_ok t Hinv cmd info Hi) as Hok.
  destruct Hinv as [Hia Hsl Hfr Hts Hme]. split; cbn.
  - done.
  - rewrite Hl. apply (slots_inv_shrink _ _ cmd info i'); try done.
    + intros s Hs. left. eapply list_to_set_own; [exact Hv|tauto|exact Hs].
    + rewrite Hb. apply Hok.
    + rewrite He. apply Hok.
    + rewrite Hown. by eapply nodup_no_renderpass.
    + intros s Hs. rewrite Hown in Hs. by eapply begin_end_distinct.
  - intros c Hc. destruct (decide (c = cmd)) as [->|Hne]; [rewrite lookup_insert_eq; eauto|].
    rewrite lookup_insert_ne by done. by apply Hfr.
  - done.
  - done.
Qed.

Lemma frame_cmds_inv t l :
  gpu_inv t -> (forall c, c ∈ l -> is_Some (m_cmds t !! c)) -> gpu_inv (set_frame_cmds l t).
Proof. by intros [] Hl; split. Qed.

Lemma RemoveCmd_inv cmd t t' : gpu_inv t -> RemoveCmdFromFrameCache cmd t = Some t' ->
  gpu_inv t' /\ (forall c, is_Some (m_cmds t' !! c) <-> is_Some (m_cmds t !! c)).
Proof.
  intros Hinv. unfold RemoveCmdFromFrameCache.
  destruct (m_cmds t !! cmd) as [info|] eqn:Hi; [|by intros [= <-]].
  destruct (free_slots (renderpass_slots info) t) as [t1|] eqn:Hf; [|done]. cbn. intros [= <-].
  apply free_slots_spec in Hf as (Hv & a' & -> & Ha & Hl);
    [|apply Hinv|by eapply entry_renderpass].
  assert (gpu_inv (set_cmds (<[cmd := Info_Reset (set_slots [] info)]> (m_cmds t)) (set_allocator a' t))) as H1
    by (by eapply clear_renderpasses_inv).
  split.
  - apply (frame_cmds_inv (set_cmds (<[cmd := Info_Reset (set_slots [] info)]> (m_cmds t)) (set_allocator a' t)));
      [done|]. intros c Hc. apply list_elem_of_filter in Hc as [_ Hc]. by apply (gi_frame _ H1).
  - intros c. cbn. destruct (decide (c = cmd)) as [->|Hne].
    + rewrite lookup_insert_eq, Hi. by split; eauto.
    + by rewrite lookup_insert_ne.
Qed.

Lemma drop_cmd_inv cmd info t t' :
  gpu_inv t -> m_cmds t !! cmd = Some info -> drop_cmd cmd info t = Some t' ->
  gpu_inv t' /\ m_cmds t' = delete cmd (m_cmds t).
Proof.
  intros Hinv Hi. unfold drop_cmd.
  destruct (free_slots _ t) as [t1|] eqn:Hf; [|done]. cbn [mbind option_bind].
  pose proof (entry_ends t Hinv cmd info Hi) as Hends.
  apply free_slots_spec in Hf as (_ & a1 & -> & Ha1 & Hl1);
    [|apply Hinv|eapply Forall_impl; [exact Hends|intros x Hx; by left]].
  unfold RemoveCmdFromFrameCache. cbn [m_cmds set_allocator]. rewrite Hi.
  destruct (free_slots (renderpass_slots info) (set_allocator a1 t)) as [t2|] eqn:Hf2; [|done].
  cbn [mbind option_bind]. intros [= <-].
  apply free_slots_spec in Hf2 as (Hv & a2 & -> & Ha2 & Hl2);
    [|done|by apply (entry_renderpass t Hinv cmd)].
  cbn. cbn in Hl2. split; [|by rewrite delete_insert_eq].
  rewrite delete_insert_eq. destruct Hinv as [Hia Hsl Hfr Hts Hme]. split; cbn; try done.
  - rewrite Hl2, Hl1. rewrite difference_difference_l_L. apply (slots_inv_delete _ _ cmd info); try done.
    intros s Hs. left. apply elem_of_union in Hs as [Hs|Hs].
    + eapply list_to_set_own; [exact Hends| |exact Hs]. intros x Hx.
      rewrite !elem_of_cons, elem_of_nil in Hx. tauto.
    + eapply list_to_set_own; [exact Hv|tauto|exact Hs].
  - intros c Hc. apply list_elem_of_filter in Hc as [Hne Hc]. rewrite lookup_delete_ne by done.
    by apply Hfr.
Qed.

Lemma detector_inv t d : gpu_inv t -> gpu_inv (set_detector d t).
Proof. by intros []; split. Qed.

Lemma valid_frame_inv t b : gpu_inv t -> gpu_inv (set_valid_frame b t).
Proof. by intros []; split. Qed.

Lemma OnResetCommandBuffer_inv cmd t st t' :
  gpu_inv t -> OnResetCommandBuffer cmd t = Some (st, t') -> gpu_inv t'.
Proof.
  intros Hinv. unfold OnResetCommandBuffer.
  set (t1 := set_detector _ t). assert (gpu_inv t1) as H1 by (by apply detector_inv).
  clearbody t1.
  destruct (m_cmds t1 !! cmd); [|by intros [= <- <-]].
  destruct (RemoveCmdFromFrameCache cmd t1) as [t2|] eqn:E; [|done]. cbn. intros [= <- <-].
  by apply RemoveCmd_inv in E as [? _].
Qed.

Lemma OnResetCommandPool_inv p t st t' :
  gpu_inv t -> OnResetCommandPool p t = Some (st, t') -> gpu_inv t'.
Proof.
  intros Hinv. unfold OnResetCommandPool.
  set (t1 := set_detector _ t). assert (gpu_inv t1) as H1 by (by apply detector_inv).
  clearbody t1.
  generalize (map_to_list (m_cmds t1)). intros l.
  destruct (foldM _ l t1) as [t2|] eqn:E; [|done]. cbn. intros [= <- <-]. revert t1 H1 E.
  induction l as [|[c i] l IH]; intros t1 H1 E; cbn in E; [by injection E as <-|].
  destruct (pool i =? p).
  - destruct (RemoveCmdFromFrameCache c t1) as [t3|] eqn:E3; [|done]. cbn in E.
    apply RemoveCmd_inv in E3 as [H3 _]; [|done]. by eapply IH.
  - by eapply IH.
Qed.

Lemma drop_all_inv (f : CommandBufferInfo -> bool) l t t' :
  NoDup l.*1 -> (forall c i, (c, i) ∈ l -> m_cmds t !! c = Some i) -> gpu_inv t ->
  foldM (fun '(c, i) t => if f i then drop_cmd c i t else Some t) l t = Some t' -> gpu_inv t'.
Proof.
  revert t. induction l as [|[c i] l IH]; intros t Hnd Hl Hinv E; cbn in E; [by injection E as <-|].
  apply NoDup_cons in Hnd as [Hc Hnd].
  destruct (f i).
  - destruct (drop_cmd c i t) as [t1|] eqn:E1; [|done]. cbn in E.
    apply drop_cmd_inv in E1 as [H1 Hm]; [|done|apply Hl; by left].
    apply (IH t1); try done. intros c' i' Hin. rewrite Hm.
    assert (c <> c') as Hne.
    { intros ->. apply Hc. apply list_elem_of_fmap. by exists (c', i'). }
    rewrite lookup_delete_ne by done. apply Hl. by right.
  - apply (IH t); try done. intros c' i' Hin. apply Hl. by right.
Qed.

Lemma OnDestroyCommandPool_inv p t st t' :
  gpu_inv t -> OnDestroyCommandPool p t = Some (st, t') -> gpu_inv t'.
Proof.
  intros Hinv. unfold OnDestroyCommandPool. destruct (p =? VK_NULL_HANDLE); [by intros [= <- <-]|].
  destruct (foldM _ _ t) as [t1|] eqn:E; [|done]. cbn. intros [= <- <-].
  eapply (drop_all_inv (fun i => pool i =? p)); [| |exact Hinv|exact E].
  - apply NoDup_fst_map_to_list.
  - intros c i. by rewrite elem_of_map_to_list.
Qed.

Lemma OnFreeCommandBuffers_inv n cmds t st t' :
  gpu_inv t -> OnFreeCommandBuffers n cmds t = Some (st, t') -> gpu_inv t'.
Proof.
  intros Hinv. unfold OnFreeCommandBuffers.
  set (t1 := set_detector _ t). assert (gpu_inv t1) as H1 by (by apply detector_inv).
  clearbody t1.
  destruct (array_elements n cmds) as [l|]; [|done]. cbn.
  destruct (foldM _ l t1) as [t2|] eqn:E; [|done]. cbn. intros [= <- <-]. revert t1 H1 E.
  induction l as [|c l IH]; intros t1 H1 E; cbn in E; [by injection E as <-|].
  destruct (m_cmds t1 !! c) as [i|] eqn:Hi; [|by eapply IH].
  destruct (drop_cmd c i t1) as [t3|] eqn:E3; [|done]. cbn in E.
  apply drop_cmd_inv in E3 as [H3 _]; [|done..]. by eapply IH.
Qed.

(** Slots that the allocator has just given out. *)
Lemma AllocateSlot_live a : allocator_inv a ->
  let '(s, a') := AllocateSlot a in
  allocator_inv a' /\
  ((s = kInvalidIndex /\ a' = a) \/
   (valid_slot s /\ (s ∉ live a) /\ live a' = {[ s ]} ∪ live a)).
Proof.
  intros Hinv. pose proof (AllocateSlot_spec a Hinv) as HA. destruct (AllocateSlot a) as [s a'].
  destruct HA as [Hinv' [(-> & -> & _)|(Hv & Hf & Ht)]]; (split; [done|]); [by left|right].
  split; [done|]. split; [rewrite elem_of_live; intros [_ ?]; congruence|].
  apply set_eq. intros t. rewrite elem_of_union, elem_of_singleton, !elem_of_live. split.
  - intros [Hvt Htt]. rewrite Ht, orb_true_iff, Z.eqb_eq in Htt by done. tauto.
  - intros [->|[Hvt Htt]]; (split; [done|]); rewrite Ht by done; [by rewrite Z.eqb_refl|].
    by rewrite Htt, orb_true_r.
Qed.

Lemma valid_not_invalid s : valid_slot s -> s <> kInvalidIndex.
Proof. intros Hv ->. by apply kInvalidIndex_invalid in Hv. Qed.

Lemma allocator_live_inv t a : gpu_inv t -> allocator_inv a ->
  live (m_timestamp_allocator t) ⊆ live a -> gpu_inv (set_allocator a t).
Proof. intros [] Ha Hl. split; cbn; try done. by eapply slots_inv_mono. Qed.

Lemma allocate_cmds_inv p cmds t : gpu_inv t -> gpu_inv (snd (allocate_cmds p cmds t)).
Proof.
  revert t. induction cmds as [|c cmds IH]; intros t Hinv; cbn [allocate_cmds]; [done|].
  destruct (m_cmds t !! c) as [i|] eqn:Hc; [by apply valid_frame_inv|].
  pose proof (AllocateSlot_live _ (gi_allocator t Hinv)) as H1.
  destruct (AllocateSlot (m_timestamp_allocator t)) as [b a1]. destruct H1 as [Ha1 H1].
  pose proof (AllocateSlot_live a1 Ha1) as H2.
  destruct (AllocateSlot a1) as [e a2]. destruct H2 as [Ha2 H2].
  assert (live (m_timestamp_allocator t) ⊆ live a2) as Hsub.
  { destruct H1 as [[_ ->]|(_ & _ & E1)], H2 as [[_ ->]|(_ & _ & E2)]; rewrite ?E2, ?E1; set_solver. }
  pose proof (allocator_live_inv t a2 Hinv Ha2 Hsub) as Hinv2.
  destruct ((b =? kInvalidIndex) || (e =? kInvalidIndex)) eqn:Hbe; [done|].
  apply IH. apply orb_false_iff in Hbe as [Hb He]. apply Z.eqb_neq in Hb, He.
  destruct H1 as [[? _]|(Hvb & Hnb & E1)]; [done|]. destruct H2 as [[? _]|(Hve & Hne & E2)]; [done|].
  destruct Hinv as [Hia Hsl Hfr Hts Hme]. split; cbn; try done.
  - rewrite E2, E1, (assoc_L (∪)). apply (slots_inv_grow _ _ c _ ({[ e ]} ∪ {[ b ]})); try done.
    + rewrite E1 in Hne. set_solver.
    + unfold own. cbn. rewrite !decide_True by done. constructor; [|apply NoDup_singleton].
      rewrite list_elem_of_singleton. intros ->. apply Hne. rewrite E1. set_solver.
    + intros s Hs. left. apply elem_of_own in Hs as [_ [->|[->|Hs]]]; [set_solver..|].
      by apply elem_of_nil in Hs.
  - intros c' Hc'. apply Hfr in Hc'. destruct (decide (c' = c)) as [->|Hn].
    + rewrite lookup_insert_eq. eauto.
    + by rewrite lookup_insert_ne.
Qed.

Lemma OnAllocateCommandBuffers_inv info cmds t st t' :
  gpu_inv t -> OnAllocateCommandBuffers info cmds t = Some (st, t') -> gpu_inv t'.
Proof.
  intros Hinv. unfold OnAllocateCommandBuffers.
  set (t1 := set_detector _ t). assert (gpu_inv t1) as H1 by (by apply detector_inv).
  clearbody t1.
  destruct info as [info|]; [|done]. cbn. destruct (level_secondary info); [by intros [= <- <-]|].
  destruct (array_elements _ cmds) as [l|]; [|done]. cbn. intros [= E].
  replace t' with (snd (allocate_cmds (commandPool info) l t1)) by (by rewrite E).
  by apply allocate_cmds_inv.
Qed.

Lemma gpu_inv_ext t t' :
  m_timestamp_allocator t' = m_timestamp_allocator t -> m_cmds t' = m_cmds t ->
  (m_frame_cmds t' = m_frame_cmds t \/ m_frame_cmds t' = []) ->
  m_timestamps_with_availability t' = m_timestamps_with_availability t ->
  m_metrics t' = m_metrics t -> gpu_inv t -> gpu_inv t'.
Proof.
  intros Ea Ec Ef Et Em []. split; rewrite ?Ea, ?Ec, ?Et, ?Em; try done.
  destruct Ef as [->| ->]; [done|]. intros c Hc. by apply elem_of_nil in Hc.
Qed.

#[local] Ltac same_inv t Hinv := apply (gpu_inv_ext t); (done || by left) || by right.

Lemma submit_collect_inv submits t r t' :
  gpu_inv t -> submit_collect submits t = Some (r, t') -> gpu_inv t'.
Proof.
  assert (forall cmds t, gpu_inv t -> gpu_inv (snd (collect_cmds cmds t))) as Hcmds.
  { induction cmds as [|c cmds IH]; intros s Hs; cbn [collect_cmds]; [done|].
    destruct (m_cmds s !! c) as [i|] eqn:Hc; [|by apply valid_frame_inv].
    destruct (reusable i); [by apply valid_frame_inv|]. apply IH, frame_cmds_inv; [done|].
    intros c' Hc'. apply elem_of_app in Hc' as [Hc'|Hc']; [by apply (gi_frame s Hs)|].
    apply list_elem_of_singleton in Hc'. subst c'. by rewrite Hc. }
  intros Hinv. unfold submit_collect. destruct submits as [submits|]; [|by intros [= <- <-]].
  destruct (head submits) as [first|]; [|done]. cbn [mbind option_bind].
  destruct (pCommandBuffers first); [|by intros [= <- <-]]. revert t Hinv.
  induction submits as [|s submits IH]; intros t Hinv; cbn [collect_submits]; [by intros [= <- <-]|].
  destruct (array_elements _ _) as [cmds|]; [|done]. cbn [mbind option_bind].
  specialize (Hcmds cmds t Hinv). destruct (collect_cmds cmds t) as [[st|] t1]; [by intros [= <- <-]|].
  by apply IH.
Qed.

Section HookInvariants.
Context {G : Type} `{VulkanLaws G}.
Implicit Types (t : GPUTime) (g : G).

Lemma OnCreateDevice_inv dev alloc period t g st t' g' :
  gpu_inv t -> OnCreateDevice dev alloc period (t, g) = (st, (t', g')) -> gpu_inv t'.
Proof.
  intros Hinv. unfold OnCreateDevice. destruct (dev =? VK_NULL_HANDLE).
  - intros [= <- <- <-]. by apply valid_frame_inv.
  - destruct (vkCreateQueryPool _ _ _ _) as [[result qp] g1].
    destruct (result =? VK_SUCCESS); intros [= <- <- <-]; apply (gpu_inv_ext t); done || by left.
Qed.

Lemma OnDestroyDevice_inv dev t g st t' g' :
  gpu_inv t -> OnDestroyDevice dev (t, g) = (st, (t', g')) -> gpu_inv t'.
Proof.
  intros Hinv. unfold OnDestroyDevice. destruct (dev =? m_device t); [|by intros [= <- <- <-]].
  cbn [negb]. destruct (_ && _); [case_bool_decide|]; intros [= <- <- <-];
    try done; apply (gpu_inv_ext t); done || by left.
Qed.

Lemma OnBeginCommandBuffer_inv cmd flags t g st t' g' :
  gpu_inv t -> OnBeginCommandBuffer cmd flags (t, g) = Some (st, (t', g')) -> gpu_inv t'.
Proof.
  intros Hinv. unfold OnBeginCommandBuffer. destruct (m_enable t); [|by intros [= <- <- <-]].
  cbn [negb]. destruct (m_cmds t !! cmd) as [info|] eqn:Hi; [|by intros [= <- <- <-]].
  destruct (free_slots (renderpass_slots info) t) as [t1|] eqn:Hf; [|done].
  cbn [mbind option_bind]. intros [= <- <- <-].
  apply free_slots_spec in Hf as (Hv & a' & -> & Ha & Hl);
    [|apply Hinv|by eapply entry_renderpass].
  eapply (clear_renderpasses_inv t cmd info); try done; by destruct (usage_one_submit _).
Qed.

Lemma OnEndCommandBuffer_inv cmd t g st t' g' :
  gpu_inv t -> OnEndCommandBuffer cmd (t, g) = Some (st, (t', g')) -> t' = t.
Proof.
  intros Hinv. unfold OnEndCommandBuffer. destruct (m_enable t); [|by intros [= <- <- <-]].
  cbn [negb]. destruct (m_cmds t !! cmd); by intros [= <- <- <-].
Qed.

(** The entry of a command buffer with one more render-pass slot. *)
Lemma own_push_slot info slot :
  own (set_slots (renderpass_slots info ++ [slot]) info)
  = own info ++ filter (fun s => s <> kInvalidIndex) [slot].
Proof. unfold own. by rewrite <- filter_app. Qed.

Lemma mark_render_pass_inv stage cmd t g st t' g' :
  gpu_inv t -> mark_render_pass stage cmd (t, g) = Some (st, (t', g')) -> gpu_inv t'.
Proof.
  intros Hinv. unfold mark_render_pass. destruct (m_enable t); [|by intros [= <- <- <-]].
  cbn [negb]. destruct (m_cmds t !! cmd) as [info|] eqn:Hi; [|by intros [= <- <- <-]].
  pose proof (AllocateSlot_live _ (gi_allocator t Hinv)) as HA.
  destruct (AllocateSlot (m_timestamp_allocator t)) as [slot a]. destruct HA as [Ha HA].
  intros [= <- <- <-]. pose proof (entry_ok t Hinv cmd info Hi) as [Hb He Hnd Hl].
  assert (exists N, N ## live (m_timestamp_allocator t) /\ live a = N ∪ live (m_timestamp_allocator t) /\
    forall s, s ∈ filter (fun s => s <> kInvalidIndex) [slot] -> s ∈ N) as (N & HN & HaN & Hslot).
  { destruct HA as [[-> ->]|(Hv & Hn & ->)].
    - exists ∅. split; [set_solver|]. split; [set_solver|]. intros s Hs.
      apply list_elem_of_filter in Hs as [Hne Hs]. by apply list_elem_of_singleton in Hs.
    - exists {[ slot ]}. split; [set_solver|]. split; [done|]. intros s Hs.
      apply list_elem_of_filter in Hs as [_ Hs]. set_solver. }
  destruct Hinv as [Hia Hsl Hfr Hts Hme]. split; cbn [m_timestamp_allocator m_cmds m_frame_cmds
    m_timestamps_with_availability m_metrics set_cmds set_allocator]; try done.
  - rewrite HaN. apply slots_inv_grow; try done.
    + rewrite own_push_slot. apply NoDup_app. split; [done|]. split.
      * intros s Hs Hs'. by apply (HN s (Hslot s Hs')), Hl.
      * apply NoDup_filter, NoDup_singleton.
    + intros s Hs. rewrite own_push_slot in Hs. apply elem_of_app in Hs as [Hs|Hs]; [|by left; apply Hslot].
      right. by exists info.
  - intros c Hc. apply Hfr in Hc. destruct (decide (c = cmd)) as [->|Hne];
      [rewrite lookup_insert_eq; eauto|by rewrite lookup_insert_ne].
Qed.
End HookInvariants.
