(* ===== verification/GpuFrame.v ===== *)
(** * GpuFrame: the frame boundary

    What the evaluation of a frame's timestamps computes, the wait for them, and
    that the frame boundary keeps the invariant. *)

From S2P Require Import Prelude FrameBoundary SlotAllocator FrameMetrics GpuTime GpuInvariant.

#[local] Open Scope Z_scope.

#[local] Arguments free_slots : simpl never.
#[local] Arguments drop_cmd : simpl never.
#[local] Arguments RemoveCmdFromFrameCache : simpl never.

(** ** What the evaluation of a frame computes *)

(** A slot's timestamp is there; never for a slot out of range. *)
Definition slot_available (t : GPUTime) (s : Z) : bool :=
  match availability t s with Some a => negb (a =? 0) | None => false end.

(** The time between two slots, in milliseconds. *)
Definition elapsed (t : GPUTime) (b e : Z) : double :=
  d_mul (d_mul (d_of_Z (wrap 64 (default 0 (timestamp t e) - default 0 (timestamp t b))))
           (m_timestamp_period t)) kNanoToMilli.

Fixpoint pairs (slots : list Z) : list (Z * Z) :=
  match slots with b :: e :: slots => (b, e) :: pairs slots | _ => [] end.

Definition info_ends_ready (t : GPUTime) (i : CommandBufferInfo) : bool :=
  slot_available t (begin_timestamp_offset i) && slot_available t (end_timestamp_offset i).
Definition info_ready (t : GPUTime) (i : CommandBufferInfo) : bool :=
  info_ends_ready t i && forallb (slot_available t) (renderpass_slots i).

Definition cmd_elapsed (t : GPUTime) (i : CommandBufferInfo) : double :=
  elapsed t (begin_timestamp_offset i) (end_timestamp_offset i).
Definition renderpasses_elapsed (t : GPUTime) (i : CommandBufferInfo) : list double :=
  map (fun '(b, e) => elapsed t b e) (pairs (renderpass_slots i)).
Definition renderpass_count (i : CommandBufferInfo) : Z := Z.of_nat (length (renderpass_slots i)) / 2.

(** The entries of the frame's command buffers, in the order of submission. *)
Definition frame_infos (t : GPUTime) : list CommandBufferInfo :=
  omap (fun c => m_cmds t !! c) (m_frame_cmds t).

Definition even_slots (i : CommandBufferInfo) : Prop := Nat.Even (length (renderpass_slots i)).

Section Evaluation.
Context (t : GPUTime) (Hinv : gpu_inv t).

Lemma timestamps_at s : valid_slot s -> is_Some (m_timestamps_with_availability t !! Z.to_nat s).
Proof.
  intros Hs. apply lookup_lt_is_Some_2. rewrite (gi_timestamps t Hinv). apply Z2Nat.inj_lt; apply Hs || by vm_compute.
Qed.

Lemma invalid_unavailable : slot_available t kInvalidIndex = false.
Proof.
  unfold slot_available, availability. rewrite lookup_ge_None_2; [done|].
  rewrite (gi_timestamps t Hinv). apply Z2Nat.inj_le; [by vm_compute..|]. apply kInvalidIndex_large.
Qed.

Lemma GetTimeDuration_spec b e : slot_like b -> slot_like e ->
  GetTimeDuration b e t
  = Some (if slot_available t b && slot_available t e then Some (elapsed t b e) else None).
Proof.
  intros Hb He. unfold GetTimeDuration.
  destruct (Z.eqb_spec b kInvalidIndex) as [->|Hnb]; [by rewrite invalid_unavailable|].
  destruct (Z.eqb_spec e kInvalidIndex) as [->|Hne]; [by rewrite invalid_unavailable, andb_false_r|].
  destruct Hb as [Hb|]; [|done]. destruct He as [He|]; [|done]. cbn [orb].
  unfold slot_available, elapsed, availability, timestamp.
  destruct (timestamps_at b Hb) as [[tb ab] ->], (timestamps_at e He) as [[te ae] ->]. cbn.
  by destruct (ab =? 0), (ae =? 0).
Qed.

Lemma renderpass_durations_spec n r slots : length slots = (2 * n)%nat -> Forall slot_like slots ->
  exists r', renderpass_durations r slots t
  = Some (if forallb (slot_available t) slots
          then inr (map (fun '(b, e) => elapsed t b e) (pairs slots)) else inl r').
Proof.
  revert r slots. induction n as [|n IH]; intros r slots Hn Hall.
  - destruct slots; [|done]. by exists r.
  - destruct slots as [|b [|e slots]]; [done|cbn in Hn; lia|].
    apply Forall_cons in Hall as [Hb Hall]. apply Forall_cons in Hall as [He Hall].
    cbn [renderpass_durations pairs forallb map]. rewrite GetTimeDuration_spec by done.
    cbn [mbind option_bind]. rewrite andb_assoc. destruct (_ && _); cbn [andb]; [|by exists r].
    destruct (IH (r + 2) slots) as [r' ->]; [cbn in Hn; lia|done|]. exists r'. cbn [mbind option_bind].
    by destruct (forallb _ slots).
Qed.

Lemma frame_durations_spec cmds acc :
  (forall c i, c ∈ cmds -> m_cmds t !! c = Some i -> even_slots i) ->
  let infos := omap (fun c => m_cmds t !! c) cmds in
  exists message, frame_durations cmds acc t
  = Some (if forallb (info_ready t) infos then inr (mkFrameTimes
        (fold_left d_add (map (cmd_elapsed t) infos) (frame_time acc))
        (cmds_time acc ++ map (cmd_elapsed t) infos)
        (renderpasses_time acc ++ concat (map (renderpasses_elapsed t) infos))
        (cmd_renderpass_counts acc ++ map renderpass_count infos))
      else inl message).
Proof.
  revert acc. induction cmds as [|c cmds IH]; intros acc Heven.
  - exists "". cbn. rewrite !app_nil_r. by destruct acc.
  - cbn [frame_durations omap list_omap].
    assert (forall c' i, c' ∈ cmds -> m_cmds t !! c' = Some i -> even_slots i) as Heven'
      by (intros c' i' Hc'; apply Heven; by right).
    destruct (m_cmds t !! c) as [i|] eqn:Hi; [|by apply IH].
    assert (slot_like (begin_timestamp_offset i) /\ slot_like (end_timestamp_offset i)) as [Hb He]
      by (split; apply (entry_slot t Hinv c i Hi); tauto).
    rewrite GetTimeDuration_spec by done. cbn [forallb map fold_left mbind option_bind].
    unfold info_ready at 1, info_ends_ready at 1.
    destruct (_ && _); cbn [andb]; [|by eexists].
    destruct (Heven c i) as [n Hn]; [by left|done|].
    destruct (renderpass_durations_spec n 0 (renderpass_slots i) Hn (entry_renderpass t Hinv c i Hi))
      as [r ->]. cbn [mbind option_bind].
    destruct (forallb _ (renderpass_slots i)); cbn [andb]; [|by eexists].
    match goal with |- context [frame_durations cmds ?a t] => destruct (IH a Heven') as [m ->] end.
    exists m. cbn [frame_time cmds_time renderpasses_time cmd_renderpass_counts concat].
    by rewrite <- !app_assoc.
Qed.

(** The counts the report gets are as many as the times. *)
Lemma frame_durations_lengths cmds acc f :
  length (cmd_renderpass_counts acc) = length (cmds_time acc) ->
  frame_durations cmds acc t = Some (inr f) -> length (cmd_renderpass_counts f) = length (cmds_time f).
Proof.
  revert acc. induction cmds as [|c cmds IH]; intros acc Hacc; cbn [frame_durations];
    [by intros [= <-]|].
  destruct (m_cmds t !! c) as [i|]; [|by apply IH].
  destruct (GetTimeDuration _ _ t) as [[ms|]|]; cbn [mbind option_bind]; [|done..].
  destruct (renderpass_durations _ _ t) as [[r|ds]|]; cbn [mbind option_bind]; [done| |done].
  apply IH. cbn. by rewrite !length_app, Hacc.
Qed.

Lemma all_available_spec cmds : (forall c, c ∈ cmds -> is_Some (m_cmds t !! c)) ->
  all_available cmds t = Some (forallb (info_ends_ready t) (omap (fun c => m_cmds t !! c) cmds)).
Proof.
  intros Hc. induction cmds as [|c cmds IH]; [done|]. cbn [all_available omap list_omap].
  destruct (Hc c) as [i Hi]; [by left|]. rewrite Hi. cbn [forallb].
  assert (forall c, c ∈ cmds -> is_Some (m_cmds t !! c)) as Hc' by (intros c' ?; apply Hc; by right).
  pose proof (entry_ends t Hinv c i Hi) as Hends.
  apply Forall_cons in Hends as [Hb He]. apply Forall_cons in He as [He _].
  destruct (Z.eqb_spec (begin_timestamp_offset i) kInvalidIndex) as [E|_];
    [by apply valid_not_invalid in Hb|].
  destruct (Z.eqb_spec (end_timestamp_offset i) kInvalidIndex) as [E|_];
    [by apply valid_not_invalid in He|]. cbn [orb].
  unfold info_ends_ready at 1, slot_available, availability.
  destruct (timestamps_at _ Hb) as [[tb ab] ->], (timestamps_at _ He) as [[te ae] ->].
  cbn [fmap option_fmap option_map snd mbind option_bind].
  destruct (ab =? 0), (ae =? 0); cbn [orb negb andb]; try done. by apply IH.
Qed.

Lemma unavailable_report_spec k cmds : (forall c, c ∈ cmds -> is_Some (m_cmds t !! c)) ->
  exists message, unavailable_report k cmds t = Some (message, t).
Proof.
  intros Hc. revert k. induction cmds as [|c cmds IH]; intros k; [by eexists|].
  cbn [unavailable_report]. destruct (Hc c) as [i Hi]; [by left|]. rewrite Hi. cbn [default id].
  rewrite insert_id by done. replace (set_cmds (m_cmds t) t) with t by (by destruct t).
  pose proof (entry_ends t Hinv c i Hi) as Hends.
  apply Forall_cons in Hends as [Hb He]. apply Forall_cons in He as [He _].
  unfold availability. destruct (timestamps_at _ Hb) as [[tb ab] ->], (timestamps_at _ He) as [[te ae] ->].
  destruct (IH (fun c' Hc' => Hc c' (list_elem_of_further _ _ _ Hc')) (k + 1)) as [m ->].
  cbn [fmap option_fmap option_map snd mbind option_bind fst].
  destruct (_ && _); cbn [mbind option_bind]; by eexists.
Qed.
End Evaluation.

(** Every command buffer of the frame is available, with its render passes. *)
Definition frame_ready (t : GPUTime) : bool := forallb (info_ready t) (frame_infos t).
(** What the wait looks at: the command buffers without their render passes. *)
Definition frame_ends_ready (t : GPUTime) : bool := forallb (info_ends_ready t) (frame_infos t).
Definition even_frame (t : GPUTime) : Prop :=
  forall c i, c ∈ m_frame_cmds t -> m_cmds t !! c = Some i -> even_slots i.

(** The times of the frame: each command buffer's, their sum in the order of
    submission, each render pass's, and how many each command buffer has. *)
Definition expected_frame (t : GPUTime) : FrameTimes :=
  let times := map (cmd_elapsed t) (frame_infos t) in
  mkFrameTimes (fold_left d_add times d_zero) times
    (concat (map (renderpasses_elapsed t) (frame_infos t))) (map renderpass_count (frame_infos t)).

(** The metrics with one frame more: each series is one value longer, up to the last 1000;
    all series start again when the frame has another number of command buffers or render
    passes. *)
Definition recorded (f : FrameTimes) (m : FrameMetrics) : FrameMetrics :=
  let m0 := reshaped (cmds_time f) (renderpasses_time f) (cmd_renderpass_counts f) m in
  mkMetrics (window (m_frame_time m0) (frame_time f)) (m_cmd_renderpass_count_vec m0)
    (zip_with window (m_cmd_time_vec m0) (cmds_time f))
    (zip_with window (m_renderpass_time_vec m0) (renderpasses_time f)).

Section Boundary.
Context {G : Type} `{VulkanLaws G}.
Implicit Types (t : GPUTime) (g : G) (s : GPUTime * G).

(** All timestamps of the pool are read from the device. *)
Definition query (s : GPUTime * G) : Z * (GPUTime * G) :=
  let t := fst s in
  let r := vkGetQueryPoolResults (m_device t) (m_query_pool t) (m_timestamps_with_availability t) (snd s) in
  (fst (fst r), (set_timestamps (snd (fst r)) t, snd r)).

Lemma get_results_query s : get_results s = query s.
Proof. destruct s as [t g]. unfold get_results, query. cbn [fst snd]. by destruct (vkGetQueryPoolResults _ _ _ _) as [[r ts] g']. Qed.

(** The state after [k] rounds of the wait. *)
Fixpoint requery (k : nat) (s : GPUTime * G) : GPUTime * G :=
  match k with
  | O => s
  | S k => requery k (snd (query (fst s, sleep_for 14 (snd s))))
  end.

Lemma timestamps_inv t ts :
  gpu_inv t -> length ts = length (m_timestamps_with_availability t) -> gpu_inv (set_timestamps ts t).
Proof. intros [] E. split; cbn; congruence || done. Qed.

Lemma get_results_timestamps s : exists ts,
  length ts = length (m_timestamps_with_availability (fst s)) /\
  fst (snd (get_results s)) = set_timestamps ts (fst s).
Proof.
  destruct s as [t g]. unfold get_results. cbn [fst].
  pose proof (results_length (m_device t) (m_query_pool t) (m_timestamps_with_availability t) g) as Hl.
  destruct (vkGetQueryPoolResults _ _ _ _) as [[r ts] g']. by exists ts.
Qed.

Lemma requery_timestamps k s : exists ts,
  length ts = length (m_timestamps_with_availability (fst s)) /\
  fst (requery k s) = set_timestamps ts (fst s).
Proof.
  revert s. induction k as [|k IH]; intros [t g]; cbn [requery fst snd].
  - exists (m_timestamps_with_availability t). split; [done|]. by destruct t.
  - destruct (IH (snd (query (t, sleep_for 14 g)))) as (ts & Hl & ->).
    destruct (get_results_timestamps (t, sleep_for 14 g)) as (ts1 & Hl1 & E1).
    rewrite get_results_query in E1. cbn [fst snd] in *. rewrite E1 in Hl |- *. exists ts. split; [cbn in Hl; congruence|done].
Qed.

Lemma get_results_inv s : gpu_inv (fst s) -> gpu_inv (fst (snd (get_results s))).
Proof.
  intros Hinv. destruct (get_results_timestamps s) as (ts & Hl & ->). by apply timestamps_inv.
Qed.

Lemma requery_inv k s : gpu_inv (fst s) -> gpu_inv (fst (requery k s)).
Proof.
  intros Hinv. destruct (requery_timestamps k s) as (ts & Hl & ->). by apply timestamps_inv.
Qed.

Lemma frame_all_available t : gpu_inv t ->
  all_available (m_frame_cmds t) t = Some (frame_ends_ready t).
Proof. intros Hinv. apply all_available_spec; [done|]. apply (gi_frame t Hinv). Qed.

(** The wait ends after at most [n] rounds: with the first state in which all
    command buffers are available, or gives up after the last round. *)
Lemma wait_available_spec n s : gpu_inv (fst s) ->
  exists k, (k <= n)%nat /\
    wait_available n s = Some (negb (k =? n)%nat, requery k s) /\
    (forall j, (j < k)%nat -> frame_ends_ready (fst (requery j s)) = false) /\
    ((k < n)%nat -> frame_ends_ready (fst (requery k s)) = true).
Proof.
  revert s. induction n as [|n IH]; intros [t g] Hinv; cbn [wait_available].
  - exists O. split_and!; try done; lia.
  - rewrite frame_all_available by done. cbn [fst mbind option_bind] in *.
    destruct (frame_ends_ready t) eqn:Er; [exists O; split_and!; try done; lia|].
    destruct (IH (snd (get_results (t, sleep_for 14 g)))) as (k & Hk & E & Hno & Hyes);
      [by apply get_results_inv|].
    pose proof (get_results_query (t, sleep_for 14 g)) as Es. symmetry in Es.
    destruct (get_results (t, sleep_for 14 g)) as [r s1].
    exists (S k). split; [lia|]. cbn [requery fst snd]. rewrite Es. cbn [snd] in *.
    split; [by rewrite E|]. split; [|intros; apply Hyes; lia].
    intros [|j] Hj; [done|]. cbn [requery fst snd]. rewrite Es. apply Hno. lia.
Qed.

Lemma add_expected_frame t m : metrics_inv m -> let f := expected_frame t in
  AddFrameData (frame_time f) (cmds_time f) (renderpasses_time f) (cmd_renderpass_counts f) m = Some (recorded f m) /\
  metrics_inv (recorded f m).
Proof.
  intros Hm f. assert (length (cmd_renderpass_counts f) = length (cmds_time f)) as Hl by by (cbn; rewrite !length_map).
  assert (AddFrameData (frame_time f) (cmds_time f) (renderpasses_time f) (cmd_renderpass_counts f) m = Some (recorded f m)) as E.
  { rewrite AddFrameData_reshaped. pose proof (reshaped_shape (cmds_time f) (renderpasses_time f) (cmd_renderpass_counts f) m) as Hs.
    apply andb_true_iff in Hs as [Hs1%Nat.eqb_eq Hs2%Nat.eqb_eq]. by rewrite push_frame by (done || by apply reshaped_inv). }
  split; [done|]. destruct (AddFrameData_spec (frame_time f) _ (renderpasses_time f) _ m Hm Hl) as (m' & E' & Hinv & _).
  rewrite E in E'. by injection E' as <-.
Qed.

Lemma metrics_set_inv t m : gpu_inv t -> metrics_inv m -> gpu_inv (set_metrics m t).
Proof. by intros [] Hm; split. Qed.

Lemma evaluate_frame_spec t g : gpu_inv t -> even_frame t -> m_valid_frame t = true ->
  exists st t', evaluate_frame (t, g) = Some (st, (t', g)) /\ gpu_inv t' /\
    if frame_ready t
    then st = GpuOk /\ t' = set_metrics (recorded (expected_frame t) (m_metrics t)) t
    else success st = false /\ t' = set_valid_frame false t.
Proof.
  intros Hinv Heven Hv. unfold evaluate_frame.
  destruct (frame_durations_spec t Hinv (m_frame_cmds t) (mkFrameTimes d_zero [] [] []) Heven) as [msg ->].
  fold (frame_infos t). fold (frame_ready t). cbn [mbind option_bind frame_time cmds_time
    renderpasses_time cmd_renderpass_counts app].
  destruct (frame_ready t).
  - rewrite Hv. destruct (add_expected_frame t (m_metrics t) (gi_metrics t Hinv)) as [E Hm].
    match goal with |- context [AddFrameData ?a ?b ?c ?d ?m] =>
      replace (AddFrameData a b c d m) with (Some (recorded (expected_frame t) (m_metrics t))) by (symmetry; exact E) end. cbn [mbind option_bind]. eexists _, _. split; [done|]. by split; [apply metrics_set_inv|].
  - eexists _, _. split; [done|]. by split; [apply valid_frame_inv|].
Qed.

Lemma evaluate_frame_inv t g st t' g' :
  gpu_inv t -> evaluate_frame (t, g) = Some (st, (t', g')) -> gpu_inv t'.
Proof.
  intros Hinv. unfold evaluate_frame. destruct (frame_durations _ _ t) as [[msg|f]|] eqn:E;
    cbn [mbind option_bind]; [intros [= <- <- <-]; by apply valid_frame_inv| |done].
  destruct (m_valid_frame t); [|by intros [= <- <- <-]].
  apply frame_durations_lengths in E; [|done].
  destruct (AddFrameData_spec (frame_time f) (cmds_time f) (renderpasses_time f) _ _ (gi_metrics t Hinv) E)
    as (m' & -> & Hm & _).
  cbn [mbind option_bind]. intros [= <- <- <-]. by apply metrics_set_inv.
Qed.

Lemma UpdateFrameMetrics_inv s st s' :
  gpu_inv (fst s) -> UpdateFrameMetrics s = Some (st, s') -> gpu_inv (fst s').
Proof.
  intros Hinv. unfold UpdateFrameMetrics. pose proof (get_results_inv s Hinv) as H1.
  destruct (get_results s) as [r s1]. cbn [snd] in H1.
  assert (forall s2, gpu_inv (fst s2) -> evaluate_frame s2 = Some (st, s') -> gpu_inv (fst s')) as Hev.
  { intros [t2 g2] H2. destruct s' as [t' g']. by apply evaluate_frame_inv. }
  destruct (r =? VK_SUCCESS); [by apply Hev|]. destruct (r =? VK_NOT_READY).
  - destruct (wait_available_spec kMaxQueryCount s1 H1) as (k & Hk & -> & _ & _). cbn [mbind option_bind].
    pose proof (requery_inv k s1 H1) as H2. destruct (negb _); [by apply Hev|].
    destruct (requery k s1) as [t2 g2]. cbn [fst] in H2. apply (valid_frame_inv _ false) in H2.
    destruct (unavailable_report_spec _ H2 0 (m_frame_cmds (set_valid_frame false t2)) (gi_frame _ H2))
      as [msg ->]. cbn [mbind option_bind]. by intros [= <- <-].
  - intros [= <- <-]. by apply valid_frame_inv.
Qed.

Lemma OnFrameBoundary_inv s st s' :
  gpu_inv (fst s) -> OnFrameBoundary s = Some (st, s') -> gpu_inv (fst s').
Proof.
  intros Hinv. unfold OnFrameBoundary.
  destruct (if m_valid_frame (fst s) then UpdateFrameMetrics s else Some (GpuOk, s)) as [[ust [t1 g1]]|] eqn:E;
    cbn [mbind option_bind]; [|done]. intros [= <- <-].
  assert (gpu_inv t1) as H1.
  { destruct (m_valid_frame (fst s)); [by apply UpdateFrameMetrics_inv in E|].
    injection E as <- Es. by rewrite Es in Hinv. }
  apply (gpu_inv_ext t1); done || by right.
Qed.

(** The outcome of the queries: the state they end in is [requery k s1]. *)
Lemma UpdateFrameMetrics_spec s st s' :
  gpu_inv (fst s) -> even_frame (fst s) -> m_valid_frame (fst s) = true ->
  UpdateFrameMetrics s = Some (st, s') ->
  m_frame_index (fst s') = m_frame_index (fst s) /\
  let '(result, s1) := query s in
  exists k, (k <= kMaxQueryCount)%nat /\
    let t2 := fst (requery k s1) in
    (result = VK_NOT_READY ->
       (forall j, (j < k)%nat -> frame_ends_ready (fst (requery j s1)) = false) /\
       ((k < kMaxQueryCount)%nat -> frame_ends_ready t2 = true)) /\
    (result <> VK_NOT_READY -> k = O) /\
    if ((result =? VK_SUCCESS) || ((result =? VK_NOT_READY) && negb (k =? kMaxQueryCount)%nat))
       && frame_ready t2
    then st = GpuOk /\ m_metrics (fst s') = recorded (expected_frame t2) (m_metrics (fst s))
    else success st = false /\ m_metrics (fst s') = m_metrics (fst s).
Proof.
  intros Hinv He Hv. unfold UpdateFrameMetrics. pose proof (get_results_inv s Hinv) as H1.
  pose proof (get_results_timestamps s) as (ts & _ & Ets). rewrite get_results_query in *.
  destruct (query s) as [r s1]. cbn [snd] in H1, Ets.
  assert (forall k, evaluate_frame (requery k s1) = Some (st, s') ->
    m_frame_index (fst s') = m_frame_index (fst s) /\
    if frame_ready (fst (requery k s1))
    then st = GpuOk /\ m_metrics (fst s') = recorded (expected_frame (fst (requery k s1))) (m_metrics (fst s))
    else success st = false /\ m_metrics (fst s') = m_metrics (fst s)) as Hev.
  { intros k. pose proof (requery_inv k s1 H1) as H2.
    destruct (requery_timestamps k s1) as (ts2 & _ & E2). destruct (requery k s1) as [t2 g2]. cbn [fst] in *.
    assert (t2 = set_timestamps ts2 (fst s)) as Et2 by by rewrite E2, Ets.
    destruct (evaluate_frame_spec t2 g2 H2) as (st2 & t3 & -> & _ & Hspec); [by rewrite Et2..|].
    intros [= -> <-]. cbn [fst]. assert (m_metrics t2 = m_metrics (fst s)) as <- by by rewrite Et2.
    assert (m_frame_index t2 = m_frame_index (fst s)) as <- by by rewrite Et2.
    destruct (frame_ready t2).
    - by destruct Hspec as (-> & ->).
    - by destruct Hspec as (Hst & ->). }
  destruct (Z.eqb_spec r VK_SUCCESS) as [->|Hns].
  { intros E. apply (Hev O) in E as [Hi E]. split; [done|]. exists O. split_and!; try done; lia. }
  destruct (Z.eqb_spec r VK_NOT_READY) as [->|Hnr].
  - destruct (wait_available_spec kMaxQueryCount s1 H1) as (k & Hk & -> & Hno & Hyes).
    cbn [mbind option_bind orb andb]. destruct (negb (k =? kMaxQueryCount)%nat) eqn:Ek.
    + intros E. apply Hev in E as [Hi E]. split; [done|]. exists k. rewrite Ek. by split_and!.
    + pose proof (requery_inv k s1 H1) as H2. destruct (requery_timestamps k s1) as (ts2 & _ & E2).
      destruct (requery k s1) as [t2 g2] eqn:Er. cbn [fst] in H2, E2. apply (valid_frame_inv _ false) in H2.
      destruct (unavailable_report_spec _ H2 0 (m_frame_cmds (set_valid_frame false t2)) (gi_frame _ H2))
        as [msg ->]. cbn [mbind option_bind snd]. intros [= <- <-]. cbn [fst].
      assert (t2 = set_timestamps ts2 (fst s)) as -> by by rewrite E2, Ets.
      split; [done|]. exists k. rewrite Ek, Er. cbn [andb]. by split_and!.
  - intros [= <- <-]. cbn [fst]. rewrite Ets. split; [done|]. exists O. cbn [orb andb].
    split_and!; try done; lia.
Qed.
End Boundary.
