(* ===== verification/GpuHooks.v ===== *)
(** * GpuHooks: the properties of GPUTime

    The hooks as steps, the states they reach, the calls that stay inside of the
    arrays, and the theorems about slots, recordings, exhaustion and frame
    boundaries. *)

From S2P Require Import Prelude FrameBoundary SlotAllocator FrameMetrics GpuTime GpuInvariant GpuFrame.

#[local] Open Scope Z_scope.

#[local] Arguments free_slots : simpl never.
#[local] Arguments drop_cmd : simpl never.
#[local] Arguments RemoveCmdFromFrameCache : simpl never.

(** ** The hooks as steps *)

(** One call, made with the mutex held. [HSubmitCollect] and [HFrameBoundary]
    are the halves of an [OnQueueSubmit] that lets go of the mutex between
    them; [HSubmit] is one during which no other hook runs. *)
Inductive GpuHook :=
  | HCreateDevice (device allocator : Z) (timestamp_period : double)
  | HDestroyDevice (device : Z)
  | HDestroyCommandPool (command_pool : VkCommandPool)
  | HAllocateCommandBuffers (info : option VkCommandBufferAllocateInfo) (cmds : option (list VkCommandBuffer))
  | HFreeCommandBuffers (count : nat) (cmds : option (list VkCommandBuffer))
  | HResetCommandBuffer (cmd : VkCommandBuffer)
  | HResetCommandPool (command_pool : VkCommandPool)
  | HBeginCommandBuffer (cmd : VkCommandBuffer) (flags : Z)
  | HEndCommandBuffer (cmd : VkCommandBuffer)
  | HBeginRenderPass (cmd : VkCommandBuffer)
  | HEndRenderPass (cmd : VkCommandBuffer)
  | HSubmit (submits : option (list VkSubmitInfo))
  | HSubmitCollect (submits : option (list VkSubmitInfo))
  | HFrameBoundary
  | HPresent
  | HGetDeviceQueue (queue : Z)
  | HInsertLabel (cmd : VkCommandBuffer) (label : option string)
  | HClearFrameCache
  | HSetEnable (enable : bool).

Section Steps.
Context {G : Type} `{VulkanLaws G}.
Implicit Types (t : GPUTime) (g : G) (s : GPUTime * G).

Definition run_hook (h : GpuHook) (s : GPUTime * G) : option (GPUTime * G) :=
  let '(t, g) := s in
  match h with
  | HCreateDevice d a p => Some (snd (OnCreateDevice d a p s))
  | HDestroyDevice d => Some (snd (OnDestroyDevice d s))
  | HDestroyCommandPool p => '(_, t) ← OnDestroyCommandPool p t; Some (t, g)
  | HAllocateCommandBuffers i cs => '(_, t) ← OnAllocateCommandBuffers i cs t; Some (t, g)
  | HFreeCommandBuffers n cs => '(_, t) ← OnFreeCommandBuffers n cs t; Some (t, g)
  | HResetCommandBuffer c => '(_, t) ← OnResetCommandBuffer c t; Some (t, g)
  | HResetCommandPool p => '(_, t) ← OnResetCommandPool p t; Some (t, g)
  | HBeginCommandBuffer c fl => snd <$> OnBeginCommandBuffer c fl s
  | HEndCommandBuffer c => snd <$> OnEndCommandBuffer c s
  | HBeginRenderPass c => snd <$> BeginRenderPass c s
  | HEndRenderPass c => snd <$> EndRenderPass c s
  | HSubmit ss => snd <$> OnQueueSubmit ss s
  | HSubmitCollect ss => '(_, t) ← submit_collect ss t; Some (t, g)
  | HFrameBoundary => snd <$> OnFrameBoundary s
  | HPresent => snd <$> OnQueuePresent s
  | HGetDeviceQueue q => Some (snd (OnGetDeviceQueue q t), g)
  | HInsertLabel c l => Some (snd (OnCmdInsertDebugUtilsLabelEXT c l t), g)
  | HClearFrameCache => Some (ClearFrameCache t, g)
  | HSetEnable b => Some (SetEnable b t, g)
  end.

(** The states an object gets into, whatever its hooks are called with. *)
Inductive reachable : GPUTime * G -> Prop :=
  | reachable_new g : reachable (new_GPUTime, g)
  | reachable_step s h s' : reachable s -> run_hook h s = Some s' -> reachable s'.

Lemma OnQueueSubmit_inv ss t g st s' :
  gpu_inv t -> OnQueueSubmit ss (t, g) = Some (st, s') -> gpu_inv (fst s').
Proof.
  intros Hinv. unfold OnQueueSubmit. destruct (m_enable t); [|by intros [= <- <-]].
  cbn [negb]. destruct (submit_collect ss t) as [[r t1]|] eqn:E; [|done]. cbn [mbind option_bind].
  apply submit_collect_inv in E; [|done]. destruct r; [by intros [= <- <-]|].
  destruct (ContainsFrameBoundary _ _); [|by intros [= <- <-]].
  destruct (OnFrameBoundary _) as [[ust s2]|] eqn:E2; [|done]. cbn [mbind option_bind].
  intros [= <- <-]. by apply OnFrameBoundary_inv in E2.
Qed.

Lemma run_hook_inv h s s' : gpu_inv (fst s) -> run_hook h s = Some s' -> gpu_inv (fst s').
Proof.
  destruct s as [t g]. cbn [fst]. intros Hinv. destruct h; cbn [run_hook].
  - destruct (OnCreateDevice _ _ _ _) as [st [t1 g1]] eqn:E. intros [= <-]. by apply OnCreateDevice_inv in E.
  - destruct (OnDestroyDevice _ _) as [st [t1 g1]] eqn:E. intros [= <-]. by apply OnDestroyDevice_inv in E.
  - destruct (OnDestroyCommandPool _ _) as [[st t1]|] eqn:E; [|done]. intros [= <-].
    by apply OnDestroyCommandPool_inv in E.
  - destruct (OnAllocateCommandBuffers _ _ _) as [[st t1]|] eqn:E; [|done]. intros [= <-].
    by apply OnAllocateCommandBuffers_inv in E.
  - destruct (OnFreeCommandBuffers _ _ _) as [[st t1]|] eqn:E; [|done]. intros [= <-].
    by apply OnFreeCommandBuffers_inv in E.
  - destruct (OnResetCommandBuffer _ _) as [[st t1]|] eqn:E; [|done]. intros [= <-].
    by apply OnResetCommandBuffer_inv in E.
  - destruct (OnResetCommandPool _ _) as [[st t1]|] eqn:E; [|done]. intros [= <-].
    by apply OnResetCommandPool_inv in E.
  - destruct (OnBeginCommandBuffer _ _ _) as [[st [t1 g1]]|] eqn:E; [|done]. intros [= <-].
    by apply OnBeginCommandBuffer_inv in E.
  - destruct (OnEndCommandBuffer _ _) as [[st [t1 g1]]|] eqn:E; [|done]. intros [= <-].
    by apply OnEndCommandBuffer_inv in E as ->.
  - destruct (BeginRenderPass _ _) as [[st [t1 g1]]|] eqn:E; [|done]. intros [= <-].
    by apply mark_render_pass_inv in E.
  - destruct (EndRenderPass _ _) as [[st [t1 g1]]|] eqn:E; [|done]. intros [= <-].
    by apply mark_render_pass_inv in E.
  - destruct (OnQueueSubmit _ _) as [[st s1]|] eqn:E; [|done]. intros [= <-].
    by apply OnQueueSubmit_inv in E.
  - destruct (submit_collect _ _) as [[st t1]|] eqn:E; [|done]. intros [= <-].
    by apply submit_collect_inv in E.
  - destruct (OnFrameBoundary _) as [[st s1]|] eqn:E; [|done]. intros [= <-].
    by apply OnFrameBoundary_inv in E.
  - unfold OnQueuePresent. destruct (m_enable t); [|by intros [= <-]]. cbn [negb].
    destruct (OnFrameBoundary _) as [[st s1]|] eqn:E; [|done]. intros [= <-].
    by apply OnFrameBoundary_inv in E.
  - intros [= <-]. by apply (gpu_inv_ext t); done || by left.
  - intros [= <-]. unfold OnCmdInsertDebugUtilsLabelEXT.
    destruct (MarkBoundary _ _ _) as [bst d]. by destruct (bs_success bst); apply detector_inv.
  - intros [= <-]. by apply (gpu_inv_ext t); done || by right.
  - intros [= <-]. by apply (gpu_inv_ext t); done || by left.
Qed.

Lemma reachable_inv s : reachable s -> gpu_inv (fst s).
Proof.
  induction 1 as [g|s h s' _ IH Hrun]; [apply new_gpu_inv|]. by apply (run_hook_inv h s).
Qed.
End Steps.

(** ** When a hook stays inside of its arrays *)

(** No render pass of a command buffer found the pool exhausted. *)
Definition no_exhausted (t : GPUTime) : Prop :=
  forall c i, m_cmds t !! c = Some i -> kInvalidIndex ∉ renderpass_slots i.

Lemma no_exhausted_valid t c i : gpu_inv t -> no_exhausted t -> m_cmds t !! c = Some i ->
  Forall valid_slot (renderpass_slots i).
Proof.
  intros Hinv Hno Hi. apply Forall_forall. intros s Hs.
  pose proof (proj1 (Forall_forall _ _) (entry_renderpass t Hinv c i Hi) s Hs) as [?| ->]; [done|].
  by destruct (Hno c i Hi).
Qed.

Lemma RemoveCmd_total cmd t : gpu_inv t -> no_exhausted t ->
  exists t', RemoveCmdFromFrameCache cmd t = Some t' /\ no_exhausted t'.
Proof.
  intros Hinv Hno. unfold RemoveCmdFromFrameCache.
  destruct (m_cmds t !! cmd) as [i|] eqn:Hi; [|by exists t].
  destruct (free_slots_total (renderpass_slots i) t (gi_allocator t Hinv)) as [t1 E];
    [by eapply no_exhausted_valid|]. rewrite E. cbn [mbind option_bind]. eexists. split; [done|].
  apply free_slots_spec in E as (_ & a & -> & _); [|apply Hinv|by eapply entry_renderpass].
  intros c j. cbn. rewrite lookup_insert_Some. intros [[_ <-]|[_ Hj]]; [|by eapply Hno].
  apply not_elem_of_nil.
Qed.

Lemma drop_cmd_total cmd i t : gpu_inv t -> no_exhausted t -> m_cmds t !! cmd = Some i ->
  exists t', drop_cmd cmd i t = Some t' /\ no_exhausted t'.
Proof.
  intros Hinv Hno Hi. unfold drop_cmd.
  pose proof (entry_ends t Hinv cmd i Hi) as Hends.
  destruct (free_slots_total _ t (gi_allocator t Hinv) Hends) as [t1 E]. rewrite E. cbn [mbind option_bind].
  apply free_slots_spec in E as (_ & a & -> & Ha & _);
    [|apply Hinv|eapply Forall_impl; [exact Hends|intros x Hx; by left]].
  unfold RemoveCmdFromFrameCache. cbn [m_cmds set_allocator]. rewrite Hi.
  destruct (free_slots_total (renderpass_slots i) (set_allocator a t) Ha) as [t2 E2];
    [by eapply no_exhausted_valid|]. rewrite E2. cbn [mbind option_bind]. eexists. split; [done|].
  apply free_slots_spec in E2 as (_ & a2 & -> & _); [|done|by apply (entry_renderpass t Hinv cmd)].
  intros c j. cbn. rewrite delete_insert_eq, lookup_delete_Some. intros [_ Hj]. by eapply Hno.
Qed.

(** The loops over command buffers. *)
Lemma foldM_total {A} (f : A -> GPUTime -> option GPUTime) (P : list A -> GPUTime -> Prop) l t :
  (forall x l t, P (x :: l) t -> exists t', f x t = Some t' /\ P l t') -> P l t ->
  is_Some (foldM f l t).
Proof.
  intros Hf. revert t. induction l as [|x l IH]; intros t HP; cbn [foldM]; [by eexists|].
  destruct (Hf x l t HP) as (t' & -> & HP'). by apply IH.
Qed.

(** The arguments that a caller of Vulkan has to pass anyway. *)
Definition args_ok (h : GpuHook) : Prop :=
  match h with
  | HAllocateCommandBuffers i cs =>
      exists info, i = Some info /\ is_Some (array_elements (allocateCount info) cs)
  | HFreeCommandBuffers n cs => is_Some (array_elements n cs)
  | HSubmit ss | HSubmitCollect ss =>
      match ss with
      | None => True
      | Some ss => ss <> [] /\ Forall (fun s => is_Some (array_elements (commandBufferCount s) (pCommandBuffers s))) ss
      end
  | _ => True
  end.

Lemma submit_collect_total ss t : args_ok (HSubmitCollect ss) -> is_Some (submit_collect ss t).
Proof.
  unfold submit_collect. destruct ss as [ss|]; [|by eexists]. cbn [args_ok]. intros [Hne Hall].
  destruct ss as [|first ss]; [done|]. cbn [head mbind option_bind].
  destruct (pCommandBuffers first); [|by eexists]. revert Hall t. generalize (first :: ss). clear.
  intros ss. induction ss as [|s ss IH]; intros Hall t; cbn [collect_submits]; [by eexists|].
  apply Forall_cons in Hall as [[cmds ->] Hall]. cbn [mbind option_bind].
  destruct (collect_cmds cmds t) as [[st|] t1]; [by eexists|]. by apply IH.
Qed.

Section Totality.
Context {G : Type} `{VulkanLaws G}.
Implicit Types (t : GPUTime) (g : G) (s : GPUTime * G).

(** Where the frame's command buffers have a closed list of render passes. *)
Definition frame_closed (h : GpuHook) (t : GPUTime) : Prop :=
  match h with
  | HFrameBoundary | HPresent => even_frame t
  | HSubmit ss => forall r t', submit_collect ss t = Some (r, t') -> even_frame t'
  | _ => True
  end.

Lemma requery_even k s : even_frame (fst s) -> even_frame (fst (requery k s)).
Proof. intros He. by destruct (requery_timestamps k s) as (ts & _ & ->). Qed.

Lemma UpdateFrameMetrics_total s :
  gpu_inv (fst s) -> even_frame (fst s) -> m_valid_frame (fst s) = true ->
  is_Some (UpdateFrameMetrics s).
Proof.
  intros Hinv He Hv. unfold UpdateFrameMetrics. pose proof (get_results_inv s Hinv) as H1.
  pose proof (get_results_timestamps s) as (ts & _ & Ets).
  destruct (get_results s) as [r s1]. cbn [snd] in H1, Ets.
  assert (even_frame (fst s1) /\ m_valid_frame (fst s1) = true) as [He1 Hv1] by by rewrite Ets.
  assert (forall k, is_Some (evaluate_frame (requery k s1))) as Hev.
  { intros k. pose proof (requery_inv k s1 H1) as H2. pose proof (requery_even k s1 He1) as He2.
    destruct (requery_timestamps k s1) as (ts2 & _ & E2). destruct (requery k s1) as [t2 g2]. cbn [fst] in *.
    destruct (evaluate_frame_spec t2 g2 H2 He2) as (st & t3 & -> & _); [by rewrite E2|by eexists]. }
  destruct (r =? VK_SUCCESS); [apply (Hev O)|]. destruct (r =? VK_NOT_READY); [|by eexists].
  destruct (wait_available_spec kMaxQueryCount s1 H1) as (k & Hk & -> & _ & _). cbn [mbind option_bind].
  destruct (negb _); [apply Hev|].
  pose proof (requery_inv k s1 H1) as H2. destruct (requery k s1) as [t2 g2]. cbn [fst] in H2.
  apply (valid_frame_inv _ false) in H2.
  destruct (unavailable_report_spec _ H2 0 (m_frame_cmds (set_valid_frame false t2)) (gi_frame _ H2))
    as [msg ->]. by eexists.
Qed.

Lemma OnFrameBoundary_total s : gpu_inv (fst s) -> even_frame (fst s) -> is_Some (OnFrameBoundary s).
Proof.
  intros Hinv He. unfold OnFrameBoundary.
  assert (is_Some (if m_valid_frame (fst s) then UpdateFrameMetrics s else Some (GpuOk, s)))
    as [[ust [t1 g1]] ->]; [|by eexists].
  destruct (m_valid_frame (fst s)) eqn:Hv; [by apply UpdateFrameMetrics_total|by eexists].
Qed.

Lemma OnDestroyCommandPool_total p t : gpu_inv t -> no_exhausted t ->
  is_Some (OnDestroyCommandPool p t).
Proof.
  intros Hinv Hno. unfold OnDestroyCommandPool. destruct (p =? VK_NULL_HANDLE); [by eexists|].
  assert (is_Some (foldM (fun '(cmd, info) t => if pool info =? p then drop_cmd cmd info t else Some t)
    (map_to_list (m_cmds t)) t)) as [t' ->]; [|by eexists].
  apply (foldM_total _ (fun l t => NoDup l.*1 /\ (forall c i, (c, i) ∈ l -> m_cmds t !! c = Some i) /\
    gpu_inv t /\ no_exhausted t)).
  - intros [c i] l t1 (Hnd & Hl & H1 & Hno1). apply NoDup_cons in Hnd as [Hc Hnd].
    assert (m_cmds t1 !! c = Some i) as Hi by (apply Hl; by left).
    destruct (pool i =? p).
    + destruct (drop_cmd_total c i t1 H1 Hno1 Hi) as (t2 & E & Hno2). exists t2. split; [done|].
      apply drop_cmd_inv in E as [H2 Hm]; [|done..]. split_and!; try done. intros c' i' Hin.
      rewrite Hm, lookup_delete_ne; [apply Hl; by right|].
      intros ->. apply Hc. apply list_elem_of_fmap. by exists (c', i').
    + exists t1. split_and!; try done. intros c' i' Hin. apply Hl. by right.
  - split_and!; try done; [apply NoDup_fst_map_to_list|]. intros c i. by rewrite elem_of_map_to_list.
Qed.

Lemma OnFreeCommandBuffers_total n cs t : gpu_inv t -> no_exhausted t ->
  is_Some (array_elements n cs) -> is_Some (OnFreeCommandBuffers n cs t).
Proof.
  intros Hinv Hno [l Hl]. unfold OnFreeCommandBuffers. rewrite Hl. cbn [mbind option_bind].
  match goal with |- is_Some (foldM ?f l ?t1 ≫= _) =>
    assert (is_Some (foldM f l t1)) as [t' ->]; [|by eexists] end.
  apply (foldM_total _ (fun _ t => gpu_inv t /\ no_exhausted t)); [|by split; [apply detector_inv|]].
  intros c _ t1 [H1 Hno1]. destruct (m_cmds t1 !! c) as [i|] eqn:Hi; [|by exists t1].
  destruct (drop_cmd_total c i t1 H1 Hno1 Hi) as (t2 & E & Hno2). exists t2. split; [done|].
  by apply drop_cmd_inv in E as [H2 _].
Qed.

Lemma OnResetCommandPool_total p t : gpu_inv t -> no_exhausted t -> is_Some (OnResetCommandPool p t).
Proof.
  intros Hinv Hno. unfold OnResetCommandPool.
  match goal with |- is_Some (foldM ?f ?l ?t1 ≫= _) =>
    assert (is_Some (foldM f l t1)) as [t' ->]; [|by eexists] end.
  apply (foldM_total _ (fun _ t => gpu_inv t /\ no_exhausted t)); [|by split; [apply detector_inv|]].
  intros [c i] _ t1 [H1 Hno1]. destruct (pool i =? p); [|by exists t1].
  destruct (RemoveCmd_total c t1 H1 Hno1) as (t2 & E & Hno2). exists t2. split; [done|].
  by apply RemoveCmd_inv in E as [H2 _].
Qed.

Lemma mark_render_pass_total stage c s : is_Some (mark_render_pass stage c s).
Proof.
  destruct s as [t g]. unfold mark_render_pass. destruct (m_enable t); [|by eexists]. cbn [negb].
  destruct (m_cmds t !! c); [|by eexists]. destruct (AllocateSlot _). by eexists.
Qed.

Lemma run_hook_total h s : gpu_inv (fst s) -> args_ok h -> no_exhausted (fst s) ->
  frame_closed h (fst s) -> is_Some (run_hook h s).
Proof.
  destruct s as [t g]. cbn [fst]. intros Hinv Hargs Hno Hcl. destruct h; cbn [run_hook]; try by eexists.
  - destruct (OnDestroyCommandPool_total command_pool t Hinv Hno) as [[st t1] ->]. by eexists.
  - destruct Hargs as (i & -> & l & El). unfold OnAllocateCommandBuffers. cbn [mbind option_bind].
    destruct (level_secondary i); [by eexists|]. rewrite El. cbn [mbind option_bind].
    destruct (allocate_cmds _ _ _). by eexists.
  - destruct (OnFreeCommandBuffers_total count cmds t Hinv Hno Hargs) as [[st t1] ->]. by eexists.
  - unfold OnResetCommandBuffer. destruct (m_cmds _ !! cmd); [|by eexists].
    destruct (RemoveCmd_total cmd (set_detector (Detector_OnResetCommandBuffer cmd (m_boundary_detector t)) t))
      as (t1 & -> & _); [by apply detector_inv|done|by eexists].
  - destruct (OnResetCommandPool_total command_pool t Hinv Hno) as [[st t1] ->]. by eexists.
  - unfold OnBeginCommandBuffer. destruct (m_enable t); [|by eexists]. cbn [negb].
    destruct (m_cmds t !! cmd) as [i|] eqn:Hi; [|by eexists].
    destruct (free_slots_total (renderpass_slots i) t (gi_allocator t Hinv)) as [t1 ->];
      [by eapply no_exhausted_valid|by eexists].
  - unfold OnEndCommandBuffer. destruct (m_enable t); [|by eexists]. cbn [negb].
    by destruct (m_cmds t !! cmd); eexists.
  - unfold BeginRenderPass. destruct (mark_render_pass_total VK_PIPELINE_STAGE_TOP_OF_PIPE_BIT cmd (t, g))
      as [[st s1] ->]. by eexists.
  - unfold EndRenderPass. destruct (mark_render_pass_total VK_PIPELINE_STAGE_BOTTOM_OF_PIPE_BIT cmd (t, g))
      as [[st s1] ->]. by eexists.
  - unfold OnQueueSubmit. destruct (m_enable t); [|by eexists]. cbn [negb].
    destruct (submit_collect_total submits t Hargs) as [[r t1] E]. cbn [frame_closed] in Hcl.
    specialize (Hcl r t1 E). apply submit_collect_inv in E as H1; [|done]. rewrite E. cbn [mbind option_bind].
    destruct r; [by eexists|]. destruct (ContainsFrameBoundary _ _); [|by eexists].
    match goal with |- context [OnFrameBoundary ?s] =>
      destruct (OnFrameBoundary_total s H1 Hcl) as [[ust s2] ->] end. by eexists.
  - destruct (submit_collect_total submits t Hargs) as [[r t1] ->]. by eexists.
  - destruct (OnFrameBoundary_total (t, g) Hinv Hcl) as [[st s1] ->]. by eexists.
  - unfold OnQueuePresent. destruct (m_enable t); [|by eexists]. cbn [negb].
    match goal with |- context [OnFrameBoundary ?s] =>
      destruct (OnFrameBoundary_total s Hinv Hcl) as [[ust s2] ->] end. by eexists.
Qed.
End Totality.

(** ** Recording a command buffer *)

Definition all_slots : gset Z := list_to_set (seqZ 0 kTotalSlots).

Lemma elem_of_all_slots s : s ∈ all_slots <-> valid_slot s.
Proof. unfold all_slots, valid_slot. rewrite elem_of_list_to_set, elem_of_seqZ. lia. Qed.

Lemma size_all_slots : size all_slots = Z.to_nat kTotalSlots.
Proof. unfold all_slots. rewrite size_list_to_set by apply NoDup_seqZ. apply length_seqZ. Qed.

Lemma live_all a : live a ⊆ all_slots.
Proof.
  intros s Hs. apply elem_of_live in Hs as [Hs _]. by apply elem_of_all_slots.
Qed.

Definition free_count (t : GPUTime) : nat := Z.to_nat kTotalSlots - size (live (m_timestamp_allocator t)).

Lemma free_count_step t t' slot :
  (slot ∉ live (m_timestamp_allocator t)) ->
  live (m_timestamp_allocator t') = {[ slot ]} ∪ live (m_timestamp_allocator t) ->
  (0 < free_count t)%nat -> free_count t = S (free_count t').
Proof.
  unfold free_count. intros Hn ->. rewrite size_union, size_singleton by set_solver.
  generalize (Z.to_nat kTotalSlots). lia.
Qed.

Lemma full_count t : gpu_inv t -> (forall s, valid_slot s -> taken (m_timestamp_allocator t) s = true) ->
  free_count t = O.
Proof.
  intros Hinv Hall. unfold free_count. rewrite <- size_all_slots.
  enough (all_slots ⊆ live (m_timestamp_allocator t)) as Hsub by (apply subseteq_size in Hsub; lia).
  intros s Hs. apply elem_of_all_slots in Hs. apply elem_of_live. split; [done|by apply Hall].
Qed.

Lemma free_count_mono t t' :
  live (m_timestamp_allocator t') ⊆ live (m_timestamp_allocator t) -> (free_count t <= free_count t')%nat.
Proof. intros Hs%subseteq_size. unfold free_count. lia. Qed.

(** With a free slot left, the allocator gives out a slot. *)
Lemma AllocateSlot_free t : gpu_inv t -> (0 < free_count t)%nat ->
  let '(s, a) := AllocateSlot (m_timestamp_allocator t) in
  allocator_inv a /\ valid_slot s /\ (s ∉ live (m_timestamp_allocator t)) /\
  live a = {[ s ]} ∪ live (m_timestamp_allocator t).
Proof.
  intros Hinv Hf. pose proof (AllocateSlot_spec _ (gi_allocator t Hinv)) as HS.
  pose proof (AllocateSlot_live _ (gi_allocator t Hinv)) as HL.
  destruct (AllocateSlot (m_timestamp_allocator t)) as [s a]. destruct HL as [Ha HL]. split; [done|].
  destruct HL as [[-> _]|HL]; [|done]. destruct HS as [_ [(_ & _ & Hall)|(Hv & _)]].
  - rewrite (full_count t Hinv Hall) in Hf. lia.
  - by apply kInvalidIndex_invalid in Hv.
Qed.

#[local] Opaque free_count.

Section Recording.
Context {G : Type} `{VulkanLaws G}.
Implicit Types (t : GPUTime) (g : G) (s : GPUTime * G).

(** [n] render passes. *)
Fixpoint record_render_passes (n : nat) (cmd : VkCommandBuffer) (s : GPUTime * G) : option (GPUTime * G) :=
  match n with
  | O => Some s
  | S n =>
      s ← run_hook (HBeginRenderPass cmd) s;
      s ← run_hook (HEndRenderPass cmd) s;
      record_render_passes n cmd s
  end.

(** What the layer makes of a command buffer that an application records. *)
Definition record_cmd (n : nat) (cmd : VkCommandBuffer) (flags : Z) (s : GPUTime * G)
  : option (GPUTime * G) :=
  s ← run_hook (HBeginCommandBuffer cmd flags) s;
  s ← record_render_passes n cmd s;
  run_hook (HEndCommandBuffer cmd) s.

(** Its timestamp commands: the top of the pipe for a begin, the bottom for an
    end. *)
Definition write_begin cmd pool slot g : G :=
  vkCmdWriteTimestamp cmd VK_PIPELINE_STAGE_TOP_OF_PIPE_BIT pool slot g.
Definition write_end cmd pool slot g : G :=
  vkCmdWriteTimestamp cmd VK_PIPELINE_STAGE_BOTTOM_OF_PIPE_BIT pool slot g.
Definition write_passes cmd pool (slots : list (Z * Z)) g : G :=
  fold_left (fun g '(b, e) => write_end cmd pool e (write_begin cmd pool b g)) slots g.

Lemma mark_render_pass_alloc stage cmd t g i slot a :
  m_enable t = true -> m_cmds t !! cmd = Some i ->
  AllocateSlot (m_timestamp_allocator t) = (slot, a) ->
  mark_render_pass stage cmd (t, g)
  = Some (GpuOk, (set_cmds (<[cmd := set_slots (renderpass_slots i ++ [slot]) i]> (m_cmds t))
                    (set_allocator a t), vkCmdWriteTimestamp cmd stage (m_query_pool t) slot g)).
Proof. intros He Hi EA. unfold mark_render_pass. by rewrite He, Hi, EA. Qed.

Lemma mark_render_pass_free stage cmd t g i :
  gpu_inv t -> m_enable t = true -> m_cmds t !! cmd = Some i -> (0 < free_count t)%nat ->
  exists slot t', mark_render_pass stage cmd (t, g)
    = Some (GpuOk, (t', vkCmdWriteTimestamp cmd stage (m_query_pool t) slot g)) /\
    gpu_inv t' /\ m_enable t' = true /\ m_query_pool t' = m_query_pool t /\
    m_frame_cmds t' = m_frame_cmds t /\
    m_cmds t' = <[cmd := set_slots (renderpass_slots i ++ [slot]) i]> (m_cmds t) /\
    valid_slot slot /\ (slot ∉ live (m_timestamp_allocator t)) /\
    live (m_timestamp_allocator t') = {[ slot ]} ∪ live (m_timestamp_allocator t) /\
    (free_count t = S (free_count t'))%nat.
Proof.
  intros Hinv He Hi Hf. pose proof (AllocateSlot_free t Hinv Hf) as HA.
  destruct (AllocateSlot (m_timestamp_allocator t)) as [slot a] eqn:EA.
  destruct HA as (Ha & Hv & Hn & Hl).
  pose proof (mark_render_pass_alloc stage cmd t g i slot a He Hi EA) as E.
  pose proof (mark_render_pass_inv stage cmd t g _ _ _ Hinv E) as Hinv'.
  exists slot. eexists. split; [exact E|]. split_and!; try done. by eapply free_count_step.
Qed.

Lemma record_render_passes_spec n cmd t g i :
  gpu_inv t -> m_enable t = true -> m_cmds t !! cmd = Some i -> (2 * n <= free_count t)%nat ->
  exists slots t', length slots = (2 * n)%nat /\
    record_render_passes n cmd (t, g) = Some (t', write_passes cmd (m_query_pool t) (pairs slots) g) /\
    gpu_inv t' /\ m_enable t' = true /\ m_query_pool t' = m_query_pool t /\
    m_frame_cmds t' = m_frame_cmds t /\
    m_cmds t' = <[cmd := set_slots (renderpass_slots i ++ slots) i]> (m_cmds t) /\
    Forall valid_slot slots /\ NoDup slots /\
    (forall x : Z, x ∈ slots -> x ∉ live (m_timestamp_allocator t)) /\
    live (m_timestamp_allocator t') = list_to_set slots ∪ live (m_timestamp_allocator t).
Proof.
  revert t g i. induction n as [|n IH]; intros t g i Hinv He Hi Hf; cbn [record_render_passes].
  - exists [], t. split_and!; try done; [|apply NoDup_nil_2|intros s Hs; by apply elem_of_nil in Hs|set_solver].
    rewrite app_nil_r, insert_id; [done|]. rewrite Hi. by destruct i.
  - cbn [run_hook].
    destruct (mark_render_pass_free VK_PIPELINE_STAGE_TOP_OF_PIPE_BIT cmd t g i Hinv He Hi)
      as (b & t1 & E1 & Hinv1 & He1 & Hq1 & Hfr1 & Hm1 & Hvb & Hnb & Hl1 & Hf1); [lia|].
    unfold BeginRenderPass. rewrite E1. cbn [run_hook fmap option_fmap option_map snd mbind option_bind].
    set (i1 := set_slots (renderpass_slots i ++ [b]) i) in *.
    assert (m_cmds t1 !! cmd = Some i1) as Hi1 by by rewrite Hm1, lookup_insert_eq.
    match goal with |- context [EndRenderPass cmd (t1, ?g1)] =>
      destruct (mark_render_pass_free VK_PIPELINE_STAGE_BOTTOM_OF_PIPE_BIT cmd t1 g1 i1 Hinv1 He1 Hi1)
      as (e & t2 & E2 & Hinv2 & He2 & Hq2 & Hfr2 & Hm2 & Hve & Hne & Hl2 & Hf2); [lia|] end.
    unfold EndRenderPass. rewrite E2. cbn [fmap option_fmap option_map snd mbind option_bind].
    set (i2 := set_slots (renderpass_slots i1 ++ [e]) i1) in *.
    assert (m_cmds t2 !! cmd = Some i2) as Hi2 by by rewrite Hm2, lookup_insert_eq.
    match goal with |- context [record_render_passes n cmd (t2, ?g2)] =>
      destruct (IH t2 g2 i2 Hinv2 He2 Hi2) as (slots & t3 & Hlen & E3 & Hinv3 & He3 & Hq3 & Hfr3 & Hm3
        & Hv3 & Hnd3 & Hn3 & Hl3); [lia|] end.
    exists (b :: e :: slots), t3. split; [cbn; lia|]. split.
    { rewrite E3, Hq2, Hq1. done. }
    split_and!; try congruence.
    + rewrite Hm3, Hm2, Hm1, !insert_insert_eq. f_equal. subst i2 i1. unfold set_slots. cbn.
      by rewrite <- !app_assoc.
    + by repeat (apply Forall_cons; split).
    + rewrite Hl2, Hl1 in Hn3. apply NoDup_cons. split.
      * rewrite elem_of_cons. intros [->|Hb]; [rewrite Hl1 in Hne|apply Hn3 in Hb]; set_solver.
      * apply NoDup_cons. split; [|done]. intros He'. apply Hn3 in He'. set_solver.
    + rewrite Hl2, Hl1 in Hn3. rewrite Hl1 in Hne. intros s Hs. rewrite !elem_of_cons in Hs.
      destruct Hs as [->|[->|Hs]]; [done|set_solver|]. apply Hn3 in Hs. set_solver.
    + rewrite Hl3, Hl2, Hl1. cbn. set_solver.
Qed.
End Recording.

(** ** States to evaluate on *)

#[local] Existing Instance test_vulkan.

#[local] Instance test_vulkan_laws : VulkanLaws Z.
Proof. split. intros. cbn. apply length_imap. Defined.

(** Enabled, with command buffer 5 of pool 1. *)
Definition test_state : GPUTime := SetEnable true (snd (allocate_cmds 1 [5] new_GPUTime)).

Lemma SetEnable_inv b t : gpu_inv t -> gpu_inv (SetEnable b t).
Proof. intros []. by split. Qed.

Lemma test_state_inv : gpu_inv test_state.
Proof. apply SetEnable_inv, allocate_cmds_inv, new_gpu_inv. Qed.

Lemma test_state_cmd : m_cmds test_state !! 5 = Some (mkCmdInfo [] 1 0 1 false false).
Proof. vm_compute. reflexivity. Qed.

(** A pool without a free slot. *)
Definition full_allocator : TimeStampSlotAllocator :=
  mkAllocator (replicate (Z.to_nat kNumBlocks) (2 ^ 64 - 1)) 0.

Lemma full_allocator_inv : allocator_inv full_allocator.
Proof. split; [apply length_replicate|]. split; [cbn; lia|by vm_compute]. Qed.

Lemma full_allocator_taken s : valid_slot s -> taken full_allocator s = true.
Proof.
  intros Hs. destruct (slot_split s Hs) as (Hb & Hm & _). unfold taken, block, full_allocator. cbn [m_masks].
  rewrite lookup_replicate_2 by lia. cbn [default id from_option].
  replace (2 ^ 64 - 1) with (Z.ones 64) by done. apply Z.ones_spec_low. unfold kSlotsPerBlock in *. lia.
Qed.

Definition full_state : GPUTime := set_allocator full_allocator test_state.

Lemma full_state_inv : gpu_inv full_state.
Proof.
  apply allocator_live_inv; [apply test_state_inv|apply full_allocator_inv|].
  intros s Hs. apply elem_of_live in Hs as [Hs _]. apply elem_of_live. split; [done|].
  by apply full_allocator_taken.
Qed.

(** ** Properties *)

Section Properties.
Context {G : Type} `{VulkanLaws G}.
Implicit Types (t : GPUTime) (g : G).

(** C2: in every state the hooks can get into, the two slots of a command
    buffer are slots of the pool (so every timestamp of a command buffer's
    begin and end is written to one), they and the slots of its render passes
    are live and pairwise different, and no slot belongs to two command
    buffers; every command buffer of the frame is in [m_cmds], contrary to
    the comments in the evaluation that expect it to be missing; and the
    timestamp array and the metrics have the sizes that the evaluation
    indexes. *)
Theorem slots_have_one_owner t g :
  reachable (t, g) ->
  (forall c i, m_cmds t !! c = Some i ->
     valid_slot (begin_timestamp_offset i) /\ valid_slot (end_timestamp_offset i) /\
     NoDup (own i) /\ forall s : Z, s ∈ own i -> s ∈ live (m_timestamp_allocator t)) /\
  (forall c1 c2 i1 i2 (s : Z), m_cmds t !! c1 = Some i1 -> m_cmds t !! c2 = Some i2 ->
     s ∈ own i1 -> s ∈ own i2 -> c1 = c2) /\
  (forall c, c ∈ m_frame_cmds t -> is_Some (m_cmds t !! c)) /\
  length (m_timestamps_with_availability t) = Z.to_nat kTotalSlots /\
  metrics_inv (m_metrics t).
Proof.
  intros Hr. apply reachable_inv in Hr. cbn [fst] in Hr. split_and!; try apply Hr.
  intros c i Hi. pose proof (entry_ends t Hr c i Hi) as Hends.
  apply Forall_cons in Hends as [Hb He]. apply Forall_cons in He as [He _].
  pose proof (entry_ok t Hr c i Hi) as [_ _ Hnd Hl]. by split_and!.
Qed.

(** C26: a hook leaves the arrays it indexes only if a render pass found the
    pool exhausted or the frame has a command buffer with an unfinished render
    pass. In any state the hooks get into, with arguments as Vulkan requires
    them, and neither of the two, every hook returns. *)
Theorem hooks_stay_in_bounds h t g :
  reachable (t, g) -> args_ok h -> no_exhausted t -> frame_closed h t ->
  is_Some (run_hook h (t, g)).
Proof. intros Hr. apply (run_hook_total h (t, g)). by apply (reachable_inv (t, g)). Qed.

(** What an exhausted pool does. A render pass is then timed with
    [kInvalidIndex]: the hook reports no error, issues a timestamp command for
    query [kInvalidIndex] of the pool and remembers it as a slot. From then on
    resetting the command buffer, its pool, beginning it again and freeing it
    all index the masks of the allocator out of bounds. *)
Theorem exhausted_render_pass t g c i :
  gpu_inv t -> m_enable t = true -> m_cmds t !! c = Some i ->
  (forall s, valid_slot s -> s ∈ live (m_timestamp_allocator t)) ->
  exists t', BeginRenderPass c (t, g)
      = Some (GpuOk, (t', vkCmdWriteTimestamp c VK_PIPELINE_STAGE_TOP_OF_PIPE_BIT (m_query_pool t) kInvalidIndex g)) /\
    m_cmds t' !! c = Some (set_slots (renderpass_slots i ++ [kInvalidIndex]) i) /\
    OnResetCommandBuffer c t' = None /\ OnFreeCommandBuffers 1 (Some [c]) t' = None /\
    (forall flags g', OnBeginCommandBuffer c flags (t', g') = None).
Proof.
  intros Hinv He Hi Hall.
  assert (exists a, AllocateSlot (m_timestamp_allocator t) = (kInvalidIndex, a)) as [a EA].
  { pose proof (AllocateSlot_spec _ (gi_allocator t Hinv)) as HS. destruct (AllocateSlot _) as [s a].
    exists a. destruct HS as [_ [(-> & _)|(Hv & Ht & _)]]; [done|].
    apply Hall, elem_of_live in Hv as [_ Hv]. congruence. }
  pose proof (mark_render_pass_alloc VK_PIPELINE_STAGE_TOP_OF_PIPE_BIT c t g i _ _ He Hi EA) as E.
  pose proof (mark_render_pass_inv _ c t g _ _ _ Hinv E) as Hinv'.
  eexists. split; [exact E|]. set (t' := set_cmds _ _) in *.
  assert (m_enable t' = true) as He' by done.
  assert (m_cmds t' !! c = Some (set_slots (renderpass_slots i ++ [kInvalidIndex]) i)) as Hi'
    by apply lookup_insert_eq.
  clearbody t'. set (i' := set_slots _ i) in *.
  assert (forall t2, gpu_inv t2 -> m_cmds t2 !! c = Some i' -> free_slots (renderpass_slots i') t2 = None)
    as Hfree.
  { intros t2 H2 Hi2. apply free_slots_invalid; [apply H2|by eapply entry_renderpass|].
    apply elem_of_app. right. by left. }
  split; [done|]. split_and!.
  - unfold OnResetCommandBuffer. cbn [m_cmds set_detector]. rewrite Hi'. unfold RemoveCmdFromFrameCache.
    cbn [m_cmds set_detector]. rewrite Hi', Hfree; [done|by apply detector_inv|done].
  - unfold OnFreeCommandBuffers. cbn [array_elements length Nat.leb take mbind option_bind foldM].
    cbn [m_cmds set_detector]. rewrite Hi'. unfold drop_cmd.
    match goal with |- context [free_slots ?l ?t2] => destruct (free_slots l t2) as [t3|] eqn:E3 end; [|done].
    cbn [mbind option_bind]. apply free_slots_spec in E3 as (_ & a3 & -> & Ha3 & _);
      [|apply (detector_inv _ _ Hinv')|eapply Forall_impl; [by eapply entry_ends|intros x Hx; by left]].
    unfold RemoveCmdFromFrameCache. cbn [m_cmds set_allocator set_detector]. rewrite Hi'.
    rewrite free_slots_invalid; [done|done|by eapply (entry_renderpass t')|].
    apply elem_of_app. right. by left.
  - intros flags g'. unfold OnBeginCommandBuffer. rewrite He'. cbn [negb]. by rewrite Hi', Hfree.
Qed.

(** An allocation that fails leaks a slot. With one slot free, allocating
    a command buffer fails after its begin slot was taken: the slot stays live
    and no command buffer owns it, so no later hook gives it back. *)
Theorem failed_allocation_leaks t p c rest s :
  gpu_inv t -> m_cmds t !! c = None -> valid_slot s ->
  (forall x, valid_slot x -> (x ∈ live (m_timestamp_allocator t) <-> x <> s)) ->
  exists t', allocate_cmds p (c :: rest) t
      = (mkGpuTimeStatus "Exceeded maximum number of query slots." false, t') /\
    s ∈ live (m_timestamp_allocator t') /\ m_cmds t' = m_cmds t /\
    (forall c' i, m_cmds t' !! c' = Some i -> s ∉ own i).
Proof.
  intros Hinv Hc Hs Hlive. cbn [allocate_cmds]. rewrite Hc.
  assert (s ∉ live (m_timestamp_allocator t)) as Hns by (rewrite Hlive; auto).
  pose proof (AllocateSlot_spec _ (gi_allocator t Hinv)) as HS.
  destruct (AllocateSlot (m_timestamp_allocator t)) as [b a1].
  destruct HS as [Ha1 [(_ & _ & Hall)|(Hvb & Htb & Ht1)]].
  { destruct Hns. apply elem_of_live. split; [done|by apply Hall]. }
  assert (b = s) as ->.
  { destruct (decide (b = s)) as [|Hne]; [done|].
    apply Hlive in Hne; [|done]. apply elem_of_live in Hne as [_ Hne]. congruence. }
  assert (forall x, valid_slot x -> taken a1 x = true) as Hfull.
  { intros x Hx. rewrite Ht1 by done. destruct (Z.eqb_spec x s) as [->|Hne]; [done|].
    apply Hlive in Hne; [|done]. by apply elem_of_live in Hne as [_ ->]. }
  pose proof (AllocateSlot_spec a1 Ha1) as HS2. destruct (AllocateSlot a1) as [e a2].
  destruct HS2 as [_ [(-> & -> & _)|(Hve & Hte & _)]]; [|rewrite Hfull in Hte; done].
  rewrite Z.eqb_refl, orb_true_r. eexists. split; [done|].
  split; [apply elem_of_live; split; [done|by apply Hfull]|]. split; [done|].
  intros c' i Hi Hown. apply Hns. by apply (si_info _ _ (gi_slots t Hinv) c' i Hi).
Qed.

(** What recording a command buffer leaves behind. With two free slots
    for each of its [n] render passes, the hooks around the recording succeed
    and issue exactly the timestamps of the command buffer's begin, of the
    begin and the end of each render pass in order, and of the command
    buffer's end; each render pass has two fresh slots of its own, remembered
    in this order, the earlier recording's slots are given back, and the usage
    flags are those of the new recording. *)
Theorem recording_timestamps n t g c i flags :
  gpu_inv t -> m_enable t = true -> m_cmds t !! c = Some i -> no_exhausted t ->
  (2 * n <= free_count t)%nat ->
  exists slots t', length slots = (2 * n)%nat /\ Forall valid_slot slots /\ NoDup slots /\
    record_cmd n c flags (t, g)
    = Some (t', write_end c (m_query_pool t) (end_timestamp_offset i)
                  (write_passes c (m_query_pool t) (pairs slots)
                    (write_begin c (m_query_pool t) (begin_timestamp_offset i) g))) /\
    gpu_inv t' /\ m_frame_cmds t' = m_frame_cmds t /\
    m_cmds t' = <[c := mkCmdInfo slots (pool i) (begin_timestamp_offset i) (end_timestamp_offset i)
        (negb (Z.land flags VK_COMMAND_BUFFER_USAGE_ONE_TIME_SUBMIT_BIT =? 0))
        (negb (Z.land flags VK_COMMAND_BUFFER_USAGE_SIMULTANEOUS_USE_BIT =? 0))]> (m_cmds t) /\
    live (m_timestamp_allocator t')
    = list_to_set slots ∪ (live (m_timestamp_allocator t) ∖ list_to_set (renderpass_slots i)).
Proof.
  intros Hinv He Hi Hno Hf. unfold record_cmd. cbn [run_hook].
  destruct (OnBeginCommandBuffer c flags (t, g)) as [[st [t1 g1]]|] eqn:E1.
  2: { exfalso. unfold OnBeginCommandBuffer in E1. rewrite He, Hi in E1. cbn [negb] in E1.
       destruct (free_slots_total (renderpass_slots i) t (gi_allocator t Hinv)) as [x Ex];
         [by eapply no_exhausted_valid|]. by rewrite Ex in E1. }
  apply OnBeginCommandBuffer_inv in E1 as Hinv1; [|done].
  unfold OnBeginCommandBuffer in E1. rewrite He, Hi in E1. cbn [negb] in E1.
  destruct (free_slots (renderpass_slots i) t) as [t0|] eqn:E0; [|done]. cbn [mbind option_bind] in E1.
  apply free_slots_spec in E0 as (_ & a & -> & _ & Hl); [|apply Hinv|by apply (entry_renderpass t Hinv c)].
  injection E1 as _ E1t E1g.
  set (i1 := mkCmdInfo [] (pool i) (begin_timestamp_offset i) (end_timestamp_offset i)
    (negb (Z.land flags VK_COMMAND_BUFFER_USAGE_ONE_TIME_SUBMIT_BIT =? 0))
    (negb (Z.land flags VK_COMMAND_BUFFER_USAGE_SIMULTANEOUS_USE_BIT =? 0))).
  assert (t1 = set_cmds (<[c := i1]> (m_cmds t)) (set_allocator a t)) as Et1.
  { rewrite <- E1t. subst i1. by destruct (usage_one_submit i). }
  assert (g1 = write_begin c (m_query_pool t) (begin_timestamp_offset i) g) as ->.
  { rewrite <- E1g. by destruct (usage_one_submit i). }
  clear E1t E1g.
  assert (2 * n <= free_count t1)%nat as Hf1.
  { transitivity (free_count t); [done|]. apply free_count_mono. rewrite Et1. cbn. rewrite Hl. set_solver. }
  assert (m_cmds t1 !! c = Some i1) as Hi1 by (rewrite Et1; apply lookup_insert_eq).
  cbn [fmap option_fmap option_map snd mbind option_bind].
  destruct (record_render_passes_spec n c t1 (write_begin c (m_query_pool t) (begin_timestamp_offset i) g)
    i1 Hinv1) as (slots & t2 & Hlen & E2 & Hinv2 & He2 & Hq2 & Hfr2 & Hm2 & Hv2 & Hnd2 & _ & Hl2);
    [by rewrite Et1|done|done|].
  exists slots, t2. rewrite E2. cbn [mbind option_bind run_hook]. unfold OnEndCommandBuffer.
  assert (m_query_pool t1 = m_query_pool t) as Hq1 by by rewrite Et1.
  rewrite He2, Hm2, lookup_insert_eq, Hq2, Hq1. cbn [negb].
  split_and!; try done.
  - by rewrite Hfr2, Et1.
  - rewrite Et1. cbn [m_cmds set_cmds]. by rewrite insert_insert_eq.
  - rewrite Hl2, Et1. cbn [m_timestamp_allocator set_cmds set_allocator]. by rewrite Hl.
Qed.

(** C5: what a frame boundary does. If every render pass of the frame's command buffers was
    ended ([even_frame]; the evaluation of another frame reads behind a vector), it ends: it
    counts the frame, forgets the frame's command buffers and starts a valid frame. An
    invalid frame is not evaluated. A valid one queries the device and, if that is not
    ready, again after 14 ms, until both timestamps of every command buffer of the frame are
    there, five times at most; render passes are not waited for. If the last query ended so
    and all timestamps of the frame are available, the expected times are recorded: each
    command buffer's and render pass's difference of timestamps modulo 2^64 times the
    device's period, the frame's time being the sum of the command buffers'; every series of
    the metrics gets its new value and keeps its last 1000, or starts again if the number of
    command buffers or render passes changed. In every other case the boundary reports a
    failure and the metrics stay as they are. *)
Theorem frame_boundary_times t g :
  gpu_inv t -> even_frame t ->
  exists st t' g', OnFrameBoundary (t, g) = Some (st, (t', g')) /\
    gpu_inv t' /\ m_frame_cmds t' = [] /\ m_valid_frame t' = true /\
    m_frame_index t' = wrap 64 (m_frame_index t + 1) /\
    if m_valid_frame t then
      let '(result, s1) := query (t, g) in
      exists k, (k <= kMaxQueryCount)%nat /\
        let t2 := fst (requery k s1) in
        (result = VK_NOT_READY ->
           (forall j, (j < k)%nat -> frame_ends_ready (fst (requery j s1)) = false) /\
           ((k < kMaxQueryCount)%nat -> frame_ends_ready t2 = true)) /\
        (result <> VK_NOT_READY -> k = O) /\
        if ((result =? VK_SUCCESS) || ((result =? VK_NOT_READY) && negb (k =? kMaxQueryCount)%nat))
           && frame_ready t2
        then st = GpuOk /\ m_metrics t' = recorded (expected_frame t2) (m_metrics t)
        else success st = false /\ m_metrics t' = m_metrics t
    else st = GpuOk /\ m_metrics t' = m_metrics t.
Proof.
  intros Hinv Heven. destruct (OnFrameBoundary_total (t, g) Hinv Heven) as [[st [t' g']] E].
  pose proof (OnFrameBoundary_inv (t, g) st (t', g') Hinv E) as Hinv'.
  exists st, t', g'. split; [done|]. split; [done|].
  unfold OnFrameBoundary in E. cbn [fst] in E.
  destruct (m_valid_frame t) eqn:Hv.
  2: { cbn [mbind option_bind] in E. injection E as <- <- <-. by split_and!. }
  destruct (UpdateFrameMetrics (t, g)) as [[ust [t1 g1]]|] eqn:EU; [|done].
  cbn [mbind option_bind] in E. injection E as <- <- <-.
  cbn [m_frame_cmds m_valid_frame m_frame_index m_metrics set_valid_frame set_frame_cmds set_frame_index].
  apply (UpdateFrameMetrics_spec (t, g)) in EU as [Hidx HU]; [|done..].
  split; [done|]. split; [done|]. cbn [fst] in Hidx. rewrite Hidx. by split.
Qed.
End Properties.

(** ** Witnesses *)

Definition test_free (s : Z) : TimeStampSlotAllocator :=
  default Allocator_Reset (FreeSlot s full_allocator).

Lemma test_free_live s x : valid_slot s -> valid_slot x ->
  x ∈ live (test_free s) <-> x <> s.
Proof.
  intros Hs Hx. unfold test_free.
  destruct (FreeSlot_spec s full_allocator full_allocator_inv Hs) as (a & -> & _ & _ & Ht).
  cbn [default id from_option]. rewrite elem_of_live, Ht, full_allocator_taken by done.
  rewrite andb_true_r, negb_true_iff, Z.eqb_neq. tauto.
Qed.

Lemma test_free_inv s : valid_slot s -> gpu_inv (set_allocator (test_free s) new_GPUTime).
Proof.
  intros Hs. unfold test_free.
  destruct (FreeSlot_spec s full_allocator full_allocator_inv Hs) as (a & -> & Ha & _).
  apply allocator_live_inv; [apply new_gpu_inv|done|]. intros x Hx. apply elem_of_live in Hx as [_ Hx].
  cbn [m_timestamp_allocator new_GPUTime] in Hx. by rewrite Reset_taken in Hx.
Qed.

Lemma zero_valid : valid_slot 0.
Proof. by split. Qed.

Lemma new_no_exhausted : no_exhausted new_GPUTime.
Proof. intros c i Hi. cbn [m_cmds new_GPUTime] in Hi. by rewrite lookup_empty in Hi. Qed.

Lemma test_no_exhausted : no_exhausted test_state.
Proof.
  intros c i. destruct (decide (c = 5)) as [->|Hne].
  - rewrite test_state_cmd. intros [= <-]. apply not_elem_of_nil.
  - replace (m_cmds test_state) with ({[ 5 := mkCmdInfo [] 1 0 1 false false ]} : gmap Z CommandBufferInfo)
      by (vm_compute; reflexivity).
    rewrite lookup_singleton_ne by done. done.
Qed.

Lemma test_free_count : (2 <= free_count test_state)%nat.
Proof.
  assert (live (m_timestamp_allocator test_state) = {[ 0; 1 ]}) as E by (vm_compute; reflexivity).
  Transparent free_count. unfold free_count. rewrite E.
  apply Nat.le_add_le_sub_r. apply Nat.leb_le. vm_compute. reflexivity.
Qed.

(** Two command buffers of pool 1, a render pass in the first, both submitted. *)
Definition test_session : list GpuHook :=
  [HSetEnable true;
   HAllocateCommandBuffers (Some (mkAllocateInfo 1 false 2)) (Some [5; 6]);
   HBeginCommandBuffer 5 0; HBeginRenderPass 5; HEndRenderPass 5; HEndCommandBuffer 5;
   HSubmit (Some [mkSubmitInfo 2 (Some [5; 6])])].

Definition run_hooks {G} `{VulkanApi G} (hs : list GpuHook) (s : GPUTime * G) : option (GPUTime * G) :=
  foldM run_hook hs s.

Lemma reachable_run {G} `{VulkanLaws G} hs (s s' : GPUTime * G) :
  reachable s -> run_hooks hs s = Some s' -> reachable s'.
Proof.
  revert s. induction hs as [|h hs IH]; intros s Hs E; [by injection E as <-|].
  cbn in E. destruct (run_hook h s) as [s1|] eqn:E1; [|done]. eapply IH; [|exact E].
  by eapply reachable_step.
Qed.

Definition after_session : GPUTime * Z := default (new_GPUTime, 0) (run_hooks test_session (new_GPUTime, 0)).
Definition info_5 : CommandBufferInfo := default default_CommandBufferInfo (m_cmds (fst after_session) !! 5).
Definition info_6 : CommandBufferInfo := default default_CommandBufferInfo (m_cmds (fst after_session) !! 6).

Lemma after_session_runs : run_hooks test_session (new_GPUTime, 0) = Some after_session.
Proof. vm_compute. reflexivity. Qed.

Lemma after_session_cmds :
  m_cmds (fst after_session) !! 5 = Some info_5 /\ m_cmds (fst after_session) !! 6 = Some info_6 /\
  own info_5 = [0; 1; 4; 5] /\ own info_6 = [2; 3].
Proof. split_and!; vm_compute; reflexivity. Qed.

Lemma slots_have_one_owner_witness :
  run_hooks test_session (new_GPUTime, 0) = Some after_session /\ own info_5 = [0; 1; 4; 5] /\
  4 ∈ live (m_timestamp_allocator (fst after_session)) /\ (4 ∈ own info_6 -> 5 = 6) /\
  (forall c, c ∈ m_frame_cmds (fst after_session) -> is_Some (m_cmds (fst after_session) !! c)).
Proof.
  destruct after_session_cmds as (E5 & E6 & O5 & O6).
  destruct (slots_have_one_owner (fst after_session) (snd after_session)) as (Hown & Hone & Hframe & _).
  - rewrite <- surjective_pairing. eapply reachable_run; [apply (reachable_new 0)|exact after_session_runs].
  - split; [exact after_session_runs|]. split; [exact O5|].
    assert (4 ∈ own info_5) as H4
      by (rewrite O5; do 2 apply list_elem_of_further; apply list_elem_of_here).
    split; [exact (proj2 (proj2 (proj2 (Hown 5 info_5 E5))) 4 H4)|]. split; [|exact Hframe].
    intros H6. exact (Hone 5 6 info_5 info_6 4 E5 E6 H4 H6).
Defined.

Lemma hooks_stay_in_bounds_witness :
  is_Some (run_hook (HFreeCommandBuffers 1 (Some [5])) (new_GPUTime, 0)).
Proof.
  apply hooks_stay_in_bounds.
  - exact (reachable_new 0).
  - exists [5]. reflexivity.
  - exact new_no_exhausted.
  - exact I.
Defined.

Lemma exhausted_render_pass_witness :
  exists t', BeginRenderPass 5 (full_state, 0) = Some (GpuOk, (t', 1)) /\
    OnFreeCommandBuffers 1 (Some [5]) t' = None.
Proof.
  destruct (exhausted_render_pass full_state 0 5 (mkCmdInfo [] 1 0 1 false false)) as (t' & E & _ & _ & Ef & _).
  - exact full_state_inv.
  - reflexivity.
  - exact test_state_cmd.
  - intros s Hs. apply elem_of_live. split; [exact Hs|exact (full_allocator_taken s Hs)].
  - exists t'. split; [exact E|exact Ef].
Defined.

Lemma failed_allocation_leaks_witness :
  exists t', allocate_cmds 1 [5] (set_allocator (test_free 0) new_GPUTime)
      = (mkGpuTimeStatus "Exceeded maximum number of query slots." false, t') /\
    0 ∈ live (m_timestamp_allocator t').
Proof.
  destruct (failed_allocation_leaks (set_allocator (test_free 0) new_GPUTime) 1 5 [] 0
    (test_free_inv 0 zero_valid) eq_refl zero_valid (fun x Hx => test_free_live 0 x zero_valid Hx))
    as (t' & E & Hl & _).
  exists t'. split; [exact E|exact Hl].
Defined.

Lemma recording_timestamps_witness :
  exists t', record_cmd 1 5 1 (test_state, 0) = Some (t', 4).
Proof.
  destruct (recording_timestamps 1 test_state 0 5 (mkCmdInfo [] 1 0 1 false false) 1 test_state_inv eq_refl
    test_state_cmd test_no_exhausted test_free_count) as (slots & t' & Hlen & _ & _ & E & _).
  destruct slots as [|b [|e [|? ?]]]; [discriminate Hlen|discriminate Hlen| |discriminate Hlen].
  exists t'. exact E.
Defined.

Lemma frame_boundary_times_witness :
  exists st t' g', OnFrameBoundary (set_frame_cmds [5] test_state, 4) = Some (st, (t', g')) /\
    m_frame_cmds t' = [] /\ m_valid_frame t' = true.
Proof.
  destruct (frame_boundary_times (set_frame_cmds [5] test_state) 4) as (st & t' & g' & E & _ & Hf & Hv & _).
  - apply frame_cmds_inv; [exact test_state_inv|]. intros c Hc. apply list_elem_of_singleton in Hc.
    subst c. exists (mkCmdInfo [] 1 0 1 false false). exact test_state_cmd.
  - intros c i Hc Hi. apply list_elem_of_singleton in Hc. subst c.
    rewrite (test_state_cmd : m_cmds (set_frame_cmds [5] test_state) !! 5 = _) in Hi.
    injection Hi as <-. exists 0%nat. reflexivity.
  - exists st, t', g'. split; [exact E|split; [exact Hf|exact Hv]].
Defined.
