(* ===== verification/RuntimeLayer.v ===== *)
(** * RuntimeLayer: the Vulkan layer inside of the application

    Models [DiveRuntimeLayer] of [src/runtime_layer/vk_rt_layer_impl.{h,cc}]: the
    functions the layer puts in front of Vulkan's. The functions of the driver
    below it (the [pfn] arguments) are the class [DriverApi]; a call is a value
    of [DriverCall], and the driver's answer is its [VkResult] and the handles it
    writes through its out-parameters.

    The layer keeps some of its state in thread-local maps; [m_threads] holds one
    copy per thread, and a function that uses them takes the thread [tid] it runs
    on. The static switches of the file are a record, all of them off in the
    source. Log output is left out, and so are the layer's cached function
    pointers: its GPU-time hooks call the functions of [VulkanApi]. [None] is an
    access outside of an array. *)

From S2P Require Import Prelude Status Messages FilterConfig FrameBoundary SlotAllocator FrameMetrics GpuTime.
From coqutil Require Import Word.LittleEndianList.

#[local] Open Scope Z_scope.

Abbreviation VkPipeline := Z.
Abbreviation VkRenderPass := Z.
Abbreviation VkQueryPool := Z.

Record Switches := mkSwitches {
  sEnableDrawcallReport : bool;
  sEnableDrawcallLimit : bool;
  sEnableDrawcallFilter : bool;
  sEnableGPUTiming : bool;
  sRemoveImageFlagFDMOffset : bool;
  sRemoveImageFlagSubSampled : bool
}.
Definition source_switches : Switches := mkSwitches false false false false false false.

Definition kDrawcallCountLimit : Z := 300.
Definition kVisibilityMaskIndexCount : Z := 42.
Definition kSyntheticTimestampIncrement : Z := 1000.

Definition VK_IMAGE_CREATE_FRAGMENT_DENSITY_MAP_OFFSET_BIT_QCOM : Z := 32768.
Definition VK_IMAGE_CREATE_SUBSAMPLED_BIT_EXT : Z := 16384.
Definition VK_PIPELINE_BIND_POINT_GRAPHICS : Z := 0.
Definition VK_OBJECT_TYPE_RENDER_PASS : Z := 18.
Definition VK_OBJECT_TYPE_PIPELINE : Z := 19.
Definition VK_QUERY_TYPE_TIMESTAMP : Z := 2.
Definition VK_QUERY_RESULT_64_BIT : Z := 1.
Definition VK_QUERY_RESULT_WITH_AVAILABILITY_BIT : Z := 4.
Definition VK_TRUE : Z := 1.

Record TrackedPSO := mkTrackedPSO { tracked_name : string; has_alpha_blend : bool }.
Record TrackedRenderPass := mkTrackedRenderPass { tracked_rp_name : string }.

(** [pColorBlendState]: the [blendEnable] of each attachment. *)
Record VkGraphicsPipelineCreateInfo := mkPipelineInfo { pColorBlendState : option (list Z) }.

Record VkDebugUtilsObjectNameInfoEXT := mkNameInfo {
  objectType : Z; objectHandle : Z; pObjectName : option string }.

(** The thread-local maps. *)
Record ThreadLocals := mkThreadLocals {
  sCmdBufferCurrentPipelineHasAlpha : gmap VkCommandBuffer bool;
  sCmdBufferInFilteredRenderPass : gmap VkCommandBuffer bool;
  sCommandPoolBuffers : gmap VkCommandPool (list VkCommandBuffer)
}.
Definition no_locals : ThreadLocals := mkThreadLocals ∅ ∅ ∅.

Definition on_alpha f (tl : ThreadLocals) := mkThreadLocals
  (f (sCmdBufferCurrentPipelineHasAlpha tl)) (sCmdBufferInFilteredRenderPass tl) (sCommandPoolBuffers tl).
Definition on_filtered f (tl : ThreadLocals) := mkThreadLocals
  (sCmdBufferCurrentPipelineHasAlpha tl) (f (sCmdBufferInFilteredRenderPass tl)) (sCommandPoolBuffers tl).
Definition on_pools f (tl : ThreadLocals) := mkThreadLocals
  (sCmdBufferCurrentPipelineHasAlpha tl) (sCmdBufferInFilteredRenderPass tl) (f (sCommandPoolBuffers tl)).

(** A frame-boundary task: the one closure that is ever enqueued, by
    [ServerMessageHandler::HandleMessage]. *)
Inductive Task := UpdateFilterConfigTask (config : DrawcallFilterConfig).

#[export] Instance Task_eq_dec : EqDecision Task.
Proof. solve_decision. Defined.

Record DiveRuntimeLayer := mkLayer {
  m_gpu_time : GPUTime;
  m_layer_detector : FrameBoundaryDetector;
  m_device_proc_addr : bool;
  m_pending_filter_config : DrawcallFilterConfig;
  m_active_filter_config : DrawcallFilterConfig;
  m_frame_boundary_tasks : list Task;
  m_global_drawcall_counter : Z;
  m_live_psos : gmap VkPipeline TrackedPSO;
  m_render_passes : gmap VkRenderPass TrackedRenderPass;
  m_disable_timestamp : bool;
  m_timestamp_query_pools : gset VkQueryPool;
  m_synthetic_timestamp : Z;
  m_threads : gmap Z ThreadLocals;
  sDrawcallCounter : Z;
  sTotalIndexCounter : Z
}.

Definition new_layer : DiveRuntimeLayer :=
  mkLayer new_GPUTime ∅ false default_filter_config default_filter_config [] 0 ∅ ∅ false ∅ 1 ∅ 0 0.

Definition set_m_gpu_time x (l : DiveRuntimeLayer) := mkLayer x (m_layer_detector l) (m_device_proc_addr l) (m_pending_filter_config l) (m_active_filter_config l) (m_frame_boundary_tasks l) (m_global_drawcall_counter l) (m_live_psos l) (m_render_passes l) (m_disable_timestamp l) (m_timestamp_query_pools l) (m_synthetic_timestamp l) (m_threads l) (sDrawcallCounter l) (sTotalIndexCounter l).
Definition set_m_layer_detector x (l : DiveRuntimeLayer) := mkLayer (m_gpu_time l) x (m_device_proc_addr l) (m_pending_filter_config l) (m_active_filter_config l) (m_frame_boundary_tasks l) (m_global_drawcall_counter l) (m_live_psos l) (m_render_passes l) (m_disable_timestamp l) (m_timestamp_query_pools l) (m_synthetic_timestamp l) (m_threads l) (sDrawcallCounter l) (sTotalIndexCounter l).
Definition set_m_device_proc_addr x (l : DiveRuntimeLayer) := mkLayer (m_gpu_time l) (m_layer_detector l) x (m_pending_filter_config l) (m_active_filter_config l) (m_frame_boundary_tasks l) (m_global_drawcall_counter l) (m_live_psos l) (m_render_passes l) (m_disable_timestamp l) (m_timestamp_query_pools l) (m_synthetic_timestamp l) (m_threads l) (sDrawcallCounter l) (sTotalIndexCounter l).
Definition set_m_pending_filter_config x (l : DiveRuntimeLayer) := mkLayer (m_gpu_time l) (m_layer_detector l) (m_device_proc_addr l) x (m_active_filter_config l) (m_frame_boundary_tasks l) (m_global_drawcall_counter l) (m_live_psos l) (m_render_passes l) (m_disable_timestamp l) (m_timestamp_query_pools l) (m_synthetic_timestamp l) (m_threads l) (sDrawcallCounter l) (sTotalIndexCounter l).
Definition set_m_active_filter_config x (l : DiveRuntimeLayer) := mkLayer (m_gpu_time l) (m_layer_detector l) (m_device_proc_addr l) (m_pending_filter_config l) x (m_frame_boundary_tasks l) (m_global_drawcall_counter l) (m_live_psos l) (m_render_passes l) (m_disable_timestamp l) (m_timestamp_query_pools l) (m_synthetic_timestamp l) (m_threads l) (sDrawcallCounter l) (sTotalIndexCounter l).
Definition set_m_frame_boundary_tasks x (l : DiveRuntimeLayer) := mkLayer (m_gpu_time l) (m_layer_detector l) (m_device_proc_addr l) (m_pending_filter_config l) (m_active_filter_config l) x (m_global_drawcall_counter l) (m_live_psos l) (m_render_passes l) (m_disable_timestamp l) (m_timestamp_query_pools l) (m_synthetic_timestamp l) (m_threads l) (sDrawcallCounter l) (sTotalIndexCounter l).
Definition set_m_global_drawcall_counter x (l : DiveRuntimeLayer) := mkLayer (m_gpu_time l) (m_layer_detector l) (m_device_proc_addr l) (m_pending_filter_config l) (m_active_filter_config l) (m_frame_boundary_tasks l) x (m_live_psos l) (m_render_passes l) (m_disable_timestamp l) (m_timestamp_query_pools l) (m_synthetic_timestamp l) (m_threads l) (sDrawcallCounter l) (sTotalIndexCounter l).
Definition set_m_live_psos x (l : DiveRuntimeLayer) := mkLayer (m_gpu_time l) (m_layer_detector l) (m_device_proc_addr l) (m_pending_filter_config l) (m_active_filter_config l) (m_frame_boundary_tasks l) (m_global_drawcall_counter l) x (m_render_passes l) (m_disable_timestamp l) (m_timestamp_query_pools l) (m_synthetic_timestamp l) (m_threads l) (sDrawcallCounter l) (sTotalIndexCounter l).
Definition set_m_render_passes x (l : DiveRuntimeLayer) := mkLayer (m_gpu_time l) (m_layer_detector l) (m_device_proc_addr l) (m_pending_filter_config l) (m_active_filter_config l) (m_frame_boundary_tasks l) (m_global_drawcall_counter l) (m_live_psos l) x (m_disable_timestamp l) (m_timestamp_query_pools l) (m_synthetic_timestamp l) (m_threads l) (sDrawcallCounter l) (sTotalIndexCounter l).
Definition set_m_disable_timestamp x (l : DiveRuntimeLayer) := mkLayer (m_gpu_time l) (m_layer_detector l) (m_device_proc_addr l) (m_pending_filter_config l) (m_active_filter_config l) (m_frame_boundary_tasks l) (m_global_drawcall_counter l) (m_live_psos l) (m_render_passes l) x (m_timestamp_query_pools l) (m_synthetic_timestamp l) (m_threads l) (sDrawcallCounter l) (sTotalIndexCounter l).
Definition set_m_timestamp_query_pools x (l : DiveRuntimeLayer) := mkLayer (m_gpu_time l) (m_layer_detector l) (m_device_proc_addr l) (m_pending_filter_config l) (m_active_filter_config l) (m_frame_boundary_tasks l) (m_global_drawcall_counter l) (m_live_psos l) (m_render_passes l) (m_disable_timestamp l) x (m_synthetic_timestamp l) (m_threads l) (sDrawcallCounter l) (sTotalIndexCounter l).
Definition set_m_synthetic_timestamp x (l : DiveRuntimeLayer) := mkLayer (m_gpu_time l) (m_layer_detector l) (m_device_proc_addr l) (m_pending_filter_config l) (m_active_filter_config l) (m_frame_boundary_tasks l) (m_global_drawcall_counter l) (m_live_psos l) (m_render_passes l) (m_disable_timestamp l) (m_timestamp_query_pools l) x (m_threads l) (sDrawcallCounter l) (sTotalIndexCounter l).
Definition set_m_threads x (l : DiveRuntimeLayer) := mkLayer (m_gpu_time l) (m_layer_detector l) (m_device_proc_addr l) (m_pending_filter_config l) (m_active_filter_config l) (m_frame_boundary_tasks l) (m_global_drawcall_counter l) (m_live_psos l) (m_render_passes l) (m_disable_timestamp l) (m_timestamp_query_pools l) (m_synthetic_timestamp l) x (sDrawcallCounter l) (sTotalIndexCounter l).
Definition set_sDrawcallCounter x (l : DiveRuntimeLayer) := mkLayer (m_gpu_time l) (m_layer_detector l) (m_device_proc_addr l) (m_pending_filter_config l) (m_active_filter_config l) (m_frame_boundary_tasks l) (m_global_drawcall_counter l) (m_live_psos l) (m_render_passes l) (m_disable_timestamp l) (m_timestamp_query_pools l) (m_synthetic_timestamp l) (m_threads l) x (sTotalIndexCounter l).
Definition set_sTotalIndexCounter x (l : DiveRuntimeLayer) := mkLayer (m_gpu_time l) (m_layer_detector l) (m_device_proc_addr l) (m_pending_filter_config l) (m_active_filter_config l) (m_frame_boundary_tasks l) (m_global_drawcall_counter l) (m_live_psos l) (m_render_passes l) (m_disable_timestamp l) (m_timestamp_query_pools l) (m_synthetic_timestamp l) (m_threads l) (sDrawcallCounter l) x.

Definition locals (tid : Z) (l : DiveRuntimeLayer) : ThreadLocals := default no_locals (m_threads l !! tid).
Definition on_locals (tid : Z) (f : ThreadLocals -> ThreadLocals) (l : DiveRuntimeLayer) :=
  set_m_threads (<[tid := f (locals tid l)]> (m_threads l)) l.

(** The draw calls, with the arguments they hand on. *)
Inductive DrawCall :=
  | Draw (vertexCount instanceCount firstVertex firstInstance : Z)
  | DrawIndexed (indexCount instanceCount firstIndex vertexOffset firstInstance : Z)
  | DrawIndirect (buffer offset drawCount stride : Z)
  | DrawIndexedIndirect (buffer offset drawCount stride : Z)
  | DrawIndirectCount (buffer offset countBuffer countBufferOffset maxDrawCount stride : Z)
  | DrawIndexedIndirectCount (buffer offset countBuffer countBufferOffset maxDrawCount stride : Z)
  | DrawMeshTasksEXT (groupCountX groupCountY groupCountZ : Z)
  | DrawMeshTasksIndirectEXT (buffer offset drawCount stride : Z)
  | DrawMeshTasksIndirectCountEXT (buffer offset countBuffer countBufferOffset maxDrawCount stride : Z).

(** A call of a function of the driver. *)
Inductive DriverCall :=
  | pfn_QueuePresentKHR (queue : Z)
  | pfn_CreateImage (device flags : Z)
  | pfn_CreateGraphicsPipelines (device : Z) (createInfoCount : nat) (infos : list VkGraphicsPipelineCreateInfo)
  | pfn_DestroyPipeline (device pipeline : Z)
  | pfn_SetDebugUtilsObjectNameEXT (device : Z) (info : option VkDebugUtilsObjectNameInfoEXT)
  | pfn_CmdBindPipeline (cmd bindPoint pipeline : Z)
  | pfn_CmdDraw (cmd : Z) (draw : DrawCall)
  | pfn_CmdResetQueryPool (cmd pool first count : Z)
  | pfn_CmdWriteTimestamp (cmd stage pool query : Z)
  | pfn_GetQueryPoolResults (device pool first count : Z) (data : list byte) (stride flags : Z)
  | pfn_CmdCopyQueryPoolResults (cmd pool first count buffer offset stride flags : Z)
  | pfn_DestroyCommandPool (device pool : Z)
  | pfn_AllocateCommandBuffers (device : Z) (info : VkCommandBufferAllocateInfo)
  | pfn_FreeCommandBuffers (device pool : Z) (count : nat) (cmds : option (list VkCommandBuffer))
  | pfn_ResetCommandBuffer (cmd flags : Z)
  | pfn_ResetCommandPool (device pool flags : Z)
  | pfn_BeginCommandBuffer (cmd flags : Z)
  | pfn_EndCommandBuffer (cmd : Z)
  | pfn_CreateDevice (physicalDevice : Z)
  | pfn_DestroyDevice (device : Z)
  | pfn_AcquireNextImageKHR (device swapchain timeout : Z)
  | pfn_QueueSubmit (queue : Z) (submits : option (list VkSubmitInfo)) (fence : Z)
  | pfn_GetDeviceQueue2 (device : Z)
  | pfn_GetDeviceQueue (device family index : Z)
  | pfn_CmdInsertDebugUtilsLabelEXT (cmd : Z) (label : option string)
  | pfn_CreateRenderPass (device : Z)
  | pfn_CmdBeginRenderPass (cmd renderPass contents : Z)
  | pfn_CmdEndRenderPass (cmd : Z)
  | pfn_CreateRenderPass2 (device : Z)
  | pfn_CmdBeginRenderPass2 (cmd renderPass contents : Z)
  | pfn_CmdEndRenderPass2 (cmd : Z)
  | pfn_DestroyRenderPass (device renderPass : Z)
  | pfn_CreateQueryPool (device queryType : Z)
  | pfn_DestroyQueryPool (device pool : Z).

Record Answer := mkAnswer { vk_result : Z; vk_handles : list Z; vk_data : list byte }.

Class DriverApi (G : Type) := { driver : DriverCall -> G -> Answer * G }.

(** ** A monad of layer and world, with undefined behaviour *)

Definition LayerM (G A : Type) : Type := DiveRuntimeLayer * G -> option (A * (DiveRuntimeLayer * G)).

Definition layer_ret {G A} (a : A) : LayerM G A := fun s => Some (a, s).
Definition layer_bind {G A B} (m : LayerM G A) (k : A -> LayerM G B) : LayerM G B :=
  fun s => match m s with None => None | Some (a, s) => k a s end.

Notation "'let!' x := m 'in' k" := (layer_bind m (fun x => k))
  (at level 200, x pattern, m at level 100, k at level 200, right associativity) : dive_scope.
Notation "'do!' m 'in' k" := (layer_bind m (fun _ => k))
  (at level 200, m at level 100, k at level 200, right associativity) : dive_scope.

Definition get {G A} (f : DiveRuntimeLayer -> A) : LayerM G A := fun s => Some (f (fst s), s).
Definition update {G} (f : DiveRuntimeLayer -> DiveRuntimeLayer) : LayerM G unit :=
  fun '(l, g) => Some (tt, (f l, g)).
Definition defined {G A} (a : option A) : LayerM G A := fun s => a ← a; Some (a, s).

(** Reads [p[0]], ..., as an array argument. *)
Definition write_at (offset : Z) (b data : list byte) : option (list byte) :=
  if (0 <=? offset) && (Z.to_nat offset + length b <=? length data)%nat
  then Some (take (Z.to_nat offset) data ++ b ++ drop (Z.to_nat offset + length b) data)
  else None.

(** ** The functions *)

Section Layer.
Context {G : Type} `{VulkanApi G} `{DriverApi G} (sw : Switches).

Abbreviation LayerM A := (LayerM G A).

Definition pfn (c : DriverCall) : LayerM Answer := fun '(l, g) =>
  let '(a, g) := driver c g in Some (a, (l, g)).
(** A driver function without a result. *)
Definition pfn_ (c : DriverCall) : LayerM unit := do! pfn c in layer_ret tt.

(** A hook of [m_gpu_time]; its status is only logged. *)
Definition gpu_time {A} (hook : GPUTime * G -> option (A * (GPUTime * G))) : LayerM A := fun '(l, g) =>
  r ← hook (m_gpu_time l, g);
  let '(a, (t, g)) := r in Some (a, (set_m_gpu_time t l, g)).
Definition gpu_time' {A} (hook : GPUTime -> option (A * GPUTime)) : LayerM A :=
  gpu_time (fun '(t, g) => '(a, t) ← hook t; Some (a, (t, g))).
Definition detector (f : FrameBoundaryDetector -> FrameBoundaryDetector) : LayerM unit :=
  update (fun l => set_m_layer_detector (f (m_layer_detector l)) l).

(** *** Filters *)

Definition CheckAndIncrementDrawcallCount : LayerM bool :=
  let! config := get m_active_filter_config in
  if negb (enable_drawcall_limit config) then layer_ret false
  else
    let! counter := get m_global_drawcall_counter in
    do! update (set_m_global_drawcall_counter (wrap 32 (counter + 1))) in
    if max_drawcalls config <=? counter then layer_ret true else layer_ret false.

Definition ShouldFilterDrawCall (HasVertex HasIndex HasInstance : bool) (tid : Z)
    (command_buffer : VkCommandBuffer) (vertex_count index_count instance_count : Z)
    (l : DiveRuntimeLayer) : bool :=
  let config := m_active_filter_config l in
  if HasVertex && (filter_by_vertex_count config && (vertex_count =? target_vertex_count config)) then true
  else if HasIndex && (filter_by_index_count config && (index_count =? target_index_count config)) then true
  else if HasInstance && (filter_by_instance_count config && (instance_count =? target_instance_count config))
  then true
  else if filter_by_alpha_blended config
       && default false (sCmdBufferCurrentPipelineHasAlpha (locals tid l) !! command_buffer) then true
  else if filter_by_render_pass config
       && default false (sCmdBufferInFilteredRenderPass (locals tid l) !! command_buffer) then true
  else false.

Definition CmdDraw (tid : Z) (commandBuffer : VkCommandBuffer)
    (vertexCount instanceCount firstVertex firstInstance : Z) : LayerM unit :=
  let! filtered := get (ShouldFilterDrawCall true false true tid commandBuffer vertexCount 0 instanceCount) in
  if filtered : bool then layer_ret tt
  else
    let! limited := CheckAndIncrementDrawcallCount in
    if limited : bool then layer_ret tt
    else pfn_ (pfn_CmdDraw commandBuffer (Draw vertexCount instanceCount firstVertex firstInstance)).

Definition CmdDrawIndexed (tid : Z) (commandBuffer : VkCommandBuffer)
    (indexCount instanceCount firstIndex vertexOffset firstInstance : Z) : LayerM unit :=
  let! filtered := get (ShouldFilterDrawCall false true true tid commandBuffer 0 indexCount instanceCount) in
  if filtered : bool then layer_ret tt
  else
    let! limited := CheckAndIncrementDrawcallCount in
    if limited : bool then layer_ret tt
    else if sEnableDrawcallFilter sw &&
            ((indexCount =? kVisibilityMaskIndexCount) || (indexCount =? wrap 32 (kVisibilityMaskIndexCount * 2)))
    then layer_ret tt
    else
      do! update (fun l => set_sDrawcallCounter (wrap 32 (sDrawcallCounter l + 1)) l) in
      do! update (fun l => set_sTotalIndexCounter (wrap 64 (sTotalIndexCounter l + indexCount)) l) in
      let! counter := get sDrawcallCounter in
      if sEnableDrawcallLimit sw && (kDrawcallCountLimit <? counter) then layer_ret tt
      else pfn_ (pfn_CmdDraw commandBuffer
                   (DrawIndexed indexCount instanceCount firstIndex vertexOffset firstInstance)).

(** The other draw calls look at neither counts nor instances. *)
Definition draw_unless_filtered (tid : Z) (commandBuffer : VkCommandBuffer) (draw : DrawCall) : LayerM unit :=
  let! filtered := get (ShouldFilterDrawCall false false false tid commandBuffer 0 0 0) in
  if filtered : bool then layer_ret tt
  else
    let! limited := CheckAndIncrementDrawcallCount in
    if limited : bool then layer_ret tt
    else pfn_ (pfn_CmdDraw commandBuffer draw).

Definition CmdDrawIndirect tid commandBuffer buffer offset drawCount stride : LayerM unit :=
  draw_unless_filtered tid commandBuffer (DrawIndirect buffer offset drawCount stride).
Definition CmdDrawIndexedIndirect tid commandBuffer buffer offset drawCount stride : LayerM unit :=
  draw_unless_filtered tid commandBuffer (DrawIndexedIndirect buffer offset drawCount stride).
Definition CmdDrawIndirectCount tid commandBuffer buffer offset countBuffer countBufferOffset maxDrawCount
    stride : LayerM unit :=
  draw_unless_filtered tid commandBuffer
    (DrawIndirectCount buffer offset countBuffer countBufferOffset maxDrawCount stride).
Definition CmdDrawIndexedIndirectCount tid commandBuffer buffer offset countBuffer countBufferOffset
    maxDrawCount stride : LayerM unit :=
  draw_unless_filtered tid commandBuffer
    (DrawIndexedIndirectCount buffer offset countBuffer countBufferOffset maxDrawCount stride).
Definition CmdDrawMeshTasksEXT tid commandBuffer groupCountX groupCountY groupCountZ : LayerM unit :=
  draw_unless_filtered tid commandBuffer (DrawMeshTasksEXT groupCountX groupCountY groupCountZ).
Definition CmdDrawMeshTasksIndirectEXT tid commandBuffer buffer offset drawCount stride : LayerM unit :=
  draw_unless_filtered tid commandBuffer (DrawMeshTasksIndirectEXT buffer offset drawCount stride).
Definition CmdDrawMeshTasksIndirectCountEXT tid commandBuffer buffer offset countBuffer countBufferOffset
    maxDrawCount stride : LayerM unit :=
  draw_unless_filtered tid commandBuffer
    (DrawMeshTasksIndirectCountEXT buffer offset countBuffer countBufferOffset maxDrawCount stride).

(** *** Frame-boundary tasks *)

Definition UpdateFilterConfig (config : DrawcallFilterConfig) : LayerM unit :=
  update (set_m_pending_filter_config config).

Definition EnqueueFrameBoundaryTask (task : Task) : LayerM unit :=
  update (fun l => set_m_frame_boundary_tasks (m_frame_boundary_tasks l ++ [task]) l).

Definition run_task (task : Task) : LayerM unit :=
  match task with UpdateFilterConfigTask config => UpdateFilterConfig config end.

Fixpoint run_tasks (tasks : list Task) : LayerM unit :=
  match tasks with
  | [] => layer_ret tt
  | task :: tasks => do! run_task task in run_tasks tasks
  end.

Definition ProcessFrameBoundaryTasks : LayerM unit :=
  do! update (fun l => set_m_active_filter_config (m_pending_filter_config l) l) in
  do! update (set_m_global_drawcall_counter 0) in
  let! tasks_to_run := get m_frame_boundary_tasks in
  match tasks_to_run with
  | [] => layer_ret tt
  | _ => do! update (set_m_frame_boundary_tasks []) in run_tasks tasks_to_run
  end.

Definition QueuePresentKHR (queue : Z) : LayerM Z :=
  do! ProcessFrameBoundaryTasks in
  let! a := pfn (pfn_QueuePresentKHR queue) in
  if negb (vk_result a =? VK_SUCCESS) then layer_ret (vk_result a)
  else do! gpu_time OnQueuePresent in layer_ret (vk_result a).

Definition QueueSubmit (queue : Z) (submits : option (list VkSubmitInfo)) (fence : Z) : LayerM Z :=
  let! a := pfn (pfn_QueueSubmit queue submits fence) in
  if negb (vk_result a =? VK_SUCCESS) then layer_ret (vk_result a)
  else
    do! (if sEnableGPUTiming sw then do! gpu_time (OnQueueSubmit submits) in layer_ret tt
         else layer_ret tt) in
    let! is_frame_boundary := get (fun l => ContainsFrameBoundary submits (m_layer_detector l)) in
    do! (if is_frame_boundary : bool then ProcessFrameBoundaryTasks else layer_ret tt) in
    layer_ret (vk_result a).

(** *** Images and pipelines *)

Definition CreateImage (device flags : Z) : LayerM Z :=
  let flags :=
    if sRemoveImageFlagFDMOffset sw &&
       negb (Z.land flags VK_IMAGE_CREATE_FRAGMENT_DENSITY_MAP_OFFSET_BIT_QCOM =? 0)
    then Z.land flags (wrap 32 (Z.lnot VK_IMAGE_CREATE_FRAGMENT_DENSITY_MAP_OFFSET_BIT_QCOM)) else flags in
  let flags :=
    if sRemoveImageFlagSubSampled sw && negb (Z.land flags VK_IMAGE_CREATE_SUBSAMPLED_BIT_EXT =? 0)
    then Z.land flags (wrap 32 (Z.lnot VK_IMAGE_CREATE_SUBSAMPLED_BIT_EXT)) else flags in
  let! a := pfn (pfn_CreateImage device flags) in
  layer_ret (vk_result a).

Definition tracked_pso (info : VkGraphicsPipelineCreateInfo) : TrackedPSO :=
  let has_alpha := match pColorBlendState info with
                   | None => false
                   | Some attachments => existsb (fun blendEnable => blendEnable =? VK_TRUE) attachments
                   end in
  mkTrackedPSO (if has_alpha then "Alpha_blend_enabled" else "Opaque") has_alpha.

(** The loop: [m_live_psos[pPipelines[i]] = info]. *)
Fixpoint track_psos (infos : list VkGraphicsPipelineCreateInfo) (pipelines : list VkPipeline)
    (m : gmap VkPipeline TrackedPSO) : gmap VkPipeline TrackedPSO :=
  match infos, pipelines with
  | info :: infos, pipeline :: pipelines =>
      track_psos infos pipelines (<[pipeline := tracked_pso info]> m)
  | _, _ => m
  end.

Definition CreateGraphicsPipelines (device : Z) (createInfoCount : nat)
    (infos : list VkGraphicsPipelineCreateInfo) : LayerM Answer :=
  let! a := pfn (pfn_CreateGraphicsPipelines device createInfoCount infos) in
  if vk_result a =? VK_SUCCESS then
    let! infos := defined (array_elements createInfoCount (Some infos)) in
    let! pipelines := defined (array_elements createInfoCount (Some (vk_handles a))) in
    do! update (fun l => set_m_live_psos (track_psos infos pipelines (m_live_psos l)) l) in
    layer_ret a
  else layer_ret a.

Definition DestroyPipeline (device : Z) (pipeline : VkPipeline) : LayerM unit :=
  do! update (fun l => set_m_live_psos (delete pipeline (m_live_psos l)) l) in
  pfn_ (pfn_DestroyPipeline device pipeline).

(** [pfn] may be null. *)
Definition SetDebugUtilsObjectNameEXT (has_pfn : bool) (device : Z)
    (pNameInfo : option VkDebugUtilsObjectNameInfoEXT) : LayerM Z :=
  do! match pNameInfo with
      | Some (mkNameInfo type handle (Some name)) =>
          if type =? VK_OBJECT_TYPE_PIPELINE then
            update (fun l => set_m_live_psos
              (alter (fun i => mkTrackedPSO name (has_alpha_blend i)) handle (m_live_psos l)) l)
          else if type =? VK_OBJECT_TYPE_RENDER_PASS then
            update (fun l => set_m_render_passes
              (alter (fun _ => mkTrackedRenderPass name) handle (m_render_passes l)) l)
          else layer_ret tt
      | _ => layer_ret tt
      end in
  if has_pfn : bool then
    let! a := pfn (pfn_SetDebugUtilsObjectNameEXT device pNameInfo) in layer_ret (vk_result a)
  else layer_ret VK_SUCCESS.

Definition CmdBindPipeline (tid : Z) (commandBuffer : VkCommandBuffer) (pipelineBindPoint : Z)
    (pipeline : VkPipeline) : LayerM unit :=
  do! (if pipelineBindPoint =? VK_PIPELINE_BIND_POINT_GRAPHICS then
         let! has_alpha := get (fun l => match m_live_psos l !! pipeline with
                                         | Some info => has_alpha_blend info
                                         | None => false
                                         end) in
         update (on_locals tid (on_alpha (insert commandBuffer has_alpha)))
       else layer_ret tt) in
  pfn_ (pfn_CmdBindPipeline commandBuffer pipelineBindPoint pipeline).

Definition GetLivePSOs (l : DiveRuntimeLayer) : list PSOInfo :=
  map (fun '(pipeline, state) => mkPSOInfo (tracked_name state) pipeline (has_alpha_blend state))
      (map_to_list (m_live_psos l)).
Definition GetLiveRenderPasses (l : DiveRuntimeLayer) : list RenderPassInfo :=
  map (fun '(rp, state) => mkRenderPassInfo (tracked_rp_name state) rp) (map_to_list (m_render_passes l)).

(** *** Query pools *)

Definition SetDisableTimestamp (disable : bool) : LayerM unit := update (set_m_disable_timestamp disable).

Definition IsTimestampQueryPool (pool : VkQueryPool) (l : DiveRuntimeLayer) : bool :=
  bool_decide (pool ∈ m_timestamp_query_pools l).
Definition disabled_pool (pool : VkQueryPool) : LayerM bool :=
  get (fun l => m_disable_timestamp l && IsTimestampQueryPool pool l).

Definition CreateQueryPool (device queryType : Z) : LayerM Answer :=
  let! a := pfn (pfn_CreateQueryPool device queryType) in
  if (vk_result a =? VK_SUCCESS) && (queryType =? VK_QUERY_TYPE_TIMESTAMP) then
    let! pool := defined (head (vk_handles a)) in
    do! update (fun l => set_m_timestamp_query_pools ({[ pool ]} ∪ m_timestamp_query_pools l) l) in
    layer_ret a
  else layer_ret a.

Definition DestroyQueryPool (has_pfn : bool) (device : Z) (queryPool : VkQueryPool) : LayerM unit :=
  do! update (fun l => set_m_timestamp_query_pools (m_timestamp_query_pools l ∖ {[ queryPool ]}) l) in
  if has_pfn then pfn_ (pfn_DestroyQueryPool device queryPool) else layer_ret tt.

Definition CmdResetQueryPool (commandBuffer queryPool firstQuery queryCount : Z) : LayerM unit :=
  let! disabled := disabled_pool queryPool in
  if disabled : bool then layer_ret tt
  else pfn_ (pfn_CmdResetQueryPool commandBuffer queryPool firstQuery queryCount).

Definition CmdWriteTimestamp (commandBuffer pipelineStage queryPool query : Z) : LayerM unit :=
  let! disabled := disabled_pool queryPool in
  if disabled : bool then layer_ret tt
  else pfn_ (pfn_CmdWriteTimestamp commandBuffer pipelineStage queryPool query).

Definition CmdCopyQueryPoolResults (commandBuffer queryPool firstQuery queryCount dstBuffer dstOffset
    stride flags : Z) : LayerM unit :=
  let! disabled := disabled_pool queryPool in
  if disabled : bool then layer_ret tt
  else pfn_ (pfn_CmdCopyQueryPoolResults commandBuffer queryPool firstQuery queryCount dstBuffer dstOffset
               stride flags).

(** One result: the value and, if asked for, its availability. *)
Definition mock_result (is_64_bit has_availability : bool) (mock_val : Z) : list byte :=
  let n := if is_64_bit then 8%nat else 4%nat in
  le_split n (if is_64_bit then mock_val else wrap 32 mock_val)
  ++ (if has_availability then le_split n 1 else []).

(** The loop; [ptr] is the offset in [pData]. *)
Fixpoint mock_results (queryCount : nat) (is_64_bit has_availability : bool) (stride ptr : Z)
    (pData : list byte) : LayerM (list byte) :=
  match queryCount with
  | O => layer_ret pData
  | S queryCount =>
      let! mock_val := get m_synthetic_timestamp in
      do! update (set_m_synthetic_timestamp (wrap 64 (mock_val + kSyntheticTimestampIncrement))) in
      let! pData := defined (write_at ptr (mock_result is_64_bit has_availability mock_val) pData) in
      mock_results queryCount is_64_bit has_availability stride (ptr + stride) pData
  end.

Definition GetQueryPoolResults (device queryPool firstQuery queryCount : Z) (pData : list byte)
    (stride flags : Z) : LayerM (Z * list byte) :=
  let! disabled := disabled_pool queryPool in
  if disabled : bool then
    let is_64_bit := negb (Z.land flags VK_QUERY_RESULT_64_BIT =? 0) in
    let has_availability := negb (Z.land flags VK_QUERY_RESULT_WITH_AVAILABILITY_BIT =? 0) in
    let! pData := mock_results (Z.to_nat queryCount) is_64_bit has_availability stride 0 pData in
    layer_ret (VK_SUCCESS, pData)
  else
    let! a := pfn (pfn_GetQueryPoolResults device queryPool firstQuery queryCount pData stride flags) in
    layer_ret (vk_result a, vk_data a).

(** *** Command pools and command buffers *)

Definition erase_locals (cmds : list VkCommandBuffer) (tl : ThreadLocals) : ThreadLocals :=
  fold_left (fun tl cb => on_filtered (delete cb) (on_alpha (delete cb) tl)) cmds tl.

Definition DestroyCommandPool (tid device : Z) (commandPool : VkCommandPool) : LayerM unit :=
  do! update (on_locals tid (fun tl =>
        match sCommandPoolBuffers tl !! commandPool with
        | Some cmds => on_pools (delete commandPool) (erase_locals cmds tl)
        | None => tl
        end)) in
  do! gpu_time' (OnDestroyCommandPool commandPool) in
  pfn_ (pfn_DestroyCommandPool device commandPool).

Definition AllocateCommandBuffers (tid device : Z) (info : VkCommandBufferAllocateInfo) : LayerM Answer :=
  let! a := pfn (pfn_AllocateCommandBuffers device info) in
  if negb (vk_result a =? VK_SUCCESS) then layer_ret a
  else
    let! cmds := defined (array_elements (allocateCount info) (Some (vk_handles a))) in
    do! update (on_locals tid (on_pools (fun m =>
          match cmds with
          | [] => m
          | _ => <[commandPool info := default [] (m !! commandPool info) ++ cmds]> m
          end))) in
    do! detector (Detector_OnAllocateCommandBuffers (Some info) (Some (vk_handles a))) in
    do! gpu_time' (OnAllocateCommandBuffers (Some info) (Some (vk_handles a))) in
    layer_ret a.

Definition FreeCommandBuffers (tid device : Z) (commandPool : VkCommandPool) (commandBufferCount : nat)
    (pCommandBuffers : option (list VkCommandBuffer)) : LayerM unit :=
  let! cmds := defined (array_elements commandBufferCount pCommandBuffers) in
  do! update (on_locals tid (erase_locals cmds)) in
  do! detector (Detector_OnFreeCommandBuffers commandBufferCount pCommandBuffers) in
  do! gpu_time' (OnFreeCommandBuffers commandBufferCount pCommandBuffers) in
  pfn_ (pfn_FreeCommandBuffers device commandPool commandBufferCount pCommandBuffers).

Definition ResetCommandBuffer (tid : Z) (commandBuffer : VkCommandBuffer) (flags : Z) : LayerM Z :=
  do! update (on_locals tid (erase_locals [commandBuffer])) in
  do! detector (Detector_OnResetCommandBuffer commandBuffer) in
  do! gpu_time' (OnResetCommandBuffer commandBuffer) in
  let! a := pfn (pfn_ResetCommandBuffer commandBuffer flags) in layer_ret (vk_result a).

Definition ResetCommandPool (tid device : Z) (commandPool : VkCommandPool) (flags : Z) : LayerM Z :=
  do! update (on_locals tid (fun tl =>
        match sCommandPoolBuffers tl !! commandPool with
        | Some cmds => erase_locals cmds tl
        | None => tl
        end)) in
  do! detector (Detector_OnResetCommandPool commandPool) in
  do! gpu_time' (OnResetCommandPool commandPool) in
  let! a := pfn (pfn_ResetCommandPool device commandPool flags) in layer_ret (vk_result a).

Definition BeginCommandBuffer (tid : Z) (commandBuffer : VkCommandBuffer) (flags : Z) : LayerM Z :=
  do! update (on_locals tid (on_alpha (insert commandBuffer false))) in
  let! a := pfn (pfn_BeginCommandBuffer commandBuffer flags) in
  do! update (set_sDrawcallCounter 0) in
  do! update (set_sTotalIndexCounter 0) in
  do! gpu_time (OnBeginCommandBuffer commandBuffer flags) in
  layer_ret (vk_result a).

Definition EndCommandBuffer (tid : Z) (commandBuffer : VkCommandBuffer) : LayerM Z :=
  do! update (on_locals tid (on_alpha (delete commandBuffer))) in
  do! gpu_time (OnEndCommandBuffer commandBuffer) in
  let! a := pfn (pfn_EndCommandBuffer commandBuffer) in layer_ret (vk_result a).

(** *** Devices and queues *)

Definition CreateDevice (physicalDevice allocator : Z) (timestampPeriod : double) : LayerM Answer :=
  let! a := pfn (pfn_CreateDevice physicalDevice) in
  do! update (set_m_device_proc_addr true) in
  if negb (vk_result a =? VK_SUCCESS) then layer_ret a
  else
    do! update (fun l => set_m_gpu_time (SetEnable (sEnableGPUTiming sw) (m_gpu_time l)) l) in
    let! device := defined (head (vk_handles a)) in
    do! gpu_time (fun s => Some (OnCreateDevice device allocator timestampPeriod s)) in
    layer_ret a.

Definition DestroyDevice (device : Z) : LayerM unit :=
  let! proc_addr := get m_device_proc_addr in
  if negb proc_addr then layer_ret tt
  else
    do! gpu_time (fun s => Some (OnDestroyDevice device s)) in
    pfn_ (pfn_DestroyDevice device).

Definition AcquireNextImageKHR (device swapchain timeout : Z) : LayerM Answer :=
  pfn (pfn_AcquireNextImageKHR device swapchain timeout).

Definition GetDeviceQueue2 (device : Z) : LayerM Answer :=
  let! a := pfn (pfn_GetDeviceQueue2 device) in
  let! queue := defined (head (vk_handles a)) in
  do! gpu_time' (fun t => Some (OnGetDeviceQueue2 queue t)) in
  layer_ret a.

Definition GetDeviceQueue (device queueFamilyIndex queueIndex : Z) : LayerM Answer :=
  let! a := pfn (pfn_GetDeviceQueue device queueFamilyIndex queueIndex) in
  let! queue := defined (head (vk_handles a)) in
  do! gpu_time' (fun t => Some (OnGetDeviceQueue queue t)) in
  layer_ret a.

Definition CmdInsertDebugUtilsLabel (commandBuffer : VkCommandBuffer) (label : option string) : LayerM unit :=
  do! pfn_ (pfn_CmdInsertDebugUtilsLabelEXT commandBuffer label) in
  do! detector (fun d => snd (MarkBoundary commandBuffer label d)) in
  do! gpu_time' (fun t => Some (OnCmdInsertDebugUtilsLabelEXT commandBuffer label t)) in
  layer_ret tt.

(** *** Render passes *)

Definition track_render_pass (a : Answer) : LayerM Answer :=
  if vk_result a =? VK_SUCCESS then
    let! renderPass := defined (head (vk_handles a)) in
    do! update (fun l => set_m_render_passes
          (<[renderPass := mkTrackedRenderPass "Unnamed RenderPass"]> (m_render_passes l)) l) in
    layer_ret a
  else layer_ret a.

Definition CreateRenderPass (device : Z) : LayerM Answer :=
  let! a := pfn (pfn_CreateRenderPass device) in track_render_pass a.
Definition CreateRenderPass2 (device : Z) : LayerM Answer :=
  let! a := pfn (pfn_CreateRenderPass2 device) in track_render_pass a.

Definition in_filtered_render_pass (renderPass : VkRenderPass) (l : DiveRuntimeLayer) : bool :=
  if filter_by_render_pass (m_active_filter_config l) then
    match m_render_passes l !! renderPass with
    | Some info => bool_decide (tracked_rp_name info = target_render_pass_name (m_active_filter_config l))
    | None => false
    end
  else false.

Definition CmdBeginRenderPass (tid : Z) (commandBuffer : VkCommandBuffer) (renderPass : VkRenderPass)
    (contents : Z) : LayerM unit :=
  let! is_filtered := get (in_filtered_render_pass renderPass) in
  do! update (on_locals tid (on_filtered (insert commandBuffer is_filtered))) in
  do! gpu_time (OnCmdBeginRenderPass commandBuffer) in
  pfn_ (pfn_CmdBeginRenderPass commandBuffer renderPass contents).

Definition CmdEndRenderPass (tid : Z) (commandBuffer : VkCommandBuffer) : LayerM unit :=
  do! update (on_locals tid (on_filtered (insert commandBuffer false))) in
  do! pfn_ (pfn_CmdEndRenderPass commandBuffer) in
  do! gpu_time (OnCmdEndRenderPass commandBuffer) in
  layer_ret tt.

Definition CmdBeginRenderPass2 (tid : Z) (commandBuffer : VkCommandBuffer) (renderPass : VkRenderPass)
    (contents : Z) : LayerM unit :=
  let! is_filtered := get (in_filtered_render_pass renderPass) in
  do! update (on_locals tid (on_filtered (insert commandBuffer is_filtered))) in
  do! gpu_time (OnCmdBeginRenderPass2 commandBuffer) in
  pfn_ (pfn_CmdBeginRenderPass2 commandBuffer renderPass contents).

Definition CmdEndRenderPass2 (tid : Z) (commandBuffer : VkCommandBuffer) : LayerM unit :=
  do! update (on_locals tid (on_filtered (insert commandBuffer false))) in
  do! pfn_ (pfn_CmdEndRenderPass2 commandBuffer) in
  do! gpu_time (OnCmdEndRenderPass2 commandBuffer) in
  layer_ret tt.

Definition DestroyRenderPass (device : Z) (renderPass : VkRenderPass) : LayerM unit :=
  do! update (fun l => set_m_render_passes (delete renderPass (m_render_passes l)) l) in
  pfn_ (pfn_DestroyRenderPass device renderPass).
End Layer.
