(* ===== verification/RuntimeFilter.v ===== *)
(** * RuntimeFilter: which draw calls and queries reach the driver

    The layer's filters, one call at a time: what [ShouldFilterDrawCall] and the
    draw-call limit let through, on which thread a filter sees what was bound,
    and what an application reads from a timestamp pool while timestamps are
    disabled. *)

From S2P Require Import Prelude Status Wire Messages FilterConfig FrameBoundary SlotAllocator.
From S2P Require Import FrameMetrics GpuTime GpuInvariant GpuFrame GpuHooks RuntimeLayer.
From coqutil Require Import Word.LittleEndianList.

#[local] Open Scope Z_scope.

(** One draw call of an application: the thread, the command buffer, the call. *)
Record DrawEvent := mkDraw { de_thread : Z; de_cmd : VkCommandBuffer; de_call : DrawCall }.

(** The counts a draw call is filtered by; the indirect and mesh ones have
    none. *)
Definition draw_filter (l : DiveRuntimeLayer) (e : DrawEvent) : bool :=
  match de_call e with
  | Draw vertexCount instanceCount _ _ =>
      ShouldFilterDrawCall true false true (de_thread e) (de_cmd e) vertexCount 0 instanceCount l
  | DrawIndexed indexCount instanceCount _ _ _ =>
      ShouldFilterDrawCall false true true (de_thread e) (de_cmd e) 0 indexCount instanceCount l
  | _ => ShouldFilterDrawCall false false false (de_thread e) (de_cmd e) 0 0 0 l
  end.

(** The fields a filter looks at. *)
Record same_filters (l l' : DiveRuntimeLayer) : Prop := mkSameFilters {
  sf_config : m_active_filter_config l' = m_active_filter_config l;
  sf_threads : m_threads l' = m_threads l
}.

Lemma same_filters_draw l l' e : same_filters l l' -> draw_filter l' e = draw_filter l e.
Proof.
  intros [Hc Ht]. unfold draw_filter, ShouldFilterDrawCall, locals. by rewrite Hc, Ht.
Qed.

Lemma same_filters_refl l : same_filters l l.
Proof. done. Qed.
Lemma same_filters_trans l1 l2 l3 : same_filters l1 l2 -> same_filters l2 l3 -> same_filters l1 l3.
Proof. intros [? ?] [? ?]. split; congruence. Qed.

(** The draw calls that are still let through: without a limit all of them. *)
Definition budget (l : DiveRuntimeLayer) : option Z :=
  if enable_drawcall_limit (m_active_filter_config l)
  then Some (max_drawcalls (m_active_filter_config l) - m_global_drawcall_counter l) else None.

Definition within {A} (b : option Z) (es : list A) : list A :=
  match b with None => es | Some b => take (Z.to_nat b) es end.

Section Draws.
Context {G : Type} `{VulkanApi G} `{DriverApi G}.
Implicit Types (l : DiveRuntimeLayer) (g : G).

(** The layer's function for a draw call. *)
Definition run_draw (e : DrawEvent) : LayerM G unit :=
  let '(mkDraw tid cmd d) := e in
  match d with
  | Draw a b c d => CmdDraw tid cmd a b c d
  | DrawIndexed a b c d e => CmdDrawIndexed source_switches tid cmd a b c d e
  | DrawIndirect a b c d => CmdDrawIndirect tid cmd a b c d
  | DrawIndexedIndirect a b c d => CmdDrawIndexedIndirect tid cmd a b c d
  | DrawIndirectCount a b c d e f => CmdDrawIndirectCount tid cmd a b c d e f
  | DrawIndexedIndirectCount a b c d e f => CmdDrawIndexedIndirectCount tid cmd a b c d e f
  | DrawMeshTasksEXT a b c => CmdDrawMeshTasksEXT tid cmd a b c
  | DrawMeshTasksIndirectEXT a b c d => CmdDrawMeshTasksIndirectEXT tid cmd a b c d
  | DrawMeshTasksIndirectCountEXT a b c d e f => CmdDrawMeshTasksIndirectCountEXT tid cmd a b c d e f
  end.

Fixpoint run_draws (es : list DrawEvent) : LayerM G unit :=
  match es with [] => layer_ret tt | e :: es => do! run_draw e in run_draws es end.

(** The driver's calls for the draws that go through. *)
Definition forward (g : G) (e : DrawEvent) : G := snd (driver (pfn_CmdDraw (de_cmd e) (de_call e)) g).

(** Counting a draw call. *)
Lemma CheckAndIncrement_spec l g :
  CheckAndIncrementDrawcallCount (l, g) =
  Some (match budget l with None => false | Some b => b <=? 0 end,
        (if enable_drawcall_limit (m_active_filter_config l)
         then set_m_global_drawcall_counter (wrap 32 (m_global_drawcall_counter l + 1)) l else l, g)).
Proof.
  unfold CheckAndIncrementDrawcallCount, layer_bind, get, budget. cbn [fst].
  destruct (enable_drawcall_limit _); [|done]. cbn [negb update].
  replace (max_drawcalls (m_active_filter_config l) - m_global_drawcall_counter l <=? 0)
    with (max_drawcalls (m_active_filter_config l) <=? m_global_drawcall_counter l)
    by (apply eq_iff_eq_true; rewrite !Z.leb_le; lia).
  by destruct (_ <=? _).
Qed.

(** One draw call. *)
Lemma run_draw_spec e l g :
  exists l', same_filters l l' /\
    run_draw e (l, g)
    = Some (tt, (l', if draw_filter l e || match budget l with None => false | Some b => b <=? 0 end
                     then g else forward g e)) /\
    m_global_drawcall_counter l'
    = (if draw_filter l e || negb (enable_drawcall_limit (m_active_filter_config l))
       then m_global_drawcall_counter l else wrap 32 (m_global_drawcall_counter l + 1)).
Proof.
  assert (forall f d,
    exists l', same_filters l l' /\
      (let! filtered := get f in
       if filtered : bool then layer_ret tt
       else let! limited := CheckAndIncrementDrawcallCount in
            if limited : bool then layer_ret tt else pfn_ (pfn_CmdDraw (de_cmd e) d)) (l, g)
      = Some (tt, (l', if f l || match budget l with None => false | Some b => b <=? 0 end
                       then g else snd (driver (pfn_CmdDraw (de_cmd e) d) g))) /\
      m_global_drawcall_counter l'
      = (if f l || negb (enable_drawcall_limit (m_active_filter_config l))
         then m_global_drawcall_counter l else wrap 32 (m_global_drawcall_counter l + 1))) as Hplain.
  { intros f d. unfold layer_bind at 1, get. cbn [fst]. destruct (f l); cbn [orb negb].
    { exists l. split_and!; try done. }
    unfold layer_bind at 1. rewrite CheckAndIncrement_spec.
    set (l1 := if enable_drawcall_limit _ then _ else l). exists l1.
    assert (same_filters l l1) as Hs by (subst l1; by destruct (enable_drawcall_limit _)).
    split; [done|]. split; [|subst l1; by destruct (enable_drawcall_limit _)].
    destruct (match budget l with None => false | Some b => b <=? 0 end); [done|].
    unfold pfn_, pfn, layer_bind. destruct (driver _ g) as [a g']. done. }
  destruct e as [tid cmd d]. unfold draw_filter, forward. cbn [de_thread de_cmd de_call] in *.
  destruct d; try apply Hplain. unfold run_draw, CmdDrawIndexed. unfold layer_bind at 1, get. cbn [fst].
  destruct (ShouldFilterDrawCall _ _ _ _ _ _ _ _ l); cbn [orb].
  { exists l. by split_and!. }
  unfold layer_bind at 1. rewrite CheckAndIncrement_spec. cbn [sEnableDrawcallFilter sEnableDrawcallLimit
    source_switches andb].
  set (l1 := if enable_drawcall_limit _ then _ else l).
  assert (same_filters l l1 /\ m_global_drawcall_counter l1 =
    if negb (enable_drawcall_limit (m_active_filter_config l)) then m_global_drawcall_counter l
    else wrap 32 (m_global_drawcall_counter l + 1)) as [Hs Hc]
    by (subst l1; by destruct (enable_drawcall_limit _)).
  clearbody l1. destruct (match budget l with None => false | Some b => b <=? 0 end).
  - exists l1. by split_and!.
  - unfold layer_bind, update, get, pfn_, pfn, layer_bind. cbn [fst]. destruct (driver _ g) as [a g'].
    eexists. split_and!; [|done|done]. by destruct Hs.
Qed.
End Draws.

(** ** What a filter matches *)

(** The counts of a draw call against the configuration's targets. *)
Definition count_filter (config : DrawcallFilterConfig) (d : DrawCall) : bool :=
  match d with
  | Draw vertexCount instanceCount _ _ =>
      (filter_by_vertex_count config && (vertexCount =? target_vertex_count config)) ||
      (filter_by_instance_count config && (instanceCount =? target_instance_count config))
  | DrawIndexed indexCount instanceCount _ _ _ =>
      (filter_by_index_count config && (indexCount =? target_index_count config)) ||
      (filter_by_instance_count config && (instanceCount =? target_instance_count config))
  | _ => false
  end.

(** What the thread has noted about the command buffer. *)
Definition alpha_flag (l : DiveRuntimeLayer) (tid : Z) (cmd : VkCommandBuffer) : bool :=
  default false (sCmdBufferCurrentPipelineHasAlpha (locals tid l) !! cmd).
Definition render_pass_flag (l : DiveRuntimeLayer) (tid : Z) (cmd : VkCommandBuffer) : bool :=
  default false (sCmdBufferInFilteredRenderPass (locals tid l) !! cmd).

Lemma draw_filter_eq l e :
  let config := m_active_filter_config l in
  draw_filter l e = count_filter config (de_call e)
    || (filter_by_alpha_blended config && alpha_flag l (de_thread e) (de_cmd e))
    || (filter_by_render_pass config && render_pass_flag l (de_thread e) (de_cmd e)).
Proof.
  destruct e as [tid cmd d]. cbn [de_thread de_cmd de_call]. unfold draw_filter, ShouldFilterDrawCall,
    alpha_flag, render_pass_flag, count_filter. cbn [de_thread de_cmd de_call].
  destruct d; cbn [andb orb];
    repeat match goal with |- context [if ?b then true else _] => destruct b; cbn [andb orb]; try done end.
Qed.

Lemma locals_on_locals tid tid' f l :
  locals tid' (on_locals tid f l) = if decide (tid' = tid) then f (locals tid l) else locals tid' l.
Proof.
  unfold locals at 1, on_locals. cbn [m_threads set_m_threads].
  destruct (decide (tid' = tid)) as [->|Hne]; [by rewrite lookup_insert_eq|by rewrite lookup_insert_ne].
Qed.

Lemma alpha_flag_insert l tid cmd b tid' cmd' :
  alpha_flag (on_locals tid (on_alpha (insert cmd b)) l) tid' cmd'
  = if decide (tid' = tid /\ cmd' = cmd) then b else alpha_flag l tid' cmd'.
Proof.
  unfold alpha_flag. rewrite locals_on_locals. destruct (decide (tid' = tid)) as [->|Ht].
  - cbn [on_alpha sCmdBufferCurrentPipelineHasAlpha]. destruct (decide (cmd' = cmd)) as [->|Hc].
    + rewrite lookup_insert_eq. by rewrite decide_True.
    + rewrite lookup_insert_ne by done. by rewrite decide_False by tauto.
  - by rewrite decide_False by tauto.
Qed.

Lemma render_pass_flag_insert l tid cmd b tid' cmd' :
  render_pass_flag (on_locals tid (on_filtered (insert cmd b)) l) tid' cmd'
  = if decide (tid' = tid /\ cmd' = cmd) then b else render_pass_flag l tid' cmd'.
Proof.
  unfold render_pass_flag. rewrite locals_on_locals. destruct (decide (tid' = tid)) as [->|Ht].
  - cbn [on_filtered sCmdBufferInFilteredRenderPass]. destruct (decide (cmd' = cmd)) as [->|Hc].
    + rewrite lookup_insert_eq. by rewrite decide_True.
    + rewrite lookup_insert_ne by done. by rewrite decide_False by tauto.
  - by rewrite decide_False by tauto.
Qed.

Lemma alpha_flag_filtered l tid f tid' cmd' :
  alpha_flag (on_locals tid (on_filtered f) l) tid' cmd' = alpha_flag l tid' cmd'.
Proof. unfold alpha_flag. rewrite locals_on_locals. by destruct (decide (tid' = tid)) as [->|]. Qed.

Lemma render_pass_flag_alpha l tid f tid' cmd' :
  render_pass_flag (on_locals tid (on_alpha f) l) tid' cmd' = render_pass_flag l tid' cmd'.
Proof. unfold render_pass_flag. rewrite locals_on_locals. by destruct (decide (tid' = tid)) as [->|]. Qed.

(** A pipeline that blends, as far as the layer knows. *)
Definition blends (l : DiveRuntimeLayer) (pipeline : VkPipeline) : bool :=
  match m_live_psos l !! pipeline with Some info => has_alpha_blend info | None => false end.

(** ** Buffers *)

Definition slice (offset n : nat) (data : list byte) : list byte := take n (drop offset data).

Lemma write_at_spec offset b data :
  0 <= offset -> (Z.to_nat offset + length b <= length data)%nat ->
  exists data', write_at offset b data = Some data' /\ length data' = length data /\
    slice (Z.to_nat offset) (length b) data' = b /\
    forall o n, (o + n <= Z.to_nat offset \/ Z.to_nat offset + length b <= o)%nat ->
      slice o n data' = slice o n data.
Proof.
  intros Ho Hlen. unfold write_at. rewrite (proj2 (Z.leb_le 0 offset) Ho), (proj2 (Nat.leb_le _ _) Hlen).
  eexists. split; [done|]. cbn [andb]. set (k := Z.to_nat offset) in *. unfold slice.
  assert (length (take k data) = k) as Hk by (rewrite length_take; lia). split_and!.
  - rewrite !length_app, Hk, length_drop. lia.
  - rewrite drop_app_ge by lia. rewrite Hk, Nat.sub_diag. rewrite drop_0. by rewrite take_app_length.
  - intros o n [Hb|Ha].
    + rewrite drop_app_le by lia. rewrite take_app_le by (rewrite length_drop; lia).
      rewrite <- (take_drop k data) at 2. rewrite drop_app_le, take_app_le by (rewrite ?length_drop; lia). done.
    + rewrite app_assoc, drop_app_ge by (rewrite length_app, Hk; lia).
      rewrite length_app, Hk, drop_drop. do 2 f_equal. lia.
Qed.

Lemma length_mock_result is64 avail v :
  length (mock_result is64 avail v)
  = ((if is64 then 8 else 4) * (if avail then 2 else 1))%nat.
Proof.
  unfold mock_result. rewrite length_app, length_le_split.
  destruct avail; [rewrite length_le_split|]; by destruct is64.
Qed.

Section Mock.
Context {G : Type} `{VulkanApi G} `{DriverApi G}.

(** The loop writes result [i] at [ptr + i * stride] and advances the clock. *)
Lemma mock_results_spec n is64 avail stride ptr data l (g : G) :
  let w := length (mock_result is64 avail 0) in
  0 <= ptr -> Z.of_nat w <= stride ->
  (n = O \/ ptr + (Z.of_nat n - 1) * stride + Z.of_nat w <= Z.of_nat (length data)) ->
  in_width 64 (m_synthetic_timestamp l) ->
  exists data' l', mock_results n is64 avail stride ptr data (l, g) = Some (data', (l', g)) /\
    length data' = length data /\
    m_synthetic_timestamp l'
    = wrap 64 (m_synthetic_timestamp l + Z.of_nat n * kSyntheticTimestampIncrement) /\
    (forall i, (i < n)%nat ->
       slice (Z.to_nat (ptr + Z.of_nat i * stride)) w data'
       = mock_result is64 avail
           (wrap 64 (m_synthetic_timestamp l + Z.of_nat i * kSyntheticTimestampIncrement))) /\
    (forall o k, (o + k <= Z.to_nat ptr)%nat -> slice o k data' = slice o k data) /\
    m_disable_timestamp l' = m_disable_timestamp l /\
    m_timestamp_query_pools l' = m_timestamp_query_pools l.
Proof.
  intros w. revert ptr data l. induction n as [|n IH]; intros ptr data l Hp Hst Hlen Hw; cbn [mock_results].
  - exists data, l. split_and!; try done; [|lia].
    rewrite Z.mul_0_l, Z.add_0_r. symmetry. by apply wrap_small.
  - unfold layer_bind at 1, get. cbn [fst]. unfold layer_bind at 1, update.
    set (v := m_synthetic_timestamp l). set (l1 := set_m_synthetic_timestamp _ l).
    assert (length (mock_result is64 avail v) = w) as Hwv by (subst w; by rewrite !length_mock_result).
    destruct Hlen as [|Hlen]; [done|].
    destruct (write_at_spec ptr (mock_result is64 avail v) data) as (d1 & E1 & Hl1 & Hs1 & Ho1);
      [done|rewrite Hwv; nia|].
    unfold layer_bind at 1, defined. rewrite E1. cbn [mbind option_bind].
    destruct (IH (ptr + stride) d1 l1) as (d2 & l2 & E2 & Hl2 & Hsy & Hi & Hlow & Hd & Hq); [lia|done| |
      by apply wrap_range|].
    { destruct n; [by left|right]. rewrite Hl1. lia. }
    exists d2, l2. rewrite E2. cbn [m_synthetic_timestamp set_m_synthetic_timestamp] in *.
    split_and!; try done; [congruence| | |].
    + rewrite Hsy. subst l1 v. cbn [m_synthetic_timestamp set_m_synthetic_timestamp]. unfold wrap.
      rewrite Zplus_mod_idemp_l. f_equal. lia.
    + intros [|i] Hn.
      * rewrite Z.mul_0_l, !Z.add_0_r, (wrap_small 64 v) by done.
        rewrite Hlow by lia. rewrite Hwv in Hs1. exact Hs1.
      * specialize (Hi i ltac:(lia)).
        replace (ptr + Z.of_nat (S i) * stride) with (ptr + stride + Z.of_nat i * stride) by lia.
        rewrite Hi. f_equal. subst l1 v. cbn [m_synthetic_timestamp set_m_synthetic_timestamp]. unfold wrap.
        rewrite Zplus_mod_idemp_l. f_equal. lia.
    + intros o k Hk. rewrite Hlow by lia. apply Ho1. by left.
Qed.
End Mock.

(** ** Properties *)

(** The draw call has a count that the configuration says to drop. *)
Definition drops_count (config : DrawcallFilterConfig) (d : DrawCall) : Prop :=
  match d with
  | Draw vertices instances _ _ =>
      (filter_by_vertex_count config = true /\ vertices = target_vertex_count config) \/
      (filter_by_instance_count config = true /\ instances = target_instance_count config)
  | DrawIndexed indices instances _ _ _ =>
      (filter_by_index_count config = true /\ indices = target_index_count config) \/
      (filter_by_instance_count config = true /\ instances = target_instance_count config)
  | _ => False
  end.

(** The thread of the draw call has noted something of its command buffer. *)
Definition noted (flags : ThreadLocals -> gmap VkCommandBuffer bool) (l : DiveRuntimeLayer)
    (e : DrawEvent) : Prop :=
  (m_threads l !! de_thread e ≫= fun thread => flags thread !! de_cmd e) = Some true.

(** The active configuration says to drop the draw call. *)
Definition dropped (l : DiveRuntimeLayer) (e : DrawEvent) : Prop :=
  let config := m_active_filter_config l in
  drops_count config (de_call e) \/
  (filter_by_alpha_blended config = true /\ noted sCmdBufferCurrentPipelineHasAlpha l e) \/
  (filter_by_render_pass config = true /\ noted sCmdBufferInFilteredRenderPass l e).

#[export] Instance drops_count_dec config d : Decision (drops_count config d).
Proof. destruct d; apply _. Defined.
#[export] Instance dropped_dec l e : Decision (dropped l e).
Proof. unfold dropped, noted. apply _. Defined.

Lemma noted_flag flags l e :
  flags no_locals = ∅ -> default false (flags (locals (de_thread e) l) !! de_cmd e) = true <-> noted flags l e.
Proof.
  intros Hn. unfold noted, locals. destruct (m_threads l !! de_thread e) as [t|]; simpl.
  - destruct (flags t !! de_cmd e) as [[]|]; naive_solver.
  - rewrite Hn, lookup_empty. naive_solver.
Qed.

Lemma draw_filter_dropped l e : draw_filter l e = true <-> dropped l e.
Proof.
  rewrite draw_filter_eq. cbn zeta. unfold dropped.
  rewrite !orb_true_iff, !andb_true_iff. unfold alpha_flag, render_pass_flag. rewrite !noted_flag by done.
  assert (count_filter (m_active_filter_config l) (de_call e) = true <->
          drops_count (m_active_filter_config l) (de_call e)) as ->; [|tauto].
  destruct (de_call e); simpl; rewrite ?orb_true_iff, ?andb_true_iff, ?Z.eqb_eq; naive_solver.
Qed.

(** C28: which draw calls of a frame reach the driver. Whatever threads and
    command buffers they come from, the draw calls that the active configuration does
    not drop are handed on unchanged and in order, all of them without a limit, and with
    a limit as many as it has left since the last frame boundary; the rest are dropped.
    A configuration drops the direct draws with the vertex count, the indexed draws with
    the index count and both with the instance count that it filters by, and every draw
    into a command buffer of which the drawing thread has noted that a blending pipeline
    is bound, or that it is in a filtered render pass, where it filters by that. The
    counter counts every draw that is not filtered, so this holds for less than 2^32 draws
    per frame (the 32-bit counter then starts again at 0). *)
Theorem draws_forwarded {G : Type} `{VulkanApi G} `{DriverApi G} (es : list DrawEvent) l (g : G) :
  let kept := filter (fun e => ~ dropped l e) es in
  0 <= m_global_drawcall_counter l ->
  m_global_drawcall_counter l + Z.of_nat (length es) < 2 ^ 32 ->
  exists l', run_draws es (l, g) = Some (tt, (l', fold_left forward (within (budget l) kept) g)) /\
    same_filters l l' /\
    m_global_drawcall_counter l'
    = (if enable_drawcall_limit (m_active_filter_config l)
       then m_global_drawcall_counter l + Z.of_nat (length kept) else m_global_drawcall_counter l).
Proof.
  intros kept.
  assert (kept = filter (fun e => draw_filter l e = false) es) as -> .
  { apply list_filter_iff. intros x. rewrite <- draw_filter_dropped. apply not_true_iff_false. }
  revert l g. induction es as [|e es IH]; intros l g Hpos Hmax; cbn [run_draws].
  - exists l. split_and!; try done.
    + unfold within. destruct (budget l); cbn; [by rewrite take_nil|done].
    + cbn. destruct (enable_drawcall_limit _); lia.
  - destruct (run_draw_spec e l g) as (l1 & Hs1 & E & Hc1). cbn [length] in Hmax.
    unfold layer_bind. rewrite E.
    assert (0 <= m_global_drawcall_counter l1 /\
      m_global_drawcall_counter l1 + Z.of_nat (length es) < 2 ^ 32) as [Hpos1 Hmax1].
    { rewrite Hc1. destruct (draw_filter l e || negb (enable_drawcall_limit _)); [lia|]. rewrite wrap_small by (unfold in_width; lia). lia. }
    edestruct (IH l1) as (l2 & E2 & Hs2 & Hc2); [exact Hpos1|exact Hmax1|].
    exists l2. rewrite E2. clear IH E2 E.
    assert (filter (fun e => draw_filter l1 e = false) es = filter (fun e => draw_filter l e = false) es) as Ef.
    { apply list_filter_iff. intros x. by rewrite (same_filters_draw l l1). }
    rewrite Ef in Hc2 |- *. destruct Hs1 as [Hcfg Hth]. unfold budget in *. rewrite Hcfg in Hc2 |- *.
    split; [|split; [by eapply same_filters_trans|]].
    + rewrite filter_cons. destruct (draw_filter l e) eqn:Ed; cbn [orb] in *.
      * rewrite decide_False by done. rewrite Hc1. done.
      * rewrite decide_True by done. rewrite Hc1. destruct (enable_drawcall_limit _); cbn [negb within]; [|done].
        rewrite wrap_small by (unfold in_width; lia).
        destruct (Z.leb_spec (max_drawcalls (m_active_filter_config l) - m_global_drawcall_counter l) 0).
        -- by rewrite !Z2Nat.nonpos by lia.
        -- replace (Z.to_nat (max_drawcalls (m_active_filter_config l) - m_global_drawcall_counter l))
             with (S (Z.to_nat (max_drawcalls (m_active_filter_config l) - (m_global_drawcall_counter l + 1))))
             by lia. done.
    + rewrite Hc2, Hc1, filter_cons. destruct (draw_filter l e) eqn:Ed; cbn [orb].
      * by rewrite decide_False by done.
      * rewrite decide_True by done. destruct (enable_drawcall_limit _); cbn [negb length]; [|done].
        rewrite wrap_small by (unfold in_width; lia). lia.
Qed.

(** The filter's verdict, from what the thread has noted. *)
Definition verdict (l : DiveRuntimeLayer) (e : DrawEvent) (alpha in_render_pass : bool) : bool :=
  let config := m_active_filter_config l in
  count_filter config (de_call e) || (filter_by_alpha_blended config && alpha)
    || (filter_by_render_pass config && in_render_pass).

(** The event is on this thread and command buffer. *)
Definition recorded_on (e : DrawEvent) (tid : Z) (cmd : VkCommandBuffer) : Prop :=
  de_thread e = tid /\ de_cmd e = cmd.
#[local] Instance recorded_on_dec e tid cmd : Decision (recorded_on e tid cmd).
Proof. unfold recorded_on. apply _. Defined.

(** What the alpha and the render-pass filter go by. After a thread binds a
    graphics pipeline to a command buffer, the alpha filter drops that thread's
    draws into it exactly if the pipeline was created with a blending
    attachment; after it begins a render pass, the render-pass filter drops them
    exactly if the filter is on and the render pass then has the configured
    name, and after it ends the render pass not any more. For every other thread
    (and command buffer) nothing changes: a draw that another thread records
    into the same command buffer is filtered by what that thread noted before. *)
Theorem filters_see_their_thread {G : Type} `{VulkanApi G} `{DriverApi G} tid cmd l (g : G) :
  (forall pipeline, exists l' g',
     CmdBindPipeline tid cmd VK_PIPELINE_BIND_POINT_GRAPHICS pipeline (l, g) = Some (tt, (l', g')) /\
     forall e, draw_filter l' e = verdict l e
       (if decide (recorded_on e tid cmd) then blends l pipeline else alpha_flag l (de_thread e) (de_cmd e))
       (render_pass_flag l (de_thread e) (de_cmd e))) /\
  (forall renderPass contents, exists l' g',
     CmdBeginRenderPass tid cmd renderPass contents (l, g) = Some (tt, (l', g')) /\
     forall e, draw_filter l' e = verdict l e (alpha_flag l (de_thread e) (de_cmd e))
       (if decide (recorded_on e tid cmd) then in_filtered_render_pass renderPass l
        else render_pass_flag l (de_thread e) (de_cmd e))) /\
  (exists l' g', CmdEndRenderPass tid cmd (l, g) = Some (tt, (l', g')) /\
     forall e, draw_filter l' e = verdict l e (alpha_flag l (de_thread e) (de_cmd e))
       (if decide (recorded_on e tid cmd) then false
        else render_pass_flag l (de_thread e) (de_cmd e))).
Proof.
  assert (forall stage (l : DiveRuntimeLayer) (g : G), exists t g', mark_render_pass stage cmd (m_gpu_time l, g)
      = Some (GpuOk, (t, g'))) as Hmark.
  { intros stage l1 g1. unfold mark_render_pass. destruct (m_enable _); [|by eexists _, _]. cbn [negb].
    destruct (_ !! cmd); [|by eexists _, _]. destruct (AllocateSlot _). by eexists _, _. }
  split_and!.
  - intros pipeline. unfold CmdBindPipeline. cbn [Z.eqb VK_PIPELINE_BIND_POINT_GRAPHICS].
    unfold layer_bind, get, update, pfn_, pfn, layer_bind. cbn [fst]. destruct (driver _ g) as [a g'].
    eexists _, _. split; [done|]. intros e. rewrite draw_filter_eq. cbn zeta.
    by rewrite alpha_flag_insert, render_pass_flag_alpha.
  - intros rp contents. unfold CmdBeginRenderPass, layer_bind, get, update, gpu_time. cbn [fst].
    unfold OnCmdBeginRenderPass, BeginRenderPass.
    match goal with |- context [mark_render_pass ?st cmd (m_gpu_time ?l1, g)] =>
      destruct (Hmark st l1 g) as (t & g1 & ->) end.
    cbn [mbind option_bind]. unfold pfn_, pfn, layer_bind. destruct (driver _ g1) as [a g2].
    eexists _, _. split; [done|]. intros e. rewrite draw_filter_eq. cbn zeta.
    match goal with |- context [set_m_gpu_time t ?l1] =>
      change (alpha_flag (set_m_gpu_time t l1)) with (alpha_flag l1);
      change (render_pass_flag (set_m_gpu_time t l1)) with (render_pass_flag l1) end.
    by rewrite alpha_flag_filtered, render_pass_flag_insert.
  - unfold CmdEndRenderPass, layer_bind, update, gpu_time, pfn_, pfn, layer_bind. cbn [fst].
    destruct (driver _ g) as [a g1]. unfold OnCmdEndRenderPass, EndRenderPass. cbn [layer_ret].
    match goal with |- context [mark_render_pass ?st cmd (m_gpu_time ?l1, g1)] =>
      destruct (Hmark st l1 g1) as (t & g2 & ->) end.
    cbn [mbind option_bind]. eexists _, _. split; [done|]. intros e. rewrite draw_filter_eq. cbn zeta.
    match goal with |- context [set_m_gpu_time t ?l1] =>
      change (alpha_flag (set_m_gpu_time t l1)) with (alpha_flag l1);
      change (render_pass_flag (set_m_gpu_time t l1)) with (render_pass_flag l1) end.
    by rewrite alpha_flag_filtered, render_pass_flag_insert.
Qed.

(** The value and the availability of a mock result. *)
Lemma mock_result_value is64 avail v data off :
  in_width 64 v -> slice off (length (mock_result is64 avail 0)) data = mock_result is64 avail v ->
  let n := if is64 then 8%nat else 4%nat in
  le_combine (slice off n data) = (if is64 then v else wrap 32 v) /\
  (avail = true -> le_combine (slice (off + n) n data) = 1).
Proof.
  intros Hv Hs n. unfold slice in *. rewrite length_mock_result in Hs. unfold mock_result in Hs.
  assert (le_combine (le_split n (if is64 then v else wrap 32 v)) = if is64 then v else wrap 32 v) as Hc.
  { rewrite le_combine_split. subst n. destruct is64; [by apply Z.mod_small|].
    apply Z.mod_small. by apply (wrap_range 32). }
  fold n in Hs. set (x := if is64 then v else wrap 32 v) in *.
  assert (take n (drop off data) = le_split n x) as H1.
  { apply (f_equal (take n)) in Hs. rewrite take_take, Nat.min_l in Hs by (subst n; destruct is64, avail; lia).
    rewrite Hs, take_app_le by (rewrite length_le_split; lia). apply take_ge. rewrite length_le_split. lia. }
  split; [by rewrite H1|]. intros ->. apply (f_equal (drop n)) in Hs.
  rewrite drop_app_ge in Hs by (rewrite length_le_split; lia).
  rewrite length_le_split, Nat.sub_diag, drop_0 in Hs.
  rewrite <- drop_drop. replace n with ((n * 2) - n)%nat at 1 by lia.
  rewrite <- skipn_firstn_comm, Nat.mul_comm. rewrite Nat.mul_comm in Hs. rewrite Hs.
  subst n. by destruct is64.
Qed.

(** What the application gets from a timestamp pool while timestamps are
    disabled. Its resets, writes and copies are dropped, and reading [n] results
    succeeds without asking the driver: result [i] is the synthetic clock plus
    [1000 * i] (modulo 2^64, and 2^32 for 32-bit results), at [i * stride],
    marked available if the flags ask for it; the clock advances by [1000 * n],
    so later reads continue the sequence. The stride has to hold a result and
    the buffer all of them. *)
Theorem synthetic_timestamps {G : Type} `{VulkanApi G} `{DriverApi G}
    device pool firstQuery n data stride flags l (g : G) :
  m_disable_timestamp l = true -> pool ∈ m_timestamp_query_pools l ->
  in_width 64 (m_synthetic_timestamp l) ->
  let is64 := negb (Z.land flags VK_QUERY_RESULT_64_BIT =? 0) in
  let avail := negb (Z.land flags VK_QUERY_RESULT_WITH_AVAILABILITY_BIT =? 0) in
  let w := if is64 then 8%nat else 4%nat in
  let entry := (w * if avail then 2 else 1)%nat in
  let clock i := wrap 64 (m_synthetic_timestamp l + Z.of_nat i * kSyntheticTimestampIncrement) in
  Z.of_nat entry <= stride ->
  (n = O \/ (Z.of_nat n - 1) * stride + Z.of_nat entry <= Z.of_nat (length data)) ->
  (exists data' l',
     GetQueryPoolResults device pool firstQuery (Z.of_nat n) data stride flags (l, g)
     = Some ((VK_SUCCESS, data'), (l', g)) /\
     length data' = length data /\ m_synthetic_timestamp l' = clock n /\
     m_disable_timestamp l' = true /\ m_timestamp_query_pools l' = m_timestamp_query_pools l /\
     forall i, (i < n)%nat ->
       le_combine (slice (Z.to_nat (Z.of_nat i * stride)) w data')
       = (if is64 then clock i else wrap 32 (clock i)) /\
       (avail = true -> le_combine (slice (Z.to_nat (Z.of_nat i * stride) + w) w data') = 1)) /\
  (forall cmd a b, CmdResetQueryPool cmd pool a b (l, g) = Some (tt, (l, g))) /\
  (forall cmd stage a, CmdWriteTimestamp cmd stage pool a (l, g) = Some (tt, (l, g))) /\
  (forall cmd a b buffer off st fl,
     CmdCopyQueryPoolResults cmd pool a b buffer off st fl (l, g) = Some (tt, (l, g))).
Proof.
  intros Hdis Hpool Hw is64 avail w entry clock Hst Hlen.
  assert (m_disable_timestamp l && IsTimestampQueryPool pool l = true) as Hblk.
  { unfold IsTimestampQueryPool. by rewrite Hdis, bool_decide_eq_true_2. }
  assert (length (mock_result is64 avail 0) = entry) as Hentry by apply length_mock_result.
  split; [|unfold CmdResetQueryPool, CmdWriteTimestamp, CmdCopyQueryPoolResults, disabled_pool, layer_bind, get;
           cbn [fst]; rewrite Hblk; by split_and!].
  destruct (mock_results_spec n is64 avail stride 0 data l g) as (d & l' & E & Hl & Hc & Hi & _ & Hd & Hq);
    [lia|by rewrite Hentry|by rewrite Hentry|done|].
  exists d, l'. unfold GetQueryPoolResults, disabled_pool, layer_bind, get. cbn [fst].
  rewrite Hblk, Nat2Z.id. fold is64 avail. rewrite E. split; [done|].
  split_and!; try done; [congruence|]. intros i Hn.
  specialize (Hi i Hn). rewrite Z.add_0_l in Hi. apply mock_result_value in Hi; [|by apply wrap_range].
  exact Hi.
Qed.

(** ** Witnesses *)

#[local] Existing Instance test_vulkan.

(** A driver that counts its calls. *)
#[local] Instance test_driver : DriverApi Z := {| driver _ g := (mkAnswer VK_SUCCESS [] [], g + 1) |}.

(** A limit of one draw call, and draws of three vertices dropped. *)
Definition test_config : DrawcallFilterConfig :=
  mkDrawcallFilterConfig "" 3 0 0 1 true false false true false false.

Lemma draws_forwarded_witness :
  exists l', run_draws [mkDraw 0 5 (Draw 3 1 0 0); mkDraw 0 5 (Draw 6 1 0 0); mkDraw 1 7 (DrawIndirect 1 0 1 16)]
      (set_m_active_filter_config test_config new_layer, 0) = Some (tt, (l', 1)) /\
    m_global_drawcall_counter l' = 2.
Proof.
  destruct (draws_forwarded [mkDraw 0 5 (Draw 3 1 0 0); mkDraw 0 5 (Draw 6 1 0 0); mkDraw 1 7 (DrawIndirect 1 0 1 16)]
    (set_m_active_filter_config test_config new_layer) 0) as (l' & E & _ & Hc).
  - vm_compute. discriminate.
  - vm_compute. reflexivity.
  - exists l'. split; [rewrite E; vm_compute; reflexivity|rewrite Hc; vm_compute; reflexivity].
Defined.

Definition test_pools : DiveRuntimeLayer :=
  set_m_disable_timestamp true (set_m_timestamp_query_pools {[ 9 ]} new_layer).

Lemma synthetic_timestamps_witness :
  exists data' l', GetQueryPoolResults 1 9 0 2 (replicate 32 Byte.x00) 16 5 (test_pools, 0)
      = Some ((VK_SUCCESS, data'), (l', 0)) /\
    le_combine (slice 16 8 data') = 1001 /\ m_synthetic_timestamp l' = 2001.
Proof.
  destruct (synthetic_timestamps 1 9 0 2 (replicate 32 Byte.x00) 16 5 test_pools 0) as [Hr _].
  - reflexivity.
  - change (9 ∈ ({[ 9 ]} : gset Z)). apply elem_of_singleton. reflexivity.
  - split; [vm_compute; discriminate|vm_compute; reflexivity].
  - vm_compute. discriminate.
  - right. vm_compute. discriminate.
  - destruct Hr as (d & l' & E & _ & Hc & _ & _ & Hi). exists d, l'.
    split; [exact E|split; [exact (proj1 (Hi 1%nat (le_n 2)))|exact Hc]].
Defined.
