(* ===== verification/RuntimeState.v ===== *)
(** * RuntimeState: the layer's state over a sequence of calls

    Every function of the layer as a [LayerCall], what it leaves alone, and the
    theorems about sequences of calls: when a requested filter becomes active,
    and that the layer's boundary detector and the GPU timing stay consistent.

    A frame boundary takes two locks in turn; another thread that enqueues a
    task or switches the timestamps in between has the same effect as one that
    does it before or after, so a boundary is one step here. *)

From S2P Require Import Prelude Status Wire Messages FilterConfig FrameBoundary SlotAllocator.
From S2P Require Import FrameMetrics GpuTime GpuInvariant GpuFrame GpuHooks RuntimeLayer.

#[local] Open Scope Z_scope.

Inductive LayerCall :=
  | LQueuePresent (queue : Z)
  | LQueueSubmit (queue : Z) (submits : option (list VkSubmitInfo)) (fence : Z)
  | LCreateImage (device flags : Z)
  | LCreateGraphicsPipelines (device : Z) (count : nat) (infos : list VkGraphicsPipelineCreateInfo)
  | LDestroyPipeline (device pipeline : Z)
  | LSetObjectName (has_pfn : bool) (device : Z) (info : option VkDebugUtilsObjectNameInfoEXT)
  | LBindPipeline (tid cmd bindPoint pipeline : Z)
  | LCmdDraw (tid cmd a b c d : Z)
  | LCmdDrawIndexed (tid cmd a b c d e : Z)
  | LDrawOther (tid cmd : Z) (draw : DrawCall)
  | LResetQueryPool (cmd pool first count : Z)
  | LWriteTimestamp (cmd stage pool query : Z)
  | LGetQueryPoolResults (device pool first count : Z) (data : list byte) (stride flags : Z)
  | LCopyQueryPoolResults (cmd pool first count buffer offset stride flags : Z)
  | LDestroyCommandPool (tid device pool : Z)
  | LAllocateCommandBuffers (tid device : Z) (info : VkCommandBufferAllocateInfo)
  | LFreeCommandBuffers (tid device pool : Z) (count : nat) (cmds : option (list VkCommandBuffer))
  | LResetCommandBuffer (tid cmd flags : Z)
  | LResetCommandPool (tid device pool flags : Z)
  | LBeginCommandBuffer (tid cmd flags : Z)
  | LEndCommandBuffer (tid cmd : Z)
  | LCreateDevice (physicalDevice allocator : Z) (period : double)
  | LDestroyDevice (device : Z)
  | LAcquireNextImage (device swapchain timeout : Z)
  | LGetDeviceQueue2 (device : Z)
  | LGetDeviceQueue (device family index : Z)
  | LInsertLabel (cmd : Z) (label : option string)
  | LCreateRenderPass (device : Z)
  | LCreateRenderPass2 (device : Z)
  | LBeginRenderPass (tid cmd renderPass contents : Z)
  | LBeginRenderPass2 (tid cmd renderPass contents : Z)
  | LEndRenderPass (tid cmd : Z)
  | LEndRenderPass2 (tid cmd : Z)
  | LDestroyRenderPass (device renderPass : Z)
  | LCreateQueryPool (device type : Z)
  | LDestroyQueryPool (has_pfn : bool) (device pool : Z)
  | LSetDisableTimestamp (disable : bool)
  | LEnqueue (task : Task).

Section Calls.
Context {G : Type} `{VulkanApi G} `{DriverApi G} (sw : Switches).

Definition void {A} (m : LayerM G A) : LayerM G unit := do! m in layer_ret tt.

Definition run_call (c : LayerCall) : LayerM G unit :=
  match c with
  | LQueuePresent q => void (QueuePresentKHR q)
  | LQueueSubmit q ss f => void (QueueSubmit sw q ss f)
  | LCreateImage d f => void (CreateImage sw d f)
  | LCreateGraphicsPipelines d n infos => void (CreateGraphicsPipelines d n infos)
  | LDestroyPipeline d p => DestroyPipeline d p
  | LSetObjectName b d i => void (SetDebugUtilsObjectNameEXT b d i)
  | LBindPipeline t c b p => CmdBindPipeline t c b p
  | LCmdDraw t c x y z w => CmdDraw t c x y z w
  | LCmdDrawIndexed t c x y z w v => CmdDrawIndexed sw t c x y z w v
  | LDrawOther t c d => draw_unless_filtered t c d
  | LResetQueryPool c p f n => CmdResetQueryPool c p f n
  | LWriteTimestamp c s p q => CmdWriteTimestamp c s p q
  | LGetQueryPoolResults d p f n b st fl => void (GetQueryPoolResults d p f n b st fl)
  | LCopyQueryPoolResults c p f n b o st fl => CmdCopyQueryPoolResults c p f n b o st fl
  | LDestroyCommandPool t d p => DestroyCommandPool t d p
  | LAllocateCommandBuffers t d i => void (AllocateCommandBuffers t d i)
  | LFreeCommandBuffers t d p n cs => FreeCommandBuffers t d p n cs
  | LResetCommandBuffer t c f => void (ResetCommandBuffer t c f)
  | LResetCommandPool t d p f => void (ResetCommandPool t d p f)
  | LBeginCommandBuffer t c f => void (BeginCommandBuffer t c f)
  | LEndCommandBuffer t c => void (EndCommandBuffer t c)
  | LCreateDevice p a r => void (CreateDevice sw p a r)
  | LDestroyDevice d => DestroyDevice d
  | LAcquireNextImage d s t => void (AcquireNextImageKHR d s t)
  | LGetDeviceQueue2 d => void (GetDeviceQueue2 d)
  | LGetDeviceQueue d f i => void (GetDeviceQueue d f i)
  | LInsertLabel c l => CmdInsertDebugUtilsLabel c l
  | LCreateRenderPass d => void (CreateRenderPass d)
  | LCreateRenderPass2 d => void (CreateRenderPass2 d)
  | LBeginRenderPass t c r x => CmdBeginRenderPass t c r x
  | LBeginRenderPass2 t c r x => CmdBeginRenderPass2 t c r x
  | LEndRenderPass t c => CmdEndRenderPass t c
  | LEndRenderPass2 t c => CmdEndRenderPass2 t c
  | LDestroyRenderPass d r => DestroyRenderPass d r
  | LCreateQueryPool d t => void (CreateQueryPool d t)
  | LDestroyQueryPool b d p => DestroyQueryPool b d p
  | LSetDisableTimestamp b => SetDisableTimestamp b
  | LEnqueue t => EnqueueFrameBoundaryTask t
  end.

(** Whether the call is a frame boundary: a present always, a submission if it
    succeeds and contains a command buffer marked as one. *)
Definition is_boundary (c : LayerCall) (s : DiveRuntimeLayer * G) : bool :=
  match c with
  | LQueuePresent _ => true
  | LQueueSubmit q ss f =>
      (vk_result (fst (driver (pfn_QueueSubmit q ss f) (snd s))) =? VK_SUCCESS)
      && ContainsFrameBoundary ss (m_layer_detector (fst s))
  | _ => false
  end.

(** A sequence of calls, and the number of frame boundaries among them. *)
Fixpoint run_calls (cs : list LayerCall) (s : DiveRuntimeLayer * G)
  : option (nat * (DiveRuntimeLayer * G)) :=
  match cs with
  | [] => Some (O, s)
  | c :: cs =>
      '(_, s') ← run_call c s;
      '(n, s'') ← run_calls cs s';
      Some ((if is_boundary c s then S n else n), s'')
  end.

Inductive layer_reachable : DiveRuntimeLayer * G -> Prop :=
  | layer_new g : layer_reachable (new_layer, g)
  | layer_step s c u s' : layer_reachable s -> run_call c s = Some (u, s') -> layer_reachable s'.

(** ** What a computation keeps, and Hoare triples *)

Definition triple {A} (P : DiveRuntimeLayer -> Prop) (m : LayerM G A) (Q : A -> DiveRuntimeLayer -> Prop) :=
  forall l g a l' g', P l -> m (l, g) = Some (a, (l', g')) -> Q a l'.

Lemma triple_ret {A} P (a : A) (Q : A -> DiveRuntimeLayer -> Prop) :
  (forall l, P l -> Q a l) -> triple P (layer_ret a) Q.
Proof. intros HPQ l g x l' g' HP [= <- <- <-]. by apply HPQ. Qed.

Lemma triple_bind {A B} P (m : LayerM G A) (k : A -> LayerM G B) R Q :
  triple P m R -> (forall a, triple (R a) (k a) Q) -> triple P (layer_bind m k) Q.
Proof.
  intros Hm Hk l g b l' g' HP. unfold layer_bind. destruct (m (l, g)) as [[a [l1 g1]]|] eqn:E; [|done].
  intros E2. eapply Hk; [|exact E2]. by eapply Hm.
Qed.

Lemma triple_get {A} P (f : DiveRuntimeLayer -> A) : triple P (get f) (fun a l => P l /\ a = f l).
Proof. intros l g a l' g' HP [= <- <- <-]. done. Qed.

Lemma triple_update P f (Q : unit -> DiveRuntimeLayer -> Prop) :
  (forall l, P l -> Q tt (f l)) -> triple P (update f) Q.
Proof. intros Hf l g [] l' g' HP [= <- <-]. by apply Hf. Qed.

Lemma triple_pfn P c : triple P (pfn c) (fun _ l => P l).
Proof. intros l g a l' g' HP. unfold pfn. destruct (driver c g) as [b g1]. by intros [= <- <- <-]. Qed.

Lemma triple_pfn_ P c : triple P (pfn_ c) (fun _ l => P l).
Proof. eapply triple_bind; [apply triple_pfn|]. intros a. by apply triple_ret. Qed.

Lemma triple_defined {A} P (a : option A) : triple P (defined a) (fun x l => P l /\ a = Some x).
Proof. intros l g x l' g' HP. unfold defined. destruct a; [|done]. by intros [= <- <- <-]. Qed.

Lemma triple_conseq {A} (P P' : DiveRuntimeLayer -> Prop) (m : LayerM G A) (Q Q' : A -> DiveRuntimeLayer -> Prop) :
  triple P' m Q' -> (forall l, P l -> P' l) -> (forall a l, Q' a l -> Q a l) -> triple P m Q.
Proof. intros Hm HP HQ l g a l' g' Hl E. apply HQ. by eapply Hm; [apply HP|]. Qed.

Lemma triple_gpu_time {A} P (hook : GPUTime * G -> option (A * (GPUTime * G))) (Q : A -> DiveRuntimeLayer -> Prop) :
  (forall l g a t g', P l -> hook (m_gpu_time l, g) = Some (a, (t, g')) -> Q a (set_m_gpu_time t l)) ->
  triple P (gpu_time hook) Q.
Proof.
  intros Hh l g a l' g' HP. unfold gpu_time.
  destruct (hook (m_gpu_time l, g)) as [[x [t g1]]|] eqn:E; [|done]. cbn [mbind option_bind].
  intros [= <- <- <-]. by eapply Hh.
Qed.
End Calls.

(** Proves that a computation keeps a predicate, given how its updates do. *)
Ltac keep leaf :=
  lazymatch goal with
  | |- triple ?I (layer_bind _ _) ?Q =>
      apply (triple_bind I _ _ (fun _ l => I l) Q); [keep leaf|intros ?; keep leaf]
  | |- triple _ (layer_ret _) _ => apply triple_ret; intros; assumption
  | |- triple _ (update _) _ => apply triple_update; intros ? ?; leaf
  | |- triple _ (detector _) _ => apply triple_update; intros ? ?; leaf
  | |- triple _ (pfn _) _ => apply triple_pfn
  | |- triple _ (pfn_ _) _ => apply triple_pfn_
  | |- triple _ (get _) _ => eapply triple_conseq; [apply triple_get|intros ? HI; exact HI|intros ? ? [HI _]; exact HI]
  | |- triple _ (defined _) _ =>
      eapply triple_conseq; [apply triple_defined|intros ? HI; exact HI|intros ? ? [HI _]; exact HI]
  | |- triple _ (gpu_time _) _ => apply triple_gpu_time; leaf
  | |- triple _ (match ?x with _ => _ end) _ => destruct x; keep leaf
  | |- _ => idtac
  end.

Ltac unfold_layer :=
  unfold void, CreateImage, CreateGraphicsPipelines, DestroyPipeline, SetDebugUtilsObjectNameEXT,
    CmdBindPipeline, CmdDraw, CmdDrawIndexed, draw_unless_filtered, CmdResetQueryPool, CmdWriteTimestamp,
    GetQueryPoolResults, CmdCopyQueryPoolResults, DestroyCommandPool, AllocateCommandBuffers,
    FreeCommandBuffers, ResetCommandBuffer, ResetCommandPool, BeginCommandBuffer, EndCommandBuffer,
    CreateDevice, DestroyDevice, AcquireNextImageKHR, GetDeviceQueue2, GetDeviceQueue,
    CmdInsertDebugUtilsLabel, CreateRenderPass, CreateRenderPass2, track_render_pass, CmdBeginRenderPass,
    CmdBeginRenderPass2, CmdEndRenderPass, CmdEndRenderPass2, DestroyRenderPass, CreateQueryPool,
    DestroyQueryPool, SetDisableTimestamp, CheckAndIncrementDrawcallCount, disabled_pool,
    EnqueueFrameBoundaryTask, gpu_time'.

Lemma mock_results_keep {G} (I : DiveRuntimeLayer -> Prop) n is64 avail stride ptr data :
  (forall x l, I l -> I (set_m_synthetic_timestamp x l)) ->
  triple (G := G) I (mock_results n is64 avail stride ptr data) (fun _ l => I l).
Proof.
  intros Hclosed. revert ptr data. induction n as [|n IH]; intros ptr data; cbn [mock_results].
  - by apply triple_ret.
  - keep ltac:(by apply Hclosed). apply IH.
Qed.

(** ** The filter configurations and the tasks *)

Record FilterView := mkFilterView {
  fv_pending : DrawcallFilterConfig;
  fv_active : DrawcallFilterConfig;
  fv_tasks : list Task
}.

Definition view (l : DiveRuntimeLayer) : FilterView :=
  mkFilterView (m_pending_filter_config l) (m_active_filter_config l) (m_frame_boundary_tasks l).

Definition task_config (t : Task) : DrawcallFilterConfig :=
  match t with UpdateFilterConfigTask config => config end.

(** A boundary: the pending configuration becomes active, then the tasks run. *)
Definition view_boundary (v : FilterView) : FilterView :=
  mkFilterView (default (fv_pending v) (task_config <$> last (fv_tasks v))) (fv_pending v) [].
Definition view_enqueue (t : Task) (v : FilterView) : FilterView :=
  mkFilterView (fv_pending v) (fv_active v) (fv_tasks v ++ [t]).

Section Filters.
Context {G : Type} `{VulkanApi G} `{DriverApi G} (sw : Switches).

Lemma run_tasks_view ts v :
  triple (G := G) (fun l => view l = v) (run_tasks ts)
    (fun _ l => view l = mkFilterView (default (fv_pending v) (task_config <$> last ts)) (fv_active v) (fv_tasks v)).
Proof.
  revert v. induction ts as [|[c] ts IH]; intros v; cbn [run_tasks run_task].
  - apply triple_ret. intros l <-. done.
  - eapply triple_bind.
    + apply (triple_update _ _ (fun _ l => view l = mkFilterView c (fv_active v) (fv_tasks v))).
      intros l <-. done.
    + intros ?. eapply triple_conseq; [apply IH|intros l Hl; exact Hl|]. intros u l ->.
      destruct ts as [|t ts]; [done|]. cbn [fv_pending fv_active fv_tasks]. f_equal.
      by rewrite last_cons_cons; destruct (last (t :: ts)) eqn:E; [|by apply last_None in E].
Qed.

Lemma boundary_view v :
  triple (G := G) (fun l => view l = v) ProcessFrameBoundaryTasks (fun _ l => view l = view_boundary v).
Proof.
  unfold ProcessFrameBoundaryTasks. set (v1 := mkFilterView (fv_pending v) (fv_pending v) (fv_tasks v)).
  eapply (triple_bind _ _ _ (fun _ l => view l = v1)); [apply triple_update; by intros l <-|intros ?].
  eapply (triple_bind _ _ _ (fun _ l => view l = v1)); [by apply triple_update; intros l <-|intros ?].
  eapply triple_bind; [apply triple_get|]. intros ts.
  assert (triple (G := G) (fun l => view l = v1 /\ ts = m_frame_boundary_tasks l)
    (do! update (set_m_frame_boundary_tasks []) in run_tasks ts)
    (fun _ l => view l = view_boundary v)) as Hrun.
  { destruct (decide (ts = fv_tasks v)) as [->|Hne].
    - eapply (triple_bind _ _ _ (fun _ l => view l = mkFilterView (fv_pending v) (fv_pending v) [])).
      + apply triple_update. intros l [Hv _]. injection Hv as Hp Ha _. unfold view. by rewrite <- Hp at 1; rewrite <- Ha.
      + intros ?. eapply triple_conseq; [apply run_tasks_view|intros l Hl; exact Hl|]. by intros u l ->.
    - intros l g y l' g' [Hv ->]. destruct Hne. by injection Hv as _ _ ->. }
  destruct ts as [|t ts]; [|exact Hrun]. apply triple_ret. intros l [Hv Hts].
  rewrite Hv. subst v1. injection Hv as _ _ Ht. unfold view_boundary. by rewrite <- Ht, <- Hts.
Qed.

(** A call that is no boundary and enqueues nothing. *)
Lemma quiet_call_view c v :
  match c with LQueuePresent _ | LQueueSubmit _ _ _ | LEnqueue _ => False | _ => True end ->
  triple (fun l => view l = v) (run_call sw c) (fun _ l => view l = v).
Proof.
  intros Hc. destruct c; try done; cbn [run_call]; unfold_layer.
  all: keep ltac:(intros; assumption).
  by apply mock_results_keep.
Qed.

(** What one call does to the configurations. *)
Lemma call_view c l g u l' g' :
  run_call sw c (l, g) = Some (u, (l', g')) ->
  view l' = match c with
            | LEnqueue t => view_enqueue t (view l)
            | _ => if is_boundary c (l, g) then view_boundary (view l) else view l
            end.
Proof.
  intros E. destruct c; try (by eapply (quiet_call_view _ (view l)); [|done|exact E]).
  - revert E. cbn [run_call is_boundary]. unfold void, QueuePresentKHR. intros E.
    enough (triple (fun l1 => view l1 = view l)
      (do! ProcessFrameBoundaryTasks in
       let! a := pfn (pfn_QueuePresentKHR queue) in
       if negb (vk_result a =? VK_SUCCESS) then layer_ret (vk_result a)
       else do! gpu_time OnQueuePresent in layer_ret (vk_result a))
      (fun _ l1 => view l1 = view_boundary (view l))) as Ht.
    { unfold layer_bind at 1 in E. destruct (layer_bind _ _ _) as [[a [l1 g1]]|] eqn:E1; [|done].
      injection E as _ <- _. by eapply Ht; [|exact E1]. }
    eapply triple_bind; [apply boundary_view|]. intros ?. keep ltac:(intros; assumption).
  - revert E. cbn [run_call is_boundary fst snd]. unfold void, QueueSubmit, layer_bind at 1, layer_bind at 1, pfn.
    destruct (driver _ g) as [a g1]. cbn [fst].
    destruct (vk_result a =? VK_SUCCESS) eqn:Er; cbn [negb andb]; [|by intros [= _ <- _]].
    unfold layer_bind at 1.
    match goal with |- context [match ?m (l, g1) with _ => _ end] =>
      assert (triple (fun l1 => view l1 = view l /\ m_layer_detector l1 = m_layer_detector l) m
        (fun _ l1 => view l1 = view l /\ m_layer_detector l1 = m_layer_detector l)) as Hm
        by (destruct (sEnableGPUTiming sw); keep ltac:(intros; assumption));
      destruct (m (l, g1)) as [[x [l2 g2]]|] eqn:Em; [|done] end.
    apply Hm in Em as [Hv Hd]; [|done].
    unfold layer_bind at 1, get. cbn [fst]. rewrite Hd. unfold layer_bind at 1.
    destruct (ContainsFrameBoundary _ _).
    + destruct (ProcessFrameBoundaryTasks (l2, g2)) as [[y [l3 g3]]|] eqn:E3; [|done].
      intros [= _ <- _]. rewrite <- Hv. by eapply boundary_view; [|exact E3].
    + intros [= _ <- _]. done.
  - cbn [run_call] in E. by injection E as _ <- _.
Qed.
End Filters.

(** Enqueueing calls. *)
Definition enqueues (c : LayerCall) : bool := match c with LEnqueue _ => true | _ => false end.

Lemma run_calls_view {G} `{VulkanApi G} `{DriverApi G} sw cs l (g : G) n l' g' :
  forallb (fun c => negb (enqueues c)) cs = true ->
  run_calls sw cs (l, g) = Some (n, (l', g')) -> view l' = Nat.iter n view_boundary (view l).
Proof.
  revert l g n. induction cs as [|c cs IH]; intros l g n Hno; cbn [run_calls].
  - by intros [= <- <- <-].
  - cbn [forallb] in Hno. apply andb_true_iff in Hno as [Hc Hno].
    destruct (run_call sw c (l, g)) as [[u [l1 g1]]|] eqn:E1; [|done]. cbn [mbind option_bind].
    destruct (run_calls sw cs (l1, g1)) as [[k [l2 g2]]|] eqn:E2; [|done]. cbn [mbind option_bind].
    intros [= <- <- <-]. apply IH in E2; [|done]. apply call_view in E1.
    replace (view l1) with (if is_boundary c (l, g) then view_boundary (view l) else view l) in E2
      by (rewrite E1; by destruct c).
    rewrite E2. destruct (is_boundary c (l, g)); [|done]. by rewrite Nat.iter_succ_r.
Qed.

(** ** GPU timing and the boundary detectors *)

(** The layer and [m_gpu_time] each have a detector; they never disagree. *)
Definition layer_inv (l : DiveRuntimeLayer) : Prop :=
  gpu_inv (m_gpu_time l) /\ m_layer_detector l = m_boundary_detector (m_gpu_time l).

Lemma free_slots_detector slots t t' :
  free_slots slots t = Some t' -> m_boundary_detector t' = m_boundary_detector t.
Proof. unfold free_slots. destruct (FreeSlots _ _); [|done]. by intros [= <-]. Qed.

Lemma RemoveCmd_detector cmd t t' :
  RemoveCmdFromFrameCache cmd t = Some t' -> m_boundary_detector t' = m_boundary_detector t.
Proof.
  unfold RemoveCmdFromFrameCache. destruct (m_cmds t !! cmd); [|by intros [= <-]].
  destruct (free_slots _ t) as [t1|] eqn:E; [|done]. cbn [mbind option_bind]. intros [= <-].
  by apply free_slots_detector in E.
Qed.

Lemma drop_cmd_detector cmd i t t' :
  drop_cmd cmd i t = Some t' -> m_boundary_detector t' = m_boundary_detector t.
Proof.
  unfold drop_cmd. destruct (free_slots _ t) as [t1|] eqn:E1; [|done]. cbn [mbind option_bind].
  destruct (RemoveCmdFromFrameCache cmd t1) as [t2|] eqn:E2; [|done]. cbn [mbind option_bind]. intros [= <-].
  apply RemoveCmd_detector in E2. apply free_slots_detector in E1. cbn. congruence.
Qed.

Lemma foldM_detector {A} (f : A -> GPUTime -> option GPUTime) l t t' :
  (forall x t t', f x t = Some t' -> m_boundary_detector t' = m_boundary_detector t) ->
  foldM f l t = Some t' -> m_boundary_detector t' = m_boundary_detector t.
Proof.
  intros Hf. revert t. induction l as [|x l IH]; intros t; cbn [foldM]; [by intros [= <-]|].
  destruct (f x t) as [t1|] eqn:E; [|done]. cbn [mbind option_bind]. intros E2.
  apply IH in E2. apply Hf in E. congruence.
Qed.

Lemma OnDestroyCommandPool_detector p t st t' :
  OnDestroyCommandPool p t = Some (st, t') -> m_boundary_detector t' = m_boundary_detector t.
Proof.
  unfold OnDestroyCommandPool. destruct (p =? VK_NULL_HANDLE); [by intros [= <- <-]|].
  destruct (foldM _ _ t) as [t1|] eqn:E; [|done]. cbn [mbind option_bind]. intros [= <- <-].
  apply foldM_detector in E; [done|]. intros [c i] t2 t3. destruct (pool i =? p); [|by intros [= <-]].
  apply drop_cmd_detector.
Qed.

Lemma OnFreeCommandBuffers_detector n cs t st t' :
  OnFreeCommandBuffers n cs t = Some (st, t') ->
  m_boundary_detector t' = Detector_OnFreeCommandBuffers n cs (m_boundary_detector t).
Proof.
  unfold OnFreeCommandBuffers. destruct (array_elements n cs) as [l|]; [|done]. cbn [mbind option_bind].
  destruct (foldM _ l _) as [t1|] eqn:E; [|done]. cbn [mbind option_bind]. intros [= <- <-].
  apply foldM_detector in E; [done|]. intros c t2 t3. destruct (m_cmds t2 !! c); [|by intros [= <-]].
  apply drop_cmd_detector.
Qed.

Lemma OnResetCommandBuffer_detector c t st t' :
  OnResetCommandBuffer c t = Some (st, t') ->
  m_boundary_detector t' = Detector_OnResetCommandBuffer c (m_boundary_detector t).
Proof.
  unfold OnResetCommandBuffer. destruct (m_cmds _ !! c); [|by intros [= <- <-]].
  destruct (RemoveCmdFromFrameCache c _) as [t1|] eqn:E; [|done]. cbn [mbind option_bind]. intros [= <- <-].
  by apply RemoveCmd_detector in E.
Qed.

Lemma OnResetCommandPool_detector p t st t' :
  OnResetCommandPool p t = Some (st, t') ->
  m_boundary_detector t' = Detector_OnResetCommandPool p (m_boundary_detector t).
Proof.
  unfold OnResetCommandPool.
  destruct (foldM _ _ _) as [t1|] eqn:E; [|done]. cbn [mbind option_bind]. intros [= <- <-].
  apply foldM_detector in E; [done|]. intros [c i] t2 t3. destruct (pool i =? p); [|by intros [= <-]].
  apply RemoveCmd_detector.
Qed.

Lemma OnAllocate_detector i cs t st t' :
  OnAllocateCommandBuffers i cs t = Some (st, t') ->
  m_boundary_detector t' = Detector_OnAllocateCommandBuffers i cs (m_boundary_detector t).
Proof.
  assert (forall p l t, m_boundary_detector (snd (allocate_cmds p l t)) = m_boundary_detector t) as Hcmds.
  { intros p l. induction l as [|c l IH]; intros t1; cbn [allocate_cmds]; [done|].
    destruct (m_cmds t1 !! c); [done|]. destruct (AllocateSlot _) as [b a1], (AllocateSlot a1) as [e a2].
    destruct (_ || _); [done|]. by rewrite IH. }
  unfold OnAllocateCommandBuffers. destruct i as [i|]; [|done]. cbn [mbind option_bind].
  destruct (level_secondary i); [by intros [= <- <-]|].
  destruct (array_elements _ _) as [l|]; [|done]. cbn [mbind option_bind]. intros [= E].
  apply (f_equal snd) in E. cbn [snd] in E. by rewrite <- E, Hcmds.
Qed.

Section Detectors.
Context {G : Type} `{VulkanLaws G}.
Implicit Types (t : GPUTime) (g : G) (s : GPUTime * G).

Lemma OnBegin_detector c fl t g st t' g' :
  OnBeginCommandBuffer c fl (t, g) = Some (st, (t', g')) -> m_boundary_detector t' = m_boundary_detector t.
Proof.
  unfold OnBeginCommandBuffer. destruct (m_enable t); [|by intros [= <- <- <-]]. cbn [negb].
  destruct (m_cmds t !! c); [|by intros [= <- <- <-]].
  destruct (free_slots _ t) as [t1|] eqn:E; [|done]. cbn [mbind option_bind]. intros [= <- <- <-].
  by apply free_slots_detector in E.
Qed.

Lemma mark_render_pass_detector stage c t g st t' g' :
  mark_render_pass stage c (t, g) = Some (st, (t', g')) -> m_boundary_detector t' = m_boundary_detector t.
Proof.
  unfold mark_render_pass. destruct (m_enable t); [|by intros [= <- <- <-]]. cbn [negb].
  destruct (m_cmds t !! c); [|by intros [= <- <- <-]]. destruct (AllocateSlot _). by intros [= <- <- <-].
Qed.

Lemma evaluate_frame_detector s st s' :
  evaluate_frame s = Some (st, s') -> m_boundary_detector (fst s') = m_boundary_detector (fst s).
Proof.
  destruct s as [t g]. unfold evaluate_frame.
  destruct (frame_durations _ _ t) as [[msg|f]|]; cbn [mbind option_bind]; [by intros [= <- <-]| |done].
  destruct (m_valid_frame t); [|by intros [= <- <-]].
  destruct (AddFrameData _ _ _ _ _); [|done]. cbn [mbind option_bind]. by intros [= <- <-].
Qed.

Lemma unavailable_report_detector k cmds t m t' :
  unavailable_report k cmds t = Some (m, t') -> m_boundary_detector t' = m_boundary_detector t.
Proof.
  revert k t m. induction cmds as [|c cmds IH]; intros k t m; cbn [unavailable_report]; [by intros [= <- <-]|].
  destruct (if _ && _ then _ else _) as [av|]; [|done]. cbn [mbind option_bind].
  destruct (unavailable_report _ _ _) as [[m1 t1]|] eqn:E; [|done]. cbn [mbind option_bind].
  intros [= <- <-]. by apply IH in E.
Qed.

Lemma UpdateFrameMetrics_detector s st s' : gpu_inv (fst s) ->
  UpdateFrameMetrics s = Some (st, s') -> m_boundary_detector (fst s') = m_boundary_detector (fst s).
Proof.
  intros Hinv. unfold UpdateFrameMetrics. pose proof (get_results_inv s Hinv) as H1.
  destruct (get_results_timestamps s) as (ts & _ & Ets). destruct (get_results s) as [r s1]. cbn [snd] in *.
  assert (m_boundary_detector (fst s1) = m_boundary_detector (fst s)) as <- by by rewrite Ets.
  destruct (r =? VK_SUCCESS); [apply evaluate_frame_detector|].
  destruct (r =? VK_NOT_READY); [|by intros [= <- <-]].
  destruct (wait_available_spec kMaxQueryCount s1 H1) as (k & _ & -> & _). cbn [mbind option_bind].
  destruct (requery_timestamps k s1) as (ts2 & _ & E2).
  assert (m_boundary_detector (fst (requery k s1)) = m_boundary_detector (fst s1)) as <- by by rewrite E2.
  destruct (negb _); [apply evaluate_frame_detector|].
  destruct (requery k s1) as [t2 g2]. cbn [fst].
  destruct (unavailable_report _ _ _) as [[m t3]|] eqn:E; [|done]. cbn [mbind option_bind].
  intros [= <- <-]. by apply unavailable_report_detector in E.
Qed.

Lemma OnFrameBoundary_detector s st s' : gpu_inv (fst s) ->
  OnFrameBoundary s = Some (st, s') -> m_boundary_detector (fst s') = m_boundary_detector (fst s).
Proof.
  intros Hinv. unfold OnFrameBoundary.
  destruct (if m_valid_frame (fst s) then UpdateFrameMetrics s else Some (GpuOk, s)) as [[ust [t1 g1]]|] eqn:E;
    cbn [mbind option_bind]; [|done]. intros [= <- <-]. cbn.
  destruct (m_valid_frame (fst s)); [by apply UpdateFrameMetrics_detector in E|].
  injection E as _ ->. done.
Qed.

Lemma OnQueuePresent_detector t g st s' : gpu_inv t ->
  OnQueuePresent (t, g) = Some (st, s') -> m_boundary_detector (fst s') = m_boundary_detector t.
Proof.
  intros Hinv. unfold OnQueuePresent. destruct (m_enable t); [|by intros [= <- <-]]. cbn [negb].
  intros E. by apply OnFrameBoundary_detector in E.
Qed.

Lemma submit_collect_detector ss t r t' :
  submit_collect ss t = Some (r, t') -> m_boundary_detector t' = m_boundary_detector t.
Proof.
  assert (forall l t, m_boundary_detector (snd (collect_cmds l t)) = m_boundary_detector t) as Hc.
  { intros l. induction l as [|c l IH]; intros t1; cbn [collect_cmds]; [done|].
    destruct (m_cmds t1 !! c) as [i|]; [|done]. destruct (reusable i); [done|]. by rewrite IH. }
  unfold submit_collect. destruct ss as [ss|]; [|by intros [= <- <-]].
  destruct (head ss) as [first|]; [|done]. cbn [mbind option_bind].
  destruct (pCommandBuffers first); [|by intros [= <- <-]]. revert t.
  induction ss as [|x ss IH]; intros t; cbn [collect_submits]; [by intros [= <- <-]|].
  destruct (array_elements _ _) as [cmds|]; [|done]. cbn [mbind option_bind].
  specialize (Hc cmds t). destruct (collect_cmds cmds t) as [[st|] t1]; [by intros [= <- <-]|].
  intros E. apply IH in E. cbn [snd] in Hc. congruence.
Qed.

(** An early return of the collection is a failure. *)
Lemma submit_collect_fails ss t st t' :
  submit_collect ss t = Some (Some st, t') -> success (gpu_time_status st) = false.
Proof.
  assert (forall l t, match fst (collect_cmds l t) with Some st => success (gpu_time_status st) = false | None => True end)
    as Hc.
  { intros l. induction l as [|c l IH]; intros t1; cbn [collect_cmds]; [done|].
    destruct (m_cmds t1 !! c) as [i|]; [|done]. destruct (reusable i); [done|apply IH]. }
  unfold submit_collect. destruct ss as [ss|]; [|done].
  destruct (head ss) as [first|]; [|done]. cbn [mbind option_bind].
  destruct (pCommandBuffers first); [|done]. revert t.
  induction ss as [|x ss IH]; intros t; cbn [collect_submits]; [done|].
  destruct (array_elements _ _) as [cmds|]; [|done]. cbn [mbind option_bind].
  specialize (Hc cmds t). destruct (collect_cmds cmds t) as [[st1|] t1]; [by intros [= <- _]|]. apply IH.
Qed.

Lemma OnQueueSubmit_detector ss t g st s' : gpu_inv t ->
  OnQueueSubmit ss (t, g) = Some (st, s') -> m_boundary_detector (fst s') = m_boundary_detector t.
Proof.
  intros Hinv. unfold OnQueueSubmit. destruct (m_enable t); [|by intros [= <- <-]]. cbn [negb].
  destruct (submit_collect ss t) as [[r t1]|] eqn:E; [|done]. cbn [mbind option_bind].
  apply submit_collect_inv in E as H1; [|done]. apply submit_collect_detector in E.
  destruct r; [by intros [= <- <-]|]. destruct (ContainsFrameBoundary _ _); [|by intros [= <- <-]].
  destruct (OnFrameBoundary _) as [[ust s2]|] eqn:E2; [|done]. cbn [mbind option_bind].
  intros [= <- <-]. apply OnFrameBoundary_detector in E2; [|done]. cbn [fst] in *. congruence.
Qed.
End Detectors.

Section LayerInvariant.
Context {G : Type} `{VulkanLaws G} `{DriverApi G} (sw : Switches).
Implicit Types (t : GPUTime) (g : G) (l : DiveRuntimeLayer).

(** A hook keeps the invariant and the detector, or changes the detector by
    [f]. *)
Definition hook_does {A} (f : FrameBoundaryDetector -> FrameBoundaryDetector)
    (hook : GPUTime * G -> option (A * (GPUTime * G))) : Prop :=
  forall t g a t' g', gpu_inv t -> hook (t, g) = Some (a, (t', g')) ->
    gpu_inv t' /\ m_boundary_detector t' = f (m_boundary_detector t).

Lemma hook_triple {A} (hook : GPUTime * G -> option (A * (GPUTime * G))) :
  hook_does (fun d => d) hook -> triple layer_inv (gpu_time hook) (fun _ l => layer_inv l).
Proof.
  intros Hh. apply triple_gpu_time. intros l g a t g' [Hi Hd] E.
  apply Hh in E as [Hi' Hd']; [|done]. split; cbn; [done|congruence].
Qed.

Lemma hook_pair {A B} f (hook : GPUTime * G -> option (A * (GPUTime * G))) (k : A -> LayerM G B) Q :
  hook_does f hook -> (forall a, triple layer_inv (k a) Q) ->
  triple layer_inv (do! detector f in let! a := gpu_time hook in k a) Q.
Proof.
  intros Hh Hk. eapply (triple_bind _ _ _ (fun _ l => gpu_inv (m_gpu_time l) /\
    m_layer_detector l = f (m_boundary_detector (m_gpu_time l)))).
  - apply triple_update. intros l [Hi Hd]. split; [done|]. cbn. by rewrite Hd.
  - intros ?. eapply triple_bind; [|exact Hk]. apply triple_gpu_time. intros l g x t g' [Hi Hd] E.
    apply Hh in E as [Hi' Hd']; [|done]. split; cbn; [done|congruence].
Qed.

(** A hook that calls no Vulkan function. *)
Lemma pure_hook {A} f (hook : GPUTime -> option (A * GPUTime)) :
  (forall t a t', gpu_inv t -> hook t = Some (a, t') ->
     gpu_inv t' /\ m_boundary_detector t' = f (m_boundary_detector t)) ->
  hook_does f (fun '(t, g) => '(a, t) ← hook t; Some (a, (t, g))).
Proof.
  intros Hh t g a t' g' Hi. destruct (hook t) as [[x t1]|] eqn:E; [|done]. cbn [mbind option_bind].
  intros [= <- <- <-]. by eapply Hh.
Qed.

Lemma does_present : hook_does (fun d => d) (OnQueuePresent (G := G)).
Proof.
  intros t g a t' g' Hi E. split; [|by apply OnQueuePresent_detector in E].
  apply (run_hook_inv HPresent (t, g) (t', g')); [done|]. cbn [run_hook]. by rewrite E.
Qed.
Lemma does_submit ss : hook_does (fun d => d) (OnQueueSubmit (G := G) ss).
Proof.
  intros t g a t' g' Hi E. split; [by apply OnQueueSubmit_inv in E|by apply OnQueueSubmit_detector in E].
Qed.
Lemma does_begin c fl : hook_does (fun d => d) (OnBeginCommandBuffer (G := G) c fl).
Proof. intros t g a t' g' Hi E. split; [by apply OnBeginCommandBuffer_inv in E|by apply OnBegin_detector in E]. Qed.
Lemma does_end c : hook_does (fun d => d) (OnEndCommandBuffer (G := G) c).
Proof. intros t g a t' g' Hi E. by apply OnEndCommandBuffer_inv in E as ->. Qed.
Lemma does_mark stage c : hook_does (fun d => d) (mark_render_pass (G := G) stage c).
Proof.
  intros t g a t' g' Hi E. split; [by apply mark_render_pass_inv in E|by apply mark_render_pass_detector in E].
Qed.
Lemma does_create d x r : hook_does (fun d => d) (fun s : GPUTime * G => Some (OnCreateDevice d x r s)).
Proof.
  intros t g a t' g' Hi [= E]. split; [by apply OnCreateDevice_inv in E|]. revert E. unfold OnCreateDevice.
  destruct (d =? VK_NULL_HANDLE); [by intros [= _ <- _]|].
  destruct (vkCreateQueryPool _ _ _ _) as [[res qp] g1]. destruct (res =? VK_SUCCESS); by intros [= _ <- _].
Qed.
Lemma does_destroy d : hook_does (fun d => d) (fun s : GPUTime * G => Some (OnDestroyDevice d s)).
Proof.
  intros t g a t' g' Hi [= E]. split; [by apply OnDestroyDevice_inv in E|]. revert E. unfold OnDestroyDevice.
  destruct (d =? m_device t); [|by intros [= _ <- _]]. cbn [negb].
  destruct (_ && _); [case_bool_decide|]; by intros [= _ <- _].
Qed.
Lemma does_destroy_pool p : hook_does (fun d => d)
  (fun '(t, g) => '(a, t) ← OnDestroyCommandPool p t; Some (a, (t, g : G))).
Proof.
  apply pure_hook. intros t a t' Hi E.
  split; [by apply OnDestroyCommandPool_inv in E|by apply OnDestroyCommandPool_detector in E].
Qed.
Lemma does_queue q : hook_does (fun d => d)
  (fun '(t, g) => '(a, t) ← Some (OnGetDeviceQueue q t); Some (a, (t, g : G))).
Proof.
  apply pure_hook. intros t a t' Hi [= <- <-]. split; [|done].
  by apply (gpu_inv_ext t); done || by left.
Qed.

Lemma pair_allocate i cs : hook_does (Detector_OnAllocateCommandBuffers i cs)
  (fun '(t, g) => '(a, t) ← OnAllocateCommandBuffers i cs t; Some (a, (t, g : G))).
Proof.
  apply pure_hook. intros t a t' Hi E.
  split; [by apply OnAllocateCommandBuffers_inv in E|by apply OnAllocate_detector in E].
Qed.
Lemma pair_free n cs : hook_does (Detector_OnFreeCommandBuffers n cs)
  (fun '(t, g) => '(a, t) ← OnFreeCommandBuffers n cs t; Some (a, (t, g : G))).
Proof.
  apply pure_hook. intros t a t' Hi E.
  split; [by apply OnFreeCommandBuffers_inv in E|by apply OnFreeCommandBuffers_detector in E].
Qed.
Lemma pair_reset c : hook_does (Detector_OnResetCommandBuffer c)
  (fun '(t, g) => '(a, t) ← OnResetCommandBuffer c t; Some (a, (t, g : G))).
Proof.
  apply pure_hook. intros t a t' Hi E.
  split; [by apply OnResetCommandBuffer_inv in E|by apply OnResetCommandBuffer_detector in E].
Qed.
Lemma pair_reset_pool p : hook_does (Detector_OnResetCommandPool p)
  (fun '(t, g) => '(a, t) ← OnResetCommandPool p t; Some (a, (t, g : G))).
Proof.
  apply pure_hook. intros t a t' Hi E.
  split; [by apply OnResetCommandPool_inv in E|by apply OnResetCommandPool_detector in E].
Qed.
Lemma pair_label c x : hook_does (fun d => snd (MarkBoundary c x d))
  (fun '(t, g) => '(a, t) ← Some (OnCmdInsertDebugUtilsLabelEXT c x t); Some (a, (t, g : G))).
Proof.
  apply pure_hook. intros t a t' Hi [= E]. unfold OnCmdInsertDebugUtilsLabelEXT in E.
  destruct (MarkBoundary c x _) as [st d]. destruct (bs_success st); injection E as _ <-;
    (split; [by apply detector_inv|done]).
Qed.

Lemma run_tasks_inv ts : triple (G := G) layer_inv (run_tasks ts) (fun _ l => layer_inv l).
Proof.
  induction ts as [|[c] ts IH]; cbn [run_tasks run_task]; [by apply triple_ret|].
  unfold UpdateFilterConfig. keep ltac:(assumption). exact IH.
Qed.

Lemma boundary_inv : triple (G := G) layer_inv ProcessFrameBoundaryTasks (fun _ l => layer_inv l).
Proof. unfold ProcessFrameBoundaryTasks. keep ltac:(assumption). apply run_tasks_inv. Qed.

Lemma enable_layer_inv b l : layer_inv l -> layer_inv (set_m_gpu_time (SetEnable b (m_gpu_time l)) l).
Proof. intros [Hi Hd]. split; [by apply SetEnable_inv|done]. Qed.

Ltac known_hook :=
  first [apply does_present | apply does_submit | apply does_begin | apply does_end | apply does_mark
        | apply does_create | apply does_destroy | apply does_destroy_pool | apply does_queue
        | apply pair_allocate | apply pair_free | apply pair_reset | apply pair_reset_pool | apply pair_label].

Ltac keep_inv :=
  lazymatch goal with
  | |- triple _ (layer_bind (detector _) _) _ => eapply hook_pair; [known_hook|intros ?; keep_inv]
  | |- triple ?I (layer_bind _ _) ?Q =>
      apply (triple_bind I _ _ (fun _ l => I l) Q); [keep_inv|intros ?; keep_inv]
  | |- triple _ (match ?x with _ => _ end) _ => destruct x; keep_inv
  | |- triple _ (gpu_time _) _ => apply hook_triple; known_hook
  | |- triple _ ProcessFrameBoundaryTasks _ => apply boundary_inv
  | |- triple _ (mock_results _ _ _ _ _ _) _ => by apply mock_results_keep
  | |- _ => keep ltac:(first [assumption | by apply enable_layer_inv])
  end.

(** Every call keeps the invariant. *)
Lemma call_inv c : triple layer_inv (run_call (G := G) sw c) (fun _ l => layer_inv l).
Proof.
  destruct c; cbn [run_call]; unfold_layer; unfold QueuePresentKHR, QueueSubmit; keep_inv.
Qed.

Lemma layer_reachable_inv s : layer_reachable (G := G) sw s -> layer_inv (fst s).
Proof.
  induction 1 as [g|[l g] c u [l' g'] _ IH E]; [by split; [apply new_gpu_inv|]|].
  by eapply call_inv; [exact IH|exact E].
Qed.
End LayerInvariant.

(** ** The tracked pipelines *)

Lemma elem_of_GetLivePSOs l name p alpha :
  mkPSOInfo name p alpha ∈ GetLivePSOs l <-> m_live_psos l !! p = Some (mkTrackedPSO name alpha).
Proof.
  unfold GetLivePSOs. rewrite list_elem_of_fmap. split.
  - intros ([q [n a]] & E & Hin). injection E as -> -> ->. by apply elem_of_map_to_list in Hin.
  - intros E. exists (p, mkTrackedPSO name alpha). split; [done|]. by apply elem_of_map_to_list.
Qed.

Lemma track_psos_other infos ps m p : p ∉ ps -> track_psos infos ps m !! p = m !! p.
Proof.
  revert infos m. induction ps as [|q ps IH]; intros infos m Hp; [by destruct infos|].
  apply not_elem_of_cons in Hp as [Hne Hp]. destruct infos as [|info infos]; [done|]. cbn [track_psos].
  rewrite IH by done. by rewrite lookup_insert_ne.
Qed.

Lemma track_psos_lookup infos ps m i info p :
  NoDup ps -> infos !! i = Some info -> ps !! i = Some p ->
  track_psos infos ps m !! p = Some (tracked_pso info).
Proof.
  revert infos ps m. induction i as [|i IH]; intros [|info' infos] [|q ps] m Hnd Hi Hp; try done.
  - injection Hi as ->. injection Hp as ->. cbn [track_psos]. apply NoDup_cons in Hnd as [Hq _].
    rewrite track_psos_other by done. apply lookup_insert_eq.
  - apply NoDup_cons in Hnd as [_ Hnd]. cbn [track_psos]. by apply IH.
Qed.

(** ** Properties *)

(** When a requested filter takes effect. A configuration enqueued while no
    task waits is not active before the second frame boundary after it: at the
    first one the configuration pending until then becomes active and only then
    the task runs, which makes the request pending; from the second boundary on
    the request is active, and stays so until another one is enqueued. Whatever
    else the application calls changes nothing. *)
Theorem filter_request_latency {G} `{VulkanApi G} `{DriverApi G} sw config cs l (g : G) n l' g' :
  m_frame_boundary_tasks l = [] ->
  forallb (fun c => negb (enqueues c)) cs = true ->
  run_calls sw (LEnqueue (UpdateFilterConfigTask config) :: cs) (l, g) = Some (n, (l', g')) ->
  m_active_filter_config l'
  = match n with O => m_active_filter_config l | 1%nat => m_pending_filter_config l | _ => config end.
Proof.
  intros Ht Hcs E. cbn [run_calls run_call is_boundary] in E.
  unfold EnqueueFrameBoundaryTask, update in E. cbn [mbind option_bind] in E. rewrite Ht in E. cbn [app] in E.
  destruct (run_calls sw cs _) as [[k s2]|] eqn:E2; [|done]. cbn [mbind option_bind] in E.
  injection E as -> ->. apply run_calls_view in E2; [|done]. apply (f_equal fv_active) in E2.
  cbn [fv_active view] in E2. rewrite E2. destruct n as [|[|n]]; [done|done|].
  assert (forall k v, fv_tasks v = [] -> fv_pending v = config -> fv_active v = config ->
    fv_active (Nat.iter k view_boundary v) = config /\ fv_tasks (Nat.iter k view_boundary v) = [] /\
    fv_pending (Nat.iter k view_boundary v) = config) as Hfix.
  { intros k. induction k as [|k IH]; intros v H1 H2 H3; [done|]. rewrite Nat.iter_succ_r.
    apply IH; unfold view_boundary; cbn; rewrite ?H1; done. }
  rewrite !Nat.iter_succ_r. by apply Hfix.
Qed.

(** The layer's two frame-boundary detectors agree. The layer keeps one of
    its own next to the one inside of [m_gpu_time]; in every state that calls of
    the layer get into they are the same, so the frame boundary a submission
    ends for the GPU timing and the one that runs the layer's tasks coincide,
    and [m_gpu_time] satisfies its invariant. *)
Theorem detectors_agree {G} `{VulkanLaws G} `{DriverApi G} sw l (g : G) :
  layer_reachable sw (l, g) ->
  m_layer_detector l = m_boundary_detector (m_gpu_time l) /\ gpu_inv (m_gpu_time l) /\
  (forall submits st s',
     OnQueueSubmit submits (m_gpu_time l, g) = Some (st, s') ->
     m_enable (m_gpu_time l) = true -> success (gpu_time_status st) = true ->
     contains_frame_boundary st = ContainsFrameBoundary submits (m_layer_detector l)).
Proof.
  intros Hr. apply layer_reachable_inv in Hr as [Hi Hd]. cbn [fst] in *. split_and!; try done.
  intros submits st s'. rewrite Hd. unfold OnQueueSubmit. intros E He. rewrite He in E. cbn [negb] in E.
  destruct (submit_collect _ _) as [[r t1]|] eqn:Ec; [|done]. cbn [mbind option_bind] in E.
  destruct r as [r|].
  - injection E as <- <-. intros Hs. by rewrite (submit_collect_fails _ _ _ _ Ec) in Hs.
  - destruct (ContainsFrameBoundary _ _); [|by injection E as <- _].
    destruct (OnFrameBoundary _) as [[ust s2]|]; [|done]. cbn [mbind option_bind] in E. by injection E as <- _.
Qed.

(** The list of live pipelines. A successful creation lists each new
    pipeline, as ["Alpha_blend_enabled"] exactly if one of its attachments
    blends, and changes nothing for the others; naming a pipeline changes the
    name of that entry only, and does not make an entry of a pipeline the layer
    does not know; destroying one removes it. *)
Theorem live_pipelines {G} `{VulkanApi G} `{DriverApi G} device infos n l (g : G) a g1 :
  n = length infos ->
  driver (pfn_CreateGraphicsPipelines device n infos) g = (a, g1) ->
  vk_result a = VK_SUCCESS -> length (vk_handles a) = n -> NoDup (vk_handles a) ->
  exists l1, CreateGraphicsPipelines device n infos (l, g) = Some (a, (l1, g1)) /\
    (forall i info p, infos !! i = Some info -> vk_handles a !! i = Some p ->
       mkPSOInfo (tracked_name (tracked_pso info)) p (has_alpha_blend (tracked_pso info)) ∈ GetLivePSOs l1) /\
    (forall name p alpha, p ∉ vk_handles a ->
       mkPSOInfo name p alpha ∈ GetLivePSOs l1 <-> mkPSOInfo name p alpha ∈ GetLivePSOs l) /\
    (forall p new, exists l2,
       SetDebugUtilsObjectNameEXT false device (Some (mkNameInfo VK_OBJECT_TYPE_PIPELINE p (Some new))) (l1, g1)
       = Some (VK_SUCCESS, (l2, g1)) /\
       forall name q alpha, mkPSOInfo name q alpha ∈ GetLivePSOs l2 <->
         if decide (q = p) then name = new /\ exists old, mkPSOInfo old q alpha ∈ GetLivePSOs l1
         else mkPSOInfo name q alpha ∈ GetLivePSOs l1) /\
    (forall p, exists l2, DestroyPipeline device p (l1, g1)
       = Some (tt, (l2, snd (driver (pfn_DestroyPipeline device p) g1))) /\
       forall name q alpha, mkPSOInfo name q alpha ∈ GetLivePSOs l2 <->
         q <> p /\ mkPSOInfo name q alpha ∈ GetLivePSOs l1).
Proof.
  intros Hn Ed Hr Hlen Hnd.
  set (l1 := set_m_live_psos (track_psos infos (vk_handles a) (m_live_psos l)) l). exists l1. split_and!.
  - unfold CreateGraphicsPipelines, layer_bind, pfn. rewrite Ed, Hr. cbn [Z.eqb VK_SUCCESS].
    assert (forall A (x : list A), length x = n -> array_elements n (Some x) = Some x) as Harr.
    { intros A x Hx. unfold array_elements. destruct n eqn:En; [by destruct x|].
      rewrite (proj2 (Nat.leb_le _ _)) by lia. by rewrite take_ge by lia. }
    unfold defined. rewrite !Harr by done. done.
  - intros i info p Hi Hp. apply elem_of_GetLivePSOs. cbn [m_live_psos l1 set_m_live_psos].
    rewrite (track_psos_lookup _ _ _ i info p) by done. by destruct (tracked_pso info).
  - intros name p alpha Hp. rewrite !elem_of_GetLivePSOs. cbn [m_live_psos l1 set_m_live_psos].
    by rewrite track_psos_other.
  - intros p new. eexists. split; [done|]. intros name q alpha. rewrite elem_of_GetLivePSOs.
    cbn [m_live_psos set_m_live_psos]. destruct (decide (q = p)) as [->|Hne].
    + rewrite lookup_alter_eq. split.
      * destruct (m_live_psos l1 !! p) as [[old al]|] eqn:E; [|done]. intros [= -> ->].
        split; [done|]. exists old. by apply elem_of_GetLivePSOs.
      * intros [-> [old E]]. apply elem_of_GetLivePSOs in E. by rewrite E.
    + rewrite lookup_alter_ne by done. by rewrite elem_of_GetLivePSOs.
  - intros p. unfold DestroyPipeline, pfn_, pfn, layer_bind, update. destruct (driver _ g1) as [b g2].
    eexists. split; [done|]. intros name q alpha. rewrite !elem_of_GetLivePSOs.
    cbn [m_live_psos set_m_live_psos]. rewrite lookup_delete_Some. intuition congruence.
Qed.

(** ** Witnesses *)

#[local] Existing Instance test_vulkan.

(** A driver that succeeds and hands out the handles 11 and 12. *)
#[local] Instance test_driver : DriverApi Z := {| driver _ g := (mkAnswer VK_SUCCESS [11; 12] [], g + 1) |}.

Definition test_filter : DrawcallFilterConfig :=
  mkDrawcallFilterConfig "" 3 0 0 0 true false false false false false.

Lemma filter_request_latency_witness :
  exists l', run_calls source_switches [LEnqueue (UpdateFilterConfigTask test_filter); LQueuePresent 1; LQueuePresent 1]
      (new_layer, 0) = Some (2%nat, (l', 2)) /\
    m_active_filter_config l' = test_filter.
Proof.
  assert (exists l', run_calls source_switches
    [LEnqueue (UpdateFilterConfigTask test_filter); LQueuePresent 1; LQueuePresent 1] (new_layer, 0)
    = Some (2%nat, (l', 2))) as [l' E] by (eexists; vm_compute; reflexivity).
  exists l'. split; [exact E|].
  exact (filter_request_latency source_switches test_filter [LQueuePresent 1; LQueuePresent 1] new_layer 0 2 l' 2
    eq_refl eq_refl E).
Defined.

Lemma detectors_agree_witness :
  m_layer_detector new_layer = m_boundary_detector (m_gpu_time new_layer).
Proof. exact (proj1 (detectors_agree (H0 := test_vulkan_laws) source_switches new_layer 0 (layer_new source_switches 0))). Defined.

Lemma live_pipelines_witness :
  exists l1, CreateGraphicsPipelines 1 2 [mkPipelineInfo (Some [0; 1]); mkPipelineInfo None] (new_layer, 0)
      = Some (mkAnswer VK_SUCCESS [11; 12] [], (l1, 1)) /\
    mkPSOInfo "Alpha_blend_enabled" 11 true ∈ GetLivePSOs l1 /\ mkPSOInfo "Opaque" 12 false ∈ GetLivePSOs l1.
Proof.
  destruct (live_pipelines (H0 := test_driver) 1 [mkPipelineInfo (Some [0; 1]); mkPipelineInfo None] 2 new_layer 0
    (mkAnswer VK_SUCCESS [11; 12] []) 1 eq_refl
    eq_refl eq_refl eq_refl) as (l1 & E & Hin & _).
  - apply (bool_decide_unpack _). vm_compute. exact I.
  - exists l1. split; [exact E|]. split.
    + exact (Hin 0%nat _ 11 eq_refl eq_refl).
    + exact (Hin 1%nat _ 12 eq_refl eq_refl).
Defined.
