(* ===== verification/ServerHandler.v ===== *)
(** * ServerHandler: the layer's requests over the network

    [ServerMessageHandler] of [src/runtime_layer/server_message_handler.cc]: the
    requests that the layer inside of the application answers itself, on top of
    [BaseMessageHandler]. Its state is the global [sDiveRuntimeLayer]. *)

From S2P Require Import Prelude Status Wire Messages FilterConfig Socket Pipe Transfer.
From S2P Require Import Framing Handlers Client GpuTime RuntimeLayer RuntimeState.

#[local] Open Scope Z_scope.

(** A call of the layer from the server's thread that calls nothing below. *)
Definition on_layer (m : LayerM unit unit) (l : DiveRuntimeLayer) : DiveRuntimeLayer :=
  match m (l, tt) with Some (_, (l, _)) => l | None => l end.

Section Handler.
Context {W : Type} `{SocketApi W} `{FileApi W}.

Definition ServerMessageHandler_HandleMessage (message : option Message)
    (s : DiveRuntimeLayer * (option SocketConnection * W))
  : DiveRuntimeLayer * (option SocketConnection * W) :=
  let '(l, cw) := s in
  match message, cw with
  | None, _ => s
  | _, (None, _) => s
  | Some message, _ =>
      match message with
      | MsgDrawcallFilterConfigRequest request =>
          let config := filter_config request in
          let l := on_layer (EnqueueFrameBoundaryTask (UpdateFilterConfigTask config)) l in
          (l, logged (SendSocketMessage (DrawcallFilterConfigResponse mkEmpty)) cw)
      | LivePSOsRequest _ =>
          let live_psos := GetLivePSOs l in
          (l, logged (SendSocketMessage (MsgLivePSOsResponse (mkLivePSOsResponse live_psos))) cw)
      | LiveRenderPassesRequest _ =>
          let live_rps := GetLiveRenderPasses l in
          (l, logged (SendSocketMessage (MsgLiveRenderPassesResponse (mkLiveRenderPassesResponse live_rps))) cw)
      | MsgDisableTimestampRequest request =>
          let l := on_layer (SetDisableTimestamp (m_disable request)) l in
          (l, logged (SendSocketMessage (DisableTimestampResponse mkEmpty)) cw)
      | _ => (l, BaseMessageHandler_HandleMessage (Some message) cw)
      end
  end.
End Handler.

(** The handler that the layer gives the server. *)
#[export] Instance ServerMessageHandler_handler {W} `{SocketApi W} `{FileApi W}
  : IMessageHandler W DiveRuntimeLayer := {
  OnConnect := fun s => s;
  HandleMessage := ServerMessageHandler_HandleMessage;
  OnDisconnect := fun s => s
}.

(** The requests of the layer: the client's operation and its message. *)
Inductive LayerRequest : Type -> Type :=
  | RSetFilter (config : DrawcallFilterConfig) : LayerRequest unit
  | RLivePSOs : LayerRequest (list PSOInfo)
  | RLiveRenderPasses : LayerRequest (list RenderPassInfo)
  | RDisableTimestamp (disable : bool) : LayerRequest unit.

Definition request_message {A} (r : LayerRequest A) : Message :=
  match r with
  | RSetFilter config => MsgDrawcallFilterConfigRequest (filter_request config)
  | RLivePSOs => LivePSOsRequest mkEmpty
  | RLiveRenderPasses => LiveRenderPassesRequest mkEmpty
  | RDisableTimestamp b => MsgDisableTimestampRequest (mkDisableTimestampRequest b)
  end.

(** What the layer knows of, in the order of its maps. *)
Definition live_pipelines (l : DiveRuntimeLayer) : list PSOInfo :=
  (fun pso => mkPSOInfo (tracked_name pso.2) pso.1 (has_alpha_blend pso.2)) <$> map_to_list (m_live_psos l).
Definition live_render_passes (l : DiveRuntimeLayer) : list RenderPassInfo :=
  (fun rp => mkRenderPassInfo (tracked_rp_name rp.2) rp.1) <$> map_to_list (m_render_passes l).

Lemma GetLivePSOs_live l : GetLivePSOs l = live_pipelines l.
Proof. apply map_ext. by intros []. Qed.
Lemma GetLiveRenderPasses_live l : GetLiveRenderPasses l = live_render_passes l.
Proof. apply map_ext. by intros []. Qed.

Definition request_reply {A} (r : LayerRequest A) (l : DiveRuntimeLayer) : Message :=
  match r with
  | RSetFilter _ => DrawcallFilterConfigResponse mkEmpty
  | RLivePSOs => MsgLivePSOsResponse (mkLivePSOsResponse (live_pipelines l))
  | RLiveRenderPasses => MsgLiveRenderPassesResponse (mkLiveRenderPassesResponse (live_render_passes l))
  | RDisableTimestamp _ => DisableTimestampResponse mkEmpty
  end.

(** What a request means: its result and its effect on the layer. *)
Definition request_meaning {A} (r : LayerRequest A) (l : DiveRuntimeLayer) : A * DiveRuntimeLayer :=
  match r with
  | RSetFilter config =>
      (tt, set_m_frame_boundary_tasks (m_frame_boundary_tasks l ++ [UpdateFilterConfigTask config]) l)
  | RLivePSOs => (live_pipelines l, l)
  | RLiveRenderPasses => (live_render_passes l, l)
  | RDisableTimestamp b => (tt, set_m_disable_timestamp b l)
  end.

(** The client's function for a request. *)
Definition request_operation {W} `{SocketApi W} {A} (r : LayerRequest A) : StatusM (TcpClient * W) A :=
  match r with
  | RSetFilter config => SendDrawcallFilterConfig config
  | RLivePSOs => Client_GetLivePSOs
  | RLiveRenderPasses => Client_GetLiveRenderPasses
  | RDisableTimestamp b => SendDisableTimestamp b
  end.

(** ** Properties *)

(** C30: what the layer's requests do, from the client to the layer. The server
    handles the client's message for a request with exactly the request's effect
    on the layer (the filter that the client configured, field by field, is
    enqueued for the frame boundary; the timestamps are switched; the lists change
    nothing) and one frame as its reply, and on that frame the client's
    operation returns the request's result and stays connected: for the lists, every
    live pipeline with its name and whether it blends, and every render pass with its
    name. Every message that is none of the four requests is handed to
    [BaseMessageHandler] and leaves the layer as it is. The connection is open and up,
    the reply fits into a frame, and the file store and the sockets do what
    [FileStoreLaws] says. *)
Theorem layer_requests {W1 W2 A : Type} `{FileStoreLaws W1} `{FileStoreLaws W2}
    (r : LayerRequest A) l cs (ws : W1) t c (w : W2) :
  IsOpen cs = true -> m_is_listening cs = false -> up (m_socket cs) ws ->
  online t c w -> sendable (request_reply r l) ->
  (exists ws', ServerMessageHandler_HandleMessage (Some (request_message r)) (l, (Some cs, ws))
       = (snd (request_meaning r l), (Some cs, ws')) /\
     up (m_socket cs) ws' /\
     outgoing (m_socket cs) ws' = outgoing (m_socket cs) ws ++ frame (request_reply r l)) /\
  answered (request_operation r) (request_message r) (request_reply r l)
    (Value (fst (request_meaning r l))) t c w /\
  (forall message, (forall B (other : LayerRequest B), message <> request_message other) ->
     ServerMessageHandler_HandleMessage (Some message) (l, (Some cs, ws))
     = (l, BaseMessageHandler_HandleMessage (Some message) (Some cs, ws))).
Proof.
  intros Ho Hl Hup Hon Hs. split_and!.
  - destruct (SendSocketMessage_step (request_reply r l) cs ws Hs Ho Hl Hup) as (ws' & E & Hup' & Hout & _).
    exists ws'. split; [|done]. destruct r; cbn [request_message request_meaning request_reply snd] in *;
      unfold ServerMessageHandler_HandleMessage, logged.
    + by rewrite filter_config_request, E.
    + by rewrite GetLivePSOs_live, E.
    + by rewrite GetLiveRenderPasses_live, E.
    + by rewrite E.
  - by destruct r; apply answered_transact.
  - intros message Hm. destruct message as [| | | | | | | | | | | |request| |[]| |[]| |request|]; try done.
    + by destruct (Hm _ (RSetFilter (filter_config request))); cbn; rewrite filter_request_config.
    + by destruct (Hm _ RLivePSOs).
    + by destruct (Hm _ RLiveRenderPasses).
    + destruct request as [b]. by destruct (Hm _ (RDisableTimestamp b)).
Qed.

Definition test_request : DrawcallFilterConfig :=
  mkDrawcallFilterConfig "Shadow" 3 0 0 100 true false false true false true.

Lemma layer_requests_witness :
  exists ws', ServerMessageHandler_HandleMessage
      (Some (MsgDrawcallFilterConfigRequest (filter_request test_request))) (new_layer, (Some pipe_conn, pipe_with [] 3))
    = (set_m_frame_boundary_tasks [UpdateFilterConfigTask test_request] new_layer, (Some pipe_conn, ws')) /\
    tx ws' = frame (DrawcallFilterConfigResponse mkEmpty).
Proof.
  destruct (layer_requests (W1 := Pipe) (W2 := Pipe) (RSetFilter test_request) new_layer pipe_conn (pipe_with [] 3)
    online_client pipe_conn (pipe_with [] 3)) as [(ws' & E & _ & Hout) _].
  - reflexivity.
  - reflexivity.
  - exact I.
  - repeat split.
  - split; [by vm_compute|]. intros E. by vm_compute in E.
  - exists ws'. split; [exact E|exact Hout].
Defined.
