(* ===== verification/Memory.v ===== *)
(** * Memory: the captured memory

    Models [MemoryAllocationInfo] and [MemoryManager] of
    [src/dive_core/pm4_capture_data.{h,cpp}]. A block's data pointer is the list
    of its bytes; [m_last_used_block_ptr], which points into the vector of blocks,
    is an index. The build without assertions is modelled ([DIVE_ASSERT] is
    empty then). Giving back the memory of dropped blocks is not modelled. *)

From S2P Require Import Prelude.
From Stdlib Require Import Sorting.Sorted.
From coqutil Require Import Byte.

#[local] Open Scope Z_scope.

(** ** Allocations *)

(** The fields of [MemoryAllocationData] that a lookup reads. *)
Record MemoryAllocationData := mkAllocation {
  m_gpu_virt_addr : Z;
  m_size : Z
}.

Inductive AllocationsType := kInternal | kGlobal.

Record MemoryAllocationInfo := mkAllocationInfo {
  m_internal_allocs : list MemoryAllocationData;
  m_global_allocs : list MemoryAllocationData
}.

Definition new_MemoryAllocationInfo : MemoryAllocationInfo := mkAllocationInfo [] [].

Definition contains_range (va_addr size : Z) (alloc_data : MemoryAllocationData) : bool :=
  (m_gpu_virt_addr alloc_data <=? va_addr) &&
  (wrap 64 (va_addr + size) <=? wrap 64 (m_gpu_virt_addr alloc_data + m_size alloc_data)).

Definition FindInternalAllocation (va_addr size : Z) (i : MemoryAllocationInfo) : option MemoryAllocationData :=
  List.find (contains_range va_addr size) (m_internal_allocs i).

Definition FindGlobalAllocation (va_addr size : Z) (i : MemoryAllocationInfo) : option MemoryAllocationData :=
  List.find (contains_range va_addr size) (m_global_allocs i).

Definition Info_AddMemoryAllocations (type : AllocationsType) (allocations : list MemoryAllocationData)
    (i : MemoryAllocationInfo) : MemoryAllocationInfo :=
  match type with
  | kInternal => mkAllocationInfo allocations (m_global_allocs i)
  | kGlobal => mkAllocationInfo (m_internal_allocs i) allocations
  end.

(** ** Blocks *)

Record MemoryBlock := mkBlock {
  m_va_addr : Z;
  m_submit_index : Z;
  m_data_size : Z;
  m_data_ptr : list byte
}.

Record MemoryManager := mkMemory {
  m_last_used_block_ptr : option nat;
  m_memory_blocks : list MemoryBlock;
  m_memory_allocations : MemoryAllocationInfo;
  m_same_submit_only : bool
}.

Definition new_MemoryManager : MemoryManager := mkMemory None [] new_MemoryAllocationInfo true.

Definition set_last_used p (m : MemoryManager) :=
  mkMemory p (m_memory_blocks m) (m_memory_allocations m) (m_same_submit_only m).
Definition set_blocks bs (m : MemoryManager) :=
  mkMemory (m_last_used_block_ptr m) bs (m_memory_allocations m) (m_same_submit_only m).
Definition set_allocations a (m : MemoryManager) :=
  mkMemory (m_last_used_block_ptr m) (m_memory_blocks m) a (m_same_submit_only m).
Definition set_same_submit_only b (m : MemoryManager) :=
  mkMemory (m_last_used_block_ptr m) (m_memory_blocks m) (m_memory_allocations m) b.

(** [data] is the [MemoryData]: its size and its bytes. *)
Definition AddMemoryBlock (submit_index va_addr : Z) (data : Z * list byte) (m : MemoryManager) : MemoryManager :=
  set_blocks (m_memory_blocks m ++ [mkBlock va_addr submit_index (fst data) (snd data)]) m.

Definition AddMemoryAllocations (type : AllocationsType) (allocations : list MemoryAllocationData)
    (m : MemoryManager) : MemoryManager :=
  set_allocations (Info_AddMemoryAllocations type allocations (m_memory_allocations m)) m.

(** ** Finalize *)

(** [std::stable_sort] with the comparison [lt]. *)
Fixpoint stable_insert {A} (lt : A -> A -> bool) (x : A) (l : list A) : list A :=
  match l with
  | [] => [x]
  | y :: l => if lt y x then y :: stable_insert lt x l else x :: y :: l
  end.

Definition stable_sort {A} (lt : A -> A -> bool) (l : list A) : list A :=
  foldr (stable_insert lt) [] l.

Definition block_lt (same_submit : bool) (lhs rhs : MemoryBlock) : bool :=
  if same_submit then
    if m_submit_index lhs =? m_submit_index rhs then m_va_addr lhs <? m_va_addr rhs
    else m_submit_index lhs <? m_submit_index rhs
  else m_va_addr lhs <? m_va_addr rhs.

(** The loop that drops overwritten blocks. [temp] is [temp_memory_blocks], last
    element first; [None]: [back()] of an empty vector. *)
Fixpoint drop_overwritten (blocks temp : list MemoryBlock) (prev_addr prev_submit prev_size : Z)
  : option (list MemoryBlock) :=
  match blocks with
  | [] => Some (rev temp)
  | memory_block :: blocks =>
      if negb (m_submit_index memory_block =? prev_submit) then
        drop_overwritten blocks (memory_block :: temp) (m_va_addr memory_block)
          (m_submit_index memory_block) (m_data_size memory_block)
      else if wrap 64 (prev_addr + prev_size) <=? m_va_addr memory_block then
        drop_overwritten blocks (memory_block :: temp) (m_va_addr memory_block) prev_submit
          (m_data_size memory_block)
      else
        match temp with
        | [] => None
        | back :: temp' =>
            drop_overwritten blocks
              (if m_data_size back <=? m_data_size memory_block then memory_block :: temp' else temp)
              (m_va_addr memory_block) prev_submit (m_data_size memory_block)
        end
  end.

Definition Finalize (same_submit_copy_only : bool) (m : MemoryManager) : option MemoryManager :=
  let m := set_same_submit_only same_submit_copy_only m in
  let m := set_blocks (stable_sort (block_lt same_submit_copy_only) (m_memory_blocks m)) m in
  if same_submit_copy_only then
    blocks ← drop_overwritten (m_memory_blocks m) [] 0 0 0;
    Some (set_blocks blocks m)
  else Some m.

(** ** Reading *)

Definition block_end (b : MemoryBlock) : Z := wrap 64 (m_va_addr b + m_data_size b).

Definition valid_submit (same_submit : bool) (submit_index : Z) (b : MemoryBlock) : bool :=
  if same_submit then submit_index =? m_submit_index b else true.

(** [memcpy] of [n] bytes from [src_offset] of the block to [dst_offset] of the
    buffer. *)
Definition copy_block (b : MemoryBlock) (src_offset dst_offset n : Z) (buffer : list byte) : list byte :=
  take (Z.to_nat dst_offset) buffer
  ++ take (Z.to_nat n) (drop (Z.to_nat src_offset) (m_data_ptr b))
  ++ drop (Z.to_nat dst_offset + Z.to_nat n) buffer.

(** The search through the blocks, from block [i - 1] down to the first. *)
Fixpoint retrieve_loop (i : nat) (m : MemoryManager) (submit_index va_addr size : Z)
    (amount_copied : Z) (buffer : list byte) : bool * list byte * MemoryManager :=
  match i with
  | O => (false, buffer, m)
  | S i =>
      match m_memory_blocks m !! i with
      | None => (false, buffer, m)
      | Some mem_block =>
          let end_addr := wrap 64 (va_addr + size) in
          let overlaps := (va_addr <? block_end mem_block) && (m_va_addr mem_block <? end_addr) in
          if valid_submit (m_same_submit_only m) submit_index mem_block && overlaps then
            let m := set_last_used (Some i) m in
            let max_start_addr := Z.max va_addr (m_va_addr mem_block) in
            let min_end_addr := Z.min (block_end mem_block) end_addr in
            let size_to_copy := min_end_addr - max_start_addr in
            let buffer := copy_block mem_block (max_start_addr - m_va_addr mem_block)
                            (max_start_addr - va_addr) size_to_copy buffer in
            let amount_copied := amount_copied + size_to_copy in
            if amount_copied =? size then (true, buffer, m)
            else retrieve_loop i m submit_index va_addr size amount_copied buffer
          else retrieve_loop i m submit_index va_addr size amount_copied buffer
      end
  end.

(** [RetrieveMemoryData] into [buffer], which is what the destination holds
    before; its length is the size. *)
Definition RetrieveMemoryData (submit_index va_addr : Z) (buffer : list byte) (m : MemoryManager)
  : bool * list byte * MemoryManager :=
  let size := Z.of_nat (length buffer) in
  let search := retrieve_loop (length (m_memory_blocks m)) m submit_index va_addr size 0 buffer in
  match m_last_used_block_ptr m ≫= fun i => m_memory_blocks m !! i with
  | None => search
  | Some mem_block =>
      let end_addr := wrap 64 (va_addr + size) in
      let encompasses := (m_va_addr mem_block <=? va_addr) && (end_addr <=? block_end mem_block) in
      if valid_submit (m_same_submit_only m) submit_index mem_block && encompasses then
        (true, copy_block mem_block (va_addr - m_va_addr mem_block) 0 size buffer, m)
      else search
  end.

(** [GetMemoryOfUnknownSizeViaCallback] with the callback's state [U]. The
    callback gets the data and its address. *)
Fixpoint memory_callback_loop {U} (blocks : list MemoryBlock) (same_submit : bool)
    (submit_index va_addr cur_addr : Z) (data_callback : list byte -> Z -> U -> bool * U) (u : U) : U :=
  match blocks with
  | [] => u
  | mem_block :: blocks =>
      let continue cur_addr u :=
        memory_callback_loop blocks same_submit submit_index va_addr cur_addr data_callback u in
      if valid_submit same_submit submit_index mem_block then
        if cur_addr =? va_addr then
          if (m_va_addr mem_block <=? va_addr) && (va_addr <? block_end mem_block) then
            let data := drop (Z.to_nat (va_addr - m_va_addr mem_block)) (m_data_ptr mem_block) in
            let '(more, u) := data_callback data va_addr u in
            if more then continue (block_end mem_block) u else u
          else continue cur_addr u
        else if cur_addr =? m_va_addr mem_block then
          let '(more, u) := data_callback (m_data_ptr mem_block) cur_addr u in
          if more then continue (block_end mem_block) u else u
        else u
      else continue cur_addr u
  end.

Definition GetMemoryOfUnknownSizeViaCallback {U} (submit_index va_addr : Z)
    (data_callback : list byte -> Z -> U -> bool * U) (m : MemoryManager) (u : U) : U :=
  memory_callback_loop (m_memory_blocks m) (m_same_submit_only m) submit_index va_addr va_addr
    data_callback u.

Fixpoint contiguous_loop (blocks : list MemoryBlock) (same_submit : bool)
    (submit_index va_addr cur_addr : Z) : Z :=
  match blocks with
  | [] => wrap 64 (cur_addr - va_addr)
  | mem_block :: blocks =>
      if valid_submit same_submit submit_index mem_block then
        if cur_addr =? va_addr then
          if (m_va_addr mem_block <=? va_addr) && (va_addr <? block_end mem_block)
          then contiguous_loop blocks same_submit submit_index va_addr (block_end mem_block)
          else contiguous_loop blocks same_submit submit_index va_addr cur_addr
        else if cur_addr =? m_va_addr mem_block
        then contiguous_loop blocks same_submit submit_index va_addr (block_end mem_block)
        else wrap 64 (cur_addr - va_addr)
      else contiguous_loop blocks same_submit submit_index va_addr cur_addr
  end.

Definition GetMaxContiguousSize (submit_index va_addr : Z) (m : MemoryManager) : Z :=
  contiguous_loop (m_memory_blocks m) (m_same_submit_only m) submit_index va_addr va_addr.

Definition IsValid (submit_index addr size : Z) (m : MemoryManager) : bool :=
  size <=? GetMaxContiguousSize submit_index addr m.

(** ** The abstract memory

    A finalized memory is a partial map from addresses to bytes, for each submit
    index. *)
Definition covers (same_submit : bool) (submit_index a : Z) (b : MemoryBlock) : bool :=
  valid_submit same_submit submit_index b && (m_va_addr b <=? a) && (a <? m_va_addr b + m_data_size b).

Definition mem_byte (submit_index a : Z) (m : MemoryManager) : option byte :=
  b ← List.find (covers (m_same_submit_only m) submit_index a) (m_memory_blocks m);
  m_data_ptr b !! Z.to_nat (a - m_va_addr b).

Record block_wf (b : MemoryBlock) : Prop := mkBlockWf {
  bw_addr : 0 <= m_va_addr b;
  bw_size : 0 <= m_data_size b;
  bw_end : m_va_addr b + m_data_size b < 2 ^ 64;
  bw_data : Z.of_nat (length (m_data_ptr b)) = m_data_size b
}.

(** In the order of the vector, blocks that a submit can see follow each other
    in memory without an overlap. *)
Definition follows (same_submit : bool) (b1 b2 : MemoryBlock) : Prop :=
  (same_submit = true -> m_submit_index b1 = m_submit_index b2) ->
  m_va_addr b1 + m_data_size b1 <= m_va_addr b2.

Record memory_ok (m : MemoryManager) : Prop := mkMemoryOk {
  mo_blocks : Forall block_wf (m_memory_blocks m);
  mo_sorted : StronglySorted (follows (m_same_submit_only m)) (m_memory_blocks m)
}.

Lemma block_end_eq b : block_wf b -> block_end b = m_va_addr b + m_data_size b.
Proof. intros [H1 H2 H3 _]. apply wrap_small. split; lia. Qed.

Lemma sorted_lookup {A} (R : A -> A -> Prop) (l : list A) i j x y :
  StronglySorted R l -> (i < j)%nat -> l !! i = Some x -> l !! j = Some y -> R x y.
Proof.
  intros Hl. revert i j. induction Hl as [|z l Hl IH Hz]; intros [|i] [|j] Hij Hx Hy;
    try lia; try done; simpl in *.
  - injection Hx as <-. rewrite List.Forall_forall in Hz. apply Hz.
    apply list_elem_of_In. by eapply list_elem_of_lookup_2.
  - apply (IH i j); [lia|done|done].
Qed.

Lemma valid_grouped ss submit b1 b2 :
  valid_submit ss submit b1 = true -> valid_submit ss submit b2 = true ->
  ss = true -> m_submit_index b1 = m_submit_index b2.
Proof. unfold valid_submit. intros H1 H2 ->. zbool. congruence. Qed.

Lemma covers_true ss submit a b :
  covers ss submit a b = true <->
  valid_submit ss submit b = true /\ m_va_addr b <= a < m_va_addr b + m_data_size b.
Proof. unfold covers. rewrite !andb_true_iff, Z.leb_le, Z.ltb_lt. tauto. Qed.

(** Only one block covers an address. *)
Lemma covers_unique m submit a i j b1 b2 :
  memory_ok m -> m_memory_blocks m !! i = Some b1 -> m_memory_blocks m !! j = Some b2 ->
  covers (m_same_submit_only m) submit a b1 = true ->
  covers (m_same_submit_only m) submit a b2 = true -> i = j.
Proof.
  intros [_ Hs] H1 H2 [Hv1 Ha1]%covers_true [Hv2 Ha2]%covers_true.
  destruct (Nat.lt_trichotomy i j) as [Hij|[->|Hij]]; [|done|]; exfalso.
  - pose proof (sorted_lookup _ _ i j b1 b2 Hs Hij H1 H2 (valid_grouped _ _ _ _ Hv1 Hv2)). lia.
  - pose proof (sorted_lookup _ _ j i b2 b1 Hs Hij H2 H1 (valid_grouped _ _ _ _ Hv2 Hv1)). lia.
Qed.

Lemma mem_byte_covered m submit a i b :
  memory_ok m -> m_memory_blocks m !! i = Some b ->
  covers (m_same_submit_only m) submit a b = true ->
  mem_byte submit a m = m_data_ptr b !! Z.to_nat (a - m_va_addr b).
Proof.
  intros Hm Hi Hc. unfold mem_byte.
  destruct (List.find _ _) as [b'|] eqn:E.
  - apply List.find_some in E as [Hin Hc']. apply list_elem_of_In, list_elem_of_lookup_1 in Hin as [j Hj].
    assert (j = i) as -> by (by eapply covers_unique). simplify_eq. done.
  - exfalso. pose proof (List.find_none _ _ E b) as Hn. rewrite Hn in Hc; [done|].
    apply list_elem_of_In. by eapply list_elem_of_lookup_2.
Qed.

Lemma mem_byte_None m submit a :
  (forall i b, m_memory_blocks m !! i = Some b -> covers (m_same_submit_only m) submit a b = false) ->
  mem_byte submit a m = None.
Proof.
  intros Hn. unfold mem_byte. destruct (List.find _ _) as [b|] eqn:E; [|done].
  apply List.find_some in E as [Hin Hc]. apply list_elem_of_In, list_elem_of_lookup_1 in Hin as [i Hi].
  by rewrite (Hn i b Hi) in Hc.
Qed.

Lemma covered_Some m submit a i b :
  memory_ok m -> m_memory_blocks m !! i = Some b ->
  covers (m_same_submit_only m) submit a b = true -> is_Some (mem_byte submit a m).
Proof.
  intros Hm Hi Hc. rewrite (mem_byte_covered m submit a i b Hm Hi Hc).
  apply covers_true in Hc as [_ Ha].
  assert (block_wf b) as [_ _ _ Hd] by (eapply Forall_lookup_1; [apply mo_blocks; done|done]).
  apply lookup_lt_is_Some. lia.
Qed.

Lemma mem_byte_Some m submit a :
  is_Some (mem_byte submit a m) ->
  exists i b, m_memory_blocks m !! i = Some b /\ covers (m_same_submit_only m) submit a b = true.
Proof.
  intros [x Hx]. unfold mem_byte in Hx. destruct (List.find _ _) as [b|] eqn:E; [|done].
  apply List.find_some in E as [Hin Hc]. apply list_elem_of_In, list_elem_of_lookup_1 in Hin as [i Hi].
  by exists i, b.
Qed.

(** ** Copies *)

Lemma copy_block_length b src dst n buffer :
  0 <= src -> 0 <= dst -> 0 <= n ->
  src + n <= Z.of_nat (length (m_data_ptr b)) -> dst + n <= Z.of_nat (length buffer) ->
  length (copy_block b src dst n buffer) = length buffer.
Proof.
  intros. unfold copy_block. rewrite !length_app, !length_take, !length_drop. lia.
Qed.

Lemma copy_block_lookup b src dst n buffer (k : nat) :
  0 <= src -> 0 <= dst -> 0 <= n ->
  src + n <= Z.of_nat (length (m_data_ptr b)) -> dst + n <= Z.of_nat (length buffer) ->
  copy_block b src dst n buffer !! k =
  if decide (dst <= Z.of_nat k < dst + n)
  then m_data_ptr b !! Z.to_nat (src + (Z.of_nat k - dst)) else buffer !! k.
Proof.
  intros Hs Hd Hn Hb Hl. unfold copy_block.
  destruct (decide _) as [Hk|Hk].
  - rewrite lookup_app_r; rewrite length_take; [|lia].
    rewrite lookup_app_l by (rewrite length_take, length_drop; lia).
    rewrite lookup_take_lt, lookup_drop by lia. f_equal. lia.
  - destruct (decide (Z.of_nat k < dst)).
    + rewrite lookup_app_l by (rewrite length_take; lia). rewrite lookup_take_lt by lia. done.
    + rewrite lookup_app_r; rewrite length_take; [|lia].
      rewrite lookup_app_r; rewrite length_take, length_drop; [|lia].
      rewrite lookup_drop. f_equal. lia.
Qed.

(** ** The search reads the abstract memory *)

Definition zrange (lo n : Z) : gset Z := list_to_set (seqZ lo n).

Lemma elem_of_zrange lo n a : a ∈ zrange lo n <-> lo <= a < lo + n.
Proof. unfold zrange. rewrite elem_of_list_to_set, elem_of_seqZ. lia. Qed.

Lemma size_zrange lo n : 0 <= n -> Z.of_nat (size (zrange lo n)) = n.
Proof.
  intros Hn. unfold zrange. rewrite size_list_to_set by apply NoDup_seqZ.
  rewrite length_seqZ. lia.
Qed.

Section Search.
Context (m : MemoryManager) (submit va : Z) (buffer : list byte).
Context (Hm : memory_ok m) (Hva : 0 <= va).
Let n := Z.of_nat (length buffer).
Context (Hend : va + n < 2 ^ 64).

(** What the search has done when the blocks from [i] on are behind it; [C] are
    the addresses it has copied. *)
Record searched (i : nat) (C : gset Z) (copied : Z) (buf : list byte) : Prop := mkSearched {
  se_length : length buf = length buffer;
  se_copied : Z.of_nat (size C) = copied;
  se_covered : forall a, a ∈ C <-> va <= a < va + n /\
    exists j b, (i <= j)%nat /\ m_memory_blocks m !! j = Some b /\
      covers (m_same_submit_only m) submit a b = true;
  se_bytes : forall k, (k < length buffer)%nat ->
    buf !! k = if decide (va + Z.of_nat k ∈ C) then mem_byte submit (va + Z.of_nat k) m else buffer !! k
}.

Lemma end_addr_eq : wrap 64 (va + n) = va + n.
Proof. apply wrap_small. split; lia. Qed.

Lemma searched_start : searched (length (m_memory_blocks m)) ∅ 0 buffer.
Proof.
  split; [done|done| |].
  - intros a. split; [set_solver|]. intros (_ & j & b & Hj & Hb & _).
    apply lookup_lt_Some in Hb. lia.
  - intros k Hk. rewrite decide_False by set_solver. done.
Qed.

Lemma searched_skip i C copied buf b :
  searched (S i) C copied buf -> m_memory_blocks m !! i = Some b ->
  (forall a, va <= a < va + n -> covers (m_same_submit_only m) submit a b = false) ->
  searched i C copied buf.
Proof.
  intros [Hl Hc Hin Hb] Hi Hno. split; [done|done| |done].
  intros a. rewrite Hin. split; intros (Ha & j & b' & Hj & Hb' & Hcov); split; try done.
  - exists j, b'. split; [lia|done].
  - exists j, b'. split; [|done]. destruct (decide (j = i)) as [->|]; [|lia].
    simplify_eq. by rewrite Hno in Hcov.
Qed.

Lemma searched_copy i C copied buf b lo hi :
  searched (S i) C copied buf -> m_memory_blocks m !! i = Some b ->
  valid_submit (m_same_submit_only m) submit b = true ->
  lo = Z.max va (m_va_addr b) -> hi = Z.min (m_va_addr b + m_data_size b) (va + n) -> lo <= hi ->
  searched i (C ∪ zrange lo (hi - lo)) (copied + (hi - lo))
    (copy_block b (lo - m_va_addr b) (lo - va) (hi - lo) buf).
Proof.
  intros [Hl Hc Hin Hb] Hi Hv Hlo Hhi Hlt.
  assert (block_wf b) as [_ _ _ Hd] by (eapply Forall_lookup_1; [apply mo_blocks; done|done]).
  assert (forall a, a ∈ zrange lo (hi - lo) <->
    va <= a < va + n /\ covers (m_same_submit_only m) submit a b = true) as Hz.
  { intros a. rewrite elem_of_zrange, covers_true. intuition lia. }
  assert (C ## zrange lo (hi - lo)) as Hdisj.
  { intros a (_ & j & b' & Hj & Hb' & Hcov)%Hin [_ Hcov']%Hz.
    assert (j = i) by (by eapply covers_unique). lia. }
  split.
  - rewrite copy_block_length; [done|lia..].
  - rewrite size_union, Nat2Z.inj_add, size_zrange by (done || lia). lia.
  - intros a. rewrite elem_of_union, Hin, Hz. split.
    + intros [(Ha & j & b' & Hj & Hb' & Hcov)|[Ha Hcov]]; (split; [done|]).
      * exists j, b'. split; [lia|done].
      * by exists i, b.
    + intros (Ha & j & b' & Hj & Hb' & Hcov). destruct (decide (j = i)) as [->|].
      * simplify_eq. by right.
      * left. split; [done|]. exists j, b'. split; [lia|done].
  - intros k Hk. rewrite copy_block_lookup by lia.
    destruct (decide (lo - va <= Z.of_nat k < _)) as [Hr|Hr].
    + rewrite decide_True by (rewrite elem_of_union, elem_of_zrange; right; lia).
      rewrite (mem_byte_covered m submit _ i b Hm Hi); [f_equal; lia|].
      apply Hz. rewrite elem_of_zrange. lia.
    + rewrite Hb by done. destruct (decide (va + Z.of_nat k ∈ C)) as [Hk'|Hk'].
      * rewrite decide_True by set_solver. done.
      * rewrite decide_False; [done|]. rewrite elem_of_union, elem_of_zrange. intros [?|?]; [done|lia].
Qed.

(** What a retrieval promises. *)
Definition retrieved (ok : bool) (buf : list byte) : Prop :=
  length buf = length buffer /\
  (ok = true <-> forall a, va <= a < va + n -> is_Some (mem_byte submit a m)) /\
  forall k, (k < length buffer)%nat ->
    buf !! k = match mem_byte submit (va + Z.of_nat k) m with Some x => Some x | None => buffer !! k end.

Lemma searched_bytes i C copied buf k :
  searched i C copied buf -> (i = O \/ copied = n) -> (k < length buffer)%nat ->
  (va + Z.of_nat k ∈ C <-> is_Some (mem_byte submit (va + Z.of_nat k) m)).
Proof.
  intros [Hl Hc Hin Hb] Hend' Hk. split.
  - intros (_ & j & b & _ & Hj & Hcov)%Hin. by eapply covered_Some.
  - intros (j & b & Hj & Hcov)%mem_byte_Some. destruct Hend' as [->|Hall].
    + apply Hin. split; [lia|]. exists j, b. split; [lia|done].
    + assert (C ⊆ zrange va n) as Hsub.
      { intros a (Ha & _)%Hin. by apply elem_of_zrange. }
      assert (C ≡ zrange va n) as ->.
      { apply set_subseteq_size_equiv; [done|]. apply Nat2Z.inj_le. rewrite size_zrange; lia. }
      apply elem_of_zrange. lia.
Qed.

Lemma searched_done i C copied buf ok :
  searched i C copied buf -> (ok = true /\ copied = n \/ ok = false /\ i = O /\ copied <> n) ->
  retrieved ok buf.
Proof.
  intros Hs Hok.
  assert (i = O \/ copied = n) as Hend' by tauto.
  pose proof (fun k => searched_bytes i C copied buf k Hs Hend') as Hk.
  destruct Hs as [Hl Hc Hin Hb]. split; [done|]. split.
  - split.
    + intros -> a Ha. replace a with (va + Z.of_nat (Z.to_nat (a - va))) by lia.
      apply Hk; [lia|]. destruct Hok as [[_ ->]|(? & _)]; [|done].
      assert (C ≡ zrange va n) as ->.
      { apply set_subseteq_size_equiv; [intros x (? & _)%Hin; by apply elem_of_zrange|].
        apply Nat2Z.inj_le. rewrite size_zrange; lia. }
      apply elem_of_zrange. lia.
    + intros Hall. destruct Hok as [[-> _]|(_ & -> & Hne)]; [done|]. destruct Hne.
      rewrite <- Hc, <- (size_zrange va n) by lia. f_equal. apply set_size_proper.
      intros a. rewrite elem_of_zrange. split.
      * by intros (Ha & _)%Hin.
      * intros Ha. apply Hin. split; [done|]. apply Hall in Ha as (j & b & Hj & Hcov)%mem_byte_Some.
        exists j, b. split; [lia|done].
  - intros k Hk'. rewrite Hb by done. destruct (decide _) as [HC|HC].
    + apply Hk in HC as [x Hx]; [|done]. by rewrite Hx.
    + destruct (mem_byte submit _ m) as [x|] eqn:E; [|done]. exfalso. apply HC, Hk; [done|]. by eexists.
Qed.

Lemma retrieve_loop_spec i m0 C copied buf :
  0 < n -> (i <= length (m_memory_blocks m))%nat ->
  (exists p, m0 = set_last_used p m) -> searched i C copied buf -> copied <> n ->
  exists ok buf' p,
    retrieve_loop i m0 submit va n copied buf = (ok, buf', set_last_used p m) /\ retrieved ok buf'.
Proof.
  intros Hn. revert m0 C copied buf. induction i as [|i IH]; intros m0 C copied buf Hi [p ->] Hs Hne; cbn [retrieve_loop].
  { exists false, buf, p. split; [done|]. eapply searched_done; [exact Hs|]. by right. }
  cbn [m_memory_blocks m_same_submit_only set_last_used].
  destruct (lookup_lt_is_Some_2 (m_memory_blocks m) i) as [b Hb]; [lia|]. rewrite Hb.
  assert (block_wf b) as Hwf by (eapply Forall_lookup_1; [apply mo_blocks; done|done]).
  rewrite end_addr_eq, block_end_eq by done.
  destruct (valid_submit _ _ _ && _) eqn:E.
  - apply andb_true_iff in E as [Hv Ho]. zbool.
    pose proof (bw_size b Hwf).
    pose proof (searched_copy i C copied buf b _ _ Hs Hb Hv eq_refl eq_refl ltac:(lia)) as Hs'.
    destruct (Z.eqb_spec (copied + (Z.min (m_va_addr b + m_data_size b) (va + n) - Z.max va (m_va_addr b))) n)
      as [Heq|Hne'].
    + eexists true, _, (Some i). split; [done|]. eapply searched_done; [exact Hs'|]. by left.
    + eapply IH; [lia|by eexists|exact Hs'|done].
  - eapply IH; [lia|by eexists| |done]. eapply searched_skip; [exact Hs|exact Hb|].
    intros a Ha. apply not_true_is_false. intros [Hv Hc]%covers_true. rewrite Hv in E. zbool. cbn in E.
    apply andb_false_iff in E as [E|E]; zbool; lia.
Qed.
End Search.

(** Whatever is asked for, the blocks stay. *)
Lemma retrieve_loop_keeps m i m0 submit va size copied buf : (exists p, m0 = set_last_used p m) ->
  exists ok buf' p, retrieve_loop i m0 submit va size copied buf = (ok, buf', set_last_used p m).
Proof.
  revert m0 copied buf. induction i as [|i IH]; intros m0 copied buf [p ->]; cbn [retrieve_loop]; [by eexists _, _, _|].
  destruct (m_memory_blocks _ !! i); [|by eexists _, _, _].
  destruct (_ && _); [|by apply IH; eexists]. destruct (_ =? _); [by eexists _, _, (Some i)|]. by apply IH; exists (Some i).
Qed.

Lemma RetrieveMemoryData_keeps m submit va buffer :
  exists ok buf p, RetrieveMemoryData submit va buffer m = (ok, buf, set_last_used p m).
Proof.
  assert (m = set_last_used (m_last_used_block_ptr m) m) as Em by by destruct m.
  destruct (retrieve_loop_keeps m (length (m_memory_blocks m)) m submit va (Z.of_nat (length buffer)) 0 buffer)
    as (ok & buf & p & E); [by eexists|].
  unfold RetrieveMemoryData. destruct (_ ≫= _) as [b|]; [|by exists ok, buf, p].
  cbv zeta. destruct (_ && _); [|by exists ok, buf, p]. eexists true, _, _. by rewrite <- Em.
Qed.

Lemma retrieve_cached b submit va buffer m i :
  memory_ok m -> 0 <= va -> m_memory_blocks m !! i = Some b ->
  valid_submit (m_same_submit_only m) submit b = true ->
  m_va_addr b <= va -> va + Z.of_nat (length buffer) <= m_va_addr b + m_data_size b ->
  retrieved m submit va buffer true
    (copy_block b (va - m_va_addr b) 0 (Z.of_nat (length buffer)) buffer).
Proof.
  intros Hm Hva Hi Hv Hlo Hhi.
  assert (block_wf b) as [_ _ _ Hd] by (eapply Forall_lookup_1; [apply mo_blocks; done|done]).
  assert (forall a, va <= a < va + Z.of_nat (length buffer) ->
    covers (m_same_submit_only m) submit a b = true) as Hc.
  { intros a Ha. apply covers_true. split; [done|lia]. }
  split; [apply copy_block_length; lia|]. split.
  - split; [|done]. intros _ a Ha. eapply covered_Some; [done|done|by apply Hc].
  - intros k Hk. rewrite copy_block_lookup by lia. rewrite decide_True by lia.
    rewrite (mem_byte_covered m submit _ i b Hm Hi) by (apply Hc; lia).
    replace (va + Z.of_nat k - m_va_addr b) with (va - m_va_addr b + (Z.of_nat k - 0)) by lia.
    destruct (lookup_lt_is_Some_2 (m_data_ptr b) (Z.to_nat (va - m_va_addr b + (Z.of_nat k - 0)))) as [x ->];
      [lia|done].
Qed.

Lemma RetrieveMemoryData_spec m submit va buffer :
  memory_ok m -> 0 <= va -> (0 < length buffer)%nat -> va + Z.of_nat (length buffer) < 2 ^ 64 ->
  exists ok buf p,
    RetrieveMemoryData submit va buffer m = (ok, buf, set_last_used p m) /\ retrieved m submit va buffer ok buf.
Proof.
  intros Hm Hva Hn Hend.
  assert (exists ok buf p,
    retrieve_loop (length (m_memory_blocks m)) m submit va (Z.of_nat (length buffer)) 0 buffer
      = (ok, buf, set_last_used p m) /\ retrieved m submit va buffer ok buf) as Hsearch.
  { apply (retrieve_loop_spec m submit va buffer Hm Hva Hend _ m ∅ 0 buffer); [lia|done| | |lia].
    - exists (m_last_used_block_ptr m). by destruct m.
    - by apply searched_start. }
  unfold RetrieveMemoryData. destruct (m_last_used_block_ptr m) as [i|]; cbn [mbind option_bind]; [|done].
  destruct (m_memory_blocks m !! i) as [b|] eqn:Hi; [|done].
  assert (block_wf b) as Hwf by (eapply Forall_lookup_1; [apply mo_blocks; done|done]).
  rewrite (end_addr_eq va buffer Hva Hend), block_end_eq by done.
  destruct (valid_submit _ _ _ && _) eqn:E; [|done]. zbool.
  eexists true, _, (m_last_used_block_ptr m). split; [by destruct m|].
  by eapply retrieve_cached.
Qed.

(** ** Contiguous memory *)

(** The blocks that a submit can see. *)
Definition visible (m : MemoryManager) (submit : Z) : list MemoryBlock :=
  filter (fun b => valid_submit (m_same_submit_only m) submit b = true) (m_memory_blocks m).

Lemma contiguous_visible ss submit va cur bs :
  contiguous_loop bs ss submit va cur
  = contiguous_loop (filter (fun b => valid_submit ss submit b = true) bs) ss submit va cur.
Proof.
  revert cur. induction bs as [|b bs IH]; intros cur; [done|]. rewrite filter_cons.
  destruct (decide _) as [Hv|Hv]; cbn [contiguous_loop].
  - rewrite Hv. by rewrite !IH.
  - by rewrite (not_true_is_false _ Hv).
Qed.

Lemma callback_visible {U} ss submit va cur cb (u : U) bs :
  memory_callback_loop bs ss submit va cur cb u
  = memory_callback_loop (filter (fun b => valid_submit ss submit b = true) bs) ss submit va cur cb u.
Proof.
  revert cur u. induction bs as [|b bs IH]; intros cur u; [done|]. rewrite filter_cons.
  destruct (decide _) as [Hv|Hv]; cbn [memory_callback_loop].
  - rewrite Hv. destruct (cb _ va u) as [? ?], (cb _ cur u) as [? ?]. by rewrite !IH.
  - by rewrite (not_true_is_false _ Hv).
Qed.

Definition before (b1 b2 : MemoryBlock) : Prop := m_va_addr b1 + m_data_size b1 <= m_va_addr b2.

Definition holds_at (bs : list MemoryBlock) (a : Z) (x : byte) : Prop :=
  exists b, b ∈ bs /\ m_va_addr b <= a < m_va_addr b + m_data_size b /\
    m_data_ptr b !! Z.to_nat (a - m_va_addr b) = Some x.

(** [d] is what [bs] hold from [lo] on, up to an address they do not cover. *)
Definition holds_run (bs : list MemoryBlock) (lo : Z) (d : list byte) : Prop :=
  (forall k x, d !! k = Some x -> holds_at bs (lo + Z.of_nat k) x) /\
  (forall b, b ∈ bs -> ~ m_va_addr b <= lo + Z.of_nat (length d) < m_va_addr b + m_data_size b).

(** A callback that collects the data it gets. *)
Definition collect (data : list byte) (va : Z) (u : list byte) : bool * list byte := (true, u ++ data).

Lemma holds_run_nil bs lo :
  (forall b, b ∈ bs -> ~ m_va_addr b <= lo < m_va_addr b + m_data_size b) -> holds_run bs lo [].
Proof. intros Hb. split; [done|]. cbn. by rewrite Z.add_0_r. Qed.

Lemma holds_run_skip b bs lo d :
  ~ m_va_addr b <= lo + Z.of_nat (length d) < m_va_addr b + m_data_size b ->
  holds_run bs lo d -> holds_run (b :: bs) lo d.
Proof.
  intros Hb [Hd Hn]. split.
  - intros k x Hk. destruct (Hd k x Hk) as (b' & Hb' & H). exists b'. split; [by right|done].
  - intros b' [->|Hb']%elem_of_cons; [done|by apply Hn].
Qed.

(** The data of a block from [lo] on, then what follows at its end. *)
Lemma holds_run_block b bs lo d :
  block_wf b -> m_va_addr b <= lo <= m_va_addr b + m_data_size b ->
  holds_run bs (m_va_addr b + m_data_size b) d ->
  holds_run (b :: bs) lo (drop (Z.to_nat (lo - m_va_addr b)) (m_data_ptr b) ++ d).
Proof.
  intros [Ha Hs He Hl] Hlo [Hd Hn]. split.
  - intros k x Hk. rewrite lookup_app in Hk. rewrite lookup_drop in Hk.
    destruct (m_data_ptr b !! _) as [y|] eqn:Ey.
    + injection Hk as <-. exists b. split; [by left|]. apply lookup_lt_Some in Ey as Hlt.
      split; [lia|]. rewrite <- Ey. f_equal. lia.
    + apply lookup_ge_None in Ey. rewrite length_drop in Hk.
      destruct (Hd _ _ Hk) as (b' & Hb' & Hr & Hx). exists b'. split; [by right|].
      replace (lo + Z.of_nat k) with
        (m_va_addr b + m_data_size b + Z.of_nat (k - (length (m_data_ptr b) - Z.to_nat (lo - m_va_addr b)))) by lia.
      done.
  - rewrite length_app, length_drop.
    replace (lo + _) with (m_va_addr b + m_data_size b + Z.of_nat (length d)) by lia.
    intros b' [->|Hb']%elem_of_cons; [lia|by apply Hn].
Qed.

Section Contiguous.
Context (ss : bool) (submit va : Z).
Implicit Types (bs : list MemoryBlock) (cur : Z) (u d : list byte).

Definition run_from bs cur u : list byte * Z :=
  (memory_callback_loop bs ss submit va cur collect u, contiguous_loop bs ss submit va cur).

Lemma continued_run bs cur u :
  Forall block_wf bs -> StronglySorted before bs -> Forall (fun b => valid_submit ss submit b = true) bs ->
  0 <= va < cur -> cur < 2 ^ 64 -> Forall (fun b => cur <= m_va_addr b) bs ->
  exists d, holds_run bs cur d /\ run_from bs cur u = (u ++ d, cur + Z.of_nat (length d) - va).
Proof.
  revert cur u. induction bs as [|b bs IH]; intros cur u Hwf Hs Hv Hva Hcur Hge; cbn.
  - exists []. rewrite app_nil_r. split; [split; [done|set_solver]|].
    unfold run_from. cbn. rewrite Z.add_0_r, wrap_small by (split; lia). done.
  - apply Forall_cons in Hwf as [Hb Hwf]. apply Forall_cons in Hv as [Hvb Hv].
    apply Forall_cons in Hge as [Hgb Hge]. apply StronglySorted_inv in Hs as [Hs Hbs].
    unfold run_from. cbn [memory_callback_loop contiguous_loop]. rewrite Hvb.
    destruct (Z.eqb_spec cur va) as [|_]; [lia|]. destruct (Z.eqb_spec cur (m_va_addr b)) as [->|Hne].
    + cbn [collect]. rewrite block_end_eq by done.
      destruct Hb as [Ha Hsz He Hl].
      destruct (IH (m_va_addr b + m_data_size b) (u ++ m_data_ptr b)) as (d & Hd & E); [done..|lia|done| |].
      { rewrite List.Forall_forall in Hbs. apply Forall_forall. intros b' Hb'. apply Hbs.
        by apply list_elem_of_In. }
      unfold run_from in E. rewrite E. exists (m_data_ptr b ++ d). split.
      * replace (m_data_ptr b) with (drop (Z.to_nat (m_va_addr b - m_va_addr b)) (m_data_ptr b))
          by (by rewrite Z.sub_diag).
        apply holds_run_block; [done|lia|done].
      * rewrite app_assoc, length_app. f_equal. lia.
    + exists []. rewrite app_nil_r. cbn. rewrite Z.add_0_r, wrap_small by (split; lia). split; [|done].
      apply holds_run_nil. intros b' [->|Hb']%elem_of_cons; [lia|].
      rewrite List.Forall_forall in Hbs. pose proof (Hbs b' (proj1 (list_elem_of_In _ _) Hb')) as Hbb.
      unfold before in Hbb. destruct Hb. lia.
Qed.

Lemma first_run bs u :
  Forall block_wf bs -> StronglySorted before bs -> Forall (fun b => valid_submit ss submit b = true) bs ->
  0 <= va < 2 ^ 64 ->
  exists d, holds_run bs va d /\ run_from bs va u = (u ++ d, Z.of_nat (length d)).
Proof.
  revert u. induction bs as [|b bs IH]; intros u Hwf Hs Hv Hva.
  - exists []. rewrite app_nil_r. split; [split; [done|set_solver]|].
    unfold run_from. cbn. by rewrite Z.sub_diag.
  - apply Forall_cons in Hwf as [Hb Hwf]. apply Forall_cons in Hv as [Hvb Hv].
    apply StronglySorted_inv in Hs as [Hs Hbs].
    unfold run_from. cbn [memory_callback_loop contiguous_loop]. rewrite Hvb, Z.eqb_refl, block_end_eq by done.
    rewrite List.Forall_forall in Hbs.
    destruct (_ && _) eqn:E.
    + zbool. cbn [collect].
      destruct (continued_run bs (m_va_addr b + m_data_size b)
        (u ++ drop (Z.to_nat (va - m_va_addr b)) (m_data_ptr b))) as (d & Hd & E); try done.
      * lia.
      * apply Hb.
      * apply Forall_forall. intros b' Hb'. by apply Hbs, list_elem_of_In.
      * unfold run_from in E. rewrite E. eexists. split; [apply holds_run_block; [done|lia|exact Hd]|].
        rewrite app_assoc, length_app, length_drop. f_equal. destruct Hb. lia.
    + destruct (IH u) as (d & Hd & E'); [done..|]. unfold run_from in E'. rewrite E'.
      exists d. split; [|done]. apply holds_run_skip; [|done].
      intros [H1 H2]. destruct d as [|x d].
      * cbn in H1, H2. apply andb_false_iff in E as [E|E]; zbool; lia.
      * destruct Hd as [Hd _].
        destruct (lookup_lt_is_Some_2 (x :: d) (length d)) as [y Hy]; [cbn; lia|].
        destruct (Hd _ _ Hy) as (b2 & Hb2 & Hr2 & _).
        pose proof (Hbs b2 (proj1 (list_elem_of_In _ _) Hb2)) as Hbb. unfold before in Hbb. cbn in H1, H2. lia.
Qed.
End Contiguous.

Lemma visible_sorted m submit : memory_ok m -> StronglySorted before (visible m submit).
Proof.
  intros [_ Hs]. unfold visible. revert Hs. generalize (m_memory_blocks m) as bs.
  induction bs as [|b bs IH]; intros Hs; [constructor|].
  apply StronglySorted_inv in Hs as [Hs Hb]. rewrite filter_cons.
  destruct (decide _) as [Hv|_]; [|by apply IH]. constructor; [by apply IH|].
  rewrite List.Forall_forall in *. intros b' [Hv' Hb']%list_elem_of_In%list_elem_of_filter.
  apply Hb; [by apply list_elem_of_In|]. by eapply valid_grouped.
Qed.

Lemma holds_at_mem_byte m submit a x :
  memory_ok m -> holds_at (visible m submit) a x -> mem_byte submit a m = Some x.
Proof.
  intros Hm (b & [Hv Hb]%list_elem_of_filter & Hr & Hx).
  apply list_elem_of_lookup_1 in Hb as [i Hi].
  rewrite (mem_byte_covered m submit a i b Hm Hi); [done|]. by apply covers_true.
Qed.

Lemma holds_run_mem_byte m submit va d :
  memory_ok m -> holds_run (visible m submit) va d ->
  (forall k, (k < length d)%nat -> d !! k = mem_byte submit (va + Z.of_nat k) m) /\
  mem_byte submit (va + Z.of_nat (length d)) m = None.
Proof.
  intros Hm [Hd Hn]. split.
  - intros k Hk. destruct (lookup_lt_is_Some_2 d k Hk) as [x Hx]. rewrite Hx. symmetry.
    apply holds_at_mem_byte; [done|by apply Hd].
  - apply mem_byte_None. intros i b Hb. apply not_true_is_false. intros [Hv Hr]%covers_true.
    apply (Hn b); [|done]. apply list_elem_of_filter. split; [done|]. by eapply list_elem_of_lookup_2.
Qed.

Lemma contiguous_run m submit va :
  memory_ok m -> 0 <= va < 2 ^ 64 ->
  exists d, holds_run (visible m submit) va d /\
    GetMaxContiguousSize submit va m = Z.of_nat (length d) /\
    GetMemoryOfUnknownSizeViaCallback submit va collect m [] = d.
Proof.
  intros Hm Hva.
  destruct (first_run (m_same_submit_only m) submit va (visible m submit) []) as (d & Hd & E);
    [|by apply visible_sorted| |done|].
  - apply Forall_forall. intros b [_ Hb]%list_elem_of_filter.
    by apply (proj1 (Forall_forall _ _) (mo_blocks m Hm)).
  - apply Forall_forall. by intros b [Hv _]%list_elem_of_filter.
  - exists d. injection E as E1 E2. split; [done|].
    unfold GetMaxContiguousSize, GetMemoryOfUnknownSizeViaCallback.
    rewrite contiguous_visible, callback_visible. by split.
Qed.

(** ** Finalize *)

Section StableSort.
Context {A : Type} (lt : A -> A -> bool).
Implicit Types (x y : A) (l : list A).

Lemma stable_insert_perm x l : stable_insert lt x l ≡ₚ x :: l.
Proof.
  induction l as [|y l IH]; [done|]. cbn. destruct (lt y x); [|done]. rewrite IH. apply Permutation_swap.
Qed.

Lemma stable_sort_cons x l : stable_sort lt (x :: l) = stable_insert lt x (stable_sort lt l).
Proof. done. Qed.

Lemma stable_sort_perm l : stable_sort lt l ≡ₚ l.
Proof. induction l as [|x l IH]; [done|]. cbn. by rewrite stable_insert_perm, IH. Qed.

(** Sorting preserves a symmetric relation between all pairs. *)
Lemma stable_sort_pairs (R : A -> A -> Prop) l :
  (forall x y, R x y -> R y x) -> StronglySorted R l -> StronglySorted R (stable_sort lt l).
Proof.
  intros HR. induction 1 as [|x l Hl IH Hx]; [constructor|]. rewrite stable_sort_cons.
  assert (Forall (R x) (stable_sort lt l)) as Hx' by (by rewrite stable_sort_perm).
  clear Hx Hl. revert IH Hx'. generalize (stable_sort lt l) as k. induction k as [|y k IHk]; intros Hk Hx.
  - cbn. constructor; constructor.
  - apply StronglySorted_inv in Hk as [Hk Hy]. apply Forall_cons in Hx as [Hxy Hx]. cbn.
    destruct (lt y x).
    + constructor; [by apply IHk|]. rewrite stable_insert_perm. constructor; [by apply HR|done].
    + constructor; [by constructor|by constructor].
Qed.

Context (lt_trans : forall x y z, lt x y = true -> lt y z = true -> lt x z = true).
Context (nlt_trans : forall x y z, lt y x = false -> lt z y = false -> lt z x = false).
Context (lt_asym : forall x y, lt x y = true -> lt y x = false).

Definition not_after x y : Prop := lt y x = false.

Lemma stable_sort_sorted l : StronglySorted not_after (stable_sort lt l).
Proof.
  induction l as [|x l IH]; [constructor|]. rewrite stable_sort_cons. revert IH. generalize (stable_sort lt l) as k.
  induction k as [|y k IHk]; intros Hk; [cbn; constructor; constructor|].
  apply StronglySorted_inv in Hk as [Hk Hy]. cbn. destruct (lt y x) eqn:E.
  - constructor; [by apply IHk|]. rewrite stable_insert_perm. constructor; [|done].
    by apply lt_asym.
  - constructor; [by constructor|]. constructor; [done|].
    eapply Forall_impl; [exact Hy|]. intros z Hz. unfold not_after in *. by eapply nlt_trans.
Qed.

(** Elements that are equivalent in the order keep their places. *)
Lemma stable_sort_filter (P : A -> Prop) `{forall x, Decision (P x)} l :
  (forall x y, P x -> P y -> lt y x = false) ->
  filter P (stable_sort lt l) = filter P l.
Proof.
  intros HP. induction l as [|x l IH]; [done|]. rewrite stable_sort_cons.
  assert (forall k, filter P (stable_insert lt x k) = filter P (x :: k)) as Hins.
  { induction k as [|y k IHk]; [done|]. cbn [stable_insert]. destruct (lt y x) eqn:E; [|done].
    rewrite filter_cons, IHk, !filter_cons.
    destruct (decide (P x)), (decide (P y)); try done. rewrite HP in E; done. }
  rewrite Hins, !filter_cons, IH. done.
Qed.
End StableSort.

Lemma block_lt_trans ss x y z : block_lt ss x y = true -> block_lt ss y z = true -> block_lt ss x z = true.
Proof.
  unfold block_lt. destruct ss; [|rewrite !Z.ltb_lt; lia].
  destruct (Z.eqb_spec (m_submit_index x) (m_submit_index y)), (Z.eqb_spec (m_submit_index y) (m_submit_index z)),
    (Z.eqb_spec (m_submit_index x) (m_submit_index z)); rewrite !Z.ltb_lt; lia.
Qed.

Lemma block_nlt_trans ss x y z : block_lt ss y x = false -> block_lt ss z y = false -> block_lt ss z x = false.
Proof.
  unfold block_lt. destruct ss; [|rewrite !Z.ltb_ge; lia].
  destruct (Z.eqb_spec (m_submit_index y) (m_submit_index x)), (Z.eqb_spec (m_submit_index z) (m_submit_index y)),
    (Z.eqb_spec (m_submit_index z) (m_submit_index x)); rewrite !Z.ltb_ge; lia.
Qed.

Lemma block_lt_asym ss x y : block_lt ss x y = true -> block_lt ss y x = false.
Proof.
  unfold block_lt. destruct ss; [|rewrite Z.ltb_lt, Z.ltb_ge; lia].
  destruct (Z.eqb_spec (m_submit_index x) (m_submit_index y)), (Z.eqb_spec (m_submit_index y) (m_submit_index x));
    rewrite Z.ltb_lt, Z.ltb_ge; lia.
Qed.

(** *** The blocks that survive *)

Definition same_start (b1 b2 : MemoryBlock) : Prop :=
  m_submit_index b1 = m_submit_index b2 /\ m_va_addr b1 = m_va_addr b2.

#[global] Instance same_start_dec b1 b2 : Decision (same_start b1 b2).
Proof. unfold same_start. apply _. Defined.

(** Of the blocks with one start the largest survives, of several largest the
    last. *)
Fixpoint winners (l : list MemoryBlock) : list MemoryBlock :=
  match l with
  | [] => []
  | b :: l =>
      match winners l with
      | w :: ws =>
          if decide (same_start b w) then
            if m_data_size b <=? m_data_size w then w :: ws else b :: ws
          else b :: w :: ws
      | [] => [b]
      end
  end.

Lemma winners_cons b l : exists w ws, winners (b :: l) = w :: ws /\ same_start b w /\ m_data_size b <= m_data_size w.
Proof.
  cbn [winners]. destruct (winners l) as [|w ws]; [exists b, []; by split_and!|].
  destruct (decide (same_start b w)) as [Hs|]; [|eexists b, _; by split_and!].
  destruct (Z.leb_spec (m_data_size b) (m_data_size w)).
  - exists w, ws. by split_and!.
  - exists b, ws. by split_and!.
Qed.

Lemma winners_distinct b nb l :
  ~ same_start b nb -> winners (b :: nb :: l) = b :: winners (nb :: l).
Proof.
  intros Hn. change (winners (b :: nb :: l)) with
    (match winners (nb :: l) with w :: ws => if decide (same_start b w) then
       if m_data_size b <=? m_data_size w then w :: ws else b :: ws else b :: w :: ws | [] => [b] end).
  destruct (winners_cons nb l) as (w & ws & -> & Hw & _). rewrite decide_False; [done|].
  intros Hb. apply Hn. unfold same_start in *. intuition congruence.
Qed.

Lemma winners_same b nb l :
  same_start b nb ->
  winners (b :: nb :: l) = winners ((if m_data_size b <=? m_data_size nb then nb else b) :: l).
Proof.
  intros Hs. destruct (Z.leb_spec (m_data_size b) (m_data_size nb)) as [Hle|Hgt].
  - change (winners (b :: nb :: l)) with
      (match winners (nb :: l) with w :: ws => if decide (same_start b w) then
         if m_data_size b <=? m_data_size w then w :: ws else b :: ws else b :: w :: ws | [] => [b] end).
    destruct (winners_cons nb l) as (w & ws & -> & Hw & Hsz).
    rewrite decide_True by (unfold same_start in *; intuition congruence).
    by rewrite (proj2 (Z.leb_le _ _)) by lia.
  - cbn [winners]. destruct (winners l) as [|w ws].
    + rewrite decide_True by done. by rewrite (proj2 (Z.leb_gt _ _)) by lia.
    + destruct (decide (same_start nb w)) as [Hw|Hw].
      * rewrite (decide_True (P := same_start b w)) by (unfold same_start in *; intuition congruence).
        destruct (Z.leb_spec (m_data_size nb) (m_data_size w)).
        -- rewrite decide_True by (unfold same_start in *; intuition congruence). done.
        -- rewrite decide_True by done. rewrite !(proj2 (Z.leb_gt _ _)) by lia. done.
      * rewrite decide_True by done. rewrite (proj2 (Z.leb_gt _ _)) by lia.
        rewrite decide_False; [done|]. intros Hbw. apply Hw. unfold same_start in *. intuition congruence.
Qed.

(** A submit's blocks start at the same address or do not overlap. *)
Definition recaptured_ok (bs : list MemoryBlock) : Prop :=
  Forall (fun b => block_wf b /\ 0 < m_data_size b) bs /\
  forall b1 b2, b1 ∈ bs -> b2 ∈ bs -> m_submit_index b1 = m_submit_index b2 ->
    m_va_addr b1 = m_va_addr b2 \/ before b1 b2 \/ before b2 b1.

Lemma drop_overwritten_spec bs blocks back temp p :
  recaptured_ok bs -> Forall (fun b => b ∈ bs) (back :: p :: blocks) -> same_start back p ->
  StronglySorted (not_after (block_lt true)) (p :: blocks) ->
  drop_overwritten blocks (back :: temp) (m_va_addr p) (m_submit_index p) (m_data_size p)
  = Some (rev temp ++ winners (back :: blocks)).
Proof.
  intros [Hwf Hok]. rewrite Forall_forall in Hwf.
  revert back temp p. induction blocks as [|nb blocks IH]; intros back temp p Hin Hbp Hs; [done|].
  apply Forall_cons in Hin as [Hback Hin]. apply Forall_cons in Hin as [Hp Hin].
  apply StronglySorted_inv in Hs as [Hs Hpb]. apply Forall_cons in Hpb as [Hpb _].
  apply Forall_cons in Hin as [Hnb Hin].
  unfold not_after, block_lt in Hpb. cbn [drop_overwritten].
  destruct (Z.eqb_spec (m_submit_index nb) (m_submit_index p)) as [Heq|Hne]; cbn [negb].
  2: { rewrite winners_distinct by (unfold same_start in *; intuition congruence).
       rewrite (IH nb (back :: temp) nb); [|by rewrite !Forall_cons|by split|done].
       cbn [rev]. by rewrite <- app_assoc. }
  zbool. destruct (Hwf p Hp) as [[? ? ? _] Hpos]. destruct (Hwf nb Hnb) as [_ Hpos'].
  rewrite (wrap_small 64 (m_va_addr p + m_data_size p)) by (split; lia).
  destruct (Z.leb_spec (m_va_addr p + m_data_size p) (m_va_addr nb)) as [Hle|Hlt].
  - rewrite winners_distinct by (unfold same_start in *; intuition lia). rewrite <- Heq.
    rewrite (IH nb (back :: temp) nb); [|by rewrite !Forall_cons|by split|done].
    cbn [rev]. by rewrite <- app_assoc.
  - assert (m_va_addr nb = m_va_addr p) as Hva
      by (destruct (Hok nb p) as [|[|]]; unfold before in *; try done; lia).
    assert (same_start back nb) as Hbn by (unfold same_start in *; intuition congruence).
    rewrite winners_same, <- Heq by done.
    destruct (m_data_size back <=? m_data_size nb).
    + apply IH; [by rewrite !Forall_cons|by split|done].
    + apply IH; [by rewrite !Forall_cons|done|done].
Qed.

Lemma drop_overwritten_start bs blocks :
  recaptured_ok bs -> Forall (fun b => b ∈ bs) blocks ->
  StronglySorted (not_after (block_lt true)) blocks ->
  drop_overwritten blocks [] 0 0 0 = Some (winners blocks).
Proof.
  intros Hbs Hin Hs. destruct blocks as [|b blocks]; [done|].
  pose proof Hin as [Hb Hin']%Forall_cons.
  pose proof (drop_overwritten_spec bs blocks b [] b Hbs) as Hd.
  assert (block_wf b) as [Hva _ _ _] by (apply (proj1 (Forall_forall _ _) (proj1 Hbs) b Hb)).
  cbn [drop_overwritten]. destruct (Z.eqb_spec (m_submit_index b) 0) as [E|E]; cbn [negb].
  - rewrite (proj2 (Z.leb_le _ _)) by (by rewrite wrap_small). rewrite <- E at 1.
    apply Hd; [by rewrite !Forall_cons|by split|done].
  - apply Hd; [by rewrite !Forall_cons|by split|done].
Qed.

(** [b] is the last of the largest blocks that start where it does. *)
Definition last_largest (bs : list MemoryBlock) (b : MemoryBlock) : Prop :=
  exists l1 l2, filter (same_start b) bs = l1 ++ b :: l2 /\
    Forall (fun c => m_data_size c <= m_data_size b) l1 /\
    Forall (fun c => m_data_size c < m_data_size b) l2.

Lemma winners_in b l : b ∈ winners l -> b ∈ l.
Proof.
  induction l as [|c l IH]; [done|]. cbn. destruct (winners l) as [|w ws].
  - intros ->%list_elem_of_singleton. by left.
  - destruct (decide _); [destruct (_ <=? _)|]; rewrite ?elem_of_cons in *; tauto.
Qed.

Lemma block_lt_same ss b c d : same_start b c -> block_lt ss b d = block_lt ss c d /\ block_lt ss d b = block_lt ss d c.
Proof. intros [E1 E2]. unfold block_lt. by rewrite E1, E2. Qed.

Lemma not_after_lt b c : not_after (block_lt true) b c -> ~ same_start b c -> block_lt true b c = true.
Proof.
  unfold not_after, block_lt, same_start. intros H Hn. rewrite (Z.eqb_sym (m_submit_index b)).
  destruct (Z.eqb_spec (m_submit_index c) (m_submit_index b)); zbool; apply Z.ltb_lt; lia.
Qed.

Lemma winners_sorted l :
  StronglySorted (not_after (block_lt true)) l ->
  StronglySorted (fun b c => block_lt true b c = true) (winners l).
Proof.
  induction 1 as [|b l Hl IH Hb]; [constructor|]. cbn.
  destruct (winners l) as [|w ws] eqn:E; [constructor; constructor|].
  assert (w ∈ l) as Hw by (apply winners_in; rewrite E; by left).
  apply StronglySorted_inv in IH as [IH Hws]. rewrite Forall_forall in Hb, Hws.
  destruct (decide (same_start b w)) as [Hs|Hs].
  - assert (Forall (fun c => block_lt true b c = true) ws) as Hb'.
    { apply Forall_forall. intros c Hc. rewrite (proj1 (block_lt_same true b w c Hs)). by apply Hws. }
    destruct (_ <=? _); constructor; try done. by apply Forall_forall.
  - assert (block_lt true b w = true) by (apply not_after_lt; [by apply Hb|done]).
    constructor; [constructor; [done|by apply Forall_forall]|]. constructor; [done|].
    apply Forall_forall. intros c Hc. apply (block_lt_trans true b w c); [done|by apply Hws].
Qed.

Lemma filter_same b c (l : list MemoryBlock) : same_start b c -> filter (same_start b) l = filter (same_start c) l.
Proof.
  intros Hbc. apply list_filter_iff. intros x. unfold same_start in *. intuition congruence.
Qed.

Lemma lt_not_same b c : block_lt true b c = true -> ~ same_start c b.
Proof.
  intros H [E1 E2]. unfold block_lt in H. rewrite E1, E2, Z.eqb_refl in H. zbool. lia.
Qed.

Lemma winners_last_largest l b :
  StronglySorted (not_after (block_lt true)) l -> b ∈ winners l -> last_largest l b.
Proof.
  intros Hl. revert b. induction Hl as [|c l Hl IH Hc]; intros b Hb; [by apply elem_of_nil in Hb|].
  pose proof (winners_sorted l Hl) as Hs. cbn in Hb. rewrite Forall_forall in Hc.
  destruct (winners l) as [|w ws] eqn:E.
  - apply list_elem_of_singleton in Hb as ->. destruct l as [|d l].
    + exists [], []. rewrite filter_cons_True by done. by split_and!.
    + destruct (winners_cons d l) as (? & ? & E' & _). by rewrite E' in E.
  - apply StronglySorted_inv in Hs as [_ Hws]. rewrite Forall_forall in Hws.
    destruct (decide (same_start c w)) as [Hcw|Hcw].
    + destruct (Z.leb_spec (m_data_size c) (m_data_size w)) as [Hle|Hgt].
      * destruct (IH b Hb) as (l1 & l2 & Hf & H1 & H2). rewrite elem_of_cons in Hb.
        destruct (decide (same_start b c)) as [Hbc|Hbc].
        -- assert (b = w) as ->.
           { destruct Hb as [->|Hb]; [done|]. destruct (lt_not_same w b); [by apply Hws|].
             unfold same_start in *. intuition congruence. }
           exists (c :: l1), l2. rewrite filter_cons_True, Hf by done. split_and!; try done. by constructor.
        -- exists l1, l2. by rewrite filter_cons_False.
      * rewrite elem_of_cons in Hb. destruct Hb as [->|Hb].
        -- destruct (IH w) as (l1 & l2 & Hf & H1 & H2); [by left|].
           exists [], (filter (same_start c) l). rewrite filter_cons_True by done. split_and!; try done.
           rewrite (filter_same c w) by done. rewrite Hf. apply Forall_app. split; [|constructor; [done|]].
           ++ eapply Forall_impl; [exact H1|]. cbn. lia.
           ++ eapply Forall_impl; [exact H2|]. cbn. lia.
        -- destruct (IH b) as (l1 & l2 & Hf & H1 & H2); [by right|]. exists l1, l2.
           rewrite filter_cons_False; [done|]. intros Hbc. destruct (lt_not_same w b); [by apply Hws|].
           unfold same_start in *. intuition congruence.
    + rewrite elem_of_cons in Hb. destruct Hb as [->|Hb].
      * exists [], []. rewrite filter_cons_True by done. split_and!; try done. f_equal.
        destruct (filter (same_start c) l) as [|y k] eqn:Ey; [done|exfalso].
        assert (y ∈ filter (same_start c) l) as [Hcy Hy]%list_elem_of_filter by (rewrite Ey; by left).
        destruct l as [|d l]; [by apply elem_of_nil in Hy|].
        destruct (winners_cons d l) as (w' & ws' & E' & Hdw & _). rewrite E' in E. simplify_eq.
        assert (not_after (block_lt true) d y) as Hdy.
        { apply StronglySorted_inv in Hl as [_ Hd]. rewrite Forall_forall in Hd.
          apply elem_of_cons in Hy as [->|Hy]; [|by apply Hd]. unfold not_after, block_lt. rewrite Z.eqb_refl.
          by apply Z.ltb_irrefl. }
        assert (block_lt true c w = true) as Hlt.
        { apply not_after_lt; [|done]. apply Hc, winners_in. rewrite E'. by left. }
        unfold not_after in Hdy. rewrite (proj1 (block_lt_same true y c d ltac:(by destruct Hcy; split))) in Hdy.
        rewrite (proj2 (block_lt_same true d w c Hdw)) in Hdy. congruence.
      * destruct (IH b Hb) as (l1 & l2 & Hf & H1 & H2). exists l1, l2. rewrite filter_cons_False; [done|].
        intros Hbc. rewrite elem_of_cons in Hb. destruct Hb as [->|Hb]; [by destruct Hbc; destruct Hcw|].
        destruct (lt_not_same c b); [|by destruct Hbc; split]. apply (block_lt_trans true c w b); [|by apply Hws].
        apply not_after_lt; [|done]. apply Hc, winners_in. rewrite E. by left.
Qed.

Lemma winners_exist b l : b ∈ l -> exists w, w ∈ winners l /\ same_start b w.
Proof.
  induction l as [|c l IH]; [by intros ?%elem_of_nil|]. intros Hb.
  destruct (winners_cons c l) as (w & ws & E & Hcw & _). apply elem_of_cons in Hb as [->|Hb].
  - exists w. rewrite E. split; [by left|done].
  - destruct (IH Hb) as (w' & Hw' & Hbw). cbn in *.
    destruct (winners l) as [|v vs]; [by apply elem_of_nil in Hw'|].
    destruct (decide (same_start c v)) as [Hcv|Hcv].
    + apply elem_of_cons in Hw' as [->|Hw'].
      * exists w. rewrite E. split; [by left|]. unfold same_start in *. intuition congruence.
      * exists w'. split; [|done]. destruct (_ <=? _); by right.
    + exists w'. split; [by right|done].
Qed.

Lemma last_largest_unique l b c :
  last_largest l b -> last_largest l c -> same_start b c -> b = c.
Proof.
  intros (l1 & l2 & Hb & H1 & H2) (k1 & k2 & Hc & K1 & K2) Hbc.
  rewrite (filter_same b c) in Hb by done. rewrite Hb in Hc. clear Hb.
  revert k1 Hc K1. induction l1 as [|x l1 IH]; intros [|y k1] Hc K1; cbn in Hc; injection Hc as E Hc.
  - done.
  - subst y. apply Forall_cons in K1 as [K1 _]. assert (c ∈ l2) as Hin by (rewrite Hc; set_solver).
    rewrite Forall_forall in H2. specialize (H2 c Hin). lia.
  - subst x. apply Forall_cons in H1 as [H1 _]. assert (b ∈ k2) as Hin by (rewrite <- Hc; set_solver).
    rewrite Forall_forall in K2. specialize (K2 b Hin). lia.
  - apply Forall_cons in H1 as [_ H1]. apply Forall_cons in K1 as [_ K1]. by eapply IH.
Qed.

Lemma elem_of_winners l b :
  StronglySorted (not_after (block_lt true)) l -> b ∈ winners l <-> last_largest l b.
Proof.
  intros Hl. split; [by apply winners_last_largest|]. intros Hb.
  assert (b ∈ l) as Hin.
  { destruct Hb as (l1 & l2 & Hf & _). assert (b ∈ filter (same_start b) l) as Hb by (rewrite Hf; set_solver).
    by apply list_elem_of_filter in Hb as [_ Hb]. }
  destruct (winners_exist b l Hin) as (w & Hw & Hbw).
  by rewrite (last_largest_unique l b w Hb (winners_last_largest l w Hl Hw) Hbw).
Qed.

Lemma sorted_blocks ss bs : StronglySorted (not_after (block_lt ss)) (stable_sort (block_lt ss) bs).
Proof.
  apply stable_sort_sorted; [apply block_nlt_trans|apply block_lt_asym].
Qed.

Lemma last_largest_sort bs b : last_largest (stable_sort (block_lt true) bs) b <-> last_largest bs b.
Proof.
  unfold last_largest. rewrite stable_sort_filter; [done|].
  intros x y [E1 E2] [E3 E4]. unfold block_lt. rewrite <- E1, <- E2, <- E3, <- E4, Z.eqb_refl. apply Z.ltb_irrefl.
Qed.

Lemma StronglySorted_weaken {A} (P Q : A -> A -> Prop) (l : list A) :
  (forall x y, x ∈ l -> y ∈ l -> P x y -> Q x y) -> StronglySorted P l -> StronglySorted Q l.
Proof.
  intros HPQ. induction 1 as [|x l Hl IH Hx]; constructor.
  - apply IH. intros y z Hy Hz. apply HPQ; by right.
  - rewrite Forall_forall in *. intros y Hy. apply HPQ; [by left|by right|by apply Hx].
Qed.

Lemma StronglySorted_and {A} (P Q : A -> A -> Prop) (l : list A) :
  StronglySorted P l -> StronglySorted Q l -> StronglySorted (fun x y => P x y /\ Q x y) l.
Proof.
  induction 1 as [|x l Hl IH Hx]; intros HQ; constructor; apply StronglySorted_inv in HQ as [HQ HxQ].
  - by apply IH.
  - by apply Forall_and.
Qed.

Lemma mem_byte_iff m submit a x :
  memory_ok m ->
  mem_byte submit a m = Some x <->
  exists b, b ∈ m_memory_blocks m /\ covers (m_same_submit_only m) submit a b = true /\
    m_data_ptr b !! Z.to_nat (a - m_va_addr b) = Some x.
Proof.
  intros Hm. split.
  - intros Hx. destruct (mem_byte_Some m submit a) as (i & b & Hi & Hc); [by eexists|].
    exists b. split; [by eapply list_elem_of_lookup_2|]. split; [done|].
    by rewrite <- (mem_byte_covered m submit a i b Hm Hi Hc).
  - intros (b & [i Hi]%list_elem_of_lookup_1 & Hc & Hx). by rewrite (mem_byte_covered m submit a i b Hm Hi Hc).
Qed.

(** No block overlaps another one, whichever submit it belongs to. *)
Definition disjoint_ok (bs : list MemoryBlock) : Prop :=
  Forall (fun b => block_wf b /\ 0 < m_data_size b) bs /\
  StronglySorted (fun b1 b2 => before b1 b2 \/ before b2 b1) bs.

Lemma Finalize_same_submit m :
  recaptured_ok (m_memory_blocks m) ->
  Finalize true m = Some (set_blocks (winners (stable_sort (block_lt true) (m_memory_blocks m)))
                            (set_same_submit_only true m)) /\
  memory_ok (set_blocks (winners (stable_sort (block_lt true) (m_memory_blocks m)))
                            (set_same_submit_only true m)).
Proof.
  intros Hok. set (bs := m_memory_blocks m) in *.
  pose proof (sorted_blocks true bs) as Hs.
  assert (forall b, b ∈ stable_sort (block_lt true) bs <-> b ∈ bs) as Hin
    by (intros b; by rewrite stable_sort_perm).
  split.
  - unfold Finalize. cbn. rewrite (drop_overwritten_start bs); [done|done| |done].
    apply Forall_forall. intros b. apply Hin.
  - destruct Hok as [Hwf Hdisj]. rewrite Forall_forall in Hwf. split; cbn.
    + apply Forall_forall. intros b Hb%winners_in%Hin. by apply Hwf.
    + eapply StronglySorted_weaken; [|by apply winners_sorted].
      intros b1 b2 Hb1%winners_in%Hin Hb2%winners_in%Hin Hlt Hsub. specialize (Hsub eq_refl).
      destruct (Hwf b1 Hb1) as [_ ?], (Hwf b2 Hb2) as [_ ?].
      unfold block_lt in Hlt. rewrite Hsub, Z.eqb_refl in Hlt. zbool.
      destruct (Hdisj b1 b2 Hb1 Hb2 Hsub) as [|[|]]; unfold before in *; lia.
Qed.

Lemma Finalize_any_submit m :
  disjoint_ok (m_memory_blocks m) ->
  exists m', Finalize false m = Some m' /\ memory_ok m' /\ m_same_submit_only m' = false /\
    m_memory_blocks m' ≡ₚ m_memory_blocks m.
Proof.
  intros [Hwf Hdisj]. eexists. split; [done|]. cbn.
  assert (forall b, b ∈ stable_sort (block_lt false) (m_memory_blocks m) <-> b ∈ m_memory_blocks m) as Hin
    by (intros b; by rewrite stable_sort_perm).
  rewrite Forall_forall in Hwf. split; [|split; [done|apply stable_sort_perm]]. split; cbn.
  - apply Forall_forall. intros b Hb%Hin. by apply Hwf.
  - eapply StronglySorted_weaken;
      [|apply StronglySorted_and; [apply sorted_blocks|]; apply stable_sort_pairs; [|exact Hdisj]; by intros x y [?|?]; [right|left]].
    intros b1 b2 Hb1%Hin Hb2%Hin [Hn Hd] _. destruct (Hwf b1 Hb1) as [_ ?], (Hwf b2 Hb2) as [_ ?].
    unfold not_after, block_lt in Hn. zbool. unfold before in *. lia.
Qed.

Lemma IsValid_spec m submit va size :
  memory_ok m -> 0 <= va < 2 ^ 64 ->
  IsValid submit va size m = true <-> forall a, va <= a < va + size -> is_Some (mem_byte submit a m).
Proof.
  intros Hm Hva. destruct (contiguous_run m submit va Hm Hva) as (d & Hd & En & _).
  destruct (holds_run_mem_byte m submit va d Hm Hd) as [Hbytes Hnone].
  unfold IsValid. rewrite En, Z.leb_le. split.
  - intros Hsz a Ha. replace a with (va + Z.of_nat (Z.to_nat (a - va))) by lia.
    rewrite <- Hbytes by lia. apply lookup_lt_is_Some. lia.
  - intros Hall. apply Znot_gt_le. intros Hgt.
    destruct (Hall (va + Z.of_nat (length d))) as [? E]; [lia|congruence].
Qed.

(** The bytes of a memory that is finalized per submit. *)
Lemma finalized_bytes m :
  recaptured_ok (m_memory_blocks m) ->
  exists m', Finalize true m = Some m' /\ memory_ok m' /\
    forall submit a x, mem_byte submit a m' = Some x <->
      exists b, last_largest (m_memory_blocks m) b /\ m_submit_index b = submit /\
        m_va_addr b <= a < m_va_addr b + m_data_size b /\
        m_data_ptr b !! Z.to_nat (a - m_va_addr b) = Some x.
Proof.
  intros [-> Hm]%Finalize_same_submit. eexists. split; [done|]. split; [done|]. intros submit a x.
  rewrite mem_byte_iff by done. cbn [m_memory_blocks set_blocks].
  apply exist_proper. intros b. rewrite elem_of_winners, last_largest_sort by apply sorted_blocks.
  rewrite covers_true. unfold valid_submit. cbn [m_same_submit_only set_same_submit_only set_blocks].
  rewrite Z.eqb_eq. intuition congruence.
Qed.

(** ** Properties *)

(** What [Finalize] makes of the captured blocks. If the blocks of a submit
    that are captured more than once only overlap by starting at the same
    address, the result keeps, of the blocks with one start, the last of the
    largest, is sorted without overlaps, and holds at each address of a submit
    exactly the byte of the block that was kept. Without regard to submits, and
    with no overlaps at all, it holds the byte of the one block that covers the
    address, for every submit. The removal never looks at the back of an empty
    vector. *)
Theorem finalized_memory m submit a x :
  (recaptured_ok (m_memory_blocks m) ->
   exists m', Finalize true m = Some m' /\ memory_ok m' /\
     (mem_byte submit a m' = Some x <->
      exists b, last_largest (m_memory_blocks m) b /\ m_submit_index b = submit /\
        m_va_addr b <= a < m_va_addr b + m_data_size b /\
        m_data_ptr b !! Z.to_nat (a - m_va_addr b) = Some x)) /\
  (disjoint_ok (m_memory_blocks m) ->
   exists m', Finalize false m = Some m' /\ memory_ok m' /\
     (mem_byte submit a m' = Some x <->
      exists b, b ∈ m_memory_blocks m /\
        m_va_addr b <= a < m_va_addr b + m_data_size b /\
        m_data_ptr b !! Z.to_nat (a - m_va_addr b) = Some x)).
Proof.
  split.
  - intros (m' & -> & Hm & Hb)%finalized_bytes. by exists m'.
  - intros (m' & -> & Hm & Hss & Hp)%Finalize_any_submit. exists m'. split; [done|]. split; [done|].
    rewrite mem_byte_iff by done. apply exist_proper. intros b. rewrite Hp, covers_true, Hss. cbn. tauto.
Qed.

(** C9: [RetrieveMemoryData] reads the abstract memory, whichever block it
    remembers from before. In a memory whose blocks have their data, do not wrap around
    and, as far as a submit can see them, follow each other without an overlap
    ([memory_ok]; [Finalize] establishes it from captured blocks that are disjoint or
    captured again at the same address, not from all), it behaves as follows. Into a buffer of at least one byte, at a range that
    does not wrap, it copies every captured byte of the range to its place and
    leaves the others alone; it answers [true] exactly when the whole range is
    captured, and changes nothing but the block it remembers. *)
Theorem retrieve_refines m submit va buffer :
  memory_ok m -> 0 <= va -> (0 < length buffer)%nat -> va + Z.of_nat (length buffer) < 2 ^ 64 ->
  exists ok buf p, RetrieveMemoryData submit va buffer m = (ok, buf, set_last_used p m) /\
    length buf = length buffer /\
    (ok = true <-> forall a, va <= a < va + Z.of_nat (length buffer) -> is_Some (mem_byte submit a m)) /\
    forall k, (k < length buffer)%nat ->
      buf !! k = match mem_byte submit (va + Z.of_nat k) m with Some x => Some x | None => buffer !! k end.
Proof. apply RetrieveMemoryData_spec. Qed.

(** Contiguous memory. [GetMaxContiguousSize] is the length of the longest
    captured run that starts at the address, and
    [GetMemoryOfUnknownSizeViaCallback] hands a callback that never stops exactly
    the bytes of that run; so [IsValid] says whether a whole range is captured,
    which is when [RetrieveMemoryData] succeeds on it. *)
Theorem contiguous_memory m submit va :
  memory_ok m -> 0 <= va < 2 ^ 64 ->
  let n := GetMaxContiguousSize submit va m in
  let d := GetMemoryOfUnknownSizeViaCallback submit va collect m [] in
  n = Z.of_nat (length d) /\
  (forall k, (k < length d)%nat -> d !! k = mem_byte submit (va + Z.of_nat k) m) /\
  mem_byte submit (va + n) m = None /\
  (forall size, IsValid submit va size m = true <->
     forall a, va <= a < va + size -> is_Some (mem_byte submit a m)) /\
  (forall buffer, (0 < length buffer)%nat -> va + Z.of_nat (length buffer) < 2 ^ 64 ->
     fst (fst (RetrieveMemoryData submit va buffer m)) = IsValid submit va (Z.of_nat (length buffer)) m).
Proof.
  intros Hm Hva n d. destruct (contiguous_run m submit va Hm Hva) as (d' & Hd & En & Ed).
  subst n d. rewrite Ed, En. destruct (holds_run_mem_byte m submit va d' Hm Hd) as [Hbytes Hnone].
  pose proof (fun size => IsValid_spec m submit va size Hm Hva) as Hvalid.
  split_and!; try done. intros buffer Hn Hend.
  destruct (RetrieveMemoryData_spec m submit va buffer Hm ltac:(lia) Hn Hend) as (ok & buf & p & -> & _ & Hok & _).
  cbn [fst]. apply eq_true_iff_eq. by rewrite Hok, Hvalid.
Qed.

(** ** Witnesses *)

Definition bytes_of (zs : list Z) : list byte := (fun z => byte.of_Z z) <$> zs.

(** A block that is captured again with fewer bytes, and its neighbour. *)
Definition test_captured : MemoryManager :=
  AddMemoryBlock 0 4104 (4, bytes_of [5; 6; 7; 8])
    (AddMemoryBlock 0 4096 (4, bytes_of [9; 9; 9; 9])
      (AddMemoryBlock 0 4096 (8, bytes_of [1; 2; 3; 4; 1; 2; 3; 4]) new_MemoryManager)).

Definition test_memory : MemoryManager :=
  set_blocks [mkBlock 4096 0 8 (bytes_of [1; 2; 3; 4; 1; 2; 3; 4]); mkBlock 4104 0 4 (bytes_of [5; 6; 7; 8])]
    new_MemoryManager.

Lemma test_captured_ok : recaptured_ok (m_memory_blocks test_captured).
Proof.
  split.
  - repeat constructor; vm_compute; congruence.
  - intros b1 b2 H1 H2 _. cbn in H1, H2. rewrite !elem_of_cons, elem_of_nil in H1, H2.
    unfold before. destruct H1 as [->|[->|[->|[]]]], H2 as [->|[->|[->|[]]]]; cbn; lia.
Qed.

Lemma test_memory_ok : memory_ok test_memory.
Proof.
  split; [repeat constructor; vm_compute; congruence|].
  repeat constructor. intros _. cbn. lia.
Qed.

Lemma finalized_memory_witness :
  Finalize true test_captured = Some test_memory /\ memory_ok test_memory.
Proof.
  destruct (finalized_memory test_captured 0 4096 Byte.x00) as [H _].
  destruct (H test_captured_ok) as (m' & E & Hm & _).
  replace (Finalize true test_captured) with (Some test_memory) in E by (vm_compute; reflexivity).
  injection E as <-. split; [vm_compute; reflexivity|exact Hm].
Defined.

Lemma retrieve_refines_witness :
  RetrieveMemoryData 0 4102 (bytes_of [0; 0; 0; 0]) test_memory
    = (true, bytes_of [3; 4; 5; 6], set_last_used (Some 0%nat) test_memory) /\
  is_Some (mem_byte 0 4105 test_memory).
Proof.
  assert (RetrieveMemoryData 0 4102 (bytes_of [0; 0; 0; 0]) test_memory
    = (true, bytes_of [3; 4; 5; 6], set_last_used (Some 0%nat) test_memory)) as E0 by (vm_compute; reflexivity).
  split; [exact E0|].
  destruct (retrieve_refines test_memory 0 4102 (bytes_of [0; 0; 0; 0])) as (ok & buf & p & E & _ & Hok & _).
  - exact test_memory_ok.
  - lia.
  - cbn. lia.
  - cbn. lia.
  - rewrite E0 in E. injection E as <- _ _. apply Hok; [reflexivity|]. cbn. lia.
Defined.

Lemma contiguous_memory_witness :
  IsValid 0 4100 8 test_memory = true /\ mem_byte 0 4108 test_memory = None.
Proof.
  split; [vm_compute; reflexivity|].
  destruct (contiguous_memory test_memory 0 4100 test_memory_ok ltac:(lia)) as (_ & _ & Hn & _).
  exact Hn.
Defined.
