(* ===== verification/Pm4.v ===== *)
(** * Pm4: packets

    The packet header, its parity check and its size, and the opcode tests of
    [src/dive_core/common/emulate_pm4.{h,cpp}], with the interfaces that the
    emulation uses: the memory ([IMemoryManager] of [memory_manager_base.h]) and
    the packet definitions, which the build generates ([adreno.h], [pm4_info.cpp])
    and which are therefore parameters here. *)

From S2P Require Import Prelude Wire Memory.
From coqutil Require Import Byte.

#[local] Open Scope Z_scope.

(** ** Outcomes

    Code that can leave an array ([OutOfBounds]) or run forever ([OutOfFuel]). *)
Inductive outcome (A : Type) : Type :=
  | Done (a : A)
  | OutOfBounds
  | OutOfFuel.
Arguments Done {A} a.
Arguments OutOfBounds {A}.
Arguments OutOfFuel {A}.

#[global] Instance outcome_bind : MBind outcome := fun A B k m =>
  match m with Done a => k a | OutOfBounds => OutOfBounds | OutOfFuel => OutOfFuel end.

(** ** Headers

    [Pm4Header] is the 32-bit word; its bit fields are functions. *)
Definition header_type (header : Z) : Z := bits 28 4 header.
Definition type4_count (header : Z) : Z := bits 0 7 header.
Definition type4_count_parity (header : Z) : Z := bits 7 1 header.
Definition type4_offset (header : Z) : Z := bits 8 19 header.
Definition type4_offset_parity (header : Z) : Z := bits 27 1 header.
Definition type7_count (header : Z) : Z := bits 0 15 header.
Definition type7_count_parity (header : Z) : Z := bits 15 1 header.
Definition type7_opcode (header : Z) : Z := bits 16 7 header.
Definition type7_opcode_parity (header : Z) : Z := bits 23 1 header.
Definition type7_zeroes (header : Z) : Z := bits 24 4 header.

Definition CalcParity (val : Z) : Z :=
  let val := Z.lxor val (Z.shiftr val 16) in
  let val := Z.lxor val (Z.shiftr val 8) in
  let val := Z.lxor val (Z.shiftr val 4) in
  let val := Z.land val 0xf in
  Z.land (Z.shiftr (Z.lnot 0x6996) val) 1.

(** The check of a packet in [ExecuteSubmit]. *)
Definition header_ok (header : Z) : bool :=
  if header_type header =? 4 then
    (type4_offset_parity header =? CalcParity (type4_offset header)) &&
    (type4_count_parity header =? CalcParity (type4_count header))
  else if header_type header =? 7 then
    (type7_opcode_parity header =? CalcParity (type7_opcode header)) &&
    (type7_count_parity header =? CalcParity (type7_count header)) &&
    (type7_zeroes header =? 0)
  else true.

(** In dwords; [0] for a type that is none. *)
Definition GetPacketSize (header : Z) : Z :=
  if header_type header =? 2 then 1
  else if header_type header =? 4 then type4_count header + 1
  else if header_type header =? 7 then type7_count header + 1
  else 0.

(** ** The generated packet definitions

    A packet structure is given by its size, the dwords of it that are read, and
    its fields as functions of its bytes. [GetRegInfo] says whether a register is
    known and then whether it has 64 bits. *)
Class AdrenoPm4 := {
  CP_SET_MARKER : Z;
  CP_CONTEXT_REG_BUNCH : Z;
  CP_INDIRECT_BUFFER_PFE : Z;
  CP_INDIRECT_BUFFER_PFD : Z;
  CP_INDIRECT_BUFFER_CHAIN : Z;
  CP_SET_AMBLE : Z;
  CP_SET_DRAW_STATE : Z;
  CP_START_BIN : Z;
  CP_END_BIN : Z;
  CP_FIXED_STRIDE_DRAW_TABLE : Z;
  CP_EXEC_CS : Z;
  CP_EXEC_CS_INDIRECT : Z;
  CP_DRAW_INDX : Z;
  CP_DRAW_INDX_OFFSET : Z;
  CP_DRAW_INDIRECT : Z;
  CP_DRAW_INDX_INDIRECT : Z;
  CP_DRAW_INDIRECT_MULTI : Z;
  CP_DRAW_AUTO : Z;
  RM6_DIRECT_RENDER : Z;
  RM6_BIN_VISIBILITY : Z;
  RM6_BIN_DIRECT : Z;
  RM6_BIN_RENDER_START : Z;
  RM6_BIN_END_OF_DRAWS : Z;
  RM6_BIN_RESOLVE : Z;
  RM6_BIN_RENDER_END : Z;
  sizeof_SET_MARKER : nat;
  SET_MARKER_u32All0 : list byte -> Z;
  sizeof_INDIRECT_BUFFER : nat;
  INDIRECT_BUFFER_IB_BASE : list byte -> Z;
  INDIRECT_BUFFER_IB_SIZE : list byte -> Z;
  sizeof_SET_AMBLE : nat;
  SET_AMBLE_ADDR : list byte -> Z;
  SET_AMBLE_DWORDS : list byte -> Z;
  sizeof_SET_DRAW_STATE : nat;
  sizeof_ARRAY_ELEMENT : Z;
  SET_DRAW_STATE_HEADER_count : list byte -> Z;
  SET_DRAW_STATE_COUNT : nat -> list byte -> Z;
  SET_DRAW_STATE_DISABLE : nat -> list byte -> bool;
  SET_DRAW_STATE_DISABLE_ALL_GROUPS : nat -> list byte -> bool;
  SET_DRAW_STATE_BINNING : nat -> list byte -> bool;
  SET_DRAW_STATE_GMEM : nat -> list byte -> bool;
  SET_DRAW_STATE_SYSMEM : nat -> list byte -> bool;
  SET_DRAW_STATE_ADDR : nat -> list byte -> Z;
  sizeof_START_BIN : nat;
  START_BIN_BIN_COUNT : list byte -> Z;
  START_BIN_PREFIX_ADDR : list byte -> Z;
  START_BIN_PREFIX_DWORDS : list byte -> Z;
  sizeof_FIXED_STRIDE_DRAW_TABLE : nat;
  FIXED_STRIDE_IB_BASE : list byte -> Z;
  FIXED_STRIDE_STRIDE : list byte -> Z;
  FIXED_STRIDE_COUNT : list byte -> Z;
  GetRegInfo : Z -> option bool
}.

Section Opcodes.
Context `{AdrenoPm4}.

(** A type-7 packet with the given opcode. *)
Definition is_packet (header opcode : Z) : bool :=
  (header_type header =? 7) && (type7_opcode header =? opcode).

Definition IsDispatchEventOpcode (opcode : Z) : bool :=
  (opcode =? CP_EXEC_CS_INDIRECT) || (opcode =? CP_EXEC_CS).

Definition IsDrawEventOpcode (opcode : Z) : bool :=
  (opcode =? CP_DRAW_INDX) || (opcode =? CP_DRAW_INDX_OFFSET) || (opcode =? CP_DRAW_INDIRECT) ||
  (opcode =? CP_DRAW_INDX_INDIRECT) || (opcode =? CP_DRAW_INDIRECT_MULTI) || (opcode =? CP_DRAW_AUTO).

Definition IsDrawDispatchEventOpcode (opcode : Z) : bool :=
  IsDrawEventOpcode opcode || IsDispatchEventOpcode opcode.
End Opcodes.

(** ** Memory *)

Class IMemoryManager (M : Type) := {
  memory_RetrieveMemoryData : Z -> Z -> list byte -> M -> bool * list byte * M;
  memory_IsValid : Z -> Z -> Z -> M -> bool
}.

Section Retrieve.
Context {M : Type} `{IMemoryManager M}.

(** [RetrieveMemoryData] of [n] bytes into a zeroed object of [sizeof] bytes; the
    answer is only asserted on. *)
Definition retrieve (sizeof n : nat) (submit_index va_addr : Z) (mem_manager : M) : outcome (list byte * M) :=
  if (sizeof <? n)%nat then OutOfBounds
  else
    let '(_, buffer, mem_manager) :=
      memory_RetrieveMemoryData submit_index va_addr (replicate n Byte.x00) mem_manager in
    Done (buffer ++ replicate (sizeof - n) Byte.x00, mem_manager).

(** A [uint32_t]. *)
Definition retrieve_dword (submit_index va_addr : Z) (mem_manager : M) : Z * M :=
  let '(_, buffer, mem_manager) :=
    memory_RetrieveMemoryData submit_index va_addr (replicate 4 Byte.x00) mem_manager in
  (le_combine buffer, mem_manager).
End Retrieve.

(** *** What clients may rely on

    [mem_at] is the captured byte at an address, for a submit. A retrieval copies
    the captured bytes and leaves the others of the buffer, and [IsValid] says
    that a whole range is captured; neither changes what is captured, whatever the
    address ([retrieve_keeps]). *)
Class MemoryLaws (M : Type) `{IMemoryManager M} := {
  mem_good : M -> Prop;
  mem_at : Z -> Z -> M -> option byte;
  retrieve_law submit va buffer m :
    mem_good m -> 0 <= va -> (0 < length buffer)%nat -> va + Z.of_nat (length buffer) < 2 ^ 64 ->
    exists ok buf m', memory_RetrieveMemoryData submit va buffer m = (ok, buf, m') /\
      length buf = length buffer /\
      (forall k, (k < length buffer)%nat ->
         buf !! k = match mem_at submit (va + Z.of_nat k) m with Some x => Some x | None => buffer !! k end) /\
      mem_good m' /\ (forall s a, mem_at s a m' = mem_at s a m) /\
      (forall s a n, memory_IsValid s a n m' = memory_IsValid s a n m);
  retrieve_keeps submit va buffer m :
    mem_good m -> let m' := (memory_RetrieveMemoryData submit va buffer m).2 in
    mem_good m' /\ (forall s a, mem_at s a m' = mem_at s a m) /\
    (forall s a n, memory_IsValid s a n m' = memory_IsValid s a n m);
  valid_law submit va n m :
    mem_good m -> 0 <= va < 2 ^ 64 ->
    memory_IsValid submit va n m = true <-> forall a, va <= a < va + n -> is_Some (mem_at submit a m)
}.

#[global] Instance MemoryManager_memory : IMemoryManager MemoryManager := {|
  memory_RetrieveMemoryData := RetrieveMemoryData;
  memory_IsValid := IsValid
|}.

#[global] Program Instance MemoryManager_laws : MemoryLaws MemoryManager := {|
  mem_good := memory_ok;
  mem_at := mem_byte
|}.
Next Obligation.
  intros submit va buffer m Hm Hva Hn Hend.
  destruct (RetrieveMemoryData_spec m submit va buffer Hm Hva Hn Hend) as (ok & buf & p & E & Hl & _ & Hk).
  exists ok, buf, (set_last_used p m). split; [done|]. split; [done|]. split; [done|].
  split; [by destruct Hm|done].
Qed.
Next Obligation.
  intros submit va buffer m Hm. cbn [memory_RetrieveMemoryData MemoryManager_memory]. destruct (RetrieveMemoryData_keeps m submit va buffer) as (ok & buf & p & ->).
  split; [by destruct Hm|done].
Qed.
Next Obligation. intros submit va n m Hm Hva. by apply IsValid_spec. Qed.

Section Views.
Context {M : Type} `{MemoryLaws M}.

(** [m'] holds the same captured bytes as [m]. *)
Definition same_view (m m' : M) : Prop :=
  mem_good m' /\ (forall s a, mem_at s a m' = mem_at s a m) /\
  (forall s a n, memory_IsValid s a n m' = memory_IsValid s a n m).

Lemma retrieve_view submit va buffer m ok buf m' :
  mem_good m -> memory_RetrieveMemoryData submit va buffer m = (ok, buf, m') -> same_view m m'.
Proof. intros Hm E. pose proof (retrieve_keeps submit va buffer m Hm) as Hk. by rewrite E in Hk. Qed.

Lemma same_view_refl m : mem_good m -> same_view m m.
Proof. by split. Qed.

Lemma same_view_trans m1 m2 m3 : same_view m1 m2 -> same_view m2 m3 -> same_view m1 m3.
Proof.
  intros (_ & E1 & V1) (G & E2 & V2). split; [done|]. split; intros; [by rewrite E2|by rewrite V2].
Qed.

(** The [n] bytes at an address, with a zero for each that is not captured. *)
Definition bytes_from (submit va : Z) (n : nat) (m : M) : list byte :=
  (fun k => default Byte.x00 (mem_at submit (va + Z.of_nat k) m)) <$> seq 0 n.

Definition dword_at (submit va : Z) (m : M) : Z := le_combine (bytes_from submit va 4 m).

Lemma bytes_from_view submit va n m m' : same_view m m' -> bytes_from submit va n m' = bytes_from submit va n m.
Proof. intros (_ & E & _). apply list_fmap_ext. intros k j _. by rewrite E. Qed.

Lemma dword_at_view submit va m m' : same_view m m' -> dword_at submit va m' = dword_at submit va m.
Proof. intros Hv. unfold dword_at. by rewrite (bytes_from_view _ _ _ m m'). Qed.

Lemma retrieve_zeroed submit va n m :
  mem_good m -> 0 <= va -> (0 < n)%nat -> va + Z.of_nat n < 2 ^ 64 ->
  exists ok m', memory_RetrieveMemoryData submit va (replicate n Byte.x00) m = (ok, bytes_from submit va n m, m') /\
    same_view m m'.
Proof.
  intros Hm Hva Hn Hend.
  destruct (retrieve_law submit va (replicate n Byte.x00) m) as (ok & buf & m' & E & Hl & Hk & Hv);
    rewrite ?length_replicate; try done.
  rewrite length_replicate in Hl. rewrite length_replicate in Hk.
  exists ok, m'. split; [|done]. rewrite E. do 2 f_equal.
  apply list_eq_same_length with n; [by unfold bytes_from; rewrite length_fmap, length_seq|done|].
  intros k x y Hlt Hx Hy. rewrite Hk in Hx by done. unfold bytes_from in Hy.
  rewrite list_lookup_fmap, lookup_seq_lt in Hy by done. cbn in Hy. injection Hy as <-.
  destruct (mem_at submit (va + Z.of_nat k) m) as [z|]; cbn; [congruence|].
  rewrite lookup_replicate_2 in Hx by done. congruence.
Qed.

Lemma retrieve_spec submit va sizeof n m :
  mem_good m -> 0 <= va -> (0 < n <= sizeof)%nat -> va + Z.of_nat n < 2 ^ 64 ->
  exists m', retrieve sizeof n submit va m
    = Done (bytes_from submit va n m ++ replicate (sizeof - n) Byte.x00, m') /\ same_view m m'.
Proof.
  intros Hm Hva Hn Hend. destruct (retrieve_zeroed submit va n m) as (ok & m' & E & Hv); [done|done|lia|done|].
  exists m'. unfold retrieve. rewrite E. rewrite (proj2 (Nat.ltb_ge sizeof n)) by lia. by split.
Qed.

Lemma retrieve_dword_spec submit va m :
  mem_good m -> 0 <= va -> va + 4 < 2 ^ 64 ->
  exists m', retrieve_dword submit va m = (dword_at submit va m, m') /\ same_view m m'.
Proof.
  intros Hm Hva Hend. destruct (retrieve_zeroed submit va 4 m) as (ok & m' & E & Hv); [done|done|lia|done|].
  exists m'. unfold retrieve_dword. rewrite E. by split.
Qed.

Lemma dword_at_range submit va m : in_width 32 (dword_at submit va m).
Proof.
  unfold dword_at. pose proof (LittleEndianList.le_combine_bound (bytes_from submit va 4 m)) as Hb.
  assert (length (bytes_from submit va 4 m) = 4%nat) as Hl by (unfold bytes_from; by rewrite length_fmap, length_seq).
  rewrite Hl in Hb. exact Hb.
Qed.
End Views.

(** ** Parity *)

(** The number of ones among the low [n] bits. *)
Fixpoint popcount (n : nat) (v : Z) : nat :=
  match n with
  | O => O
  | S n => ((if Z.testbit v (Z.of_nat n) then 1 else 0) + popcount n v)%nat
  end.

Fixpoint xor_bits (n : nat) (v : Z) : bool :=
  match n with O => false | S n => xorb (Z.testbit v (Z.of_nat n)) (xor_bits n v) end.

Lemma xor_bits_popcount n v : xor_bits n v = Nat.odd (popcount n v).
Proof.
  induction n as [|n IH]; [done|]. cbn [xor_bits popcount]. rewrite IH, Nat.odd_add.
  by destruct (Z.testbit v (Z.of_nat n)), (Nat.odd (popcount n v)).
Qed.

(** Folding the upper half onto the lower one keeps the parity. *)
Lemma xor_bits_fold n v :
  xor_bits n (Z.lxor v (Z.shiftr v (Z.of_nat n))) = xor_bits (n + n) v.
Proof.
  assert (forall k, (k <= n)%nat ->
    xor_bits k (Z.lxor v (Z.shiftr v (Z.of_nat n))) = xorb (xor_bits k v) (xor_bits k (Z.shiftr v (Z.of_nat n))))
    as Hk.
  { induction k as [|k IH]; intros Hk; [done|]. cbn [xor_bits]. rewrite IH, Z.lxor_spec by lia.
    destruct (Z.testbit v (Z.of_nat k)), (Z.testbit (Z.shiftr v (Z.of_nat n)) (Z.of_nat k)),
      (xor_bits k v), (xor_bits k (Z.shiftr v (Z.of_nat n))); done. }
  rewrite Hk by done. clear Hk.
  assert (forall k, xor_bits (k + n) v = xorb (xor_bits n v) (xor_bits k (Z.shiftr v (Z.of_nat n)))) as Hk.
  { induction k as [|k IH]; cbn [Nat.add xor_bits]; [by rewrite xorb_false_r|].
    rewrite IH, Z.shiftr_spec, Nat2Z.inj_add by lia.
    destruct (Z.testbit v _), (xor_bits n v), (xor_bits k _); done. }
  by rewrite Hk.
Qed.

Lemma xor_bits_low n v w :
  (forall i, (i < n)%nat -> Z.testbit v (Z.of_nat i) = Z.testbit w (Z.of_nat i)) -> xor_bits n v = xor_bits n w.
Proof.
  induction n as [|n IH]; intros Hvw; [done|]. cbn [xor_bits]. rewrite IH, Hvw; [done|lia|].
  intros i Hi. apply Hvw. lia.
Qed.

Lemma nibble_parity v : 0 <= v < 16 -> Z.land (Z.shiftr (Z.lnot 0x6996) v) 1 = Z.b2z (negb (xor_bits 4 v)).
Proof.
  intros Hv. assert (v ∈ seqZ 0 16) as Hin by (apply elem_of_seqZ; lia).
  assert (Forall (fun v => Z.land (Z.shiftr (Z.lnot 0x6996) v) 1 = Z.b2z (negb (xor_bits 4 v))) (seqZ 0 16))
    as Hall by (repeat constructor).
  rewrite Forall_forall in Hall. by apply Hall.
Qed.

Lemma CalcParity_xor v : CalcParity v = Z.b2z (negb (xor_bits 32 v)).
Proof.
  unfold CalcParity. set (v1 := Z.lxor v _). set (v2 := Z.lxor v1 _). set (v3 := Z.lxor v2 _).
  change 0xf with (Z.ones 4). rewrite Z.land_ones by lia.
  rewrite nibble_parity by (change 16 with (2 ^ 4); apply Z.mod_pos_bound; lia).
  rewrite (xor_bits_low 4 _ v3) by (intros i Hi; apply Z.mod_pow2_bits_low; lia).
  subst v3 v2 v1. rewrite (xor_bits_fold 4), (xor_bits_fold 8), (xor_bits_fold 16). done.
Qed.

Lemma CalcParity_popcount v : CalcParity v = Z.b2z (Nat.even (popcount 32 v)).
Proof. by rewrite CalcParity_xor, xor_bits_popcount, Nat.negb_odd. Qed.

(** ** Single-bit errors *)

Lemma bits_spec lo n v i : 0 <= lo -> 0 <= n -> 0 <= i ->
  Z.testbit (bits lo n v) i = if i <? n then Z.testbit v (i + lo) else false.
Proof.
  intros. unfold bits. rewrite Z.land_spec, Z.shiftr_spec by lia.
  destruct (Z.ltb_spec i n).
  - rewrite Z.ones_spec_low by lia. apply andb_true_r.
  - rewrite Z.ones_spec_high by lia. apply andb_false_r.
Qed.

Lemma bits_lxor lo n v w : 0 <= lo -> 0 <= n -> bits lo n (Z.lxor v w) = Z.lxor (bits lo n v) (bits lo n w).
Proof.
  intros Hlo Hn. apply Z.bits_inj'. intros i Hi.
  rewrite Z.lxor_spec, !bits_spec, Z.lxor_spec by lia. by destruct (i <? n).
Qed.

Lemma bits_pow2 lo n i : 0 <= lo -> 0 <= n -> 0 <= i ->
  bits lo n (2 ^ i) = if (lo <=? i) && (i <? lo + n) then 2 ^ (i - lo) else 0.
Proof.
  intros Hlo Hn Hi. apply Z.bits_inj'. intros j Hj. rewrite bits_spec, Z.pow2_bits_eqb by lia.
  destruct (Z.leb_spec lo i), (Z.ltb_spec i (lo + n)); cbn [andb];
    rewrite ?Z.pow2_bits_eqb, ?Z.bits_0 by lia;
    destruct (Z.ltb_spec j n), (Z.eqb_spec i (j + lo)); try destruct (Z.eqb_spec (i - lo) j); try done; lia.
Qed.

Lemma xor_bits_lxor n v w : xor_bits n (Z.lxor v w) = xorb (xor_bits n v) (xor_bits n w).
Proof.
  induction n as [|n IH]; [done|]. cbn [xor_bits]. rewrite IH, Z.lxor_spec.
  destruct (Z.testbit v _), (Z.testbit w _), (xor_bits n v), (xor_bits n w); done.
Qed.

Lemma xor_bits_pow2 n i : 0 <= i < Z.of_nat n -> xor_bits n (2 ^ i) = true.
Proof.
  intros Hi. induction n as [|n IH]; [lia|]. cbn [xor_bits]. rewrite Z.pow2_bits_eqb by lia.
  destruct (Z.eqb_spec i (Z.of_nat n)) as [->|Hne]; [|rewrite IH by lia; done].
  rewrite (xor_bits_low n (2 ^ Z.of_nat n) 0).
  - by replace (xor_bits n 0) with false by (clear; induction n as [|n IH]; cbn; [done|by rewrite Z.bits_0, <- IH]).
  - intros j Hj. rewrite Z.pow2_bits_eqb, Z.bits_0 by lia. apply Z.eqb_neq. lia.
Qed.

Lemma CalcParity_flip v i : 0 <= i < 32 -> CalcParity (Z.lxor v (2 ^ i)) <> CalcParity v.
Proof.
  intros Hi. rewrite !CalcParity_xor, xor_bits_lxor, xor_bits_pow2 by lia. by destruct (xor_bits 32 v).
Qed.

Lemma flip_field lo n v i : 0 <= lo -> 0 <= n -> 0 <= i ->
  bits lo n (Z.lxor v (2 ^ i)) =
  if (lo <=? i) && (i <? lo + n) then Z.lxor (bits lo n v) (2 ^ (i - lo)) else bits lo n v.
Proof.
  intros. rewrite bits_lxor, bits_pow2 by done. destruct (_ && _); [done|]. apply Z.lxor_0_r.
Qed.

Lemma flip_neq v j : 0 <= j -> Z.lxor v (2 ^ j) <> v.
Proof.
  intros Hj E. assert (Z.lxor v (Z.lxor v (2 ^ j)) = Z.lxor v v) as E' by (by rewrite E).
  rewrite Z.lxor_nilpotent, <- Z.lxor_assoc, Z.lxor_nilpotent, Z.lxor_0_l in E'.
  pose proof (Z.pow_pos_nonneg 2 j). lia.
Qed.

(** A field with its parity bit: [ok] after a flip of bit [i] only if the bit is
    in neither of them. *)
Lemma parity_flip lo n p v i :
  0 <= lo -> 0 <= n <= 32 -> 0 <= p -> 0 <= i -> p = lo + n -> lo <= i <= p ->
  (bits p 1 v =? CalcParity (bits lo n v)) = true ->
  (bits p 1 (Z.lxor v (2 ^ i)) =? CalcParity (bits lo n (Z.lxor v (2 ^ i)))) = false.
Proof.
  intros Hlo Hn Hp Hi -> Hr Hok. zbool. apply Z.eqb_neq. rewrite !flip_field by lia.
  destruct (decide (i = lo + n)) as [->|Hne].
  - rewrite (proj2 (Z.ltb_ge (lo + n) (lo + n))), andb_false_r by lia.
    rewrite (proj2 (Z.leb_le (lo + n) (lo + n))), (proj2 (Z.ltb_lt (lo + n) (lo + n + 1))) by lia. cbn [andb].
    rewrite <- Hok. apply flip_neq. lia.
  - rewrite (proj2 (Z.leb_gt (lo + n) i)), (proj2 (Z.leb_le lo i)), (proj2 (Z.ltb_lt i (lo + n))) by lia.
    cbn [andb]. rewrite Hok. intros E. symmetry in E. apply CalcParity_flip in E; [done|lia].
Qed.

Lemma type_flip v i : 0 <= i < 28 -> header_type (Z.lxor v (2 ^ i)) = header_type v.
Proof. intros Hi. unfold header_type. rewrite flip_field by lia. by rewrite (proj2 (Z.leb_gt 28 i)) by lia. Qed.

(** ** Building headers *)

(** The headers as the driver builds them. *)
Definition make_type4 (offset count : Z) : Z :=
  count + 2 ^ 7 * CalcParity count + 2 ^ 8 * offset + 2 ^ 27 * CalcParity offset + 2 ^ 28 * 4.
Definition make_type7 (opcode count : Z) : Z :=
  count + 2 ^ 15 * CalcParity count + 2 ^ 16 * opcode + 2 ^ 23 * CalcParity opcode + 2 ^ 28 * 7.

Lemma CalcParity_bit v : 0 <= CalcParity v < 2.
Proof. rewrite CalcParity_xor. by destruct (xor_bits 32 v). Qed.

(** The field of a sum whose other summands lie below or above it. *)
Lemma bits_sum lo n a f b : 0 <= lo -> 0 <= n -> 0 <= a < 2 ^ lo -> 0 <= f < 2 ^ n ->
  bits lo n (a + 2 ^ lo * f + 2 ^ (lo + n) * b) = f.
Proof.
  intros Hlo Hn Ha Hf. unfold bits. rewrite Z.land_ones, Z.shiftr_div_pow2 by done.
  rewrite Z.pow_add_r by done.
  replace (a + 2 ^ lo * f + 2 ^ lo * 2 ^ n * b) with (a + (f + b * 2 ^ n) * 2 ^ lo) by ring.
  rewrite Z.div_add, Z.div_small by lia. rewrite Z.add_0_l, Z_mod_plus_full. by apply Z.mod_small.
Qed.

Ltac field lo n a f b :=
  match goal with |- bits lo n ?h = _ =>
    replace h with (a + 2 ^ lo * f + 2 ^ (lo + n) * b) by lia; apply bits_sum; lia end.

Lemma make_type7_fields opcode count : in_width 7 opcode -> in_width 15 count ->
  let h := make_type7 opcode count in
  header_type h = 7 /\ type7_opcode h = opcode /\ type7_count h = count /\
  type7_opcode_parity h = CalcParity opcode /\ type7_count_parity h = CalcParity count /\ type7_zeroes h = 0.
Proof.
  intros [Ho Ho'] [Hc Hc']. cbn in Ho', Hc'. cbv zeta.
  unfold header_type, type7_opcode, type7_count, type7_opcode_parity, type7_count_parity, type7_zeroes, make_type7.
  pose proof (CalcParity_bit count). pose proof (CalcParity_bit opcode).
  generalize dependent (CalcParity count). generalize dependent (CalcParity opcode). intros po Hpo pc Hpc.
  split_and!.
  - field 28 4 (count + 2 ^ 15 * pc + 2 ^ 16 * opcode + 2 ^ 23 * po) 7 0.
  - field 16 7 (count + 2 ^ 15 * pc) opcode (po + 2 ^ 5 * 7).
  - field 0 15 0 count (pc + 2 * opcode + 2 ^ 8 * po + 2 ^ 13 * 7).
  - field 23 1 (count + 2 ^ 15 * pc + 2 ^ 16 * opcode) po (2 ^ 4 * 7).
  - field 15 1 count pc (opcode + 2 ^ 7 * po + 2 ^ 12 * 7).
  - field 24 4 (count + 2 ^ 15 * pc + 2 ^ 16 * opcode + 2 ^ 23 * po) 0 7.
Qed.

Lemma make_type4_fields offset count : in_width 19 offset -> in_width 7 count ->
  let h := make_type4 offset count in
  header_type h = 4 /\ type4_offset h = offset /\ type4_count h = count /\
  type4_offset_parity h = CalcParity offset /\ type4_count_parity h = CalcParity count.
Proof.
  intros [Ho Ho'] [Hc Hc']. cbn in Ho', Hc'. cbv zeta.
  unfold header_type, type4_offset, type4_count, type4_offset_parity, type4_count_parity, make_type4.
  pose proof (CalcParity_bit count). pose proof (CalcParity_bit offset).
  generalize dependent (CalcParity count). generalize dependent (CalcParity offset). intros po Hpo pc Hpc.
  split_and!.
  - field 28 4 (count + 2 ^ 7 * pc + 2 ^ 8 * offset + 2 ^ 27 * po) 4 0.
  - field 8 19 (count + 2 ^ 7 * pc) offset (po + 2 * 4).
  - field 0 7 0 count (pc + 2 * offset + 2 ^ 20 * po + 2 ^ 21 * 4).
  - field 27 1 (count + 2 ^ 7 * pc + 2 ^ 8 * offset) po 4.
  - field 7 1 count pc (offset + 2 ^ 19 * po + 2 ^ 20 * 4).
Qed.

(** The header check. [CalcParity] is the bit that makes the number of ones
    odd. The headers the driver builds for a register offset or an opcode and a
    count pass the check, decode to what they were built from and have the size
    of their count and the header itself; and in any register or opcode packet
    that passes, an error in one bit below the type is found. *)
Theorem header_check :
  (forall v, CalcParity v = Z.b2z (Nat.even (popcount 32 v))) /\
  (forall offset count, in_width 19 offset -> in_width 7 count ->
     let h := make_type4 offset count in
     header_ok h = true /\ type4_offset h = offset /\ type4_count h = count /\ GetPacketSize h = count + 1) /\
  (forall opcode count, in_width 7 opcode -> in_width 15 count ->
     let h := make_type7 opcode count in
     header_ok h = true /\ type7_opcode h = opcode /\ type7_count h = count /\ GetPacketSize h = count + 1) /\
  (forall h i, header_type h = 4 \/ header_type h = 7 -> header_ok h = true -> 0 <= i < 28 ->
     header_ok (Z.lxor h (2 ^ i)) = false).
Proof.
  split; [exact CalcParity_popcount|]. split_and!.
  - intros offset count Ho Hc h. destruct (make_type4_fields offset count Ho Hc) as (Ht & Eo & Ec & Epo & Epc).
    fold h in Ht, Eo, Ec, Epo, Epc. unfold header_ok, GetPacketSize. rewrite Ht, Eo, Ec, Epo, Epc, !Z.eqb_refl.
    by split_and!.
  - intros opcode count Ho Hc h. destruct (make_type7_fields opcode count Ho Hc) as (Ht & Eo & Ec & Epo & Epc & Ez).
    fold h in Ht, Eo, Ec, Epo, Epc, Ez. unfold header_ok, GetPacketSize. rewrite Ht, Eo, Ec, Epo, Epc, Ez, !Z.eqb_refl.
    by split_and!.
  - intros h i Ht Hok Hi. unfold header_ok in *. rewrite type_flip by done.
    destruct Ht as [Ht|Ht]; rewrite Ht in *; cbn [Z.eqb Pos.eqb] in *.
    + apply andb_true_iff in Hok as [Ho Hc]. destruct (decide (i <= 7)).
      * apply andb_false_iff. right. apply parity_flip; try done; lia.
      * apply andb_false_iff. left. apply parity_flip; try done; lia.
    + apply andb_true_iff in Hok as [Hok Hz]. apply andb_true_iff in Hok as [Ho Hc].
      apply andb_false_iff. destruct (decide (i <= 15)); [|destruct (decide (i <= 23))].
      * left. apply andb_false_iff. right. apply parity_flip; try done; lia.
      * left. apply andb_false_iff. left. apply parity_flip; try done; lia.
      * right. zbool. apply Z.eqb_neq. unfold type7_zeroes in *. rewrite flip_field, Hz by lia.
        rewrite (proj2 (Z.leb_le 24 i)), (proj2 (Z.ltb_lt i (24 + 4))) by lia. cbn [andb].
        rewrite Z.lxor_0_l. pose proof (Z.pow_pos_nonneg 2 (i - 24)). lia.
Qed.

(** ** A device for the witnesses

    Opcodes, fields and layouts as [adreno_pm4.xml] has them; the only 64-bit
    register is that of the vertex shader's address. *)
Definition field_dword (i : nat) (l : list byte) : Z := le_combine (take 4 (drop (4 * i) l)).
Definition field_qword (i : nat) (l : list byte) : Z := le_combine (take 8 (drop (4 * i) l)).
Definition element_bit (b : Z) (i : nat) (l : list byte) : bool := Z.testbit (field_dword (1 + 3 * i) l) b.

#[global] Instance test_pm4 : AdrenoPm4 | 100 := {|
  CP_SET_MARKER := 0x65;
  CP_CONTEXT_REG_BUNCH := 0x5c;
  CP_INDIRECT_BUFFER_PFE := 0x3f;
  CP_INDIRECT_BUFFER_PFD := 0x37;
  CP_INDIRECT_BUFFER_CHAIN := 0x57;
  CP_SET_AMBLE := 0x55;
  CP_SET_DRAW_STATE := 0x43;
  CP_START_BIN := 0x50;
  CP_END_BIN := 0x51;
  CP_FIXED_STRIDE_DRAW_TABLE := 0x7f;
  CP_EXEC_CS := 0x33;
  CP_EXEC_CS_INDIRECT := 0x41;
  CP_DRAW_INDX := 0x22;
  CP_DRAW_INDX_OFFSET := 0x38;
  CP_DRAW_INDIRECT := 0x28;
  CP_DRAW_INDX_INDIRECT := 0x29;
  CP_DRAW_INDIRECT_MULTI := 0x2a;
  CP_DRAW_AUTO := 0x24;
  RM6_DIRECT_RENDER := 1;
  RM6_BIN_VISIBILITY := 2;
  RM6_BIN_DIRECT := 3;
  RM6_BIN_RENDER_START := 4;
  RM6_BIN_END_OF_DRAWS := 5;
  RM6_BIN_RESOLVE := 6;
  RM6_BIN_RENDER_END := 7;
  sizeof_SET_MARKER := 8;
  SET_MARKER_u32All0 := field_dword 1;
  sizeof_INDIRECT_BUFFER := 16;
  INDIRECT_BUFFER_IB_BASE := field_qword 1;
  INDIRECT_BUFFER_IB_SIZE l := bits 0 20 (field_dword 3 l);
  sizeof_SET_AMBLE := 16;
  SET_AMBLE_ADDR := field_qword 1;
  SET_AMBLE_DWORDS l := bits 0 20 (field_dword 3 l);
  sizeof_SET_DRAW_STATE := 1204;
  sizeof_ARRAY_ELEMENT := 12;
  SET_DRAW_STATE_HEADER_count l := type7_count (field_dword 0 l);
  SET_DRAW_STATE_COUNT i l := bits 0 16 (field_dword (1 + 3 * i) l);
  SET_DRAW_STATE_DISABLE := element_bit 17;
  SET_DRAW_STATE_DISABLE_ALL_GROUPS := element_bit 18;
  SET_DRAW_STATE_BINNING := element_bit 20;
  SET_DRAW_STATE_GMEM := element_bit 21;
  SET_DRAW_STATE_SYSMEM := element_bit 22;
  SET_DRAW_STATE_ADDR i l := field_qword (2 + 3 * i) l;
  sizeof_START_BIN := 24;
  START_BIN_BIN_COUNT := field_dword 1;
  START_BIN_PREFIX_ADDR := field_qword 2;
  START_BIN_PREFIX_DWORDS := field_dword 4;
  sizeof_FIXED_STRIDE_DRAW_TABLE := 20;
  FIXED_STRIDE_IB_BASE := field_qword 1;
  FIXED_STRIDE_STRIDE l := bits 20 12 (field_dword 3 l);
  FIXED_STRIDE_COUNT := field_dword 4;
  GetRegInfo offset := Some (offset =? 0xa81c)
|}.

(** A captured buffer of dwords, for submit 0. *)
Definition dword_block (va_addr : Z) (dwords : list Z) : MemoryBlock :=
  mkBlock va_addr 0 (4 * Z.of_nat (length dwords)) (concat (le_split 4 <$> dwords)).

Definition test_memory_of (blocks : list (Z * list Z)) : MemoryManager :=
  set_blocks (map (fun b => dword_block (fst b) (snd b)) blocks) new_MemoryManager.

Fixpoint ascending_blocks (va : Z) (blocks : list (Z * list Z)) : bool :=
  match blocks with
  | [] => va <? 2 ^ 64
  | b :: blocks => (va <=? fst b) && ascending_blocks (fst b + 4 * Z.of_nat (length (snd b))) blocks
  end.

Lemma dword_block_data dwords : length (concat (le_split 4 <$> dwords)) = (4 * length dwords)%nat.
Proof.
  induction dwords as [|w dwords IH]; [done|]. rewrite fmap_cons. cbn [concat length].
  rewrite length_app, IH, LittleEndianList.length_le_split. lia.
Qed.

Lemma test_memory_of_ok va blocks : 0 <= va -> ascending_blocks va blocks = true -> memory_ok (test_memory_of blocks).
Proof.
  intros Hva Hs.
  assert (forall va, 0 <= va -> ascending_blocks va blocks = true ->
    va < 2 ^ 64 /\ Forall block_wf (map (fun b => dword_block (fst b) (snd b)) blocks) /\
    Forall (fun b => va <= m_va_addr b) (map (fun b => dword_block (fst b) (snd b)) blocks) /\
    Sorted.StronglySorted (follows true) (map (fun b => dword_block (fst b) (snd b)) blocks)) as Hall.
  { clear. induction blocks as [|[a ws] blocks IH]; intros va Hva Hs; cbn [ascending_blocks fst snd] in Hs; zbool.
    { split_and!; [done|constructor..]. }
    destruct (IH (a + 4 * Z.of_nat (length ws))) as (Hlt & Hw & Ha & Hs'); [lia|done|].
    cbn [map fst snd]. split; [lia|]. split_and!; constructor; try done.
    - split; cbn; [lia|lia|lia|]. rewrite dword_block_data. lia.
    - eapply Forall_impl; [exact Ha|]. cbn. intros b. lia.
    - rewrite List.Forall_forall. rewrite Forall_forall in Ha. intros b Hb _. cbn. apply Ha.
      by apply list_elem_of_In. }
  destruct (Hall va Hva Hs) as (_ & Hw & _ & Hss). by split.
Qed.
