(* ===== verification/StateTracker.v ===== *)
(** * StateTracker: the register state of the emulation

    Models [EmulateStateTracker] of [src/dive_core/common/emulate_pm4.{h,cpp}].
    The arrays [m_reg] and [m_reg_is_set], zero-initialized, are maps from the
    pair of indices with default 0; an index outside of [kNumRegs] is
    [OutOfBounds]. The assertions are compiled out. *)

From S2P Require Import Prelude Wire Memory Pm4.

#[local] Open Scope Z_scope.

Inductive ShaderEnableBit := kBINNING | kGMEM | kSYSMEM.

#[global] Instance ShaderEnableBit_eq_dec : EqDecision ShaderEnableBit.
Proof. solve_decision. Defined.

Definition ShaderEnableBit_to_Z (b : ShaderEnableBit) : Z :=
  match b with kBINNING => 0 | kGMEM => 1 | kSYSMEM => 2 end.

Inductive ShaderStage :=
  kShaderStageCs | kShaderStageGs | kShaderStageHs | kShaderStagePs | kShaderStageVs | kShaderStageCount.

Definition kShaderEnableBitCount : nat := 3.
Definition kNumRegs : Z := 0xffff + 1.

Record EmulateStateTracker := mkTracker {
  m_reg : gmap (Z * Z) Z;
  m_reg_is_set : gmap (Z * Z) Z;
  m_enable_mask : Z;
  m_enable_mask_stack : list Z;       (* the back is the last element *)
  m_shader_enable_bit : option ShaderEnableBit
}.

Definition new_EmulateStateTracker : EmulateStateTracker :=
  mkTracker ∅ ∅ (Z.shiftl 1 (Z.of_nat kShaderEnableBitCount) - 1) [] None.

Definition set_regs r s (t : EmulateStateTracker) :=
  mkTracker r s (m_enable_mask t) (m_enable_mask_stack t) (m_shader_enable_bit t).
Definition set_masks m st (t : EmulateStateTracker) :=
  mkTracker (m_reg t) (m_reg_is_set t) m st (m_shader_enable_bit t).
Definition set_shader_enable_bit b (t : EmulateStateTracker) :=
  mkTracker (m_reg t) (m_reg_is_set t) (m_enable_mask t) (m_enable_mask_stack t) b.

Definition in_regs (offset : Z) : bool := (0 <=? offset) && (offset <? kNumRegs).

(** ** Reading *)

Definition GetRegValue (offset : Z) (shader_enable_bit : ShaderEnableBit) (t : EmulateStateTracker) : outcome Z :=
  if in_regs offset then Done (default 0 (m_reg t !! (ShaderEnableBit_to_Z shader_enable_bit, offset)))
  else OutOfBounds.

Definition GetReg64Value (offset : Z) (shader_enable_bit : ShaderEnableBit) (t : EmulateStateTracker) : outcome Z :=
  low ← GetRegValue offset shader_enable_bit t;
  high ← GetRegValue (wrap 32 (offset + 1)) shader_enable_bit t;
  Done (Z.lor low (wrap 64 (Z.shiftl high 32))).

(** [offset / 8] is below the length of the array for every register. *)
Definition IsRegSet (offset : Z) (shader_enable_bit : ShaderEnableBit) (t : EmulateStateTracker) : outcome bool :=
  if in_regs offset then
    let is_set := default 0 (m_reg_is_set t !! (ShaderEnableBit_to_Z shader_enable_bit, offset / 8)) in
    Done (negb (wrap 8 (Z.land is_set (Z.shiftl 1 (offset mod 8))) =? 0))
  else OutOfBounds.

(** The overloads that read in the current pass; [OutOfBounds]: the value of an
    optional that has none. *)
Definition at_current_pass {A} (f : ShaderEnableBit -> outcome A) (t : EmulateStateTracker) : outcome A :=
  match m_shader_enable_bit t with Some b => f b | None => OutOfBounds end.

Definition GetRegValue_current (offset : Z) (t : EmulateStateTracker) : outcome Z :=
  at_current_pass (fun b => GetRegValue offset b t) t.
Definition GetReg64Value_current (offset : Z) (t : EmulateStateTracker) : outcome Z :=
  at_current_pass (fun b => GetReg64Value offset b t) t.
Definition IsRegSet_current (offset : Z) (t : EmulateStateTracker) : outcome bool :=
  at_current_pass (fun b => IsRegSet offset b t) t.

Definition UINT64_MAX : Z := 2 ^ 64 - 1.

Definition GetCurShaderAddr (stage : ShaderStage) (shader_enable_bit : ShaderEnableBit) (t : EmulateStateTracker)
  : outcome Z :=
  let at_offset (offset : Z) : outcome Z :=
    IsRegSet offset shader_enable_bit t ≫= fun is_set : bool =>
    if is_set then GetReg64Value offset shader_enable_bit t else Done UINT64_MAX in
  match stage with
  | kShaderStageCs => at_offset 0xa9b4
  | kShaderStageGs => at_offset 0xa88d
  | kShaderStageHs => at_offset 0xa834
  | kShaderStagePs => at_offset 0xa983
  | kShaderStageVs => at_offset 0xa81c
  | kShaderStageCount => Done UINT64_MAX
  end.

Definition GetBufferAddr (t : EmulateStateTracker) : Z := 0.
Definition GetBufferSize (t : EmulateStateTracker) : Z := 0.

(** ** Writing *)

Definition Tracker_Reset (t : EmulateStateTracker) : EmulateStateTracker :=
  set_shader_enable_bit None (set_regs ∅ ∅ t).

Definition PushEnableMask (enable_mask : Z) (t : EmulateStateTracker) : EmulateStateTracker :=
  set_masks enable_mask (m_enable_mask_stack t ++ [m_enable_mask t]) t.

(** [None]: the back of an empty vector. *)
Definition PopEnableMask (t : EmulateStateTracker) : option EmulateStateTracker :=
  back ← last (m_enable_mask_stack t);
  Some (set_masks back (removelast (m_enable_mask_stack t)) t).

Definition set_reg_at (i offset value : Z) (t : EmulateStateTracker) : outcome EmulateStateTracker :=
  if in_regs offset then
    let old := default 0 (m_reg_is_set t !! (i, offset / 8)) in
    Done (set_regs (<[(i, offset) := value]> (m_reg t))
            (<[(i, offset / 8) := wrap 8 (Z.lor old (Z.shiftl 1 (offset mod 8)))]> (m_reg_is_set t)) t)
  else OutOfBounds.

Fixpoint set_reg_loop (passes : list nat) (offset value : Z) (t : EmulateStateTracker) : outcome EmulateStateTracker :=
  match passes with
  | [] => Done t
  | i :: passes =>
      if negb (Z.land (m_enable_mask t) (Z.shiftl 1 (Z.of_nat i)) =? 0) then
        t ← set_reg_at (Z.of_nat i) offset value t; set_reg_loop passes offset value t
      else set_reg_loop passes offset value t
  end.

Definition SetReg (offset value : Z) (t : EmulateStateTracker) : outcome EmulateStateTracker :=
  set_reg_loop (seq 0 kShaderEnableBitCount) offset value t.

Section Packets.
Context `{AdrenoPm4} {M : Type} `{IMemoryManager M}.

Definition is_64_bit (reg_offset : Z) : bool := default false (GetRegInfo reg_offset).

(** The [switch] on the marker. *)
Definition apply_marker (marker : Z) (t : EmulateStateTracker) : EmulateStateTracker :=
  if marker =? RM6_DIRECT_RENDER then set_shader_enable_bit (Some kSYSMEM) t
  else if (marker =? RM6_BIN_VISIBILITY) || (marker =? RM6_BIN_DIRECT) then set_shader_enable_bit (Some kBINNING) t
  else if marker =? RM6_BIN_RENDER_START then set_shader_enable_bit (Some kGMEM) t
  else if marker =? RM6_BIN_END_OF_DRAWS then set_shader_enable_bit None t
  else if marker =? RM6_BIN_RESOLVE then set_shader_enable_bit (Some kGMEM) t
  else if marker =? RM6_BIN_RENDER_END then set_shader_enable_bit None t
  else t.

Definition OnMarker (submit_index va_addr : Z) (t : EmulateStateTracker) (mem : M)
  : outcome (EmulateStateTracker * M) :=
  '(packet, mem) ← retrieve sizeof_SET_MARKER sizeof_SET_MARKER submit_index va_addr mem;
  Done (apply_marker (Z.land (SET_MARKER_u32All0 packet) 0xf) t, mem).

(** A [RegPair]: the register's offset and its value. *)
Definition retrieve_pair (submit_index va_addr : Z) (mem : M) : outcome (Z * Z * M) :=
  '(reg_pair, mem) ← retrieve 8 8 submit_index va_addr mem;
  Done (le_combine (take 4 reg_pair), le_combine (drop 4 reg_pair), mem).

(** The loop of [CP_CONTEXT_REG_BUNCH]; [dword] grows in every iteration, so that
    [count] iterations are enough. *)
Fixpoint reg_bunch_loop (fuel : nat) (submit_index va_addr count dword : Z) (t : EmulateStateTracker) (mem : M)
  : outcome (EmulateStateTracker * M) :=
  if dword <? count then
    match fuel with
    | O => OutOfFuel
    | S fuel =>
        '(reg_offset, reg_value, mem) ← retrieve_pair submit_index (wrap 64 (va_addr + 4 + dword * 4)) mem;
        let dword := dword + 2 in
        t ← SetReg reg_offset reg_value t;
        if is_64_bit reg_offset then
          '(new_offset, new_value, mem) ← retrieve_pair submit_index (wrap 64 (va_addr + 4 + dword * 4)) mem;
          if new_offset =? wrap 32 (reg_offset + 1) then
            t ← SetReg new_offset new_value t;
            reg_bunch_loop fuel submit_index va_addr count (dword + 2) t mem
          else reg_bunch_loop fuel submit_index va_addr count dword t mem
        else reg_bunch_loop fuel submit_index va_addr count dword t mem
    end
  else Done (t, mem).

(** The inner loop of a type-4 packet: one register, of one or two dwords. *)
Fixpoint set_reg_dwords (size_in_dwords : nat) (i : Z) (submit_index reg_va_addr reg_offset : Z)
    (t : EmulateStateTracker) (mem : M) : outcome (EmulateStateTracker * M) :=
  match size_in_dwords with
  | O => Done (t, mem)
  | S n =>
      let '(reg_value, mem) := retrieve_dword submit_index (wrap 64 (reg_va_addr + i * 4)) mem in
      t ← SetReg (wrap 32 (reg_offset + i)) reg_value t;
      set_reg_dwords n (i + 1) submit_index reg_va_addr reg_offset t mem
  end.

Fixpoint type4_loop (fuel : nat) (submit_index va_addr header offset_in_bytes dword : Z)
    (t : EmulateStateTracker) (mem : M) : outcome (EmulateStateTracker * M) :=
  if dword <? type4_count header then
    match fuel with
    | O => OutOfFuel
    | S fuel =>
        let reg_va_addr := wrap 64 (va_addr + 4 + offset_in_bytes) in
        let reg_offset := type4_offset header + dword in
        let size_in_dwords := if is_64_bit reg_offset then 2%nat else 1%nat in
        '(t, mem) ← set_reg_dwords size_in_dwords 0 submit_index reg_va_addr reg_offset t mem;
        type4_loop fuel submit_index va_addr header (offset_in_bytes + Z.of_nat size_in_dwords * 4)
          (dword + Z.of_nat size_in_dwords) t mem
    end
  else Done (t, mem).

Definition Tracker_OnPacket (submit_index va_addr header : Z) (t : EmulateStateTracker) (mem : M)
  : outcome (bool * EmulateStateTracker * M) :=
  '(t, mem) ←
    (if is_packet header CP_SET_MARKER then OnMarker submit_index va_addr t mem else Done (t, mem));
  '(t, mem) ←
    (if is_packet header CP_CONTEXT_REG_BUNCH then
       reg_bunch_loop (Z.to_nat (type7_count header)) submit_index va_addr (type7_count header) 0 t mem
     else if header_type header =? 4 then
       type4_loop (Z.to_nat (type4_count header)) submit_index va_addr header 0 0 t mem
     else Done (t, mem));
  Done (true, t, mem).
End Packets.

(** ** The register file

    What a client sees of a register in a pass: nothing, or the value it was set
    to. *)
Definition reg_view (t : EmulateStateTracker) (b : ShaderEnableBit) (o : Z) : option Z :=
  match IsRegSet o b t, GetRegValue o b t with
  | Done true, Done v => Some v
  | _, _ => None
  end.

Definition pass_enabled (t : EmulateStateTracker) (b : ShaderEnableBit) : bool :=
  Z.testbit (m_enable_mask t) (ShaderEnableBit_to_Z b).

(** The parts that setting a register leaves alone. *)
Definition same_control (t t' : EmulateStateTracker) : Prop :=
  m_enable_mask t' = m_enable_mask t /\ m_enable_mask_stack t' = m_enable_mask_stack t /\
  m_shader_enable_bit t' = m_shader_enable_bit t.

(** Register writes one after the other. *)
Fixpoint SetRegs (pairs : list (Z * Z)) (t : EmulateStateTracker) : outcome EmulateStateTracker :=
  match pairs with
  | [] => Done t
  | (offset, value) :: pairs => t ← SetReg offset value t; SetRegs pairs t
  end.

Lemma ShaderEnableBit_inj b b' : ShaderEnableBit_to_Z b = ShaderEnableBit_to_Z b' -> b = b'.
Proof. by destruct b, b'. Qed.

Lemma land_bit v i : 0 <= i -> negb (Z.land v (Z.shiftl 1 i) =? 0) = Z.testbit v i.
Proof.
  intros Hi. rewrite Z.shiftl_1_l. destruct (Z.eqb_spec (Z.land v (2 ^ i)) 0) as [E|E].
  - assert (Z.testbit (Z.land v (2 ^ i)) i = false) as Hb by (by rewrite E, Z.bits_0).
    rewrite Z.land_spec, Z.pow2_bits_true, andb_true_r in Hb by done. by rewrite Hb.
  - symmetry. apply not_false_iff_true. intros Hf. apply E. apply Z.bits_inj'. intros j Hj.
    rewrite Z.land_spec, Z.pow2_bits_eqb, Z.bits_0 by done. destruct (Z.eqb_spec i j) as [->|]; [by rewrite Hf|].
    by rewrite andb_false_r.
Qed.

Lemma wrap8_bit v i : 0 <= i < 8 -> wrap 8 (Z.land v (Z.shiftl 1 i)) = Z.land v (Z.shiftl 1 i).
Proof.
  intros Hi. unfold wrap. rewrite <- Z.land_ones by lia. rewrite <- Z.land_assoc. f_equal.
  rewrite Z.shiftl_1_l. apply Z.bits_inj'. intros j Hj. rewrite Z.land_spec, Z.pow2_bits_eqb by lia.
  destruct (Z.eqb_spec i j) as [->|]; [|done]. rewrite Z.ones_spec_low by lia. done.
Qed.

Lemma IsRegSet_bit o b t : in_regs o = true ->
  IsRegSet o b t = Done (Z.testbit (default 0 (m_reg_is_set t !! (ShaderEnableBit_to_Z b, o / 8))) (o mod 8)).
Proof.
  intros Ho. unfold IsRegSet. rewrite Ho. f_equal.
  pose proof (Z.mod_pos_bound o 8). rewrite wrap8_bit by lia. apply land_bit. lia.
Qed.

Lemma set_bit_spec old k j : 0 <= k < 8 -> 0 <= j < 8 ->
  Z.testbit (wrap 8 (Z.lor old (Z.shiftl 1 k))) j = (k =? j) || Z.testbit old j.
Proof.
  intros Hk Hj. unfold wrap. rewrite Z.mod_pow2_bits_low by lia.
  rewrite Z.lor_spec, Z.shiftl_1_l, Z.pow2_bits_eqb by lia. apply orb_comm.
Qed.

(** One pass of [SetReg]. *)
Lemma set_reg_at_spec i offset value t : in_regs offset = true ->
  exists t', set_reg_at i offset value t = Done t' /\ same_control t t' /\
    forall b o, reg_view t' b o =
      if (ShaderEnableBit_to_Z b =? i) && (o =? offset) then Some value else reg_view t b o.
Proof.
  intros Ho. unfold set_reg_at. rewrite Ho. eexists. split; [done|]. split; [done|]. intros b o.
  unfold reg_view. destruct (in_regs o) eqn:Hr.
  2: { unfold IsRegSet. rewrite Hr. destruct (Z.eqb_spec o offset); [congruence|]. by rewrite andb_false_r. }
  rewrite !IsRegSet_bit by done. unfold GetRegValue. rewrite Hr. cbn [m_reg m_reg_is_set set_regs].
  pose proof (Z.mod_pos_bound o 8). pose proof (Z.mod_pos_bound offset 8).
  destruct (Z.eqb_spec (ShaderEnableBit_to_Z b) i) as [<-|Hi]; cbn [andb].
  - destruct (Z.eqb_spec o offset) as [->|Hne].
    + rewrite !lookup_insert_eq. cbn [default id]. rewrite set_bit_spec, Z.eqb_refl by lia. done.
    + rewrite (lookup_insert_ne (m_reg t)) by congruence.
      destruct (decide (o / 8 = offset / 8)) as [E|E].
      * rewrite E, lookup_insert_eq. cbn [default id]. rewrite set_bit_spec by lia.
        destruct (Z.eqb_spec (offset mod 8) (o mod 8)) as [E'|]; [|done].
        exfalso. apply Hne. rewrite (Z.div_mod o 8), (Z.div_mod offset 8) by lia. congruence.
      * by rewrite lookup_insert_ne by congruence.
  - by rewrite !lookup_insert_ne by congruence.
Qed.

Lemma same_control_trans t1 t2 t3 : same_control t1 t2 -> same_control t2 t3 -> same_control t1 t3.
Proof. unfold same_control. intros (-> & -> & ->). done. Qed.

(** [SetReg] writes to the passes of the mask. *)
Lemma SetReg_spec offset value t : in_regs offset = true ->
  exists t', SetReg offset value t = Done t' /\ same_control t t' /\
    forall b o, reg_view t' b o =
      if pass_enabled t b && (o =? offset) then Some value else reg_view t b o.
Proof.
  intros Ho. unfold SetReg.
  assert (forall passes t0, same_control t t0 ->
    exists t', set_reg_loop passes offset value t0 = Done t' /\ same_control t t' /\
      forall b o, reg_view t' b o =
        if pass_enabled t b && bool_decide (Z.to_nat (ShaderEnableBit_to_Z b) ∈ passes) && (o =? offset)
        then Some value else reg_view t0 b o) as Hloop.
  { induction passes as [|i passes IH]; intros t0 Hc; cbn [set_reg_loop].
    { exists t0. split; [done|]. split; [done|]. intros b o. rewrite bool_decide_false by set_solver.
      by rewrite andb_false_r. }
    rewrite land_bit by lia. destruct Hc as (Hm & Hc). rewrite Hm. destruct (Z.testbit _ (Z.of_nat i)) eqn:Hi.
    - destruct (set_reg_at_spec (Z.of_nat i) offset value t0 Ho) as (t1 & -> & Hc1 & Hv1). cbn [mbind outcome_bind].
      destruct (IH t1) as (t' & -> & Hc' & Hv'); [by eapply same_control_trans; [split|]|].
      exists t'. split; [done|]. split; [done|]. intros b o. rewrite Hv', Hv1.
      destruct (Z.eqb_spec (ShaderEnableBit_to_Z b) (Z.of_nat i)) as [E|E].
      + unfold pass_enabled. rewrite E, Hi, Nat2Z.id. rewrite (bool_decide_true (i ∈ i :: _)) by set_solver.
        destruct (bool_decide _), (o =? offset); done.
      + assert (Z.to_nat (ShaderEnableBit_to_Z b) <> i) by (destruct b; cbn in *; lia).
        rewrite (bool_decide_ext (_ ∈ i :: passes) (Z.to_nat (ShaderEnableBit_to_Z b) ∈ passes)) by set_solver.
        done.
    - destruct (IH t0) as (t' & -> & Hc' & Hv'); [done|]. exists t'. split; [done|]. split; [done|].
      intros b o. rewrite Hv'. unfold pass_enabled.
      destruct (Z.eqb_spec (ShaderEnableBit_to_Z b) (Z.of_nat i)) as [E|E].
      + by rewrite E, Hi.
      + assert (Z.to_nat (ShaderEnableBit_to_Z b) <> i) by (destruct b; cbn in *; lia).
        rewrite (bool_decide_ext (_ ∈ i :: passes) (Z.to_nat (ShaderEnableBit_to_Z b) ∈ passes)) by set_solver.
        done. }
  destruct (Hloop (seq 0 kShaderEnableBitCount) t) as (t' & E & Hc & Hv); [done|].
  exists t'. split; [done|]. split; [done|]. intros b o. rewrite Hv.
  rewrite bool_decide_true by (destruct b; cbn; set_solver). by rewrite andb_true_r.
Qed.

Lemma SetReg_out offset value t b : in_regs offset = false -> pass_enabled t b = true ->
  SetReg offset value t = OutOfBounds.
Proof.
  intros Ho Hb. unfold SetReg.
  assert (forall passes, Z.to_nat (ShaderEnableBit_to_Z b) ∈ passes -> set_reg_loop passes offset value t = OutOfBounds)
    as Hloop.
  { induction passes as [|i passes IH]; [set_solver|]. intros Hin. cbn [set_reg_loop]. rewrite land_bit by lia.
    unfold set_reg_at. rewrite Ho. destruct (Z.testbit _ (Z.of_nat i)) eqn:Hi; [done|].
    apply IH. apply elem_of_cons in Hin as [E|]; [|done]. exfalso.
    unfold pass_enabled in Hb. rewrite <- E, Z2Nat.id in Hi by (destruct b; cbn; lia). congruence. }
  apply Hloop. destruct b; cbn; set_solver.
Qed.

(** ** Packets as register writes *)

Section Writes.
Context `{AdrenoPm4} {M : Type} `{MemoryLaws M}.

(** The number of dwords that a type-4 packet writes. *)
Fixpoint type4_dwords (fuel : nat) (count offset dword : Z) : Z :=
  if dword <? count then
    match fuel with
    | O => dword
    | S fuel => type4_dwords fuel count offset (dword + if is_64_bit (offset + dword) then 2 else 1)
    end
  else dword.

Lemma type4_dwords_bounds fuel count offset dword :
  dword <= count + 1 -> count - dword <= Z.of_nat fuel ->
  dword <= type4_dwords fuel count offset dword <= count + 1 /\ count <= type4_dwords fuel count offset dword.
Proof.
  revert dword. induction fuel as [|fuel IH]; intros dword Hd Hf; cbn [type4_dwords];
    destruct (Z.ltb_spec dword count) as [Hlt|Hge]; try lia.
  destruct (IH (dword + if is_64_bit (offset + dword) then 2 else 1)) as [? ?];
    destruct (is_64_bit _); lia.
Qed.

Lemma type4_dwords_32 fuel count offset dword :
  0 <= dword <= count -> count - dword <= Z.of_nat fuel ->
  (forall k, 0 <= k < count -> is_64_bit (offset + k) = false) ->
  type4_dwords fuel count offset dword = count.
Proof.
  intros Hd Hf H32. revert dword Hd Hf. induction fuel as [|fuel IH]; intros dword Hd Hf; cbn [type4_dwords];
    destruct (Z.ltb_spec dword count) as [Hlt|Hge]; try lia.
  rewrite H32 by lia. apply IH; lia.
Qed.

(** The writes of a type-4 packet: register [offset + k] gets dword [k]. *)
Definition type4_write (submit va_addr offset : Z) (mem : M) (k : Z) : Z * Z :=
  (offset + k, dword_at submit (va_addr + 4 + 4 * k) mem).

(** The answer of a packet that makes the register writes [pairs]. *)
Definition writes (pairs : list (Z * Z)) (t : EmulateStateTracker) (mem : M)
    (r : outcome (EmulateStateTracker * M)) : Prop :=
  match SetRegs pairs t with
  | Done t' => exists mem', r = Done (t', mem') /\ same_view mem mem'
  | OutOfBounds => r = OutOfBounds
  | OutOfFuel => False
  end.

Lemma SetReg_fuel offset value t : SetReg offset value t <> OutOfFuel.
Proof.
  unfold SetReg. generalize (seq 0 kShaderEnableBitCount). intros passes. revert t.
  induction passes as [|i passes IH]; intros t; cbn [set_reg_loop]; [done|].
  destruct (negb _); [|apply IH]. unfold set_reg_at. destruct (in_regs offset); [apply IH|done].
Qed.

Lemma writes_cons o v pairs t mem mem1 (k : EmulateStateTracker -> outcome (EmulateStateTracker * M)) :
  same_view mem mem1 ->
  (forall t', SetReg o v t = Done t' -> writes pairs t' mem1 (k t')) ->
  writes ((o, v) :: pairs) t mem (t ← SetReg o v t; k t).
Proof.
  intros Hv Hk. unfold writes in *. cbn [SetRegs].
  destruct (SetReg o v t) as [t1| |] eqn:E; cbn [mbind outcome_bind]; [|done|by apply SetReg_fuel in E].
  specialize (Hk t1 eq_refl). destruct (SetRegs pairs t1); [|done|done].
  destruct Hk as (mem' & -> & Hv'). exists mem'. split; [done|]. by eapply same_view_trans.
Qed.

Lemma le_combine_pair submit va mem :
  le_combine (take 4 (bytes_from submit va 8 mem)) = dword_at submit va mem /\
  le_combine (drop 4 (bytes_from submit va 8 mem)) = dword_at submit (va + 4) mem.
Proof.
  split; [done|]. unfold dword_at, bytes_from. f_equal. cbn [seq fmap list_fmap drop].
  replace (va + 4 + Z.of_nat 0) with (va + Z.of_nat 4) by lia.
  replace (va + 4 + Z.of_nat 1) with (va + Z.of_nat 5) by lia.
  replace (va + 4 + Z.of_nat 2) with (va + Z.of_nat 6) by lia.
  by replace (va + 4 + Z.of_nat 3) with (va + Z.of_nat 7) by lia.
Qed.

Lemma retrieve_pair_spec submit va mem : mem_good mem -> 0 <= va -> va + 8 < 2 ^ 64 ->
  exists mem', retrieve_pair submit va mem = Done (dword_at submit va mem, dword_at submit (va + 4) mem, mem') /\
    same_view mem mem'.
Proof.
  intros Hm Hva Hend. unfold retrieve_pair.
  destruct (retrieve_spec submit va 8 8 mem) as (mem' & -> & Hv); [done|done|lia|done|].
  exists mem'. split; [|done]. cbn [mbind outcome_bind]. rewrite Nat.sub_diag, app_nil_r.
  by destruct (le_combine_pair submit va mem) as [-> ->].
Qed.

(** [set_reg_dwords]: the [n] registers from [dword + i] on. *)
Lemma set_reg_dwords_writes submit va offset dword (n : nat) i t mem :
  mem_good mem -> 0 <= va -> 0 <= offset < 2 ^ 19 -> 0 <= dword <= 2 ^ 15 -> 0 <= i -> i + Z.of_nat n <= 2 ->
  va + 12 + 4 * dword < 2 ^ 64 ->
  writes (type4_write submit va offset mem <$> seqZ (dword + i) (Z.of_nat n)) t mem
    (set_reg_dwords n i submit (va + 4 + 4 * dword) (offset + dword) t mem).
Proof.
  intros Hm Hva Ho Hd. revert i t mem Hm.
  induction n as [|n IH]; intros i t mem Hm Hi Hn Hend.
  { exists mem. split; [done|by apply same_view_refl]. }
  cbn [set_reg_dwords]. rewrite (wrap_small 64) by (split; lia). rewrite (wrap_small 32) by (split; lia).
  destruct (retrieve_dword_spec submit (va + 4 + 4 * dword + i * 4) mem) as (mem1 & -> & Hv1); [done|lia|lia|].
  rewrite seqZ_cons, fmap_cons by lia. unfold type4_write at 1.
  replace (offset + (dword + i)) with (offset + dword + i) by lia.
  replace (va + 4 + 4 * (dword + i)) with (va + 4 + 4 * dword + i * 4) by lia.
  apply (writes_cons _ _ _ _ _ mem1 (fun t => set_reg_dwords n (i + 1) submit _ _ t mem1)); [done|]. intros t1 _.
  replace (Z.succ (dword + i)) with (dword + (i + 1)) by lia.
  replace (Z.pred (Z.of_nat (S n))) with (Z.of_nat n) by lia.
  rewrite (list_fmap_ext _ (type4_write submit va offset mem1) _).
  - apply IH; [by destruct Hv1|lia|lia|done].
  - intros j k _. unfold type4_write. by rewrite (dword_at_view _ _ mem mem1).
Qed.

Lemma writes_app l1 l2 t mem (r : outcome (EmulateStateTracker * M))
    (k : EmulateStateTracker -> M -> outcome (EmulateStateTracker * M)) :
  writes l1 t mem r ->
  (forall t1 mem1, same_view mem mem1 -> writes l2 t1 mem1 (k t1 mem1)) ->
  writes (l1 ++ l2) t mem ('(t, mem) ← r; k t mem).
Proof.
  assert (SetRegs (l1 ++ l2) t = (t1 ← SetRegs l1 t; SetRegs l2 t1)) as E.
  { revert t. induction l1 as [|[o v] l1 IH]; intros t; [done|]. cbn [SetRegs app].
    destruct (SetReg o v t) as [t1| |]; [apply IH|done|done]. }
  intros Hr Hk. unfold writes in *. rewrite E.
  destruct (SetRegs l1 t) as [t1| |]; [|by rewrite Hr|done].
  destruct Hr as (mem1 & -> & Hv1). cbn [mbind outcome_bind]. specialize (Hk t1 mem1 Hv1).
  destruct (SetRegs l2 t1); [|done|done]. destruct Hk as (mem' & -> & Hv'). exists mem'. split; [done|].
  by eapply same_view_trans.
Qed.

Lemma type4_loop_writes fuel submit va header dword t mem :
  mem_good mem -> 0 <= va -> va + 16 + 4 * type4_count header < 2 ^ 64 -> 0 <= dword ->
  type4_count header - dword <= Z.of_nat fuel ->
  let n := type4_dwords fuel (type4_count header) (type4_offset header) dword in
  writes (type4_write submit va (type4_offset header) mem <$> seqZ dword (n - dword)) t mem
    (type4_loop fuel submit va header (4 * dword) dword t mem).
Proof.
  intros Hm Hva Hend. pose proof (bits_range 0 7 header ltac:(lia)) as Hc. fold (type4_count header) in Hc.
  pose proof (bits_range 8 19 header ltac:(lia)) as Ho. fold (type4_offset header) in Ho.
  cbv [in_width] in Hc, Ho. revert dword t mem Hm.
  assert (forall dword t mem, mem_good mem -> writes (type4_write submit va (type4_offset header) mem <$>
    seqZ dword (dword - dword)) t mem (Done (t, mem))) as Hdone.
  { intros dword t mem Hm. rewrite Z.sub_diag. exists mem. split; [done|by apply same_view_refl]. }
  induction fuel as [|fuel IH]; intros dword t mem Hm Hd Hf; cbn [type4_loop type4_dwords];
    destruct (Z.ltb_spec dword (type4_count header)) as [Hlt|Hge]; try lia; try by apply Hdone.
  rewrite (wrap_small 64) by (split; lia).
  set (two := is_64_bit (type4_offset header + dword)).
  replace (dword + (if two then 2 else 1)) with (dword + Z.of_nat (if two then 2%nat else 1%nat))
    by (by destruct two).
  set (k := if two then 2%nat else 1%nat). assert (1 <= k <= 2)%nat as Hk by (subst k; destruct two; lia).
  replace (4 * dword + Z.of_nat k * 4) with (4 * (dword + Z.of_nat k)) by lia.
  set (n := type4_dwords _ _ _ _).
  assert (dword + Z.of_nat k <= n) as Hn by (apply type4_dwords_bounds; lia).
  replace (n - dword) with (Z.of_nat k + (n - (dword + Z.of_nat k))) by lia.
  rewrite seqZ_app, fmap_app by lia.
  apply (writes_app _ _ _ _ _ (fun t mem => type4_loop fuel submit va header _ _ t mem)).
  - pose proof (set_reg_dwords_writes submit va (type4_offset header) dword k 0 t mem) as Hw.
    rewrite Z.add_0_r in Hw. apply Hw; try done; lia.
  - intros t1 mem1 Hv1. rewrite (list_fmap_ext _ (type4_write submit va (type4_offset header) mem1) _).
    + apply IH; [by destruct Hv1|lia|lia].
    + intros i x _. unfold type4_write. by rewrite (dword_at_view _ _ mem mem1).
Qed.
End Writes.

(** ** Register bunches *)

Section Bunch.
Context `{AdrenoPm4} {M : Type} `{MemoryLaws M}.

(** Pair [j] of the packet. *)
Definition bunch_pair (submit va_addr : Z) (mem : M) (j : Z) : Z * Z :=
  (dword_at submit (va_addr + 4 + 8 * j) mem, dword_at submit (va_addr + 8 + 8 * j) mem).

(** Pair [j] is a 64-bit register and the next pair its upper half. *)
Definition joined (submit va_addr : Z) (mem : M) (j : Z) : bool :=
  is_64_bit (fst (bunch_pair submit va_addr mem j)) &&
  (fst (bunch_pair submit va_addr mem (j + 1)) =? wrap 32 (fst (bunch_pair submit va_addr mem j) + 1)).

(** The number of pairs that are written. *)
Fixpoint bunch_pairs (fuel : nat) (submit va_addr : Z) (mem : M) (count j : Z) : Z :=
  if 2 * j <? count then
    match fuel with
    | O => j
    | S fuel => bunch_pairs fuel submit va_addr mem count (j + if joined submit va_addr mem j then 2 else 1)
    end
  else j.

Lemma bunch_pairs_bounds fuel submit va mem count j :
  2 * j <= count + 3 -> count - 2 * j <= Z.of_nat fuel ->
  let n := bunch_pairs fuel submit va mem count j in j <= n /\ count <= 2 * n <= count + 3.
Proof.
  revert j. induction fuel as [|fuel IH]; intros j Hj Hf; cbn [bunch_pairs];
    destruct (Z.ltb_spec (2 * j) count) as [Hlt|Hge]; try lia.
  destruct (joined submit va mem j); specialize (IH (j + 2)) as IH2; specialize (IH (j + 1)); cbv zeta in *; lia.
Qed.

(** Only a 64-bit register in the last pair makes it look behind the packet. *)
Lemma bunch_pairs_inside fuel submit va mem count j :
  0 <= j -> 2 * j <= count + 1 -> count - 2 * j <= Z.of_nat fuel ->
  joined submit va mem ((count + 1) / 2 - 1) = false -> bunch_pairs fuel submit va mem count j = (count + 1) / 2.
Proof.
  intros Hj0 Hj Hf Hlast. revert j Hj0 Hj Hf. induction fuel as [|fuel IH]; intros j Hj0 Hj Hf; cbn [bunch_pairs];
    destruct (Z.ltb_spec (2 * j) count) as [Hlt|Hge]; try lia;
    try (pose proof (Z.div_mod (count + 1) 2); pose proof (Z.mod_pos_bound (count + 1) 2); lia).
  destruct (joined submit va mem j) eqn:Hjn; apply IH; try lia.
  destruct (decide (j = (count + 1) / 2 - 1)) as [->|]; [congruence|].
  pose proof (Z.div_mod (count + 1) 2). pose proof (Z.mod_pos_bound (count + 1) 2). lia.
Qed.

Lemma bunch_pair_view submit va mem mem' j :
  same_view mem mem' -> bunch_pair submit va mem' j = bunch_pair submit va mem j.
Proof. intros Hv. unfold bunch_pair. by rewrite !(dword_at_view _ _ mem mem'). Qed.

Lemma bunch_pairs_view fuel submit va mem mem' count j :
  same_view mem mem' -> bunch_pairs fuel submit va mem' count j = bunch_pairs fuel submit va mem count j.
Proof.
  intros Hv. revert j. induction fuel as [|fuel IH]; intros j; cbn [bunch_pairs]; [done|].
  unfold joined. rewrite !(bunch_pair_view _ _ mem mem') by done. by rewrite IH.
Qed.

Lemma retrieve_bunch submit va j mem :
  mem_good mem -> 0 <= va -> 0 <= j < 2 ^ 15 -> va + 4 + 8 * j + 8 < 2 ^ 64 ->
  exists mem', retrieve_pair submit (wrap 64 (va + 4 + 2 * j * 4)) mem
    = Done (fst (bunch_pair submit va mem j), snd (bunch_pair submit va mem j), mem') /\ same_view mem mem'.
Proof.
  intros Hm Hva Hj Hend. rewrite wrap_small by (split; lia).
  destruct (retrieve_pair_spec submit (va + 4 + 2 * j * 4) mem) as (mem' & -> & Hv); [done|lia|lia|].
  exists mem'. split; [|done]. unfold bunch_pair. cbn [fst snd].
  replace (va + 4 + 2 * j * 4) with (va + 4 + 8 * j) by lia. by replace (va + 4 + 8 * j + 4) with (va + 8 + 8 * j) by lia.
Qed.

Lemma reg_bunch_writes fuel submit va count j t mem :
  mem_good mem -> 0 <= va -> 0 <= count < 2 ^ 15 -> va + 24 + 4 * count < 2 ^ 64 -> 0 <= j ->
  count - 2 * j <= Z.of_nat fuel ->
  let n := bunch_pairs fuel submit va mem count j in
  writes (bunch_pair submit va mem <$> seqZ j (n - j)) t mem
    (reg_bunch_loop fuel submit va count (2 * j) t mem).
Proof.
  intros Hm Hva Hc Hend. revert j t mem Hm.
  assert (forall j t mem, mem_good mem ->
    writes (bunch_pair submit va mem <$> seqZ j (j - j)) t mem (Done (t, mem))) as Hdone.
  { intros j t mem Hm. rewrite Z.sub_diag. exists mem. split; [done|by apply same_view_refl]. }
  induction fuel as [|fuel IH]; intros j t mem Hm Hj Hf; cbn [reg_bunch_loop bunch_pairs];
    destruct (Z.ltb_spec (2 * j) count) as [Hlt|Hge]; try lia; try by apply Hdone.
  destruct (retrieve_bunch submit va j mem) as (mem1 & -> & Hv1); [done|done|lia|lia|].
  cbn [mbind outcome_bind].
  replace (2 * j + 2) with (2 * (j + 1)) by lia.
  set (n := bunch_pairs fuel _ _ _ _ _). set (two := joined submit va mem j) in n.
  assert (j + 1 <= n) as Hn by (pose proof (bunch_pairs_bounds fuel submit va mem count (j + if two then 2 else 1));
    destruct two; cbv zeta in *; lia).
  rewrite seqZ_cons, fmap_cons by lia. destruct (bunch_pair submit va mem j) as [o v] eqn:Ep. cbn [fst snd].
  replace (Z.pred (n - j)) with (n - (j + 1)) by lia. change (Z.succ j) with (j + 1).
  apply (writes_cons o v _ _ _ mem1); [done|]. intros t1 _.
  assert (forall j' t0 mem0, same_view mem mem0 -> n = bunch_pairs fuel submit va mem count j' -> 0 <= j' ->
    count - 2 * j' <= Z.of_nat fuel ->
    writes (bunch_pair submit va mem <$> seqZ j' (n - j')) t0 mem0 (reg_bunch_loop fuel submit va count (2 * j') t0 mem0))
    as Hrec.
  { intros j' t0 mem0 Hv0 -> Hj' Hf'. rewrite <- (bunch_pairs_view fuel submit va mem mem0) by done.
    rewrite (list_fmap_ext _ (bunch_pair submit va mem0)) by (intros; by rewrite (bunch_pair_view _ _ mem mem0)).
    apply IH; [by destruct Hv0|done|done]. }
  assert (two = is_64_bit o && (fst (bunch_pair submit va mem (j + 1)) =? wrap 32 (o + 1))) as Et
    by (unfold two, joined; by rewrite Ep).
  clearbody two. subst two.
  destruct (is_64_bit o); [|apply Hrec; [done|done|lia|lia]].
  assert (mem_good mem1) as Hm1 by (by destruct Hv1).
  destruct (retrieve_bunch submit va (j + 1) mem1) as (mem2 & -> & Hv2); [done|done|lia|lia|].
  rewrite (bunch_pair_view _ _ mem mem1) by done. cbn [mbind outcome_bind andb] in *.
  destruct (bunch_pair submit va mem (j + 1)) as [o' v'] eqn:Ep'. cbn [fst snd] in *.
  assert (same_view mem mem2) as Hv by (by eapply same_view_trans).
  destruct (o' =? wrap 32 (o + 1)).
  - assert (j + 2 <= n) as Hn2
      by (pose proof (bunch_pairs_bounds fuel submit va mem count (j + 2)); cbv zeta in *; lia).
    rewrite seqZ_cons, fmap_cons, Ep' by lia. replace (2 * (j + 1) + 2) with (2 * (j + 2)) by lia.
    replace (Z.pred (n - (j + 1))) with (n - (j + 2)) by lia. replace (Z.succ (j + 1)) with (j + 2) by lia.
    apply (writes_cons o' v' _ _ _ mem2); [done|]. intros t2 _. apply Hrec; [done|done|lia|lia].
  - unfold writes. pose proof (Hrec (j + 1) t1 mem2 Hv eq_refl) as Hw. unfold writes in Hw.
    destruct (SetRegs _ t1); [|by apply Hw; lia|by apply Hw; lia].
    destruct Hw as (mem' & -> & Hv'); [lia|lia|]. exists mem'. split; [done|]. by eapply same_view_trans.
Qed.
End Bunch.

Section Packet.
Context `{AdrenoPm4} {M : Type} `{MemoryLaws M}.

(** The answer of [Tracker_OnPacket] to a packet that makes the register writes
    [pairs]. *)
Definition packet_writes (pairs : list (Z * Z)) (t : EmulateStateTracker) (mem : M)
    (r : outcome (bool * EmulateStateTracker * M)) : Prop :=
  match SetRegs pairs t with
  | Done t' => exists mem', r = Done (true, t', mem') /\ same_view mem mem'
  | OutOfBounds => r = OutOfBounds
  | OutOfFuel => False
  end.

Lemma packet_of_writes pairs t mem r :
  writes pairs t mem r -> packet_writes pairs t mem ('(t, mem) ← r; Done (true, t, mem)).
Proof.
  unfold writes, packet_writes. destruct (SetRegs pairs t); [|by intros ->|done].
  intros (mem' & -> & Hv). by exists mem'.
Qed.

Lemma type4_not_packet header opcode : header_type header = 4 -> is_packet header opcode = false.
Proof. unfold is_packet. by intros ->. Qed.

Lemma Tracker_OnPacket_type4 submit va header t mem :
  header_type header = 4 ->
  Tracker_OnPacket submit va header t mem =
  '(t, mem) ← type4_loop (Z.to_nat (type4_count header)) submit va header 0 0 t mem; Done (true, t, mem).
Proof.
  intros Ht. unfold Tracker_OnPacket. rewrite !type4_not_packet by done. cbn [mbind outcome_bind]. by rewrite Ht.
Qed.

Lemma Tracker_OnPacket_bunch submit va header t mem :
  is_packet header CP_CONTEXT_REG_BUNCH = true -> CP_SET_MARKER <> CP_CONTEXT_REG_BUNCH ->
  Tracker_OnPacket submit va header t mem =
  '(t, mem) ← reg_bunch_loop (Z.to_nat (type7_count header)) submit va (type7_count header) 0 t mem;
  Done (true, t, mem).
Proof.
  intros Hb Hne. unfold Tracker_OnPacket. rewrite Hb. unfold is_packet in *. zbool.
  destruct (Z.eqb_spec (type7_opcode header) CP_SET_MARKER); [congruence|]. by rewrite andb_false_r.
Qed.

(** C37: packets that set registers. A write reaches the passes of the enable
    mask and no other register, and leaves the array for an offset above 65535. A
    type-4 packet makes the writes of its dwords to consecutive registers: [count]
    of them, or one more, from behind the packet, if a 64-bit register begins in
    its last dword. A register bunch makes the writes of its pairs in order, and
    one more only if its last pair is a 64-bit register and what follows the
    packet looks like its upper half. Nothing else sets a register. *)
Theorem register_packets submit va header t mem :
  mem_good mem -> 0 <= va -> va + 2 ^ 18 < 2 ^ 64 -> CP_SET_MARKER <> CP_CONTEXT_REG_BUNCH ->
  (forall o v, in_regs o = true ->
     exists t', SetReg o v t = Done t' /\ same_control t t' /\
       forall b o', reg_view t' b o' = if pass_enabled t b && (o' =? o) then Some v else reg_view t b o') /\
  (forall o v b, in_regs o = false -> pass_enabled t b = true -> SetReg o v t = OutOfBounds) /\
  (header_type header = 4 ->
     let count := type4_count header in
     let n := type4_dwords (Z.to_nat count) count (type4_offset header) 0 in
     packet_writes (type4_write submit va (type4_offset header) mem <$> seqZ 0 n) t mem
       (Tracker_OnPacket submit va header t mem) /\
     count <= n <= count + 1 /\
     ((forall k, 0 <= k < count -> is_64_bit (type4_offset header + k) = false) -> n = count)) /\
  (is_packet header CP_CONTEXT_REG_BUNCH = true ->
     let count := type7_count header in
     let n := bunch_pairs (Z.to_nat count) submit va mem count 0 in
     packet_writes (bunch_pair submit va mem <$> seqZ 0 n) t mem (Tracker_OnPacket submit va header t mem) /\
     count <= 2 * n <= count + 3 /\
     (joined submit va mem ((count + 1) / 2 - 1) = false -> n = (count + 1) / 2)) /\
  (header_type header <> 4 -> is_packet header CP_CONTEXT_REG_BUNCH = false ->
     exists t' mem', Tracker_OnPacket submit va header t mem = Done (true, t', mem') /\
       forall b o, reg_view t' b o = reg_view t b o).
Proof.
  intros Hm Hva Hend Hne. split; [intros o v; apply SetReg_spec|]. split; [intros o v b; apply SetReg_out|].
  pose proof (bits_range 0 7 header ltac:(lia)) as H4. fold (type4_count header) in H4. cbv [in_width] in H4.
  pose proof (bits_range 0 15 header ltac:(lia)) as H7. fold (type7_count header) in H7. cbv [in_width] in H7.
  split; [|split].
  - intros Ht count n. subst count. rewrite Tracker_OnPacket_type4 by done. split_and!.
    + apply packet_of_writes. pose proof (type4_loop_writes (Z.to_nat (type4_count header)) submit va header 0 t mem) as Hw.
      cbv zeta in Hw. fold n in Hw. rewrite (Z.sub_0_r n) in Hw. apply Hw; try done; lia.
    + apply type4_dwords_bounds; lia.
    + apply type4_dwords_bounds; lia.
    + apply type4_dwords_32; lia.
  - intros Hb count n. subst count. rewrite Tracker_OnPacket_bunch by done.
    destruct (bunch_pairs_bounds (Z.to_nat (type7_count header)) submit va mem (type7_count header) 0) as [_ Hn];
      [lia|lia|]. fold n in Hn. split_and!.
    + apply packet_of_writes.
      pose proof (reg_bunch_writes (Z.to_nat (type7_count header)) submit va (type7_count header) 0 t mem) as Hw.
      cbv zeta in Hw. fold n in Hw. rewrite (Z.sub_0_r n) in Hw. apply Hw; try done; lia.
    + lia.
    + lia.
    + apply bunch_pairs_inside; lia.
  - intros Ht Hb. unfold Tracker_OnPacket. rewrite Hb, (proj2 (Z.eqb_neq _ 4) Ht). unfold OnMarker.
    destruct (is_packet header CP_SET_MARKER).
    + unfold retrieve. rewrite Nat.ltb_irrefl. destruct (memory_RetrieveMemoryData _ _ _ _) as [[ok buf] mem'].
      eexists _, _. split; [done|]. intros b o. unfold apply_marker. by repeat case_match.
    + eexists _, _. by split.
Qed.
End Packet.

(** A vertex shader's address, set for all passes. *)
Definition test_registers : MemoryManager := test_memory_of [(4096, [make_type4 0xa81c 2; 0x1000; 5])].

Lemma register_packets_witness :
  mem_good test_registers /\
  (exists t' mem', Tracker_OnPacket 0 4096 (make_type4 0xa81c 2) new_EmulateStateTracker test_registers
     = Done (true, t', mem') /\ GetCurShaderAddr kShaderStageVs kGMEM t' = Done 0x500001000).
Proof.
  assert (mem_good test_registers) as Hm by (apply (test_memory_of_ok 0); [lia|reflexivity]).
  split; [exact Hm|].
  destruct (register_packets 0 4096 (make_type4 0xa81c 2) new_EmulateStateTracker test_registers Hm)
    as (_ & _ & H4 & _); [lia|lia|discriminate|].
  destruct H4 as [Hw _]; [reflexivity|]. unfold packet_writes in Hw.
  match type of Hw with match ?s with _ => _ end => set (r := s) in Hw end.
  assert (exists t', r = Done t' /\ GetCurShaderAddr kShaderStageVs kGMEM t' = Done 0x500001000) as (t' & E & Ht).
  { destruct r as [t'| |] eqn:E; vm_compute in E; [|discriminate E|discriminate E]. exists t'. split; [reflexivity|].
    injection E as <-. vm_compute. reflexivity. }
  rewrite E in Hw. destruct Hw as (mem' & Hw & _). exists t', mem'. split; [exact Hw|exact Ht].
Defined.
