(* ===== verification/Emulate.v ===== *)
(** * Emulate: the emulation of a submit

    Models [EmulatePM4] and [EmulateCallbacksBase] of
    [src/dive_core/common/emulate_pm4.{h,cpp}]: a walk over the packets of the
    indirect buffers (IBs) of a submit that follows calls and chains with an
    explicit stack of five levels, each with a queue of pending IBs. The queue's
    arrays are one list, of which the entries before [m_ib_queue_index] are done;
    arrays are zero-initialized. The assertions are compiled out. *)

From S2P Require Import Prelude Wire Memory Pm4 StateTracker.

#[local] Open Scope Z_scope.

Inductive IbType :=
  kNormal | kCall | kChain | kContextSwitchIb | kDrawState | kBinPrefix | kBinCommon | kFixedStrideDrawTable.

#[global] Instance IbType_eq_dec : EqDecision IbType.
Proof. solve_decision. Defined.

Record IndirectBufferInfo := mkIbInfo {
  info_va_addr : Z;
  info_size_in_dwords : Z;
  info_ib_level : Z;
  info_enable_mask : Z;
  info_skip : bool
}.

(** Enumerations over a byte, which the capture files hold; other values than
    the enumerators are possible. *)
Definition EngineType : Type := Z.
Definition kUniversal : EngineType := 0.
Definition kCompute : EngineType := 1.
Definition kNone : EngineType := 5.

#[global] Instance EngineType_eq_dec : EqDecision EngineType := Z.eq_dec.

Definition QueueType : Type := Z.
Definition kQueueUniversal : QueueType := 0.
Definition kQueueNone : QueueType := 5.

Record SubmitInfo := mkSubmit {
  m_engine_type : EngineType;
  m_queue_type : QueueType;
  m_engine_index : Z;
  m_is_dummy_submit : bool;
  m_ibs : list IndirectBufferInfo
}.

Definition AppendIb (ib : IndirectBufferInfo) (s : SubmitInfo) : SubmitInfo :=
  mkSubmit (m_engine_type s) (m_queue_type s) (m_engine_index s) (m_is_dummy_submit s)
    (m_ibs s ++ [ib]).

(** ** State *)

(** An entry of the queue of pending IBs. *)
Record QueuedIb := mkQueued {
  q_type : IbType;
  q_addr : Z;
  q_size : Z;
  q_skip : bool;
  q_enable_mask : Z
}.

Record IbStack := mkIb {
  m_cur_va : Z;
  m_cur_ib_addr : Z;
  m_cur_ib_size_in_dwords : Z;
  m_cur_ib_skip : bool;
  m_cur_ib_enable_mask : Z;
  m_cur_ib_type : IbType;
  m_ib_queue : list QueuedIb;
  m_ib_queue_index : nat
}.

Definition zero_IbStack : IbStack := mkIb 0 0 0 false 0 kNormal [] 0.

Definition set_cur_va va (ib : IbStack) :=
  mkIb va (m_cur_ib_addr ib) (m_cur_ib_size_in_dwords ib) (m_cur_ib_skip ib) (m_cur_ib_enable_mask ib)
    (m_cur_ib_type ib) (m_ib_queue ib) (m_ib_queue_index ib).
Definition set_cur_skip skip (ib : IbStack) :=
  mkIb (m_cur_va ib) (m_cur_ib_addr ib) (m_cur_ib_size_in_dwords ib) skip (m_cur_ib_enable_mask ib)
    (m_cur_ib_type ib) (m_ib_queue ib) (m_ib_queue_index ib).
Definition set_queue q i (ib : IbStack) :=
  mkIb (m_cur_va ib) (m_cur_ib_addr ib) (m_cur_ib_size_in_dwords ib) (m_cur_ib_skip ib) (m_cur_ib_enable_mask ib)
    (m_cur_ib_type ib) q i.

Definition ib_end (ib : IbStack) : Z := wrap 64 (m_cur_ib_addr ib + m_cur_ib_size_in_dwords ib * 4).

Definition EndOfCurIb (ib : IbStack) : bool := m_cur_ib_skip ib || (ib_end ib <=? m_cur_va ib).

Record EmulateState := mkEmulate {
  m_ib_index : Z;
  m_submit : Z;
  m_ib_stack : list IbStack;
  m_top_of_stack : nat
}.

Definition kTotalIbLevels : nat := 5.
Definition kMaxPendingIbs : nat := 600.

Definition set_stack st (e : EmulateState) := mkEmulate (m_ib_index e) (m_submit e) st (m_top_of_stack e).
Definition set_top n (e : EmulateState) := mkEmulate (m_ib_index e) (m_submit e) (m_ib_stack e) n.
Definition set_ib_index i (e : EmulateState) := mkEmulate i (m_submit e) (m_ib_stack e) (m_top_of_stack e).

(** ** Callbacks

    [EmulateCallbacksBase] is an interface: the callbacks have a state [C] of
    their own. *)
Class EmulateCallbacks (C M : Type) := {
  OnIbStart : Z -> Z -> IndirectBufferInfo -> IbType -> C -> outcome (bool * C);
  OnIbEnd : Z -> Z -> IndirectBufferInfo -> C -> outcome (bool * C);
  OnPacket : Z -> Z -> Z -> Z -> C -> M -> outcome (bool * C * M);
  OnSubmitStart : Z -> SubmitInfo -> C -> C;
  OnSubmitEnd : Z -> SubmitInfo -> C -> C
}.

Section BaseCallbacks.
Context `{AdrenoPm4} {M : Type} `{IMemoryManager M}.

Definition base_OnIbStart (submit_index ib_index : Z) (ib_info : IndirectBufferInfo) (type : IbType)
    (t : EmulateStateTracker) : outcome (bool * EmulateStateTracker) :=
  Done (true, PushEnableMask (info_enable_mask ib_info) t).

Definition base_OnIbEnd (submit_index ib_index : Z) (ib_info : IndirectBufferInfo)
    (t : EmulateStateTracker) : outcome (bool * EmulateStateTracker) :=
  match PopEnableMask t with Some t => Done (true, t) | None => OutOfBounds end.

Definition base_OnPacket (submit_index ib_index va_addr header : Z) (t : EmulateStateTracker) (mem : M)
  : outcome (bool * EmulateStateTracker * M) :=
  Tracker_OnPacket submit_index va_addr header t mem.
End BaseCallbacks.

(** ** A step of the emulation

    The emulator's state, the callbacks' and the memory's (which caches). A
    function that returns [false] ends with [None]. *)
Definition Emu (C M A : Type) : Type :=
  EmulateState * C * M -> outcome (option A * (EmulateState * C * M)).

#[global] Instance Emu_ret {C M} : MRet (Emu C M) := fun A a s => Done (Some a, s).
#[global] Instance Emu_bind {C M} : MBind (Emu C M) := fun A B k m s =>
  match m s with
  | Done (Some a, s) => k a s
  | Done (None, s) => Done (None, s)
  | OutOfBounds => OutOfBounds
  | OutOfFuel => OutOfFuel
  end.

Section Emulator.
Context `{AdrenoPm4} {C M : Type} `{IMemoryManager M} `{EmulateCallbacks C M}.

Definition return_false {A} : Emu C M A := fun s => Done (None, s).
Definition out_of_bounds {A} : Emu C M A := fun s => OutOfBounds.
Definition out_of_fuel {A} : Emu C M A := fun s => OutOfFuel.
Definition get_state : Emu C M EmulateState := fun s => Done (Some (fst (fst s)), s).
Definition update_state (f : EmulateState -> EmulateState) : Emu C M unit := fun s =>
  let '(e, c, mem) := s in Done (Some tt, (f e, c, mem)).

(** A callback whose answer is returned when it is [false]. *)
Definition callback (f : C -> M -> outcome (bool * C * M)) : Emu C M unit := fun s =>
  let '(e, c, mem) := s in
  match f c mem with
  | Done (ok, c, mem) => Done (if ok then Some tt else None, (e, c, mem))
  | OutOfBounds => OutOfBounds
  | OutOfFuel => OutOfFuel
  end.

Definition with_mem (f : C -> outcome (bool * C)) (c : C) (mem : M) : outcome (bool * C * M) :=
  '(ok, c) ← f c; Done (ok, c, mem).

(** An access to the memory. *)
Definition access {A} (f : M -> outcome (A * M)) : Emu C M A := fun s =>
  let '(e, c, mem) := s in
  match f mem with
  | Done (a, mem) => Done (Some a, (e, c, mem))
  | OutOfBounds => OutOfBounds
  | OutOfFuel => OutOfFuel
  end.

Definition get_level (level : nat) : Emu C M IbStack :=
  e ← get_state;
  match m_ib_stack e !! level with Some ib => mret ib | None => out_of_bounds end.

Definition update_level (level : nat) (f : IbStack -> IbStack) : Emu C M unit :=
  ib ← get_level level;
  update_state (fun e => set_stack (<[level := f ib]> (m_ib_stack e)) e).

Definition GetCurIb : Emu C M IbStack := e ← get_state; get_level (m_top_of_stack e).

Definition update_cur (f : IbStack -> IbStack) : Emu C M unit :=
  e ← get_state; update_level (m_top_of_stack e) f.

(** *** Queued IBs *)

Definition QueueIB (ib_addr ib_size_in_dwords : Z) (skip : bool) (ib_type : IbType) (enable_mask : Z) : Emu C M unit :=
  cur ← GetCurIb;
  if ib_size_in_dwords =? 0 then mret tt
  else if (kMaxPendingIbs <=? length (m_ib_queue cur))%nat then return_false
  else update_cur (set_queue
         (m_ib_queue cur ++ [mkQueued ib_type ib_addr ib_size_in_dwords skip enable_mask]) (m_ib_queue_index cur)).

(** The default argument of [QueueIB]. *)
Definition all_passes : Z := 7.

Definition reset_queue : Emu C M unit := update_cur (set_queue [] 0).

(** The IB of a new level, and that of a level after a chain. *)
Definition called_ib (q : QueuedIb) : IbStack :=
  mkIb (q_addr q) (q_addr q) (q_size q) (q_skip q) (q_enable_mask q) (q_type q) [] 0.
Definition chained_ib (q : QueuedIb) (prev : IbStack) : IbStack :=
  mkIb (q_addr q) (q_addr q) (q_size q) (q_skip q) (q_enable_mask q) (m_cur_ib_type prev) (m_ib_queue prev)
    (m_ib_queue_index prev).

Definition start_info (level : nat) (ib : IbStack) : IndirectBufferInfo :=
  mkIbInfo (m_cur_va ib) (m_cur_ib_size_in_dwords ib) (wrap 8 (Z.of_nat level)) (m_cur_ib_enable_mask ib)
    (m_cur_ib_skip ib).

Definition end_info (level : nat) (ib : IbStack) : IndirectBufferInfo :=
  mkIbInfo (m_cur_ib_addr ib) (m_cur_ib_size_in_dwords ib) (wrap 8 (Z.of_nat level)) 0 (m_cur_ib_skip ib).

(** The end of [AdvanceToQueuedIB]: the new IB may not be captured. *)
Definition start_cur_ib : Emu C M unit :=
  e ← get_state;
  cur ← GetCurIb;
  valid ← access (fun mem =>
    Done (memory_IsValid (m_submit e) (m_cur_va cur) (m_cur_ib_size_in_dwords cur * 4) mem, mem));
  let skip := m_cur_ib_skip cur || negb valid in
  update_cur (set_cur_skip skip) ;;
  callback (with_mem
    (OnIbStart (m_submit e) (m_ib_index e) (start_info (m_top_of_stack e) (set_cur_skip skip cur)) (m_cur_ib_type cur))).

Definition AdvanceToQueuedIB : Emu C M unit :=
  e ← get_state;
  let level := m_top_of_stack e in
  prev ← GetCurIb;
  let index := m_ib_queue_index prev in
  match m_ib_queue prev !! index with
  | None => mret tt
  | Some q =>
      (if decide (q_type q = kChain) then
         match m_ib_queue prev !! 0%nat with
         | None => mret tt
         | Some first =>
             if negb (m_cur_va prev =? ib_end prev) then return_false
             else update_level level (chained_ib first)
         end
       else
         (if decide (q_type q = kNormal) then update_state (set_ib_index (Z.of_nat index)) else mret tt) ;;
         update_state (set_top (S level)) ;;
         update_cur (fun _ => called_ib q)) ;;
      update_level level (fun ib => set_queue (m_ib_queue ib) (S index) ib) ;;
      start_cur_ib
  end.

(** At the primary ring the level would become -1. *)
Definition AdvanceOutOfIB : Emu C M unit :=
  e ← get_state;
  cur ← GetCurIb;
  match m_top_of_stack e with
  | O => out_of_bounds
  | S level =>
      update_state (set_top level) ;;
      callback (with_mem (OnIbEnd (m_submit e) (m_ib_index e) (end_info level cur)))
  end.

Fixpoint check_loop (fuel : nat) : Emu C M unit :=
  cur ← GetCurIb;
  if negb (m_cur_va cur =? UINT64_MAX) && EndOfCurIb cur then
    match fuel with
    | O => out_of_fuel
    | S fuel => AdvanceOutOfIB ;; AdvanceToQueuedIB ;; check_loop fuel
    end
  else mret tt.

(** Every iteration ends an IB: those on the stack and those in the queues. *)
Definition pending (ib : IbStack) : nat := length (m_ib_queue ib) - m_ib_queue_index ib.
Definition ibs_left (e : EmulateState) : nat :=
  m_top_of_stack e + sum_list (pending <$> take (m_top_of_stack e) (m_ib_stack e)).

Definition CheckAndAdvanceIB : Emu C M unit :=
  e ← get_state; check_loop (S (ibs_left e)).

Definition AdvancePacket (header : Z) : Emu C M unit :=
  update_cur (fun ib => set_cur_va (wrap 64 (m_cur_va ib + GetPacketSize header * 4)) ib).

(** *** Packets that refer to IBs *)

Definition read_packet (sizeof n : nat) : Emu C M (list byte) :=
  e ← get_state; cur ← GetCurIb; access (retrieve sizeof n (m_submit e) (m_cur_va cur)).

(** [for (i = 0; i < n; ++i)] *)
Fixpoint for_range (n : nat) (i : Z) (body : Z -> Emu C M unit) : Emu C M unit :=
  match n with
  | O => mret tt
  | S n => body i ;; for_range n (i + 1) body
  end.

Definition advance_call (header : Z) : Emu C M unit :=
  ib_packet ← read_packet sizeof_INDIRECT_BUFFER sizeof_INDIRECT_BUFFER;
  let ib_type := if type7_opcode header =? CP_INDIRECT_BUFFER_CHAIN then kChain else kCall in
  reset_queue ;;
  QueueIB (INDIRECT_BUFFER_IB_BASE ib_packet) (INDIRECT_BUFFER_IB_SIZE ib_packet) false ib_type all_passes ;;
  AdvancePacket header ;;
  AdvanceToQueuedIB.

(** The dwords of the packet and its header, in bytes. *)
Definition packet_bytes (header : Z) : nat := Z.to_nat ((type7_count header + 1) * 4).

Definition advance_amble (header : Z) : Emu C M unit :=
  packet ← read_packet sizeof_SET_AMBLE (packet_bytes header);
  AdvancePacket header ;;
  if SET_AMBLE_DWORDS packet =? 0 then mret tt
  else
    reset_queue ;;
    QueueIB (SET_AMBLE_ADDR packet) (SET_AMBLE_DWORDS packet) false kContextSwitchIb all_passes ;;
    AdvanceToQueuedIB.

Definition draw_state_mask (i : nat) (packet : list byte) : Z :=
  Z.lor (Z.lor (Z.b2z (SET_DRAW_STATE_BINNING i packet)) (Z.shiftl (Z.b2z (SET_DRAW_STATE_GMEM i packet)) 1))
    (Z.shiftl (Z.b2z (SET_DRAW_STATE_SYSMEM i packet)) 2).

(** The loop over [ARRAY]; it returns [ib_queued]. *)
Fixpoint queue_draw_states (packet : list byte) (n i : nat) (ib_queued : bool) : Emu C M bool :=
  match n with
  | O => mret ib_queued
  | S n =>
      if SET_DRAW_STATE_DISABLE_ALL_GROUPS i packet then mret ib_queued
      else if SET_DRAW_STATE_DISABLE i packet then queue_draw_states packet n (S i) ib_queued
      else
        QueueIB (SET_DRAW_STATE_ADDR i packet) (SET_DRAW_STATE_COUNT i packet) false kDrawState
          (draw_state_mask i packet) ;;
        queue_draw_states packet n (S i) true
  end.

Definition advance_draw_state (header : Z) : Emu C M unit :=
  packet ← read_packet sizeof_SET_DRAW_STATE (packet_bytes header);
  let array_size := Z.to_nat (SET_DRAW_STATE_HEADER_count packet * 4 / sizeof_ARRAY_ELEMENT) in
  reset_queue ;;
  ib_queued ← queue_draw_states packet array_size 0 false;
  AdvancePacket header ;;
  if (ib_queued : bool) then AdvanceToQueuedIB else mret tt.

(** The search for [CP_END_BIN]; it returns its address. *)
Fixpoint find_end_bin (fuel : nat) (submit temp_va : Z) (mem : M) : outcome (Z * M) :=
  match fuel with
  | O => OutOfFuel
  | S fuel =>
      let '(temp_header, mem) := retrieve_dword submit temp_va mem in
      if is_packet temp_header CP_END_BIN then Done (temp_va, mem)
      else find_end_bin fuel submit (wrap 64 (temp_va + GetPacketSize temp_header * 4)) mem
  end.

Definition advance_bins (fuel : nat) (header : Z) : Emu C M unit :=
  packet ← read_packet sizeof_START_BIN sizeof_START_BIN;
  e ← get_state;
  cur ← GetCurIb;
  let cp_start_common_block_va := wrap 64 (m_cur_va cur + GetPacketSize header * 4) in
  temp_va ← access (find_end_bin fuel (m_submit e) (m_cur_va cur));
  let common_block_size := wrap 64 (temp_va - cp_start_common_block_va) in
  let common_block_dword_size := wrap 32 (common_block_size / 4) in
  update_cur (set_cur_va (wrap 64 (cp_start_common_block_va + common_block_dword_size * 4))) ;;
  for_range (Z.to_nat (START_BIN_BIN_COUNT packet)) 0 (fun bin =>
    QueueIB (wrap 64 (START_BIN_PREFIX_ADDR packet + wrap 32 (bin * START_BIN_PREFIX_DWORDS packet) * 4))
      (START_BIN_PREFIX_DWORDS packet) false kBinPrefix all_passes ;;
    QueueIB cp_start_common_block_va common_block_dword_size false kBinCommon all_passes) ;;
  AdvanceToQueuedIB.

Definition advance_draw_table (header : Z) : Emu C M unit :=
  packet ← read_packet sizeof_FIXED_STRIDE_DRAW_TABLE sizeof_FIXED_STRIDE_DRAW_TABLE;
  for_range (Z.to_nat (FIXED_STRIDE_COUNT packet)) 0 (fun draw =>
    QueueIB (wrap 64 (FIXED_STRIDE_IB_BASE packet + wrap 32 (draw * FIXED_STRIDE_STRIDE packet) * 4))
      (FIXED_STRIDE_STRIDE packet) false kFixedStrideDrawTable all_passes) ;;
  AdvancePacket header ;;
  AdvanceToQueuedIB.

Definition is_indirect_buffer (header : Z) : bool :=
  is_packet header CP_INDIRECT_BUFFER_PFE || is_packet header CP_INDIRECT_BUFFER_PFD ||
  is_packet header CP_INDIRECT_BUFFER_CHAIN.

Definition AdvanceCb (fuel : nat) (header : Z) : Emu C M unit :=
  (if is_indirect_buffer header then advance_call header
   else if is_packet header CP_SET_AMBLE then advance_amble header
   else if is_packet header CP_SET_DRAW_STATE then advance_draw_state header
   else if is_packet header CP_START_BIN then advance_bins fuel header
   else if is_packet header CP_FIXED_STRIDE_DRAW_TABLE then advance_draw_table header
   else AdvancePacket header) ;;
  CheckAndAdvanceIB.

(** *** Submits *)

(** One iteration of the loop of [ExecuteSubmit]. *)
Definition execute_packet (fuel : nat) : Emu C M unit :=
  e ← get_state;
  cur ← GetCurIb;
  header ← access (fun mem => Done (retrieve_dword (m_submit e) (m_cur_va cur) mem));
  if negb (header_ok header) then return_false
  else
    callback (OnPacket (m_submit e) (m_ib_index e) (m_cur_va cur) header) ;;
    AdvanceCb fuel header.

Fixpoint execute_loop (fuel : nat) : Emu C M unit :=
  e ← get_state;
  match m_top_of_stack e with
  | O => mret tt
  | _ =>
      match fuel with
      | O => out_of_fuel
      | S fuel => execute_packet fuel ;; execute_loop fuel
      end
  end.

(** The zeroed state; the primary ring's address is [UINT64_MAX]. *)
Definition initial_state (submit_index : Z) : EmulateState :=
  mkEmulate 0 submit_index (set_cur_va UINT64_MAX zero_IbStack :: replicate 4 zero_IbStack) 0.

Fixpoint queue_ibs (ibs : list IndirectBufferInfo) : Emu C M unit :=
  match ibs with
  | [] => mret tt
  | ib_info :: ibs =>
      QueueIB (info_va_addr ib_info) (info_size_in_dwords ib_info) (info_skip ib_info) kNormal all_passes ;;
      queue_ibs ibs
  end.

Definition execute (fuel : nat) (ibs : list IndirectBufferInfo) : Emu C M unit :=
  queue_ibs ibs ;; AdvanceToQueuedIB ;; CheckAndAdvanceIB ;; execute_loop fuel.

Definition ExecuteSubmit (fuel : nat) (submit_index : Z) (ibs : list IndirectBufferInfo) (c : C) (mem : M)
  : outcome (bool * C * M) :=
  match execute fuel ibs (initial_state submit_index, c, mem) with
  | Done (r, (_, c, mem)) => Done (match r with Some _ => true | None => false end, c, mem)
  | OutOfBounds => OutOfBounds
  | OutOfFuel => OutOfFuel
  end.

Fixpoint process_submits (fuel : nat) (submit_index : Z) (submits : list SubmitInfo) (c : C) (mem : M)
  : outcome (bool * C * M) :=
  match submits with
  | [] => Done (true, c, mem)
  | submit_info :: submits =>
      let c := OnSubmitStart submit_index submit_info c in
      let next c mem := process_submits fuel (submit_index + 1) submits (OnSubmitEnd submit_index submit_info c) mem in
      if m_is_dummy_submit submit_info then next c mem
      else if bool_decide (m_engine_type submit_info <> kUniversal) && bool_decide (m_engine_type submit_info <> kCompute)
      then next c mem
      else
        '(ok, c, mem) ← ExecuteSubmit fuel submit_index (m_ibs submit_info) c mem;
        if (ok : bool) then next c mem else Done (false, c, mem)
  end.

Definition ProcessSubmits (fuel : nat) (submits : list SubmitInfo) (c : C) (mem : M) : outcome (bool * C * M) :=
  process_submits fuel 0 submits c mem.
End Emulator.
