(* ===== verification/CaptureData.v ===== *)
(** * CaptureData: what a loaded capture holds

    The data of [src/dive_core/pm4_capture_data.h] and of
    [src/dive_core/common/dive_capture_format.h] that the loaders of [RdFile] and
    [DiveFile] fill in, with the accessors of [Pm4CaptureData]. The memory is that
    of [Memory] and the submits are those of [Emulate]. *)

From S2P Require Import Prelude Wire Memory Emulate.
From coqutil Require Import Byte.

#[local] Open Scope Z_scope.

Inductive LoadResult := kSuccess | kFileIoError | kCorruptData | kVersionError.

#[global] Instance LoadResult_eq_dec : EqDecision LoadResult.
Proof. solve_decision. Defined.

(** [CaptureDataHeader], less its reserved dwords. [m_capture_type] is an
    enumeration over a byte. *)
Record CaptureDataHeader := mkCaptureDataHeader {
  m_major_version : Z;
  m_minor_version : Z;
  m_revision : Z;
  h_capture_type : Z;
  m_pal_version : Z;
  m_capture_pm4 : bool;
  m_capture_sqtt : bool;
  m_capture_spm : bool;
  m_defer_capture : bool;
  m_enable_inst_trace : bool;
  m_reset_memory_tracker : bool;
  m_device_id : Z;
  m_device_revision : Z
}.

Definition kCaptureMajorVersion : Z := 0.
Definition kCaptureMinorVersion : Z := 4.
Definition kCaptureRevision : Z := 1.
Definition kSingleFrame : Z := 0.

Definition new_CaptureDataHeader : CaptureDataHeader :=
  mkCaptureDataHeader kCaptureMajorVersion kCaptureMinorVersion kCaptureRevision kSingleFrame 0
    false false false false false false 0 0.

Record PresentInfo := mkPresent {
  m_valid_data : bool;
  p_submit_index : Z;
  p_engine_type : EngineType;
  p_queue_type : QueueType;
  m_full_screen : bool;
  m_addr : Z;
  p_size : Z;
  m_vk_format : Z;
  m_vk_color_space : Z
}.

Definition new_PresentInfo : PresentInfo := mkPresent false 0 kNone kQueueNone false 0 0 0 0.

Record TextInfo := mkText { m_name : string; t_size : Z; m_text_data : list byte }.

(** [WaveState] is 21 dwords; the ones that the loader reads have a name. *)
Definition WaveState : Type := list Z.
Definition num_sgprs (state : WaveState) : Z := nth 1 state 0.
Definition num_vgprs (state : WaveState) : Z := nth 2 state 0.
Definition WAVE_STATUS (state : WaveState) : Z := nth 4 state 0.

Record WaveStateInfo := mkWaveState {
  m_state : WaveState;
  m_sgprs : list Z;
  m_vgprs : list Z;
  m_ttmps : list Z
}.

Definition WaveInfo : Type := list WaveStateInfo.
Definition RegisterInfo : Type := gmap string Z.

(** [Pm4CaptureData], less its progress tracker. *)
Record Pm4CaptureData := mkCapture {
  m_capture_type : Z;
  m_submits : list SubmitInfo;
  m_presents : list PresentInfo;
  m_text : list TextInfo;
  m_waves : WaveInfo;
  m_registers : RegisterInfo;
  m_memory : MemoryManager;
  m_cur_capture_file : string;
  m_data_header : CaptureDataHeader
}.

Definition new_Pm4CaptureData : Pm4CaptureData :=
  mkCapture kSingleFrame [] [] [] [] ∅ new_MemoryManager "" new_CaptureDataHeader.

Definition set_submits x (c : Pm4CaptureData) :=
  mkCapture (m_capture_type c) x (m_presents c) (m_text c) (m_waves c) (m_registers c) (m_memory c)
    (m_cur_capture_file c) (m_data_header c).
Definition set_presents x (c : Pm4CaptureData) :=
  mkCapture (m_capture_type c) (m_submits c) x (m_text c) (m_waves c) (m_registers c) (m_memory c)
    (m_cur_capture_file c) (m_data_header c).
Definition set_text x (c : Pm4CaptureData) :=
  mkCapture (m_capture_type c) (m_submits c) (m_presents c) x (m_waves c) (m_registers c) (m_memory c)
    (m_cur_capture_file c) (m_data_header c).
Definition set_waves x (c : Pm4CaptureData) :=
  mkCapture (m_capture_type c) (m_submits c) (m_presents c) (m_text c) x (m_registers c) (m_memory c)
    (m_cur_capture_file c) (m_data_header c).
Definition set_registers x (c : Pm4CaptureData) :=
  mkCapture (m_capture_type c) (m_submits c) (m_presents c) (m_text c) (m_waves c) x (m_memory c)
    (m_cur_capture_file c) (m_data_header c).
Definition set_memory x (c : Pm4CaptureData) :=
  mkCapture (m_capture_type c) (m_submits c) (m_presents c) (m_text c) (m_waves c) (m_registers c) x
    (m_cur_capture_file c) (m_data_header c).
Definition set_capture_file x (c : Pm4CaptureData) :=
  mkCapture (m_capture_type c) (m_submits c) (m_presents c) (m_text c) (m_waves c) (m_registers c)
    (m_memory c) x (m_data_header c).
Definition set_data_header h (c : Pm4CaptureData) :=
  mkCapture (m_capture_type c) (m_submits c) (m_presents c) (m_text c) (m_waves c) (m_registers c)
    (m_memory c) (m_cur_capture_file c) h.
Definition set_capture_type t (c : Pm4CaptureData) :=
  mkCapture t (m_submits c) (m_presents c) (m_text c) (m_waves c) (m_registers c) (m_memory c)
    (m_cur_capture_file c) (m_data_header c).

(** ** Accessors *)

Definition GetNumSubmits (c : Pm4CaptureData) : Z := wrap 32 (Z.of_nat (length (m_submits c))).
Definition GetSubmitInfo (submit_index : Z) (c : Pm4CaptureData) : option SubmitInfo :=
  m_submits c !! Z.to_nat submit_index.
Definition GetNumPresents (c : Pm4CaptureData) : Z := wrap 32 (Z.of_nat (length (m_presents c))).
Definition GetPresentInfo (present_index : Z) (c : Pm4CaptureData) : option PresentInfo :=
  m_presents c !! Z.to_nat present_index.
Definition HasPm4Data (c : Pm4CaptureData) : bool := 0 <? Z.of_nat (length (m_submits c)).

Definition GetFileFormatVersion (c : Pm4CaptureData) : string :=
  pretty (m_major_version (m_data_header c)) +:+ "." +:+ pretty (m_minor_version (m_data_header c))
  +:+ "." +:+ pretty (m_revision (m_data_header c)).

(** ** Bytes *)

(** What a buffer holds after a read of [d] into its front. *)
Definition overwrite (buf d : list byte) : list byte := d ++ drop (length d) buf.

Definition zero_bytes (n : nat) : list byte := repeat Byte.x00 n.

(** The unsigned integer of [n] bytes at an offset. *)
Definition uint_at (offset n : nat) (bytes : list byte) : Z := le_combine (take n (drop offset bytes)).

Lemma length_overwrite buf d : (length d <= length buf)%nat -> length (overwrite buf d) = length buf.
Proof. intros. unfold overwrite. rewrite length_app, length_drop. lia. Qed.

Lemma overwrite_all buf d : length d = length buf -> overwrite buf d = d.
Proof. intros E. unfold overwrite. rewrite E, drop_all. apply app_nil_r. Qed.

Lemma le_combine_bytes n z : in_width (8 * Z.of_nat n) z -> le_combine (le_split n z) = z.
Proof.
  intros Hz. rewrite LittleEndianList.le_combine_split. apply Z.mod_small.
  by replace (Z.of_nat n * 8) with (8 * Z.of_nat n) by lia.
Qed.
