(* ===== verification/RdFile.v ===== *)
(** * RdFile: loading a capture in the .rd format

    Models [FileReader] and the loader of .rd files of
    [src/dive_core/pm4_capture_data.cpp], the GPU id that the loader sets
    ([src/dive_core/generatePm4Info_adreno.py]), and the functions that write the
    sections of such a file on the device
    ([src/third_party/freedreno/wrap/{wrap-util.c,wrap.h,wrap-syscall.c}]). The
    archive library is an interface, and the table of chips is a parameter. What
    a fresh heap buffer holds is a parameter too. Allocations succeed; assertions
    are compiled out. *)

From S2P Require Import Prelude Wire Memory Pm4 Emulate CaptureData.
From coqutil Require Import Byte.

#[local] Open Scope Z_scope.

(** ** The archive library

    The functions that [FileReader] calls. They return a status; reading gives
    the number of bytes, which is negative for an error, and the bytes. [W] is
    the state of the archive's handle. *)
Class Archive (W : Type) := {
  archive_read_support_filter_gzip : W -> Z * W;
  archive_read_support_filter_none : W -> Z * W;
  archive_read_support_format_all : W -> Z * W;
  archive_read_support_format_raw : W -> Z * W;
  archive_read_open_filename : string -> Z -> W -> Z * W;
  archive_read_next_header : W -> Z * W;
  archive_read_data : Z -> W -> (Z * list byte) * W
}.

(** What the loader relies on: the entry's bytes arrive in order, in pieces of
    at least one byte; at their end the result is [0], or an error if the
    archive is damaged there. *)
Class ArchiveLaws (W : Type) `{Archive W} := {
  rest : W -> list byte;
  ending : W -> Z;
  ending_law w : ending w <= 0;
  read_law s w : 0 < s ->
    exists n d w', archive_read_data s w = ((n, d), w') /\ ending w' = ending w /\
      ((rest w = [] /\ n = ending w /\ d = [] /\ rest w' = []) \/
       (0 < n <= s /\ Z.of_nat (length d) = n /\ rest w = d ++ rest w'))
}.

(** ** The GPU id *)

Record GpuId := mkGpuId { g_sGPU_id : Z; g_sGPU_variant : Z }.

Definition kGPUVariantNone : Z := 0.

Definition SetGPUID (gpu_id : Z) : GpuId :=
  let gpu_series := gpu_id / 100 in
  mkGpuId gpu_id (if (2 <=? gpu_series) && (gpu_series <=? 7) then Z.shiftl 1 (gpu_series - 2)
                  else kGPUVariantNone).

(** ** The loader's monad

    The capture, the GPU id and the file; a function can return a result early. *)
Record Loader (W : Type) := mkLoader { l_capture : Pm4CaptureData; l_gpu : GpuId; l_file : W }.
Arguments mkLoader {W}.
Arguments l_capture {W}.
Arguments l_gpu {W}.
Arguments l_file {W}.

Definition Load (W A : Type) : Type := Loader W -> outcome ((A + LoadResult) * Loader W).

#[global] Instance Load_ret {W} : MRet (Load W) := fun A a l => Done (inl a, l).
#[global] Instance Load_bind {W} : MBind (Load W) := fun A B k m l =>
  match m l with
  | Done (inl a, l) => k a l
  | Done (inr r, l) => Done (inr r, l)
  | OutOfBounds => OutOfBounds
  | OutOfFuel => OutOfFuel
  end.

(** Section types: [rd_sect_type]. *)
Definition RD_NONE : Z := 0.
Definition RD_TEST : Z := 1.
Definition RD_CMD : Z := 2.
Definition RD_GPUADDR : Z := 3.
Definition RD_CONTEXT : Z := 4.
Definition RD_CMDSTREAM : Z := 5.
Definition RD_CMDSTREAM_ADDR : Z := 6.
Definition RD_PARAM : Z := 7.
Definition RD_FLUSH : Z := 8.
Definition RD_PROGRAM : Z := 9.
Definition RD_VERT_SHADER : Z := 10.
Definition RD_FRAG_SHADER : Z := 11.
Definition RD_BUFFER_CONTENTS : Z := 12.
Definition RD_GPU_ID : Z := 13.
Definition RD_CHIP_ID : Z := 14.

(** The sections whose contents are read and dropped. *)
Definition skipped_section (type : Z) : bool :=
  bool_decide (type ∈ [RD_NONE; RD_TEST; RD_CONTEXT; RD_CMDSTREAM; RD_PARAM; RD_FLUSH; RD_PROGRAM;
                       RD_VERT_SHADER; RD_FRAG_SHADER]).

(** [BlockInfo block_info]: eight bytes that reads overwrite. *)
Definition block_type (block_info : list byte) : Z := uint_at 0 4 block_info.
Definition block_data_size (block_info : list byte) : Z := uint_at 4 4 block_info.
Definition is_padding (block_info : list byte) : bool :=
  (block_type block_info =? 0xffffffff) && (block_data_size block_info =? 0xffffffff).

(** The variables of the loop. *)
Record RdLocals := mkRdLocals {
  cur_gpu_addr : Z;
  cur_size : Z;
  is_new_submit : bool;
  skip_commands : bool
}.

Definition initial_locals : RdLocals := mkRdLocals (2 ^ 64 - 1) (2 ^ 32 - 1) false false.

(** [strcmp(buf, s) == 0] for an array [buf]; [None]: it reads past the array. *)
Fixpoint strcmp_eq (buf s : list byte) : option bool :=
  match buf, s with
  | [], _ => None
  | b :: _, [] => Some (bool_decide (b = Byte.x00))
  | b :: buf, c :: s => if decide (b = c) then strcmp_eq buf s else Some false
  end.

Definition name_bytes (s : string) : list byte := String.list_byte_of_string s.

Definition system_processes : list (list byte) :=
  [name_bytes "fdperf"; name_bytes "chrome"; name_bytes "surfaceflinger"].

(** The tests of a process name in [RD_CMD]. *)
Definition is_system_process (process_name : list byte) : option bool :=
  fdperf ← strcmp_eq process_name (name_bytes "fdperf");
  chrome ← strcmp_eq process_name (name_bytes "chrome");
  surfaceflinger ← strcmp_eq process_name (name_bytes "surfaceflinger");
  first ← head process_name;
  Some (fdperf || chrome || surfaceflinger || bool_decide (first = Byte.x58)).

Section Loader.
Context {W : Type} `{Archive W}.
(** [fd_dev_info(&dev_id).chip] of a chip id. *)
Context (dev_info_chip : Z -> Z).
(** The bytes of a fresh heap buffer. *)
Context (heap : nat -> byte).

Definition fresh_buffer (size : Z) : list byte := heap <$> seq 0 (Z.to_nat size).

Definition Return {A} (r : LoadResult) : Load W A := fun l => Done (inr r, l).
Definition rd_out_of_bounds {A} : Load W A := fun _ => OutOfBounds.
Definition rd_out_of_fuel {A} : Load W A := fun _ => OutOfFuel.
Definition get_capture : Load W Pm4CaptureData := fun l => Done (inl (l_capture l), l).
Definition put_capture (c : Pm4CaptureData) : Load W () := fun l => Done (inl (), mkLoader c (l_gpu l) (l_file l)).
Definition get_gpu : Load W GpuId := fun l => Done (inl (l_gpu l), l).
Definition put_gpu (g : GpuId) : Load W () := fun l => Done (inl (), mkLoader (l_capture l) g (l_file l)).

(** *** FileReader *)

(** Each call only after the ones before it returned [ARCHIVE_OK], which is 0. *)
Fixpoint first_failure (calls : list (W -> Z * W)) (w : W) : Z * W :=
  match calls with
  | [] => (0, w)
  | call :: calls => let '(ret, w) := call w in if ret =? 0 then first_failure calls w else (ret, w)
  end.

Definition FileReader_Open (file_name : string) : W -> Z * W :=
  first_failure
    [archive_read_support_filter_gzip; archive_read_support_filter_none;
     archive_read_support_format_all; archive_read_support_format_raw;
     archive_read_open_filename file_name 10240; archive_read_next_header].

(** The result, the bytes that reach the buffer, and the file. *)
Fixpoint file_read_loop (fuel : nat) (nbytes ret : Z) (acc : list byte) (w : W) : outcome (Z * list byte * W) :=
  if 0 <? nbytes then
    match fuel with
    | O => OutOfFuel
    | S fuel =>
        let '((n, d), w) := archive_read_data nbytes w in
        if n <? 0 then Done (n, acc, w)
        else if n =? 0 then Done (ret, acc, w)
        else file_read_loop fuel (nbytes - n) (ret + n) (acc ++ d) w
    end
  else Done (ret, acc, w).

(** A turn of the loop reads at least one byte. *)
Definition FileReader_Read (nbytes : Z) (w : W) : outcome (Z * list byte * W) :=
  file_read_loop (Z.to_nat nbytes) nbytes 0 [] w.

Definition Read (nbytes : Z) : Load W (Z * list byte) := fun l =>
  '(ret, d, w) ← FileReader_Read nbytes (l_file l);
  Done (inl (ret, d), mkLoader (l_capture l) (l_gpu l) w).

(** *** The sections *)

(** The address and the size; [None] if the function returns [false]. *)
Definition LoadGpuAddressAndSize (block_size : Z) : Load W (option (Z * Z)) :=
  let dword := zero_bytes 4 in
  '(ret, d) ← Read 4;
  if ret =? 0 then mret None else
  let dword := overwrite dword d in
  let gpu_addr := le_combine dword in
  '(ret, d) ← Read 4;
  if ret =? 0 then mret None else
  let dword := overwrite dword d in
  let size := le_combine dword in
  if 8 <? block_size then
    '(ret, d) ← Read 4;
    if ret =? 0 then mret None else
    let dword := overwrite dword d in
    mret (Some (Z.lor gpu_addr (Z.shiftl (le_combine dword) 32), size))
  else mret (Some (gpu_addr, size)).

Definition LoadMemoryBlockAdreno (gpu_addr size : Z) : Load W bool :=
  '(ret, d) ← Read size;
  if ret =? 0 then mret false else
  c ← get_capture;
  let submit_index := wrap 32 (Z.of_nat (length (m_submits c))) in
  put_capture (set_memory (AddMemoryBlock submit_index gpu_addr (size, overwrite (fresh_buffer size) d) (m_memory c)) c);;
  mret true.

Definition ib_of_section (gpu_addr size_in_dwords : Z) (skip_commands : bool) : IndirectBufferInfo :=
  mkIbInfo gpu_addr size_in_dwords 0 0 skip_commands.

Definition LoadCmdStreamBlockAdreno (block_size : Z) (create_new_submit skip_commands : bool) : Load W bool :=
  section ← LoadGpuAddressAndSize block_size;
  match section with
  | None => mret false
  | Some (gpu_addr, size_in_dwords) =>
      let ib_info := ib_of_section gpu_addr size_in_dwords skip_commands in
      c ← get_capture;
      if create_new_submit : bool then
        put_capture (set_submits (m_submits c ++ [mkSubmit kUniversal kQueueUniversal 0 false [ib_info]]) c);;
        mret true
      else
        match last (m_submits c) with
        | None => rd_out_of_bounds
        | Some back =>
            put_capture (set_submits (removelast (m_submits c) ++ [AppendIb ib_info back]) c);;
            mret true
        end
  end.

(** The switch over the section's type. A section of another type is left in
    the file. *)
Definition load_section (type size : Z) (st : RdLocals) : Load W RdLocals :=
  if type =? RD_GPUADDR then
    section ← LoadGpuAddressAndSize size;
    match section with
    | None => Return kFileIoError
    | Some (gpu_addr, cur_size) => mret (mkRdLocals gpu_addr cur_size true (skip_commands st))
    end
  else if type =? RD_CMDSTREAM_ADDR then
    ok ← LoadCmdStreamBlockAdreno size (is_new_submit st) (skip_commands st);
    if ok : bool then mret (mkRdLocals (cur_gpu_addr st) (cur_size st) false (skip_commands st))
    else Return kFileIoError
  else if type =? RD_BUFFER_CONTENTS then
    if negb (size =? cur_size st) then Return kCorruptData else
    ok ← LoadMemoryBlockAdreno (cur_gpu_addr st) (cur_size st);
    if ok : bool then mret st else Return kFileIoError
  else if type =? RD_CMD then
    '(ret, d) ← Read size;
    if ret =? 0 then Return kFileIoError else
    match is_system_process (overwrite (fresh_buffer size) d) with
    | None => rd_out_of_bounds
    | Some skip => mret (mkRdLocals (cur_gpu_addr st) (cur_size st) (is_new_submit st) skip)
    end
  else if skipped_section type then
    Read size;; mret st
  else if type =? RD_GPU_ID then
    '(ret, d) ← Read size;
    if Z.of_nat (length d) <=? 4 then
      put_gpu (SetGPUID (le_combine (overwrite (zero_bytes 4) d)));; mret st
    else rd_out_of_bounds
  else if type =? RD_CHIP_ID then
    gpu ← get_gpu;
    if (g_sGPU_id gpu =? 0) || (g_sGPU_variant gpu =? kGPUVariantNone) then
      '(ret, d) ← Read size;
      if Z.of_nat (length d) <=? 8 then
        let chip := dev_info_chip (le_combine (overwrite (zero_bytes 8) d)) in
        if negb (chip =? 0) then put_gpu (SetGPUID (wrap 32 (chip * 100)));; mret st
        else mret st
      else rd_out_of_bounds
    else mret st
  else mret st.

(** The loop that drops the padding before a section's header. *)
Fixpoint skip_padding (fuel : nat) (block_info : list byte) : Load W (list byte) :=
  if is_padding block_info then
    match fuel with
    | O => rd_out_of_fuel
    | S fuel =>
        '(ret, d) ← Read 8;
        let block_info := overwrite block_info d in
        if ret <=? 0 then Return kCorruptData else skip_padding fuel block_info
    end
  else mret block_info.

(** [m_memory.Finalize(true, true)] after the loop. *)
Definition finish_load : Load W LoadResult :=
  c ← get_capture;
  match Finalize true (m_memory c) with
  | None => rd_out_of_bounds
  | Some memory => put_capture (set_memory memory c);; mret kSuccess
  end.

Fixpoint load_sections (fuel : nat) (block_info : list byte) (st : RdLocals) : Load W LoadResult :=
  match fuel with
  | O => rd_out_of_fuel
  | S fuel =>
      '(ret, d) ← Read 8;
      let block_info := overwrite block_info d in
      if ret <=? 0 then
        finish_load
      else
        block_info ← skip_padding fuel block_info;
        st ← load_section (block_type block_info) (block_data_size block_info) st;
        load_sections fuel block_info st
  end.

Definition LoadAdrenoRdFile_reader (fuel : nat) : Load W LoadResult :=
  load_sections fuel (zero_bytes 8) initial_locals.

Definition LoadAdrenoRdFile (fuel : nat) (file_name : string) (l : Loader W) : outcome (LoadResult * Loader W) :=
  let '(ret, w) := FileReader_Open file_name (l_file l) in
  let l := mkLoader (l_capture l) (l_gpu l) w in
  if negb (ret =? 0) then Done (kFileIoError, l) else
  '(r, l) ← LoadAdrenoRdFile_reader fuel l;
  let result := match r with inl r => r | inr r => r end in
  if bool_decide (result = kSuccess)
  then Done (result, mkLoader (set_capture_file file_name (l_capture l)) (l_gpu l) (l_file l))
  else Done (result, l).
End Loader.

(** ** Writing a capture

    The capture library writes a section with its padding in front; what the
    file holds is the concatenation. *)

Definition ALIGN (v a : Z) : Z := Z.land (v + a - 1) (Z.lnot (a - 1)).

Definition rd_write_section (type : Z) (buf : list byte) : list byte :=
  let sz := Z.of_nat (length buf) in
  le_split 4 (Z.lnot 0) ++ le_split 4 (Z.lnot 0)
  ++ le_split 4 type ++ le_split 4 (ALIGN sz 4)
  ++ buf ++ take (Z.to_nat (ALIGN sz 4 - sz)) (le_split 4 0).

Definition log_gpuaddr (gpuaddr len : Z) : list byte :=
  rd_write_section RD_GPUADDR (le_split 4 gpuaddr ++ le_split 4 len ++ le_split 4 (Z.shiftr gpuaddr 32)).

Definition log_cmdaddr (gpuaddr sizedwords : Z) : list byte :=
  rd_write_section RD_CMDSTREAM_ADDR
    (le_split 4 gpuaddr ++ le_split 4 sizedwords ++ le_split 4 (Z.shiftr gpuaddr 32)).

(** A buffer object in [dump_bos]. *)
Definition dump_bo (gpuaddr : Z) (contents : list byte) : list byte :=
  log_gpuaddr gpuaddr (Z.of_nat (length contents)) ++ rd_write_section RD_BUFFER_CONTENTS contents.

(** ** What a recording means *)

Inductive Event :=
| Buffer (gpuaddr : Z) (contents : list byte)
| CmdStream (gpuaddr sizedwords : Z)
| Command (text : list byte)
| GpuIdRead (gpu_id : Z)
| ChipIdRead (chip_id : Z)
| Other (type : Z) (contents : list byte).

Definition record_event (e : Event) : list byte :=
  match e with
  | Buffer gpuaddr contents => dump_bo gpuaddr contents
  | CmdStream gpuaddr sizedwords => log_cmdaddr gpuaddr sizedwords
  | Command text => rd_write_section RD_CMD text
  | GpuIdRead gpu_id => rd_write_section RD_GPU_ID (le_split 4 gpu_id)
  | ChipIdRead chip_id => rd_write_section RD_CHIP_ID (le_split 8 chip_id)
  | Other type contents => rd_write_section type contents
  end.

Definition record_events (es : list Event) : list byte := concat (record_event <$> es).

(** The submits with the blocks that belong to them, whether a buffer was
    recorded after the last command stream, and whether the process that
    records is one whose commands are skipped. *)
Record Recording := mkRecording {
  r_submits : list SubmitInfo;
  r_blocks : list MemoryBlock;
  r_new_submit : bool;
  r_skip : bool;
  r_gpu : GpuId
}.

Definition system_process (text : list byte) : bool :=
  bool_decide (text ∈ system_processes) || bool_decide (head text = Some Byte.x58).

Definition gpu_unknown (g : GpuId) : bool := (g_sGPU_id g =? 0) || (g_sGPU_variant g =? kGPUVariantNone).

Definition apply_event (dev_info_chip : Z -> Z) (e : Event) (r : Recording) : Recording :=
  let '(mkRecording submits blocks new_submit skip gpu) := r in
  match e with
  | Buffer gpuaddr contents =>
      mkRecording submits
        (blocks ++ [mkBlock gpuaddr (wrap 32 (Z.of_nat (length submits))) (Z.of_nat (length contents)) contents])
        true skip gpu
  | CmdStream gpuaddr sizedwords =>
      let ib := ib_of_section gpuaddr sizedwords skip in
      let submits :=
        if new_submit then submits ++ [mkSubmit kUniversal kQueueUniversal 0 false [ib]]
        else match last submits with
             | Some back => removelast submits ++ [AppendIb ib back]
             | None => submits
             end in
      mkRecording submits blocks false skip gpu
  | Command text => mkRecording submits blocks new_submit (system_process text) gpu
  | GpuIdRead gpu_id => mkRecording submits blocks new_submit skip (SetGPUID gpu_id)
  | ChipIdRead chip_id =>
      let gpu :=
        if gpu_unknown gpu && negb (dev_info_chip chip_id =? 0)
        then SetGPUID (wrap 32 (dev_info_chip chip_id * 100)) else gpu in
      mkRecording submits blocks new_submit skip gpu
  | Other _ _ => r
  end.

Definition no_nul (text : list byte) : Prop := Byte.x00 ∉ text.

(** Sizes are [int]s when they are written. *)
Definition section_size (contents : list byte) : Prop := Z.of_nat (length contents) < 2 ^ 31 - 4.

(** What the format can represent. A command stream needs a submit; a text is a
    name that is not just the start of a tested one; the low dword of a chip id
    is not the type of a section. *)
Definition event_ok (e : Event) (r : Recording) : Prop :=
  match e with
  | Buffer gpuaddr contents =>
      in_width 64 gpuaddr /\ contents <> [] /\ section_size contents /\ (4 | Z.of_nat (length contents))
  | CmdStream gpuaddr sizedwords =>
      in_width 64 gpuaddr /\ in_width 32 sizedwords /\ (r_new_submit r = true \/ r_submits r <> [])
  | Command text =>
      text <> [] /\ no_nul text /\ section_size text /\
      ((4 | Z.of_nat (length text)) -> Forall (fun name => ~ text `prefix_of` name) system_processes)
  | GpuIdRead gpu_id => in_width 32 gpu_id
  | ChipIdRead chip_id => in_width 64 chip_id /\ 14 < wrap 32 chip_id < 2 ^ 32 - 1
  | Other type contents => skipped_section type = true /\ section_size contents
  end.

#[local] Instance divide4_dec n : Decision (4 | n).
Proof. refine (cast_if (decide (n mod 4 = 0))); by rewrite <- Z.mod_divide. Defined.

#[global] Instance event_ok_dec e r : Decision (event_ok e r).
Proof. destruct e; unfold event_ok, no_nul, section_size; apply _. Defined.

Fixpoint recording_ok (dev_info_chip : Z -> Z) (es : list Event) (r : Recording) : Prop :=
  match es with
  | [] => True
  | e :: es => event_ok e r /\ recording_ok dev_info_chip es (apply_event dev_info_chip e r)
  end.

#[global] Instance recording_ok_dec dev_info_chip es r : Decision (recording_ok dev_info_chip es r).
Proof. revert r. induction es; intros r; cbn; apply _. Defined.

Definition apply_events (dev_info_chip : Z -> Z) (es : list Event) (r : Recording) : Recording :=
  foldl (fun r e => apply_event dev_info_chip e r) r es.

(** The capture and the GPU id that mean [r], over what a capture held before. *)
Definition recorded_capture (r : Recording) (c : Pm4CaptureData) : Pm4CaptureData :=
  set_submits (r_submits r) (set_memory (set_blocks (r_blocks r) (m_memory c)) c).

Definition recording_of (l_capture : Pm4CaptureData) (gpu : GpuId) : Recording :=
  mkRecording (m_submits l_capture) (m_memory_blocks (m_memory l_capture)) false false gpu.

(** ** Reading *)

Section ReadLemmas.
Context {W : Type} `{ArchiveLaws W}.

(** The bytes of a read are the next ones; fewer than asked for only at the
    end. *)
Definition read_result (n : Z) (w : W) (r : Z) (d : list byte) (w' : W) : Prop :=
  rest w = d ++ rest w' /\ ending w' = ending w /\
  ((r = n /\ Z.of_nat (length d) = n) \/
   (Z.of_nat (length d) < n /\ rest w' = [] /\
    r = if ending w <? 0 then ending w else Z.of_nat (length d))).

Lemma read_loop_spec fuel n ret acc w :
  0 <= n <= Z.of_nat fuel ->
  exists r d w', file_read_loop fuel n ret acc w = Done (r, acc ++ d, w') /\
    rest w = d ++ rest w' /\ ending w' = ending w /\
    ((r = ret + n /\ Z.of_nat (length d) = n) \/
     (Z.of_nat (length d) < n /\ rest w' = [] /\
      r = if ending w <? 0 then ending w else ret + Z.of_nat (length d))).
Proof.
  revert n ret acc w. induction fuel as [|fuel IH]; intros n ret acc w Hn; cbn [file_read_loop].
  - replace n with 0 by lia. exists ret, [], w. rewrite app_nil_r. split_and!; try done.
    left. cbn. lia.
  - destruct (Z.ltb_spec 0 n) as [Hpos|Hz].
    2: { exists ret, [], w. rewrite app_nil_r. split_and!; try done. left. cbn. lia. }
    destruct (read_law n w Hpos) as (m & d & w' & -> & Hend & Hcase).
    destruct Hcase as [(Hr & -> & -> & Hr')|(Hm & Hd & Hr)].
    + pose proof (ending_law w) as Hle.
      destruct (Z.ltb_spec (ending w) 0) as [Hlt|Hge].
      * exists (ending w), [], w'. rewrite app_nil_r, Hr, Hr'. split_and!; try done. right. cbn. split_and!; (done || lia).
      * replace (ending w =? 0) with true by (symmetry; apply Z.eqb_eq; lia).
        exists ret, [], w'. rewrite app_nil_r, Hr, Hr'. split_and!; try done. right. cbn. split_and!; (done || lia).
    + destruct (Z.ltb_spec m 0); [lia|]. destruct (Z.eqb_spec m 0); [lia|].
      destruct (IH (n - m) (ret + m) (acc ++ d) w') as (r & d' & w2 & -> & Hr2 & He2 & Hc); [lia|].
      exists r, (d ++ d'), w2. rewrite <- app_assoc. split; [done|].
      rewrite Hr, Hr2, He2, Hend, <- app_assoc. split; [done|]. split; [done|].
      rewrite length_app. rewrite Hend in Hc.
      destruct Hc as [[-> Hl]|(Hl & Hw & ->)]; [left; lia|right].
      split_and!; [lia|done|]. destruct (_ <? _); lia.
Qed.

Lemma Read_spec n (l : Loader W) : 0 <= n ->
  exists r d w', Read n l = Done (inl (r, d), mkLoader (l_capture l) (l_gpu l) w') /\
    read_result n (l_file l) r d w'.
Proof.
  intros Hn. destruct (read_loop_spec (Z.to_nat n) n 0 [] (l_file l)) as (r & d & w' & E & Hr & He & Hc); [lia|].
  exists r, d, w'. split; [|done]. unfold Read, FileReader_Read. by rewrite E.
Qed.

(** A read of bytes that are there. *)
Lemma Read_exact n (l : Loader W) d tail :
  rest (l_file l) = d ++ tail -> Z.of_nat (length d) = n ->
  exists w', Read n l = Done (inl (n, d), mkLoader (l_capture l) (l_gpu l) w') /\
    rest w' = tail /\ ending w' = ending (l_file l).
Proof.
  intros Hr Hn. destruct (Read_spec n l) as (r & d' & w' & E & Hrest & He & Hc); [lia|].
  rewrite Hr in Hrest. exists w'.
  assert (length d' = length d) as Hl.
  { destruct Hc as [[_ Hl]|(Hl & Hw & _)]; [lia|]. rewrite Hw, app_nil_r in Hrest.
    apply (f_equal length) in Hrest. rewrite length_app in Hrest. lia. }
  apply app_inj_1 in Hrest as [-> ->]; [|done].
  rewrite E. destruct Hc as [[-> _]|(? & _)]; [done|lia].
Qed.

(** A read at the end. *)
Lemma Read_ended n (l : Loader W) : 0 < n -> rest (l_file l) = [] ->
  exists w', Read n l = Done (inl (ending (l_file l), []), mkLoader (l_capture l) (l_gpu l) w') /\
    rest w' = [] /\ ending w' = ending (l_file l).
Proof.
  intros Hn Hr. destruct (Read_spec n l) as (r & d & w' & E & Hrest & He & Hc); [lia|].
  rewrite Hr in Hrest. symmetry in Hrest. apply app_nil in Hrest as [-> Hw].
  exists w'. cbn in Hc. rewrite E. split; [|done]. pose proof (ending_law (l_file l)).
  destruct Hc as [?|(_ & _ & ->)]; [lia|].
  destruct (Z.ltb_spec (ending (l_file l)) 0); [done|]. by replace (ending (l_file l)) with 0 by lia.
Qed.

(** A read takes bytes off the front, one at least if it succeeds. *)
Lemma Read_progress n (l : Loader W) : 0 <= n ->
  exists r d w', Read n l = Done (inl (r, d), mkLoader (l_capture l) (l_gpu l) w') /\
    Z.of_nat (length d) <= n /\ (length (rest w') <= length (rest (l_file l)))%nat /\
    (0 < r -> 0 < n -> (length (rest w') < length (rest (l_file l)))%nat).
Proof.
  intros Hn. destruct (Read_spec n l Hn) as (r & d & w' & E & Hr & He & Hc).
  exists r, d, w'. split; [done|]. rewrite Hr, length_app. pose proof (ending_law (l_file l)).
  split; [lia|]. split; [lia|]. intros Hpos Hn'.
  destruct Hc as [[_ ?]|(? & _ & ->)]; [lia|]. destruct (Z.ltb_spec (ending (l_file l)) 0); lia.
Qed.
End ReadLemmas.

(** ** Termination

    An action that ends and gives no bytes back to the file. *)

Section Termination.
Context {W : Type} `{ArchiveLaws W}.

Definition shrinks {A} (m : Load W A) : Prop := forall l,
  m l <> OutOfFuel /\
  forall x l', m l = Done (x, l') -> (length (rest (l_file l')) <= length (rest (l_file l)))%nat.

Lemma shrinks_pure {A} (f : Loader W -> A + LoadResult) (g : Loader W -> Loader W) :
  (forall l, l_file (g l) = l_file l) -> shrinks (fun l => Done (f l, g l)).
Proof. intros Hg l. split; [done|]. intros x l' [= _ <-]. by rewrite Hg. Qed.

Lemma shrinks_ret {A} (a : A) : shrinks (mret a).
Proof. by apply (shrinks_pure (fun _ => inl a) (fun l => l)). Qed.

Lemma shrinks_Return {A} r : shrinks (@Return W A r).
Proof. by apply (shrinks_pure (fun _ => inr r) (fun l => l)). Qed.

Lemma shrinks_out_of_bounds {A} : shrinks (@rd_out_of_bounds W A).
Proof. done. Qed.

Lemma shrinks_get_capture : shrinks get_capture.
Proof. by apply (shrinks_pure (fun l => inl (l_capture l)) (fun l => l)). Qed.

Lemma shrinks_put_capture c : shrinks (put_capture c).
Proof. by apply (shrinks_pure (fun l => inl ()) (fun l => mkLoader c (l_gpu l) (l_file l))). Qed.

Lemma shrinks_get_gpu : shrinks get_gpu.
Proof. by apply (shrinks_pure (fun l => inl (l_gpu l)) (fun l => l)). Qed.

Lemma shrinks_put_gpu g : shrinks (put_gpu g).
Proof. by apply (shrinks_pure (fun l => inl ()) (fun l => mkLoader (l_capture l) g (l_file l))). Qed.

Lemma shrinks_bind {A B} (m : Load W A) (k : A -> Load W B) :
  shrinks m -> (forall a, shrinks (k a)) -> shrinks (m ≫= k).
Proof.
  intros Hm Hk l. unfold mbind, Load_bind. destruct (Hm l) as [Hf Hl].
  destruct (m l) as [[[a|r] l1]| |] eqn:E; [| |done|done].
  - destruct (Hk a l1) as [Hf' Hl']. split; [done|]. intros x l' El.
    etrans; [by eapply Hl'|by eapply Hl].
  - split; [done|]. intros x l' [= _ <-]. by eapply Hl.
Qed.

Lemma shrinks_Read n : 0 <= n -> shrinks (Read n).
Proof.
  intros Hn l. destruct (Read_progress n l Hn) as (r & d & w' & -> & _ & Hle & _).
  split; [done|]. by intros x l' [= _ <-].
Qed.

Lemma shrinks_if {A} (b : bool) (m1 m2 : Load W A) : shrinks m1 -> shrinks m2 -> shrinks (if b then m1 else m2).
Proof. by destruct b. Qed.
End Termination.

Create HintDb rd_shrinks.
#[export] Hint Resolve shrinks_ret shrinks_Return shrinks_out_of_bounds shrinks_get_capture
  shrinks_put_capture shrinks_get_gpu shrinks_put_gpu : rd_shrinks.

(** The structure of an action, one construct at a time. *)
Ltac shrink_step :=
  match goal with
  | |- shrinks (Read _) => apply shrinks_Read
  | |- shrinks (_ ≫= _) => apply shrinks_bind; [|intros ?]
  | |- shrinks (if ?b then _ else _) => apply shrinks_if
  | |- shrinks (match ?o with Some _ => _ | None => _ end) => destruct o
  | |- shrinks (let '(_, _) := ?p in _) => destruct p
  | |- shrinks (let _ := _ in _) => cbv zeta
  | _ => solve [auto with rd_shrinks]
  end.
Ltac shrink := repeat shrink_step; try lia.

Section Ends.
Context {W : Type} `{ArchiveLaws W} (dev_info_chip : Z -> Z) (heap : nat -> byte).

Lemma uint_at_nonneg offset n l : 0 <= uint_at offset n l.
Proof. unfold uint_at. pose proof (LittleEndianList.le_combine_bound (take n (drop offset l))). lia. Qed.

Lemma shrinks_LoadGpuAddressAndSize size : shrinks (LoadGpuAddressAndSize size).
Proof. unfold LoadGpuAddressAndSize. shrink. Qed.

Lemma shrinks_load_section type size st : 0 <= size -> shrinks (load_section dev_info_chip heap type size st).
Proof.
  intros Hsize. pose proof shrinks_LoadGpuAddressAndSize as HG.
  unfold load_section, LoadCmdStreamBlockAdreno, LoadMemoryBlockAdreno.
  destruct (Z.eqb_spec size (cur_size st)) as [E|]; cbn [negb].
  all: repeat (apply HG || shrink_step); try lia.
Qed.

Lemma shrinks_finish_load : shrinks (@finish_load W).
Proof. unfold finish_load. shrink. Qed.

Lemma skip_padding_ends fuel info (l : Loader W) :
  (length (rest (l_file l)) < fuel)%nat ->
  skip_padding fuel info l <> OutOfFuel /\
  forall x l', skip_padding fuel info l = Done (x, l') ->
    (length (rest (l_file l')) <= length (rest (l_file l)))%nat.
Proof.
  revert info l. induction fuel as [|fuel IH]; intros info l Hf; [lia|].
  cbn [skip_padding]. destruct (is_padding info); [|apply shrinks_ret].
  unfold mbind, Load_bind.
  destruct (Read_progress 8 l) as (r & d & w' & -> & _ & Hle & Hlt); [lia|].
  destruct (Z.leb_spec r 0).
  - cbn. split; [done|]. by intros x l' [= _ <-].
  - destruct (IH (overwrite info d) (mkLoader (l_capture l) (l_gpu l) w')) as [Hn Hl].
    + cbn. specialize (Hlt ltac:(lia) ltac:(lia)). lia.
    + split; [done|]. intros x l' E. specialize (Hl x l' E). cbn in Hl. lia.
Qed.

Lemma load_sections_ends fuel info st (l : Loader W) :
  (length (rest (l_file l)) < fuel)%nat -> load_sections dev_info_chip heap fuel info st l <> OutOfFuel.
Proof.
  revert info st l. induction fuel as [|fuel IH]; intros info st l Hf; [lia|].
  cbn [load_sections]. unfold mbind, Load_bind.
  destruct (Read_progress 8 l) as (r & d & w' & -> & _ & Hle & Hlt); [lia|].
  destruct (Z.leb_spec r 0).
  - apply shrinks_finish_load.
  - specialize (Hlt ltac:(lia) ltac:(lia)).
    set (l1 := mkLoader _ _ w').
    destruct (skip_padding_ends fuel (overwrite info d) l1) as [Hn Hl]; [cbn; lia|].
    destruct (skip_padding _ _ _) as [[[info'|res] l2]| |] eqn:E; [|done..].
    specialize (Hl _ _ eq_refl).
    destruct (shrinks_load_section (block_type info') (block_data_size info') st (uint_at_nonneg 4 4 info') l2)
      as [Hn2 Hl2].
    destruct (load_section _ _ _ _ _ _) as [[[st'|res] l3]| |] eqn:E2; [|done..].
    specialize (Hl2 _ _ eq_refl). apply IH. cbn in Hl. lia.
Qed.
End Ends.

(** ** Loading what was written *)

Lemma ALIGN_range n : 0 <= n -> n <= ALIGN n 4 <= n + 3 /\ (4 | ALIGN n 4).
Proof.
  intros Hn. unfold ALIGN. change (4 - 1) with (Z.ones 2).
  rewrite <- Z.ldiff_land, Z.ldiff_ones_r by lia.
  rewrite Z.shiftl_mul_pow2, Z.shiftr_div_pow2 by lia. change (2 ^ 2) with 4.
  split; [|apply Z.divide_factor_r]. Z.div_mod_to_equations. lia.
Qed.

Lemma ALIGN_divide n : 0 <= n -> (4 | n) -> ALIGN n 4 = n.
Proof.
  intros Hn [k ->]. destruct (ALIGN_range (k * 4) Hn) as [Hr [j Hj]]. rewrite Hj in *. lia.
Qed.

(** The zero_bytes behind a section. *)
Definition section_pad (buf : list byte) : list byte :=
  take (Z.to_nat (ALIGN (Z.of_nat (length buf)) 4 - Z.of_nat (length buf))) (le_split 4 0).

Definition padded (buf : list byte) : list byte := buf ++ section_pad buf.

Lemma length_padded buf : Z.of_nat (length (padded buf)) = ALIGN (Z.of_nat (length buf)) 4.
Proof.
  unfold padded, section_pad. rewrite length_app, length_take, LittleEndianList.length_le_split.
  destruct (ALIGN_range (Z.of_nat (length buf))); lia.
Qed.

Lemma padded_full buf : (4 | Z.of_nat (length buf)) -> padded buf = buf.
Proof.
  intros H4. unfold padded, section_pad. rewrite ALIGN_divide, Z.sub_diag by (done || lia).
  by rewrite app_nil_r.
Qed.

Lemma rd_write_section_eq type buf :
  rd_write_section type buf =
  le_split 4 (Z.lnot 0) ++ le_split 4 (Z.lnot 0)
  ++ le_split 4 type ++ le_split 4 (Z.of_nat (length (padded buf))) ++ padded buf.
Proof. unfold rd_write_section. by rewrite length_padded. Qed.

Lemma uint_at_app_l n (d k : list byte) : length d = n -> uint_at 0 n (d ++ k) = le_combine d.
Proof. intros <-. unfold uint_at. rewrite drop_0. by rewrite take_app_length. Qed.

Lemma uint_at_app_r o n (d1 d2 : list byte) :
  length d1 = o -> length d2 = n -> uint_at o n (d1 ++ d2) = le_combine d2.
Proof. intros <- <-. unfold uint_at. by rewrite drop_app_length, take_ge. Qed.

(** The fields of a header of eight bytes. *)
Lemma header_fields type size :
  in_width 32 type -> in_width 32 size ->
  block_type (le_split 4 type ++ le_split 4 size) = type /\
  block_data_size (le_split 4 type ++ le_split 4 size) = size.
Proof.
  intros Ht Hs. unfold block_type, block_data_size.
  rewrite uint_at_app_l, uint_at_app_r by apply LittleEndianList.length_le_split.
  by rewrite !le_combine_bytes.
Qed.

Lemma take_le_split n m z : (n <= m)%nat -> take n (le_split m z) = le_split n z.
Proof.
  revert m z. induction n as [|n IH]; intros [|m] z Hn; [done|done|lia|].
  change (byte.of_Z z :: take n (le_split m (Z.shiftr z 8)) = byte.of_Z z :: le_split n (Z.shiftr z 8)).
  f_equal. apply IH. lia.
Qed.

Lemma skipped_section_range type : skipped_section type = true -> 0 <= type <= 11.
Proof.
  intros Ht%bool_decide_eq_true_1. rewrite !elem_of_cons, elem_of_nil in Ht.
  repeat destruct Ht as [->|Ht]; vm_compute; intuition congruence.
Qed.

Section Fuel.
Context {W : Type} `{ArchiveLaws W} (dev_info_chip : Z -> Z) (heap : nat -> byte).

Abbreviation load_sections := (load_sections dev_info_chip heap).
Abbreviation load_section := (load_section dev_info_chip heap).

(** More fuel does not change a result. *)
Lemma skip_padding_mono f1 f2 info (l : Loader W) :
  (f1 <= f2)%nat -> skip_padding f1 info l <> OutOfFuel -> skip_padding f2 info l = skip_padding f1 info l.
Proof.
  revert f2 info l. induction f1 as [|f1 IH]; intros [|f2] info l Hle; try lia; cbn [skip_padding];
    destruct (is_padding info); try done.
  unfold mbind, Load_bind. destruct (Read 8 l) as [[[[r d]|res] l1]| |]; try done.
  destruct (r <=? 0); [done|]. apply IH. lia.
Qed.

Lemma load_sections_mono f1 f2 info st (l : Loader W) :
  (f1 <= f2)%nat -> load_sections f1 info st l <> OutOfFuel ->
  load_sections f2 info st l = load_sections f1 info st l.
Proof.
  revert f2 info st l. induction f1 as [|f1 IH]; intros [|f2] info st l Hle; try lia; [done|done|].
  cbn [RdFile.load_sections]. unfold mbind, Load_bind.
  destruct (Read 8 l) as [[[[r d]|res] l1]| |]; try done.
  destruct (r <=? 0); [done|].
  intros Hn. assert (skip_padding f1 (overwrite info d) l1 <> OutOfFuel) as Hn1
    by (intros E; by rewrite E in Hn).
  rewrite (skip_padding_mono f1 f2) by (done || lia).
  destruct (skip_padding f1 _ l1) as [[[info'|res] l2]| |]; try done.
  destruct (load_section _ _ _ l2) as [[[st'|res] l3]| |]; try done.
  apply IH; [lia|done].
Qed.

(** The loop comes from one state to another; the fuel stays enough. *)
Definition reaches (l1 : Loader W) (st1 : RdLocals) (l2 : Loader W) (st2 : RdLocals) : Prop :=
  forall fuel info, (length (rest (l_file l1)) < fuel)%nat -> length info = 8%nat ->
  exists fuel' info', (length (rest (l_file l2)) < fuel')%nat /\ length info' = 8%nat /\
    load_sections fuel info st1 l1 = load_sections fuel' info' st2 l2.

Lemma reaches_refl l st : reaches l st l st.
Proof. intros fuel info Hf Hi. by exists fuel, info. Qed.

Lemma reaches_trans l1 st1 l2 st2 l3 st3 :
  reaches l1 st1 l2 st2 -> reaches l2 st2 l3 st3 -> reaches l1 st1 l3 st3.
Proof.
  intros H1 H2 fuel info Hf Hi. destruct (H1 fuel info Hf Hi) as (f2 & i2 & Hf2 & Hi2 & ->).
  by apply H2.
Qed.

(** An action that succeeds, with what it leaves. *)
Definition yields {A} (m : Load W A) (l : Loader W) (a : A) (c : Pm4CaptureData) (g : GpuId)
    (tail : list byte) : Prop :=
  exists w, m l = Done (inl a, mkLoader c g w) /\ rest w = tail /\ ending w = ending (l_file l).

Lemma yields_ret {A} (a : A) (l : Loader W) : yields (mret a) l a (l_capture l) (l_gpu l) (rest (l_file l)).
Proof. by destruct l; eexists. Qed.

Lemma yields_bind {A B} (m : Load W A) (k : A -> Load W B) l a c g tail b c2 g2 tail2 :
  yields m l a c g tail ->
  (forall w, rest w = tail -> yields (k a) (mkLoader c g w) b c2 g2 tail2) ->
  yields (m ≫= k) l b c2 g2 tail2.
Proof.
  intros (w & E & Hr & He) Hk. destruct (Hk w Hr) as (w2 & E2 & Hr2 & He2).
  exists w2. unfold mbind, Load_bind. rewrite E, E2. split; [done|]. split; [done|].
  rewrite He2. done.
Qed.

Lemma yields_Read n l d tail :
  rest (l_file l) = d ++ tail -> Z.of_nat (length d) = n ->
  yields (Read n) l (n, d) (l_capture l) (l_gpu l) tail.
Proof. apply Read_exact. Qed.

Lemma yields_get_capture l : yields get_capture l (l_capture l) (l_capture l) (l_gpu l) (rest (l_file l)).
Proof. by destruct l; eexists. Qed.

Lemma yields_put_capture c l : yields (put_capture c) l () c (l_gpu l) (rest (l_file l)).
Proof. by destruct l; eexists. Qed.

Lemma yields_get_gpu l : yields get_gpu l (l_gpu l) (l_capture l) (l_gpu l) (rest (l_file l)).
Proof. by destruct l; eexists. Qed.

Lemma yields_put_gpu g l : yields (put_gpu g) l () (l_capture l) g (rest (l_file l)).
Proof. by destruct l; eexists. Qed.

(** The padding and the header of a section. *)
Definition section_header (type size : Z) : list byte :=
  le_split 4 (Z.lnot 0) ++ le_split 4 (Z.lnot 0) ++ le_split 4 type ++ le_split 4 size.

Lemma length_section_header type size : length (section_header type size) = 16%nat.
Proof. unfold section_header. by rewrite !length_app, !LittleEndianList.length_le_split. Qed.

(** A turn of the loop at a section. *)
Lemma section_turn type size tail l :
  rest (l_file l) = section_header type size ++ tail -> 0 <= type < 2 ^ 32 - 1 -> in_width 32 size ->
  exists w info', rest w = tail /\ ending w = ending (l_file l) /\ length info' = 8%nat /\
    forall fuel info st, length info = 8%nat ->
      load_sections (S (S fuel)) info st l =
      (st ← load_section type size st; load_sections (S fuel) info' st) (mkLoader (l_capture l) (l_gpu l) w).
Proof.
  intros Hr Ht Hw. unfold section_header in Hr.
  rewrite <- !(assoc_L (++)), (assoc_L (++) (le_split 4 (Z.lnot 0))) in Hr.
  destruct (Read_exact 8 l _ _ Hr eq_refl) as (w1 & E1 & Hr1 & He1).
  rewrite (assoc_L (++) (le_split 4 type)) in Hr1.
  destruct (Read_exact 8 (mkLoader (l_capture l) (l_gpu l) w1) _ _ Hr1) as (w2 & E2 & Hr2 & He2).
  { rewrite length_app, !LittleEndianList.length_le_split. done. }
  cbn [l_capture l_gpu l_file] in E2.
  destruct (header_fields type size ltac:(unfold in_width; lia) Hw) as [Hft Hfs].
  exists w2, (le_split 4 type ++ le_split 4 size). split; [done|]. split; [cbn in *; congruence|].
  split; [by rewrite length_app, !LittleEndianList.length_le_split|].
  intros fuel info st Hi.
  cbn [RdFile.load_sections]. unfold mbind at 1, Load_bind at 1. rewrite E1.
  cbn [Z.leb Z.compare]. rewrite overwrite_all by (by rewrite Hi).
  unfold mbind at 1, Load_bind at 1. cbn [skip_padding].
  replace (is_padding _) with true by (vm_compute; reflexivity).
  unfold mbind at 1, Load_bind at 1. rewrite E2. cbn [Z.leb Z.compare].
  rewrite overwrite_all by (by rewrite !length_app, !LittleEndianList.length_le_split).
  replace (skip_padding fuel _) with (mret (le_split 4 type ++ le_split 4 size) : Load W _).
  2: { assert (is_padding (le_split 4 type ++ le_split 4 size) = false) as Hp.
       { unfold is_padding. rewrite Hft. apply andb_false_iff. left. apply Z.eqb_neq. lia. }
       by destruct fuel; cbn [skip_padding]; rewrite Hp. }
  cbn [mret Load_ret]. by rewrite Hft, Hfs.
Qed.

Lemma section_size_width buf : section_size buf -> in_width 32 (Z.of_nat (length (padded buf))).
Proof.
  unfold section_size, in_width. rewrite length_padded. intros Hsz.
  destruct (ALIGN_range (Z.of_nat (length buf))); lia.
Qed.

Lemma rd_write_section_header type buf tail :
  rd_write_section type buf ++ tail =
  section_header type (Z.of_nat (length (padded buf))) ++ padded buf ++ tail.
Proof. rewrite rd_write_section_eq. unfold section_header. by rewrite <- !(assoc_L (++)). Qed.

Lemma reaches_section type buf tail l st st' c g tail' :
  rest (l_file l) = rd_write_section type buf ++ tail -> section_size buf ->
  0 <= type < 2 ^ 32 - 1 -> (length tail' <= length (padded buf ++ tail))%nat ->
  (forall w, rest w = padded buf ++ tail ->
     yields (load_section type (Z.of_nat (length (padded buf))) st) (mkLoader (l_capture l) (l_gpu l) w)
       st' c g tail') ->
  exists w, rest w = tail' /\ ending w = ending (l_file l) /\ reaches l st (mkLoader c g w) st'.
Proof.
  intros Hr Hsz Ht Htail Hsection. rewrite rd_write_section_header in Hr.
  destruct (section_turn _ _ _ l Hr Ht (section_size_width buf Hsz)) as (w2 & info' & Hr2 & He2 & Hi' & Hturn).
  destruct (Hsection w2 Hr2) as (w3 & E3 & Hr3 & He3).
  exists w3. split; [done|]. split; [cbn in *; congruence|].
  intros fuel info Hf Hi. rewrite Hr, length_app, length_section_header in Hf.
  destruct fuel as [|[|fuel]]; [lia..|]. exists (S fuel), info'.
  split; [cbn; rewrite Hr3; lia|]. split; [done|].
  rewrite Hturn by done. unfold mbind at 1, Load_bind at 1. by rewrite E3.
Qed.

Lemma load_section_unknown type size st : 14 < type -> load_section type size st = mret st.
Proof.
  intros Ht. unfold RdFile.load_section.
  unfold RD_GPUADDR, RD_CMDSTREAM_ADDR, RD_BUFFER_CONTENTS, RD_CMD, RD_GPU_ID, RD_CHIP_ID.
  repeat match goal with |- context [type =? ?n] => destruct (Z.eqb_spec type n); [lia|] end.
  destruct (skipped_section type) eqn:E; [|done]. apply skipped_section_range in E. lia.
Qed.

(** A chip id that is left in the file passes for the header of an unknown
    section. *)
Lemma reaches_chip_id chip_id l st tail :
  rest (l_file l) = le_split 8 chip_id ++ tail -> 14 < wrap 32 chip_id < 2 ^ 32 - 1 ->
  exists w, rest w = tail /\ ending w = ending (l_file l) /\
    reaches l st (mkLoader (l_capture l) (l_gpu l) w) st.
Proof.
  intros Hr Hc. destruct (Read_exact 8 l _ _ Hr eq_refl) as (w & E & Hw & He).
  exists w. split; [done|]. split; [done|]. intros fuel info Hf Hi.
  rewrite Hr, length_app, LittleEndianList.length_le_split in Hf.
  destruct fuel as [|fuel]; [lia|]. exists fuel, (le_split 8 chip_id).
  split; [cbn; rewrite Hw; lia|]. split; [apply LittleEndianList.length_le_split|].
  assert (block_type (le_split 8 chip_id) = wrap 32 chip_id) as Ht.
  { unfold block_type, uint_at. rewrite drop_0, take_le_split by lia.
    by rewrite LittleEndianList.le_combine_split. }
  assert (is_padding (le_split 8 chip_id) = false) as Hp.
  { unfold is_padding. rewrite Ht. apply andb_false_iff. left. apply Z.eqb_neq. lia. }
  cbn [RdFile.load_sections]. unfold mbind at 1, Load_bind at 1. rewrite E. cbn [Z.leb Z.compare].
  rewrite overwrite_all by (by rewrite Hi).
  replace (skip_padding fuel _) with (mret (le_split 8 chip_id) : Load W _)
    by (by destruct fuel; cbn [skip_padding]; rewrite Hp).
  unfold mbind at 1, Load_bind at 1. cbn [mret Load_ret]. rewrite Ht, load_section_unknown by lia. done.
Qed.

Lemma yields_LoadGpuAddressAndSize gpu_addr size l tail :
  rest (l_file l) = (le_split 4 gpu_addr ++ le_split 4 size ++ le_split 4 (Z.shiftr gpu_addr 32)) ++ tail ->
  in_width 64 gpu_addr -> in_width 32 size ->
  yields (LoadGpuAddressAndSize 12) l (Some (gpu_addr, size)) (l_capture l) (l_gpu l) tail.
Proof.
  intros Hr Ha Hs. rewrite <- !(assoc_L (++)) in Hr. unfold LoadGpuAddressAndSize. cbv zeta.
  eapply yields_bind; [by apply (yields_Read 4 _ _ _ Hr)|]. intros w1 H1. cbn [Z.eqb].
  eapply yields_bind; [by eapply (yields_Read 4 (mkLoader _ _ w1) _ _ H1)|]. intros w2 H2. cbn [Z.eqb Z.ltb Z.compare Pos.compare Pos.compare_cont].
  eapply yields_bind; [by eapply (yields_Read 4 (mkLoader _ _ w2) _ _ H2)|]. intros w3 H3. cbn [Z.eqb].
  rewrite !overwrite_all by done. rewrite !LittleEndianList.le_combine_split.
  replace (Z.lor _ _) with gpu_addr.
  2: { change (Z.of_nat 4 * 8) with 32. rewrite <- !Z.land_ones by lia. apply Z.bits_inj_iff'. intros i Hi.
       rewrite Z.lor_spec, Z.shiftl_spec, Z.land_spec, Z.testbit_ones by lia.
       destruct (Z.ltb_spec i 32).
       - rewrite (proj2 (Z.leb_le 0 i)), andb_true_r by lia.
         rewrite (Z.testbit_neg_r _ (i - 32)) by lia. by rewrite orb_false_r.
       - rewrite andb_false_r, andb_false_r, orb_false_l.
         rewrite Z.land_spec, Z.testbit_ones, Z.shiftr_spec by lia.
         replace (i - 32 + 32) with i by lia. rewrite (proj2 (Z.leb_le 0 (i - 32))) by lia.
         destruct (Z.ltb_spec (i - 32) 32); [by rewrite andb_true_r|].
         rewrite andb_false_r. apply Z.testbit_false; [lia|].
         rewrite Z.div_small; [done|]. destruct Ha. split; [done|].
         eapply Z.lt_le_trans; [done|]. apply Z.pow_le_mono_r; lia. }
  rewrite Z.mod_small by done.
  destruct (yields_ret (Some (gpu_addr, size)) (mkLoader (l_capture l) (l_gpu l) w3)) as (w & E & Hw & He).
  exists w. by rewrite <- H3.
Qed.
End Fuel.

(** ** Process names *)

Lemma strcmp_eq_padded text name pad :
  no_nul text -> no_nul name ->
  (pad = [] /\ ~ text `prefix_of` name \/ head pad = Some Byte.x00) ->
  strcmp_eq (text ++ pad) name = Some (bool_decide (text = name)).
Proof.
  unfold no_nul. intros Ht Hn Hp. revert name Hn Hp.
  induction text as [|t text IH]; intros [|c name] Hn Hp; cbn [app strcmp_eq].
  - destruct Hp as [[_ []]|Hp]; [by exists []|].
    destruct pad as [|p pad]; [done|]. by injection Hp as ->.
  - destruct Hp as [[_ []]|Hp]; [by eexists|].
    destruct pad as [|p pad]; [done|]. injection Hp as ->. cbn.
    rewrite decide_False; [done|]. intros <-. apply Hn. by left.
  - rewrite bool_decide_eq_false_2; [done|]. intros ->. apply Ht. by left.
  - apply not_elem_of_cons in Ht as [_ Ht]. apply not_elem_of_cons in Hn as [_ Hn].
    destruct (decide (t = c)) as [->|Hne].
    + rewrite IH; [|done|done|].
      * f_equal. apply bool_decide_ext. naive_solver.
      * destruct Hp as [[-> Hp]|Hp]; [left|by right]. split; [done|].
        intros [k ->]. apply Hp. by exists k.
    + rewrite bool_decide_eq_false_2; [done|]. congruence.
Qed.

Lemma section_pad_head buf : (4 | Z.of_nat (length buf)) \/ head (section_pad buf) = Some Byte.x00.
Proof.
  destruct (ALIGN_range (Z.of_nat (length buf))) as [Hr H4]; [lia|]. unfold section_pad.
  destruct (Z.eq_dec (ALIGN (Z.of_nat (length buf)) 4) (Z.of_nat (length buf))) as [E|Hne].
  - left. by rewrite E in H4.
  - right. by replace (Z.to_nat _) with (S (Z.to_nat (ALIGN (Z.of_nat (length buf)) 4 - Z.of_nat (length buf) - 1))) by lia.
Qed.

Lemma system_names_no_nul name : name ∈ system_processes -> no_nul name.
Proof.
  unfold system_processes, no_nul. rewrite !elem_of_cons, elem_of_nil.
  intros [->|[->|[->|[]]]]; vm_compute; intros Hin;
    repeat (apply elem_of_cons in Hin as [?|Hin]; [done|]); by apply elem_of_nil in Hin.
Qed.

Lemma is_system_process_padded text r :
  event_ok (Command text) r -> is_system_process (padded text) = Some (system_process text).
Proof.
  intros (Hne & Hnul & _ & Hpre).
  assert (forall name, name ∈ system_processes ->
    strcmp_eq (padded text) name = Some (bool_decide (text = name))) as Hcmp.
  { intros name Hname. apply strcmp_eq_padded; [done|by apply system_names_no_nul|].
    destruct (section_pad_head text) as [H4|Hh]; [left|by right].
    split; [|by apply (proj1 (Forall_forall _ _) (Hpre H4))].
    unfold section_pad. rewrite ALIGN_divide, Z.sub_diag by (done || lia). done. }
  unfold is_system_process.
  rewrite !Hcmp by (unfold system_processes; rewrite !elem_of_cons; tauto). cbn [mbind option_bind].
  destruct text as [|t text]; [done|]. cbn [padded app head mbind option_bind].
  unfold system_process, system_processes. f_equal. cbn [head].
  rewrite (bool_decide_ext (Some t = Some Byte.x58) (t = Byte.x58)) by naive_solver. f_equal.
  apply eq_true_iff_eq. rewrite !orb_true_iff, !bool_decide_eq_true, !elem_of_cons, elem_of_nil. tauto.
Qed.

(** Decides the comparisons of a known type. *)
Ltac eval_type :=
  repeat match goal with
  | |- context [?a =? ?b] =>
      let v := eval vm_compute in (a =? b) in
      match v with true => change (a =? b) with true | false => change (a =? b) with false end
  end; cbn iota.

(** ** Events *)

Section Events.
Context {W : Type} `{ArchiveLaws W} (dev_info_chip : Z -> Z) (heap : nat -> byte).

Abbreviation apply_event := (apply_event dev_info_chip).
Abbreviation reaches := (reaches dev_info_chip heap).

(** The loader's state means the recording so far. *)
Record matches (c0 : Pm4CaptureData) (r : Recording) (l : Loader W) (st : RdLocals) : Prop := mkMatches {
  ma_capture : l_capture l = recorded_capture r c0;
  ma_gpu : l_gpu l = r_gpu r;
  ma_new : is_new_submit st = r_new_submit r;
  ma_skip : skip_commands st = r_skip r
}.

(** What is left of the file after an event, with the new state. *)
Definition loads (c0 : Pm4CaptureData) (r r' : Recording) (bytes : list byte) : Prop :=
  forall l st tail, matches c0 r l st -> rest (l_file l) = bytes ++ tail ->
  exists l' st', reaches l st l' st' /\ rest (l_file l') = tail /\
    ending (l_file l') = ending (l_file l) /\ matches c0 r' l' st'.

Lemma yields_return {A} (a : A) (l : Loader W) c g w :
  l = mkLoader c g w -> yields (mret a) l a c g (rest w).
Proof. intros ->. by eexists. Qed.

Lemma length_dwords3 x y z : length (le_split 4 x ++ le_split 4 y ++ le_split 4 z) = 12%nat.
Proof. by rewrite !length_app, !LittleEndianList.length_le_split. Qed.

Lemma padded_dwords3 x y z :
  padded (le_split 4 x ++ le_split 4 y ++ le_split 4 z) = le_split 4 x ++ le_split 4 y ++ le_split 4 z.
Proof. apply padded_full. rewrite length_dwords3. by exists 3. Qed.

Lemma loads_other c0 r type contents :
  event_ok (Other type contents) r -> loads c0 r r (record_event (Other type contents)).
Proof.
  intros [Ht Hsz] l st tail Hm Hr. pose proof (skipped_section_range _ Ht) as Hrange.
  destruct (reaches_section dev_info_chip heap type contents tail l st st (l_capture l) (l_gpu l) tail)
    as (w & Hw & He & Hreach); [done|done|lia|rewrite length_app; lia| |].
  - intros w Hw. unfold load_section.
    repeat match goal with
    | |- context [type =? ?n] =>
        destruct (Z.eqb_spec type n) as [->|_]; [vm_compute in Ht; discriminate Ht|]
    end.
    rewrite Ht. eapply yields_bind; [by apply (yields_Read _ (mkLoader _ _ w) _ _ Hw)|].
    intros w' Hw'. rewrite <- Hw'. by apply yields_return.
  - exists (mkLoader (l_capture l) (l_gpu l) w), st. split_and!; try done.
    destruct Hm; by constructor.
Qed.

(** A section that [load_section] turns into a new state. *)
Lemma loads_section c0 r r' type buf (f : RdLocals -> RdLocals) :
  section_size buf -> 0 <= type < 2 ^ 32 - 1 ->
  (forall l st, matches c0 r l st -> is_new_submit (f st) = r_new_submit r' /\ skip_commands (f st) = r_skip r') ->
  (forall l st tail, matches c0 r l st -> rest (l_file l) = padded buf ++ tail ->
     yields (load_section dev_info_chip heap type (Z.of_nat (length (padded buf))) st) l
       (f st) (recorded_capture r' c0) (r_gpu r') tail) ->
  loads c0 r r' (rd_write_section type buf).
Proof.
  intros Hsz Ht Hf Hsection l st tail Hm Hr.
  destruct (reaches_section dev_info_chip heap type buf tail l st (f st) (recorded_capture r' c0) (r_gpu r') tail)
    as (w & Hw & He & Hreach); [done..|rewrite length_app; lia| |].
  - intros w Hw. apply Hsection; [by destruct Hm|done].
  - destruct (Hf l st Hm) as [Hn Hs]. exists (mkLoader (recorded_capture r' c0) (r_gpu r') w), (f st).
    by split_and!.
Qed.

Lemma loads_gpu_id c0 r gpu_id :
  event_ok (GpuIdRead gpu_id) r -> loads c0 r (apply_event (GpuIdRead gpu_id) r) (record_event (GpuIdRead gpu_id)).
Proof.
  intros Hid. cbn in Hid. assert (padded (le_split 4 gpu_id) = le_split 4 gpu_id) as Hpad
    by (apply padded_full; by exists 1).
  apply (loads_section _ _ _ _ _ (fun st => st)); [done|done| |].
  - intros l st [_ _ Hn Hs]. by destruct r.
  - intros l st tail [Hc Hg Hn Hs] Hr. rewrite Hpad in Hr |- *. unfold load_section. eval_type.
    eapply yields_bind; [by apply (yields_Read 4 l _ _ Hr)|]. intros w Hw. cbn beta iota.
    replace (Z.of_nat (length (le_split 4 gpu_id)) <=? 4) with true by done.
    rewrite overwrite_all, le_combine_bytes by done.
    eapply yields_bind; [apply yields_put_gpu|]. intros w' Hw'. cbn in Hw'.
    rewrite <- Hw, <- Hw'. apply yields_return. rewrite Hc. by destruct r.
Qed.

Lemma loads_command c0 r text :
  event_ok (Command text) r -> loads c0 r (apply_event (Command text) r) (record_event (Command text)).
Proof.
  intros Hok. pose proof (is_system_process_padded text r Hok) as Hsys. destruct Hok as (Hne & _ & Hsz & _).
  apply (loads_section _ _ _ _ _ (fun st => mkRdLocals (cur_gpu_addr st) (cur_size st) (is_new_submit st)
    (system_process text))); [done|done| |].
  - intros l st [_ _ Hn _]. by destruct r.
  - intros l st tail [Hc Hg Hn Hs] Hr. unfold load_section. eval_type.
    eapply yields_bind; [by apply (yields_Read _ l _ _ Hr)|]. intros w Hw. cbn beta iota.
    destruct (Z.eqb_spec (Z.of_nat (length (padded text))) 0) as [E|_].
    { rewrite length_padded in E. destruct (ALIGN_range (Z.of_nat (length text))); [lia|].
      destruct text; [done|]. cbn [length] in *. lia. }
    rewrite overwrite_all, Hsys by (unfold fresh_buffer; rewrite length_fmap, length_seq; lia).
    rewrite <- Hw. apply yields_return. rewrite Hc, Hg. by destruct r.
Qed.

Lemma yields_LoadCmdStream c0 r gpuaddr sizedwords l tail :
  event_ok (CmdStream gpuaddr sizedwords) r -> l_capture l = recorded_capture r c0 ->
  rest (l_file l) =
    (le_split 4 gpuaddr ++ le_split 4 sizedwords ++ le_split 4 (Z.shiftr gpuaddr 32)) ++ tail ->
  yields (LoadCmdStreamBlockAdreno 12 (r_new_submit r) (r_skip r)) l true
    (recorded_capture (apply_event (CmdStream gpuaddr sizedwords) r) c0) (l_gpu l) tail.
Proof.
  intros (Ha & Hs & Hnew) Hc Hr. unfold LoadCmdStreamBlockAdreno.
  eapply yields_bind; [by apply yields_LoadGpuAddressAndSize|]. intros w1 H1. cbn iota.
  eapply yields_bind; [apply yields_get_capture|]. intros w2 H2. cbn [l_capture l_gpu l_file] in *.
  destruct r as [submits blocks new_submit skip gpu]. cbn [RdFile.apply_event r_new_submit r_skip r_gpu r_submits] in *.
  rewrite Hc. destruct new_submit.
  - eapply yields_bind; [apply yields_put_capture|]. intros w3 H3. cbn in H3.
    rewrite <- H1, <- H2, <- H3. by apply yields_return.
  - change (m_submits (recorded_capture _ c0)) with submits.
    destruct (last submits) as [back|] eqn:E.
    + eapply yields_bind; [apply yields_put_capture|]. intros w3 H3. cbn in H3.
      rewrite <- H1, <- H2, <- H3. by apply yields_return.
    + apply last_None in E as ->. by destruct Hnew.
Qed.

Lemma loads_cmd_stream c0 r gpuaddr sizedwords :
  event_ok (CmdStream gpuaddr sizedwords) r ->
  loads c0 r (apply_event (CmdStream gpuaddr sizedwords) r) (record_event (CmdStream gpuaddr sizedwords)).
Proof.
  intros Hok.
  apply (loads_section _ _ _ _ _ (fun st => mkRdLocals (cur_gpu_addr st) (cur_size st) false (skip_commands st))).
  - unfold section_size. by rewrite length_dwords3.
  - done.
  - intros l st [_ _ _ Hsk]. by destruct r.
  - intros l st tail [Hc Hg Hn Hsk] Hr. rewrite padded_dwords3 in Hr |- *. rewrite length_dwords3.
    unfold load_section. eval_type. rewrite Hn, Hsk.
    eapply yields_bind; [by eapply (yields_LoadCmdStream c0 r)|]. intros w Hw. rewrite <- Hw.
    apply yields_return. f_equal. by destruct r.
Qed.


Lemma loads_chip_id c0 r chip_id :
  event_ok (ChipIdRead chip_id) r ->
  loads c0 r (apply_event (ChipIdRead chip_id) r) (record_event (ChipIdRead chip_id)).
Proof.
  intros [Hid Hc]. assert (padded (le_split 8 chip_id) = le_split 8 chip_id) as Hpad
    by (apply padded_full; by exists 2).
  destruct (gpu_unknown (r_gpu r)) eqn:Hg.
  - apply (loads_section _ _ _ _ _ (fun st => st)); [done|done| |].
    { intros l st [_ _ Hn Hs]. by destruct r. }
    intros l st tail [Hcap Hgpu Hn Hs] Hr. rewrite Hpad in Hr |- *. unfold load_section. eval_type.
    eapply yields_bind; [apply yields_get_gpu|]. intros w Hw. rewrite Hgpu.
    unfold gpu_unknown in Hg. rewrite Hg. rewrite Hr in Hw.
    eapply yields_bind; [by apply (yields_Read 8 (mkLoader _ _ w) _ _ Hw)|]. intros w1 H1. cbn beta iota.
    replace (Z.of_nat (length (le_split 8 chip_id)) <=? 8) with true by done.
    rewrite overwrite_all, le_combine_bytes by done. destruct r as [submits blocks new_submit skip gpu].
    cbn [RdFile.apply_event r_gpu] in *. unfold gpu_unknown. rewrite Hg. cbn [andb].
    destruct (negb (dev_info_chip chip_id =? 0)).
    + eapply yields_bind; [apply yields_put_gpu|]. intros w2 H2. cbn in H2.
      rewrite <- H1, <- H2. apply yields_return. f_equal. exact Hcap.
    + rewrite <- H1. apply yields_return. f_equal; exact Hcap || exact Hgpu.
  - intros l st tail [Hcap Hgpu Hn Hs] Hr.
    destruct (reaches_section dev_info_chip heap RD_CHIP_ID (le_split 8 chip_id) tail l st st
      (l_capture l) (l_gpu l) (le_split 8 chip_id ++ tail)) as (w1 & H1 & He1 & R1); [done|done|done|by rewrite Hpad| |].
    { intros w Hw. rewrite Hpad in Hw |- *. unfold load_section. eval_type.
      eapply yields_bind; [apply yields_get_gpu|]. intros w' Hw'. cbn [l_gpu l_capture l_file] in *. rewrite Hgpu.
      unfold gpu_unknown in Hg. rewrite Hg, <- Hw, <- Hw'. by apply yields_return. }
    destruct (reaches_chip_id dev_info_chip heap chip_id (mkLoader (l_capture l) (l_gpu l) w1) st tail H1 Hc)
      as (w2 & H2 & He2 & R2).
    exists (mkLoader (l_capture l) (l_gpu l) w2), st. split; [by eapply reaches_trans|].
    split; [done|]. split; [cbn in *; congruence|]. destruct r as [submits blocks new_submit skip gpu].
    cbn [r_gpu] in Hg. cbn [RdFile.apply_event]. rewrite Hg. by constructor.
Qed.

Lemma reaches_gpuaddr gpuaddr size l st tail :
  rest (l_file l) = log_gpuaddr gpuaddr size ++ tail -> in_width 64 gpuaddr -> in_width 32 size ->
  exists w, rest w = tail /\ ending w = ending (l_file l) /\
    reaches l st (mkLoader (l_capture l) (l_gpu l) w) (mkRdLocals gpuaddr size true (skip_commands st)).
Proof.
  intros Hr Ha Hs. eapply reaches_section; [exact Hr| |done| |].
  - unfold section_size. by rewrite length_dwords3.
  - rewrite (length_app (padded _)). lia.
  - intros w Hw. rewrite padded_dwords3 in Hw |- *. rewrite length_dwords3. unfold load_section. eval_type.
    eapply yields_bind; [by apply yields_LoadGpuAddressAndSize|]. intros w' Hw'. cbn iota.
    rewrite <- Hw'. by apply yields_return.
Qed.

Lemma loads_buffer c0 r gpuaddr contents :
  event_ok (Buffer gpuaddr contents) r ->
  loads c0 r (apply_event (Buffer gpuaddr contents) r) (record_event (Buffer gpuaddr contents)).
Proof.
  intros (Ha & Hne & Hsz & H4) l st tail [Hcap Hgpu Hn Hs] Hr.
  set (size := Z.of_nat (length contents)) in *. cbn [record_event] in Hr. unfold dump_bo in Hr.
  rewrite <- (assoc_L (++)) in Hr.
  set (st1 := mkRdLocals gpuaddr size true (skip_commands st)).
  assert (in_width 32 size) as Hsize by (unfold section_size, in_width in *; lia).
  assert (0 < size) as Hpos by (destruct contents; [done|subst size; cbn [length]; lia]).
  destruct (reaches_gpuaddr gpuaddr size l st _ Hr Ha Hsize) as (w1 & H1 & He1 & R1). fold st1 in R1.
  destruct (reaches_section dev_info_chip heap RD_BUFFER_CONTENTS contents tail (mkLoader (l_capture l) (l_gpu l) w1) st1 st1
      (recorded_capture (apply_event (Buffer gpuaddr contents) r) c0) (l_gpu l) tail H1)
    as (w2 & H2 & He2 & R2); [done|done|rewrite length_app; lia| |].
  { intros w Hw. rewrite padded_full in Hw |- * by done. fold size. unfold load_section. eval_type.
    cbn [cur_size st1 cur_gpu_addr]. rewrite Z.eqb_refl. cbn [negb]. unfold LoadMemoryBlockAdreno.
    assert (yields (LoadMemoryBlockAdreno heap gpuaddr size) (mkLoader (l_capture l) (l_gpu l) w) true
      (recorded_capture (apply_event (Buffer gpuaddr contents) r) c0) (l_gpu l) tail) as Hload.
    { unfold LoadMemoryBlockAdreno.
      eapply yields_bind; [by apply (yields_Read _ (mkLoader _ _ w) _ _ Hw)|]. intros w3 H3. cbn beta iota.
      destruct (Z.eqb_spec size 0); [lia|].
      eapply yields_bind; [apply yields_get_capture|]. intros w4 H4'. cbn [l_gpu l_capture l_file] in *.
      rewrite overwrite_all by (unfold fresh_buffer; rewrite length_fmap, length_seq; lia).
      eapply yields_bind; [apply yields_put_capture|]. intros w5 H5. cbn in H5.
      rewrite <- H3, <- H4', <- H5. apply yields_return. f_equal. rewrite Hcap. by destruct r. }
    eapply yields_bind; [exact Hload|]. intros w' Hw'. rewrite <- Hw'. by apply yields_return. }
  exists (mkLoader (recorded_capture (apply_event (Buffer gpuaddr contents) r) c0) (l_gpu l) w2), st1.
  split; [by eapply reaches_trans|]. split; [done|]. split; [cbn in *; congruence|].
  destruct r. by constructor.
Qed.

Lemma loads_event c0 r e : event_ok e r -> loads c0 r (apply_event e r) (record_event e).
Proof.
  destruct e; intros Hok.
  - by apply loads_buffer.
  - by apply loads_cmd_stream.
  - by apply loads_command.
  - by apply loads_gpu_id.
  - by apply loads_chip_id.
  - replace (apply_event _ r) with r by (by destruct r). by apply loads_other.
Qed.

Lemma loads_events c0 r es :
  recording_ok dev_info_chip es r -> loads c0 r (apply_events dev_info_chip es r) (record_events es).
Proof.
  revert r. induction es as [|e es IH]; intros r Hok l st tail Hm Hr.
  - exists l, st. split; [apply reaches_refl|]. by split.
  - destruct Hok as [He Hok]. unfold record_events in Hr. cbn [fmap list_fmap concat] in Hr.
    rewrite <- (assoc_L (++)) in Hr.
    destruct (loads_event c0 r e He l st _ Hm Hr) as (l1 & st1 & R1 & Hr1 & He1 & Hm1).
    destruct (IH (apply_event e r) Hok l1 st1 tail Hm1 Hr1) as (l2 & st2 & R2 & Hr2 & He2 & Hm2).
    exists l2, st2. split; [by eapply reaches_trans|]. split; [done|]. split; [congruence|done].
Qed.
End Events.

(** ** The whole file *)

Section Files.
Context {W : Type} `{ArchiveLaws W} (dev_info_chip : Z -> Z) (heap : nat -> byte).

Abbreviation LoadFile := (LoadAdrenoRdFile dev_info_chip heap).

(** A finished load of the recording [r] over the capture [c]. *)
Definition loaded (file_name : string) (r : Recording) (c : Pm4CaptureData) (w : W)
  : outcome (LoadResult * Loader W) :=
  match Finalize true (set_blocks (r_blocks r) (m_memory c)) with
  | Some memory =>
      Done (kSuccess, mkLoader (set_capture_file file_name (set_memory memory (set_submits (r_submits r) c)))
                        (r_gpu r) w)
  | None => OutOfBounds
  end.

Lemma matches_start (l : Loader W) :
  matches (l_capture l) (recording_of (l_capture l) (l_gpu l)) l initial_locals.
Proof.
  split; [|done..]. destruct l as [c g w]. destruct c as [? ? ? ? ? ? m ? ?]. by destruct m.
Qed.

(** The loop at the end of the file, or of what can be read of it. *)
Lemma load_sections_end fuel info (l : Loader W) st : rest (l_file l) = [] ->
  exists w, load_sections dev_info_chip heap (S fuel) info st l =
    finish_load (mkLoader (l_capture l) (l_gpu l) w).
Proof.
  intros Hr. destruct (Read_ended 8 l) as (w & E & _ & _); [lia|done|]. exists w.
  cbn [load_sections]. unfold mbind at 1, Load_bind at 1. rewrite E.
  pose proof (ending_law (l_file l)). by destruct (Z.leb_spec (ending (l_file l)) 0); [|lia].
Qed.

(** After the recorded events, the load goes on with the rest of the file. *)
Lemma LoadFile_events es file_name l w0 tail fuel :
  FileReader_Open file_name (l_file l) = (0, w0) ->
  rest w0 = record_events es ++ tail ->
  let r0 := recording_of (l_capture l) (l_gpu l) in
  recording_ok dev_info_chip es r0 ->
  (length (rest w0) < fuel)%nat ->
  exists l' st' fuel' info',
    rest (l_file l') = tail /\ ending (l_file l') = ending w0 /\
    matches (l_capture l) (apply_events dev_info_chip es r0) l' st' /\
    (length tail < fuel')%nat /\ length info' = 8%nat /\
    LoadFile fuel file_name l =
      ('(r, l) ← load_sections dev_info_chip heap fuel' info' st' l';
       let result := match r with inl r => r | inr r => r end in
       if bool_decide (result = kSuccess)
       then Done (result, mkLoader (set_capture_file file_name (l_capture l)) (l_gpu l) (l_file l))
       else Done (result, l)).
Proof.
  intros Ho Hr r0 Hok Hf. set (l0 := mkLoader (l_capture l) (l_gpu l) w0).
  destruct (loads_events dev_info_chip heap (l_capture l) r0 es Hok l0 initial_locals tail)
    as (l' & st' & Hreach & Hr' & He' & Hm'); [exact (matches_start l0)|done|].
  destruct (Hreach fuel (zero_bytes 8) Hf eq_refl) as (fuel' & info' & Hf' & Hi' & E).
  exists l', st', fuel', info'. rewrite <- Hr'. split_and!; try done.
  unfold LoadAdrenoRdFile, LoadAdrenoRdFile_reader. rewrite Ho. cbn [Z.eqb negb]. fold l0. by rewrite E.
Qed.

Lemma finish_loaded c0 r l st file_name :
  matches c0 r l st ->
  ('(r, l) ← finish_load l;
   let result := match r with inl r => r | inr r => r end in
   if bool_decide (result = kSuccess)
   then Done (result, mkLoader (set_capture_file file_name (l_capture l)) (l_gpu l) (l_file l))
   else Done (result, l)) = loaded file_name r c0 (l_file l).
Proof.
  intros [Hc Hg _ _]. destruct l as [c g w]. cbn in Hc, Hg. subst c g.
  unfold finish_load, loaded, mbind, Load_bind, get_capture.
  cbn [l_capture l_gpu l_file]. cbn [m_memory recorded_capture set_submits set_memory].
  by destruct (Finalize _ _).
Qed.

(** What was recorded is loaded, whether the archive ends properly or not. *)
Lemma LoadFile_recorded es file_name l w0 fuel :
  FileReader_Open file_name (l_file l) = (0, w0) ->
  rest w0 = record_events es ->
  let r0 := recording_of (l_capture l) (l_gpu l) in
  recording_ok dev_info_chip es r0 ->
  (length (rest w0) < fuel)%nat ->
  exists w, LoadFile fuel file_name l = loaded file_name (apply_events dev_info_chip es r0) (l_capture l) w.
Proof.
  intros Ho Hr r0 Hok Hf. rewrite <- (app_nil_r (record_events es)) in Hr.
  destruct (LoadFile_events es file_name l w0 [] fuel Ho Hr Hok Hf)
    as (l' & st' & fuel' & info' & Hr' & _ & Hm & Hf' & _ & ->).
  destruct fuel' as [|fuel']; [cbn in Hf'; lia|].
  destruct (load_sections_end fuel' info' l' st' Hr') as (w & ->). exists w.
  replace w with (l_file (mkLoader (l_capture l') (l_gpu l') w)) at 2 by done.
  apply (finish_loaded _ _ _ st'). by destruct Hm.
Qed.

(** How an action ends that does not succeed; [None]: out of bounds. *)
Definition ends_with {A} (o : outcome ((A + LoadResult) * Loader W)) (res : option LoadResult) : Prop :=
  match o with Done (inr r, _) => res = Some r | OutOfBounds => res = None | _ => False end.

(** What the load of a file gives then. *)
Definition load_fails (o : outcome (LoadResult * Loader W)) (res : option LoadResult) : Prop :=
  match res with Some r => exists l, o = Done (r, l) | None => o = OutOfBounds end.

Lemma section_fails type size tail (l : Loader W) st res fuel info :
  rest (l_file l) = section_header type size ++ tail -> 0 <= type < 2 ^ 32 - 1 -> in_width 32 size ->
  (length (rest (l_file l)) < fuel)%nat -> length info = 8%nat ->
  (forall w, rest w = tail ->
     ends_with (load_section dev_info_chip heap type size st (mkLoader (l_capture l) (l_gpu l) w)) res) ->
  ends_with (load_sections dev_info_chip heap fuel info st l) res.
Proof.
  intros Hr Ht Hs Hf Hi Hfails.
  destruct (section_turn dev_info_chip heap type size tail l Hr Ht Hs) as (w & info' & Hw & _ & _ & Hturn).
  rewrite Hr, length_app, length_section_header in Hf. destruct fuel as [|[|fuel]]; [lia..|].
  rewrite Hturn by done. specialize (Hfails w Hw). unfold mbind at 1, Load_bind at 1.
  by destruct (load_section _ _ _ _ _ _) as [[[]]| |].
Qed.

Lemma LoadFile_fails es file_name l w0 tail fuel res :
  FileReader_Open file_name (l_file l) = (0, w0) ->
  rest w0 = record_events es ++ tail ->
  let r0 := recording_of (l_capture l) (l_gpu l) in
  recording_ok dev_info_chip es r0 ->
  (length (rest w0) < fuel)%nat -> res <> Some kSuccess ->
  (forall fuel info l' st, rest (l_file l') = tail -> (length tail < fuel)%nat -> length info = 8%nat ->
     matches (l_capture l) (apply_events dev_info_chip es r0) l' st ->
     ends_with (load_sections dev_info_chip heap fuel info st l') res) ->
  load_fails (LoadFile fuel file_name l) res.
Proof.
  intros Ho Hr r0 Hok Hf Hres Hfails.
  destruct (LoadFile_events es file_name l w0 tail fuel Ho Hr Hok Hf)
    as (l' & st' & fuel' & info' & Hr' & _ & Hm & Hf' & Hi' & ->).
  specialize (Hfails fuel' info' l' st' Hr' Hf' Hi' Hm).
  unfold mbind, outcome_bind. destruct (load_sections _ _ _ _ _ _) as [[[r|r] l2]| |]; try done; cbn in Hfails.
  - subst res. cbn. rewrite bool_decide_eq_false_2 by congruence. by eexists.
  - by subst res.
Qed.

(** A buffer object whose contents are refused. *)
Lemma buffer_fails gpuaddr contents tail l st res fuel info :
  rest (l_file l) = dump_bo gpuaddr contents ++ tail -> in_width 64 gpuaddr -> section_size contents ->
  (length (rest (l_file l)) < fuel)%nat -> length info = 8%nat ->
  (forall w, rest w = padded contents ++ tail ->
     ends_with (load_section dev_info_chip heap RD_BUFFER_CONTENTS (Z.of_nat (length (padded contents)))
       (mkRdLocals gpuaddr (Z.of_nat (length contents)) true (skip_commands st))
       (mkLoader (l_capture l) (l_gpu l) w)) res) ->
  ends_with (load_sections dev_info_chip heap fuel info st l) res.
Proof.
  intros Hr Ha Hsz Hf Hi Hfails. unfold dump_bo in Hr. rewrite <- (assoc_L (++)) in Hr.
  destruct (reaches_gpuaddr dev_info_chip heap _ _ l st _ Hr Ha) as (w1 & H1 & _ & R1).
  { unfold section_size, in_width in *. lia. }
  destruct (R1 fuel info Hf Hi) as (fuel' & info' & Hf' & Hi' & ->).
  rewrite rd_write_section_header in H1.
  eapply section_fails; [exact H1|done|by apply section_size_width|done|done|].
  intros w Hw. by apply Hfails.
Qed.

(** Contents that the file has only the start of. *)
Lemma read_truncated n (l : Loader W) d : rest (l_file l) = d -> Z.of_nat (length d) < n ->
  exists w, Read n l = Done (inl (if ending (l_file l) <? 0 then ending (l_file l) else Z.of_nat (length d), d),
    mkLoader (l_capture l) (l_gpu l) w) /\ rest w = [].
Proof.
  intros Hr Hn. destruct (Read_spec n l) as (r & d' & w & E & Hrest & _ & Hc); [lia|].
  exists w. rewrite E. rewrite Hr in Hrest.
  pose proof (f_equal length Hrest) as Hl. rewrite length_app in Hl.
  destruct Hc as [[_ ?]|(_ & Hw & ->)]; [lia|]. rewrite Hw, app_nil_r in Hrest. by subst d'.
Qed.

Lemma contents_truncated c0 r (l : Loader W) st len d :
  l_capture l = recorded_capture r c0 -> rest (l_file l) = d -> in_width 32 len ->
  Z.of_nat (length d) < len -> d <> [] \/ ending (l_file l) < 0 -> cur_size st = len ->
  exists w, rest w = [] /\
    load_section dev_info_chip heap RD_BUFFER_CONTENTS len st l =
    Done (inl st, mkLoader (recorded_capture (apply_event dev_info_chip
      (Buffer (cur_gpu_addr st) (overwrite (fresh_buffer heap len) d)) r) c0) (l_gpu l) w).
Proof.
  intros Hc Hr Hlen Hd Hne Hst. destruct (read_truncated len l d Hr Hd) as (w & E & Hw).
  assert (length (overwrite (fresh_buffer heap len) d) = Z.to_nat len) as Hfresh.
  { rewrite length_overwrite; unfold fresh_buffer; rewrite length_fmap, length_seq; lia. }
  exists w. split; [done|]. unfold load_section. eval_type. rewrite Hst, Z.eqb_refl. cbn [negb].
  unfold LoadMemoryBlockAdreno, mbind, Load_bind. rewrite E.
  destruct (Z.eqb_spec (if ending (l_file l) <? 0 then ending (l_file l) else Z.of_nat (length d)) 0) as [E0|_].
  { destruct (Z.ltb_spec (ending (l_file l)) 0); [lia|]. destruct Hne as [Hne|]; [|lia].
    destruct d; [done|]. cbn [length] in E0. lia. }
  cbn [get_capture l_capture l_gpu l_file put_capture mret Load_ret]. rewrite Hc.
  destruct r as [submits blocks new_submit skip gpu]. cbn [apply_event].
  rewrite Hfresh, Z2Nat.id by (destruct Hlen; lia). done.
Qed.

Lemma LoadFile_truncated es gpuaddr len d file_name l w0 fuel :
  FileReader_Open file_name (l_file l) = (0, w0) ->
  rest w0 = record_events es ++ log_gpuaddr gpuaddr len ++ section_header RD_BUFFER_CONTENTS len ++ d ->
  let r0 := recording_of (l_capture l) (l_gpu l) in
  recording_ok dev_info_chip es r0 -> in_width 64 gpuaddr -> in_width 32 len ->
  Z.of_nat (length d) < len -> d <> [] \/ ending w0 < 0 ->
  (length (rest w0) < fuel)%nat ->
  let r := apply_events dev_info_chip es r0 in
  exists w, LoadFile fuel file_name l =
    loaded file_name (apply_event dev_info_chip (Buffer gpuaddr (overwrite (fresh_buffer heap len) d)) r)
      (l_capture l) w.
Proof.
  intros Ho Hr r0 Hok Ha Hlen Hd Hne Hf r.
  destruct (LoadFile_events es file_name l w0 _ fuel Ho Hr Hok Hf)
    as (l1 & st1 & fuel1 & info1 & Hr1 & He1 & Hm & Hf1 & Hi1 & ->).
  destruct (reaches_gpuaddr dev_info_chip heap gpuaddr len l1 st1 _ Hr1 Ha Hlen) as (w2 & H2 & He2 & R).
  rewrite <- Hr1 in Hf1. destruct (R fuel1 info1 Hf1 Hi1) as (fuel2 & info2 & Hf2 & Hi2 & ->).
  cbn [l_file] in Hf2. destruct (section_turn dev_info_chip heap _ _ _ (mkLoader (l_capture l1) (l_gpu l1) w2) H2)
    as (w3 & info3 & H3 & He3 & Hi3 & Hturn); [done|done|].
  rewrite H2, length_app, length_section_header in Hf2. destruct fuel2 as [|[|fuel2]]; [lia..|].
  rewrite Hturn by done. cbn [l_capture l_gpu l_file] in *.
  set (st2 := mkRdLocals gpuaddr len true (skip_commands st1)).
  destruct (contents_truncated (l_capture l) r (mkLoader (l_capture l1) (l_gpu l1) w3) st2 len d)
    as (w4 & H4 & E4); [by destruct Hm|done|done|done| |done|].
  { cbn [l_file]. by rewrite He3, He2, He1. }
  unfold mbind at 2, Load_bind at 1. fold st2. rewrite E4. cbn [l_gpu].
  match goal with |- context [load_sections _ _ (S fuel2) info3 st2 ?l4] =>
    destruct (load_sections_end fuel2 info3 l4 st2 H4) as (w5 & ->) end.
  exists w5. cbn [l_capture l_gpu].
  rewrite (finish_loaded (l_capture l) (apply_event dev_info_chip
    (Buffer gpuaddr (overwrite (fresh_buffer heap len) d)) r) _ (mkRdLocals gpuaddr len true (r_skip r))); [done|].
  destruct Hm as [_ Hg _ _]. change (apply_events _ _ _) with r in Hg. clearbody r. destruct r. by split.
Qed.

Lemma empty_contents gpuaddr skip (l : Loader W) :
  ends_with (load_section dev_info_chip heap RD_BUFFER_CONTENTS (Z.of_nat (length (padded [])))
    (mkRdLocals gpuaddr (Z.of_nat (length (@nil byte))) true skip) l) (Some kFileIoError).
Proof.
  change (Z.of_nat (length (padded []))) with 0. unfold load_section. eval_type. cbn.
  unfold LoadMemoryBlockAdreno, mbind, Load_bind. done.
Qed.

Lemma unaligned_contents gpuaddr contents skip (l : Loader W) : ~ (4 | Z.of_nat (length contents)) ->
  ends_with (load_section dev_info_chip heap RD_BUFFER_CONTENTS (Z.of_nat (length (padded contents)))
    (mkRdLocals gpuaddr (Z.of_nat (length contents)) true skip) l) (Some kCorruptData).
Proof.
  intros H4. rewrite length_padded. unfold load_section. eval_type. cbn [cur_size].
  destruct (Z.eqb_spec (ALIGN (Z.of_nat (length contents)) 4) (Z.of_nat (length contents))) as [E|_]; [|done].
  destruct H4. rewrite <- E. by apply ALIGN_range; lia.
Qed.

Lemma strcmp_eq_prefix buf s : buf `prefix_of` s -> strcmp_eq buf s = None.
Proof.
  intros [k ->]. induction buf as [|b buf IH]; [done|]. cbn. by rewrite decide_True.
Qed.

Lemma is_system_process_over_read buf name :
  name ∈ system_processes -> buf `prefix_of` name -> is_system_process buf = None.
Proof.
  intros Hname Hp%strcmp_eq_prefix. unfold is_system_process. unfold system_processes in Hname.
  rewrite !elem_of_cons, elem_of_nil in Hname.
  destruct Hname as [->|[->|[->|[]]]]; rewrite Hp; cbn [mbind option_bind]; [done|..].
  - by destruct (strcmp_eq buf (name_bytes "fdperf")).
  - destruct (strcmp_eq buf (name_bytes "fdperf")); [cbn [mbind option_bind]|done].
    by destruct (strcmp_eq buf (name_bytes "chrome")).
Qed.

Lemma short_name text name st tail (l : Loader W) :
  text <> [] -> (4 | Z.of_nat (length text)) -> text `prefix_of` name -> name ∈ system_processes ->
  rest (l_file l) = padded text ++ tail ->
  ends_with (load_section dev_info_chip heap RD_CMD (Z.of_nat (length (padded text))) st l) None.
Proof.
  intros Hne H4 Hp Hname Hr. rewrite padded_full in Hr |- * by done. unfold load_section. eval_type.
  unfold mbind, Load_bind. destruct (Read_exact _ l _ _ Hr eq_refl) as (w & -> & _ & _).
  destruct (Z.eqb_spec (Z.of_nat (length text)) 0); [by destruct text|].
  rewrite overwrite_all by (unfold fresh_buffer; rewrite length_fmap, length_seq; lia).
  by rewrite (is_system_process_over_read text name).
Qed.

Lemma system_names_short name : name ∈ system_processes -> (length name <= 14)%nat.
Proof.
  unfold system_processes. rewrite !elem_of_cons, elem_of_nil.
  intros [->|[->|[->|[]]]]; vm_compute; lia.
Qed.

Lemma first_stream c0 r gpuaddr sizedwords st tail (l : Loader W) w :
  matches c0 r l st -> r_new_submit r = false -> r_submits r = [] ->
  in_width 64 gpuaddr -> in_width 32 sizedwords ->
  rest w = (le_split 4 gpuaddr ++ le_split 4 sizedwords ++ le_split 4 (Z.shiftr gpuaddr 32)) ++ tail ->
  ends_with (load_section dev_info_chip heap RD_CMDSTREAM_ADDR (Z.of_nat 12) st
    (mkLoader (l_capture l) (l_gpu l) w)) None.
Proof.
  intros [Hc _ Hn _] Hnew Hsub Ha Hs Hr. unfold load_section. eval_type.
  unfold LoadCmdStreamBlockAdreno. rewrite Hn, Hnew.
  destruct (yields_LoadGpuAddressAndSize gpuaddr sizedwords (mkLoader (l_capture l) (l_gpu l) w) tail)
    as (w' & E & _ & _); [done..|].
  unfold mbind, Load_bind. change (Z.of_nat 12) with 12. rewrite E.
  cbn [get_capture l_capture]. rewrite Hc. change (m_submits (recorded_capture r c0)) with (r_submits r).
  by rewrite Hsub.
Qed.
End Files.

(** ** Properties *)

Section Properties.
Context {W : Type} `{ArchiveLaws W} (dev_info_chip : Z -> Z) (heap : nat -> byte).

Abbreviation LoadFile := (LoadAdrenoRdFile dev_info_chip heap).

(** C11: a capture that was written section by section is loaded as what was
    recorded, when what was recorded can be represented ([recording_ok]): buffers are not
    empty and of a multiple of 4 bytes, sections are shorter than 2^31 - 4 bytes, a command
    stream follows a buffer or an earlier stream, process names have no zero byte and are
    no proper start of a tested name, the low dword of a chip id is above 14 and below
    2^32 - 1, and other sections are of a type that is skipped. The submits are those of the recorded command streams, a new one
    for each stream after a buffer; a stream is skipped while a system process
    records; the GPU id is the recorded one, or that of the chip if it has none.
    If buffers of a submit are only recorded again at the same address, the memory
    holds, at each address of a submit, the byte of the last largest buffer that
    was recorded for it. It makes no difference whether the archive ends properly
    after the last section or is damaged there. *)
Theorem rd_capture_loaded es file_name l w0 fuel :
  FileReader_Open file_name (l_file l) = (0, w0) ->
  rest w0 = record_events es ->
  recording_ok dev_info_chip es (recording_of (l_capture l) (l_gpu l)) ->
  (length (rest w0) < fuel)%nat ->
  let r := apply_events dev_info_chip es (recording_of (l_capture l) (l_gpu l)) in
  recaptured_ok (r_blocks r) ->
  exists memory w,
    LoadFile fuel file_name l =
      Done (kSuccess, mkLoader (set_capture_file file_name (set_memory memory (set_submits (r_submits r) (l_capture l))))
                        (r_gpu r) w) /\
    memory_ok memory /\
    forall submit a x, mem_byte submit a memory = Some x <->
      exists b, last_largest (r_blocks r) b /\ m_submit_index b = submit /\
        m_va_addr b <= a < m_va_addr b + m_data_size b /\
        m_data_ptr b !! Z.to_nat (a - m_va_addr b) = Some x.
Proof.
  intros Ho Hr Hok Hf r Hrec.
  destruct (LoadFile_recorded dev_info_chip heap es file_name l w0 fuel Ho Hr Hok Hf) as (w & ->).
  destruct (finalized_bytes (set_blocks (r_blocks r) (m_memory (l_capture l))) Hrec) as (m & E & Hm & Hbytes).
  exists m, w. unfold loaded. fold r. by rewrite E.
Qed.

(** Loading ends, whatever is in the file: more steps than the file has
    bytes are never needed, and the result does not depend on how many more are
    allowed. *)
Theorem rd_load_ends file_name l :
  exists result, result <> OutOfFuel /\
    forall fuel, (length (rest (snd (FileReader_Open file_name (l_file l)))) < fuel)%nat ->
      LoadFile fuel file_name l = result.
Proof.
  destruct (FileReader_Open file_name (l_file l)) as [ret w0] eqn:Eo. cbn [snd].
  exists (LoadFile (S (length (rest w0))) file_name l).
  unfold LoadAdrenoRdFile, LoadAdrenoRdFile_reader. rewrite Eo.
  destruct (negb (ret =? 0)); [done|].
  set (l0 := mkLoader (l_capture l) (l_gpu l) w0).
  assert (load_sections dev_info_chip heap (S (length (rest w0))) (zero_bytes 8) initial_locals l0 <> OutOfFuel) as Hn
    by (apply load_sections_ends; cbn; lia).
  split.
  - unfold mbind, outcome_bind. destruct (load_sections _ _ _ _ _ _) as [[r l1]| |]; [|done..].
    by destruct (bool_decide _).
  - intros fuel Hf. by rewrite (load_sections_mono _ _ (S (length (rest w0)))) by (done || lia).
Qed.

(** What a file that goes on after recorded sections in another way does to
    the load. Contents of which the file holds only the start, or which the
    archive cannot read on, are loaded as a whole buffer, the rest of which is
    what the heap held; a buffer without contents, and one whose length is not a
    multiple of four, are refused; a name that is a proper start of the name of a
    system process and has no terminator is read past its end; and a command
    stream before any buffer looks for the last of no submits. *)
Theorem rd_load_hazards es file_name l w0 fuel tail :
  FileReader_Open file_name (l_file l) = (0, w0) ->
  rest w0 = record_events es ++ tail ->
  recording_ok dev_info_chip es (recording_of (l_capture l) (l_gpu l)) ->
  (length (rest w0) < fuel)%nat ->
  let r := apply_events dev_info_chip es (recording_of (l_capture l) (l_gpu l)) in
  (forall gpuaddr len d, in_width 64 gpuaddr -> in_width 32 len -> Z.of_nat (length d) < len ->
     d <> [] \/ ending w0 < 0 -> tail = log_gpuaddr gpuaddr len ++ section_header RD_BUFFER_CONTENTS len ++ d ->
     exists w, LoadFile fuel file_name l =
       loaded file_name (apply_event dev_info_chip (Buffer gpuaddr (overwrite (fresh_buffer heap len) d)) r)
         (l_capture l) w) /\
  (forall gpuaddr k, in_width 64 gpuaddr -> tail = dump_bo gpuaddr [] ++ k ->
     exists l', LoadFile fuel file_name l = Done (kFileIoError, l')) /\
  (forall gpuaddr contents k, in_width 64 gpuaddr -> section_size contents ->
     ~ (4 | Z.of_nat (length contents)) -> tail = dump_bo gpuaddr contents ++ k ->
     exists l', LoadFile fuel file_name l = Done (kCorruptData, l')) /\
  (forall text name k, text <> [] -> (4 | Z.of_nat (length text)) -> text `prefix_of` name ->
     name ∈ system_processes -> tail = rd_write_section RD_CMD text ++ k ->
     LoadFile fuel file_name l = OutOfBounds) /\
  (forall gpuaddr sizedwords k, in_width 64 gpuaddr -> in_width 32 sizedwords ->
     r_new_submit r = false -> r_submits r = [] -> tail = log_cmdaddr gpuaddr sizedwords ++ k ->
     LoadFile fuel file_name l = OutOfBounds).
Proof.
  intros Ho Hr Hok Hf r. split_and!.
  - intros gpuaddr len d Ha Hl Hd Hne ->. by eapply LoadFile_truncated.
  - intros gpuaddr k Ha ->. eapply (LoadFile_fails _ _ _ _ _ _ _ _ (Some kFileIoError)); try done.
    intros fuel' info l' st Hr' Hf' Hi' _. rewrite <- Hr' in Hf'.
    by eapply buffer_fails; [..|intros w Hw; apply empty_contents].
  - intros gpuaddr contents k Ha Hsz H4 ->. eapply (LoadFile_fails _ _ _ _ _ _ _ _ (Some kCorruptData)); try done.
    intros fuel' info l' st Hr' Hf' Hi' _. rewrite <- Hr' in Hf'.
    by eapply buffer_fails; [..|intros w Hw; apply unaligned_contents].
  - intros text name k Hne H4 Hp Hname ->. eapply (LoadFile_fails _ _ _ _ _ _ _ _ None); try done.
    intros fuel' info l' st Hr' Hf' Hi' _. rewrite <- Hr' in Hf'. rewrite rd_write_section_header in Hr'.
    pose proof (system_names_short name Hname) as Hshort. apply prefix_length in Hp as Hlen.
    eapply section_fails; [exact Hr'|done|apply section_size_width; unfold section_size; lia|done|done|].
    intros w Hw. by eapply short_name.
  - intros gpuaddr sizedwords k Ha Hs Hnew Hsub ->. eapply (LoadFile_fails _ _ _ _ _ _ _ _ None); try done.
    intros fuel' info l' st Hr' Hf' Hi' Hm. rewrite <- Hr' in Hf'.
    unfold log_cmdaddr in Hr'. rewrite rd_write_section_header, padded_dwords3 in Hr'.
    eapply section_fails; [exact Hr'|done|by rewrite length_dwords3|done|done|].
    intros w Hw. rewrite length_dwords3. by eapply first_stream.
Qed.
End Properties.

(** ** Witnesses *)

(** An archive that is its bytes, with whether it is damaged after them. *)
Definition BytesArchive : Type := list byte * bool.

#[local] Instance bytes_archive : Archive BytesArchive := {
  archive_read_support_filter_gzip w := (0, w);
  archive_read_support_filter_none w := (0, w);
  archive_read_support_format_all w := (0, w);
  archive_read_support_format_raw w := (0, w);
  archive_read_open_filename _ _ w := (0, w);
  archive_read_next_header w := (0, w);
  archive_read_data s w :=
    match fst w with
    | [] => ((if snd w then -30 else 0, []), w)
    | _ => let d := take (Z.to_nat s) (fst w) in
           ((Z.of_nat (length d), d), (drop (Z.to_nat s) (fst w), snd w))
    end
}.

#[local] Instance bytes_archive_laws : ArchiveLaws BytesArchive.
Proof.
  refine (Build_ArchiveLaws BytesArchive _ fst (fun w : BytesArchive => if snd w then -30 else 0) _ _).
  - intros [bs []]; cbn; lia.
  - intros s [bs b] Hs. destruct bs as [|x bs]; eexists _, _, _; (split; [reflexivity|]); (split; [done|]).
    + by left.
    + right. cbn [fst snd]. rewrite take_drop, length_take. cbn [length]. split_and!; (done || lia).
Defined.

Definition test_chip (chip_id : Z) : Z := if chip_id =? 0x07030001 then 7 else 0.
Definition test_heap (i : nat) : byte := Byte.xcc.

(** Two submits, the first of two command streams. *)
Definition test_events : list Event :=
  [Other RD_TEST []; GpuIdRead 730; ChipIdRead 0x07030001; Command (name_bytes "game");
   Buffer 4096 (bytes_of [1; 2; 3; 4; 5; 6; 7; 8]); CmdStream 4096 2; CmdStream 4100 1;
   Command (name_bytes "chrome"); Buffer 4096 (bytes_of [9; 9; 9; 9]); CmdStream (2 ^ 40) 1].

Definition test_recording : Recording :=
  apply_events test_chip test_events (recording_of new_Pm4CaptureData (SetGPUID 0)).

Definition test_loader (bytes : list byte) (damaged : bool) : Loader BytesArchive :=
  mkLoader new_Pm4CaptureData (SetGPUID 0) (bytes, damaged).

Lemma test_events_ok : recording_ok test_chip test_events (recording_of new_Pm4CaptureData (SetGPUID 0)).
Proof. apply (bool_decide_unpack _). vm_compute. exact I. Qed.

Lemma test_recaptured : recaptured_ok (r_blocks test_recording).
Proof.
  split.
  - repeat constructor; vm_compute; congruence.
  - intros b1 b2 H1 H2. change (r_blocks test_recording) with
      [mkBlock 4096 0 8 (bytes_of [1; 2; 3; 4; 5; 6; 7; 8]); mkBlock 4096 1 4 (bytes_of [9; 9; 9; 9])] in *.
    rewrite !elem_of_cons, elem_of_nil in H1, H2.
    unfold before. destruct H1 as [->|[->|[]]], H2 as [->|[->|[]]]; cbn; lia.
Qed.

Lemma rd_capture_loaded_witness :
  r_submits test_recording =
    [mkSubmit kUniversal kQueueUniversal 0 false [mkIbInfo 4096 2 0 0 false; mkIbInfo 4100 1 0 0 false];
     mkSubmit kUniversal kQueueUniversal 0 false [mkIbInfo (2 ^ 40) 1 0 0 true]] /\
  exists memory w,
    LoadAdrenoRdFile test_chip test_heap 1000 "game.rd" (test_loader (record_events test_events) true) =
      Done (kSuccess, mkLoader (set_capture_file "game.rd" (set_memory memory
        (set_submits (r_submits test_recording) new_Pm4CaptureData))) (SetGPUID 730) w) /\
    memory_ok memory.
Proof.
  split; [vm_compute; reflexivity|].
  destruct (rd_capture_loaded test_chip test_heap test_events "game.rd"
    (test_loader (record_events test_events) true) (record_events test_events, true) 1000)
    as (memory & w & E & Hm & _).
  - vm_compute. reflexivity.
  - reflexivity.
  - exact test_events_ok.
  - vm_compute. lia.
  - exact test_recaptured.
  - exists memory, w. split; [exact E|exact Hm].
Defined.

(** A file that is not even a section. *)
Lemma rd_load_ends_witness :
  LoadAdrenoRdFile test_chip test_heap 10 "x.rd" (test_loader (bytes_of [1; 2; 3]) false)
    = LoadAdrenoRdFile test_chip test_heap 1000 "x.rd" (test_loader (bytes_of [1; 2; 3]) false) /\
  LoadAdrenoRdFile test_chip test_heap 10 "x.rd" (test_loader (bytes_of [1; 2; 3]) false) <> OutOfFuel.
Proof.
  destruct (rd_load_ends test_chip test_heap "x.rd" (test_loader (bytes_of [1; 2; 3]) false)) as (o & Ho & H).
  rewrite !H by (vm_compute; lia). split; [reflexivity|exact Ho].
Defined.

(** The first submit's buffer, of which the file ends after two bytes. *)
Lemma rd_load_hazards_witness :
  exists w,
    LoadAdrenoRdFile test_chip test_heap 1000 "game.rd"
      (test_loader (log_gpuaddr 4096 4 ++ section_header RD_BUFFER_CONTENTS 4 ++ bytes_of [1; 2]) false) =
    Done (kSuccess, mkLoader (set_capture_file "game.rd"
      (set_memory (mkMemory None [mkBlock 4096 0 4 (bytes_of [1; 2; 0xcc; 0xcc])] new_MemoryAllocationInfo true)
        new_Pm4CaptureData)) (SetGPUID 0) w).
Proof.
  destruct (rd_load_hazards test_chip test_heap [] "game.rd"
    (test_loader (log_gpuaddr 4096 4 ++ section_header RD_BUFFER_CONTENTS 4 ++ bytes_of [1; 2]) false)
    (log_gpuaddr 4096 4 ++ section_header RD_BUFFER_CONTENTS 4 ++ bytes_of [1; 2], false) 1000
    (log_gpuaddr 4096 4 ++ section_header RD_BUFFER_CONTENTS 4 ++ bytes_of [1; 2])) as (Ht & _).
  - vm_compute. reflexivity.
  - reflexivity.
  - exact I.
  - vm_compute. lia.
  - destruct (Ht 4096 4 (bytes_of [1; 2])) as (w & E).
    + vm_compute. intuition congruence.
    + vm_compute. intuition congruence.
    + vm_compute. reflexivity.
    + left. discriminate.
    + reflexivity.
    + exists w. exact E.
Defined.
