(* ===== verification/DiveFile.v ===== *)
(** * DiveFile: loading a capture in the .dive format

    Models the loader of .dive files of [src/dive_core/pm4_capture_data.cpp] with
    the structures of [src/dive_core/common/dive_capture_format.h], whose layout
    is that of a 64-bit little-endian target, and [LoadCaptureFile], which chooses
    the format. A file stream is its bytes, its position and its two state bits.
    Allocations succeed; progress messages and the texts on the error stream are
    not modelled; assertions are compiled out. *)

From S2P Require Import Prelude Wire Memory Pm4 Emulate CaptureData RdFile.
From Stdlib Require Import Ascii.
From coqutil Require Import Byte.

#[local] Open Scope Z_scope.

(** ** File streams

    [std::istream] on a file: reading at most to the end, which sets [eofbit] and
    [failbit]; a line that ends with the file only sets [eofbit]. *)
Record IStream := mkIStream { s_bytes : list byte; s_pos : Z; s_eof : bool; s_fail : bool }.

Definition open_stream (bytes : list byte) : IStream := mkIStream bytes 0 false false.

Definition good (s : IStream) : bool := negb (s_eof s) && negb (s_fail s).
Definition remaining (s : IStream) : list byte := drop (Z.to_nat (s_pos s)) (s_bytes s).
Definition set_failbit (s : IStream) : IStream := mkIStream (s_bytes s) (s_pos s) (s_eof s) true.
Definition advance (n : nat) (eof fail : bool) (s : IStream) : IStream :=
  mkIStream (s_bytes s) (s_pos s + Z.of_nat n) eof fail.

(** [read(buf, n)]: what reaches the buffer. *)
Definition istream_read (n : Z) (s : IStream) : list byte * IStream :=
  if good s then
    let d := take (Z.to_nat n) (remaining s) in
    let short := Z.of_nat (length d) <? n in
    (d, advance (length d) short short s)
  else ([], set_failbit s).

Fixpoint before_nul (bytes : list byte) : list byte :=
  match bytes with
  | [] => []
  | b :: bytes => if decide (b = Byte.x00) then [] else b :: before_nul bytes
  end.

(** [std::getline(stream, line, '\0')]. *)
Definition istream_getline (s : IStream) : list byte * IStream :=
  if good s then
    let line := before_nul (remaining s) in
    if (length line <? length (remaining s))%nat then (line, advance (S (length line)) false false s)
    else (line, advance (length line) true (bool_decide (line = [])) s)
  else ([], set_failbit s).

(** [uint64_t] to [std::streamoff]. *)
Definition streamoff (z : Z) : Z := if z <? 2 ^ 63 then z else z - 2 ^ 64.

(** [seekg(off, std::ios::cur)]. *)
Definition istream_seek (off : Z) (s : IStream) : IStream :=
  if s_fail s then mkIStream (s_bytes s) (s_pos s) false true
  else if s_pos s + off <? 0 then mkIStream (s_bytes s) (s_pos s) false true
  else mkIStream (s_bytes s) (s_pos s + off) false false.

(** ** The format *)

Definition four_cc (s : string) : Z := le_combine (String.list_byte_of_string s).

Definition kDiveFileId : Z := four_cc "DIVE".
Definition kDiveFileVersion : Z := 1.

Definition kCapture : Z := four_cc "CAPT".
Definition kMemoryAlloc : Z := four_cc "ALLC".
Definition kSubmit : Z := four_cc "SUBM".
Definition kMemoryRaw : Z := four_cc "MEMR".
Definition kPresent : Z := four_cc "PRST".
Definition kText : Z := four_cc "TEXT".
Definition kRegisters : Z := four_cc "REGS".
Definition kWaveState : Z := four_cc "WAVE".
Definition kVulkanMetadata : Z := four_cc "VULK".

(** The limits on what a file can ask for. *)
Definition kMaxNumMemAlloc : Z := Z.shiftl 24 30 / (4 * 1024).
Definition kMaxMemAllocSize : Z := Z.shiftl 1 30.
Definition kMaxStrLen : Z := Z.shiftl 100 20.
Definition kMaxNumWavesPerBlock : Z := Z.shiftl 1 20.
Definition kMaxNumSGPRPerWave : Z := Z.shiftl 1 20.
Definition kMaxNumVGPRPerWave : Z := Z.shiftl 1 20.

Definition sizeof_FileHeader : Z := 8.
Definition sizeof_BlockInfo : Z := 16.
Definition sizeof_CaptureDataHeader : Z := 32.
Definition sizeof_MemoryAllocationsDataHeader : Z := 8.
Definition sizeof_MemoryAllocationData : Z := 56.
Definition sizeof_SubmitDataHeader : Z := 6.
Definition sizeof_IndirectBufferData : Z := 16.
Definition sizeof_MemoryRawDataHeader : Z := 16.
Definition sizeof_PresentData : Z := 32.
Definition sizeof_TextBlockHeader : Z := 24.
Definition sizeof_RegisterBlockHeader : Z := 16.
Definition sizeof_WaveStateBlockHeader : Z := 16.
Definition sizeof_WaveState : Z := 84.

(** A bit of an integer. *)
Definition flag (i z : Z) : bool := Z.testbit z i.

Definition decode_CaptureDataHeader (b : list byte) : CaptureDataHeader :=
  let flags := uint_at 12 4 b in
  mkCaptureDataHeader (uint_at 0 2 b) (uint_at 2 2 b) (uint_at 4 2 b) (uint_at 6 1 b) (uint_at 8 4 b)
    (flag 0 flags) (flag 1 flags) (flag 2 flags) (flag 3 flags) (flag 4 flags) (flag 5 flags)
    (uint_at 16 2 b) (uint_at 18 2 b).

(** The header that [m_data_header = {}] gives. *)
Definition default_header_bytes : list byte :=
  le_split 2 kCaptureMajorVersion ++ le_split 2 kCaptureMinorVersion ++ le_split 2 kCaptureRevision ++ zero_bytes 26.

Definition decode_allocation (b : list byte) : MemoryAllocationData :=
  mkAllocation (uint_at 0 8 b) (uint_at 8 8 b).

Definition decode_ib (b : list byte) : IndirectBufferInfo :=
  mkIbInfo (uint_at 0 8 b) (uint_at 8 4 b) 0 0 false.

(** [n] structures of [size] bytes. *)
Definition structs_of {A} (decode : list byte -> A) (size n : nat) (b : list byte) : list A :=
  (fun i => decode (take size (drop (size * i) b))) <$> seq 0 n.

Definition dwords_of (n : nat) (b : list byte) : list Z := structs_of le_combine 4 n b.

(** ** The loader's monad

    The capture and the stream; [None] when the function returns [false]. *)
Definition DiveState : Type := Pm4CaptureData * IStream.
Definition Dive (A : Type) : Type := DiveState -> outcome (option A * DiveState).

#[global] Instance Dive_ret : MRet Dive := fun A a s => Done (Some a, s).
#[global] Instance Dive_bind : MBind Dive := fun A B k m s =>
  match m s with
  | Done (Some a, s) => k a s
  | Done (None, s) => Done (None, s)
  | OutOfBounds => OutOfBounds
  | OutOfFuel => OutOfFuel
  end.

Definition dive_false {A} : Dive A := fun s => Done (None, s).
Definition dive_out_of_bounds {A} : Dive A := fun _ => OutOfBounds.
Definition dive_out_of_fuel {A} : Dive A := fun _ => OutOfFuel.
Definition dive_capture : Dive Pm4CaptureData := fun s => Done (Some (fst s), s).
Definition update_capture (f : Pm4CaptureData -> Pm4CaptureData) : Dive () := fun s => Done (Some (), (f (fst s), snd s)).

(** A read whose failure does not end the function. *)
Definition dive_read (n : Z) : Dive (list byte * bool) := fun s =>
  let '(d, stream) := istream_read n (snd s) in
  Done (Some (d, negb (s_fail stream)), (fst s, stream)).

Definition dive_seek (off : Z) : Dive () := fun s => Done (Some (), (fst s, istream_seek off (snd s))).

(** [if (!capture_file.read(...)) return false]. *)
Definition read_struct (n : Z) : Dive (list byte) :=
  '(d, ok) ← dive_read n;
  if ok : bool then mret d else dive_false.

(** [if (!std::getline(capture_file, name, '\0')) return false]. *)
Definition read_name : Dive string := fun s =>
  let '(line, stream) := istream_getline (snd s) in
  Done (if s_fail stream then None else Some (String.string_of_list_byte line), (fst s, stream)).

(** [n] times. *)
Fixpoint repeat_load {A} (n : nat) (m : Dive A) : Dive (list A) :=
  match n with
  | O => mret []
  | S n => a ← m; l ← repeat_load n m; mret (a :: l)
  end.

(** ** The blocks *)

Definition LoadMemoryAllocBlock : Dive () :=
  header ← read_struct sizeof_MemoryAllocationsDataHeader;
  let m_num_allocations := uint_at 0 4 header in
  let m_type := uint_at 4 4 header in
  if kMaxNumMemAlloc <? m_num_allocations then dive_false else
  let size := wrap 32 (m_num_allocations * sizeof_MemoryAllocationData) in
  data ← read_struct size;
  let allocations := structs_of decode_allocation (Z.to_nat sizeof_MemoryAllocationData)
                       (Z.to_nat m_num_allocations) data in
  update_capture (fun c =>
    if m_type =? 0 then set_memory (AddMemoryAllocations kInternal allocations (m_memory c)) c
    else if m_type =? 1 then set_memory (AddMemoryAllocations kGlobal allocations (m_memory c)) c
    else c).

Definition LoadSubmitBlock : Dive () :=
  header ← read_struct sizeof_SubmitDataHeader;
  let m_num_ibs := uint_at 0 1 header in
  ibs ← repeat_load (Z.to_nat m_num_ibs) (ib_data ← read_struct sizeof_IndirectBufferData; mret (decode_ib ib_data));
  let submit_info := mkSubmit (uint_at 2 1 header) (uint_at 3 1 header) (bits 0 3 (uint_at 4 2 header))
                       (flag 7 (uint_at 1 1 header)) ibs in
  update_capture (fun c => set_submits (m_submits c ++ [submit_info]) c).

(** The index of the last submit: [(uint32_t)(m_submits.size() - 1)]. *)
Definition last_submit_index (c : Pm4CaptureData) : Z := wrap 32 (Z.of_nat (length (m_submits c)) - 1).

Definition LoadMemoryBlock : Dive () :=
  header ← read_struct sizeof_MemoryRawDataHeader;
  let m_va_addr := uint_at 0 8 header in
  let m_size_in_bytes := uint_at 8 4 header in
  if kMaxMemAllocSize <? m_size_in_bytes then dive_false else
  data ← read_struct m_size_in_bytes;
  update_capture (fun c =>
    set_memory (AddMemoryBlock (last_submit_index c) m_va_addr (m_size_in_bytes, data) (m_memory c)) c).

Definition LoadPresentBlock : Dive () :=
  present_data ← read_struct sizeof_PresentData;
  let flags := uint_at 0 1 present_data in
  update_capture (fun c =>
    let info :=
      if flag 0 flags then
        mkPresent true (last_submit_index c) (bits 1 3 flags) (bits 4 2 flags) (flag 6 flags)
          (uint_at 8 8 present_data) (uint_at 16 8 present_data) (uint_at 24 4 present_data)
          (uint_at 28 4 present_data)
      else new_PresentInfo in
    set_presents (m_presents c ++ [info]) c).

Definition LoadTextBlock : Dive () :=
  text_header ← read_struct sizeof_TextBlockHeader;
  let m_name_len := uint_at 0 4 text_header in
  let m_size_in_bytes := uint_at 8 8 text_header in
  if (kMaxStrLen <? m_name_len) || (kMaxMemAllocSize <? m_size_in_bytes) then dive_false else
  name ← read_name;
  data ← read_struct m_size_in_bytes;
  update_capture (fun c => set_text (m_text c ++ [mkText name m_size_in_bytes data]) c).

(** The registers of a wave; none are read if there are none. *)
Definition read_registers (n : Z) : Dive (list Z) :=
  if 0 <? n then
    data ← read_struct (n * 4);
    mret (dwords_of (Z.to_nat n) data)
  else mret [].

(** Older versions did not capture the temporary registers. *)
Definition old_without_temps (h : CaptureDataHeader) : bool :=
  (m_major_version h =? 0) && (m_minor_version h <=? 3) && (m_revision h <? 11).

Definition load_wave (data_header : CaptureDataHeader) : Dive WaveStateInfo :=
  data ← read_struct sizeof_WaveState;
  let state := dwords_of 21 data in
  if (kMaxNumSGPRPerWave <? num_sgprs state) || (kMaxNumVGPRPerWave <? num_vgprs state) then dive_false else
  sgprs ← read_registers (num_sgprs state);
  vgprs ← read_registers (num_vgprs state);
  let has_temps := flag 6 (WAVE_STATUS state) && negb (old_without_temps data_header) in
  ttmps ← (if has_temps : bool then read_registers 16 else mret []);
  mret (mkWaveState state sgprs vgprs ttmps).

Definition LoadWaveStateBlock (data_header : CaptureDataHeader) : Dive () :=
  wave_header ← read_struct sizeof_WaveStateBlockHeader;
  let m_num_waves := uint_at 0 4 wave_header in
  if kMaxNumWavesPerBlock <? m_num_waves then dive_false else
  waves ← repeat_load (Z.to_nat m_num_waves) (load_wave data_header);
  update_capture (set_waves waves).

Definition load_register : Dive (string * Z) :=
  name ← read_name;
  value ← read_struct 4;
  mret (name, uint_at 0 4 value).

(** [emplace] keeps the entry that a map has. *)
Definition emplace (regs : RegisterInfo) (entry : string * Z) : RegisterInfo :=
  match regs !! fst entry with Some _ => regs | None => <[fst entry := snd entry]> regs end.

Definition LoadRegisterBlock : Dive () :=
  reg_header ← read_struct sizeof_RegisterBlockHeader;
  regs ← repeat_load (Z.to_nat (uint_at 0 4 reg_header)) load_register;
  update_capture (set_registers (foldl emplace ∅ regs)).

Definition LoadVulkanMetaDataBlock : Dive () := mret ().

(** ** The capture *)

Definition Capture_Finalize (data_header : CaptureDataHeader) : Dive () :=
  c ← dive_capture;
  match Finalize (m_reset_memory_tracker data_header) (m_memory c) with
  | Some memory => update_capture (set_memory memory)
  | None => dive_out_of_bounds
  end.

(** Whether a capture is of a later version than the loader. *)
Definition later_capture (h : CaptureDataHeader) : bool :=
  (kCaptureMajorVersion <? m_major_version h) ||
  ((m_major_version h =? kCaptureMajorVersion) && (kCaptureMinorVersion <? m_minor_version h)) ||
  ((m_major_version h =? kCaptureMajorVersion) && (m_minor_version h =? kCaptureMinorVersion) &&
   (kCaptureRevision <? m_revision h)).

(** The switch over a block's type. *)
Definition load_block (data_header : CaptureDataHeader) (type data_size : Z) : Dive () :=
  if type =? kMemoryAlloc then LoadMemoryAllocBlock
  else if type =? kSubmit then LoadSubmitBlock
  else if type =? kMemoryRaw then LoadMemoryBlock
  else if type =? kPresent then LoadPresentBlock
  else if type =? kWaveState then LoadWaveStateBlock data_header
  else if type =? kText then LoadTextBlock
  else if type =? kRegisters then LoadRegisterBlock
  else if type =? kVulkanMetadata then LoadVulkanMetaDataBlock
  else if negb (later_capture data_header) then dive_false
  else dive_seek (streamoff data_size).

Fixpoint LoadCapture (fuel : nat) (data_header : CaptureDataHeader) : Dive () :=
  match fuel with
  | O => dive_out_of_fuel
  | S fuel =>
      '(block_info, ok) ← dive_read sizeof_BlockInfo;
      if ok : bool then
        load_block data_header (uint_at 0 4 block_info) (uint_at 8 8 block_info);;
        LoadCapture fuel data_header
      else Capture_Finalize data_header
  end.

Definition incompatible_version (h : CaptureDataHeader) : bool :=
  negb (m_major_version h =? kCaptureMajorVersion) || (kCaptureMinorVersion <? m_minor_version h) ||
  ((m_major_version h =? 0) && ((m_minor_version h =? 1) || (m_minor_version h =? 2))).

(** The loop over the parent blocks. *)
Fixpoint load_parents (fuel : nat) (s : DiveState) : outcome (LoadResult * DiveState) :=
  match fuel with
  | O => OutOfFuel
  | S fuel =>
      let '(block_info, stream) := istream_read sizeof_BlockInfo (snd s) in
      if s_fail stream then Done (kSuccess, (fst s, stream))
      else if uint_at 0 4 block_info =? kCapture then
        let '(d, stream) := istream_read sizeof_CaptureDataHeader stream in
        let header := decode_CaptureDataHeader (overwrite default_header_bytes d) in
        let c := set_data_header header (fst s) in
        if incompatible_version header then Done (kVersionError, (c, stream))
        else
          let c := set_capture_type (h_capture_type header) c in
          '(ok, s) ← LoadCapture fuel header (c, stream);
          match (ok : option ()) with Some _ => load_parents fuel s | None => Done (kCorruptData, s) end
      else Done (kCorruptData, (fst s, stream))
  end.

Definition LoadCaptureFileStream (fuel : nat) (s : DiveState) : outcome (LoadResult * DiveState) :=
  let '(file_header, stream) := istream_read sizeof_FileHeader (snd s) in
  if s_fail stream then Done (kFileIoError, (fst s, stream))
  else if negb (uint_at 0 4 file_header =? kDiveFileId) then Done (kCorruptData, (fst s, stream))
  else if negb (uint_at 4 4 file_header =? kDiveFileVersion) then Done (kVersionError, (fst s, stream))
  else load_parents fuel (fst s, stream).

(** ** Files by name *)

Section Files.
Context {W : Type} `{Archive W} (dev_info_chip : Z -> Z) (heap : nat -> byte).
(** Opening a file for reading: its bytes. *)
Context (open_file : string -> option (list byte)).

Definition LoadDiveFile (fuel : nat) (file_name : string) (c : Pm4CaptureData)
  : outcome (LoadResult * Pm4CaptureData) :=
  match open_file file_name with
  | None => Done (kFileIoError, c)
  | Some bytes =>
      '(result, s) ← LoadCaptureFileStream fuel (c, open_stream bytes);
      Done (result, if bool_decide (result = kSuccess) then set_capture_file file_name (fst s) else fst s)
  end.

(** [std::filesystem::path(file_name).extension()]: from the last dot of the
    last component, unless that is its first character. *)
Definition path_extension (file_name : string) : string :=
  let last_component :=
    fold_left (fun acc c => if Ascii.eqb c "/"%char then EmptyString else acc +:+ String c EmptyString)
      (String.list_ascii_of_string file_name) EmptyString in
  let after_last_dot :=
    fold_left (fun acc c =>
      if Ascii.eqb c "."%char then Some (String c EmptyString)
      else match acc with Some ext => Some (ext +:+ String c EmptyString) | None => None end)
      (String.list_ascii_of_string last_component) None in
  if bool_decide (last_component = ".."%string) then EmptyString
  else match after_last_dot with
  | Some ext => if bool_decide (ext = last_component) then EmptyString else ext
  | None => EmptyString
  end.

(** The format is chosen by the extension. *)
Definition LoadCaptureFile (fuel : nat) (file_name : string) (l : Loader W) : outcome (LoadResult * Loader W) :=
  let file_extension := path_extension file_name in
  if bool_decide (file_extension = ".dive"%string) then
    '(result, c) ← LoadDiveFile fuel file_name (l_capture l);
    Done (result, mkLoader c (l_gpu l) (l_file l))
  else if bool_decide (file_extension = ".rd"%string) then
    LoadAdrenoRdFile dev_info_chip heap fuel file_name l
  else Done (kCorruptData, l).
End Files.

(** ** The contents of a file *)

Inductive DiveBlock :=
| AllocBlock (global : bool) (allocations : list MemoryAllocationData)
| SubmitBlock (engine_type queue_type engine_index : Z) (dummy : bool) (ibs : list (Z * Z))
| MemoryRawBlock (va_addr : Z) (data : list byte)
| PresentBlock (valid : bool) (engine_type queue_type : Z) (full_screen : bool)
    (addr size vk_format vk_color_space : Z)
| TextBlock (name : string) (data : list byte)
| WaveBlock (waves : list WaveStateInfo)
| RegisterBlock (registers : list (string * Z)).

Definition encode_allocation (a : MemoryAllocationData) : list byte :=
  le_split 8 (m_gpu_virt_addr a) ++ le_split 8 (m_size a) ++ zero_bytes 40.

Definition encode_ib (ib : Z * Z) : list byte := le_split 8 (fst ib) ++ le_split 4 (snd ib) ++ zero_bytes 4.

Definition encode_name (name : string) : list byte := String.list_byte_of_string name ++ [Byte.x00].

Definition encode_dwords (l : list Z) : list byte := concat (le_split 4 <$> l).

Definition encode_wave (w : WaveStateInfo) : list byte :=
  encode_dwords (m_state w) ++ encode_dwords (m_sgprs w) ++ encode_dwords (m_vgprs w) ++ encode_dwords (m_ttmps w).

Definition encode_register (r : string * Z) : list byte := encode_name (fst r) ++ le_split 4 (snd r).

Definition count {A} (l : list A) : Z := Z.of_nat (length l).

Definition block_code (b : DiveBlock) : Z :=
  match b with
  | AllocBlock _ _ => kMemoryAlloc
  | SubmitBlock _ _ _ _ _ => kSubmit
  | MemoryRawBlock _ _ => kMemoryRaw
  | PresentBlock _ _ _ _ _ _ _ _ => kPresent
  | TextBlock _ _ => kText
  | WaveBlock _ => kWaveState
  | RegisterBlock _ => kRegisters
  end.

Definition encode_body (b : DiveBlock) : list byte :=
  match b with
  | AllocBlock global allocations =>
      (le_split 4 (count allocations) ++ le_split 4 (Z.b2z global)) ++ concat (encode_allocation <$> allocations)
  | SubmitBlock engine_type queue_type engine_index dummy ibs =>
      (le_split 1 (count ibs) ++ le_split 1 (Z.shiftl (Z.b2z dummy) 7) ++ le_split 1 engine_type
       ++ le_split 1 queue_type ++ le_split 2 engine_index) ++ concat (encode_ib <$> ibs)
  | MemoryRawBlock va_addr data => (le_split 8 va_addr ++ le_split 4 (count data) ++ zero_bytes 4) ++ data
  | PresentBlock valid engine_type queue_type full_screen addr size vk_format vk_color_space =>
      le_split 8 (Z.b2z valid + 2 * engine_type + 16 * queue_type + 64 * Z.b2z full_screen)
      ++ le_split 8 addr ++ le_split 8 size ++ le_split 4 vk_format ++ le_split 4 vk_color_space
  | TextBlock name data =>
      (le_split 8 (Z.of_nat (String.length name)) ++ le_split 8 (count data) ++ zero_bytes 8)
      ++ encode_name name ++ data
  | WaveBlock waves => (le_split 4 (count waves) ++ zero_bytes 12) ++ concat (encode_wave <$> waves)
  | RegisterBlock registers => (le_split 4 (count registers) ++ zero_bytes 12) ++ concat (encode_register <$> registers)
  end.

Definition encode_block_info (type data_size : Z) : list byte := le_split 4 type ++ zero_bytes 4 ++ le_split 8 data_size.

Definition encode_block (b : DiveBlock) : list byte :=
  encode_block_info (block_code b) (count (encode_body b)) ++ encode_body b.

Definition encode_flags (h : CaptureDataHeader) : Z :=
  Z.b2z (m_capture_pm4 h) + 2 * Z.b2z (m_capture_sqtt h) + 4 * Z.b2z (m_capture_spm h)
  + 8 * Z.b2z (m_defer_capture h) + 16 * Z.b2z (m_enable_inst_trace h) + 32 * Z.b2z (m_reset_memory_tracker h).

Definition encode_CaptureDataHeader (h : CaptureDataHeader) : list byte :=
  le_split 2 (m_major_version h) ++ le_split 2 (m_minor_version h) ++ le_split 2 (m_revision h)
  ++ le_split 2 (h_capture_type h) ++ le_split 4 (m_pal_version h) ++ le_split 4 (encode_flags h)
  ++ le_split 2 (m_device_id h) ++ le_split 2 (m_device_revision h) ++ zero_bytes 12.

Definition encode_file_header : list byte := le_split 4 kDiveFileId ++ le_split 4 kDiveFileVersion.

(** A file with the header [h]; [rest_size] is the size that the parent block
    gives, which nothing reads. *)
Definition encode_start (h : CaptureDataHeader) (rest_size : Z) : list byte :=
  encode_file_header ++ encode_block_info kCapture rest_size ++ encode_CaptureDataHeader h.

Definition encode_blocks (bs : list DiveBlock) : list byte := concat (encode_block <$> bs).

(** What a block adds to a capture. *)
Definition apply_block (b : DiveBlock) (c : Pm4CaptureData) : Pm4CaptureData :=
  match b with
  | AllocBlock global allocations =>
      set_memory (AddMemoryAllocations (if global then kGlobal else kInternal) allocations (m_memory c)) c
  | SubmitBlock engine_type queue_type engine_index dummy ibs =>
      set_submits (m_submits c ++ [mkSubmit engine_type queue_type engine_index dummy
        ((fun ib => mkIbInfo (fst ib) (snd ib) 0 0 false) <$> ibs)]) c
  | MemoryRawBlock va_addr data =>
      set_memory (AddMemoryBlock (last_submit_index c) va_addr (count data, data) (m_memory c)) c
  | PresentBlock valid engine_type queue_type full_screen addr size vk_format vk_color_space =>
      set_presents (m_presents c ++
        [if valid then mkPresent true (last_submit_index c) engine_type queue_type full_screen addr size
                         vk_format vk_color_space else new_PresentInfo]) c
  | TextBlock name data => set_text (m_text c ++ [mkText name (count data) data]) c
  | WaveBlock waves => set_waves waves c
  | RegisterBlock registers => set_registers (foldl emplace ∅ registers) c
  end.

Definition apply_blocks (bs : list DiveBlock) (c : Pm4CaptureData) : Pm4CaptureData :=
  foldl (fun c b => apply_block b c) c bs.

Example path_extension_examples :
  (path_extension "/data/a.b/game.rd", path_extension "c.dive", path_extension "/x.rd/file",
   path_extension ".rd", path_extension "a.tar.gz") = (".rd", ".dive", "", "", ".gz")%string.
Proof. reflexivity. Qed.

(** ** Reading a stream *)

(** The stream is good, with [k] ahead. *)
Definition ahead (s : IStream) (k : list byte) : Prop :=
  s_eof s = false /\ s_fail s = false /\ 0 <= s_pos s /\ remaining s = k.

Lemma ahead_open bytes : ahead (open_stream bytes) bytes.
Proof. by split_and!. Qed.

Lemma ahead_advance s d k : ahead s (d ++ k) -> ahead (advance (length d) false false s) k.
Proof.
  intros (_ & _ & Hp & Hr). split_and!; [done|done|cbn; lia|].
  unfold remaining in *. cbn [s_pos s_bytes advance]. rewrite Z2Nat.inj_add, Nat2Z.id by lia.
  by rewrite <- drop_drop, Hr, drop_app_length.
Qed.

Lemma istream_read_ok n s d k : ahead s (d ++ k) -> Z.of_nat (length d) = n ->
  exists s', istream_read n s = (d, s') /\ ahead s' k.
Proof.
  intros Hs Hn. exists (advance (length d) false false s). split; [|by apply ahead_advance].
  destruct Hs as (He & Hf & _ & Hr). unfold istream_read, good. rewrite He, Hf, Hr. cbn [negb andb].
  rewrite <- Hn, Nat2Z.id, take_app_length. by rewrite Z.ltb_irrefl.
Qed.

Lemma istream_read_short n s k : ahead s k -> Z.of_nat (length k) < n ->
  exists s', istream_read n s = (k, s') /\ s_fail s' = true.
Proof.
  intros (He & Hf & _ & Hr) Hn. unfold istream_read, good. rewrite He, Hf, Hr. cbn [negb andb].
  rewrite take_ge by lia. rewrite (proj2 (Z.ltb_lt _ _)) by done. by eexists.
Qed.

Lemma istream_read_bad n s : good s = false -> exists s', istream_read n s = ([], s') /\ s_fail s' = true.
Proof. intros E. unfold istream_read. rewrite E. by eexists. Qed.

Lemma before_nul_app name k : Byte.x00 ∉ name -> before_nul (name ++ Byte.x00 :: k) = name.
Proof.
  induction name as [|b name IH]; intros Hn; cbn [app before_nul].
  - by rewrite decide_True.
  - apply not_elem_of_cons in Hn as [Hb Hn]. rewrite decide_False by congruence. by rewrite IH.
Qed.

Lemma before_nul_all name : Byte.x00 ∉ name -> before_nul name = name.
Proof.
  induction name as [|b name IH]; intros Hn; cbn [before_nul]; [done|].
  apply not_elem_of_cons in Hn as [Hb Hn]. rewrite decide_False by congruence. by rewrite IH.
Qed.

(** ** Loading exactly some bytes *)

(** [m] takes the bytes [k] from the stream. *)
Definition dive_yields {A} (m : Dive A) (c : Pm4CaptureData) (k : list byte) (a : A) (c' : Pm4CaptureData) : Prop :=
  forall s tail, ahead s (k ++ tail) -> exists s', m (c, s) = Done (Some a, (c', s')) /\ ahead s' tail.

(** [m] fails where only [k] is left. *)
Definition dive_fails {A} (m : Dive A) (c : Pm4CaptureData) (k : list byte) : Prop :=
  forall s, ahead s k -> exists s', m (c, s) = Done (None, s').

(** [m] takes the bytes [k], and fails if the file ends within them. *)
Definition loads_exactly {A} (m : Dive A) (c : Pm4CaptureData) (k : list byte) (a : A) (c' : Pm4CaptureData) : Prop :=
  dive_yields m c k a c' /\ forall p, p `prefix_of` k -> p <> k -> dive_fails m c p.

Lemma exactly_ret {A} (a : A) c : loads_exactly (mret a) c [] a c.
Proof.
  split.
  - intros s tail Hs. by exists s.
  - by intros p ->%prefix_nil_inv.
Qed.

Lemma exactly_update f c : loads_exactly (update_capture f) c [] () (f c).
Proof.
  split.
  - intros s tail Hs. by exists s.
  - by intros p ->%prefix_nil_inv.
Qed.

Lemma exactly_bind {A B} (m : Dive A) (f : A -> Dive B) c k1 a c1 k2 b c2 :
  loads_exactly m c k1 a c1 -> loads_exactly (f a) c1 k2 b c2 -> loads_exactly (m ≫= f) c (k1 ++ k2) b c2.
Proof.
  intros [Hm Hmf] [Hf Hff]. split.
  - intros s tail Hs. rewrite <- (assoc_L (++)) in Hs. destruct (Hm s _ Hs) as (s1 & E1 & Hs1).
    destruct (Hf s1 _ Hs1) as (s2 & E2 & Hs2). exists s2. unfold mbind, Dive_bind. by rewrite E1, E2.
  - assert (forall p2, p2 `prefix_of` k2 -> k1 ++ p2 <> k1 ++ k2 -> dive_fails (m ≫= f) c (k1 ++ p2)) as Hright.
    { intros p2 Hp2 Hne s Hs. destruct (Hm s p2 Hs) as (s1 & E1 & Hs1).
      destruct (Hff p2 Hp2 ltac:(congruence) s1 Hs1) as (s2 & E2).
      exists s2. unfold mbind, Dive_bind. by rewrite E1, E2. }
    intros p Hp Hne. destruct (prefix_app_or _ _ _ Hp) as [Hp1|(p2 & -> & Hp2)]; [|by apply Hright].
    destruct (decide (p = k1)) as [->|Hne1].
    + rewrite <- (app_nil_r k1) at 1. apply Hright; [apply prefix_nil|by rewrite app_nil_r].
    + intros s Hs. destruct (Hmf p Hp1 Hne1 s Hs) as (s1 & E1). exists s1.
      unfold mbind, Dive_bind. by rewrite E1.
Qed.

Lemma exactly_map {A B} (m : Dive A) (f : A -> B) c k a c' b :
  loads_exactly m c k a c' -> f a = b -> loads_exactly (m ≫= fun a => mret (f a)) c k b c'.
Proof.
  intros Hm <-. rewrite <- (app_nil_r k). eapply exactly_bind; [done|]. apply exactly_ret.
Qed.

Lemma read_struct_ok n d c : Z.of_nat (length d) = n -> dive_yields (read_struct n) c d d c.
Proof.
  intros Hn s tail Hs. destruct (istream_read_ok n s d tail Hs Hn) as (s' & E & Hs'). exists s'.
  split; [|done]. unfold read_struct, dive_read, mbind, Dive_bind. cbn [fst snd]. rewrite E.
  destruct Hs' as (_ & -> & _). done.
Qed.

Lemma read_struct_bad n c s : good s = false -> exists s', read_struct n (c, s) = Done (None, s').
Proof.
  intros Hs. destruct (istream_read_bad n s Hs) as (s' & E & Hf). exists (c, s').
  unfold read_struct, dive_read, mbind, Dive_bind. cbn [fst snd]. by rewrite E, Hf.
Qed.

Lemma exactly_read n d c : Z.of_nat (length d) = n -> loads_exactly (read_struct n) c d d c.
Proof.
  intros Hn. split; [by apply read_struct_ok|]. intros p Hp Hne s Hs.
  assert (Z.of_nat (length p) < n) as Hl.
  { destruct Hp as [q ->]. rewrite length_app in Hn. destruct q; [by rewrite app_nil_r in Hne|]. cbn in Hn. lia. }
  destruct (istream_read_short n s p Hs Hl) as (s' & E & Hf). exists (c, s').
  unfold read_struct, dive_read, mbind, Dive_bind. cbn [fst snd]. by rewrite E, Hf.
Qed.

Lemma exactly_repeat {A B} (m : Dive A) (enc : B -> list byte) (val : B -> A) (l : list B) c :
  (forall b, b ∈ l -> loads_exactly m c (enc b) (val b) c) ->
  loads_exactly (repeat_load (length l) m) c (concat (enc <$> l)) (val <$> l) c.
Proof.
  induction l as [|b l IH]; intros Hm; cbn [length repeat_load fmap list_fmap concat]; [apply exactly_ret|].
  eapply exactly_bind; [apply Hm; by left|]. eapply exactly_map; [|done].
  apply IH. intros b' Hb. apply Hm. by right.
Qed.

Lemma read_name_ok name c : Byte.x00 ∉ String.list_byte_of_string name ->
  dive_yields read_name c (encode_name name) name c.
Proof.
  intros Hnul s tail Hs. exists (advance (length (encode_name name)) false false s).
  split; [|by apply ahead_advance].
  destruct Hs as (He & Hfl & _ & Hr). unfold read_name, istream_getline, good. cbn [snd fst].
  rewrite He, Hfl, Hr. cbn [negb andb]. unfold encode_name. rewrite <- (assoc_L (++)). cbn [app].
  rewrite before_nul_app, !length_app by done. cbn [length]. rewrite (proj2 (Nat.ltb_lt _ _)) by lia.
  cbn [s_fail advance]. rewrite String.string_of_list_byte_of_string. do 4 f_equal. lia.
Qed.

(** The file ends in a name: the stream is not good then. *)
Lemma read_name_partial p c s : Byte.x00 ∉ p -> ahead s p ->
  exists res s1, read_name (c, s) = Done (res, (c, s1)) /\ good s1 = false.
Proof.
  intros Hp (He & Hfl & Hpos & Hr).
  eexists _, (advance (length p) true (bool_decide (p = [])) s). split; [|done].
  unfold read_name, istream_getline, good. cbn [snd fst]. rewrite He, Hfl, Hr. cbn [negb andb].
  rewrite before_nul_all by done. by rewrite Nat.ltb_irrefl.
Qed.

Lemma name_ends_file {B} n (f : string -> list byte -> Dive B) p c : Byte.x00 ∉ p ->
  dive_fails (name ← read_name; d ← read_struct n; f name d) c p.
Proof.
  intros Hp s Hs. destruct (read_name_partial p c s Hp Hs) as (res & s1 & E1 & Hg).
  unfold mbind at 1, Dive_bind at 1. rewrite E1. destruct res as [nm|]; [|by eexists].
  destruct (read_struct_bad n c s1 Hg) as (s2 & E2). exists s2.
  unfold mbind at 1, Dive_bind at 1. by rewrite E2.
Qed.

(** A prefix of a name with its terminator and more. *)
Lemma prefix_name_or name k p : Byte.x00 ∉ String.list_byte_of_string name ->
  p `prefix_of` encode_name name ++ k ->
  Byte.x00 ∉ p \/ exists p2, p = encode_name name ++ p2 /\ p2 `prefix_of` k.
Proof.
  intros Hnul Hp. unfold encode_name in Hp. rewrite <- (assoc_L (++)) in Hp. cbn [app] in Hp.
  destruct (prefix_app_or _ _ _ Hp) as [[q Eq]|(p2 & -> & Hp2)].
  - left. intros Hin. apply Hnul. rewrite Eq. apply elem_of_app. by left.
  - destruct p2 as [|x p2]; [left; by rewrite app_nil_r|right].
    apply prefix_cons_inv_1 in Hp2 as Hx. apply prefix_cons_inv_2 in Hp2. subst x.
    exists p2. split; [|done]. unfold encode_name. by rewrite <- (assoc_L (++)).
Qed.

(** A name and what follows it: if the file ends in the name, then the read
    after it fails. *)
Lemma exactly_named {B} n (f : string -> list byte -> Dive B) name d k b c c' :
  Byte.x00 ∉ String.list_byte_of_string name -> Z.of_nat (length d) = n ->
  loads_exactly (f name d) c k b c' ->
  loads_exactly (name ← read_name; d ← read_struct n; f name d) c (encode_name name ++ d ++ k) b c'.
Proof.
  intros Hnul Hd Hf.
  destruct (exactly_bind _ (fun d => f name d) _ _ _ _ _ _ _ (exactly_read n d c Hd) Hf) as [Hy Hfail].
  pose proof (read_name_ok name c Hnul) as Hname. split.
  - intros s tail Hs. rewrite <- (assoc_L (++)) in Hs. destruct (Hname s _ Hs) as (s1 & E1 & Hs1).
    destruct (Hy s1 _ Hs1) as (s2 & E2 & Hs2). exists s2.
    unfold mbind at 1, Dive_bind at 1. by rewrite E1.
  - intros p Hp Hne. destruct (prefix_name_or _ _ _ Hnul Hp) as [Hp1|(p2 & -> & Hp2)]; [by apply name_ends_file|].
    intros s Hs. destruct (Hname s _ Hs) as (s1 & E1 & Hs1).
    destruct (Hfail p2 Hp2 ltac:(congruence) s1 Hs1) as (s2 & E2).
    exists s2. unfold mbind at 1, Dive_bind at 1. by rewrite E1.
Qed.

(** ** Decoding *)

Lemma uint_at_le n k z b : (n <= k)%nat -> uint_at 0 n (le_split k z ++ b) = z mod 2 ^ (8 * Z.of_nat n).
Proof.
  intros Hn. unfold uint_at. rewrite drop_0, take_app_le by (rewrite LittleEndianList.length_le_split; lia).
  rewrite take_le_split by done. rewrite LittleEndianList.le_combine_split. do 2 f_equal. lia.
Qed.

Lemma uint_at_skip o n k z b : (k <= o)%nat -> uint_at o n (le_split k z ++ b) = uint_at (o - k) n b.
Proof.
  intros Ho. unfold uint_at. rewrite drop_app_ge by (rewrite LittleEndianList.length_le_split; lia).
  by rewrite LittleEndianList.length_le_split.
Qed.

(** The field of a structure, as the value that was encoded. *)
Ltac field :=
  rewrite <- ?(assoc_L (++)), ?(app_nil_r (le_split _ _));
  repeat rewrite uint_at_skip by lia; cbn [Nat.sub];
  first [rewrite uint_at_le by lia
        |rewrite <- (app_nil_r (le_split _ _)), uint_at_le by lia].

Lemma structs_of_concat {A} (decode : list byte -> A) (enc : A -> list byte) size (l : list A) :
  (forall a, a ∈ l -> length (enc a) = size /\ decode (enc a) = a) ->
  structs_of decode size (length l) (concat (enc <$> l)) = l.
Proof.
  unfold structs_of. induction l as [|a l IH]; intros Hl; [done|].
  destruct (Hl a) as [Hlen Hdec]; [by left|].
  cbn [length seq fmap list_fmap concat]. f_equal.
  - rewrite Nat.mul_0_r, drop_0, take_app_le, take_ge by lia. done.
  - rewrite <- fmap_S_seq, <- list_fmap_compose. etrans; [|apply IH; intros b Hb; apply Hl; by right].
    apply list_fmap_ext. intros i x _. cbn. f_equal. f_equal.
    rewrite drop_app_ge by lia. f_equal. lia.
Qed.

Lemma length_encode_dwords l : length (encode_dwords l) = (4 * length l)%nat.
Proof.
  unfold encode_dwords. induction l as [|z l IH]; [done|]. cbn [fmap list_fmap concat length].
  rewrite length_app, IH, LittleEndianList.length_le_split. lia.
Qed.

Lemma dwords_of_encode l : Forall (in_width 32) l -> dwords_of (length l) (encode_dwords l) = l.
Proof.
  intros Hl. apply structs_of_concat. intros z Hz. rewrite Forall_forall in Hl.
  split; [apply LittleEndianList.length_le_split|]. by apply le_combine_bytes, Hl.
Qed.

Lemma length_concat_const {A} (enc : A -> list byte) size (l : list A) :
  (forall a, a ∈ l -> length (enc a) = size) -> length (concat (enc <$> l)) = (size * length l)%nat.
Proof.
  induction l as [|a l IH]; intros Hl; cbn [fmap list_fmap concat length]; [lia|].
  rewrite length_app, IH, Hl; [lia|by left|]. intros b Hb. apply Hl. by right.
Qed.

(** ** The blocks a file can hold *)

Definition ib_ok (ib : Z * Z) : Prop := in_width 64 (fst ib) /\ in_width 32 (snd ib).
Definition allocation_ok (a : MemoryAllocationData) : Prop :=
  in_width 64 (m_gpu_virt_addr a) /\ in_width 64 (m_size a).
Definition name_ok (name : string) : Prop := Byte.x00 ∉ String.list_byte_of_string name.
Definition register_ok (r : string * Z) : Prop := name_ok (fst r) /\ in_width 32 (snd r).

Definition wave_ok (h : CaptureDataHeader) (w : WaveStateInfo) : Prop :=
  length (m_state w) = 21%nat /\
  num_sgprs (m_state w) = count (m_sgprs w) /\ count (m_sgprs w) <= kMaxNumSGPRPerWave /\
  num_vgprs (m_state w) = count (m_vgprs w) /\ count (m_vgprs w) <= kMaxNumVGPRPerWave /\
  count (m_ttmps w) = (if flag 6 (WAVE_STATUS (m_state w)) && negb (old_without_temps h) then 16 else 0) /\
  Forall (in_width 32) (m_state w) /\ Forall (in_width 32) (m_sgprs w) /\
  Forall (in_width 32) (m_vgprs w) /\ Forall (in_width 32) (m_ttmps w).

Definition block_ok (h : CaptureDataHeader) (b : DiveBlock) : Prop :=
  match b with
  | AllocBlock global allocations => count allocations <= kMaxNumMemAlloc /\ Forall allocation_ok allocations
  | SubmitBlock engine_type queue_type engine_index dummy ibs =>
      in_width 8 engine_type /\ in_width 8 queue_type /\ in_width 3 engine_index /\
      in_width 8 (count ibs) /\ Forall ib_ok ibs
  | MemoryRawBlock va_addr data => in_width 64 va_addr /\ count data <= kMaxMemAllocSize
  | PresentBlock valid engine_type queue_type full_screen addr size vk_format vk_color_space =>
      in_width 3 engine_type /\ in_width 2 queue_type /\ in_width 64 addr /\ in_width 64 size /\
      in_width 32 vk_format /\ in_width 32 vk_color_space
  | TextBlock name data =>
      name_ok name /\ Z.of_nat (String.length name) <= kMaxStrLen /\ count data <= kMaxMemAllocSize
  | WaveBlock waves => count waves <= kMaxNumWavesPerBlock /\ Forall (wave_ok h) waves
  | RegisterBlock registers => in_width 32 (count registers) /\ Forall register_ok registers
  end.

#[global] Instance block_ok_dec h b : Decision (block_ok h b).
Proof.
  destruct b; unfold block_ok, wave_ok, register_ok, name_ok, allocation_ok, ib_ok; apply _.
Defined.

(** ** Loading a block *)

Lemma exactly_last {A B} (m : Dive A) (f : A -> Dive B) c k a c1 b c2 :
  loads_exactly m c k a c1 -> loads_exactly (f a) c1 [] b c2 -> loads_exactly (m ≫= f) c k b c2.
Proof. intros Hm Hf. rewrite <- (app_nil_r k). by eapply exactly_bind. Qed.

Lemma exactly_update_eq f c c' : f c = c' -> loads_exactly (update_capture f) c [] () c'.
Proof. intros <-. apply exactly_update. Qed.

Lemma length_le n z : length (le_split n z) = n.
Proof. apply LittleEndianList.length_le_split. Qed.

Lemma exactly_memory va_addr data h c :
  block_ok h (MemoryRawBlock va_addr data) ->
  loads_exactly LoadMemoryBlock c (encode_body (MemoryRawBlock va_addr data)) ()
    (apply_block (MemoryRawBlock va_addr data) c).
Proof.
  intros [Hva Hsz]. unfold LoadMemoryBlock. cbn [encode_body].
  eapply exactly_bind; [by apply exactly_read|]. cbv zeta.
  assert (in_width 32 (count data)) as Hw.
  { unfold in_width, count in *. change kMaxMemAllocSize with (2 ^ 30) in Hsz. lia. }
  set (header := le_split 8 va_addr ++ le_split 4 (count data) ++ zero_bytes 4).
  assert (uint_at 0 8 header = va_addr) as -> by (unfold header; field; by apply Z.mod_small).
  assert (uint_at 8 4 header = count data) as -> by (unfold header; field; by apply Z.mod_small).
  rewrite (proj2 (Z.ltb_ge _ _)) by done.
  eapply exactly_last; [by apply exactly_read|]. by apply exactly_update_eq.
Qed.

Lemma exactly_text name data h c :
  block_ok h (TextBlock name data) ->
  loads_exactly LoadTextBlock c (encode_body (TextBlock name data)) () (apply_block (TextBlock name data) c).
Proof.
  intros (Hname & Hlen & Hsz). unfold LoadTextBlock. cbn [encode_body].
  eapply exactly_bind; [by apply exactly_read|]. cbv zeta.
  set (header := le_split 8 (Z.of_nat (String.length name)) ++ le_split 8 (count data) ++ zero_bytes 8).
  assert (uint_at 0 4 header = Z.of_nat (String.length name)) as ->.
  { unfold header. field. apply Z.mod_small. change kMaxStrLen with 104857600 in Hlen. lia. }
  assert (uint_at 8 8 header = count data) as ->.
  { unfold header. field. apply Z.mod_small. unfold count in *. change kMaxMemAllocSize with (2 ^ 30) in Hsz. lia. }
  rewrite !(proj2 (Z.ltb_ge _ _)) by done. cbn [orb].
  rewrite <- (app_nil_r data) at 1. apply exactly_named; [done|done|]. by apply exactly_update_eq.
Qed.

Lemma exactly_submit engine_type queue_type engine_index dummy ibs h c :
  let b := SubmitBlock engine_type queue_type engine_index dummy ibs in
  block_ok h b -> loads_exactly LoadSubmitBlock c (encode_body b) () (apply_block b c).
Proof.
  intros b (He & Hq & Hi & Hn & Hibs). unfold LoadSubmitBlock, b. cbn [encode_body].
  eapply exactly_bind; [by apply exactly_read|]. cbv zeta.
  set (header := le_split 1 (count ibs) ++ _).
  assert (uint_at 0 1 header = count ibs) as -> by (unfold header; field; by apply Z.mod_small).
  assert (uint_at 2 1 header = engine_type) as -> by (unfold header; field; by apply Z.mod_small).
  assert (uint_at 3 1 header = queue_type) as -> by (unfold header; field; by apply Z.mod_small).
  assert (bits 0 3 (uint_at 4 2 header) = engine_index) as ->.
  { unfold header. field. unfold bits. rewrite Z.shiftr_0_r, Z.land_ones by lia.
    change (8 * Z.of_nat 2) with 16. rewrite (Z.mod_small _ (2 ^ 16)); [by apply Z.mod_small|].
    unfold in_width in Hi. lia. }
  assert (flag 7 (uint_at 1 1 header) = dummy) as -> by (unfold header; field; by destruct dummy).
  unfold count. rewrite Nat2Z.id.
  eapply exactly_last; [apply (exactly_repeat _ encode_ib (fun ib => mkIbInfo (fst ib) (snd ib) 0 0 false))|
                        by apply exactly_update_eq].
  intros ib Hib. rewrite Forall_forall in Hibs. destruct (Hibs ib Hib) as [Hva Hs].
  eapply exactly_map; [by apply exactly_read|]. unfold decode_ib, encode_ib. f_equal.
  - field. by apply Z.mod_small.
  - field. by apply Z.mod_small.
Qed.

Lemma exactly_alloc global allocations h c :
  let b := AllocBlock global allocations in
  block_ok h b -> loads_exactly LoadMemoryAllocBlock c (encode_body b) () (apply_block b c).
Proof.
  intros b (Hn & Hall). unfold LoadMemoryAllocBlock, b. cbn [encode_body].
  eapply exactly_bind; [by apply exactly_read|]. cbv zeta.
  unfold count in *. change kMaxNumMemAlloc with 6291456 in *.
  assert (uint_at 0 4 (le_split 4 (Z.of_nat (length allocations)) ++ le_split 4 (Z.b2z global)) =
    Z.of_nat (length allocations)) as -> by (field; apply Z.mod_small; lia).
  assert (uint_at 4 4 (le_split 4 (Z.of_nat (length allocations)) ++ le_split 4 (Z.b2z global)) = Z.b2z global) as ->
    by (field; by destruct global).
  rewrite (proj2 (Z.ltb_ge _ _)) by done.
  assert (forall a, a ∈ allocations -> length (encode_allocation a) = 56%nat /\
    decode_allocation (encode_allocation a) = a) as Henc.
  { intros [va sz] Ha. rewrite Forall_forall in Hall. destruct (Hall _ Ha) as [Hva Hsz]. split; [done|].
    unfold decode_allocation, encode_allocation. cbn [m_gpu_virt_addr m_size] in *. f_equal.
    - field. by apply Z.mod_small.
    - field. by apply Z.mod_small. }
  eapply exactly_last; [apply exactly_read|apply exactly_update_eq].
  - rewrite (length_concat_const _ 56) by (intros a Ha; by apply Henc).
    change sizeof_MemoryAllocationData with 56. rewrite wrap_small; unfold in_width; lia.
  - rewrite Nat2Z.id, structs_of_concat by done. by destruct global.
Qed.

Lemma present_flags valid engine_type queue_type full_screen :
  in_width 3 engine_type -> in_width 2 queue_type ->
  let flags := Z.b2z valid + 2 * engine_type + 16 * queue_type + 64 * Z.b2z full_screen in
  flag 0 flags = valid /\ bits 1 3 flags = engine_type /\ bits 4 2 flags = queue_type /\ flag 6 flags = full_screen.
Proof.
  unfold in_width. intros He Hq.
  assert (engine_type = 0 \/ engine_type = 1 \/ engine_type = 2 \/ engine_type = 3 \/
          engine_type = 4 \/ engine_type = 5 \/ engine_type = 6 \/ engine_type = 7) as He' by lia.
  assert (queue_type = 0 \/ queue_type = 1 \/ queue_type = 2 \/ queue_type = 3) as Hq' by lia.
  clear He Hq. destruct valid, full_screen; intuition (subst; reflexivity).
Qed.

Lemma exactly_present valid engine_type queue_type full_screen addr size vk_format vk_color_space h c :
  let b := PresentBlock valid engine_type queue_type full_screen addr size vk_format vk_color_space in
  block_ok h b -> loads_exactly LoadPresentBlock c (encode_body b) () (apply_block b c).
Proof.
  intros b (He & Hq & Ha & Hs & Hf & Hc). unfold LoadPresentBlock, b. cbn [encode_body].
  eapply exactly_last; [by apply exactly_read|]. cbv zeta. apply exactly_update_eq.
  set (flags := Z.b2z valid + _ + _ + _).
  assert (in_width 8 flags) as Hw.
  { unfold flags, in_width in *. destruct valid, full_screen; cbn [Z.b2z]; lia. }
  set (body := le_split 8 flags ++ _).
  assert (uint_at 0 1 body = flags) as -> by (unfold body; field; by apply Z.mod_small).
  assert (uint_at 8 8 body = addr) as -> by (unfold body; field; by apply Z.mod_small).
  assert (uint_at 16 8 body = size) as -> by (unfold body; field; by apply Z.mod_small).
  assert (uint_at 24 4 body = vk_format) as -> by (unfold body; field; by apply Z.mod_small).
  assert (uint_at 28 4 body = vk_color_space) as -> by (unfold body; field; by apply Z.mod_small).
  pose proof (present_flags valid engine_type queue_type full_screen He Hq) as Hflags.
  cbv zeta in Hflags. fold flags in Hflags. destruct Hflags as (-> & -> & -> & ->). by destruct valid.
Qed.

Lemma exactly_registers registers h c :
  block_ok h (RegisterBlock registers) ->
  loads_exactly LoadRegisterBlock c (encode_body (RegisterBlock registers)) () (apply_block (RegisterBlock registers) c).
Proof.
  intros (Hn & Hall). unfold LoadRegisterBlock. cbn [encode_body].
  eapply exactly_bind; [by apply exactly_read|].
  rewrite uint_at_le by lia. rewrite Z.mod_small by done. unfold count. rewrite Nat2Z.id.
  eapply exactly_last; [apply (exactly_repeat _ encode_register (fun r => r))|].
  - intros [name value] Hr. rewrite Forall_forall in Hall. destruct (Hall _ Hr) as [Hname Hv].
    unfold load_register, encode_register. cbn [fst snd] in *.
    rewrite <- (app_nil_r (le_split 4 value)). apply exactly_named; [done|by rewrite length_le|].
    rewrite <- (app_nil_r (le_split 4 value)) at 1. rewrite uint_at_le by lia. rewrite Z.mod_small by done.
    apply exactly_ret.
  - apply exactly_update_eq. by rewrite list_fmap_id.
Qed.

Lemma exactly_read_registers l c : Forall (in_width 32) l ->
  loads_exactly (read_registers (count l)) c (encode_dwords l) l c.
Proof.
  intros Hl. unfold read_registers, count. destruct (Z.ltb_spec 0 (Z.of_nat (length l))).
  - eapply exactly_map; [apply exactly_read; rewrite length_encode_dwords; lia|].
    rewrite Nat2Z.id. by apply dwords_of_encode.
  - destruct l; [apply exactly_ret|cbn [length] in *; lia].
Qed.

Lemma exactly_wave h w c : wave_ok h w -> loads_exactly (load_wave h) c (encode_wave w) w c.
Proof.
  intros (Hlen & Hs & Hs' & Hv & Hv' & Ht & Fst & Fs & Fv & Ft). unfold load_wave, encode_wave.
  eapply exactly_bind; [by apply exactly_read; rewrite length_encode_dwords, Hlen|]. cbv zeta.
  rewrite <- Hlen, dwords_of_encode by done.
  rewrite Hs, Hv, !(proj2 (Z.ltb_ge _ _)) by done. cbn [orb].
  eapply exactly_bind; [by apply exactly_read_registers|].
  eapply exactly_bind; [by apply exactly_read_registers|].
  assert (loads_exactly (if flag 6 (WAVE_STATUS (m_state w)) && negb (old_without_temps h)
    then read_registers 16 else mret []) c (encode_dwords (m_ttmps w)) (m_ttmps w) c) as Htemps.
  { destruct (_ && _).
    - rewrite <- Ht. by apply exactly_read_registers.
    - destruct (m_ttmps w); [apply exactly_ret|]. unfold count in Ht. cbn [length] in Ht. lia. }
  eapply exactly_map; [exact Htemps|]. by destruct w.
Qed.

Lemma exactly_waves waves h c :
  block_ok h (WaveBlock waves) ->
  loads_exactly (LoadWaveStateBlock h) c (encode_body (WaveBlock waves)) () (apply_block (WaveBlock waves) c).
Proof.
  intros (Hn & Hall). unfold LoadWaveStateBlock. cbn [encode_body].
  eapply exactly_bind; [by apply exactly_read|]. cbv zeta. change kMaxNumWavesPerBlock with 1048576 in *.
  rewrite uint_at_le by lia. rewrite Z.mod_small by (unfold count in *; lia).
  rewrite (proj2 (Z.ltb_ge _ _)) by done. unfold count. rewrite Nat2Z.id.
  eapply exactly_last; [apply (exactly_repeat _ encode_wave (fun w => w))|].
  - intros w Hw. apply exactly_wave. rewrite Forall_forall in Hall. by apply Hall.
  - apply exactly_update_eq. by rewrite list_fmap_id.
Qed.

(** Each kind of block. *)
Lemma exactly_block h b size c : block_ok h b ->
  loads_exactly (load_block h (block_code b) size) c (encode_body b) () (apply_block b c).
Proof.
  intros Hok. destruct b; unfold load_block, block_code; eval_type.
  - by eapply exactly_alloc.
  - by eapply exactly_submit.
  - by eapply exactly_memory.
  - by eapply exactly_present.
  - by eapply exactly_text.
  - by eapply exactly_waves.
  - by eapply exactly_registers.
Qed.

(** ** Loading a capture *)

Lemma block_code_width b : in_width 32 (block_code b).
Proof. by destruct b. Qed.

Lemma dive_read_ok n d c s tail : ahead s (d ++ tail) -> Z.of_nat (length d) = n ->
  exists s', dive_read n (c, s) = Done (Some (d, true), (c, s')) /\ ahead s' tail.
Proof.
  intros Hs Hn. destruct (istream_read_ok n s d tail Hs Hn) as (s' & E & Hs'). exists s'.
  split; [|done]. unfold dive_read. cbn [fst snd]. rewrite E. by destruct Hs' as (_ & -> & _).
Qed.

Lemma dive_read_short n c s k : ahead s k -> Z.of_nat (length k) < n ->
  exists s', dive_read n (c, s) = Done (Some (k, false), (c, s')) /\ s_fail s' = true.
Proof.
  intros Hs Hn. destruct (istream_read_short n s k Hs Hn) as (s' & E & Hf). exists s'.
  split; [|done]. unfold dive_read. cbn [fst snd]. by rewrite E, Hf.
Qed.

Lemma block_info_type type size k : in_width 32 type -> uint_at 0 4 (encode_block_info type size ++ k) = type.
Proof. intros Ht. unfold encode_block_info. field. by apply Z.mod_small. Qed.

Lemma block_info_type' type size : in_width 32 type -> uint_at 0 4 (encode_block_info type size) = type.
Proof. intros Ht. rewrite <- (app_nil_r (encode_block_info _ _)). by apply block_info_type. Qed.

(** One turn of the loop at a block's header, of which only the type counts. *)
Lemma LoadCapture_turn_bytes fuel h type d k c s :
  ahead s ((le_split 4 type ++ d) ++ k) -> length d = 12%nat -> in_width 32 type ->
  exists s' size', ahead s' k /\
    LoadCapture (S fuel) h (c, s) = (load_block h type size';; LoadCapture fuel h) (c, s').
Proof.
  intros Hs Hd Ht. destruct (dive_read_ok sizeof_BlockInfo (le_split 4 type ++ d) c s k Hs) as (s' & E & Hs').
  { by rewrite length_app, length_le, Hd. }
  exists s', (uint_at 8 8 (le_split 4 type ++ d)). split; [done|].
  cbn [LoadCapture]. unfold mbind at 1, Dive_bind at 1. rewrite E.
  rewrite uint_at_le by lia. by rewrite Z.mod_small.
Qed.

Lemma LoadCapture_turn fuel h type size k c s : ahead s (encode_block_info type size ++ k) -> in_width 32 type ->
  exists s' size', ahead s' k /\
    LoadCapture (S fuel) h (c, s) = (load_block h type size';; LoadCapture fuel h) (c, s').
Proof. intros Hs. by apply (LoadCapture_turn_bytes fuel h type (zero_bytes 4 ++ le_split 8 size)). Qed.

Lemma LoadCapture_blocks h bs c s part fuel :
  Forall (block_ok h) bs -> ahead s (encode_blocks bs ++ part) ->
  exists s', ahead s' part /\
    LoadCapture (length bs + fuel) h (c, s) = LoadCapture fuel h (apply_blocks bs c, s').
Proof.
  intros Hok. revert c s. induction Hok as [|b bs Hb Hok IH]; intros c s Hs.
  - by exists s.
  - unfold encode_blocks in Hs. cbn [fmap list_fmap concat] in Hs. unfold encode_block at 1 in Hs.
    rewrite <- !(assoc_L (++)) in Hs. cbn [length Nat.add].
    destruct (LoadCapture_turn (length bs + fuel) h _ _ _ c s Hs (block_code_width b)) as (s1 & size & Hs1 & ->).
    destruct (exactly_block h b size c Hb) as [Hy _]. destruct (Hy s1 _ Hs1) as (s2 & E2 & Hs2).
    unfold mbind at 1, Dive_bind at 1. rewrite E2. apply (IH (apply_block b c) s2 Hs2).
Qed.

(** At the end of the file, or where what is left is no header. *)
Lemma LoadCapture_end h part c s fuel : ahead s part -> Z.of_nat (length part) < sizeof_BlockInfo ->
  exists s', s_fail s' = true /\ LoadCapture (S fuel) h (c, s) = Capture_Finalize h (c, s').
Proof.
  intros Hs Hn. destruct (dive_read_short _ c s part Hs Hn) as (s' & E & Hf). exists s'. split; [done|].
  cbn [LoadCapture]. unfold mbind at 1, Dive_bind at 1. by rewrite E.
Qed.

(** On a stream that has failed. *)
Lemma LoadCapture_bad h c s fuel : good s = false ->
  exists s', s_fail s' = true /\ LoadCapture (S fuel) h (c, s) = Capture_Finalize h (c, s').
Proof.
  intros Hs. destruct (istream_read_bad sizeof_BlockInfo s Hs) as (s' & E & Hf). exists s'. split; [done|].
  cbn [LoadCapture]. unfold mbind at 1, Dive_bind at 1, dive_read. cbn [fst snd]. by rewrite E, Hf.
Qed.

(** Where the file ends within a block. *)
Lemma LoadCapture_cut h b part c s fuel : block_ok h b -> ahead s part ->
  part `prefix_of` encode_block b -> part <> encode_block b -> sizeof_BlockInfo <= Z.of_nat (length part) ->
  exists s', LoadCapture (S fuel) h (c, s) = Done (None, s').
Proof.
  intros Hb Hs Hp Hne Hn. unfold encode_block in Hp, Hne.
  destruct (prefix_app_or _ _ _ Hp) as [[q Eq]|(p2 & -> & Hp2)].
  - assert (q = []) as ->.
    { apply (f_equal length) in Eq. rewrite length_app in Eq. change (length (encode_block_info _ _)) with 16%nat in Eq.
      change sizeof_BlockInfo with 16 in Hn. apply length_zero_iff_nil. lia. }
    rewrite app_nil_r in Eq. subst part. rewrite <- (app_nil_r (encode_block_info _ _)) in Hs.
    destruct (LoadCapture_turn fuel h _ _ _ c s Hs (block_code_width b)) as (s1 & size & Hs1 & ->).
    destruct (exactly_block h b size c Hb) as [_ Hfail].
    destruct (Hfail [] (prefix_nil _)) with (s := s1) as (s2 & E2); [|done|].
    { intros E. rewrite <- E, app_nil_r in Hne. done. }
    exists s2. unfold mbind at 1, Dive_bind at 1. by rewrite E2.
  - destruct (LoadCapture_turn fuel h _ _ _ c s Hs (block_code_width b)) as (s1 & size & Hs1 & ->).
    destruct (exactly_block h b size c Hb) as [_ Hfail].
    destruct (Hfail p2 Hp2 ltac:(congruence) s1 Hs1) as (s2 & E2).
    exists s2. unfold mbind at 1, Dive_bind at 1. by rewrite E2.
Qed.

(** ** The start of a file *)

Definition capture_header_ok (h : CaptureDataHeader) : Prop :=
  in_width 16 (m_major_version h) /\ in_width 16 (m_minor_version h) /\ in_width 16 (m_revision h) /\
  in_width 8 (h_capture_type h) /\ in_width 32 (m_pal_version h) /\
  in_width 16 (m_device_id h) /\ in_width 16 (m_device_revision h).

#[global] Instance capture_header_ok_dec h : Decision (capture_header_ok h).
Proof. unfold capture_header_ok. apply _. Defined.

Lemma decode_header h : capture_header_ok h -> decode_CaptureDataHeader (encode_CaptureDataHeader h) = h.
Proof.
  intros (H1 & H2 & H3 & H4 & H5 & H6 & H7). unfold decode_CaptureDataHeader. cbv zeta.
  set (bytes := encode_CaptureDataHeader h).
  assert (uint_at 12 4 bytes = encode_flags h) as ->.
  { unfold bytes, encode_CaptureDataHeader. field. apply Z.mod_small. unfold encode_flags.
    pose proof (fun b => eq_refl : Z.b2z b = if b then 1 else 0) as Hb. rewrite !Hb.
    repeat case_match; lia. }
  assert (uint_at 0 2 bytes = m_major_version h) as ->
    by (unfold bytes, encode_CaptureDataHeader; field; by apply Z.mod_small).
  assert (uint_at 2 2 bytes = m_minor_version h) as ->
    by (unfold bytes, encode_CaptureDataHeader; field; by apply Z.mod_small).
  assert (uint_at 4 2 bytes = m_revision h) as ->
    by (unfold bytes, encode_CaptureDataHeader; field; by apply Z.mod_small).
  assert (uint_at 6 1 bytes = h_capture_type h) as ->
    by (unfold bytes, encode_CaptureDataHeader; field; by apply Z.mod_small).
  assert (uint_at 8 4 bytes = m_pal_version h) as ->
    by (unfold bytes, encode_CaptureDataHeader; field; by apply Z.mod_small).
  assert (uint_at 16 2 bytes = m_device_id h) as ->
    by (unfold bytes, encode_CaptureDataHeader; field; by apply Z.mod_small).
  assert (uint_at 18 2 bytes = m_device_revision h) as ->
    by (unfold bytes, encode_CaptureDataHeader; field; by apply Z.mod_small).
  clearbody bytes. destruct h as [? ? ? ? ? b0 b1 b2 b3 b4 b5 ? ?]. unfold encode_flags, flag.
  destruct b0, b1, b2, b3, b4, b5; reflexivity.
Qed.

(** The capture with the header that was read. *)
Definition with_header (h : CaptureDataHeader) (c : Pm4CaptureData) : Pm4CaptureData :=
  set_capture_type (h_capture_type h) (set_data_header h c).

Lemma stream_start h size k c fuel : capture_header_ok h ->
  exists s, ahead s k /\
    LoadCaptureFileStream (S fuel) (c, open_stream (encode_start h size ++ k)) =
    if incompatible_version h then Done (kVersionError, (set_data_header h c, s))
    else '(ok, s) ← LoadCapture fuel h (with_header h c, s);
         match (ok : option ()) with Some _ => load_parents fuel s | None => Done (kCorruptData, s) end.
Proof.
  intros Hh. pose proof (ahead_open (encode_start h size ++ k)) as H0. unfold encode_start in H0 at 2.
  rewrite <- !(assoc_L (++)) in H0.
  destruct (istream_read_ok sizeof_FileHeader _ _ _ H0 eq_refl) as (s1 & E1 & H1).
  destruct (istream_read_ok sizeof_BlockInfo _ _ _ H1 eq_refl) as (s2 & E2 & H2).
  destruct (istream_read_ok sizeof_CaptureDataHeader _ _ _ H2 eq_refl) as (s3 & E3 & H3).
  exists s3. split; [done|]. unfold LoadCaptureFileStream. cbn [snd fst]. rewrite E1.
  destruct H1 as (_ & -> & _). 
  change (uint_at 0 4 encode_file_header =? kDiveFileId) with true.
  change (uint_at 4 4 encode_file_header =? kDiveFileVersion) with true. cbn [negb].
  cbn [load_parents fst snd]. rewrite E2. destruct H2 as (_ & -> & _).
  rewrite block_info_type' by done. rewrite Z.eqb_refl, E3.
  rewrite overwrite_all by done. rewrite decode_header by done. done.
Qed.

(** Nothing follows the capture. *)
Lemma load_parents_end fuel c s : s_fail s = true ->
  exists s', load_parents (S fuel) (c, s) = Done (kSuccess, (c, s')).
Proof.
  intros Hf. destruct (istream_read_bad sizeof_BlockInfo s) as (s' & E & Hf').
  - unfold good. by rewrite Hf, andb_false_r.
  - exists s'. cbn [load_parents fst snd]. by rewrite E, Hf'.
Qed.

Lemma capture_finalized h c s fuel memory : s_fail s = true ->
  Finalize (m_reset_memory_tracker h) (m_memory c) = Some memory ->
  exists s',
    ('(ok, s) ← Capture_Finalize h (c, s);
     match (ok : option ()) with Some _ => load_parents (S fuel) s | None => Done (kCorruptData, s) end) =
    Done (kSuccess, (set_memory memory c, s')).
Proof.
  intros Hf Hm. destruct (load_parents_end fuel (set_memory memory c) s Hf) as (s' & E). exists s'.
  unfold Capture_Finalize, mbind at 2, Dive_bind. cbn [dive_capture fst].
  rewrite Hm. exact E.
Qed.

(** ** Termination

    An action that ends, and leaves the stream no further back. *)
Definition forward {A} (m : Dive A) : Prop := forall c s, 0 <= s_pos s ->
  m (c, s) <> OutOfFuel /\
  forall r c' s', m (c, s) = Done (r, (c', s')) -> s_bytes s' = s_bytes s /\ s_pos s <= s_pos s'.

Lemma forward_ret {A} (a : A) : forward (mret a).
Proof. intros c s Hs. split; [done|]. by intros r c' s' [= _ _ <-]. Qed.

Lemma forward_false {A} : forward (@dive_false A).
Proof. intros c s Hs. split; [done|]. by intros r c' s' [= _ _ <-]. Qed.

Lemma forward_capture : forward dive_capture.
Proof. intros c s Hs. split; [done|]. by intros r c' s' [= _ _ <-]. Qed.

Lemma forward_update f : forward (update_capture f).
Proof. intros c s Hs. split; [done|]. by intros r c' s' [= _ _ <-]. Qed.

Lemma forward_bounds {A} : forward (@dive_out_of_bounds A).
Proof. done. Qed.

Lemma forward_bind {A B} (m : Dive A) (f : A -> Dive B) :
  forward m -> (forall a, forward (f a)) -> forward (m ≫= f).
Proof.
  intros Hm Hf c s Hs. unfold mbind, Dive_bind. destruct (Hm c s Hs) as [Hn Hk].
  destruct (m (c, s)) as [[[a|] [c1 s1]]| |] eqn:E; [| |done|done].
  - destruct (Hk _ _ _ eq_refl) as [Hb Hp]. destruct (Hf a c1 s1 ltac:(lia)) as [Hn' Hk'].
    split; [done|]. intros r c' s' E'. destruct (Hk' _ _ _ E') as [Hb' Hp']. split; [congruence|lia].
  - split; [done|]. intros r c' s' [= <- <- <-]. by apply (Hk None c1 s1).
Qed.

Lemma istream_read_forward n s d s' : 0 <= s_pos s -> istream_read n s = (d, s') ->
  s_bytes s' = s_bytes s /\ s_pos s <= s_pos s'.
Proof.
  unfold istream_read. intros Hs E. destruct (good s); injection E as <- <-; cbn; split; (done || lia).
Qed.

Lemma forward_read n : forward (dive_read n).
Proof.
  intros c s Hs. unfold dive_read. cbn [fst snd]. destruct (istream_read n s) as [d s1] eqn:E.
  split; [done|]. intros r c' s' [= _ _ <-]. by eapply istream_read_forward.
Qed.

Lemma forward_name : forward read_name.
Proof.
  intros c s Hs. split; [unfold read_name; by destruct (istream_getline _)|].
  unfold read_name, istream_getline. cbn [fst snd].
  intros r c' s'. destruct (good s); [destruct (_ <? _)%nat|]; intros [= _ _ <-]; cbn; split; (done || lia).
Qed.

Lemma forward_repeat {A} n (m : Dive A) : forward m -> forward (repeat_load n m).
Proof.
  intros Hm. induction n as [|n IH]; [apply forward_ret|]. cbn [repeat_load].
  apply forward_bind; [done|]. intros a. apply forward_bind; [done|]. intros l. apply forward_ret.
Qed.

Create HintDb dive_forward.
#[export] Hint Resolve forward_ret forward_false forward_capture forward_update forward_bounds
  forward_read forward_name : dive_forward.

Ltac forward_step :=
  match goal with
  | |- forward (_ ≫= _) => apply forward_bind; [|intros ?]
  | |- forward (repeat_load _ _) => apply forward_repeat
  | |- forward (if ?b then _ else _) => destruct b
  | |- forward (match ?o with _ => _ end) => destruct o
  | |- forward (let _ := _ in _) => cbv zeta
  | _ => solve [auto with dive_forward]
  end.

Lemma forward_struct n : forward (read_struct n).
Proof. unfold read_struct. repeat forward_step. Qed.
#[export] Hint Resolve forward_struct : dive_forward.

Lemma forward_block h type size : later_capture h = false -> forward (load_block h type size).
Proof.
  intros Hl. unfold load_block. rewrite Hl. cbn [negb].
  unfold LoadMemoryAllocBlock, LoadSubmitBlock, LoadMemoryBlock, LoadPresentBlock, LoadWaveStateBlock,
    LoadTextBlock, LoadRegisterBlock, LoadVulkanMetaDataBlock, load_wave, read_registers, load_register.
  repeat forward_step.
Qed.

Lemma length_remaining s : length (remaining s) = (length (s_bytes s) - Z.to_nat (s_pos s))%nat.
Proof. unfold remaining. by rewrite length_drop. Qed.

(** A header that was read takes bytes off the stream. *)
Lemma istream_read_progress n s d s' : 0 <= s_pos s -> 0 < n -> istream_read n s = (d, s') -> s_fail s' = false ->
  (length (remaining s') < length (remaining s))%nat.
Proof.
  intros Hp Hn E Hf. unfold istream_read in E. destruct (good s); injection E as <- <-; [|done].
  cbn in Hf. zbool. rewrite length_take in *. rewrite !length_remaining in *. cbn [advance s_bytes s_pos]. lia.
Qed.

Lemma Capture_Finalize_ends h c s :
  Capture_Finalize h (c, s) <> OutOfFuel /\ forall r c' s', Capture_Finalize h (c, s) = Done (r, (c', s')) -> s' = s.
Proof.
  unfold Capture_Finalize, mbind, Dive_bind. cbn [dive_capture fst].
  destruct (Finalize _ _); [|done]. split; [done|]. by intros r c' s' [= _ _ <-].
Qed.

Lemma LoadCapture_ends h fuel c s : later_capture h = false -> 0 <= s_pos s ->
  (length (remaining s) < fuel)%nat ->
  LoadCapture fuel h (c, s) <> OutOfFuel /\
  forall r c' s', LoadCapture fuel h (c, s) = Done (Some r, (c', s')) -> s_fail s' = true.
Proof.
  intros Hl. revert c s. induction fuel as [|fuel IH]; intros c s Hp Hf; [lia|].
  cbn [LoadCapture]. unfold mbind at 1 3, Dive_bind at 1 3. unfold dive_read. cbn [fst snd].
  destruct (istream_read sizeof_BlockInfo s) as [d s1] eqn:E.
  destruct (istream_read_forward _ _ _ _ Hp E) as [Hb1 Hp1].
  destruct (s_fail s1) eqn:Hf1; cbn [negb].
  - destruct (Capture_Finalize_ends h c s1) as [Hn Hs]. split; [done|].
    intros r c' s' E'. by rewrite (Hs _ _ _ E').
  - pose proof (istream_read_progress sizeof_BlockInfo s d s1 Hp eq_refl E Hf1) as Hlt.
    destruct (forward_block h (uint_at 0 4 d) (uint_at 8 8 d) Hl c s1 ltac:(lia)) as [Hn Hk].
    unfold mbind at 1 2, Dive_bind at 1 2.
    destruct (load_block _ _ _ _) as [[[u|] [c2 s2]]| |]; [|done..].
    destruct (Hk _ _ _ eq_refl) as [Hb2 Hp2]. apply IH; [lia|].
    rewrite !length_remaining, Hb2 in *. lia.
Qed.

Lemma load_parents_ends fuel c s :
  later_capture (decode_CaptureDataHeader (overwrite default_header_bytes (fst (istream_read sizeof_CaptureDataHeader
    (snd (istream_read sizeof_BlockInfo s)))))) = false ->
  0 <= s_pos s -> (S (length (remaining s)) < fuel)%nat -> load_parents fuel (c, s) <> OutOfFuel.
Proof.
  intros Hl Hp Hf. destruct fuel as [|fuel]; [lia|]. cbn [load_parents fst snd].
  destruct (istream_read sizeof_BlockInfo s) as [d s1] eqn:E1. cbn [snd] in Hl.
  destruct (istream_read_forward _ _ _ _ Hp E1) as [Hb1 Hp1].
  destruct (s_fail s1); [done|]. destruct (_ =? kCapture); [|done].
  destruct (istream_read sizeof_CaptureDataHeader s1) as [d2 s2] eqn:E2. cbn [fst] in Hl.
  destruct (istream_read_forward _ _ _ _ (Z.le_trans _ _ _ Hp Hp1) E2) as [Hb2 Hp2].
  set (h := decode_CaptureDataHeader _) in *. destruct (incompatible_version h); [done|].
  destruct (LoadCapture_ends h fuel (set_capture_type (h_capture_type h) (set_data_header h c)) s2 Hl)
    as [Hn Hs]; [lia|rewrite !length_remaining in *; rewrite Hb2, Hb1; lia|].
  unfold mbind, outcome_bind. destruct (LoadCapture _ _ _) as [[[u|] [c3 s3]]| |]; [|done..].
  destruct fuel as [|fuel]; [lia|]. destruct (load_parents_end fuel c3 s3) as (s4 & ->); [by eapply Hs|done].
Qed.

(** ** Going back in the file

    A block of an unknown type in a file of a later version is skipped by the
    size it gives; a size that is negative as an offset leads back. *)
Definition looping_block (type : Z) : list byte := encode_block_info type (2 ^ 64 - 16).

Definition known_type (type : Z) : bool :=
  bool_decide (type ∈ [kMemoryAlloc; kSubmit; kMemoryRaw; kPresent; kWaveState; kText; kRegisters; kVulkanMetadata]).

Lemma load_block_unknown h type size : known_type type = false ->
  load_block h type size = if negb (later_capture h) then dive_false else dive_seek (streamoff size).
Proof.
  intros Ht%bool_decide_eq_false_1. rewrite !not_elem_of_cons in Ht.
  destruct Ht as (H1 & H2 & H3 & H4 & H5 & H6 & H7 & H8 & _).
  unfold load_block. by rewrite !(proj2 (Z.eqb_neq _ _)) by done.
Qed.

(** The contents of a block of Vulkan metadata are taken for a block. *)
Lemma metadata_fails h version data_size d k c s fuel :
  known_type version = false -> in_width 32 version -> length d = 12%nat -> later_capture h = false ->
  ahead s (encode_block_info kVulkanMetadata data_size ++ (le_split 4 version ++ d) ++ k) ->
  exists s', LoadCapture (S (S fuel)) h (c, s) = Done (None, s').
Proof.
  intros Hk Ht Hd Hl Hs.
  destruct (LoadCapture_turn (S fuel) h _ _ _ c s Hs) as (s1 & size1 & Hs1 & ->); [done|].
  destruct (LoadCapture_turn_bytes fuel h version d k c s1 Hs1 Hd Ht) as (s2 & size2 & _ & E).
  exists (c, s2). unfold load_block at 1. eval_type. unfold LoadVulkanMetaDataBlock, mbind at 1, Dive_bind at 1.
  cbn [mret Dive_ret]. rewrite E, load_block_unknown, Hl by done. done.
Qed.

Lemma LoadCapture_loops h type c fuel s k : later_capture h = true -> known_type type = false -> in_width 32 type ->
  ahead s (looping_block type ++ k) -> LoadCapture fuel h (c, s) = OutOfFuel.
Proof.
  intros Hl Hk Ht. revert s. induction fuel as [|fuel IH]; intros s Hs; [done|].
  destruct Hs as (He & Hf & Hp & Hr). cbn [LoadCapture].
  unfold mbind at 1, Dive_bind at 1. unfold dive_read, istream_read, good. cbn [fst snd].
  rewrite He, Hf, Hr. cbn [negb andb].
  replace (take (Z.to_nat sizeof_BlockInfo) (looping_block type ++ k)) with (looping_block type)
    by (change (Z.to_nat sizeof_BlockInfo) with (length (looping_block type)); by rewrite take_app_length).
  change (Z.of_nat (length (looping_block type)) <? sizeof_BlockInfo) with false. cbn [advance s_fail negb].
  unfold looping_block at 1. rewrite block_info_type' by done.
  replace (uint_at 8 8 (looping_block type)) with (2 ^ 64 - 16)
    by (unfold looping_block, encode_block_info; change (zero_bytes 4) with (le_split 4 0); symmetry; field; reflexivity).
  rewrite load_block_unknown, Hl by done. cbn [negb].
  change (streamoff (2 ^ 64 - 16)) with (-16). unfold mbind at 1, Dive_bind at 1, dive_seek, istream_seek.
  cbn [fst snd s_fail advance s_pos s_bytes]. change (Z.of_nat (length (looping_block type))) with 16.
  replace (s_pos s + 16 + -16 <? 0) with false by (symmetry; apply Z.ltb_ge; lia).
  apply IH. split_and!; [done|done|cbn; lia|]. unfold remaining in *. cbn [s_pos s_bytes].
  by replace (s_pos s + 16 + -16) with (s_pos s) by lia.
Qed.

(** ** Whole files *)

(** A read gives the next bytes, even on a stream that has come to its end. *)
Lemma istream_read_bytes n s : 0 <= s_pos s -> 0 <= n -> good s = true \/ remaining s = [] ->
  let '(d, s') := istream_read n s in
  d = take (Z.to_nat n) (remaining s) /\ remaining s' = drop (Z.to_nat n) (remaining s) /\
  0 <= s_pos s' /\ (good s' = true \/ remaining s' = []).
Proof.
  intros Hp Hn Hs. unfold istream_read. destruct (good s) eqn:Eg.
  - set (d := take (Z.to_nat n) (remaining s)).
    assert (remaining (advance (length d) (Z.of_nat (length d) <? n) (Z.of_nat (length d) <? n) s)
      = drop (Z.to_nat n) (remaining s)) as Hrem.
    { unfold remaining at 1. cbn [advance s_pos s_bytes]. rewrite Z2Nat.inj_add, Nat2Z.id, <- drop_drop by lia.
      fold (remaining s). unfold d. rewrite length_take.
      destruct (Nat.le_gt_cases (Z.to_nat n) (length (remaining s))); [by rewrite Nat.min_l by lia|].
      rewrite Nat.min_r by lia. by rewrite !drop_ge by lia. }
    split; [done|]. split; [done|]. split; [cbn; lia|].
    rewrite Hrem. unfold d, good. cbn [advance s_eof s_fail].
    destruct (Z.ltb_spec (Z.of_nat (length (take (Z.to_nat n) (remaining s)))) n) as [Hlt|]; [right|by left].
    apply drop_ge. rewrite length_take in Hlt. lia.
  - destruct Hs as [|Hs]; [done|]. change (remaining (set_failbit s)) with (remaining s).
    rewrite Hs, take_nil, drop_nil. by split_and!; [| | |right].
Qed.

(** The header that the loader sees in a file. *)
Definition file_header_of (bytes : list byte) : CaptureDataHeader :=
  decode_CaptureDataHeader (overwrite default_header_bytes (take 32 (drop 24 bytes))).

Lemma file_header_read bytes :
  let s1 := snd (istream_read sizeof_FileHeader (open_stream bytes)) in
  0 <= s_pos s1 /\ (length (remaining s1) <= length bytes)%nat /\
  fst (istream_read sizeof_CaptureDataHeader (snd (istream_read sizeof_BlockInfo s1))) = take 32 (drop 24 bytes).
Proof.
  cbv zeta.
  pose proof (istream_read_bytes sizeof_FileHeader (open_stream bytes) ltac:(done) ltac:(done) (or_introl eq_refl)) as H1.
  destruct (istream_read sizeof_FileHeader (open_stream bytes)) as [d1 s1]. destruct H1 as (_ & R1 & P1 & G1).
  change (remaining (open_stream bytes)) with bytes in R1. cbn [snd].
  pose proof (istream_read_bytes sizeof_BlockInfo s1 P1 ltac:(done) G1) as H2.
  destruct (istream_read sizeof_BlockInfo s1) as [d2 s2]. destruct H2 as (_ & R2 & P2 & G2). cbn [snd].
  pose proof (istream_read_bytes sizeof_CaptureDataHeader s2 P2 ltac:(done) G2) as H3.
  destruct (istream_read sizeof_CaptureDataHeader s2) as [d3 s3]. destruct H3 as (-> & _). cbn [fst].
  split; [done|]. rewrite R2, R1, length_drop, drop_drop. split; [lia|done].
Qed.

(** A file that ends within the capture's header: the rest of the header is the
    default. *)
Lemma stream_short_header size part c fuel memory :
  let h := decode_CaptureDataHeader (overwrite default_header_bytes part) in
  Z.of_nat (length part) < sizeof_CaptureDataHeader -> incompatible_version h = false ->
  Finalize (m_reset_memory_tracker h) (m_memory c) = Some memory -> (2 < fuel)%nat ->
  exists s,
    LoadCaptureFileStream fuel (c, open_stream (encode_file_header ++ encode_block_info kCapture size ++ part)) =
      Done (kSuccess, (set_memory memory (with_header h c), s)).
Proof.
  intros h Hpart Hv Hm Hf.
  pose proof (ahead_open (encode_file_header ++ encode_block_info kCapture size ++ part)) as H0.
  destruct (istream_read_ok sizeof_FileHeader _ _ _ H0 eq_refl) as (s1 & E1 & H1).
  destruct (istream_read_ok sizeof_BlockInfo _ _ _ H1 eq_refl) as (s2 & E2 & H2).
  destruct (istream_read_short sizeof_CaptureDataHeader _ _ H2 Hpart) as (s3 & E3 & H3).
  destruct fuel as [|[|[|fuel]]]; [lia..|].
  destruct (LoadCapture_bad h (with_header h c) s3 (S fuel)) as (s4 & H4 & E4); [by unfold good; rewrite H3, andb_false_r|].
  destruct (capture_finalized h (with_header h c) s4 (S fuel) memory H4 Hm) as (s5 & E5). exists s5.
  unfold LoadCaptureFileStream. cbn [snd fst]. rewrite E1. destruct H1 as (_ & -> & _).
  change (uint_at 0 4 encode_file_header =? kDiveFileId) with true.
  change (uint_at 4 4 encode_file_header =? kDiveFileVersion) with true. cbn [negb].
  remember (S (S fuel)) as more. cbn [load_parents fst snd]. rewrite E2. destruct H2 as (_ & -> & _).
  rewrite block_info_type' by done. rewrite Z.eqb_refl, E3. fold h. rewrite Hv. fold (with_header h c).
  by rewrite E4.
Qed.

(** Where the loop over the blocks returns [false]. *)
Lemma stream_corrupt h bs size part c fuel :
  capture_header_ok h -> incompatible_version h = false -> Forall (block_ok h) bs -> (length bs + 2 < fuel)%nat ->
  (forall fuel c s, ahead s part -> exists s', LoadCapture (S (S fuel)) h (c, s) = Done (None, s')) ->
  exists s, LoadCaptureFileStream fuel (c, open_stream (encode_start h size ++ encode_blocks bs ++ part)) =
    Done (kCorruptData, s).
Proof.
  intros Hh Hv Hbs Hf Hfail.
  replace fuel with (S (length bs + S (S (fuel - length bs - 3)))) by lia.
  destruct (stream_start h size (encode_blocks bs ++ part) c (length bs + S (S (fuel - length bs - 3))) Hh) as (s & Hs & ->).
  rewrite Hv.
  destruct (LoadCapture_blocks h bs (with_header h c) s part (S (S (fuel - length bs - 3))) Hbs Hs) as (s1 & Hs1 & ->).
  destruct (Hfail (fuel - length bs - 3)%nat (apply_blocks bs (with_header h c)) s1 Hs1) as (s2 & E).
  exists s2. unfold mbind, outcome_bind. by rewrite E.
Qed.

(** A file whose first bytes are not those of a supported file. *)
Lemma stream_refused bytes c fuel :
  let load := LoadCaptureFileStream fuel (c, open_stream bytes) in
  (Z.of_nat (length bytes) < sizeof_FileHeader -> exists s, load = Done (kFileIoError, (c, s))) /\
  (sizeof_FileHeader <= Z.of_nat (length bytes) -> uint_at 0 4 bytes <> kDiveFileId ->
   exists s, load = Done (kCorruptData, (c, s))) /\
  (sizeof_FileHeader <= Z.of_nat (length bytes) -> uint_at 0 4 bytes = kDiveFileId ->
   uint_at 4 4 bytes <> kDiveFileVersion -> exists s, load = Done (kVersionError, (c, s))).
Proof.
  cbv zeta. unfold LoadCaptureFileStream. cbn [fst snd].
  assert (sizeof_FileHeader <= Z.of_nat (length bytes) -> exists s,
    istream_read sizeof_FileHeader (open_stream bytes) = (take 8 bytes, s) /\ s_fail s = false /\
    uint_at 0 4 (take 8 bytes) = uint_at 0 4 bytes /\ uint_at 4 4 (take 8 bytes) = uint_at 4 4 bytes) as Hread.
  { intros Hn. change sizeof_FileHeader with 8 in Hn.
    destruct (istream_read_ok sizeof_FileHeader (open_stream bytes) (take 8 bytes) (drop 8 bytes))
      as (s & E & Hs); [rewrite take_drop; apply ahead_open|rewrite length_take; change sizeof_FileHeader with 8; lia|].
    exists s. split; [done|]. split; [apply Hs|]. unfold uint_at.
    split; [by rewrite !drop_0, take_take|by rewrite !take_drop_commute, take_take]. }
  split_and!.
  - intros Hn. destruct (istream_read_short sizeof_FileHeader _ bytes (ahead_open bytes) Hn) as (s & -> & ->).
    by exists s.
  - intros Hn Hid. destruct (Hread Hn) as (s & -> & -> & -> & _). rewrite (proj2 (Z.eqb_neq _ _)) by done. by exists s.
  - intros Hn Hid Hv. destruct (Hread Hn) as (s & -> & -> & -> & ->). rewrite Hid, Z.eqb_refl. cbn [negb].
    rewrite (proj2 (Z.eqb_neq _ _)) by done. by exists s.
Qed.

(** ** Properties *)

(** The blocks of a memory that [Finalize] sorts without losing bytes. *)
Definition memory_sound (h : CaptureDataHeader) (bs : list MemoryBlock) : Prop :=
  if m_reset_memory_tracker h then recaptured_ok bs else disjoint_ok bs.

Lemma finalize_sound h c : memory_sound h (m_memory_blocks (m_memory c)) ->
  exists memory, Finalize (m_reset_memory_tracker h) (m_memory c) = Some memory /\ memory_ok memory.
Proof.
  unfold memory_sound. destruct (m_reset_memory_tracker h).
  - intros (m & E & Hm & _)%finalized_bytes. by exists m.
  - intros (m & E & Hm & _)%Finalize_any_submit. by exists m.
Qed.

(** C12: a file of a compatible version, made of the seven kinds of blocks that the loader
    reads (memory allocations, submits, memory, presents, texts, waves, registers; not the
    Vulkan metadata, RGP and performance blocks of [dive_capture_format.h], which it refuses
    or takes for the next block), is loaded as the capture that its blocks describe, when
    all fields fit ([capture_header_ok], [block_ok]: widths, the loader's limits on counts
    and sizes, names without a zero byte) and the memory blocks can be sorted without
    losing bytes ([memory_sound]: disjoint or, with the tracker reset between submits, only
    captured again at the same address). Loaded are the submits with their buffers, the
    memory with the submit each block follows, the presents, texts, waves with their
    registers, and the register state, the first value of a name winning. What is left at
    the end and is shorter than a block's header is ignored. *)
Theorem dive_capture_loaded h bs size part c fuel :
  capture_header_ok h -> incompatible_version h = false -> Forall (block_ok h) bs ->
  Z.of_nat (length part) < sizeof_BlockInfo ->
  let loaded := apply_blocks bs (with_header h c) in
  memory_sound h (m_memory_blocks (m_memory loaded)) ->
  (length bs + 2 < fuel)%nat ->
  exists memory s,
    LoadCaptureFileStream fuel (c, open_stream (encode_start h size ++ encode_blocks bs ++ part)) =
      Done (kSuccess, (set_memory memory loaded, s)) /\
    Finalize (m_reset_memory_tracker h) (m_memory loaded) = Some memory /\ memory_ok memory.
Proof.
  intros Hh Hv Hbs Hpart loaded Hsound Hf.
  destruct (finalize_sound h loaded Hsound) as (memory & Em & Hm).
  replace fuel with (S (length bs + S (S (fuel - length bs - 3)))) by lia.
  destruct (stream_start h size (encode_blocks bs ++ part) c (length bs + S (S (fuel - length bs - 3))) Hh)
    as (s & Hs & ->).
  rewrite Hv. destruct (LoadCapture_blocks h bs (with_header h c) s part (S (S (fuel - length bs - 3))) Hbs Hs)
    as (s1 & Hs1 & ->). fold loaded.
  destruct (LoadCapture_end h part loaded s1 (S (fuel - length bs - 3)) Hs1 Hpart) as (s2 & Hf2 & ->).
  rewrite Nat.add_succ_r.
  destruct (capture_finalized h loaded s2 (length bs + S (fuel - length bs - 3)) memory Hf2 Em) as (s3 & E3).
  by exists memory, s3.
Qed.

(** What the loader answers to a file that it cannot load. A file shorter
    than the file header gives an I/O error; one with another magic number is
    corrupt; another version of the file format, and a capture version that is
    not compatible, give a version error; a file that ends within the body of a
    block is corrupt, and so is a file of this version or an older one with a block
    of an unknown type, wherever in the file the block is, and one with a block of
    Vulkan metadata, the contents of which are read as the next block. A file that
    ends within the capture's header, however, is loaded, with what is missing of
    the header as its default. *)
Theorem dive_load_errors h bs size c fuel :
  capture_header_ok h -> (length bs + 2 < fuel)%nat ->
  (forall bytes, let load := LoadCaptureFileStream fuel (c, open_stream bytes) in
     (Z.of_nat (length bytes) < sizeof_FileHeader -> exists s, load = Done (kFileIoError, (c, s))) /\
     (sizeof_FileHeader <= Z.of_nat (length bytes) -> uint_at 0 4 bytes <> kDiveFileId ->
      exists s, load = Done (kCorruptData, (c, s))) /\
     (sizeof_FileHeader <= Z.of_nat (length bytes) -> uint_at 0 4 bytes = kDiveFileId ->
      uint_at 4 4 bytes <> kDiveFileVersion -> exists s, load = Done (kVersionError, (c, s)))) /\
  (incompatible_version h = true -> forall k, exists s,
     LoadCaptureFileStream fuel (c, open_stream (encode_start h size ++ k)) =
       Done (kVersionError, (set_data_header h c, s))) /\
  (incompatible_version h = false -> Forall (block_ok h) bs ->
     (forall b part, block_ok h b -> part `prefix_of` encode_block b -> part <> encode_block b ->
        sizeof_BlockInfo <= Z.of_nat (length part) -> exists s,
        LoadCaptureFileStream fuel (c, open_stream (encode_start h size ++ encode_blocks bs ++ part)) =
          Done (kCorruptData, s)) /\
     (forall type data_size k, known_type type = false -> in_width 32 type -> later_capture h = false -> exists s,
        LoadCaptureFileStream fuel (c, open_stream (encode_start h size ++ encode_blocks bs ++
          encode_block_info type data_size ++ k)) = Done (kCorruptData, s)) /\
     (forall version data_size d k, known_type version = false -> in_width 32 version -> length d = 12%nat ->
        later_capture h = false -> exists s,
        LoadCaptureFileStream fuel (c, open_stream (encode_start h size ++ encode_blocks bs ++
          encode_block_info kVulkanMetadata data_size ++ (le_split 4 version ++ d) ++ k)) = Done (kCorruptData, s))) /\
  (forall part memory, let h := decode_CaptureDataHeader (overwrite default_header_bytes part) in
     Z.of_nat (length part) < sizeof_CaptureDataHeader -> incompatible_version h = false ->
     Finalize (m_reset_memory_tracker h) (m_memory c) = Some memory -> exists s,
     LoadCaptureFileStream fuel (c, open_stream (encode_file_header ++ encode_block_info kCapture size ++ part)) =
       Done (kSuccess, (set_memory memory (with_header h c), s))).
Proof.
  intros Hh Hf. split; [intros bytes; apply stream_refused|]. split_and!.
  - intros Hv k. destruct fuel as [|fuel]; [lia|]. destruct (stream_start h size k c fuel Hh) as (s & _ & ->).
    rewrite Hv. by exists s.
  - intros Hv Hbs. split_and!.
    + intros b part Hb Hp Hne Hn. apply stream_corrupt; try done.
      intros fuel' c' s Hs. by eapply LoadCapture_cut.
    + intros type data_size k Hk Ht Hl. apply stream_corrupt; try done.
      intros fuel' c' s Hs. destruct (LoadCapture_turn (S fuel') h _ _ _ c' s Hs Ht) as (s1 & size' & _ & ->).
      rewrite load_block_unknown, Hl by done. by eexists.
    + intros version data_size d k Hk Ht Hd Hl. apply stream_corrupt; try done.
      intros fuel' c' s Hs. by eapply metadata_fails.
  - intros part memory h' Hpart Hv Hm. by apply stream_short_header; [| | |lia].
Qed.

(** C38: loading ends on every file whose header is not of a later version than
    the loader: more steps than the file has bytes are never needed. It need not
    end on a file of a later version: a block of an unknown type whose size is
    [2^64 - 16] is read again and again. *)
Theorem dive_load_ends :
  (forall bytes c fuel, later_capture (file_header_of bytes) = false -> (S (length bytes) < fuel)%nat ->
     LoadCaptureFileStream fuel (c, open_stream bytes) <> OutOfFuel) /\
  (forall h type size k c fuel, capture_header_ok h -> incompatible_version h = false -> later_capture h = true ->
     known_type type = false -> in_width 32 type ->
     LoadCaptureFileStream (S fuel) (c, open_stream (encode_start h size ++ looping_block type ++ k)) = OutOfFuel).
Proof.
  split.
  - intros bytes c fuel Hl Hf. destruct (file_header_read bytes) as (Hp & Hr & Hh).
    unfold LoadCaptureFileStream. cbn [fst snd].
    destruct (istream_read sizeof_FileHeader (open_stream bytes)) as [d s1]. cbn [snd] in *.
    destruct (s_fail s1); [done|]. destruct (negb _); [done|]. destruct (negb _); [done|].
    apply load_parents_ends; [|done|lia]. rewrite Hh. exact Hl.
  - intros h type size k c fuel Hh Hv Hl Hk Ht.
    destruct (stream_start h size (looping_block type ++ k) c fuel Hh) as (s & Hs & ->).
    rewrite Hv. by rewrite (LoadCapture_loops h type (with_header h c) fuel s k).
Qed.

(** ** Witnesses *)

Definition test_header : CaptureDataHeader :=
  mkCaptureDataHeader 0 4 1 kSingleFrame 7 true false false false false true 0x1234 2.

Definition test_wave : WaveStateInfo :=
  mkWaveState ([64; 2; 1; 0; 64] ++ repeat 0 16) [5; 6] [7] (repeat 1 16).

Definition test_blocks : list DiveBlock :=
  [AllocBlock true [mkAllocation 4096 8192];
   SubmitBlock 0 1 3 false [(4096, 2); (2 ^ 40, 7)];
   MemoryRawBlock 4096 (bytes_of [1; 2; 3; 4; 5; 6; 7; 8]);
   SubmitBlock 1 1 0 true [];
   MemoryRawBlock 4096 (bytes_of [9; 9]);
   PresentBlock true 2 1 true 65536 100 44 0;
   TextBlock "log" (bytes_of [65; 66]);
   WaveBlock [test_wave];
   RegisterBlock [("r0", 1); ("r1", 2); ("r0", 3)]%string].

Definition test_loaded : Pm4CaptureData := apply_blocks test_blocks (with_header test_header new_Pm4CaptureData).

Lemma test_header_ok : capture_header_ok test_header.
Proof. apply (bool_decide_unpack _). vm_compute. exact I. Qed.

Lemma test_blocks_ok : Forall (block_ok test_header) test_blocks.
Proof. apply (bool_decide_unpack _). vm_compute. exact I. Qed.

Lemma test_memory_sound : memory_sound test_header (m_memory_blocks (m_memory test_loaded)).
Proof.
  split.
  - repeat constructor; vm_compute; congruence.
  - intros b1 b2 H1 H2. change (m_memory_blocks (m_memory test_loaded)) with
      [mkBlock 4096 0 8 (bytes_of [1; 2; 3; 4; 5; 6; 7; 8]); mkBlock 4096 1 2 (bytes_of [9; 9])] in *.
    rewrite !elem_of_cons, elem_of_nil in H1, H2.
    unfold before. destruct H1 as [->|[->|[]]], H2 as [->|[->|[]]]; cbn; lia.
Qed.

Lemma dive_capture_loaded_witness :
  m_registers test_loaded !! "r0"%string = Some 1 /\
  (p_submit_index <$> m_presents test_loaded) = [1] /\
  exists memory s,
    LoadCaptureFileStream 100 (new_Pm4CaptureData,
      open_stream (encode_start test_header 0 ++ encode_blocks test_blocks ++ bytes_of [1; 2; 3])) =
      Done (kSuccess, (set_memory memory test_loaded, s)) /\ memory_ok memory.
Proof.
  split; [vm_compute; reflexivity|]. split; [vm_compute; reflexivity|].
  destruct (dive_capture_loaded test_header test_blocks 0 (bytes_of [1; 2; 3]) new_Pm4CaptureData 100)
    as (memory & s & E & _ & Hm).
  - exact test_header_ok.
  - reflexivity.
  - exact test_blocks_ok.
  - reflexivity.
  - exact test_memory_sound.
  - cbn. lia.
  - exists memory, s. split; [exact E|exact Hm].
Defined.

(** A file that ends within the contents of a memory block. *)
Lemma dive_load_errors_witness :
  exists s, LoadCaptureFileStream 100 (new_Pm4CaptureData, open_stream (encode_start test_header 0 ++
    encode_blocks [] ++ take 35 (encode_block (MemoryRawBlock 4096 (bytes_of [1; 2; 3; 4; 5; 6; 7; 8]))))) =
    Done (kCorruptData, s).
Proof.
  destruct (dive_load_errors test_header [] 0 new_Pm4CaptureData 100) as (_ & _ & H & _).
  - exact test_header_ok.
  - cbn. lia.
  - destruct (H eq_refl (Forall_nil_2 _)) as [Hcut _].
    apply (Hcut (MemoryRawBlock 4096 (bytes_of [1; 2; 3; 4; 5; 6; 7; 8]))).
    + apply (bool_decide_unpack _). vm_compute. exact I.
    + apply prefix_take.
    + vm_compute. discriminate.
    + vm_compute. discriminate.
Defined.

(** The header of revision 2. *)
Definition test_later : CaptureDataHeader :=
  mkCaptureDataHeader 0 4 2 kSingleFrame 7 true false false false false true 0x1234 2.

Lemma dive_load_ends_witness :
  (forall c, LoadCaptureFileStream 200 (c, open_stream (encode_start test_header 0 ++ bytes_of [1; 2; 3])) <> OutOfFuel) /\
  (forall c fuel, LoadCaptureFileStream (S fuel)
     (c, open_stream (encode_start test_later 0 ++ looping_block 7 ++ [])) = OutOfFuel).
Proof.
  destruct dive_load_ends as [Hends Hloops]. split.
  - intros c. apply Hends; [vm_compute; reflexivity|vm_compute; lia].
  - intros c fuel. apply Hloops.
    + apply (bool_decide_unpack _). vm_compute. exact I.
    + reflexivity.
    + reflexivity.
    + vm_compute. reflexivity.
    + vm_compute. intuition congruence.
Defined.
