(* ===== verification/Traversal.v ===== *)
(** * Traversal: what the emulation promises

    The abstract specification of [Emulate]: a recursive traversal of the IBs of a
    submit, without a stack of levels, without queues to be advanced and without
    IBs to be skipped. A packet is decoded to the IBs it refers to; these are
    traversed one after the other, each one level deeper, before the next packet;
    a chain goes on in another IB at the same level. *)

From S2P Require Import Prelude Wire Memory Pm4 StateTracker Emulate.

#[local] Open Scope Z_scope.

Section Traversal.
Context `{AdrenoPm4} {C M : Type} `{IMemoryManager M} `{EmulateCallbacks C M}.

(** ** Packets *)

(** The enabled groups of a draw-state packet, up to one that disables all. *)
Fixpoint draw_state_ibs (packet : list byte) (n i : nat) : list QueuedIb :=
  match n with
  | O => []
  | S n =>
      if SET_DRAW_STATE_DISABLE_ALL_GROUPS i packet then []
      else if SET_DRAW_STATE_DISABLE i packet then draw_state_ibs packet n (S i)
      else
        mkQueued kDrawState (SET_DRAW_STATE_ADDR i packet) (SET_DRAW_STATE_COUNT i packet) false
          (draw_state_mask i packet) :: draw_state_ibs packet n (S i)
  end.

(** Every bin: its prefix, then the common block at [common_va]. *)
Definition bin_ibs (packet : list byte) (common_va common_size : Z) : list QueuedIb :=
  concat ((fun bin =>
    [mkQueued kBinPrefix (wrap 64 (START_BIN_PREFIX_ADDR packet + wrap 32 (bin * START_BIN_PREFIX_DWORDS packet) * 4))
       (START_BIN_PREFIX_DWORDS packet) false all_passes;
     mkQueued kBinCommon common_va common_size false all_passes]) <$> seqZ 0 (Z.of_nat (Z.to_nat (START_BIN_BIN_COUNT packet)))).

Definition draw_table_ibs (packet : list byte) : list QueuedIb :=
  concat ((fun draw =>
    [mkQueued kFixedStrideDrawTable
       (wrap 64 (FIXED_STRIDE_IB_BASE packet + wrap 32 (draw * FIXED_STRIDE_STRIDE packet) * 4))
       (FIXED_STRIDE_STRIDE packet) false all_passes])
    <$> seqZ 0 (Z.of_nat (Z.to_nat (FIXED_STRIDE_COUNT packet)))).

(** A packet: where the next one is, whether the entries of the level's queue are
    forgotten, and the IBs it refers to. *)
Record decoded := mkDecoded {
  d_next : Z;
  d_reset : bool;
  d_ibs : list QueuedIb
}.

Definition decode (fuel : nat) (submit va header : Z) (mem : M) : outcome (decoded * M) :=
  let next := wrap 64 (va + GetPacketSize header * 4) in
  if is_indirect_buffer header then
    '(packet, mem) ← retrieve sizeof_INDIRECT_BUFFER sizeof_INDIRECT_BUFFER submit va mem;
    let type := if type7_opcode header =? CP_INDIRECT_BUFFER_CHAIN then kChain else kCall in
    Done (mkDecoded next true
      [mkQueued type (INDIRECT_BUFFER_IB_BASE packet) (INDIRECT_BUFFER_IB_SIZE packet) false all_passes], mem)
  else if is_packet header CP_SET_AMBLE then
    '(packet, mem) ← retrieve sizeof_SET_AMBLE (packet_bytes header) submit va mem;
    Done (if SET_AMBLE_DWORDS packet =? 0 then mkDecoded next false []
          else mkDecoded next true
                 [mkQueued kContextSwitchIb (SET_AMBLE_ADDR packet) (SET_AMBLE_DWORDS packet) false all_passes], mem)
  else if is_packet header CP_SET_DRAW_STATE then
    '(packet, mem) ← retrieve sizeof_SET_DRAW_STATE (packet_bytes header) submit va mem;
    Done (mkDecoded next true (draw_state_ibs packet
      (Z.to_nat (SET_DRAW_STATE_HEADER_count packet * 4 / sizeof_ARRAY_ELEMENT)) 0), mem)
  else if is_packet header CP_START_BIN then
    '(packet, mem) ← retrieve sizeof_START_BIN sizeof_START_BIN submit va mem;
    '(end_va, mem) ← find_end_bin fuel submit va mem;
    let common_size := wrap 32 (wrap 64 (end_va - next) / 4) in
    Done (mkDecoded (wrap 64 (next + common_size * 4)) false (bin_ibs packet next common_size), mem)
  else if is_packet header CP_FIXED_STRIDE_DRAW_TABLE then
    '(packet, mem) ← retrieve sizeof_FIXED_STRIDE_DRAW_TABLE sizeof_FIXED_STRIDE_DRAW_TABLE submit va mem;
    Done (mkDecoded next false (draw_table_ibs packet), mem)
  else Done (mkDecoded next false [], mem).

Definition nonempty_ibs (qs : list QueuedIb) : list QueuedIb := filter (fun q => q_size q <> 0) qs.

(** The IB that a chain goes on in. *)
Definition chain_of (qs : list QueuedIb) : option QueuedIb :=
  match qs with
  | [q] => if decide (q_type q = kChain) then Some q else None
  | _ => None
  end.

(** ** The traversal *)

(** The IB that is traversed, and how many entries of its level's queue are in
    use. *)
Record code := mkCode {
  code_va : Z;
  code_addr : Z;
  code_size : Z;
  code_skip : bool;
  code_mask : Z;
  code_type : IbType;
  code_used : nat
}.

Definition code_end (k : code) : Z := wrap 64 (code_addr k + code_size k * 4).

(** [UINT64_MAX] marks the primary ring, which never ends. *)
Definition code_ended (k : code) : bool :=
  negb (code_va k =? UINT64_MAX) && (code_skip k || (code_end k <=? code_va k)).

Definition at_va (va : Z) (used : nat) (k : code) : code :=
  mkCode va (code_addr k) (code_size k) (code_skip k) (code_mask k) (code_type k) used.

(** The IB of an entry, which is skipped if it is not captured. *)
Definition code_of (submit : Z) (mem : M) (type : IbType) (used : nat) (q : QueuedIb) : code :=
  mkCode (q_addr q) (q_addr q) (q_size q)
    (q_skip q || negb (memory_IsValid submit (q_addr q) (q_size q * 4) mem)) (q_enable_mask q) type used.

Definition code_start (level : nat) (k : code) : IndirectBufferInfo :=
  mkIbInfo (code_va k) (code_size k) (wrap 8 (Z.of_nat level)) (code_mask k) (code_skip k).

(** The end is reported with the level that is returned to, and without a mask. *)
Definition code_finish (level : nat) (k : code) : IndirectBufferInfo :=
  mkIbInfo (code_addr k) (code_size k) (wrap 8 (Z.of_nat (pred level))) 0 (code_skip k).

Definition start_index (q : QueuedIb) (position : nat) (ix : Z) : Z :=
  if decide (q_type q = kNormal) then Z.of_nat position else ix.

(** An answer with which the traversal goes on or stops. *)
Definition and_then (r : outcome (bool * C * M)) (k : C -> M -> outcome (bool * C * M)) : outcome (bool * C * M) :=
  '(ok, c, mem) ← r; if ok : bool then k c mem else Done (false, c, mem).

(** IBs one after the other, from entry [position] of the queue of [level]. *)
Fixpoint run_ibs (run : Z -> nat -> code -> C -> M -> outcome (bool * C * M)) (submit ix : Z) (level position : nat)
    (qs : list QueuedIb) (c : C) (mem : M) : outcome (bool * C * M) :=
  match qs with
  | [] => Done (true, c, mem)
  | q :: qs =>
      if (S level <? kTotalIbLevels)%nat then
        let ix := start_index q position ix in
        let k := code_of submit mem (q_type q) 0 q in
        and_then (with_mem (OnIbStart submit ix (code_start (S level) k) (q_type q)) c mem) (fun c mem =>
        and_then (run ix (S level) k c mem) (run_ibs run submit ix level (S position) qs))
      else OutOfBounds
  end.

(** What follows a packet, where [run] traverses an IB at a level. *)
Definition after_packet (run : Z -> nat -> code -> C -> M -> outcome (bool * C * M)) (fuel : nat) (submit ix : Z)
    (level : nat) (k : code) (header : Z) (c : C) (mem : M) : outcome (bool * C * M) :=
  '(d, mem) ← decode fuel submit (code_va k) header mem;
  let used := if d_reset d then 0%nat else code_used k in
  let qs := nonempty_ibs (d_ibs d) in
  if (kMaxPendingIbs <? used + length qs)%nat then Done (false, c, mem)
  else
    match chain_of qs with
    | Some q =>
        if d_next d =? code_end k then
          let k := code_of submit mem (code_type k) 1 q in
          and_then (with_mem (OnIbStart submit ix (code_start level k) (code_type k)) c mem) (run ix level k)
        else Done (false, c, mem)
    | None =>
        and_then (run_ibs run submit ix level used qs c mem)
          (run ix level (at_va (d_next d) (used + length qs) k))
    end.

(** The packets of an IB and its end. *)
Fixpoint run_code (fuel : nat) (submit ix : Z) (level : nat) (k : code) (c : C) (mem : M)
  : outcome (bool * C * M) :=
  match fuel with
  | O => OutOfFuel
  | S fuel =>
      if code_ended k then with_mem (OnIbEnd submit ix (code_finish level k)) c mem
      else
        let '(header, mem) := retrieve_dword submit (code_va k) mem in
        if negb (header_ok header) then Done (false, c, mem)
        else
          and_then (OnPacket submit ix (code_va k) header c mem)
            (after_packet (run_code fuel submit) fuel submit ix level k header)
  end.

Definition submit_ibs (ibs : list IndirectBufferInfo) : list QueuedIb :=
  (fun i => mkQueued kNormal (info_va_addr i) (info_size_in_dwords i) (info_skip i) all_passes) <$> ibs.

(** A submit: its IBs that are not empty, from the primary ring. *)
Definition run_submit (fuel : nat) (submit : Z) (ibs : list IndirectBufferInfo) (c : C) (mem : M)
  : outcome (bool * C * M) :=
  let qs := nonempty_ibs (submit_ibs ibs) in
  if (kMaxPendingIbs <? length qs)%nat then Done (false, c, mem)
  else run_ibs (run_code fuel submit) submit 0 0 0 qs c mem.
End Traversal.
