(* ===== verification/EmulateSteps.v ===== *)
(** * EmulateSteps: the operations of the emulator, one by one

    Each operation of [Emulate] as an equation on a state whose current level is
    split from the others, and the bounds that every operation keeps. *)

From S2P Require Import Prelude Wire Memory Pm4 StateTracker Emulate Traversal.

#[local] Open Scope Z_scope.

Section Steps.
Context `{AdrenoPm4} {C M : Type} `{IMemoryManager M} `{EmulateCallbacks C M}.
Implicit Types (c : C) (mem : M) (ib : IbStack) (parents rest : list IbStack).

(** The state at level [length parents]. *)
Definition at_level (ix submit : Z) parents ib rest : EmulateState :=
  mkEmulate ix submit (parents ++ ib :: rest) (length parents).

Lemma lookup_level parents ib rest : (parents ++ ib :: rest) !! length parents = Some ib.
Proof. by rewrite lookup_app_r, Nat.sub_diag by lia. Qed.

Lemma insert_level parents ib ib' rest : <[length parents := ib']> (parents ++ ib :: rest) = parents ++ ib' :: rest.
Proof. rewrite insert_app_r_alt by lia. by rewrite Nat.sub_diag. Qed.

Lemma bind_done {A B} (m : Emu C M A) (k : A -> Emu C M B) s a s' :
  m s = Done (Some a, s') -> (m ≫= k) s = k a s'.
Proof. unfold mbind, Emu_bind. by intros ->. Qed.

Lemma bind_bind {A B D} (m : Emu C M A) (f : A -> Emu C M B) (g : B -> Emu C M D) s :
  ((m ≫= f) ≫= g) s = (m ≫= fun a => f a ≫= g) s.
Proof. unfold mbind, Emu_bind. by destruct (m s) as [[[a|] s']| |]. Qed.

Lemma update_state_at (f : EmulateState -> EmulateState) e c mem :
  update_state f (e, c, mem) = Done (Some tt, (f e, c, mem)).
Proof. done. Qed.

Lemma get_state_at e c mem : get_state (e, c, mem) = Done (Some e, (e, c, mem)).
Proof. done. Qed.

Lemma GetCurIb_at ix submit parents ib rest c mem :
  GetCurIb (at_level ix submit parents ib rest, c, mem) = Done (Some ib, (at_level ix submit parents ib rest, c, mem)).
Proof.
  unfold GetCurIb, get_level, get_state, mbind, Emu_bind. cbn [fst m_top_of_stack at_level m_ib_stack].
  by rewrite lookup_level.
Qed.

Lemma update_cur_at f ix submit parents ib rest c mem :
  update_cur f (at_level ix submit parents ib rest, c, mem)
  = Done (Some tt, (at_level ix submit parents (f ib) rest, c, mem)).
Proof.
  unfold update_cur, update_level, get_level, get_state, update_state, set_stack, mbind, Emu_bind.
  cbn [fst m_top_of_stack at_level m_ib_stack m_ib_index m_submit]. rewrite lookup_level. cbn.
  by rewrite insert_level.
Qed.

Lemma update_parent_at f ix submit parents p ib rest c mem :
  update_level (length parents) f (at_level ix submit (parents ++ [p]) ib rest, c, mem)
  = Done (Some tt, (at_level ix submit (parents ++ [f p]) ib rest, c, mem)).
Proof.
  unfold update_level, get_level, get_state, update_state, set_stack, mbind, Emu_bind, at_level.
  cbn [fst m_top_of_stack m_ib_stack m_ib_index m_submit]. rewrite <- !app_assoc. cbn [app].
  rewrite lookup_level. cbn. rewrite insert_level. by rewrite !length_app.
Qed.

Lemma push_at ix submit parents ib r rest :
  set_top (S (length parents)) (at_level ix submit parents ib (r :: rest))
  = at_level ix submit (parents ++ [ib]) r rest.
Proof. unfold set_top, at_level. cbn. rewrite <- app_assoc, length_app, Nat.add_1_r. done. Qed.

Lemma pop_at ix submit parents p ib rest :
  set_top (length parents) (at_level ix submit (parents ++ [p]) ib rest)
  = at_level ix submit parents p (ib :: rest).
Proof. unfold set_top, at_level. cbn. by rewrite <- app_assoc. Qed.

(** *** Starting and ending an IB *)

Definition started (submit : Z) mem ib : IbStack :=
  set_cur_skip (m_cur_ib_skip ib || negb (memory_IsValid submit (m_cur_va ib) (m_cur_ib_size_in_dwords ib * 4) mem)) ib.

(** The answer of a callback, as the end of an operation. *)
Definition answered (e : EmulateState) mem (r : outcome (bool * C)) : outcome (option unit * (EmulateState * C * M)) :=
  '(ok, c) ← r; Done (if ok : bool then Some tt else None, (e, c, mem)).

Lemma callback_at (f : C -> outcome (bool * C)) e c mem :
  callback (with_mem f) (e, c, mem) = answered e mem (f c).
Proof. unfold callback, with_mem, answered. by destruct (f c) as [[ok c']| |]. Qed.

Lemma start_cur_ib_at ix submit parents ib rest c mem :
  start_cur_ib (at_level ix submit parents ib rest, c, mem)
  = answered (at_level ix submit parents (started submit mem ib) rest) mem
      (OnIbStart submit ix (start_info (length parents) (started submit mem ib)) (m_cur_ib_type ib) c).
Proof.
  unfold start_cur_ib. unfold get_state at 1, mbind at 1, Emu_bind at 1. cbn [fst].
  unfold mbind at 1, Emu_bind at 1. rewrite GetCurIb_at. unfold access, mbind at 1, Emu_bind at 1.
  unfold mbind, Emu_bind. rewrite update_cur_at, callback_at. done.
Qed.

Lemma AdvanceToQueuedIB_none ix submit parents ib rest c mem :
  m_ib_queue ib !! m_ib_queue_index ib = None ->
  AdvanceToQueuedIB (at_level ix submit parents ib rest, c, mem)
  = Done (Some tt, (at_level ix submit parents ib rest, c, mem)).
Proof.
  intros Hq. unfold AdvanceToQueuedIB, get_state, mbind, Emu_bind. rewrite GetCurIb_at. by rewrite Hq.
Qed.

Definition next_queued ib : IbStack := set_queue (m_ib_queue ib) (S (m_ib_queue_index ib)) ib.

Lemma AdvanceToQueuedIB_call ix submit parents ib r rest q c mem :
  m_ib_queue ib !! m_ib_queue_index ib = Some q -> q_type q <> kChain ->
  AdvanceToQueuedIB (at_level ix submit parents ib (r :: rest), c, mem)
  = start_cur_ib (at_level (start_index q (m_ib_queue_index ib) ix) submit (parents ++ [next_queued ib])
      (called_ib q) rest, c, mem).
Proof.
  intros Hq Ht. unfold AdvanceToQueuedIB. rewrite (bind_done _ _ _ _ _ (get_state_at _ _ _)).
  rewrite (bind_done _ _ _ _ _ (GetCurIb_at _ _ _ _ _ _ _)), Hq. rewrite decide_False by done.
  rewrite !bind_bind. cbn [m_top_of_stack at_level].
  assert ((if decide (q_type q = kNormal) then update_state (set_ib_index (Z.of_nat (m_ib_queue_index ib))) else mret tt)
    (at_level ix submit parents ib (r :: rest), c, mem)
    = Done (Some tt, (at_level (start_index q (m_ib_queue_index ib) ix) submit parents ib (r :: rest), c, mem))) as Hix
    by (unfold start_index; by destruct (decide _)).
  rewrite (bind_done _ _ _ _ _ Hix), bind_bind, (bind_done _ _ _ _ _ (update_state_at _ _ _ _)), push_at.
  rewrite (bind_done _ _ _ _ _ (update_cur_at _ _ _ _ _ _ _ _)).
  by rewrite (bind_done _ _ _ _ _ (update_parent_at _ _ _ _ _ _ _ _ _)).
Qed.

Lemma AdvanceToQueuedIB_deep ix submit parents ib q c mem :
  m_ib_queue ib !! m_ib_queue_index ib = Some q -> q_type q <> kChain ->
  AdvanceToQueuedIB (at_level ix submit parents ib [], c, mem) = OutOfBounds.
Proof.
  intros Hq Ht. unfold AdvanceToQueuedIB. rewrite (bind_done _ _ _ _ _ (get_state_at _ _ _)).
  rewrite (bind_done _ _ _ _ _ (GetCurIb_at _ _ _ _ _ _ _)), Hq. rewrite decide_False by done.
  rewrite !bind_bind. cbn [m_top_of_stack at_level].
  assert ((if decide (q_type q = kNormal) then update_state (set_ib_index (Z.of_nat (m_ib_queue_index ib))) else mret tt)
    (at_level ix submit parents ib [], c, mem)
    = Done (Some tt, (at_level (start_index q (m_ib_queue_index ib) ix) submit parents ib [], c, mem))) as Hix
    by (unfold start_index; by destruct (decide _)).
  rewrite (bind_done _ _ _ _ _ Hix), bind_bind, (bind_done _ _ _ _ _ (update_state_at _ _ _ _)).
  unfold update_cur, update_level, get_level, mbind, Emu_bind. cbn [get_state fst m_top_of_stack m_ib_stack set_top at_level].
  rewrite lookup_ge_None_2; [done|]. rewrite length_app. cbn. lia.
Qed.

(** A chain takes the first entry of the queue. *)
Lemma AdvanceToQueuedIB_chain ix submit parents ib rest q first c mem :
  m_ib_queue ib !! m_ib_queue_index ib = Some q -> q_type q = kChain -> m_ib_queue ib !! 0%nat = Some first ->
  AdvanceToQueuedIB (at_level ix submit parents ib rest, c, mem)
  = if m_cur_va ib =? ib_end ib
    then start_cur_ib (at_level ix submit parents (next_queued (chained_ib first ib)) rest, c, mem)
    else Done (None, (at_level ix submit parents ib rest, c, mem)).
Proof.
  intros Hq Ht Hf. unfold AdvanceToQueuedIB. rewrite (bind_done _ _ _ _ _ (get_state_at _ _ _)).
  rewrite (bind_done _ _ _ _ _ (GetCurIb_at _ _ _ _ _ _ _)), Hq, Hf.
  rewrite decide_True by done. destruct (m_cur_va ib =? ib_end ib); [|done]. cbn [negb].
  assert (forall f p, update_level (length parents) f (at_level ix submit parents p rest, c, mem)
    = Done (Some tt, (at_level ix submit parents (f p) rest, c, mem))) as Hup
    by (intros f p; apply (update_cur_at f)).
  cbn [m_top_of_stack at_level]. rewrite (bind_done _ _ _ _ _ (Hup _ _)), (bind_done _ _ _ _ _ (Hup _ _)).
  done.
Qed.

Lemma AdvanceOutOfIB_at ix submit parents p ib rest c mem :
  AdvanceOutOfIB (at_level ix submit (parents ++ [p]) ib rest, c, mem)
  = answered (at_level ix submit parents p (ib :: rest)) mem
      (OnIbEnd submit ix (end_info (length parents) ib) c).
Proof.
  unfold AdvanceOutOfIB. rewrite (bind_done _ _ _ _ _ (get_state_at _ _ _)).
  rewrite (bind_done _ _ _ _ _ (GetCurIb_at _ _ _ _ _ _ _)).
  cbn [m_top_of_stack at_level m_submit m_ib_index]. rewrite length_app, Nat.add_1_r.
  by rewrite (bind_done _ _ _ _ _ (update_state_at _ _ _ _)), pop_at, callback_at.
Qed.

(** *** Queueing *)

(** The loops of [QueueIB] calls. *)
Fixpoint queue_all (qs : list QueuedIb) : Emu C M unit :=
  match qs with
  | [] => mret tt
  | q :: qs => QueueIB (q_addr q) (q_size q) (q_skip q) (q_type q) (q_enable_mask q) ;; queue_all qs
  end.

Definition fits (queue qs : list QueuedIb) : bool := (length queue + length (nonempty_ibs qs) <=? kMaxPendingIbs)%nat.

Definition enqueue (qs : list QueuedIb) ib : IbStack :=
  set_queue (m_ib_queue ib ++ nonempty_ibs qs) (m_ib_queue_index ib) ib.

Lemma QueueIB_at q ix submit parents ib rest c mem :
  QueueIB (q_addr q) (q_size q) (q_skip q) (q_type q) (q_enable_mask q) (at_level ix submit parents ib rest, c, mem)
  = if decide (q_size q = 0) then Done (Some tt, (at_level ix submit parents ib rest, c, mem))
    else if (length (m_ib_queue ib) <? kMaxPendingIbs)%nat
    then Done (Some tt, (at_level ix submit parents (set_queue (m_ib_queue ib ++ [q]) (m_ib_queue_index ib) ib) rest, c, mem))
    else Done (None, (at_level ix submit parents ib rest, c, mem)).
Proof.
  unfold QueueIB. rewrite (bind_done _ _ _ _ _ (GetCurIb_at _ _ _ _ _ _ _)).
  destruct (Z.eqb_spec (q_size q) 0); [by rewrite decide_True by done|]. rewrite decide_False by done.
  rewrite Nat.leb_antisym. destruct (_ <? _)%nat; [|done]. cbn [negb]. rewrite update_cur_at. by destruct q.
Qed.

Lemma queue_all_at qs ix submit parents ib rest c mem :
  (length (m_ib_queue ib) <= kMaxPendingIbs)%nat ->
  queue_all qs (at_level ix submit parents ib rest, c, mem)
    = Done (Some tt, (at_level ix submit parents (enqueue qs ib) rest, c, mem)) /\ fits (m_ib_queue ib) qs = true \/
  (exists e, queue_all qs (at_level ix submit parents ib rest, c, mem) = Done (None, (e, c, mem))) /\
    fits (m_ib_queue ib) qs = false.
Proof.
  revert ib. induction qs as [|q qs IH]; intros ib Hlen; cbn [queue_all]; unfold fits, enqueue, nonempty_ibs.
  { left. rewrite filter_nil. cbn [length]. rewrite Nat.add_0_r, app_nil_r.
    split; [by destruct ib|by apply Nat.leb_le]. }
  unfold mbind, Emu_bind. rewrite QueueIB_at. rewrite filter_cons. destruct (decide (q_size q = 0)) as [Hz|Hz].
  { rewrite decide_False by (by intros Hn). by apply IH. }
  rewrite decide_True by done. cbn [length].
  destruct (Nat.ltb_spec (length (m_ib_queue ib)) kMaxPendingIbs) as [Hlt|Hge].
  - destruct (IH (set_queue (m_ib_queue ib ++ [q]) (m_ib_queue_index ib) ib)) as [[E Hf]|[(e & E) Hf]].
    { cbn [m_ib_queue set_queue]. rewrite length_app. cbn. lia. }
    + left. rewrite E. unfold fits, enqueue, nonempty_ibs in *. cbn [set_queue m_ib_queue m_ib_queue_index] in *.
      rewrite length_app in Hf. cbn in Hf. rewrite <- app_assoc. split; [done|]. rewrite <- Hf. f_equal. lia.
    + right. split; [by exists e|]. unfold fits, nonempty_ibs in Hf. cbn [set_queue m_ib_queue] in Hf.
      rewrite length_app in Hf. cbn in Hf. rewrite <- Hf. f_equal. lia.
  - right. split; [by eexists|]. apply Nat.leb_gt. lia.
Qed.

Lemma bind_after {A B} (m : Emu C M A) (k k' : A -> Emu C M B) s :
  (forall a s', m s = Done (Some a, s') -> k a s' = k' a s') -> (m ≫= k) s = (m ≫= k') s.
Proof. intros Hk. unfold mbind, Emu_bind. destruct (m s) as [[[a|] s']| |]; [by apply Hk|done..]. Qed.

Lemma bind_ext {A B} (m : Emu C M A) (k k' : A -> Emu C M B) s :
  (forall a s', k a s' = k' a s') -> (m ≫= k) s = (m ≫= k') s.
Proof. intros Hk. by apply bind_after. Qed.

Lemma queue_all_app qs1 qs2 s : queue_all (qs1 ++ qs2) s = (queue_all qs1 ;; queue_all qs2) s.
Proof.
  revert s. induction qs1 as [|q qs1 IH]; intros s; cbn [queue_all app].
  - unfold mret, Emu_ret, mbind, Emu_bind. done.
  - rewrite bind_bind. apply bind_ext. intros _ s'. apply IH.
Qed.

Lemma for_range_queue n i (body : Z -> Emu C M unit) (f : Z -> list QueuedIb) s :
  (forall j s', body j s' = queue_all (f j) s') ->
  for_range n i body s = queue_all (concat (f <$> seqZ i (Z.of_nat n))) s.
Proof.
  intros Hb. revert i s. induction n as [|n IH]; intros i s; [done|].
  rewrite seqZ_cons, fmap_cons by lia. cbn [for_range concat]. rewrite queue_all_app.
  unfold mbind, Emu_bind. rewrite Hb. destruct (queue_all (f i) s) as [[[[]|] s']| |]; [|done..].
  rewrite IH. by replace (Z.pred (Z.of_nat (S n))) with (Z.of_nat n) by lia.
Qed.

Lemma queue_draw_states_all packet n i (queued : bool) s :
  queue_draw_states packet n i queued s
  = (queue_all (draw_state_ibs packet n i) ;; mret (queued || negb (bool_decide (draw_state_ibs packet n i = [])))) s.
Proof.
  revert i queued s. induction n as [|n IH]; intros i queued s; cbn [queue_draw_states draw_state_ibs].
  { rewrite bool_decide_true by done. rewrite orb_false_r. done. }
  destruct (SET_DRAW_STATE_DISABLE_ALL_GROUPS i packet).
  { rewrite bool_decide_true by done. rewrite orb_false_r. done. }
  destruct (SET_DRAW_STATE_DISABLE i packet); [apply IH|].
  cbn [queue_all]. rewrite bind_bind. apply bind_ext. intros _ s'. rewrite IH. cbn [q_addr].
  rewrite (bool_decide_false (_ :: _ = [])) by done. by rewrite orb_true_r.
Qed.

(** *** Packets *)

(** [AdvanceCb] without the check at its end. *)
Definition advance_packet_ibs (fuel : nat) (header : Z) : Emu C M unit :=
  if is_indirect_buffer header then advance_call header
  else if is_packet header CP_SET_AMBLE then advance_amble header
  else if is_packet header CP_SET_DRAW_STATE then advance_draw_state header
  else if is_packet header CP_START_BIN then advance_bins fuel header
  else if is_packet header CP_FIXED_STRIDE_DRAW_TABLE then advance_draw_table header
  else AdvancePacket header.

(** All entries of the queue are done. *)
Definition drained ib : Prop :=
  m_ib_queue_index ib = length (m_ib_queue ib) /\ (length (m_ib_queue ib) <= kMaxPendingIbs)%nat.

Definition kept (reset : bool) ib : IbStack := if reset then set_queue [] 0 ib else ib.

Lemma drained_none ib : drained ib -> m_ib_queue ib !! m_ib_queue_index ib = None.
Proof. intros [-> _]. by apply lookup_ge_None_2. Qed.

Lemma kept_drained reset ib : drained ib -> drained (kept reset ib).
Proof. intros Hd. destruct reset; [|done]. split; cbn; [done|unfold kMaxPendingIbs; lia]. Qed.

(** The rest of an operation: the IBs [d] of the packet are queued and started. *)
Definition continues (d : decoded) (r : outcome (option unit * (EmulateState * C * M))) (ix submit : Z)
    parents ib rest c mem : Prop :=
  if fits (m_ib_queue (kept (d_reset d) ib)) (d_ibs d)
  then r = AdvanceToQueuedIB
             (at_level ix submit parents (set_cur_va (d_next d) (enqueue (d_ibs d) (kept (d_reset d) ib))) rest, c, mem)
  else exists e, r = Done (None, (e, c, mem)).

Lemma read_packet_at sizeof n ix submit parents ib rest c mem :
  read_packet sizeof n (at_level ix submit parents ib rest, c, mem)
  = '(packet, mem) ← retrieve sizeof n submit (m_cur_va ib) mem;
    Done (Some packet, (at_level ix submit parents ib rest, c, mem)).
Proof.
  unfold read_packet. rewrite (bind_done _ _ _ _ _ (get_state_at _ _ _)).
  rewrite (bind_done _ _ _ _ _ (GetCurIb_at _ _ _ _ _ _ _)). unfold access. cbn [m_submit at_level].
  by destruct (retrieve _ _ _ _ _) as [[packet mem']| |].
Qed.

Lemma AdvancePacket_at header ix submit parents ib rest c mem :
  AdvancePacket header (at_level ix submit parents ib rest, c, mem)
  = Done (Some tt, (at_level ix submit parents
      (set_cur_va (wrap 64 (m_cur_va ib + GetPacketSize header * 4)) ib) rest, c, mem)).
Proof. apply (update_cur_at (fun ib => set_cur_va (wrap 64 (m_cur_va ib + GetPacketSize header * 4)) ib)). Qed.

Lemma enqueue_nil ib : enqueue [] ib = ib.
Proof. unfold enqueue. rewrite app_nil_r. by destruct ib. Qed.

Lemma continues_nothing ix submit parents ib rest c mem next reset :
  drained ib ->
  continues (mkDecoded next reset [])
    (Done (Some tt, (at_level ix submit parents (set_cur_va next (kept reset ib)) rest, c, mem)))
    ix submit parents ib rest c mem.
Proof.
  intros Hd. unfold continues, fits. cbn [d_ibs d_reset d_next]. rewrite enqueue_nil.
  pose proof (kept_drained reset ib Hd) as Hk.
  rewrite (proj2 (Nat.leb_le _ _)) by (change (nonempty_ibs []) with (@nil QueuedIb); cbn [length]; destruct Hk; lia).
  rewrite AdvanceToQueuedIB_none; [done|]. by apply (drained_none (kept reset ib)).
Qed.

(** Queue, go on to the next packet, start. *)
Lemma queue_continues d (step : Emu C M unit) ix submit parents ib rest c mem :
  drained ib ->
  (forall ib0, m_cur_va ib0 = m_cur_va ib ->
     step (at_level ix submit parents ib0 rest, c, mem)
     = Done (Some tt, (at_level ix submit parents (set_cur_va (d_next d) ib0) rest, c, mem))) ->
  continues d
    ((queue_all (d_ibs d) ;; step ;; AdvanceToQueuedIB)
       (at_level ix submit parents (kept (d_reset d) ib) rest, c, mem))
    ix submit parents ib rest c mem.
Proof.
  intros Hd Hstep. unfold continues. pose proof (kept_drained (d_reset d) ib Hd) as [_ Hk].
  destruct (queue_all_at (d_ibs d) ix submit parents (kept (d_reset d) ib) rest c mem Hk) as [[E ->]|[(e & E) ->]].
  - rewrite (bind_done _ _ _ _ _ E). assert (m_cur_va (enqueue (d_ibs d) (kept (d_reset d) ib)) = m_cur_va ib) as Hva by (by destruct (d_reset d)).
    by rewrite (bind_done _ _ _ _ _ (Hstep _ Hva)).
  - exists e. unfold mbind, Emu_bind. by rewrite E.
Qed.

Lemma AdvancePacket_step header next ix submit parents ib rest c mem :
  next = wrap 64 (m_cur_va ib + GetPacketSize header * 4) ->
  forall ib0, m_cur_va ib0 = m_cur_va ib ->
  AdvancePacket header (at_level ix submit parents ib0 rest, c, mem)
  = Done (Some tt, (at_level ix submit parents (set_cur_va next ib0) rest, c, mem)).
Proof. intros -> ib0 E. by rewrite AdvancePacket_at, E. Qed.

Lemma reset_queue_at ix submit parents ib rest c mem :
  reset_queue (at_level ix submit parents ib rest, c, mem)
  = Done (Some tt, (at_level ix submit parents (kept true ib) rest, c, mem)).
Proof. apply update_cur_at. Qed.

Lemma queue_one q (k : Emu C M unit) s :
  (QueueIB (q_addr q) (q_size q) (q_skip q) (q_type q) (q_enable_mask q) ;; k) s = (queue_all [q] ;; k) s.
Proof. cbn [queue_all]. rewrite bind_bind. by apply bind_ext. Qed.

(** The answer of the code for a packet, when the packet decodes to [r]. *)
Definition refines_packet (r : outcome (decoded * M)) (m : outcome (option unit * (EmulateState * C * M)))
    ix submit parents ib rest c : Prop :=
  match r with
  | Done (d, mem') => continues d m ix submit parents ib rest c mem'
  | OutOfBounds => m = OutOfBounds
  | OutOfFuel => m = OutOfFuel
  end.

(** Reading the packet comes first. *)
Lemma read_refines sizeof n (k : list byte -> M -> outcome (decoded * M)) (f : list byte -> Emu C M unit)
    ix submit parents ib rest c mem :
  (forall packet mem', refines_packet (k packet mem')
     (f packet (at_level ix submit parents ib rest, c, mem')) ix submit parents ib rest c) ->
  refines_packet ('(packet, mem') ← retrieve sizeof n submit (m_cur_va ib) mem; k packet mem')
    ((packet ← read_packet sizeof n; f packet) (at_level ix submit parents ib rest, c, mem))
    ix submit parents ib rest c.
Proof.
  intros Hk. unfold mbind at 2, Emu_bind. rewrite read_packet_at.
  destruct (retrieve _ _ _ _ _) as [[packet mem']| |]; cbn [mbind outcome_bind]; [apply Hk|done|done].
Qed.

Lemma advance_call_refines fuel header ix submit parents ib rest c mem :
  drained ib -> is_indirect_buffer header = true ->
  refines_packet (decode fuel submit (m_cur_va ib) header mem)
    (advance_call header (at_level ix submit parents ib rest, c, mem)) ix submit parents ib rest c.
Proof.
  intros Hd Hh. unfold decode, advance_call. rewrite Hh. apply read_refines. intros packet mem'. cbv zeta.
  unfold refines_packet. rewrite (bind_done _ _ _ _ _ (reset_queue_at _ _ _ _ _ _ _)).
  set (q := mkQueued _ _ _ _ _). rewrite (queue_one q).
  apply (queue_continues (mkDecoded _ true [q]) (AdvancePacket header)); [done|].
  by apply AdvancePacket_step.
Qed.

Lemma advance_amble_refines fuel header ix submit parents ib rest c mem :
  drained ib -> is_indirect_buffer header = false -> is_packet header CP_SET_AMBLE = true ->
  refines_packet (decode fuel submit (m_cur_va ib) header mem)
    (advance_amble header (at_level ix submit parents ib rest, c, mem)) ix submit parents ib rest c.
Proof.
  intros Hd Hh Hp. unfold decode, advance_amble. rewrite Hh, Hp. apply read_refines. intros packet mem'.
  unfold refines_packet. rewrite (bind_done _ _ _ _ _ (AdvancePacket_at _ _ _ _ _ _ _ _)).
  destruct (SET_AMBLE_DWORDS packet =? 0).
  { by apply (continues_nothing _ _ _ _ _ _ _ _ false). }
  rewrite (bind_done _ _ _ _ _ (reset_queue_at _ _ _ _ _ _ _)).
  set (q := mkQueued _ _ _ _ _). rewrite (queue_one q).
  set (next := wrap 64 _).
  destruct (queue_all_at [q] ix submit parents (kept true (set_cur_va next ib)) rest c mem') as [[E Hf]|[(e & E) Hf]];
    [cbn; unfold kMaxPendingIbs; lia| |].
  - unfold continues. cbn [d_reset d_ibs d_next]. change (m_ib_queue (kept true ib)) with
      (m_ib_queue (kept true (set_cur_va next ib))). rewrite Hf. by rewrite (bind_done _ _ _ _ _ E).
  - unfold continues. cbn [d_reset d_ibs d_next]. change (m_ib_queue (kept true ib)) with
      (m_ib_queue (kept true (set_cur_va next ib))). rewrite Hf. exists e. unfold mbind, Emu_bind. by rewrite E.
Qed.

Lemma advance_draw_state_refines fuel header ix submit parents ib rest c mem :
  drained ib -> is_indirect_buffer header = false -> is_packet header CP_SET_AMBLE = false ->
  is_packet header CP_SET_DRAW_STATE = true ->
  refines_packet (decode fuel submit (m_cur_va ib) header mem)
    (advance_draw_state header (at_level ix submit parents ib rest, c, mem)) ix submit parents ib rest c.
Proof.
  intros Hd Hh Ha Hp. unfold decode, advance_draw_state. rewrite Hh, Ha, Hp. apply read_refines.
  intros packet mem'. cbv zeta. unfold refines_packet.
  rewrite (bind_done _ _ _ _ _ (reset_queue_at _ _ _ _ _ _ _)).
  set (n := Z.to_nat _). set (qs := draw_state_ibs packet n 0). set (next := wrap 64 _).
  assert (forall s, (ib_queued ← queue_draw_states packet n 0 false;
      AdvancePacket header ;; (if (ib_queued : bool) then AdvanceToQueuedIB else mret tt)) s
    = (queue_all qs ;; AdvancePacket header ;; if bool_decide (qs = []) then mret tt else AdvanceToQueuedIB) s) as ->.
  { intros s. unfold mbind at 1, Emu_bind at 1. rewrite queue_draw_states_all. fold qs.
    unfold mbind, Emu_bind, mret, Emu_ret.
    destruct (queue_all qs s) as [[[[]|] s']| |]; try done. cbn [orb]. by destruct (bool_decide _). }
  case_bool_decide as Hqs.
  - rewrite Hqs. cbn [queue_all]. rewrite (bind_done _ _ _ tt _ eq_refl).
    rewrite (bind_done _ _ _ _ _ (AdvancePacket_at _ _ _ _ _ _ _ _)).
    by apply (continues_nothing _ _ _ _ _ _ _ next true).
  - apply (queue_continues (mkDecoded next true qs) (AdvancePacket header)); [done|]. by apply AdvancePacket_step.
Qed.

Lemma access_at {A} (f : M -> outcome (A * M)) e c mem :
  access f (e, c, mem) = '(a, mem) ← f mem; Done (Some a, (e, c, mem)).
Proof. unfold access. by destruct (f mem) as [[a mem']| |]. Qed.

Lemma advance_bins_refines fuel header ix submit parents ib rest c mem :
  drained ib -> is_indirect_buffer header = false -> is_packet header CP_SET_AMBLE = false ->
  is_packet header CP_SET_DRAW_STATE = false -> is_packet header CP_START_BIN = true ->
  refines_packet (decode fuel submit (m_cur_va ib) header mem)
    (advance_bins fuel header (at_level ix submit parents ib rest, c, mem)) ix submit parents ib rest c.
Proof.
  intros Hd Hh Ha Hs Hp. unfold decode, advance_bins. rewrite Hh, Ha, Hs, Hp. apply read_refines.
  intros packet mem1. rewrite (bind_done _ _ _ _ _ (get_state_at _ _ _)).
  rewrite (bind_done _ _ _ _ _ (GetCurIb_at _ _ _ _ _ _ _)). cbv zeta. cbn [m_submit at_level].
  set (next := wrap 64 (m_cur_va ib + _)). unfold mbind at 2, Emu_bind. rewrite access_at.
  destruct (find_end_bin fuel submit (m_cur_va ib) mem1) as [[end_va mem']| |]; cbn [mbind outcome_bind]; [|done|done].
  set (size := wrap 32 _). set (common_end := wrap 64 (next + size * 4)).
  unfold refines_packet. set (qs := bin_ibs packet next size).
  assert (forall s, for_range (Z.to_nat (START_BIN_BIN_COUNT packet)) 0 (fun bin =>
      QueueIB (wrap 64 (START_BIN_PREFIX_ADDR packet + wrap 32 (bin * START_BIN_PREFIX_DWORDS packet) * 4))
        (START_BIN_PREFIX_DWORDS packet) false kBinPrefix all_passes ;;
      QueueIB next size false kBinCommon all_passes) s = queue_all qs s) as Hq.
  { intros s. apply for_range_queue. intros j s'. cbn [queue_all q_addr q_size q_skip q_type q_enable_mask].
    apply bind_ext. intros _ s2. unfold mbind, Emu_bind, mret, Emu_ret.
    by destruct (QueueIB next size false kBinCommon all_passes s2) as [[[[]|] s3]| |]. }
  unfold mbind, Emu_bind. cbv beta. rewrite update_cur_at, Hq.
  destruct (queue_all_at qs ix submit parents (set_cur_va common_end ib) rest c mem') as [[E Hf]|[(e & E) Hf]];
    [by destruct Hd| |]; rewrite E; unfold continues; cbn [d_reset d_ibs d_next kept];
    change (m_ib_queue ib) with (m_ib_queue (set_cur_va common_end ib)); rewrite Hf; [done|by exists e].
Qed.

Lemma advance_draw_table_refines fuel header ix submit parents ib rest c mem :
  drained ib -> is_indirect_buffer header = false -> is_packet header CP_SET_AMBLE = false ->
  is_packet header CP_SET_DRAW_STATE = false -> is_packet header CP_START_BIN = false ->
  is_packet header CP_FIXED_STRIDE_DRAW_TABLE = true ->
  refines_packet (decode fuel submit (m_cur_va ib) header mem)
    (advance_draw_table header (at_level ix submit parents ib rest, c, mem)) ix submit parents ib rest c.
Proof.
  intros Hd Hh Ha Hs Hb Hp. unfold decode, advance_draw_table. rewrite Hh, Ha, Hs, Hb, Hp. apply read_refines.
  intros packet mem'. unfold refines_packet. set (next := wrap 64 (m_cur_va ib + _)).
  assert (forall s, for_range (Z.to_nat (FIXED_STRIDE_COUNT packet)) 0 (fun draw =>
      QueueIB (wrap 64 (FIXED_STRIDE_IB_BASE packet + wrap 32 (draw * FIXED_STRIDE_STRIDE packet) * 4))
        (FIXED_STRIDE_STRIDE packet) false kFixedStrideDrawTable all_passes) s
    = queue_all (draw_table_ibs packet) s) as Hq.
  { intros s. apply for_range_queue. intros j s'. cbn [queue_all q_addr q_size q_skip q_type q_enable_mask].
    unfold mbind, Emu_bind, mret, Emu_ret. by destruct (QueueIB _ _ _ _ _ s') as [[[[]|] s3]| |]. }
  unfold mbind at 1, Emu_bind at 1. rewrite Hq.
  apply (queue_continues (mkDecoded next false (draw_table_ibs packet)) (AdvancePacket header)); [done|].
  by apply AdvancePacket_step.
Qed.

(** Every packet does what it decodes to. *)
Lemma advance_packet_refines fuel header ix submit parents ib rest c mem :
  drained ib ->
  refines_packet (decode fuel submit (m_cur_va ib) header mem)
    (advance_packet_ibs fuel header (at_level ix submit parents ib rest, c, mem)) ix submit parents ib rest c.
Proof.
  intros Hd. unfold advance_packet_ibs.
  destruct (is_indirect_buffer header) eqn:Hh; [by apply advance_call_refines|].
  destruct (is_packet header CP_SET_AMBLE) eqn:Ha; [by apply advance_amble_refines|].
  destruct (is_packet header CP_SET_DRAW_STATE) eqn:Hs; [by apply advance_draw_state_refines|].
  destruct (is_packet header CP_START_BIN) eqn:Hb; [by apply advance_bins_refines|].
  destruct (is_packet header CP_FIXED_STRIDE_DRAW_TABLE) eqn:Hp; [by apply advance_draw_table_refines|].
  unfold decode. rewrite Hh, Ha, Hs, Hb, Hp. unfold refines_packet. rewrite AdvancePacket_at.
  by apply (continues_nothing _ _ _ _ _ _ _ _ false).
Qed.
End Steps.
