(* ===== verification/EmulateRefine.v ===== *)
(** * EmulateRefine: the emulator follows the traversal

    The proof that [Emulate] refines [Traversal]: the loops of [CheckAndAdvanceIB]
    end, and whatever the traversal of a submit answers, [ExecuteSubmit] answers,
    after the same callbacks. *)

From S2P Require Import Prelude Wire Memory Pm4 StateTracker Emulate Traversal EmulateSteps.

#[local] Open Scope Z_scope.

Section Refine.
Context `{AdrenoPm4} {C M : Type} `{IMemoryManager M} `{EmulateCallbacks C M}.
Implicit Types (c : C) (mem : M) (ib : IbStack) (parents rest : list IbStack).

(** ** The check ends *)

Lemma ibs_left_at ix submit parents ib rest :
  ibs_left (at_level ix submit parents ib rest) = (length parents + sum_list (pending <$> parents))%nat.
Proof. unfold ibs_left, at_level. cbn [m_top_of_stack m_ib_stack]. by rewrite take_app_length. Qed.

Lemma sum_list_app l1 l2 : sum_list (l1 ++ l2) = (sum_list l1 + sum_list l2)%nat.
Proof. induction l1 as [|x l1 IH]; [done|]. cbn. rewrite IH. lia. Qed.

Lemma at_level_split e ib :
  m_ib_stack e !! m_top_of_stack e = Some ib ->
  e = at_level (m_ib_index e) (m_submit e) (take (m_top_of_stack e) (m_ib_stack e)) ib
        (drop (S (m_top_of_stack e)) (m_ib_stack e)).
Proof.
  intros He. destruct e as [ix submit st top]. unfold at_level. cbn [m_ib_index m_submit m_ib_stack m_top_of_stack] in *.
  rewrite take_drop_middle by done. f_equal. apply lookup_lt_Some in He. rewrite length_take. lia.
Qed.

Lemma answered_Some e mem r e' c' mem' :
  answered e mem r = Done (Some tt, (e', c', mem')) -> e' = e.
Proof. unfold answered. destruct r as [[[] c]| |]; cbn; congruence. Qed.

(** An iteration of the check ends an IB for good. *)
Lemma end_step_left ix submit parents p ib rest c mem e' c' mem' :
  (AdvanceOutOfIB ;; AdvanceToQueuedIB) (at_level ix submit (parents ++ [p]) ib rest, c, mem)
    = Done (Some tt, (e', c', mem')) ->
  (ibs_left e' < ibs_left (at_level ix submit (parents ++ [p]) ib rest))%nat.
Proof.
  unfold mbind at 1, Emu_bind at 1. rewrite AdvanceOutOfIB_at.
  destruct (answered _ mem _) as [[[[]|] [[e1 c1] mem1]]| |] eqn:E1; [|done..].
  apply answered_Some in E1 as ->. rewrite ibs_left_at, fmap_app, length_app, sum_list_app. cbn [length fmap list_fmap].
  destruct (m_ib_queue p !! m_ib_queue_index p) as [q|] eqn:Hq.
  2: { rewrite AdvanceToQueuedIB_none by done. intros [= <- _ _]. rewrite ibs_left_at. cbn. lia. }
  assert (1 <= pending p)%nat as Hp by (unfold pending; apply lookup_lt_Some in Hq; lia).
  destruct (decide (q_type q = kChain)) as [Ht|Ht].
  - destruct (m_ib_queue p !! 0%nat) as [first|] eqn:Hf; [|by destruct (m_ib_queue p)].
    rewrite (AdvanceToQueuedIB_chain _ _ _ _ _ q first) by done. destruct (_ =? _); [|done].
    rewrite start_cur_ib_at. intros ->%answered_Some. rewrite ibs_left_at. cbn. lia.
  - rewrite (AdvanceToQueuedIB_call _ _ _ _ _ _ q) by done. rewrite start_cur_ib_at. intros ->%answered_Some.
    rewrite ibs_left_at, fmap_app, length_app, sum_list_app. unfold pending, next_queued in *. cbn. lia.
Qed.

Lemma check_loop_stuck fuel e c mem :
  m_ib_stack e !! m_top_of_stack e = None -> check_loop fuel (e, c, mem) = OutOfBounds.
Proof.
  intros He. assert (GetCurIb (e, c, mem) = OutOfBounds) as E.
  { unfold GetCurIb, get_level, get_state, mbind, Emu_bind. cbn. by rewrite He. }
  destruct fuel; cbn [check_loop]; unfold mbind, Emu_bind; by rewrite E.
Qed.

Lemma check_loop_enough f1 f2 e c mem :
  (ibs_left e < f1)%nat -> (ibs_left e < f2)%nat -> check_loop f1 (e, c, mem) = check_loop f2 (e, c, mem).
Proof.
  revert f2 e c mem. induction f1 as [|f1 IH]; intros f2 e c mem Hf1 Hf2; [lia|]. destruct f2 as [|f2]; [lia|].
  destruct (m_ib_stack e !! m_top_of_stack e) as [ib|] eqn:He; [|by rewrite !check_loop_stuck].
  rewrite (at_level_split e ib He) in *. set (parents := take _ _) in *. set (rest := drop _ _) in *. clearbody parents rest.
  set (ix := m_ib_index e) in *. set (submit := m_submit e) in *. clearbody ix submit. clear e He.
  cbn [check_loop]. rewrite !(bind_done _ _ _ _ _ (GetCurIb_at _ _ _ _ _ _ _)).
  destruct (negb _ && _); [|done].
  destruct parents as [|parents p _] using rev_ind; [done|].
  rewrite <- !bind_bind. apply bind_after. intros [] [[e' c'] mem'] E%end_step_left. apply IH; lia.
Qed.

(** ** The rest of the emulation *)

Definition go (fuel : nat) : Emu C M unit := CheckAndAdvanceIB ;; execute_loop fuel.

Lemma go_end fuel ix submit parents p ib rest c mem :
  m_cur_va ib <> UINT64_MAX -> EndOfCurIb ib = true ->
  go fuel (at_level ix submit (parents ++ [p]) ib rest, c, mem)
  = (AdvanceOutOfIB ;; AdvanceToQueuedIB ;; go fuel) (at_level ix submit (parents ++ [p]) ib rest, c, mem).
Proof.
  intros Hva Hend. unfold go, CheckAndAdvanceIB. rewrite bind_bind, (bind_done _ _ _ _ _ (get_state_at _ _ _)).
  set (e := at_level _ _ _ _ _). assert (GetCurIb (e, c, mem) = Done (Some ib, (e, c, mem))) as Hcur by apply GetCurIb_at.
  cbn [check_loop]. rewrite bind_bind, (bind_done _ _ _ _ _ Hcur), (proj2 (Z.eqb_neq _ _) Hva), Hend. cbn [negb andb].
  rewrite bind_bind. transitivity (((AdvanceOutOfIB ;; AdvanceToQueuedIB) ;; check_loop (ibs_left e) ;; execute_loop fuel)
    (e, c, mem)).
  { rewrite bind_bind. apply bind_ext. intros _ s'. by rewrite bind_bind. }
  transitivity (((AdvanceOutOfIB ;; AdvanceToQueuedIB) ;; go fuel) (e, c, mem)); [|by rewrite bind_bind].
  apply bind_after. intros [] [[e' c'] mem'] E%end_step_left.
  assert (ibs_left e' < ibs_left e)%nat as Hlt by exact E. unfold go, CheckAndAdvanceIB. rewrite bind_bind.
  rewrite (bind_done _ _ _ _ _ (get_state_at _ _ _)). unfold mbind, Emu_bind.
  by rewrite (check_loop_enough (ibs_left e) (S (ibs_left e')) e' c' mem') by lia.
Qed.

(** The emulation goes on with the current IB. *)
Lemma check_stays ix submit parents ib rest c mem :
  negb (m_cur_va ib =? UINT64_MAX) && EndOfCurIb ib = false ->
  CheckAndAdvanceIB (at_level ix submit parents ib rest, c, mem)
  = Done (Some tt, (at_level ix submit parents ib rest, c, mem)).
Proof.
  intros Hend. unfold CheckAndAdvanceIB. rewrite (bind_done _ _ _ _ _ (get_state_at _ _ _)). cbn [check_loop].
  by rewrite (bind_done _ _ _ _ _ (GetCurIb_at _ _ _ _ _ _ _)), Hend.
Qed.

(** A packet's callback and what follows it. *)
Definition packet_tail (fuel : nat) (header : Z) : Emu C M unit := advance_packet_ibs fuel header ;; go fuel.

Lemma go_run fuel ix submit parents p ib rest c mem :
  negb (m_cur_va ib =? UINT64_MAX) && EndOfCurIb ib = false ->
  go (S fuel) (at_level ix submit (parents ++ [p]) ib rest, c, mem)
  = let '(header, mem) := retrieve_dword submit (m_cur_va ib) mem in
    if negb (header_ok header) then Done (None, (at_level ix submit (parents ++ [p]) ib rest, c, mem))
    else
      (callback (OnPacket submit ix (m_cur_va ib) header) ;; packet_tail fuel header)
        (at_level ix submit (parents ++ [p]) ib rest, c, mem).
Proof.
  intros Hend. unfold go at 1. rewrite (bind_done _ _ _ _ _ (check_stays _ _ _ _ _ _ _ Hend)).
  cbn [execute_loop]. rewrite (bind_done _ _ _ _ _ (get_state_at _ _ _)).
  cbn [m_top_of_stack at_level]. rewrite length_app, Nat.add_1_r. unfold execute_packet.
  rewrite bind_bind, (bind_done _ _ _ _ _ (get_state_at _ _ _)).
  rewrite bind_bind, (bind_done _ _ _ _ _ (GetCurIb_at _ _ _ _ _ _ _)). cbn [m_submit m_ib_index at_level].
  rewrite bind_bind. unfold mbind at 1, Emu_bind at 1, access.
  destruct (retrieve_dword submit (m_cur_va ib) mem) as [header mem'].
  destruct (negb (header_ok header)); [done|]. rewrite !bind_bind. apply bind_ext. intros _ s.
  unfold AdvanceCb, packet_tail, go. by rewrite bind_bind.
Qed.

Lemma go_primary fuel ix submit ib rest c mem :
  m_cur_va ib = UINT64_MAX ->
  go fuel (at_level ix submit [] ib rest, c, mem) = Done (Some tt, (at_level ix submit [] ib rest, c, mem)).
Proof.
  intros Hva. unfold go. rewrite (bind_done _ _ _ _ _ (check_stays _ _ _ _ _ _ _ ltac:(by rewrite Hva))).
  by destruct fuel.
Qed.

(** ** The simulation *)

(** The IB that the traversal is in, on the emulator's stack. *)
Definition ib_of (k : code) (queue : list QueuedIb) : IbStack :=
  mkIb (code_va k) (code_addr k) (code_size k) (code_skip k) (code_mask k) (code_type k) queue (length queue).

Lemma find_end_bin_mono n fuel submit va mem :
  (n <= fuel)%nat -> find_end_bin n submit va mem <> OutOfFuel ->
  find_end_bin fuel submit va mem = find_end_bin n submit va mem.
Proof.
  revert fuel va mem. induction n as [|n IH]; intros fuel va mem Hn Hf; [done|]. destruct fuel as [|fuel]; [lia|].
  cbn [find_end_bin] in *. destruct (retrieve_dword submit va mem) as [header mem'].
  destruct (is_packet header CP_END_BIN); [done|]. apply IH; [lia|done].
Qed.

Lemma decode_mono n fuel submit va header mem :
  (n <= fuel)%nat -> decode n submit va header mem <> OutOfFuel ->
  decode fuel submit va header mem = decode n submit va header mem.
Proof.
  intros Hn Hf. unfold decode in *.
  destruct (is_indirect_buffer header); [done|]. destruct (is_packet header CP_SET_AMBLE); [done|].
  destruct (is_packet header CP_SET_DRAW_STATE); [done|]. destruct (is_packet header CP_START_BIN); [|done].
  destruct (retrieve _ _ _ _ _) as [[packet mem1]| |]; cbn [mbind outcome_bind] in *; [|done|done].
  rewrite (find_end_bin_mono n fuel); [done|done|]. intros E. by rewrite E in Hf.
Qed.

(** What a packet refers to: a chain, or IBs that are called. *)
Definition called (q : QueuedIb) : Prop := q_type q <> kChain /\ q_type q <> kNormal.

Lemma draw_state_ibs_called packet n i : Forall called (draw_state_ibs packet n i).
Proof.
  revert i. induction n as [|n IH]; intros i; cbn [draw_state_ibs]; [constructor|].
  destruct (SET_DRAW_STATE_DISABLE_ALL_GROUPS i packet); [constructor|].
  destruct (SET_DRAW_STATE_DISABLE i packet); [done|]. by constructor.
Qed.

Lemma concat_called (f : Z -> list QueuedIb) l : (forall x, Forall called (f x)) -> Forall called (concat (f <$> l)).
Proof. intros Hf. induction l as [|x l IH]; cbn; [constructor|]. by apply Forall_app. Qed.

Lemma decode_ibs fuel submit va header mem d mem' :
  decode fuel submit va header mem = Done (d, mem') ->
  (exists q, d_ibs d = [q] /\ q_type q = kChain /\ d_reset d = true /\ is_packet header CP_INDIRECT_BUFFER_CHAIN = true) \/
  Forall called (d_ibs d).
Proof.
  unfold decode. intros E.
  repeat match type of E with
  | (if ?b then _ else _) = _ => destruct b eqn:?
  | mbind _ (retrieve ?a ?b ?c ?d ?m) = _ => destruct (retrieve a b c d m) as [[packet mem1]| |]; cbn [mbind outcome_bind] in E; try done
  | mbind _ (find_end_bin ?a ?b ?c ?m) = _ => destruct (find_end_bin a b c m) as [[va' mem2]| |]; cbn [mbind outcome_bind] in E; try done
  end; injection E as <- <-; cbn [d_ibs d_reset].
  - destruct (type7_opcode header =? CP_INDIRECT_BUFFER_CHAIN) eqn:Hop; [left|right; by constructor].
    eexists. split_and!; [done..|]. unfold is_indirect_buffer, is_packet in *. rewrite Hop in *.
    by destruct (header_type header =? 7).
  - right. destruct (_ =? _); by repeat constructor.
  - right. apply draw_state_ibs_called.
  - right. apply concat_called. intros x. by repeat constructor.
  - right. apply concat_called. intros x. by repeat constructor.
  - right. constructor.
Qed.

Lemma nonempty_called qs : Forall called qs -> Forall called (nonempty_ibs qs).
Proof. intros Hq. apply Forall_forall. intros q [_ Hin]%list_elem_of_filter. by apply (Forall_forall called qs). Qed.

(** ** The simulation

    With [n] and more fuel to spare, the emulation of an IB answers [r]; if it
    does not stop, it goes on in the level above. *)
Definition sim_code (n : nat) (submit ix : Z) (level : nat) (k : code) (c : C) (mem : M)
    (r : outcome (bool * C * M)) : Prop :=
  exists j, forall parents p queue rest fuel,
    (n <= fuel)%nat -> S (length parents) = level -> length queue = code_used k ->
    (length queue <= kMaxPendingIbs)%nat -> (length rest + level = 4)%nat ->
    let s := (at_level ix submit (parents ++ [p]) (ib_of k queue) rest, c, mem) in
    match r with
    | Done (true, c', mem') => exists rest', length rest' = S (length rest) /\
        go (j + fuel) s = (AdvanceToQueuedIB ;; go fuel) (at_level ix submit parents p rest', c', mem')
    | Done (false, c', mem') => exists e, go (j + fuel) s = Done (None, (e, c', mem'))
    | OutOfBounds => go (j + fuel) s = OutOfBounds
    | OutOfFuel => True
    end.

(** The emulation of the entries [qs] of a queue; it goes on in the same level. *)
Definition sim_ibs (n : nat) (submit ix : Z) (level position : nat) (qs : list QueuedIb) (c : C) (mem : M)
    (r : outcome (bool * C * M)) : Prop :=
  exists j, forall parents ib rest fuel,
    (n <= fuel)%nat -> length parents = level -> (length rest + level = 4)%nat ->
    drop position (m_ib_queue ib) = qs -> m_ib_queue_index ib = position -> (position <= length (m_ib_queue ib))%nat ->
    let s := (at_level ix submit parents ib rest, c, mem) in
    match r with
    | Done (true, c', mem') => exists rest' ix', length rest' = length rest /\ (Forall called qs -> ix' = ix) /\
        (AdvanceToQueuedIB ;; go (j + fuel)) s
        = go fuel (at_level ix' submit parents (set_queue (m_ib_queue ib) (length (m_ib_queue ib)) ib) rest', c', mem')
    | Done (false, c', mem') => exists e, (AdvanceToQueuedIB ;; go (j + fuel)) s = Done (None, (e, c', mem'))
    | OutOfBounds => (AdvanceToQueuedIB ;; go (j + fuel)) s = OutOfBounds
    | OutOfFuel => True
    end.

(** An answer that the operation [k] follows. *)
Lemma answered_bind {B} (e : EmulateState) mem (r : outcome (bool * C)) (k : unit -> Emu C M B)
    (m : Emu C M unit) s :
  m s = answered e mem r ->
  (m ≫= k) s = '(ok, c) ← r; if ok : bool then k tt (e, c, mem) else Done (None, (e, c, mem)).
Proof. unfold mbind at 1, Emu_bind at 1. intros ->. unfold answered. by destruct r as [[[] c]| |]. Qed.

Lemma start_call submit ix parents ib r rest position q c mem (g : Emu C M unit) :
  m_ib_queue ib !! position = Some q -> m_ib_queue_index ib = position -> q_type q <> kChain ->
  (AdvanceToQueuedIB ;; g) (at_level ix submit parents ib (r :: rest), c, mem)
  = '(ok, c) ← OnIbStart submit (start_index q position ix)
      (code_start (S (length parents)) (code_of submit mem (q_type q) 0 q)) (q_type q) c;
    if ok : bool
    then g (at_level (start_index q position ix) submit (parents ++ [next_queued ib])
              (ib_of (code_of submit mem (q_type q) 0 q) []) rest, c, mem)
    else Done (None, (at_level (start_index q position ix) submit (parents ++ [next_queued ib])
              (ib_of (code_of submit mem (q_type q) 0 q) []) rest, c, mem)).
Proof.
  intros Hq <- Ht. apply (answered_bind _ _ _ (fun _ => g)).
  rewrite (AdvanceToQueuedIB_call _ _ _ _ _ _ q) by done. rewrite start_cur_ib_at.
  by rewrite length_app, Nat.add_1_r.
Qed.

Lemma sim_ibs_all n submit ix level position qs c mem :
  (forall ix k c mem, code_used k = 0%nat -> (S level < 5)%nat ->
     sim_code n submit ix (S level) k c mem (run_code n submit ix (S level) k c mem)) ->
  Forall (fun q => q_type q <> kChain) qs ->
  sim_ibs n submit ix level position qs c mem (run_ibs (run_code n submit) submit ix level position qs c mem).
Proof.
  intros Hcode. revert ix position c mem. induction qs as [|q qs IH]; intros ix position c mem Hqs; cbn [run_ibs].
  { exists 0%nat. intros parents ib rest fuel Hn Hl Hr Hd Hi Hp s. exists rest, ix. split; [done|]. split; [done|].
    assert (length (m_ib_queue ib) = position) as Hlen by (apply (f_equal length) in Hd; rewrite length_drop in Hd; cbn in Hd; lia).
    unfold s. unfold mbind at 1, Emu_bind at 1. rewrite AdvanceToQueuedIB_none by (apply lookup_ge_None_2; lia).
    rewrite Hlen, <- Hi. by destruct ib. }
  inversion Hqs as [|? ? Hq Hqs']; subst.
  assert (forall ib, drop position (m_ib_queue ib) = q :: qs -> m_ib_queue ib !! position = Some q /\
    drop (S position) (m_ib_queue ib) = qs /\ (S position <= length (m_ib_queue ib))%nat) as Hdrop.
  { intros ib Hd. assert (m_ib_queue ib !! position = Some q) as Hl
      by (rewrite <- (Nat.add_0_r position), <- lookup_drop, Hd; done).
    split; [done|]. split; [|apply lookup_lt_Some in Hl; lia].
    by rewrite <- Nat.add_1_r, <- drop_drop, Hd. }
  destruct (Nat.ltb_spec (S level) kTotalIbLevels) as [Hlt|Hge].
  2: { exists 0%nat. intros parents ib rest fuel Hn Hl Hr Hd Hi Hp s. destruct rest; [|unfold kTotalIbLevels in *; cbn in *; lia].
       destruct (Hdrop ib Hd) as [Hl' _]. unfold s, mbind, Emu_bind. rewrite (AdvanceToQueuedIB_deep _ _ _ _ q); [done| |done].
       by rewrite Hi. }
  set (ix1 := start_index q position ix). set (k := code_of submit mem (q_type q) 0 q).
  assert (forall parents ib rest, length parents = level -> (length rest + level = 4)%nat ->
    drop position (m_ib_queue ib) = q :: qs -> m_ib_queue_index ib = position ->
    exists rest', length rest' = pred (length rest) /\ (0 < length rest)%nat /\ forall g : Emu C M unit,
    (AdvanceToQueuedIB ;; g) (at_level ix submit parents ib rest, c, mem)
    = '(ok, c) ← OnIbStart submit ix1 (code_start (S level) k) (q_type q) c;
      if ok : bool then g (at_level ix1 submit (parents ++ [next_queued ib]) (ib_of k []) rest', c, mem)
      else Done (None, (at_level ix1 submit (parents ++ [next_queued ib]) (ib_of k []) rest', c, mem))) as Hstart.
  { intros parents ib rest Hl Hr Hd Hi. destruct rest as [|r rest]; [unfold kTotalIbLevels in *; cbn in *; lia|].
    exists rest. split; [done|]. split; [cbn; lia|]. intros g. subst level.
    destruct (Hdrop ib Hd) as [Hq' _]. by apply start_call. }
  unfold with_mem. destruct (OnIbStart submit ix1 (code_start (S level) k) (q_type q) c) as [[ok c1]| |] eqn:Es;
    [|exists 0%nat|by exists 0%nat].
  2: { intros parents ib rest fuel _ Hl Hr Hd Hi _ s. destruct (Hstart parents ib rest) as (? & _ & _ & E); [done..|].
       unfold s. by rewrite E. }
  destruct ok.
  2: { exists 0%nat. intros parents ib rest fuel _ Hl Hr Hd Hi _ s.
       destruct (Hstart parents ib rest) as (? & _ & _ & E); [done..|]. unfold s. rewrite E. by eexists. }
  unfold and_then at 1. cbn [mbind outcome_bind].
  assert (forall parents ib rest, length parents = level -> (length rest + level = 4)%nat ->
    drop position (m_ib_queue ib) = q :: qs -> m_ib_queue_index ib = position ->
    exists rest', length rest' = pred (length rest) /\ (0 < length rest)%nat /\ forall g : Emu C M unit,
    (AdvanceToQueuedIB ;; g) (at_level ix submit parents ib rest, c, mem)
    = g (at_level ix1 submit (parents ++ [next_queued ib]) (ib_of k []) rest', c1, mem)) as Hstart'.
  { intros parents ib rest Hl Hr Hd Hi. destruct (Hstart parents ib rest) as (rest' & Hr' & Hp & E); [done..|].
    exists rest'. split; [done|]. split; [done|]. intros g. by rewrite E. }
  clear Hstart Es.
  destruct (Hcode ix1 k c1 mem) as [j1 Hj1]; [done|done|].
  unfold and_then at 1. destruct (run_code n submit ix1 (S level) k c1 mem) as [[[ok c2] mem2]| |];
    [|exists j1|by exists 0%nat].
  2: { intros parents ib rest fuel Hn Hl Hr Hd Hi _ s.
       destruct (Hstart' parents ib rest) as (rest' & Hr' & Hp & E); [done..|]. unfold s. rewrite E.
       apply Hj1; [done|lia|done|cbn; unfold kMaxPendingIbs; lia|lia]. }
  destruct ok.
  2: { exists j1. intros parents ib rest fuel Hn Hl Hr Hd Hi _ s.
       destruct (Hstart' parents ib rest) as (rest' & Hr' & Hp & E); [done..|]. unfold s. rewrite E.
       apply Hj1; [done|lia|done|cbn; unfold kMaxPendingIbs; lia|lia]. }
  unfold and_then. cbn [mbind outcome_bind].
  destruct (IH ix1 (S position) c2 mem2 Hqs') as [j2 Hj2]. exists (j1 + j2)%nat.
  intros parents ib rest fuel Hn Hl Hr Hd Hi Hpos s. unfold s. clear s.
  destruct (Hstart' parents ib rest) as (rest' & Hr' & Hp & E0); [done..|]. rewrite E0. cbv zeta in Hj1.
  destruct (Hj1 parents (next_queued ib) [] rest' (j2 + fuel)%nat) as (rest2 & Hr2 & E);
    [lia|lia|done|cbn; unfold kMaxPendingIbs; lia|lia|].
  rewrite Nat.add_assoc in E. rewrite E. clear E. destruct (Hdrop ib Hd) as (_ & Hd' & Hlen).
  specialize (Hj2 parents (next_queued ib) rest2 fuel Hn Hl ltac:(lia) Hd' ltac:(cbn; lia) Hlen). cbv zeta in Hj2.
  destruct (run_ibs _ submit ix1 level (S position) qs c2 mem2) as [[[[] c3] mem3]| |]; [|done..].
  destruct Hj2 as (rest3 & ix3 & Hr3 & Hix3 & E). exists rest3, ix3. split; [lia|]. split; [|exact E].
  intros Hall. inversion Hall as [|? ? [_ Hnorm] Hall']; subst. rewrite Hix3 by done.
  unfold ix1, start_index. by rewrite decide_False.
Qed.

(** *** One packet *)

Lemma chain_of_Some qs q : chain_of qs = Some q -> qs = [q] /\ q_type q = kChain.
Proof. unfold chain_of. destruct qs as [|q' [|? ?]]; try done. destruct (decide _); [|done]. by intros [= ->]. Qed.

Lemma decoded_chain fuel submit va header mem d mem' q :
  decode fuel submit va header mem = Done (d, mem') -> chain_of (nonempty_ibs (d_ibs d)) = Some q ->
  nonempty_ibs (d_ibs d) = [q] /\ q_type q = kChain /\ d_reset d = true /\
  is_packet header CP_INDIRECT_BUFFER_CHAIN = true.
Proof.
  intros Ed [Hq Ht]%chain_of_Some. split; [done|]. split; [done|].
  destruct (decode_ibs _ _ _ _ _ _ _ Ed) as [(q' & _ & _ & Hr & Hp)|Hc]; [done|].
  apply nonempty_called in Hc. rewrite Hq in Hc. inversion Hc as [|? ? [Hne _] _]; subst. done.
Qed.

Lemma decoded_called fuel submit va header mem d mem' :
  decode fuel submit va header mem = Done (d, mem') -> chain_of (nonempty_ibs (d_ibs d)) = None ->
  Forall called (nonempty_ibs (d_ibs d)).
Proof.
  intros Ed Hc. destruct (decode_ibs _ _ _ _ _ _ _ Ed) as [(q & Hq & Ht & _)|Hall]; [|by apply nonempty_called].
  revert Hc. rewrite Hq. unfold nonempty_ibs. rewrite filter_cons, filter_nil.
  destruct (decide _); [|constructor]. cbn. by rewrite decide_True.
Qed.

(** The IB after a packet whose IBs are queued. *)
Definition queued_ib (d : decoded) (k : code) (queue : list QueuedIb) : IbStack :=
  set_cur_va (d_next d) (enqueue (d_ibs d) (kept (d_reset d) (ib_of k queue))).

Lemma packet_tail_eq n fuel submit ix parents rest k queue header c mem d mem' :
  (n <= fuel)%nat -> (length queue <= kMaxPendingIbs)%nat -> length queue = code_used k ->
  decode n submit (code_va k) header mem = Done (d, mem') ->
  let used := if d_reset d then 0%nat else code_used k in
  let s := (at_level ix submit parents (ib_of k queue) rest, c, mem) in
  if (kMaxPendingIbs <? used + length (nonempty_ibs (d_ibs d)))%nat
  then exists e, packet_tail fuel header s = Done (None, (e, c, mem'))
  else packet_tail fuel header s
    = (AdvanceToQueuedIB ;; go fuel) (at_level ix submit parents (queued_ib d k queue) rest, c, mem').
Proof.
  intros Hn Hlen Hused Ed used s. assert (drained (ib_of k queue)) as Hdr by (by split).
  pose proof (advance_packet_refines fuel header ix submit parents (ib_of k queue) rest c mem Hdr) as Hr.
  cbn [m_cur_va ib_of] in Hr. rewrite (decode_mono n fuel submit _ _ _ Hn), Ed in Hr by (rewrite Ed; discriminate).
  unfold refines_packet, continues, fits in Hr.
  replace (length (m_ib_queue (kept (d_reset d) (ib_of k queue)))) with used in Hr
    by (unfold used; by destruct (d_reset d)).
  rewrite Nat.ltb_antisym. unfold packet_tail, s, mbind, Emu_bind.
  destruct (_ <=? _)%nat; cbn [negb].
  - by rewrite Hr.
  - destruct Hr as (e & ->). by exists e.
Qed.

Lemma packet_tail_out n fuel submit ix parents rest k queue header c mem :
  (n <= fuel)%nat -> (length queue <= kMaxPendingIbs)%nat ->
  decode n submit (code_va k) header mem = OutOfBounds ->
  packet_tail fuel header (at_level ix submit parents (ib_of k queue) rest, c, mem) = OutOfBounds.
Proof.
  intros Hn Hlen Ed. assert (drained (ib_of k queue)) as Hdr by (by split).
  pose proof (advance_packet_refines fuel header ix submit parents (ib_of k queue) rest c mem Hdr) as Hr.
  cbn [m_cur_va ib_of] in Hr. rewrite (decode_mono n fuel submit _ _ _ Hn), Ed in Hr by (rewrite Ed; discriminate).
  cbn [refines_packet] in Hr. unfold packet_tail, mbind, Emu_bind. by rewrite Hr.
Qed.

(** A chain goes on at the same level. *)
Lemma start_chain submit ix parents rest k queue d q c mem (g : Emu C M unit) :
  nonempty_ibs (d_ibs d) = [q] -> q_type q = kChain -> d_reset d = true ->
  let k' := code_of submit mem (code_type k) 1 q in
  (AdvanceToQueuedIB ;; g) (at_level ix submit parents (queued_ib d k queue) rest, c, mem)
  = if d_next d =? code_end k then
      '(ok, c) ← OnIbStart submit ix (code_start (length parents) k') (code_type k) c;
      if ok : bool then g (at_level ix submit parents (ib_of k' [q]) rest, c, mem)
      else Done (None, (at_level ix submit parents (ib_of k' [q]) rest, c, mem))
    else Done (None, (at_level ix submit parents (queued_ib d k queue) rest, c, mem)).
Proof.
  intros Hq Ht Hr k'.
  assert (queued_ib d k queue = set_cur_va (d_next d) (set_queue [q] 0 (ib_of k queue))) as ->
    by (unfold queued_ib, enqueue; by rewrite Hr, Hq).
  set (ib := set_cur_va _ _). pose proof (AdvanceToQueuedIB_chain ix submit parents ib rest q q c mem) as E.
  change (m_cur_va ib) with (d_next d) in E. change (ib_end ib) with (code_end k) in E.
  specialize (E eq_refl Ht eq_refl). destruct (d_next d =? code_end k).
  - rewrite start_cur_ib_at in E. by apply (answered_bind _ _ _ (fun _ => g)).
  - unfold mbind, Emu_bind. by rewrite E.
Qed.

(** What [sim_code] says, for the rest of a packet. *)
Definition sim_tail (n : nat) (submit ix : Z) (level : nat) (k : code) (header : Z) (c : C) (mem : M)
    (r : outcome (bool * C * M)) : Prop :=
  exists j, forall parents p queue rest fuel,
    (n <= fuel)%nat -> S (length parents) = level -> length queue = code_used k ->
    (length queue <= kMaxPendingIbs)%nat -> (length rest + level = 4)%nat ->
    let s := (at_level ix submit (parents ++ [p]) (ib_of k queue) rest, c, mem) in
    match r with
    | Done (true, c', mem') => exists rest', length rest' = S (length rest) /\
        packet_tail (j + fuel) header s = (AdvanceToQueuedIB ;; go fuel) (at_level ix submit parents p rest', c', mem')
    | Done (false, c', mem') => exists e, packet_tail (j + fuel) header s = Done (None, (e, c', mem'))
    | OutOfBounds => packet_tail (j + fuel) header s = OutOfBounds
    | OutOfFuel => True
    end.

(** The traversal after a packet that calls IBs. *)
Lemma sim_calls n submit ix level k header c mem d mem' :
  (forall ix level k c mem, sim_code n submit ix level k c mem (run_code n submit ix level k c mem)) ->
  decode n submit (code_va k) header mem = Done (d, mem') ->
  chain_of (nonempty_ibs (d_ibs d)) = None ->
  let used := if d_reset d then 0%nat else code_used k in
  let qs := nonempty_ibs (d_ibs d) in
  (used + length qs <= kMaxPendingIbs)%nat ->
  sim_tail n submit ix level k header c mem
    (and_then (run_ibs (run_code n submit) submit ix level used qs c mem')
      (run_code n submit ix level (at_va (d_next d) (used + length qs) k))).
Proof.
  intros IH Ed Hchain used qs Hfit.
  pose proof (decoded_called _ _ _ _ _ _ _ Ed Hchain) as Hcalled. fold qs in Hcalled.
  assert (Forall (fun q => q_type q <> kChain) qs) as Hne by (eapply Forall_impl; [exact Hcalled|by intros q [? _]]).
  destruct (sim_ibs_all n submit ix level used qs c mem' ltac:(intros; apply IH) Hne) as [j1 Hj1].
  assert (forall parents p queue rest fuel, (n <= fuel)%nat -> S (length parents) = level -> length queue = code_used k ->
    (length queue <= kMaxPendingIbs)%nat -> (length rest + level = 4)%nat ->
    packet_tail fuel header (at_level ix submit (parents ++ [p]) (ib_of k queue) rest, c, mem)
    = (AdvanceToQueuedIB ;; go fuel) (at_level ix submit (parents ++ [p]) (queued_ib d k queue) rest, c, mem') /\
    drop used (m_ib_queue (queued_ib d k queue)) = qs /\ m_ib_queue_index (queued_ib d k queue) = used /\
    length (m_ib_queue (queued_ib d k queue)) = (used + length qs)%nat) as Hstart.
  { intros parents p queue rest fuel Hn Hp Hused Hlen Hr.
    pose proof (packet_tail_eq n fuel submit ix (parents ++ [p]) rest k queue header c mem d mem' Hn Hlen Hused Ed) as E.
    cbv zeta in E. fold used qs in E. rewrite (proj2 (Nat.ltb_ge _ _)) in E by done. split; [exact E|].
    unfold queued_ib, enqueue. fold qs. cbn [set_cur_va set_queue m_ib_queue m_ib_queue_index].
    unfold used. destruct (d_reset d); cbn [kept set_queue m_ib_queue m_ib_queue_index ib_of app length].
    - done.
    - by rewrite <- Hused, drop_app_length, length_app. }
  unfold and_then. destruct (run_ibs _ submit ix level used qs c mem') as [[[ok c1] mem1]| |];
    cbn [mbind outcome_bind]; [|exists j1|by exists 0%nat].
  2: { intros parents p queue rest fuel Hn Hp Hused Hlen Hr s. unfold s. clear s.
       destruct (Hstart parents p queue rest (j1 + fuel)%nat) as (-> & Hd & Hi & Hl); [lia|done..|].
       apply Hj1; [done|rewrite length_app; cbn; lia|done|done|done|lia]. }
  destruct ok.
  2: { exists j1. intros parents p queue rest fuel Hn Hp Hused Hlen Hr s. unfold s. clear s.
       destruct (Hstart parents p queue rest (j1 + fuel)%nat) as (-> & Hd & Hi & Hl); [lia|done..|].
       apply Hj1; [done|rewrite length_app; cbn; lia|done|done|done|lia]. }
  set (k' := at_va (d_next d) (used + length qs) k). destruct (IH ix level k' c1 mem1) as [j2 Hj2].
  exists (j1 + j2)%nat. intros parents p queue rest fuel Hn Hp Hused Hlen Hr s. unfold s. clear s.
  destruct (Hstart parents p queue rest (j1 + (j2 + fuel))%nat) as (E & Hd & Hi & Hl); [lia|done..|].
  rewrite <- Nat.add_assoc, E. clear E.
  destruct (Hj1 (parents ++ [p]) (queued_ib d k queue) rest (j2 + fuel)%nat) as (rest' & ix' & Hr' & Hix & E);
    [lia|rewrite length_app; cbn; lia|done|done|done|lia|].
  rewrite E, (Hix Hcalled). clear E.
  replace (set_queue _ _ (queued_ib d k queue)) with (ib_of k' (m_ib_queue (queued_ib d k queue)))
    by (unfold ib_of, queued_ib, set_queue; by destruct (d_reset d)).
  specialize (Hj2 parents p (m_ib_queue (queued_ib d k queue)) rest' fuel Hn Hp Hl ltac:(lia) ltac:(lia)).
  cbv zeta in Hj2. destruct (run_code n submit ix level k' c1 mem1) as [[[[] c2] mem2]| |]; [|exact Hj2..].
  destruct Hj2 as (rest2 & Hr2 & E). exists rest2. split; [lia|exact E].
Qed.

Lemma sim_chain n submit ix level k header c mem d mem' q :
  (forall ix level k c mem, sim_code n submit ix level k c mem (run_code n submit ix level k c mem)) ->
  decode n submit (code_va k) header mem = Done (d, mem') ->
  chain_of (nonempty_ibs (d_ibs d)) = Some q ->
  let k' := code_of submit mem' (code_type k) 1 q in
  sim_tail n submit ix level k header c mem
    (if d_next d =? code_end k then
       and_then (with_mem (OnIbStart submit ix (code_start level k') (code_type k)) c mem') (run_code n submit ix level k')
     else Done (false, c, mem')).
Proof.
  intros IH Ed Hchain k'. destruct (decoded_chain _ _ _ _ _ _ _ _ Ed Hchain) as (Hq & Ht & Hreset & _).
  assert (forall parents p queue rest fuel, (n <= fuel)%nat -> S (length parents) = level -> length queue = code_used k ->
    (length queue <= kMaxPendingIbs)%nat ->
    packet_tail fuel header (at_level ix submit (parents ++ [p]) (ib_of k queue) rest, c, mem)
    = (AdvanceToQueuedIB ;; go fuel) (at_level ix submit (parents ++ [p]) (queued_ib d k queue) rest, c, mem')) as Hstart.
  { intros parents p queue rest fuel Hn Hp Hused Hlen.
    pose proof (packet_tail_eq n fuel submit ix (parents ++ [p]) rest k queue header c mem d mem' Hn Hlen Hused Ed) as E.
    cbv zeta in E. rewrite Hreset, Hq in E. exact E. }
  assert (forall fuel parents p queue rest, S (length parents) = level ->
    (AdvanceToQueuedIB ;; go fuel) (at_level ix submit (parents ++ [p]) (queued_ib d k queue) rest, c, mem')
    = if d_next d =? code_end k then
        '(ok, c) ← OnIbStart submit ix (code_start level k') (code_type k) c;
        if ok : bool then go fuel (at_level ix submit (parents ++ [p]) (ib_of k' [q]) rest, c, mem')
        else Done (None, (at_level ix submit (parents ++ [p]) (ib_of k' [q]) rest, c, mem'))
      else Done (None, (at_level ix submit (parents ++ [p]) (queued_ib d k queue) rest, c, mem'))) as Hgo.
  { intros fuel parents p queue rest Hp. rewrite (start_chain _ _ _ _ _ _ _ q) by done.
    by rewrite length_app, Nat.add_1_r, Hp. }
  destruct (d_next d =? code_end k).
  2: { exists 0%nat. intros parents p queue rest fuel Hn Hp Hused Hlen Hr s. unfold s.
       rewrite Hstart, Hgo by done. by eexists. }
  unfold with_mem, and_then. destruct (OnIbStart _ _ _ _ c) as [[ok c1]| |]; cbn [mbind outcome_bind] in Hgo |- *;
    [|exists 0%nat|by exists 0%nat].
  2: { intros parents p queue rest fuel Hn Hp Hused Hlen Hr s. unfold s. by rewrite Hstart, Hgo. }
  destruct ok.
  2: { exists 0%nat. intros parents p queue rest fuel Hn Hp Hused Hlen Hr s. unfold s.
       rewrite Hstart, Hgo by done. by eexists. }
  destruct (IH ix level k' c1 mem') as [j Hj]. exists j. intros parents p queue rest fuel Hn Hp Hused Hlen Hr s.
  unfold s. rewrite Hstart, Hgo by (done || lia). apply Hj; [done|done|done|cbn; unfold kMaxPendingIbs; lia|done].
Qed.

Lemma sim_after_packet n submit ix level k header c mem :
  (forall ix level k c mem, sim_code n submit ix level k c mem (run_code n submit ix level k c mem)) ->
  sim_tail n submit ix level k header c mem
    (after_packet (run_code n submit) n submit ix level k header c mem).
Proof.
  intros IH. unfold after_packet.
  destruct (decode n submit (code_va k) header mem) as [[d mem']| |] eqn:Ed; cbn [mbind outcome_bind];
    [|exists 0%nat|by exists 0%nat].
  2: { intros parents p queue rest fuel Hn Hp Hused Hlen Hr s. by apply (packet_tail_out n). }
  cbv zeta. destruct (Nat.ltb_spec kMaxPendingIbs ((if d_reset d then 0 else code_used k) + length (nonempty_ibs (d_ibs d)))%nat)
    as [Hlt|Hge].
  { exists 0%nat. intros parents p queue rest fuel Hn Hp Hused Hlen Hr s.
    pose proof (packet_tail_eq n fuel submit ix (parents ++ [p]) rest k queue header c mem d mem' Hn Hlen Hused Ed) as E.
    cbv zeta in E. rewrite (proj2 (Nat.ltb_lt _ _)) in E by done. exact E. }
  destruct (chain_of (nonempty_ibs (d_ibs d))) as [q|] eqn:Hchain.
  - by apply (sim_chain n submit ix level k header c mem d mem' q).
  - by apply (sim_calls n submit ix level k header c mem d mem').
Qed.

Lemma code_ended_ib k queue :
  code_ended k = negb (m_cur_va (ib_of k queue) =? UINT64_MAX) && EndOfCurIb (ib_of k queue).
Proof. done. Qed.

Lemma sim_code_all n submit ix level k c mem :
  sim_code n submit ix level k c mem (run_code n submit ix level k c mem).
Proof.
  revert ix level k c mem. induction n as [|n IH]; intros ix level k c mem; [by exists 0%nat|]. cbn [run_code].
  destruct (code_ended k) eqn:Hend.
  { exists 0%nat. intros parents p queue rest fuel Hn Hp Hused Hlen Hr s. unfold s. clear s.
    rewrite (code_ended_ib k queue) in Hend. apply andb_true_iff in Hend as [Hva Hend].
    apply negb_true_iff, Z.eqb_neq in Hva. cbn [Nat.add]. rewrite go_end by done.
    rewrite (answered_bind _ _ _ _ _ _ (AdvanceOutOfIB_at _ _ _ _ _ _ _ _)).
    change (end_info (length parents) (ib_of k queue)) with (code_finish (S (length parents)) k). rewrite Hp.
    unfold with_mem. destruct (OnIbEnd _ _ _ c) as [[[] c1]| |]; cbn [mbind outcome_bind]; [|by eexists|done|done].
    exists (ib_of k queue :: rest). by split. }
  assert (forall fuel parents p queue rest, length queue = code_used k ->
    go (S fuel) (at_level ix submit (parents ++ [p]) (ib_of k queue) rest, c, mem)
    = let '(header, mem) := retrieve_dword submit (code_va k) mem in
      if negb (header_ok header) then Done (None, (at_level ix submit (parents ++ [p]) (ib_of k queue) rest, c, mem))
      else (callback (OnPacket submit ix (code_va k) header) ;; packet_tail fuel header)
             (at_level ix submit (parents ++ [p]) (ib_of k queue) rest, c, mem)) as Hgo.
  { intros fuel parents p queue rest _. rewrite (code_ended_ib k queue) in Hend. by apply go_run. }
  clear Hend. destruct (retrieve_dword submit (code_va k) mem) as [header mem1].
  destruct (negb (header_ok header)).
  { exists 1%nat. intros parents p queue rest fuel Hn Hp Hused Hlen Hr s. unfold s. cbn [Nat.add].
    rewrite Hgo by done. by eexists. }
  assert (forall fuel e, (callback (OnPacket submit ix (code_va k) header) ;; packet_tail fuel header) (e, c, mem1)
    = '(ok, c, mem) ← OnPacket submit ix (code_va k) header c mem1;
      if ok : bool then packet_tail fuel header (e, c, mem) else Done (None, (e, c, mem))) as Hcb.
  { intros fuel e. unfold mbind at 1, Emu_bind at 1, callback. by destruct (OnPacket _ _ _ _ _ _) as [[[[] c1] mem2]| |]. }
  unfold and_then. destruct (OnPacket submit ix (code_va k) header c mem1) as [[[ok c1] mem2]| |];
    cbn [mbind outcome_bind]; [|exists 1%nat|by exists 0%nat].
  2: { intros parents p queue rest fuel Hn Hp Hused Hlen Hr s. unfold s. cbn [Nat.add].
       rewrite Hgo by done. rewrite Hcb. done. }
  destruct ok.
  2: { exists 1%nat. intros parents p queue rest fuel Hn Hp Hused Hlen Hr s. unfold s. cbn [Nat.add].
       rewrite Hgo, Hcb by done. by eexists. }
  destruct (sim_after_packet n submit ix level k header c1 mem2 IH) as [j Hj]. exists (S j).
  intros parents p queue rest fuel Hn Hp Hused Hlen Hr s. unfold s. cbn [Nat.add]. rewrite Hgo, Hcb by done.
  apply Hj; [lia|done..].
Qed.

(** *** Submits *)

Lemma queue_ibs_all ibs (s : EmulateState * C * M) : queue_ibs ibs s = queue_all (submit_ibs ibs) s.
Proof.
  revert s. induction ibs as [|i ibs IH]; intros s; [done|]. cbn [queue_ibs submit_ibs fmap list_fmap queue_all].
  apply bind_ext. intros _ s'. apply IH.
Qed.

Lemma execute_go fuel ibs (s : EmulateState * C * M) : execute fuel ibs s = (queue_ibs ibs ;; AdvanceToQueuedIB ;; go fuel) s.
Proof. done. Qed.

Lemma ExecuteSubmit_run n submit ibs c mem :
  exists j, forall fuel, (n <= fuel)%nat ->
    run_submit n submit ibs c mem <> OutOfFuel ->
    ExecuteSubmit (j + fuel) submit ibs c mem = run_submit n submit ibs c mem.
Proof.
  unfold run_submit. set (qs := nonempty_ibs (submit_ibs ibs)).
  set (primary := set_cur_va UINT64_MAX zero_IbStack).
  assert (Forall (fun q => q_type q <> kChain) qs) as Hqs.
  { apply Forall_forall. intros q [_ Hin]%list_elem_of_filter. unfold submit_ibs in Hin.
    by apply list_elem_of_fmap in Hin as (i & -> & _). }
  change (initial_state submit) with (at_level 0 submit [] primary (replicate 4 zero_IbStack)) in *.
  pose proof (queue_all_at (submit_ibs ibs) 0 submit [] primary (replicate 4 zero_IbStack) c mem
    ltac:(cbn; unfold kMaxPendingIbs; lia)) as Hq.
  unfold fits in Hq. cbn [primary set_cur_va zero_IbStack m_ib_queue length] in Hq. fold qs in Hq.
  rewrite Nat.ltb_antisym. destruct Hq as [[E Hfit]|[(e & E) Hfit]]; cbn [Nat.add] in Hfit; rewrite Hfit; cbn [negb].
  2: { exists 0%nat. intros fuel _ _. unfold ExecuteSubmit. rewrite execute_go. unfold mbind at 1, Emu_bind at 1.
       rewrite queue_ibs_all. change (initial_state submit) with (at_level 0 submit [] primary (replicate 4 zero_IbStack)).
       by rewrite E. }
  destruct (sim_ibs_all n submit 0 0 0 qs c mem ltac:(intros; apply sim_code_all) Hqs) as [j Hj]. exists j.
  intros fuel Hn Hne.
  specialize (Hj [] (enqueue (submit_ibs ibs) primary) (replicate 4 zero_IbStack) fuel Hn eq_refl eq_refl eq_refl eq_refl
    ltac:(cbn; lia)). cbv zeta in Hj.
  assert (execute (j + fuel) ibs (initial_state submit, c, mem)
    = (AdvanceToQueuedIB ;; go (j + fuel)) (at_level 0 submit [] (enqueue (submit_ibs ibs) primary)
        (replicate 4 zero_IbStack), c, mem)) as Ex.
  { rewrite execute_go. unfold mbind at 1, Emu_bind at 1. rewrite queue_ibs_all.
    change (initial_state submit) with (at_level 0 submit [] primary (replicate 4 zero_IbStack)). by rewrite E. }
  unfold ExecuteSubmit. rewrite Ex. destruct (run_ibs _ submit 0 0 0 qs c mem) as [[[[] c1] mem1]| |]; [| | |done].
  - destruct Hj as (rest' & ix' & _ & _ & ->). by rewrite go_primary.
  - destruct Hj as (e & ->). done.
  - by rewrite Hj.
Qed.

(** C7: the emulator refines the recursive traversal. Whatever [run_submit]
    answers for a submit (success, a refusal, leaving an array) and whatever it has
    called the callbacks with on the way, [ExecuteSubmit] answers with enough fuel:
    its stack of five levels, its queues of pending IBs and its loop over ended
    and skipped IBs are an implementation of calls that nest, chains that do not,
    and IBs that begin and end around their packets. *)
Theorem emulation_refines n submit ibs c mem r :
  run_submit n submit ibs c mem = r -> r <> OutOfFuel ->
  exists enough, forall fuel, (enough <= fuel)%nat -> ExecuteSubmit fuel submit ibs c mem = r.
Proof.
  intros <- Hr. destruct (ExecuteSubmit_run n submit ibs c mem) as [j Hj]. exists (j + n)%nat. intros fuel Hle.
  replace fuel with (j + (fuel - j))%nat by lia. apply Hj; [lia|done].
Qed.
End Refine.

(** ** A submit to evaluate

    Callbacks that record what they are called with. *)
Inductive event :=
  | Started (level addr : Z) (type : IbType)
  | Ended (level addr : Z)
  | Packet (addr : Z).

#[global] Instance tracing {M} : EmulateCallbacks (list event) M := {|
  OnIbStart submit ix info type c := Done (true, c ++ [Started (info_ib_level info) (info_va_addr info) type]);
  OnIbEnd submit ix info c := Done (true, c ++ [Ended (info_ib_level info) (info_va_addr info)]);
  OnPacket submit ix va header c mem := Done (true, c ++ [Packet va], mem);
  OnSubmitStart submit info c := c;
  OnSubmitEnd submit info c := c
|}.

(** An IB that calls a second one and then goes on in a third. *)
Definition nop_packet : Z := 2 ^ 29.
Definition test_ibs : MemoryManager :=
  test_memory_of
    [(4096, [make_type7 0x3f 3; 8192; 0; 1; make_type7 0x57 3; 12288; 0; 1]); (8192, [nop_packet]); (12288, [nop_packet])].
Definition test_submit : list IndirectBufferInfo := [mkIbInfo 4096 8 1 7 false].

Definition test_trace : list event :=
  [Started 1 4096 kNormal; Packet 4096; Started 2 8192 kCall; Packet 8192; Ended 1 8192; Packet 4112;
   Started 1 12288 kNormal; Packet 12288; Ended 0 12288].

Lemma test_ibs_ok : mem_good test_ibs.
Proof. apply (test_memory_of_ok 0); [lia|reflexivity]. Qed.

Lemma emulation_refines_witness :
  exists mem' enough, forall fuel, (enough <= fuel)%nat ->
    ExecuteSubmit fuel 0 test_submit [] test_ibs = Done (true, test_trace, mem').
Proof.
  assert (exists mem', run_submit 10 0 test_submit [] test_ibs = Done (true, test_trace, mem')) as [mem' E].
  { eexists. vm_compute. reflexivity. }
  exists mem'. apply (emulation_refines 10 0 test_submit [] test_ibs); [exact E|discriminate].
Defined.
