(* ===== verification/EmulateEnds.v ===== *)
(** * EmulateEnds: the emulation of a well-formed submit ends

    When every packet that the emulation can reach is a packet, goes forward and
    chains do not form a cycle, [ExecuteSubmit] ends: levels bound the calls, the
    size of an IB its packets, and a rank the chains. *)

From S2P Require Import Prelude Wire Memory Pm4 StateTracker Emulate Traversal EmulateSteps EmulateRefine.

#[local] Open Scope Z_scope.

(** ** What is relied on *)

(** Packet structures are neither empty nor larger than a packet can be. *)
Class AdrenoSizes `{AdrenoPm4} := {
  size_SET_MARKER : 0 < Z.of_nat sizeof_SET_MARKER <= 2 ^ 17;
  size_INDIRECT_BUFFER : 0 < Z.of_nat sizeof_INDIRECT_BUFFER <= 2 ^ 17;
  size_START_BIN : 0 < Z.of_nat sizeof_START_BIN <= 2 ^ 17;
  size_FIXED_STRIDE_DRAW_TABLE : 0 < Z.of_nat sizeof_FIXED_STRIDE_DRAW_TABLE <= 2 ^ 17
}.

(** Callbacks end, and do not change what is captured. *)
Class CallbackLaws (C M : Type) `{EmulateCallbacks C M} `{MemoryLaws M} := {
  OnIbStart_ends submit ix info type c : OnIbStart submit ix info type c <> OutOfFuel;
  OnIbEnd_ends submit ix info c : OnIbEnd submit ix info c <> OutOfFuel;
  OnPacket_ends submit ix va header c mem :
    mem_good mem -> 0 <= va -> va + 2 ^ 18 < 2 ^ 64 ->
    match OnPacket submit ix va header c mem with
    | Done (_, _, mem') => same_view mem mem'
    | OutOfBounds => True
    | OutOfFuel => False
    end
}.

Section BaseCallbackLaws.
Context `{AdrenoPm4} `{!AdrenoSizes} {M : Type} `{MemoryLaws M}.

(** The packets of [EmulateCallbacksBase]. *)
Lemma Tracker_OnPacket_ends submit va header t (mem : M) :
  mem_good mem -> 0 <= va -> va + 2 ^ 18 < 2 ^ 64 ->
  match Tracker_OnPacket submit va header t mem with
  | Done (_, _, mem') => same_view mem mem'
  | OutOfBounds => True
  | OutOfFuel => False
  end.
Proof.
  intros Hm Hva Hend.
  pose proof (bits_range 0 7 header ltac:(lia)) as H4. fold (type4_count header) in H4. cbv [in_width] in H4.
  pose proof (bits_range 0 15 header ltac:(lia)) as H7. fold (type7_count header) in H7. cbv [in_width] in H7.
  unfold Tracker_OnPacket.
  assert (exists t1 mem1, (if is_packet header CP_SET_MARKER then OnMarker submit va t mem else Done (t, mem))
    = Done (t1, mem1) /\ same_view mem mem1) as (t1 & mem1 & -> & Hv1).
  { destruct (is_packet header CP_SET_MARKER); [|exists t, mem; split; [done|by apply same_view_refl]].
    unfold OnMarker. pose proof size_SET_MARKER as Hs.
    destruct (retrieve_spec submit va sizeof_SET_MARKER sizeof_SET_MARKER mem) as (mem1 & -> & Hv); [done|done|lia|lia|].
    by eexists _, mem1. }
  cbn [mbind outcome_bind]. assert (mem_good mem1) as Hm1 by (by destruct Hv1).
  assert (forall pairs r, writes pairs t1 mem1 r ->
    match r with Done (_, mem') => same_view mem mem' | OutOfBounds => True | OutOfFuel => False end) as Hw.
  { intros pairs r. unfold writes. destruct (SetRegs pairs t1); [|by intros ->|done].
    intros (mem' & -> & Hv). by eapply same_view_trans. }
  assert (forall r : outcome (EmulateStateTracker * M),
    match r with Done (_, mem') => same_view mem mem' | OutOfBounds => True | OutOfFuel => False end ->
    match ('(t, mem) ← r; Done (true, t, mem)) with
    | Done (_, _, mem') => same_view mem mem' | OutOfBounds => True | OutOfFuel => False end) as Hr
    by (by intros [[t' mem']| |]).
  apply Hr. destruct (is_packet header CP_CONTEXT_REG_BUNCH).
  - eapply Hw, (reg_bunch_writes _ submit va _ 0); try done; lia.
  - destruct (header_type header =? 4); [|done].
    eapply Hw, (type4_loop_writes _ submit va header 0); try done; lia.
Qed.
End BaseCallbackLaws.

(** ** Packets as the capture has them

    [decode] without a memory that changes. *)
Section Packets.
Context `{AdrenoPm4} `{!AdrenoSizes} {M : Type} `{MemoryLaws M}.

Fixpoint end_bin_at (fuel : nat) (submit va : Z) (mem : M) : outcome Z :=
  match fuel with
  | O => OutOfFuel
  | S fuel =>
      if va + 4 <? 2 ^ 64 then
        let header := dword_at submit va mem in
        if is_packet header CP_END_BIN then Done va
        else end_bin_at fuel submit (wrap 64 (va + GetPacketSize header * 4)) mem
      else OutOfBounds
  end.

(** The bytes of a packet of [n] bytes in a structure of [sizeof]. *)
Definition packet_at (sizeof n : nat) (submit va : Z) (mem : M) : outcome (list byte) :=
  if (sizeof <? n)%nat then OutOfBounds
  else Done (bytes_from submit va n mem ++ replicate (sizeof - n) Byte.x00).

Definition decode_at (fuel : nat) (submit va header : Z) (mem : M) : outcome decoded :=
  let next := wrap 64 (va + GetPacketSize header * 4) in
  if is_indirect_buffer header then
    packet ← packet_at sizeof_INDIRECT_BUFFER sizeof_INDIRECT_BUFFER submit va mem;
    let type := if type7_opcode header =? CP_INDIRECT_BUFFER_CHAIN then kChain else kCall in
    Done (mkDecoded next true
      [mkQueued type (INDIRECT_BUFFER_IB_BASE packet) (INDIRECT_BUFFER_IB_SIZE packet) false all_passes])
  else if is_packet header CP_SET_AMBLE then
    packet ← packet_at sizeof_SET_AMBLE (packet_bytes header) submit va mem;
    Done (if SET_AMBLE_DWORDS packet =? 0 then mkDecoded next false []
          else mkDecoded next true
                 [mkQueued kContextSwitchIb (SET_AMBLE_ADDR packet) (SET_AMBLE_DWORDS packet) false all_passes])
  else if is_packet header CP_SET_DRAW_STATE then
    packet ← packet_at sizeof_SET_DRAW_STATE (packet_bytes header) submit va mem;
    Done (mkDecoded next true (draw_state_ibs packet
      (Z.to_nat (SET_DRAW_STATE_HEADER_count packet * 4 / sizeof_ARRAY_ELEMENT)) 0))
  else if is_packet header CP_START_BIN then
    packet ← packet_at sizeof_START_BIN sizeof_START_BIN submit va mem;
    end_va ← end_bin_at fuel submit va mem;
    let common_size := wrap 32 (wrap 64 (end_va - next) / 4) in
    Done (mkDecoded (wrap 64 (next + common_size * 4)) false (bin_ibs packet next common_size))
  else if is_packet header CP_FIXED_STRIDE_DRAW_TABLE then
    packet ← packet_at sizeof_FIXED_STRIDE_DRAW_TABLE sizeof_FIXED_STRIDE_DRAW_TABLE submit va mem;
    Done (mkDecoded next false (draw_table_ibs packet))
  else Done (mkDecoded next false []).

Lemma wrap_nonneg w z : 0 <= w -> 0 <= wrap w z.
Proof. intros Hw. by apply (wrap_range w z Hw). Qed.

Lemma end_bin_at_spec fuel submit va mem mem1 end_va :
  same_view mem mem1 -> 0 <= va -> end_bin_at fuel submit va mem = Done end_va ->
  exists mem', find_end_bin fuel submit va mem1 = Done (end_va, mem') /\ same_view mem mem'.
Proof.
  revert va mem1. induction fuel as [|fuel IH]; intros va mem1 Hv Hva; cbn [end_bin_at find_end_bin]; [done|].
  destruct (Z.ltb_spec (va + 4) (2 ^ 64)) as [Hlt|Hge]; [|done].
  destruct (retrieve_dword_spec submit va mem1) as (mem2 & -> & Hv2); [by destruct Hv|done|done|].
  rewrite (dword_at_view _ _ mem mem1) by done. assert (same_view mem mem2) by (by eapply same_view_trans).
  destruct (is_packet _ CP_END_BIN).
  - intros [= <-]. by exists mem2.
  - apply IH; [done|]. by apply wrap_nonneg.
Qed.

Lemma packet_at_spec sizeof n submit va mem mem1 packet :
  same_view mem mem1 -> 0 <= va -> (0 < n)%nat -> va + Z.of_nat n < 2 ^ 64 ->
  packet_at sizeof n submit va mem = Done packet ->
  exists mem', retrieve sizeof n submit va mem1 = Done (packet, mem') /\ same_view mem mem'.
Proof.
  intros Hv Hva Hn Hend. unfold packet_at. destruct (Nat.ltb_spec sizeof n) as [|Hle]; [done|]. intros [= <-].
  destruct (retrieve_spec submit va sizeof n mem1) as (mem' & -> & Hv'); [by destruct Hv|done|lia|done|].
  exists mem'. rewrite (bytes_from_view _ _ _ mem mem1) by done. split; [done|]. by eapply same_view_trans.
Qed.

Lemma packet_bytes_range header : 0 < Z.of_nat (packet_bytes header) <= 2 ^ 17.
Proof.
  unfold packet_bytes. pose proof (bits_range 0 15 header ltac:(lia)) as H7. fold (type7_count header) in H7.
  cbv [in_width] in H7. lia.
Qed.

Lemma decode_at_spec fuel submit va header mem mem1 d :
  same_view mem mem1 -> 0 <= va -> va + 2 ^ 18 < 2 ^ 64 -> decode_at fuel submit va header mem = Done d ->
  exists mem', decode fuel submit va header mem1 = Done (d, mem') /\ same_view mem mem'.
Proof.
  intros Hv Hva Hend. pose proof size_INDIRECT_BUFFER as HI. pose proof size_START_BIN as HS.
  pose proof size_FIXED_STRIDE_DRAW_TABLE as HT. pose proof (packet_bytes_range header) as HB.
  assert (forall sizeof n (k : list byte -> outcome decoded) (k' : list byte -> M -> outcome (decoded * M)),
    0 < Z.of_nat n <= 2 ^ 17 ->
    (forall packet mem2, same_view mem mem2 -> k packet = Done d ->
       exists mem', k' packet mem2 = Done (d, mem') /\ same_view mem mem') ->
    (packet ← packet_at sizeof n submit va mem; k packet) = Done d ->
    exists mem', ('(packet, mem2) ← retrieve sizeof n submit va mem1; k' packet mem2) = Done (d, mem') /\ same_view mem mem')
    as Hread.
  { intros sizeof n k k' Hn Hk. destruct (packet_at sizeof n submit va mem) as [packet| |] eqn:E; [|done|done].
    destruct (packet_at_spec sizeof n submit va mem mem1 packet) as (mem2 & -> & Hv2); [done|done|lia|lia|done|].
    by apply Hk. }
  unfold decode_at, decode.
  destruct (is_indirect_buffer header); [apply Hread; [lia|]; intros packet mem2 Hv2 [= <-]; by exists mem2|].
  destruct (is_packet header CP_SET_AMBLE); [apply Hread; [lia|]; intros packet mem2 Hv2 [= <-]; by exists mem2|].
  destruct (is_packet header CP_SET_DRAW_STATE); [apply Hread; [lia|]; intros packet mem2 Hv2 [= <-]; by exists mem2|].
  destruct (is_packet header CP_START_BIN).
  { apply Hread; [lia|]. intros packet mem2 Hv2. destruct (end_bin_at fuel submit va mem) as [end_va| |] eqn:E; [|done|done].
    destruct (end_bin_at_spec _ _ _ _ mem2 _ Hv2 Hva E) as (mem3 & -> & Hv3). intros [= <-]. by exists mem3. }
  destruct (is_packet header CP_FIXED_STRIDE_DRAW_TABLE);
    [apply Hread; [lia|]; intros packet mem2 Hv2 [= <-]; by exists mem2|].
  intros [= <-]. by exists mem1.
Qed.
End Packets.

(** ** Well-formed submits *)

Section Ends.
Context `{AdrenoPm4} `{!AdrenoSizes} {C M : Type} `{CallbackLaws C M}.

Definition q_end (q : QueuedIb) : Z := wrap 64 (q_addr q + q_size q * 4).

(** [P r va e]: the emulation can be at [va] in an IB that ends at [e], with at
    most [r] chains to come in it. *)
Definition goes_to (submit : Z) (mem : M) (P : Z -> Z -> Z -> Prop) (r : Z) (q : QueuedIb) : Prop :=
  q_addr q <> UINT64_MAX /\
  (q_skip q = false -> memory_IsValid submit (q_addr q) (q_size q * 4) mem = true ->
   exists r', 0 <= r' <= r /\ P r' (q_addr q) (q_end q)).

(** Every packet that can be reached is readable, goes forward, and leads only to
    such packets. IBs that are skipped need not be captured. *)
Record stream_ok (bound : nat) (R submit : Z) (mem : M) (P : Z -> Z -> Z -> Prop) : Prop := mkStreamOk {
  so_position r va e : P r va e -> 0 <= r <= R /\ 0 <= va /\ va <> UINT64_MAX;
  so_packet r va e : P r va e -> va < e ->
    let header := dword_at submit va mem in
    va + 2 ^ 18 < 2 ^ 64 /\
    (header_ok header = true ->
     exists d, decode_at bound submit va header mem = Done d /\
       match chain_of (nonempty_ibs (d_ibs d)) with
       | Some q => goes_to submit mem P (r - 1) q
       | None => va < d_next d /\ P r (d_next d) e /\ Forall (goes_to submit mem P R) (nonempty_ibs (d_ibs d))
       end)
}.

(** The answer of something that ends. *)
Definition ends (mem : M) (r : outcome (bool * C * M)) : Prop :=
  match r with
  | Done (_, _, mem') => same_view mem mem'
  | OutOfBounds => True
  | OutOfFuel => False
  end.

Lemma and_then_ends mem (r : outcome (bool * C * M)) k :
  ends mem r -> (forall c mem1, same_view mem mem1 -> ends mem (k c mem1)) -> ends mem (and_then r k).
Proof.
  unfold ends at 1, and_then. destruct r as [[[[] c] mem1]| |]; cbn [mbind outcome_bind]; intros Hr Hk; [by apply Hk|done..].
Qed.

Lemma with_mem_ends mem mem1 (f : C -> outcome (bool * C)) c :
  same_view mem mem1 -> f c <> OutOfFuel -> ends mem (with_mem f c mem1).
Proof. intros Hv Hf. unfold with_mem. by destruct (f c) as [[ok c1]| |]. Qed.

(** The distance to the end of everything. *)
Definition distance (R : Z) (level : nat) (r va e : Z) : Z :=
  (4 - Z.of_nat level) * ((R + 1) * 2 ^ 64) + r * 2 ^ 64 + Z.max 0 (e - va).

(** Where the traversal is: in an IB that is skipped, or at a packet. *)
Definition code_good (P : Z -> Z -> Z -> Prop) (r : Z) (k : code) : Prop :=
  (code_skip k = true /\ code_va k <> UINT64_MAX) \/ P r (code_va k) (code_end k).

Lemma code_end_range k : 0 <= code_end k < 2 ^ 64.
Proof. apply (wrap_range 64). lia. Qed.

Lemma goes_to_code submit mem mem1 (P : Z -> Z -> Z -> Prop) r type used q :
  same_view mem mem1 -> 0 <= r -> goes_to submit mem P r q ->
  exists r', 0 <= r' <= r /\ code_good P r' (code_of submit mem1 type used q).
Proof.
  intros (_ & _ & Hv) Hr [Hne Hq]. unfold code_good, code_of. cbn [code_skip code_va]. rewrite Hv.
  destruct (q_skip q); [exists 0; split; [lia|by left]|].
  destruct (memory_IsValid submit (q_addr q) (q_size q * 4) mem); [|exists 0; split; [lia|by left]].
  destruct (Hq eq_refl eq_refl) as (r' & Hr' & HP). exists r'. split; [done|]. right. exact HP.
Qed.

(** Fuel for an IB at a level. *)
Definition enough_for (bound : nat) (R : Z) (level : nat) (r : Z) (k : code) (fuel : nat) : Prop :=
  distance R level r (code_va k) (code_end k) + Z.of_nat bound + 1 < Z.of_nat fuel.

Lemma new_code_distance bound R level level' r r' k k' fuel (P : Z -> Z -> Z -> Prop) submit mem :
  stream_ok bound R submit mem P -> code_good P r' k' -> 0 <= r' <= R -> (level' <= 4)%nat ->
  (level' = level /\ r' < r \/ (level < level')%nat /\ 0 <= r) ->
  enough_for bound R level r k (S fuel) -> code_skip k' = true \/ enough_for bound R level' r' k' fuel.
Proof.
  intros Hok Hk Hr' Hlt Hless Hf. destruct Hk as [[Hs _]|HP]; [by left|]. right.
  destruct (so_position _ _ _ _ _ Hok _ _ _ HP) as (_ & Hva & _). pose proof (code_end_range k') as He.
  unfold enough_for, distance in *. assert (0 <= R) by lia.
  destruct Hless as [[-> Hlr]|[Hll Hr0]]; [nia|].
  assert ((4 - Z.of_nat level') * ((R + 1) * 2 ^ 64) + (R + 1) * 2 ^ 64 <= (4 - Z.of_nat level) * ((R + 1) * 2 ^ 64))
    by nia. nia.
Qed.

Lemma run_ibs_ends bound R submit mem P fuel level position qs ix c mem1 :
  stream_ok bound R submit mem P -> 0 <= R -> same_view mem mem1 -> Forall (goes_to submit mem P R) qs ->
  (forall ix r k c mem2, same_view mem mem2 -> code_good P r k -> 0 <= r <= R -> (S level <= 4)%nat ->
     ends mem (run_code fuel submit ix (S level) k c mem2)) ->
  ends mem (run_ibs (run_code fuel submit) submit ix level position qs c mem1).
Proof.
  intros Hok HR Hv Hqs Hrun. revert ix position c mem1 Hv.
  induction Hqs as [|q qs Hq Hqs IH]; intros ix position c mem1 Hv; cbn [run_ibs]; [done|].
  destruct (Nat.ltb_spec (S level) kTotalIbLevels) as [Hlt|]; [|done]. unfold kTotalIbLevels in Hlt.
  apply and_then_ends; [apply with_mem_ends; [done|apply OnIbStart_ends]|]. intros c1 mem2 Hv2.
  destruct (goes_to_code submit mem mem1 P R (q_type q) 0 q Hv HR Hq) as (r' & Hr' & Hk).
  apply and_then_ends; [apply (Hrun _ r'); [done|done|done|lia]|]. intros c2 mem3 Hv3. by apply IH.
Qed.

Lemma run_code_ends bound R submit mem P fuel level r k ix c mem1 :
  stream_ok bound R submit mem P -> same_view mem mem1 -> code_good P r k -> 0 <= r <= R -> (level <= 4)%nat ->
  (0 < fuel)%nat -> code_skip k = true \/ enough_for bound R level r k fuel ->
  ends mem (run_code fuel submit ix level k c mem1).
Proof.
  intros Hok. revert level r k ix c mem1.
  induction fuel as [|fuel IH]; intros level r k ix c mem1 Hv Hk Hr Hl Hf Henough; [lia|]. cbn [run_code].
  assert (code_va k <> UINT64_MAX) as Hva
    by (destruct Hk as [[_ Hk]|Hk]; [done|by destruct (so_position _ _ _ _ _ Hok _ _ _ Hk) as (_ & _ & ?)]).
  destruct (code_ended k) eqn:Hend; [apply with_mem_ends; [done|apply OnIbEnd_ends]|].
  unfold code_ended in Hend. rewrite (proj2 (Z.eqb_neq _ _) Hva) in Hend. cbn [negb andb] in Hend.
  apply orb_false_iff in Hend as [Hskip Hlt]. apply Z.leb_gt in Hlt.
  destruct Henough as [|Henough]; [congruence|]. destruct Hk as [[Hs _]|HP]; [congruence|].
  destruct (so_position _ _ _ _ _ Hok _ _ _ HP) as (_ & Hva0 & _).
  destruct (so_packet _ _ _ _ _ Hok _ _ _ HP Hlt) as [Hroom Hpacket].
  destruct (retrieve_dword_spec submit (code_va k) mem1) as (mem2 & -> & Hv2); [by destruct Hv|done|lia|].
  rewrite (dword_at_view _ _ mem mem1) by done. assert (same_view mem mem2) as Hvm by (by eapply same_view_trans).
  set (header := dword_at submit (code_va k) mem) in *.
  destruct (header_ok header); [|done]. cbn [negb]. destruct (Hpacket eq_refl) as (d & Ed & Hd).
  apply and_then_ends.
  { pose proof (OnPacket_ends submit ix (code_va k) header c mem2) as Hp. unfold ends.
    destruct (OnPacket _ _ _ _ _ _) as [[[ok c'] mem']| |]; [|done|apply Hp; [by destruct Hvm|lia|lia]].
    eapply same_view_trans; [done|]. apply Hp; [by destruct Hvm|lia|lia]. }
  intros c1 mem3 Hv3. unfold after_packet.
  assert (Z.of_nat bound + 1 < Z.of_nat fuel) as Hb.
  { unfold enough_for, distance in Henough. pose proof (code_end_range k).
    assert (0 <= (4 - Z.of_nat level) * ((R + 1) * 2 ^ 64)) by nia. lia. }
  destruct (decode_at_spec bound submit (code_va k) header mem mem3 d Hv3 Hva0 Hroom Ed) as (mem4 & Ed' & Hv4).
  rewrite (decode_mono bound fuel), Ed' by (lia || by rewrite Ed'). cbn [mbind outcome_bind]. cbv zeta.
  destruct (_ <? _)%nat; [done|]. destruct (chain_of (nonempty_ibs (d_ibs d))) as [q|].
  - destruct (d_next d =? code_end k); [|done].
    apply and_then_ends; [apply with_mem_ends; [done|apply OnIbStart_ends]|]. intros c2 mem5 Hv5.
    destruct (decide (0 <= r - 1)) as [Hr1|Hr1].
    + destruct (goes_to_code submit mem mem4 P (r - 1) (code_type k) 1 q Hv4 Hr1 Hd) as (r' & Hr' & Hk').
      apply (IH _ r'); [done|done|lia|done|lia|].
      eapply (new_code_distance bound R level); try done; [lia|]. left. split; [done|lia].
    + apply (IH _ 0); [done| |lia|done|lia|].
      * left. destruct Hd as [Hne Hd]. cbn [code_of code_skip code_va]. split; [|done].
        destruct Hv4 as (_ & _ & ->). destruct (q_skip q) eqn:Hqs; [done|].
        destruct (memory_IsValid submit (q_addr q) (q_size q * 4) mem) eqn:Hiv; [|done].
        destruct (Hd eq_refl eq_refl) as (r' & Hr' & _). lia.
      * left. destruct Hd as [Hne Hd]. cbn [code_of code_skip]. destruct Hv4 as (_ & _ & ->).
        destruct (q_skip q) eqn:Hqs; [done|].
        destruct (memory_IsValid submit (q_addr q) (q_size q * 4) mem) eqn:Hiv; [|done].
        destruct (Hd eq_refl eq_refl) as (r' & Hr' & _). lia.
  - destruct Hd as (Hnext & HP' & Hall). apply and_then_ends.
    + apply (run_ibs_ends bound R _ _ P); [done|lia|done|done|].
      intros ix' r' k' c' mem5 Hv5 Hk' Hr' Hl'. apply (IH _ r'); [done|done|done|done|lia|].
      eapply (new_code_distance bound R level); try done. right. split; lia.
    + intros c2 mem5 Hv5. apply (IH _ r); [done|by right|done|done|lia|]. right.
      unfold enough_for, distance in *. cbn [at_va code_va code_end code_addr code_size] in *.
      change (code_end (at_va _ _ k)) with (code_end k). lia.
Qed.

(** A submit of well-formed IBs. *)
Definition submit_good (bound : nat) (R submit : Z) (ibs : list IndirectBufferInfo) (mem : M) : Prop :=
  exists P, stream_ok bound R submit mem P /\ Forall (goes_to submit mem P R) (nonempty_ibs (submit_ibs ibs)).

(** Fuel for a submit. *)
Definition submit_fuel (bound : nat) (R : Z) : nat := Z.to_nat (5 * ((R + 1) * 2 ^ 64) + Z.of_nat bound + 2).

Lemma submit_fuel_enough bound R submit mem P level r k : stream_ok bound R submit mem P -> 0 <= r <= R ->
  (S level <= 4)%nat -> code_good P r k ->
  code_skip k = true \/ enough_for bound R (S level) r k (submit_fuel bound R).
Proof.
  intros Hok Hr Hl [[Hs _]|HP]; [by left|]. right.
  destruct (so_position _ _ _ _ _ Hok _ _ _ HP) as (_ & Hva & _). pose proof (code_end_range k).
  unfold enough_for, distance, submit_fuel. nia.
Qed.

Lemma run_submit_ends bound R submit ibs c mem mem1 :
  same_view mem mem1 -> 0 <= R -> submit_good bound R submit ibs mem ->
  ends mem (run_submit (submit_fuel bound R) submit ibs c mem1).
Proof.
  intros Hv HR (P & Hok & Hall). unfold run_submit. destruct (_ <? _)%nat; [done|].
  apply (run_ibs_ends bound R _ _ P); [done|done|done|done|].
  intros ix r k c1 mem2 Hv2 Hk Hr Hl. apply (run_code_ends bound R _ _ P _ _ r); [done..|unfold submit_fuel; lia|].
  by eapply submit_fuel_enough.
Qed.

Lemma ExecuteSubmit_ends bound R submit ibs c mem :
  mem_good mem -> 0 <= R -> submit_good bound R submit ibs mem ->
  exists enough r, ends mem r /\ forall fuel, (enough <= fuel)%nat -> ExecuteSubmit fuel submit ibs c mem = r.
Proof.
  intros Hm HR Hg. set (n := submit_fuel bound R).
  pose proof (run_submit_ends bound R submit ibs c mem mem (same_view_refl mem Hm) HR Hg : ends mem (run_submit n submit ibs c mem)) as Hn.
  assert (run_submit n submit ibs c mem <> OutOfFuel) as Hne by (intros E; by rewrite E in Hn).
  destruct (ExecuteSubmit_run n submit ibs c mem) as [j Hj]. exists (j + n)%nat, (run_submit n submit ibs c mem).
  split; [done|]. intros fuel Hf. replace fuel with (j + (fuel - j))%nat by lia. apply Hj; [lia|done].
Qed.

(** C36: a well-formed submit is emulated to an end. If every packet that can be
    reached can be decoded and goes forward, and an IB has at most [R] chains
    ahead of it, then, with callbacks that end, [ExecuteSubmit] ends for every
    fuel that is enough, always with the same answer. *)
Theorem emulation_ends bound R submit ibs c mem :
  mem_good mem -> 0 <= R -> submit_good bound R submit ibs mem ->
  exists enough r, r <> OutOfFuel /\
    forall fuel, (enough <= fuel)%nat -> ExecuteSubmit fuel submit ibs c mem = r.
Proof.
  intros Hm HR Hg. destruct (ExecuteSubmit_ends bound R submit ibs c mem Hm HR Hg) as (enough & r & Hr & Hf).
  exists enough, r. split; [by intros ->|done].
Qed.

(** *** Views of the memory *)

Lemma end_bin_at_view fuel submit va mem mem' :
  same_view mem mem' -> end_bin_at fuel submit va mem' = end_bin_at fuel submit va mem.
Proof.
  intros Hv. revert va. induction fuel as [|fuel IH]; intros va; cbn [end_bin_at]; [done|].
  by rewrite (dword_at_view _ _ mem mem'), IH by done.
Qed.

Lemma decode_at_view fuel submit va header mem mem' :
  same_view mem mem' -> decode_at fuel submit va header mem' = decode_at fuel submit va header mem.
Proof.
  intros Hv. assert (forall sizeof n, packet_at sizeof n submit va mem' = packet_at sizeof n submit va mem) as Hp.
  { intros sizeof n. unfold packet_at. by rewrite (bytes_from_view _ _ _ mem mem'). }
  unfold decode_at. by rewrite !Hp, (end_bin_at_view _ _ _ mem mem').
Qed.

Lemma goes_to_view submit mem mem' P r q : same_view mem mem' -> goes_to submit mem P r q -> goes_to submit mem' P r q.
Proof. intros (_ & _ & Hv) [Hne Hq]. split; [done|]. by rewrite Hv. Qed.

Lemma submit_good_view bound R submit ibs mem mem' :
  same_view mem mem' -> submit_good bound R submit ibs mem -> submit_good bound R submit ibs mem'.
Proof.
  intros Hv (P & [Hpos Hpacket] & Hall). exists P.
  assert (forall r qs, Forall (goes_to submit mem P r) qs -> Forall (goes_to submit mem' P r) qs) as Hgo.
  { intros r qs Hqs. eapply Forall_impl; [done|]. intros q. by apply goes_to_view. }
  split; [|by apply Hgo]. split; [done|]. intros r va e HP Hlt. rewrite (dword_at_view _ _ mem mem') by done. cbv zeta.
  destruct (Hpacket r va e HP Hlt) as [Hend Hd]. split; [done|]. intros Hok. destruct (Hd Hok) as (d & Ed & Hc).
  exists d. rewrite (decode_at_view _ _ _ _ mem mem') by done. split; [done|].
  destruct (chain_of _); [by eapply goes_to_view|]. destruct Hc as (Hn & HP' & Hqs). split; [done|]. split; [done|]. by apply Hgo.
Qed.

(** *** All submits of a capture *)

(** The submits that are executed are well-formed. *)
Definition submits_good (bound : nat) (R : Z) (first : Z) (submits : list SubmitInfo) (mem : M) : Prop :=
  forall k info, submits !! k = Some info -> m_is_dummy_submit info = false ->
    submit_good bound R (first + Z.of_nat k) (m_ibs info) mem.

Lemma process_submits_ends bound R submits : forall submit c mem, mem_good mem -> 0 <= R ->
  submits_good bound R submit submits mem ->
  exists enough r, ends mem r /\ forall fuel, (enough <= fuel)%nat -> process_submits fuel submit submits c mem = r.
Proof.
  induction submits as [|info submits IH]; intros submit c mem Hm HR Hg.
  { exists 0%nat, (Done (true, c, mem)). split; [by apply same_view_refl|done]. }
  assert (forall c mem', same_view mem mem' -> exists enough r, ends mem r /\ forall fuel, (enough <= fuel)%nat ->
    process_submits fuel (submit + 1) submits (OnSubmitEnd submit info c) mem' = r) as Hnext.
  { intros c' mem' Hv. destruct (IH (submit + 1) (OnSubmitEnd submit info c') mem') as (n & r & Hr & Hn); [by destruct Hv|done| |].
    - intros k i Hk Hi. replace (submit + 1 + Z.of_nat k) with (submit + Z.of_nat (S k)) by lia.
      eapply submit_good_view; [done|]. by apply (Hg (S k)).
    - exists n, r. split; [|done]. destruct r as [[[ok c''] mem'']| |]; [|done|done]. by eapply same_view_trans. }
  cbn [process_submits]. set (c1 := OnSubmitStart submit info c).
  destruct (m_is_dummy_submit info) eqn:Hd; [by apply Hnext, same_view_refl|].
  destruct (_ && _); [by apply Hnext, same_view_refl|].
  destruct (ExecuteSubmit_ends bound R submit (m_ibs info) c1 mem Hm HR) as (n1 & r1 & Hr1 & Hn1).
  { pose proof (Hg 0%nat info eq_refl Hd) as Hg0. by rewrite Z.add_0_r in Hg0. }
  destruct r1 as [[[[] c2] mem2]| |]; [|..].
  - destruct (Hnext c2 mem2 Hr1) as (n2 & r2 & Hr2 & Hn2). exists (n1 + n2)%nat, r2. split; [done|]. intros fuel Hf.
    rewrite Hn1 by lia. cbn [mbind outcome_bind]. apply Hn2. lia.
  - exists n1, (Done (false, c2, mem2)). split; [done|]. intros fuel Hf. by rewrite Hn1.
  - exists n1, OutOfBounds. split; [done|]. intros fuel Hf. by rewrite Hn1.
  - done.
Qed.
End Ends.

(** ** The submit of [test_ibs] *)

#[global] Instance test_sizes : AdrenoSizes.
Proof. split; vm_compute; split; congruence. Qed.

#[global] Instance tracing_laws {M} `{MemoryLaws M} : CallbackLaws (list event) M.
Proof. split; [done|done|]. intros submit ix va header c mem Hm _ _. by apply same_view_refl. Qed.

(** Positions as a list. *)
Definition listed (l : list (Z * Z * Z)) (r va e : Z) : Prop := (r, va, e) ∈ l.

Lemma listed_in l r va e : bool_decide ((r, va, e) ∈ l) = true -> listed l r va e.
Proof. apply bool_decide_eq_true_1. Qed.

Lemma listed_nil r va e : listed [] r va e -> False.
Proof. apply not_elem_of_nil. Qed.

Lemma listed_cons r0 va0 e0 l r va e :
  listed ((r0, va0, e0) :: l) r va e -> (r = r0 /\ va = va0 /\ e = e0) \/ listed l r va e.
Proof. unfold listed. rewrite elem_of_cons. intros [[= -> -> ->]|Hin]; [by left|by right]. Qed.

Lemma goes_by `{AdrenoPm4} mem l (r r' : Z) q :
  q_addr q <> UINT64_MAX -> 0 <= r' <= r -> listed l r' (q_addr q) (q_end q) -> goes_to 0 mem (listed l) r q.
Proof. intros Hne Hr HP. split; [done|]. intros _ _. by exists r'. Qed.

(** Case analysis on a listed position, and the parts of [stream_ok] for one. *)
Ltac listed_cases H :=
  repeat (apply listed_cons in H as [(-> & -> & ->)|H]); [..|by apply listed_nil in H].
Ltac goes_on := split; [vm_compute; reflexivity|split; [by apply listed_in|]].

Definition test_positions : list (Z * Z * Z) :=
  [(1, 4096, 4128); (1, 4112, 4128); (0, 8192, 8196); (0, 8196, 8196); (0, 12288, 12292); (0, 12292, 12292)].

Lemma test_stream_ok : stream_ok 0 1 0 test_ibs (listed test_positions).
Proof.
  split.
  - intros r va e Hin. listed_cases Hin; unfold UINT64_MAX; lia.
  - intros r va e HP Hlt. cbv zeta. listed_cases HP; try lia; (split; [lia|]); intros _.
    + exists (mkDecoded 4112 true [mkQueued kCall 8192 1 false 7]). split; [vm_compute; reflexivity|].
      change (nonempty_ibs _) with [mkQueued kCall 8192 1 false 7]. goes_on. constructor; [|constructor].
      by apply (goes_by _ _ _ 0); [| |apply listed_in].
    + exists (mkDecoded 4128 true [mkQueued kChain 12288 1 false 7]). split; [vm_compute; reflexivity|].
      change (nonempty_ibs _) with [mkQueued kChain 12288 1 false 7].
      by apply (goes_by _ _ _ 0); [| |apply listed_in].
    + exists (mkDecoded 8196 false []). split; [vm_compute; reflexivity|]. goes_on. constructor.
    + exists (mkDecoded 12292 false []). split; [vm_compute; reflexivity|]. goes_on. constructor.
Qed.

Lemma test_submit_good : submit_good 0 1 0 test_submit test_ibs.
Proof.
  exists (listed test_positions). split; [exact test_stream_ok|].
  change (nonempty_ibs _) with [mkQueued kNormal 4096 8 false 7]. constructor; [|constructor].
  by apply (goes_by _ _ _ 1); [| |apply listed_in].
Qed.

Lemma emulation_ends_witness :
  mem_good test_ibs /\ submit_good 0 1 0 test_submit test_ibs /\
  exists enough r, r <> OutOfFuel /\ forall fuel, (enough <= fuel)%nat -> ExecuteSubmit fuel 0 test_submit [] test_ibs = r.
Proof.
  split; [exact test_ibs_ok|]. split; [exact test_submit_good|].
  apply (emulation_ends 0 1 0 test_submit [] test_ibs test_ibs_ok); [lia|exact test_submit_good].
Defined.
