(* ===== verification/EmulateTrace.v ===== *)
(** * EmulateTrace: what the callbacks of an emulation see

    The traversal of all submits of a capture with callbacks that record what they are
    called with, and the theorem that every client of the emulation that accepts all it
    sees is called with just that record: with the packets, IBs and submits of the capture,
    in their order, and with memories that hold the captured bytes. *)

From S2P Require Import Prelude Wire Memory Pm4 StateTracker Emulate Traversal EmulateSteps EmulateRefine EmulateEnds.

#[local] Open Scope Z_scope.

(** ** The record *)

Inductive occurrence :=
  | SubmitStarted (submit : Z) (info : SubmitInfo)
  | IbStarted (submit ix : Z) (info : IndirectBufferInfo) (type : IbType)
  | PacketSeen (submit ix va header : Z)
  | IbEnded (submit ix : Z) (info : IndirectBufferInfo)
  | SubmitEnded (submit : Z) (info : SubmitInfo).

#[global] Instance recording {M} : EmulateCallbacks (list occurrence) M := {|
  OnIbStart submit ix info type log := Done (true, log ++ [IbStarted submit ix info type]);
  OnIbEnd submit ix info log := Done (true, log ++ [IbEnded submit ix info]);
  OnPacket submit ix va header log mem := Done (true, log ++ [PacketSeen submit ix va header], mem);
  OnSubmitStart submit info log := log ++ [SubmitStarted submit info];
  OnSubmitEnd submit info log := log ++ [SubmitEnded submit info]
|}.

(** The submits one after the other; those without commands to be executed only start and
    end. *)
Definition is_executed (info : SubmitInfo) : bool :=
  negb (m_is_dummy_submit info) && bool_decide (m_engine_type info = kUniversal \/ m_engine_type info = kCompute).

Section Submits.
Context `{AdrenoPm4} {C M : Type} `{IMemoryManager M} `{EmulateCallbacks C M}.

Fixpoint run_submits (fuel : nat) (submit : Z) (submits : list SubmitInfo) (c : C) (mem : M) : outcome (bool * C * M) :=
  match submits with
  | [] => Done (true, c, mem)
  | info :: submits =>
      let c := OnSubmitStart submit info c in
      and_then (if is_executed info then run_submit fuel submit (m_ibs info) c mem else Done (true, c, mem))
        (fun c mem => run_submits fuel (submit + 1) submits (OnSubmitEnd submit info c) mem)
  end.
End Submits.

(** [traversed submits mem ok log]: the traversal of the capture records [log]; it gets to
    the end if [ok], and else to an IB or a packet that is refused. *)
Definition traversed `{AdrenoPm4} {M} `{IMemoryManager M} (submits : list SubmitInfo) (mem : M) (ok : bool)
    (log : list occurrence) : Prop :=
  exists fuel mem', run_submits fuel 0 submits [] mem = Done (ok, log, mem').

(** ** More fuel

    What answers with some fuel gives the same answer with more. *)
Section MoreFuel.
Context `{AdrenoPm4} {C M : Type} `{IMemoryManager M} `{!EmulateCallbacks C M}.

Definition answers_as {A} (m m' : Emu C M A) : Prop := forall s, m s <> OutOfFuel -> m' s = m s.

Lemma answers_same {A} (m : Emu C M A) : answers_as m m.
Proof. done. Qed.

Lemma answers_bind {A B} (m m' : Emu C M A) (k k' : A -> Emu C M B) :
  answers_as m m' -> (forall a, answers_as (k a) (k' a)) -> answers_as (m ≫= k) (m' ≫= k').
Proof.
  intros Hm Hk s. unfold mbind, Emu_bind. intros Hs. rewrite (Hm s) by (intros E; by rewrite E in Hs).
  destruct (m s) as [[[a|] s1]| |]; [by apply Hk|done..].
Qed.

Lemma answers_AdvanceCb n fuel header : (n <= fuel)%nat -> answers_as (AdvanceCb n header) (AdvanceCb fuel header).
Proof.
  intros Hn. unfold AdvanceCb. apply answers_bind; [|intros []; apply answers_same].
  do 3 (match goal with |- answers_as (if ?b then _ else _) _ => destruct b; [apply answers_same|] end).
  destruct (is_packet header CP_START_BIN); [|apply answers_same].
  unfold advance_bins. do 3 (apply answers_bind; [apply answers_same|intros ?]).
  apply answers_bind; [|intros ?; apply answers_same]. intros [[e c] mem]. unfold access. intros Hs.
  rewrite (find_end_bin_mono n fuel); [done|done|]. intros E. by rewrite E in Hs.
Qed.

Lemma answers_execute_loop n : forall fuel, (n <= fuel)%nat -> answers_as (execute_loop n) (execute_loop fuel).
Proof.
  induction n as [|n IH]; intros fuel Hn.
  - intros s. destruct fuel as [|fuel]; [done|]. cbn [execute_loop]. unfold mbind, Emu_bind, get_state.
    destruct (m_top_of_stack _); [done|]. unfold out_of_fuel. done.
  - destruct fuel as [|fuel]; [lia|]. cbn [execute_loop]. apply answers_bind; [apply answers_same|]. intros e.
    destruct (m_top_of_stack e); [apply answers_same|]. apply answers_bind; [|intros []; apply IH; lia].
    unfold execute_packet. do 3 (apply answers_bind; [apply answers_same|intros ?]). destruct (negb _); [apply answers_same|].
    apply answers_bind; [apply answers_same|]. intros []. apply answers_AdvanceCb. lia.
Qed.

Lemma ExecuteSubmit_fuel n fuel submit ibs c (mem : M) : (n <= fuel)%nat -> ExecuteSubmit n submit ibs c mem <> OutOfFuel ->
  ExecuteSubmit fuel submit ibs c mem = ExecuteSubmit n submit ibs c mem.
Proof.
  intros Hn. unfold ExecuteSubmit. assert (answers_as (execute n ibs) (execute fuel ibs)) as Hex.
  { unfold execute. do 3 (apply answers_bind; [apply answers_same|intros []]). by apply answers_execute_loop. }
  intros Hs. rewrite Hex; [done|]. intros E. by rewrite E in Hs.
Qed.

Lemma process_submits_fuel n fuel submits : (n <= fuel)%nat -> forall submit c (mem : M),
  process_submits n submit submits c mem <> OutOfFuel ->
  process_submits fuel submit submits c mem = process_submits n submit submits c mem.
Proof.
  intros Hn. induction submits as [|info submits IH]; intros submit c mem; cbn [process_submits]; [done|].
  destruct (m_is_dummy_submit info); [apply IH|]. destruct (_ && _); [apply IH|]. intros Hs.
  rewrite (ExecuteSubmit_fuel n fuel) by (done || intros E; by rewrite E in Hs).
  destruct (ExecuteSubmit n _ _ _ _) as [[[[] c2] mem2]| |]; [by apply IH|done..].
Qed.
End MoreFuel.

(** There is one traversal. *)
Section Unique.
Context `{AdrenoPm4} {C M : Type} `{IMemoryManager M} `{!EmulateCallbacks C M}.

Lemma run_submit_fuel n n' submit ibs c (mem : M) : run_submit n submit ibs c mem <> OutOfFuel ->
  run_submit n' submit ibs c mem <> OutOfFuel -> run_submit n submit ibs c mem = run_submit n' submit ibs c mem.
Proof.
  intros Hn Hn'. destruct (ExecuteSubmit_run n submit ibs c mem) as [j Hj], (ExecuteSubmit_run n' submit ibs c mem) as [j' Hj'].
  rewrite <- (Hj (j' + n + n')%nat), <- (Hj' (j + n + n')%nat) by (lia || done). f_equal. lia.
Qed.

Lemma run_submits_fuel n n' submits : forall submit c (mem : M), run_submits n submit submits c mem <> OutOfFuel ->
  run_submits n' submit submits c mem <> OutOfFuel -> run_submits n submit submits c mem = run_submits n' submit submits c mem.
Proof.
  induction submits as [|info submits IH]; intros submit c mem; cbn [run_submits]; [done|].
  destruct (is_executed info); [|apply IH]. unfold and_then. set (c1 := OnSubmitStart submit info c).
  intros Hn Hn'. assert (run_submit n submit (m_ibs info) c1 mem = run_submit n' submit (m_ibs info) c1 mem) as E.
  { apply run_submit_fuel; intros E; rewrite E in *; by cbn in *. }
  rewrite E in *. destruct (run_submit n' submit (m_ibs info) c1 mem) as [[[[] c2] mem2]| |]; [by apply IH|done..].
Qed.
End Unique.

Lemma traversed_unique `{AdrenoPm4} {M} `{IMemoryManager M} submits (mem : M) ok log ok' log' :
  traversed submits mem ok log -> traversed submits mem ok' log' -> ok = ok' /\ log = log'.
Proof.
  intros (n & mem1 & E) (n' & mem1' & E'). rewrite (run_submits_fuel n n') in E by (by rewrite ?E, ?E').
  rewrite E' in E. by injection E.
Qed.

(** ** Replay *)

Section Replay.
Context `{AdrenoPm4} {C M : Type} `{MemoryLaws M} `{!EmulateCallbacks C M}.

(** [c'] is the answer of the callbacks to an occurrence, over the captured bytes of
    [mem]; packets are not at the end of the address space. *)
Definition responds (mem : M) (o : occurrence) (c c' : C) : Prop :=
  match o with
  | SubmitStarted submit info => c' = OnSubmitStart submit info c
  | IbStarted submit ix info type => OnIbStart submit ix info type c = Done (true, c')
  | PacketSeen submit ix va header => 0 <= va /\ va + 2 ^ 18 < 2 ^ 64 /\
      exists mem1 mem2, same_view mem mem1 /\ OnPacket submit ix va header c mem1 = Done (true, c', mem2)
  | IbEnded submit ix info => OnIbEnd submit ix info c = Done (true, c')
  | SubmitEnded submit info => c' = OnSubmitEnd submit info c
  end.

Inductive replays (mem : M) (c : C) : list occurrence -> C -> Prop :=
  | replays_nil : replays mem c [] c
  | replays_snoc log o c1 c2 : replays mem c log c1 -> responds mem o c1 c2 -> replays mem c (log ++ [o]) c2.

Lemma replays_one mem c o c' : responds mem o c c' -> replays mem c [o] c'.
Proof. intros Ho. apply (replays_snoc mem c [] o c); [constructor|done]. Qed.

Lemma replays_app mem c l1 c1 l2 c2 : replays mem c l1 c1 -> replays mem c1 l2 c2 -> replays mem c (l1 ++ l2) c2.
Proof.
  intros Hl1 Hl2. induction Hl2 as [|log o c2 c3 _ IH Ho]; [by rewrite app_nil_r|]. rewrite app_assoc. by econstructor.
Qed.

(** A part of the replay. *)
Lemma replays_take mem c log c' i o : replays mem c log c' -> log !! i = Some o ->
  exists c1 c2, replays mem c (take i log) c1 /\ responds mem o c1 c2.
Proof.
  intros Hl. revert i. induction Hl as [|log o' c1 c2 Hl IH Ho]; intros i Hi; [done|].
  apply lookup_app_Some in Hi as [Hi|[Hge Hi]].
  - rewrite take_app_le by (apply lookup_lt_Some in Hi; lia). by apply IH.
  - apply list_lookup_singleton_Some in Hi as [Hi <-]. rewrite take_app_length' by lia. by exists c1, c2.
Qed.
End Replay.

(** ** The emulation is a replay of the record *)

(** Clients that never refuse. *)
Class CallbacksAccept (C M : Type) `{EmulateCallbacks C M} := {
  OnIbStart_accepts submit ix info type c ok c' : OnIbStart submit ix info type c = Done (ok, c') -> ok = true;
  OnIbEnd_accepts submit ix info c ok c' : OnIbEnd submit ix info c = Done (ok, c') -> ok = true;
  OnPacket_accepts submit ix va header c mem ok c' mem' :
    OnPacket submit ix va header c mem = Done (ok, c', mem') -> ok = true
}.

#[global] Instance recording_laws {M} `{MemoryLaws M} : CallbackLaws (list occurrence) M.
Proof. split; [done|done|]. intros submit ix va header c mem Hm _ _. by apply same_view_refl. Qed.

Section Traced.
Context `{AdrenoPm4} `{!AdrenoSizes} {C M : Type} `{CallbackLaws C M} `{!CallbacksAccept C M}.

(** [r] from [c] is a replay of what [rt] adds to the record [log]. *)
Definition traced (mem : M) (c : C) (log : list occurrence) (r : outcome (bool * C * M))
    (rt : outcome (bool * list occurrence * M)) : Prop :=
  match r with
  | Done (ok, c', mem') => same_view mem mem' /\
      exists l memt, rt = Done (ok, log ++ l, memt) /\ same_view mem memt /\ replays mem c l c'
  | _ => True
  end.

Lemma traced_none mem ok c log mem1 memt : same_view mem mem1 -> same_view mem memt ->
  traced mem c log (Done (ok, c, mem1)) (Done (ok, log, memt)).
Proof. intros Hv Ht. split; [done|]. exists [], memt. rewrite app_nil_r. split; [done|]. split; [done|constructor]. Qed.

Lemma traced_one mem c c' log o mem1 memt : same_view mem mem1 -> same_view mem memt -> responds mem o c c' ->
  traced mem c log (Done (true, c', mem1)) (Done (true, log ++ [o], memt)).
Proof. intros Hv Ht Ho. split; [done|]. exists [o], memt. split; [done|]. split; [done|by apply replays_one]. Qed.

Lemma traced_then mem c log r rt k kt : traced mem c log r rt ->
  (forall c1 l mem1 memt, same_view mem mem1 -> same_view mem memt ->
     traced mem c1 (log ++ l) (k c1 mem1) (kt (log ++ l) memt)) ->
  traced mem c log (and_then r k) (and_then rt kt).
Proof.
  intros Hr Hk. unfold and_then. destruct r as [[[ok c1] mem1]| |]; [|done|done].
  destruct Hr as (Hv & l & memt & -> & Ht & Hl). cbn [mbind outcome_bind].
  destruct ok; [|by split; [done|]; exists l, memt]. specialize (Hk c1 l mem1 memt Hv Ht). unfold traced in *.
  destruct (k c1 mem1) as [[[ok c2] mem2]| |]; [|done|done]. destruct Hk as (Hv2 & l2 & memt2 & -> & Ht2 & Hl2).
  split; [done|]. exists (l ++ l2), memt2. rewrite app_assoc. split; [done|]. split; [done|]. by eapply replays_app.
Qed.

Lemma traced_IbStart mem submit ix info type c log mem1 memt : same_view mem mem1 -> same_view mem memt ->
  traced mem c log (with_mem (OnIbStart (M := M) submit ix info type) c mem1) (with_mem (OnIbStart (M := M) submit ix info type) log memt).
Proof.
  intros Hv Ht. unfold with_mem at 1. destruct (OnIbStart (M := M) submit ix info type c) as [[ok c']| |] eqn:E; [|done|done].
  pose proof (OnIbStart_accepts _ _ _ _ _ _ _ E) as ->. by apply (traced_one mem c c' log (IbStarted submit ix info type)).
Qed.

Lemma traced_IbEnd mem submit ix info c log mem1 memt : same_view mem mem1 -> same_view mem memt ->
  traced mem c log (with_mem (OnIbEnd (M := M) submit ix info) c mem1) (with_mem (OnIbEnd (M := M) submit ix info) log memt).
Proof.
  intros Hv Ht. unfold with_mem at 1. destruct (OnIbEnd (M := M) submit ix info c) as [[ok c']| |] eqn:E; [|done|done].
  pose proof (OnIbEnd_accepts _ _ _ _ _ _ E) as ->. by apply (traced_one mem c c' log (IbEnded submit ix info)).
Qed.

Lemma traced_Packet mem submit ix va header c log mem1 memt : same_view mem mem1 -> same_view mem memt ->
  0 <= va -> va + 2 ^ 18 < 2 ^ 64 ->
  traced mem c log (OnPacket submit ix va header c mem1) (OnPacket submit ix va header log memt).
Proof.
  intros Hv Ht Hva Hend. pose proof (OnPacket_ends submit ix va header c mem1) as Hp.
  destruct (OnPacket submit ix va header c mem1) as [[[ok c'] mem2]| |] eqn:E; [|done|done].
  pose proof (OnPacket_accepts _ _ _ _ _ _ _ _ _ E) as ->.
  apply (traced_one mem c c' log (PacketSeen submit ix va header)); [|done|].
  - apply (same_view_trans mem mem1); [done|]. apply Hp; [by destruct Hv|done|done].
  - split; [done|]. split; [done|]. by exists mem1, mem2.
Qed.

(** An IB that is gone to is skipped or good. *)
Lemma goes_to_chain submit mem mem1 (P : Z -> Z -> Z -> Prop) R r type used q :
  same_view mem mem1 -> 0 <= R -> r <= R + 1 -> goes_to submit mem P (r - 1) q ->
  exists r', 0 <= r' <= R /\ code_good P r' (code_of submit mem1 type used q) /\
    (r' <= r - 1 \/ code_skip (code_of submit mem1 type used q) = true).
Proof.
  intros (_ & _ & Hv) HR Hr [Hne Hq]. unfold code_good, code_of. cbn [code_skip code_va]. rewrite Hv.
  destruct (q_skip q); [exists 0; split; [lia|]; by split; [left|right]|].
  destruct (memory_IsValid submit (q_addr q) (q_size q * 4) mem); [|exists 0; split; [lia|]; by split; [left|right]].
  destruct (Hq eq_refl eq_refl) as (r' & Hr' & HP). exists r'. split; [lia|]. split; [right; exact HP|left; lia].
Qed.

Lemma code_of_view submit mem mem1 memt type used q : same_view mem mem1 -> same_view mem memt ->
  code_of submit memt type used q = code_of submit mem1 type used q.
Proof. intros (_ & _ & E1) (_ & _ & E2). unfold code_of. by rewrite E1, E2. Qed.

Lemma run_ibs_traced bound R submit mem P fuel level position qs ix c log mem1 memt :
  stream_ok bound R submit mem P -> 0 <= R -> same_view mem mem1 -> same_view mem memt ->
  Forall (goes_to submit mem P R) qs ->
  (forall ix r k c log mem2 memt2, same_view mem mem2 -> same_view mem memt2 -> code_good P r k -> 0 <= r <= R ->
     (S level <= 4)%nat ->
     traced mem c log (run_code fuel submit ix (S level) k c mem2) (run_code fuel submit ix (S level) k log memt2)) ->
  traced mem c log (run_ibs (run_code fuel submit) submit ix level position qs c mem1)
    (run_ibs (run_code fuel submit) submit ix level position qs log memt).
Proof.
  intros Hok HR Hv Ht Hqs Hrun. revert ix position c log mem1 memt Hv Ht.
  induction Hqs as [|q qs Hq Hqs IH]; intros ix position c log mem1 memt Hv Ht; cbn [run_ibs]; [by apply traced_none|].
  destruct (Nat.ltb_spec (S level) kTotalIbLevels) as [Hlt|]; [|done]. unfold kTotalIbLevels in Hlt.
  rewrite (code_of_view submit mem mem1 memt) by done.
  apply traced_then; [by apply traced_IbStart|]. intros c1 l1 mem2 memt2 Hv2 Ht2.
  destruct (goes_to_chain submit mem mem1 P R (R + 1) (q_type q) 0 q Hv HR) as (r' & Hr' & Hk & _);
    [lia|by replace (R + 1 - 1) with R by lia|].
  apply traced_then; [apply (Hrun _ r'); [done..|lia]|]. intros c2 l2 mem3 memt3 Hv3 Ht3. by apply IH.
Qed.

(** What follows a packet that is decoded to [d], where IBs that are further on are
    traced. *)
Lemma after_packet_traced bound R submit mem P fuel level r k header d ix c log mem1 memt :
  stream_ok bound R submit mem P -> 0 <= r <= R -> (bound <= fuel)%nat -> same_view mem mem1 -> same_view mem memt ->
  0 <= code_va k -> code_va k + 2 ^ 18 < 2 ^ 64 -> decode_at bound submit (code_va k) header mem = Done d ->
  match chain_of (nonempty_ibs (d_ibs d)) with
  | Some q => goes_to submit mem P (r - 1) q
  | None => code_va k < d_next d /\ P r (d_next d) (code_end k) /\ Forall (goes_to submit mem P R) (nonempty_ibs (d_ibs d))
  end ->
  (forall ix level' r' k' c log mem2 memt2, same_view mem mem2 -> same_view mem memt2 -> code_good P r' k' -> 0 <= r' <= R ->
     level' = level /\ (r' <= r - 1 \/ code_skip k' = true) \/ level' = level /\ r' = r /\ code_end k' = code_end k /\ code_va k < code_va k' \/
       level' = S level /\ (S level <= 4)%nat ->
     traced mem c log (run_code fuel submit ix level' k' c mem2) (run_code fuel submit ix level' k' log memt2)) ->
  traced mem c log (after_packet (run_code fuel submit) fuel submit ix level k header c mem1)
    (after_packet (run_code fuel submit) fuel submit ix level k header log memt).
Proof.
  intros Hok Hr Hf Hv Ht Hva Hroom Ed Hd Hrun. unfold after_packet.
  destruct (decode_at_spec bound submit (code_va k) header mem mem1 d Hv Hva Hroom Ed) as (mem4 & Ed1 & Hv4).
  destruct (decode_at_spec bound submit (code_va k) header mem memt d Ht Hva Hroom Ed) as (memt4 & Edt & Ht4).
  rewrite (decode_mono bound fuel), Ed1 by (lia || by rewrite Ed1).
  rewrite (decode_mono bound fuel), Edt by (lia || by rewrite Edt). cbn [mbind outcome_bind]. cbv zeta.
  destruct (_ <? _)%nat; [by apply traced_none|]. destruct (chain_of (nonempty_ibs (d_ibs d))) as [q|].
  - destruct (d_next d =? code_end k); [|by apply traced_none]. rewrite (code_of_view submit mem mem4 memt4) by done.
    apply traced_then; [by apply traced_IbStart|]. intros c2 l mem5 memt5 Hv5 Ht5.
    destruct (goes_to_chain submit mem mem4 P R r (code_type k) 1 q Hv4) as (r' & Hr' & Hk' & Hless); [lia|lia|done|].
    apply (Hrun _ _ r'); [done..|]. left. by split.
  - destruct Hd as (Hnext & HP' & Hall). apply traced_then.
    + apply (run_ibs_traced bound R _ _ P); [done|lia|done..|]. intros ix' r' k' c' log' mem5 memt5 Hv5 Ht5 Hk' Hr' Hl'.
      apply (Hrun _ _ r'); [done..|]. by right; right.
    + intros c2 l mem5 memt5 Hv5 Ht5. apply (Hrun _ _ r); [done|done|by right|done|]. right; left. done.
Qed.

Lemma run_code_traced bound R submit mem P fuel level r k ix c log mem1 memt :
  stream_ok bound R submit mem P -> same_view mem mem1 -> same_view mem memt -> code_good P r k -> 0 <= r <= R ->
  (level <= 4)%nat -> (0 < fuel)%nat -> code_skip k = true \/ enough_for bound R level r k fuel ->
  traced mem c log (run_code fuel submit ix level k c mem1) (run_code fuel submit ix level k log memt).
Proof.
  intros Hok. revert level r k ix c log mem1 memt.
  induction fuel as [|fuel IH]; intros level r k ix c log mem1 memt Hv Ht Hk Hr Hl Hf Henough; [lia|]. cbn [run_code].
  assert (code_va k <> UINT64_MAX) as Hva
    by (destruct Hk as [[_ Hk]|Hk]; [done|by destruct (so_position _ _ _ _ _ Hok _ _ _ Hk) as (_ & _ & ?)]).
  destruct (code_ended k) eqn:Hend; [by apply traced_IbEnd|].
  unfold code_ended in Hend. rewrite (proj2 (Z.eqb_neq _ _) Hva) in Hend. cbn [negb andb] in Hend.
  apply orb_false_iff in Hend as [Hskip Hlt]. apply Z.leb_gt in Hlt.
  destruct Henough as [|Henough]; [congruence|]. destruct Hk as [[Hs _]|HP]; [congruence|].
  destruct (so_position _ _ _ _ _ Hok _ _ _ HP) as (_ & Hva0 & _).
  destruct (so_packet _ _ _ _ _ Hok _ _ _ HP Hlt) as [Hroom Hpacket].
  destruct (retrieve_dword_spec submit (code_va k) mem1) as (mem2 & -> & Hv2); [by destruct Hv|done|lia|].
  destruct (retrieve_dword_spec submit (code_va k) memt) as (memt2 & -> & Ht2); [by destruct Ht|done|lia|].
  rewrite (dword_at_view _ _ mem mem1), (dword_at_view _ _ mem memt) by done.
  assert (same_view mem mem2) as Hvm by by apply (same_view_trans mem mem1).
  assert (same_view mem memt2) as Htm by by apply (same_view_trans mem memt).
  set (header := dword_at submit (code_va k) mem) in *.
  destruct (header_ok header); [|by apply traced_none]. cbn [negb]. destruct (Hpacket eq_refl) as (d & Ed & Hd).
  apply traced_then; [apply traced_Packet; [done..|lia]|]. intros c1 l1 mem3 memt3 Hv3 Ht3.
  assert (Z.of_nat bound + 1 < Z.of_nat fuel) as Hb.
  { unfold enough_for, distance in Henough. pose proof (code_end_range k).
    assert (0 <= (4 - Z.of_nat level) * ((R + 1) * 2 ^ 64)) by nia. lia. }
  apply (after_packet_traced bound R _ _ P _ _ r _ _ d); [done|done|lia|done|done|done|lia|exact Ed|exact Hd|].
  intros ix' level' r' k' c' log' mem5 memt5 Hv5 Ht5 Hk' Hr' Hcase.
  apply (IH _ r'); [done|done|done|done|lia|lia|].
  destruct Hcase as [[-> [Hless|Hsk]]|[(-> & -> & Ee & Hlt')|[-> Hl']]].
  - eapply (new_code_distance bound R level); try done; lia.
  - by left.
  - right. unfold enough_for, distance in *. rewrite Ee. lia.
  - eapply (new_code_distance bound R level); try done; lia.
Qed.

(** *** Submits *)

Lemma run_submit_traced bound R submit ibs c log mem mem1 memt : same_view mem mem1 -> same_view mem memt -> 0 <= R ->
  submit_good bound R submit ibs mem ->
  traced mem c log (run_submit (submit_fuel bound R) submit ibs c mem1) (run_submit (submit_fuel bound R) submit ibs log memt).
Proof.
  intros Hv Ht HR (P & Hok & Hall). unfold run_submit. destruct (_ <? _)%nat; [by apply traced_none|].
  apply (run_ibs_traced bound R _ _ P); [done..|].
  intros ix r k c1 log1 mem2 memt2 Hv2 Ht2 Hk Hr Hl. apply (run_code_traced bound R _ _ P _ _ r); [done..|unfold submit_fuel; lia|].
  by eapply submit_fuel_enough.
Qed.

Lemma is_executed_spec info : is_executed info =
  negb (m_is_dummy_submit info || (bool_decide (m_engine_type info <> kUniversal) && bool_decide (m_engine_type info <> kCompute))).
Proof.
  unfold is_executed. destruct (m_is_dummy_submit info); [done|]. cbn [negb orb andb].
  rewrite <- bool_decide_and, <- bool_decide_not. apply bool_decide_ext.
  destruct (decide (m_engine_type info = kUniversal)), (decide (m_engine_type info = kCompute)); tauto.
Qed.

(** After an occurrence. *)
Lemma traced_after mem c c1 log o r rt : responds mem o c c1 -> traced mem c1 (log ++ [o]) r rt -> traced mem c log r rt.
Proof.
  intros Ho Hr. destruct r as [[[ok c'] mem']| |]; [|done|done]. destruct Hr as (Hv & l & memt & -> & Ht & Hl).
  split; [done|]. exists (o :: l), memt. rewrite <- app_assoc. split; [done|]. split; [done|].
  apply (replays_app mem c [o] c1); [by apply replays_one|done].
Qed.

Lemma process_submits_traced bound R submits : forall submit c log mem mem1 memt, 0 <= R ->
  same_view mem mem1 -> same_view mem memt -> submits_good bound R submit submits mem ->
  exists enough r, ends mem r /\
    (forall fuel, (enough <= fuel)%nat -> process_submits fuel submit submits c mem1 = r) /\
    traced mem c log r (run_submits (submit_fuel bound R) submit submits log memt).
Proof.
  induction submits as [|info submits IH]; intros submit c log mem mem1 memt HR Hv Ht Hg.
  { exists 0%nat, (Done (true, c, mem1)). split; [done|]. split; [done|by apply traced_none]. }
  assert (submits_good bound R (submit + 1) submits mem) as Hg'.
  { intros k i Hk Hi. replace (submit + 1 + Z.of_nat k) with (submit + Z.of_nat (S k)) by lia. by apply (Hg (S k)). }
  assert (forall c log mem1 memt, same_view mem mem1 -> same_view mem memt -> exists enough r, ends mem r /\
    (forall fuel, (enough <= fuel)%nat ->
       process_submits fuel (submit + 1) submits (OnSubmitEnd (M := M) submit info c) mem1 = r) /\
    traced mem c log r (run_submits (submit_fuel bound R) (submit + 1) submits (OnSubmitEnd (M := M) submit info log) memt)) as Hnext.
  { intros c' log' mem1' memt' Hv' Ht'.
    destruct (IH (submit + 1) (OnSubmitEnd (M := M) submit info c') (OnSubmitEnd (M := M) submit info log') mem mem1' memt') as (n & r & Hr & Hn & Htr); try done.
    exists n, r. split; [done|]. split; [done|]. by eapply (traced_after _ _ _ _ (SubmitEnded submit info)). }
  cbn [process_submits run_submits]. set (c1 := OnSubmitStart (M := M) submit info c). set (log1 := OnSubmitStart (M := M) submit info log).
  assert (forall r rt, traced mem c1 log1 r rt -> traced mem c log r rt) as Hstart.
  { intros r rt. by apply (traced_after _ _ _ _ (SubmitStarted submit info)). }
  rewrite is_executed_spec. destruct (m_is_dummy_submit info) eqn:Hd; cbn [orb negb].
  { destruct (Hnext c1 log1 mem1 memt Hv Ht) as (n & r & Hr & Hn & Htr). exists n, r. split; [done|]. split; [done|]. by apply Hstart. }
  destruct (_ && _); cbn [negb].
  { destruct (Hnext c1 log1 mem1 memt Hv Ht) as (n & r & Hr & Hn & Htr). exists n, r. split; [done|]. split; [done|]. by apply Hstart. }
  pose proof (Hg 0%nat info eq_refl Hd) as Hg0. rewrite Z.add_0_r in Hg0. set (n1 := submit_fuel bound R).
  pose proof (run_submit_ends bound R submit (m_ibs info) c1 mem mem1 Hv HR Hg0 : ends mem (run_submit n1 submit (m_ibs info) c1 mem1)) as Hends.
  pose proof (run_submit_traced bound R submit (m_ibs info) c1 log1 mem mem1 memt Hv Ht HR Hg0 :
    traced mem c1 log1 (run_submit n1 submit (m_ibs info) c1 mem1) (run_submit n1 submit (m_ibs info) log1 memt)) as Htraced.
  destruct (ExecuteSubmit_run n1 submit (m_ibs info) c1 mem1) as [j Hj].
  assert (forall fuel, (j + n1 <= fuel)%nat -> ExecuteSubmit fuel submit (m_ibs info) c1 mem1 = run_submit n1 submit (m_ibs info) c1 mem1) as Hex.
  { intros fuel Hf. replace fuel with (j + (fuel - j))%nat by lia. apply Hj; [lia|]. intros E. by rewrite E in Hends. }
  revert Hends Htraced Hex. generalize (run_submit n1 submit (m_ibs info) c1 mem1). intros r1 Hends Htraced Hex.
  destruct r1 as [[[ok c2] mem2]| |]; [|..].
  - destruct Htraced as (Hv2 & l & memt2 & -> & Ht2 & Hl). unfold and_then. cbn [mbind outcome_bind]. destruct ok.
    + destruct (Hnext c2 (log1 ++ l) mem2 memt2 Hv2 Ht2) as (n2 & r2 & Hr2 & Hn2 & Htr2). exists (j + n1 + n2)%nat, r2.
      split; [done|]. split; [intros fuel Hf; rewrite Hex by lia; apply Hn2; lia|]. apply Hstart.
      unfold traced in *. destruct r2 as [[[ok3 c3] mem3]| |]; [|done|done].
      destruct Htr2 as (Hv3 & l3 & memt3 & E3 & Ht3 & Hl3). split; [done|]. exists (l ++ l3), memt3.
      rewrite app_assoc. split; [exact E3|]. split; [done|]. by eapply replays_app.
    + exists (j + n1)%nat, (Done (false, c2, mem2)). split; [done|]. split; [intros fuel Hf; by rewrite Hex|].
      apply Hstart. split; [done|]. by exists l, memt2.
  - exists (j + n1)%nat, OutOfBounds. split; [done|]. split; [intros fuel Hf; by rewrite Hex|done].
  - done.
Qed.

(** What the emulation of a whole capture answers, with any fuel for which it does. *)
Definition replayed (submits : list SubmitInfo) (c : C) (mem : M) (r : outcome (bool * C * M)) : Prop :=
  match r with
  | Done (ok, c', mem') => same_view mem mem' /\ exists log, traversed submits mem ok log /\ replays mem c log c'
  | OutOfBounds => True
  | OutOfFuel => False
  end.

Lemma ProcessSubmits_traced bound R submits c (mem : M) :
  mem_good mem -> 0 <= R -> submits_good bound R 0 submits mem ->
  exists enough r, (forall fuel, (enough <= fuel)%nat -> ProcessSubmits fuel submits c mem = r) /\ replayed submits c mem r.
Proof.
  intros Hm HR Hg. pose proof (same_view_refl mem Hm) as Hv.
  destruct (process_submits_traced bound R submits 0 c [] mem mem mem HR Hv Hv Hg) as (n & r & Hr & Hf & Ht).
  exists n, r. split; [done|]. destruct r as [[[ok c'] mem']| |]; [|done|done].
  destruct Ht as (Hv' & log & memt & E & _ & Hl). split; [done|]. exists log. split; [|done]. by exists (submit_fuel bound R), memt.
Qed.

Lemma ProcessSubmits_replayed bound R submits fuel c (mem : M) :
  mem_good mem -> 0 <= R -> submits_good bound R 0 submits mem ->
  ProcessSubmits fuel submits c mem <> OutOfFuel -> replayed submits c mem (ProcessSubmits fuel submits c mem).
Proof.
  intros Hm HR Hg Hne. destruct (ProcessSubmits_traced bound R submits c mem Hm HR Hg) as (n & r & Hf & Hr).
  unfold ProcessSubmits in *. rewrite <- (Hf (n + fuel)%nat) in Hr by lia.
  rewrite (process_submits_fuel fuel) in Hr by (done || lia). done.
Qed.
End Traced.

(** ** The registers after an occurrence *)

Section Registers.
Context `{AdrenoPm4} `{!AdrenoSizes} {M : Type} `{MemoryLaws M}.

(** Submits start with the registers reset, IBs with their mask pushed, which is popped
    where they end; a packet is one of [Tracker_OnPacket]. *)
Definition update_registers (mem : M) (o : occurrence) (t : EmulateStateTracker) : outcome EmulateStateTracker :=
  match o with
  | SubmitStarted _ _ => Done (Tracker_Reset t)
  | IbStarted _ _ info _ => Done (PushEnableMask (info_enable_mask info) t)
  | PacketSeen submit _ va header => '(_, t, _) ← Tracker_OnPacket submit va header t mem; Done t
  | IbEnded _ _ _ => match PopEnableMask t with Some t => Done t | None => OutOfBounds end
  | SubmitEnded _ _ => Done t
  end.

Fixpoint registers_from (mem : M) (log : list occurrence) (t : EmulateStateTracker) : outcome EmulateStateTracker :=
  match log with
  | [] => Done t
  | o :: log => t ← update_registers mem o t; registers_from mem log t
  end.

Definition registers_after (mem : M) (log : list occurrence) : outcome EmulateStateTracker :=
  registers_from mem log new_EmulateStateTracker.

Lemma registers_after_snoc mem log o t :
  registers_after mem log = Done t -> registers_after mem (log ++ [o]) = update_registers mem o t.
Proof.
  unfold registers_after. generalize new_EmulateStateTracker. induction log as [|o' log IH]; intros t0; cbn [registers_from app].
  - intros [= ->]. by destruct (update_registers mem o t).
  - destruct (update_registers mem o' t0); [|done|done]. apply IH.
Qed.

(** A packet writes the same registers, however the memory caches. *)
Lemma writes_view pairs t (mem mem1 : M) r r1 t' mem' :
  writes pairs t mem r -> writes pairs t mem1 r1 -> r1 = Done (t', mem') -> exists mem'', r = Done (t', mem'').
Proof.
  unfold writes. destruct (SetRegs pairs t) as [t1| |]; [|by intros _ ->|done].
  intros (m & -> & _) (m1 & -> & _) [= -> _]. by exists m.
Qed.

Lemma Tracker_OnPacket_view submit va header t (mem mem1 : M) ok t' mem' :
  same_view mem mem1 -> mem_good mem -> 0 <= va -> va + 2 ^ 18 < 2 ^ 64 ->
  Tracker_OnPacket submit va header t mem1 = Done (ok, t', mem') ->
  exists mem'', Tracker_OnPacket submit va header t mem = Done (ok, t', mem'').
Proof.
  intros Hv Hm Hva Hend.
  pose proof (bits_range 0 7 header ltac:(lia)) as H4. fold (type4_count header) in H4. cbv [in_width] in H4.
  pose proof (bits_range 0 15 header ltac:(lia)) as H7. fold (type7_count header) in H7. cbv [in_width] in H7.
  unfold Tracker_OnPacket.
  assert (exists t1 m m1, (if is_packet header CP_SET_MARKER then OnMarker submit va t mem else Done (t, mem)) = Done (t1, m) /\
    (if is_packet header CP_SET_MARKER then OnMarker submit va t mem1 else Done (t, mem1)) = Done (t1, m1) /\
    same_view mem m /\ same_view m m1) as (t1 & m & m1 & -> & -> & Hvm & Hvm1).
  { destruct (is_packet header CP_SET_MARKER); [|by exists t, mem, mem1; split; [|split; [|split; [apply same_view_refl|]]]].
    unfold OnMarker. pose proof size_SET_MARKER as Hs. assert (mem_good mem1) as Hm1 by by destruct Hv.
    destruct (retrieve_spec submit va sizeof_SET_MARKER sizeof_SET_MARKER mem) as (m & -> & Hm'); [done|done|lia|lia|].
    destruct (retrieve_spec submit va sizeof_SET_MARKER sizeof_SET_MARKER mem1) as (m1 & -> & Hm1'); [done|done|lia|lia|].
    rewrite (bytes_from_view _ _ _ mem mem1) by done. eexists _, m, m1. split; [reflexivity|]. split; [reflexivity|]. split; [done|].
    destruct Hm' as (_ & E1 & E2), Hv as (_ & E3 & E4), Hm1' as (Hg & E5 & E6). split; [done|].
    split; intros; by rewrite ?E5, ?E6, ?E3, ?E4, ?E1, ?E2. }
  cbn [mbind outcome_bind]. assert (mem_good m) as Hgm by by destruct Hvm. assert (mem_good m1) as Hgm1 by by destruct Hvm1.
  assert (forall pairs r r1, writes pairs t1 m r -> writes pairs t1 m1 r1 ->
    ('(t, mem) ← r1; Done (true, t, mem)) = Done (ok, t', mem') ->
    exists mem'', ('(t, mem) ← r; Done (true, t, mem)) = Done (ok, t', mem'')) as Hw.
  { intros pairs r r1 Hr Hr1. destruct r1 as [[t2 m2]| |] eqn:E; [|done|done]. intros [= <- <- <-].
    destruct (writes_view pairs t1 m m1 r _ t2 m2 Hr Hr1 eq_refl) as (m3 & ->). by exists m3. }
  destruct (is_packet header CP_CONTEXT_REG_BUNCH); [|destruct (header_type header =? 4)].
  - eapply Hw; [apply (reg_bunch_writes _ submit va _ 0); try done; lia|].
    rewrite <- (bunch_pairs_view _ submit va m m1) by done.
    rewrite (list_fmap_ext _ (bunch_pair submit va m1)) by (intros; by rewrite (bunch_pair_view _ _ m m1)).
    apply (reg_bunch_writes _ submit va _ 0); try done; lia.
  - eapply Hw; [apply (type4_loop_writes _ submit va header 0); try done; lia|].
    rewrite (list_fmap_ext _ (type4_write submit va (type4_offset header) m1))
      by (intros; unfold type4_write; by rewrite (dword_at_view _ _ m m1)).
    apply (type4_loop_writes _ submit va header 0); try done; lia.
  - intros [= <- <- <-]. by exists m.
Qed.
(** The packets of [EmulateCallbacksBase] are never refused. *)
Lemma base_OnPacket_accepts submit ix va header t (mem : M) ok t' mem' :
  base_OnPacket submit ix va header t mem = Done (ok, t', mem') -> ok = true.
Proof.
  unfold base_OnPacket, Tracker_OnPacket. destruct (if is_packet header CP_SET_MARKER then _ else _) as [[t1 mem1]| |]; [|done|done].
  cbn [mbind outcome_bind]. destruct (if is_packet header CP_CONTEXT_REG_BUNCH then _ else _) as [[t2 mem2]| |]; [|done|done].
  by intros [= <- _ _].
Qed.

End Registers.

(** ** Clients of the emulation *)

Section Clients.
Context `{AdrenoPm4} `{!AdrenoSizes} {C M : Type} `{CallbackLaws C M} `{!CallbacksAccept C M}.

(** C39: Every client of the emulation sees the traversal of the capture. Let the submits that
    are executed be well-formed, and the callbacks accept everything, end and leave the
    captured bytes. Then there is at most one traversal of all submits, and [ProcessSubmits]
    ends for every fuel that is enough, always with the same answer: an access outside of an
    array, or [true] if and only if the traversal gets to its end. The client was then called
    with exactly what the traversal records, each submit, IB and packet once and in its
    order, with memories that hold the captured bytes. *)
Theorem client_sees_traversal bound R submits c (mem : M) :
  mem_good mem -> 0 <= R -> submits_good bound R 0 submits mem ->
  (forall ok log ok' log', traversed submits mem ok log -> traversed submits mem ok' log' -> ok = ok' /\ log = log') /\
  exists enough r, (forall fuel, (enough <= fuel)%nat -> ProcessSubmits fuel submits c mem = r) /\
    match r with
    | Done (ok, c', mem') => same_view mem mem' /\ exists log, traversed submits mem ok log /\ replays mem c log c'
    | OutOfBounds => True
    | OutOfFuel => False
    end.
Proof. intros Hm HR Hg. split; [intros ok log ok' log'; apply traversed_unique|by eapply ProcessSubmits_traced]. Qed.
End Clients.

(** The submit of [EmulateEnds], recorded by the callbacks of [EmulateRefine]. *)
#[local] Instance tracing_accepts {M} : CallbacksAccept (list event) M.
Proof.
  split; [by intros submit ix info type c ok c' [= <- _]|by intros submit ix info c ok c' [= <- _]|].
  by intros submit ix va header c mem ok c' mem' [= <- _ _].
Qed.

Definition test_submits : list SubmitInfo := [mkSubmit kUniversal kQueueUniversal 0 false test_submit].

Lemma test_submits_good : submits_good 0 1 0 test_submits test_ibs.
Proof. intros [|k] info Hk Hi; [|destruct k; discriminate Hk]. injection Hk as <-. exact test_submit_good. Qed.

Lemma client_sees_traversal_witness :
  exists enough r, r <> OutOfFuel /\
    forall fuel, (enough <= fuel)%nat -> ProcessSubmits fuel test_submits ([] : list event) test_ibs = r.
Proof.
  destruct (client_sees_traversal 0 1 test_submits ([] : list event) test_ibs test_ibs_ok) as (_ & enough & r & Hf & Hr);
    [lia|exact test_submits_good|].
  exists enough, r. split; [|exact Hf]. intros E. rewrite E in Hr. exact Hr.
Defined.
