(* ===== verification/EmulateMasks.v ===== *)
(** * EmulateMasks: the enable masks during the emulation

    [EmulateCallbacksBase] pushes the enable mask of an IB when it starts and pops
    one when it ends. This is balanced as long as there are no chains. *)

From S2P Require Import Prelude Wire Memory Pm4 StateTracker Emulate Traversal EmulateSteps EmulateRefine EmulateEnds.

#[local] Open Scope Z_scope.

Definition same_masks (t t' : EmulateStateTracker) : Prop :=
  m_enable_mask t' = m_enable_mask t /\ m_enable_mask_stack t' = m_enable_mask_stack t.

Lemma same_masks_trans t1 t2 t3 : same_masks t1 t2 -> same_masks t2 t3 -> same_masks t1 t3.
Proof. unfold same_masks. intros [-> ->]. done. Qed.

Section Callbacks.
Context `{AdrenoPm4} {M : Type} `{IMemoryManager M}.

(** A class that adds nothing to [EmulateCallbacksBase]. *)
Definition base_callbacks : EmulateCallbacks EmulateStateTracker M := {|
  OnIbStart := base_OnIbStart;
  OnIbEnd := base_OnIbEnd;
  OnPacket := base_OnPacket;
  OnSubmitStart _ _ t := t;
  OnSubmitEnd _ _ t := t
|}.

(** One that also refuses chains. *)
Definition chainless_callbacks : EmulateCallbacks EmulateStateTracker M := {|
  OnIbStart := base_OnIbStart;
  OnIbEnd := base_OnIbEnd;
  OnPacket submit ix va header t mem :=
    if is_packet header CP_INDIRECT_BUFFER_CHAIN then Done (false, t, mem)
    else base_OnPacket submit ix va header t mem;
  OnSubmitStart _ _ t := t;
  OnSubmitEnd _ _ t := t
|}.

(** ** Packets keep the masks *)

Lemma SetReg_masks o v t t' : SetReg o v t = Done t' -> same_masks t t'.
Proof.
  unfold SetReg. generalize (seq 0 kShaderEnableBitCount). intros passes. revert t.
  induction passes as [|i passes IH]; intros t; cbn [set_reg_loop]; [by intros [= <-]|].
  destruct (negb _); [|apply IH]. unfold set_reg_at. destruct (in_regs o); [|done]. cbn [mbind outcome_bind].
  intros E%IH. exact E.
Qed.

Lemma set_reg_dwords_masks n i submit va offset t (mem : M) t' mem' :
  set_reg_dwords n i submit va offset t mem = Done (t', mem') -> same_masks t t'.
Proof.
  revert i t mem. induction n as [|n IH]; intros i t mem; cbn [set_reg_dwords]; [by intros [= <- _]|].
  destruct (retrieve_dword _ _ _) as [v mem1]. destruct (SetReg _ v t) as [t1| |] eqn:E; [|done|done].
  intros E2%IH. by eapply same_masks_trans; [eapply SetReg_masks|].
Qed.

Lemma type4_loop_masks fuel submit va header off dword t (mem : M) t' mem' :
  type4_loop fuel submit va header off dword t mem = Done (t', mem') -> same_masks t t'.
Proof.
  revert off dword t mem. induction fuel as [|fuel IH]; intros off dword t mem; cbn [type4_loop];
    destruct (dword <? type4_count header); try done; try by intros [= <- _].
  destruct (set_reg_dwords _ _ _ _ _ _ _) as [[t1 mem1]| |] eqn:E; [|done|done].
  intros E2%IH. by eapply same_masks_trans; [eapply set_reg_dwords_masks|].
Qed.

Lemma reg_bunch_masks fuel submit va count dword t (mem : M) t' mem' :
  reg_bunch_loop fuel submit va count dword t mem = Done (t', mem') -> same_masks t t'.
Proof.
  revert dword t mem. induction fuel as [|fuel IH]; intros dword t mem; cbn [reg_bunch_loop];
    destruct (dword <? count); try done; try by intros [= <- _].
  destruct (retrieve_pair _ _ _) as [[[o v] mem1]| |]; [|done|done]. cbn [mbind outcome_bind].
  destruct (SetReg o v t) as [t1| |] eqn:E; [|done|done]. apply SetReg_masks in E. cbn [mbind outcome_bind].
  destruct (is_64_bit o); [|intros E2%IH; by eapply same_masks_trans].
  destruct (retrieve_pair _ _ _) as [[[o' v'] mem2]| |]; [|done|done]. cbn [mbind outcome_bind].
  destruct (o' =? wrap 32 (o + 1)); [|intros E2%IH; by eapply same_masks_trans].
  destruct (SetReg o' v' t1) as [t2| |] eqn:E'; [|done|done]. apply SetReg_masks in E'. cbn [mbind outcome_bind].
  intros E2%IH. by eapply same_masks_trans; [|eapply same_masks_trans].
Qed.

Lemma Tracker_OnPacket_masks submit va header t (mem : M) ok t' mem' :
  Tracker_OnPacket submit va header t mem = Done (ok, t', mem') -> same_masks t t'.
Proof.
  unfold Tracker_OnPacket, OnMarker.
  destruct (is_packet header CP_SET_MARKER).
  1: destruct (retrieve _ _ _ _ _) as [[packet mem1]| |]; [|done|done].
  all: cbn [mbind outcome_bind].
  1: set (t1 := apply_marker _ t); assert (same_masks t t1) as Ht1 by (unfold t1, apply_marker; by repeat case_match).
  2: set (t1 := t); set (mem1 := mem); assert (same_masks t t1) as Ht1 by done.
  all: destruct (is_packet header CP_CONTEXT_REG_BUNCH); [|destruct (header_type header =? 4)].
  all: try (destruct (reg_bunch_loop _ _ _ _ _ t1 mem1) as [[t2 mem2]| |] eqn:E; [|done|done];
            intros [= _ <- _]; apply reg_bunch_masks in E; by eapply same_masks_trans).
  all: try (destruct (type4_loop _ _ _ _ _ _ t1 mem1) as [[t2 mem2]| |] eqn:E; [|done|done];
            intros [= _ <- _]; apply type4_loop_masks in E; by eapply same_masks_trans).
  all: by intros [= _ <- _].
Qed.
End Callbacks.

(** ** Chain-free submits *)

Section Balance.
Context `{AdrenoPm4} `{!AdrenoSizes} {M : Type} `{MemoryLaws M}.
#[local] Existing Instance chainless_callbacks.

#[local] Instance chainless_laws : CallbackLaws EmulateStateTracker M.
Proof.
  split.
  - done.
  - intros submit ix info t. cbn. unfold base_OnIbEnd. by destruct (PopEnableMask t).
  - intros submit ix va header t mem Hm Hva Hend. cbn [OnPacket chainless_callbacks].
    destruct (is_packet header CP_INDIRECT_BUFFER_CHAIN); [by apply same_view_refl|].
    apply (Tracker_OnPacket_ends submit va header t mem Hm Hva Hend).
Qed.

(** The masks of the tracker: after an IB has ended, what was below it. *)
Definition below (t t' : EmulateStateTracker) : Prop :=
  m_enable_mask_stack t = m_enable_mask_stack t' ++ [m_enable_mask t'].

Lemma below_masks t1 t2 t3 : same_masks t1 t2 -> below t2 t3 -> below t1 t3.
Proof. unfold same_masks, below. intros [_ <-]. done. Qed.

Lemma and_then_true (r : outcome (bool * EmulateStateTracker * M)) k t' mem' :
  and_then r k = Done (true, t', mem') -> exists c mem, r = Done (true, c, mem) /\ k c mem = Done (true, t', mem').
Proof. unfold and_then. destruct r as [[[[] c] mem]| |]; cbn [mbind outcome_bind]; try done. intros Hk. by exists c, mem. Qed.

Lemma OnPacket_chainless submit ix va header t (mem : M) t' mem' :
  OnPacket submit ix va header t mem = Done (true, t', mem') ->
  is_packet header CP_INDIRECT_BUFFER_CHAIN = false /\ same_masks t t'.
Proof.
  cbn [OnPacket chainless_callbacks]. destruct (is_packet header CP_INDIRECT_BUFFER_CHAIN); [done|].
  intros E. split; [done|]. by eapply Tracker_OnPacket_masks.
Qed.

Lemma run_ibs_masks (run : Z -> nat -> code -> EmulateStateTracker -> M -> outcome (bool * EmulateStateTracker * M))
    submit ix level position qs t mem t' mem' :
  (forall ix level k t mem t' mem', run ix level k t mem = Done (true, t', mem') -> below t t') ->
  run_ibs run submit ix level position qs t mem = Done (true, t', mem') -> same_masks t t'.
Proof.
  intros Hrun. revert ix position t mem. induction qs as [|q qs IH]; intros ix position t mem; cbn [run_ibs];
    [by intros [= <- _]|].
  destruct (_ <? _)%nat; [|done]. intros (t1 & mem1 & E1 & E)%and_then_true.
  cbn [with_mem OnIbStart chainless_callbacks base_OnIbStart mbind outcome_bind] in E1. injection E1 as <- <-.
  apply and_then_true in E as (t2 & mem2 & E2 & E). apply Hrun in E2. apply IH in E.
  eapply same_masks_trans; [|exact E]. unfold below in E2. cbn [info_enable_mask code_start PushEnableMask set_masks m_enable_mask_stack] in E2.
  apply app_inj_tail in E2 as [E2 E2']. by split.
Qed.

Lemma run_code_masks fuel submit ix level k t mem t' mem' :
  run_code fuel submit ix level k t mem = Done (true, t', mem') -> below t t'.
Proof.
  revert ix level k t mem t' mem'. induction fuel as [|fuel IH]; intros ix level k t mem t' mem'; cbn [run_code]; [done|].
  destruct (code_ended k).
  { unfold with_mem. cbn [OnIbEnd chainless_callbacks]. unfold base_OnIbEnd, PopEnableMask.
    destruct (last (m_enable_mask_stack t)) as [m|] eqn:El; cbn [mbind option_bind outcome_bind]; [|done].
    intros [= <- _]. unfold below. cbn [set_masks m_enable_mask m_enable_mask_stack].
    apply last_Some in El as [st E]. rewrite E. by rewrite removelast_last. }
  destruct (retrieve_dword submit (code_va k) mem) as [header mem1]. destruct (negb (header_ok header)); [done|].
  intros (t1 & mem2 & E1 & E)%and_then_true. apply OnPacket_chainless in E1 as [Hnc Hm].
  eapply below_masks; [exact Hm|]. clear Hm. unfold after_packet in E.
  destruct (decode fuel submit (code_va k) header mem2) as [[d mem3]| |] eqn:Ed; [|done|done].
  cbn [mbind outcome_bind] in E. cbv zeta in E. destruct (_ <? _)%nat; [done|].
  destruct (chain_of (nonempty_ibs (d_ibs d))) as [q|] eqn:Hc.
  - destruct (decoded_chain _ _ _ _ _ _ _ _ Ed Hc) as (_ & _ & _ & Hp). congruence.
  - apply and_then_true in E as (t2 & mem4 & E2 & E). apply run_ibs_masks in E2; [|apply IH].
    eapply below_masks; [exact E2|]. by apply IH in E.
Qed.

(** Enable masks. A well-formed submit without chains leaves the enable mask
    and the stack of masks as it found them, if it is emulated to its end: every
    IB's mask is in force exactly while the IB and those it calls are emulated.
    (That the callbacks refuse chains is how "without chains" is said.) *)
Theorem masks_balanced bound R submit ibs (t : EmulateStateTracker) (mem : M) :
  mem_good mem -> 0 <= R -> submit_good bound R submit ibs mem ->
  exists enough r, r <> OutOfFuel /\
    (forall fuel, (enough <= fuel)%nat -> ExecuteSubmit fuel submit ibs t mem = r) /\
    (forall t' mem', r = Done (true, t', mem') ->
       m_enable_mask t' = m_enable_mask t /\ m_enable_mask_stack t' = m_enable_mask_stack t).
Proof.
  intros Hm HR Hg. pose proof (run_submit_ends bound R submit ibs t mem mem (same_view_refl mem Hm) HR Hg) as Hn.
  set (n := submit_fuel bound R) in *. clearbody n.
  assert (run_submit n submit ibs t mem <> OutOfFuel) as Hne by (intros E; by rewrite E in Hn).
  destruct (ExecuteSubmit_run n submit ibs t mem) as [j Hj]. exists (j + n)%nat, (run_submit n submit ibs t mem).
  split; [done|]. split.
  - intros fuel Hf. replace fuel with (j + (fuel - j))%nat by lia. apply Hj; [lia|done].
  - intros t' mem' E. unfold run_submit in E. destruct (_ <? _)%nat; [done|].
    apply run_ibs_masks in E; [exact E|]. intros. by eapply run_code_masks.
Qed.
End Balance.

(** An IB that binds a group for the binning pass and then sets a register. *)
Definition test_groups : MemoryManager :=
  test_memory_of
    [(4096, [make_type7 0x43 3; 1 + 2 ^ 20; 8192; 0; make_type4 0x8000 1; 5]); (8192, [nop_packet])].
Definition test_groups_submit : list IndirectBufferInfo := [mkIbInfo 4096 6 1 7 false].
Definition test_groups_positions : list (Z * Z * Z) :=
  [(0, 4096, 4120); (0, 4112, 4120); (0, 4120, 4120); (0, 8192, 8196); (0, 8196, 8196)].

Lemma test_groups_good : submit_good 0 0 0 test_groups_submit test_groups.
Proof.
  exists (listed test_groups_positions). split.
  - split.
    + intros r va e Hin. listed_cases Hin; unfold UINT64_MAX; lia.
    + intros r va e HP Hlt. cbv zeta. listed_cases HP; try lia; (split; [lia|]); intros _.
      * exists (mkDecoded 4112 true [mkQueued kDrawState 8192 1 false 1]). split; [vm_compute; reflexivity|].
        change (nonempty_ibs _) with [mkQueued kDrawState 8192 1 false 1]. goes_on. constructor; [|constructor].
        by apply (goes_by _ _ _ 0); [| |apply listed_in].
      * exists (mkDecoded 4120 false []). split; [vm_compute; reflexivity|]. goes_on. constructor.
      * exists (mkDecoded 8196 false []). split; [vm_compute; reflexivity|]. goes_on. constructor.
  - change (nonempty_ibs _) with [mkQueued kNormal 4096 6 false 7]. constructor; [|constructor].
    by apply (goes_by _ _ _ 0); [| |apply listed_in].
Qed.

Definition test_groups_end : outcome (bool * EmulateStateTracker * MemoryManager) :=
  @run_submit _ _ _ _ chainless_callbacks 20 0 test_groups_submit new_EmulateStateTracker test_groups.

Lemma masks_balanced_witness :
  mem_good test_groups /\ submit_good 0 0 0 test_groups_submit test_groups /\
  match test_groups_end with Done (ok, _, _) => ok = true | _ => False end /\
  exists enough r, r <> OutOfFuel /\
    (forall fuel, (enough <= fuel)%nat ->
       @ExecuteSubmit _ _ _ _ chainless_callbacks fuel 0 test_groups_submit new_EmulateStateTracker test_groups = r) /\
    (forall t' mem', r = Done (true, t', mem') -> m_enable_mask t' = 7 /\ m_enable_mask_stack t' = []).
Proof.
  assert (mem_good test_groups) as Hm by (apply (test_memory_of_ok 0); [lia|reflexivity]).
  split; [exact Hm|]. split; [exact test_groups_good|]. split; [vm_compute; reflexivity|].
  apply (masks_balanced 0 0 0 test_groups_submit new_EmulateStateTracker test_groups Hm); [lia|exact test_groups_good].
Defined.
