(* ===== verification/EmulateHazards.v ===== *)
(** * EmulateHazards: what the emulation does not withstand

    Submits that the emulation does not get through, or gets wrong, each with the
    callbacks of [EmulateCallbacksBase]. *)

From S2P Require Import Prelude Wire Memory Pm4 StateTracker Emulate Traversal EmulateSteps EmulateRefine EmulateEnds.
From S2P Require Import EmulateMasks.

#[local] Open Scope Z_scope.

Section Loops.
Context `{AdrenoPm4} {M : Type} `{MemoryLaws M}.
#[local] Existing Instance base_callbacks.

Definition unknown_type (header : Z) : Prop :=
  header_type header <> 2 /\ header_type header <> 4 /\ header_type header <> 7.

Lemma unknown_not_packet header opcode : unknown_type header -> is_packet header opcode = false.
Proof. intros (_ & _ & H7). unfold is_packet. by rewrite (proj2 (Z.eqb_neq _ _) H7). Qed.

Lemma unknown_size header : unknown_type header -> GetPacketSize header = 0 /\ header_ok header = true.
Proof.
  intros (H2 & H4 & H7). unfold GetPacketSize, header_ok.
  by rewrite (proj2 (Z.eqb_neq _ _) H2), (proj2 (Z.eqb_neq _ _) H4), (proj2 (Z.eqb_neq _ _) H7).
Qed.

Lemma unknown_tracked submit va header t (mem : M) :
  unknown_type header -> Tracker_OnPacket submit va header t mem = Done (true, t, mem).
Proof.
  intros Hu. unfold Tracker_OnPacket. rewrite !unknown_not_packet by done. cbn [mbind outcome_bind].
  destruct Hu as (_ & H4 & _). by rewrite (proj2 (Z.eqb_neq _ _) H4).
Qed.

(** A packet of size 0 is met again and again. *)
Lemma go_unknown fuel ix submit parents p ib rest (t : EmulateStateTracker) (mem : M) :
  negb (m_cur_va ib =? UINT64_MAX) && EndOfCurIb ib = false ->
  mem_good mem -> 0 <= m_cur_va ib -> m_cur_va ib + 4 < 2 ^ 64 -> unknown_type (dword_at submit (m_cur_va ib) mem) ->
  go fuel (at_level ix submit (parents ++ [p]) ib rest, t, mem) = OutOfFuel.
Proof.
  intros Hend. revert mem. induction fuel as [|fuel IH]; intros mem Hm Hva Hroom Hu.
  { unfold go. rewrite (bind_done _ _ _ _ _ (check_stays _ _ _ _ _ _ _ Hend)). cbn [execute_loop].
    rewrite (bind_done _ _ _ _ _ (get_state_at _ _ _)). cbn [m_top_of_stack at_level].
    by rewrite length_app, Nat.add_1_r. }
  rewrite go_run by done. destruct (retrieve_dword_spec submit (m_cur_va ib) mem) as (mem1 & -> & Hv); [done..|].
  destruct (unknown_size _ Hu) as [Hsize ->]. cbn [negb]. unfold packet_tail, mbind, Emu_bind, callback.
  cbn [OnPacket base_callbacks]. unfold base_OnPacket. rewrite unknown_tracked by done.
  unfold advance_packet_ibs, is_indirect_buffer. rewrite !unknown_not_packet by done. cbn [orb].
  rewrite AdvancePacket_at, Hsize, Z.add_0_r, wrap_small by (split; lia).
  replace (set_cur_va (m_cur_va ib) ib) with ib by (by destruct ib).
  apply IH; [by destruct Hv|done|done|by rewrite (dword_at_view _ _ mem mem1)].
Qed.

Lemma unknown_loops fuel submit info (t : EmulateStateTracker) (mem : M) :
  mem_good mem -> info_skip info = false -> info_size_in_dwords info <> 0 -> 0 <= info_va_addr info ->
  info_va_addr info < wrap 64 (info_va_addr info + info_size_in_dwords info * 4) ->
  info_va_addr info + 4 < 2 ^ 64 ->
  memory_IsValid submit (info_va_addr info) (info_size_in_dwords info * 4) mem = true ->
  unknown_type (dword_at submit (info_va_addr info) mem) ->
  ExecuteSubmit fuel submit [info] t mem = OutOfFuel.
Proof.
  intros Hm Hs Hz Hva Hlt Hroom Hiv Hu. unfold ExecuteSubmit. rewrite execute_go.
  set (primary := set_cur_va UINT64_MAX zero_IbStack). set (q := mkQueued kNormal (info_va_addr info)
    (info_size_in_dwords info) (info_skip info) all_passes).
  change (initial_state submit) with (at_level 0 submit [] primary (replicate 4 zero_IbStack)).
  destruct (queue_all_at [q] 0 submit [] primary (replicate 4 zero_IbStack) t mem) as [[E _]|[_ E]];
    [cbn; unfold kMaxPendingIbs; lia| |].
  2: { unfold fits in E. unfold nonempty_ibs in E. rewrite filter_cons, decide_True in E by done. done. }
  assert (queue_ibs [info] (at_level 0 submit [] primary (replicate 4 zero_IbStack), t, mem) = _) as Eq
    by (rewrite queue_ibs_all; exact E).
  rewrite (bind_done _ _ _ _ _ Eq). change (replicate 4 zero_IbStack) with (zero_IbStack :: replicate 3 zero_IbStack).
  rewrite (start_call _ _ _ _ _ _ 0 q); [|by unfold enqueue, nonempty_ibs; rewrite filter_cons, decide_True by done|done|done].
  cbn [OnIbStart base_callbacks]. unfold base_OnIbStart. cbn [mbind outcome_bind].
  set (k := code_of submit mem (q_type q) 0 q).
  assert (code_skip k = false) as Hk by (unfold k, code_of, q; cbn; by rewrite Hs, Hiv).
  rewrite (go_unknown fuel _ submit [] _ (ib_of k []) _ _ mem); [done| |done..].
  unfold EndOfCurIb, ib_end, ib_of. cbn [m_cur_va m_cur_ib_skip m_cur_ib_addr m_cur_ib_size_in_dwords]. rewrite Hk.
  unfold k, code_of, q. cbn [code_va code_addr code_size q_addr q_size].
  rewrite (proj2 (Z.leb_gt _ _) Hlt). by rewrite andb_false_r.
Qed.
End Loops.

(** ** Submits to evaluate *)

Section Examples.
#[local] Existing Instance base_callbacks.

Definition call_packet (addr size : Z) : list Z := [make_type7 0x3f 3; addr; 0; size].

(** IBs that call each other, one level deeper than [kIb4]. *)
Definition nested_ibs : MemoryManager :=
  test_memory_of
    [(4096, call_packet 8192 4); (8192, call_packet 12288 4); (12288, call_packet 16384 4);
     (16384, call_packet 20480 4); (20480, call_packet 24576 1); (24576, [nop_packet])].

(** An IB of tiled passes, each of 200 bins with a prefix and a common block. *)
Definition tiled_pass : list Z := [make_type7 0x50 5; 200; 8192; 0; 1; 1; nop_packet; make_type7 0x51 0].
Definition tiled_ibs : MemoryManager :=
  test_memory_of [(4096, tiled_pass ++ tiled_pass); (8192, replicate 200 nop_packet)].

(** The IB of [test_groups], with a group that ends in a chain. *)
Definition chained_groups : MemoryManager :=
  test_memory_of
    [(4096, [make_type7 0x43 3; 4 + 2 ^ 20; 8192; 0; make_type4 0x8000 1; 5]);
     (8192, [make_type7 0x57 3; 12288; 0; 1]); (12288, [nop_packet])].

Definition one_ib (size : Z) : list IndirectBufferInfo := [mkIbInfo 4096 size 1 7 false].

(** The answer of a submit that starts at address 4096, for enough fuel. *)
Definition submit_answers (size : Z) (mem : MemoryManager)
    (answer : outcome (bool * EmulateStateTracker * MemoryManager) -> Prop) : Prop :=
  exists enough r, answer r /\
    forall fuel, (enough <= fuel)%nat -> ExecuteSubmit fuel 0 (one_ib size) new_EmulateStateTracker mem = r.

Lemma submit_answers_run n size mem answer :
  answer (run_submit n 0 (one_ib size) new_EmulateStateTracker mem) ->
  run_submit n 0 (one_ib size) new_EmulateStateTracker mem <> OutOfFuel -> submit_answers size mem answer.
Proof.
  intros Ha Hne. destruct (ExecuteSubmit_run n 0 (one_ib size) new_EmulateStateTracker mem) as [j Hj].
  exists (j + n)%nat, (run_submit n 0 (one_ib size) new_EmulateStateTracker mem). split; [exact Ha|].
  intros fuel Hf. replace fuel with (j + (fuel - j))%nat by lia. apply Hj; [lia|done].
Qed.

Definition is_out_of_bounds {A} (r : outcome A) : bool := match r with OutOfBounds => true | _ => false end.
Definition answered_with {S M} (ok : bool) (test : S -> bool) (r : outcome (bool * S * M)) : bool :=
  match r with Done (ok', t, _) => Bool.eqb ok ok' && test t | _ => false end.

Lemma is_out_of_bounds_fuel {A} (r : outcome A) : is_out_of_bounds r = true -> r <> OutOfFuel.
Proof. by intros Hr ->. Qed.

Lemma answered_with_fuel {S M} ok test (r : outcome (bool * S * M)) : answered_with ok test r = true -> r <> OutOfFuel.
Proof. by intros Hr ->. Qed.

(** The passes that see register 0x8000 as 5. *)
Definition sees_register (t : EmulateStateTracker) : list bool :=
  (fun b => bool_decide (reg_view t b 0x8000 = Some 5)) <$> [kBINNING; kGMEM; kSYSMEM].

(** The hazards of the emulation. A packet of a type that is none has size 0
    and is emulated for ever. Calls one level deeper than [kIb4] leave the stack.
    The queue of a level is not emptied for a new [CP_START_BIN], so that the bins
    of several passes in an IB add up to the limit of 600 although those before are
    done. A chain pushes an enable mask that nothing pops: a register that is set
    for all passes after a draw-state group for the binning pass is set for the
    binning pass only if the group ends in a chain, and the stack of masks grows. *)
Theorem emulation_hazards :
  (forall (A : AdrenoPm4) fuel submit info (t : EmulateStateTracker) (mem : MemoryManager),
     mem_good mem -> info_skip info = false -> info_size_in_dwords info <> 0 -> 0 <= info_va_addr info ->
     info_va_addr info < wrap 64 (info_va_addr info + info_size_in_dwords info * 4) ->
     info_va_addr info + 4 < 2 ^ 64 ->
     memory_IsValid submit (info_va_addr info) (info_size_in_dwords info * 4) mem = true ->
     unknown_type (dword_at submit (info_va_addr info) mem) ->
     ExecuteSubmit fuel submit [info] t mem = OutOfFuel) /\
  submit_answers 4 nested_ibs (fun r => is_out_of_bounds r = true) /\
  submit_answers 8 tiled_ibs (fun r => answered_with true (fun _ => true) r = true) /\
  submit_answers 16 tiled_ibs (fun r => answered_with false (fun _ => true) r = true) /\
  submit_answers 6 test_groups (fun r =>
    answered_with true (fun t => bool_decide (sees_register t = [true; true; true]) &&
                                 bool_decide (m_enable_mask_stack t = [])) r = true) /\
  submit_answers 6 chained_groups (fun r =>
    answered_with true (fun t => bool_decide (sees_register t = [true; false; false]) &&
                                 bool_decide (m_enable_mask_stack t = [7])) r = true).
Proof.
  split; [intros A fuel submit info t mem; apply unknown_loops|].
  split_and!; apply (submit_answers_run 40);
    match goal with |- _ = true => vm_compute; reflexivity
    | |- run_submit ?n ?s ?i ?t ?m <> _ => idtac end.
  - apply is_out_of_bounds_fuel. vm_compute. reflexivity.
  - apply (answered_with_fuel true (fun _ => true)). vm_compute. reflexivity.
  - apply (answered_with_fuel false (fun _ => true)). vm_compute. reflexivity.
  - apply (answered_with_fuel true (fun _ => true)). vm_compute. reflexivity.
  - apply (answered_with_fuel true (fun _ => true)). vm_compute. reflexivity.
Qed.
End Examples.
