(* ===== verification/BlockData.v ===== *)
(** * The blocks of a GFXR capture and their modifications

    [DiveBlockData] and the visitors of [src/gfxr_ext/decode/dive_block_data.{h,cpp}],
    but for writing files, which is in [GfxrFile]. The two std::maps are [gmap]s
    that are iterated in the order of their keys ([in_order]). A method takes the
    object and gives the new one and its result.

    [layout] is the abstract view of the object: one map from positions
    (primary id, secondary id) to blocks, read in lexicographic order, in which
    an edit at (p, 0) hides the original block p. *)

From S2P Require Import Prelude.
From stdpp Require Import sorting.
#[local] Open Scope Z_scope.

(** ** Maps in the order of their keys *)
Section ordered.
Context {K A : Type} `{Countable K} (R : relation K) `{!RelDecision R}.

Definition by_key (a b : K * A) : Prop := R a.1 b.1.

#[global] Instance by_key_dec : RelDecision by_key.
Proof. unfold by_key. intros a b. apply _. Defined.

(** The iteration of a std::map whose keys are compared by [R]. *)
Definition in_order (m : gmap K A) : list (K * A) :=
  merge_sort by_key (map_to_list m).

Context `{!PartialOrder R, !Total R}.

#[local] Instance by_key_trans : Transitive by_key.
Proof. intros a b c. apply (transitivity (R := R)). Qed.

#[local] Instance by_key_total : Total by_key.
Proof. intros a b. apply (total R). Qed.

Lemma in_order_Permutation (m : gmap K A) : in_order m ≡ₚ map_to_list m.
Proof. apply merge_sort_Permutation. Qed.

Lemma elem_of_in_order (m : gmap K A) k x : (k, x) ∈ in_order m <-> m !! k = Some x.
Proof. by rewrite in_order_Permutation, elem_of_map_to_list. Qed.

Lemma in_order_sorted (m : gmap K A) :
  StronglySorted by_key (in_order m).
Proof. apply (StronglySorted_merge_sort by_key). Qed.

Lemma in_order_keys_NoDup (m : gmap K A) : NoDup (in_order m).*1.
Proof. rewrite in_order_Permutation. apply NoDup_fst_map_to_list. Qed.

(** A sorted list of the entries of a map is its iteration. *)
Lemma in_order_unique (m : gmap K A) l :
  StronglySorted by_key l -> NoDup l.*1 ->
  (forall k x, (k, x) ∈ l <-> m !! k = Some x) -> in_order m = l.
Proof.
  intros Hs Hd Hl.
  assert (Hp : in_order m ≡ₚ l).
  { rewrite in_order_Permutation. apply NoDup_Permutation.
    - apply NoDup_map_to_list.
    - by apply NoDup_fmap_1 in Hd.
    - intros [k x]. by rewrite elem_of_map_to_list, Hl. }
  apply (StronglySorted_unique_strong by_key); [|apply in_order_sorted|done..].
  intros [k1 x1] [k2 x2] H1 H2 H12 H21. simpl in *.
  assert (k1 = k2) as <- by (by apply (anti_symm R)).
  apply elem_of_in_order in H1. apply Hl in H2. congruence.
Qed.
End ordered.

(** ** Blocks and visitors *)

(** The size of the buffer through which an original block is copied. *)
Definition kDiveBlockBufferSize : Z := 4096.

(** A shared_ptr to a vector of characters: who adds a modification may change
    its contents until the file is written. *)
Definition Blob := Z.

Record DiveOriginalBlock := mkDiveOriginalBlock { offset_ : Z; size_ : Z }.

Record DiveModificationBlock := mkDiveModificationBlock { blob_ptr_ : Blob }.

(** The two classes that are derived from [IDiveBlock]. *)
Inductive IDiveBlock :=
| Original (block : DiveOriginalBlock)
| Modification (block : DiveModificationBlock).

#[global] Instance DiveOriginalBlock_eq_dec : EqDecision DiveOriginalBlock.
Proof. solve_decision. Defined.

#[global] Instance DiveModificationBlock_eq_dec : EqDecision DiveModificationBlock.
Proof. solve_decision. Defined.

#[global] Instance IDiveBlock_eq_dec : EqDecision IDiveBlock.
Proof. solve_decision. Defined.

(** A visitor with state [V] (its members and what they point to). *)
Class BlockVisitor (V : Type) := {
  VisitOriginal : DiveOriginalBlock -> V -> V * bool;
  VisitModification : DiveModificationBlock -> V -> V * bool;
}.

Definition Accept {V} `{BlockVisitor V} (block : IDiveBlock) (visitor : V) : V * bool :=
  match block with
  | Original b => VisitOriginal b visitor
  | Modification b => VisitModification b visitor
  end.

(** ** DiveBlockData *)

(** In [modifications_map_], [None] is the null pointer. *)
Record DiveBlockData := mkDiveBlockData {
  original_blocks_map_ : list DiveOriginalBlock;
  original_header_block_ : DiveOriginalBlock;
  original_blocks_map_locked_ : bool;
  modifications_map_ : gmap Z (gmap Z (option IDiveBlock));
}.

Definition new_DiveBlockData : DiveBlockData :=
  mkDiveBlockData [] (mkDiveOriginalBlock 0 0) false ∅.

Definition set_modifications (m : gmap Z (gmap Z (option IDiveBlock))) (d : DiveBlockData) :=
  mkDiveBlockData (original_blocks_map_ d) (original_header_block_ d)
    (original_blocks_map_locked_ d) m.

Definition num_blocks (d : DiveBlockData) : Z := Z.of_nat (length (original_blocks_map_ d)).

Definition AddOriginalBlock (index offset : Z) (d : DiveBlockData) : DiveBlockData * bool :=
  if original_blocks_map_locked_ d then (d, false)
  else if negb (index =? num_blocks d) then (d, false)
  else
    (mkDiveBlockData (original_blocks_map_ d ++ [mkDiveOriginalBlock offset 0])
       (original_header_block_ d) false (modifications_map_ d), true).

(** The loop over all blocks but the last, which ends where the offsets descend. *)
Fixpoint set_block_sizes (blocks : list DiveOriginalBlock) : list DiveOriginalBlock * bool :=
  match blocks with
  | b :: ((b' :: _) as rest) =>
      if offset_ b' <? offset_ b then (blocks, false)
      else
        let '(rest', ok) := set_block_sizes rest in
        (mkDiveOriginalBlock (offset_ b) (offset_ b' - offset_ b) :: rest', ok)
  | _ => (blocks, true)
  end.

Definition set_last_size (file_size : Z) (blocks : list DiveOriginalBlock) :=
  alter (fun b => mkDiveOriginalBlock (offset_ b) (u64 (file_size - offset_ b)))
    (pred (length blocks)) blocks.

Definition FinalizeOriginalBlocksMapSizes (file_size : Z) (d : DiveBlockData) :
    DiveBlockData * bool :=
  if original_blocks_map_locked_ d then (d, true)
  else
    match original_blocks_map_ d with
    | [] => (d, false)
    | first_block :: _ =>
        let header := mkDiveOriginalBlock 0 (offset_ first_block) in
        let '(blocks, ok) := set_block_sizes (original_blocks_map_ d) in
        if ok then
          (mkDiveBlockData (set_last_size file_size blocks) header true (modifications_map_ d), true)
        else (mkDiveBlockData blocks header false (modifications_map_ d), false)
    end.

Definition ModificationExists (primary_id secondary_id : Z) (d : DiveBlockData) : bool :=
  match modifications_map_ d !! primary_id with
  | None => false
  | Some m => bool_decide (is_Some (m !! secondary_id))
  end.

(** [modifications_map_[primary_id]], which the operator creates when it is
    not there. *)
Definition modifications_at (primary_id : Z) (d : DiveBlockData) : gmap Z (option IDiveBlock) :=
  default ∅ (modifications_map_ d !! primary_id).

Definition put_modification (primary_id secondary_id : Z) (block : option IDiveBlock)
    (d : DiveBlockData) : DiveBlockData :=
  set_modifications
    (<[primary_id := <[secondary_id := block]> (modifications_at primary_id d)]>
       (modifications_map_ d)) d.

Definition AddModification (primary_id secondary_id : Z) (blob_ptr : option Blob)
    (d : DiveBlockData) : DiveBlockData * bool :=
  if negb (original_blocks_map_locked_ d) then (d, false)
  else if ModificationExists primary_id secondary_id d then (d, false)
  else if num_blocks d <=? primary_id then (d, false)
  else
    match blob_ptr with
    | None =>
        if negb (secondary_id =? 0) then (d, false)
        else (put_modification primary_id secondary_id None d, true)
    | Some blob =>
        (put_modification primary_id secondary_id
           (Some (Modification (mkDiveModificationBlock blob))) d, true)
    end.

Definition RemoveModification (primary_id secondary_id : Z) (d : DiveBlockData) :
    DiveBlockData * bool :=
  if negb (ModificationExists primary_id secondary_id d) then (d, false)
  else
    (set_modifications
       (<[primary_id := delete secondary_id (modifications_at primary_id d)]>
          (modifications_map_ d)) d, true).

Definition ClearAllModifications (d : DiveBlockData) : DiveBlockData := set_modifications ∅ d.

Section traverse.
Context {V : Type} `{BlockVisitor V}.

(** The blocks of one primary id, ordered by their secondary ids. *)
Definition blocks_to_write (primary_id : Z) (block : DiveOriginalBlock) (d : DiveBlockData) :
    gmap Z (option IDiveBlock) :=
  let blocks := modifications_at primary_id d in
  match blocks !! 0 with
  | None => <[0 := Some (Original block)]> blocks
  | Some _ => blocks
  end.

Fixpoint visit_blocks (blocks : list (option IDiveBlock)) (visitor : V) : V * bool :=
  match blocks with
  | [] => (visitor, true)
  | None :: rest => visit_blocks rest visitor
  | Some block :: rest =>
      let '(visitor, ok) := Accept block visitor in
      if ok then visit_blocks rest visitor else (visitor, false)
  end.

(** The loop over the primary ids; [None] when the fuel runs out. The ids are 32
    bits wide, the number of blocks is a size_t. *)
Fixpoint traverse_from (fuel : nat) (primary_id : Z) (d : DiveBlockData) (visitor : V) :
    option (V * bool) :=
  match fuel with
  | O => None
  | S fuel =>
      match original_blocks_map_ d !! Z.to_nat primary_id with
      | None => Some (visitor, true)
      | Some block =>
          let '(visitor, ok) :=
            visit_blocks (in_order Z.le (blocks_to_write primary_id block d)).*2 visitor in
          if ok then traverse_from fuel (u32 (primary_id + 1)) d visitor
          else Some (visitor, false)
      end
  end.

Definition TraverseBlocks (d : DiveBlockData) (visitor : V) : option (V * bool) :=
  traverse_from (S (length (original_blocks_map_ d))) 0 d visitor.
End traverse.

(** What the blobs hold while the blocks are traversed. *)
Definition Blobs := Blob -> list byte.

(** [TestBlockVisitor], whose state is [traversed_]. *)
Definition TestBlockVisitor (blobs : Blobs) : BlockVisitor (list string) := {|
  VisitOriginal block traversed :=
    (traversed ++ [String.app "original, offset:" (String.app (pretty (Z.to_N (offset_ block)))
                    (String.app ", size:" (pretty (Z.to_N (size_ block)))))], true);
  VisitModification block traversed :=
    match blobs (blob_ptr_ block) with
    | [] => (traversed, false)
    | blob => (traversed ++ [String.app "modified, content length:"
                              (pretty (N.of_nat (length blob)))], true)
    end;
|}.

(** ** The layout: one map in lexicographic order *)

Definition lex (a b : Z * Z) : Prop := a.1 < b.1 \/ a.1 = b.1 /\ a.2 <= b.2.

#[global] Instance lex_dec : RelDecision lex.
Proof. unfold lex. intros a b. apply _. Defined.

#[global] Instance lex_PartialOrder : PartialOrder lex.
Proof.
  unfold lex. split; [split|].
  - intros [p s]. simpl. lia.
  - intros [p1 s1] [p2 s2] [p3 s3]. simpl. lia.
  - intros [p1 s1] [p2 s2] H1 H2. simpl in *. f_equal; lia.
Qed.

#[global] Instance lex_Total : Total lex.
Proof. unfold lex. intros [p1 s1] [p2 s2]. simpl. lia. Qed.

(** The original blocks at their positions, the first one at (i, 0). *)
Fixpoint originals_from (i : Z) (blocks : list DiveOriginalBlock) :
    gmap (Z * Z) (option IDiveBlock) :=
  match blocks with
  | [] => ∅
  | b :: blocks => <[(i, 0) := Some (Original b)]> (originals_from (i + 1) blocks)
  end.

Definition layout (blocks : list DiveOriginalBlock) (edits : gmap (Z * Z) (option IDiveBlock)) :
    list (option IDiveBlock) :=
  (in_order lex (edits ∪ originals_from 0 blocks)).*2.

Definition edits_of (d : DiveBlockData) : gmap (Z * Z) (option IDiveBlock) :=
  map_uncurry (M1:=gmap Z) (M2:=gmap Z) (M12:=gmap (Z * Z)) (modifications_map_ d).

Lemma lookup_originals i blocks p s :
  originals_from i blocks !! (p, s) =
  if decide (s = 0 /\ i <= p) then (fun b => Some (Original b)) <$> blocks !! Z.to_nat (p - i)
  else None.
Proof.
  revert i. induction blocks as [|b blocks IH]; intros i; simpl.
  { rewrite lookup_empty. by case_decide. }
  destruct (decide ((p, s) = (i, 0))) as [[= -> ->]|Hne].
  { rewrite lookup_insert_eq, decide_True, Z.sub_diag by lia. done. }
  rewrite lookup_insert_ne, IH by congruence. clear IH.
  destruct (decide (s = 0 /\ i + 1 <= p)) as [[-> Hp]|Hn].
  - rewrite decide_True by lia.
    by replace (Z.to_nat (p - i)) with (S (Z.to_nat (p - (i + 1)))) by lia.
  - rewrite decide_False; [done|]. intros [-> Hp].
    assert (p <> i) by congruence. lia.
Qed.

Lemma lookup_edits_of d p s : edits_of d !! (p, s) = modifications_at p d !! s.
Proof.
  unfold edits_of, modifications_at. rewrite lookup_map_uncurry.
  by destruct (modifications_map_ d !! p); simpl; rewrite ?lookup_empty.
Qed.

Lemma lookup_blocks_to_write p b d s :
  blocks_to_write p b d !! s =
  edits_of d !! (p, s) ∪ (if decide (s = 0) then Some (Some (Original b)) else None).
Proof.
  unfold blocks_to_write. rewrite lookup_edits_of.
  destruct (modifications_at p d !! 0) as [x|] eqn:E.
  - case_decide as Hs; [subst; by rewrite E|by destruct (modifications_at p d !! s)].
  - case_decide as Hs.
    + subst. by rewrite lookup_insert_eq, E.
    + rewrite lookup_insert_ne by done. by destruct (modifications_at p d !! s).
Qed.

Section traversal.
Context {V : Type} `{BlockVisitor V}.
Implicit Types (d : DiveBlockData) (v : V).

(** The entries in the order of the loops, with their positions. *)
Fixpoint entries_from (i : Z) (blocks : list DiveOriginalBlock) d :
    list ((Z * Z) * option IDiveBlock) :=
  match blocks with
  | [] => []
  | b :: blocks =>
      ((fun e => ((i, e.1), e.2)) <$> in_order Z.le (blocks_to_write i b d))
      ++ entries_from (i + 1) blocks d
  end.

Lemma visit_blocks_app bs1 bs2 v :
  visit_blocks (bs1 ++ bs2) v =
  let '(v, ok) := visit_blocks bs1 v in if ok then visit_blocks bs2 v else (v, false).
Proof.
  revert v. induction bs1 as [|[b|] bs1 IH]; intros v; simpl; [done| |done].
  destruct (Accept b v) as [v' []]; [apply IH|done].
Qed.

Lemma traverse_from_entries blocks fuel i d v :
  original_blocks_map_ d = take i (original_blocks_map_ d) ++ blocks ->
  (i <= length (original_blocks_map_ d))%nat ->
  Z.of_nat (length (original_blocks_map_ d)) < 2 ^ 32 ->
  (length blocks < fuel)%nat ->
  traverse_from fuel (Z.of_nat i) d v =
  Some (visit_blocks (entries_from (Z.of_nat i) blocks d).*2 v).
Proof.
  revert fuel i v. induction blocks as [|b blocks IH]; intros [|fuel] i v Hd Hi Hn Hf; simpl in *;
    try lia; rewrite Nat2Z.id.
  - rewrite app_nil_r in Hd. rewrite lookup_ge_None_2; [done|].
    apply (f_equal length) in Hd. rewrite length_take in Hd. lia.
  - assert (Hb : original_blocks_map_ d !! i = Some b).
    { rewrite Hd, lookup_app_r; rewrite length_take, Nat.min_l; try lia. by rewrite Nat.sub_diag. }
    rewrite Hb, fmap_app, visit_blocks_app, <- list_fmap_compose.
    replace (snd ∘ (fun e => ((Z.of_nat i, e.1), e.2)))
      with (@snd Z (option IDiveBlock)) by done.
    destruct (visit_blocks _ _) as [v' []]; [|done].
    assert (i < length (original_blocks_map_ d))%nat by (by eapply lookup_lt_Some).
    rewrite wrap_small by (unfold in_width; lia).
    replace (Z.of_nat i + 1) with (Z.of_nat (S i)) by lia.
    apply IH; try lia. rewrite Hd at 1.
    by rewrite (take_S_r _ _ _ Hb), <- app_assoc.
Qed.
End traversal.

Lemma option_union_Some_l {A} (y : A) (o : option A) : Some y ∪ o = Some y.
Proof. by destruct o. Qed.

Lemma option_union_None_l {A} (o : option A) : None ∪ o = o.
Proof. by destruct o. Qed.

Section layout.
Implicit Types d : DiveBlockData.

Lemma elem_of_entries blocks i d p s x :
  ((p, s), x) ∈ entries_from i blocks d <->
  i <= p /\ exists b, blocks !! Z.to_nat (p - i) = Some b /\ blocks_to_write p b d !! s = Some x.
Proof.
  revert i. induction blocks as [|b blocks IH]; intros i; simpl.
  { rewrite elem_of_nil. split; [done|]. by intros (_ & b & ? & _). }
  rewrite elem_of_app, IH, list_elem_of_fmap. split.
  - intros [([s' x'] & Heq & Hin)|(Hp & b' & Hb & Hx)].
    + injection Heq as -> -> ->. apply elem_of_in_order in Hin. split; [lia|]. exists b. by rewrite Z.sub_diag.
    + split; [lia|]. exists b'. split; [|done].
      by replace (Z.to_nat (p - i)) with (S (Z.to_nat (p - (i + 1)))) by lia.
  - intros (Hp & b' & Hb & Hx). destruct (decide (p = i)) as [->|Hne].
    + left. rewrite Z.sub_diag in Hb. simplify_eq/=. exists (s, x).
      split; [done|]. by apply elem_of_in_order.
    + right. split; [lia|]. exists b'. split; [|done].
      by replace (Z.to_nat (p - i)) with (S (Z.to_nat (p - (i + 1)))) in Hb by lia.
Qed.

Lemma StronglySorted_position i (l : list (Z * option IDiveBlock)) :
  StronglySorted (by_key Z.le) l ->
  StronglySorted (by_key lex) ((fun e => ((i, e.1), e.2)) <$> l).
Proof.
  induction 1 as [|e l _ IH Hall]; csimpl; constructor; [done|].
  apply Forall_fmap. eapply Forall_impl; [done|]. intros e' He. right. split; [done|exact He].
Qed.

Lemma entries_sorted blocks i d : StronglySorted (by_key lex) (entries_from i blocks d).
Proof.
  revert i. induction blocks as [|b blocks IH]; intros i; simpl; [constructor|].
  apply StronglySorted_app_2; [|apply StronglySorted_position, in_order_sorted; apply _|apply IH].
  intros e1 [[p s] x] He1 He2. apply list_elem_of_fmap in He1 as (e & -> & _).
  apply elem_of_entries in He2 as [Hp _]. left. simpl. lia.
Qed.

Lemma entries_keys_NoDup blocks i d : NoDup (entries_from i blocks d).*1.
Proof.
  revert i. induction blocks as [|b blocks IH]; intros i; simpl; [constructor|].
  rewrite fmap_app, <- list_fmap_compose. apply NoDup_app. split_and!; [|intros [p s]|apply IH].
  - change (NoDup ((fun e => (i, e.1)) <$> in_order Z.le (blocks_to_write i b d))).
    rewrite (list_fmap_compose fst (pair i) : forall l, (fun e => (i, e.1)) <$> l = _).
    apply NoDup_fmap_2; [apply _|]. apply in_order_keys_NoDup.
  - intros (e & -> & _)%list_elem_of_fmap ([[p' s'] x] & Hk & Hin)%list_elem_of_fmap.
    apply elem_of_entries in Hin as [Hp _]. simpl in Hk. simplify_eq. lia.
Qed.

(** Every edit is at the position of a block. *)
Definition edits_in_range d : Prop :=
  forall p s x, edits_of d !! (p, s) = Some x -> 0 <= p < num_blocks d.

Lemma layout_entries d : edits_in_range d ->
  layout (original_blocks_map_ d) (edits_of d) = (entries_from 0 (original_blocks_map_ d) d).*2.
Proof.
  intros Hr. unfold layout. f_equal.
  apply (in_order_unique lex); [apply entries_sorted|apply entries_keys_NoDup|].
  intros [p s] x. rewrite elem_of_entries, Z.sub_0_r, lookup_union.
  rewrite lookup_originals, Z.sub_0_r. split.
  - intros (Hp & b & Hb & Hx). rewrite <- Hx, lookup_blocks_to_write, Hb.
    f_equal. case_decide as H1; case_decide as H2; try done; lia.
  - destruct (edits_of d !! (p, s)) as [y|] eqn:E.
    + pose proof (Hr _ _ _ E) as Hp. unfold num_blocks in Hp. intros Hx. split; [lia|].
      destruct (lookup_lt_is_Some_2 (original_blocks_map_ d) (Z.to_nat p)) as [b Hb]; [lia|].
      exists b. split; [done|]. rewrite lookup_blocks_to_write, E.
      by rewrite option_union_Some_l, <- Hx, option_union_Some_l.
    + rewrite option_union_None_l. case_decide as Hs; [|done]. destruct Hs as [-> Hp].
      intros (b & Hb & ->)%fmap_Some. split; [done|]. exists b. split; [done|].
      by rewrite lookup_blocks_to_write, E, decide_True.
Qed.

Lemma TraverseBlocks_layout {V} `{BlockVisitor V} d (v : V) :
  edits_in_range d -> num_blocks d < 2 ^ 32 ->
  TraverseBlocks d v = Some (visit_blocks (layout (original_blocks_map_ d) (edits_of d)) v).
Proof.
  intros Hr Hn. rewrite layout_entries by done. unfold TraverseBlocks.
  apply (traverse_from_entries _ _ 0%nat); [done| |exact Hn|]; lia.
Qed.
End layout.

(** What the traversal of a layout means: the blocks that are there are visited in turn,
    each by its kind, as long as the visits succeed. *)
Definition visit_block {V} `{BlockVisitor V} (block : IDiveBlock) (visitor : V) : V * bool :=
  match block with
  | Original block => VisitOriginal block visitor
  | Modification block => VisitModification block visitor
  end.

Definition visit_in_turn {V} `{BlockVisitor V} (blocks : list IDiveBlock) (visitor : V) : V * bool :=
  foldl (fun '(visitor, ok) block => if ok : bool then visit_block block visitor else (visitor, false))
    (visitor, true) blocks.

Lemma visit_failed {V} `{BlockVisitor V} (blocks : list IDiveBlock) (visitor : V) :
  foldl (fun '(visitor, ok) block => if ok : bool then visit_block block visitor else (visitor, false))
    (visitor, false) blocks = (visitor, false).
Proof. by induction blocks. Qed.

Lemma visit_blocks_in_turn {V} `{BlockVisitor V} (blocks : list (option IDiveBlock)) (visitor : V) :
  visit_blocks blocks visitor = visit_in_turn (omap id blocks) visitor.
Proof.
  revert visitor. induction blocks as [|[b|] blocks IH]; intros visitor; cbn [visit_blocks omap list_omap id]; [done| |apply IH].
  unfold visit_in_turn. cbn [foldl]. assert (Accept b visitor = visit_block b visitor) as -> by by destruct b.
  destruct (visit_block b visitor) as [visitor' []]; [apply IH|by rewrite visit_failed].
Qed.

(** ** The abstract specification

    The offsets of the blocks, the size of the file once it is known, and the edits
    as one map. *)

Record Edited := mkEdited {
  ed_offsets : list Z;
  ed_file_size : option Z;
  ed_edits : gmap (Z * Z) (option Blob);
}.

(** Every block ends where the next one begins, the last one with the file. *)
Fixpoint extents (file_size : Z) (offsets : list Z) : list DiveOriginalBlock :=
  match offsets with
  | [] => []
  | [o] => [mkDiveOriginalBlock o (u64 (file_size - o))]
  | o :: ((o' :: _) as rest) => mkDiveOriginalBlock o (o' - o) :: extents file_size rest
  end.

Fixpoint ascending (offsets : list Z) : bool :=
  match offsets with
  | o :: ((o' :: _) as rest) => negb (o' <? o) && ascending rest
  | _ => true
  end.

Definition to_block (blob : option Blob) : option IDiveBlock :=
  (fun b => Modification (mkDiveModificationBlock b)) <$> blob.

(** What is written after the header of the file, in order. *)
Definition ed_layout (file_size : Z) (e : Edited) : list (option IDiveBlock) :=
  layout (extents file_size (ed_offsets e)) (to_block <$> ed_edits e).

Inductive BlockOp :=
| OpAddOriginal (index offset : Z)
| OpFinalize (file_size : Z)
| OpExists (primary_id secondary_id : Z)
| OpAdd (primary_id secondary_id : Z) (blob : option Blob)
| OpRemove (primary_id secondary_id : Z)
| OpClear.

Definition apply_op (op : BlockOp) (d : DiveBlockData) : DiveBlockData * bool :=
  match op with
  | OpAddOriginal index offset => AddOriginalBlock index offset d
  | OpFinalize file_size => FinalizeOriginalBlocksMapSizes file_size d
  | OpExists p s => (d, ModificationExists p s d)
  | OpAdd p s blob => AddModification p s blob d
  | OpRemove p s => RemoveModification p s d
  | OpClear => (ClearAllModifications d, true)
  end.

Definition spec_op (op : BlockOp) (e : Edited) : Edited * bool :=
  let open := bool_decide (ed_file_size e = None) in
  let exist p s := bool_decide (is_Some (ed_edits e !! (p, s))) in
  let n := Z.of_nat (length (ed_offsets e)) in
  let with_edits m := mkEdited (ed_offsets e) (ed_file_size e) m in
  let check (b : bool) (e' : Edited) := if b then (e', true) else (e, false) in
  match op with
  | OpAddOriginal index offset =>
      check (open && (index =? n)) (mkEdited (ed_offsets e ++ [offset]) None (ed_edits e))
  | OpFinalize file_size =>
      if open
      then check ((0 <? n) && ascending (ed_offsets e))
             (mkEdited (ed_offsets e) (Some file_size) (ed_edits e))
      else (e, true)
  | OpExists p s => (e, exist p s)
  | OpAdd p s blob =>
      check (negb open && negb (exist p s) && (p <? n) && (bool_decide (is_Some blob) || (s =? 0)))
        (with_edits (<[(p, s) := blob]> (ed_edits e)))
  | OpRemove p s => check (exist p s) (with_edits (delete (p, s) (ed_edits e)))
  | OpClear => (with_edits ∅, true)
  end.

Fixpoint run_ops {A B} (step : BlockOp -> A -> A * B) (ops : list BlockOp) (a : A) : A * list B :=
  match ops with
  | [] => (a, [])
  | op :: ops =>
      let '(a, r) := step op a in
      let '(a, rs) := run_ops step ops a in
      (a, r :: rs)
  end.

(** The ids of the methods are unsigned. *)
Definition op_ok (op : BlockOp) : Prop :=
  match op with OpAdd p _ _ => 0 <= p | _ => True end.

Record represents (d : DiveBlockData) (e : Edited) : Prop := {
  rep_offsets : offset_ <$> original_blocks_map_ d = ed_offsets e;
  rep_locked : original_blocks_map_locked_ d = bool_decide (is_Some (ed_file_size e));
  rep_sizes : forall n, ed_file_size e = Some n ->
    original_blocks_map_ d = extents n (ed_offsets e) /\
    original_header_block_ d = mkDiveOriginalBlock 0 (hd 0 (ed_offsets e)) /\
    0 < Z.of_nat (length (ed_offsets e)) /\ ascending (ed_offsets e) = true;
  rep_edits : edits_of d = to_block <$> ed_edits e;
  rep_range : edits_in_range d;
  rep_null : forall p s, ed_edits e !! (p, s) = Some None -> s = 0;
  rep_unlocked : ed_file_size e = None -> ed_edits e = ∅;
}.

Lemma set_block_sizes_spec blocks :
  offset_ <$> (set_block_sizes blocks).1 = offset_ <$> blocks /\
  (set_block_sizes blocks).2 = ascending (offset_ <$> blocks) /\
  (ascending (offset_ <$> blocks) = true ->
   forall file_size, set_last_size file_size (set_block_sizes blocks).1
     = extents file_size (offset_ <$> blocks)).
Proof.
  induction blocks as [|b [|b' blocks] IH]; [done..|].
  destruct IH as (IH1 & IH2 & IH3).
  change (ascending (offset_ <$> b :: b' :: blocks))
    with (negb (offset_ b' <? offset_ b) && ascending (offset_ <$> b' :: blocks)).
  cbn [set_block_sizes]. destruct (offset_ b' <? offset_ b); simpl; [done|].
  change (match blocks with [] => _ | _ => _ end) with (set_block_sizes (b' :: blocks)).
  destruct (set_block_sizes (b' :: blocks)) as [[|b1 bs] ok] eqn:E; simpl in *; [done|].
  split_and!; [by f_equal|done|].
  intros Ha file_size. specialize (IH3 Ha file_size). unfold set_last_size in *. simpl in *.
  by f_equal.
Qed.

Lemma edits_of_put p s x d : edits_of (put_modification p s x d) = <[(p, s) := x]> (edits_of d).
Proof.
  apply map_eq. intros [p' s']. rewrite lookup_edits_of. unfold modifications_at at 1. simpl.
  destruct (decide (p' = p)) as [->|Hp].
  - rewrite lookup_insert_eq. simpl. destruct (decide (s' = s)) as [->|Hs].
    + by rewrite !lookup_insert_eq.
    + by rewrite !lookup_insert_ne, lookup_edits_of by congruence.
  - rewrite !lookup_insert_ne, lookup_edits_of by congruence. done.
Qed.

Lemma edits_of_remove p s d :
  edits_of (set_modifications
     (<[p := delete s (modifications_at p d)]> (modifications_map_ d)) d)
  = delete (p, s) (edits_of d).
Proof.
  apply map_eq. intros [p' s']. rewrite lookup_edits_of. unfold modifications_at at 1. simpl.
  destruct (decide (p' = p)) as [->|Hp].
  - rewrite lookup_insert_eq. simpl. destruct (decide (s' = s)) as [->|Hs].
    + by rewrite !lookup_delete_eq.
    + by rewrite !lookup_delete_ne, lookup_edits_of by congruence.
  - rewrite lookup_insert_ne, lookup_delete_ne, lookup_edits_of by congruence. done.
Qed.

Lemma ModificationExists_edits p s d :
  ModificationExists p s d = bool_decide (is_Some (edits_of d !! (p, s))).
Proof.
  rewrite lookup_edits_of. unfold ModificationExists, modifications_at.
  by destruct (modifications_map_ d !! p); simpl; rewrite ?lookup_empty.
Qed.

Section simulation.
Implicit Types (d : DiveBlockData) (e : Edited).

Definition simulates (op : BlockOp) d e : Prop :=
  represents (apply_op op d).1 (spec_op op e).1 /\ (apply_op op d).2 = (spec_op op e).2.

Lemma rep_length d e : represents d e -> num_blocks d = Z.of_nat (length (ed_offsets e)).
Proof. intros Hr. unfold num_blocks. by rewrite <- (rep_offsets _ _ Hr), length_fmap. Qed.

Lemma rep_exists d e p s : represents d e ->
  ModificationExists p s d = bool_decide (is_Some (ed_edits e !! (p, s))).
Proof.
  intros Hr. rewrite ModificationExists_edits, (rep_edits _ _ Hr), lookup_fmap.
  by apply bool_decide_ext, fmap_is_Some.
Qed.

(** Unlocked: there are offsets and nothing else. *)
Lemma represents_unlocked d e :
  offset_ <$> original_blocks_map_ d = ed_offsets e -> original_blocks_map_locked_ d = false ->
  edits_of d = ∅ -> ed_file_size e = None -> ed_edits e = ∅ -> represents d e.
Proof.
  intros Ho Hl He Hf Hd. split; try done.
  - by rewrite Hl, Hf.
  - by rewrite Hf.
  - by rewrite He, Hd, fmap_empty.
  - intros p s x. by rewrite He, lookup_empty.
  - intros p s. by rewrite Hd, lookup_empty.
Qed.

Lemma rep_no_edits d e : represents d e -> ed_file_size e = None -> edits_of d = ∅.
Proof. intros Hr Hf. by rewrite (rep_edits _ _ Hr), (rep_unlocked _ _ Hr Hf), fmap_empty. Qed.

Lemma AddOriginal_simulates index offset d e :
  represents d e -> simulates (OpAddOriginal index offset) d e.
Proof.
  intros Hr. unfold simulates. simpl. unfold AddOriginalBlock.
  rewrite (rep_locked _ _ Hr), (rep_length _ _ Hr).
  destruct (ed_file_size e) as [n|] eqn:Hf; simpl; [done|].
  destruct (index =? _) eqn:Hi; simpl; [|done]. split; [|done].
  apply represents_unlocked; simpl; [|done|by apply (rep_no_edits d e)|done|by apply (rep_unlocked d e)].
  by rewrite fmap_app, (rep_offsets _ _ Hr).
Qed.

Lemma offsets_extents n offsets : offset_ <$> extents n offsets = offsets.
Proof.
  induction offsets as [|o [|o' offsets] IH]; [done..|].
  cbn [extents fmap list_fmap offset_] in *. by f_equal.
Qed.

(** Locked: the blocks are the extents. *)
Lemma represents_locked n d e :
  original_blocks_map_ d = extents n (ed_offsets e) ->
  original_header_block_ d = mkDiveOriginalBlock 0 (hd 0 (ed_offsets e)) ->
  original_blocks_map_locked_ d = true -> ed_file_size e = Some n ->
  0 < Z.of_nat (length (ed_offsets e)) -> ascending (ed_offsets e) = true ->
  edits_of d = to_block <$> ed_edits e -> edits_in_range d ->
  (forall p s, ed_edits e !! (p, s) = Some None -> s = 0) -> represents d e.
Proof.
  intros Hb Hh Hl Hf Hn Ha He Hr Hz. split; try done.
  - by rewrite Hb, offsets_extents.
  - by rewrite Hl, Hf.
  - rewrite Hf. by intros ? [= <-].
  - by rewrite Hf.
Qed.

Lemma Finalize_simulates file_size d e :
  represents d e -> simulates (OpFinalize file_size) d e.
Proof.
  intros Hr. unfold simulates. simpl. unfold FinalizeOriginalBlocksMapSizes.
  rewrite (rep_locked _ _ Hr).
  destruct (ed_file_size e) as [n|] eqn:Hf; cbn -[ascending]; [done|].
  destruct (set_block_sizes_spec (original_blocks_map_ d)) as (H1 & H2 & H3).
  rewrite (rep_offsets _ _ Hr) in H1, H2, H3. rewrite <- H2.
  rewrite <- (rep_length _ _ Hr). unfold num_blocks.
  pose proof (rep_no_edits _ _ Hr Hf) as He. pose proof (rep_unlocked _ _ Hr Hf) as Hu.
  destruct (original_blocks_map_ d) as [|b bs] eqn:Hb; [done|].
  pose proof (rep_offsets _ _ Hr) as Ho. rewrite Hb in Ho.
  destruct (set_block_sizes (b :: bs)) as [blocks ok]. simpl in H1, H2, H3. simpl.
  destruct ok; simpl; (split; [|done]).
  - apply (represents_locked file_size); simpl; try done.
    + by apply H3.
    + by rewrite <- Ho.
    + rewrite <- Ho. simpl. lia.
    + by rewrite Hu, fmap_empty.
    + intros p s x. change (edits_of _) with (edits_of d). by rewrite He, lookup_empty.
    + intros p s. by rewrite Hu, lookup_empty.
  - by apply represents_unlocked.
Qed.

(** A change of the edits alone keeps everything else. *)
Lemma represents_edits d e m m' :
  represents d e -> edits_of (set_modifications m d) = to_block <$> m' ->
  edits_in_range (set_modifications m d) ->
  (forall p s, m' !! (p, s) = Some None -> s = 0) ->
  (ed_file_size e = None -> m' = ∅) ->
  represents (set_modifications m d) (mkEdited (ed_offsets e) (ed_file_size e) m').
Proof.
  intros Hr He Hrange Hz Hu. split; try done; simpl; [apply Hr|apply Hr|].
  intros n Hn. by apply Hr.
Qed.

Lemma Add_simulates p s blob d e :
  represents d e -> 0 <= p -> simulates (OpAdd p s blob) d e.
Proof.
  intros Hr Hp. unfold simulates. simpl. unfold AddModification.
  rewrite (rep_locked _ _ Hr), (rep_exists _ _ _ _ Hr), (rep_length _ _ Hr).
  destruct (ed_file_size e) as [n|] eqn:Hf; simpl; [|done].
  destruct (bool_decide (is_Some (ed_edits e !! (p, s)))); simpl; [done|].
  rewrite Z.leb_antisym. destruct (p <? _) eqn:Hn; simpl; [|done].
  assert (Hput : forall x, (blob = None -> s = 0) -> x = to_block blob ->
    represents (put_modification p s x d)
      (mkEdited (ed_offsets e) (Some n) (<[(p, s) := blob]> (ed_edits e)))).
  { intros x Hs ->. rewrite <- Hf. apply represents_edits; [done|..|by rewrite Hf].
    - fold (put_modification p s (to_block blob) d).
      by rewrite edits_of_put, fmap_insert, (rep_edits _ _ Hr).
    - fold (put_modification p s (to_block blob) d). intros p' s' y.
      rewrite edits_of_put. destruct (decide ((p', s') = (p, s))) as [[= -> ->]|Hne].
      + intros _. change (num_blocks _) with (num_blocks d). rewrite (rep_length _ _ Hr). zbool. lia.
      + rewrite lookup_insert_ne by congruence. apply (rep_range _ _ Hr).
    - intros p' s'. destruct (decide ((p', s') = (p, s))) as [[= -> ->]|Hne].
      + rewrite lookup_insert_eq. intros [= ->]. by apply Hs.
      + rewrite lookup_insert_ne by congruence. apply (rep_null _ _ Hr). }
  destruct blob as [b|]; simpl.
  - split; [by apply Hput|done].
  - destruct (s =? 0) eqn:Hs; simpl; (split; [|done]); [|done]. apply Hput; [|done]. intros _. by zbool.
Qed.

Lemma Remove_simulates p s d e : represents d e -> simulates (OpRemove p s) d e.
Proof.
  intros Hr. unfold simulates. simpl. unfold RemoveModification. rewrite (rep_exists _ _ _ _ Hr).
  case_bool_decide as Hx; simpl; [|done]. split; [|done].
  apply represents_edits; [done|..].
  - by rewrite edits_of_remove, fmap_delete, (rep_edits _ _ Hr).
  - intros p' s' y. rewrite edits_of_remove. intros [_ Hl]%lookup_delete_Some.
    by apply (rep_range _ _ Hr) in Hl.
  - intros p' s' [_ Hl]%lookup_delete_Some. by apply (rep_null _ _ Hr) in Hl.
  - intros Hf. by rewrite (rep_unlocked _ _ Hr Hf), delete_empty.
Qed.

Lemma op_simulates op d e : represents d e -> op_ok op -> simulates op d e.
Proof.
  intros Hr Hok. destruct op as [i o|n|p s|p s blob|p s|].
  - by apply AddOriginal_simulates.
  - by apply Finalize_simulates.
  - split; [done|]. by apply rep_exists.
  - by apply Add_simulates.
  - by apply Remove_simulates.
  - split; [|done]. apply represents_edits; [done|..].
    + by rewrite fmap_empty.
    + intros p s x. change (edits_of (set_modifications ∅ d)) with (∅ : gmap (Z * Z) (option IDiveBlock)).
      by rewrite lookup_empty.
    + intros p s. by rewrite lookup_empty.
    + done.
Qed.

Lemma new_represents : represents new_DiveBlockData (mkEdited [] None ∅).
Proof. by apply represents_unlocked. Qed.

Lemma ops_simulate ops d e d' rs : represents d e -> Forall op_ok ops ->
  run_ops apply_op ops d = (d', rs) ->
  exists e', run_ops spec_op ops e = (e', rs) /\ represents d' e'.
Proof.
  revert d e d' rs. induction ops as [|op ops IH]; intros d e d' rs Hr Hok Hrun.
  { injection Hrun as <- <-. by exists e. }
  apply Forall_cons in Hok as [Hop Hok]. destruct (op_simulates op d e Hr Hop) as [Hr' Hres].
  cbn [run_ops] in *. destruct (apply_op op d) as [d1 r1], (spec_op op e) as [e1 r1'].
  simpl in Hr', Hres. subst r1'. destruct (run_ops apply_op ops d1) as [d2 rs2] eqn:E2.
  injection Hrun as <- <-. destruct (IH _ _ _ _ Hr' Hok E2) as (e' & -> & Hr''). by exists e'.
Qed.
End simulation.

(** C13: editing a capture works on one ordered map. Whatever sequence of
    operations is applied to a new object, blocks added, sizes calculated,
    modifications added, removed, looked up and cleared, each operation succeeds
    exactly when the specification allows it: blocks come in order and before the
    sizes, the sizes need at least one block and ascending offsets, an edit needs
    the sizes, a free position at an existing block, and contents unless it deletes
    the block itself (primary ids are unsigned). And once the sizes are known, of less than
    2^32 blocks, [TraverseBlocks] ends and visits the blocks of the one map from (primary id, secondary id) in lexicographic order:
    an edit at (p, 0) takes the place of block p or deletes it, so that the traversal goes
    on behind it, negative ids come before it and positive ones after it, and a visit that
    fails ends the traversal. *)
Theorem block_edits_refine (ops : list BlockOp) (d : DiveBlockData) (rs : list bool) :
  Forall op_ok ops -> run_ops apply_op ops new_DiveBlockData = (d, rs) ->
  exists e, run_ops spec_op ops (mkEdited [] None ∅) = (e, rs) /\
  original_blocks_map_locked_ d = bool_decide (is_Some (ed_file_size e)) /\
  (forall n, ed_file_size e = Some n -> Z.of_nat (length (ed_offsets e)) < 2 ^ 32 ->
   original_header_block_ d = mkDiveOriginalBlock 0 (hd 0 (ed_offsets e)) /\
   forall V (visits : BlockVisitor V) (visitor : V),
   TraverseBlocks d visitor = Some (visit_in_turn (omap id (ed_layout n e)) visitor)).
Proof.
  intros Hok Hrun.
  destruct (ops_simulate _ _ _ _ _ new_represents Hok Hrun) as (e & He & Hr).
  exists e. split_and!; [done|apply Hr|]. intros n Hn Hlen.
  destruct (rep_sizes _ _ Hr n Hn) as (Hb & Hh & _). split; [done|]. intros V visits visitor.
  rewrite TraverseBlocks_layout by (apply Hr || by rewrite (rep_length _ _ Hr)).
  by rewrite Hb, (rep_edits _ _ Hr), visit_blocks_in_turn.
Qed.

(** Proves [Forall op_ok ops] for operations that are given. *)
Ltac ops_ok := repeat (apply Forall_cons; split; [simpl; lia || done|]); constructor.

(** The blocks and modifications of the source's test of the secondary order, with the last
    block deleted. *)
Definition test_ops : list BlockOp :=
  [OpAddOriginal 0 100; OpAdd 1 0 None; OpAddOriginal 2 1; OpAddOriginal 1 110; OpAddOriginal 2 200;
   OpFinalize 250; OpAddOriginal 3 250; OpAdd 1 (-10) (Some 2); OpAdd 1 2 (Some 3);
   OpAdd 1 4 (Some 4); OpAdd 1 (-4) (Some 5); OpAdd 1 2 (Some 1); OpAdd 1 3 None;
   OpAdd 3 0 (Some 1); OpAdd 0 7 (Some 1); OpRemove 0 7; OpExists 0 7; OpExists 1 (-4);
   OpAdd 2 0 None].

Definition test_blobs : Blobs := fun blob => replicate (Z.to_nat blob) x61.

Lemma block_edits_refine_witness :
  exists d e rs, run_ops apply_op test_ops new_DiveBlockData = (d, rs) /\
  run_ops spec_op test_ops (mkEdited [] None ∅) = (e, rs) /\
  rs = [true; false; false; true; true; true; false; true; true; true; true; false; false;
        false; true; true; false; true; true] /\
  visit_in_turn (H := TestBlockVisitor test_blobs) (omap id (ed_layout 250 e)) []
  = (["original, offset:100, size:10"; "modified, content length:2"; "modified, content length:5";
      "original, offset:110, size:90"; "modified, content length:3"; "modified, content length:4"], true) /\
  TraverseBlocks (H := TestBlockVisitor test_blobs) d []
  = Some (visit_in_turn (H := TestBlockVisitor test_blobs) (omap id (ed_layout 250 e)) []).
Proof.
  destruct (run_ops apply_op test_ops new_DiveBlockData) as [d rs] eqn:Hrun.
  destruct (block_edits_refine test_ops d rs) as (e & He & _ & Ht);
    [ops_ok|done|].
  assert (Hrs : rs = (run_ops spec_op test_ops (mkEdited [] None ∅)).2) by (by rewrite He).
  assert (Hes : e = (run_ops spec_op test_ops (mkEdited [] None ∅)).1) by (by rewrite He).
  exists d, e, rs. split_and!; [done|done|rewrite Hrs; vm_compute; reflexivity|
    rewrite Hes; vm_compute; reflexivity|].
  apply Ht; rewrite Hes; [reflexivity|vm_compute; reflexivity].
Defined.
