(* ===== verification/GfxrFile.v ===== *)
(** * Writing a modified GFXR file

    [WriterBlockVisitor] and [DiveBlockData::WriteGFXRFile] of
    [src/gfxr_ext/decode/dive_block_data.{h,cpp}]. The class [PlatformFiles] is the
    part of gfxreconstruct's [util::platform] that the code calls, [PlatformLaws]
    what C streams promise; [Disk] is an instance of both. Files are written through
    streams, so [contents] is what a file holds once its streams are flushed. *)

From S2P Require Import Prelude.
From S2P Require Import BlockData.

(** ** Files *)

Inductive FileSeekOrigin := FileSeekSet | FileSeekCurrent | FileSeekEnd.

(** [FileOpen] gives the error and the stream that the pointer is set to;
    [FileRead] the result and the bytes that are placed in the buffer. *)
Class PlatformFiles (World FILE : Type) := {
  FileOpen : string -> string -> World -> (Z * option FILE) * World;
  FileSeek : FILE -> Z -> FileSeekOrigin -> World -> bool * World;
  FileTell : FILE -> World -> Z * World;
  FileRead : FILE -> Z -> World -> (bool * list byte) * World;
  FileWrite : FILE -> list byte -> World -> bool * World;
  FileClose : FILE -> World -> Z * World;
}.

(** The conversion of an unsigned offset to int64_t. *)
Definition int64 (z : Z) : Z := if u64 z <? 2 ^ 63 then u64 z else u64 z - 2 ^ 64.

Section writer.
Context {World FILE : Type} `{PlatformFiles World FILE}.
Variable blobs : Blobs.
Variables original_file_ptr new_file_ptr : FILE.

(** The files and [copy_buffer_]. *)
Definition Writer : Type := World * list byte.

(** The loop that copies [bytes_left_to_copy] bytes. It ignores the results of the
    read and of the write. *)
Fixpoint copy_bytes (fuel : nat) (bytes_left_to_copy : Z) (writer : Writer) : Writer :=
  match fuel with
  | O => writer
  | S fuel =>
      if bytes_left_to_copy <=? 0 then writer
      else
        let bytes_to_copy :=
          if kDiveBlockBufferSize <? bytes_left_to_copy then kDiveBlockBufferSize
          else bytes_left_to_copy in
        let '(w, copy_buffer) := writer in
        let '((_, data), w) := FileRead original_file_ptr bytes_to_copy w in
        let copy_buffer := data ++ drop (length data) copy_buffer in
        let '(_, w) := FileWrite new_file_ptr (take (Z.to_nat bytes_to_copy) copy_buffer) w in
        copy_bytes fuel (bytes_left_to_copy - bytes_to_copy) (w, copy_buffer)
  end.

Definition copy_fuel (size : Z) : nat := S (Z.to_nat (size / kDiveBlockBufferSize)).

Definition write_original (block : DiveOriginalBlock) (writer : Writer) : Writer * bool :=
  if size_ block =? 0 then (writer, true)
  else
    let '(w, copy_buffer) := writer in
    let '(ok, w) := FileSeek original_file_ptr (int64 (offset_ block)) FileSeekSet w in
    if ok then (copy_bytes (copy_fuel (size_ block)) (size_ block) (w, copy_buffer), true)
    else ((w, copy_buffer), false).

Definition write_modification (block : DiveModificationBlock) (writer : Writer) : Writer * bool :=
  match blobs (blob_ptr_ block) with
  | [] => (writer, false)
  | blob =>
      let '(w, copy_buffer) := writer in
      let '(ok, w) := FileWrite new_file_ptr blob w in
      ((w, copy_buffer), ok)
  end.

Definition WriterBlockVisitor : BlockVisitor Writer := {|
  VisitOriginal := write_original;
  VisitModification := write_modification;
|}.
End writer.

Section write.
Context {World FILE : Type} `{PlatformFiles World FILE}.

Definition new_copy_buffer : list byte := replicate (Z.to_nat kDiveBlockBufferSize) x00.

Definition close_files (original_fd new_fd : FILE) (w : World) : bool * World :=
  let '(r, w) := FileClose original_fd w in
  if negb (r =? 0) then (false, w)
  else
    let '(r, w) := FileClose new_fd w in
    (r =? 0, w).

Definition write_blocks (d : DiveBlockData) (blobs : Blobs) (original_fd new_fd : FILE) (w : World) :
    option (bool * World) :=
  let writer := WriterBlockVisitor blobs original_fd new_fd in
  let '((w, buffer), ok) :=
    Accept (H := writer) (Original (original_header_block_ d)) (w, new_copy_buffer) in
  if ok then
    '(((w, _), ok)) ← TraverseBlocks (H := writer) d (w, buffer);
    if (ok : bool) then Some (close_files original_fd new_fd w) else Some (false, w)
  else Some (false, w).

Definition WriteGFXRFile (d : DiveBlockData) (blobs : Blobs)
    (original_file_path new_file_path : string) (w : World) : option (bool * World) :=
  if negb (original_blocks_map_locked_ d) then Some (false, w)
  else
    match FileOpen original_file_path "rb" w with
    | ((0, Some original_fd), w) =>
        match FileOpen new_file_path "wb" w with
        | ((0, Some new_fd), w) => write_blocks d blobs original_fd new_fd w
        | (_, w) => Some (false, w)
        end
    | (_, w) => Some (false, w)
    end.
End write.

(** ** What streams promise *)

Record OpenFile := mkOpenFile { of_path : string; of_pos : Z; of_writes : bool }.

Definition size_of (c : list byte) : Z := Z.of_nat (length c).

(** The [n] bytes of [c] from position [k], as far as there are any. *)
Definition slice (k n : Z) (c : list byte) : list byte := take (Z.to_nat n) (drop (Z.to_nat k) c).

(** [contents] is what a file holds, [stream] what a pointer is open on. Opening
    and closing may fail; the disk has room for what is written. A read gives bytes
    of the file, all that are there when nothing writes to it at the same time. *)
Class PlatformLaws (World FILE : Type) `{PlatformFiles World FILE} := {
  FILE_eq_dec :: EqDecision FILE;
  contents : World -> string -> option (list byte);
  stream : World -> FILE -> option OpenFile;
  open_stream_law path mode w r f w' g : FileOpen path mode w = ((r, f), w') ->
    if decide (r = 0 /\ f = Some g)
    then stream w g = None /\ stream w' g = Some (mkOpenFile path 0 (bool_decide (mode = "wb")))
    else stream w' g = stream w g;
  open_read_law path w res w' q : FileOpen path "rb" w = (res, w') -> contents w' q = contents w q;
  open_write_law path w r f w' q : FileOpen path "wb" w = ((r, f), w') ->
    contents w' q = if decide (q = path /\ r = 0 /\ is_Some f) then Some [] else contents w q;
  seek_law f w path k wr offset : stream w f = Some (mkOpenFile path k wr) ->
    0 <= offset < 2 ^ 63 ->
    exists w', FileSeek f offset FileSeekSet w = (true, w') /\
    stream w' f = Some (mkOpenFile path offset wr) /\
    (forall g, g <> f -> stream w' g = stream w g) /\ (forall q, contents w' q = contents w q);
  seek_end_law f w path k c : stream w f = Some (mkOpenFile path k false) ->
    contents w path = Some c ->
    exists w', FileSeek f 0 FileSeekEnd w = (true, w') /\
    stream w' f = Some (mkOpenFile path (size_of c) false) /\
    (forall g, g <> f -> stream w' g = stream w g) /\ (forall q, contents w' q = contents w q);
  tell_law f w o : stream w f = Some o -> FileTell f w = (of_pos o, w);
  read_law f w path k c n : stream w f = Some (mkOpenFile path k false) ->
    contents w path = Some c -> 0 <= k -> 0 <= n ->
    exists m w', 0 <= m <= n /\ FileRead f n w = ((m =? n, slice k m c), w') /\
    m <= Z.max 0 (size_of c - k) /\
    ((forall g o, stream w g = Some o -> of_writes o = true -> of_path o <> path) ->
     m = Z.min n (Z.max 0 (size_of c - k))) /\
    stream w' f = Some (mkOpenFile path (k + m) false) /\
    (forall g, g <> f -> stream w' g = stream w g) /\ (forall q, contents w' q = contents w q);
  write_law g w path c bytes : stream w g = Some (mkOpenFile path (size_of c) true) ->
    contents w path = Some c ->
    exists w', FileWrite g bytes w = (true, w') /\
    stream w' g = Some (mkOpenFile path (size_of (c ++ bytes)) true) /\
    (forall h, h <> g -> stream w' h = stream w h) /\
    contents w' path = Some (c ++ bytes) /\ (forall q, q <> path -> contents w' q = contents w q);
  close_law f w r w' : FileClose f w = (r, w') -> stream w' f = None /\
    (forall g, g <> f -> stream w' g = stream w g) /\ (forall q, contents w' q = contents w q);
}.

(** ** Copying *)

Definition piece (c : list byte) (blobs : Blobs) (block : option IDiveBlock) : list byte :=
  match block with
  | None => []
  | Some (Original b) => slice (offset_ b) (size_ b) c
  | Some (Modification b) => blobs (blob_ptr_ b)
  end.

Definition inside (n : Z) (b : DiveOriginalBlock) : Prop :=
  0 <= offset_ b /\ 0 <= size_ b /\ offset_ b + size_ b <= n.

Definition writable (n : Z) (blobs : Blobs) (block : option IDiveBlock) : Prop :=
  match block with
  | None => True
  | Some (Original b) => inside n b
  | Some (Modification b) => blobs (blob_ptr_ b) <> []
  end.

Lemma length_slice k n c : 0 <= k -> 0 <= n -> k + n <= size_of c ->
  length (slice k n c) = Z.to_nat n.
Proof. unfold slice, size_of. intros. rewrite length_take, length_drop. lia. Qed.

Lemma slice_add k n m c : 0 <= k -> 0 <= n -> 0 <= m ->
  slice k (n + m) c = slice k n c ++ slice (k + n) m c.
Proof.
  intros. unfold slice. rewrite !Z2Nat.inj_add, take_add, drop_drop by lia. done.
Qed.

Lemma int64_id z : 0 <= z < 2 ^ 63 -> int64 z = z.
Proof.
  intros Hz. unfold int64. rewrite wrap_small by (unfold in_width; lia).
  destruct (z <? 2 ^ 63) eqn:E; zbool; lia.
Qed.

Lemma copy_fuel_enough n : 0 <= n -> n <= 4096 * Z.of_nat (copy_fuel n).
Proof.
  intros Hn. unfold copy_fuel, kDiveBlockBufferSize. pose proof (Z.div_mod n 4096).
  pose proof (Z.mod_pos_bound n 4096). pose proof (Z.div_pos n 4096). lia.
Qed.

Section copying.
Context {World FILE : Type} `{PlatformLaws World FILE}.
Variables (base : string -> option (list byte)) (path new_path : string) (f g : FILE).
Variables (c : list byte) (blobs : Blobs).

(** While a file is written: [f] reads the original, [g] is the only stream that
    writes and stands at the end of the new file, and the other files are as before. *)
Record copying (w : World) (out : list byte) : Prop := {
  cp_reader : exists k, stream w f = Some (mkOpenFile path k false) /\ 0 <= k;
  cp_writer : stream w g = Some (mkOpenFile new_path (size_of out) true);
  cp_only : forall h o, stream w h = Some o -> of_writes o = true -> h = g;
  cp_out : contents w new_path = Some out;
  cp_base : forall q, q <> new_path -> contents w q = base q;
}.

Hypothesis Hpath : path <> new_path.
Hypothesis Hbase : base path = Some c.
Hypothesis Hsize : size_of c < 2 ^ 63.

Lemma streams_differ w out : copying w out -> f <> g.
Proof. intros [(k & Hf & _) Hg _ _ _] ->. congruence. Qed.

(** One round of the loop. *)
Lemma copy_round w out k n :
  copying w out -> stream w f = Some (mkOpenFile path k false) ->
  0 <= k -> 0 <= n -> k + n <= size_of c ->
  exists w1 w2, FileRead f n w = ((true, slice k n c), w1) /\
  FileWrite g (slice k n c) w1 = (true, w2) /\
  copying w2 (out ++ slice k n c) /\ stream w2 f = Some (mkOpenFile path (k + n) false).
Proof.
  intros Hc Hf Hk Hn Hkn. pose proof (streams_differ _ _ Hc) as Hfg.
  destruct Hc as [_ Hg Honly Hout Hothers].
  assert (Hin : contents w path = Some c) by (by rewrite Hothers).
  destruct (read_law f w path k c n Hf Hin Hk Hn)
    as (m & w1 & Hm & Hread & _ & Hall & Hf1 & Hs1 & Hc1).
  assert (m = n) as ->.
  { rewrite Hall; [lia|]. intros h o Ho Hw. rewrite (Honly _ _ Ho Hw), Hg in Ho. by simplify_eq/=. }
  rewrite Z.eqb_refl in Hread.
  destruct (write_law g w1 new_path out (slice k n c)) as (w2 & Hwrite & Hg2 & Hs2 & Hout2 & Hc2);
    [by rewrite Hs1|by rewrite Hc1|].
  assert (Hf2 : stream w2 f = Some (mkOpenFile path (k + n) false)) by (by rewrite Hs2).
  exists w1, w2. split_and!; [done|done| |done].
  split; [exists (k + n); split; [done|lia]|done| |done|].
  - intros h o Ho Hw. destruct (decide (h = g)) as [->|Hne]; [done|].
    destruct (decide (h = f)) as [->|Hhf]; [rewrite Hf2 in Ho; by simplify_eq/=|].
    apply (Honly h o); [|done]. by rewrite <- Hs1, <- Hs2.
  - intros q Hq. by rewrite Hc2, Hc1, Hothers.
Qed.

Lemma copy_bytes_ok fuel left w buffer out k :
  copying w out -> stream w f = Some (mkOpenFile path k false) ->
  0 <= k -> 0 <= left -> k + left <= size_of c -> left <= 4096 * Z.of_nat fuel ->
  exists w' buffer', copy_bytes f g fuel left (w, buffer) = (w', buffer') /\
  copying w' (out ++ slice k left c).
Proof.
  revert left w buffer out k. induction fuel as [|fuel IH];
    intros left w buffer out k Hc Hf Hk Hl Hkl Hfuel; cbn [copy_bytes];
    [|destruct (left <=? 0) eqn:El; zbool].
  1-2: exists w, buffer; split; [done|]; replace left with 0 by lia;
    unfold slice; by rewrite take_0, app_nil_r.
  unfold kDiveBlockBufferSize. set (n := if 4096 <? left then 4096 else left).
  assert (Hn : 0 < n <= left /\ (n = left \/ n = 4096 /\ 4096 < left)).
  { unfold n. destruct (4096 <? left) eqn:E; zbool; lia. }
  destruct Hn as [Hn Hcase].
  destruct (copy_round w out k n Hc Hf Hk) as (w1 & w2 & -> & Hwrite & Hc2 & Hf2); [lia..|].
  pose proof (length_slice k n c Hk) as Hlen.
  rewrite take_app_length' by (rewrite Hlen; lia). rewrite Hwrite.
  destruct (IH (left - n) w2 (slice k n c ++ drop (length (slice k n c)) buffer)
              (out ++ slice k n c) (k + n)) as (w' & buffer' & Hr & Hc'); [done|done|lia..|].
  exists w', buffer'. split; [done|].
  replace left with (n + (left - n)) by lia. rewrite slice_add, app_assoc by lia. done.
Qed.

Lemma write_original_ok b w buffer out : copying w out -> inside (size_of c) b ->
  exists w' buffer', write_original f g b (w, buffer) = ((w', buffer'), true) /\
  copying w' (out ++ slice (offset_ b) (size_ b) c).
Proof.
  intros Hc (Ho & Hs & Hos). unfold write_original. destruct (size_ b =? 0) eqn:E; zbool.
  { exists w, buffer. split; [done|]. rewrite E. unfold slice. by rewrite take_0, app_nil_r. }
  assert (Hw : int64 (offset_ b) = offset_ b) by (apply int64_id; lia).
  destruct (cp_reader _ _ Hc) as (k & Hf & Hk).
  destruct (seek_law f w path k false (int64 (offset_ b)) Hf) as (w1 & -> & Hf1 & Hs1 & Hc1); [lia|].
  rewrite Hw in Hf1. pose proof (streams_differ _ _ Hc) as Hfg.
  assert (Hcp : copying w1 out).
  { destruct Hc as [_ Hg Honly Hout Hothers]. split.
    - exists (offset_ b). split; [done|lia].
    - by rewrite Hs1.
    - intros h o Hh Hwr. destruct (decide (h = f)) as [->|Hne]; [rewrite Hf1 in Hh; by simplify_eq/=|].
      rewrite Hs1 in Hh by done. by apply (Honly h o).
    - by rewrite Hc1.
    - intros q Hq. by rewrite Hc1, Hothers. }
  destruct (copy_bytes_ok (copy_fuel (size_ b)) (size_ b) w1 buffer out (offset_ b) Hcp Hf1)
    as (w' & buffer' & -> & Hc'); [lia..|by apply copy_fuel_enough|by exists w', buffer'].
Qed.

Lemma write_modification_ok b w buffer out : copying w out -> blobs (blob_ptr_ b) <> [] ->
  exists w', write_modification blobs g b (w, buffer) = ((w', buffer), true) /\
  copying w' (out ++ blobs (blob_ptr_ b)).
Proof.
  intros Hc Hb. unfold write_modification. destruct (blobs (blob_ptr_ b)) as [|x bs]; [done|].
  pose proof (streams_differ _ _ Hc) as Hfg. destruct Hc as [(k & Hf & Hk) Hg Honly Hout Hothers].
  destruct (write_law g w new_path out (x :: bs) Hg Hout) as (w' & -> & Hg' & Hs & Hout' & Hc').
  exists w'. split; [done|]. split; [exists k; by rewrite Hs|done| |done|].
  - intros h o Ho Hw. destruct (decide (h = g)) as [->|Hne]; [done|].
    rewrite Hs in Ho by done. by apply (Honly h o).
  - intros q Hq. by rewrite Hc', Hothers.
Qed.

(** The writer accepts blocks that are inside of the file and blobs that are not
    empty, and appends their bytes. *)
Lemma visit_blocks_write bs w buffer out :
  copying w out -> Forall (writable (size_of c) blobs) bs ->
  exists w' buffer',
  visit_blocks (H := WriterBlockVisitor blobs f g) bs (w, buffer) = ((w', buffer'), true) /\
  copying w' (out ++ concat (piece c blobs <$> bs)).
Proof.
  revert w buffer out. induction bs as [|b bs IH]; intros w buffer out Hc Hall.
  { exists w, buffer. by rewrite app_nil_r. }
  apply Forall_cons in Hall as [Hb Hall].
  destruct b as [[b|b]|]; cbn [visit_blocks Accept VisitOriginal VisitModification WriterBlockVisitor].
  - destruct (write_original_ok b w buffer out Hc Hb) as (w1 & buffer1 & -> & Hc1).
    destruct (IH w1 buffer1 _ Hc1 Hall) as (w' & buffer' & Hr & Hc').
    exists w', buffer'. split; [exact Hr|]. csimpl. by rewrite app_assoc.
  - destruct (write_modification_ok b w buffer out Hc Hb) as (w1 & -> & Hc1).
    destruct (IH w1 buffer _ Hc1 Hall) as (w' & buffer' & Hr & Hc').
    exists w', buffer'. split; [exact Hr|]. csimpl. by rewrite app_assoc.
  - by apply IH.
Qed.
End copying.

(** ** What is written *)

Lemma extents_inside n offsets :
  ascending offsets = true -> Forall (fun o => 0 <= o <= n) offsets -> n < 2 ^ 63 ->
  Forall (inside n) (extents n offsets).
Proof.
  intros Ha Hall Hn. induction offsets as [|o [|o' offsets] IH]; [constructor|..].
  - apply Forall_cons in Hall as [Ho _]. constructor; [|constructor].
    unfold inside. simpl. rewrite wrap_small by (unfold in_width; lia). lia.
  - apply Forall_cons in Hall as [Ho Hall]. pose proof (Forall_cons_1 _ _ _ Hall) as [Ho' _].
    apply andb_true_iff in Ha as [Hle Ha]. zbool.
    cbn [extents]. constructor; [|by apply IH]. unfold inside. simpl. lia.
Qed.

Lemma lookup_originals_Some i blocks p s x :
  originals_from i blocks !! (p, s) = Some x -> exists b, x = Some (Original b) /\ b ∈ blocks.
Proof.
  rewrite lookup_originals. case_decide as Hs; [|done].
  intros (b & Hb & ->)%fmap_Some. exists b. split; [done|]. by eapply list_elem_of_lookup_2.
Qed.

Lemma layout_writable n blobs blocks edits :
  Forall (inside n) blocks ->
  (forall k b, edits !! k = Some (Some b) -> blobs b <> []) ->
  Forall (writable n blobs) (layout blocks (to_block <$> edits)).
Proof.
  intros Hb He. apply Forall_fmap, Forall_forall. intros [[p s] x] Hin. simpl.
  apply elem_of_in_order in Hin. rewrite lookup_union in Hin.
  destruct ((to_block <$> edits) !! (p, s)) as [y|] eqn:E.
  - rewrite option_union_Some_l in Hin. simplify_eq. rewrite lookup_fmap in E.
    apply fmap_Some in E as ([b|] & Hl & ->); [|done]. exact (He _ _ Hl).
  - rewrite option_union_None_l in Hin. apply lookup_originals_Some in Hin as (b & -> & Hin).
    rewrite Forall_forall in Hb. by apply Hb.
Qed.

(** The file that the specification describes: the header of the original, then
    the pieces of the layout. *)
Definition ed_file (c : list byte) (blobs : Blobs) (e : Edited) : list byte :=
  slice 0 (hd 0 (ed_offsets e)) c ++
  concat (piece c blobs <$> ed_layout (size_of c) e).

(** The edited capture is one that was loaded from the file with contents [c]. *)
Record edits_file (c : list byte) (blobs : Blobs) (e : Edited) : Prop := {
  ef_size : ed_file_size e = Some (size_of c);
  ef_bound : size_of c < 2 ^ 63;
  ef_offsets : Forall (fun o => 0 <= o <= size_of c) (ed_offsets e);
  ef_number : Z.of_nat (length (ed_offsets e)) < 2 ^ 32;
  ef_blobs : forall k b, ed_edits e !! k = Some (Some b) -> blobs b <> [];
}.

Section written.
Context {World FILE : Type} `{PlatformLaws World FILE}.

(** Nothing in the process is writing a file. *)
Definition no_writer (w : World) : Prop :=
  forall g o, stream w g = Some o -> of_writes o = false.

Lemma open_both path new_path f g c w w1 w2 :
  path <> new_path -> no_writer w -> contents w path = Some c ->
  FileOpen path "rb" w = ((0, Some f), w1) -> FileOpen new_path "wb" w1 = ((0, Some g), w2) ->
  copying (contents w) path new_path f g w2 [].
Proof.
  intros Hne Hnw Hc H1 H2.
  pose proof (fun h => open_stream_law _ _ _ _ _ _ h H1) as S1.
  pose proof (fun h => open_stream_law _ _ _ _ _ _ h H2) as S2.
  pose proof (fun q => open_read_law _ _ _ _ q H1) as C1.
  pose proof (fun q => open_write_law _ _ _ _ _ q H2) as C2.
  assert (Hfg : f <> g).
  { intros ->. specialize (S1 g). specialize (S2 g). rewrite decide_True in S1, S2 by done.
    destruct S1, S2. congruence. }
  pose proof (S1 f) as Sf. rewrite decide_True in Sf by done. destruct Sf as [_ Sf].
  pose proof (S2 f) as Sf2. rewrite decide_False in Sf2 by naive_solver.
  pose proof (S2 g) as Sg. rewrite decide_True in Sg by done. destruct Sg as [_ Sg].
  split.
  - exists 0. split; [|lia]. by rewrite Sf2, Sf.
  - done.
  - intros h o Ho Hw. destruct (decide (h = g)) as [->|Hhg]; [done|].
    specialize (S2 h). rewrite decide_False in S2 by naive_solver. rewrite S2 in Ho.
    specialize (S1 h). case_decide as Hh; [destruct S1 as [_ S1]; rewrite S1 in Ho; by simplify_eq/=|].
    rewrite S1 in Ho. rewrite (Hnw _ _ Ho) in Hw. done.
  - rewrite C2, decide_True; done.
  - intros q Hq. by rewrite C2, decide_False, C1 by naive_solver.
Qed.

Lemma close_files_contents f g w ok w' : close_files f g w = (ok, w') ->
  forall q, contents w' q = contents w q.
Proof.
  unfold close_files. destruct (FileClose f w) as [r1 w1] eqn:E1.
  destruct (r1 =? 0); simpl.
  - destruct (FileClose g w1) as [r2 w2] eqn:E2. intros [= <- <-] q.
    destruct (close_law _ _ _ _ E1) as (_ & _ & C1), (close_law _ _ _ _ E2) as (_ & _ & C2).
    by rewrite C2, C1.
  - intros [= <- <-]. apply (close_law _ _ _ _ E1).
Qed.

Lemma WriteGFXRFile_ok d e blobs c path new_path f g w w1 w2 :
  represents d e -> edits_file c blobs e ->
  path <> new_path -> no_writer w -> contents w path = Some c ->
  FileOpen path "rb" w = ((0, Some f), w1) -> FileOpen new_path "wb" w1 = ((0, Some g), w2) ->
  exists w3 w', WriteGFXRFile d blobs path new_path w = Some ((close_files f g w3).1, w') /\
  contents w' new_path = Some (ed_file c blobs e) /\
  (forall q, q <> new_path -> contents w' q = contents w q).
Proof.
  intros Hr [Hs Hb Ho Hn Hblobs] Hne Hnw Hc H1 H2.
  pose proof (open_both _ _ _ _ _ _ _ _ Hne Hnw Hc H1 H2) as Hcp.
  destruct (rep_sizes _ _ Hr _ Hs) as (Hblocks & Hheader & Hpos & Hasc).
  unfold WriteGFXRFile. rewrite (rep_locked _ _ Hr), Hs, H1, H2. simpl.
  unfold write_blocks. rewrite Hheader.
  assert (Hin : inside (size_of c) (mkDiveOriginalBlock 0 (hd 0 (ed_offsets e)))).
  { destruct (ed_offsets e) as [|o os]; [done|]. apply Forall_cons in Ho as [Ho _].
    unfold inside. simpl. lia. }
  destruct (write_original_ok (contents w) path new_path f g c Hne Hc Hb _ w2 new_copy_buffer []
              Hcp Hin) as (w3 & buffer & Hw3 & Hcp3).
  cbn [Accept VisitOriginal WriterBlockVisitor]. rewrite Hw3.
  rewrite TraverseBlocks_layout by (apply Hr || by rewrite (rep_length _ _ Hr)).
  rewrite Hblocks, (rep_edits _ _ Hr).
  destruct (visit_blocks_write (contents w) path new_path f g c blobs Hne Hc Hb _ w3 buffer _ Hcp3
    (layout_writable (size_of c) blobs _ (ed_edits e) (extents_inside _ _ Hasc Ho Hb) Hblobs))
    as (w4 & buffer4 & Hw4 & Hcp4).
  rewrite Hw4. simpl. destruct (close_files f g w4) as [ok w5] eqn:Hclose.
  pose proof (close_files_contents _ _ _ _ _ Hclose) as Hq.
  exists w4, w5. rewrite Hclose. split_and!; [done|by rewrite Hq, (cp_out _ _ _ _ _ _ _ Hcp4)|].
  intros q Hqn. by rewrite Hq, (cp_base _ _ _ _ _ _ _ Hcp4).
Qed.
End written.

(** ** Without modifications *)

Lemma entries_no_edits blocks i d :
  modifications_map_ d = ∅ ->
  (entries_from i blocks d).*2 = (fun b => Some (Original b)) <$> blocks.
Proof.
  intros Hd. revert i. induction blocks as [|b blocks IH]; intros i; [done|].
  cbn [entries_from]. rewrite fmap_app, IH. unfold blocks_to_write, modifications_at.
  by rewrite Hd, lookup_empty.
Qed.

Lemma layout_no_edits blocks : layout blocks ∅ = (fun b => Some (Original b)) <$> blocks.
Proof.
  pose (d := mkDiveBlockData blocks (mkDiveOriginalBlock 0 0) true ∅).
  assert (Hd : edits_of d = ∅) by done.
  rewrite <- (entries_no_edits blocks 0 d eq_refl), <- Hd. apply (layout_entries d).
  intros p s x. by rewrite Hd, lookup_empty.
Qed.

Lemma extents_pieces c blobs o offsets :
  ascending (o :: offsets) = true -> Forall (fun o => 0 <= o <= size_of c) (o :: offsets) ->
  size_of c < 2 ^ 63 ->
  concat (piece c blobs <$> ((fun b => Some (Original b)) <$> extents (size_of c) (o :: offsets)))
  = slice o (size_of c - o) c.
Proof.
  intros Ha Hall Hn. revert o Ha Hall. induction offsets as [|o' offsets IH]; intros o Ha Hall.
  - apply Forall_cons in Hall as [Ho _]. simpl.
    by rewrite app_nil_r, wrap_small by (unfold in_width; lia).
  - apply Forall_cons in Hall as [Ho Hall]. pose proof (Forall_cons_1 _ _ _ Hall) as [Ho' _].
    apply andb_true_iff in Ha as [Hle Ha]. zbool.
    change (extents (size_of c) (o :: o' :: offsets))
      with (mkDiveOriginalBlock o (o' - o) :: extents (size_of c) (o' :: offsets)).
    rewrite !fmap_cons. cbn [concat]. rewrite IH by done. cbn [piece offset_ size_].
    replace (slice o' _ c) with (slice (o + (o' - o)) (size_of c - o') c) by (f_equal; lia).
    rewrite <- slice_add by lia. f_equal. lia.
Qed.

Lemma ed_file_no_edits c blobs e : edits_file c blobs e -> ed_edits e = ∅ ->
  ascending (ed_offsets e) = true -> ed_offsets e <> [] -> ed_file c blobs e = c.
Proof.
  intros [Hs Hb Ho Hn _] He Ha Hne. unfold ed_file, ed_layout.
  rewrite He, fmap_empty, layout_no_edits.
  destruct (ed_offsets e) as [|o offsets]; [done|].
  rewrite extents_pieces by done. apply Forall_cons in Ho as [Ho _]. cbn [hd].
  replace (slice o (size_of c - o) c) with (slice (0 + o) (size_of c - o) c) by done.
  rewrite <- slice_add by lia.
  unfold slice, size_of in *. rewrite drop_0, firstn_all2; [done|]. lia.
Qed.

(** ** Writing over the capture itself *)

Section clobbered.
Context {World FILE : Type} `{PlatformLaws World FILE}.
Variables (path : string) (f g : FILE) (blobs : Blobs).

Definition zeros (n : Z) : list byte := replicate (Z.to_nat n) x00.

(** Both streams are on one file, which has been emptied by opening it: [n] zeros
    are written so far. *)
Record clobbering (n : Z) (w : World) : Prop := {
  cl_size : 0 <= n;
  cl_reader : exists k, stream w f = Some (mkOpenFile path k false) /\ 0 <= k;
  cl_writer : stream w g = Some (mkOpenFile path n true);
  cl_contents : contents w path = Some (zeros n);
}.

Lemma clobber_differ n w : clobbering n w -> f <> g.
Proof. intros [_ (k & Hf & _) Hg _] ->. congruence. Qed.

Lemma size_of_zeros n : 0 <= n -> size_of (zeros n) = n.
Proof. intros. unfold size_of, zeros. rewrite length_replicate. lia. Qed.

Lemma zeros_add n m : 0 <= n -> 0 <= m -> zeros n ++ zeros m = zeros (n + m).
Proof. intros. unfold zeros. by rewrite Z2Nat.inj_add, replicate_add. Qed.

Lemma slice_zeros k m n : 0 <= k -> 0 <= m -> m <= Z.max 0 (n - k) -> slice k m (zeros n) = zeros m.
Proof. intros. unfold slice, zeros. rewrite drop_replicate, take_replicate. f_equal. lia. Qed.

Lemma clobber_round n m w :
  clobbering n w -> 0 <= m <= kDiveBlockBufferSize ->
  exists ok data w1 w2, FileRead f m w = ((ok, data), w1) /\
  data ++ drop (length data) new_copy_buffer = new_copy_buffer /\
  FileWrite g (take (Z.to_nat m) new_copy_buffer) w1 = (true, w2) /\ clobbering (n + m) w2.
Proof.
  intros Hc Hm. pose proof (clobber_differ _ _ Hc) as Hfg.
  destruct Hc as [Hn (k & Hf & Hk) Hg Hz].
  destruct (read_law f w path k _ m Hf Hz Hk) as (r & w1 & Hr & Hread & Hmax & _ & Hf1 & Hs1 & Hc1); [lia|].
  rewrite size_of_zeros in Hmax by done. rewrite slice_zeros in Hread by lia.
  destruct (write_law g w1 path (zeros n) (take (Z.to_nat m) new_copy_buffer))
    as (w2 & Hwrite & Hg2 & Hs2 & Hz2 & _); [by rewrite Hs1, size_of_zeros|by rewrite Hc1|].
  assert (Ht : take (Z.to_nat m) new_copy_buffer = zeros m).
  { unfold new_copy_buffer. rewrite take_replicate. unfold zeros. f_equal. lia. }
  eexists _, _, w1, w2. split_and!; [exact Hread| |exact Hwrite|].
  - unfold new_copy_buffer, zeros. rewrite length_replicate, drop_replicate, <- replicate_add.
    f_equal. lia.
  - rewrite Ht, zeros_add in Hz2, Hg2 by lia. rewrite size_of_zeros in Hg2 by lia. split; [lia| |done|done].
    exists (k + r). split; [by rewrite Hs2|lia].
Qed.

Lemma clobber_bytes fuel left n w :
  clobbering n w -> 0 <= left <= 4096 * Z.of_nat fuel ->
  exists w', copy_bytes f g fuel left (w, new_copy_buffer) = (w', new_copy_buffer) /\
  clobbering (n + left) w'.
Proof.
  revert left n w. induction fuel as [|fuel IH]; intros left n w Hc Hl; cbn [copy_bytes];
    [|destruct (left <=? 0) eqn:El; zbool].
  1-2: exists w; split; [done|]; by replace (n + left) with n by lia.
  unfold kDiveBlockBufferSize. set (m := if 4096 <? left then 4096 else left).
  assert (Hm : 0 < m <= 4096 /\ m <= left /\ (m = left \/ m = 4096)).
  { unfold m. destruct (4096 <? left) eqn:E; zbool; lia. }
  destruct (clobber_round n m w Hc) as (ok & data & w1 & w2 & -> & Hd & Hwrite & Hc2);
    [unfold kDiveBlockBufferSize; lia|].
  rewrite Hd, Hwrite. destruct (IH (left - m) (n + m) w2 Hc2) as (w' & Hr & Hc'); [lia|].
  exists w'. split; [done|]. by replace (n + left) with (n + m + (left - m)) by lia.
Qed.

Lemma clobber_block b m n w : clobbering n w -> inside m b -> m < 2 ^ 63 ->
  exists w', write_original f g b (w, new_copy_buffer) = ((w', new_copy_buffer), true) /\
  clobbering (n + size_ b) w'.
Proof.
  intros Hc (Ho & Hs & Hos) Hm. unfold write_original. destruct (size_ b =? 0) eqn:E; zbool.
  { exists w. split; [done|]. by rewrite E, Z.add_0_r. }
  pose proof (clobber_differ _ _ Hc) as Hfg. destruct Hc as [Hn (k & Hf & Hk) Hg Hz].
  assert (Hi : int64 (offset_ b) = offset_ b) by (apply int64_id; lia).
  destruct (seek_law f w path k false (int64 (offset_ b)) Hf) as (w1 & -> & Hf1 & Hs1 & Hc1); [lia|].
  destruct (clobber_bytes (copy_fuel (size_ b)) (size_ b) n w1) as (w' & -> & Hc').
  - split; [done|exists (int64 (offset_ b)); split; [done|lia]|by rewrite Hs1|by rewrite Hc1].
  - split; [done|by apply copy_fuel_enough].
  - by exists w'.
Qed.

Lemma clobber_blocks bs m n w : clobbering n w -> Forall (inside m) bs -> m < 2 ^ 63 ->
  exists w', visit_blocks (H := WriterBlockVisitor blobs f g)
    ((fun b => Some (Original b)) <$> bs) (w, new_copy_buffer) = ((w', new_copy_buffer), true) /\
  clobbering (n + foldr Z.add 0 (size_ <$> bs)) w'.
Proof.
  intros Hc Hall Hm. revert n w Hc. induction bs as [|b bs IH]; intros n w Hc.
  { exists w. split; [done|]. simpl. by rewrite Z.add_0_r. }
  apply Forall_cons in Hall as [Hb Hall]. rewrite fmap_cons.
  cbn [visit_blocks Accept VisitOriginal WriterBlockVisitor].
  destruct (clobber_block b m n w Hc Hb Hm) as (w1 & -> & Hc1).
  destruct (IH Hall _ _ Hc1) as (w' & Hr & Hc'). exists w'. split; [exact Hr|].
  cbn [fmap list_fmap foldr]. by rewrite Z.add_assoc.
Qed.

Lemma extents_total n o offsets :
  ascending (o :: offsets) = true -> Forall (fun o => 0 <= o <= n) (o :: offsets) -> n < 2 ^ 63 ->
  foldr Z.add 0 (size_ <$> extents n (o :: offsets)) = n - o.
Proof.
  intros Ha Hall Hn. revert o Ha Hall. induction offsets as [|o' offsets IH]; intros o Ha Hall.
  - apply Forall_cons in Hall as [Ho _]. simpl. rewrite wrap_small by (unfold in_width; lia). lia.
  - apply Forall_cons in Hall as [_ Hall]. apply andb_true_iff in Ha as [_ Ha].
    change (extents n (o :: o' :: offsets))
      with (mkDiveOriginalBlock o (o' - o) :: extents n (o' :: offsets)).
    rewrite fmap_cons. cbn [foldr]. rewrite IH by done. simpl. lia.
Qed.

Lemma open_same c w w1 w2 :
  contents w path = Some c ->
  FileOpen path "rb" w = ((0, Some f), w1) -> FileOpen path "wb" w1 = ((0, Some g), w2) ->
  clobbering 0 w2.
Proof.
  intros Hc H1 H2.
  pose proof (open_stream_law _ _ _ _ _ _ f H1) as S1. rewrite decide_True in S1 by done.
  pose proof (open_stream_law _ _ _ _ _ _ g H2) as S2. rewrite decide_True in S2 by done.
  pose proof (open_stream_law _ _ _ _ _ _ f H2) as S3.
  pose proof (open_write_law _ _ _ _ _ path H2) as C2. rewrite decide_True in C2 by done.
  destruct S1 as [_ S1], S2 as [S2 S2'].
  rewrite decide_False in S3 by (intros [_ [= ->]]; congruence).
  split; [lia|exists 0; split; [by rewrite S3|lia]|done|done].
Qed.
End clobbered.

(** ** A disk *)

Record Disk := mkDisk { disk_files : gmap string (list byte); disk_streams : gmap Z OpenFile }.

Definition move_to (f : Z) (o : OpenFile) (k : Z) (d : Disk) : Disk :=
  mkDisk (disk_files d) (<[f := mkOpenFile (of_path o) k (of_writes o)]> (disk_streams d)).

Definition disk_open (path mode : string) (d : Disk) : (Z * option Z) * Disk :=
  let f := fresh (dom (disk_streams d)) in
  let with_file fs := mkDisk fs (<[f := mkOpenFile path 0 (bool_decide (mode = "wb"))]> (disk_streams d)) in
  if bool_decide (mode = "wb") then ((0, Some f), with_file (<[path := []]> (disk_files d)))
  else
    match disk_files d !! path with
    | Some _ => ((0, Some f), with_file (disk_files d))
    | None => ((2, None), d)
    end.

Definition disk_seek (f offset : Z) (origin : FileSeekOrigin) (d : Disk) : bool * Disk :=
  match disk_streams d !! f with
  | Some o =>
      let from :=
        match origin with
        | FileSeekSet => 0
        | FileSeekCurrent => of_pos o
        | FileSeekEnd => size_of (default [] (disk_files d !! of_path o))
        end in
      if 0 <=? from + offset then (true, move_to f o (from + offset) d) else (false, d)
  | None => (false, d)
  end.

Definition disk_read (f n : Z) (d : Disk) : (bool * list byte) * Disk :=
  match disk_streams d !! f with
  | Some o =>
      let data := slice (of_pos o) n (default [] (disk_files d !! of_path o)) in
      ((size_of data =? n, data), move_to f o (of_pos o + size_of data) d)
  | None => ((false, []), d)
  end.

Definition disk_write (f : Z) (bytes : list byte) (d : Disk) : bool * Disk :=
  match disk_streams d !! f with
  | Some o =>
      let c := resize (Z.to_nat (of_pos o)) x00 (default [] (disk_files d !! of_path o)) ++ bytes ++
               drop (Z.to_nat (of_pos o) + length bytes) (default [] (disk_files d !! of_path o)) in
      (true, move_to f o (of_pos o + size_of bytes)
               (mkDisk (<[of_path o := c]> (disk_files d)) (disk_streams d)))
  | None => (false, d)
  end.

#[export] Instance Disk_PlatformFiles : PlatformFiles Disk Z := {
  FileOpen := disk_open;
  FileSeek := disk_seek;
  FileTell f d := (match disk_streams d !! f with Some o => of_pos o | None => -1 end, d);
  FileRead := disk_read;
  FileWrite := disk_write;
  FileClose f d :=
    (match disk_streams d !! f with Some _ => 0 | None => -1 end,
     mkDisk (disk_files d) (delete f (disk_streams d)));
}.

Lemma fresh_stream (m : gmap Z OpenFile) : m !! fresh (dom m) = None.
Proof. apply not_elem_of_dom, is_fresh. Qed.

#[export, refine] Instance Disk_PlatformLaws : PlatformLaws Disk Z := {
  contents d q := disk_files d !! q;
  stream d f := disk_streams d !! f;
}.
Proof.
  - intros path mode w r f w' g. cbn [FileOpen Disk_PlatformFiles]. unfold disk_open.
    pose proof (fresh_stream (disk_streams w)) as Hf.
    case_bool_decide as Hm; [|destruct (disk_files w !! path) as [c|] eqn:Ec]; intros [= <- <- <-];
      cbn [disk_streams]; case_decide as Hg; try (destruct Hg; by simplify_eq).
    + destruct Hg as [_ [= <-]]. by rewrite lookup_insert_eq.
    + rewrite lookup_insert_ne; [done|]. intros <-. by apply Hg.
    + destruct Hg as [_ [= <-]]. by rewrite lookup_insert_eq.
    + rewrite lookup_insert_ne; [done|]. intros <-. by apply Hg.
    + done.
  - intros path w res w' q. simpl. unfold disk_open. simpl.
    by destruct (disk_files w !! path); intros [= <- <-].
  - intros path w r f w' q. cbn [FileOpen Disk_PlatformFiles]. unfold disk_open.
    rewrite bool_decide_eq_true_2 by done. intros [= <- <- <-]. cbn [disk_files].
    destruct (decide (q = path)) as [->|Hq].
    + by rewrite lookup_insert_eq, decide_True.
    + rewrite lookup_insert_ne by congruence. by rewrite decide_False by (by intros [? _]).
  - intros f w path k wr offset Hf Ho. simpl. unfold disk_seek. rewrite Hf. simpl.
    rewrite Z.add_0_l, (proj2 (Z.leb_le 0 offset)) by lia. eexists. split; [reflexivity|]. simpl.
    split_and!; [by rewrite lookup_insert_eq|intros g Hg; by rewrite lookup_insert_ne|done].
  - intros f w path k c Hf Hc. simpl. unfold disk_seek. rewrite Hf. simpl. rewrite Hc. simpl.
    rewrite Z.add_0_r, (proj2 (Z.leb_le 0 _)) by (unfold size_of; lia).
    eexists. split; [reflexivity|]. simpl.
    split_and!; [by rewrite lookup_insert_eq|intros g Hg; by rewrite lookup_insert_ne|done].
  - intros f w o Hf. simpl. by rewrite Hf.
  - intros f w path k c n Hf Hc Hk Hn. simpl. unfold disk_read. rewrite Hf. simpl. rewrite Hc. simpl.
    assert (Hm : size_of (slice k n c) = Z.min n (Z.max 0 (size_of c - k))).
    { unfold size_of, slice. rewrite length_take, length_drop. lia. }
    assert (Hs : slice k (Z.min n (Z.max 0 (size_of c - k))) c = slice k n c).
    { destruct (decide (n <= size_of c - k)); [f_equal; lia|]. unfold slice, size_of in *.
      rewrite !firstn_all2; rewrite ?length_drop; [done|lia..]. }
    exists (Z.min n (Z.max 0 (size_of c - k))). rewrite Hm, Hs.
    eexists. split; [lia|]. split; [reflexivity|]. simpl.
    split_and!; [lia|done|by rewrite lookup_insert_eq|intros g Hg; by rewrite lookup_insert_ne|done].
  - intros g w path c bytes Hg Hc. simpl. unfold disk_write. rewrite Hg. simpl. rewrite Hc. simpl.
    assert (Hr : resize (Z.to_nat (size_of c)) x00 c ++ bytes ++
                 drop (Z.to_nat (size_of c) + length bytes) c = c ++ bytes).
    { unfold size_of. rewrite Nat2Z.id, resize_all, drop_ge by lia. by rewrite app_nil_r. }
    rewrite Hr. eexists. split; [done|]. simpl. unfold size_of. rewrite length_app, Nat2Z.inj_add.
    split_and!; [by rewrite lookup_insert_eq|intros h Hh; by rewrite lookup_insert_ne|
      by rewrite lookup_insert_eq|intros q Hq; by rewrite lookup_insert_ne].
  - intros f w r w'. simpl. intros [= <- <-]. simpl. split_and!; [by rewrite lookup_delete_eq| |done].
    intros g Hg. by rewrite lookup_delete_ne.
Defined.

(** ** Theorems *)

(** Writing an edited capture gives the file that the edits describe. After any
    operations on a new object, if the sizes were calculated for the file at
    [path], its block offsets lie inside of it, no modification is empty, and both
    files can be opened, then [WriteGFXRFile] ends, leaves the header of the capture
    followed by the pieces of the layout in the new file, and every other file as it
    was; its result is that of closing the files. Without modifications, the new file
    is the capture byte for byte, however large its blocks are compared to the buffer. *)
Theorem edited_file_written {World FILE : Type} `{PlatformLaws World FILE}
    (ops : list BlockOp) (d : DiveBlockData) (e : Edited) (rs : list bool) (blobs : Blobs)
    (c : list byte) (path new_path : string) (f g : FILE) (w w1 w2 : World) :
  Forall op_ok ops -> run_ops apply_op ops new_DiveBlockData = (d, rs) ->
  run_ops spec_op ops (mkEdited [] None ∅) = (e, rs) -> edits_file c blobs e ->
  path <> new_path -> no_writer w -> contents w path = Some c ->
  FileOpen path "rb" w = ((0, Some f), w1) -> FileOpen new_path "wb" w1 = ((0, Some g), w2) ->
  exists w3 w', WriteGFXRFile d blobs path new_path w = Some ((close_files f g w3).1, w') /\
  contents w' new_path = Some (ed_file c blobs e) /\
  (forall q, q <> new_path -> contents w' q = contents w q) /\
  (ed_edits e = ∅ -> ed_file c blobs e = c).
Proof.
  intros Hok Hrun He Hf Hne Hnw Hc H1 H2.
  destruct (ops_simulate _ _ _ _ _ new_represents Hok Hrun) as (e' & He' & Hr).
  rewrite He in He'. injection He' as <-.
  destruct (WriteGFXRFile_ok _ _ _ _ _ _ _ _ _ _ _ Hr Hf Hne Hnw Hc H1 H2)
    as (w3 & w' & Hw & Hnew & Hothers).
  exists w3, w'. split_and!; [done|done|done|]. intros Hno.
  destruct (rep_sizes _ _ Hr _ (ef_size _ _ _ Hf)) as (_ & _ & Hpos & Ha).
  apply ed_file_no_edits; [done|done|done|]. intros Hnil. rewrite Hnil in Hpos. simpl in Hpos. lia.
Qed.

(** A capture with a header of four bytes and three blocks, the last one empty. *)
Definition test_capture : list byte := String.list_byte_of_string "HEADfirst-second".

Definition test_disk : Disk := mkDisk {["capture.gfxr" := test_capture]} ∅.

Definition capture_ops : list BlockOp :=
  [OpAddOriginal 0 4; OpAddOriginal 1 10; OpAddOriginal 2 16; OpFinalize 16;
   OpAdd 1 0 None; OpAdd 1 (-1) (Some 2); OpAdd 0 1 (Some 1)].

Definition plain_ops : list BlockOp := take 4 capture_ops.

Lemma test_disk_no_writer : no_writer test_disk.
Proof. intros g o. simpl. by rewrite lookup_empty. Qed.

Lemma edited_file_written_witness :
  exists d e rs w', run_ops apply_op capture_ops new_DiveBlockData = (d, rs) /\
  WriteGFXRFile d test_blobs "capture.gfxr" "new.gfxr" test_disk = Some (true, w') /\
  contents w' "new.gfxr" = Some (ed_file test_capture test_blobs e) /\
  ed_file test_capture test_blobs e = String.list_byte_of_string "HEADfirst-aaa" /\
  contents w' "capture.gfxr" = Some test_capture.
Proof.
  destruct (run_ops apply_op capture_ops new_DiveBlockData) as [d rs] eqn:Hrun.
  destruct (run_ops spec_op capture_ops (mkEdited [] None ∅)) as [e rs'] eqn:He.
  assert (rs' = rs) as ->.
  { transitivity ((run_ops spec_op capture_ops (mkEdited [] None ∅)).2); [by rewrite He|].
    transitivity ((run_ops apply_op capture_ops new_DiveBlockData).2); [|by rewrite Hrun].
    vm_compute. reflexivity. }
  assert (Hes : e = (run_ops spec_op capture_ops (mkEdited [] None ∅)).1) by (by rewrite He).
  pose (w1 := (FileOpen "capture.gfxr" "rb" test_disk).2).
  pose (w2 := (FileOpen "new.gfxr" "wb" w1).2).
  destruct (edited_file_written capture_ops d e rs test_blobs test_capture "capture.gfxr" "new.gfxr"
              0 1 test_disk w1 w2) as (w3 & w' & Hw & Hnew & Hothers & _).
  - ops_ok.
  - exact Hrun.
  - exact He.
  - rewrite Hes. split; [done|vm_compute; reflexivity| |done|].
    + simpl. repeat (apply Forall_cons; split; [vm_compute; split; discriminate|]); constructor.
    + intros k b. change (ed_edits _) with
        (<[(0, 1) := Some 1]> (<[(1, -1) := Some 2]> (<[(1, 0) := @None Blob]> ∅)) :
           gmap (Z * Z) (option Blob)).
      rewrite !lookup_insert_Some, lookup_empty.
      intros [[_ [= <-]]|[_ [[_ [= <-]]|[_ [[_ [=]]|[_ [=]]]]]]]; discriminate.
  - discriminate.
  - apply test_disk_no_writer.
  - reflexivity.
  - reflexivity.
  - reflexivity.
  - assert (Hd : d = (run_ops apply_op capture_ops new_DiveBlockData).1) by (by rewrite Hrun).
    assert (Hok : (fst <$> WriteGFXRFile d test_blobs "capture.gfxr" "new.gfxr" test_disk) = Some true)
      by (rewrite Hd; vm_compute; reflexivity).
    rewrite Hw in Hok. injection Hok as Hok. rewrite Hok in Hw.
    exists d, e, rs, w'. split_and!; [done|done|done|rewrite Hes; vm_compute; reflexivity|].
    by rewrite Hothers.
Defined.

(** Writing a capture over itself destroys it. Nothing keeps the new path from
    being that of the capture; opening the file for writing empties it, the reads
    that fail leave the buffer as it is, and so what is left in the end is as many
    zeros as there were bytes, while the result is the one of a successful write. *)
Theorem overwritten_capture_lost {World FILE : Type} `{PlatformLaws World FILE}
    (d : DiveBlockData) (e : Edited) (blobs : Blobs) (c : list byte) (path : string) (f g : FILE)
    (w w1 w2 : World) :
  represents d e -> edits_file c blobs e -> ed_edits e = ∅ -> contents w path = Some c ->
  FileOpen path "rb" w = ((0, Some f), w1) -> FileOpen path "wb" w1 = ((0, Some g), w2) ->
  exists w3 w', WriteGFXRFile d blobs path path w = Some ((close_files f g w3).1, w') /\
  contents w' path = Some (zeros (size_of c)).
Proof.
  intros Hr [Hs Hb Ho Hn _] He Hc H1 H2.
  pose proof (open_same _ _ _ _ _ _ _ Hc H1 H2) as Hcl.
  destruct (rep_sizes _ _ Hr _ Hs) as (Hblocks & Hheader & Hpos & Hasc).
  unfold WriteGFXRFile. rewrite (rep_locked _ _ Hr), Hs, H1, H2. simpl.
  unfold write_blocks. rewrite Hheader.
  cbn [Accept VisitOriginal WriterBlockVisitor].
  destruct (ed_offsets e) as [|o offsets] eqn:Eo; [done|]. cbn [hd].
  pose proof (Forall_cons_1 _ _ _ Ho) as [Hoo _].
  destruct (clobber_block path f g (mkDiveOriginalBlock 0 o) (size_of c) 0 w2 Hcl)
    as (w3 & -> & Hc3); [unfold inside; simpl; lia|done|].
  rewrite TraverseBlocks_layout by (apply Hr || by rewrite (rep_length _ _ Hr), Eo).
  rewrite Hblocks, (rep_edits _ _ Hr), He, fmap_empty, layout_no_edits.
  destruct (clobber_blocks path f g blobs _ (size_of c) _ w3 Hc3 (extents_inside _ _ Hasc Ho Hb) Hb)
    as (w4 & -> & Hc4).
  rewrite extents_total in Hc4 by done. simpl in Hc4.
  simpl. destruct (close_files f g w4) as [ok w5] eqn:Hclose.
  exists w4, w5. rewrite Hclose. split; [done|].
  rewrite (close_files_contents _ _ _ _ _ Hclose), (cl_contents _ _ _ _ _ Hc4).
  do 2 f_equal. lia.
Qed.

Lemma plain_represents :
  represents (run_ops apply_op plain_ops new_DiveBlockData).1
    (mkEdited [4; 10; 16] (Some 16) ∅).
Proof.
  destruct (run_ops apply_op plain_ops new_DiveBlockData) as [d rs] eqn:Hrun.
  assert (Hok : Forall op_ok plain_ops) by ops_ok.
  destruct (ops_simulate _ _ _ _ _ new_represents Hok Hrun) as (e & He & Hr).
  assert (Hes : e = (run_ops spec_op plain_ops (mkEdited [] None ∅)).1) by (by rewrite He).
  by rewrite Hes in Hr.
Qed.

Lemma plain_edits_file : edits_file test_capture test_blobs (mkEdited [4; 10; 16] (Some 16) ∅).
Proof.
  split; [done|vm_compute; reflexivity| |done|].
  - simpl. repeat (apply Forall_cons; split; [vm_compute; split; discriminate|]); constructor.
  - intros k b. simpl. by rewrite lookup_empty.
Qed.

Lemma overwritten_capture_lost_witness :
  exists d w', represents d (mkEdited [4; 10; 16] (Some 16) ∅) /\
  WriteGFXRFile d test_blobs "capture.gfxr" "capture.gfxr" test_disk = Some (true, w') /\
  contents w' "capture.gfxr" = Some (zeros 16).
Proof.
  pose (w1 := (FileOpen "capture.gfxr" "rb" test_disk).2).
  pose (w2 := (FileOpen "capture.gfxr" "wb" w1).2).
  destruct (overwritten_capture_lost _ _ test_blobs test_capture "capture.gfxr" 0 1 test_disk w1 w2
              plain_represents plain_edits_file) as (w3 & w' & Hw & Hz); [reflexivity..|].
  assert (Hok : (fst <$> WriteGFXRFile (run_ops apply_op plain_ops new_DiveBlockData).1 test_blobs
                   "capture.gfxr" "capture.gfxr" test_disk) = Some true) by (vm_compute; reflexivity).
  rewrite Hw in Hok. injection Hok as Hok. rewrite Hok in Hw.
  eexists _, w'. split; [apply plain_represents|]. split; [exact Hw|exact Hz].
Defined.

Section unnoticed.
Context {World FILE : Type} `{PlatformFiles World FILE}.
Variables (f g : FILE) (blobs : Blobs).
Hypothesis seeks : forall offset w, (FileSeek f offset FileSeekSet w).1 = true.

Lemma write_original_unnoticed b writer :
  exists writer', write_original f g b writer = (writer', true).
Proof.
  unfold write_original. destruct (size_ b =? 0); [by eexists|].
  destruct writer as [w buffer]. specialize (seeks (int64 (offset_ b)) w).
  destruct (FileSeek f (int64 (offset_ b)) FileSeekSet w) as [ok w']. simpl in seeks. subst ok.
  by eexists.
Qed.

Lemma visit_originals_unnoticed bs writer :
  exists writer', visit_blocks (H := WriterBlockVisitor blobs f g)
    ((fun b => Some (Original b)) <$> bs) writer = (writer', true).
Proof.
  revert writer. induction bs as [|b bs IH]; intros writer; [by eexists|].
  cbn [fmap list_fmap visit_blocks Accept VisitOriginal WriterBlockVisitor].
  destruct (write_original_unnoticed b writer) as [writer1 ->]. apply IH.
Qed.
End unnoticed.

(** Errors while the capture is copied go unnoticed. Whatever reading the
    capture and writing the new file do, if the files can be opened, positioned and
    closed, then [WriteGFXRFile] of a capture without modifications reports success. *)
Theorem copy_errors_unnoticed {World FILE : Type} `{PlatformFiles World FILE}
    (d : DiveBlockData) (e : Edited) (n : Z) (blobs : Blobs) (path new_path : string) (f g : FILE)
    (w w1 w2 : World) :
  represents d e -> ed_file_size e = Some n -> ed_edits e = ∅ ->
  Z.of_nat (length (ed_offsets e)) < 2 ^ 32 ->
  FileOpen path "rb" w = ((0, Some f), w1) -> FileOpen new_path "wb" w1 = ((0, Some g), w2) ->
  (forall offset w, (FileSeek f offset FileSeekSet w).1 = true) ->
  (forall h w, (FileClose h w).1 = 0) ->
  exists w', WriteGFXRFile d blobs path new_path w = Some (true, w').
Proof.
  intros Hr Hs He Hn H1 H2 Hseek Hclose. unfold WriteGFXRFile.
  rewrite (rep_locked _ _ Hr), Hs, H1, H2. simpl. unfold write_blocks.
  cbn [Accept VisitOriginal WriterBlockVisitor].
  destruct (write_original_unnoticed f g Hseek (original_header_block_ d) (w2, new_copy_buffer))
    as [[w3 buffer] ->].
  rewrite TraverseBlocks_layout by (apply Hr || by rewrite (rep_length _ _ Hr)).
  rewrite (rep_edits _ _ Hr), He, fmap_empty, layout_no_edits.
  destruct (visit_originals_unnoticed f g blobs Hseek (original_blocks_map_ d) (w3, buffer))
    as [[w4 buffer4] ->].
  simpl. unfold close_files. pose proof (Hclose f w4) as Hc1.
  destruct (FileClose f w4) as [r1 w5]. simpl in Hc1. subst r1. simpl.
  pose proof (Hclose g w5) as Hc2. destruct (FileClose g w5) as [r2 w6]. simpl in Hc2. subst r2.
  by eexists.
Qed.

(** A disk that is full: nothing is ever written. *)
Definition full_disk : PlatformFiles Disk Z := {|
  FileOpen := disk_open;
  FileSeek f offset origin d := (true, (disk_seek f offset origin d).2);
  FileTell f d := (0, d);
  FileRead := disk_read;
  FileWrite f bytes d := (false, d);
  FileClose f d := (0, d);
|}.

Lemma copy_errors_unnoticed_witness :
  exists d w', represents d (mkEdited [4; 10; 16] (Some 16) ∅) /\
  WriteGFXRFile (H := full_disk) d test_blobs "capture.gfxr" "new.gfxr" test_disk = Some (true, w') /\
  disk_files w' !! "new.gfxr" = Some [].
Proof.
  pose (w1 := (disk_open "capture.gfxr" "rb" test_disk).2).
  pose (w2 := (disk_open "new.gfxr" "wb" w1).2).
  destruct (copy_errors_unnoticed (H := full_disk) _ _ 16 test_blobs "capture.gfxr" "new.gfxr" 0 1
              test_disk w1 w2 plain_represents) as (w' & Hw); [reflexivity..|].
  assert (Hf : (fun r => disk_files r.2 !! "new.gfxr") <$> WriteGFXRFile (H := full_disk)
      (run_ops apply_op plain_ops new_DiveBlockData).1 test_blobs "capture.gfxr" "new.gfxr" test_disk
      = Some (Some [])) by (vm_compute; reflexivity).
  rewrite Hw in Hf. injection Hf as Hf.
  eexists _, w'. split; [apply plain_represents|]. split; [exact Hw|exact Hf].
Defined.
