(* ===== verification/GfxrCapture.v ===== *)
(** * Loading and writing GFXR captures

    [DiveFileProcessor] of [src/gfxr_ext/decode/dive_file_processor.{h,cpp}] on top of
    the block loop of gfxreconstruct's [FileProcessor], and [GfxrCaptureData] of
    [src/dive_core/gfxr_capture_data.{h,cpp}]. The class [GfxrReader] is the parser
    of gfxreconstruct. Blocks in asset files, the decoders (some decoder
    always wants the next block), and the triggers of the PM4 and RenderDoc captures are
    not modelled. *)

From S2P Require Import Prelude.
From S2P Require Import CaptureData.
From S2P Require Import BlockData.
From S2P Require Import GfxrFile.

(** ** The file processor *)

(** The calls that end a frame in captures without frame markers. *)
Definition MakeApiCallId (family api_call : Z) : Z :=
  Z.lor (Z.land (Z.shiftl family 16) 0xffff0000) (Z.land api_call 0x0000ffff).

Definition ApiFamily_Vulkan : Z := 1.
Definition ApiFamily_Dxgi : Z := 2.
Definition ApiFamily_OpenXR : Z := 7.

Definition ApiCall_vkQueuePresentKHR : Z := MakeApiCallId ApiFamily_Vulkan 0x10ae.
Definition ApiCall_vkFrameBoundaryANDROID : Z := MakeApiCallId ApiFamily_Vulkan 0x12dc.
Definition ApiCall_IDXGISwapChain_Present : Z := MakeApiCallId ApiFamily_Dxgi 0x1021.
Definition ApiCall_IDXGISwapChain1_Present1 : Z := MakeApiCallId ApiFamily_Dxgi 0x104e.
Definition ApiCall_xrEndFrame : Z := MakeApiCallId ApiFamily_OpenXR 0x1023.

(** A block of the file, as far as the processor distinguishes them: the two markers,
    the calls of functions and methods, and the annotation that describes the capture's
    operations, with the answer of [SupportsFrameMarkers] for the version in it. *)
Inductive GfxrBlock :=
| StateEndMarker (frame_number : Z)
| FrameEndMarker (frame_number : Z)
| FunctionCall (call_id : Z)
| OperationsAnnotation (supports_frame_markers : bool)
| OtherBlock.

#[global] Instance GfxrBlock_eq_dec : EqDecision GfxrBlock.
Proof. solve_decision. Defined.

Inductive ReadResult :=
| BlockRead (block : GfxrBlock) (next : Z)
| EndOfFile
| ReadError.

(** [Initialize] opens a file and reads its header, up to the offset of the first
    block, with whether the version of the file has explicit frame markers; [ReadBlock]
    reads the block at an offset. *)
Class GfxrReader (World : Type) := {
  Initialize : string -> World -> option (Z * bool) * World;
  ReadBlock : string -> Z -> World -> ReadResult;
}.

Definition kFirstFrame : Z := 0.

(** [file_tell] is the position in the active file, [processed] the blocks that the
    decoders are given, with their indices. *)
Record DiveFileProcessor := mkDiveFileProcessor {
  file_tell : Z;
  block_index_ : Z;
  current_frame_number_ : Z;
  pending_capture_uses_frame_markers_ : bool;
  capture_uses_frame_markers_ : bool;
  first_frame_ : Z;
  state_end_marker_block_index_ : Z;
  loop_single_frame_count_ : Z;
  state_end_marker_file_offset_ : Z;
  dive_block_data_ : option DiveBlockData;
  processed : list (Z * GfxrBlock);
}.

Definition new_DiveFileProcessor (header_end : Z) (explicit_frame_markers : bool) : DiveFileProcessor :=
  mkDiveFileProcessor header_end 0 kFirstFrame false explicit_frame_markers (kFirstFrame + 1)
    0 1 0 None [].

Definition SetLoopSingleFrameCount (n : Z) (p : DiveFileProcessor) : DiveFileProcessor :=
  mkDiveFileProcessor (file_tell p) (block_index_ p) (current_frame_number_ p)
    (pending_capture_uses_frame_markers_ p) (capture_uses_frame_markers_ p) (first_frame_ p)
    (state_end_marker_block_index_ p) n (state_end_marker_file_offset_ p) (dive_block_data_ p)
    (processed p).

Definition SetDiveBlockData (d : option DiveBlockData) (p : DiveFileProcessor) : DiveFileProcessor :=
  mkDiveFileProcessor (file_tell p) (block_index_ p) (current_frame_number_ p)
    (pending_capture_uses_frame_markers_ p) (capture_uses_frame_markers_ p) (first_frame_ p)
    (state_end_marker_block_index_ p) (loop_single_frame_count_ p)
    (state_end_marker_file_offset_ p) d (processed p).

(** The position in the file, the index of the block and the number of the frame. *)
Definition go_to (tell index frame : Z) (p : DiveFileProcessor) : DiveFileProcessor :=
  mkDiveFileProcessor tell index frame (pending_capture_uses_frame_markers_ p)
    (capture_uses_frame_markers_ p) (first_frame_ p) (state_end_marker_block_index_ p)
    (loop_single_frame_count_ p) (state_end_marker_file_offset_ p) (dive_block_data_ p) (processed p).

Definition with_markers (pending uses : bool) (p : DiveFileProcessor) : DiveFileProcessor :=
  mkDiveFileProcessor (file_tell p) (block_index_ p) (current_frame_number_ p) pending uses
    (first_frame_ p) (state_end_marker_block_index_ p) (loop_single_frame_count_ p)
    (state_end_marker_file_offset_ p) (dive_block_data_ p) (processed p).

(** The result of [AddOriginalBlock] is not looked at. *)
Definition StoreBlockInfo (p : DiveFileProcessor) : DiveFileProcessor :=
  match dive_block_data_ p with
  | None => p
  | Some d => SetDiveBlockData (Some (AddOriginalBlock (block_index_ p) (u64 (file_tell p)) d).1) p
  end.

(** [FileProcessor::IsFrameDelimiter] of a call. *)
Definition IsFrameDelimiter (call_id : Z) (p : DiveFileProcessor) : bool :=
  if capture_uses_frame_markers_ p then false
  else (call_id =? ApiCall_vkQueuePresentKHR) || (call_id =? ApiCall_vkFrameBoundaryANDROID) ||
       (call_id =? ApiCall_IDXGISwapChain_Present) || (call_id =? ApiCall_IDXGISwapChain1_Present1) ||
       (call_id =? ApiCall_xrEndFrame).

(** [FileProcessor::ProcessFrameDelimiter]: every end marker of a frame is a delimiter;
    the first one takes effect after the block was given to the decoders. *)
Definition base_ProcessFrameDelimiter (p : DiveFileProcessor) : DiveFileProcessor * bool :=
  (if capture_uses_frame_markers_ p then p else with_markers true (capture_uses_frame_markers_ p) p, true).

(** The frame number is set for the base class's assertion and put back. *)
Definition ProcessFrameDelimiter (p : DiveFileProcessor) : DiveFileProcessor * bool :=
  let '(p, is_frame_delimiter) := base_ProcessFrameDelimiter p in
  let finite_looping := 0 <? loop_single_frame_count_ p in
  let loops_done := u64 (current_frame_number_ p + 1) in
  if finite_looping && (loop_single_frame_count_ p <=? loops_done) then (p, is_frame_delimiter)
  else
    (go_to (state_end_marker_file_offset_ p) (state_end_marker_block_index_ p)
       (current_frame_number_ p) p, is_frame_delimiter).

Definition ProcessStateEndMarker (frame_number : Z) (p : DiveFileProcessor) : DiveFileProcessor :=
  mkDiveFileProcessor (file_tell p) (block_index_ p) (current_frame_number_ p)
    (pending_capture_uses_frame_markers_ p) (capture_uses_frame_markers_ p) frame_number
    (block_index_ p) (loop_single_frame_count_ p) (file_tell p) (dive_block_data_ p) (processed p).

Definition ProcessAnnotation (supports_frame_markers : bool) (p : DiveFileProcessor) : DiveFileProcessor :=
  if supports_frame_markers then with_markers (pending_capture_uses_frame_markers_ p) true p else p.

(** [ProcessVisitor], with whether the block ends a frame. *)
Definition process_visitor (block : GfxrBlock) (p : DiveFileProcessor) : DiveFileProcessor * bool :=
  match block with
  | FunctionCall call_id => (p, IsFrameDelimiter call_id p)
  | FrameEndMarker _ => ProcessFrameDelimiter p
  | StateEndMarker frame_number => (ProcessStateEndMarker frame_number p, false)
  | OperationsAnnotation supports_frame_markers => (ProcessAnnotation supports_frame_markers p, false)
  | OtherBlock => (p, false)
  end.

Definition dispatch (index : Z) (block : GfxrBlock) (p : DiveFileProcessor) : DiveFileProcessor :=
  mkDiveFileProcessor (file_tell p) (block_index_ p) (current_frame_number_ p)
    (pending_capture_uses_frame_markers_ p) (capture_uses_frame_markers_ p) (first_frame_ p)
    (state_end_marker_block_index_ p) (loop_single_frame_count_ p)
    (state_end_marker_file_offset_ p) (dive_block_data_ p) (processed p ++ [(index, block)]).

Definition next_block (p : DiveFileProcessor) : DiveFileProcessor :=
  go_to (file_tell p) (u64 (block_index_ p + 1)) (current_frame_number_ p) p.

(** The frame of the first end marker is the first one, if the capture did not say
    before that it has frame markers. *)
Definition UpdateEndFrameState (p : DiveFileProcessor) : DiveFileProcessor :=
  let p := if pending_capture_uses_frame_markers_ p
           then go_to (file_tell p) (block_index_ p) kFirstFrame (with_markers false true p) else p in
  go_to (file_tell p) (u64 (block_index_ p + 1)) (u64 (current_frame_number_ p + 1)) p.

Inductive Outcome :=
| Running (p : DiveFileProcessor)
| Ended (p : DiveFileProcessor) (error_free : bool).

Section processor.
Variable read_block : Z -> ReadResult.

(** One round of [ProcessBlocks], where a decoder wants more blocks. A delimiter of a
    frame ends the method, which [ProcessAllFrames] then calls again. *)
Definition process_block (p : DiveFileProcessor) : Outcome :=
  let p := StoreBlockInfo p in
  let index := block_index_ p in
  match read_block (file_tell p) with
  | EndOfFile => Ended (next_block p) true
  | ReadError => Ended (next_block p) false
  | BlockRead block next =>
      let p := go_to next (block_index_ p) (current_frame_number_ p) p in
      let '(p, is_frame_delimiter) := process_visitor block p in
      let p := dispatch index block p in
      Running (if is_frame_delimiter then UpdateEndFrameState p else next_block p)
  end.

(** [ProcessAllFrames], for [fuel] blocks. *)
Fixpoint process_blocks (fuel : nat) (p : DiveFileProcessor) : Outcome :=
  match fuel with
  | O => Running p
  | S fuel =>
      match process_block p with
      | Running p => process_blocks fuel p
      | ended => ended
      end
  end.

Definition ProcessAllFrames (fuel : nat) (p : DiveFileProcessor) : Outcome :=
  process_blocks fuel (go_to (file_tell p) 0 (current_frame_number_ p) p).
End processor.

(** ** Looping over the frame *)

(** The blocks [bs] lie one after the other from [off] to [last]. *)
Fixpoint blocks_at (read_block : Z -> ReadResult) (off : Z) (bs : list GfxrBlock) (last : Z) : Prop :=
  match bs with
  | [] => off = last
  | b :: bs => exists next, read_block off = BlockRead b next /\ off <= next /\
      blocks_at read_block next bs last
  end.

Fixpoint indexed (i : Z) (bs : list GfxrBlock) : list (Z * GfxrBlock) :=
  match bs with
  | [] => []
  | b :: bs => (i, b) :: indexed (i + 1) bs
  end.

Definition is_marker (b : GfxrBlock) : Prop :=
  match b with StateEndMarker _ | FrameEndMarker _ => True | _ => False end.

(** The blocks are neither the marker of the state's end nor of a frame's. *)
Definition unmarked (bs : list GfxrBlock) : Prop := Forall (fun b => ~ is_marker b) bs.

(** The presents and frame boundaries of Vulkan, DXGI and OpenXR. *)
Definition frame_calls : list Z := [0x110ae; 0x112dc; 0x21021; 0x2104e; 0x71023].

(** How many of them come before the blocks say that the capture has frame markers. *)
Fixpoint presents (bs : list GfxrBlock) : nat :=
  match bs with
  | [] | OperationsAnnotation true :: _ => 0
  | FunctionCall id :: bs => (if bool_decide (id ∈ frame_calls) then 1 else 0) + presents bs
  | _ :: bs => presents bs
  end.

Definition declared (bs : list GfxrBlock) : Prop := OperationsAnnotation true ∈ bs.

#[global] Instance declared_dec bs : Decision (declared bs).
Proof. unfold declared. apply _. Defined.

(** The rounds of a frame that is to be looped [count] times, by the frames that are
    taken to have ended before the first end marker and by whether the capture has said
    that it has frame markers. *)
Definition rounds (count ended : nat) (markers : bool) : nat :=
  if (count <=? ended + 1)%nat then 1 else if markers then count - ended else count.

Section looping.
Variable read_block : Z -> ReadResult.
Implicit Types p : DiveFileProcessor.

(** Everything but the block data. *)
Definition core p :=
  (file_tell p, block_index_ p,
   (current_frame_number_ p, pending_capture_uses_frame_markers_ p, capture_uses_frame_markers_ p),
   (first_frame_ p, state_end_marker_block_index_ p, loop_single_frame_count_ p,
    state_end_marker_file_offset_ p), processed p).

Lemma core_StoreBlockInfo p : core (StoreBlockInfo p) = core p.
Proof. unfold StoreBlockInfo. by destruct (dive_block_data_ p). Qed.

Lemma blocks_at_app off bs1 bs2 last :
  blocks_at read_block off (bs1 ++ bs2) last <->
  exists mid, blocks_at read_block off bs1 mid /\ blocks_at read_block mid bs2 last.
Proof.
  revert off. induction bs1 as [|b bs1 IH]; intros off; simpl.
  { split; [intros Hb; by exists off|by intros (mid & -> & Hb)]. }
  split.
  - intros (next & Hr & Hle & (mid & H1 & H2)%IH). exists mid. split; [by exists next|done].
  - intros (mid & (next & Hr & Hle & H1) & H2). exists next. split_and!; [done|done|].
    apply IH. by exists mid.
Qed.

Lemma process_blocks_add n m p :
  process_blocks read_block (n + m) p =
  match process_blocks read_block n p with
  | Running p' => process_blocks read_block m p'
  | ended => ended
  end.
Proof.
  revert p. induction n as [|n IH]; intros p; simpl; [done|].
  by destruct (process_block read_block p).
Qed.

Lemma indexed_app i bs1 bs2 :
  indexed i (bs1 ++ bs2) = indexed i bs1 ++ indexed (i + Z.of_nat (length bs1)) bs2.
Proof.
  revert i. induction bs1 as [|b bs1 IH]; intros i; simpl; [by rewrite Z.add_0_r|].
  rewrite IH. do 3 f_equal. lia.
Qed.

Lemma IsFrameDelimiter_spec id p :
  IsFrameDelimiter id p = negb (capture_uses_frame_markers_ p) && bool_decide (id ∈ frame_calls).
Proof.
  unfold IsFrameDelimiter. destruct (capture_uses_frame_markers_ p); [done|]. apply eq_true_iff_eq.
  simpl. rewrite bool_decide_eq_true, !orb_true_iff, !Z.eqb_eq. unfold frame_calls.
  rewrite !elem_of_cons, elem_of_nil.
  change ApiCall_vkQueuePresentKHR with 0x110ae. change ApiCall_vkFrameBoundaryANDROID with 0x112dc.
  change ApiCall_IDXGISwapChain_Present with 0x21021.
  change ApiCall_IDXGISwapChain1_Present1 with 0x2104e. change ApiCall_xrEndFrame with 0x71023. tauto.
Qed.

(** One block that is read: the fields of the processor afterwards. *)
Lemma process_block_read p tell i frame uses saved log b next :
  core p = (tell, i, (frame, false, uses), saved, log) -> read_block tell = BlockRead b next ->
  0 <= i -> i + 1 < 2 ^ 64 -> 0 <= frame -> frame + 1 < 2 ^ 64 ->
  exists p', process_block read_block p = Running p' /\
  core p' =
  let '(ff, sidx, loop, soff) := saved in
  match b with
  | OtherBlock => (next, i + 1, (frame, false, uses), saved, log ++ [(i, b)])
  | FunctionCall id =>
      (next, i + 1, (if negb uses && bool_decide (id ∈ frame_calls) then frame + 1 else frame,
                     false, uses), saved, log ++ [(i, b)])
  | OperationsAnnotation ok => (next, i + 1, (frame, false, ok || uses), saved, log ++ [(i, b)])
  | StateEndMarker n => (next, i + 1, (frame, false, uses), (n, i, loop, next), log ++ [(i, b)])
  | FrameEndMarker n =>
      if (0 <? loop) && (loop <=? frame + 1)
      then (next, i + 1, (if uses then frame + 1 else 1, false, true), saved, log ++ [(i, b)])
      else (soff, u64 (sidx + 1), (if uses then frame + 1 else 1, false, true), saved, log ++ [(i, b)])
  end.
Proof.
  intros Hp Hr Hi Hi' Hf Hf'. pose proof (core_StoreBlockInfo p) as Hs. rewrite Hp in Hs.
  unfold process_block. destruct (StoreBlockInfo p) as [t i' fr pend us ff sidx loop soff d lg].
  unfold core in Hs. simpl in Hs. injection Hs as -> -> -> -> -> <- ->. simpl. rewrite Hr.
  assert (Hw : u64 (i + 1) = i + 1) by (apply wrap_small; unfold in_width; lia).
  assert (Hw' : u64 (frame + 1) = frame + 1) by (apply wrap_small; unfold in_width; lia).
  destruct b as [n|n|id|ok|]; cbn [process_visitor].
  - eexists. split; [reflexivity|]. unfold core. simpl. by rewrite Hw.
  - destruct uses; unfold ProcessFrameDelimiter; simpl; rewrite Hw';
      destruct ((0 <? loop) && (loop <=? frame + 1)); (eexists; split; [reflexivity|]);
      unfold core; simpl; by rewrite ?Hw, ?Hw'.
  - rewrite IsFrameDelimiter_spec. simpl.
    destruct (negb uses && bool_decide (id ∈ frame_calls)); (eexists; split; [reflexivity|]);
      unfold core; simpl; by rewrite Hw, ?Hw'.
  - destruct ok; (eexists; split; [reflexivity|]); unfold core; simpl; by rewrite Hw.
  - eexists. split; [reflexivity|]. unfold core. simpl. by rewrite Hw.
Qed.

(** The frames that have ended and whether there are frame markers, after [bs]. *)
Definition ended_after (uses : bool) (bs : list GfxrBlock) : nat := if uses then 0 else presents bs.
Definition uses_after (uses : bool) (bs : list GfxrBlock) : bool := uses || bool_decide (declared bs).

Lemma ended_after_length uses bs : (ended_after uses bs <= length bs)%nat.
Proof.
  unfold ended_after. destruct uses; [lia|].
  induction bs as [|[n|n|id|[]|] bs IH]; simpl; [lia..| | | |]; [case_bool_decide; lia|lia..].
Qed.

Lemma ended_after_app uses bs1 bs2 :
  ended_after uses (bs1 ++ bs2) = (ended_after uses bs1 + ended_after (uses_after uses bs1) bs2)%nat.
Proof.
  unfold ended_after, uses_after. destruct uses; [done|]. simpl.
  induction bs1 as [|b bs1 IH]; [done|].
  assert (Hd : b <> OperationsAnnotation true -> bool_decide (declared (b :: bs1)) = bool_decide (declared bs1)).
  { intros Hb. apply bool_decide_ext. unfold declared. rewrite elem_of_cons. naive_solver. }
  destruct b as [n|n|id|[]|]; try (rewrite Hd by done; simpl; lia).
  rewrite bool_decide_eq_true_2 by (unfold declared; left). done.
Qed.

Lemma uses_after_app uses bs1 bs2 : uses_after uses (bs1 ++ bs2) = uses_after (uses_after uses bs1) bs2.
Proof.
  unfold uses_after. rewrite <- orb_assoc. f_equal. apply eq_true_iff_eq.
  rewrite orb_true_iff, !bool_decide_eq_true. unfold declared. apply elem_of_app.
Qed.

(** Blocks that are no markers. *)
Lemma process_unmarked bs p tell i frame uses saved log last :
  unmarked bs ->
  core p = (tell, i, (frame, false, uses), saved, log) -> blocks_at read_block tell bs last ->
  0 <= i -> i + Z.of_nat (length bs) < 2 ^ 64 -> 0 <= frame -> frame + Z.of_nat (length bs) < 2 ^ 64 ->
  exists p', process_blocks read_block (length bs) p = Running p' /\
  core p' = (last, i + Z.of_nat (length bs),
             (frame + Z.of_nat (ended_after uses bs), false, uses_after uses bs), saved,
             log ++ indexed i bs).
Proof.
  revert p tell i frame uses log. induction bs as [|b bs IH];
    intros p tell i frame uses log Hu Hp Hb Hi Hn Hf Hfn.
  { simpl in Hb. subst. exists p. split; [done|]. rewrite Hp. unfold ended_after, uses_after.
    rewrite app_nil_r, bool_decide_eq_false_2 by (unfold declared; by intros []%elem_of_nil).
    rewrite orb_false_r. destruct uses; simpl; by rewrite !Z.add_0_r. }
  apply Forall_cons in Hu as [Hb' Hu]. destruct Hb as (next & Hr & _ & Hb). simpl in Hn, Hfn.
  destruct (process_block_read p tell i frame uses saved log _ next Hp Hr) as (p1 & Hp1 & Hc1); [lia..|].
  destruct saved as [[[ff sidx] loop] soff].
  assert (Hc : core p1 = (next, i + 1, (frame + Z.of_nat (ended_after uses [b]), false, uses_after uses [b]),
                          (ff, sidx, loop, soff), log ++ [(i, b)])).
  { assert (Hk : forall x : GfxrBlock, x <> OperationsAnnotation true -> uses_after uses [x] = uses).
    { intros x Hx. unfold uses_after. rewrite bool_decide_eq_false_2, orb_false_r; [done|].
      unfold declared. rewrite elem_of_cons, elem_of_nil. naive_solver. }
    rewrite Hc1. unfold ended_after. destruct b as [n|n|id|[]|]; simpl in Hb'; [tauto..| | | |];
      rewrite ?Hk by done; destruct uses; simpl; rewrite ?Z.add_0_r; try done.
    by case_bool_decide; rewrite ?Z.add_0_r. }
  pose proof (ended_after_length uses [b]) as Hle. simpl in Hle.
  destruct (IH p1 next (i + 1) _ _ _ Hu Hc Hb) as (p' & Hp' & Hc'); [lia..|].
  exists p'. cbn [length process_blocks]. rewrite Hp1. split; [done|].
  change (b :: bs) with ([b] ++ bs). rewrite Hc', ended_after_app, uses_after_app, indexed_app.
  rewrite <- app_assoc, Nat2Z.inj_add, Z.add_assoc. simpl app. simpl length. simpl indexed.
  by replace (i + 1 + Z.of_nat (length bs)) with (i + Z.of_nat (S (length bs))) by lia.
Qed.

(** One frame, from the block after the marker of the state's end to the frame's
    end marker: either the file goes on, or the processor is back at the start. *)
Lemma process_frame bs e p start i frame uses ff loop log last :
  unmarked bs ->
  core p = (start, i + 1, (frame, false, uses), (ff, i, loop, start), log) ->
  blocks_at read_block start (bs ++ [FrameEndMarker e]) last ->
  0 <= i -> i + 2 + Z.of_nat (length bs) < 2 ^ 64 ->
  0 <= frame -> frame + 1 + Z.of_nat (length bs) < 2 ^ 64 ->
  let now := frame + Z.of_nat (ended_after uses bs) in
  exists p', process_blocks read_block (length bs + 1) p = Running p' /\
  core p' =
  (if (0 <? loop) && (loop <=? now + 1) then (last, i + 2 + Z.of_nat (length bs)) else (start, i + 1),
   (if uses_after uses bs then now + 1 else 1, false, true), (ff, i, loop, start),
   log ++ indexed (i + 1) (bs ++ [FrameEndMarker e])).
Proof.
  intros Hu Hp Hb Hi Hm Hf Hfm now. apply blocks_at_app in Hb as (mid & Hb1 & next & Hr & _ & ->).
  pose proof (ended_after_length uses bs) as Hle.
  destruct (process_unmarked bs p start (i + 1) frame uses _ log mid Hu Hp Hb1) as (p1 & Hp1 & Hc1);
    [lia..|]. fold now in Hc1.
  destruct (process_block_read p1 mid _ now _ _ _ _ _ Hc1 Hr) as (p' & Hp' & Hc'); [lia..|].
  exists p'. rewrite process_blocks_add, Hp1. cbn [process_blocks]. rewrite Hp'. split; [done|].
  rewrite Hc'. rewrite (wrap_small 64 (i + 1)) by (unfold in_width; lia).
  rewrite indexed_app. simpl. rewrite <- app_assoc.
  destruct ((0 <? loop) && (loop <=? now + 1)); [|reflexivity].
  by replace (i + 1 + Z.of_nat (length bs) + 1) with (i + 2 + Z.of_nat (length bs)) by lia.
Qed.

(** What the decoders are given in one frame. *)
Definition frame_blocks (bs : list GfxrBlock) (e i : Z) := indexed (i + 1) (bs ++ [FrameEndMarker e]).

(** The rounds that are left when the capture is known to have frame markers. *)
Lemma process_loops bs e r p start i frame ff loop log last :
  unmarked bs ->
  core p = (start, i + 1, (frame, false, true), (ff, i, loop, start), log) ->
  blocks_at read_block start (bs ++ [FrameEndMarker e]) last ->
  0 <= i -> i + 2 + Z.of_nat (length bs) < 2 ^ 64 ->
  0 <= frame -> loop = frame + Z.of_nat (S r) -> loop + Z.of_nat (length bs) < 2 ^ 64 ->
  exists p', process_blocks read_block (S r * (length bs + 1)) p = Running p' /\
  core p' = (last, i + 2 + Z.of_nat (length bs), (loop, false, true), (ff, i, loop, start),
             log ++ concat (replicate (S r) (frame_blocks bs e i))).
Proof.
  intros Hu Hp Hb Hi Hm. revert p frame log Hp. induction r as [|r IH]; intros p frame log Hp Hf Hl Hlw.
  all: destruct (process_frame bs e p start i frame true ff loop log last Hu Hp Hb Hi Hm) as (p1 & Hp1 & Hc1);
    [lia..|]; cbn [ended_after uses_after orb] in Hc1; rewrite Z.add_0_r in Hc1.
  all: rewrite (proj2 (Z.ltb_lt 0 loop)) in Hc1 by lia.
  - rewrite (proj2 (Z.leb_le loop _)) in Hc1 by lia. exists p1.
    rewrite Nat.mul_1_l. split; [done|]. rewrite Hc1. simpl. rewrite app_nil_r.
    by replace (frame + 1) with loop by lia.
  - rewrite (proj2 (Z.leb_gt loop _)) in Hc1 by lia. simpl in Hc1.
    destruct (IH p1 (frame + 1) _ Hc1) as (p' & Hp' & Hc'); [lia..|].
    exists p'. change (S (S r) * (length bs + 1))%nat with ((length bs + 1) + S r * (length bs + 1))%nat.
    rewrite process_blocks_add, Hp1. split; [done|]. rewrite Hc'. by rewrite <- app_assoc.
Qed.

(** All the rounds of a frame. *)
Lemma process_rounds bs e p start i ended uses ff count log last :
  unmarked bs ->
  core p = (start, i + 1, (Z.of_nat ended, false, uses), (ff, i, Z.of_nat (S count), start), log) ->
  blocks_at read_block start (bs ++ [FrameEndMarker e]) last ->
  0 <= i -> i + 2 + Z.of_nat (length bs) < 2 ^ 64 ->
  Z.of_nat (ended + S count + length bs) + 1 < 2 ^ 64 ->
  let r := rounds (S count) (ended + ended_after uses bs) (uses_after uses bs) in
  exists p' frame, process_blocks read_block (r * (length bs + 1)) p = Running p' /\
  0 <= frame <= Z.of_nat (ended + S count + length bs) + 1 /\
  core p' = (last, i + 2 + Z.of_nat (length bs), (frame, false, true), (ff, i, Z.of_nat (S count), start),
             log ++ concat (replicate r (frame_blocks bs e i))).
Proof.
  intros Hu Hp Hb Hi Hm Hw r. pose proof (ended_after_length uses bs) as Hle.
  destruct (process_frame bs e p start i _ uses ff _ log last Hu Hp Hb Hi Hm) as (p1 & Hp1 & Hc1); [lia..|].
  rewrite <- Nat2Z.inj_add in Hc1. set (n := (ended + ended_after uses bs)%nat) in *.
  rewrite (proj2 (Z.ltb_lt 0 _)) in Hc1 by lia. subst r. unfold rounds.
  destruct (Nat.leb_spec (S count) (n + 1)) as [Hn|Hn].
  - rewrite (proj2 (Z.leb_le _ _)) in Hc1 by lia. simpl in Hc1.
    exists p1, (if uses_after uses bs then Z.of_nat n + 1 else 1). rewrite Nat.mul_1_l.
    split_and!; [done|destruct (uses_after uses bs); lia|destruct (uses_after uses bs); lia|].
    simpl. by rewrite app_nil_r.
  - rewrite (proj2 (Z.leb_gt _ _)) in Hc1 by lia. cbn [andb] in Hc1.
    set (frame := if uses_after uses bs then Z.of_nat n + 1 else 1) in *.
    assert (exists k, (if uses_after uses bs then (S count - n)%nat else S count) = S (S k) /\
            Z.of_nat (S count) = frame + Z.of_nat (S k)) as (k & -> & Hk).
    { subst frame. destruct (uses_after uses bs); [exists (S count - n - 2)%nat|exists (S count - 2)%nat]; lia. }
    destruct (process_loops bs e k p1 start i frame ff _ _ last Hu Hc1 Hb Hi Hm) as (p' & Hp' & Hc');
      [subst frame; destruct (uses_after uses bs); lia|done|lia|].
    exists p', (Z.of_nat (S count)). split_and!; [|lia..|].
    + change (S (S k) * (length bs + 1))%nat with ((length bs + 1) + S k * (length bs + 1))%nat.
      by rewrite process_blocks_add, Hp1.
    + rewrite Hc'. by rewrite <- app_assoc.
Qed.

Lemma running_shorter n m p p' :
  process_blocks read_block (n + m) p = Running p' ->
  exists p1, process_blocks read_block n p = Running p1.
Proof. rewrite process_blocks_add. destruct (process_blocks read_block n p); [by eexists|done]. Qed.

(** Up to the first block after the state's end marker. *)
Lemma process_setup bs n p tell i frame uses ff sidx loop soff log last :
  unmarked bs ->
  core p = (tell, i, (frame, false, uses), (ff, sidx, loop, soff), log) ->
  blocks_at read_block tell (bs ++ [StateEndMarker n]) last ->
  0 <= i -> i + Z.of_nat (length bs) + 1 < 2 ^ 64 ->
  0 <= frame -> frame + Z.of_nat (length bs) + 1 < 2 ^ 64 ->
  exists p', process_blocks read_block (length bs + 1) p = Running p' /\
  core p' = (last, i + Z.of_nat (length bs) + 1,
             (frame + Z.of_nat (ended_after uses bs), false, uses_after uses bs),
             (n, i + Z.of_nat (length bs), loop, last),
             log ++ indexed i (bs ++ [StateEndMarker n])).
Proof.
  intros Hu Hp Hb Hi Hs Hf Hfs. apply blocks_at_app in Hb as (mid & Hb1 & next & Hr & _ & ->).
  pose proof (ended_after_length uses bs) as Hle.
  destruct (process_unmarked bs p tell i frame uses _ log mid Hu Hp Hb1) as (p1 & Hp1 & Hc1); [lia..|].
  destruct (process_block_read p1 mid _ _ _ _ _ _ _ Hc1 Hr) as (p' & Hp' & Hc'); [lia..|].
  exists p'. rewrite process_blocks_add, Hp1. cbn [process_blocks]. rewrite Hp'. split; [done|].
  rewrite Hc', indexed_app. by rewrite <- app_assoc.
Qed.
End looping.

(** ** Frames without end *)

Section forever.
Variable read_block : Z -> ReadResult.

(** Without a loop count the processor is back at the start of the frame after each
    round. The frame number wraps around in the end, so nothing is said of it. *)
Definition at_start (start i ff : Z) (p : DiveFileProcessor) : Prop :=
  (file_tell p, block_index_ p, first_frame_ p, state_end_marker_block_index_ p,
   loop_single_frame_count_ p, state_end_marker_file_offset_ p) = (start, i + 1, ff, i, 0, start).

Definition in_frame (tell j start i ff : Z) (p : DiveFileProcessor) : Prop :=
  (file_tell p, block_index_ p, first_frame_ p, state_end_marker_block_index_ p,
   loop_single_frame_count_ p, state_end_marker_file_offset_ p) = (tell, j, ff, i, 0, start).

Lemma process_block_forever p tell j start i ff b next : in_frame tell j start i ff p ->
  read_block tell = BlockRead b next -> 0 <= j -> j + 1 < 2 ^ 64 -> 0 <= i -> i + 1 < 2 ^ 64 ->
  match b with
  | StateEndMarker _ => True
  | FrameEndMarker _ => exists p', process_block read_block p = Running p' /\ at_start start i ff p'
  | _ => exists p', process_block read_block p = Running p' /\ in_frame next (j + 1) start i ff p'
  end.
Proof.
  intros Hp Hr Hj Hj' Hi Hi'. pose proof (core_StoreBlockInfo p) as Hs. unfold process_block.
  destruct (StoreBlockInfo p) as [t i' fr pend us ff' sidx loop soff d lg].
  unfold core in Hs. simpl in Hs. unfold in_frame in Hp. destruct p as [t0 i0 fr0 pend0 us0 ff0 sidx0 loop0 soff0 d0 lg0].
  simpl in Hs, Hp. injection Hs as -> -> -> -> -> -> -> -> -> ->. injection Hp as -> -> -> -> -> ->.
  simpl. rewrite Hr.
  assert (Hw : u64 (i + 1) = i + 1) by (apply wrap_small; unfold in_width; lia).
  assert (Hw' : u64 (j + 1) = j + 1) by (apply wrap_small; unfold in_width; lia).
  destruct b as [n|n|id|ok|]; cbn [process_visitor]; [done|..].
  - destruct us0; unfold ProcessFrameDelimiter, at_start; simpl; (eexists; split; [reflexivity|]);
      [destruct pend0|]; simpl; by rewrite Hw.
  - unfold in_frame. destruct (IsFrameDelimiter id _); (eexists; split; [reflexivity|]);
      [destruct pend0|]; simpl; by rewrite Hw'.
  - unfold in_frame. destruct ok; (eexists; split; [reflexivity|]); simpl; by rewrite Hw'.
  - unfold in_frame. (eexists; split; [reflexivity|]); simpl; by rewrite Hw'.
Qed.

Lemma process_frame_forever bs e p tell j start i ff last : unmarked bs -> in_frame tell j start i ff p ->
  blocks_at read_block tell (bs ++ [FrameEndMarker e]) last ->
  0 <= j -> j + 1 + Z.of_nat (length bs) < 2 ^ 64 -> 0 <= i -> i + 1 < 2 ^ 64 ->
  exists p', process_blocks read_block (length bs + 1) p = Running p' /\ at_start start i ff p'.
Proof.
  revert p tell j. induction bs as [|b bs IH]; intros p tell j Hu Hp Hb Hj Hjl Hi Hi'.
  - destruct Hb as (next & Hr & _). simpl in *.
    pose proof (process_block_forever p tell j start i ff _ next Hp Hr Hj) as (p' & -> & Hs); [lia..|].
    by exists p'.
  - apply Forall_cons in Hu as [Hb' Hu]. destruct Hb as (next & Hr & _ & Hb). simpl in Hjl.
    assert (exists p', process_block read_block p = Running p' /\ in_frame next (j + 1) start i ff p')
      as (p1 & Hp1 & Hs1).
    { pose proof (process_block_forever p tell j start i ff b next Hp Hr Hj) as H1.
      destruct b; simpl in Hb'; try tauto; apply H1; lia. }
    destruct (IH p1 next (j + 1) Hu Hs1 Hb) as (p' & Hp' & Hs'); [lia..|].
    exists p'. cbn [length Nat.add process_blocks]. by rewrite Hp1.
Qed.

Lemma process_forever bs e r p start i ff last : unmarked bs -> at_start start i ff p ->
  blocks_at read_block start (bs ++ [FrameEndMarker e]) last ->
  0 <= i -> i + 2 + Z.of_nat (length bs) < 2 ^ 64 ->
  exists p', process_blocks read_block (r * (length bs + 1)) p = Running p'.
Proof.
  intros Hu Hp Hb Hi Hm. revert p Hp. induction r as [|r IH]; intros p Hp; [by eexists|].
  destruct (process_frame_forever bs e p start (i + 1) start i ff last Hu Hp Hb) as (p1 & Hp1 & Hc1); [lia..|].
  destruct (IH p1 Hc1) as (p' & Hp'). exists p'.
  change (S r * (length bs + 1))%nat with ((length bs + 1) + r * (length bs + 1))%nat.
  by rewrite process_blocks_add, Hp1.
Qed.
End forever.


(** A file of five blocks of two bytes after a header of four, with a present in its
    frame. *)
Definition test_read_block (off : Z) : ReadResult :=
  match off with
  | 4 => BlockRead OtherBlock 6
  | 6 => BlockRead (StateEndMarker 7) 8
  | 8 => BlockRead (FunctionCall ApiCall_vkQueuePresentKHR) 10
  | 10 => BlockRead (FrameEndMarker 7) 12
  | 12 => BlockRead OtherBlock 14
  | 14 => EndOfFile
  | _ => ReadError
  end.


(** A capture of an older version with a present in its frame: asked for two rounds,
    the processor replays one, since the present counts as a loop. *)
Lemma presents_count_as_loops :
  match ProcessAllFrames test_read_block 6
          (SetLoopSingleFrameCount 2 (SetDiveBlockData None (new_DiveFileProcessor 4 false))) with
  | Ended p' ok => ok = true /\ map fst (processed p') = [0; 1; 2; 3; 4]
  | Running _ => False
  end.
Proof. vm_compute. done. Qed.

(** ** The capture data *)


Record GfxrCaptureData := mkGfxrCaptureData {
  m_gfxr_capture_block_data : option DiveBlockData;
  m_cur_capture_file : string;
}.

Definition new_GfxrCaptureData : GfxrCaptureData := mkGfxrCaptureData None "".

Section capture.
Context {World FILE : Type} `{PlatformFiles World FILE} `{GfxrReader World}.

Definition close_ignored (file : FILE) (w : World) : World := (FileClose file w).2.

(** [None] is an error; its message is only printed. *)
Definition GetFileSize (file_path : string) (w : World) : option Z * World :=
  match FileOpen file_path "rb" w with
  | ((0, Some file), w) =>
      let '(ok, w) := FileSeek file 0 FileSeekEnd w in
      if negb ok then (None, close_ignored file w)
      else
        let '(file_size, w) := FileTell file w in
        if file_size =? -1 then (None, close_ignored file w)
        else (Some (u64 file_size), close_ignored file w)
  | (_, w) => (None, w)
  end.

(** The new object is shared with the file processor, which fills it. [None] when
    the fuel, which bounds the number of blocks, runs out. *)
Definition LoadCaptureFile (fuel : nat) (file_name : string) (data : GfxrCaptureData) (w : World) :
    option (LoadResult * GfxrCaptureData * World) :=
  match m_gfxr_capture_block_data data with
  | Some _ => Some (kFileIoError, data, w)
  | None =>
      let with_blocks d := mkGfxrCaptureData (Some d) (m_cur_capture_file data) in
      match Initialize file_name w with
      | (None, w) => Some (kFileIoError, with_blocks new_DiveBlockData, w)
      | (Some (header_end, explicit_frame_markers), w) =>
          let file_processor :=
            SetDiveBlockData (Some new_DiveBlockData)
              (new_DiveFileProcessor header_end explicit_frame_markers) in
          match ProcessAllFrames (fun off => ReadBlock file_name off w) fuel file_processor with
          | Running _ => None
          | Ended p error_free =>
              let d := default new_DiveBlockData (dive_block_data_ p) in
              if negb error_free then Some (kFileIoError, with_blocks d, w)
              else
                match GetFileSize file_name w with
                | (None, w) => Some (kFileIoError, with_blocks d, w)
                | (Some file_size, w) =>
                    let '(d, ok) := FinalizeOriginalBlocksMapSizes file_size d in
                    if ok then Some (kSuccess, mkGfxrCaptureData (Some d) file_name, w)
                    else Some (kFileIoError, with_blocks d, w)
                end
          end
      end
  end.

Definition WriteModifiedGfxrFile (data : GfxrCaptureData) (blobs : Blobs) (new_file_name : string)
    (w : World) : option (bool * World) :=
  if bool_decide (m_cur_capture_file data = ""%string) then Some (false, w)
  else
    match m_gfxr_capture_block_data data with
    | Some d => WriteGFXRFile d blobs (m_cur_capture_file data) new_file_name w
    | None => None
    end.
End capture.

(** ** Loading a capture *)

Lemma ascending_snoc l x y : ascending (l ++ [x]) = true -> x <= y ->
  ascending ((l ++ [x]) ++ [y]) = true.
Proof.
  intros Ha Hxy. induction l as [|o [|o' l] IH]; simpl in *.
  - rewrite andb_true_r. apply negb_true_iff, Z.ltb_ge. lia.
  - apply andb_true_iff in Ha as [-> _]. rewrite andb_true_r. simpl.
    apply negb_true_iff, Z.ltb_ge. lia.
  - apply andb_true_iff in Ha as [-> Ha]. by apply IH.
Qed.

Lemma ascending_prefix l x : ascending (l ++ [x]) = true -> ascending l = true.
Proof.
  induction l as [|o [|o' l] IH]; simpl in *; [done..|].
  intros [-> Ha]%andb_true_iff. by apply IH.
Qed.

(** The block data so far: one block for each index, up to the current position. *)
Record loading (e : Edited) (p : DiveFileProcessor) : Prop := {
  ld_data : exists d, dive_block_data_ p = Some d /\ represents d e;
  ld_open : ed_file_size e = None;
  ld_index : block_index_ p = Z.of_nat (length (ed_offsets e));
  ld_loop : loop_single_frame_count_ p = 1;
  ld_ascending : ascending (ed_offsets e ++ [file_tell p]) = true;
  ld_offsets : Forall (fun o => 0 <= o <= file_tell p) (ed_offsets e);
  ld_tell : 0 <= file_tell p < 2 ^ 64;
  ld_frame : 0 <= current_frame_number_ p <= block_index_ p;
}.

Definition with_offset (off : Z) (e : Edited) : Edited :=
  mkEdited (ed_offsets e ++ [off]) None (ed_edits e).

Lemma StoreBlockInfo_loading e p : loading e p ->
  core (StoreBlockInfo p) = core p /\
  exists d, dive_block_data_ (StoreBlockInfo p) = Some d /\ represents d (with_offset (file_tell p) e).
Proof.
  intros [(d & Hd & Hr) Ho Hi _ _ _ Ht _]. split; [apply core_StoreBlockInfo|].
  unfold StoreBlockInfo. rewrite Hd. eexists. split; [reflexivity|].
  rewrite wrap_small by (unfold in_width; lia).
  destruct (AddOriginal_simulates (block_index_ p) (file_tell p) d e Hr) as [Hr' _].
  simpl in Hr'. by rewrite Ho, (proj2 (Z.eqb_eq _ _) Hi) in Hr'.
Qed.

Lemma loading_next off next index frame pend uses ff sidx soff log d e :
  ascending (ed_offsets e ++ [off]) = true -> Forall (fun o => 0 <= o <= off) (ed_offsets e) ->
  represents d (with_offset off e) -> index = Z.of_nat (length (ed_offsets e)) ->
  0 <= off <= next -> next < 2 ^ 64 -> 0 <= frame <= index + 1 ->
  loading (with_offset off e) (mkDiveFileProcessor next (index + 1) frame pend uses ff sidx 1 soff (Some d) log).
Proof.
  intros Ha Hall Hr -> Ho Hn Hf. split; simpl; try done.
  - by exists d.
  - rewrite length_app. simpl. lia.
  - by apply ascending_snoc; [|lia].
  - apply Forall_app. split; [|by constructor; [lia|]].
    eapply Forall_impl; [exact Hall|]. simpl. lia.
  - lia.
Qed.

Lemma process_block_loading read_block e p b next : loading e p ->
  read_block (file_tell p) = BlockRead b next -> file_tell p <= next -> next < 2 ^ 63 ->
  block_index_ p + 1 < 2 ^ 63 ->
  exists p', process_block read_block p = Running p' /\ file_tell p' = next /\
  loading (with_offset (file_tell p) e) p'.
Proof.
  intros Hl Hr Hle Hn Hi. destruct (StoreBlockInfo_loading _ _ Hl) as (Hc & d & Hd & Hrep).
  destruct Hl as [_ Ho Hidx Hloop Ha Hall Ht Hf].
  unfold process_block. destruct (StoreBlockInfo p) as [t i fr pend us ff sidx loop soff d' log].
  destruct p as [t0 i0 fr0 pend0 us0 ff0 sidx0 loop0 soff0 d0 log0]. unfold core in Hc. simpl in *.
  injection Hc as -> -> -> -> -> -> -> -> -> ->. subst d' loop0. rewrite Hr.
  assert (Hw : u64 (i0 + 1) = i0 + 1) by (apply wrap_small; unfold in_width; lia).
  assert (Hw' : u64 (fr0 + 1) = fr0 + 1) by (apply wrap_small; unfold in_width; lia).
  assert (H1 : u64 (kFirstFrame + 1) = 1) by reflexivity.
  unfold UpdateEndFrameState, next_block.
  destruct b as [n|n|id|ok|]; cbn [process_visitor].
  - eexists. split; [reflexivity|]. simpl. rewrite Hw. split; [done|]. apply loading_next; (done || lia).
  - destruct us0; unfold ProcessFrameDelimiter; simpl; rewrite Hw', (proj2 (Z.leb_le 1 _)) by lia;
      (eexists; split; [reflexivity|]); [destruct pend0|]; simpl; rewrite Hw, ?Hw', ?H1; (split; [done|]);
      apply loading_next; (done || lia).
  - destruct (IsFrameDelimiter id _); (eexists; split; [reflexivity|]); [destruct pend0|]; simpl;
      rewrite Hw, ?Hw', ?H1; (split; [done|]); apply loading_next; (done || lia).
  - destruct ok; (eexists; split; [reflexivity|]); simpl; rewrite Hw; (split; [done|]);
      apply loading_next; (done || lia).
  - eexists. split; [reflexivity|]. simpl. rewrite Hw. split; [done|]. apply loading_next; (done || lia).
Qed.

Lemma process_all_loading read_block bs last e p : loading e p ->
  blocks_at read_block (file_tell p) bs last -> last < 2 ^ 63 ->
  block_index_ p + Z.of_nat (length bs) < 2 ^ 63 ->
  exists p' e', process_blocks read_block (length bs) p = Running p' /\ file_tell p' = last /\
  loading e' p' /\ ed_edits e' = ed_edits e /\
  length (ed_offsets e') = (length (ed_offsets e) + length bs)%nat.
Proof.
  intros Hl Hb Hlast. revert e p Hl Hb. induction bs as [|b bs IH]; intros e p Hl Hb Hn.
  { simpl in Hb. exists p, e. split_and!; [done..|]. simpl. lia. }
  destruct Hb as (next & Hr & Hle & Hb).
  assert (Hnl : forall bs off, blocks_at read_block off bs last -> off <= last).
  { clear. induction bs as [|b bs IH]; intros off; simpl; [lia|].
    intros (next & _ & Hle & Hb). specialize (IH _ Hb). lia. }
  pose proof (Hnl _ _ Hb) as Hnext. simpl in Hn.
  destruct (process_block_loading read_block e p b next Hl Hr Hle) as (p1 & Hp1 & Ht1 & Hl1); [lia..|].
  rewrite <- Ht1 in Hb.
  destruct (IH _ _ Hl1 Hb) as (p' & e' & Hp' & Ht' & Hl' & He' & Hlen').
  { rewrite (ld_index _ _ Hl1). rewrite (ld_index _ _ Hl) in Hn. simpl. rewrite length_app. simpl. lia. }
  exists p', e'. cbn [length process_blocks]. rewrite Hp1. split_and!; [done..|].
  rewrite Hlen'. simpl. rewrite length_app. simpl. lia.
Qed.

Section roundtrip.
Context {World FILE : Type} `{PlatformLaws World FILE} `{GfxrReader World}.

Lemma GetFileSize_ok path c f w w1 : contents w path = Some c -> size_of c < 2 ^ 63 ->
  FileOpen path "rb" w = ((0, Some f), w1) ->
  exists w', GetFileSize path w = (Some (size_of c), w') /\
  (forall q, contents w' q = contents w q) /\
  (forall g, g <> f -> stream w' g = stream w g) /\ stream w' f = None.
Proof.
  intros Hc Hsize Ho. unfold GetFileSize. rewrite Ho.
  pose proof (open_stream_law _ _ _ _ _ _ f Ho) as Sf. rewrite decide_True in Sf by done.
  destruct Sf as [_ Sf]. simpl in Sf.
  pose proof (fun q => open_read_law _ _ _ _ q Ho) as C1.
  destruct (seek_end_law f w1 path 0 c Sf) as (w2 & -> & Sf2 & S2 & C2); [by rewrite C1|].
  simpl. rewrite (tell_law f w2 _ Sf2). simpl.
  assert (Hne : (size_of c =? -1) = false) by (apply Z.eqb_neq; unfold size_of; lia).
  rewrite Hne. unfold close_ignored. destruct (FileClose f w2) as [r w3] eqn:Hcl.
  destruct (close_law _ _ _ _ Hcl) as (S3f & S3 & C3). exists w3. simpl. split_and!.
  - rewrite wrap_small; [done|]. unfold in_width, size_of in *. lia.
  - intros q. by rewrite C3, C2, C1.
  - intros g Hg. rewrite S3, S2 by done. pose proof (open_stream_law _ _ _ _ _ _ g Ho) as Sg.
    rewrite decide_False in Sg by (intros [_ [= ->]]; done). done.
  - done.
Qed.

(** Loading a file whose blocks lie one after the other up to its end. *)
Lemma LoadCaptureFile_ok path c bs header_end explicit f w w1 w2 :
  Initialize path w = (Some (header_end, explicit), w1) -> contents w1 path = Some c ->
  blocks_at (fun off => ReadBlock path off w1) header_end bs (size_of c) ->
  ReadBlock path (size_of c) w1 = EndOfFile ->
  0 <= header_end <= size_of c -> size_of c < 2 ^ 63 -> Z.of_nat (length bs) + 1 < 2 ^ 32 ->
  FileOpen path "rb" w1 = ((0, Some f), w2) ->
  exists d e w', LoadCaptureFile (S (length bs)) path new_GfxrCaptureData w
    = Some (kSuccess, mkGfxrCaptureData (Some d) path, w') /\
  represents d e /\ (forall blobs, edits_file c blobs e) /\ ed_edits e = ∅ /\
  length (ed_offsets e) = S (length bs) /\ (forall q, contents w' q = contents w1 q).
Proof.
  intros Hinit Hc Hb Heof Hh Hsize Hlen Hopen. unfold LoadCaptureFile. simpl. rewrite Hinit.
  unfold ProcessAllFrames.
  set (p0 := go_to _ _ _ _). set (read_block := fun off => ReadBlock path off w1) in *.
  assert (Hl0 : loading (mkEdited [] None ∅) p0).
  { split; simpl; try done; [|lia..]. exists new_DiveBlockData. split; [done|apply new_represents]. }
  destruct (process_all_loading read_block bs (size_of c) _ p0 Hl0 Hb) as
    (p1 & e1 & Hp1 & Ht1 & Hl1 & He1 & Hlen1); [lia|simpl; lia|].
  replace (S (length bs)) with (length bs + 1)%nat by lia.
  rewrite process_blocks_add, Hp1. cbn [process_blocks]. unfold process_block.
  destruct (StoreBlockInfo_loading _ _ Hl1) as (Hcore & d & Hd & Hr).
  pose proof Hcore as Htell. unfold core in Htell. injection Htell as Htell _ _ _ _ _ _ _ _ _.
  rewrite Htell, Ht1. unfold read_block. rewrite Heof. cbn [next_block go_to dive_block_data_ negb].
  rewrite Hd. simpl.
  destruct (GetFileSize_ok path c f w1 w2 Hc Hsize Hopen) as (w3 & -> & Hq & _).
  destruct (Finalize_simulates (size_of c) d _ Hr) as [Hr' Hok].
  assert (Ha : ascending (ed_offsets e1 ++ [file_tell p1]) = true) by apply Hl1.
  simpl in Hr', Hok. rewrite Ha, length_app in Hr', Hok. simpl in Hr', Hok.
  rewrite (proj2 (Z.ltb_lt 0 _)) in Hr', Hok by lia. simpl in Hr', Hok.
  destruct (FinalizeOriginalBlocksMapSizes (size_of c) d) as [d' ok]. simpl in Hr', Hok. subst ok.
  exists d', (mkEdited (ed_offsets e1 ++ [file_tell p1]) (Some (size_of c)) (ed_edits e1)), w3.
  split; [done|]. split; [exact Hr'|]. simpl. split_and!; [|done|rewrite length_app; simpl in *; lia|done].
  intros blobs. split; simpl; [done|done| |rewrite length_app; simpl in *; lia|].
  - pose proof (ld_offsets _ _ Hl1) as Ho. rewrite Ht1 in *.
    apply Forall_app. split; [done|]. constructor; [|constructor]. unfold size_of. lia.
  - intros k b. rewrite He1. simpl. by rewrite lookup_empty.
Qed.
End roundtrip.

(** C4: a capture that is loaded and written again is the same file, on a platform where
    seeks, reads and writes of open files do not fail ([PlatformLaws]; what a full disk
    does is left out). If the file is shorter than 2^63 bytes, has less than 2^32 blocks
    and can be opened, and its blocks, as the parser finds them, lie one after the other
    from its header to its end, then loading it succeeds, with as many rounds as it has
    blocks and one, changes no file and records one block more than the file has, an empty
    one at its end. Writing it to another path any time later, when the file has not
    changed, no file is open for writing and both files can be opened, then reproduces it
    byte for byte and leaves every other file alone. *)
Theorem capture_rewritten {World FILE : Type} `{PlatformLaws World FILE} `{GfxrReader World}
    (path new_path : string) (c : list byte) (bs : list GfxrBlock) (header_end : Z) (explicit : bool) (f0 : FILE)
    (w w1 w2 : World) :
  Initialize path w = (Some (header_end, explicit), w1) -> contents w1 path = Some c ->
  blocks_at (fun off => ReadBlock path off w1) header_end bs (size_of c) ->
  ReadBlock path (size_of c) w1 = EndOfFile ->
  0 <= header_end <= size_of c -> size_of c < 2 ^ 63 -> Z.of_nat (length bs) + 1 < 2 ^ 32 ->
  FileOpen path "rb" w1 = ((0, Some f0), w2) -> path <> ""%string -> path <> new_path ->
  exists data w3 d,
  LoadCaptureFile (S (length bs)) path new_GfxrCaptureData w = Some (kSuccess, data, w3) /\
  m_gfxr_capture_block_data data = Some d /\ num_blocks d = Z.of_nat (length bs) + 1 /\
  (forall q, contents w3 q = contents w1 q) /\
  (forall blobs f g w4 w5 w6, contents w4 path = Some c -> no_writer w4 ->
   FileOpen path "rb" w4 = ((0, Some f), w5) -> FileOpen new_path "wb" w5 = ((0, Some g), w6) ->
   exists w7 w', WriteModifiedGfxrFile data blobs new_path w4 = Some ((close_files f g w7).1, w') /\
   contents w' new_path = Some c /\ forall q, q <> new_path -> contents w' q = contents w4 q).
Proof.
  intros Hinit Hc Hb Heof Hh Hsize Hlen Hopen Hne Hnew.
  destruct (LoadCaptureFile_ok path c bs header_end explicit f0 w w1 w2 Hinit Hc Hb Heof Hh Hsize Hlen Hopen)
    as (d & e & w3 & Hload & Hr & He & Hno & Hnum & Hq).
  exists (mkGfxrCaptureData (Some d) path), w3, d. split_and!; [done|done| |done|].
  { rewrite (rep_length _ _ Hr), Hnum. lia. }
  intros blobs f g w4 w5 w6 Hc4 Hnw Ho1 Ho2. unfold WriteModifiedGfxrFile. simpl.
  rewrite bool_decide_eq_false_2 by done.
  destruct (WriteGFXRFile_ok _ _ _ _ _ _ _ _ _ _ _ Hr (He blobs) Hnew Hnw Hc4 Ho1 Ho2)
    as (w7 & w' & Hw & Hout & Hothers).
  exists w7, w'. split_and!; [done| |done]. rewrite Hout. f_equal.
  destruct (rep_sizes _ _ Hr _ (ef_size _ _ _ (He blobs))) as (_ & _ & _ & Ha).
  apply ed_file_no_edits; [done..|]. intros Hnil. by rewrite Hnil in Hnum.
Qed.

(** A parser for files with a header of four bytes and blocks of six. *)
Definition test_reader : GfxrReader Disk := {|
  Initialize path d := (if bool_decide (is_Some (disk_files d !! path)) then Some (4, true) else None, d);
  ReadBlock path off d :=
    match disk_files d !! path with
    | None => ReadError
    | Some c => if size_of c <=? off then EndOfFile else BlockRead OtherBlock (Z.min (size_of c) (off + 6))
    end;
|}.

Lemma capture_rewritten_witness :
  exists data w3 d w',
  LoadCaptureFile (H0 := test_reader) 3 "capture.gfxr" new_GfxrCaptureData test_disk
    = Some (kSuccess, data, w3) /\
  m_gfxr_capture_block_data data = Some d /\
  original_blocks_map_ d = [mkDiveOriginalBlock 4 6; mkDiveOriginalBlock 10 6; mkDiveOriginalBlock 16 0] /\
  WriteModifiedGfxrFile data test_blobs "new.gfxr" test_disk = Some (true, w') /\
  contents w' "new.gfxr" = Some test_capture.
Proof.
  pose (w1 := (FileOpen "capture.gfxr" "rb" test_disk).2).
  pose (w2 := (FileOpen "new.gfxr" "wb" w1).2).
  destruct (capture_rewritten (H1 := test_reader) "capture.gfxr" "new.gfxr" test_capture
              [OtherBlock; OtherBlock] 4 true 0 test_disk test_disk w1)
    as (data & w3 & d & Hload & Hd & _ & _ & Hwrite); try reflexivity; try discriminate.
  - simpl. exists 10. split; [reflexivity|split; [lia|]]. exists 16. split; [reflexivity|split; [lia|]].
    reflexivity.
  - vm_compute. split; discriminate.
  - destruct (Hwrite test_blobs 0 1 test_disk w1 w2) as (w7 & w' & Hw & Hout & _);
      [reflexivity|apply test_disk_no_writer|reflexivity..|].
    assert (Hres : ((fun r => (original_blocks_map_ <$> m_gfxr_capture_block_data r.1.2,
                      fst <$> WriteModifiedGfxrFile r.1.2 test_blobs "new.gfxr" test_disk)) <$>
               LoadCaptureFile (H0 := test_reader) 3 "capture.gfxr" new_GfxrCaptureData test_disk)
             = Some (Some [mkDiveOriginalBlock 4 6; mkDiveOriginalBlock 10 6; mkDiveOriginalBlock 16 0],
                     Some true)) by (vm_compute; reflexivity).
    simpl in Hload. rewrite Hload in Hres. cbn [fmap option_fmap option_map fst snd] in Hres.
    rewrite Hd, Hw in Hres. injection Hres as Hb Hok.
    exists data, w3, d, w'. split_and!; [exact Hload|exact Hd|exact Hb| |exact Hout].
    by rewrite Hw, Hok.
Defined.

(** ** Files beside the capture *)

(** What [FilePuts] writes: the characters up to the first null. *)
Fixpoint c_str (s : list byte) : list byte :=
  match s with
  | [] => []
  | b :: s => if bool_decide (b = x00) then [] else b :: c_str s
  end.

Definition WriteFile {World FILE} `{PlatformFiles World FILE} (absolute_path name : string)
    (content : list byte) (w : World) : bool * World :=
  match FileOpen (String.app absolute_path (String.app "/" name)) "wb" w with
  | ((0, Some fd), w) =>
      let '(_, w) := FileWrite fd (c_str content) w in
      let '(result, w) := FileClose fd w in
      (result =? 0, w)
  | (_, w) => (false, w)
  end.

(** The result of [WriteFile] is that of closing the file; a write that fails is
    only logged. *)
Lemma WriteFile_unnoticed {World FILE} `{PlatformFiles World FILE} absolute_path name content w fd w1 :
  FileOpen (String.app absolute_path (String.app "/" name)) "wb" w = ((0, Some fd), w1) ->
  (WriteFile absolute_path name content w).1 = ((FileClose fd (FileWrite fd (c_str content) w1).2).1 =? 0).
Proof.
  intros Ho. unfold WriteFile. rewrite Ho. destruct (FileWrite fd (c_str content) w1) as [ok w2]. simpl.
  by destruct (FileClose fd w2).
Qed.

(** A load that does not succeed is final: the object holds block data from then on,
    refuses every other file, and writes nothing. *)
Lemma failed_load_is_final {World FILE : Type} `{PlatformFiles World FILE} `{GfxrReader World}
    fuel path w r data w' :
  LoadCaptureFile fuel path new_GfxrCaptureData w = Some (r, data, w') -> r <> kSuccess ->
  (forall fuel path w, LoadCaptureFile fuel path data w = Some (kFileIoError, data, w)) /\
  (forall blobs path w, WriteModifiedGfxrFile data blobs path w = Some (false, w)).
Proof.
  intros Hl Hr.
  assert (Hd : exists d, data = mkGfxrCaptureData (Some d) "").
  { unfold LoadCaptureFile in Hl. simpl in Hl. cases_in Hl; by eexists. }
  by destruct Hd as [d ->].
Qed.
