(* ===== verification/Topology.v ===== *)
(** * Topology: the trees over the nodes of a command hierarchy

    Models [Topology] and [SharedNodeTopology] of
    [src/dive_core/command_hierarchy.{h,cpp}]. A topology is laid out flat: all
    children of all nodes are in one list, of which each node has a range. Here it
    is related to the lists of children it is made from, one for each node.
    [GetNextNodeIndex] walks the tree in preorder. *)

From S2P Require Import Prelude Wire Memory Pm4 StateTracker.

#[local] Open Scope Z_scope.

(** ** Vectors

    [operator[]] of a vector, which checks nothing: [OutOfBounds] is an index that
    the vector does not have. *)
Definition vec_has {A} (v : list A) (i : Z) : bool := (0 <=? i) && (i <? Z.of_nat (length v)).

Definition vec_at {A} (v : list A) (i : Z) : outcome A :=
  if vec_has v i then match v !! Z.to_nat i with Some a => Done a | None => OutOfBounds end
  else OutOfBounds.

Definition vec_set {A} (i : Z) (a : A) (v : list A) : outcome (list A) :=
  if vec_has v i then Done (<[Z.to_nat i := a]> v) else OutOfBounds.

Definition vec_size {A} (v : list A) : Z := Z.of_nat (length v).

(** [v[i].push_back(x)]. *)
Definition vec_push {A} (i : Z) (x : A) (v : list (list A)) : outcome (list (list A)) :=
  l ← vec_at v i; vec_set i (l ++ [x]) v.

(** ** Topology *)

Definition kRootNodeIndex : Z := 0.

Record ChildrenInfo := mkChildren { m_start_index : Z; m_num_children : Z }.

Definition new_ChildrenInfo : ChildrenInfo := mkChildren UINT64_MAX 0.

Record Topology := mkTopology {
  m_children_list : list Z;
  m_node_children : list ChildrenInfo;
  m_node_parent : list Z;
  m_node_child_index : list Z
}.

Definition new_Topology : Topology := mkTopology [] [] [] [].

Definition GetNumNodes (t : Topology) : Z := vec_size (m_node_children t).
Definition GetParentNodeIndex (node_index : Z) (t : Topology) : outcome Z := vec_at (m_node_parent t) node_index.
Definition GetChildIndex (node_index : Z) (t : Topology) : outcome Z := vec_at (m_node_child_index t) node_index.

Definition GetNumChildren (node_index : Z) (t : Topology) : outcome Z :=
  info ← vec_at (m_node_children t) node_index; Done (m_num_children info).

Definition GetChildNodeIndex (node_index child_index : Z) (t : Topology) : outcome Z :=
  info ← vec_at (m_node_children t) node_index;
  vec_at (m_children_list t) (wrap 64 (m_start_index info + child_index)).

(** The loop of [GetNextNodeIndex], from a node to its ancestors. *)
Fixpoint next_up (fuel : nat) (node_index : Z) (t : Topology) : outcome Z :=
  if node_index =? kRootNodeIndex then Done UINT64_MAX
  else
    match fuel with
    | O => OutOfFuel
    | S fuel =>
        parent_node_index ← GetParentNodeIndex node_index t;
        child_index ← GetChildIndex node_index t;
        let sibling_index := wrap 64 (child_index + 1) in
        num_children ← GetNumChildren parent_node_index t;
        if sibling_index <? num_children then GetChildNodeIndex parent_node_index sibling_index t
        else next_up fuel parent_node_index t
    end.

(** A node has at most as many ancestors as there are nodes. *)
Definition GetNextNodeIndex (node_index : Z) (t : Topology) : outcome Z :=
  num_children ← GetNumChildren node_index t;
  if 0 <? num_children then GetChildNodeIndex node_index 0 t
  else next_up (length (m_node_children t)) node_index t.

Definition SetNumNodes (num_nodes : nat) (t : Topology) : Topology :=
  mkTopology (m_children_list t) (resize num_nodes new_ChildrenInfo (m_node_children t))
    (resize num_nodes UINT64_MAX (m_node_parent t)) (resize num_nodes UINT64_MAX (m_node_child_index t)).

Definition set_node_children v (t : Topology) : Topology :=
  mkTopology (m_children_list t) v (m_node_parent t) (m_node_child_index t).
Definition set_parents p i (t : Topology) : Topology :=
  mkTopology (m_children_list t) (m_node_children t) p i.

(** The loop that sets the parent and the index of each child. *)
Fixpoint link_children (node_index i : Z) (children : list Z) (t : Topology) : outcome Topology :=
  match children with
  | [] => Done t
  | child_node_index :: children =>
      parents ← vec_set child_node_index node_index (m_node_parent t);
      indices ← vec_set child_node_index i (m_node_child_index t);
      link_children node_index (i + 1) children (set_parents parents indices t)
  end.

Definition AddChildren (node_index : Z) (children : list Z) (t : Topology) : outcome Topology :=
  let prev_size := vec_size (m_children_list t) in
  infos ← vec_set node_index (mkChildren prev_size (vec_size children)) (m_node_children t);
  link_children node_index 0 children
    (mkTopology (m_children_list t ++ children) infos (m_node_parent t) (m_node_child_index t)).

(** ** Shared children *)

Record SharedNodeTopology := mkSharedTopology {
  topology :> Topology;
  m_shared_children_indices : list Z;
  m_node_shared_children : list ChildrenInfo;
  m_start_shared_child : list Z;
  m_end_shared_child : list Z;
  m_root_node_index : list Z
}.

Definition new_SharedNodeTopology : SharedNodeTopology := mkSharedTopology new_Topology [] [] [] [] [].

Definition set_topology t (s : SharedNodeTopology) : SharedNodeTopology :=
  mkSharedTopology t (m_shared_children_indices s) (m_node_shared_children s) (m_start_shared_child s)
    (m_end_shared_child s) (m_root_node_index s).
Definition set_ranges starts ends roots (s : SharedNodeTopology) : SharedNodeTopology :=
  mkSharedTopology s (m_shared_children_indices s) (m_node_shared_children s) starts ends roots.

Definition GetNumSharedChildren (node_index : Z) (s : SharedNodeTopology) : outcome Z :=
  info ← vec_at (m_node_shared_children s) node_index; Done (m_num_children info).

Definition GetSharedChildNodeIndex (node_index child_index : Z) (s : SharedNodeTopology) : outcome Z :=
  info ← vec_at (m_node_shared_children s) node_index;
  vec_at (m_shared_children_indices s) (wrap 64 (m_start_index info + child_index)).

Definition GetStartSharedChildNodeIndex (node_index : Z) (s : SharedNodeTopology) : outcome Z :=
  vec_at (m_start_shared_child s) node_index.
Definition GetEndSharedChildNodeIndex (node_index : Z) (s : SharedNodeTopology) : outcome Z :=
  vec_at (m_end_shared_child s) node_index.
Definition GetSharedChildRootNodeIndex (node_index : Z) (s : SharedNodeTopology) : outcome Z :=
  vec_at (m_root_node_index s) node_index.

(** [SharedNodeTopology::SetNumNodes], which leaves the last three vectors. *)
Definition SetNumSharedNodes (num_nodes : nat) (s : SharedNodeTopology) : SharedNodeTopology :=
  mkSharedTopology (SetNumNodes num_nodes s) (m_shared_children_indices s)
    (resize num_nodes new_ChildrenInfo (m_node_shared_children s)) (m_start_shared_child s)
    (m_end_shared_child s) (m_root_node_index s).

Definition AddSharedChildren (node_index : Z) (children : list Z) (s : SharedNodeTopology)
  : outcome SharedNodeTopology :=
  let prev_size := vec_size (m_shared_children_indices s) in
  infos ← vec_set node_index (mkChildren prev_size (vec_size children)) (m_node_shared_children s);
  Done (mkSharedTopology s (m_shared_children_indices s ++ children) infos (m_start_shared_child s)
          (m_end_shared_child s) (m_root_node_index s)).

(** The children of the nodes from [node_index] on, one list for each. *)
Fixpoint add_all_children (node_index : Z) (cs : list (list Z)) (t : Topology) : outcome Topology :=
  match cs with
  | [] => Done t
  | children :: cs => t ← AddChildren node_index children t; add_all_children (node_index + 1) cs t
  end.

(** ** Forests

    What a topology describes: the list of the children of each node. *)
Definition child_at (cs : list (list Z)) (p k : nat) : option Z := ch ← cs !! p; ch !! k.

(** The children are nodes, and each is the child of one node, at one place. *)
Record forest (cs : list (list Z)) : Prop := {
  forest_range : Forall (fun c => 0 <= c < Z.of_nat (length cs)) (concat cs);
  forest_nodup : NoDup (concat cs)
}.

(** A child is added after its parent, so that there are no cycles. *)
Definition increasing (cs : list (list Z)) : Prop :=
  forall p k c, child_at cs p k = Some c -> Z.of_nat p < c.

Record represents (t : Topology) (cs : list (list Z)) : Prop := {
  rep_children : length (m_node_children t) = length cs;
  rep_parent : length (m_node_parent t) = length cs;
  rep_index : length (m_node_child_index t) = length cs;
  rep_list : length (m_children_list t) = length (concat cs);
  rep_info p ch : cs !! p = Some ch -> exists info, m_node_children t !! p = Some info /\
    m_num_children info = Z.of_nat (length ch) /\
    (ch <> [] -> 0 <= m_start_index info /\
       m_start_index info + Z.of_nat (length ch) <= Z.of_nat (length (m_children_list t))) /\
    forall k c, ch !! k = Some c -> m_children_list t !! (Z.to_nat (m_start_index info) + k)%nat = Some c;
  rep_linked p k c : child_at cs p k = Some c ->
    m_node_parent t !! Z.to_nat c = Some (Z.of_nat p) /\ m_node_child_index t !! Z.to_nat c = Some (Z.of_nat k);
  rep_unlinked i : (i < length cs)%nat -> Z.of_nat i ∉ concat cs ->
    m_node_parent t !! i = Some UINT64_MAX /\ m_node_child_index t !! i = Some UINT64_MAX
}.

Section Vectors.
Context {A : Type}.

Lemma vec_has_spec (v : list A) i : vec_has v i = true <-> 0 <= i < Z.of_nat (length v).
Proof. unfold vec_has. rewrite andb_true_iff, Z.leb_le, Z.ltb_lt. lia. Qed.

Lemma vec_at_lookup (v : list A) i a : 0 <= i -> v !! Z.to_nat i = Some a -> vec_at v i = Done a.
Proof.
  intros Hi Ha. unfold vec_at. rewrite (proj2 (vec_has_spec v i)), Ha; [done|].
  apply lookup_lt_Some in Ha. lia.
Qed.

Lemma vec_at_nat (v : list A) n a : v !! n = Some a -> vec_at v (Z.of_nat n) = Done a.
Proof. intros Ha. apply vec_at_lookup; [lia|by rewrite Nat2Z.id]. Qed.

Lemma vec_at_Done (v : list A) i a : vec_at v i = Done a -> 0 <= i /\ v !! Z.to_nat i = Some a.
Proof.
  unfold vec_at. destruct (vec_has v i) eqn:E; [|done]. apply vec_has_spec in E.
  destruct (v !! Z.to_nat i) eqn:Ha; [|done]. intros [= <-]. split; [lia|done].
Qed.

Lemma vec_set_spec (v : list A) i a : 0 <= i < Z.of_nat (length v) -> vec_set i a v = Done (<[Z.to_nat i := a]> v).
Proof. intros Hi. unfold vec_set. by rewrite (proj2 (vec_has_spec v i)). Qed.

Lemma vec_set_nat (v : list A) n a : (n < length v)%nat -> vec_set (Z.of_nat n) a v = Done (<[n := a]> v).
Proof. intros Hn. rewrite vec_set_spec by lia. by rewrite Nat2Z.id. Qed.

End Vectors.

Lemma vec_push_spec {A} (v : list (list A)) i x : 0 <= i < vec_size v ->
  vec_push i x v = Done (alter (fun l => l ++ [x]) (Z.to_nat i) v).
Proof.
  intros Hi. unfold vec_push, vec_size in *. destruct (lookup_lt_is_Some_2 v (Z.to_nat i)) as [l Hl]; [lia|].
  rewrite (vec_at_lookup v i l) by (lia || done). cbn [mbind outcome_bind]. rewrite vec_set_spec by lia.
  f_equal. apply list_eq. intros j. destruct (decide (j = Z.to_nat i)) as [->|Hj].
  - by rewrite list_lookup_insert_eq, list_lookup_alter_eq, Hl by lia.
  - by rewrite list_lookup_insert_ne, list_lookup_alter_ne.
Qed.

Lemma vec_push_out {A} (v : list (list A)) i x : ~ 0 <= i < vec_size v -> vec_push i x v = OutOfBounds.
Proof.
  intros Hi. unfold vec_push, vec_at. destruct (vec_has v i) eqn:E; [|done].
  exfalso. apply Hi. unfold vec_has in E. apply andb_true_iff in E as [?%Z.leb_le ?%Z.ltb_lt]. unfold vec_size. lia.
Qed.

Section Forests.
Implicit Type cs : list (list Z).

Lemma child_at_elem cs c : c ∈ concat cs <-> exists p k, child_at cs p k = Some c.
Proof.
  rewrite list_elem_of_In, in_concat. split.
  - intros (ch & Hch & Hc). apply list_elem_of_In, list_elem_of_lookup in Hch as [p Hp].
    apply list_elem_of_In, list_elem_of_lookup in Hc as [k Hk]. exists p, k. unfold child_at. by rewrite Hp.
  - intros (p & k & E). unfold child_at in E. destruct (cs !! p) as [ch|] eqn:Hp; [|done].
    exists ch. rewrite <- !list_elem_of_In. split; by eapply list_elem_of_lookup_2.
Qed.

Lemma child_at_inj cs p k p' k' c : NoDup (concat cs) ->
  child_at cs p k = Some c -> child_at cs p' k' = Some c -> p = p' /\ k = k'.
Proof.
  unfold child_at. revert p p'. induction cs as [|ch cs IH]; intros p p' Hnd; [done|].
  cbn [concat] in Hnd. apply NoDup_app in Hnd as (Hch & Hx & Hcs).
  destruct p as [|p], p' as [|p']; cbn.
  - intros Hk Hk'. split; [done|]. exact (NoDup_lookup _ _ _ _ Hch Hk Hk').
  - intros Hk Hk'. exfalso. apply (Hx c); [by eapply list_elem_of_lookup_2|].
    apply child_at_elem. by exists p', k'.
  - intros Hk Hk'. exfalso. apply (Hx c); [by eapply list_elem_of_lookup_2|].
    apply child_at_elem. by exists p, k.
  - intros Hk Hk'. destruct (IH p p' Hcs Hk Hk') as [-> ->]. done.
Qed.

Lemma child_at_insert cs n ch p k : (n < length cs)%nat ->
  child_at (<[n := ch]> cs) p k = if decide (p = n) then ch !! k else child_at cs p k.
Proof.
  intros Hn. unfold child_at. destruct (decide (p = n)) as [->|Hp].
  - by rewrite list_lookup_insert_eq.
  - by rewrite list_lookup_insert_ne.
Qed.

Lemma concat_insert_nil cs n ch : cs !! n = Some [] -> concat (<[n := ch]> cs) ≡ₚ ch ++ concat cs.
Proof.
  intros Hn. rewrite <- (take_drop_middle cs n [] Hn) at 2.
  rewrite insert_take_drop by (by eapply lookup_lt_Some). rewrite !concat_app. cbn [concat app].
  by rewrite Permutation_app_swap_app.
Qed.

Lemma forest_length cs : forest cs -> (length (concat cs) <= length cs)%nat.
Proof.
  intros [Hr Hnd].
  assert (length (concat cs) <= length (seqZ 0 (Z.of_nat (length cs))))%nat as H.
  { apply NoDup_incl_length; [by apply NoDup_ListNoDup|]. intros c Hc.
    rewrite <- list_elem_of_In in Hc |- *. rewrite Forall_forall in Hr. apply elem_of_seqZ. specialize (Hr c Hc). lia. }
  rewrite length_seqZ in H. lia.
Qed.

(** Children lists with some of the lists left out. *)
Lemma forest_sub cs cs' : Forall2 (fun ch' ch => ch' = ch \/ ch' = []) cs' cs -> forest cs -> forest cs'.
Proof.
  intros Hsub [Hr Hnd]. pose proof (Forall2_length _ _ _ Hsub) as Hl.
  assert (sublist (concat cs') (concat cs)) as Hs.
  { clear Hr Hnd Hl. induction Hsub as [|ch' ch cs' cs [->| ->] _ IH]; [done| |]; cbn [concat].
    - by apply sublist_app.
    - by apply sublist_inserts_l. }
  split.
  - rewrite Hl. rewrite Forall_forall in Hr |- *. intros c Hc. apply Hr.
    by eapply sublist_subseteq in Hs; apply Hs.
  - by eapply sublist_NoDup.
Qed.
End Forests.

(** ** Building a topology *)
Section Building.
Implicit Types (cs : list (list Z)) (t : Topology).

Lemma link_children_spec n children i t :
  NoDup children -> Forall (fun c => 0 <= c < Z.of_nat (length (m_node_parent t))) children ->
  length (m_node_child_index t) = length (m_node_parent t) ->
  exists ps ix, link_children n i children t = Done (set_parents ps ix t) /\
    length ps = length (m_node_parent t) /\ length ix = length (m_node_parent t) /\
    (forall k c, children !! k = Some c ->
       ps !! Z.to_nat c = Some n /\ ix !! Z.to_nat c = Some (i + Z.of_nat k)) /\
    (forall j, Z.of_nat j ∉ children ->
       ps !! j = m_node_parent t !! j /\ ix !! j = m_node_child_index t !! j).
Proof.
  revert i t. induction children as [|c children IH]; intros i t Hnd Hr Hl; cbn [link_children].
  { exists (m_node_parent t), (m_node_child_index t). split; [by destruct t|]. done. }
  apply NoDup_cons in Hnd as [Hc Hnd]. apply Forall_cons in Hr as [Hrc Hr].
  rewrite !vec_set_spec by (rewrite ?Hl; lia). cbn [mbind outcome_bind].
  destruct (IH (i + 1) (set_parents (<[Z.to_nat c := n]> (m_node_parent t)) (<[Z.to_nat c := i]> (m_node_child_index t)) t))
    as (ps & ix & E & Hp & Hx & Hin & Hout); cbn [set_parents m_node_parent m_node_child_index];
    rewrite ?length_insert; try done.
  cbn [set_parents m_node_parent m_node_child_index] in *. rewrite length_insert in Hp, Hx.
  exists ps, ix. split; [exact E|]. split; [done|]. split; [done|]. split.
  - intros [|k] d; cbn [lookup list_lookup]; intros Hk.
    + injection Hk as <-. destruct (Hout (Z.to_nat c)) as [-> ->]; [by rewrite Z2Nat.id by lia|].
      rewrite !list_lookup_insert_eq by (rewrite ?Hl; lia). split; [done|]. f_equal. lia.
    + destruct (Hin k d Hk) as [-> ->]. split; [done|]. f_equal. lia.
  - intros j Hj. apply not_elem_of_cons in Hj as [Hjc Hj]. destruct (Hout j Hj) as [-> ->].
    by rewrite !list_lookup_insert_ne by lia.
Qed.

Lemma represents_empty n : represents (SetNumNodes n new_Topology) (replicate n []).
Proof.
  unfold SetNumNodes. cbn. rewrite !resize_nil.
  assert (concat (replicate n ([] : list Z)) = []) as E by (induction n; done).
  split; cbn; rewrite ?length_replicate, ?E; try done.
  - intros p ch Hp. apply lookup_replicate in Hp as [-> Hp]. exists new_ChildrenInfo.
    rewrite lookup_replicate_2 by done. split; [done|]. split; [done|]. split; [done|]. intros k c Hk. done.
  - intros p k c Hc. assert (c ∈ concat (replicate n ([] : list Z))) as Hin by (apply child_at_elem; eauto).
    rewrite E in Hin. by apply elem_of_nil in Hin.
  - intros i Hi _. by rewrite !lookup_replicate_2.
Qed.

Lemma AddChildren_spec t cs n children :
  represents t cs -> cs !! n = Some [] -> forest (<[n := children]> cs) ->
  exists t', AddChildren (Z.of_nat n) children t = Done t' /\ represents t' (<[n := children]> cs).
Proof.
  intros [Hc Hp Hx Hlist Hinfo Hlink Hun] Hn Hf.
  pose proof (lookup_lt_Some _ _ _ Hn) as Hlt.
  pose proof (concat_insert_nil cs n children Hn) as Hperm.
  destruct Hf as [Hr Hnd]. rewrite Hperm in Hr, Hnd. rewrite length_insert in Hr.
  apply Forall_app in Hr as [Hr Hr']. apply NoDup_app in Hnd as (Hndc & Hdis & _).
  unfold AddChildren. rewrite vec_set_nat by lia. cbn [mbind outcome_bind].
  destruct (link_children_spec (Z.of_nat n) children 0
    (mkTopology (m_children_list t ++ children) (<[n := mkChildren (vec_size (m_children_list t)) (vec_size children)]>
       (m_node_children t)) (m_node_parent t) (m_node_child_index t)))
    as (ps & ix & E & Hps & Hix & Hin & Hout);
    cbn [m_node_parent m_node_child_index]; rewrite ?Hp, ?Hx; try done.
  exists (set_parents ps ix (mkTopology (m_children_list t ++ children)
     (<[n := mkChildren (vec_size (m_children_list t)) (vec_size children)]> (m_node_children t))
     (m_node_parent t) (m_node_child_index t))). split; [exact E|].
  split; cbn; rewrite ?length_insert, ?Hperm, ?length_app; cbn in *; try congruence; try lia.
  - intros p ch. destruct (decide (p = n)) as [->|Hne].
    + rewrite !list_lookup_insert_eq by lia. intros [= <-]. eexists. split; [done|].
      split; [done|]. unfold vec_size; cbn. split; [lia|]. intros k c Hk.
      rewrite lookup_app_r by lia. by replace (Z.to_nat _ + k - _)%nat with k by lia.
    + rewrite !list_lookup_insert_ne by done. intros Hch. destruct (Hinfo p ch Hch) as (info & Ei & En & Eb & Ek).
      exists info. split; [done|]. split; [done|]. split; [intros H; destruct (Eb H); lia|].
      intros k c Hk. by apply lookup_app_l_Some, Ek.
  - intros p k c. rewrite child_at_insert by done. destruct (decide (p = n)) as [->|Hne]; intros Hk.
    + apply Hin in Hk as [-> ->]. done.
    + assert (c ∈ concat cs) as Hcc by (apply child_at_elem; eauto).
      assert (c ∉ children) as Hcn by (intros H; by apply (Hdis c)).
      destruct (Hlink p k c Hk) as [E1 E2].
      assert (0 <= c) as Hc0 by (rewrite Forall_forall in Hr'; by apply Hr').
      destruct (Hout (Z.to_nat c)) as [-> ->]; [by rewrite Z2Nat.id|]. done.
  - intros i Hi Hni. rewrite Hperm, not_elem_of_app in Hni. destruct Hni as [Hn1 Hn2].
    destruct (Hout i Hn1) as [-> ->]. by apply Hun.
Qed.

(** The children of the nodes that have been added, and nothing for the others. *)
Lemma add_all_children_spec t cs todo :
  represents t (cs ++ replicate (length todo) []) -> forest (cs ++ todo) ->
  exists t', add_all_children (Z.of_nat (length cs)) todo t = Done t' /\ represents t' (cs ++ todo).
Proof.
  revert cs t. induction todo as [|children todo IH]; intros cs t Ht Hf; cbn [add_all_children].
  { exists t. split; [done|exact Ht]. }
  cbn [length replicate] in Ht.
  assert (<[length cs := children]> (cs ++ [] :: replicate (length todo) [])
    = (cs ++ [children]) ++ replicate (length todo) []) as E.
  { rewrite insert_app_r_alt by lia. rewrite Nat.sub_diag. cbn. by rewrite <- app_assoc. }
  destruct (AddChildren_spec t _ (length cs) children Ht) as (t1 & -> & Ht1).
  - by rewrite lookup_app_r, Nat.sub_diag by lia.
  - rewrite E, <- app_assoc. apply (forest_sub (cs ++ children :: todo)); [|done].
    apply Forall2_app; [by apply Forall_Forall2_diag, Forall_true; left|]. constructor; [by left|].
    clear. induction todo; constructor; [by right|done].
  - rewrite E in Ht1. cbn [mbind outcome_bind].
    destruct (IH (cs ++ [children]) t1 Ht1) as (t' & E' & Ht'); [by rewrite <- app_assoc|].
    rewrite <- app_assoc in Ht'. rewrite length_app in E'. cbn in E'.
    replace (Z.of_nat (length cs) + 1) with (Z.of_nat (length cs + 1)) by lia. by exists t'.
Qed.
End Building.

(** ** Reading a topology *)
Section Reading.
Context (t : Topology) (cs : list (list Z)) (Ht : represents t cs) (Hf : forest cs).
Context (Hsize : Z.of_nat (length cs) < UINT64_MAX).

Lemma rep_GetNumChildren p ch : cs !! p = Some ch -> GetNumChildren (Z.of_nat p) t = Done (vec_size ch).
Proof.
  intros Hp. destruct (rep_info t cs Ht p ch Hp) as (info & Hi & Hn & _).
  unfold GetNumChildren. rewrite (vec_at_nat _ _ _ Hi). cbn [mbind outcome_bind]. by rewrite Hn.
Qed.

Lemma rep_GetChildNodeIndex p k c : child_at cs p k = Some c ->
  GetChildNodeIndex (Z.of_nat p) (Z.of_nat k) t = Done c.
Proof.
  unfold child_at. intros Hc. destruct (cs !! p) as [ch|] eqn:Hp; [|done]. cbn in Hc.
  destruct (rep_info t cs Ht p ch Hp) as (info & Hi & Hn & Hb & Hk).
  unfold GetChildNodeIndex. rewrite (vec_at_nat _ _ _ Hi). cbn [mbind outcome_bind].
  destruct Hb as [Hb0 Hb]; [by intros ->|]. pose proof (lookup_lt_Some _ _ _ Hc).
  rewrite (rep_list t cs Ht) in Hb. pose proof (forest_length cs Hf).
  pose proof Hsize as Hs. unfold UINT64_MAX in Hs. rewrite wrap_small by (unfold in_width; lia).
  apply vec_at_lookup; [lia|]. specialize (Hk k c Hc).
  by replace (Z.to_nat (m_start_index info + Z.of_nat k)) with (Z.to_nat (m_start_index info) + k)%nat by lia.
Qed.

Lemma child_range p k c : child_at cs p k = Some c -> 0 <= c < Z.of_nat (length cs).
Proof.
  intros Hc. pose proof (forest_range cs Hf) as Hr. rewrite Forall_forall in Hr. apply Hr.
  apply child_at_elem. eauto.
Qed.

Lemma rep_parent_index p k c : child_at cs p k = Some c ->
  GetParentNodeIndex c t = Done (Z.of_nat p) /\ GetChildIndex c t = Done (Z.of_nat k).
Proof.
  intros Hc. pose proof (child_range p k c Hc). destruct (rep_linked t cs Ht p k c Hc).
  split; (apply vec_at_lookup; [lia|done]).
Qed.
End Reading.

(** ** The preorder *)

(** The nodes of the subtree of [n], [n] first. *)
Fixpoint preorder (fuel : nat) (cs : list (list Z)) (n : Z) : list Z :=
  match fuel with
  | O => []
  | S fuel => n :: concat (preorder fuel cs <$> default [] (cs !! Z.to_nat n))
  end.

(** From [n], [GetNextNodeIndex] goes through the nodes of [l] and then gives [e]. *)
Inductive walk (t : Topology) : Z -> list Z -> Z -> Prop :=
  | walk_nil n : walk t n [] n
  | walk_step n m l e : GetNextNodeIndex n t = Done m -> walk t m l e -> walk t n (n :: l) e.

(** [m] is in the subtree of [n]. *)
Inductive descendant (cs : list (list Z)) (n : Z) : Z -> Prop :=
  | descendant_refl : descendant cs n n
  | descendant_child p k m :
      descendant cs n (Z.of_nat p) -> child_at cs p k = Some m -> descendant cs n m.

Lemma walk_app t n l m l' e : walk t n l m -> walk t m l' e -> walk t n (l ++ l') e.
Proof. induction 1 as [|n m' l e' Hn _ IH]; [done|]. intros H. apply walk_step with m'; [done|]. by apply IH. Qed.

Section Preorder.
Context (t : Topology) (cs : list (list Z)) (Ht : represents t cs) (Hf : forest cs) (Hinc : increasing cs).
Context (Hsize : Z.of_nat (length cs) < UINT64_MAX).

Lemma descendant_trans n m l : descendant cs n m -> descendant cs m l -> descendant cs n l.
Proof. intros Hn. induction 1; [done|by eapply descendant_child]. Qed.

Lemma descendant_le n m : descendant cs n m -> n <= m.
Proof. induction 1 as [|p k m _ IH Hc]; [lia|]. pose proof (Hinc p k m Hc). lia. Qed.

Lemma descendant_chain a b m : descendant cs a m -> descendant cs b m -> descendant cs a b \/ descendant cs b a.
Proof.
  induction 1 as [|p k m Ha IH Hc]; intros Hb; [by right|].
  inversion Hb as [|q k' m' Hq Hc']; subst.
  - left. by eapply descendant_child.
  - destruct (child_at_inj cs p k q k' m (forest_nodup cs Hf) Hc Hc') as [<- _]. by apply IH.
Qed.

(** *** The way up *)
Lemma next_up_child f p k c : child_at cs p k = Some c ->
  next_up (S f) c t = match child_at cs p (S k) with Some d => Done d | None => next_up f (Z.of_nat p) t end.
Proof.
  intros Hc. cbn [next_up]. pose proof (Hinc p k c Hc).
  rewrite (proj2 (Z.eqb_neq c kRootNodeIndex)) by (unfold kRootNodeIndex; lia).
  destruct (rep_parent_index t cs Ht Hf p k c Hc) as [-> ->]. cbn [mbind outcome_bind].
  unfold child_at in Hc |- *. destruct (cs !! p) as [ch|] eqn:Hp; [|done]. cbn in Hc |- *.
  rewrite (rep_GetNumChildren t cs Ht p ch Hp). cbn [mbind outcome_bind].
  pose proof (lookup_lt_Some _ _ _ Hc) as Hk.
  assert (length ch <= length cs)%nat.
  { pose proof (forest_length cs Hf) as Hl. rewrite <- (take_drop_middle cs p ch Hp) in Hl at 1.
    rewrite concat_app in Hl. cbn in Hl. rewrite !length_app in Hl. lia. }
  pose proof Hsize as Hs. unfold UINT64_MAX in Hs.
  rewrite wrap_small by (unfold in_width; lia). unfold vec_size.
  replace (Z.of_nat k + 1) with (Z.of_nat (S k)) by lia.
  destruct (ch !! S k) as [d|] eqn:Hd.
  - pose proof (lookup_lt_Some _ _ _ Hd). rewrite (proj2 (Z.ltb_lt _ _)) by lia.
    apply (rep_GetChildNodeIndex t cs Ht Hf Hsize). unfold child_at. by rewrite Hp.
  - apply lookup_ge_None in Hd. by rewrite (proj2 (Z.ltb_ge _ _)) by lia.
Qed.

(** A node's index bounds the number of its ancestors. *)
Lemma next_up_total n : descendant cs 0 n -> forall f, n <= Z.of_nat f ->
  exists e, forall f', n <= Z.of_nat f' -> next_up f' n t = Done e.
Proof.
  induction 1 as [|p k m Hd IH Hc]; intros f Hfuel.
  { exists UINT64_MAX. intros f' _. by destruct f'. }
  pose proof (Hinc p k m Hc). pose proof (descendant_le _ _ Hd).
  destruct (IH f) as [e He]; [lia|].
  exists (default e (child_at cs p (S k))). intros [|f'] Hf'; [lia|].
  rewrite (next_up_child f' p k m Hc). destruct (child_at cs p (S k)); [done|]. apply He. lia.
Qed.

Lemma next_up_parent p k c : descendant cs 0 (Z.of_nat p) -> child_at cs p k = Some c ->
  next_up (length cs) c t
    = match child_at cs p (S k) with Some d => Done d | None => next_up (length cs) (Z.of_nat p) t end.
Proof.
  intros Hp Hc. pose proof (child_range cs Hf p k c Hc) as Hr. pose proof (Hinc p k c Hc).
  assert (exists f, length cs = S f) as [f Hl] by (exists (pred (length cs)); lia).
  rewrite Hl, (next_up_child f p k c Hc).
  destruct (child_at cs p (S k)); [done|].
  destruct (next_up_total (Z.of_nat p) Hp f) as [e He]; [lia|]. rewrite !He by lia. done.
Qed.

(** *** The way down *)
Lemma walk_subtree d : forall n e, (Z.to_nat (Z.of_nat (length cs) - n) <= d)%nat -> 0 <= n < Z.of_nat (length cs) ->
  descendant cs 0 n -> next_up (length cs) n t = Done e -> walk t n (preorder d cs n) e.
Proof.
  induction d as [|d IH]; intros n e Hd Hr Hroot He; [lia|]. cbn [preorder].
  destruct (lookup_lt_is_Some_2 cs (Z.to_nat n)) as [ch Hch]; [lia|]. rewrite Hch. cbn [default].
  pose proof (rep_GetNumChildren t cs Ht _ _ Hch) as Hn. rewrite Z2Nat.id in Hn by lia.
  assert (forall k, (k < length ch)%nat -> exists c, ch !! k = Some c /\
    walk t c (concat (preorder d cs <$> drop k ch)) e) as Hwalk.
  { intros k. remember (length ch - k)%nat as r eqn:Er. revert k Er. induction r as [|r IHr]; intros k Er Hk; [lia|].
    destruct (lookup_lt_is_Some_2 ch k Hk) as [c Hc]. exists c. split; [done|].
    assert (child_at cs (Z.to_nat n) k = Some c) as Hcc by (unfold child_at; by rewrite Hch).
    rewrite (drop_S ch c k Hc). cbn [fmap list_fmap concat].
    pose proof (Hinc _ _ _ Hcc). pose proof (child_range cs Hf _ _ _ Hcc).
    pose proof (next_up_parent (Z.to_nat n) k c) as Hup. rewrite Z2Nat.id in Hup by lia.
    specialize (Hup Hroot Hcc).
    assert (descendant cs 0 c) as Hrc by (apply descendant_child with (Z.to_nat n) k; [by rewrite Z2Nat.id by lia|done]).
    destruct (decide (S k < length ch)%nat) as [Hk'|Hk'].
    - destruct (IHr (S k)) as (c' & Hc' & Hw); [lia|lia|].
      apply walk_app with c'; [|done]. apply IH; [lia|lia|done|].
      rewrite Hup. unfold child_at. rewrite Hch. cbn. by rewrite Hc'.
    - rewrite drop_ge by lia. cbn. rewrite app_nil_r. apply IH; [lia|lia|done|].
      rewrite Hup. unfold child_at. rewrite Hch. cbn. by rewrite lookup_ge_None_2 by lia. }
  destruct ch as [|c ch].
  - cbn. apply walk_step with e; [|by apply walk_nil]. unfold GetNextNodeIndex. rewrite Hn. cbn.
    by rewrite (rep_children t cs Ht).
  - destruct (Hwalk 0%nat) as (c' & [= <-] & Hw); [cbn; lia|]. apply walk_step with c; [|exact Hw].
    unfold GetNextNodeIndex. rewrite Hn. cbn [mbind outcome_bind].
    rewrite (proj2 (Z.ltb_lt _ _)) by (unfold vec_size; cbn; lia).
    pose proof (rep_GetChildNodeIndex t cs Ht Hf Hsize (Z.to_nat n) 0 c) as Hg. rewrite Z2Nat.id in Hg by lia.
    apply Hg. unfold child_at. by rewrite Hch.
Qed.

(** *** The nodes of the preorder *)
Lemma preorder_descendant d n m : 0 <= n -> (m ∈ preorder d cs n -> descendant cs n m).
Proof.
  revert n. induction d as [|d IH]; intros n Hn; cbn [preorder]; [by rewrite elem_of_nil|].
  rewrite elem_of_cons. intros [->|Hm]; [apply descendant_refl|].
  apply list_elem_of_In, in_concat in Hm as (l & Hl & Hm). apply list_elem_of_In in Hl, Hm.
  apply list_elem_of_fmap in Hl as (c & -> & Hc).
  destruct (cs !! Z.to_nat n) as [ch|] eqn:Hch; cbn in Hc; [|by apply elem_of_nil in Hc].
  apply list_elem_of_lookup in Hc as [k Hk].
  assert (child_at cs (Z.to_nat n) k = Some c) as Hcc by (unfold child_at; by rewrite Hch).
  pose proof (child_range cs Hf _ _ _ Hcc). apply descendant_trans with c.
  - apply descendant_child with (Z.to_nat n) k; [rewrite Z2Nat.id by done; apply descendant_refl|done].
  - apply IH; [lia|done].
Qed.

Lemma preorder_head d n : (0 < d)%nat -> n ∈ preorder d cs n.
Proof. destruct d; [lia|]. intros _. cbn. apply elem_of_cons. by left. Qed.

(** Every node on the way from [n] down to [m] is in the preorder. *)
Lemma descendant_preorder n m : 0 <= n < Z.of_nat (length cs) -> descendant cs n m ->
  forall d, (Z.to_nat (Z.of_nat (length cs) - n) <= d)%nat -> m ∈ preorder d cs n.
Proof.
  intros Hn Hm d. revert n Hn Hm. induction d as [|d IH]; intros n Hn Hm Hd; [lia|].
  assert (m = n \/ exists k c, child_at cs (Z.to_nat n) k = Some c /\ descendant cs c m) as [->|(k & c & Hc & Hcm)].
  { clear IH. induction Hm as [|p k m Hm IH Hc]; [by left|]. right.
    destruct IH as [<-|(k' & c & Hc' & Hcm)].
    - exists k, m. rewrite Nat2Z.id. split; [done|apply descendant_refl].
    - exists k', c. split; [done|]. by apply descendant_child with p k. }
  - apply preorder_head. lia.
  - cbn [preorder]. apply elem_of_cons. right. pose proof (Hinc _ _ _ Hc). pose proof (child_range cs Hf _ _ _ Hc).
    apply list_elem_of_In, in_concat. exists (preorder d cs c). split.
    + apply list_elem_of_In, list_elem_of_fmap. exists c. split; [done|]. unfold child_at in Hc.
      destruct (cs !! Z.to_nat n) as [ch|]; [|done]. by eapply list_elem_of_lookup_2.
    + apply list_elem_of_In. apply IH; [lia|done|lia].
Qed.

(** The subtrees of two siblings have no node in common. *)
Lemma siblings_disjoint p k k' c c' m : child_at cs p k = Some c -> child_at cs p k' = Some c' ->
  descendant cs c m -> descendant cs c' m -> k = k'.
Proof.
  intros Hc Hc' Hm Hm'.
  assert (forall k1 k2 a b, child_at cs p k1 = Some a -> child_at cs p k2 = Some b -> descendant cs a b -> k1 = k2)
    as Hab.
  { intros k1 k2 a b Ha Hb Hd. inversion Hd as [|q j m' Hq Hj]; subst.
    - by destruct (child_at_inj cs p k1 p k2 b (forest_nodup cs Hf) Ha Hb).
    - destruct (child_at_inj cs q j p k2 b (forest_nodup cs Hf) Hj Hb) as [-> _].
      pose proof (Hinc _ _ _ Ha). pose proof (descendant_le _ _ Hq). lia. }
  destruct (descendant_chain c c' m Hm Hm') as [H|H]; [by eapply Hab|symmetry; by eapply Hab].
Qed.

Lemma preorder_NoDup d : forall n, 0 <= n -> NoDup (preorder d cs n).
Proof.
  induction d as [|d IH]; intros n Hn; cbn [preorder]; [by apply NoDup_nil_2|].
  destruct (cs !! Z.to_nat n) as [ch|] eqn:Hch; cbn [default]; [|by apply NoDup_singleton].
  assert (forall k c, ch !! k = Some c -> child_at cs (Z.to_nat n) k = Some c) as Hat
    by (intros k c Hk; unfold child_at; by rewrite Hch).
  apply NoDup_cons. split.
  - intros Hin. apply list_elem_of_In, in_concat in Hin as (l & Hl & Hin). apply list_elem_of_In in Hl, Hin.
    apply list_elem_of_fmap in Hl as (c & -> & Hc). apply list_elem_of_lookup in Hc as [k Hk].
    pose proof (Hinc _ _ _ (Hat k c Hk)). apply preorder_descendant in Hin; [|lia].
    apply descendant_le in Hin. lia.
  - cut (forall j, NoDup (concat (preorder d cs <$> drop j ch))); [intros H; exact (H 0%nat)|].
    intros j. remember (length ch - j)%nat as r eqn:Er. revert j Er. induction r as [|r IHr]; intros j Er.
    { rewrite drop_ge by lia. apply NoDup_nil_2. }
    destruct (lookup_lt_is_Some_2 ch j) as [c Hc]; [lia|]. rewrite (drop_S ch c j Hc). cbn [fmap list_fmap concat].
    pose proof (child_range cs Hf _ _ _ (Hat j c Hc)).
    apply NoDup_app. split; [apply IH; lia|]. split; [|apply IHr; lia].
    intros m Hm Hin. apply preorder_descendant in Hm; [|lia].
    apply list_elem_of_In, in_concat in Hin as (l & Hl & Hin). apply list_elem_of_In in Hl, Hin.
    apply list_elem_of_fmap in Hl as (c' & -> & Hc'). apply list_elem_of_lookup in Hc' as [i Hi].
    rewrite lookup_drop in Hi. pose proof (child_range cs Hf _ _ _ (Hat _ _ Hi)).
    apply preorder_descendant in Hin; [|lia].
    pose proof (siblings_disjoint _ _ _ _ _ m (Hat j c Hc) (Hat _ _ Hi) Hm Hin). lia.
Qed.
End Preorder.

(** ** Properties *)

(** C20: [GetNextNodeIndex] ends and enumerates the tree: from the root of a topology
    whose children come after their parents, the calls of it give the nodes of the
    tree in preorder, each node below the root exactly once, and then [UINT64_MAX]. *)
Theorem next_enumerates t cs :
  represents t cs -> forest cs -> increasing cs -> (0 < length cs)%nat -> Z.of_nat (length cs) < UINT64_MAX ->
  walk t kRootNodeIndex (preorder (length cs) cs kRootNodeIndex) UINT64_MAX /\
  NoDup (preorder (length cs) cs kRootNodeIndex) /\
  forall n, n ∈ preorder (length cs) cs kRootNodeIndex <-> descendant cs kRootNodeIndex n.
Proof.
  intros Ht Hf Hinc Hl Hs. unfold kRootNodeIndex. split; [|split].
  - apply (walk_subtree t cs Ht Hf Hinc Hs); [lia|lia|apply descendant_refl|].
    destruct (length cs); [lia|done].
  - by apply preorder_NoDup.
  - intros n. split; [by apply preorder_descendant|].
    intros Hn. apply descendant_preorder; [done|done|lia|done|lia].
Qed.

(** A node that is nobody's child and has none is not on any walk: its parent is
    [UINT64_MAX], which is then used as an index. *)
Lemma next_of_unlinked t cs n :
  represents t cs -> Z.of_nat (length cs) < UINT64_MAX ->
  0 < n < Z.of_nat (length cs) -> n ∉ concat cs -> cs !! Z.to_nat n = Some [] ->
  GetNextNodeIndex n t = OutOfBounds.
Proof.
  intros Ht Hs Hn Hni Hch. unfold GetNextNodeIndex.
  pose proof (rep_GetNumChildren t cs Ht _ _ Hch) as En. rewrite Z2Nat.id in En by lia. rewrite En. cbn [mbind outcome_bind].
  destruct (rep_unlinked t cs Ht (Z.to_nat n)) as [Hp Hi]; [lia|by rewrite Z2Nat.id by lia|].
  rewrite (rep_children t cs Ht). destruct (length cs) as [|f] eqn:Hl; [lia|]. cbn [next_up].
  rewrite (proj2 (Z.eqb_neq n kRootNodeIndex)) by (unfold kRootNodeIndex; lia).
  unfold GetParentNodeIndex, GetChildIndex.
  rewrite (vec_at_lookup _ n UINT64_MAX), (vec_at_lookup _ n UINT64_MAX) by (lia || done). cbn [mbind outcome_bind].
  unfold GetNumChildren, vec_at, vec_has. rewrite (rep_children t cs Ht), Hl.
  change (0 <? vec_size []) with false. cbv iota.
  rewrite (proj2 (Z.ltb_ge UINT64_MAX _)) by lia. by rewrite andb_false_r.
Qed.

(** A root with two children, the first of which has one. *)
Definition example_forest : list (list Z) := [[1; 3]; [2]; []; []].

Definition example_topology : Topology :=
  match add_all_children 0 example_forest (SetNumNodes 4 new_Topology) with Done t => t | _ => new_Topology end.

Lemma forest_dec_range cs : forallb (fun c => (0 <=? c) && (c <? Z.of_nat (length cs))) (concat cs) = true ->
  Forall (fun c => 0 <= c < Z.of_nat (length cs)) (concat cs).
Proof.
  intros H. rewrite Forall_forall. intros c Hc. apply list_elem_of_In in Hc.
  rewrite forallb_forall in H. specialize (H c Hc). apply andb_true_iff in H as [H1 H2]. lia.
Qed.

(** A check of [forest]. *)
Definition forest_ok (cs : list (list Z)) : bool :=
  forallb (fun c => (0 <=? c) && (c <? Z.of_nat (length cs))) (concat cs) && bool_decide (NoDup (concat cs)).

Lemma forest_ok_spec cs : forest_ok cs = true -> forest cs.
Proof.
  intros H. apply andb_true_iff in H as [H1 H2]. split; [by apply forest_dec_range|].
  by apply bool_decide_eq_true in H2.
Qed.

(** A check of [increasing], for the nodes from [p] on. *)
Fixpoint increasing_from (p : Z) (cs : list (list Z)) : bool :=
  match cs with [] => true | ch :: cs => forallb (Z.ltb p) ch && increasing_from (p + 1) cs end.

Lemma increasing_ok cs : increasing_from 0 cs = true -> increasing cs.
Proof.
  assert (forall p0, increasing_from (Z.of_nat p0) cs = true ->
    forall p k c, child_at cs p k = Some c -> Z.of_nat (p0 + p) < c) as H.
  { induction cs as [|ch cs' IH]; intros p0 Hok p k c; [done|]. cbn in Hok. apply andb_true_iff in Hok as [Hch Hok].
    destruct p as [|p]; unfold child_at; cbn.
    - intros Hk. rewrite forallb_forall in Hch. rewrite Nat.add_0_r. apply Z.ltb_lt, Hch, list_elem_of_In.
      by eapply list_elem_of_lookup_2.
    - intros Hk. replace (p0 + S p)%nat with (S p0 + p)%nat by lia. apply (IH (S p0)) with k; [|done].
      by replace (Z.of_nat (S p0)) with (Z.of_nat p0 + 1) by lia. }
  intros Hok. exact (H 0%nat Hok).
Qed.

Lemma next_enumerates_witness :
  GetNextNodeIndex 2 example_topology = Done 3 /\ GetNextNodeIndex 3 example_topology = Done UINT64_MAX /\
  walk example_topology kRootNodeIndex [0; 1; 2; 3] UINT64_MAX.
Proof.
  split; [reflexivity|]. split; [reflexivity|].
  assert (forest example_forest) as Hf by (by apply forest_ok_spec; vm_compute).
  apply (next_enumerates example_topology example_forest); [|exact Hf|by apply increasing_ok|cbn; lia|cbn; unfold UINT64_MAX; lia].
  destruct (add_all_children_spec (SetNumNodes 4 new_Topology) [] example_forest) as (t' & E & Ht');
    [apply represents_empty|exact Hf|].
  unfold example_topology. cbn [length] in E. change (Z.of_nat 0) with 0 in E. rewrite E. exact Ht'.
Defined.
