(* ===== verification/Hierarchy.v ===== *)
(** * Hierarchy: the nodes of a command hierarchy

    Models [CommandHierarchy], its [Nodes] and the union [AuxInfo] of
    [src/dive_core/command_hierarchy.{h,cpp}]. The union is its 64-bit word, of
    which each kind of node has its own layout; enumerations in it are integers.
    [m_topology] and the exclude lists are arrays over an enumeration, here
    records. Assertions are compiled out. *)

From S2P Require Import Prelude Wire Memory Pm4 StateTracker Emulate Topology.
From Stdlib Require Import Sorted.

#[local] Open Scope Z_scope.

Inductive NodeType :=
  | kRootNode | kEngineNode | kSubmitNode | kIbNode | kMarkerNode | kEventNode | kPostambleStateNode
  | kPacketNode | kRegNode | kFieldNode | kPresentNode | kRenderMarkerNode | kGfxrVulkanSubmitNode
  | kGfxrVulkanBeginCommandBufferNode | kGfxrVulkanEndCommandBufferNode | kGfxrVulkanCommandNode
  | kGfxrVulkanCommandArgNode | kGfxrVulkanDrawCommandNode | kGfxrVulkanBeginRenderPassCommandNode
  | kGfxrVulkanEndRenderPassCommandNode | kGfxrBeginDebugUtilsLabelCommandNode
  | kGfxrVulkanCopyBufferCommandNode | kGfxrVulkanClearAttachmentsCommandNode
  | kGfxrVulkanClearColorImageCommandNode | kGfxrVulkanClearDepthStencilImageCommandNode
  | kGfxrVulkanResolveImageCommandNode | kGfxrRootFrameNode.

#[global] Instance NodeType_eq_dec : EqDecision NodeType.
Proof. solve_decision. Defined.

Definition IbType_to_Z (type : IbType) : Z :=
  match type with
  | kNormal => 0 | kCall => 1 | kChain => 2 | kContextSwitchIb => 3 | kDrawState => 4 | kBinPrefix => 5
  | kBinCommon => 6 | kFixedStrideDrawTable => 7
  end.

(** [CommandHierarchy::MarkerType]. *)
Definition kBeginEnd : Z := 0.
Definition kDiveMetadata : Z := 3.

(** ** AuxInfo

    A word of bit fields: widths and values from the lowest bit on. *)
Fixpoint pack (fields : list (Z * Z)) : Z :=
  match fields with [] => 0 | (w, v) :: fields => wrap w v + 2 ^ w * pack fields end.

Definition AuxInfo : Type := Z.
Definition kMaxNumIbsBits : Z := 6.

Definition SubmitNode (engine_type : EngineType) (submit_index : Z) : AuxInfo :=
  pack [(8, engine_type); (24, 0); (32, submit_index)].
Definition IbNode (ib_index : Z) (ib_type : IbType) (size_in_dwords : Z) (fully_captured : bool) : AuxInfo :=
  pack [(8, IbType_to_Z ib_type); (kMaxNumIbsBits, Z.land ib_index (Z.ones kMaxNumIbsBits));
        (1, if fully_captured then 1 else 0); (17, 0); (32, size_in_dwords)].
Definition PacketNode (addr opcode ib_level : Z) : AuxInfo :=
  pack [(48, Z.land addr 0x0000FFFFFFFFFFFF); (8, opcode); (3, ib_level)].
Definition RegFieldNode (is_ce_packet : bool) : AuxInfo := pack [(8, Z.b2z is_ce_packet)].
Definition EventNode (event_id type : Z) (ignore_during_correlation : bool) : AuxInfo :=
  pack [(32, event_id); (8, type); (8, Z.b2z ignore_during_correlation)].
Definition MarkerNode (type id : Z) : AuxInfo := pack [(32, type); (32, id)].

(** ** Nodes *)

Record Nodes := mkNodes {
  m_node_type : list NodeType;
  m_description : list string;
  m_aux_info : list AuxInfo;
  m_event_node_indices : list Z
}.

Definition new_Nodes : Nodes := mkNodes [] [] [] [].

Definition Nodes_AddNode (type : NodeType) (desc : string) (aux_info : AuxInfo) (n : Nodes) : Z * Nodes :=
  (vec_size (m_node_type n),
   mkNodes (m_node_type n ++ [type]) (m_description n ++ [desc]) (m_aux_info n ++ [aux_info]) (m_event_node_indices n)).

Definition Nodes_AddGfxrNode (type : NodeType) (desc : string) (n : Nodes) : Z * Nodes :=
  Nodes_AddNode type desc 0 n.

(** ** CommandHierarchy *)

Inductive TopologyType := kSubmitTopology | kAllEventTopology.

#[global] Instance TopologyType_eq_dec : EqDecision TopologyType.
Proof. solve_decision. Defined.

(** An array with an entry for each topology. *)
Record PerTopology (A : Type) := mkPerTopology { at_submit : A; at_all_event : A }.
Arguments mkPerTopology {A} _ _.
Arguments at_submit {A} _.
Arguments at_all_event {A} _.

Definition of_type {A} (type : TopologyType) (p : PerTopology A) : A :=
  match type with kSubmitTopology => at_submit p | kAllEventTopology => at_all_event p end.

Definition set_type {A} (type : TopologyType) (a : A) (p : PerTopology A) : PerTopology A :=
  match type with
  | kSubmitTopology => mkPerTopology a (at_all_event p)
  | kAllEventTopology => mkPerTopology (at_submit p) a
  end.

Definition per_topology {A B} (f : A -> B) (p : PerTopology A) : PerTopology B :=
  mkPerTopology (f (at_submit p)) (f (at_all_event p)).

Inductive FilterListType := kBinningPassOnly | kFirstTilePassOnly | kBinningAndFirstTilePass.

Record ExcludeLists := mkExclude {
  binning_pass_only : gset Z;
  first_tile_pass_only : gset Z;
  binning_and_first_tile_pass : gset Z
}.

Record CommandHierarchy := mkHierarchy {
  m_nodes : Nodes;
  m_filter_exclude_indices_list : ExcludeLists;
  m_topology : PerTopology SharedNodeTopology
}.

Definition new_CommandHierarchy : CommandHierarchy :=
  mkHierarchy new_Nodes (mkExclude ∅ ∅ ∅) (mkPerTopology new_SharedNodeTopology new_SharedNodeTopology).

Definition set_nodes n (h : CommandHierarchy) :=
  mkHierarchy n (m_filter_exclude_indices_list h) (m_topology h).
Definition set_exclude l (h : CommandHierarchy) := mkHierarchy (m_nodes h) l (m_topology h).
Definition set_topologies t (h : CommandHierarchy) :=
  mkHierarchy (m_nodes h) (m_filter_exclude_indices_list h) t.

Definition hierarchy_size (h : CommandHierarchy) : Z := vec_size (m_node_type (m_nodes h)).
Definition GetSubmitHierarchyTopology (h : CommandHierarchy) : SharedNodeTopology := of_type kSubmitTopology (m_topology h).
Definition GetAllEventHierarchyTopology (h : CommandHierarchy) : SharedNodeTopology := of_type kAllEventTopology (m_topology h).

Definition GetNodeType (node_index : Z) (h : CommandHierarchy) : outcome NodeType := vec_at (m_node_type (m_nodes h)) node_index.
Definition GetNodeDesc (node_index : Z) (h : CommandHierarchy) : outcome string := vec_at (m_description (m_nodes h)) node_index.
Definition SetNodeDesc (node_index : Z) (desc : string) (h : CommandHierarchy) : outcome CommandHierarchy :=
  let n := m_nodes h in
  descs ← vec_set node_index desc (m_description n);
  Done (set_nodes (mkNodes (m_node_type n) descs (m_aux_info n) (m_event_node_indices n)) h).

(** A field of a node's word. *)
Definition aux_field (lo n node_index : Z) (h : CommandHierarchy) : outcome Z :=
  info ← vec_at (m_aux_info (m_nodes h)) node_index; Done (bits lo n info).

Definition GetSubmitNodeEngineType := aux_field 0 8.
Definition GetSubmitNodeIndex := aux_field 32 32.
Definition GetIbNodeType := aux_field 0 8.
Definition GetIbNodeIndex := aux_field 8 kMaxNumIbsBits.
Definition GetIbNodeIsFullyCaptured (node_index : Z) (h : CommandHierarchy) : outcome bool :=
  captured ← aux_field 14 1 node_index h; Done (negb (captured =? 0)).
Definition GetIbNodeSizeInDwords := aux_field 32 32.
Definition GetMarkerNodeType := aux_field 0 32.
Definition GetMarkerNodeId := aux_field 32 32.
Definition GetEventNodeId := aux_field 0 32.
Definition GetEventNodeType := aux_field 32 8.
Definition IsEventNodeIgnoredDuringCorrelation (node_index : Z) (h : CommandHierarchy) : outcome bool :=
  ignore ← aux_field 40 8 node_index h; Done (negb (ignore =? 0)).
Definition GetPacketNodeAddr := aux_field 0 48.
Definition GetPacketNodeOpcode := aux_field 48 8.
Definition GetPacketNodeIbLevel := aux_field 56 3.
Definition GetRegFieldNodeIsCe (node_index : Z) (h : CommandHierarchy) : outcome bool :=
  is_ce ← aux_field 0 8 node_index h; Done (negb (is_ce =? 0)).

(** [std::lower_bound]: the first position whose element is not below [x], in a
    sorted vector. *)
Fixpoint lower_bound (x : Z) (v : list Z) : nat :=
  match v with [] => O | y :: v => if y <? x then S (lower_bound x v) else O end.

Definition GetEventIndex (node_index : Z) (h : CommandHierarchy) : Z :=
  let indices := m_event_node_indices (m_nodes h) in
  let it := lower_bound node_index indices in
  match indices !! it with
  | Some y => if negb (y =? node_index) then 0 else Z.of_nat it + 1
  | None => 0
  end.

Definition GetFilterExcludeIndices (filter_type : FilterListType) (h : CommandHierarchy) : gset Z :=
  let l := m_filter_exclude_indices_list h in
  match filter_type with
  | kBinningPassOnly => binning_pass_only l
  | kFirstTilePassOnly => first_tile_pass_only l
  | kBinningAndFirstTilePass => binning_and_first_tile_pass l
  end.

Definition AddToFilterExcludeIndexList (index : Z) (filter_mode : FilterListType) (h : CommandHierarchy)
  : CommandHierarchy :=
  let l := m_filter_exclude_indices_list h in
  set_exclude
    match filter_mode with
    | kBinningPassOnly =>
        mkExclude ({[index]} ∪ binning_pass_only l) (first_tile_pass_only l) (binning_and_first_tile_pass l)
    | kFirstTilePassOnly =>
        mkExclude (binning_pass_only l) ({[index]} ∪ first_tile_pass_only l) (binning_and_first_tile_pass l)
    | kBinningAndFirstTilePass =>
        mkExclude (binning_pass_only l) (first_tile_pass_only l) ({[index]} ∪ binning_and_first_tile_pass l)
    end h.

Definition Hierarchy_AddNode (type : NodeType) (desc : string) (aux_info : AuxInfo) (h : CommandHierarchy)
  : Z * CommandHierarchy :=
  let '(index, n) := Nodes_AddNode type desc aux_info (m_nodes h) in (index, set_nodes n h).

Definition AddGfxrNode (type : NodeType) (desc : string) (h : CommandHierarchy) : Z * CommandHierarchy :=
  let '(index, n) := Nodes_AddGfxrNode type desc (m_nodes h) in (index, set_nodes n h).

(** ** Lemmas *)

Lemma bits_div lo n z : 0 <= lo -> 0 <= n -> bits lo n z = (z / 2 ^ lo) mod 2 ^ n.
Proof. intros Hlo Hn. unfold bits. by rewrite Z.land_ones, Z.shiftr_div_pow2. Qed.

Lemma bits_pack_here w v fields : 0 <= w -> bits 0 w (pack ((w, v) :: fields)) = wrap w v.
Proof.
  intros Hw. rewrite bits_div by lia. cbn [pack]. rewrite Z.div_1_r, Z.mul_comm, Z_mod_plus_full.
  unfold wrap. by rewrite Zmod_mod.
Qed.

Lemma bits_pack_skip lo n w v fields : 0 <= w <= lo -> 0 <= n ->
  bits lo n (pack ((w, v) :: fields)) = bits (lo - w) n (pack fields).
Proof.
  intros Hw Hn. rewrite !bits_div by lia. cbn [pack]. f_equal.
  replace (2 ^ lo) with (2 ^ w * 2 ^ (lo - w)) by (rewrite <- Z.pow_add_r by lia; f_equal; lia).
  rewrite <- Z.div_div by (try apply Z.pow_nonzero; try apply Z.pow_pos_nonneg; lia). f_equal.
  rewrite Z.mul_comm, Z.div_add by (apply Z.pow_nonzero; lia).
  rewrite Z.div_small by (apply (wrap_range w v); lia). lia.
Qed.

Lemma wrap_land_ones w v : 0 <= w -> wrap w (Z.land v (Z.ones w)) = wrap w v.
Proof. intros Hw. rewrite Z.land_ones by done. apply wrap_wrap. Qed.

(** Fields at the given bit of a packed word. *)
Ltac unpack :=
  repeat first [rewrite bits_pack_here by (unfold kMaxNumIbsBits; lia) | rewrite bits_pack_skip by (unfold kMaxNumIbsBits; lia)];
  cbn [Z.sub Z.add Z.opp Z.pos_sub].

Section AddedNode.
Context (h : CommandHierarchy) (type : NodeType) (desc : string) (aux_info : AuxInfo).

Definition nodes_aligned (n : Nodes) : Prop :=
  length (m_description n) = length (m_node_type n) /\ length (m_aux_info n) = length (m_node_type n).

Lemma vec_at_snoc {A} (v : list A) a i : i = vec_size v -> vec_at (v ++ [a]) i = Done a.
Proof. intros ->. apply vec_at_nat. by rewrite lookup_app_r, Nat.sub_diag by lia. Qed.

Lemma vec_at_app_l {A} (v w : list A) i : vec_has v i = true -> vec_at (v ++ w) i = vec_at v i.
Proof.
  intros H. apply vec_has_spec in H. unfold vec_at. rewrite !(proj2 (vec_has_spec _ i)) by (rewrite ?length_app; lia).
  by rewrite lookup_app_l by lia.
Qed.

Lemma AddNode_aux lo n : nodes_aligned (m_nodes h) ->
  forall i h', Hierarchy_AddNode type desc aux_info h = (i, h') -> aux_field lo n i h' = Done (bits lo n aux_info).
Proof.
  intros [_ Ha] i h' [= <- <-]. unfold aux_field. cbn. rewrite vec_at_snoc; [done|]. unfold vec_size. by rewrite Ha.
Qed.
End AddedNode.

(** A sorted vector holds [x] only where [lower_bound] says. *)
Lemma lower_bound_spec x v i : StronglySorted Z.lt v -> v !! i = Some x -> lower_bound x v = i.
Proof.
  revert i. induction v as [|y v IH]; intros i Hs Hi; [done|]. inversion Hs as [|? ? Hs' Hall]; subst.
  destruct i as [|i]; cbn [lookup list_lookup lower_bound] in *.
  - injection Hi as ->. by rewrite Z.ltb_irrefl.
  - assert (y < x) by (rewrite Forall_forall in Hall; apply Hall; by eapply list_elem_of_lookup_2).
    rewrite (proj2 (Z.ltb_lt y x)) by done. f_equal. by apply IH.
Qed.

(** The sequence number of an event, and [0] for a node that is none. *)
Lemma GetEventIndex_spec h node_index : StronglySorted Z.lt (m_event_node_indices (m_nodes h)) ->
  (forall i, m_event_node_indices (m_nodes h) !! i = Some node_index -> GetEventIndex node_index h = Z.of_nat i + 1) /\
  (node_index ∉ m_event_node_indices (m_nodes h) -> GetEventIndex node_index h = 0).
Proof.
  intros Hs. unfold GetEventIndex. split.
  - intros i Hi. rewrite (lower_bound_spec _ _ _ Hs Hi), Hi. by rewrite Z.eqb_refl.
  - intros Hn. destruct (_ !! lower_bound _ _) as [y|] eqn:Hy; [|done].
    destruct (Z.eqb_spec y node_index) as [->|]; [|done]. exfalso. apply Hn. by eapply list_elem_of_lookup_2.
Qed.

(** ** Properties *)

(** What is stored with a node is what its getters return, for each kind of node:
    engine type and submit index, an IB's type, index, size and whether it was captured,
    a packet's address, opcode and level, an event's number, type and mark, a marker's
    type and number. An address keeps its low 48 bits, an IB's index 6 and a level 3. *)
Theorem aux_info_kept h type desc : nodes_aligned (m_nodes h) ->
  (forall engine_type submit_index, in_width 8 engine_type -> in_width 32 submit_index ->
     let '(i, h') := Hierarchy_AddNode type desc (SubmitNode engine_type submit_index) h in
     GetSubmitNodeEngineType i h' = Done engine_type /\ GetSubmitNodeIndex i h' = Done submit_index) /\
  (forall ib_index ib_type size captured, in_width 32 size ->
     let '(i, h') := Hierarchy_AddNode type desc (IbNode ib_index ib_type size captured) h in
     GetIbNodeType i h' = Done (IbType_to_Z ib_type) /\ GetIbNodeIndex i h' = Done (wrap kMaxNumIbsBits ib_index) /\
     GetIbNodeSizeInDwords i h' = Done size /\ GetIbNodeIsFullyCaptured i h' = Done captured) /\
  (forall addr opcode ib_level, in_width 8 opcode ->
     let '(i, h') := Hierarchy_AddNode type desc (PacketNode addr opcode ib_level) h in
     GetPacketNodeAddr i h' = Done (wrap 48 addr) /\ GetPacketNodeOpcode i h' = Done opcode /\
     GetPacketNodeIbLevel i h' = Done (wrap 3 ib_level)) /\
  (forall event_id event_type ignore, in_width 32 event_id -> in_width 8 event_type ->
     let '(i, h') := Hierarchy_AddNode type desc (EventNode event_id event_type ignore) h in
     GetEventNodeId i h' = Done event_id /\ GetEventNodeType i h' = Done event_type /\
     IsEventNodeIgnoredDuringCorrelation i h' = Done ignore) /\
  (forall marker_type id, in_width 32 marker_type -> in_width 32 id ->
     let '(i, h') := Hierarchy_AddNode type desc (MarkerNode marker_type id) h in
     GetMarkerNodeType i h' = Done marker_type /\ GetMarkerNodeId i h' = Done id) /\
  (forall is_ce, let '(i, h') := Hierarchy_AddNode type desc (RegFieldNode is_ce) h in
     GetRegFieldNodeIsCe i h' = Done is_ce).
Proof.
  intros Ha.
  split; [|split; [|split; [|split; [|split]]]]; intros;
    destruct (Hierarchy_AddNode _ _ _ h) as [i h'] eqn:E;
    pose proof (fun lo n => AddNode_aux h type desc _ lo n Ha i h' E) as Hf;
    repeat apply conj; unfold GetIbNodeIsFullyCaptured, IsEventNodeIgnoredDuringCorrelation, GetRegFieldNodeIsCe;
    (etrans; [first [apply Hf | rewrite Hf; reflexivity]|]);
    unfold SubmitNode, IbNode, PacketNode, EventNode, MarkerNode, RegFieldNode; f_equal; unpack;
    first [done | by rewrite wrap_small by (done || by destruct ib_type) | apply (wrap_land_ones 48); lia | apply (wrap_land_ones kMaxNumIbsBits); unfold kMaxNumIbsBits; lia
          | by destruct captured | by destruct ignore | by destruct is_ce].
Qed.

Lemma aux_info_kept_witness :
  let '(i, h) := Hierarchy_AddNode kIbNode "IB" (IbNode 5 kChain 17 true) new_CommandHierarchy in
  i = 0 /\ GetIbNodeType i h = Done (IbType_to_Z kChain) /\ GetIbNodeIndex i h = Done 5.
Proof.
  destruct (aux_info_kept new_CommandHierarchy kIbNode "IB") as (_ & H & _); [by split|].
  specialize (H 5 kChain 17 true). destruct H as (H1 & H2 & _); [done|].
  split; [reflexivity|]. split; [exact H1|exact H2].
Defined.
