(* ===== verification/Annotations.v ===== *)
(** * Annotations: the Vulkan commands of a GFXR capture

    Models [DiveAnnotationProcessor] of
    [src/gfxr_ext/decode/dive_annotation_processor.{h,cpp}], which is called for
    each function call of a capture and sorts the calls into submits and command
    buffers, and the accessors of [src/dive_core/gfxr_capture_data.cpp] to what it
    collects. The class [OrderedJson] is the JSON library: a value is looked at
    through its shape. *)

From S2P Require Import Prelude.
From stdpp Require Import strings.

#[local] Open Scope Z_scope.

(** ** JSON

    [json_uint64] is the conversion to an integer, which throws where it is
    [None]. *)
Inductive json_shape (J : Type) :=
  | JObject (items : list (string * J))
  | JArray (elements : list J)
  | JString (s : string)
  | JNull
  | JOther.
Arguments JObject {J} _.
Arguments JArray {J} _.
Arguments JString {J} _.
Arguments JNull {J}.
Arguments JOther {J}.

Class OrderedJson (J : Type) := {
  json_view : J -> json_shape J;
  json_dump : J -> string;
  json_uint64 : J -> option Z
}.

(** A JSON value is a finite tree. *)
Class JsonLaws (J : Type) `{OrderedJson J} := {
  json_depth : J -> nat;
  json_depth_object v items key x : json_view v = JObject items -> (key, x) ∈ items -> (json_depth x < json_depth v)%nat;
  json_depth_array v elements x : json_view v = JArray elements -> x ∈ elements -> (json_depth x < json_depth v)%nat
}.

(** What an expression ends with: a value, an exception, or a constant [operator[]]
    of a key that is not there, whose behaviour is undefined. *)
Inductive attempt (A : Type) :=
  | Gives (a : A)
  | Throws
  | Undefined.
Arguments Gives {A} a.
Arguments Throws {A}.
Arguments Undefined {A}.

#[global] Instance attempt_bind : MBind attempt := fun A B k m =>
  match m with Gives a => k a | Throws => Throws | Undefined => Undefined end.

Definition of_option {A} (o : option A) : attempt A := match o with Some a => Gives a | None => Throws end.

Section Json.
Context {J : Type} `{OrderedJson J}.

Fixpoint find_key (key : string) (items : list (string * J)) : option J :=
  match items with
  | [] => None
  | (k, x) :: items => if decide (k = key) then Some x else find_key key items
  end.

(** [contains], and [count] that is not zero. *)
Definition json_contains (key : string) (v : J) : bool :=
  match json_view v with JObject items => bool_decide (is_Some (find_key key items)) | _ => false end.

(** The constant [operator[]], which throws for a value that is no object. *)
Definition json_at (key : string) (v : J) : attempt J :=
  match json_view v with
  | JObject items => match find_key key items with Some x => Gives x | None => Undefined end
  | _ => Throws
  end.

Definition is_object (v : J) : bool := match json_view v with JObject _ => true | _ => false end.
Definition is_array (v : J) : bool := match json_view v with JArray _ => true | _ => false end.

(** The values that a loop over [v] visits. *)
Definition json_elements (v : J) : list J :=
  match json_view v with
  | JObject items => items.*2
  | JArray elements => elements
  | JNull => []
  | _ => [v]
  end.
End Json.

(** [s.find(part) != npos]. *)
Definition string_contains (part s : string) : bool := match String.index 0 part s with Some _ => true | None => false end.

(** ** The processor *)

Section Processor.
Context {J : Type} `{OrderedJson J}.

(** [DiveFunctionData], of which [VulkanCommandInfo] has the same members. *)
Record VulkanCommandInfo := mkCommand {
  cmd_args : J;
  cmd_name : string;
  cmd_index : Z
}.

Record GfxrSubmitInfo := mkGfxrSubmit {
  none_cmd_vk_commands : list VulkanCommandInfo;
  vk_command_buffer_handles : list Z;
  submit_name : string
}.

Record DrawCallCounts := mkCounts {
  begin_command_buffer_draw_call_count : Z;
  render_pass_draw_call_counts : list Z
}.

Definition new_DrawCallCounts : DrawCallCounts := mkCounts 0 [].

Record AnnotationProcessor := mkAnnotations {
  m_none_cmd_vk_commands_per_submit_cache : list VulkanCommandInfo;
  m_cmd_vk_commands_cache : gmap Z (list VulkanCommandInfo);
  m_draw_call_counts_map : gmap Z DrawCallCounts;
  m_submits : list GfxrSubmitInfo
}.

Definition new_AnnotationProcessor : AnnotationProcessor := mkAnnotations [] ∅ ∅ [].

(** Both loops over the command buffers of a [vkQueueSubmit]. *)
Fixpoint buffer_handles (command_buffers : list J) : attempt (list Z) :=
  match command_buffers with
  | [] => Gives []
  | cmd_buffer :: command_buffers =>
      handle ← of_option (json_uint64 cmd_buffer);
      handles ← buffer_handles command_buffers;
      Gives (handle :: handles)
  end.

Fixpoint submit_handles (submits : list J) : attempt (list Z) :=
  match submits with
  | [] => Gives []
  | submit :: submits =>
      handles ←
        (if json_contains "pCommandBuffers" submit then
           command_buffers ← json_at "pCommandBuffers" submit; buffer_handles (json_elements command_buffers)
         else Gives []);
      rest ← submit_handles submits;
      Gives (handles ++ rest)
  end.

Definition is_queue_submit (name : string) : bool :=
  bool_decide (name = "vkQueueSubmit") || bool_decide (name = "vkQueueSubmit2").

Definition counts_of (cmd_handle : Z) (counts : gmap Z DrawCallCounts) : DrawCallCounts :=
  default new_DrawCallCounts (counts !! cmd_handle).

(** [render_pass_draw_call_counts.back()++] of a vector that is not empty. *)
Definition count_in_last_pass (counts : list Z) : list Z :=
  match last counts with
  | Some n => removelast counts ++ [wrap 64 (n + 1)]
  | None => counts
  end.

(** The effect of a command on the counts of its command buffer; [None] where the map
    is not touched. *)
Definition count_begin (name : string) (c : DrawCallCounts) : option DrawCallCounts :=
  if string_contains "vkBeginCommandBuffer" name then
    Some (mkCounts 0 (render_pass_draw_call_counts c))
  else if string_contains "vkCmdBeginRenderPass" name then
    Some (mkCounts (begin_command_buffer_draw_call_count c) (render_pass_draw_call_counts c ++ [0]))
  else None.

Definition count_draw (name : string) (c : DrawCallCounts) : option DrawCallCounts :=
  if string_contains "vkCmdDraw" name then
    Some (mkCounts (wrap 64 (begin_command_buffer_draw_call_count c + 1))
            (count_in_last_pass (render_pass_draw_call_counts c)))
  else None.

Definition update_counts (f : DrawCallCounts -> option DrawCallCounts) (cmd_handle : Z)
    (counts : gmap Z DrawCallCounts) : gmap Z DrawCallCounts :=
  match f (counts_of cmd_handle counts) with Some c => <[cmd_handle := c]> counts | None => counts end.

Definition cached (cmd_handle : Z) (p : AnnotationProcessor) : list VulkanCommandInfo :=
  default [] (m_cmd_vk_commands_cache p !! cmd_handle).

Definition WriteBlockEnd (function_data : VulkanCommandInfo) (p : AnnotationProcessor) : attempt AnnotationProcessor :=
  let function_name := cmd_name function_data in
  let args := cmd_args function_data in
  if is_queue_submit function_name then
    handles ←
      (if json_contains "submitCount" args then
         submits ← json_at "pSubmits" args; submit_handles (json_elements submits)
       else Gives []);
    Gives (mkAnnotations [] (m_cmd_vk_commands_cache p) (m_draw_call_counts_map p)
             (m_submits p ++ [mkGfxrSubmit (m_none_cmd_vk_commands_per_submit_cache p) handles function_name]))
  else if json_contains "commandBuffer" args then
    handle_value ← json_at "commandBuffer" args;
    cmd_handle ← of_option (json_uint64 handle_value);
    let kept := if string_contains "vkBeginCommandBuffer" function_name then [] else cached cmd_handle p in
    let counts := update_counts (count_begin function_name) cmd_handle (m_draw_call_counts_map p) in
    Gives (mkAnnotations (m_none_cmd_vk_commands_per_submit_cache p)
             (<[cmd_handle := kept ++ [function_data]]> (m_cmd_vk_commands_cache p))
             (update_counts (count_draw function_name) cmd_handle counts) (m_submits p))
  else
    Gives (mkAnnotations (m_none_cmd_vk_commands_per_submit_cache p ++ [function_data]) (m_cmd_vk_commands_cache p)
             (m_draw_call_counts_map p) (m_submits p)).

(** The calls of a capture, in order. *)
Fixpoint process_blocks (calls : list VulkanCommandInfo) (p : AnnotationProcessor) : attempt AnnotationProcessor :=
  match calls with
  | [] => Gives p
  | call :: calls => p ← WriteBlockEnd call p; process_blocks calls p
  end.

(** ** What the capture keeps of it *)

Record GfxrCommands := mkGfxrCommands {
  m_gfxr_submits : list GfxrSubmitInfo;
  m_gfxr_command_buffers : gmap Z (list VulkanCommandInfo);
  m_gfxr_draw_call_counts : gmap Z DrawCallCounts
}.

(** [TakeSubmits], [TakeVkCommandsCache] and [TakeDrawCallMap]. *)
Definition take_commands (p : AnnotationProcessor) : GfxrCommands :=
  mkGfxrCommands (m_submits p) (m_cmd_vk_commands_cache p) (m_draw_call_counts_map p).

Definition GetGfxrSubmits (d : GfxrCommands) : list GfxrSubmitInfo := m_gfxr_submits d.
Definition GetGfxrCommandBuffers (cmd_handle : Z) (d : GfxrCommands) : attempt (list VulkanCommandInfo) :=
  of_option (m_gfxr_command_buffers d !! cmd_handle).
Definition GetDrawCallCounts (cmd_handle : Z) (d : GfxrCommands) : attempt DrawCallCounts :=
  of_option (m_gfxr_draw_call_counts d !! cmd_handle).
End Processor.

Arguments VulkanCommandInfo J : clear implicits.
Arguments GfxrSubmitInfo J : clear implicits.
Arguments AnnotationProcessor J : clear implicits.
Arguments GfxrCommands J : clear implicits.

(** ** What the calls of a capture mean *)

Section Meaning.
Context {J : Type} `{OrderedJson J}.
Implicit Types (calls pre cmds : list (VulkanCommandInfo J)) (p : AnnotationProcessor J).

(** A call is a submit with its command buffers, a command of a command buffer, or
    something else. *)
Inductive call_kind := IsSubmit (handles : list Z) | IsCommand (handle : Z) | IsOther.

Definition kind_of (call : VulkanCommandInfo J) : attempt call_kind :=
  if is_queue_submit (cmd_name call) then
    handles ←
      (if json_contains "submitCount" (cmd_args call) then
         submits ← json_at "pSubmits" (cmd_args call); submit_handles (json_elements submits)
       else Gives []);
    Gives (IsSubmit handles)
  else if json_contains "commandBuffer" (cmd_args call) then
    handle_value ← json_at "commandBuffer" (cmd_args call);
    cmd_handle ← of_option (json_uint64 handle_value);
    Gives (IsCommand cmd_handle)
  else Gives IsOther.

Definition is_command_of (h : Z) (call : VulkanCommandInfo J) : bool :=
  match kind_of call with Gives (IsCommand h') => bool_decide (h' = h) | _ => false end.

Definition commands_of (h : Z) calls : list (VulkanCommandInfo J) := List.filter (is_command_of h) calls.

(** What the commands of a buffer leave recorded: those since the last
    [vkBeginCommandBuffer]. *)
Definition record_command (acc : list (VulkanCommandInfo J)) (c : VulkanCommandInfo J) : list (VulkanCommandInfo J) :=
  (if string_contains "vkBeginCommandBuffer" (cmd_name c) then [] else acc) ++ [c].
Definition recording (cmds : list (VulkanCommandInfo J)) : list (VulkanCommandInfo J) := fold_left record_command cmds [].

Definition is_draw (c : VulkanCommandInfo J) : bool := string_contains "vkCmdDraw" (cmd_name c).
Definition begins_pass (c : VulkanCommandInfo J) : bool := string_contains "vkCmdBeginRenderPass" (cmd_name c).

Definition draws (cmds : list (VulkanCommandInfo J)) : Z := Z.of_nat (length (List.filter is_draw cmds)).

(** The commands before the first render pass, and for each render pass those from
    its start to the start of the next. *)
Fixpoint passes (cmds : list (VulkanCommandInfo J)) : list (VulkanCommandInfo J) * list (list (VulkanCommandInfo J)) :=
  match cmds with
  | [] => ([], [])
  | c :: cmds =>
      let '(before, ps) := passes cmds in
      if begins_pass c then ([], (c :: before) :: ps) else (c :: before, ps)
  end.

Definition pass_draws (cmds : list (VulkanCommandInfo J)) : list Z := draws <$> snd (passes cmds).

(** The submits, each with the other calls since the one before; [acc] are those of
    the current submit. *)
Fixpoint split_submits (acc : list (VulkanCommandInfo J)) calls
  : list (GfxrSubmitInfo J) * list (VulkanCommandInfo J) :=
  match calls with
  | [] => ([], acc)
  | call :: calls =>
      match kind_of call with
      | Gives (IsSubmit handles) =>
          let '(submits, rest) := split_submits [] calls in
          (mkGfxrSubmit acc handles (cmd_name call) :: submits, rest)
      | Gives IsOther => split_submits (acc ++ [call]) calls
      | _ => split_submits acc calls
      end
  end.

(** No command is both of two of the kinds that are told apart by their names. *)
Definition plain_name (c : VulkanCommandInfo J) : Prop :=
  (string_contains "vkBeginCommandBuffer" (cmd_name c) = true -> begins_pass c = false) /\
  (string_contains "vkBeginCommandBuffer" (cmd_name c) || begins_pass c = true -> is_draw c = false).

Record collected pre p : Prop := {
  col_cache h : m_cmd_vk_commands_cache p !! h =
    match commands_of h pre with [] => None | cmds => Some (recording cmds) end;
  col_total h : begin_command_buffer_draw_call_count (counts_of h (m_draw_call_counts_map p))
    = draws (recording (commands_of h pre));
  col_passes h : render_pass_draw_call_counts (counts_of h (m_draw_call_counts_map p))
    = pass_draws (commands_of h pre);
  col_submits : m_submits p = fst (split_submits [] pre);
  col_others : m_none_cmd_vk_commands_per_submit_cache p = snd (split_submits [] pre)
}.
End Meaning.

Section Collecting.
Context {J : Type} `{OrderedJson J}.
Implicit Types (calls pre cmds : list (VulkanCommandInfo J)) (p : AnnotationProcessor J).

Lemma commands_of_snoc h pre call :
  commands_of h (pre ++ [call]) = commands_of h pre ++ (if is_command_of h call then [call] else []).
Proof. unfold commands_of. rewrite List.filter_app. cbn. by destruct (is_command_of h call). Qed.

Lemma recording_snoc cmds c : recording (cmds ++ [c]) = record_command (recording cmds) c.
Proof. unfold recording. by rewrite fold_left_app. Qed.

Lemma draws_app cmds c : draws (cmds ++ [c]) = draws cmds + (if is_draw c then 1 else 0).
Proof.
  unfold draws. rewrite List.filter_app, length_app. cbn. destruct (is_draw c); cbn; lia.
Qed.

Lemma split_submits_snoc acc pre call :
  split_submits acc (pre ++ [call]) =
    let '(submits, rest) := split_submits acc pre in
    match kind_of call with
    | Gives (IsSubmit handles) => (submits ++ [mkGfxrSubmit rest handles (cmd_name call)], [])
    | Gives IsOther => (submits, rest ++ [call])
    | _ => (submits, rest)
    end.
Proof.
  revert acc. induction pre as [|c pre IH]; intros acc; cbn [app split_submits].
  { by destruct (kind_of call) as [[| |]| |]. }
  destruct (kind_of c) as [[handles| |]| |]; try apply IH.
  rewrite IH. destruct (split_submits [] pre) as [submits rest].
  by destruct (kind_of call) as [[| |]| |].
Qed.

Lemma passes_snoc cmds c :
  passes (cmds ++ [c]) =
    let '(before, ps) := passes cmds in
    if begins_pass c then (before, ps ++ [[c]])
    else match last ps with
         | Some l => (before, removelast ps ++ [l ++ [c]])
         | None => (before ++ [c], ps)
         end.
Proof.
  induction cmds as [|d cmds IH]; cbn [app passes].
  { by destruct (begins_pass c). }
  rewrite IH. destruct (passes cmds) as [before ps]. destruct (begins_pass c).
  { by destruct (begins_pass d). }
  destruct ps as [|x ps] using rev_ind; cbn [last].
  - by destruct (begins_pass d).
  - rewrite last_snoc, removelast_last.
    destruct (begins_pass d); rewrite ?app_comm_cons, last_snoc, removelast_last; done.
Qed.

(** Counters do not wrap when there are fewer calls than that. *)
Lemma draws_bound cmds : 0 <= draws cmds <= Z.of_nat (length cmds).
Proof. unfold draws. pose proof (List.filter_length_le is_draw cmds). lia. Qed.
End Collecting.

Section Steps.
Context {J : Type} `{OrderedJson J}.
Implicit Types (calls pre cmds : list (VulkanCommandInfo J)) (p : AnnotationProcessor J).

(** A call does what its kind says. *)
Lemma WriteBlockEnd_kind call p :
  WriteBlockEnd call p =
    kind ← kind_of call;
    Gives match kind with
    | IsSubmit handles =>
        mkAnnotations [] (m_cmd_vk_commands_cache p) (m_draw_call_counts_map p)
          (m_submits p ++ [mkGfxrSubmit (m_none_cmd_vk_commands_per_submit_cache p) handles (cmd_name call)])
    | IsCommand h =>
        mkAnnotations (m_none_cmd_vk_commands_per_submit_cache p)
          (<[h := record_command (cached h p) call]> (m_cmd_vk_commands_cache p))
          (update_counts (count_draw (cmd_name call)) h
             (update_counts (count_begin (cmd_name call)) h (m_draw_call_counts_map p)))
          (m_submits p)
    | IsOther =>
        mkAnnotations (m_none_cmd_vk_commands_per_submit_cache p ++ [call]) (m_cmd_vk_commands_cache p)
          (m_draw_call_counts_map p) (m_submits p)
    end.
Proof.
  unfold WriteBlockEnd, kind_of. destruct (is_queue_submit _).
  - by destruct (if json_contains _ _ then _ else _).
  - destruct (json_contains "commandBuffer" _); [|done].
    destruct (json_at _ _) as [v| |]; [|done|done]. cbn. by destruct (of_option _).
Qed.

Lemma counts_of_update f h h' (counts : gmap Z DrawCallCounts) :
  counts_of h' (update_counts f h counts)
    = if decide (h' = h) then default (counts_of h counts) (f (counts_of h counts)) else counts_of h' counts.
Proof.
  unfold update_counts, counts_of. destruct (f _) as [c|] eqn:E; case_decide as Hd; subst; cbn.
  - by rewrite lookup_insert_eq.
  - by rewrite lookup_insert_ne.
  - done.
  - done.
Qed.

Lemma removelast_last_app {A} (l : list A) x : last l = Some x -> l = removelast l ++ [x].
Proof.
  intros Hl. apply last_Some in Hl as [l' ->]. by rewrite removelast_last.
Qed.

Lemma pass_draws_snoc cmds c :
  pass_draws (cmds ++ [c]) =
    let d := if is_draw c then 1 else 0 in
    if begins_pass c then pass_draws cmds ++ [d]
    else match last (pass_draws cmds) with
         | Some n => removelast (pass_draws cmds) ++ [n + d]
         | None => pass_draws cmds
         end.
Proof.
  unfold pass_draws. rewrite passes_snoc. destruct (passes cmds) as [before ps]. cbn [snd].
  destruct (begins_pass c); cbn [snd].
  - rewrite fmap_app. f_equal. unfold draws. cbn. by destruct (is_draw c).
  - rewrite fmap_last. destruct (last ps) as [l|] eqn:Hl; [|done]. cbn [fmap option_fmap option_map snd].
    rewrite (removelast_last_app ps l Hl) at 2. rewrite !fmap_app. cbn [fmap list_fmap].
    by rewrite removelast_last, draws_app.
Qed.

Lemma passes_length cmds l : l ∈ snd (passes cmds) -> (length l <= length cmds)%nat.
Proof.
  cut ((length (fst (passes cmds)) <= length cmds)%nat /\
    forall l, l ∈ snd (passes cmds) -> (length l <= length cmds)%nat); [intros [_ H']; apply H'|].
  induction cmds as [|c cmds [IH1 IH2]]; cbn [passes]; [split; [done|intros l' Hl; by apply elem_of_nil in Hl]|].
  destruct (passes cmds) as [before ps]. cbn [fst snd length] in *. destruct (begins_pass c); cbn [fst snd length].
  - split; [lia|]. intros l' [->|Hl]%elem_of_cons; cbn [length]; [lia|]. specialize (IH2 l' Hl). lia.
  - split; [lia|]. intros l' Hl. specialize (IH2 l' Hl). lia.
Qed.

Lemma pass_draws_bound cmds n : n ∈ pass_draws cmds -> 0 <= n <= Z.of_nat (length cmds).
Proof.
  unfold pass_draws. intros (l & -> & Hl)%list_elem_of_fmap. apply passes_length in Hl.
  pose proof (draws_bound l). lia.
Qed.

Lemma recording_length cmds : (length (recording cmds) <= length cmds)%nat.
Proof.
  induction cmds as [|c cmds IH] using rev_ind; [done|]. rewrite recording_snoc, length_app. unfold record_command.
  destruct (string_contains _ _); rewrite length_app; cbn; lia.
Qed.

(** One command's effect on the counts, for a name of one kind. *)
Lemma counts_step c call cmds : plain_name call -> Z.of_nat (length cmds) < 2 ^ 64 - 1 ->
  begin_command_buffer_draw_call_count c = draws (recording cmds) ->
  render_pass_draw_call_counts c = pass_draws cmds ->
  let c1 := default c (count_begin (cmd_name call) c) in
  let c2 := default c1 (count_draw (cmd_name call) c1) in
  begin_command_buffer_draw_call_count c2 = draws (recording (cmds ++ [call])) /\
  render_pass_draw_call_counts c2 = pass_draws (cmds ++ [call]).
Proof.
  intros [Hp1 Hp2] Hlen Ht Hps. rewrite recording_snoc, pass_draws_snoc. unfold record_command.
  unfold count_begin, count_draw. fold (is_draw call). fold (begins_pass call).
  pose proof (draws_bound (recording cmds)) as Hb. pose proof (recording_length cmds) as Hr.
  assert (forall n, last (pass_draws cmds) = Some n -> 0 <= n <= Z.of_nat (length cmds)) as Hn.
  { intros n Hn. apply pass_draws_bound. rewrite (removelast_last_app _ n Hn). apply elem_of_app. right. by left. }
  assert (forall b : Z, b = 0 -> match last (pass_draws cmds) with
    | Some n => removelast (pass_draws cmds) ++ [n + b] | None => pass_draws cmds end = pass_draws cmds) as H0.
  { intros b ->. destruct (last (pass_draws cmds)) as [n|] eqn:El; [|done]. rewrite Z.add_0_r.
    symmetry. by apply removelast_last_app. }
  destruct (string_contains "vkBeginCommandBuffer" _).
  - rewrite Hp1 by done. rewrite Hp2 by done. cbn. rewrite Hps, H0 by done. split; [|done].
    unfold draws. cbn. by rewrite Hp2 by done.
  - destruct (begins_pass call) eqn:Hq; cbn.
    + rewrite Hp2 by done. cbn. rewrite draws_app, Ht, Hps, Hp2 by done. split; [lia|done].
    + rewrite draws_app. destruct (is_draw call) eqn:Hd; cbn; rewrite ?Ht, ?Hps.
      * unfold count_in_last_pass. split; [by apply wrap_small; unfold in_width; lia|].
        destruct (last (pass_draws cmds)) as [n|] eqn:El; [|done]. specialize (Hn n eq_refl).
        by rewrite wrap_small by (unfold in_width; lia).
      * rewrite H0 by done. split; [lia|done].
Qed.

Lemma collected_step pre p call p' : plain_name call -> Z.of_nat (length pre) < 2 ^ 64 - 1 ->
  collected pre p -> WriteBlockEnd call p = Gives p' -> collected (pre ++ [call]) p'.
Proof.
  intros Hname Hlen [Hcache Htotal Hpasses Hsub Hoth]. rewrite WriteBlockEnd_kind.
  destruct (kind_of call) as [kind| |] eqn:Hk; cbn [mbind attempt_bind]; [|done|done]. intros [= <-].
  assert (forall h, is_command_of h call = match kind with IsCommand h' => bool_decide (h' = h) | _ => false end) as Hof.
  { intros h. unfold is_command_of. by rewrite Hk. }
  pose proof (split_submits_snoc [] pre call) as Hs. rewrite Hk in Hs.
  destruct (split_submits [] pre) as [submits rest]. cbn [fst snd] in *.
  assert (forall h, match kind with IsCommand h' => h' <> h | _ => True end ->
    commands_of h (pre ++ [call]) = commands_of h pre) as Hsame.
  { intros h Hh. rewrite commands_of_snoc, Hof. destruct kind as [| h'|]; rewrite ?app_nil_r; try done.
    rewrite bool_decide_false by done. by rewrite app_nil_r. }
  destruct kind as [handles|h|]; cbn in Hs.
  - split; cbn; intros; rewrite ?Hsame, ?Hs; cbn; try done; congruence.
  - assert (commands_of h (pre ++ [call]) = commands_of h pre ++ [call]) as Hsnoc.
    { by rewrite commands_of_snoc, Hof, bool_decide_true. }
    assert (length (commands_of h pre) <= length pre)%nat by apply List.filter_length_le.
    assert (Z.of_nat (length (commands_of h pre)) < 2 ^ 64 - 1) as Hl by lia.
    destruct (counts_step _ call _ Hname Hl (Htotal h) (Hpasses h)) as [Et Ep]. rewrite <- Hsnoc in Et, Ep.
    split; cbn [m_cmd_vk_commands_cache m_draw_call_counts_map m_submits m_none_cmd_vk_commands_per_submit_cache];
      try (rewrite Hs; cbn; done).
    + intros h'. destruct (decide (h' = h)) as [->|Hne].
      * rewrite lookup_insert_eq, Hsnoc. unfold cached. rewrite Hcache.
        destruct (commands_of h pre) as [|d ds]; [done|]. cbn [app default]. f_equal.
        rewrite app_comm_cons, recording_snoc. done.
      * rewrite lookup_insert_ne, Hsame by done. apply Hcache.
    + intros h'. rewrite !counts_of_update. case_decide as Hh; [subst h'; rewrite decide_True by done; exact Et|].
      by rewrite Hsame by done.
    + intros h'. rewrite !counts_of_update. case_decide as Hh; [subst h'; rewrite decide_True by done; exact Ep|].
      by rewrite Hsame by done.
  - split; cbn; intros; rewrite ?Hsame, ?Hs; cbn; try done; congruence.
Qed.
End Steps.

Section Collected.
Context {J : Type} `{OrderedJson J}.
Implicit Types (calls pre cmds a b first rest : list (VulkanCommandInfo J)) (p : AnnotationProcessor J).

Lemma process_collected pre calls p p' : Forall plain_name calls ->
  Z.of_nat (length pre + length calls) < 2 ^ 64 ->
  collected pre p -> process_blocks calls p = Gives p' -> collected (pre ++ calls) p'.
Proof.
  revert pre p. induction calls as [|call calls IH]; intros pre p Hn Hl Hc; cbn [process_blocks length] in *.
  { intros [= <-]. by rewrite app_nil_r. }
  apply Forall_cons in Hn as [Hname Hn].
  destruct (WriteBlockEnd call p) as [p1| |] eqn:E; cbn [mbind attempt_bind]; [|done|done]. intros Hp.
  replace (pre ++ call :: calls) with ((pre ++ [call]) ++ calls) by (by rewrite <- app_assoc).
  apply (IH _ p1); [done|rewrite length_app; cbn; lia| |done].
  apply (collected_step pre p call p1); [done|lia|done|done].
Qed.

Lemma collected_new : collected [] (new_AnnotationProcessor (J:=J)).
Proof. by split; intros; cbn; rewrite ?lookup_empty. Qed.

Lemma passes_app a b :
  passes (a ++ b) =
    match last (snd (passes a)) with
    | Some l => (fst (passes a), removelast (snd (passes a)) ++ [l ++ fst (passes b)] ++ snd (passes b))
    | None => (fst (passes a) ++ fst (passes b), snd (passes b))
    end.
Proof.
  induction a as [|c a IH]; cbn [app passes]; [by destruct (passes b)|].
  rewrite IH. destruct (passes a) as [ba pa], (passes b) as [bb pb]. cbn [fst snd].
  destruct pa as [|x pa] using rev_ind; cbn [last].
  - by destruct (begins_pass c).
  - rewrite last_snoc, removelast_last. destruct (begins_pass c); cbn [fst snd].
    + by rewrite (app_comm_cons pa [x]), last_snoc, removelast_last.
    + by rewrite last_snoc, removelast_last.
Qed.

Lemma pass_draws_app a b : draws (fst (passes b)) = 0 -> pass_draws (a ++ b) = pass_draws a ++ pass_draws b.
Proof.
  intros Hb. unfold pass_draws. rewrite passes_app.
  destruct (last (snd (passes a))) as [l|] eqn:El; cbn [snd].
  - rewrite (removelast_last_app _ l El) at 2. rewrite !fmap_app, <- app_assoc. f_equal.
    rewrite <- fmap_app. cbn [app fmap list_fmap]. f_equal.
    unfold draws in *. rewrite List.filter_app, length_app. lia.
  - apply last_None in El. by rewrite El.
Qed.

(** A recording is the last part of the commands that begins a recording. *)
Lemma recording_last first begin rest :
  string_contains "vkBeginCommandBuffer" (cmd_name begin) = true ->
  Forall (fun c => string_contains "vkBeginCommandBuffer" (cmd_name c) = false) rest ->
  recording (first ++ begin :: rest) = begin :: rest.
Proof.
  intros Hb Hr. unfold recording. rewrite fold_left_app. cbn [fold_left]. unfold record_command at 2. rewrite Hb.
  cbn [app]. assert (forall acc, fold_left record_command rest acc = acc ++ rest) as Hfold; [|by apply Hfold].
  clear Hb. induction rest as [|c rest IH]; intros acc; cbn [fold_left]; [by rewrite app_nil_r|].
  apply Forall_cons in Hr as [Hc Hr]. rewrite IH by done. unfold record_command. rewrite Hc. by rewrite <- app_assoc.
Qed.
End Collected.

(** ** A JSON value *)

Module SimpleJson.

Inductive Json :=
  | Obj (items : list (string * Json))
  | Arr (elements : list Json)
  | Str (s : string)
  | Num (z : Z)
  | Null.

Fixpoint depth (v : Json) : nat :=
  match v with
  | Obj items => S (fold_right (fun '(_, x) n => Nat.max (depth x) n) O items)
  | Arr elements => S (fold_right (fun x n => Nat.max (depth x) n) O elements)
  | _ => O
  end.

Definition view (v : Json) : json_shape Json :=
  match v with
  | Obj items => JObject items
  | Arr elements => JArray elements
  | Str s => JString s
  | Num _ => JOther
  | Null => JNull
  end.

Definition dump (v : Json) : string :=
  match v with
  | Obj items => "{}"
  | Arr elements => "[]"
  | Str s => s
  | Num z => pretty z
  | Null => "null"
  end.

#[global] Instance Json_ordered : OrderedJson Json := {|
  json_view := view;
  json_dump := dump;
  json_uint64 := fun v => match v with Num z => Some (wrap 64 z) | _ => None end
|}.

#[global] Program Instance Json_laws : JsonLaws Json := {| json_depth := depth |}.
Next Obligation.
  intros [items'| | | |] items key x [= ->] Hx. cbn.
  induction items as [|[k y] items IH]; [by apply elem_of_nil in Hx|]. cbn.
  apply elem_of_cons in Hx as [[= <- <-]|Hx]; [lia|]. specialize (IH Hx). lia.
Qed.
Next Obligation.
  intros [|elements'| | |] elements x [= ->] Hx. cbn.
  induction elements as [|y elements IH]; [by apply elem_of_nil in Hx|]. cbn.
  apply elem_of_cons in Hx as [->|Hx]; [lia|]. specialize (IH Hx). lia.
Qed.

(** A command of the command buffer [h]. *)
Definition command (h : Z) (name : string) : VulkanCommandInfo Json := mkCommand (Obj [("commandBuffer", Num h)]) name 0.
Definition other (name : string) : VulkanCommandInfo Json := mkCommand (Obj []) name 0.
Definition queue_submit (handles : list Z) : VulkanCommandInfo Json :=
  mkCommand (Obj [("submitCount", Num 1);
                  ("pSubmits", Arr [Obj [("pCommandBuffers", Arr (Num <$> handles))]])]) "vkQueueSubmit" 0.

Definition queue_submits (submits : list (list Z)) : VulkanCommandInfo Json :=
  mkCommand (Obj [("submitCount", Num (Z.of_nat (length submits)));
                  ("pSubmits", Arr ((fun handles => Obj [("pCommandBuffers", Arr (Num <$> handles))]) <$> submits))])
    "vkQueueSubmit" 0.

(** A recording with a render pass of [n] draws. *)
Definition pass_recording (h : Z) (n : nat) : list (VulkanCommandInfo Json) :=
  [command h "vkBeginCommandBuffer"; command h "vkCmdBeginRenderPass"] ++ replicate n (command h "vkCmdDraw") ++
  [command h "vkCmdEndRenderPass"; command h "vkEndCommandBuffer"].
End SimpleJson.

(** ** Properties *)

(** *** The calls of a capture, from their JSON *)

Section Described.
Context {J : Type} `{OrderedJson J}.
Implicit Types (calls : list (VulkanCommandInfo J)) (p : AnnotationProcessor J).

(** The member of an object, and the elements of an array; a null pointer has none. *)
Definition json_member (key : string) (v : J) : option J :=
  match json_view v with JObject items => (list_to_map items : gmap string J) !! key | _ => None end.
Definition array_of (v : J) : option (list J) :=
  match json_view v with JArray elements => Some elements | JNull => Some [] | _ => None end.

(** A [VkSubmitInfo] with its command buffers, and a [VkSubmitInfo2], whose command
    buffers are in another member. *)
Definition submit_info (submit : J) (handles : list Z) : Prop :=
  exists array buffers, json_member "pCommandBuffers" submit = Some array /\ array_of array = Some buffers /\
    Forall2 (fun buffer handle => json_uint64 buffer = Some handle) buffers handles.
Definition submit_info2 (submit : J) : Prop := is_object submit = true /\ json_member "pCommandBuffers" submit = None.

(** What a call is, by its name and its arguments. *)
Inductive described : VulkanCommandInfo J -> call_kind -> Prop :=
| described_submit call count array submits handles :
    cmd_name call = "vkQueueSubmit"%string -> json_member "submitCount" (cmd_args call) = Some count ->
    json_member "pSubmits" (cmd_args call) = Some array -> array_of array = Some submits ->
    Forall2 submit_info submits handles ->
    described call (IsSubmit (concat handles))
| described_submit2 call count array submits :
    cmd_name call = "vkQueueSubmit2"%string -> json_member "submitCount" (cmd_args call) = Some count ->
    json_member "pSubmits" (cmd_args call) = Some array -> array_of array = Some submits ->
    Forall submit_info2 submits ->
    described call (IsSubmit [])
| described_command call value handle :
    cmd_name call <> "vkQueueSubmit"%string -> cmd_name call <> "vkQueueSubmit2"%string ->
    json_member "commandBuffer" (cmd_args call) = Some value -> json_uint64 value = Some handle ->
    described call (IsCommand handle)
| described_other call :
    cmd_name call <> "vkQueueSubmit"%string -> cmd_name call <> "vkQueueSubmit2"%string ->
    json_member "commandBuffer" (cmd_args call) = None -> described call IsOther.

(** The calls that are commands of a buffer, and the submits with the other calls in
    front of each; [acc] are those of the current one. *)
Definition commands_on (h : Z) (calls : list (VulkanCommandInfo J * call_kind)) : list (VulkanCommandInfo J) :=
  omap (fun c => match c.2 with IsCommand h' => if decide (h' = h) then Some c.1 else None | _ => None end) calls.

Fixpoint submits_of (acc : list (VulkanCommandInfo J)) (calls : list (VulkanCommandInfo J * call_kind))
  : list (GfxrSubmitInfo J) * list (VulkanCommandInfo J) :=
  match calls with
  | [] => ([], acc)
  | (call, IsSubmit handles) :: calls =>
      let '(submits, rest) := submits_of [] calls in
      (mkGfxrSubmit acc handles (cmd_name call) :: submits, rest)
  | (call, IsOther) :: calls => submits_of (acc ++ [call]) calls
  | (_, IsCommand _) :: calls => submits_of acc calls
  end.

Lemma member_find key (v : J) : json_member key v =
  match json_view v with JObject items => find_key key items | _ => None end.
Proof.
  unfold json_member. destruct (json_view v) as [items| | | |]; try done.
  induction items as [|[k x] items IH]; [by rewrite list_to_map_nil, lookup_empty|].
  rewrite list_to_map_cons. cbn [find_key]. case_decide as E; [by rewrite E, lookup_insert_eq|].
  by rewrite lookup_insert_ne.
Qed.

Lemma json_contains_member key (v : J) : json_contains key v = bool_decide (is_Some (json_member key v)).
Proof.
  rewrite member_find. unfold json_contains. destruct (json_view v); try done.
Qed.

Lemma json_at_member key (v x : J) : json_member key v = Some x -> json_at key v = Gives x.
Proof. rewrite member_find. unfold json_at. destruct (json_view v); try done. by intros ->. Qed.

Lemma json_elements_array (v : J) elements : array_of v = Some elements -> json_elements v = elements.
Proof. unfold array_of, json_elements. destruct (json_view v); naive_solver. Qed.

Lemma buffer_handles_given buffers handles :
  Forall2 (fun buffer handle => json_uint64 buffer = Some handle) buffers handles ->
  buffer_handles buffers = Gives handles.
Proof. induction 1 as [|b h bs hs Hb _ IH]; [done|]. cbn. by rewrite Hb, IH. Qed.

Lemma submit_handles_given submits handles : Forall2 submit_info submits handles ->
  submit_handles submits = Gives (concat handles).
Proof.
  induction 1 as [|s hs ss hss (array & buffers & Hm & Ha & Hb) _ IH]; [done|]. cbn [submit_handles concat].
  rewrite json_contains_member, Hm, bool_decide_true, (json_at_member _ _ _ Hm) by eauto.
  cbn [mbind attempt_bind]. rewrite (json_elements_array _ _ Ha), (buffer_handles_given _ _ Hb).
  cbn [mbind attempt_bind]. by rewrite IH.
Qed.

Lemma submit_handles_none submits : Forall submit_info2 submits -> submit_handles submits = Gives [].
Proof.
  induction 1 as [|s ss [_ Hm] _ IH]; [done|]. cbn [submit_handles].
  rewrite json_contains_member, Hm, bool_decide_false by by intros [? ?].
  cbn [mbind attempt_bind]. by rewrite IH.
Qed.

Lemma kind_described call kind : described call kind -> kind_of call = Gives kind.
Proof.
  unfold kind_of, is_queue_submit. destruct 1 as [? ? ? ? ? -> Hc Hm Ha Hs|? ? ? ? -> Hc Hm Ha Hs|? ? ? H1 H2 Hm Hv|? H1 H2 Hm].
  - rewrite bool_decide_true by done. cbn [orb].
    rewrite json_contains_member, Hc, bool_decide_true by eauto.
    rewrite (json_at_member _ _ _ Hm). cbn [mbind attempt_bind].
    by rewrite (json_elements_array _ _ Ha), (submit_handles_given _ _ Hs).
  - rewrite (bool_decide_true (_ = "vkQueueSubmit2"%string)), orb_true_r by done.
    rewrite json_contains_member, Hc, bool_decide_true by eauto.
    rewrite (json_at_member _ _ _ Hm). cbn [mbind attempt_bind].
    by rewrite (json_elements_array _ _ Ha), (submit_handles_none _ Hs).
  - rewrite !bool_decide_false by done. cbn [orb]. rewrite json_contains_member, Hm, bool_decide_true by eauto.
    rewrite (json_at_member _ _ _ Hm). cbn [mbind attempt_bind]. by rewrite Hv.
  - rewrite !bool_decide_false by done. cbn [orb].
    by rewrite json_contains_member, Hm, bool_decide_false by by intros [? ?].
Qed.

Lemma commands_on_described h calls kinds : Forall2 described calls kinds ->
  commands_of h calls = commands_on h (zip calls kinds).
Proof.
  induction 1 as [|c k cs ks Hk%kind_described _ IH]; [done|]. cbn [commands_of List.filter zip zip_with].
  fold (commands_of h cs). rewrite IH. unfold is_command_of. rewrite Hk. unfold commands_on.
  cbn [omap list_omap fst snd]. destruct k as [|h'|]; try done. case_bool_decide as E.
  - by rewrite decide_True.
  - by rewrite decide_False.
Qed.

Lemma submits_of_described acc calls kinds : Forall2 described calls kinds ->
  split_submits acc calls = submits_of acc (zip calls kinds).
Proof.
  intros Hc. revert acc. induction Hc as [|c k cs ks Hk%kind_described _ IH]; intros acc; [done|].
  cbn [split_submits zip zip_with submits_of]. rewrite Hk. destruct k; rewrite ?IH; done.
Qed.

Lemma process_described calls kinds p : Forall2 described calls kinds ->
  exists p', process_blocks calls p = Gives p'.
Proof.
  intros Hc. revert p. induction Hc as [|c k cs ks Hk%kind_described _ IH]; intros p; [by eexists|].
  cbn [process_blocks]. rewrite WriteBlockEnd_kind, Hk. cbn [mbind attempt_bind]. apply IH.
Qed.
End Described.

(** C21: what is collected from the calls of a capture. The calls are given as JSON
    ([described]): a [vkQueueSubmit] has an array of submits, each with an array of command
    buffers, and a command names its buffer. The processing then always succeeds, and keeps
    of each command buffer the commands since it was begun last and the number of draws
    among them, for each render pass that was ever begun in it ([vkCmdBeginRenderPass]) the
    number of draws up to the next, and for each submit, in order, its name, the command
    buffers of all its submit infos one after the other, and the calls that are neither
    commands nor submits since the submit before. A [vkQueueSubmit2] is kept without command
    buffers, since they are in the member [pCommandBufferInfos] of its submit infos. For less
    than 2^64 calls, no name of which is both of two kinds of command ([plain_name]). *)
Theorem calls_collected `{OrderedJson J} (calls : list (VulkanCommandInfo J)) (kinds : list call_kind) :
  Forall2 described calls kinds -> Forall plain_name calls -> Z.of_nat (length calls) < 2 ^ 64 ->
  let on h := commands_on h (zip calls kinds) in
  exists p, process_blocks calls new_AnnotationProcessor = Gives p /\
  (forall h, m_cmd_vk_commands_cache p !! h
             = if decide (on h = []) then None else Some (recording (on h))) /\
  (forall h, let counts := default (mkCounts 0 []) (m_draw_call_counts_map p !! h) in
     begin_command_buffer_draw_call_count counts = draws (recording (on h)) /\
     render_pass_draw_call_counts counts = pass_draws (on h)) /\
  (m_submits p, m_none_cmd_vk_commands_per_submit_cache p) = submits_of [] (zip calls kinds).
Proof.
  intros Hc Hn Hl on. destruct (process_described calls kinds new_AnnotationProcessor Hc) as [p Hp].
  exists p. split; [done|].
  destruct (process_collected [] calls new_AnnotationProcessor p Hn Hl collected_new Hp)
    as [Hcache Htotal Hpasses Hsub Hoth]. cbn [app] in *.
  rewrite (submits_of_described [] calls kinds Hc) in Hsub, Hoth.
  split_and!; [| |by rewrite Hsub, Hoth; destruct (submits_of _ _)].
  - intros h. rewrite Hcache, (commands_on_described h calls kinds Hc). fold (on h).
    by destruct (on h).
  - intros h. subst on. cbn beta. rewrite <- (commands_on_described h calls kinds Hc).
    split; [exact (Htotal h)|exact (Hpasses h)].
Qed.

Definition example_calls : list (VulkanCommandInfo SimpleJson.Json) :=
  SimpleJson.pass_recording 7 2 ++ [SimpleJson.other "vkQueuePresentKHR"; SimpleJson.queue_submits [[7]; [8]]].

Definition plain_names (calls : list (VulkanCommandInfo SimpleJson.Json)) : bool :=
  forallb (fun c => implb (string_contains "vkBeginCommandBuffer" (cmd_name c)) (negb (begins_pass c)) &&
    implb (string_contains "vkBeginCommandBuffer" (cmd_name c) || begins_pass c) (negb (is_draw c))) calls.

Lemma plain_names_spec calls : plain_names calls = true -> Forall plain_name calls.
Proof.
  unfold plain_names. rewrite forallb_forall, Forall_forall. intros H c Hc. specialize (H c).
  rewrite <- list_elem_of_In in H. specialize (H Hc). unfold plain_name.
  destruct (string_contains _ _), (begins_pass c), (is_draw c); cbn in *; done.
Qed.

Definition example_kinds : list call_kind := replicate 6 (IsCommand 7) ++ [IsOther; IsSubmit [7; 8]].

Lemma example_described : Forall2 described example_calls example_kinds.
Proof.
  repeat (apply Forall2_cons; split); try apply Forall2_nil; try done;
    try (eapply described_command; [discriminate|discriminate|reflexivity|reflexivity]).
  - apply described_other; [discriminate|discriminate|reflexivity].
  - apply (described_submit _ (SimpleJson.Num 2)
      (SimpleJson.Arr [SimpleJson.Obj [("pCommandBuffers"%string, SimpleJson.Arr [SimpleJson.Num 7])];
                       SimpleJson.Obj [("pCommandBuffers"%string, SimpleJson.Arr [SimpleJson.Num 8])]])
      [SimpleJson.Obj [("pCommandBuffers"%string, SimpleJson.Arr [SimpleJson.Num 7])];
       SimpleJson.Obj [("pCommandBuffers"%string, SimpleJson.Arr [SimpleJson.Num 8])]]
      [[7]; [8]]); try reflexivity.
    apply Forall2_cons; split; [|apply Forall2_cons; split; [|constructor]];
      (eexists _, _; split_and!; [reflexivity|reflexivity|repeat constructor]).
Qed.

Lemma calls_collected_witness : exists p,
  process_blocks example_calls new_AnnotationProcessor = Gives p /\
  m_cmd_vk_commands_cache p !! 7 = Some (SimpleJson.pass_recording 7 2) /\
  m_submits p = [mkGfxrSubmit [SimpleJson.other "vkQueuePresentKHR"] [7; 8] "vkQueueSubmit"].
Proof.
  destruct (calls_collected example_calls example_kinds example_described) as (p & Hp & Hc & _ & Hs).
  - apply plain_names_spec. vm_compute. reflexivity.
  - vm_compute. reflexivity.
  - exists p. split; [exact Hp|]. split; [rewrite Hc; vm_compute; reflexivity|].
    injection Hs as Hs _. rewrite Hs. vm_compute. reflexivity.
Defined.

(** The submit infos of [vkQueueSubmit2] have their command buffers in another member, so
    none are found. *)
Lemma submit2_without_buffers :
  let info := SimpleJson.Obj [("pCommandBufferInfos"%string,
    SimpleJson.Arr [SimpleJson.Obj [("commandBuffer"%string, SimpleJson.Num 7)]])] in
  let submit := mkCommand (SimpleJson.Obj [("submitCount"%string, SimpleJson.Num 1);
                                           ("pSubmits"%string, SimpleJson.Arr [info])]) "vkQueueSubmit2" 0 in
  (vk_command_buffer_handles <$> (match WriteBlockEnd submit new_AnnotationProcessor with
                                   Gives p => m_submits p | _ => [] end)) = [[]].
Proof. vm_compute. reflexivity. Qed.

(** A command buffer that is recorded again keeps the draw counts of the render passes of
    its earlier recordings in front of the new ones, while its commands are only those of
    the new recording: the counts of the passes that are looked up in order are the old
    ones. The total is that of the new recording. *)
Theorem rerecorded_counts `{OrderedJson J} (calls first rest : list (VulkanCommandInfo J)) p h begin :
  Forall plain_name calls -> Z.of_nat (length calls) < 2 ^ 64 ->
  process_blocks calls new_AnnotationProcessor = Gives p ->
  commands_of h calls = first ++ begin :: rest ->
  string_contains "vkBeginCommandBuffer" (cmd_name begin) = true ->
  Forall (fun c => string_contains "vkBeginCommandBuffer" (cmd_name c) = false) rest ->
  draws (fst (passes (begin :: rest))) = 0 ->
  GetGfxrCommandBuffers h (take_commands p) = Gives (begin :: rest) /\
  begin_command_buffer_draw_call_count (counts_of h (m_draw_call_counts_map p)) = draws (begin :: rest) /\
  render_pass_draw_call_counts (counts_of h (m_draw_call_counts_map p)) = pass_draws first ++ pass_draws (begin :: rest).
Proof.
  intros Hn Hl Hp Hcmds Hb Hr Hd.
  destruct (process_collected [] calls new_AnnotationProcessor p Hn Hl collected_new Hp) as [Hc Ht Hps _ _].
  cbn [app] in *. unfold GetGfxrCommandBuffers. cbn [m_gfxr_command_buffers take_commands].
  specialize (Hc h). rewrite Ht, Hps, Hcmds, (recording_last first begin rest Hb Hr), (pass_draws_app _ _ Hd).
  split; [|done]. rewrite Hcmds in Hc. pose proof (recording_last first begin rest Hb Hr) as Hrl.
  rewrite Hc. destruct first; cbn [app of_option] in *; by rewrite Hrl.
Qed.

Lemma rerecorded_counts_witness : exists p,
  process_blocks (SimpleJson.pass_recording 7 2 ++ SimpleJson.pass_recording 7 1) new_AnnotationProcessor = Gives p /\
  render_pass_draw_call_counts (counts_of 7 (m_draw_call_counts_map p)) = [2; 1].
Proof.
  eexists. split; [vm_compute; reflexivity|].
  eapply (rerecorded_counts (SimpleJson.pass_recording 7 2 ++ SimpleJson.pass_recording 7 1)
    (SimpleJson.pass_recording 7 2) (tail (SimpleJson.pass_recording 7 1)) _ 7
    (SimpleJson.command 7 "vkBeginCommandBuffer")).
  - apply plain_names_spec. vm_compute. reflexivity.
  - vm_compute. reflexivity.
  - vm_compute. reflexivity.
  - vm_compute. reflexivity.
  - vm_compute. reflexivity.
  - repeat constructor.
  - vm_compute. reflexivity.
Defined.
