(* ===== verification/GfxrHierarchy.v ===== *)
(** * GfxrHierarchy: the command hierarchy of a GFXR capture

    Models [GfxrVulkanCommandHierarchyCreator] of
    [src/dive_core/gfxr_vulkan_command_hierarchy.{h,cpp}]: submits, command buffers
    and commands become nodes, and their arguments the nodes below them. Debug
    labels and render passes nest the commands between their ends. The creator can
    be used alone or to add to the hierarchy of a PM4 capture. *)

From S2P Require Import Prelude Wire Memory Pm4 StateTracker Emulate Topology Hierarchy Annotations.
From stdpp Require Import strings pretty.

#[local] Open Scope Z_scope.

(** ** Strings *)

(** [std::string(s.c_str())]: what precedes the first null. *)
Fixpoint c_str (s : string) : string :=
  match s with
  | EmptyString => EmptyString
  | String a s => if Ascii.eqb a Ascii.zero then EmptyString else String a (c_str s)
  end.

(** [s.erase(pos, part.length())] where [part] is found. *)
Definition erase_part (part s : string) : string :=
  match String.index 0 part s with
  | Some pos => String.substring 0 pos s +:+ String.substring (pos + String.length part) (String.length s) s
  | None => s
  end.

(** ** Summaries *)

Section Summary.
Context {J : Type} `{OrderedJson J}.

Definition GetValueStr (node : J) (key : string) : string :=
  match json_view node with
  | JObject items =>
      match find_key key items with
      | Some val => match json_view val with JString s => s | _ => json_dump val end
      | None => "0"
      end
  | _ => "0"
  end.

Definition AppendDrawCallSummary (args : J) (primary_key : string) : string :=
  if json_contains primary_key args then
    "(" +:+ primary_key +:+ ": " +:+ GetValueStr args primary_key +:+
    (if json_contains "instanceCount" args then
       let instance_count := GetValueStr args "instanceCount" in
       if decide (instance_count = "1") then "" else ", instanceCount: " +:+ instance_count
     else "") +:+ ")"
  else "".

Definition AppendEnumSummary (args : J) (key prefix : string) : string :=
  if json_contains key args then "(" +:+ erase_part prefix (GetValueStr args key) +:+ ")" else "".

(** The first element of a member that is an array of some. *)
Definition first_of (args : J) (key : string) : option J :=
  match json_view args with
  | JObject items =>
      match find_key key items with
      | Some x => match json_view x with JArray (e :: _) => Some e | _ => None end
      | None => None
      end
  | _ => None
  end.

Definition member (args : J) (key : string) : option J :=
  match json_view args with JObject items => find_key key items | _ => None end.

Definition viewport_summary (args : J) : string :=
  match first_of args "pViewports" with
  | Some vp =>
      "(x:" +:+ GetValueStr vp "x" +:+ ", y:" +:+ GetValueStr vp "y" +:+ ", width:" +:+ GetValueStr vp "width"
      +:+ ", height:" +:+ GetValueStr vp "height" +:+ ")"
  | None => ""
  end.

Definition scissor_summary (args : J) : string :=
  match first_of args "pScissors" with
  | Some sc =>
      match member sc "offset", member sc "extent" with
      | Some offset, Some extent =>
          "(x:" +:+ GetValueStr offset "x" +:+ ", y:" +:+ GetValueStr offset "y" +:+ ", width:"
          +:+ GetValueStr extent "width" +:+ ", height:" +:+ GetValueStr extent "height" +:+ ")"
      | _, _ => ""
      end
  | None => ""
  end.

Definition dispatch_summary (args : J) : string :=
  if json_contains "groupCountX" args then
    "(x:" +:+ GetValueStr args "groupCountX" +:+ ", y:" +:+ GetValueStr args "groupCountY" +:+ ", z:"
    +:+ GetValueStr args "groupCountZ" +:+ ")"
  else "".

Definition indirect_summary (args : J) : string :=
  if json_contains "drawCount" args then
    let draw_count := GetValueStr args "drawCount" in
    if decide (draw_count = "1") then "" else "(drawCount: " +:+ draw_count +:+ ")"
  else "".

Definition range_summary (args : J) (first_key count_key first_label count_label : string) : string :=
  if json_contains first_key args && json_contains count_key args then
    "(" +:+ first_label +:+ ": " +:+ GetValueStr args first_key +:+ ", " +:+ count_label +:+ ": "
    +:+ GetValueStr args count_key +:+ ")"
  else "".

Definition GetCommandSummary (name : string) (args : J) : string :=
  if decide (name = "vkCmdDrawIndexed") then AppendDrawCallSummary args "indexCount"
  else if decide (name = "vkCmdDraw") then AppendDrawCallSummary args "vertexCount"
  else if decide (name = "vkCmdSetViewport") then viewport_summary args
  else if decide (name = "vkCmdSetScissor") then scissor_summary args
  else if decide (name = "vkCmdDispatch") then dispatch_summary args
  else if decide (name = "vkCmdDrawMultiEXT") then AppendDrawCallSummary args "drawCount"
  else if decide (name = "vkCmdDrawMultiIndexedEXT") then AppendDrawCallSummary args "drawCount"
  else if decide (name = "vkCmdDrawIndirect") then indirect_summary args
  else if decide (name = "vkCmdDrawIndexedIndirect") then indirect_summary args
  else if decide (name = "vkCmdBindPipeline") then AppendEnumSummary args "pipelineBindPoint" "VK_PIPELINE_BIND_POINT_"
  else if decide (name = "vkCmdBindDescriptorSets") then
    range_summary args "firstSet" "descriptorSetCount" "firstSet" "setCount"
  else if decide (name = "vkCmdBindVertexBuffers") then
    range_summary args "firstBinding" "bindingCount" "firstBinding" "bindingCount"
  else if decide (name = "vkCmdBindIndexBuffer") then AppendEnumSummary args "indexType" "VK_INDEX_TYPE_"
  else "".
End Summary.

(** ** The creator *)

(** The back of the stack's list is its bottom. *)
Record GfxrCreator := mkGfxrCreator {
  g_cur_submit_node_index : Z;
  g_cur_command_buffer_node_index : Z;
  g_cur_parent_node_index_stack : list Z;
  g_command_hierarchy : CommandHierarchy;
  g_node_children : PerTopology (list (list Z));
  g_used_in_mixed_command_hierarchy : bool;
  g_dive_indices_to_local_indices_map : gmap Z Z
}.

Definition new_GfxrCreator (h : CommandHierarchy) : GfxrCreator :=
  mkGfxrCreator 0 0 [] h (mkPerTopology [] []) false ∅.

Definition set_cur_submit i (g : GfxrCreator) :=
  mkGfxrCreator i (g_cur_command_buffer_node_index g) (g_cur_parent_node_index_stack g) (g_command_hierarchy g)
    (g_node_children g) (g_used_in_mixed_command_hierarchy g) (g_dive_indices_to_local_indices_map g).
Definition set_cur_command_buffer i (g : GfxrCreator) :=
  mkGfxrCreator (g_cur_submit_node_index g) i (g_cur_parent_node_index_stack g) (g_command_hierarchy g)
    (g_node_children g) (g_used_in_mixed_command_hierarchy g) (g_dive_indices_to_local_indices_map g).
Definition set_parent_stack st (g : GfxrCreator) :=
  mkGfxrCreator (g_cur_submit_node_index g) (g_cur_command_buffer_node_index g) st (g_command_hierarchy g)
    (g_node_children g) (g_used_in_mixed_command_hierarchy g) (g_dive_indices_to_local_indices_map g).
Definition set_hierarchy h (g : GfxrCreator) :=
  mkGfxrCreator (g_cur_submit_node_index g) (g_cur_command_buffer_node_index g) (g_cur_parent_node_index_stack g) h
    (g_node_children g) (g_used_in_mixed_command_hierarchy g) (g_dive_indices_to_local_indices_map g).
Definition set_children c (g : GfxrCreator) :=
  mkGfxrCreator (g_cur_submit_node_index g) (g_cur_command_buffer_node_index g) (g_cur_parent_node_index_stack g)
    (g_command_hierarchy g) c (g_used_in_mixed_command_hierarchy g) (g_dive_indices_to_local_indices_map g).
Definition set_mixed used m (g : GfxrCreator) :=
  mkGfxrCreator (g_cur_submit_node_index g) (g_cur_command_buffer_node_index g) (g_cur_parent_node_index_stack g)
    (g_command_hierarchy g) (g_node_children g) used m.

(** Operations end with a result, an exception, an index that is out of bounds, or
    out of fuel. *)
Definition Gfxr (A : Type) : Type := GfxrCreator -> outcome (attempt (A * GfxrCreator)).

#[global] Instance Gfxr_ret : MRet Gfxr := fun A a g => Done (Gives (a, g)).
#[global] Instance Gfxr_bind : MBind Gfxr := fun A B k m g =>
  match m g with
  | Done (Gives (a, g)) => k a g
  | Done Throws => Done Throws
  | Done Undefined => Done Undefined
  | OutOfBounds => OutOfBounds
  | OutOfFuel => OutOfFuel
  end.

Definition g_get : Gfxr GfxrCreator := fun g => Done (Gives (g, g)).
Definition g_modify (f : GfxrCreator -> GfxrCreator) : Gfxr () := fun g => Done (Gives ((), f g)).
Definition g_attempt {A} (a : attempt A) : Gfxr A := fun g => Done (x ← a; Gives (x, g)).
Definition g_check {A} (o : outcome A) : Gfxr A := fun g => x ← o; Done (Gives (x, g)).
Definition g_out_of_fuel {A} : Gfxr A := fun _ => OutOfFuel.

Definition all_event_children (g : GfxrCreator) : list (list Z) := of_type kAllEventTopology (g_node_children g).

Definition Gfxr_AddNode (type : NodeType) (desc : string) : Gfxr Z :=
  g ← g_get;
  let '(node_index, h) := AddGfxrNode type desc (g_command_hierarchy g) in
  let local_node_index := vec_size (all_event_children g) in
  g_modify (fun g =>
    let g := set_hierarchy h g in
    let g := set_children (set_type kAllEventTopology (all_event_children g ++ [[]]) (g_node_children g)) g in
    if g_used_in_mixed_command_hierarchy g then
      set_mixed true (<[node_index := local_node_index]> (g_dive_indices_to_local_indices_map g)) g
    else g) ;;
  mret node_index.

(** A node's place in [m_node_children]. *)
Definition local_index (node_index : Z) (g : GfxrCreator) : Z :=
  if g_used_in_mixed_command_hierarchy g then
    default node_index (g_dive_indices_to_local_indices_map g !! node_index)
  else node_index.

Definition Gfxr_AddChild (type : TopologyType) (node_index child_node_index : Z) : Gfxr () :=
  g ← g_get;
  v ← g_check (vec_push (local_index node_index g) child_node_index (of_type type (g_node_children g)));
  g_modify (fun g => set_children (set_type type v (g_node_children g)) g).

Definition ConditionallyAddChild (node_index : Z) : Gfxr () :=
  g ← g_get;
  Gfxr_AddChild kAllEventTopology
    (match g_cur_parent_node_index_stack g with [] => g_cur_command_buffer_node_index g | top :: _ => top end) node_index.

Section Creator.
Context {J : Type} `{OrderedJson J}.

Definition is_container (v : J) : bool := is_object v || is_array v.

(** A node below [parent] for an argument. *)
Definition add_arg (parent : Z) (desc : string) : Gfxr Z :=
  index ← Gfxr_AddNode kGfxrVulkanCommandArgNode desc;
  Gfxr_AddChild kAllEventTopology parent index ;; mret index.

(** [for (const auto& x : l)] with the index. *)
Fixpoint for_each {A} (i : nat) (l : list A) (body : nat -> A -> Gfxr ()) : Gfxr () :=
  match l with
  | [] => mret ()
  | x :: l => body i x ;; for_each (S i) l body
  end.

Fixpoint GetArgs (fuel : nat) (json_args : J) (curr_index : Z) : Gfxr () :=
  match fuel with
  | O => g_out_of_fuel
  | S fuel =>
      match json_view json_args with
      | JObject items =>
          for_each 0 items (fun _ '(key, val) =>
            match json_view val with
            | JObject _ =>
                object_node_index ← add_arg curr_index (c_str key);
                GetArgs fuel val object_node_index
            | JArray elements =>
                array_node_index ← add_arg curr_index (c_str key);
                for_each 0 elements (fun i element =>
                  match json_view element with
                  | JObject _ => GetArgs fuel element array_node_index
                  | JArray _ =>
                      nested_array_node_index ← add_arg array_node_index ("element_" +:+ pretty i);
                      GetArgs fuel element nested_array_node_index
                  | _ => add_arg array_node_index (json_dump element) ;; mret ()
                  end)
            | _ => add_arg curr_index (key +:+ ":" +:+ json_dump val) ;; mret ()
            end)
      | JArray elements =>
          for_each 0 elements (fun _ element =>
            if is_container element then GetArgs fuel element curr_index
            else add_arg curr_index (json_dump element) ;; mret ())
      | _ => mret ()
      end
  end.

Definition with_draw_count (desc : string) (draw_call_count : Z) : string :=
  desc +:+ ", Draw Call Count: " +:+ pretty draw_call_count.

(** The conversion of a JSON value to a string. *)
Definition json_string (v : J) : attempt string := match json_view v with JString s => Gives s | _ => Throws end.

Definition label_of (args : J) : attempt string :=
  info ← json_at "pLabelInfo" args; name ← json_at "pLabelName" info; json_string name.

Definition plain_command_type (name : string) : NodeType :=
  if string_contains "vkCmdCopyBuffer" name then kGfxrVulkanCopyBufferCommandNode
  else if string_contains "vkCmdClearAttachments" name then kGfxrVulkanClearAttachmentsCommandNode
  else if string_contains "vkCmdClearColorImage" name then kGfxrVulkanClearColorImageCommandNode
  else if string_contains "vkCmdClearDepthStencilImage" name then kGfxrVulkanClearDepthStencilImageCommandNode
  else if string_contains "vkCmdResolveImage" name then kGfxrVulkanResolveImageCommandNode
  else kGfxrVulkanCommandNode.

(** A node for a command and its arguments, added where commands go. *)
Definition add_command (fuel : nat) (type : NodeType) (desc : string) (args : J) : Gfxr Z :=
  index ← Gfxr_AddNode type desc;
  GetArgs fuel args index ;;
  ConditionallyAddChild index ;;
  mret index.

Definition push_parent (index : Z) : Gfxr () :=
  g_modify (fun g => set_parent_stack (index :: g_cur_parent_node_index_stack g) g).
Definition pop_parent : Gfxr () :=
  g_modify (fun g => set_parent_stack (tail (g_cur_parent_node_index_stack g)) g).

(** It returns what is left of [render_pass_draw_call_counts]. *)
Definition OnCommand (fuel : nat) (vk_cmd_info : VulkanCommandInfo J) (draw_call_count : Z)
    (render_pass_draw_call_counts : list Z) : Gfxr (list Z) :=
  let name := cmd_name vk_cmd_info in
  let args := cmd_args vk_cmd_info in
  let desc := name +:+ GetCommandSummary name args in
  if decide (name = "vkBeginCommandBuffer") then
    cmd_buffer_index ← Gfxr_AddNode kGfxrVulkanBeginCommandBufferNode (with_draw_count desc draw_call_count);
    g_modify (set_cur_command_buffer cmd_buffer_index) ;;
    GetArgs fuel args cmd_buffer_index ;;
    g ← g_get;
    Gfxr_AddChild kAllEventTopology (g_cur_submit_node_index g) cmd_buffer_index ;;
    mret render_pass_draw_call_counts
  else if decide (name = "vkEndCommandBuffer") then
    cmd_buffer_index ← Gfxr_AddNode kGfxrVulkanEndCommandBufferNode desc;
    GetArgs fuel args cmd_buffer_index ;;
    g ← g_get;
    Gfxr_AddChild kAllEventTopology (g_cur_command_buffer_node_index g) cmd_buffer_index ;;
    mret render_pass_draw_call_counts
  else if string_contains "BeginDebugUtilsLabelEXT" name then
    label_name ← g_attempt (label_of args);
    index ← add_command fuel kGfxrBeginDebugUtilsLabelCommandNode (c_str label_name) args;
    push_parent index ;;
    mret render_pass_draw_call_counts
  else if string_contains "EndDebugUtilsLabelEXT" name then
    g ← g_get;
    match g_cur_parent_node_index_stack g with
    | [] => mret render_pass_draw_call_counts
    | top :: _ =>
        type ← g_check (GetNodeType top (g_command_hierarchy g));
        (if decide (type = kGfxrBeginDebugUtilsLabelCommandNode) then pop_parent else mret ()) ;;
        mret render_pass_draw_call_counts
    end
  else if string_contains "vkCmdDraw" name || string_contains "vkCmdDispatch" name then
    add_command fuel kGfxrVulkanDrawCommandNode desc args ;;
    mret render_pass_draw_call_counts
  else if string_contains "vkCmdBeginRenderPass" name then
    let draw_call_count := match render_pass_draw_call_counts with [] => draw_call_count | front :: _ => front end in
    index ← add_command fuel kGfxrVulkanBeginRenderPassCommandNode (with_draw_count desc draw_call_count) args;
    push_parent index ;;
    mret (tail render_pass_draw_call_counts)
  else if string_contains "vkCmdEndRenderPass" name then
    add_command fuel kGfxrVulkanEndRenderPassCommandNode desc args ;;
    pop_parent ;;
    mret render_pass_draw_call_counts
  else
    add_command fuel (plain_command_type name) desc args ;;
    mret render_pass_draw_call_counts.

Fixpoint on_commands (fuel : nat) (vkCmds : list (VulkanCommandInfo J)) (draw_call_count : Z)
    (render_pass_draw_call_counts : list Z) : Gfxr () :=
  match vkCmds with
  | [] => mret ()
  | vk_cmd_info :: vkCmds =>
      counts ← OnCommand fuel vk_cmd_info draw_call_count render_pass_draw_call_counts;
      on_commands fuel vkCmds draw_call_count counts
  end.

Definition ProcessVkCmds (fuel : nat) (vkCmds : list (VulkanCommandInfo J)) (draw_call_count : Z)
    (render_pass_draw_call_counts : list Z) : Gfxr bool :=
  on_commands fuel vkCmds draw_call_count render_pass_draw_call_counts ;;
  g_modify (set_parent_stack []) ;;
  mret true.

Definition submit_desc (submit_index : nat) (submit_info : GfxrSubmitInfo J) : string :=
  submit_name submit_info +:+ ": " +:+ pretty submit_index +:+ ", Command Buffer Count: "
  +:+ pretty (length (vk_command_buffer_handles submit_info)).

Definition OnGfxrSubmit (submit_index : nat) (submit_info : GfxrSubmitInfo J) : Gfxr () :=
  submit_node_index ← Gfxr_AddNode kGfxrVulkanSubmitNode (submit_desc submit_index submit_info);
  Gfxr_AddChild kAllEventTopology kRootNodeIndex submit_node_index ;;
  g_modify (set_cur_submit submit_node_index).

(** [ProcessVkCmds] never fails otherwise. *)
Definition process_handle (fuel : nat) (capture_data : GfxrCommands J) (handle : Z) : Gfxr () :=
  draw_call_counts ← g_attempt (GetDrawCallCounts handle capture_data);
  cmds ← g_attempt (GetGfxrCommandBuffers handle capture_data);
  ProcessVkCmds fuel cmds (begin_command_buffer_draw_call_count draw_call_counts)
    (render_pass_draw_call_counts draw_call_counts) ;; mret ().

Definition ProcessGfxrSubmits (fuel : nat) (capture_data : GfxrCommands J) : Gfxr bool :=
  frame_root_node_index ← Gfxr_AddNode kGfxrRootFrameNode "Frame";
  Gfxr_AddChild kAllEventTopology kRootNodeIndex frame_root_node_index ;;
  for_each 0 (GetGfxrSubmits capture_data) (fun submit_index submit_info =>
    OnGfxrSubmit submit_index submit_info ;;
    ProcessVkCmds fuel (none_cmd_vk_commands submit_info) 0 [] ;;
    for_each 0 (vk_command_buffer_handles submit_info) (fun _ handle => process_handle fuel capture_data handle)) ;;
  mret true.

(** The topology is that of the class with shared children, whose [SetNumNodes] is
    called. *)
Definition Gfxr_CreateTopologies : Gfxr () :=
  g ← g_get;
  let h := g_command_hierarchy g in
  let cs := all_event_children g in
  let cur_topology := SetNumSharedNodes (length cs) (of_type kAllEventTopology (m_topology h)) in
  t ← g_check (add_all_children 0 cs cur_topology);
  g_modify (set_hierarchy (set_topologies (set_type kAllEventTopology (set_topology t cur_topology) (m_topology h)) h)).

Definition Gfxr_CreateTrees (fuel : nat) (used_in_mixed_command_hierarchy : bool) (capture_data : GfxrCommands J)
  : Gfxr bool :=
  g_modify (set_mixed used_in_mixed_command_hierarchy ∅) ;;
  if used_in_mixed_command_hierarchy then mret true
  else
    g_modify (set_hierarchy new_CommandHierarchy) ;;
    Gfxr_AddNode kRootNode "" ;;
    ProcessGfxrSubmits fuel capture_data ;;
    Gfxr_CreateTopologies ;;
    mret true.
End Creator.
