(* ===== verification/GfxrLayout.v ===== *)
(** * GfxrLayout: what the creator of [GfxrHierarchy] builds

    A hierarchy as a tree with ordered children, its layout in the arrays of nodes
    and of children, and the trees of a JSON value, of nested commands and of a
    capture. The lemmas say that the operations of [GfxrHierarchy] add such trees
    to the layout. *)

From S2P Require Import Prelude Wire Memory Pm4 StateTracker Emulate Topology Hierarchy Annotations GfxrHierarchy.
From stdpp Require Import strings pretty.

#[local] Open Scope Z_scope.

(** ** Trees and layouts *)

Inductive tree := TNode (type : NodeType) (desc : string) (kids : list tree).

(** The nodes of a tree from index [base] on, in preorder, and the children of
    each. *)
Fixpoint layout (base : Z) (t : tree) : list (NodeType * string) * list (list Z) :=
  match t with
  | TNode type desc kids =>
      let '(bases, ns, cs) :=
        (fix layouts (base : Z) (ts : list tree) : list Z * list (NodeType * string) * list (list Z) :=
           match ts with
           | [] => ([], [], [])
           | t :: ts =>
               let '(n, c) := layout base t in
               let '(bases, ns, cs) := layouts (base + vec_size n) ts in
               (base :: bases, n ++ ns, c ++ cs)
           end) (base + 1) kids in
      ((type, desc) :: ns, bases :: cs)
  end.

(** The same for trees next to each other, with the indices of their roots. *)
Fixpoint layouts (base : Z) (ts : list tree) : list Z * list (NodeType * string) * list (list Z) :=
  match ts with
  | [] => ([], [], [])
  | t :: ts =>
      let '(n, c) := layout base t in
      let '(bases, ns, cs) := layouts (base + vec_size n) ts in
      (base :: bases, n ++ ns, c ++ cs)
  end.

Lemma layout_eq base type desc kids :
  layout base (TNode type desc kids) =
    let '(bases, ns, cs) := layouts (base + 1) kids in ((type, desc) :: ns, bases :: cs).
Proof. reflexivity. Qed.

Lemma layouts_app base ts ts' :
  layouts base (ts ++ ts') =
    let '(bases, ns, cs) := layouts base ts in
    let '(bases', ns', cs') := layouts (base + vec_size ns) ts' in
    (bases ++ bases', ns ++ ns', cs ++ cs').
Proof.
  revert base. induction ts as [|t ts IH]; intros base; cbn [app layouts].
  { rewrite Z.add_0_r. by destruct (layouts base ts') as [[bases' ns'] cs']. }
  destruct (layout base t) as [n c]. rewrite IH.
  destruct (layouts (base + vec_size n) ts) as [[bases ns] cs].
  replace (base + vec_size (n ++ ns)) with (base + vec_size n + vec_size ns)
    by (unfold vec_size; rewrite length_app; lia).
  destruct (layouts (base + vec_size n + vec_size ns) ts') as [[bases' ns'] cs']. by rewrite !app_assoc.
Qed.

Section TreeInd.
Context (P : tree -> Prop) (Hnode : forall type desc kids, Forall P kids -> P (TNode type desc kids)).

Fixpoint tree_ind' (t : tree) : P t :=
  match t with
  | TNode type desc kids =>
      Hnode type desc kids
        ((fix all (ts : list tree) : Forall P ts :=
            match ts with
            | [] => @List.Forall_nil tree P
            | t :: ts => @List.Forall_cons tree P t ts (tree_ind' t) (all ts)
            end) kids)
  end.
End TreeInd.

Lemma layout_lengths t : forall base, length (snd (layout base t)) = length (fst (layout base t)).
Proof.
  induction t as [type desc kids IH] using tree_ind'. intros base. rewrite layout_eq.
  assert (forall b, let '(bases, ns, cs) := layouts b kids in length cs = length ns) as H.
  { clear base. induction kids as [|t kids IHk]; intros b; cbn [layouts]; [done|].
    apply Forall_cons in IH as [Ht Hk]. specialize (Ht b). destruct (layout b t) as [n c]. cbn in Ht.
    specialize (IHk Hk (b + vec_size n)). destruct (layouts (b + vec_size n) kids) as [[bs ns] cs].
    rewrite !length_app. lia. }
  specialize (H (base + 1)). destruct (layouts (base + 1) kids) as [[bs ns] cs]. cbn. lia.
Qed.

Lemma layouts_lengths base ts : let '(bases, ns, cs) := layouts base ts in length cs = length ns.
Proof.
  revert base. induction ts as [|t ts IH]; intros base; cbn [layouts]; [done|].
  pose proof (layout_lengths t base) as Ht. destruct (layout base t) as [n c]. cbn in Ht.
  specialize (IH (base + vec_size n)). destruct (layouts (base + vec_size n) ts) as [[bs ns] cs].
  rewrite !length_app. lia.
Qed.

(** ** Adding trees below a node

    The nodes and the children lists of the creator; [o] is the index of its first
    node. *)
Definition arrays : Type := list (NodeType * string) * list (list Z).

Definition emit (o p : Z) (ts : list tree) (st : arrays) : arrays :=
  let '(ns, cs) := st in
  let '(bases, ns', cs') := layouts (o + vec_size ns) ts in
  (ns ++ ns', alter (fun l => l ++ bases) (Z.to_nat (p - o)) cs ++ cs').

Definition arrays_ok (st : arrays) : Prop := length (snd st) = length (fst st).
Definition in_arrays (o p : Z) (st : arrays) : Prop := o <= p < o + vec_size (fst st).

Lemma alter_app_l {A} (f : A -> A) (l k : list A) i : (i < length l)%nat -> alter f i (l ++ k) = alter f i l ++ k.
Proof.
  revert i. induction l as [|x l IH]; intros [|i]; cbn; intros Hi; try lia; [done|]. f_equal. apply IH. lia.
Qed.

Lemma alter_app_r {A} (f : A -> A) (l k : list A) : alter f (length l) (l ++ k) = l ++ alter f 0%nat k.
Proof. induction l as [|x l IH]; cbn; [by destruct k|]. by f_equal. Qed.

Lemma alter_compose {A} (f g : A -> A) (l : list A) i : alter f i (alter g i l) = alter (fun x => f (g x)) i l.
Proof. revert i. induction l as [|x l IH]; intros [|i]; cbn; try done. by f_equal. Qed.

Lemma alter_same {A} (f g : A -> A) (l : list A) i : (forall x, f x = g x) -> alter f i l = alter g i l.
Proof. intros H. revert i. induction l as [|x l IH]; intros [|i]; cbn; try done; by f_equal. Qed.

Lemma emit_ok o p ts st : arrays_ok st -> arrays_ok (emit o p ts st).
Proof.
  destruct st as [ns cs]. unfold arrays_ok, emit. cbn. intros H.
  pose proof (layouts_lengths (o + vec_size ns) ts) as Hl.
  destruct (layouts (o + vec_size ns) ts) as [[bs ns'] cs']. cbn. rewrite !length_app, length_alter. lia.
Qed.

Lemma emit_in o p ts q st : in_arrays o q st -> in_arrays o q (emit o p ts st).
Proof.
  destruct st as [ns cs]. unfold in_arrays, emit, vec_size. cbn.
  destruct (layouts (o + Z.of_nat (length ns)) ts) as [[bs ns'] cs']. cbn. rewrite length_app. lia.
Qed.

Lemma emit_nil o p st : emit o p [] st = st.
Proof.
  destruct st as [ns cs]. cbn. rewrite !app_nil_r. f_equal.
  rewrite (alter_same _ (fun l => l)) by apply app_nil_r.
  generalize (Z.to_nat (p - o)). clear. induction cs as [|x cs IH]; intros [|i]; cbn; try done. by f_equal.
Qed.

Lemma emit_app o p ts ts' st : arrays_ok st -> in_arrays o p st ->
  emit o p ts' (emit o p ts st) = emit o p (ts ++ ts') st.
Proof.
  destruct st as [ns cs]. unfold emit, arrays_ok, in_arrays, vec_size. cbn. intros Hok Hin.
  rewrite layouts_app. unfold vec_size.
  destruct (layouts (o + Z.of_nat (length ns)) ts) as [[bs1 ns1] cs1].
  rewrite length_app, Nat2Z.inj_add, Z.add_assoc.
  destruct (layouts _ ts') as [[bs2 ns2] cs2].
  rewrite alter_app_l by (rewrite length_alter; lia). rewrite alter_compose, <- !app_assoc.
  f_equal. f_equal. apply alter_same. intros x. by rewrite app_assoc.
Qed.

(** More children of the node that was added last. *)
Lemma emit_below o p type desc kids kids' st : arrays_ok st -> in_arrays o p st ->
  emit o (o + vec_size (fst st)) kids' (emit o p [TNode type desc kids] st)
    = emit o p [TNode type desc (kids ++ kids')] st.
Proof.
  destruct st as [ns cs]. unfold emit, arrays_ok, in_arrays, vec_size. cbn [fst snd layouts].
  intros Hok Hin. rewrite !layout_eq, layouts_app. unfold vec_size.
  destruct (layouts (o + Z.of_nat (length ns) + 1) kids) as [[bs1 ns1] cs1]. rewrite !app_nil_r.
  rewrite length_app. cbn [length].
  replace (o + Z.of_nat (length ns + S (length ns1))) with (o + Z.of_nat (length ns) + 1 + Z.of_nat (length ns1)) by lia.
  destruct (layouts _ kids') as [[bs2 ns2] cs2]. rewrite !app_nil_r.
  replace (Z.to_nat (o + Z.of_nat (length ns) - o)) with (length (alter (fun l => l ++ [o + Z.of_nat (length ns)]) (Z.to_nat (p - o)) cs))
    by (rewrite length_alter; lia).
  rewrite alter_app_r. cbn. rewrite <- !app_assoc. done.
Qed.

(** ** What the creator's state shows

    [st] are the nodes that this creator has added and their children; in a mixed
    hierarchy there are [o] others in front of them. *)
Record shows (o : Z) (g : GfxrCreator) (st : arrays) : Prop := {
  sh_types : exists pre, m_node_type (m_nodes (g_command_hierarchy g)) = pre ++ (fst st).*1 /\ vec_size pre = o;
  sh_descs : exists pre, m_description (m_nodes (g_command_hierarchy g)) = pre ++ (fst st).*2 /\ vec_size pre = o;
  sh_aux : nodes_aligned (m_nodes (g_command_hierarchy g));
  sh_children : all_event_children g = snd st;
  sh_ok : arrays_ok st;
  sh_alone : g_used_in_mixed_command_hierarchy g = false -> o = 0;
  sh_map : g_used_in_mixed_command_hierarchy g = true -> forall p,
    g_dive_indices_to_local_indices_map g !! p
      = if decide (o <= p < o + vec_size (fst st)) then Some (p - o) else None
}.

(** What adding nodes leaves as it is. *)
Record same_parse (g g' : GfxrCreator) : Prop := {
  same_submit : g_cur_submit_node_index g' = g_cur_submit_node_index g;
  same_buffer : g_cur_command_buffer_node_index g' = g_cur_command_buffer_node_index g;
  same_stack : g_cur_parent_node_index_stack g' = g_cur_parent_node_index_stack g;
  same_mixed : g_used_in_mixed_command_hierarchy g' = g_used_in_mixed_command_hierarchy g;
  same_submit_children : at_submit (g_node_children g') = at_submit (g_node_children g);
  same_topologies : m_topology (g_command_hierarchy g') = m_topology (g_command_hierarchy g);
  same_exclude : m_filter_exclude_indices_list (g_command_hierarchy g')
    = m_filter_exclude_indices_list (g_command_hierarchy g);
  same_events : m_event_node_indices (m_nodes (g_command_hierarchy g'))
    = m_event_node_indices (m_nodes (g_command_hierarchy g))
}.

Lemma same_parse_refl g : same_parse g g.
Proof. by split. Qed.

Lemma same_parse_trans g1 g2 g3 : same_parse g1 g2 -> same_parse g2 g3 -> same_parse g1 g3.
Proof. intros [] []. split; congruence. Qed.

Lemma AddNode_shows o g st type desc : shows o g st ->
  exists g', Gfxr_AddNode type desc g = Done (Gives (o + vec_size (fst st), g')) /\
    shows o g' (fst st ++ [(type, desc)], snd st ++ [[]]) /\ same_parse g g'.
Proof.
  intros [(pre & Et & Ep) (pre' & Ed & Ep') [Ha1 Ha2] Hc Hok Halone Hmap]. eexists. split; [|split].
  - unfold Gfxr_AddNode. cbn. apply (f_equal (fun i => Done (Gives (i, _)))).
    rewrite Et. unfold vec_size. rewrite length_app, length_fmap. fold (vec_size pre). unfold vec_size in *. lia.
  - destruct st as [ns cs]. unfold arrays_ok in *. cbn [fst snd] in *.
    split; cbn [fst snd]; rewrite ?fmap_app.
    + exists pre. destruct (g_used_in_mixed_command_hierarchy g); cbn; rewrite Et, <- app_assoc; done.
    + exists pre'. destruct (g_used_in_mixed_command_hierarchy g); cbn; rewrite Ed, <- app_assoc; done.
    + unfold nodes_aligned. destruct (g_used_in_mixed_command_hierarchy g); cbn; rewrite !length_app, Ha1, Ha2; done.
    + unfold all_event_children, of_type in *. destruct (g_used_in_mixed_command_hierarchy g); cbn; by rewrite <- Hc.
    + unfold arrays_ok. cbn. rewrite !length_app, Hok. done.
    + destruct (g_used_in_mixed_command_hierarchy g) eqn:E; cbn; rewrite ?E; auto.
    + destruct (g_used_in_mixed_command_hierarchy g) eqn:E; cbn; rewrite ?E; [|done]. intros _ p.
      assert (vec_size (all_event_children g) = vec_size ns) as Ec by (unfold vec_size; by rewrite Hc, Hok).
      cbn in Ec. rewrite Ec. unfold vec_size in *. rewrite length_app. cbn [length].
      assert (Z.of_nat (length (m_node_type (m_nodes (g_command_hierarchy g)))) = o + Z.of_nat (length ns)) as El
        by (rewrite Et, length_app, length_fmap; lia).
      rewrite El. destruct (decide (p = o + Z.of_nat (length ns))) as [->|Hp].
      * rewrite lookup_insert_eq, decide_True by lia. f_equal. lia.
      * rewrite lookup_insert_ne, (Hmap eq_refl) by done. repeat case_decide; lia || done.
  - split; destruct (g_used_in_mixed_command_hierarchy g) eqn:E; cbn; done.
Qed.

Lemma AddChild_shows o g ns cs p c : shows o g (ns, cs) -> in_arrays o p (ns, cs) ->
  exists g', Gfxr_AddChild kAllEventTopology p c g = Done (Gives ((), g')) /\
    shows o g' (ns, alter (fun l => l ++ [c]) (Z.to_nat (p - o)) cs) /\ same_parse g g'.
Proof.
  intros [Ht Hd Ha Hc Hok Halone Hmap] Hin. unfold in_arrays, arrays_ok in *. cbn [fst snd] in *.
  assert (local_index p g = p - o) as El.
  { unfold local_index. destruct (g_used_in_mixed_command_hierarchy g).
    - by rewrite Hmap, decide_True.
    - rewrite Halone by done. lia. }
  unfold all_event_children in Hc. cbn [of_type] in Hc. eexists. split; [|split].
  - unfold Gfxr_AddChild, mbind, Gfxr_bind, g_get, g_check, g_modify. rewrite El.
    cbn [of_type]. rewrite Hc, vec_push_spec; [cbn; reflexivity|]. unfold vec_size in *. lia.
  - split; cbn [fst snd]; try done. unfold arrays_ok. cbn. by rewrite length_alter.
  - by split.
Qed.

(** [m] adds the trees [ts] below [p], and changes nothing else. *)
Definition emits {A} (o p : Z) (ts : list tree) (m : Gfxr A) : Prop :=
  forall g st, shows o g st -> in_arrays o p st ->
  exists a g', m g = Done (Gives (a, g')) /\ shows o g' (emit o p ts st) /\ same_parse g g'.

Lemma emits_ret {A} o p (a : A) : emits o p [] (mret a).
Proof. intros g st Hg _. exists a, g. rewrite emit_nil. split; [done|]. split; [done|apply same_parse_refl]. Qed.

Lemma emits_bind {A B} o p ts ts' (m : Gfxr A) (k : A -> Gfxr B) :
  emits o p ts m -> (forall a, emits o p ts' (k a)) -> emits o p (ts ++ ts') (m ≫= k).
Proof.
  intros Hm Hk g st Hg Hin. destruct (Hm g st Hg Hin) as (a & g1 & E & Hg1 & Hs1).
  destruct (Hk a g1 _ Hg1 (emit_in _ _ _ _ _ Hin)) as (b & g2 & E2 & Hg2 & Hs2).
  exists b, g2. split; [unfold mbind, Gfxr_bind; by rewrite E|].
  rewrite emit_app in Hg2 by (done || apply (sh_ok _ _ _ Hg)). split; [done|by eapply same_parse_trans].
Qed.

Lemma emits_seq {A B} o p ts ts' (m : Gfxr A) (k : Gfxr B) :
  emits o p ts m -> emits o p ts' k -> emits o p (ts ++ ts') (m ;; k).
Proof. intros Hm Hk. by apply emits_bind. Qed.

Lemma emits_then {A B} o p ts (m : Gfxr A) (b : B) : emits o p ts m -> emits o p ts (m ;; mret b).
Proof. intros Hm. rewrite <- (app_nil_r ts). apply emits_seq; [done|apply emits_ret]. Qed.

(** The state after a node without children has been added below [p]. *)
Lemma emit_node o p type desc ns cs :
  emit o p [TNode type desc []] (ns, cs)
    = (ns ++ [(type, desc)], alter (fun l => l ++ [o + vec_size ns]) (Z.to_nat (p - o)) cs ++ [[]]).
Proof. reflexivity. Qed.

Lemma add_arg_emits {A} o p desc kids (k : Z -> Gfxr A) :
  (forall i, emits o i kids (k i)) ->
  emits o p [TNode kGfxrVulkanCommandArgNode desc kids] (i ← add_arg p desc; k i).
Proof.
  intros Hk g [ns cs] Hg Hin. pose proof (sh_ok _ _ _ Hg) as Hok.
  destruct (AddNode_shows o g _ kGfxrVulkanCommandArgNode desc Hg) as (g1 & E1 & Hg1 & Hs1). cbn [fst snd] in *.
  assert (in_arrays o p (ns ++ [(kGfxrVulkanCommandArgNode, desc)], cs ++ [[]])) as Hin1
    by (unfold in_arrays, vec_size in *; cbn in *; rewrite length_app; lia).
  destruct (AddChild_shows o g1 _ _ p (o + vec_size ns) Hg1 Hin1) as (g2 & E2 & Hg2 & Hs2).
  rewrite alter_app_l in Hg2 by (unfold in_arrays, arrays_ok, vec_size in *; cbn in *; lia).
  rewrite <- emit_node in Hg2.
  destruct (Hk (o + vec_size ns) g2 _ Hg2) as (a & g3 & E3 & Hg3 & Hs3).
  { unfold in_arrays, emit, vec_size. cbn. rewrite length_app. cbn. lia. }
  exists a, g3. split.
  - unfold add_arg, mbind, Gfxr_bind. rewrite E1, E2. exact E3.
  - pose proof (emit_below o p kGfxrVulkanCommandArgNode desc [] kids (ns, cs) Hok Hin) as E.
    cbn [fst app] in E. rewrite E in Hg3. split; [done|].
    eapply same_parse_trans; [exact Hs1|]. by eapply same_parse_trans.
Qed.

Lemma for_each_emits {A} o p (f : nat -> A -> list tree) (body : nat -> A -> Gfxr ()) l n :
  (forall i x, x ∈ l -> emits o p (f i x) (body i x)) ->
  emits o p (concat (imap (fun i => f (n + i)%nat) l)) (for_each n l body).
Proof.
  revert n. induction l as [|x l IH]; intros n Hb; cbn [for_each imap concat]; [apply emits_ret|].
  rewrite Nat.add_0_r. apply emits_seq; [apply Hb; by left|].
  rewrite (imap_ext _ (fun i => f (S n + i)%nat)) by (intros i y _; cbn; f_equal; lia).
  apply IH. intros i y Hy. apply Hb. by right.
Qed.

Lemma for_each_emits_0 {A} o p (f : nat -> A -> list tree) (body : nat -> A -> Gfxr ()) l :
  (forall i x, x ∈ l -> emits o p (f i x) (body i x)) ->
  emits o p (concat (imap f l)) (for_each 0 l body).
Proof. apply (for_each_emits o p f body l 0). Qed.

(** ** The trees of a capture *)

Section Trees.
Context {J : Type} `{JsonLaws J}.

Definition arg_leaf (desc : string) : tree := TNode kGfxrVulkanCommandArgNode desc [].

(** The nodes below a command for its arguments. *)
Fixpoint arg_trees (fuel : nat) (v : J) : list tree :=
  match fuel with
  | O => []
  | S fuel =>
      match json_view v with
      | JObject items =>
          (fun '(key, val) =>
             match json_view val with
             | JObject _ => TNode kGfxrVulkanCommandArgNode (c_str key) (arg_trees fuel val)
             | JArray elements =>
                 TNode kGfxrVulkanCommandArgNode (c_str key)
                   (concat (imap (fun i element =>
                      match json_view element with
                      | JObject _ => arg_trees fuel element
                      | JArray _ => [TNode kGfxrVulkanCommandArgNode ("element_" +:+ pretty i) (arg_trees fuel element)]
                      | _ => [arg_leaf (json_dump element)]
                      end) elements))
             | _ => arg_leaf (key +:+ ":" +:+ json_dump val)
             end) <$> items
      | JArray elements =>
          concat ((fun element =>
            match json_view element with
            | JObject _ | JArray _ => arg_trees fuel element
            | _ => [arg_leaf (json_dump element)]
            end) <$> elements)
      | _ => []
      end
  end.

(** *** The texts of commands *)

(** A value, and that of a member, zero without one. *)
Definition shown (v : J) : string := match json_view v with JString s => s | _ => json_dump v end.
Definition value_of (key : string) (v : J) : string :=
  match json_member key v with Some x => shown x | None => "0" end.
Definition has (key : string) (v : J) : Prop := is_Some (json_member key v).

(** Names with their values. *)
Definition pairs_text (separator : string) (pairs : list (string * string)) : string :=
  "(" +:+ String.concat ", " ((fun p => p.1 +:+ separator +:+ p.2) <$> pairs) +:+ ")".

(** A count, and the number of instances if it is not one. *)
Definition count_text (key : string) (args : J) : string :=
  if decide (has key args) then
    pairs_text ": "
      ((key, value_of key args) ::
       (if decide (has "instanceCount" args /\ value_of "instanceCount" args <> "1")
        then [("instanceCount", value_of "instanceCount" args)] else []))
  else "".

(** An enumerator without the prefix of its type. *)
Definition enum_text (key prefix : string) (args : J) : string :=
  if decide (has key args) then
    let s := value_of key args in
    "(" +:+ match String.index 0 prefix s with
            | Some n => String.substring 0 n s +:+ String.substring (n + String.length prefix) (String.length s) s
            | None => s
            end +:+ ")"
  else "".

(** The members [keys], under the names with them. *)
Definition range_text (keys : list (string * string)) (args : J) : string :=
  if decide (Forall (fun k => has k.2 args) keys)
  then pairs_text ": " ((fun k => (k.1, value_of k.2 args)) <$> keys) else "".

Definition first_element (key : string) (args : J) : option J :=
  x ← json_member key args; match json_view x with JArray (e :: _) => Some e | _ => None end.

Definition viewport_text (args : J) : string :=
  match first_element "pViewports" args with
  | Some vp => pairs_text ":" ((fun k => (k, value_of k vp)) <$> ["x"; "y"; "width"; "height"])
  | None => ""
  end.

Definition scissor_text (args : J) : string :=
  match sc ← first_element "pScissors" args; o ← json_member "offset" sc; e ← json_member "extent" sc; Some (o, e) with
  | Some (o, e) => pairs_text ":" [("x", value_of "x" o); ("y", value_of "y" o);
                                   ("width", value_of "width" e); ("height", value_of "height" e)]
  | None => ""
  end.

Definition dispatch_text (args : J) : string :=
  if decide (has "groupCountX" args)
  then pairs_text ":" [("x", value_of "groupCountX" args); ("y", value_of "groupCountY" args);
                       ("z", value_of "groupCountZ" args)] else "".

Definition indirect_text (args : J) : string :=
  if decide (has "drawCount" args /\ value_of "drawCount" args <> "1")
  then pairs_text ": " [("drawCount", value_of "drawCount" args)] else "".

(** The commands that are shown with a summary of their arguments. *)
Definition summaries : list (string * (J -> string)) :=
  [("vkCmdDraw", count_text "vertexCount"); ("vkCmdDrawIndexed", count_text "indexCount");
   ("vkCmdDrawMultiEXT", count_text "drawCount"); ("vkCmdDrawMultiIndexedEXT", count_text "drawCount");
   ("vkCmdDrawIndirect", indirect_text); ("vkCmdDrawIndexedIndirect", indirect_text);
   ("vkCmdDispatch", dispatch_text);
   ("vkCmdSetViewport", viewport_text); ("vkCmdSetScissor", scissor_text);
   ("vkCmdBindPipeline", enum_text "pipelineBindPoint" "VK_PIPELINE_BIND_POINT_");
   ("vkCmdBindIndexBuffer", enum_text "indexType" "VK_INDEX_TYPE_");
   ("vkCmdBindDescriptorSets", range_text [("firstSet", "firstSet"); ("setCount", "descriptorSetCount")]);
   ("vkCmdBindVertexBuffers", range_text [("firstBinding", "firstBinding"); ("bindingCount", "bindingCount")])].

Definition summary_text (name : string) (args : J) : string :=
  match List.find (fun s => bool_decide (s.1 = name)) summaries with Some s => s.2 args | None => "" end.

Definition counted (desc : string) (n : Z) : string := desc +:+ ", Draw Call Count: " +:+ pretty n.

(** The name of a debug label. *)
Definition command_label (args : J) : option string :=
  info ← json_member "pLabelInfo" args; name ← json_member "pLabelName" info;
  match json_view name with JString s => Some s | _ => None end.

(** Commands with a type of node of their own, by a part of their name. *)
Definition node_types : list (string * NodeType) :=
  [("vkCmdCopyBuffer", kGfxrVulkanCopyBufferCommandNode);
   ("vkCmdClearAttachments", kGfxrVulkanClearAttachmentsCommandNode);
   ("vkCmdClearColorImage", kGfxrVulkanClearColorImageCommandNode);
   ("vkCmdClearDepthStencilImage", kGfxrVulkanClearDepthStencilImageCommandNode);
   ("vkCmdResolveImage", kGfxrVulkanResolveImageCommandNode)].

Definition node_type_of (name : string) : NodeType :=
  match List.find (fun t => string_contains t.1 name) node_types with
  | Some t => t.2
  | None => kGfxrVulkanCommandNode
  end.

Inductive command_class :=
  | CBeginBuffer | CEndBuffer | CBeginLabel | CEndLabel | CDraw | CBeginPass | CEndPass | CPlain.

(** What [OnCommand] takes a command for. *)
Definition class_of (name : string) : command_class :=
  if decide (name = "vkBeginCommandBuffer") then CBeginBuffer
  else if decide (name = "vkEndCommandBuffer") then CEndBuffer
  else if string_contains "BeginDebugUtilsLabelEXT" name then CBeginLabel
  else if string_contains "EndDebugUtilsLabelEXT" name then CEndLabel
  else if string_contains "vkCmdDraw" name || string_contains "vkCmdDispatch" name then CDraw
  else if string_contains "vkCmdBeginRenderPass" name then CBeginPass
  else if string_contains "vkCmdEndRenderPass" name then CEndPass
  else CPlain.

Definition command_type (name : string) : NodeType :=
  match class_of name with
  | CDraw => kGfxrVulkanDrawCommandNode
  | CEndPass => kGfxrVulkanEndRenderPassCommandNode
  | CEndBuffer => kGfxrVulkanEndCommandBufferNode
  | _ => node_type_of name
  end.

Definition command_desc (c : VulkanCommandInfo J) : string := cmd_name c +:+ summary_text (cmd_name c) (cmd_args c).

Definition command_tree (fuel : nat) (c : VulkanCommandInfo J) : tree :=
  TNode (command_type (cmd_name c)) (command_desc c) (arg_trees fuel (cmd_args c)).

(** Commands whose labels and render passes are nested. *)
Inductive item :=
  | Command (c : VulkanCommandInfo J)
  | Label (begin : VulkanCommandInfo J) (body : list item) (ending : VulkanCommandInfo J)
  | Pass (begin : VulkanCommandInfo J) (body : list item) (ending : VulkanCommandInfo J).

Fixpoint commands_in (it : item) : list (VulkanCommandInfo J) :=
  match it with
  | Command c => [c]
  | Label b body e | Pass b body e =>
      b :: (fix all (items : list item) := match items with [] => [] | it :: items => commands_in it ++ all items end) body
        ++ [e]
  end.

Definition args_fit (fuel : nat) (c : VulkanCommandInfo J) : Prop := (json_depth (cmd_args c) < fuel)%nat.

Inductive item_ok (fuel : nat) : item -> Prop :=
  | Command_ok c :
      class_of (cmd_name c) = CDraw \/ class_of (cmd_name c) = CPlain -> args_fit fuel c -> item_ok fuel (Command c)
  | Label_ok b body e label :
      class_of (cmd_name b) = CBeginLabel -> class_of (cmd_name e) = CEndLabel -> command_label (cmd_args b) = Some label ->
      args_fit fuel b -> Forall (item_ok fuel) body -> item_ok fuel (Label b body e)
  | Pass_ok b body e :
      class_of (cmd_name b) = CBeginPass -> class_of (cmd_name e) = CEndPass ->
      args_fit fuel b -> args_fit fuel e -> Forall (item_ok fuel) body -> item_ok fuel (Pass b body e).

(** The characters before the first null. *)
Definition label_text (args : J) : string := match command_label args with Some l => c_str l | None => "" end.

Section ItemTrees.
Context (fuel : nat) (total : Z).

(** The tree of an item, and the counts that are left for the render passes after
    it; [total] is shown when there are none left. *)
Fixpoint item_tree (counts : list Z) (it : item) : tree * list Z :=
  let body_trees :=
    fix body_trees (counts : list Z) (items : list item) : list tree * list Z :=
      match items with
      | [] => ([], counts)
      | it :: items =>
          let '(t, counts) := item_tree counts it in
          let '(ts, counts) := body_trees counts items in
          (t :: ts, counts)
      end in
  match it with
  | Command c => (command_tree fuel c, counts)
  | Label b body e =>
      let '(ts, counts') := body_trees counts body in
      (TNode kGfxrBeginDebugUtilsLabelCommandNode (label_text (cmd_args b)) (arg_trees fuel (cmd_args b) ++ ts), counts')
  | Pass b body e =>
      let '(ts, counts') := body_trees (tail counts) body in
      (TNode kGfxrVulkanBeginRenderPassCommandNode (counted (command_desc b) (hd total counts))
         (arg_trees fuel (cmd_args b) ++ ts ++ [command_tree fuel e]), counts')
  end.

Fixpoint item_trees (counts : list Z) (items : list item) : list tree * list Z :=
  match items with
  | [] => ([], counts)
  | it :: items =>
      let '(t, counts) := item_tree counts it in
      let '(ts, counts) := item_trees counts items in
      (t :: ts, counts)
  end.
End ItemTrees.

(** A recorded command buffer. *)
Record recorded := mkRecorded {
  rec_begin : VulkanCommandInfo J;
  rec_items : list item;
  rec_end : VulkanCommandInfo J
}.

Definition recorded_commands (r : recorded) : list (VulkanCommandInfo J) :=
  rec_begin r :: concat (commands_in <$> rec_items r) ++ [rec_end r].

Record recorded_ok (fuel : nat) (r : recorded) : Prop := {
  begin_ok : class_of (cmd_name (rec_begin r)) = CBeginBuffer;
  end_ok : class_of (cmd_name (rec_end r)) = CEndBuffer;
  items_ok : Forall (item_ok fuel) (rec_items r);
  begin_fits : args_fit fuel (rec_begin r);
  end_fits : args_fit fuel (rec_end r)
}.

Definition recorded_tree (fuel : nat) (counts : DrawCallCounts) (r : recorded) : tree :=
  let total := begin_command_buffer_draw_call_count counts in
  TNode kGfxrVulkanBeginCommandBufferNode (counted (command_desc (rec_begin r)) total)
    (arg_trees fuel (cmd_args (rec_begin r)) ++
     fst (item_trees fuel total (render_pass_draw_call_counts counts) (rec_items r)) ++ [command_tree fuel (rec_end r)]).

(** A submit's function, number and how many command buffers it has. *)
Definition submit_text (submit_index : nat) (submit_info : GfxrSubmitInfo J) : string :=
  submit_name submit_info +:+ ": " +:+ pretty submit_index +:+ ", Command Buffer Count: "
  +:+ pretty (length (vk_command_buffer_handles submit_info)).

Definition submit_tree (fuel submit_index : nat) (submit_info : GfxrSubmitInfo J)
    (buffers : list (DrawCallCounts * recorded)) : tree :=
  TNode kGfxrVulkanSubmitNode (submit_text submit_index submit_info) ((fun '(c, r) => recorded_tree fuel c r) <$> buffers).

(** What a capture has for its submits: their command buffers, with the counts. *)
Definition buffers_of (capture_data : GfxrCommands J) (recs : gmap Z recorded) (submit_info : GfxrSubmitInfo J)
  : list (DrawCallCounts * recorded) :=
  omap (fun handle => c ← m_gfxr_draw_call_counts capture_data !! handle; r ← recs !! handle; Some (c, r))
    (vk_command_buffer_handles submit_info).

Definition frame_tree : tree := TNode kGfxrRootFrameNode "Frame" [].

Definition submit_trees (fuel : nat) (capture_data : GfxrCommands J) (recs : gmap Z recorded) : list tree :=
  imap (fun i s => submit_tree fuel i s (buffers_of capture_data recs s)) (GetGfxrSubmits capture_data).

Definition capture_tree (fuel : nat) (capture_data : GfxrCommands J) (recs : gmap Z recorded) : tree :=
  TNode kRootNode "" (frame_tree :: submit_trees fuel capture_data recs).

(** The command buffers of the submits are recorded, nested, and there are no
    commands outside of command buffers. *)
Record capture_ok (fuel : nat) (capture_data : GfxrCommands J) (recs : gmap Z recorded) : Prop := {
  submitted s handle : s ∈ GetGfxrSubmits capture_data -> handle ∈ vk_command_buffer_handles s ->
    exists c r, m_gfxr_draw_call_counts capture_data !! handle = Some c /\ recs !! handle = Some r /\
      recorded_ok fuel r /\ m_gfxr_command_buffers capture_data !! handle = Some (recorded_commands r);
  no_loose_commands s : s ∈ GetGfxrSubmits capture_data -> none_cmd_vk_commands s = []
}.
End Trees.

Arguments item J : clear implicits.
Arguments recorded J : clear implicits.

(** ** The operations add these trees *)

Section Adding.
Context {J : Type} `{JsonLaws J}.

Lemma concat_imap_const {A B} (f : A -> list B) (l : list A) : concat (imap (fun _ => f) l) = concat (f <$> l).
Proof.
  assert (forall (g : nat -> A -> list B), (forall i x, g i x = f x) -> concat (imap g l) = concat (f <$> l)) as Hg.
  { induction l as [|x l IH]; intros g E; [done|]. cbn. rewrite E. f_equal. apply IH. intros. apply E. }
  by apply Hg.
Qed.

Lemma concat_singletons {A B} (f : A -> B) (l : list A) : concat ((fun x => [f x]) <$> l) = f <$> l.
Proof. induction l as [|x l IH]; [done|]. cbn. by f_equal. Qed.

Lemma arg_leaf_emits o p desc : emits o p [arg_leaf desc] (add_arg p desc ;; mret ()).
Proof. apply (add_arg_emits o p desc [] (fun _ => mret ())). intros i. apply emits_ret. Qed.

Lemma GetArgs_emits fuel : forall o p (v : J), (json_depth v < fuel)%nat -> emits o p (arg_trees fuel v) (GetArgs fuel v p).
Proof.
  induction fuel as [|fuel IH]; intros o p v Hd; [lia|]. cbn [arg_trees GetArgs].
  destruct (json_view v) as [items|elements|s| |] eqn:Ev; try apply emits_ret.
  - rewrite <- concat_singletons, <- concat_imap_const.
    apply for_each_emits_0. intros _ [key val] Hin.
    pose proof (json_depth_object v items key val Ev Hin) as Hval.
    destruct (json_view val) as [items'|elements|s| |] eqn:Ex; try apply arg_leaf_emits.
    + apply add_arg_emits. intros i. apply IH. lia.
    + apply add_arg_emits. intros i.
      apply for_each_emits_0. intros k element Hel.
      pose proof (json_depth_array val elements element Ex Hel).
      destruct (json_view element); try apply arg_leaf_emits.
      * apply IH. lia.
      * apply add_arg_emits. intros j. apply IH. lia.
  - rewrite <- concat_imap_const. apply for_each_emits_0. intros _ element Hel.
    pose proof (json_depth_array v elements element Ev Hel).
    unfold is_container, is_object, is_array.
    destruct (json_view element); cbn [orb]; (apply IH; lia) || apply arg_leaf_emits.
Qed.

(** A node's children can be added before it is linked to its parent. *)
Lemma emit_late_link o p type desc kids ns cs ns2 cs2 : arrays_ok (ns, cs) -> in_arrays o p (ns, cs) ->
  emit o (o + vec_size ns) kids (ns ++ [(type, desc)], cs ++ [[]]) = (ns2, cs2) ->
  in_arrays o p (ns2, cs2) /\
  emit o p [TNode type desc kids] (ns, cs)
    = (ns2, alter (fun l => l ++ [o + vec_size ns]) (Z.to_nat (p - o)) cs2).
Proof.
  intros Hok Hin E. split.
  { rewrite <- E. apply emit_in. unfold in_arrays, vec_size in *. cbn in *. rewrite length_app. lia. }
  unfold in_arrays, arrays_ok, vec_size in *. cbn [fst snd] in *.
  unfold emit, vec_size in E |- *. cbn [layouts]. rewrite layout_eq. rewrite length_app in E. cbn [length] in E.
  replace (o + Z.of_nat (length ns + 1)) with (o + Z.of_nat (length ns) + 1) in E by lia.
  destruct (layouts (o + Z.of_nat (length ns) + 1) kids) as [[bs ns'] cs'].
  rewrite !app_nil_r. injection E as <- <-.
  replace (Z.to_nat (o + Z.of_nat (length ns) - o)) with (length cs) by lia.
  rewrite alter_app_r, <- !app_assoc. cbn. f_equal. by rewrite alter_app_l by lia.
Qed.

(** *** The texts are those of the creator *)

Lemma GetValueStr_value (v : J) key : GetValueStr v key = value_of key v.
Proof.
  unfold GetValueStr, value_of, shown. rewrite member_find. by destruct (json_view v).
Qed.

Lemma contains_has key (v : J) : json_contains key v = bool_decide (has key v).
Proof. apply json_contains_member. Qed.

Lemma draw_summary_text (args : J) key : AppendDrawCallSummary args key = count_text key args.
Proof.
  unfold AppendDrawCallSummary, count_text, pairs_text. rewrite !contains_has, !GetValueStr_value.
  repeat (case_bool_decide || case_decide); try tauto; cbn; by rewrite !string_app_assoc.
Qed.

Lemma enum_summary_text (args : J) key prefix : AppendEnumSummary args key prefix = enum_text key prefix args.
Proof.
  unfold AppendEnumSummary, enum_text, erase_part. rewrite contains_has, GetValueStr_value.
  by repeat (case_bool_decide || case_decide).
Qed.

Lemma range_summary_text (args : J) k1 k2 l1 l2 :
  range_summary args k1 k2 l1 l2 = range_text [(l1, k1); (l2, k2)] args.
Proof.
  unfold range_summary, range_text, pairs_text. rewrite !contains_has, !GetValueStr_value.
  case_decide as Hall; rewrite !Forall_cons in Hall; cbn [snd] in Hall.
  - rewrite !bool_decide_true by tauto. cbn. by rewrite !string_app_assoc.
  - repeat case_bool_decide; try done. exfalso. apply Hall. split_and!; [done|done|constructor].
Qed.

Lemma first_of_element (args : J) key : first_of args key = first_element key args.
Proof.
  unfold first_of, first_element. rewrite member_find. destruct (json_view args); try done.
Qed.

Lemma viewport_summary_text (args : J) : viewport_summary args = viewport_text args.
Proof.
  unfold viewport_summary, viewport_text, pairs_text. rewrite first_of_element.
  destruct (first_element _ args); [|done]. rewrite !GetValueStr_value. cbn. by rewrite !string_app_assoc.
Qed.

Lemma member_json_member (v : J) key : member v key = json_member key v.
Proof. by rewrite member_find. Qed.

Lemma scissor_summary_text (args : J) : scissor_summary args = scissor_text args.
Proof.
  unfold scissor_summary, scissor_text, pairs_text. rewrite first_of_element.
  destruct (first_element _ args) as [sc|]; [|done]. cbn [mbind option_bind]. rewrite !member_json_member.
  destruct (json_member "offset" sc); [|done]. cbn [mbind option_bind].
  destruct (json_member "extent" sc); [|done]. rewrite !GetValueStr_value. cbn. by rewrite !string_app_assoc.
Qed.

Lemma dispatch_summary_text (args : J) : dispatch_summary args = dispatch_text args.
Proof.
  unfold dispatch_summary, dispatch_text, pairs_text. rewrite contains_has, !GetValueStr_value.
  repeat (case_bool_decide || case_decide); try tauto; try done; cbn; by rewrite !string_app_assoc.
Qed.

Lemma indirect_summary_text (args : J) : indirect_summary args = indirect_text args.
Proof.
  unfold indirect_summary, indirect_text, pairs_text. rewrite contains_has, !GetValueStr_value.
  repeat (case_bool_decide || case_decide); try tauto; cbn; by rewrite !string_app_assoc.
Qed.

Lemma GetCommandSummary_text name (args : J) : GetCommandSummary name args = summary_text name args.
Proof.
  unfold GetCommandSummary, summary_text.
  rewrite !draw_summary_text, !enum_summary_text, !range_summary_text, viewport_summary_text, scissor_summary_text,
    dispatch_summary_text, indirect_summary_text.
  repeat (case_decide; [by subst|]). cbn [List.find summaries fst].
  by rewrite !bool_decide_false by (intros E; by symmetry in E).
Qed.

Lemma plain_command_type_of name : plain_command_type name = node_type_of name.
Proof.
  unfold plain_command_type, node_type_of, node_types. cbn [List.find fst].
  by repeat (case_match; [done|]).
Qed.

Lemma label_of_command (args : J) label : command_label args = Some label -> label_of args = Gives label.
Proof.
  unfold command_label, label_of. destruct (json_member "pLabelInfo" args) as [info|] eqn:Ei; [|done].
  cbn [mbind option_bind]. destruct (json_member "pLabelName" info) as [name|] eqn:En; [|done].
  cbn [mbind option_bind]. rewrite (json_at_member _ _ _ Ei). cbn [mbind attempt_bind].
  rewrite (json_at_member _ _ _ En). cbn [mbind attempt_bind]. unfold json_string.
  destruct (json_view name); try done. by intros [= ->].
Qed.

(** *** Commands

    [cb] is the node of the current command buffer and [stk] the stack of open labels
    and render passes. *)
Definition parent_of (cb : Z) (stk : list Z) : Z := match stk with [] => cb | top :: _ => top end.

Definition at_place (cb : Z) (stk : list Z) (g : GfxrCreator) : Prop :=
  g_cur_command_buffer_node_index g = cb /\ g_cur_parent_node_index_stack g = stk.

Lemma same_place cb stk g g' : same_parse g g' -> at_place cb stk g -> at_place cb stk g'.
Proof. intros [] []. split; congruence. Qed.

(** [add_command] adds a tree where commands go, and returns its root. *)
Lemma add_command_spec fuel type desc (args : J) o cb stk g st :
  (json_depth args < fuel)%nat -> shows o g st -> in_arrays o (parent_of cb stk) st -> at_place cb stk g ->
  exists g', add_command fuel type desc args g = Done (Gives (o + vec_size (fst st), g')) /\
    shows o g' (emit o (parent_of cb stk) [TNode type desc (arg_trees fuel args)] st) /\ same_parse g g'.
Proof.
  intros Hd Hg Hin Hp. destruct st as [ns cs]. pose proof (sh_ok _ _ _ Hg) as Hok.
  destruct (AddNode_shows o g _ type desc Hg) as (g1 & E1 & Hg1 & Hs1). cbn [fst snd] in *.
  destruct (GetArgs_emits fuel o (o + vec_size ns) args Hd g1 _ Hg1) as ([] & g2 & E2 & Hg2 & Hs2).
  { unfold in_arrays, vec_size. cbn. rewrite length_app. cbn. lia. }
  pose proof (same_place _ _ _ _ (same_parse_trans _ _ _ Hs1 Hs2) Hp) as [Hcb Hstk].
  destruct (emit o (o + vec_size ns) (arg_trees fuel args) (ns ++ [(type, desc)], cs ++ [[]])) as [ns2 cs2] eqn:E.
  destruct (emit_late_link o (parent_of cb stk) _ _ _ _ _ _ _ Hok Hin E) as [Hin2 Elink].
  destruct (AddChild_shows o g2 ns2 cs2 (parent_of cb stk) (o + vec_size ns) Hg2 Hin2) as (g3 & E3 & Hg3 & Hs3).
  exists g3. split; [|split].
  - unfold add_command, mbind, Gfxr_bind. rewrite E1, E2. unfold ConditionallyAddChild, mbind, Gfxr_bind, g_get.
    rewrite Hstk, Hcb. fold (parent_of cb stk). by rewrite E3.
  - by rewrite Elink.
  - eapply same_parse_trans; [exact Hs1|]. by eapply same_parse_trans.
Qed.

(** [OnCommand] by the class of the command. *)
Lemma OnCommand_class fuel (c : VulkanCommandInfo J) total counts :
  OnCommand fuel c total counts =
    match class_of (cmd_name c) with
    | CBeginBuffer =>
        cmd_buffer_index ← Gfxr_AddNode kGfxrVulkanBeginCommandBufferNode (counted (command_desc c) total);
        g_modify (set_cur_command_buffer cmd_buffer_index) ;;
        GetArgs fuel (cmd_args c) cmd_buffer_index ;;
        g ← g_get;
        Gfxr_AddChild kAllEventTopology (g_cur_submit_node_index g) cmd_buffer_index ;;
        mret counts
    | CEndBuffer =>
        cmd_buffer_index ← Gfxr_AddNode kGfxrVulkanEndCommandBufferNode (command_desc c);
        GetArgs fuel (cmd_args c) cmd_buffer_index ;;
        g ← g_get;
        Gfxr_AddChild kAllEventTopology (g_cur_command_buffer_node_index g) cmd_buffer_index ;;
        mret counts
    | CBeginLabel =>
        label_name ← g_attempt (label_of (cmd_args c));
        index ← add_command fuel kGfxrBeginDebugUtilsLabelCommandNode (c_str label_name) (cmd_args c);
        push_parent index ;; mret counts
    | CEndLabel =>
        g ← g_get;
        match g_cur_parent_node_index_stack g with
        | [] => mret counts
        | top :: _ =>
            type ← g_check (GetNodeType top (g_command_hierarchy g));
            (if decide (type = kGfxrBeginDebugUtilsLabelCommandNode) then pop_parent else mret ()) ;;
            mret counts
        end
    | CBeginPass =>
        let draw_call_count := match counts with [] => total | front :: _ => front end in
        index ← add_command fuel kGfxrVulkanBeginRenderPassCommandNode
                  (counted (command_desc c) draw_call_count) (cmd_args c);
        push_parent index ;; mret (tail counts)
    | CEndPass =>
        add_command fuel kGfxrVulkanEndRenderPassCommandNode (command_desc c) (cmd_args c) ;;
        pop_parent ;; mret counts
    | CDraw => add_command fuel kGfxrVulkanDrawCommandNode (command_desc c) (cmd_args c) ;; mret counts
    | CPlain => add_command fuel (node_type_of (cmd_name c)) (command_desc c) (cmd_args c) ;; mret counts
    end.
Proof.
  unfold OnCommand, class_of, command_desc. rewrite GetCommandSummary_text, plain_command_type_of.
  repeat (case_decide; [done|]). by repeat (case_match; [done|]).
Qed.
End Adding.

Section Items.
Context {J : Type} `{JsonLaws J}.
Context (fuel : nat) (total : Z).

Lemma emit_fst o p ts st : exists ns, fst (emit o p ts st) = fst st ++ ns.
Proof.
  destruct st as [ns cs]. unfold emit. destruct (layouts _ ts) as [[bs ns'] cs']. by exists ns'.
Qed.

(** A node that was added keeps its type. *)
Lemma shows_type o g st ns type desc ns' : shows o g st -> fst st = ns ++ (type, desc) :: ns' ->
  GetNodeType (o + vec_size ns) (g_command_hierarchy g) = Done type.
Proof.
  intros [(pre & Et & Ep) _ _ _ _ _ _] E. unfold GetNodeType. apply vec_at_lookup; [unfold vec_size in *; lia|].
  rewrite Et, E, fmap_app. unfold vec_size in *.
  rewrite lookup_app_r by lia.
  replace (Z.to_nat (o + Z.of_nat (length ns)) - length pre)%nat with (length (ns.*1)) by (rewrite length_fmap; lia).
  by rewrite lookup_app_r, Nat.sub_diag by lia.
Qed.

Lemma shows_stack o g st stk : shows o g st -> shows o (set_parent_stack stk g) st.
Proof. intros []. by split. Qed.

(** The commands [cmds] add the trees [ts] in place, and leave [counts'] of the
    counts. *)
Definition runs (cmds : list (VulkanCommandInfo J)) (counts : list Z) (ts : list tree) (counts' : list Z) : Prop :=
  forall o cb stk g st rest, shows o g st -> in_arrays o (parent_of cb stk) st -> at_place cb stk g ->
  exists g', on_commands fuel (cmds ++ rest) total counts g = on_commands fuel rest total counts' g' /\
    shows o g' (emit o (parent_of cb stk) ts st) /\ same_parse g g'.

Lemma runs_nil counts : runs [] counts [] counts.
Proof. intros o cb stk g st rest Hg _ _. exists g. rewrite emit_nil. split; [done|]. split; [done|apply same_parse_refl]. Qed.

Lemma runs_app cmds cmds' counts counts1 counts2 ts ts' :
  runs cmds counts ts counts1 -> runs cmds' counts1 ts' counts2 -> runs (cmds ++ cmds') counts (ts ++ ts') counts2.
Proof.
  intros H1 H2 o cb stk g st rest Hg Hin Hp. rewrite <- app_assoc.
  destruct (H1 o cb stk g st (cmds' ++ rest) Hg Hin Hp) as (g1 & E1 & Hg1 & Hs1).
  destruct (H2 o cb stk g1 _ rest Hg1 (emit_in _ _ _ _ _ Hin) (same_place _ _ _ _ Hs1 Hp)) as (g2 & E2 & Hg2 & Hs2).
  exists g2. rewrite emit_app in Hg2 by (done || apply (sh_ok _ _ _ Hg)).
  split; [congruence|]. split; [done|by eapply same_parse_trans].
Qed.

(** A command that only adds its tree. *)
Lemma runs_command c counts :
  class_of (cmd_name c) = CDraw \/ class_of (cmd_name c) = CPlain -> args_fit fuel c ->
  runs [c] counts [command_tree fuel c] counts.
Proof.
  intros Hc Hd o cb stk g st rest Hg Hin Hp.
  destruct (add_command_spec fuel (command_type (cmd_name c)) (command_desc c) (cmd_args c) o cb stk g st Hd Hg Hin Hp)
    as (g1 & E1 & Hg1 & Hs1).
  exists g1. split; [|done]. cbn [app on_commands]. unfold mbind, Gfxr_bind at 1. rewrite OnCommand_class.
  unfold command_type in E1.
  destruct Hc as [Hc|Hc]; rewrite Hc in *; unfold mbind, Gfxr_bind; by rewrite E1.
Qed.

(** [b] opens a node with [kids], below which the commands of [body] go, and [e]
    closes it; [k] are the trees that [e] adds. *)
Lemma runs_scope b e body type desc kids k counts counts1 counts2 ts :
  (forall o cb stk g st, shows o g st -> in_arrays o (parent_of cb stk) st -> at_place cb stk g ->
     exists g', OnCommand fuel b total counts g = Done (Gives (counts1, set_parent_stack (o + vec_size (fst st) :: stk) g')) /\
       shows o g' (emit o (parent_of cb stk) [TNode type desc kids] st) /\ same_parse g g') ->
  runs body counts1 ts counts2 ->
  (forall o cb i stk g st ns ns', shows o g st -> in_arrays o i st -> at_place cb (i :: stk) g ->
     fst st = ns ++ (type, desc) :: ns' -> i = o + vec_size ns ->
     exists g', OnCommand fuel e total counts2 g = Done (Gives (counts2, set_parent_stack stk g')) /\
       shows o g' (emit o i k st) /\ same_parse g g') ->
  runs (b :: body ++ [e]) counts [TNode type desc (kids ++ ts ++ k)] counts2.
Proof.
  intros Hb Hbody He o cb stk g st rest Hg Hin Hp. pose proof (sh_ok _ _ _ Hg) as Hok.
  set (i := o + vec_size (fst st)). set (st1 := emit o (parent_of cb stk) [TNode type desc kids] st).
  destruct (Hb o cb stk g st Hg Hin Hp) as (g1 & E1 & Hg1 & Hs1). fold i in E1. fold st1 in Hg1.
  assert (exists ns', fst st1 = fst st ++ (type, desc) :: ns') as [ns1 Ens1].
  { unfold st1, emit. destruct st as [ns cs]. cbn [layouts]. rewrite layout_eq.
    destruct (layouts _ kids) as [[bs ns'] cs']. cbn [fst]. rewrite app_nil_r. by exists ns'. }
  assert (in_arrays o i st1) as Hini
    by (unfold in_arrays, i, vec_size; rewrite Ens1, length_app; cbn [length]; lia).
  pose proof (same_place _ _ _ _ Hs1 Hp) as [Hcb1 Hstk1].
  destruct (Hbody o cb (i :: stk) (set_parent_stack (i :: stk) g1) st1 ([e] ++ rest))
    as (g2 & E2 & Hg2 & Hs2); [by apply shows_stack|done|by split|].
  cbn [parent_of] in Hg2. destruct (emit_fst o i ts st1) as [ns2 Ens2].
  destruct (He o cb i stk g2 (emit o i ts st1) (fst st) (ns1 ++ ns2) Hg2) as (g3 & E3 & Hg3 & Hs3).
  - by apply emit_in.
  - destruct Hs2 as [_ Hb2 Hs2 _ _ _ _ _]. cbn in Hb2, Hs2. split; congruence.
  - rewrite Ens2, Ens1, <- app_assoc. done.
  - done.
  - exists (set_parent_stack stk g3). split; [|split].
    + rewrite <- app_comm_cons, <- app_assoc. cbn [on_commands]. unfold mbind at 1, Gfxr_bind at 1. rewrite E1, E2.
      cbn [app on_commands]. unfold mbind at 1, Gfxr_bind at 1. by rewrite E3.
    + apply shows_stack. rewrite emit_app in Hg3 by (done || by apply emit_ok).
      unfold st1, i in Hg3. by rewrite emit_below in Hg3.
    + pose proof (proj2 Hp) as Hstk. destruct Hs1, Hs2, Hs3. cbn in *. split; cbn; congruence.
Qed.

Section ItemInd.
Context (P : item J -> Prop).
Context (Hc : forall c, P (Command c)) (Hl : forall b body e, Forall P body -> P (Label b body e))
  (Hpass : forall b body e, Forall P body -> P (Pass b body e)).

Fixpoint item_ind' (it : item J) : P it :=
  let all := fix all (items : list (item J)) : Forall P items :=
    match items with
    | [] => @List.Forall_nil (item J) P
    | it :: items => @List.Forall_cons (item J) P it items (item_ind' it) (all items)
    end in
  match it with
  | Command c => Hc c
  | Label b body e => Hl b body e (all body)
  | Pass b body e => Hpass b body e (all body)
  end.
End ItemInd.

Lemma item_tree_label counts b body e :
  item_tree fuel total counts (Label b body e) =
    let '(ts, counts') := item_trees fuel total counts body in
    (TNode kGfxrBeginDebugUtilsLabelCommandNode (label_text (cmd_args b)) (arg_trees fuel (cmd_args b) ++ ts), counts').
Proof. reflexivity. Qed.

Lemma item_tree_pass counts b body e :
  item_tree fuel total counts (Pass b body e) =
    let '(ts, counts') := item_trees fuel total (tail counts) body in
    (TNode kGfxrVulkanBeginRenderPassCommandNode (counted (command_desc b) (hd total counts))
       (arg_trees fuel (cmd_args b) ++ ts ++ [command_tree fuel e]), counts').
Proof. reflexivity. Qed.

Lemma commands_in_scope (b e : VulkanCommandInfo J) body :
  b :: (fix all (items : list (item J)) := match items with [] => [] | it :: items => commands_in it ++ all items end) body
    ++ [e] = b :: concat (commands_in <$> body) ++ [e].
Proof. do 2 f_equal. induction body as [|it body IH]; [done|]. cbn. by rewrite IH. Qed.

Lemma runs_items (items : list (item J)) :
  Forall (fun it => item_ok fuel it -> forall counts,
    runs (commands_in it) counts [fst (item_tree fuel total counts it)] (snd (item_tree fuel total counts it))) items ->
  Forall (item_ok fuel) items -> forall counts,
  runs (concat (commands_in <$> items)) counts (fst (item_trees fuel total counts items))
    (snd (item_trees fuel total counts items)).
Proof.
  induction 1 as [|it items Hit _ IH]; intros Hok counts; cbn [fmap list_fmap concat item_trees]; [apply runs_nil|].
  apply Forall_cons in Hok as [Hi Hok]. specialize (Hit Hi counts).
  destruct (item_tree fuel total counts it) as [t counts1]. cbn [fst snd] in Hit.
  specialize (IH Hok counts1). destruct (item_trees fuel total counts1 items) as [ts counts2]. cbn [fst snd] in *.
  by apply (runs_app _ _ counts counts1 counts2 [t]).
Qed.

Lemma runs_label b body e label counts counts2 ts :
  class_of (cmd_name b) = CBeginLabel -> class_of (cmd_name e) = CEndLabel -> label_of (cmd_args b) = Gives label ->
  args_fit fuel b -> runs body counts ts counts2 ->
  runs (b :: body ++ [e]) counts
    [TNode kGfxrBeginDebugUtilsLabelCommandNode (c_str label) (arg_trees fuel (cmd_args b) ++ ts)] counts2.
Proof.
  intros Hb He Hl Hd Hbody. rewrite <- (app_nil_r ts). apply (runs_scope _ _ _ _ _ _ _ _ counts); [|done|].
  - intros o cb stk g st Hg Hin Hp. rewrite OnCommand_class, Hb.
    destruct (add_command_spec fuel kGfxrBeginDebugUtilsLabelCommandNode (c_str label) (cmd_args b) o cb stk g st Hd Hg Hin Hp)
      as (g1 & E1 & Hg1 & Hs1).
    exists g1. split; [|done]. rewrite Hl. unfold mbind, Gfxr_bind, g_attempt. cbn. rewrite E1.
    unfold push_parent, g_modify. destruct (same_place _ _ _ _ Hs1 Hp) as [_ ->]. done.
  - intros o cb i stk g st ns ns' Hg Hin [Hcb Hstk] E ->. rewrite OnCommand_class, He.
    exists g. rewrite emit_nil. split; [|split; [done|apply same_parse_refl]].
    unfold mbind, Gfxr_bind, g_get, g_check, pop_parent, g_modify. rewrite Hstk.
    rewrite (shows_type o g st ns _ _ ns' Hg E). cbn. rewrite decide_True by done. by rewrite Hstk.
Qed.

Lemma runs_pass b body e counts counts2 ts :
  class_of (cmd_name b) = CBeginPass -> class_of (cmd_name e) = CEndPass ->
  args_fit fuel b -> args_fit fuel e -> runs body (tail counts) ts counts2 ->
  runs (b :: body ++ [e]) counts
    [TNode kGfxrVulkanBeginRenderPassCommandNode (counted (command_desc b) (hd total counts))
       (arg_trees fuel (cmd_args b) ++ ts ++ [command_tree fuel e])] counts2.
Proof.
  intros Hb He Hd Hd' Hbody. apply (runs_scope _ _ _ _ _ _ _ _ (tail counts)); [|done|].
  - intros o cb stk g st Hg Hin Hp. rewrite OnCommand_class, Hb.
    destruct (add_command_spec fuel kGfxrVulkanBeginRenderPassCommandNode (counted (command_desc b) (hd total counts))
      (cmd_args b) o cb stk g st Hd Hg Hin Hp) as (g1 & E1 & Hg1 & Hs1).
    exists g1. split; [|done]. unfold hd in E1. unfold mbind, Gfxr_bind. rewrite E1.
    unfold push_parent, g_modify. destruct (same_place _ _ _ _ Hs1 Hp) as [_ ->]. done.
  - intros o cb i stk g st ns ns' Hg Hin Hp E ->. rewrite OnCommand_class, He.
    destruct (add_command_spec fuel kGfxrVulkanEndRenderPassCommandNode (command_desc e) (cmd_args e) o cb
      (o + vec_size ns :: stk) g st Hd' Hg Hin Hp) as (g1 & E1 & Hg1 & Hs1).
    exists g1. unfold command_tree, command_type. rewrite He. split; [|done]. unfold mbind, Gfxr_bind. rewrite E1.
    unfold pop_parent, g_modify. destruct (same_place _ _ _ _ Hs1 Hp) as [_ ->]. done.
Qed.

(** Nested commands add the trees that their nesting describes. *)
Lemma runs_item it : item_ok fuel it -> forall counts,
  runs (commands_in it) counts [fst (item_tree fuel total counts it)] (snd (item_tree fuel total counts it)).
Proof.
  induction it as [c|b body e IH|b body e IH] using item_ind'; inversion 1 as [? Hc Hd|? ? ? l Hb He Hl Hd Hbody|
    ? ? ? Hb He Hd Hd' Hbody]; subst; intros counts.
  - by apply runs_command.
  - rewrite item_tree_label. cbn [commands_in]. rewrite commands_in_scope.
    pose proof (runs_items body IH Hbody counts) as Hr.
    destruct (item_trees fuel total counts body) as [ts counts2]. cbn [fst snd] in *.
    unfold label_text. rewrite Hl. apply runs_label; try done. by apply label_of_command.
  - rewrite item_tree_pass. cbn [commands_in]. rewrite commands_in_scope.
    pose proof (runs_items body IH Hbody (tail counts)) as Hr.
    destruct (item_trees fuel total (tail counts) body) as [ts counts2]. cbn [fst snd] in *.
    by apply runs_pass.
Qed.
End Items.
