(* ===== verification/GfxrTree.v ===== *)
(** * GfxrTree: the hierarchy of a GFXR capture is the tree of its commands

    With the lemmas of [GfxrLayout], what [GfxrVulkanCommandHierarchyCreator] makes
    of a whole capture, and the topology of it. *)

From stdpp Require Import strings pretty.
From S2P Require Import Prelude Wire Memory Pm4 StateTracker Emulate Topology Hierarchy Annotations GfxrHierarchy GfxrLayout.

#[local] Open Scope Z_scope.

(** ** Submits *)

Section Submits.
Context {J : Type} `{JsonLaws J}.
Context (fuel : nat).

(** What is kept while the command buffers of a submit are added. *)
Definition same_submit_parse (g g' : GfxrCreator) : Prop :=
  g_cur_submit_node_index g' = g_cur_submit_node_index g /\
  g_used_in_mixed_command_hierarchy g' = g_used_in_mixed_command_hierarchy g /\
  at_submit (g_node_children g') = at_submit (g_node_children g) /\
  m_topology (g_command_hierarchy g') = m_topology (g_command_hierarchy g).

Lemma same_submit_parse_trans g1 g2 g3 : same_submit_parse g1 g2 -> same_submit_parse g2 g3 -> same_submit_parse g1 g3.
Proof. unfold same_submit_parse. intuition congruence. Qed.

Lemma same_parse_submit g g' : same_parse g g' -> same_submit_parse g g'.
Proof. intros []. by split. Qed.

Lemma shows_command_buffer o g st i : shows o g st -> shows o (set_cur_command_buffer i g) st.
Proof. intros []. by split. Qed.

Lemma shows_submit o g st i : shows o g st -> shows o (set_cur_submit i g) st.
Proof. intros []. by split. Qed.

Lemma new_node_in o ns cs (x : NodeType * string) (c : list (list Z)) : in_arrays o (o + vec_size ns) (ns ++ [x], cs ++ c).
Proof. unfold in_arrays, vec_size. cbn. rewrite length_app. cbn. lia. Qed.

(** [vkBeginCommandBuffer]. *)
Lemma begin_buffer_spec c total counts o g st :
  class_of (cmd_name c) = CBeginBuffer -> args_fit fuel c ->
  shows o g st -> in_arrays o (g_cur_submit_node_index g) st ->
  exists g', OnCommand fuel c total counts g = Done (Gives (counts, g')) /\
    shows o g' (emit o (g_cur_submit_node_index g)
      [TNode kGfxrVulkanBeginCommandBufferNode (counted (command_desc c) total) (arg_trees fuel (cmd_args c))] st) /\
    same_parse (set_cur_command_buffer (o + vec_size (fst st)) g) g'.
Proof.
  intros Hc Hd Hg Hin. destruct st as [ns cs]. pose proof (sh_ok _ _ _ Hg) as Hok.
  rewrite OnCommand_class, Hc. set (desc := counted _ _).
  destruct (AddNode_shows o g _ kGfxrVulkanBeginCommandBufferNode desc Hg) as (g1 & E1 & Hg1 & Hs1). cbn [fst snd] in *.
  set (i := o + vec_size ns) in *.
  destruct (GetArgs_emits fuel o i (cmd_args c) Hd (set_cur_command_buffer i g1) _ (shows_command_buffer _ _ _ i Hg1)
    (new_node_in _ _ _ _ _)) as ([] & g2 & E2 & Hg2 & Hs2).
  destruct (emit o i (arg_trees fuel (cmd_args c)) _) as [ns2 cs2] eqn:E.
  destruct (emit_late_link o (g_cur_submit_node_index g) _ _ _ _ _ _ _ Hok Hin E) as [Hin2 Elink].
  assert (g_cur_submit_node_index g2 = g_cur_submit_node_index g) as Esub by (destruct Hs1, Hs2; cbn in *; congruence).
  rewrite <- Esub in Hin2.
  destruct (AddChild_shows o g2 ns2 cs2 (g_cur_submit_node_index g2) i Hg2 Hin2) as (g3 & E3 & Hg3 & Hs3).
  exists g3. split; [|split].
  - unfold mbind, Gfxr_bind, g_modify, g_get. rewrite E1, E2. by rewrite E3.
  - rewrite Elink, <- Esub. exact Hg3.
  - apply (same_parse_trans _ g2); [|done]. destruct Hs1, Hs2. cbn in *. split; cbn; congruence.
Qed.

(** [vkEndCommandBuffer]. *)
Lemma end_buffer_spec c total counts o g st :
  class_of (cmd_name c) = CEndBuffer -> args_fit fuel c ->
  shows o g st -> in_arrays o (g_cur_command_buffer_node_index g) st ->
  exists g', OnCommand fuel c total counts g = Done (Gives (counts, g')) /\
    shows o g' (emit o (g_cur_command_buffer_node_index g) [command_tree fuel c] st) /\ same_parse g g'.
Proof.
  intros Hc Hd Hg Hin. destruct st as [ns cs]. pose proof (sh_ok _ _ _ Hg) as Hok.
  rewrite OnCommand_class, Hc. unfold command_tree, command_type. rewrite Hc.
  destruct (AddNode_shows o g _ kGfxrVulkanEndCommandBufferNode (command_desc c) Hg) as (g1 & E1 & Hg1 & Hs1).
  cbn [fst snd] in *. set (i := o + vec_size ns) in *.
  destruct (GetArgs_emits fuel o i (cmd_args c) Hd g1 _ Hg1 (new_node_in _ _ _ _ _)) as ([] & g2 & E2 & Hg2 & Hs2).
  destruct (emit o i (arg_trees fuel (cmd_args c)) _) as [ns2 cs2] eqn:E.
  destruct (emit_late_link o (g_cur_command_buffer_node_index g) _ _ _ _ _ _ _ Hok Hin E) as [Hin2 Elink].
  pose proof (same_parse_trans _ _ _ Hs1 Hs2) as Hs12.
  assert (g_cur_command_buffer_node_index g2 = g_cur_command_buffer_node_index g) as Ecb by (by destruct Hs12).
  rewrite <- Ecb in Hin2.
  destruct (AddChild_shows o g2 ns2 cs2 (g_cur_command_buffer_node_index g2) i Hg2 Hin2) as (g3 & E3 & Hg3 & Hs3).
  exists g3. split; [|split].
  - unfold mbind, Gfxr_bind, g_modify, g_get. rewrite E1, E2. by rewrite E3.
  - rewrite Elink, <- Ecb. exact Hg3.
  - by eapply same_parse_trans.
Qed.

(** A recorded command buffer becomes its tree below the submit. *)
Lemma recorded_runs r (counts : DrawCallCounts) o g st :
  recorded_ok fuel r -> shows o g st -> in_arrays o (g_cur_submit_node_index g) st ->
  g_cur_parent_node_index_stack g = [] ->
  exists g', ProcessVkCmds fuel (recorded_commands r) (begin_command_buffer_draw_call_count counts)
      (render_pass_draw_call_counts counts) g = Done (Gives (true, g')) /\
    shows o g' (emit o (g_cur_submit_node_index g) [recorded_tree fuel counts r] st) /\
    same_submit_parse g g' /\ g_cur_parent_node_index_stack g' = [].
Proof.
  intros [Hb He Hi Hdb Hde] Hg Hin Hstk. pose proof (sh_ok _ _ _ Hg) as Hok.
  set (total := begin_command_buffer_draw_call_count counts). set (pcounts := render_pass_draw_call_counts counts).
  set (cb := o + vec_size (fst st)).
  destruct (begin_buffer_spec (rec_begin r) total pcounts o g st Hb Hdb Hg Hin) as (g1 & E1 & Hg1 & Hs1). fold cb in Hs1.
  set (st1 := emit _ _ _ st) in Hg1.
  assert (in_arrays o cb st1) as Hin1.
  { unfold in_arrays, cb, st1, emit. destruct st as [ns cs]. cbn [layouts]. rewrite layout_eq.
    destruct (layouts _ (arg_trees _ _)) as [[bs ns'] cs']. unfold vec_size. cbn. rewrite !length_app. cbn. lia. }
  assert (at_place cb [] g1) as Hp1 by (destruct Hs1; cbn in *; split; congruence).
  pose proof (runs_items fuel total (rec_items r)) as Hr.
  specialize (Hr ltac:(apply Forall_forall; intros it _; apply runs_item) Hi pcounts).
  destruct (Hr o cb [] g1 st1 [rec_end r] Hg1 Hin1 Hp1) as (g2 & E2 & Hg2 & Hs2). cbn [parent_of] in Hg2.
  destruct (same_place _ _ _ _ Hs2 Hp1) as [Hcb2 Hstk2].
  destruct (end_buffer_spec (rec_end r) total (snd (item_trees fuel total pcounts (rec_items r))) o g2
    (emit o cb (fst (item_trees fuel total pcounts (rec_items r))) st1) He Hde Hg2)
    as (g3 & E3 & Hg3 & Hs3); [rewrite Hcb2; by apply emit_in|].
  exists (set_parent_stack [] g3). split; [|split; [|split]].
  - unfold ProcessVkCmds, recorded_commands. fold total. fold pcounts. cbn [on_commands].
    unfold mbind at 1, Gfxr_bind at 1. unfold mbind at 1, Gfxr_bind at 1. rewrite E1, E2. cbn [on_commands].
    unfold mbind at 1, Gfxr_bind at 1. by rewrite E3.
  - apply shows_stack. rewrite Hcb2, emit_app in Hg3 by (done || by apply emit_ok).
    unfold st1, cb in Hg3. by rewrite emit_below in Hg3.
  - destruct Hs1, Hs2, Hs3. cbn in *. unfold same_submit_parse. cbn. repeat split; congruence.
  - done.
Qed.

Context (capture_data : GfxrCommands J) (recs : gmap Z (recorded J)) (Hcap : capture_ok fuel capture_data recs).

(** The command buffers of a submit. *)
Lemma handles_run s handles n o g st :
  s ∈ GetGfxrSubmits capture_data -> (forall h, h ∈ handles -> h ∈ vk_command_buffer_handles s) ->
  shows o g st -> in_arrays o (g_cur_submit_node_index g) st -> g_cur_parent_node_index_stack g = [] ->
  exists g', for_each n handles (fun _ handle => process_handle fuel capture_data handle) g = Done (Gives ((), g')) /\
    shows o g' (emit o (g_cur_submit_node_index g)
      ((fun '(c, r) => recorded_tree fuel c r) <$>
         omap (fun handle => c ← m_gfxr_draw_call_counts capture_data !! handle; r ← recs !! handle; Some (c, r)) handles) st) /\
    same_submit_parse g g' /\ g_cur_parent_node_index_stack g' = [].
Proof.
  intros Hs. revert n g st. induction handles as [|h handles IH]; intros n g st Hh Hg Hin Hstk.
  { exists g. cbn. rewrite emit_nil. done. }
  destruct (submitted _ _ _ Hcap s h Hs) as (c & r & Ec & Er & Hr & Eb); [apply Hh; by left|].
  destruct (recorded_runs r c o g st Hr Hg Hin Hstk) as (g1 & E1 & Hg1 & Hs1 & Hstk1).
  destruct (IH (S n) g1 (emit o (g_cur_submit_node_index g) [recorded_tree fuel c r] st))
    as (g2 & E2 & Hg2 & Hs2 & Hstk2); [intros h' Hh'; apply Hh; by right|done| |done|].
  { rewrite (proj1 Hs1). by apply emit_in. }
  exists g2. split; [|split; [|split]].
  - cbn [for_each]. unfold process_handle, mbind, Gfxr_bind, g_attempt, GetDrawCallCounts, GetGfxrCommandBuffers.
    rewrite Ec, Eb. cbn [of_option]. unfold mbind, attempt_bind. rewrite E1. exact E2.
  - cbn [omap list_omap]. rewrite Ec, Er. cbn [mbind option_bind fmap list_fmap].
    rewrite (proj1 Hs1), emit_app in Hg2 by (done || apply (sh_ok _ _ _ Hg)). exact Hg2.
  - by eapply same_submit_parse_trans.
  - done.
Qed.

(** The root is the first node of this creator when it is alone, and in a mixed
    hierarchy the index of the root finds this creator's first node, the frame. *)
Lemma AddChild_root o g ns cs c : shows o g (ns, cs) -> (0 < length ns)%nat ->
  (g_used_in_mixed_command_hierarchy g = true -> 0 < o) ->
  exists g', Gfxr_AddChild kAllEventTopology kRootNodeIndex c g = Done (Gives ((), g')) /\
    shows o g' (ns, alter (fun l => l ++ [c]) 0%nat cs) /\ same_parse g g'.
Proof.
  intros Hg Hn Hmixed. destruct (g_used_in_mixed_command_hierarchy g) eqn:Hm.
  - destruct Hg as [Ht Hd Ha Hc Hok Halone Hmap]. specialize (Hmixed eq_refl). unfold arrays_ok in *. cbn [fst snd] in *.
    assert (local_index kRootNodeIndex g = 0) as El.
    { unfold local_index. rewrite Hm, Hmap, decide_False by (unfold kRootNodeIndex; lia || done). done. }
    unfold all_event_children in Hc. cbn [of_type] in Hc. eexists. split; [|split].
    + unfold Gfxr_AddChild, mbind, Gfxr_bind, g_get, g_check, g_modify. rewrite El.
      cbn [of_type]. rewrite Hc, vec_push_spec; [cbn; reflexivity|]. unfold vec_size. lia.
    + split; cbn [fst snd]; try done. unfold arrays_ok. cbn. by rewrite length_alter.
    + by split.
  - pose proof (sh_alone _ _ _ Hg Hm) as ->.
    destruct (AddChild_shows 0 g ns cs kRootNodeIndex c Hg) as (g' & E & Hg' & Hs).
    { unfold in_arrays, vec_size, kRootNodeIndex. cbn. lia. }
    exists g'. by split.
Qed.

Lemma submit_run i s o g st :
  s ∈ GetGfxrSubmits capture_data -> shows o g st -> (0 < length (fst st))%nat ->
  (g_used_in_mixed_command_hierarchy g = true -> 0 < o) -> g_cur_parent_node_index_stack g = [] ->
  exists g', (OnGfxrSubmit i s ;; ProcessVkCmds fuel (none_cmd_vk_commands s) 0 [] ;;
      for_each 0 (vk_command_buffer_handles s) (fun _ handle => process_handle fuel capture_data handle)) g
      = Done (Gives ((), g')) /\
    shows o g' (emit o o [submit_tree fuel i s (buffers_of capture_data recs s)] st) /\
    g_used_in_mixed_command_hierarchy g' = g_used_in_mixed_command_hierarchy g /\
    at_submit (g_node_children g') = at_submit (g_node_children g) /\
    m_topology (g_command_hierarchy g') = m_topology (g_command_hierarchy g) /\
    g_cur_parent_node_index_stack g' = [].
Proof.
  intros Hs Hg Hn Hmixed Hstk. destruct st as [ns cs]. cbn [fst] in Hn. pose proof (sh_ok _ _ _ Hg) as Hok.
  destruct (AddNode_shows o g _ kGfxrVulkanSubmitNode (submit_text i s) Hg) as (g1 & E1 & Hg1 & Hs1). cbn [fst snd] in *.
  destruct (AddChild_root o g1 _ _ (o + vec_size ns) Hg1) as (g2 & E2 & Hg2 & Hs2).
  { rewrite length_app. cbn. lia. }
  { rewrite (same_mixed _ _ Hs1). done. }
  pose proof (same_parse_trans _ _ _ Hs1 Hs2) as Hs12. pose proof (length_app ns [(kGfxrVulkanSubmitNode, submit_text i s)]).
  rewrite alter_app_l in Hg2 by (unfold arrays_ok in Hok; cbn in Hok; lia).
  pose proof (emit_node o o kGfxrVulkanSubmitNode (submit_text i s) ns cs) as Een. rewrite Z.sub_diag in Een.
  change (Z.to_nat 0) with 0%nat in Een. rewrite <- Een in Hg2.
  destruct (handles_run s (vk_command_buffer_handles s) 0 o
    (set_parent_stack [] (set_cur_submit (o + vec_size ns) g2)) _ Hs (fun _ H' => H') (shows_stack o _ _ [] (shows_submit o _ _ _ Hg2)))
    as (g3 & E3 & Hg3 & Hs3 & Hstk3).
  { cbn. unfold in_arrays, emit, vec_size. cbn. rewrite length_app. cbn. lia. }
  { done. }
  exists g3. split; [|split; [|split]].
  - unfold OnGfxrSubmit, ProcessVkCmds, submit_desc. fold (submit_text i s). rewrite (no_loose_commands _ _ _ Hcap s Hs). cbn [on_commands].
    unfold mbind, Gfxr_bind. rewrite E1, E2. exact E3.
  - cbn [g_cur_submit_node_index set_cur_submit set_parent_stack] in Hg3.
    pose proof (emit_below o o kGfxrVulkanSubmitNode (submit_text i s) [] 
      ((fun '(c, r) => recorded_tree fuel c r) <$> buffers_of capture_data recs s) (ns, cs) Hok) as Eb.
    cbn [fst app] in Eb. unfold buffers_of in Eb at 1. rewrite Eb in Hg3; [exact Hg3|].
    unfold in_arrays, vec_size. cbn. lia.
  - destruct Hs3 as (_ & Hm3 & _). cbn in Hm3. rewrite Hm3. by destruct Hs12.
  - destruct Hs3 as (_ & _ & Ha3 & Ht3). cbn in Ha3, Ht3. rewrite Ha3, Ht3. by destruct Hs12.
Qed.

Lemma submits_run submits n o g st :
  (forall s, s ∈ submits -> s ∈ GetGfxrSubmits capture_data) -> shows o g st -> (0 < length (fst st))%nat ->
  (g_used_in_mixed_command_hierarchy g = true -> 0 < o) -> g_cur_parent_node_index_stack g = [] ->
  exists g', for_each n submits (fun submit_index submit_info =>
      OnGfxrSubmit submit_index submit_info ;; ProcessVkCmds fuel (none_cmd_vk_commands submit_info) 0 [] ;;
      for_each 0 (vk_command_buffer_handles submit_info) (fun _ handle => process_handle fuel capture_data handle)) g
      = Done (Gives ((), g')) /\
    shows o g' (emit o o (imap (fun i s => submit_tree fuel (n + i) s (buffers_of capture_data recs s)) submits) st) /\
    g_used_in_mixed_command_hierarchy g' = g_used_in_mixed_command_hierarchy g /\
    at_submit (g_node_children g') = at_submit (g_node_children g) /\
    m_topology (g_command_hierarchy g') = m_topology (g_command_hierarchy g).
Proof.
  revert n g st. induction submits as [|s submits IH]; intros n g st Hin Hg Hn Hmixed Hstk.
  { exists g. cbn. by rewrite emit_nil. }
  destruct (submit_run n s o g st) as (g1 & E1 & Hg1 & Hm1 & Ha1 & Ht1 & Hstk1); try done; [apply Hin; by left|].
  destruct (IH (S n) g1 _ (fun s' H' => Hin s' ltac:(by right)) Hg1) as (g2 & E2 & Hg2 & Hm2 & Ha2 & Ht2).
  - destruct (emit_fst o o [submit_tree fuel n s (buffers_of capture_data recs s)] st) as [ns ->]. rewrite length_app. lia.
  - by rewrite Hm1.
  - done.
  - exists g2. split; [|split; [|repeat split; congruence]].
    + cbn [for_each]. unfold mbind at 1, Gfxr_bind at 1. rewrite E1. exact E2.
    + cbn [imap]. rewrite Nat.add_0_r. rewrite emit_app in Hg2.
      * rewrite (imap_ext _ (fun i s => submit_tree fuel (S n + i) s (buffers_of capture_data recs s)));
          [exact Hg2|]. intros i x _. cbn. by rewrite Nat.add_succ_r.
      * apply (sh_ok _ _ _ Hg).
      * unfold in_arrays, vec_size. lia.
Qed.
End Submits.

(** ** Layouts as forests *)

Definition children_after (base : Z) (cs : list (list Z)) : Prop :=
  forall p k c, child_at cs p k = Some c -> base + Z.of_nat p < c.

Lemma children_after_app base cs cs' : children_after base cs -> children_after (base + vec_size cs) cs' ->
  children_after base (cs ++ cs').
Proof.
  intros H1 H2 p k c Hc. unfold child_at in Hc. destruct (decide (p < length cs)%nat) as [Hp|Hp].
  - rewrite lookup_app_l in Hc by done. by apply (H1 p k).
  - rewrite lookup_app_r in Hc by lia. specialize (H2 (p - length cs)%nat k c Hc). unfold vec_size in H2. lia.
Qed.

Lemma seqZ_1 m : seqZ m 1 = [m].
Proof. unfold seqZ. by destruct m. Qed.

Lemma vec_size_nonneg {A} (v : list A) : 0 <= vec_size v.
Proof. unfold vec_size. lia. Qed.

Definition layout_ok (base : Z) (r : list (NodeType * string) * list (list Z)) : Prop :=
  (0 < length (fst r))%nat /\
  base :: concat (snd r) ≡ₚ seqZ base (vec_size (fst r)) /\ children_after base (snd r).

Definition layouts_ok (base : Z) (r : list Z * list (NodeType * string) * list (list Z)) : Prop :=
  fst (fst r) ++ concat (snd r) ≡ₚ seqZ base (vec_size (snd (fst r))) /\
  Forall (fun b => base <= b) (fst (fst r)) /\ children_after base (snd r).

Lemma layouts_ok_list ts : Forall (fun t => forall base, layout_ok base (layout base t)) ts ->
  forall base, layouts_ok base (layouts base ts).
Proof.
  induction 1 as [|t ts Ht _ IH]; intros base; cbn [layouts].
  { split; [done|]. split; [constructor|]. intros p k c Hc. done. }
  specialize (Ht base). pose proof (layout_lengths t base) as Hl. destruct (layout base t) as [n c].
  destruct Ht as (Hn & Hperm & Hafter). cbn [fst snd] in *.
  specialize (IH (base + vec_size n)). destruct (layouts (base + vec_size n) ts) as [[bs ns] cs].
  destruct IH as (Hperm' & Hge & Hafter'). cbn [fst snd] in *. split; [|split]; cbn [fst snd].
  - unfold vec_size at 1. rewrite length_app, Nat2Z.inj_add, seqZ_app by lia.
    fold (vec_size n). fold (vec_size ns). rewrite <- Hperm', <- Hperm, concat_app. cbn [app].
    rewrite !app_assoc. by rewrite (Permutation_app_comm bs).
  - constructor; [lia|]. eapply Forall_impl; [exact Hge|]. cbn. intros b Hb. pose proof (vec_size_nonneg n). lia.
  - apply children_after_app; [done|]. unfold vec_size in *. by rewrite Hl.
Qed.

Lemma layout_wf t : forall base, layout_ok base (layout base t).
Proof.
  induction t as [type desc kids IH] using tree_ind'. intros base. rewrite layout_eq.
  pose proof (layouts_ok_list kids IH (base + 1)) as H. destruct (layouts (base + 1) kids) as [[bs ns] cs].
  destruct H as (Hperm & Hge & Hafter). cbn [fst snd] in *. split; [cbn; lia|]. split; cbn [fst snd concat].
  - rewrite Hperm. unfold vec_size. cbn [length]. rewrite Nat2Z.inj_succ, <- Z.add_1_l, seqZ_app by lia.
    by rewrite seqZ_1.
  - intros [|p] k c Hc; unfold child_at in Hc; cbn in Hc.
    + rewrite Forall_forall in Hge. specialize (Hge c (list_elem_of_lookup_2 _ _ _ Hc)). lia.
    + specialize (Hafter p k c Hc). lia.
Qed.

Lemma layout_forest t : let '(ns, cs) := layout 0 t in forest cs /\ increasing cs /\ (0 < length cs)%nat.
Proof.
  pose proof (layout_wf t 0) as H. pose proof (layout_lengths t 0) as Hl. destruct (layout 0 t) as [ns cs].
  destruct H as (Hn & Hperm & Hafter). cbn [fst snd] in *. split; [|split; [|lia]].
  - assert (NoDup (0 :: concat cs)) as Hnd by (rewrite Hperm; apply NoDup_seqZ).
    split; [|by apply NoDup_cons in Hnd as [_ ?]].
    apply Forall_forall. intros c Hc.
    assert (c ∈ seqZ 0 (vec_size ns)) as Hin by (rewrite <- Hperm; by right).
    apply elem_of_seqZ in Hin. unfold vec_size in Hin. lia.
  - intros p k c Hc. specialize (Hafter p k c Hc). lia.
Qed.

(** *** The preorder of a layout *)

(** [cs] is part of [all], from [base] on. *)
Definition part_of (base : Z) (cs all : list (list Z)) : Prop :=
  forall j ch, cs !! j = Some ch -> all !! (Z.to_nat base + j)%nat = Some ch.

Lemma part_of_app base cs cs' all : 0 <= base -> part_of base (cs ++ cs') all ->
  part_of base cs all /\ part_of (base + vec_size cs) cs' all.
Proof.
  intros Hb H. split; intros j ch Hj.
  - apply H. by apply lookup_app_l_Some.
  - unfold vec_size. replace (Z.to_nat (base + Z.of_nat (length cs)) + j)%nat with (Z.to_nat base + (length cs + j))%nat by lia.
    apply H. rewrite lookup_app_r by lia. by replace (length cs + j - length cs)%nat with j by lia.
Qed.

Lemma layout_preorder t : forall base all d, 0 <= base ->
  let '(ns, cs) := layout base t in
  part_of base cs all -> (length ns <= d)%nat -> preorder d all base = seqZ base (vec_size ns).
Proof.
  induction t as [type desc kids IH] using tree_ind'. intros base all d Hb. rewrite layout_eq.
  assert (forall b d, 0 <= b -> let '(bs, ns, cs) := layouts b kids in
    part_of b cs all -> (length ns <= d)%nat -> concat (preorder d all <$> bs) = seqZ b (vec_size ns)) as Hk.
  { clear d. induction kids as [|t kids IHk]; intros b d Hb'; cbn [layouts]; [done|].
    apply Forall_cons in IH as [Ht IH]. specialize (Ht b all d Hb'). pose proof (layout_lengths t b) as Hl.
    destruct (layout b t) as [n c]. cbn [fst snd] in *.
    specialize (IHk IH (b + vec_size n) d ltac:(unfold vec_size; lia)).
    destruct (layouts (b + vec_size n) kids) as [[bs ns] cs]. intros Hpart Hd. rewrite length_app in Hd.
    apply part_of_app in Hpart as [Hp1 Hp2]; [|done]. unfold vec_size in *. rewrite Hl in Hp2.
    cbn [fmap list_fmap concat]. rewrite Ht, IHk by (done || lia).
    by rewrite length_app, Nat2Z.inj_add, seqZ_app by lia. }
  specialize (Hk (base + 1)). destruct (layouts (base + 1) kids) as [[bs ns] cs].
  intros Hpart Hd. cbn [length] in Hd. destruct d as [|d]; [lia|]. cbn [preorder].
  pose proof (Hpart 0%nat bs eq_refl) as E0. rewrite Nat.add_0_r in E0. rewrite E0. change (default [] (Some bs)) with bs.
  rewrite (Hk d); [|lia| |lia].
  - unfold vec_size. cbn [length]. rewrite Nat2Z.inj_succ, <- Z.add_1_l, seqZ_app by lia. by rewrite seqZ_1.
  - intros j ch Hj. specialize (Hpart (S j) ch Hj). by replace (Z.to_nat (base + 1) + j)%nat with (Z.to_nat base + S j)%nat by lia.
Qed.

(** ** Properties *)

Section Properties.
Context {J : Type} `{JsonLaws J}.

(** The nodes and the topology of a hierarchy that has the layout of a tree. *)
Definition displays (t : tree) (h : CommandHierarchy) : Prop :=
  let '(ns, cs) := layout 0 t in
  m_node_type (m_nodes h) = ns.*1 /\ m_description (m_nodes h) = ns.*2 /\
  represents (GetAllEventHierarchyTopology h) cs /\
  walk (GetAllEventHierarchyTopology h) kRootNodeIndex (seqZ 0 (vec_size ns)) UINT64_MAX.

Lemma layout_walk t top : let '(ns, cs) := layout 0 t in
  represents top cs -> Z.of_nat (length cs) < UINT64_MAX -> walk top kRootNodeIndex (seqZ 0 (vec_size ns)) UINT64_MAX.
Proof.
  pose proof (layout_forest t) as Hf. pose proof (layout_preorder t 0) as Hp. pose proof (layout_lengths t 0) as Hl.
  destruct (layout 0 t) as [ns cs]. cbn [fst snd] in Hl. destruct Hf as (Hf & Hinc & Hn). intros Hrep Hs.
  rewrite <- (Hp cs (length cs)) by (lia || by intros j ch).
  by apply walk_subtree with (cs := cs); [| | | |lia|unfold kRootNodeIndex; lia|apply descendant_refl|destruct (length cs)].
Qed.

(** The frame is added below the root, or to itself where this creator has none. *)
Definition with_frame (o : Z) (st : arrays) : arrays :=
  match fst st with
  | [] => ([(kGfxrRootFrameNode, "Frame")], [[o]])
  | _ => emit o o [frame_tree] st
  end.

(** The frame and the submits of a capture. *)
Lemma ProcessGfxrSubmits_spec fuel capture_data recs g o st :
  capture_ok fuel capture_data recs -> shows o g st ->
  (g_used_in_mixed_command_hierarchy g = true -> 0 < o) -> g_cur_parent_node_index_stack g = [] ->
  exists g', ProcessGfxrSubmits fuel capture_data g = Done (Gives (true, g')) /\
    shows o g' (emit o o (submit_trees fuel capture_data recs) (with_frame o st)) /\
    g_used_in_mixed_command_hierarchy g' = g_used_in_mixed_command_hierarchy g /\
    at_submit (g_node_children g') = at_submit (g_node_children g) /\
    m_topology (g_command_hierarchy g') = m_topology (g_command_hierarchy g).
Proof.
  intros Hcap Hg Hmixed Hstk. destruct st as [ns cs]. pose proof (sh_ok _ _ _ Hg) as Hok.
  destruct (AddNode_shows o g _ kGfxrRootFrameNode "Frame" Hg) as (g1 & E1 & Hg1 & Hs1). cbn [fst snd] in *.
  destruct (AddChild_root o g1 _ _ (o + vec_size ns) Hg1) as (g2 & E2 & Hg2 & Hs2).
  { rewrite length_app. cbn. lia. }
  { rewrite (same_mixed _ _ Hs1). done. }
  pose proof (same_parse_trans _ _ _ Hs1 Hs2) as Hs12.
  set (st1 := with_frame o (ns, cs)).
  assert (shows o g2 st1) as Hg2'.
  { unfold st1, with_frame, arrays_ok in *. cbn in Hok. cbn [fst]. destruct ns as [|n ns], cs as [|c cs]; try done.
    - cbn in Hg2. by rewrite Z.add_0_r in Hg2.
    - unfold frame_tree. rewrite emit_node, Z.sub_diag. exact Hg2. }
  destruct (submits_run fuel capture_data recs Hcap (GetGfxrSubmits capture_data) 0 o g2 st1 (fun s H' => H') Hg2')
    as (g3 & E3 & Hg3 & Hm3 & Ha3 & Ht3).
  - destruct Hg2' as [_ _ _ _ Hok1 _ _]. unfold st1, with_frame, frame_tree, emit in *. destruct ns; cbn; [lia|].
    rewrite !length_app. cbn. lia.
  - rewrite (same_mixed _ _ Hs12). done.
  - by rewrite (same_stack _ _ Hs12).
  - exists g3. split; [|split; [exact Hg3|]].
    + unfold ProcessGfxrSubmits, mbind, Gfxr_bind. rewrite E1, E2. unfold mbind, Gfxr_bind in E3. by rewrite E3.
    + destruct Hs12. repeat split; congruence.
Qed.

(** C14: the hierarchy of a GFXR capture is the tree of its commands. When every submitted
    command buffer is recorded from begin to end, with labels and render passes that are
    nested ([recorded_ok]), and there are no calls outside of command buffers between the
    submits ([no_loose_commands]; such calls end up elsewhere), and there are less than
    2^64 - 1 nodes, creating it succeeds, with fuel for the depth of the arguments. The nodes
    are the root, the frame, the submits, the command buffers of each in its order and their
    commands with their arguments in the order of the capture, each command below the
    innermost label or render pass that is open, shown by its name with the summary of its
    arguments ([summaries]) or as its label, and walking the topology visits them in that
    order. *)
Theorem capture_displayed fuel (capture_data : GfxrCommands J) recs h0 :
  capture_ok fuel capture_data recs ->
  vec_size (fst (layout 0 (capture_tree fuel capture_data recs))) < UINT64_MAX ->
  exists g, Gfxr_CreateTrees fuel false capture_data (new_GfxrCreator h0) = Done (Gives (true, g)) /\
    displays (capture_tree fuel capture_data recs) (g_command_hierarchy g).
Proof.
  intros Hcap Hsize. set (g0 := set_hierarchy new_CommandHierarchy (set_mixed false ∅ (new_GfxrCreator h0))).
  assert (shows 0 g0 ([], [])) as Hg0 by (split; cbn; try done; by exists []).
  destruct (AddNode_shows 0 g0 _ kRootNode "" Hg0) as (g1 & E1 & Hg1 & Hs1). cbn [fst snd app] in *.
  destruct (ProcessGfxrSubmits_spec fuel capture_data recs g1 0 _ Hcap Hg1) as (g2 & E2 & Hg2 & Hm2 & Ha2 & Ht2).
  { by rewrite (same_mixed _ _ Hs1). }
  { by rewrite (same_stack _ _ Hs1). }
  unfold with_frame in Hg2. cbn [fst] in Hg2.
  rewrite emit_app in Hg2 by (done || unfold in_arrays, vec_size; cbn; lia).
  cbn [app] in Hg2.
  assert (emit 0 0 (frame_tree :: submit_trees fuel capture_data recs) ([(kRootNode, "")], [[]])
    = layout 0 (capture_tree fuel capture_data recs)) as El.
  { unfold capture_tree. rewrite layout_eq. unfold emit. change (0 + vec_size [(kRootNode, "")]) with (0 + 1).
    by destruct (layouts (0 + 1) _) as [[bs ns] cs]. }
  rewrite El in Hg2. unfold displays.
  pose proof (layout_forest (capture_tree fuel capture_data recs)) as Hf.
  pose proof (layout_walk (capture_tree fuel capture_data recs)) as Hw.
  pose proof (layout_lengths (capture_tree fuel capture_data recs) 0) as Hl.
  destruct (layout 0 (capture_tree fuel capture_data recs)) as [ns cs]. cbn [fst snd] in *.
  destruct Hf as (Hf & _ & _). destruct Hg2 as [(pre & Et & Ep) (pre' & Ed & Ep') _ Hc _ _ _].
  assert (pre = [] /\ pre' = []) as [-> ->] by (unfold vec_size in *; destruct pre, pre'; cbn in *; by (lia || done)).
  cbn [fst snd app] in *.
  destruct (add_all_children_spec (SetNumNodes (length cs) new_Topology) [] cs (represents_empty _) Hf) as (t & Ea & Hrep).
  cbn [length app] in *. change (Z.of_nat 0) with 0 in Ea.
  assert (m_topology (g_command_hierarchy g2) = mkPerTopology new_SharedNodeTopology new_SharedNodeTopology) as Etop
    by (rewrite Ht2, (same_topologies _ _ Hs1); done).
  eexists. split.
  - unfold Gfxr_CreateTrees, mbind, Gfxr_bind, g_modify. fold g0. rewrite E1, E2.
    unfold Gfxr_CreateTopologies, mbind, Gfxr_bind, g_get, g_check, g_modify. rewrite Hc, Etop.
    cbn [of_type at_all_event]. change (topology (SetNumSharedNodes (length cs) new_SharedNodeTopology))
      with (SetNumNodes (length cs) new_Topology). rewrite Ea. cbn. reflexivity.
  - unfold GetAllEventHierarchyTopology. cbn. split; [done|]. split; [done|]. split; [done|].
    apply Hw; [done|]. unfold vec_size in *. lia.
Qed.

(** Commands that are outside of command buffers do not appear below the submit that they
    belong to: they are added below the command buffer that was begun last, which belongs to
    an earlier submit, or below the root when there is none yet; the new submit gets no
    children from them. *)
Theorem loose_commands_misplaced fuel i (s : GfxrSubmitInfo J) items o cb g st :
  shows o g st -> (0 < length (fst st))%nat -> in_arrays o cb st -> at_place cb [] g ->
  (g_used_in_mixed_command_hierarchy g = true -> 0 < o) ->
  Forall (item_ok fuel) items -> none_cmd_vk_commands s = concat (commands_in <$> items) ->
  exists g', (OnGfxrSubmit i s ;; ProcessVkCmds fuel (none_cmd_vk_commands s) 0 []) g = Done (Gives (true, g')) /\
    g_cur_submit_node_index g' = o + vec_size (fst st) /\
    shows o g' (emit o cb (fst (item_trees fuel 0 [] items))
      (emit o o [TNode kGfxrVulkanSubmitNode (submit_text i s) []] st)).
Proof.
  intros Hg Hn Hin Hp Hmixed Hitems Hcmds. destruct st as [ns cs]. pose proof (sh_ok _ _ _ Hg) as Hok.
  destruct (AddNode_shows o g _ kGfxrVulkanSubmitNode (submit_text i s) Hg) as (g1 & E1 & Hg1 & Hs1). cbn [fst snd] in *.
  destruct (AddChild_root o g1 _ _ (o + vec_size ns) Hg1) as (g2 & E2 & Hg2 & Hs2).
  { rewrite length_app. cbn. lia. }
  { rewrite (same_mixed _ _ Hs1). done. }
  pose proof (same_parse_trans _ _ _ Hs1 Hs2) as Hs12.
  rewrite alter_app_l in Hg2 by (unfold arrays_ok in Hok; cbn in Hok; lia).
  pose proof (emit_node o o kGfxrVulkanSubmitNode (submit_text i s) ns cs) as Een. rewrite Z.sub_diag in Een.
  change (Z.to_nat 0) with 0%nat in Een. rewrite <- Een in Hg2.
  pose proof (runs_items fuel 0 items ltac:(apply Forall_forall; intros it _; apply runs_item) Hitems []) as Hr.
  destruct (Hr o cb [] (set_cur_submit (o + vec_size ns) g2) _ [] (shows_submit _ _ _ _ Hg2) (emit_in _ _ _ _ _ Hin))
    as (g3 & E3 & Hg3 & Hs3).
  { destruct (same_place _ _ _ _ Hs12 Hp). by split. }
  exists (set_parent_stack [] g3). split; [|split; [by destruct Hs3|by apply shows_stack]].
  unfold OnGfxrSubmit, ProcessVkCmds, submit_desc. fold (submit_text i s). rewrite Hcmds. rewrite app_nil_r in E3.
  unfold mbind, Gfxr_bind. rewrite E1, E2. cbn [g_modify]. unfold g_modify. by rewrite E3.
Qed.
End Properties.

(** ** Examples *)

Module Example.
Import SimpleJson.

Definition label_begin (h : Z) (name : string) : VulkanCommandInfo Json :=
  mkCommand (Obj [("commandBuffer", Num h); ("pLabelInfo", Obj [("pLabelName", Str name)])]) "vkCmdBeginDebugUtilsLabelEXT" 0.

(** A label around a render pass with a draw, and a dispatch. *)
Definition buffer (h : Z) : recorded Json :=
  mkRecorded (command h "vkBeginCommandBuffer")
    [Label (label_begin h "shadows")
       [Pass (command h "vkCmdBeginRenderPass") [Command (command h "vkCmdDraw")] (command h "vkCmdEndRenderPass")]
       (command h "vkCmdEndDebugUtilsLabelEXT");
     Command (command h "vkCmdDispatch")]
    (command h "vkEndCommandBuffer").

Definition calls : list (VulkanCommandInfo Json) := recorded_commands (buffer 7) ++ [queue_submit [7]].

Definition capture : GfxrCommands Json :=
  match process_blocks calls new_AnnotationProcessor with Gives p => take_commands p | _ => mkGfxrCommands [] ∅ ∅ end.

Definition recs : gmap Z (recorded Json) := {[7 := buffer 7]}.

(** Concrete classes and depths. *)
Ltac compute_class := vm_compute; reflexivity.
Lemma fits c : (depth (cmd_args c) <? 9)%nat = true -> args_fit (J:=Json) 9 c.
Proof. intros Hc. by apply Nat.ltb_lt. Qed.

Lemma buffer_ok : recorded_ok 9 (buffer 7).
Proof.
  split; [compute_class|compute_class| |apply fits; compute_class|apply fits; compute_class].
  constructor; [|constructor; [|constructor]].
  - apply Label_ok with "shadows"; [compute_class|compute_class|compute_class|apply fits; compute_class|].
    constructor; [|constructor].
    apply Pass_ok; [compute_class|compute_class|apply fits; compute_class|apply fits; compute_class|].
    constructor; [|constructor]. apply Command_ok; [left; compute_class|apply fits; compute_class].
  - apply Command_ok; [left; compute_class|apply fits; compute_class].
Qed.

Lemma capture_is : GetGfxrSubmits capture = [mkGfxrSubmit [] [7] "vkQueueSubmit"] /\
  m_gfxr_draw_call_counts capture !! 7 = Some (mkCounts 1 [1]) /\
  m_gfxr_command_buffers capture !! 7 = Some (recorded_commands (buffer 7)).
Proof. repeat split; vm_compute; reflexivity. Qed.

Lemma capture_is_ok : capture_ok 9 capture recs.
Proof.
  destruct capture_is as (Hs & Hc & Hb). split.
  - intros s h Hin Hh. rewrite Hs in Hin. apply list_elem_of_singleton in Hin. subst s.
    apply list_elem_of_singleton in Hh. subst h. exists (mkCounts 1 [1]), (buffer 7).
    split; [done|]. split; [vm_compute; reflexivity|]. split; [apply buffer_ok|done].
  - intros s Hin. rewrite Hs in Hin. apply list_elem_of_singleton in Hin. by subst s.
Qed.
End Example.

Lemma capture_displayed_witness : exists g,
  Gfxr_CreateTrees 9 false Example.capture (new_GfxrCreator new_CommandHierarchy) = Done (Gives (true, g)) /\
  displays (capture_tree 9 Example.capture Example.recs) (g_command_hierarchy g) /\
  vec_size (fst (layout 0 (capture_tree 9 Example.capture Example.recs))) = 19.
Proof.
  destruct (capture_displayed 9 Example.capture Example.recs new_CommandHierarchy) as (g & Hg & Hd).
  - apply Example.capture_is_ok.
  - vm_compute. reflexivity.
  - exists g. split; [exact Hg|]. split; [exact Hd|vm_compute; reflexivity].
Defined.

Definition example_state : GfxrCreator :=
  match (Gfxr_AddNode kRootNode "" ;; ProcessGfxrSubmits 9 Example.capture) (new_GfxrCreator new_CommandHierarchy) with
  | Done (Gives (_, g)) => g
  | _ => new_GfxrCreator new_CommandHierarchy
  end.

(** A second submit whose only command is outside of command buffers: the command
    becomes a child of node 3, the command buffer of the first submit. *)
Lemma loose_commands_misplaced_witness :
  g_cur_command_buffer_node_index example_state = 3 /\ at_place 3 [] example_state /\
  exists st g',
  (OnGfxrSubmit 1 (mkGfxrSubmit [SimpleJson.other "vkQueuePresentKHR"] [] "vkQueueSubmit") ;;
   ProcessVkCmds 9 [SimpleJson.other "vkQueuePresentKHR"] 0 []) example_state = Done (Gives (true, g')) /\
  g_cur_submit_node_index g' = 19 /\
  shows 0 g' (emit 0 3 [command_tree 9 (SimpleJson.other "vkQueuePresentKHR")]
    (emit 0 0 [TNode kGfxrVulkanSubmitNode "vkQueueSubmit: 1, Command Buffer Count: 0" []] st)).
Proof.
  split; [vm_compute; reflexivity|]. split; [split; vm_compute; reflexivity|].
  set (st := layout 0 (capture_tree 9 Example.capture Example.recs)).
  assert (vec_size (fst st) = 19) as El by (vm_compute; reflexivity).
  assert (shows 0 example_state st) as Hg.
  { split; try (intros Hm; vm_compute in Hm; discriminate Hm).
    - exists []. split; vm_compute; reflexivity.
    - exists []. split; vm_compute; reflexivity.
    - split; vm_compute; reflexivity.
    - vm_compute; reflexivity.
    - vm_compute; reflexivity.
    - reflexivity. }
  exists st.
  destruct (loose_commands_misplaced 9 1 (mkGfxrSubmit [SimpleJson.other "vkQueuePresentKHR"] [] "vkQueueSubmit")
    [Command (SimpleJson.other "vkQueuePresentKHR")] 0 3 example_state st Hg) as (g' & E & Ei & Hg').
  - unfold vec_size in El. lia.
  - unfold in_arrays. lia.
  - split; vm_compute; reflexivity.
  - intros Hm. vm_compute in Hm. discriminate Hm.
  - constructor; [|constructor]. apply Command_ok; [right; vm_compute; reflexivity|apply Example.fits; vm_compute; reflexivity].
  - reflexivity.
  - exists g'. split; [exact E|]. split; [rewrite Ei, El; reflexivity|exact Hg'].
Defined.
