(* ===== verification/EventInfo.v ===== *)
(** * EventInfo: which packets are events

    Models the functions of [src/dive_core/capture_event_info.{h,cpp}] that find
    the draws, dispatches, blits and synchronizations among the packets of a
    capture and describe them. The packet structures and the tables about them are
    generated by the build: the class [Pm4Info] gives the size of a structure and
    its fields by name, the enumerators, and the tables of [pm4_info.h]. *)

From stdpp Require Import strings pretty.
From S2P Require Import Prelude Wire Memory Pm4 StateTracker.
From coqutil Require Import Byte.

#[local] Open Scope Z_scope.

(** ** Generated information *)

Inductive ValueType :=
  | kBoolean | kUint | kInt | kFloat | kFixed | kUFixed | kAddress | kWaddress | kHex | kRegID | kOther.

#[global] Instance ValueType_eq_dec : EqDecision ValueType.
Proof. solve_decision. Defined.

(** An enumeration handle of [UINT8_MAX] is none. *)
Record RegField := mkRegField {
  rf_name : string;
  rf_type : ValueType;
  rf_enum_handle : option Z;
  rf_shift : Z;
  rf_shr : Z;
  rf_bit_width : Z;
  rf_radix : Z;
  rf_mask : Z
}.

Record RegInfo := mkRegInfo {
  ri_name : string;
  ri_is_64_bit : bool;
  ri_type : ValueType;
  ri_enum_handle : option Z;
  ri_shr : Z;
  ri_bit_width : Z;
  ri_radix : Z;
  ri_fields : list RegField
}.

Record PacketField := mkPacketField {
  pf_name : string;
  pf_dword : Z;
  pf_type : ValueType;
  pf_enum_handle : option Z;
  pf_shift : Z;
  pf_shr : Z;
  pf_mask : Z
}.

Record PacketInfo := mkPacketInfo {
  pi_name : string;
  pi_max_array_size : Z;
  pi_fields : list PacketField
}.

(** [sizeof_packet] and [packet_field] are indexed by the names in the source; an
    enumerator is a value. [print_float], [print_fixed] and [print_double] are the
    formatting of floating-point numbers: of the bits of a float, by default and with
    six digits in eleven columns, and of [n / 2^radix]. *)
Class Pm4Info := {
  sizeof_packet : string -> nat;
  packet_field : string -> list byte -> Z;
  CP_BLIT : Z;
  CP_EVENT_WRITE7 : Z;
  CP_WAIT_MEM_WRITES : Z;
  CP_WAIT_FOR_IDLE : Z;
  CP_WAIT_FOR_ME : Z;
  CP_LOAD_STATE6 : Z;
  CP_LOAD_STATE6_GEOM : Z;
  CP_LOAD_STATE6_FRAG : Z;
  CP_MEM_TO_REG : Z;
  enumerator : string -> Z;
  GetOpCodeString : Z -> string;
  GetRegOffsetByName : string -> Z;
  GetFullRegInfo : Z -> option RegInfo;
  GetPacketInfo : Z -> option PacketInfo;
  GetSharpInfo : string -> option PacketInfo;
  GetEnumString : Z -> Z -> option string;
  print_float : Z -> string;
  print_fixed : Z -> string;
  print_double : Z -> Z -> string
}.

(** ** Formatting *)

(** Lower-case hexadecimal, without leading zeros. *)
Definition hex_digit (d : Z) : Ascii.ascii :=
  match String.get (Z.to_nat d) "0123456789abcdef" with Some a => a | None => Ascii.zero end.

Fixpoint hex_digits (fuel : nat) (z : Z) (acc : string) : string :=
  match fuel with
  | O => acc
  | S fuel =>
      let acc := String (hex_digit (z mod 16)) acc in
      if z / 16 =? 0 then acc else hex_digits fuel (z / 16) acc
  end.

(** Of a 64-bit value. *)
Definition hex (z : Z) : string := hex_digits 16 z "".

(** ** Reading packets *)

Definition kUInt32Max : Z := 2 ^ 32 - 1.

Section Events.
Context `{AdrenoPm4} `{Pm4Info} {M : Type} `{IMemoryManager M}.

(** Operations read the memory, which caches. *)
Definition Reads (A : Type) : Type := M -> outcome (A * M).
#[local] Instance Reads_ret : MRet Reads := fun A a mem => Done (a, mem).
#[local] Instance Reads_bind : MBind Reads := fun A B k m mem => '(a, mem) ← m mem; k a mem.

Definition given {A} (o : outcome A) : Reads A := fun mem => a ← o; Done (a, mem).

(** A zeroed structure into which all of it, or the dwords of the packet and its
    header, are read. *)
Definition read_struct (name : string) (submit_index va_addr : Z) : Reads (list byte) :=
  retrieve (sizeof_packet name) (sizeof_packet name) submit_index va_addr.
Definition read_dwords (name : string) (count submit_index va_addr : Z) : Reads (list byte) :=
  retrieve (sizeof_packet name) (Z.to_nat ((count + 1) * 4)) submit_index va_addr.

(** ** Synchronization *)

Inductive SyncType :=
  | kColorSysMemToGmemResolve | kColorGmemToSysMemResolve | kColorGmemToSysMemResolveAndClear | kColorClearGmem
  | kDepthSysMemToGmemResolve | kDepthGmemToSysMemResolve | kDepthGmemToSysMemResolveAndClear | kDepthClearGmem
  | kWaitMemWrites | kWaitForIdle | kWaitForMe | kNone.

(** The values of the enumeration, which go on after [CACHE_INVALIDATE7]. *)
Definition SyncType_to_Z (t : SyncType) : Z :=
  enumerator "CACHE_INVALIDATE7" +
  match t with
  | kColorSysMemToGmemResolve => 1 | kColorGmemToSysMemResolve => 2 | kColorGmemToSysMemResolveAndClear => 3
  | kColorClearGmem => 4 | kDepthSysMemToGmemResolve => 5 | kDepthGmemToSysMemResolve => 6
  | kDepthGmemToSysMemResolveAndClear => 7 | kDepthClearGmem => 8 | kWaitMemWrites => 9 | kWaitForIdle => 10
  | kWaitForMe => 11 | kNone => 12
  end.

(** The [switch] on the type of a resolve. *)
Definition resolve_type (type : Z) (depth : bool) : SyncType :=
  if type =? enumerator "BLIT_EVENT_STORE" then
    if depth then kDepthGmemToSysMemResolve else kColorGmemToSysMemResolve
  else if type =? enumerator "BLIT_EVENT_STORE_AND_CLEAR" then
    if depth then kDepthGmemToSysMemResolveAndClear else kColorGmemToSysMemResolveAndClear
  else if type =? enumerator "BLIT_EVENT_CLEAR" then
    if depth then kDepthClearGmem else kColorClearGmem
  else if type =? enumerator "BLIT_EVENT_LOAD" then
    if depth then kDepthSysMemToGmemResolve else kColorSysMemToGmemResolve
  else kNone.

(** The register is a structure of 32 bits. *)
Definition resolve_of_register (value : Z) : SyncType :=
  let bytes := le_split 4 value in
  resolve_type (packet_field "RB_RESOLVE_OPERATION.bitfields.TYPE" bytes)
    (negb (packet_field "RB_RESOLVE_OPERATION.bitfields.DEPTH" bytes =? 0)).

Definition GetSyncType (submit_index addr opcode : Z) (state_tracker : EmulateStateTracker) : Reads SyncType :=
  if opcode =? CP_EVENT_WRITE7 then
    packet ← read_struct "PM4_CP_EVENT_WRITE" submit_index addr;
    if packet_field "PM4_CP_EVENT_WRITE.bitfields0.EVENT" packet =? enumerator "CCU_RESOLVE" then
      let offset := GetRegOffsetByName "RB_RESOLVE_OPERATION" in
      is_set ← given (IsRegSet_current offset state_tracker);
      if (is_set : bool) then
        value ← given (GetRegValue_current offset state_tracker);
        mret (resolve_of_register value)
      else mret kNone
    else mret kNone
  else if opcode =? CP_WAIT_MEM_WRITES then mret kWaitMemWrites
  else if opcode =? CP_WAIT_FOR_IDLE then mret kWaitForIdle
  else if opcode =? CP_WAIT_FOR_ME then mret kWaitForMe
  else mret kNone.

(** ** Events *)

Definition IsEvent (submit_index addr opcode : Z) (state_tracker : EmulateStateTracker) : Reads bool :=
  if IsDrawDispatchEventOpcode opcode then mret true
  else if opcode =? CP_BLIT then mret true
  else
    sync_type ← GetSyncType submit_index addr opcode state_tracker;
    mret (match sync_type with kNone => false | _ => true end).

(** [Util::EventType], an enumeration over a byte. *)
Definition kUnknown : Z := 0.
Definition kDraw : Z := 1.
Definition kDispatch : Z := 2.
Definition kBlit : Z := 3.

Definition EventType_of_sync (t : SyncType) : Z :=
  match t with
  | kColorSysMemToGmemResolve => 4 | kColorGmemToSysMemResolve => 5 | kColorGmemToSysMemResolveAndClear => 6
  | kColorClearGmem => 7 | kDepthSysMemToGmemResolve => 8 | kDepthGmemToSysMemResolve => 9
  | kDepthGmemToSysMemResolveAndClear => 10 | kDepthClearGmem => 11
  | kWaitMemWrites => 13 | kWaitForIdle => 14 | kWaitForMe => 15
  | kNone => kUnknown
  end.

Definition GetEventType (submit_index va_addr opcode : Z) (state_tracker : EmulateStateTracker) : Reads Z :=
  if IsDrawEventOpcode opcode then mret kDraw
  else if IsDispatchEventOpcode opcode then mret kDispatch
  else if opcode =? CP_BLIT then mret kBlit
  else
    sync_type ← GetSyncType submit_index va_addr opcode state_tracker;
    mret (EventType_of_sync sync_type).

(** ** Descriptions

    A manipulator [std::hex] stays in force until [std::dec]. *)
Definition draw_indx_string (packet : list byte) : string :=
  "DrawIndexOffset(NumIndices:" +:+ pretty (packet_field "PM4_CP_DRAW_INDX.bitfields2.NUM_INDICES" packet) +:+ ")".

Definition draw_indx_offset_string (packet : list byte) : string :=
  let f name := packet_field ("PM4_CP_DRAW_INDX_OFFSET." +:+ name) packet in
  let source := f "bitfields0.SOURCE_SELECT" in
  "DrawIndexOffset(" +:+
  (if source =? enumerator "DI_SRC_SEL_AUTO_INDEX" then
     "AutoIndex,NumIndices:" +:+ pretty (f "bitfields2.NUM_INDICES") +:+ ",NumInstances:"
     +:+ pretty (f "bitfields1.NUM_INSTANCES") +:+ ")"
   else if source =? enumerator "DI_SRC_SEL_DMA" then
     "NumIndices:" +:+ pretty (f "bitfields2.NUM_INDICES") +:+ ",NumInstances:"
     +:+ pretty (f "bitfields1.NUM_INSTANCES") +:+ ",IndexBase:0x" +:+ hex (f "INDX_BASE") +:+ ")"
   else ")").

Definition address_of (hi lo : Z) : Z := Z.lor (Z.shiftl hi 32) lo.

Definition draw_indirect_string (packet : list byte) : string :=
  let f name := packet_field ("PM4_CP_DRAW_INDIRECT." +:+ name) packet in
  "DrawIndirect(Indirect:0x" +:+ pretty (address_of (f "bitfields2.INDIRECT_HI") (f "bitfields1.INDIRECT_LO")) +:+ ")".

Definition draw_indx_indirect_string (packet : list byte) : string :=
  let f name := packet_field ("PM4_CP_DRAW_INDX_INDIRECT." +:+ name) packet in
  "DrawIndexIndirect(IndexBase:0x" +:+ hex (address_of (f "bitfields2.INDX_BASE_HI") (f "bitfields1.INDX_BASE_LO"))
  +:+ ",MaxIndices:" +:+ pretty (f "bitfields3.MAX_INDICES") +:+ ",Indirect:0x"
  +:+ hex (address_of (f "bitfields5.INDIRECT_HI") (f "bitfields4.INDIRECT_LO")) +:+ ")".

(** The variants of [CP_DRAW_INDIRECT_MULTI]. *)
Definition multi_normal_string (packet : list byte) : string :=
  let f name := packet_field ("PM4_CP_DRAW_INDIRECT_MULTI_INDIRECT_OP_NORMAL." +:+ name) packet in
  "DrawIndirectMulti(DrawCount:" +:+ pretty (f "DRAW_COUNT") +:+ ",Indirect:0x" +:+ hex (f "INDIRECT") +:+ ",Stride:"
  +:+ pretty (f "STRIDE") +:+ ",DstOff:" +:+ pretty (f "bitfields1.DST_OFF") +:+ ")".

Definition multi_indexed_string (packet : list byte) : string :=
  let f name := packet_field ("PM4_CP_DRAW_INDIRECT_MULTI_INDEXED." +:+ name) packet in
  "DrawIndirectMultiIndexed(DrawCount:" +:+ pretty (f "DRAW_COUNT") +:+ ",Index:0x" +:+ hex (f "INDEX")
  +:+ ",MaxIndices:" +:+ pretty (f "MAX_INDICES") +:+ ",Indirect:0x" +:+ hex (f "INDIRECT") +:+ ",Stride:"
  +:+ pretty (f "STRIDE") +:+ ",DstOff:" +:+ pretty (f "bitfields1.DST_OFF") +:+ ")".

Definition multi_indirect_string (packet : list byte) : string :=
  let f name := packet_field ("PM4_CP_DRAW_INDIRECT_MULTI_INDIRECT." +:+ name) packet in
  "DrawIndirectMultiIndirect(DrawCount:" +:+ pretty (f "DRAW_COUNT") +:+ ",Indirect:0x" +:+ hex (f "INDIRECT")
  +:+ ",IndirectCount:" +:+ pretty (f "INDIRECT_COUNT") +:+ ",Stride:" +:+ pretty (f "STRIDE") +:+ ",DstOff:"
  +:+ pretty (f "bitfields1.DST_OFF") +:+ ")".

Definition multi_indirect_indexed_string (packet : list byte) : string :=
  let f name := packet_field ("PM4_CP_DRAW_INDIRECT_MULTI_INDIRECT_INDEXED." +:+ name) packet in
  "DrawIndirectMultiIndirectIndexed(DrawCount:" +:+ pretty (f "DRAW_COUNT") +:+ ",Index:0x" +:+ hex (f "INDEX")
  +:+ ",MaxIndices:" +:+ pretty (f "MAX_INDICES") +:+ ",Indirect:0x" +:+ hex (f "INDIRECT") +:+ ",IndirectCount:"
  +:+ pretty (f "INDIRECT_COUNT") +:+ ",Stride:" +:+ pretty (f "STRIDE") +:+ ",DstOff:"
  +:+ pretty (f "bitfields1.DST_OFF") +:+ ")".

Definition draw_indirect_multi_string (submit_index va_addr : Z) : Reads string :=
  base_packet ← read_struct "PM4_CP_DRAW_INDIRECT_MULTI_INDIRECT_OP_NORMAL" submit_index va_addr;
  let op := packet_field "PM4_CP_DRAW_INDIRECT_MULTI_INDIRECT_OP_NORMAL.bitfields1.OPCODE" base_packet in
  if op =? enumerator "INDIRECT_OP_NORMAL" then mret (multi_normal_string base_packet)
  else if op =? enumerator "INDIRECT_OP_INDEXED" then
    packet ← read_struct "PM4_CP_DRAW_INDIRECT_MULTI_INDEXED" submit_index va_addr; mret (multi_indexed_string packet)
  else if op =? enumerator "INDIRECT_OP_INDIRECT_COUNT" then
    packet ← read_struct "PM4_CP_DRAW_INDIRECT_MULTI_INDIRECT" submit_index va_addr; mret (multi_indirect_string packet)
  else if op =? enumerator "INDIRECT_OP_INDIRECT_COUNT_INDEXED" then
    packet ← read_struct "PM4_CP_DRAW_INDIRECT_MULTI_INDIRECT_INDEXED" submit_index va_addr;
    mret (multi_indirect_indexed_string packet)
  else mret "".

Definition draw_auto_string (packet : list byte) : string :=
  "DrawAuto(NumInstances:" +:+ pretty (packet_field "PM4_CP_DRAW_AUTO.bitfields1.NUM_INSTANCES" packet)
  +:+ ",CounterBuffer:" +:+ pretty (packet_field "PM4_CP_DRAW_AUTO.NUM_VERTICES_BASE" packet) +:+ ")".

Definition exec_cs_indirect_string (packet : list byte) : string :=
  let f name := packet_field ("PM4_CP_EXEC_CS_INDIRECT." +:+ name) packet in
  "ExecCsIndirect(x:" +:+ pretty (f "bitfields2.LOCALSIZEX") +:+ ",y:" +:+ pretty (f "bitfields2.LOCALSIZEY") +:+ ",z:"
  +:+ pretty (f "bitfields2.LOCALSIZEZ") +:+ ",Addr:0x" +:+ hex (f "ADDR") +:+ ")".

Definition exec_cs_string (packet : list byte) : string :=
  let f name := packet_field ("PM4_CP_EXEC_CS." +:+ name) packet in
  "ExecCsIndirect(x:" +:+ pretty (f "bitfields1.NGROUPS_X") +:+ ",y:" +:+ pretty (f "bitfields2.NGROUPS_Y") +:+ ",z:"
  +:+ pretty (f "bitfields3.NGROUPS_Z") +:+ ")".

Definition blit_string (count : Z) (packet : list byte) : string :=
  let f name := packet_field ("PM4_CP_BLIT." +:+ name) packet in
  let op := f "bitfields0.OP" in
  "CpBlit(op:" +:+
  (if op =? enumerator "BLIT_OP_FILL" then "BLIT_OP_FILL"
   else if op =? enumerator "BLIT_OP_COPY" then "BLIT_OP_COPY"
   else if op =? enumerator "BLIT_OP_SCALE" then "BLIT_OP_SCALE" else "") +:+
  (if 2 <? count then
     ",srcX1:" +:+ pretty (f "bitfields1.SRC_X1") +:+ ",srcY1:" +:+ pretty (f "bitfields1.SRC_Y1") +:+ ",srcX2:"
     +:+ pretty (f "bitfields2.SRC_X2") +:+ ",srcY2:" +:+ pretty (f "bitfields2.SRC_Y2") +:+ ",dstX1:"
     +:+ pretty (f "bitfields3.DST_X1") +:+ ",dstX1:" +:+ pretty (f "bitfields3.DST_Y1") +:+ ",dstX2:"
     +:+ pretty (f "bitfields4.DST_X2") +:+ ",dstX2:" +:+ pretty (f "bitfields4.DST_Y2")
   else "") +:+ ")".

(** [None] for a type that is no resolve. *)
Definition resolve_string (t : SyncType) : option string :=
  match t with
  | kColorSysMemToGmemResolve => Some "Resolve(Color,SysMem-To-Gmem)"
  | kColorGmemToSysMemResolve => Some "Resolve(Color,Gmem-To-SysMem)"
  | kColorGmemToSysMemResolveAndClear => Some "Resolve(Color,Gmem-To-SysMem,ClearGmem)"
  | kColorClearGmem => Some "Resolve(Color,ClearGmem)"
  | kDepthSysMemToGmemResolve => Some "Resolve(Depth,SysMem-To-Gmem)"
  | kDepthGmemToSysMemResolve => Some "Resolve(Depth,Gmem-To-SysMem)"
  | kDepthGmemToSysMemResolveAndClear => Some "Resolve(Depth,Gmem-To-SysMem,ClearGmem)"
  | kDepthClearGmem => Some "Resolve(Depth,ClearGmem)"
  | _ => None
  end.

(** [OutOfBounds] where a table has no entry: the source goes through the null
    pointer. *)
Definition event_write_string (opcode : Z) (t : SyncType) : outcome string :=
  match resolve_string t with
  | Some s => Done s
  | None =>
      match GetPacketInfo opcode with
      | Some info =>
          match pi_fields info with
          | f :: _ =>
              match GetEnumString (default 255 (pf_enum_handle f)) (SyncType_to_Z t) with
              | Some s => Done ("CpEventWrite(type:" +:+ s +:+ ")")
              | None => OutOfBounds
              end
          | [] => OutOfBounds
          end
      | None => OutOfBounds
      end
  end.

(** The header is that of a type-7 packet. *)
Definition GetEventString (submit_index va_addr header : Z) (state_tracker : EmulateStateTracker) : Reads string :=
  let opcode := type7_opcode header in
  let count := type7_count header in
  if opcode =? CP_DRAW_INDX then
    packet ← read_struct "PM4_CP_DRAW_INDX" submit_index va_addr; mret (draw_indx_string packet)
  else if opcode =? CP_DRAW_INDX_OFFSET then
    packet ← read_dwords "PM4_CP_DRAW_INDX_OFFSET" count submit_index va_addr; mret (draw_indx_offset_string packet)
  else if opcode =? CP_DRAW_INDIRECT then
    packet ← read_struct "PM4_CP_DRAW_INDIRECT" submit_index va_addr; mret (draw_indirect_string packet)
  else if opcode =? CP_DRAW_INDX_INDIRECT then
    packet ← read_struct "PM4_CP_DRAW_INDX_INDIRECT" submit_index va_addr; mret (draw_indx_indirect_string packet)
  else if opcode =? CP_DRAW_INDIRECT_MULTI then draw_indirect_multi_string submit_index va_addr
  else if opcode =? CP_DRAW_AUTO then
    packet ← read_struct "PM4_CP_DRAW_AUTO" submit_index va_addr; mret (draw_auto_string packet)
  else if opcode =? CP_EXEC_CS_INDIRECT then
    packet ← read_struct "PM4_CP_EXEC_CS_INDIRECT" submit_index va_addr; mret (exec_cs_indirect_string packet)
  else if opcode =? CP_EXEC_CS then
    packet ← read_struct "PM4_CP_EXEC_CS" submit_index va_addr; mret (exec_cs_string packet)
  else if opcode =? CP_BLIT then
    packet ← read_dwords "PM4_CP_BLIT" count submit_index va_addr; mret (blit_string count packet)
  else if opcode =? CP_EVENT_WRITE7 then
    sync_type ← GetSyncType submit_index va_addr opcode state_tracker;
    given (event_write_string opcode sync_type)
  else if opcode =? CP_WAIT_MEM_WRITES then mret "CpWaitMemWrites()"
  else if opcode =? CP_WAIT_FOR_IDLE then mret "CpWaitForIdle()"
  else if opcode =? CP_WAIT_FOR_ME then mret "CpWaitForMe()"
  else mret "".

(** ** Draws *)

Definition ShouldIgnoreEventDuringCorrelation (submit_index va_addr header : Z) : Reads bool :=
  if negb (type7_opcode header =? CP_DRAW_INDX_OFFSET) then mret false
  else
    packet ← read_dwords "PM4_CP_DRAW_INDX_OFFSET" (type7_count header) submit_index va_addr;
    mret (packet_field "PM4_CP_DRAW_INDX_OFFSET.bitfields0.PRIM_TYPE" packet =? enumerator "DI_PT_RECTLIST").

Definition GetIndexCount (submit_index va_addr header : Z) : Reads Z :=
  if type7_opcode header =? CP_DRAW_INDX then
    packet ← read_struct "PM4_CP_DRAW_INDX" submit_index va_addr;
    mret (packet_field "PM4_CP_DRAW_INDX.bitfields2.NUM_INDICES" packet)
  else if type7_opcode header =? CP_DRAW_INDX_OFFSET then
    packet ← read_dwords "PM4_CP_DRAW_INDX_OFFSET" (type7_count header) submit_index va_addr;
    mret (packet_field "PM4_CP_DRAW_INDX_OFFSET.bitfields2.NUM_INDICES" packet)
  else mret 0.

Inductive VkPrimitiveTopology :=
  | VK_PRIMITIVE_TOPOLOGY_POINT_LIST | VK_PRIMITIVE_TOPOLOGY_LINE_LIST | VK_PRIMITIVE_TOPOLOGY_LINE_STRIP
  | VK_PRIMITIVE_TOPOLOGY_TRIANGLE_LIST | VK_PRIMITIVE_TOPOLOGY_TRIANGLE_STRIP | VK_PRIMITIVE_TOPOLOGY_TRIANGLE_FAN
  | VK_PRIMITIVE_TOPOLOGY_LINE_LIST_WITH_ADJACENCY | VK_PRIMITIVE_TOPOLOGY_LINE_STRIP_WITH_ADJACENCY
  | VK_PRIMITIVE_TOPOLOGY_TRIANGLE_LIST_WITH_ADJACENCY | VK_PRIMITIVE_TOPOLOGY_TRIANGLE_STRIP_WITH_ADJACENCY.

Definition topology_of (gpu_type : Z) : option VkPrimitiveTopology :=
  if gpu_type =? enumerator "DI_PT_LINELIST" then Some VK_PRIMITIVE_TOPOLOGY_LINE_LIST
  else if gpu_type =? enumerator "DI_PT_LINESTRIP" then Some VK_PRIMITIVE_TOPOLOGY_LINE_STRIP
  else if gpu_type =? enumerator "DI_PT_TRILIST" then Some VK_PRIMITIVE_TOPOLOGY_TRIANGLE_LIST
  else if gpu_type =? enumerator "DI_PT_TRIFAN" then Some VK_PRIMITIVE_TOPOLOGY_TRIANGLE_FAN
  else if gpu_type =? enumerator "DI_PT_TRISTRIP" then Some VK_PRIMITIVE_TOPOLOGY_TRIANGLE_STRIP
  else if gpu_type =? enumerator "DI_PT_POINTLIST" then Some VK_PRIMITIVE_TOPOLOGY_POINT_LIST
  else if gpu_type =? enumerator "DI_PT_LINE_ADJ" then Some VK_PRIMITIVE_TOPOLOGY_LINE_LIST_WITH_ADJACENCY
  else if gpu_type =? enumerator "DI_PT_LINESTRIP_ADJ" then Some VK_PRIMITIVE_TOPOLOGY_LINE_STRIP_WITH_ADJACENCY
  else if gpu_type =? enumerator "DI_PT_TRI_ADJ" then Some VK_PRIMITIVE_TOPOLOGY_TRIANGLE_LIST_WITH_ADJACENCY
  else if gpu_type =? enumerator "DI_PT_TRISTRIP_ADJ" then Some VK_PRIMITIVE_TOPOLOGY_TRIANGLE_STRIP_WITH_ADJACENCY
  else None.

Definition GetTopology (submit_index va_addr header : Z) : Reads (option VkPrimitiveTopology) :=
  let prim_dword_addr := va_addr + 4 + (if type7_opcode header =? CP_DRAW_INDX then 4 else 0) in
  fun mem =>
    let '(prim_dword, mem) := retrieve_dword submit_index (wrap 64 prim_dword_addr) mem in
    Done (topology_of (Z.land prim_dword 0x3f), mem).

(** ** Properties *)

(** The events are what has a type. *)
Lemma IsEvent_type submit_index addr opcode state_tracker mem b mem' :
  IsEvent submit_index addr opcode state_tracker mem = Done (b, mem') ->
  exists type mem'', GetEventType submit_index addr opcode state_tracker mem = Done (type, mem'') /\
    (b = true <-> type <> kUnknown).
Proof.
  unfold IsEvent, GetEventType, IsDrawDispatchEventOpcode.
  destruct (IsDrawEventOpcode opcode); cbn [orb].
  { intros [= <- <-]. eexists _, _. split; [reflexivity|done]. }
  destruct (IsDispatchEventOpcode opcode).
  { intros [= <- <-]. eexists _, _. split; [reflexivity|done]. }
  destruct (opcode =? CP_BLIT).
  { intros [= <- <-]. eexists _, _. split; [reflexivity|done]. }
  unfold mbind, Reads_bind, outcome_bind. destruct (GetSyncType _ _ _ _ mem) as [[t mem1]| |]; [|done|done].
  intros [= <- <-]. eexists _, _. split; [reflexivity|]. by destruct t.
Qed.
End Events.
