(* ===== verification/DiveStrings.v ===== *)
(** * DiveStrings: names of enumerations

    Models [src/dive_core/dive_strings.{h,cpp}]: names of Vulkan and hardware
    enumerators, with the values of [vulkan_core.h] and [common.h], and the names of
    the bits that are set in a mask. *)

From S2P Require Import Prelude Wire.

#[local] Open Scope string_scope.
#[local] Open Scope Z_scope.

(** ** Tables *)

Definition kShaderStageStrings : list string := [
  "CS Shader"; "GS Shader"; "HS Shader"; "PS Shader"; "VS Shader"].

Definition kEngineTypeStrings : list string := [
  "Universal"; "Compute"; "Dma"; "Timer"; "Other"; "None"].

Definition kQueueTypeStrings : list string := [
  "Universal"; "Compute"; "Dma"; "Timer"; "Other"; "None"].

Definition kBufferDataFormatStrings : list string := [
  "INVALID"; "8"; "16"; "8_8"; "32"; "16_16"; "10_11_11"; "11_11_10"; "10_10_10_2"; "2_10_10_10"; "8_8_8_8"; "32_32";
  "16_16_16_16"; "32_32_32"; "32_32_32_32"; "RESERVED_15"].

Definition kBufferNumFormatStrings : list string := [
  "UNORM"; "SNORM"; "USCALED"; "SSCALED"; "UINT"; "SINT"; "RESERVED_6__GFX09"; "FLOAT"].

Definition kSqSelStrings : list string := [
  "0"; "1"; "N_BC_1"; "RESERVED_1"; "X"; "Y"; "Z"; "W"].

Definition kVgtEventTypeStrings : list string := [
  "Reserved_0x00"; "SAMPLE_STREAMOUTSTATS1"; "SAMPLE_STREAMOUTSTATS2"; "SAMPLE_STREAMOUTSTATS3"; "CACHE_FLUSH_TS";
  "CONTEXT_DONE"; "CACHE_FLUSH"; "CS_PARTIAL_FLUSH"; "VGT_STREAMOUT_SYNC"; "SET_FE_ID__GFX09"; "VGT_STREAMOUT_RESET";
  "END_OF_PIPE_INCR_DE"; "END_OF_PIPE_IB_END"; "RST_PIX_CNT"; "BREAK_BATCH"; "VS_PARTIAL_FLUSH"; "PS_PARTIAL_FLUSH";
  "FLUSH_HS_OUTPUT"; "FLUSH_DFSM"; "RESET_TO_LOWEST_VGT"; "CACHE_FLUSH_AND_INV_TS_EVENT"; "ZPASS_DONE";
  "CACHE_FLUSH_AND_INV_EVENT"; "PERFCOUNTER_START"; "PERFCOUNTER_STOP"; "PIPELINESTAT_START"; "PIPELINESTAT_STOP";
  "PERFCOUNTER_SAMPLE"; "Available_0x1c__GFX09"; "Available_0x1d__GFX09"; "SAMPLE_PIPELINESTAT";
  "SO_VGTSTREAMOUT_FLUSH"; "SAMPLE_STREAMOUTSTATS"; "RESET_VTX_CNT"; "BLOCK_CONTEXT_DONE"; "CS_CONTEXT_DONE";
  "VGT_FLUSH"; "TGID_ROLLOVER"; "SQ_NON_EVENT"; "SC_SEND_DB_VPZ"; "BOTTOM_OF_PIPE_TS"; "FLUSH_SX_TS";
  "DB_CACHE_FLUSH_AND_INV"; "FLUSH_AND_INV_DB_DATA_TS"; "FLUSH_AND_INV_DB_META"; "FLUSH_AND_INV_CB_DATA_TS";
  "FLUSH_AND_INV_CB_META"; "CS_DONE"; "PS_DONE"; "FLUSH_AND_INV_CB_PIXEL_DATA"; "SX_CB_RAT_ACK_REQUEST";
  "THREAD_TRACE_START"; "THREAD_TRACE_STOP"; "THREAD_TRACE_MARKER"; "THREAD_TRACE_FLUSH__GFX09";
  "THREAD_TRACE_FINISH"; "PIXEL_PIPE_STAT_CONTROL"; "PIXEL_PIPE_STAT_DUMP"; "PIXEL_PIPE_STAT_RESET";
  "CONTEXT_SUSPEND"; "OFFCHIP_HS_DEALLOC"; "ENABLE_NGG_PIPELINE"; "ENABLE_LEGACY_PIPELINE"; "Reserved_0x3f__GFX09"].

(** A [std::map] keeps the first of several entries with the same key, as the search
    in a list does. *)
Definition find_name (table : list (Z * string)) (value : Z) : option string :=
  snd <$> List.find (fun row => fst row =? value) table.

Definition sVkFormatToString : list (Z * string) := [
  (0, "VK_FORMAT_UNDEFINED"); (1, "VK_FORMAT_R4G4_UNORM_PACK8"); (2, "VK_FORMAT_R4G4B4A4_UNORM_PACK16");
  (3, "VK_FORMAT_B4G4R4A4_UNORM_PACK16"); (4, "VK_FORMAT_R5G6B5_UNORM_PACK16"); (5, "VK_FORMAT_B5G6R5_UNORM_PACK16");
  (6, "VK_FORMAT_R5G5B5A1_UNORM_PACK16"); (7, "VK_FORMAT_B5G5R5A1_UNORM_PACK16");
  (8, "VK_FORMAT_A1R5G5B5_UNORM_PACK16"); (9, "VK_FORMAT_R8_UNORM"); (10, "VK_FORMAT_R8_SNORM");
  (11, "VK_FORMAT_R8_USCALED"); (12, "VK_FORMAT_R8_SSCALED"); (13, "VK_FORMAT_R8_UINT"); (14, "VK_FORMAT_R8_SINT");
  (15, "VK_FORMAT_R8_SRGB"); (16, "VK_FORMAT_R8G8_UNORM"); (17, "VK_FORMAT_R8G8_SNORM");
  (18, "VK_FORMAT_R8G8_USCALED"); (19, "VK_FORMAT_R8G8_SSCALED"); (20, "VK_FORMAT_R8G8_UINT");
  (21, "VK_FORMAT_R8G8_SINT"); (22, "VK_FORMAT_R8G8_SRGB"); (23, "VK_FORMAT_R8G8B8_UNORM");
  (24, "VK_FORMAT_R8G8B8_SNORM"); (25, "VK_FORMAT_R8G8B8_USCALED"); (26, "VK_FORMAT_R8G8B8_SSCALED");
  (27, "VK_FORMAT_R8G8B8_UINT"); (28, "VK_FORMAT_R8G8B8_SINT"); (29, "VK_FORMAT_R8G8B8_SRGB");
  (30, "VK_FORMAT_B8G8R8_UNORM"); (31, "VK_FORMAT_B8G8R8_SNORM"); (32, "VK_FORMAT_B8G8R8_USCALED");
  (33, "VK_FORMAT_B8G8R8_SSCALED"); (34, "VK_FORMAT_B8G8R8_UINT"); (35, "VK_FORMAT_B8G8R8_SINT");
  (36, "VK_FORMAT_B8G8R8_SRGB"); (37, "VK_FORMAT_R8G8B8A8_UNORM"); (38, "VK_FORMAT_R8G8B8A8_SNORM");
  (39, "VK_FORMAT_R8G8B8A8_USCALED"); (40, "VK_FORMAT_R8G8B8A8_SSCALED"); (41, "VK_FORMAT_R8G8B8A8_UINT");
  (42, "VK_FORMAT_R8G8B8A8_SINT"); (43, "VK_FORMAT_R8G8B8A8_SRGB"); (44, "VK_FORMAT_B8G8R8A8_UNORM");
  (45, "VK_FORMAT_B8G8R8A8_SNORM"); (46, "VK_FORMAT_B8G8R8A8_USCALED"); (47, "VK_FORMAT_B8G8R8A8_SSCALED");
  (48, "VK_FORMAT_B8G8R8A8_UINT"); (49, "VK_FORMAT_B8G8R8A8_SINT"); (50, "VK_FORMAT_B8G8R8A8_SRGB");
  (51, "VK_FORMAT_A8B8G8R8_UNORM_PACK32"); (52, "VK_FORMAT_A8B8G8R8_SNORM_PACK32");
  (53, "VK_FORMAT_A8B8G8R8_USCALED_PACK32"); (54, "VK_FORMAT_A8B8G8R8_SSCALED_PACK32");
  (55, "VK_FORMAT_A8B8G8R8_UINT_PACK32"); (56, "VK_FORMAT_A8B8G8R8_SINT_PACK32");
  (57, "VK_FORMAT_A8B8G8R8_SRGB_PACK32"); (58, "VK_FORMAT_A2R10G10B10_UNORM_PACK32");
  (59, "VK_FORMAT_A2R10G10B10_SNORM_PACK32"); (60, "VK_FORMAT_A2R10G10B10_USCALED_PACK32");
  (61, "VK_FORMAT_A2R10G10B10_SSCALED_PACK32"); (62, "VK_FORMAT_A2R10G10B10_UINT_PACK32");
  (63, "VK_FORMAT_A2R10G10B10_SINT_PACK32"); (64, "VK_FORMAT_A2B10G10R10_UNORM_PACK32");
  (65, "VK_FORMAT_A2B10G10R10_SNORM_PACK32"); (66, "VK_FORMAT_A2B10G10R10_USCALED_PACK32");
  (67, "VK_FORMAT_A2B10G10R10_SSCALED_PACK32"); (68, "VK_FORMAT_A2B10G10R10_UINT_PACK32");
  (69, "VK_FORMAT_A2B10G10R10_SINT_PACK32"); (70, "VK_FORMAT_R16_UNORM"); (71, "VK_FORMAT_R16_SNORM");
  (72, "VK_FORMAT_R16_USCALED"); (73, "VK_FORMAT_R16_SSCALED"); (74, "VK_FORMAT_R16_UINT");
  (75, "VK_FORMAT_R16_SINT"); (76, "VK_FORMAT_R16_SFLOAT"); (77, "VK_FORMAT_R16G16_UNORM");
  (78, "VK_FORMAT_R16G16_SNORM"); (79, "VK_FORMAT_R16G16_USCALED"); (80, "VK_FORMAT_R16G16_SSCALED");
  (81, "VK_FORMAT_R16G16_UINT"); (82, "VK_FORMAT_R16G16_SINT"); (83, "VK_FORMAT_R16G16_SFLOAT");
  (84, "VK_FORMAT_R16G16B16_UNORM"); (85, "VK_FORMAT_R16G16B16_SNORM"); (86, "VK_FORMAT_R16G16B16_USCALED");
  (87, "VK_FORMAT_R16G16B16_SSCALED"); (88, "VK_FORMAT_R16G16B16_UINT"); (89, "VK_FORMAT_R16G16B16_SINT");
  (90, "VK_FORMAT_R16G16B16_SFLOAT"); (91, "VK_FORMAT_R16G16B16A16_UNORM"); (92, "VK_FORMAT_R16G16B16A16_SNORM");
  (93, "VK_FORMAT_R16G16B16A16_USCALED"); (94, "VK_FORMAT_R16G16B16A16_SSCALED");
  (95, "VK_FORMAT_R16G16B16A16_UINT"); (96, "VK_FORMAT_R16G16B16A16_SINT"); (97, "VK_FORMAT_R16G16B16A16_SFLOAT");
  (98, "VK_FORMAT_R32_UINT"); (99, "VK_FORMAT_R32_SINT"); (100, "VK_FORMAT_R32_SFLOAT");
  (101, "VK_FORMAT_R32G32_UINT"); (102, "VK_FORMAT_R32G32_SINT"); (103, "VK_FORMAT_R32G32_SFLOAT");
  (104, "VK_FORMAT_R32G32B32_UINT"); (105, "VK_FORMAT_R32G32B32_SINT"); (106, "VK_FORMAT_R32G32B32_SFLOAT");
  (107, "VK_FORMAT_R32G32B32A32_UINT"); (108, "VK_FORMAT_R32G32B32A32_SINT"); (109, "VK_FORMAT_R32G32B32A32_SFLOAT");
  (110, "VK_FORMAT_R64_UINT"); (111, "VK_FORMAT_R64_SINT"); (112, "VK_FORMAT_R64_SFLOAT");
  (113, "VK_FORMAT_R64G64_UINT"); (114, "VK_FORMAT_R64G64_SINT"); (115, "VK_FORMAT_R64G64_SFLOAT");
  (116, "VK_FORMAT_R64G64B64_UINT"); (117, "VK_FORMAT_R64G64B64_SINT"); (118, "VK_FORMAT_R64G64B64_SFLOAT");
  (119, "VK_FORMAT_R64G64B64A64_UINT"); (120, "VK_FORMAT_R64G64B64A64_SINT"); (121, "VK_FORMAT_R64G64B64A64_SFLOAT");
  (122, "VK_FORMAT_B10G11R11_UFLOAT_PACK32"); (123, "VK_FORMAT_E5B9G9R9_UFLOAT_PACK32");
  (124, "VK_FORMAT_D16_UNORM"); (125, "VK_FORMAT_X8_D24_UNORM_PACK32"); (126, "VK_FORMAT_D32_SFLOAT");
  (127, "VK_FORMAT_S8_UINT"); (128, "VK_FORMAT_D16_UNORM_S8_UINT"); (129, "VK_FORMAT_D24_UNORM_S8_UINT");
  (130, "VK_FORMAT_D32_SFLOAT_S8_UINT"); (131, "VK_FORMAT_BC1_RGB_UNORM_BLOCK");
  (132, "VK_FORMAT_BC1_RGB_SRGB_BLOCK"); (133, "VK_FORMAT_BC1_RGBA_UNORM_BLOCK");
  (134, "VK_FORMAT_BC1_RGBA_SRGB_BLOCK"); (135, "VK_FORMAT_BC2_UNORM_BLOCK"); (136, "VK_FORMAT_BC2_SRGB_BLOCK");
  (137, "VK_FORMAT_BC3_UNORM_BLOCK"); (138, "VK_FORMAT_BC3_SRGB_BLOCK"); (139, "VK_FORMAT_BC4_UNORM_BLOCK");
  (140, "VK_FORMAT_BC4_SNORM_BLOCK"); (141, "VK_FORMAT_BC5_UNORM_BLOCK"); (142, "VK_FORMAT_BC5_SNORM_BLOCK");
  (143, "VK_FORMAT_BC6H_UFLOAT_BLOCK"); (144, "VK_FORMAT_BC6H_SFLOAT_BLOCK"); (145, "VK_FORMAT_BC7_UNORM_BLOCK");
  (146, "VK_FORMAT_BC7_SRGB_BLOCK"); (147, "VK_FORMAT_ETC2_R8G8B8_UNORM_BLOCK");
  (148, "VK_FORMAT_ETC2_R8G8B8_SRGB_BLOCK"); (149, "VK_FORMAT_ETC2_R8G8B8A1_UNORM_BLOCK");
  (150, "VK_FORMAT_ETC2_R8G8B8A1_SRGB_BLOCK"); (151, "VK_FORMAT_ETC2_R8G8B8A8_UNORM_BLOCK");
  (152, "VK_FORMAT_ETC2_R8G8B8A8_SRGB_BLOCK"); (153, "VK_FORMAT_EAC_R11_UNORM_BLOCK");
  (154, "VK_FORMAT_EAC_R11_SNORM_BLOCK"); (155, "VK_FORMAT_EAC_R11G11_UNORM_BLOCK");
  (156, "VK_FORMAT_EAC_R11G11_SNORM_BLOCK"); (157, "VK_FORMAT_ASTC_4x4_UNORM_BLOCK");
  (158, "VK_FORMAT_ASTC_4x4_SRGB_BLOCK"); (159, "VK_FORMAT_ASTC_5x4_UNORM_BLOCK");
  (160, "VK_FORMAT_ASTC_5x4_SRGB_BLOCK"); (161, "VK_FORMAT_ASTC_5x5_UNORM_BLOCK");
  (162, "VK_FORMAT_ASTC_5x5_SRGB_BLOCK"); (163, "VK_FORMAT_ASTC_6x5_UNORM_BLOCK");
  (164, "VK_FORMAT_ASTC_6x5_SRGB_BLOCK"); (165, "VK_FORMAT_ASTC_6x6_UNORM_BLOCK");
  (166, "VK_FORMAT_ASTC_6x6_SRGB_BLOCK"); (167, "VK_FORMAT_ASTC_8x5_UNORM_BLOCK");
  (168, "VK_FORMAT_ASTC_8x5_SRGB_BLOCK"); (169, "VK_FORMAT_ASTC_8x6_UNORM_BLOCK");
  (170, "VK_FORMAT_ASTC_8x6_SRGB_BLOCK"); (171, "VK_FORMAT_ASTC_8x8_UNORM_BLOCK");
  (172, "VK_FORMAT_ASTC_8x8_SRGB_BLOCK"); (173, "VK_FORMAT_ASTC_10x5_UNORM_BLOCK");
  (174, "VK_FORMAT_ASTC_10x5_SRGB_BLOCK"); (175, "VK_FORMAT_ASTC_10x6_UNORM_BLOCK");
  (176, "VK_FORMAT_ASTC_10x6_SRGB_BLOCK"); (177, "VK_FORMAT_ASTC_10x8_UNORM_BLOCK");
  (178, "VK_FORMAT_ASTC_10x8_SRGB_BLOCK"); (179, "VK_FORMAT_ASTC_10x10_UNORM_BLOCK");
  (180, "VK_FORMAT_ASTC_10x10_SRGB_BLOCK"); (181, "VK_FORMAT_ASTC_12x10_UNORM_BLOCK");
  (182, "VK_FORMAT_ASTC_12x10_SRGB_BLOCK"); (183, "VK_FORMAT_ASTC_12x12_UNORM_BLOCK");
  (184, "VK_FORMAT_ASTC_12x12_SRGB_BLOCK"); (1000156000, "VK_FORMAT_G8B8G8R8_422_UNORM");
  (1000156001, "VK_FORMAT_B8G8R8G8_422_UNORM"); (1000156002, "VK_FORMAT_G8_B8_R8_3PLANE_420_UNORM");
  (1000156003, "VK_FORMAT_G8_B8R8_2PLANE_420_UNORM"); (1000156004, "VK_FORMAT_G8_B8_R8_3PLANE_422_UNORM");
  (1000156005, "VK_FORMAT_G8_B8R8_2PLANE_422_UNORM"); (1000156006, "VK_FORMAT_G8_B8_R8_3PLANE_444_UNORM");
  (1000156007, "VK_FORMAT_R10X6_UNORM_PACK16"); (1000156008, "VK_FORMAT_R10X6G10X6_UNORM_2PACK16");
  (1000156009, "VK_FORMAT_R10X6G10X6B10X6A10X6_UNORM_4PACK16");
  (1000156010, "VK_FORMAT_G10X6B10X6G10X6R10X6_422_UNORM_4PACK16");
  (1000156011, "VK_FORMAT_B10X6G10X6R10X6G10X6_422_UNORM_4PACK16");
  (1000156012, "VK_FORMAT_G10X6_B10X6_R10X6_3PLANE_420_UNORM_3PACK16");
  (1000156013, "VK_FORMAT_G10X6_B10X6R10X6_2PLANE_420_UNORM_3PACK16");
  (1000156014, "VK_FORMAT_G10X6_B10X6_R10X6_3PLANE_422_UNORM_3PACK16");
  (1000156015, "VK_FORMAT_G10X6_B10X6R10X6_2PLANE_422_UNORM_3PACK16");
  (1000156016, "VK_FORMAT_G10X6_B10X6_R10X6_3PLANE_444_UNORM_3PACK16"); (1000156017, "VK_FORMAT_R12X4_UNORM_PACK16");
  (1000156018, "VK_FORMAT_R12X4G12X4_UNORM_2PACK16"); (1000156019, "VK_FORMAT_R12X4G12X4B12X4A12X4_UNORM_4PACK16");
  (1000156020, "VK_FORMAT_G12X4B12X4G12X4R12X4_422_UNORM_4PACK16");
  (1000156021, "VK_FORMAT_B12X4G12X4R12X4G12X4_422_UNORM_4PACK16");
  (1000156022, "VK_FORMAT_G12X4_B12X4_R12X4_3PLANE_420_UNORM_3PACK16");
  (1000156023, "VK_FORMAT_G12X4_B12X4R12X4_2PLANE_420_UNORM_3PACK16");
  (1000156024, "VK_FORMAT_G12X4_B12X4_R12X4_3PLANE_422_UNORM_3PACK16");
  (1000156025, "VK_FORMAT_G12X4_B12X4R12X4_2PLANE_422_UNORM_3PACK16");
  (1000156026, "VK_FORMAT_G12X4_B12X4_R12X4_3PLANE_444_UNORM_3PACK16");
  (1000156027, "VK_FORMAT_G16B16G16R16_422_UNORM"); (1000156028, "VK_FORMAT_B16G16R16G16_422_UNORM");
  (1000156029, "VK_FORMAT_G16_B16_R16_3PLANE_420_UNORM"); (1000156030, "VK_FORMAT_G16_B16R16_2PLANE_420_UNORM");
  (1000156031, "VK_FORMAT_G16_B16_R16_3PLANE_422_UNORM"); (1000156032, "VK_FORMAT_G16_B16R16_2PLANE_422_UNORM");
  (1000156033, "VK_FORMAT_G16_B16_R16_3PLANE_444_UNORM"); (1000054000, "VK_FORMAT_PVRTC1_2BPP_UNORM_BLOCK_IMG");
  (1000054001, "VK_FORMAT_PVRTC1_4BPP_UNORM_BLOCK_IMG"); (1000054002, "VK_FORMAT_PVRTC2_2BPP_UNORM_BLOCK_IMG");
  (1000054003, "VK_FORMAT_PVRTC2_4BPP_UNORM_BLOCK_IMG"); (1000054004, "VK_FORMAT_PVRTC1_2BPP_SRGB_BLOCK_IMG");
  (1000054005, "VK_FORMAT_PVRTC1_4BPP_SRGB_BLOCK_IMG"); (1000054006, "VK_FORMAT_PVRTC2_2BPP_SRGB_BLOCK_IMG");
  (1000054007, "VK_FORMAT_PVRTC2_4BPP_SRGB_BLOCK_IMG"); (1000156000, "VK_FORMAT_G8B8G8R8_422_UNORM_KHR");
  (1000156001, "VK_FORMAT_B8G8R8G8_422_UNORM_KHR"); (1000156002, "VK_FORMAT_G8_B8_R8_3PLANE_420_UNORM_KHR");
  (1000156003, "VK_FORMAT_G8_B8R8_2PLANE_420_UNORM_KHR"); (1000156004, "VK_FORMAT_G8_B8_R8_3PLANE_422_UNORM_KHR");
  (1000156005, "VK_FORMAT_G8_B8R8_2PLANE_422_UNORM_KHR"); (1000156006, "VK_FORMAT_G8_B8_R8_3PLANE_444_UNORM_KHR");
  (1000156007, "VK_FORMAT_R10X6_UNORM_PACK16_KHR"); (1000156008, "VK_FORMAT_R10X6G10X6_UNORM_2PACK16_KHR");
  (1000156009, "VK_FORMAT_R10X6G10X6B10X6A10X6_UNORM_4PACK16_KHR");
  (1000156010, "VK_FORMAT_G10X6B10X6G10X6R10X6_422_UNORM_4PACK16_KHR");
  (1000156011, "VK_FORMAT_B10X6G10X6R10X6G10X6_422_UNORM_4PACK16_KHR");
  (1000156012, "VK_FORMAT_G10X6_B10X6_R10X6_3PLANE_420_UNORM_3PACK16_KHR");
  (1000156013, "VK_FORMAT_G10X6_B10X6R10X6_2PLANE_420_UNORM_3PACK16_KHR");
  (1000156014, "VK_FORMAT_G10X6_B10X6_R10X6_3PLANE_422_UNORM_3PACK16_KHR");
  (1000156015, "VK_FORMAT_G10X6_B10X6R10X6_2PLANE_422_UNORM_3PACK16_KHR");
  (1000156016, "VK_FORMAT_G10X6_B10X6_R10X6_3PLANE_444_UNORM_3PACK16_KHR");
  (1000156017, "VK_FORMAT_R12X4_UNORM_PACK16_KHR"); (1000156018, "VK_FORMAT_R12X4G12X4_UNORM_2PACK16_KHR");
  (1000156019, "VK_FORMAT_R12X4G12X4B12X4A12X4_UNORM_4PACK16_KHR");
  (1000156020, "VK_FORMAT_G12X4B12X4G12X4R12X4_422_UNORM_4PACK16_KHR");
  (1000156021, "VK_FORMAT_B12X4G12X4R12X4G12X4_422_UNORM_4PACK16_KHR");
  (1000156022, "VK_FORMAT_G12X4_B12X4_R12X4_3PLANE_420_UNORM_3PACK16_KHR");
  (1000156023, "VK_FORMAT_G12X4_B12X4R12X4_2PLANE_420_UNORM_3PACK16_KHR");
  (1000156024, "VK_FORMAT_G12X4_B12X4_R12X4_3PLANE_422_UNORM_3PACK16_KHR");
  (1000156025, "VK_FORMAT_G12X4_B12X4R12X4_2PLANE_422_UNORM_3PACK16_KHR");
  (1000156026, "VK_FORMAT_G12X4_B12X4_R12X4_3PLANE_444_UNORM_3PACK16_KHR");
  (1000156027, "VK_FORMAT_G16B16G16R16_422_UNORM_KHR"); (1000156028, "VK_FORMAT_B16G16R16G16_422_UNORM_KHR");
  (1000156029, "VK_FORMAT_G16_B16_R16_3PLANE_420_UNORM_KHR");
  (1000156030, "VK_FORMAT_G16_B16R16_2PLANE_420_UNORM_KHR");
  (1000156031, "VK_FORMAT_G16_B16_R16_3PLANE_422_UNORM_KHR");
  (1000156032, "VK_FORMAT_G16_B16R16_2PLANE_422_UNORM_KHR");
  (1000156033, "VK_FORMAT_G16_B16_R16_3PLANE_444_UNORM_KHR"); (2147483647, "VK_FORMAT_MAX_ENUM")].

Definition sVkColorSpaceKHRToString : list (Z * string) := [
  (0, "VK_COLOR_SPACE_SRGB_NONLINEAR_KHR"); (1000104001, "VK_COLOR_SPACE_DISPLAY_P3_NONLINEAR_EXT");
  (1000104002, "VK_COLOR_SPACE_EXTENDED_SRGB_LINEAR_EXT"); (1000104003, "VK_COLOR_SPACE_DCI_P3_LINEAR_EXT");
  (1000104004, "VK_COLOR_SPACE_DCI_P3_NONLINEAR_EXT"); (1000104005, "VK_COLOR_SPACE_BT709_LINEAR_EXT");
  (1000104006, "VK_COLOR_SPACE_BT709_NONLINEAR_EXT"); (1000104007, "VK_COLOR_SPACE_BT2020_LINEAR_EXT");
  (1000104008, "VK_COLOR_SPACE_HDR10_ST2084_EXT"); (1000104009, "VK_COLOR_SPACE_DOLBYVISION_EXT");
  (1000104010, "VK_COLOR_SPACE_HDR10_HLG_EXT"); (1000104011, "VK_COLOR_SPACE_ADOBERGB_LINEAR_EXT");
  (1000104012, "VK_COLOR_SPACE_ADOBERGB_NONLINEAR_EXT"); (1000104013, "VK_COLOR_SPACE_PASS_THROUGH_EXT");
  (1000104014, "VK_COLOR_SPACE_EXTENDED_SRGB_NONLINEAR_EXT"); (0, "VK_COLORSPACE_SRGB_NONLINEAR_KHR");
  (2147483647, "VK_COLOR_SPACE_MAX_ENUM_KHR")].

(** A null pointer is [None]. *)
Definition GetVkFormatString (vk_format : Z) : option string := find_name sVkFormatToString vk_format.
Definition GetVkColorSpaceKhrString (vk_color_space_khr : Z) : option string :=
  find_name sVkColorSpaceKHRToString vk_color_space_khr.

(** ** Switches *)

Definition GetVkImageLayoutString : Z -> option string := find_name [
  (0, "UNDEFINED"); (1, "GENERAL"); (2, "COLOR_ATTACHMENT_OPTIMAL"); (3, "DEPTH_STENCIL_ATTACHMENT_OPTIMAL");
  (4, "DEPTH_STENCIL_READ_ONLY_OPTIMAL"); (5, "SHADER_READ_ONLY_OPTIMAL"); (6, "TRANSFER_SRC_OPTIMAL");
  (7, "TRANSFER_DST_OPTIMAL"); (8, "PREINITIALIZED"); (1000117000, "DEPTH_READ_ONLY_STENCIL_ATTACHMENT_OPTIMAL");
  (1000117001, "DEPTH_ATTACHMENT_STENCIL_READ_ONLY_OPTIMAL"); (1000241000, "DEPTH_ATTACHMENT_OPTIMAL");
  (1000241001, "DEPTH_READ_ONLY_OPTIMAL"); (1000241002, "STENCIL_ATTACHMENT_OPTIMAL");
  (1000241003, "STENCIL_READ_ONLY_OPTIMAL"); (1000001002, "PRESENT_SRC_KHR"); (1000111000, "SHARED_PRESENT_KHR");
  (1000164003, "SHADING_RATE_OPTIMAL_NV"); (1000218000, "FRAGMENT_DENSITY_MAP_OPTIMAL_EXT")].

Definition GetVkStencilFaceFlags : Z -> option string := find_name [
  (1, "FRONT"); (2, "BACK"); (3, "FRONT_AND_BACK")].

Definition GetVkPrimitiveTopology : Z -> option string := find_name [
  (0, "VK_PRIMITIVE_TOPOLOGY_POINT_LIST"); (1, "VK_PRIMITIVE_TOPOLOGY_LINE_LIST");
  (2, "VK_PRIMITIVE_TOPOLOGY_LINE_STRIP"); (3, "VK_PRIMITIVE_TOPOLOGY_TRIANGLE_LIST");
  (4, "VK_PRIMITIVE_TOPOLOGY_TRIANGLE_STRIP"); (5, "VK_PRIMITIVE_TOPOLOGY_TRIANGLE_FAN");
  (6, "VK_PRIMITIVE_TOPOLOGY_LINE_LIST_WITH_ADJACENCY"); (7, "VK_PRIMITIVE_TOPOLOGY_LINE_STRIP_WITH_ADJACENCY");
  (8, "VK_PRIMITIVE_TOPOLOGY_TRIANGLE_LIST_WITH_ADJACENCY");
  (9, "VK_PRIMITIVE_TOPOLOGY_TRIANGLE_STRIP_WITH_ADJACENCY"); (10, "VK_PRIMITIVE_TOPOLOGY_PATCH_LIST");
  (2147483647, "VK_PRIMITIVE_TOPOLOGY_MAX_ENUM")].

Definition GetVkPolygonMode : Z -> option string := find_name [
  (0, "VK_POLYGON_MODE_FILL"); (1, "VK_POLYGON_MODE_LINE"); (2, "VK_POLYGON_MODE_POINT");
  (1000153000, "VK_POLYGON_MODE_FILL_RECTANGLE_NV"); (2147483647, "VK_POLYGON_MODE_MAX_ENUM")].

Definition GetVkCullModeFlags : Z -> option string := find_name [
  (0, "VK_CULL_MODE_NONE"); (1, "VK_CULL_MODE_FRONT_BIT"); (2, "VK_CULL_MODE_BACK_BIT");
  (3, "VK_CULL_MODE_FRONT_AND_BACK"); (2147483647, "VK_CULL_MODE_FLAG_BITS_MAX_ENUM")].

Definition GetVkFrontFace : Z -> option string := find_name [
  (0, "VK_FRONT_FACE_COUNTER_CLOCKWISE"); (1, "VK_FRONT_FACE_CLOCKWISE"); (2147483647, "VK_FRONT_FACE_MAX_ENUM")].

Definition GetVkCompareOp : Z -> option string := find_name [
  (0, "VK_COMPARE_OP_NEVER"); (1, "VK_COMPARE_OP_LESS"); (2, "VK_COMPARE_OP_EQUAL");
  (3, "VK_COMPARE_OP_LESS_OR_EQUAL"); (4, "VK_COMPARE_OP_GREATER"); (5, "VK_COMPARE_OP_NOT_EQUAL");
  (6, "VK_COMPARE_OP_GREATER_OR_EQUAL"); (7, "VK_COMPARE_OP_ALWAYS"); (2147483647, "VK_COMPARE_OP_MAX_ENUM")].

Definition GetVkStencilOp : Z -> option string := find_name [
  (0, "VK_STENCIL_OP_KEEP"); (1, "VK_STENCIL_OP_ZERO"); (2, "VK_STENCIL_OP_REPLACE");
  (3, "VK_STENCIL_OP_INCREMENT_AND_CLAMP"); (4, "VK_STENCIL_OP_DECREMENT_AND_CLAMP"); (5, "VK_STENCIL_OP_INVERT");
  (6, "VK_STENCIL_OP_INCREMENT_AND_WRAP"); (7, "VK_STENCIL_OP_DECREMENT_AND_WRAP");
  (2147483647, "VK_STENCIL_OP_MAX_ENUM")].

Definition GetVkSampleCountFlags : Z -> option string := find_name [
  (1, "VK_SAMPLE_COUNT_1_BIT"); (2, "VK_SAMPLE_COUNT_2_BIT"); (4, "VK_SAMPLE_COUNT_4_BIT");
  (8, "VK_SAMPLE_COUNT_8_BIT"); (16, "VK_SAMPLE_COUNT_16_BIT"); (32, "VK_SAMPLE_COUNT_32_BIT");
  (64, "VK_SAMPLE_COUNT_64_BIT"); (2147483647, "VK_SAMPLE_COUNT_FLAG_BITS_MAX_ENUM")].

Definition GetZFormat : Z -> option string := find_name [
  (0, "Z_INVALID"); (1, "Z_16"); (2, "Z_24"); (3, "Z_32_FLOAT")].

Definition GetZOrder : Z -> option string := find_name [
  (0, "LATE_Z"); (1, "EARLY_Z_THEN_LATE_Z"); (2, "RE_Z"); (3, "EARLY_Z_THEN_RE_Z")].

Definition GetColorFormat : Z -> option string := find_name [
  (0, "COLOR_INVALID"); (1, "COLOR_8"); (2, "COLOR_16"); (3, "COLOR_8_8"); (4, "COLOR_32"); (5, "COLOR_16_16");
  (6, "COLOR_10_11_11"); (7, "COLOR_11_11_10"); (8, "COLOR_10_10_10_2"); (9, "COLOR_2_10_10_10");
  (10, "COLOR_8_8_8_8"); (11, "COLOR_32_32"); (12, "COLOR_16_16_16_16"); (13, "COLOR_RESERVED_13");
  (14, "COLOR_32_32_32_32"); (15, "COLOR_RESERVED_15"); (16, "COLOR_5_6_5"); (17, "COLOR_1_5_5_5");
  (18, "COLOR_5_5_5_1"); (19, "COLOR_4_4_4_4"); (20, "COLOR_8_24"); (21, "COLOR_24_8"); (22, "COLOR_X24_8_32_FLOAT");
  (23, "COLOR_RESERVED_23"); (25, "COLOR_RESERVED_25"); (26, "COLOR_RESERVED_26"); (27, "COLOR_RESERVED_27");
  (28, "COLOR_RESERVED_28"); (29, "COLOR_RESERVED_29"); (31, "COLOR_2_10_10_10_6E4");
  (24, "COLOR_RESERVED_24__GFX09"); (30, "COLOR_RESERVED_30__GFX09")].

Definition GetVkLogicOp : Z -> option string := find_name [
  (0, "VK_LOGIC_OP_CLEAR"); (1, "VK_LOGIC_OP_AND"); (2, "VK_LOGIC_OP_AND_REVERSE"); (3, "VK_LOGIC_OP_COPY");
  (4, "VK_LOGIC_OP_AND_INVERTED"); (5, "VK_LOGIC_OP_NO_OP"); (6, "VK_LOGIC_OP_XOR"); (7, "VK_LOGIC_OP_OR");
  (8, "VK_LOGIC_OP_NOR"); (9, "VK_LOGIC_OP_EQUIVALENT"); (10, "VK_LOGIC_OP_INVERT"); (11, "VK_LOGIC_OP_OR_REVERSE");
  (12, "VK_LOGIC_OP_COPY_INVERTED"); (13, "VK_LOGIC_OP_OR_INVERTED"); (14, "VK_LOGIC_OP_NAND");
  (15, "VK_LOGIC_OP_SET"); (2147483647, "VK_LOGIC_OP_MAX_ENUM")].

Definition GetVkBlendFactor : Z -> option string := find_name [
  (0, "VK_BLEND_FACTOR_ZERO"); (1, "VK_BLEND_FACTOR_ONE"); (2, "VK_BLEND_FACTOR_SRC_COLOR");
  (3, "VK_BLEND_FACTOR_ONE_MINUS_SRC_COLOR"); (6, "VK_BLEND_FACTOR_SRC_ALPHA");
  (7, "VK_BLEND_FACTOR_ONE_MINUS_SRC_ALPHA"); (8, "VK_BLEND_FACTOR_DST_ALPHA");
  (9, "VK_BLEND_FACTOR_ONE_MINUS_DST_ALPHA"); (4, "VK_BLEND_FACTOR_DST_COLOR");
  (5, "VK_BLEND_FACTOR_ONE_MINUS_DST_COLOR"); (14, "VK_BLEND_FACTOR_SRC_ALPHA_SATURATE");
  (2147483647, "VK_BLEND_FACTOR_MAX_ENUM"); (10, "VK_BLEND_FACTOR_CONSTANT_COLOR");
  (11, "VK_BLEND_FACTOR_ONE_MINUS_CONSTANT_COLOR"); (15, "VK_BLEND_FACTOR_SRC1_COLOR");
  (16, "VK_BLEND_FACTOR_ONE_MINUS_SRC1_COLOR"); (17, "VK_BLEND_FACTOR_SRC1_ALPHA");
  (18, "VK_BLEND_FACTOR_ONE_MINUS_SRC1_ALPHA"); (12, "VK_BLEND_FACTOR_CONSTANT_ALPHA");
  (13, "VK_BLEND_FACTOR_ONE_MINUS_CONSTANT_ALPHA")].

Definition GetVkBlendOp : Z -> option string := find_name [
  (0, "VK_BLEND_OP_ADD"); (1, "VK_BLEND_OP_SUBTRACT"); (3, "VK_BLEND_OP_MIN"); (4, "VK_BLEND_OP_MAX");
  (2, "VK_BLEND_OP_REVERSE_SUBTRACT")].

(** ** Masks

    The macro [AddBit], on the text and the flags that are left. *)
Definition AddBit (separator : string) (orig_flag : Z) (state : string * Z) (row : Z * string) : string * Z :=
  let '(os, cur_flag) := state in
  let '(bit, bit_string) := row in
  if Z.land cur_flag bit =? 0 then (os, cur_flag)
  else
    (os +:+ (if negb (cur_flag =? 0) && negb (cur_flag =? orig_flag) then separator else "") +:+ bit_string,
     Z.ldiff cur_flag bit).

Definition add_bits (rows : list (Z * string)) (flags : Z) (separator : string) : string :=
  fst (fold_left (AddBit separator flags) rows ("", flags)).

Definition GetVkCommandBufferUsageFlagBits : Z -> string -> string := add_bits [
  (1, "ONE_TIME_SUBMIT"); (2, "RENDER_PASS_CONTINUE"); (4, "SIMULTANEOUS_USE")].

Definition GetVkShaderStageBits : Z -> string -> string := add_bits [
  (1, "VERTEX"); (2, "TESSELLATION_CONTROL"); (4, "TESSELLATION_EVALUATION"); (8, "GEOMETRY"); (16, "FRAGMENT");
  (32, "COMPUTE"); (31, "ALL_GRAPHICS"); (2147483647, "ALL"); (256, "RAYGEN_KHR"); (512, "ANY_HIT_KHR");
  (1024, "CLOSEST_HIT_KHR"); (2048, "MISS_KHR"); (4096, "INTERSECTION_KHR"); (8192, "CALLABLE_KHR"); (64, "TASK_NV");
  (128, "MESH_NV")].

Definition GetVkPipelineStageBits : Z -> string -> string := add_bits [
  (1, "TOP_OF_PIPE"); (2, "DRAW_INDIRECT"); (4, "VERTEX_INPUT"); (8, "VERTEX_SHADER");
  (16, "TESSELLATION_CONTROL_SHADER"); (32, "TESSELLATION_EVALUATION_SHADER"); (64, "GEOMETRY_SHADER");
  (128, "FRAGMENT_SHADER"); (256, "EARLY_FRAGMENT_TESTS"); (512, "LATE_FRAGMENT_TESTS");
  (1024, "COLOR_ATTACHMENT_OUTPUT"); (2048, "COMPUTE_SHADER"); (4096, "TRANSFER"); (8192, "BOTTOM_OF_PIPE");
  (16384, "HOST"); (32768, "ALL_GRAPHICS"); (65536, "ALL_COMMANDS"); (16777216, "TRANSFORM_FEEDBACK_EXT");
  (262144, "CONDITIONAL_RENDERING_EXT"); (2097152, "RAY_TRACING_SHADER_KHR");
  (33554432, "ACCELERATION_STRUCTURE_BUILD_KHR"); (4194304, "SHADING_RATE_IMAGE_NV"); (524288, "TASK_SHADER_NV");
  (1048576, "MESH_SHADER_NV"); (8388608, "FRAGMENT_DENSITY_PROCESS_EXT"); (131072, "COMMAND_PREPROCESS_NV")].

Definition GetVkQueryResultFlagBits : Z -> string -> string := add_bits [
  (1, "64"); (2, "WAIT"); (4, "WITH_AVAILABILITY"); (8, "PARTIAL")].

(** ** Properties *)

(** The rows whose bits are set, at least one of them. *)
Definition set_rows (flags : Z) (rows : list (Z * string)) : list (Z * string) :=
  List.filter (fun row => negb (Z.land flags (fst row) =? 0)) rows.

(** No two rows share a bit. *)
Fixpoint disjoint_bits (rows : list (Z * string)) : bool :=
  match rows with
  | [] => true
  | row :: rows => forallb (fun row' => Z.land (fst row) (fst row') =? 0) rows && disjoint_bits rows
  end.

Lemma land_ldiff_disjoint a b c : Z.land b c = 0 -> Z.land (Z.ldiff a b) c = Z.land a c.
Proof.
  intros E. apply Z.bits_inj'. intros n _. rewrite !Z.land_spec, Z.ldiff_spec.
  apply (f_equal (fun z => Z.testbit z n)) in E. rewrite Z.land_spec, Z.bits_0 in E.
  destruct (Z.testbit a n), (Z.testbit b n), (Z.testbit c n); naive_solver.
Qed.

Lemma set_rows_ldiff flags bit rows : forallb (fun row' => Z.land bit (fst row') =? 0) rows = true ->
  set_rows (Z.ldiff flags bit) rows = set_rows flags rows.
Proof.
  induction rows as [|row rows IH]; [done|]. cbn [forallb]. intros [E H]%andb_prop. unfold set_rows. cbn [List.filter].
  apply Z.eqb_eq in E. rewrite land_ldiff_disjoint by done. destruct (negb _); [f_equal|]; by apply IH.
Qed.

Lemma ldiff_below flags cur bit : Z.land cur bit <> 0 -> Z.ldiff flags (Z.ldiff flags cur) = cur ->
  Z.ldiff cur bit <> flags.
Proof.
  intros Hset Hsub E. apply Hset. rewrite <- Hsub. rewrite <- E at 1. apply Z.bits_inj'. intros n _.
  rewrite Z.bits_0, Z.land_spec, !Z.ldiff_spec. destruct (Z.testbit cur n), (Z.testbit bit n), (Z.testbit flags n); done.
Qed.

Lemma ldiff_sub flags cur bit : Z.ldiff flags (Z.ldiff flags cur) = cur ->
  Z.ldiff flags (Z.ldiff flags (Z.ldiff cur bit)) = Z.ldiff cur bit.
Proof.
  intros E. apply Z.bits_inj'. intros n _. apply (f_equal (fun z => Z.testbit z n)) in E. revert E.
  rewrite !Z.ldiff_spec. destruct (Z.testbit cur n), (Z.testbit bit n), (Z.testbit flags n); done.
Qed.

(** [String.concat] with the separator in front of every text but the first. *)
Fixpoint after_separators (separator : string) (texts : list string) : string :=
  match texts with [] => "" | text :: texts => separator +:+ text +:+ after_separators separator texts end.

Lemma concat_after separator text texts :
  String.concat separator (text :: texts) = text +:+ after_separators separator texts.
Proof.
  revert text. induction texts as [|text' texts IH]; intros text; [symmetry; apply string_app_nil_r|].
  change (text +:+ separator +:+ String.concat separator (text' :: texts) = text +:+ separator +:+ text' +:+ after_separators separator texts).
  by rewrite IH.
Qed.

(** The names after the first, each behind a separator. *)
Lemma add_bits_rest separator flags rows : forall os cur,
  Z.ldiff flags (Z.ldiff flags cur) = cur -> cur <> flags -> disjoint_bits rows = true ->
  fst (fold_left (AddBit separator flags) rows (os, cur)) =
    os +:+ after_separators separator (snd <$> set_rows cur rows).
Proof.
  induction rows as [|[bit name] rows IH]; intros os cur Hsub Hne Hd; [symmetry; apply string_app_nil_r|].
  cbn [disjoint_bits] in Hd. apply andb_prop in Hd as [Hbit Hd]. cbn [fold_left AddBit].
  unfold set_rows. cbn [List.filter fst]. destruct (Z.eqb_spec (Z.land cur bit) 0) as [|Hset]; cbn [negb].
  { by apply IH. }
  assert (cur <> 0) as Hcur by (intros ->; by rewrite Z.land_0_l in Hset).
  rewrite (proj2 (Z.eqb_neq cur 0)), (proj2 (Z.eqb_neq cur flags)) by done. cbn [negb andb].
  rewrite IH; [|by apply ldiff_sub|by apply ldiff_below|done].
  rewrite set_rows_ldiff by done. fold (set_rows cur rows). cbn [fmap list_fmap snd after_separators].
  by rewrite !string_app_assoc.
Qed.

(** Where no two rows share a bit, the names of the rows whose bits are set, in the
    order of the rows and separated. *)
Lemma add_bits_names rows flags separator : disjoint_bits rows = true ->
  add_bits rows flags separator = String.concat separator (snd <$> set_rows flags rows).
Proof.
  unfold add_bits. assert (Z.ldiff flags (Z.ldiff flags flags) = flags) as Hself.
  { rewrite Z.ldiff_diag. apply Z.ldiff_0_r. }
  induction rows as [|[bit name] rows IH]; [done|]. cbn [disjoint_bits]. intros [Hbit Hd]%andb_prop.
  cbn [fold_left AddBit]. unfold set_rows. cbn [List.filter fst].
  destruct (Z.eqb_spec (Z.land flags bit) 0) as [|Hset]; cbn [negb]; [by apply IH|].
  rewrite Z.eqb_refl, andb_false_r. rewrite add_bits_rest; [|by apply ldiff_sub|by apply ldiff_below|done].
  rewrite set_rows_ldiff by done. fold (set_rows flags rows). cbn [fmap list_fmap snd].
  symmetry. apply concat_after.
Qed.

(** The masks of command buffer usages, pipeline stages and query results are shown
    completely; in that of shader stages [ALL] shares its bits with the rows behind it,
    whose stages are shown as [ALL]. *)
Theorem mask_names flags separator :
  GetVkCommandBufferUsageFlagBits flags separator =
    String.concat separator (snd <$> set_rows flags
      [(1, "ONE_TIME_SUBMIT"); (2, "RENDER_PASS_CONTINUE"); (4, "SIMULTANEOUS_USE")]) /\
  GetVkQueryResultFlagBits flags separator =
    String.concat separator (snd <$> set_rows flags [(1, "64"); (2, "WAIT"); (4, "WITH_AVAILABILITY"); (8, "PARTIAL")]) /\
  GetVkShaderStageBits 256 separator = "ALL" /\ GetVkShaderStageBits 257 separator = "VERTEX" +:+ separator +:+ "ALL".
Proof. split; [by apply add_bits_names|]. split; [by apply add_bits_names|]. split; reflexivity. Qed.
