(* ===== verification/NodeTree.v ===== *)
(** * NodeTree: nodes with their children, under construction

    The part of [CommandHierarchyCreator] ([src/dive_core/command_hierarchy.{h,cpp}])
    that adds nodes, links them and turns the children collected for each node into
    the topologies of the hierarchy; and the well-formedness of what is collected. *)

From Stdlib Require Import Sorted.
From S2P Require Import Prelude Wire Memory Pm4 StateTracker Emulate Topology Hierarchy.

#[local] Open Scope Z_scope.

(** ** Steps

    Operations on a state [St] that can leave an array. *)
Definition Steps (St A : Type) : Type := St -> outcome (A * St).

#[global] Instance Steps_ret {St} : MRet (Steps St) := fun A a s => Done (a, s).
#[global] Instance Steps_bind {St} : MBind (Steps St) := fun A B k m s => '(a, s) ← m s; k a s.

Definition get {St} : Steps St St := fun s => Done (s, s).
Definition modify {St} (f : St -> St) : Steps St () := fun s => Done ((), f s).
Definition checked {St A} (o : outcome A) : Steps St A := fun s => a ← o; Done (a, s).
Definition off_bounds {St A} : Steps St A := fun _ => OutOfBounds.

(** A loop over a list, with the position. *)
Fixpoint each {St A} (i : nat) (l : list A) (body : nat -> A -> Steps St ()) : Steps St () :=
  match l with [] => mret () | a :: l => body i a ;; each (S i) l body end.

(** *** Triples

    [wp bad m Q s]: from [s], [m] gives a result and a state that satisfy [Q], or
    leaves an array, which [bad] allows. *)
Definition wp {St A} (bad : Prop) (m : Steps St A) (Q : A -> St -> Prop) (s : St) : Prop :=
  match m s with Done (a, s) => Q a s | OutOfBounds => bad | OutOfFuel => False end.

Section Triples.
Context {St : Type} (bad : Prop).

Lemma wp_ret {A} (a : A) (Q : A -> St -> Prop) s : Q a s -> wp bad (mret a) Q s.
Proof. done. Qed.

Lemma wp_bind {A B} (m : Steps St A) (k : A -> Steps St B) Q s :
  wp bad m (fun a => wp bad (k a) Q) s -> wp bad (m ≫= k) Q s.
Proof. unfold wp, mbind, Steps_bind, outcome_bind. by destruct (m s) as [[a s']| |]. Qed.

Lemma wp_mono {A} (m : Steps St A) (P Q : A -> St -> Prop) s :
  wp bad m P s -> (forall a s, P a s -> Q a s) -> wp bad m Q s.
Proof. unfold wp. destruct (m s) as [[a s']| |]; auto. Qed.

Lemma wp_get (Q : St -> St -> Prop) s : Q s s -> wp bad get Q s.
Proof. done. Qed.

Lemma wp_modify f (Q : () -> St -> Prop) s : Q () (f s) -> wp bad (modify f) Q s.
Proof. done. Qed.

Lemma wp_checked {A} (o : outcome A) (Q : A -> St -> Prop) s :
  match o with Done a => Q a s | OutOfBounds => bad | OutOfFuel => False end -> wp bad (checked o) Q s.
Proof. unfold wp, checked. by destruct o. Qed.

Lemma wp_done {A} (m : Steps St A) (Q : A -> St -> Prop) s a s' : wp bad m Q s -> m s = Done (a, s') -> Q a s'.
Proof. unfold wp. intros H E. by rewrite E in H. Qed.

(** A loop keeps an invariant of the state and the position. *)
Lemma wp_each {A} (I : nat -> St -> Prop) (l : list A) body : forall i s,
  I i s ->
  (forall j a s, l !! j = Some a -> I (i + j)%nat s -> wp bad (body (i + j)%nat a) (fun _ => I (S (i + j))) s) ->
  wp bad (each i l body) (fun _ => I (i + length l)%nat) s.
Proof.
  induction l as [|a l IH]; intros i s Hi Hb; cbn [each length]; [by rewrite Nat.add_0_r|].
  pose proof (Hb 0%nat a s eq_refl) as Hb0. rewrite Nat.add_0_r in Hb0.
  apply wp_bind. eapply wp_mono; [by apply Hb0|]. intros [] s' Hs'. rewrite <- Nat.add_succ_comm.
  apply IH; [done|]. intros j a' s'' Hj Hs''. specialize (Hb (S j) a' s'' Hj). rewrite <- Nat.add_succ_comm in Hb. by apply Hb.
Qed.
End Triples.

(** ** The nodes and their children *)

(** The two kinds of children are [m_node_children[...][kSingleParentNodeChildren]] and
    [m_node_children[...][kSharedNodeChildren]]. *)
Record NodeTree := mkNodeTree {
  c_command_hierarchy : CommandHierarchy;
  c_node_children : PerTopology (list (list Z));
  c_shared_children : PerTopology (list (list Z));
  c_node_start_shared_children : PerTopology (list Z);
  c_node_end_shared_children : PerTopology (list Z);
  c_node_root_node_indices : PerTopology (list Z)
}.

Definition new_NodeTree (h : CommandHierarchy) : NodeTree :=
  mkNodeTree h (mkPerTopology [] []) (mkPerTopology [] []) (mkPerTopology [] []) (mkPerTopology [] [])
    (mkPerTopology [] []).

Definition tree_nodes (t : NodeTree) : Nodes := m_nodes (c_command_hierarchy t).
Definition tree_size (t : NodeTree) : Z := vec_size (m_node_type (tree_nodes t)).

Definition set_tree_hierarchy h (t : NodeTree) : NodeTree :=
  mkNodeTree h (c_node_children t) (c_shared_children t) (c_node_start_shared_children t)
    (c_node_end_shared_children t) (c_node_root_node_indices t).
Definition set_tree_children c (t : NodeTree) : NodeTree :=
  mkNodeTree (c_command_hierarchy t) c (c_shared_children t) (c_node_start_shared_children t)
    (c_node_end_shared_children t) (c_node_root_node_indices t).
Definition set_tree_shared s (t : NodeTree) : NodeTree :=
  mkNodeTree (c_command_hierarchy t) (c_node_children t) s (c_node_start_shared_children t)
    (c_node_end_shared_children t) (c_node_root_node_indices t).
Definition set_tree_ranges starts ends roots (t : NodeTree) : NodeTree :=
  mkNodeTree (c_command_hierarchy t) (c_node_children t) (c_shared_children t) starts ends roots.

(** [resize(size() + 1)]. *)
Definition grow {A} (a : A) (v : list A) : list A := v ++ [a].

(** An index has 64 bits: there is no memory for more nodes. *)
Definition Creator_AddNode (type : NodeType) (desc : string) (aux_info : AuxInfo) : Steps NodeTree Z := fun t =>
  if UINT64_MAX <=? tree_size t then OutOfBounds else
  let '(node_index, h) := Hierarchy_AddNode type desc aux_info (c_command_hierarchy t) in
  Done (node_index,
        mkNodeTree h (per_topology (grow []) (c_node_children t)) (per_topology (grow []) (c_shared_children t))
          (per_topology (grow 0) (c_node_start_shared_children t)) (per_topology (grow 0) (c_node_end_shared_children t))
          (per_topology (grow 0) (c_node_root_node_indices t))).

Definition AppendEventNodeIndex (node_index : Z) : Steps NodeTree () :=
  modify (fun t =>
    let n := tree_nodes t in
    set_tree_hierarchy
      (set_nodes (mkNodes (m_node_type n) (m_description n) (m_aux_info n) (m_event_node_indices n ++ [node_index]))
         (c_command_hierarchy t)) t).

Definition Creator_AddChild (type : TopologyType) (node_index child_node_index : Z) : Steps NodeTree () :=
  t ← get;
  v ← checked (vec_push node_index child_node_index (of_type type (c_node_children t)));
  modify (set_tree_children (set_type type v (c_node_children t))).

Definition AddSharedChild (type : TopologyType) (node_index child_node_index : Z) : Steps NodeTree () :=
  t ← get;
  v ← checked (vec_push node_index child_node_index (of_type type (c_shared_children t)));
  modify (set_tree_shared (set_type type v (c_shared_children t))).

Definition SetStartSharedChildrenNodeIndex (type : TopologyType) (node_index shared_child_node_index : Z)
  : Steps NodeTree () :=
  t ← get;
  v ← checked (vec_set node_index shared_child_node_index (of_type type (c_node_start_shared_children t)));
  modify (fun t => set_tree_ranges (set_type type v (c_node_start_shared_children t)) (c_node_end_shared_children t)
    (c_node_root_node_indices t) t).

Definition SetEndSharedChildrenNodeIndex (type : TopologyType) (node_index shared_child_node_index : Z)
  : Steps NodeTree () :=
  t ← get;
  v ← checked (vec_set node_index shared_child_node_index (of_type type (c_node_end_shared_children t)));
  modify (fun t => set_tree_ranges (c_node_start_shared_children t) (set_type type v (c_node_end_shared_children t))
    (c_node_root_node_indices t) t).

Definition SetSharedChildRootNodeIndex (type : TopologyType) (node_index root_node_index : Z) : Steps NodeTree () :=
  t ← get;
  v ← checked (vec_set node_index root_node_index (of_type type (c_node_root_node_indices t)));
  modify (fun t => set_tree_ranges (c_node_start_shared_children t) (c_node_end_shared_children t)
    (set_type type v (c_node_root_node_indices t)) t).

(** [CommandHierarchyCreator::GetChildNodeIndex] and [GetChildCount]. *)
Definition Creator_GetChildNodeIndex (type : TopologyType) (node_index child_index : Z) (t : NodeTree) : outcome Z :=
  children ← vec_at (of_type type (c_node_children t)) node_index; vec_at children child_index.
Definition GetChildCount (type : TopologyType) (node_index : Z) (t : NodeTree) : outcome Z :=
  children ← vec_at (of_type type (c_node_children t)) node_index; Done (vec_size children).

(** ** The topologies *)

(** The loop over the nodes, on their two lists of children. *)
Fixpoint add_node_children (node_index : Z) (children shared : list (list Z)) (s : SharedNodeTopology)
  : outcome SharedNodeTopology :=
  match children with
  | [] => Done s
  | ch :: children =>
      t ← AddChildren node_index ch s;
      sh ← match shared with sh :: _ => Done sh | [] => OutOfBounds end;
      s ← AddSharedChildren node_index sh (set_topology t s);
      add_node_children (node_index + 1) children (tail shared) s
  end.

Definition create_topology (type : TopologyType) (t : NodeTree) : outcome SharedNodeTopology :=
  let children := of_type type (c_node_children t) in
  let s := SetNumSharedNodes (length children) (of_type type (m_topology (c_command_hierarchy t))) in
  s ← add_node_children 0 children (of_type type (c_shared_children t)) s;
  Done (set_ranges (of_type type (c_node_start_shared_children t)) (of_type type (c_node_end_shared_children t))
          (of_type type (c_node_root_node_indices t)) s).

(** The vectors of the ranges are moved from. *)
Definition Creator_CreateTopologies : Steps NodeTree () := fun t =>
  submit ← create_topology kSubmitTopology t;
  all_event ← create_topology kAllEventTopology t;
  Done ((), set_tree_ranges (mkPerTopology [] []) (mkPerTopology [] []) (mkPerTopology [] [])
              (set_tree_hierarchy (set_topologies (mkPerTopology submit all_event) (c_command_hierarchy t)) t)).

(** ** Well-formedness *)

Definition node_in (n c : Z) : Prop := 0 <= c < n.

(** A node of a type. *)
Definition has_type (types : list NodeType) (type : NodeType) (i : Z) : Prop := 0 <= i /\ types !! Z.to_nat i = Some type.

(** Which types of nodes are below which. *)
Definition edge_ok (topology : TopologyType) (parent child : NodeType) : bool :=
  match parent, child with
  | kRootNode, kSubmitNode | kPacketNode, (kRegNode | kFieldNode) | (kRegNode | kFieldNode), kFieldNode => true
  | kRootNode, kPresentNode | kSubmitNode, (kEventNode | kRenderMarkerNode) | kRenderMarkerNode, kEventNode =>
      bool_decide (topology = kAllEventTopology)
  | (kSubmitNode | kIbNode), kIbNode => bool_decide (topology = kSubmitTopology)
  | _, _ => false
  end.

Definition edges_ok (topology : TopologyType) (types : list NodeType) (cs : list (list Z)) : Prop :=
  forall p k c, child_at cs p k = Some c ->
    exists parent child, types !! p = Some parent /\ has_type types child c /\ edge_ok topology parent child = true.

(** The vectors have an entry for each node; the children are nodes, each the child of
    at most one, which was added before it and may have children of that type; the
    shared children are packets; what the ranges refer to are nodes; the events are in
    the order they were added in; what is excluded are passes. *)
Record tree_ok (t : NodeTree) : Prop := {
  ok_size : tree_size t <= UINT64_MAX;
  ok_nodes : nodes_aligned (tree_nodes t);
  ok_children type : vec_size (of_type type (c_node_children t)) = tree_size t;
  ok_shared type : vec_size (of_type type (c_shared_children t)) = tree_size t;
  ok_start type : vec_size (of_type type (c_node_start_shared_children t)) = tree_size t;
  ok_end type : vec_size (of_type type (c_node_end_shared_children t)) = tree_size t;
  ok_root type : vec_size (of_type type (c_node_root_node_indices t)) = tree_size t;
  ok_forest type : forest (of_type type (c_node_children t));
  ok_increasing type : increasing (of_type type (c_node_children t));
  ok_edges type : edges_ok type (m_node_type (tree_nodes t)) (of_type type (c_node_children t));
  ok_shared_nodes type :
    Forall (Forall (has_type (m_node_type (tree_nodes t)) kPacketNode)) (of_type type (c_shared_children t));
  ok_start_nodes type : Forall (node_in (tree_size t)) (of_type type (c_node_start_shared_children t));
  ok_end_nodes type : Forall (node_in (tree_size t)) (of_type type (c_node_end_shared_children t));
  ok_root_nodes type : Forall (node_in (tree_size t)) (of_type type (c_node_root_node_indices t));
  ok_events_nodes : Forall (has_type (m_node_type (tree_nodes t)) kEventNode) (m_event_node_indices (tree_nodes t));
  ok_events_sorted : StronglySorted Z.lt (m_event_node_indices (tree_nodes t));
  ok_filters filter i : i ∈ GetFilterExcludeIndices filter (c_command_hierarchy t) ->
    has_type (m_node_type (tree_nodes t)) kRenderMarkerNode i
}.

(** What an operation leaves: the nodes that were there, the events and the topologies;
    it links nodes that it adds only. *)
Record grown (t t' : NodeTree) : Prop := {
  grown_ok : tree_ok t';
  grown_types : m_node_type (tree_nodes t) `prefix_of` m_node_type (tree_nodes t');
  grown_aux : m_aux_info (tree_nodes t) `prefix_of` m_aux_info (tree_nodes t');
  grown_events : m_event_node_indices (tree_nodes t') = m_event_node_indices (tree_nodes t);
  grown_filters : m_filter_exclude_indices_list (c_command_hierarchy t') = m_filter_exclude_indices_list (c_command_hierarchy t);
  grown_topology : m_topology (c_command_hierarchy t') = m_topology (c_command_hierarchy t);
  grown_links type c : c ∈ concat (of_type type (c_node_children t')) ->
    c ∈ concat (of_type type (c_node_children t)) \/ tree_size t <= c;
  grown_kept type p l : of_type type (c_node_children t) !! p = Some l ->
    exists l', of_type type (c_node_children t') !! p = Some (l ++ l')
}.

Definition unlinked (t : NodeTree) (c : Z) : Prop := forall type, c ∉ concat (of_type type (c_node_children t)).

Lemma prefix_vec_size {A} (v w : list A) : v `prefix_of` w -> vec_size v <= vec_size w.
Proof. intros [k ->]. unfold vec_size. rewrite length_app. lia. Qed.

Lemma grown_size t t' : grown t t' -> tree_size t <= tree_size t'.
Proof. intros G. apply prefix_vec_size, G. Qed.

Lemma grown_refl t : tree_ok t -> grown t t.
Proof. intros H. split; auto. intros type p l Hl. exists []. by rewrite app_nil_r. Qed.

Lemma grown_trans t1 t2 t3 : grown t1 t2 -> grown t2 t3 -> grown t1 t3.
Proof.
  intros G1 G2. pose proof (grown_size _ _ G1). destruct G1, G2. split; try done; try congruence.
  - by etrans.
  - by etrans.
  - intros type c Hc. destruct (grown_links1 type c Hc) as [Hc'|]; [by apply grown_links0|right; lia].
  - intros type p l (l1 & Hl1)%grown_kept0. destruct (grown_kept1 type p _ Hl1) as [l2 Hl2]. exists (l1 ++ l2). by rewrite app_assoc.
Qed.

Lemma unlinked_grown t t' c : unlinked t c -> grown t t' -> c < tree_size t -> unlinked t' c.
Proof. intros U G Hc type Hin. destruct (grown_links _ _ G type c Hin) as [?|]; [by eapply U|lia]. Qed.

Lemma unlinked_new t c : tree_ok t -> tree_size t <= c -> unlinked t c.
Proof.
  intros H Hc type Hin. pose proof (forest_range _ (ok_forest t H type)) as Hr.
  rewrite Forall_forall in Hr. apply Hr in Hin. pose proof (ok_children t H type). unfold vec_size in *. lia.
Qed.

(** *** Linking *)

Lemma concat_alter_snoc {A} (cs : list (list A)) p c : (p < length cs)%nat ->
  concat (alter (fun l => l ++ [c]) p cs) ≡ₚ c :: concat cs.
Proof.
  revert p. induction cs as [|l cs IH]; intros p Hp; [by apply Nat.nlt_0_r in Hp|].
  destruct p as [|p]; cbn in *.
  - rewrite <- app_assoc. cbn. symmetry. apply Permutation_middle.
  - rewrite IH by lia. symmetry. apply Permutation_middle.
Qed.

Lemma child_at_alter cs p c q k x :
  child_at (alter (fun l => l ++ [c]) p cs) q k = Some x -> child_at cs q k = Some x \/ (q = p /\ x = c).
Proof.
  unfold child_at. destruct (decide (q = p)) as [->|Hq].
  - rewrite list_lookup_alter_eq. destruct (cs !! p) as [l|]; [|done]. cbn. intros [H|[_ H]]%lookup_app_Some; [by left|].
    destruct (k - length l)%nat; [|done]. cbn in H. injection H as <-. by right.
  - rewrite list_lookup_alter_ne by done. by left.
Qed.

Lemma forest_link cs p c : forest cs -> 0 <= c < vec_size cs -> (p < length cs)%nat -> c ∉ concat cs ->
  forest (alter (fun l => l ++ [c]) p cs).
Proof.
  intros [Hr Hn] Hc Hp Hin. split; rewrite concat_alter_snoc by done.
  - rewrite length_alter. by constructor.
  - by constructor.
Qed.

Lemma increasing_link cs p c : increasing cs -> Z.of_nat p < c -> increasing (alter (fun l => l ++ [c]) p cs).
Proof. intros Hi Hc q k x [H|[-> ->]]%child_at_alter; [by apply (Hi q k)|done]. Qed.

Lemma has_type_in types type i : has_type types type i -> node_in (vec_size types) i.
Proof. intros [H0 Hl%lookup_lt_Some]. unfold node_in, vec_size. lia. Qed.

Lemma has_type_prefix types types' type i : types `prefix_of` types' -> has_type types type i -> has_type types' type i.
Proof. intros [k ->] [H0 Hl]. split; [done|]. by apply lookup_app_l_Some. Qed.

Lemma edges_prefix topology types types' cs : types `prefix_of` types' -> edges_ok topology types cs -> edges_ok topology types' cs.
Proof.
  intros Hp He p k c Hc. destruct (He p k c Hc) as (parent & child & Hl & Ht & Hok). exists parent, child.
  split; [by eapply prefix_lookup_Some|]. split; [by eapply has_type_prefix|done].
Qed.

Lemma edges_link topology types cs p c parent child : edges_ok topology types cs ->
  has_type types parent (Z.of_nat p) -> has_type types child c -> edge_ok topology parent child = true ->
  edges_ok topology types (alter (fun l => l ++ [c]) p cs).
Proof.
  intros He [_ Hp] Hc Hok q k x [H|[-> ->]]%child_at_alter; [by apply (He q k)|]. rewrite Nat2Z.id in Hp. by exists parent, child.
Qed.

Lemma of_set_type_eq {A} type (a : A) p : of_type type (set_type type a p) = a.
Proof. by destruct type. Qed.
Lemma of_set_type_ne {A} type type' (a : A) p : type <> type' -> of_type type (set_type type' a p) = of_type type p.
Proof. by destruct type, type'. Qed.

(** ** The operations *)

Lemma vec_size_grow {A} (a : A) v : vec_size (grow a v) = vec_size v + 1.
Proof. unfold vec_size, grow. rewrite length_app. cbn. lia. Qed.

Lemma Forall_node_in_mono n m l : n <= m -> Forall (node_in n) l -> Forall (node_in m) l.
Proof. intros Hn H. eapply Forall_impl; [exact H|]. unfold node_in. intros c. lia. Qed.

Lemma Forall_grow {A} (P : A -> Prop) a v : Forall P v -> P a -> Forall P (grow a v).
Proof. intros Hv Ha. apply Forall_app. auto. Qed.

Lemma concat_grow (cs : list (list Z)) : concat (grow [] cs) = concat cs.
Proof. unfold grow. rewrite concat_app. cbn. apply app_nil_r. Qed.

Lemma child_at_grow cs p k : child_at (grow [] cs) p k = child_at cs p k.
Proof.
  unfold child_at, grow. destruct (decide (p < length cs)%nat); [by rewrite lookup_app_l|].
  rewrite (lookup_ge_None_2 cs) by lia. destruct (decide (p = length cs)) as [->|].
  - by rewrite lookup_app_r, Nat.sub_diag by lia.
  - by rewrite lookup_ge_None_2 by (rewrite length_app; cbn; lia).
Qed.

Lemma forest_grow cs : forest cs -> forest (grow [] cs).
Proof.
  intros [Hr Hn]. split; rewrite concat_grow; [|done]. eapply Forall_impl; [exact Hr|].
  cbn. intros c. unfold grow. rewrite length_app. lia.
Qed.

Lemma edges_grow topology types cs : edges_ok topology types cs -> edges_ok topology types (grow [] cs).
Proof. intros H p k c. rewrite child_at_grow. apply H. Qed.

Lemma increasing_grow cs : increasing cs -> increasing (grow [] cs).
Proof. intros H p k c. rewrite child_at_grow. apply H. Qed.

Lemma per_of {A B} (f : A -> B) p type : of_type type (per_topology f p) = f (of_type type p).
Proof. by destruct type. Qed.

(** The node that is added. *)
Definition added (type : NodeType) (aux_info : AuxInfo) (t t' : NodeTree) : Prop :=
  m_node_type (tree_nodes t') = m_node_type (tree_nodes t) ++ [type] /\
  m_aux_info (tree_nodes t') = m_aux_info (tree_nodes t) ++ [aux_info] /\
  unlinked t' (tree_size t).

Lemma Creator_AddNode_spec type desc aux_info t : tree_ok t ->
  wp True (Creator_AddNode type desc aux_info)
    (fun n t' => n = tree_size t /\ tree_size t' = tree_size t + 1 /\ grown t t' /\ added type aux_info t t') t.
Proof.
  intros H. unfold wp, Creator_AddNode. destruct (Z.leb_spec UINT64_MAX (tree_size t)) as [|Hroom]; [done|].
  cbn [Hierarchy_AddNode Nodes_AddNode].
  set (t' := mkNodeTree _ _ _ _ _ _).
  assert (tree_size t' = tree_size t + 1) as Hs by apply vec_size_grow.
  assert (0 <= tree_size t) as H0 by (unfold tree_size, vec_size; lia).
  assert (m_node_type (tree_nodes t) `prefix_of` m_node_type (tree_nodes t')) as Hpre by by eexists.
  assert (added type aux_info t t') as Ha.
  { split; [done|]. split; [done|]. intros ty. cbn [c_node_children t']. rewrite per_of, concat_grow.
    apply unlinked_new; [done|lia]. }
  split; [done|]. split; [done|]. split; [|done].
  destruct H, ok_nodes0 as [Hd Hx].
  split; [|by eexists|by eexists|done|done|done| |].
  - split; rewrite ?Hs; cbn [c_command_hierarchy c_node_children c_shared_children c_node_start_shared_children
      c_node_end_shared_children c_node_root_node_indices t']; try (intros ty); rewrite ?per_of.
    + revert ty. change (tree_size t + 1 <= UINT64_MAX). lia.
    + unfold tree_nodes in *. split; cbn; rewrite !length_app; cbn; lia.
    + rewrite vec_size_grow. by rewrite ok_children0.
    + rewrite vec_size_grow. by rewrite ok_shared0.
    + rewrite vec_size_grow. by rewrite ok_start0.
    + rewrite vec_size_grow. by rewrite ok_end0.
    + rewrite vec_size_grow. by rewrite ok_root0.
    + by apply forest_grow.
    + by apply increasing_grow.
    + eapply edges_prefix; [done|]. by apply edges_grow.
    + apply Forall_grow; [|done]. eapply Forall_impl; [apply ok_shared_nodes0|]. intros l Hl.
      eapply Forall_impl; [done|]. intros i. by apply has_type_prefix.
    + apply Forall_grow; [|unfold node_in; lia]. eapply Forall_node_in_mono; [|apply ok_start_nodes0]. lia.
    + apply Forall_grow; [|unfold node_in; lia]. eapply Forall_node_in_mono; [|apply ok_end_nodes0]. lia.
    + apply Forall_grow; [|unfold node_in; lia]. eapply Forall_node_in_mono; [|apply ok_root_nodes0]. lia.
    + eapply Forall_impl; [done|]. intros i. by apply has_type_prefix.
    + done.
    + intros i Hi. eapply has_type_prefix; [done|]. by apply (ok_filters0 ty).
  - intros ty c. cbn [c_node_children t']. rewrite per_of, concat_grow. by left.
  - intros ty p l Hl. cbn [c_node_children t']. rewrite per_of. exists []. rewrite app_nil_r. by apply lookup_app_l_Some.
Qed.

Lemma vec_nonneg {A} (v : list A) : 0 <= vec_size v.
Proof. unfold vec_size. lia. Qed.

(** A child of a node, which was not linked. *)
Lemma Creator_AddChild_spec bad type p c parent child t : tree_ok t ->
  has_type (m_node_type (tree_nodes t)) parent p -> has_type (m_node_type (tree_nodes t)) child c ->
  edge_ok type parent child = true -> p < c -> c ∉ concat (of_type type (c_node_children t)) ->
  wp bad (Creator_AddChild type p c)
    (fun _ t' => tree_ok t' /\ c_command_hierarchy t' = c_command_hierarchy t /\
       of_type type (c_node_children t') = alter (fun l => l ++ [c]) (Z.to_nat p) (of_type type (c_node_children t)) /\
       (forall type', type' <> type -> of_type type' (c_node_children t') = of_type type' (c_node_children t))) t.
Proof.
  intros H Hpt Hct He Hlt Hin. unfold Creator_AddChild. apply wp_bind, wp_get, wp_bind, wp_checked.
  pose proof (ok_children t H type) as Hlen. pose proof (has_type_in _ _ _ Hpt) as Hp. pose proof (has_type_in _ _ _ Hct) as Hc.
  unfold node_in in *. fold (tree_size t) in Hp, Hc.
  rewrite vec_push_spec by lia. apply wp_modify.
  set (cs := alter _ _ _). set (t' := set_tree_children _ t).
  assert (forall type', type' <> type -> of_type type' (c_node_children t') = of_type type' (c_node_children t)) as Hne.
  { intros type' Hne. cbn. by apply of_set_type_ne. }
  assert (of_type type (c_node_children t') = cs) as Heq by apply of_set_type_eq.
  split; [|done]. destruct H. split; try done; intros type'; destruct (decide (type' = type)) as [->|Hd];
    rewrite ?Heq, ?(Hne _ Hd); try done.
  - unfold cs, vec_size. rewrite length_alter. apply ok_children0.
  - apply forest_link; [done|lia|unfold vec_size in Hlen; lia|done].
  - apply increasing_link; [done|lia].
  - eapply edges_link; [done| |done|done]. by rewrite Z2Nat.id by lia.
Qed.

(** [tree_ok] with other shared children, ranges and events. *)
Lemma tree_ok_shared s t : tree_ok t ->
  (forall type, vec_size (of_type type s) = tree_size t) ->
  (forall type, Forall (Forall (has_type (m_node_type (tree_nodes t)) kPacketNode)) (of_type type s)) ->
  tree_ok (set_tree_shared s t).
Proof. intros [] ??. by split. Qed.

Lemma tree_ok_ranges starts ends roots t : tree_ok t ->
  (forall type, vec_size (of_type type starts) = tree_size t /\ Forall (node_in (tree_size t)) (of_type type starts)) ->
  (forall type, vec_size (of_type type ends) = tree_size t /\ Forall (node_in (tree_size t)) (of_type type ends)) ->
  (forall type, vec_size (of_type type roots) = tree_size t /\ Forall (node_in (tree_size t)) (of_type type roots)) ->
  tree_ok (set_tree_ranges starts ends roots t).
Proof. intros [] Hs He Hr. split; try done; intros type; try apply Hs; try apply He; apply Hr. Qed.

(** Only shared children and ranges differ. *)
Definition same_tree (t t' : NodeTree) : Prop :=
  c_command_hierarchy t' = c_command_hierarchy t /\ c_node_children t' = c_node_children t.

Lemma same_tree_grown t t' : tree_ok t' -> same_tree t t' -> grown t t'.
Proof.
  intros H [Eh Ec]. split; unfold tree_nodes; rewrite ?Eh, ?Ec; try done; [by left|]. intros type p l Hl. exists [].
  by rewrite app_nil_r.
Qed.

Lemma Forall_alter_push (P : Z -> Prop) (v : list (list Z)) i c :
  Forall (Forall P) v -> P c -> Forall (Forall P) (alter (fun l => l ++ [c]) i v).
Proof.
  intros Hv Hc. apply Forall_lookup. intros j l. destruct (decide (j = i)) as [->|Hj].
  - rewrite list_lookup_alter_eq. destruct (v !! i) as [l'|] eqn:E; [|done]. cbn. intros [= <-].
    apply Forall_app. split; [|by constructor]. by eapply Forall_lookup_1 in Hv.
  - rewrite list_lookup_alter_ne by done. intros E. by eapply Forall_lookup_1 in Hv.
Qed.

(** Outside of the nodes, the call leaves the array. *)
Lemma AddSharedChild_spec type p c t : tree_ok t -> has_type (m_node_type (tree_nodes t)) kPacketNode c ->
  wp True (AddSharedChild type p c) (fun _ t' => tree_ok t' /\ same_tree t t') t.
Proof.
  intros H Hc. unfold AddSharedChild. apply wp_bind, wp_get, wp_bind, wp_checked.
  pose proof (ok_shared t H type) as Hlen. destruct (decide (0 <= p < tree_size t)) as [Hp|Hp].
  2: { rewrite vec_push_out; [done|]. lia. }
  rewrite vec_push_spec by lia. apply wp_modify.
  split; [|done]. apply tree_ok_shared; [done| |]; intros type'; destruct (decide (type' = type)) as [->|Hd];
    rewrite ?of_set_type_eq, ?of_set_type_ne by done.
  - unfold vec_size. by rewrite length_alter.
  - apply H.
  - apply Forall_alter_push; [apply H|done].
  - apply H.
Qed.

Lemma vec_set_nodes (n i c : Z) (v : list Z) : vec_size v = n -> Forall (node_in n) v -> node_in n i -> node_in n c ->
  exists v', vec_set i c v = Done v' /\ vec_size v' = n /\ Forall (node_in n) v'.
Proof.
  intros Hv Hn Hi Hc. unfold node_in in Hi. exists (<[Z.to_nat i := c]> v). split; [apply vec_set_spec; unfold vec_size in Hv; lia|].
  split; [unfold vec_size; by rewrite length_insert|]. by apply Forall_insert.
Qed.

Lemma set_type_nodes n type v (p : PerTopology (list Z)) :
  vec_size v = n -> Forall (node_in n) v ->
  (forall type, vec_size (of_type type p) = n /\ Forall (node_in n) (of_type type p)) ->
  forall type', vec_size (of_type type' (set_type type v p)) = n /\ Forall (node_in n) (of_type type' (set_type type v p)).
Proof.
  intros Hs Hv Hp type'. destruct (decide (type' = type)) as [->|]; rewrite ?of_set_type_eq, ?of_set_type_ne by done; auto.
Qed.

Section Ranges.
Context (bad : Prop) (type : TopologyType) (i c : Z) (t : NodeTree).
Context (H : tree_ok t) (Hi : node_in (tree_size t) i) (Hc : node_in (tree_size t) c).

Let starts ty : vec_size (of_type ty (c_node_start_shared_children t)) = tree_size t /\
  Forall (node_in (tree_size t)) (of_type ty (c_node_start_shared_children t)).
Proof. split; apply H. Qed.
Let ends ty : vec_size (of_type ty (c_node_end_shared_children t)) = tree_size t /\
  Forall (node_in (tree_size t)) (of_type ty (c_node_end_shared_children t)).
Proof. split; apply H. Qed.
Let roots ty : vec_size (of_type ty (c_node_root_node_indices t)) = tree_size t /\
  Forall (node_in (tree_size t)) (of_type ty (c_node_root_node_indices t)).
Proof. split; apply H. Qed.

Lemma SetStart_spec : wp bad (SetStartSharedChildrenNodeIndex type i c) (fun _ t' => tree_ok t' /\ same_tree t t') t.
Proof.
  apply wp_bind, wp_get, wp_bind, wp_checked. destruct (starts type) as [Hl Hn].
  destruct (vec_set_nodes _ i c _ Hl Hn Hi Hc) as (v & -> & Hv & Hvn). apply wp_modify. split; [|done].
  apply tree_ok_ranges; [done| |exact ends|exact roots]. by apply set_type_nodes.
Qed.

Lemma SetEnd_spec : wp bad (SetEndSharedChildrenNodeIndex type i c) (fun _ t' => tree_ok t' /\ same_tree t t') t.
Proof.
  apply wp_bind, wp_get, wp_bind, wp_checked. destruct (ends type) as [Hl Hn].
  destruct (vec_set_nodes _ i c _ Hl Hn Hi Hc) as (v & -> & Hv & Hvn). apply wp_modify. split; [|done].
  apply tree_ok_ranges; [done|exact starts| |exact roots]. by apply set_type_nodes.
Qed.

Lemma SetRoot_spec : wp bad (SetSharedChildRootNodeIndex type i c) (fun _ t' => tree_ok t' /\ same_tree t t') t.
Proof.
  apply wp_bind, wp_get, wp_bind, wp_checked. destruct (roots type) as [Hl Hn].
  destruct (vec_set_nodes _ i c _ Hl Hn Hi Hc) as (v & -> & Hv & Hvn). apply wp_modify. split; [|done].
  apply tree_ok_ranges; [done|exact starts|exact ends|]. by apply set_type_nodes.
Qed.
End Ranges.

(** ** Creating the topologies *)

(** Where the shared children of each node are in the list of all of them. *)
Fixpoint shared_infos (start : Z) (shared : list (list Z)) : list ChildrenInfo :=
  match shared with [] => [] | sh :: shared => mkChildren start (vec_size sh) :: shared_infos (start + vec_size sh) shared end.

Record shows_shared (s : SharedNodeTopology) (shared : list (list Z)) : Prop := {
  shown_list : m_shared_children_indices s = concat shared;
  shown_infos : m_node_shared_children s = shared_infos 0 shared
}.

Lemma shared_infos_app start shared shared' :
  shared_infos start (shared ++ shared') = shared_infos start shared ++ shared_infos (start + vec_size (concat shared)) shared'.
Proof.
  revert start. induction shared as [|sh shared IH]; intros start; cbn; [by rewrite Z.add_0_r|].
  rewrite IH. do 2 f_equal. f_equal. unfold vec_size. rewrite length_app. lia.
Qed.

Lemma length_shared_infos start shared : length (shared_infos start shared) = length shared.
Proof. revert start. induction shared; intros; cbn; [done|]. by f_equal. Qed.

Lemma add_node_children_spec todo : forall cs shd shtodo (s : SharedNodeTopology),
  represents s (cs ++ replicate (length todo) []) -> forest (cs ++ todo) ->
  length shd = length cs -> length shtodo = length todo ->
  m_shared_children_indices s = concat shd ->
  m_node_shared_children s = shared_infos 0 shd ++ replicate (length todo) new_ChildrenInfo ->
  exists s', add_node_children (Z.of_nat (length cs)) todo shtodo s = Done s' /\ represents s' (cs ++ todo) /\
    shows_shared s' (shd ++ shtodo).
Proof.
  induction todo as [|ch todo IH]; intros cs shd shtodo s Hr Hf Hl Hl' Hi Hn; cbn [add_node_children].
  { apply nil_length_inv in Hl' as ->. exists s. rewrite app_nil_r in Hn. rewrite (app_nil_r shd). by split_and!. }
  destruct shtodo as [|sh shtodo]; [done|]. injection Hl' as Hl'. cbn [length replicate tail] in *.
  assert (<[length cs := ch]> (cs ++ [] :: replicate (length todo) []) = (cs ++ [ch]) ++ replicate (length todo) []) as E.
  { rewrite insert_app_r_alt by lia. rewrite Nat.sub_diag. cbn. by rewrite <- app_assoc. }
  destruct (AddChildren_spec s _ (length cs) ch Hr) as (t1 & -> & Ht1).
  - by rewrite lookup_app_r, Nat.sub_diag by lia.
  - rewrite E, <- app_assoc. apply (forest_sub (cs ++ ch :: todo)); [|done].
    apply Forall2_app; [by apply Forall_Forall2_diag, Forall_true; left|]. constructor; [by left|].
    clear. induction todo; constructor; [by right|done].
  - rewrite E in Ht1. cbn [mbind outcome_bind]. unfold AddSharedChildren.
    cbn [m_node_shared_children set_topology m_shared_children_indices]. rewrite Hn.
    rewrite vec_set_nat by (rewrite length_app, length_shared_infos; cbn; lia). cbn [mbind outcome_bind].
    rewrite insert_app_r_alt by (rewrite length_shared_infos; lia). rewrite length_shared_infos, Hl, Nat.sub_diag, Hi.
    cbn [list_insert insert].
    set (s1 := mkSharedTopology _ _ _ _ _ _).
    destruct (IH (cs ++ [ch]) (shd ++ [sh]) shtodo s1) as (s' & E' & Ht' & Hs'); try done.
    + by rewrite <- app_assoc.
    + rewrite !length_app. cbn. lia.
    + unfold s1. cbn [m_shared_children_indices]. rewrite concat_app. cbn. by rewrite app_nil_r.
    + cbn. rewrite shared_infos_app, <- app_assoc. cbn. by rewrite Z.add_0_l.
    + rewrite <- app_assoc in Ht', Hs'. rewrite length_app in E'. cbn in E'.
      replace (Z.of_nat (length cs) + 1) with (Z.of_nat (length cs + 1)) by lia. by exists s'.
Qed.

Lemma create_topology_spec type t : tree_ok t -> of_type type (m_topology (c_command_hierarchy t)) = new_SharedNodeTopology ->
  exists s, create_topology type t = Done s /\ represents s (of_type type (c_node_children t)) /\
    shows_shared s (of_type type (c_shared_children t)) /\
    m_start_shared_child s = of_type type (c_node_start_shared_children t) /\
    m_end_shared_child s = of_type type (c_node_end_shared_children t) /\
    m_root_node_index s = of_type type (c_node_root_node_indices t).
Proof.
  intros H E. unfold create_topology. rewrite E. set (cs := of_type type (c_node_children t)).
  destruct (add_node_children_spec cs [] [] (of_type type (c_shared_children t))
    (SetNumSharedNodes (length cs) new_SharedNodeTopology)) as (s & Es & Hr & Hs); try done.
  - apply represents_empty.
  - apply H.
  - pose proof (ok_children t H type) as H1. pose proof (ok_shared t H type) as H2. unfold vec_size in *. fold cs in H1. lia.
  - cbn. apply resize_nil.
  - change (Z.of_nat (length [])) with 0 in Es. rewrite Es. cbn [mbind outcome_bind]. eexists. split; [done|].
    split; [exact Hr|]. split; [by destruct Hs; split|]. done.
Qed.

Lemma Creator_CreateTopologies_spec bad t : tree_ok t -> m_topology (c_command_hierarchy t) = mkPerTopology new_SharedNodeTopology new_SharedNodeTopology ->
  wp bad Creator_CreateTopologies (fun _ t' => tree_nodes t' = tree_nodes t /\
    m_filter_exclude_indices_list (c_command_hierarchy t') = m_filter_exclude_indices_list (c_command_hierarchy t) /\
    forall type, let s := of_type type (m_topology (c_command_hierarchy t')) in
      represents s (of_type type (c_node_children t)) /\ shows_shared s (of_type type (c_shared_children t)) /\
      m_start_shared_child s = of_type type (c_node_start_shared_children t) /\
      m_end_shared_child s = of_type type (c_node_end_shared_children t) /\
      m_root_node_index s = of_type type (c_node_root_node_indices t)) t.
Proof.
  intros H E. unfold wp, Creator_CreateTopologies.
  destruct (create_topology_spec kSubmitTopology t H) as (s1 & -> & H1); [by rewrite E|].
  destruct (create_topology_spec kAllEventTopology t H) as (s2 & -> & H2); [by rewrite E|].
  cbn [mbind outcome_bind]. split; [done|]. split; [done|]. intros []; cbn; done.
Qed.
