(* ===== verification/PacketNodes.v ===== *)
(** * PacketNodes: the nodes of a packet

    The operations of [CommandHierarchyCreator] ([src/dive_core/command_hierarchy.cpp])
    that add the node of a packet with, below it, its registers and their fields, its
    fields, and the memory it refers to. *)

From S2P Require Import Prelude Wire Memory Pm4 StateTracker Emulate Topology Hierarchy EventInfo NodeTree.

#[local] Open Scope Z_scope.

(** ** Values *)

Definition nth_char (n : Z) (s : string) : string :=
  match String.get (Z.to_nat n) s with Some a => String a "" | None => "" end.

(** Two's complement of 32 bits. *)
Definition int32 (value : Z) : Z := let v := wrap 32 value in if v <? 2 ^ 31 then v else v - 2 ^ 32.

Fixpoint zeros (n : nat) : string := match n with O => "" | S n => "0" +:+ zeros n end.

(** [setfill('0') << setw(8)] in hexadecimal. *)
Definition hex8 (value : Z) : string := let s := hex value in zeros (8 - String.length s) +:+ s.

Section Nodes.
Context `{AdrenoPm4} `{Pm4Info} {M : Type} `{IMemoryManager M}.

(** A fixed-point number with a sign is below zero when its top bit, of weight
    [2^bit_width], is set. *)
Definition OutputValue (type : ValueType) (value bit_width radix : Z) : string :=
  match type with
  | kBoolean => if negb (value =? 0) then "True" else "False"
  | kUint => pretty value
  | kInt => pretty (int32 value)
  | kFloat => print_float (wrap 32 value)
  | kFixed =>
      if negb (Z.land value (wrap 64 (Z.shiftl 1 bit_width)) =? 0) then
        print_double (wrap 64 (wrap 64 (Z.shiftl 1 (bit_width + 1)) - value)) radix
      else print_double value radix
  | kUFixed => print_double value radix
  | kRegID => "r" +:+ pretty (Z.shiftr value 2) +:+ "." +:+ nth_char (Z.land value 0x3) "xyzw"
  | kAddress | kWaddress | kHex | kOther => "0x" +:+ hex value
  end.

(** ** Operations

    On the nodes and the memory, which caches. *)
Definition Parsing (A : Type) : Type := Steps (NodeTree * M) A.
#[local] Instance Parsing_ret : MRet Parsing := Steps_ret.
#[local] Instance Parsing_bind : MBind Parsing := @Steps_bind (NodeTree * M).

Definition on_tree {A} (m : Steps NodeTree A) : Parsing A := fun s =>
  '(a, t) ← m (fst s); Done (a, (t, snd s)).
Definition reading {A} (m : M -> outcome (A * M)) : Parsing A := fun s =>
  '(a, mem) ← m (snd s); Done (a, (fst s, mem)).

Definition read_dword (submit_index va_addr : Z) : Parsing Z :=
  reading (fun mem => Done (retrieve_dword submit_index va_addr mem)).

(** What would be a null pointer is out of bounds. *)
Definition not_null {A} (o : option A) : Parsing A :=
  checked match o with Some a => Done a | None => OutOfBounds end.

(** The pair of calls that makes a node the child of a node in both topologies. *)
Definition add_to_both (parent child : Z) : Parsing () :=
  on_tree (Creator_AddChild kSubmitTopology parent child ;; Creator_AddChild kAllEventTopology parent child).

(** A field node below a node. *)
Definition add_field (parent : Z) (desc : string) : Parsing Z :=
  field_node_index ← on_tree (Creator_AddNode kFieldNode desc (RegFieldNode false));
  add_to_both parent field_node_index ;;
  mret field_node_index.

(** *** Registers *)

Definition enum_or_value (handle : option Z) (type : ValueType) (value bit_width radix : Z) : string :=
  match handle with
  | Some handle => default (OutputValue type value 0 0) (GetEnumString handle (wrap 32 value))
  | None => OutputValue type value bit_width radix
  end.

Definition reg_field_desc (reg_value : Z) (f : RegField) : string :=
  let field_value := wrap 64 (Z.shiftl (Z.shiftr (Z.land reg_value (rf_mask f)) (rf_shift f)) (rf_shr f)) in
  rf_name f +:+ ": " +:+ enum_or_value (rf_enum_handle f) (rf_type f) field_value (rf_bit_width f) (rf_radix f).

Definition AddRegisterNode (reg reg_value : Z) (info : RegInfo) : Parsing Z :=
  let reg_value := wrap 64 (Z.shiftl reg_value (ri_shr info)) in
  text ← match ri_enum_handle info with
         | Some handle => not_null (GetEnumString handle (wrap 32 reg_value))
         | None => mret (OutputValue (ri_type info) reg_value (ri_bit_width info) (ri_radix info))
         end;
  reg_node_index ← on_tree (Creator_AddNode kRegNode (ri_name info +:+ ": " +:+ text) (RegFieldNode false));
  each 0 (ri_fields info) (fun _ f => add_field reg_node_index (reg_field_desc reg_value f) ;; mret ()) ;;
  mret reg_node_index.

(** The local [temp], of which the type is zero. *)
Definition unknown_register : RegInfo := mkRegInfo "Unknown" false kBoolean None 0 0 0 [].
Definition register_info (reg : Z) : RegInfo := default unknown_register (GetFullRegInfo reg).

Definition append_register (packet_node_index reg reg_value : Z) : Parsing () :=
  reg_node_index ← AddRegisterNode reg reg_value (register_info reg);
  add_to_both packet_node_index reg_node_index.

(** [AppendRegNodes] of pairs of an offset and a value. *)
Fixpoint AppendRegNodes_pairs (fuel : nat) (submit_index va_addr dword_count packet_node_index dword : Z) : Parsing () :=
  if dword <? dword_count then
    match fuel with
    | O => fun _ => OutOfFuel
    | S fuel =>
        '(reg, value) ← reading (fun mem =>
          '(reg, value, mem) ← retrieve_pair submit_index (wrap 64 (va_addr + dword * 4)) mem; Done (reg, value, mem));
        let dword := dword + 2 in
        '(dword, reg_value) ←
          (if ri_is_64_bit (register_info reg) then
             '(new_reg, new_value) ← reading (fun mem =>
               '(reg, value, mem) ← retrieve_pair submit_index (wrap 64 (va_addr + dword * 4)) mem;
               Done (reg, value, mem));
             if new_reg =? wrap 32 (reg + 1) then mret (dword + 2, Z.lor value (Z.shiftl new_value 32))
             else mret (dword, value)
           else mret (dword, value) : Parsing (Z * Z));
        append_register packet_node_index reg reg_value ;;
        AppendRegNodes_pairs fuel submit_index va_addr dword_count packet_node_index dword
    end
  else mret ().

(** [AppendRegNodes] of consecutive values, of the header of a type-4 packet. *)
Fixpoint AppendRegNodes_type4 (fuel : nat) (submit_index va_addr header packet_node_index offset_in_bytes dword : Z)
  : Parsing () :=
  if dword <? type4_count header then
    match fuel with
    | O => fun _ => OutOfFuel
    | S fuel =>
        let reg_va_addr := wrap 64 (va_addr + 4 + offset_in_bytes) in
        let reg_offset := type4_offset header + dword in
        let is_64_bit := ri_is_64_bit (register_info reg_offset) in
        let size_to_read := if is_64_bit then 8 else 4 in
        bytes ← reading (retrieve 8 (Z.to_nat size_to_read) submit_index reg_va_addr);
        append_register packet_node_index reg_offset (le_combine bytes) ;;
        AppendRegNodes_type4 fuel submit_index va_addr header packet_node_index (offset_in_bytes + size_to_read)
          (if is_64_bit then dword + 2 else dword + 1)
    end
  else mret ().

(** *** Packet fields *)

(** The value is of 32 bits, and the width and the radix are the defaults. *)
Definition packet_field_desc (prefix : string) (dword_value : Z) (f : PacketField) : string :=
  let field_value := wrap 32 (Z.shiftl (Z.shiftr (Z.land dword_value (pf_mask f)) (pf_shift f)) (pf_shr f)) in
  prefix +:+ pf_name f +:+ ": " +:+ enum_or_value (pf_enum_handle f) (pf_type f) field_value 0 0.

(** The loop over the fields; it returns [end_dword] and [packet_end_early]. *)
Fixpoint append_fields (fields : list PacketField) (submit_index va_addr dword_count : Z) (parent_node_index : Z)
    (prefix : string) (base_dword end_dword : Z) : Parsing (Z * bool) :=
  match fields with
  | [] => mret (end_dword, false)
  | f :: fields =>
      let field_dword := wrap 32 (base_dword + pf_dword f) in
      if dword_count <? field_dword then mret (field_dword, true)
      else
        dword_value ← read_dword submit_index (wrap 64 (va_addr + wrap 32 (field_dword - 1) * 4));
        add_field parent_node_index (packet_field_desc prefix dword_value f) ;;
        append_fields fields submit_index va_addr dword_count parent_node_index prefix base_dword field_dword
  end.

(** The loop over the array; it returns [end_dword]. *)
Fixpoint append_array (n array : nat) (submit_index va_addr dword_count : Z) (info : PacketInfo)
    (packet_node_index : Z) (prefix : string) (end_dword : Z) : Parsing Z :=
  match n with
  | O => mret end_dword
  | S n =>
      let base_dword := match array with O => 0 | S _ => end_dword end in
      parent_node_index ←
        (if (1 <? pi_max_array_size info) && (base_dword <? dword_count)
         then add_field packet_node_index (pretty array) else mret packet_node_index);
      '(end_dword, packet_end_early) ←
        append_fields (pi_fields info) submit_index va_addr dword_count parent_node_index prefix base_dword end_dword;
      if (packet_end_early : bool) then mret end_dword
      else append_array n (S array) submit_index va_addr dword_count info packet_node_index prefix end_dword
  end.

Definition AppendPacketFieldNodes (submit_index va_addr dword_count : Z) (append_extra_dwords : bool)
    (info : PacketInfo) (packet_node_index : Z) (prefix : string) : Parsing () :=
  end_dword ← append_array (Z.to_nat (pi_max_array_size info)) 0 submit_index va_addr dword_count info
    packet_node_index prefix kUInt32Max;
  if append_extra_dwords && (end_dword <? dword_count) then
    each 0 (seqZ (end_dword + 1) (dword_count - end_dword)) (fun _ i =>
      dword_value ← read_dword submit_index (wrap 64 (va_addr + i * 4));
      add_field packet_node_index (prefix +:+ "(DWORD " +:+ pretty i +:+ "): 0x" +:+ hex dword_value) ;;
      mret ())
  else mret ().

(** *** Memory *)

(** A [T] of four bytes, as it is shown. *)
Inductive Constant := OfFloat | OfUint32.

Definition show_constant (T : Constant) (value : Z) : string :=
  match T with OfFloat => print_fixed value | OfUint32 => "0x" +:+ hex8 value end.

(** The values of a row, or [None] where there is no backing memory. *)
Fixpoint constants_row (n : nat) (T : Constant) (submit_index ext_src_addr i num_dwords : Z) (text : string)
  : Parsing (option string) :=
  match n with
  | O => mret (Some text)
  | S n =>
      if i <? num_dwords then
        '(ok, bytes) ← reading (fun mem =>
          let '(ok, bytes, mem) :=
            memory_RetrieveMemoryData submit_index (wrap 64 (ext_src_addr + i * 4)) (replicate 4 Byte.x00) mem in
          Done (ok, bytes, mem));
        if negb ok then mret None
        else constants_row n T submit_index ext_src_addr (i + 1) num_dwords (text +:+ show_constant T (le_combine bytes) +:+ " ")
      else mret (Some text)
  end.

Fixpoint constants_rows (n : nat) (T : Constant) (submit_index ext_src_addr packet_node_index i num_dwords
    value_count_per_row : Z) : Parsing () :=
  match n with
  | O => mret ()
  | S n =>
      row ← constants_row (Z.to_nat value_count_per_row) T submit_index ext_src_addr i num_dwords "";
      match row with
      | None => mret ()
      | Some text =>
          add_field packet_node_index text ;;
          constants_rows n T submit_index ext_src_addr packet_node_index (i + value_count_per_row) num_dwords
            value_count_per_row
      end
  end.

(** The number of rows; [num_dwords] is a field of the packet, at most four times. *)
Definition AddConstantsToPacketNode (T : Constant) (ext_src_addr packet_node_index num_dwords submit_index
    value_count_per_row : Z) : Parsing () :=
  constants_rows (Z.to_nat ((num_dwords + value_count_per_row - 1) / value_count_per_row)) T submit_index ext_src_addr
    packet_node_index 0 num_dwords value_count_per_row.

Inductive StateBlockCat := kTex | kShader | kUAV.

Definition one_of (value : Z) (names : list string) : bool := existsb (fun name => value =? enumerator name) names.

(** The [switch] on [STATE_BLOCK], which asserts on other values. *)
Definition state_block_cat (state_block : Z) : StateBlockCat :=
  if one_of state_block ["SB6_VS_TEX"; "SB6_HS_TEX"; "SB6_DS_TEX"; "SB6_GS_TEX"; "SB6_FS_TEX"; "SB6_CS_TEX"] then kTex
  else if one_of state_block ["SB6_VS_SHADER"; "SB6_HS_SHADER"; "SB6_DS_SHADER"; "SB6_GS_SHADER"; "SB6_FS_SHADER";
                              "SB6_CS_SHADER"] then kShader
  else if one_of state_block ["SB6_UAV"; "SB6_CS_UAV"] then kUAV
  else kTex.

Definition load_state_field (name : string) (packet : list byte) : Z := packet_field ("PM4_CP_LOAD_STATE6." +:+ name) packet.

Definition bindless_source (packet : list byte) (is_compute : bool) (state_tracker : EmulateStateTracker) : outcome Z :=
  let u32All1 := load_state_field "u32All1" packet in
  let base_reg := GetRegOffsetByName
    (if is_compute then "HLSQ_CS_BINDLESS_BASE0_DESCRIPTOR" else "HLSQ_BINDLESS_BASE0_DESCRIPTOR") in
  let reg := wrap 32 (base_reg + Z.shiftr u32All1 28 * 2) in
  lo ← GetRegValue_current reg state_tracker;
  hi ← GetRegValue_current (wrap 32 (reg + 1)) state_tracker;
  Done (wrap 64 (Z.lor (Z.land lo 0xfffffffc) (Z.shiftl hi 32) + 4 * Z.land u32All1 0xffffff)).

(** [ext_src_addr] and [bindless]. *)
Definition state_source (va_addr : Z) (packet : list byte) (state_tracker : EmulateStateTracker) : outcome (Z * bool) :=
  let f name := load_state_field name packet in
  let state_src := f "bitfields0.STATE_SRC" in
  let is_compute := one_of (f "bitfields0.STATE_BLOCK") ["SB6_CS_TEX"; "SB6_CS_SHADER"; "SB6_CS_UAV"] in
  if state_src =? enumerator "SS6_DIRECT" then
    Done (wrap 64 (va_addr + Z.of_nat (sizeof_packet "PM4_CP_LOAD_STATE6")), false)
  else if state_src =? enumerator "SS6_BINDLESS" then
    ext_src_addr ← bindless_source packet is_compute state_tracker; Done (ext_src_addr, true)
  else if state_src =? enumerator "SS6_INDIRECT" then
    Done (Z.lor (Z.land (f "u32All1") 0xfffffffc) (Z.shiftl (f "u32All2") 32), false)
  else Done (0, false).

Definition AppendSharps (submit_index ext_src_addr packet_node_index num_unit : Z) (sharp_struct_name : string)
    (sharp_struct_size : Z) : Parsing () :=
  each 0 (seqZ 0 num_unit) (fun _ i =>
    info ← not_null (GetSharpInfo sharp_struct_name);
    AppendPacketFieldNodes submit_index (wrap 64 (ext_src_addr + wrap 32 (i * sharp_struct_size)))
      (sharp_struct_size / 4) false info packet_node_index ("  [" +:+ pretty i +:+ "] ")).

Definition AppendLoadStateExtBufferNode (submit_index va_addr packet_node_index : Z) (state_tracker : EmulateStateTracker)
  : Parsing () :=
  packet ← reading (read_struct "PM4_CP_LOAD_STATE6" submit_index va_addr);
  let f name := load_state_field name packet in
  '(ext_src_addr, bindless) ← checked (state_source va_addr packet state_tracker);
  let num_unit := f "bitfields0.NUM_UNIT" in
  let is_type name := f "bitfields0.STATE_TYPE" =? enumerator name in
  let sharps name := AppendSharps submit_index ext_src_addr packet_node_index num_unit name in
  let sizeof name := Z.of_nat (sizeof_packet name) in
  let sizeof_unless_bindless name := if (bindless : bool) then 16 else sizeof name in
  match state_block_cat (f "bitfields0.STATE_BLOCK") with
  | kTex =>
      if is_type "ST6_SHADER" then sharps "A6XX_TEX_SAMP" (sizeof_unless_bindless "A6XX_TEX_SAMP")
      else if is_type "ST6_CONSTANTS" then sharps "A6XX_TEX_CONST" (sizeof "A6XX_TEX_CONST")
      else if is_type "ST6_UBO" then sharps "A6XX_UBO" (sizeof_unless_bindless "A6XX_UBO")
      else mret ()
  | kShader =>
      if is_type "ST6_SHADER" then mret ()
      else if is_type "ST6_CONSTANTS" then
        if negb (ext_src_addr =? 0) then
          AddConstantsToPacketNode OfFloat ext_src_addr packet_node_index (num_unit * 4) submit_index 4
        else mret ()
      else if is_type "ST6_UBO" then sharps "A6XX_UBO" (sizeof_unless_bindless "A6XX_UBO")
      else if is_type "ST6_UAV" then sharps "A6XX_TEX_CONST" (sizeof "A6XX_TEX_CONST")
      else mret ()
  | kUAV =>
      if is_type "ST6_SHADER" then sharps "A6XX_TEX_CONST" (sizeof_unless_bindless "A6XX_TEX_CONST")
      else if is_type "ST6_CONSTANTS" then
        AddConstantsToPacketNode OfUint32 ext_src_addr packet_node_index (num_unit * 2) submit_index 2
      else mret ()
  end.

Definition AppendMemRegNodes (submit_index va_addr packet_node_index : Z) : Parsing () :=
  packet ← reading (read_struct "PM4_CP_MEM_TO_REG" submit_index va_addr);
  let f name := packet_field ("PM4_CP_MEM_TO_REG." +:+ name) packet in
  reg_node_index ← on_tree (Creator_AddNode kRegNode ("Base Register: " +:+ ri_name (register_info (f "bitfields0.REG")))
    (RegFieldNode false));
  add_to_both packet_node_index reg_node_index ;;
  AddConstantsToPacketNode OfUint32 (f "SRC") packet_node_index (f "bitfields0.CNT") submit_index 8.

(** *** Packets *)

Definition is_load_state (opcode : Z) : bool :=
  (opcode =? CP_LOAD_STATE6) || (opcode =? CP_LOAD_STATE6_GEOM) || (opcode =? CP_LOAD_STATE6_FRAG).

Definition UINT8_MAX : Z := 2 ^ 8 - 1.

Definition AddPacketNode (submit_index va_addr header cur_ib_level : Z) : Parsing Z :=
  if header_type header =? 7 then
    let opcode := type7_opcode header in
    packet_node_index ← on_tree (Creator_AddNode kPacketNode (GetOpCodeString opcode +:+ " 0x" +:+ hex header)
      (PacketNode va_addr opcode cur_ib_level));
    (if opcode =? CP_CONTEXT_REG_BUNCH then
       AppendRegNodes_pairs (Z.to_nat (type7_count header)) submit_index (wrap 64 (va_addr + 4)) (type7_count header)
         packet_node_index 0
     else
       info ← not_null (GetPacketInfo opcode);
       AppendPacketFieldNodes submit_index (wrap 64 (va_addr + 4)) (type7_count header) (negb (is_load_state opcode)) info
         packet_node_index "") ;;
    mret packet_node_index
  else if header_type header =? 4 then
    packet_node_index ← on_tree (Creator_AddNode kPacketNode ("TYPE4 REGWRITE 0x" +:+ hex header)
      (PacketNode va_addr UINT8_MAX cur_ib_level));
    AppendRegNodes_type4 (Z.to_nat (type4_count header)) submit_index va_addr header packet_node_index 0 0 ;;
    mret packet_node_index
  else mret kUInt32Max.

(** ** What the nodes of a packet leave

    [builds t0 K p m]: with [p] a node of type [K], [m] adds nodes below it and leaves the
    others; it may leave an array, where a table has no entry or the memory cannot be
    read. *)
Definition types_of (t : NodeTree) : list NodeType := m_node_type (tree_nodes t).

Definition builds {A} (t0 : NodeTree) (K : NodeType) (p : Z) (m : Parsing A) (Q : A -> NodeTree -> Prop) : Prop :=
  forall t mem, grown t0 t -> has_type (types_of t0) K p ->
    wp True m (fun a s => grown t0 (fst s) /\ Q a (fst s)) (t, mem).

Definition below {A} (t0 : NodeTree) (K : NodeType) (p : Z) (m : Parsing A) : Prop := builds t0 K p m (fun _ _ => True).

(** What has fields. *)
Definition has_fields (K : NodeType) : Prop := forall topology, edge_ok topology K kFieldNode = true.

Lemma has_type_grown t t' K p : grown t t' -> has_type (types_of t) K p -> has_type (types_of t') K p.
Proof. intros G. apply has_type_prefix, G. Qed.

Lemma builds_ret {A} t0 K p (a : A) (Q : A -> NodeTree -> Prop) : (forall t, Q a t) -> builds t0 K p (mret a) Q.
Proof. intros HQ t mem G Hp. by apply wp_ret. Qed.

Lemma builds_bind {A B} t0 K p (m : Parsing A) (k : A -> Parsing B) P Q :
  builds t0 K p m P -> (forall a t mem, grown t0 t -> P a t -> has_type (types_of t0) K p ->
    wp True (k a) (fun b s => grown t0 (fst s) /\ Q b (fst s)) (t, mem)) ->
  builds t0 K p (m ≫= k) Q.
Proof.
  intros Hm Hk t mem G Hp. apply wp_bind. eapply wp_mono; [by apply Hm|]. intros a [t' mem'] [G' HP]. by apply Hk.
Qed.

Lemma below_bind {A B} t0 K p (m : Parsing A) (k : A -> Parsing B) Q :
  below t0 K p m -> (forall a, builds t0 K p (k a) Q) -> builds t0 K p (m ≫= k) Q.
Proof. intros Hm Hk. eapply builds_bind; [done|]. intros a t mem G _ Hp. by apply Hk. Qed.

Lemma builds_weaken {A} t0 K p (m : Parsing A) P Q : builds t0 K p m P -> (forall a t, P a t -> Q a t) -> builds t0 K p m Q.
Proof. intros Hm HQ t mem G Hp. eapply wp_mono; [by apply Hm|]. intros a s [? ?]. auto. Qed.

Lemma below_of {A} t0 K p (m : Parsing A) P : builds t0 K p m P -> below t0 K p m.
Proof. intros Hm. by eapply builds_weaken. Qed.

(** Reading takes no fuel. *)
Definition in_fuel {A} (m : M -> outcome A) : Prop := forall mem, m mem <> OutOfFuel.

Lemma builds_reading {A} t0 K p (m : M -> outcome (A * M)) : in_fuel m -> below t0 K p (reading m).
Proof.
  intros Hm t mem G Hp. unfold wp, reading. cbn [fst snd]. specialize (Hm mem).
  by destruct (m mem) as [[a mem']| |].
Qed.

Lemma builds_checked {A} t0 K p (o : outcome A) : o <> OutOfFuel -> below t0 K p (checked o).
Proof. intros Ho t mem G Hp. apply wp_checked. by destruct o. Qed.

Lemma builds_not_null {A} t0 K p (o : option A) : below t0 K p (not_null o).
Proof. apply builds_checked. by destruct o. Qed.

Lemma in_fuel_retrieve n k submit va : in_fuel (retrieve n k submit va).
Proof. intros mem. unfold retrieve. destruct (n <? k)%nat; [done|]. by destruct (memory_RetrieveMemoryData _ _ _ _) as [[??]?]. Qed.

Lemma in_fuel_pair submit va :
  in_fuel (fun mem : M => '(reg, value, mem) ← retrieve_pair submit va mem; Done (reg, value, mem)).
Proof.
  intros mem. unfold retrieve_pair. pose proof (in_fuel_retrieve 8 8 submit va mem) as Hf.
  destruct (retrieve 8 8 submit va mem) as [[??]| |]; cbn; [done|done|by destruct Hf].
Qed.

Lemma below_reading_pair t0 K p submit va : below t0 K p (reading (fun mem : M =>
  '(reg, value, mem) ← retrieve_pair submit va mem; Done (reg, value, mem))).
Proof. apply builds_reading, in_fuel_pair. Qed.

Lemma below_read_dword t0 K p submit va : below t0 K p (read_dword submit va).
Proof. by apply builds_reading. Qed.

Lemma below_read_struct t0 K p name submit va : below t0 K p (reading (read_struct name submit va)).
Proof. apply builds_reading, in_fuel_retrieve. Qed.

(** *** Nodes *)

Lemma has_type_size t K i : has_type (types_of t) K i -> 0 <= i < tree_size t.
Proof. apply has_type_in. Qed.

(** The pair of calls, for a node added since. *)
Lemma add_to_both_spec t0 t mem parent child p c : grown t0 t -> has_type (types_of t0) parent p ->
  has_type (types_of t) child c -> (forall topology, edge_ok topology parent child = true) -> tree_size t0 <= c ->
  unlinked t c ->
  wp True (add_to_both p c) (fun _ s => grown t0 (fst s) /\ types_of (fst s) = types_of t) (t, mem).
Proof.
  intros G Hp Hct He Hc Hu. pose proof (has_type_grown _ _ _ _ G Hp) as Hp'.
  pose proof (has_type_size _ _ _ Hp) as Hpn.
  assert (forall bad ty t', tree_ok t' -> c_command_hierarchy t' = c_command_hierarchy t ->
    of_type ty (c_node_children t') = of_type ty (c_node_children t) ->
    wp bad (Creator_AddChild ty p c) (fun _ t'' => tree_ok t'' /\ c_command_hierarchy t'' = c_command_hierarchy t' /\
       of_type ty (c_node_children t'') = alter (fun l => l ++ [c]) (Z.to_nat p) (of_type ty (c_node_children t')) /\
       (forall type', type' <> ty -> of_type type' (c_node_children t'') = of_type type' (c_node_children t'))) t') as Hadd.
  { intros bad ty t' Hok En Ec. assert (tree_nodes t' = tree_nodes t) as Es by (unfold tree_nodes; by rewrite En).
    apply (Creator_AddChild_spec _ _ _ _ parent child); [done|by rewrite Es|by rewrite Es|done|lia|].
    rewrite Ec. apply Hu. }
  assert (wp True (Creator_AddChild kSubmitTopology p c ;; Creator_AddChild kAllEventTopology p c)
    (fun _ t' => grown t0 t' /\ types_of t' = types_of t) t) as Hw.
  { apply wp_bind. eapply wp_mono; [apply Hadd; [apply G|done..]|]. intros [] t1 (Hok1 & En1 & Ec1 & Hne1).
    eapply wp_mono; [apply Hadd; [done|done|by apply Hne1]|]. intros [] t2 (Hok2 & En2 & Ec2 & Hne2).
    rewrite Hne1 in Ec2 by done. rewrite En1 in En2.
    assert (tree_nodes t2 = tree_nodes t) as Et2 by (unfold tree_nodes; by rewrite En2).
    split; [|unfold types_of; by rewrite Et2].
    assert (forall ty, of_type ty (c_node_children t2) = alter (fun l => l ++ [c]) (Z.to_nat p) (of_type ty (c_node_children t))) as E.
    { intros []; [rewrite Hne2 by done|]; done. }
    destruct G as [Gok Gty Gau Gev Gfi Gto Gl Gk]. split; rewrite ?Et2, ?En2; try done.
    - intros ty x. rewrite E. pose proof (ok_children t Gok ty) as Hlen. apply has_type_size in Hp'.
      rewrite concat_alter_snoc by (unfold vec_size in *; lia). intros [->|Hx]%elem_of_cons; [by right|by apply Gl].
    - intros ty q l (l' & Hl')%Gk. rewrite E. destruct (decide (q = Z.to_nat p)) as [->|Hq].
      + rewrite list_lookup_alter_eq, Hl'. exists (l' ++ [c]). cbn. by rewrite app_assoc.
      + rewrite list_lookup_alter_ne by done. by exists l'. }
  unfold wp, add_to_both, on_tree in *. cbn [fst snd].
  by destruct ((Creator_AddChild kSubmitTopology p c ;; Creator_AddChild kAllEventTopology p c) t) as [[[] t']| |].
Qed.

Lemma wp_on_tree {A} bad (m : Steps NodeTree A) (Q : A -> NodeTree * M -> Prop) t mem :
  wp bad m (fun a t' => Q a (t', mem)) t -> wp bad (on_tree m) Q (t, mem).
Proof. unfold wp, on_tree. cbn [fst snd]. by destruct (m t) as [[a t']| |]. Qed.

Lemma below_each {A} t0 K p (body : nat -> A -> Parsing ()) l : (forall i a, below t0 K p (body i a)) ->
  forall i, below t0 K p (each i l body).
Proof.
  intros Hb. induction l as [|a l IH]; intros i; cbn [each]; [by apply builds_ret|].
  apply below_bind; [apply Hb|]. intros []. apply IH.
Qed.

(** A new node. *)
Lemma add_node_wp t0 t mem type desc aux_info (Q : Z -> NodeTree * M -> Prop) : grown t0 t ->
  (forall t', grown t t' -> grown t0 t' -> has_type (types_of t') type (tree_size t) -> unlinked t' (tree_size t) ->
     Q (tree_size t) (t', mem)) ->
  wp True (on_tree (Creator_AddNode type desc aux_info)) Q (t, mem).
Proof.
  intros G HQ. apply wp_on_tree. eapply wp_mono; [by apply Creator_AddNode_spec, G|].
  intros n t' (-> & Hs & G' & Ht & _ & Hu). apply HQ; [done|by eapply grown_trans| |done].
  unfold types_of. rewrite Ht. split; [unfold tree_size, vec_size; lia|]. unfold tree_size, vec_size.
  rewrite Nat2Z.id, lookup_app_r, Nat.sub_diag by lia. done.
Qed.

Lemma add_field_spec t0 K p desc : has_fields K ->
  builds t0 K p (add_field p desc) (fun r t => has_type (types_of t) kFieldNode r).
Proof.
  intros HK t mem G Hp. pose proof (grown_size _ _ G) as Hs. unfold add_field.
  apply wp_bind, (add_node_wp t0); [done|]. intros t1 G1 G01 Ht Hu.
  apply wp_bind. eapply wp_mono; [by apply (add_to_both_spec t0 _ _ K kFieldNode)|].
  intros [] [t2 mem2] [G2 Hs2]. cbn [fst] in *. apply wp_ret. cbn [fst]. split; [done|by rewrite Hs2].
Qed.

Lemma below_add_field t0 K p desc : has_fields K -> below t0 K p (add_field p desc).
Proof. intros HK. by eapply below_of, add_field_spec. Qed.

(** *** Registers *)

Lemma AddRegisterNode_spec t0 K p reg reg_value info :
  builds t0 K p (AddRegisterNode reg reg_value info)
    (fun r t => tree_size t0 <= r /\ has_type (types_of t) kRegNode r /\ unlinked t r).
Proof.
  unfold AddRegisterNode. apply below_bind.
  { destruct (ri_enum_handle info); [apply builds_not_null|by apply builds_ret]. }
  intros text t mem G Hp. pose proof (grown_size _ _ G) as Hs.
  apply wp_bind, (add_node_wp t0); [done|]. intros t1 G1 G01 Ht Hu. apply wp_bind.
  eapply wp_mono.
  - apply (below_each t1 kRegNode (tree_size t)); [|by apply grown_refl, G01|done].
    intros i f. apply below_bind; [by apply below_add_field|]. intros _. by apply builds_ret.
  - intros [] [t2 mem2] [G2 _]. cbn [fst] in *. apply wp_ret. cbn [fst].
    split; [by eapply grown_trans|]. split; [lia|]. split; [by eapply has_type_grown|].
    eapply unlinked_grown; [done..|]. apply has_type_size in Ht. lia.
Qed.

Lemma below_append_register t0 p reg reg_value : below t0 kPacketNode p (append_register p reg reg_value).
Proof.
  unfold append_register. eapply builds_bind; [apply AddRegisterNode_spec|]. intros r t mem G (Hr & Ht & Hu) Hp.
  eapply wp_mono; [by apply (add_to_both_spec t0 _ _ kPacketNode kRegNode)|]. by intros [] s [? _].
Qed.

Lemma below_AppendRegNodes_pairs t0 p submit va count : forall fuel dword, (Z.to_nat (count - dword) <= fuel)%nat ->
  below t0 kPacketNode p (AppendRegNodes_pairs fuel submit va count p dword).
Proof.
  induction fuel as [|fuel IH]; intros dword Hf; cbn [AppendRegNodes_pairs];
    (destruct (Z.ltb_spec dword count); [|by apply builds_ret]); [lia|].
  apply below_bind; [apply below_reading_pair|]. intros [reg value].
  eapply (builds_bind _ _ _ _ _ (fun r _ => dword + 2 <= fst r)).
  - destruct (ri_is_64_bit _); [|by apply builds_ret]. apply below_bind; [apply below_reading_pair|].
    intros [new_reg new_value]. destruct (new_reg =? _); apply builds_ret; cbn; lia.
  - intros [dword' v] t mem G Hd Hp. cbn [fst] in Hd. revert t mem G Hp.
    change (below t0 kPacketNode p (append_register p reg v ;; AppendRegNodes_pairs fuel submit va count p dword')).
    apply below_bind; [apply below_append_register|]. intros []. apply IH. lia.
Qed.

Lemma below_AppendRegNodes_type4 t0 p submit va header : forall fuel offset dword,
  (Z.to_nat (type4_count header - dword) <= fuel)%nat ->
  below t0 kPacketNode p (AppendRegNodes_type4 fuel submit va header p offset dword).
Proof.
  induction fuel as [|fuel IH]; intros offset dword Hf; cbn [AppendRegNodes_type4];
    (destruct (Z.ltb_spec dword (type4_count header)); [|by apply builds_ret]); [lia|].
  apply below_bind; [apply builds_reading, in_fuel_retrieve|]. intros bytes.
  apply below_bind; [apply below_append_register|]. intros []. apply IH. destruct (ri_is_64_bit _); lia.
Qed.

(** *** Fields *)

Lemma below_append_fields t0 K q submit va count prefix base : has_fields K -> forall fields end_dword,
  below t0 K q (append_fields fields submit va count q prefix base end_dword).
Proof.
  intros HK.
  induction fields as [|f fields IH]; intros end_dword; cbn [append_fields]; [by apply builds_ret|].
  destruct (count <? _); [by apply builds_ret|]. apply below_bind; [apply below_read_dword|]. intros v.
  apply below_bind; [by apply below_add_field|]. intros _. apply IH.
Qed.

Lemma below_append_array t0 K p submit va count info prefix : has_fields K -> forall n array end_dword,
  below t0 K p (append_array n array submit va count info p prefix end_dword).
Proof.
  intros HK.
  induction n as [|n IH]; intros array end_dword; cbn [append_array]; [by apply builds_ret|].
  eapply (builds_bind _ _ _ _ _ (fun q t => exists Q, has_fields Q /\ has_type (types_of t) Q q)).
  - intros t mem G Hp. destruct (_ && _).
    + eapply wp_mono; [by apply (add_field_spec t0 K)|]. intros q s [G' Hq]. split; [done|]. by exists kFieldNode.
    + apply wp_ret. split; [done|]. exists K. split; [done|]. by eapply has_type_grown.
  - intros q t mem G (Q & HQ & Hq) Hp. apply wp_bind.
    eapply wp_mono; [apply (below_append_fields t Q q); [done|by apply grown_refl, G|done]|].
    intros [end_dword' early] [t' mem'] [G' _]. cbn [fst] in *.
    assert (grown t0 t') by (by eapply grown_trans). destruct early; [by apply wp_ret|by apply IH].
Qed.

Lemma below_AppendPacketFieldNodes t0 K p submit va count extra info prefix : has_fields K ->
  below t0 K p (AppendPacketFieldNodes submit va count extra info p prefix).
Proof.
  intros HK.
  apply below_bind; [by apply below_append_array|]. intros end_dword. destruct (_ && _); [|by apply builds_ret].
  apply below_each. intros _ i. apply below_bind; [apply below_read_dword|]. intros v.
  apply below_bind; [by apply below_add_field|]. intros _. by apply builds_ret.
Qed.

(** *** Memory *)

Lemma below_constants_row t0 K p T submit src num : forall n i text,
  below t0 K p (constants_row n T submit src i num text).
Proof.
  induction n as [|n IH]; intros i text; cbn [constants_row]; [by apply builds_ret|].
  destruct (i <? num); [|by apply builds_ret]. apply below_bind.
  - apply builds_reading. intros mem. by destruct (memory_RetrieveMemoryData _ _ _ _) as [[??]?].
  - intros [ok bytes]. destruct ok; [apply IH|by apply builds_ret].
Qed.

Lemma below_AddConstants t0 K p T src num submit per_row : has_fields K ->
  below t0 K p (AddConstantsToPacketNode T src p num submit per_row).
Proof.
  intros HK.
  unfold AddConstantsToPacketNode. generalize 0 as i. induction (Z.to_nat _) as [|n IH]; intros i; cbn [constants_rows];
    [by apply builds_ret|].
  apply below_bind; [apply below_constants_row|]. intros [text|]; [|by apply builds_ret].
  apply below_bind; [by apply below_add_field|]. intros _. apply IH.
Qed.

Lemma below_AppendSharps t0 K p submit src num name size : has_fields K ->
  below t0 K p (AppendSharps submit src p num name size).
Proof.
  intros HK.
  apply below_each. intros _ i. apply below_bind; [apply builds_not_null|]. intros info.
  by apply below_AppendPacketFieldNodes.
Qed.

Lemma GetRegValue_in_fuel reg (tr : EmulateStateTracker) : GetRegValue_current reg tr <> OutOfFuel.
Proof. unfold GetRegValue_current, at_current_pass, GetRegValue. destruct (m_shader_enable_bit tr); [|done]. by destruct (in_regs reg). Qed.

Lemma bind_in_fuel {A B} (m : outcome A) (k : A -> outcome B) :
  m <> OutOfFuel -> (forall a, k a <> OutOfFuel) -> (m ≫= k) <> OutOfFuel.
Proof. intros Hm Hk. destruct m; [apply Hk|done|by destruct Hm]. Qed.

Lemma bindless_source_in_fuel packet is_compute tr : bindless_source packet is_compute tr <> OutOfFuel.
Proof. repeat (apply bind_in_fuel; [apply GetRegValue_in_fuel|intros ?]). done. Qed.

Lemma state_source_in_fuel va packet tr : state_source va packet tr <> OutOfFuel.
Proof.
  unfold state_source. set (is_compute := one_of _ _). pose proof (bindless_source_in_fuel packet is_compute tr) as Hb.
  destruct (bindless_source packet is_compute tr); repeat case_match; try done.
Qed.

Lemma below_AppendLoadState t0 K p submit va tr : has_fields K ->
  below t0 K p (AppendLoadStateExtBufferNode submit va p tr).
Proof.
  intros HK.
  apply below_bind; [apply below_read_struct|]. intros packet. apply below_bind; [apply builds_checked, state_source_in_fuel|].
  intros [src bindless]. cbv zeta. destruct (state_block_cat _);
    repeat destruct (_ =? enumerator _); try destruct (negb _);
    first [by apply below_AppendSharps|by apply below_AddConstants|by apply builds_ret].
Qed.

Lemma below_AppendMemRegNodes t0 p submit va : below t0 kPacketNode p (AppendMemRegNodes submit va p).
Proof.
  apply below_bind; [apply below_read_struct|]. intros packet t mem G Hp. pose proof (grown_size _ _ G) as Hs.
  apply wp_bind, (add_node_wp t0); [done|]. intros t1 G1 G01 Ht Hu.
  apply wp_bind. eapply wp_mono; [by apply (add_to_both_spec t0 _ _ kPacketNode kRegNode)|].
  intros [] [t2 mem2] [G2 _]. by apply (below_AddConstants t0 kPacketNode).
Qed.

(** *** Packets *)

(** A packet's node is the next one, if it has one, and is not linked yet. *)
Lemma AddPacketNode_spec t mem submit va header level : tree_ok t ->
  wp True (AddPacketNode submit va header level) (fun r s => grown t (fst s) /\
    (header_type header = 7 \/ header_type header = 4 ->
       r = tree_size t /\ has_type (types_of (fst s)) kPacketNode r /\ unlinked (fst s) r)) (t, mem).
Proof.
  intros Hok. unfold AddPacketNode.
  assert (forall desc aux (m : Z -> Parsing ()), (forall t1 r, below t1 kPacketNode r (m r)) ->
    wp True (n ← on_tree (Creator_AddNode kPacketNode desc aux); m n ;; mret n) (fun r s => grown t (fst s) /\
      (header_type header = 7 \/ header_type header = 4 ->
         r = tree_size t /\ has_type (types_of (fst s)) kPacketNode r /\ unlinked (fst s) r)) (t, mem)) as Hnode.
  { intros desc aux m Hm. apply wp_bind, (add_node_wp t); [by apply grown_refl|]. intros t1 G1 _ Ht Hu.
    apply wp_bind. eapply wp_mono; [apply (Hm t1); [by apply grown_refl, G1|done]|].
    intros [] [t2 mem2] [G2 _]. cbn [fst] in *. apply wp_ret. cbn [fst].
    split; [by eapply grown_trans|]. intros _. split; [done|]. split; [by eapply has_type_grown|].
    eapply unlinked_grown; [done..|]. apply has_type_size in Ht. lia. }
  destruct (Z.eqb_spec (header_type header) 7) as [E7|E7]; [|destruct (Z.eqb_spec (header_type header) 4) as [E4|E4]].
  - apply Hnode. intros t1 r. destruct (_ =? _); [apply below_AppendRegNodes_pairs; lia|].
    apply below_bind; [apply builds_not_null|]. intros info. by apply below_AppendPacketFieldNodes.
  - apply Hnode. intros t1 r. apply below_AppendRegNodes_type4. lia.
  - apply wp_ret. split; [by apply grown_refl|]. lia.
Qed.
End Nodes.
