(* ===== verification/HierarchyCreator.v ===== *)
(** * HierarchyCreator: the command hierarchy of PM4 captures

    Models [CommandHierarchyCreator] of [src/dive_core/command_hierarchy.{h,cpp}], the
    callbacks of the emulation that create a node for each submit, IB, packet, event and
    pass and arrange them in the two topologies. The vectors used as stacks
    have their back at the head. Members that are never read have no field. *)

From stdpp Require Import strings pretty gmap.
From Stdlib Require Import Sorted.
From S2P Require Import Prelude Wire Memory Pm4 StateTracker Emulate CaptureData Topology Hierarchy EventInfo DiveStrings NodeTree PacketNodes.

#[local] Open Scope Z_scope.

(** ** State

    [m_node_parent_info] has entries for the event topology only; an entry of
    [m_group_info] is the index of the group's node and its address. *)
Record Creator := mkCreator {
  c_tree : NodeTree;
  c_cmd_begin_packet_node_indices : list Z;
  c_cmd_begin_event_node_indices : list Z;
  c_render_marker_index : Z;
  c_node_parent_info : gmap Z Z;
  c_ib_stack : list Z;
  c_group_info : list (Z * Z);
  c_group_info_size : Z;
  c_start_bin_node_index : Z;
  c_draw_table_node_index : Z;
  c_num_events : Z;
  c_new_event_start : bool;
  c_new_ib_start : bool;
  c_tracking_first_tile_pass_start : bool;
  c_start_node_stack : PerTopology (list Z);
  c_last_added_node_index : Z;
  c_cur_submit_node_index : Z;
  c_cur_ib_packet_node_index : Z;
  c_cur_ib_level : Z;
  c_shared_node_ib_parent_stack : list Z;
  c_flatten_chain_nodes : bool;
  c_state_tracker : EmulateStateTracker
}.

Definition set_tree x (c : Creator) : Creator :=
  mkCreator x (c_cmd_begin_packet_node_indices c) (c_cmd_begin_event_node_indices c) (c_render_marker_index c)
    (c_node_parent_info c) (c_ib_stack c) (c_group_info c) (c_group_info_size c) (c_start_bin_node_index c)
    (c_draw_table_node_index c) (c_num_events c) (c_new_event_start c) (c_new_ib_start c)
    (c_tracking_first_tile_pass_start c) (c_start_node_stack c) (c_last_added_node_index c) (c_cur_submit_node_index
    c) (c_cur_ib_packet_node_index c) (c_cur_ib_level c) (c_shared_node_ib_parent_stack c) (c_flatten_chain_nodes c)
    (c_state_tracker c).
Definition set_cmd_begin_packet_node_indices x (c : Creator) : Creator :=
  mkCreator (c_tree c) x (c_cmd_begin_event_node_indices c) (c_render_marker_index c) (c_node_parent_info c)
    (c_ib_stack c) (c_group_info c) (c_group_info_size c) (c_start_bin_node_index c) (c_draw_table_node_index c)
    (c_num_events c) (c_new_event_start c) (c_new_ib_start c) (c_tracking_first_tile_pass_start c) (c_start_node_stack
    c) (c_last_added_node_index c) (c_cur_submit_node_index c) (c_cur_ib_packet_node_index c) (c_cur_ib_level c)
    (c_shared_node_ib_parent_stack c) (c_flatten_chain_nodes c) (c_state_tracker c).
Definition set_cmd_begin_event_node_indices x (c : Creator) : Creator :=
  mkCreator (c_tree c) (c_cmd_begin_packet_node_indices c) x (c_render_marker_index c) (c_node_parent_info c)
    (c_ib_stack c) (c_group_info c) (c_group_info_size c) (c_start_bin_node_index c) (c_draw_table_node_index c)
    (c_num_events c) (c_new_event_start c) (c_new_ib_start c) (c_tracking_first_tile_pass_start c) (c_start_node_stack
    c) (c_last_added_node_index c) (c_cur_submit_node_index c) (c_cur_ib_packet_node_index c) (c_cur_ib_level c)
    (c_shared_node_ib_parent_stack c) (c_flatten_chain_nodes c) (c_state_tracker c).
Definition set_render_marker_index x (c : Creator) : Creator :=
  mkCreator (c_tree c) (c_cmd_begin_packet_node_indices c) (c_cmd_begin_event_node_indices c) x (c_node_parent_info c)
    (c_ib_stack c) (c_group_info c) (c_group_info_size c) (c_start_bin_node_index c) (c_draw_table_node_index c)
    (c_num_events c) (c_new_event_start c) (c_new_ib_start c) (c_tracking_first_tile_pass_start c) (c_start_node_stack
    c) (c_last_added_node_index c) (c_cur_submit_node_index c) (c_cur_ib_packet_node_index c) (c_cur_ib_level c)
    (c_shared_node_ib_parent_stack c) (c_flatten_chain_nodes c) (c_state_tracker c).
Definition set_node_parent_info x (c : Creator) : Creator :=
  mkCreator (c_tree c) (c_cmd_begin_packet_node_indices c) (c_cmd_begin_event_node_indices c) (c_render_marker_index
    c) x (c_ib_stack c) (c_group_info c) (c_group_info_size c) (c_start_bin_node_index c) (c_draw_table_node_index c)
    (c_num_events c) (c_new_event_start c) (c_new_ib_start c) (c_tracking_first_tile_pass_start c) (c_start_node_stack
    c) (c_last_added_node_index c) (c_cur_submit_node_index c) (c_cur_ib_packet_node_index c) (c_cur_ib_level c)
    (c_shared_node_ib_parent_stack c) (c_flatten_chain_nodes c) (c_state_tracker c).
Definition set_ib_stack x (c : Creator) : Creator :=
  mkCreator (c_tree c) (c_cmd_begin_packet_node_indices c) (c_cmd_begin_event_node_indices c) (c_render_marker_index
    c) (c_node_parent_info c) x (c_group_info c) (c_group_info_size c) (c_start_bin_node_index c)
    (c_draw_table_node_index c) (c_num_events c) (c_new_event_start c) (c_new_ib_start c)
    (c_tracking_first_tile_pass_start c) (c_start_node_stack c) (c_last_added_node_index c) (c_cur_submit_node_index
    c) (c_cur_ib_packet_node_index c) (c_cur_ib_level c) (c_shared_node_ib_parent_stack c) (c_flatten_chain_nodes c)
    (c_state_tracker c).
Definition set_group_info x (c : Creator) : Creator :=
  mkCreator (c_tree c) (c_cmd_begin_packet_node_indices c) (c_cmd_begin_event_node_indices c) (c_render_marker_index
    c) (c_node_parent_info c) (c_ib_stack c) x (c_group_info_size c) (c_start_bin_node_index c)
    (c_draw_table_node_index c) (c_num_events c) (c_new_event_start c) (c_new_ib_start c)
    (c_tracking_first_tile_pass_start c) (c_start_node_stack c) (c_last_added_node_index c) (c_cur_submit_node_index
    c) (c_cur_ib_packet_node_index c) (c_cur_ib_level c) (c_shared_node_ib_parent_stack c) (c_flatten_chain_nodes c)
    (c_state_tracker c).
Definition set_group_info_size x (c : Creator) : Creator :=
  mkCreator (c_tree c) (c_cmd_begin_packet_node_indices c) (c_cmd_begin_event_node_indices c) (c_render_marker_index
    c) (c_node_parent_info c) (c_ib_stack c) (c_group_info c) x (c_start_bin_node_index c) (c_draw_table_node_index c)
    (c_num_events c) (c_new_event_start c) (c_new_ib_start c) (c_tracking_first_tile_pass_start c) (c_start_node_stack
    c) (c_last_added_node_index c) (c_cur_submit_node_index c) (c_cur_ib_packet_node_index c) (c_cur_ib_level c)
    (c_shared_node_ib_parent_stack c) (c_flatten_chain_nodes c) (c_state_tracker c).
Definition set_start_bin_node_index x (c : Creator) : Creator :=
  mkCreator (c_tree c) (c_cmd_begin_packet_node_indices c) (c_cmd_begin_event_node_indices c) (c_render_marker_index
    c) (c_node_parent_info c) (c_ib_stack c) (c_group_info c) (c_group_info_size c) x (c_draw_table_node_index c)
    (c_num_events c) (c_new_event_start c) (c_new_ib_start c) (c_tracking_first_tile_pass_start c) (c_start_node_stack
    c) (c_last_added_node_index c) (c_cur_submit_node_index c) (c_cur_ib_packet_node_index c) (c_cur_ib_level c)
    (c_shared_node_ib_parent_stack c) (c_flatten_chain_nodes c) (c_state_tracker c).
Definition set_draw_table_node_index x (c : Creator) : Creator :=
  mkCreator (c_tree c) (c_cmd_begin_packet_node_indices c) (c_cmd_begin_event_node_indices c) (c_render_marker_index
    c) (c_node_parent_info c) (c_ib_stack c) (c_group_info c) (c_group_info_size c) (c_start_bin_node_index c) x
    (c_num_events c) (c_new_event_start c) (c_new_ib_start c) (c_tracking_first_tile_pass_start c) (c_start_node_stack
    c) (c_last_added_node_index c) (c_cur_submit_node_index c) (c_cur_ib_packet_node_index c) (c_cur_ib_level c)
    (c_shared_node_ib_parent_stack c) (c_flatten_chain_nodes c) (c_state_tracker c).
Definition set_num_events x (c : Creator) : Creator :=
  mkCreator (c_tree c) (c_cmd_begin_packet_node_indices c) (c_cmd_begin_event_node_indices c) (c_render_marker_index
    c) (c_node_parent_info c) (c_ib_stack c) (c_group_info c) (c_group_info_size c) (c_start_bin_node_index c)
    (c_draw_table_node_index c) x (c_new_event_start c) (c_new_ib_start c) (c_tracking_first_tile_pass_start c)
    (c_start_node_stack c) (c_last_added_node_index c) (c_cur_submit_node_index c) (c_cur_ib_packet_node_index c)
    (c_cur_ib_level c) (c_shared_node_ib_parent_stack c) (c_flatten_chain_nodes c) (c_state_tracker c).
Definition set_new_event_start x (c : Creator) : Creator :=
  mkCreator (c_tree c) (c_cmd_begin_packet_node_indices c) (c_cmd_begin_event_node_indices c) (c_render_marker_index
    c) (c_node_parent_info c) (c_ib_stack c) (c_group_info c) (c_group_info_size c) (c_start_bin_node_index c)
    (c_draw_table_node_index c) (c_num_events c) x (c_new_ib_start c) (c_tracking_first_tile_pass_start c)
    (c_start_node_stack c) (c_last_added_node_index c) (c_cur_submit_node_index c) (c_cur_ib_packet_node_index c)
    (c_cur_ib_level c) (c_shared_node_ib_parent_stack c) (c_flatten_chain_nodes c) (c_state_tracker c).
Definition set_new_ib_start x (c : Creator) : Creator :=
  mkCreator (c_tree c) (c_cmd_begin_packet_node_indices c) (c_cmd_begin_event_node_indices c) (c_render_marker_index
    c) (c_node_parent_info c) (c_ib_stack c) (c_group_info c) (c_group_info_size c) (c_start_bin_node_index c)
    (c_draw_table_node_index c) (c_num_events c) (c_new_event_start c) x (c_tracking_first_tile_pass_start c)
    (c_start_node_stack c) (c_last_added_node_index c) (c_cur_submit_node_index c) (c_cur_ib_packet_node_index c)
    (c_cur_ib_level c) (c_shared_node_ib_parent_stack c) (c_flatten_chain_nodes c) (c_state_tracker c).
Definition set_tracking_first_tile_pass_start x (c : Creator) : Creator :=
  mkCreator (c_tree c) (c_cmd_begin_packet_node_indices c) (c_cmd_begin_event_node_indices c) (c_render_marker_index
    c) (c_node_parent_info c) (c_ib_stack c) (c_group_info c) (c_group_info_size c) (c_start_bin_node_index c)
    (c_draw_table_node_index c) (c_num_events c) (c_new_event_start c) (c_new_ib_start c) x (c_start_node_stack c)
    (c_last_added_node_index c) (c_cur_submit_node_index c) (c_cur_ib_packet_node_index c) (c_cur_ib_level c)
    (c_shared_node_ib_parent_stack c) (c_flatten_chain_nodes c) (c_state_tracker c).
Definition set_start_node_stack x (c : Creator) : Creator :=
  mkCreator (c_tree c) (c_cmd_begin_packet_node_indices c) (c_cmd_begin_event_node_indices c) (c_render_marker_index
    c) (c_node_parent_info c) (c_ib_stack c) (c_group_info c) (c_group_info_size c) (c_start_bin_node_index c)
    (c_draw_table_node_index c) (c_num_events c) (c_new_event_start c) (c_new_ib_start c)
    (c_tracking_first_tile_pass_start c) x (c_last_added_node_index c) (c_cur_submit_node_index c)
    (c_cur_ib_packet_node_index c) (c_cur_ib_level c) (c_shared_node_ib_parent_stack c) (c_flatten_chain_nodes c)
    (c_state_tracker c).
Definition set_last_added_node_index x (c : Creator) : Creator :=
  mkCreator (c_tree c) (c_cmd_begin_packet_node_indices c) (c_cmd_begin_event_node_indices c) (c_render_marker_index
    c) (c_node_parent_info c) (c_ib_stack c) (c_group_info c) (c_group_info_size c) (c_start_bin_node_index c)
    (c_draw_table_node_index c) (c_num_events c) (c_new_event_start c) (c_new_ib_start c)
    (c_tracking_first_tile_pass_start c) (c_start_node_stack c) x (c_cur_submit_node_index c)
    (c_cur_ib_packet_node_index c) (c_cur_ib_level c) (c_shared_node_ib_parent_stack c) (c_flatten_chain_nodes c)
    (c_state_tracker c).
Definition set_cur_submit_node_index x (c : Creator) : Creator :=
  mkCreator (c_tree c) (c_cmd_begin_packet_node_indices c) (c_cmd_begin_event_node_indices c) (c_render_marker_index
    c) (c_node_parent_info c) (c_ib_stack c) (c_group_info c) (c_group_info_size c) (c_start_bin_node_index c)
    (c_draw_table_node_index c) (c_num_events c) (c_new_event_start c) (c_new_ib_start c)
    (c_tracking_first_tile_pass_start c) (c_start_node_stack c) (c_last_added_node_index c) x
    (c_cur_ib_packet_node_index c) (c_cur_ib_level c) (c_shared_node_ib_parent_stack c) (c_flatten_chain_nodes c)
    (c_state_tracker c).
Definition set_cur_ib_packet_node_index x (c : Creator) : Creator :=
  mkCreator (c_tree c) (c_cmd_begin_packet_node_indices c) (c_cmd_begin_event_node_indices c) (c_render_marker_index
    c) (c_node_parent_info c) (c_ib_stack c) (c_group_info c) (c_group_info_size c) (c_start_bin_node_index c)
    (c_draw_table_node_index c) (c_num_events c) (c_new_event_start c) (c_new_ib_start c)
    (c_tracking_first_tile_pass_start c) (c_start_node_stack c) (c_last_added_node_index c) (c_cur_submit_node_index
    c) x (c_cur_ib_level c) (c_shared_node_ib_parent_stack c) (c_flatten_chain_nodes c) (c_state_tracker c).
Definition set_cur_ib_level x (c : Creator) : Creator :=
  mkCreator (c_tree c) (c_cmd_begin_packet_node_indices c) (c_cmd_begin_event_node_indices c) (c_render_marker_index
    c) (c_node_parent_info c) (c_ib_stack c) (c_group_info c) (c_group_info_size c) (c_start_bin_node_index c)
    (c_draw_table_node_index c) (c_num_events c) (c_new_event_start c) (c_new_ib_start c)
    (c_tracking_first_tile_pass_start c) (c_start_node_stack c) (c_last_added_node_index c) (c_cur_submit_node_index
    c) (c_cur_ib_packet_node_index c) x (c_shared_node_ib_parent_stack c) (c_flatten_chain_nodes c) (c_state_tracker
    c).
Definition set_shared_node_ib_parent_stack x (c : Creator) : Creator :=
  mkCreator (c_tree c) (c_cmd_begin_packet_node_indices c) (c_cmd_begin_event_node_indices c) (c_render_marker_index
    c) (c_node_parent_info c) (c_ib_stack c) (c_group_info c) (c_group_info_size c) (c_start_bin_node_index c)
    (c_draw_table_node_index c) (c_num_events c) (c_new_event_start c) (c_new_ib_start c)
    (c_tracking_first_tile_pass_start c) (c_start_node_stack c) (c_last_added_node_index c) (c_cur_submit_node_index
    c) (c_cur_ib_packet_node_index c) (c_cur_ib_level c) x (c_flatten_chain_nodes c) (c_state_tracker c).
Definition set_flatten_chain_nodes x (c : Creator) : Creator :=
  mkCreator (c_tree c) (c_cmd_begin_packet_node_indices c) (c_cmd_begin_event_node_indices c) (c_render_marker_index
    c) (c_node_parent_info c) (c_ib_stack c) (c_group_info c) (c_group_info_size c) (c_start_bin_node_index c)
    (c_draw_table_node_index c) (c_num_events c) (c_new_event_start c) (c_new_ib_start c)
    (c_tracking_first_tile_pass_start c) (c_start_node_stack c) (c_last_added_node_index c) (c_cur_submit_node_index
    c) (c_cur_ib_packet_node_index c) (c_cur_ib_level c) (c_shared_node_ib_parent_stack c) x (c_state_tracker c).
Definition set_state_tracker x (c : Creator) : Creator :=
  mkCreator (c_tree c) (c_cmd_begin_packet_node_indices c) (c_cmd_begin_event_node_indices c) (c_render_marker_index
    c) (c_node_parent_info c) (c_ib_stack c) (c_group_info c) (c_group_info_size c) (c_start_bin_node_index c)
    (c_draw_table_node_index c) (c_num_events c) (c_new_event_start c) (c_new_ib_start c)
    (c_tracking_first_tile_pass_start c) (c_start_node_stack c) (c_last_added_node_index c) (c_cur_submit_node_index
    c) (c_cur_ib_packet_node_index c) (c_cur_ib_level c) (c_shared_node_ib_parent_stack c) (c_flatten_chain_nodes c)
    x.


Definition kInvalidRenderMarkerIndex : Z := UINT64_MAX.

(** The initializers of the members. *)
Definition new_Creator (h : CommandHierarchy) : Creator :=
  mkCreator (new_NodeTree h) [] [] kInvalidRenderMarkerIndex ∅ [] (replicate kMaxPendingIbs (0, 0)) 0 UINT64_MAX UINT64_MAX
    0 true true false (mkPerTopology [] []) 0 0 0 0 (replicate kTotalIbLevels 0) false new_EmulateStateTracker.

(** ** Steps of the creator *)

(** Operations on the nodes. *)
Definition on_nodes {A} (m : Steps NodeTree A) : Steps Creator A := fun c =>
  '(a, t) ← m (c_tree c); Done (a, set_tree t c).

Definition on_hierarchy (f : CommandHierarchy -> CommandHierarchy) : Steps Creator () :=
  modify (fun c => set_tree (set_tree_hierarchy (f (c_command_hierarchy (c_tree c))) (c_tree c)) c).

(** [back] and [pop_back]. *)
Definition back {A} (stack : list A) : outcome A := match stack with a :: _ => Done a | [] => OutOfBounds end.
Definition pop_back {A} (stack : list A) : outcome (list A) :=
  match stack with _ :: stack => Done stack | [] => OutOfBounds end.

Definition push_start (type : TopologyType) (node_index : Z) : Steps Creator () :=
  modify (fun c =>
    let starts := c_start_node_stack c in set_start_node_stack (set_type type (node_index :: of_type type starts) starts) c).

Definition pop_start (type : TopologyType) : Steps Creator () :=
  c ← get;
  starts ← checked (pop_back (of_type type (c_start_node_stack c)));
  modify (set_start_node_stack (set_type type starts (c_start_node_stack c))).

(** The root and the range of the shared children of a node, from the back of the
    stack. *)
Definition set_range (type : TopologyType) (node_index last : Z) : Steps Creator () :=
  c ← get;
  first ← checked (back (of_type type (c_start_node_stack c)));
  on_nodes (SetStartSharedChildrenNodeIndex type node_index first) ;;
  on_nodes (SetEndSharedChildrenNodeIndex type node_index last) ;;
  on_nodes (SetSharedChildRootNodeIndex type node_index (c_cur_submit_node_index c)).

(** [m_shared_node_ib_parent_stack[m_cur_ib_level] = ...]. *)
Definition set_shared_parent (node_index : Z) : Steps Creator () :=
  c ← get;
  parents ← checked (vec_set (c_cur_ib_level c) node_index (c_shared_node_ib_parent_stack c));
  modify (set_shared_node_ib_parent_stack parents).

Definition add_child (type : TopologyType) (node_index child_node_index : Z) : Steps Creator () :=
  on_nodes (Creator_AddChild type node_index child_node_index).

(** ** IBs *)

Definition ib_address (name : string) (ib_info : IndirectBufferInfo) : string :=
  name +:+ ", Address: 0x" +:+ hex (info_va_addr ib_info) +:+ ", Size (DWORDS): " +:+ pretty (info_size_in_dwords ib_info).

Definition ib_string (ib_index : Z) (ib_info : IndirectBufferInfo) (type : IbType) : string :=
  ib_address
    match type with
    | kNormal => "IB: " +:+ pretty ib_index
    | kCall => "Call IB"
    | kChain => "Chain IB"
    | kContextSwitchIb => "ContextSwitch IB"
    | kBinPrefix => "Bin Prefix IB"
    | kBinCommon => "Bin Common IB"
    | kFixedStrideDrawTable => "Fixed Stride Draw Table IB"
    | kDrawState => "DrawState IB"
    end ib_info +:+ (if info_skip ib_info then ", NOT CAPTURED" else "").

(** The search for the group of an address. *)
Definition find_group (addr : Z) (c : Creator) : Z :=
  match list_find (fun g => g.2 = addr) (take (Z.to_nat (c_group_info_size c)) (c_group_info c)) with
  | Some (_, g) => g.1
  | None => UINT64_MAX
  end.

(** A field node of a packet, which gets the packets of an IB. *)
Definition add_ib_field (parent : Z) (desc : string) : Steps Creator () :=
  node_index ← on_nodes (Creator_AddNode kFieldNode desc (RegFieldNode false));
  add_child kSubmitTopology parent node_index ;;
  add_child kAllEventTopology parent node_index ;;
  set_shared_parent node_index.

(** The nearest IB that is no chain, if there is one. *)
Fixpoint nearest_non_chain (ibs : list Z) (h : CommandHierarchy) : outcome (option Z) :=
  match ibs with
  | [] => Done None
  | index :: ibs =>
      cur_type ← GetIbNodeType index h;
      if negb (cur_type =? IbType_to_Z kChain) then Done (Some index) else nearest_non_chain ibs h
  end.

Definition ib_parent (type : IbType) (c : Creator) : outcome Z :=
  let parent := default (c_cur_submit_node_index c) (head (c_ib_stack c)) in
  if c_flatten_chain_nodes c && bool_decide (type = kChain) then
    index ← nearest_non_chain (c_ib_stack c) (c_command_hierarchy (c_tree c)); Done (default parent index)
  else Done parent.

(** The bool is the answer of the callback. *)
Definition Creator_OnIbStart (submit_index ib_index : Z) (ib_info : IndirectBufferInfo) (type : IbType)
  : Steps Creator bool :=
  c ← get;
  '(_, tracker) ← checked (base_OnIbStart submit_index ib_index ib_info type (c_state_tracker c));
  modify (fun c => set_cur_ib_level (info_ib_level ib_info) (set_state_tracker tracker c)) ;;
  (if negb (c_cur_ib_packet_node_index c =? UINT64_MAX) then set_shared_parent (c_cur_ib_packet_node_index c) else mret ()) ;;
  (if bool_decide (type = kDrawState) then set_shared_parent (find_group (info_va_addr ib_info) c) else mret ()) ;;
  let desc := ib_string ib_index ib_info type in
  (if bool_decide (type = kBinPrefix) || bool_decide (type = kBinCommon) then add_ib_field (c_start_bin_node_index c) desc
   else if bool_decide (type = kFixedStrideDrawTable) then add_ib_field (c_draw_table_node_index c) desc
   else mret ()) ;;
  ib_node_index ← on_nodes (Creator_AddNode kIbNode desc
    (IbNode ib_index type (info_size_in_dwords ib_info) (negb (info_skip ib_info))));
  c ← get;
  parent_node_index ← checked (ib_parent type c);
  add_child kSubmitTopology parent_node_index ib_node_index ;;
  modify (fun c => set_ib_stack (ib_node_index :: c_ib_stack c) (set_new_ib_start true
    (set_cmd_begin_packet_node_indices [] (set_cmd_begin_event_node_indices [] c)))) ;;
  mret true.

(** The loop over consecutive chains; it leaves the stacks of IBs and of starts. *)
Fixpoint pop_chains (ibs starts : list Z) (h : CommandHierarchy) : outcome (list Z * list Z) :=
  match ibs with
  | [] => OutOfBounds
  | index :: ibs' =>
      type ← GetIbNodeType index h;
      if type =? IbType_to_Z kChain then starts ← pop_back starts; pop_chains ibs' starts h else Done (ibs, starts)
  end.

Definition Creator_OnIbEnd (submit_index ib_index : Z) (ib_info : IndirectBufferInfo) : Steps Creator bool :=
  c ← get;
  '(_, tracker) ← checked (base_OnIbEnd submit_index ib_index ib_info (c_state_tracker c));
  modify (set_state_tracker tracker) ;;
  (if c_new_ib_start c then modify (set_new_ib_start false)
   else
     index ← checked (back (c_ib_stack c));
     set_range kSubmitTopology index (c_last_added_node_index c) ;;
     pop_start kSubmitTopology) ;;
  c ← get;
  '(ibs, starts) ← checked (pop_chains (c_ib_stack c) (at_submit (c_start_node_stack c)) (c_command_hierarchy (c_tree c)));
  ibs ← checked (pop_back ibs);
  modify (fun c => set_ib_stack ibs (set_start_node_stack (set_type kSubmitTopology starts (c_start_node_stack c))
    (set_cmd_begin_packet_node_indices [] (set_cmd_begin_event_node_indices []
      (set_cur_ib_level (info_ib_level ib_info) c))))) ;;
  mret true.

(** ** Packets *)

Section Packets.
Context `{AdrenoPm4} `{Pm4Info} {M : Type} `{IMemoryManager M}.

(** Operations on the creator and the memory, which caches. *)
Definition Handling (A : Type) : Type := Steps (Creator * M) A.
#[local] Instance Handling_ret : MRet Handling := Steps_ret.
#[local] Instance Handling_bind : MBind Handling := @Steps_bind (Creator * M).

Definition on_creator {A} (m : Steps Creator A) : Handling A := fun s =>
  '(a, c) ← m (fst s); Done (a, (c, snd s)).
Definition parsing {A} (m : Parsing A) : Handling A := fun s =>
  '(a, (t, mem)) ← m (c_tree (fst s), snd s); Done (a, (set_tree t (fst s), mem)).
Definition reads {A} (m : Reads A) : Handling A := fun s =>
  '(a, mem) ← m (snd s); Done (a, (fst s, mem)).
Definition get_creator : Handling Creator := on_creator get.
Definition update_creator (f : Creator -> Creator) : Handling () := on_creator (modify f).

(** The loop over the groups of the packet, whose children are their nodes. *)
Fixpoint cache_groups (n i : nat) (children : list Z) (packet : list byte) (groups : list (Z * Z))
  : outcome (list (Z * Z)) :=
  match n with
  | O => Done groups
  | S n =>
      child ← vec_at children (Z.of_nat i);
      groups ← vec_set (Z.of_nat i) (child, SET_DRAW_STATE_ADDR i packet) groups;
      cache_groups n (S i) children packet groups
  end.

Definition CacheSetDrawStateGroupInfo (submit_index va_addr set_draw_state_node_index header : Z) : Handling () :=
  c ← get_creator;
  children ← on_creator (checked (vec_at (at_submit (c_node_children (c_tree c))) set_draw_state_node_index));
  packet ← reads (retrieve sizeof_SET_DRAW_STATE (packet_bytes header) submit_index va_addr);
  let array_size := type7_count header * 4 / sizeof_ARRAY_ELEMENT in
  groups ← on_creator (checked (cache_groups (Z.to_nat array_size) 0 children packet (c_group_info c)));
  update_creator (fun c => set_group_info_size array_size (set_group_info groups c)).

(** The event's node, with the number of the event; the source keeps the answer of
    [IsEvent]. *)
Definition add_event_node (submit_index va_addr opcode header : Z) : Handling Z :=
  c ← get_creator;
  event_string ← reads (GetEventString submit_index va_addr header (c_state_tracker c));
  let event_id := c_num_events c in
  update_creator (set_num_events (wrap 32 (event_id + 1))) ;;
  type ← reads (GetEventType submit_index va_addr opcode (c_state_tracker c));
  should_ignore_during_correlation ← reads (ShouldIgnoreEventDuringCorrelation submit_index va_addr header);
  node_index ← on_creator (on_nodes (Creator_AddNode kEventNode event_string
    (EventNode event_id type should_ignore_during_correlation)));
  on_creator (on_nodes (AppendEventNodeIndex node_index)) ;;
  mret node_index.

Definition OnEvent (submit_index va_addr opcode header packet_node_index : Z) : Handling () :=
  c ← get_creator;
  let parent_node_index :=
    if negb (c_render_marker_index c =? kInvalidRenderMarkerIndex) then c_render_marker_index c
    else c_cur_submit_node_index c in
  event_node_index ← add_event_node submit_index va_addr opcode header;
  update_creator (fun c =>
    set_cmd_begin_event_node_indices (c_cmd_begin_event_node_indices c ++ [event_node_index]) c) ;;
  on_creator (set_range kAllEventTopology event_node_index packet_node_index) ;;
  update_creator (set_new_event_start true) ;;
  on_creator (pop_start kAllEventTopology) ;;
  on_creator (add_child kAllEventTopology parent_node_index event_node_index) ;;
  update_creator (fun c => set_node_parent_info (<[event_node_index := parent_node_index]> (c_node_parent_info c)) c).

(** *** Passes *)

(** The [switch] on the marker: the description of the pass that it begins. *)
Definition pass_desc (marker : Z) : option string :=
  if marker =? RM6_DIRECT_RENDER then Some "Direct Rendering Pass"
  else if marker =? RM6_BIN_VISIBILITY then Some "Binning Visibility Pass"
  else if marker =? RM6_BIN_DIRECT then Some "Binning Direct Pass"
  else if marker =? RM6_BIN_RENDER_START then Some "Tile Rendering Pass"
  else if marker =? RM6_BIN_END_OF_DRAWS then None
  else if marker =? RM6_BIN_RESOLVE then Some "Resolve Pass"
  else if marker =? enumerator "RM6_COMPUTE" then Some "Compute Dispatch"
  else None.

(** The end of the pass in progress, if there is one. *)
Definition end_pass : Steps Creator () :=
  c ← get;
  if negb (c_render_marker_index c =? kInvalidRenderMarkerIndex) then
    pop_start kAllEventTopology ;;
    set_range kAllEventTopology (c_render_marker_index c) (c_last_added_node_index c) ;;
    pop_start kAllEventTopology
  else mret ().

(** The filters that a pass is excluded by. *)
Definition exclude_pass (marker node_index : Z) : Steps Creator () :=
  c ← get;
  (if marker =? RM6_BIN_VISIBILITY then
     modify (set_tracking_first_tile_pass_start true) ;;
     on_hierarchy (AddToFilterExcludeIndexList node_index kFirstTilePassOnly)
   else mret ()) ;;
  c ← get;
  if (marker =? RM6_BIN_RENDER_START) || (marker =? RM6_BIN_RESOLVE) then
    on_hierarchy (AddToFilterExcludeIndexList node_index kBinningPassOnly) ;;
    (if negb (c_tracking_first_tile_pass_start c) then
       on_hierarchy (AddToFilterExcludeIndexList node_index kFirstTilePassOnly) ;;
       on_hierarchy (AddToFilterExcludeIndexList node_index kBinningAndFirstTilePass)
     else mret ()) ;;
    (if c_tracking_first_tile_pass_start c && (marker =? RM6_BIN_RESOLVE) then
       modify (set_tracking_first_tile_pass_start false)
     else mret ())
  else mret ().

Definition start_pass (marker : Z) (desc : string) (packet_node_index : Z) : Steps Creator () :=
  end_pass ;;
  node_index ← on_nodes (Creator_AddNode kRenderMarkerNode desc 0);
  modify (set_render_marker_index node_index) ;;
  exclude_pass marker node_index ;;
  c ← get;
  add_child kAllEventTopology (c_cur_submit_node_index c) node_index ;;
  push_start kAllEventTopology packet_node_index ;;
  modify (set_new_event_start true).

Definition OnSetMarker (submit_index va_addr packet_node_index : Z) : Handling () :=
  packet ← reads (retrieve sizeof_SET_MARKER sizeof_SET_MARKER submit_index va_addr);
  let marker := Z.land (SET_MARKER_u32All0 packet) 0xf in
  match pass_desc marker with
  | Some desc => on_creator (start_pass marker desc packet_node_index)
  | None => mret ()
  end.

(** *** Packets *)

(** What follows a packet that is no event, by its opcode. *)
Definition after_packet_node (submit_index va_addr opcode packet_node_index : Z) : Handling () :=
  if (opcode =? CP_INDIRECT_BUFFER_PFE) || (opcode =? CP_INDIRECT_BUFFER_PFD) || (opcode =? CP_INDIRECT_BUFFER_CHAIN)
     || (opcode =? CP_SET_AMBLE) then
    update_creator (set_cur_ib_packet_node_index packet_node_index)
  else if is_load_state opcode then
    c ← get_creator;
    parsing (AppendLoadStateExtBufferNode submit_index va_addr packet_node_index (c_state_tracker c))
  else if opcode =? CP_MEM_TO_REG then parsing (AppendMemRegNodes submit_index va_addr packet_node_index)
  else if opcode =? CP_START_BIN then update_creator (set_start_bin_node_index packet_node_index)
  else if opcode =? CP_END_BIN then update_creator (set_start_bin_node_index UINT64_MAX)
  else if opcode =? CP_FIXED_STRIDE_DRAW_TABLE then update_creator (set_draw_table_node_index packet_node_index)
  else if opcode =? CP_SET_MARKER then OnSetMarker submit_index va_addr packet_node_index
  else mret ().

(** The packet's node begins the event and the IB that have none yet. *)
Definition start_ranges (packet_node_index : Z) : Steps Creator () :=
  c ← get;
  (if c_new_event_start c then modify (set_new_event_start false) ;; push_start kAllEventTopology packet_node_index
   else mret ()) ;;
  (if c_new_ib_start c then modify (set_new_ib_start false) ;; push_start kSubmitTopology packet_node_index
   else mret ()).

Definition add_shared_child (type : TopologyType) (node_index child_node_index : Z) : Steps Creator () :=
  on_nodes (AddSharedChild type node_index child_node_index).

Definition link_packet (packet_node_index : Z) : Steps Creator () :=
  c ← get;
  parent_index ← checked (vec_at (c_shared_node_ib_parent_stack c) (c_cur_ib_level c));
  add_shared_child kSubmitTopology parent_index packet_node_index ;;
  add_shared_child kAllEventTopology parent_index packet_node_index.

Definition Creator_OnPacket (submit_index ib_index va_addr header : Z) : Handling bool :=
  c ← get_creator;
  '(ok, tracker) ← reads (fun mem =>
    '(ok, tracker, mem) ← base_OnPacket submit_index ib_index va_addr header (c_state_tracker c) mem;
    Done (ok, tracker, mem));
  update_creator (set_state_tracker tracker) ;;
  if negb ok then mret false
  else if negb (header_type header =? 4) && negb (header_type header =? 7) then mret true
  else
    packet_node_index ← parsing (AddPacketNode submit_index va_addr header (c_cur_ib_level c));
    on_creator (start_ranges packet_node_index) ;;
    on_creator (link_packet packet_node_index) ;;
    let opcode := if header_type header =? 7 then type7_opcode header else kUInt32Max in
    update_creator (fun c =>
      set_cmd_begin_packet_node_indices (c_cmd_begin_packet_node_indices c ++ [packet_node_index]) c) ;;
    (if opcode =? CP_SET_DRAW_STATE then CacheSetDrawStateGroupInfo submit_index va_addr packet_node_index header
     else mret ()) ;;
    c ← get_creator;
    is_event ← reads (IsEvent submit_index va_addr opcode (c_state_tracker c));
    (if (is_event : bool) then OnEvent submit_index va_addr opcode header packet_node_index
     else after_packet_node submit_index va_addr opcode packet_node_index) ;;
    c ← get_creator;
    (if negb (c_render_marker_index c =? kInvalidRenderMarkerIndex) then
       on_creator (add_shared_child kAllEventTopology (c_render_marker_index c) packet_node_index)
     else mret ()) ;;
    update_creator (set_last_added_node_index packet_node_index) ;;
    mret true.

(** ** Submits *)

(** The strings; [OutOfBounds] for an enumerator that has no name. *)
Definition engine_and_queue (engine_type : EngineType) (queue_type : QueueType) : outcome string :=
  engine ← vec_at kEngineTypeStrings engine_type;
  queue ← vec_at kQueueTypeStrings queue_type;
  Done (", Engine: " +:+ engine +:+ ", Queue: " +:+ queue).

Definition submit_string (submit_index : Z) (submit_info : SubmitInfo) : outcome string :=
  names ← engine_and_queue (m_engine_type submit_info) (m_queue_type submit_info);
  Done ("Submit: " +:+ pretty submit_index +:+ ", Num IBs: " +:+ pretty (wrap 32 (vec_size (m_ibs submit_info)))
        +:+ names +:+ ", Engine Index: " +:+ pretty (m_engine_index submit_info)
        +:+ ", Dummy Submit: " +:+ pretty (Z.b2z (m_is_dummy_submit submit_info))).

Definition Creator_OnSubmitStart (submit_index : Z) (submit_info : SubmitInfo) : Steps Creator () :=
  desc ← checked (submit_string submit_index submit_info);
  submit_node_index ← on_nodes (Creator_AddNode kSubmitNode desc (SubmitNode (m_engine_type submit_info) submit_index));
  add_child kSubmitTopology kRootNodeIndex submit_node_index ;;
  add_child kAllEventTopology kRootNodeIndex submit_node_index ;;
  on_nodes (SetSharedChildRootNodeIndex kSubmitTopology submit_node_index submit_node_index) ;;
  on_nodes (SetSharedChildRootNodeIndex kAllEventTopology submit_node_index submit_node_index) ;;
  modify (fun c => set_cur_ib_level 1 (set_cur_submit_node_index submit_node_index c)) ;;
  set_shared_parent submit_node_index ;;
  modify (fun c =>
    set_cur_ib_packet_node_index UINT64_MAX (set_ib_stack [] (set_start_node_stack (mkPerTopology [] [])
      (set_render_marker_index kInvalidRenderMarkerIndex (set_state_tracker (Tracker_Reset (c_state_tracker c))
        (set_new_event_start true (set_new_ib_start true (set_tracking_first_tile_pass_start false c)))))))).

(** [std::sort] is not stable: of elements with equal keys, any order. *)
Class StdSort := {
  std_sort {A} (key : A -> Z) (v : list A) : list A;
  std_sort_perm {A} (key : A -> Z) (v : list A) : std_sort key v ≡ₚ v;
  std_sort_sorted {A} (key : A -> Z) (v : list A) : StronglySorted (fun a b => key a <= key b) (std_sort key v)
}.

(** Nodes with their IB indices, which are what they are ordered by. *)
Fixpoint with_ib_index (nodes : list Z) (h : CommandHierarchy) : outcome (list (Z * Z)) :=
  match nodes with
  | [] => Done []
  | node :: nodes => index ← GetIbNodeIndex node h; rest ← with_ib_index nodes h; Done ((node, index) :: rest)
  end.

Definition sort_submit_children `{StdSort} : Steps Creator () :=
  c ← get;
  let t := c_tree c in
  let children := at_submit (c_node_children t) in
  nodes ← checked (submit_children ← vec_at children (c_cur_submit_node_index c);
                   with_ib_index submit_children (c_command_hierarchy t));
  children ← checked (vec_set (c_cur_submit_node_index c) (std_sort snd nodes).*1 children);
  modify (set_tree (set_tree_children (set_type kSubmitTopology children (c_node_children t)) t)).

(** A name that is missing would be a null pointer. *)
Definition present_string (i : Z) (present_info : PresentInfo) : outcome string :=
  if m_valid_data present_info then
    names ← engine_and_queue (p_engine_type present_info) (p_queue_type present_info);
    match GetVkFormatString (m_vk_format present_info), GetVkColorSpaceKhrString (m_vk_color_space present_info) with
    | Some format_string, Some color_space_string =>
        Done ("Present: " +:+ pretty i +:+ ", FullScreen: " +:+ pretty (Z.b2z (m_full_screen present_info)) +:+ names
              +:+ ", SurfaceAddr: 0x" +:+ hex (m_addr present_info) +:+ ", SurfaceSize: " +:+ pretty (p_size present_info)
              +:+ ", VkFormat: " +:+ format_string +:+ ", VkColorSpaceKHR: " +:+ color_space_string)
    | _, _ => OutOfBounds
    end
  else Done ("Present: " +:+ pretty i).

Definition add_present (submit_index : Z) (i : nat) (present_info : PresentInfo) : Steps Creator () :=
  if negb (submit_index =? p_submit_index present_info) then mret ()
  else
    desc ← checked (present_string (Z.of_nat i) present_info);
    present_node_index ← on_nodes (Creator_AddNode kPresentNode desc 0);
    add_child kAllEventTopology kRootNodeIndex present_node_index.

(** [m_capture_data] is given to the creator. *)
Definition Creator_OnSubmitEnd `{StdSort} (m_capture_data : Pm4CaptureData) (submit_index : Z) (submit_info : SubmitInfo)
  : Steps Creator () :=
  sort_submit_children ;;
  each 0 (m_presents m_capture_data) (add_present submit_index).

(** ** Creating the hierarchy *)

(** As the callbacks of the emulation. What leaves an array at a submit, where the
    emulation goes on, leaves [None], which every later callback fails with. *)
Definition existing {A} (o : option A) : outcome A := match o with Some a => Done a | None => OutOfBounds end.
Definition survived {A} (m : Steps Creator A) (c : option Creator) : option Creator :=
  c ← c; match m c with Done (_, c) => Some c | _ => None end.

Definition creator_callbacks `{StdSort} (m_capture_data : Pm4CaptureData) : EmulateCallbacks (option Creator) M := {|
  OnIbStart submit_index ib_index ib_info type c :=
    c ← existing c; '(ok, c) ← Creator_OnIbStart submit_index ib_index ib_info type c; Done (ok, Some c);
  OnIbEnd submit_index ib_index ib_info c :=
    c ← existing c; '(ok, c) ← Creator_OnIbEnd submit_index ib_index ib_info c; Done (ok, Some c);
  OnPacket submit_index ib_index va_addr header c mem :=
    c ← existing c; '(ok, (c, mem)) ← Creator_OnPacket submit_index ib_index va_addr header (c, mem); Done (ok, Some c, mem);
  OnSubmitStart submit_index submit_info := survived (Creator_OnSubmitStart submit_index submit_info);
  OnSubmitEnd submit_index submit_info := survived (Creator_OnSubmitEnd m_capture_data submit_index submit_info)
|}.

(** What the overloads begin with; the sizes to reserve have no effect. *)
Definition begin_trees (flatten_chain_nodes : bool) : Steps Creator () :=
  on_hierarchy (fun _ => new_CommandHierarchy) ;;
  on_nodes (Creator_AddNode kRootNode "" 0) ;;
  modify (fun c => set_num_events 0 (set_flatten_chain_nodes flatten_chain_nodes c)).

(** With the topologies, which the overload of the correlated hierarchy leaves to its
    caller. *)
Definition CreateTrees_nodes (flatten_chain_nodes createTopologies : bool) : Steps Creator bool :=
  begin_trees flatten_chain_nodes ;; mret true.

Definition CreateTrees_of `{StdSort} (m_capture_data : Pm4CaptureData) (fuel : nat) (submits : list SubmitInfo)
    (flatten_chain_nodes : bool) (c : Creator) (mem : M) : outcome (bool * Creator * M) :=
  '(_, c) ← begin_trees flatten_chain_nodes c;
  '(ok, c, mem) ← @ProcessSubmits _ _ _ _ (creator_callbacks m_capture_data) fuel submits (Some c) mem;
  c ← existing c;
  if negb ok then Done (false, c, mem)
  else '(_, c) ← on_nodes Creator_CreateTopologies c; Done (true, c, mem).

(** The memory of [m_capture_data] is that of the capture. *)
Definition CreateTrees `{StdSort} (m_capture_data : Pm4CaptureData) (fuel : nat) (flatten_chain_nodes : bool) (c : Creator)
    (mem : M) : outcome (bool * Creator * M) :=
  CreateTrees_of m_capture_data fuel (m_submits m_capture_data) flatten_chain_nodes c mem.
End Packets.
