(* ===== verification/CreatorTypes.v ===== *)
(** * CreatorTypes: the hierarchy that is being created is well-formed

    An invariant of the creator of [HierarchyCreator]: the nodes form two forests in
    which each type of node is below the types that it may be below, and every member
    that holds the index of a node holds that of a node of the type its name says. Each
    callback preserves it, whatever it is called with and whenever it is called, unless
    it leaves an array or uses the back of an empty stack. *)

From stdpp Require Import strings gmap sorting.
From Stdlib Require Import Sorted.
From S2P Require Import Prelude Wire Memory Pm4 StateTracker Emulate CaptureData Topology Hierarchy EventInfo DiveStrings NodeTree PacketNodes HierarchyCreator.

#[local] Open Scope Z_scope.

(** ** Trees that advance

    Nodes are added and linked; the events are appended to; a list of children of the
    event topology is appended to, one of the submit topology may also be sorted. *)
Record advanced (t t' : NodeTree) : Prop := {
  adv_ok : tree_ok t';
  adv_types : types_of t `prefix_of` types_of t';
  adv_aux : m_aux_info (tree_nodes t) `prefix_of` m_aux_info (tree_nodes t');
  adv_events : m_event_node_indices (tree_nodes t) `prefix_of` m_event_node_indices (tree_nodes t');
  adv_topology : m_topology (c_command_hierarchy t') = m_topology (c_command_hierarchy t);
  adv_links type c : c ∈ concat (of_type type (c_node_children t')) ->
    c ∈ concat (of_type type (c_node_children t)) \/ tree_size t <= c;
  adv_kept p l : at_all_event (c_node_children t) !! p = Some l ->
    exists l', at_all_event (c_node_children t') !! p = Some (l ++ l')
}.

Lemma grown_advanced t t' : grown t t' -> advanced t t'.
Proof.
  intros G. split; try apply G; [by rewrite (grown_events _ _ G)|]. apply (grown_kept _ _ G kAllEventTopology).
Qed.

Lemma advanced_refl t : tree_ok t -> advanced t t.
Proof. intros H. by apply grown_advanced, grown_refl. Qed.

Lemma advanced_size t t' : advanced t t' -> tree_size t <= tree_size t'.
Proof. intros A. apply prefix_vec_size, A. Qed.

Lemma advanced_trans t1 t2 t3 : advanced t1 t2 -> advanced t2 t3 -> advanced t1 t3.
Proof.
  intros A1 A2. pose proof (advanced_size _ _ A1). destruct A1, A2. split; try done; try congruence; try by etrans.
  - intros type c [Hc|]%adv_links1; [by apply adv_links0|right; lia].
  - intros p l (l1 & Hl1)%adv_kept0. destruct (adv_kept1 p _ Hl1) as [l2 Hl2]. exists (l1 ++ l2). by rewrite app_assoc.
Qed.

(** ** Kinds of nodes *)

Definition is_a (t : NodeTree) (Ks : list NodeType) (i : Z) : Prop := exists K, K ∈ Ks /\ has_type (types_of t) K i.
Definition is_node (t : NodeTree) (i : Z) : Prop := exists K, has_type (types_of t) K i.
Definition or_none (P : Z -> Prop) (i : Z) : Prop := P i \/ i = UINT64_MAX.

(** What the members of the creator refer to. Before the first submit and the first
    packet they refer to the root. *)
Record refers (t : NodeTree) (c : Creator) : Prop := {
  ref_submit : is_a t [kRootNode; kSubmitNode] (c_cur_submit_node_index c);
  ref_last : is_a t [kRootNode; kPacketNode] (c_last_added_node_index c);
  ref_ib_packet : or_none (is_a t [kRootNode; kPacketNode]) (c_cur_ib_packet_node_index c);
  ref_marker : or_none (has_type (types_of t) kRenderMarkerNode) (c_render_marker_index c);
  ref_start_bin : or_none (has_type (types_of t) kPacketNode) (c_start_bin_node_index c);
  ref_draw_table : or_none (has_type (types_of t) kPacketNode) (c_draw_table_node_index c);
  ref_ibs : Forall (has_type (types_of t) kIbNode) (c_ib_stack c);
  ref_starts type : Forall (has_type (types_of t) kPacketNode) (of_type type (c_start_node_stack c));
  ref_parents : Forall (or_none (is_node t)) (c_shared_node_ib_parent_stack c);
  ref_groups : Forall (fun g => is_node t g.1) (c_group_info c);
  ref_cmd_packets : Forall (has_type (types_of t) kPacketNode) (c_cmd_begin_packet_node_indices c);
  ref_cmd_events : Forall (has_type (types_of t) kEventNode) (c_cmd_begin_event_node_indices c)
}.

Definition typed (c : Creator) : Prop := tree_ok (c_tree c) /\ refers (c_tree c) c.

Lemma packet_or_root : kPacketNode ∈ [kRootNode; kPacketNode].
Proof. right. left. Qed.

Lemma is_a_mono t t' Ks i : types_of t `prefix_of` types_of t' -> is_a t Ks i -> is_a t' Ks i.
Proof. intros Hp (K & HK & Ht). exists K. split; [done|]. by eapply has_type_prefix. Qed.

Lemma is_node_mono t t' i : types_of t `prefix_of` types_of t' -> is_node t i -> is_node t' i.
Proof. intros Hp (K & Ht). exists K. by eapply has_type_prefix. Qed.

Lemma or_none_mono (P Q : Z -> Prop) i : (P i -> Q i) -> or_none P i -> or_none Q i.
Proof. intros H [?|?]; [left; auto|by right]. Qed.

Lemma refers_mono t t' c : types_of t `prefix_of` types_of t' -> refers t c -> refers t' c.
Proof.
  intros Hp []. pose proof (fun K i => has_type_prefix _ _ K i Hp) as Ht.
  pose proof (fun Ks i => is_a_mono _ _ Ks i Hp) as Ha.
  split; try (by apply Ha); try (eapply or_none_mono; [|done]; first [apply Ha|apply Ht]);
    try (eapply Forall_impl; [done|]; intros ?; apply Ht).
  - intros type. eapply Forall_impl; [apply ref_starts0|]. intros ?. apply Ht.
  - eapply Forall_impl; [done|]. intros i. apply or_none_mono. by apply is_node_mono.
  - eapply Forall_impl; [done|]. intros g. by apply is_node_mono.
Qed.

(** ** What steps leave

    [quiet t0 c0 c]: the creator is typed and has advanced from [t0]; the events and the
    submit are those of [c0]. *)
Record quiet (t0 : NodeTree) (c0 c : Creator) : Prop := {
  q_ok : tree_ok (c_tree c);
  q_refers : refers (c_tree c) c;
  q_advanced : advanced t0 (c_tree c);
  q_events : m_event_node_indices (tree_nodes (c_tree c)) = m_event_node_indices (tree_nodes (c_tree c0));
  q_num : c_num_events c = c_num_events c0;
  q_info : c_node_parent_info c = c_node_parent_info c0;
  q_submit : c_cur_submit_node_index c = c_cur_submit_node_index c0
}.

Arguments q_ok {_ _ _}.
Arguments q_refers {_ _ _}.
Arguments q_advanced {_ _ _}.
Arguments q_events {_ _ _}.
Arguments q_num {_ _ _}.
Arguments q_info {_ _ _}.
Arguments q_submit {_ _ _}.

Lemma quiet_refl c : typed c -> quiet (c_tree c) c c.
Proof. intros [Hok Hr]. split; try done. by apply advanced_refl. Qed.

Lemma quiet_trans t0 c0 c1 c2 : quiet t0 c0 c1 -> quiet (c_tree c1) c1 c2 -> quiet t0 c0 c2.
Proof. intros [] []. split; try done; try congruence. by eapply advanced_trans. Qed.

Lemma quiet_tree t0 c0 c t : quiet t0 c0 c -> advanced (c_tree c) t ->
  m_event_node_indices (tree_nodes t) = m_event_node_indices (tree_nodes (c_tree c)) -> quiet t0 c0 (set_tree t c).
Proof.
  intros [] A E. split; try done.
  - apply A.
  - cbn [c_tree set_tree]. destruct (refers_mono _ t c (adv_types _ _ A) q_refers0). by split.
  - by eapply advanced_trans.
  - cbn [c_tree set_tree]. congruence.
Qed.

(** Members change that still refer to what they may refer to. *)
Lemma quiet_set t0 c0 c (f : Creator -> Creator) : quiet t0 c0 c ->
  c_tree (f c) = c_tree c -> c_num_events (f c) = c_num_events c -> c_node_parent_info (f c) = c_node_parent_info c ->
  c_cur_submit_node_index (f c) = c_cur_submit_node_index c -> refers (c_tree c) (f c) -> quiet t0 c0 (f c).
Proof. intros [] Et En Ei Es Hr. split; rewrite ?Et, ?En, ?Ei, ?Es; done. Qed.

(** The members other than those that are set. *)
Ltac refer H := destruct H; split; cbn; try done; try by constructor.
Ltac quiet_set H := apply quiet_set; [exact H|done|done|done|done|refer (q_refers H)].

(** ** Steps *)

Lemma wp_on_nodes {A} bad (m : Steps NodeTree A) (Q : A -> Creator -> Prop) c :
  wp bad m (fun a t => Q a (set_tree t c)) (c_tree c) -> wp bad (on_nodes m) Q c.
Proof. unfold wp, on_nodes. by destruct (m (c_tree c)) as [[a t]| |]. Qed.

Lemma wp_if {St A} bad (b : bool) (m1 m2 : Steps St A) Q s :
  (b = true -> wp bad m1 Q s) -> (b = false -> wp bad m2 Q s) -> wp bad (if b then m1 else m2) Q s.
Proof. destruct b; auto. Qed.

(** What has no fuel can be given any postcondition of its results. *)
Lemma wp_checked_done {St A} (o : outcome A) (Q : A -> St -> Prop) s :
  o <> OutOfFuel -> (forall a, o = Done a -> Q a s) -> wp True (checked o) Q s.
Proof. intros Ho HQ. apply wp_checked. destruct o; auto. Qed.

Lemma vec_at_in_fuel {A} (v : list A) i : vec_at v i <> OutOfFuel.
Proof. unfold vec_at. by repeat case_match. Qed.
Lemma vec_set_in_fuel {A} i (a : A) v : vec_set i a v <> OutOfFuel.
Proof. unfold vec_set. by case_match. Qed.
Lemma back_in_fuel {A} (v : list A) : back v <> OutOfFuel.
Proof. by destruct v. Qed.
Lemma pop_back_in_fuel {A} (v : list A) : pop_back v <> OutOfFuel.
Proof. by destruct v. Qed.

Lemma vec_at_Forall {A} (P : A -> Prop) (v : list A) i a : Forall P v -> vec_at v i = Done a -> P a.
Proof.
  intros Hv. unfold vec_at. destruct (vec_has v i); [|done]. destruct (v !! Z.to_nat i) as [a'|] eqn:E; [|done].
  intros [= <-]. by eapply Forall_lookup_1 in Hv.
Qed.

Lemma vec_set_Forall {A} (P : A -> Prop) (v v' : list A) i a : Forall P v -> P a -> vec_set i a v = Done v' -> Forall P v'.
Proof. intros Hv Ha. unfold vec_set. destruct (vec_has v i); [|done]. intros [= <-]. by apply Forall_insert. Qed.

Section Steps.
Context (t0 : NodeTree) (c0 : Creator).

(** A node is added. *)
Lemma q_add_node c type desc aux_info (Q : Z -> Creator -> Prop) : quiet t0 c0 c ->
  (forall t, quiet t0 c0 (set_tree t c) -> tree_size t0 <= tree_size (c_tree c) ->
     has_type (types_of t) type (tree_size (c_tree c)) -> unlinked t (tree_size (c_tree c)) ->
     m_aux_info (tree_nodes t) = m_aux_info (tree_nodes (c_tree c)) ++ [aux_info] ->
     Q (tree_size (c_tree c)) (set_tree t c)) ->
  wp True (on_nodes (Creator_AddNode type desc aux_info)) Q c.
Proof.
  intros Hq HQ. apply wp_on_nodes. eapply wp_mono; [by apply Creator_AddNode_spec, (q_ok Hq)|].
  intros n t (-> & Hs & G & Ht & Ha & Hu). apply HQ.
  - apply quiet_tree; [done|by apply grown_advanced|apply G].
  - apply advanced_size, (q_advanced Hq).
  - unfold types_of. rewrite Ht. split; [apply vec_nonneg|]. unfold tree_size, vec_size.
    rewrite Nat2Z.id, lookup_app_r, Nat.sub_diag by lia. done.
  - done.
  - done.
Qed.

(** A node that was added is linked, below one that was there or nowhere. *)
Lemma q_add_child c topology parent child p n (Q : () -> Creator -> Prop) : quiet t0 c0 c ->
  or_none (fun p => has_type (types_of t0) parent p) p -> tree_size t0 <= n ->
  has_type (types_of (c_tree c)) child n -> edge_ok topology parent child = true ->
  n ∉ concat (of_type topology (c_node_children (c_tree c))) ->
  (forall t, quiet t0 c0 (set_tree t c) -> c_command_hierarchy t = c_command_hierarchy (c_tree c) ->
     of_type topology (c_node_children t) = alter (fun l => l ++ [n]) (Z.to_nat p) (of_type topology (c_node_children (c_tree c))) ->
     has_type (types_of t0) parent p ->
     (forall topology', topology' <> topology ->
        of_type topology' (c_node_children t) = of_type topology' (c_node_children (c_tree c))) ->
     Q () (set_tree t c)) ->
  wp True (add_child topology p n) Q c.
Proof.
  intros Hq Hp Hn Ht He Hin HQ. apply wp_on_nodes. pose proof (q_ok Hq) as Hok.
  destruct Hp as [Hp| ->].
  - pose proof (has_type_size _ _ _ Hp) as Hlt.
    pose proof (has_type_prefix _ _ _ _ (adv_types _ _ (q_advanced Hq)) Hp) as Hp'.
    eapply wp_mono; [by apply (Creator_AddChild_spec _ _ _ _ parent child); [..|lia|]|].
    intros [] t (Hok' & Eh & Ec & Hne). apply HQ; [|done|done|done|done].
    assert (tree_nodes t = tree_nodes (c_tree c)) as Et by (unfold tree_nodes; by rewrite Eh).
    split; try apply Hq; cbn [c_tree set_tree]; rewrite ?Et; try apply Hq; [done| |].
    { eapply refers_mono; [|destruct (q_refers Hq); by split]. unfold types_of. by rewrite Et. }
    destruct (q_advanced Hq) as [Aok Aty Aau Aev Ato Al Ak]. split; unfold types_of; rewrite ?Et, ?Eh; try done.
    + intros ty x. destruct (decide (ty = topology)) as [->|Hd]; [|rewrite Hne by done; apply Al].
      rewrite Ec. pose proof (has_type_size _ _ _ Hp'). pose proof (ok_children _ Hok topology) as Hlen.
      rewrite concat_alter_snoc by (unfold vec_size in *; lia).
      intros [->|Hx]%elem_of_cons; [by right|by apply Al].
    + intros q l (l' & Hl')%Ak. destruct (decide (topology = kAllEventTopology)) as [->|Hd].
      * cbn [of_type] in Ec. rewrite Ec. destruct (decide (q = Z.to_nat p)) as [->|Hq'].
        -- rewrite list_lookup_alter_eq, Hl'. exists (l' ++ [n]). cbn. by rewrite app_assoc.
        -- rewrite list_lookup_alter_ne by done. by exists l'.
      * pose proof (Hne kAllEventTopology ltac:(congruence)) as E. cbn [of_type] in E. rewrite E. by exists l'.
  - unfold wp, Creator_AddChild, mbind, Steps_bind, get, checked. cbn [mbind outcome_bind].
    rewrite vec_push_out; [done|]. rewrite (ok_children _ Hok). pose proof (ok_size _ Hok). lia.
Qed.

(** What leaves the children and the nodes. *)
Lemma q_same_tree c (m : Steps NodeTree ()) (Q : () -> Creator -> Prop) : quiet t0 c0 c ->
  wp True m (fun _ t => tree_ok t /\ same_tree (c_tree c) t) (c_tree c) ->
  (forall t, quiet t0 c0 (set_tree t c) -> same_tree (c_tree c) t -> Q () (set_tree t c)) -> wp True (on_nodes m) Q c.
Proof.
  intros Hq Hm HQ. apply wp_on_nodes. eapply wp_mono; [exact Hm|]. intros [] t [Hok Hs]. apply HQ; [|done].
  pose proof (same_tree_grown _ _ Hok Hs) as G. apply quiet_tree; [done|by apply grown_advanced|apply G].
Qed.

Lemma q_add_shared_child c topology p n (Q : () -> Creator -> Prop) : quiet t0 c0 c ->
  has_type (types_of (c_tree c)) kPacketNode n ->
  (forall t, quiet t0 c0 (set_tree t c) -> same_tree (c_tree c) t -> Q () (set_tree t c)) ->
  wp True (add_shared_child topology p n) Q c.
Proof. intros Hq Hn. apply q_same_tree; [done|]. apply AddSharedChild_spec; [apply Hq|done]. Qed.

Lemma is_a_in t Ks i : is_a t Ks i -> node_in (tree_size t) i.
Proof. intros (K & _ & Ht). by eapply has_type_in. Qed.

(** The range of a node, from the back of the stack of starts. *)
Lemma q_set_range c topology n last (Q : () -> Creator -> Prop) : quiet t0 c0 c ->
  node_in (tree_size (c_tree c)) n -> node_in (tree_size (c_tree c)) last ->
  (forall t, quiet t0 c0 (set_tree t c) -> same_tree (c_tree c) t -> Q () (set_tree t c)) ->
  wp True (set_range topology n last) Q c.
Proof.
  intros Hq Hn Hl HQ. unfold set_range. apply wp_bind, wp_get, wp_bind, wp_checked_done; [apply back_in_fuel|].
  intros first Hf.
  assert (node_in (tree_size (c_tree c)) first) as Hfirst.
  { pose proof (ref_starts _ _ (q_refers Hq) topology) as Hs. destruct (of_type topology _) as [|s l]; [done|].
    injection Hf as ->. inversion Hs; subst. by eapply has_type_in. }
  pose proof (is_a_in _ _ _ (ref_submit _ _ (q_refers Hq))) as Hsub.
  assert (forall t, same_tree (c_tree c) t -> tree_size t = tree_size (c_tree c)) as Hsize.
  { intros t [E _]. unfold tree_size, tree_nodes. by rewrite E. }
  assert (forall t1 t2 t3, same_tree t1 t2 -> same_tree t2 t3 -> same_tree t1 t3) as Htrans.
  { intros t1 t2 t3 [] []. split; congruence. }
  apply wp_bind, q_same_tree; [done|apply SetStart_spec; [apply Hq|done|done]|]. intros t1 Hq1 S1.
  apply wp_bind, q_same_tree; [done|apply SetEnd_spec; [apply Hq1|by rewrite Hsize|by rewrite Hsize]|]. intros t2 Hq2 S2.
  cbn [c_tree set_tree] in *.
  assert (same_tree (c_tree c) t2) as S12 by by eapply Htrans.
  apply q_same_tree; [done|apply SetRoot_spec; [apply Hq2|by rewrite Hsize|by rewrite Hsize]|]. intros t3 Hq3 S3.
  cbn [c_tree set_tree] in *. apply HQ; [done|]. by eapply Htrans.
Qed.

Lemma q_set_shared_parent c v (Q : () -> Creator -> Prop) : quiet t0 c0 c -> or_none (is_node (c_tree c)) v ->
  (forall parents, quiet t0 c0 (set_shared_node_ib_parent_stack parents c) -> Q () (set_shared_node_ib_parent_stack parents c)) ->
  wp True (set_shared_parent v) Q c.
Proof.
  intros Hq Hv HQ. unfold set_shared_parent. apply wp_bind, wp_get, wp_bind, wp_checked_done; [apply vec_set_in_fuel|].
  intros parents Hp. apply wp_modify, HQ. quiet_set Hq.
  eapply vec_set_Forall; [|exact Hv|exact Hp]. done.
Qed.

Lemma q_pop_start c topology (Q : () -> Creator -> Prop) : quiet t0 c0 c ->
  (forall starts, quiet t0 c0 (set_start_node_stack starts c) -> Q () (set_start_node_stack starts c)) ->
  wp True (pop_start topology) Q c.
Proof.
  intros Hq HQ. unfold pop_start. apply wp_bind, wp_get, wp_bind, wp_checked_done; [apply pop_back_in_fuel|].
  intros starts Hp. apply wp_modify, HQ. quiet_set Hq. intros ty. destruct (decide (ty = topology)) as [->|Hd];
    rewrite ?of_set_type_eq, ?of_set_type_ne by done; [|apply ref_starts0].
  specialize (ref_starts0 topology). destruct (of_type topology _) as [|s l]; [done|]. injection Hp as ->. by inversion ref_starts0.
Qed.

Lemma q_push_start c topology n (Q : () -> Creator -> Prop) : quiet t0 c0 c -> has_type (types_of (c_tree c)) kPacketNode n ->
  (forall starts, quiet t0 c0 (set_start_node_stack starts c) -> Q () (set_start_node_stack starts c)) ->
  wp True (push_start topology n) Q c.
Proof.
  intros Hq Hn HQ. apply wp_modify, HQ. quiet_set Hq. intros ty. destruct (decide (ty = topology)) as [->|Hd];
    rewrite ?of_set_type_eq, ?of_set_type_ne by done; [|apply ref_starts0]. constructor; [done|apply ref_starts0].
Qed.
End Steps.

(** ** IBs *)

Definition in_submit (c : Creator) : Prop := has_type (types_of (c_tree c)) kSubmitNode (c_cur_submit_node_index c).

Lemma find_group_node c addr : refers (c_tree c) c -> or_none (is_node (c_tree c)) (find_group addr c).
Proof.
  intros H. unfold find_group. destruct (list_find _ _) as [[i g]|] eqn:E; [|by right].
  apply list_find_Some in E as (Hl & _ & _). left. pose proof (ref_groups _ _ H) as Hg.
  apply lookup_take_Some in Hl as [Hl _]. by eapply Forall_lookup_1 in Hg.
Qed.

Lemma is_node_type t K i : has_type (types_of t) K i -> is_node t i.
Proof. by exists K. Qed.

Lemma q_add_ib_field t0 c0 c p desc : quiet t0 c0 c -> or_none (has_type (types_of t0) kPacketNode) p ->
  wp True (add_ib_field p desc) (fun _ c' => quiet t0 c0 c' /\ c_ib_stack c' = c_ib_stack c) c.
Proof.
  intros Hq Hp. unfold add_ib_field. apply wp_bind, (q_add_node t0 c0); [done|]. intros t1 Hq1 Hle Ht Hu _.
  apply wp_bind, (q_add_child t0 c0 _ _ kPacketNode kFieldNode); [done..|by apply Hu|]. intros t2 Hq2 Eh _ _ Hne.
  assert (types_of t2 = types_of t1) as Et by (unfold types_of, tree_nodes; by rewrite Eh).
  cbn [c_tree set_tree] in *.
  apply wp_bind, (q_add_child t0 c0 _ _ kPacketNode kFieldNode); [done|done|done|by cbn; rewrite Et|done| |].
  { cbn [c_tree set_tree of_type]. pose proof (Hne kAllEventTopology ltac:(done)) as E. cbn [of_type] in E. rewrite E.
    apply (Hu kAllEventTopology). }
  intros t3 Hq3 Eh3 _ _ _. cbn [c_tree set_tree] in *.
  apply (q_set_shared_parent t0 c0); [done| |by intros parents Hq4].
  left. exists kFieldNode. cbn [c_tree set_tree]. unfold types_of, tree_nodes in *. by rewrite Eh3, Et.
Qed.

Lemma nearest_non_chain_in ibs h index : nearest_non_chain ibs h = Done (Some index) -> index ∈ ibs.
Proof.
  induction ibs as [|i ibs IH]; cbn; [done|]. destruct (GetIbNodeType i h); [|done|done]. cbn.
  destruct (negb _); [intros [= <-]; left|intros H; right; by apply IH].
Qed.

Lemma aux_field_in_fuel lo n i h : aux_field lo n i h <> OutOfFuel.
Proof. apply bind_in_fuel; [apply vec_at_in_fuel|done]. Qed.

Lemma nearest_non_chain_in_fuel ibs h : nearest_non_chain ibs h <> OutOfFuel.
Proof.
  induction ibs as [|i ibs IH]; cbn [nearest_non_chain]; [done|]. apply bind_in_fuel; [apply aux_field_in_fuel|].
  intros K. by destruct (negb _).
Qed.

(** The parent of an IB is an IB or the submit. *)
Lemma ib_parent_spec t type c p : Forall (has_type (types_of t) kIbNode) (c_ib_stack c) ->
  has_type (types_of t) kSubmitNode (c_cur_submit_node_index c) -> ib_parent type c = Done p ->
  exists K, edge_ok kSubmitTopology K kIbNode = true /\ has_type (types_of t) K p.
Proof.
  intros Hibs Hs. unfold ib_parent.
  assert (exists K, edge_ok kSubmitTopology K kIbNode = true /\
    has_type (types_of t) K (default (c_cur_submit_node_index c) (head (c_ib_stack c)))) as Hd.
  { destruct (c_ib_stack c) as [|i ibs]; cbn; [by exists kSubmitNode|]. inversion Hibs. by exists kIbNode. }
  destruct (_ && _); [|by intros [= <-]].
  destruct (nearest_non_chain _ _) as [[i|]| |] eqn:E; [|by intros [= <-]|done|done].
  intros [= <-]. apply nearest_non_chain_in in E. exists kIbNode. split; [done|].
  rewrite Forall_forall in Hibs. by apply Hibs.
Qed.

Lemma ib_parent_in_fuel type c : ib_parent type c <> OutOfFuel.
Proof.
  unfold ib_parent. destruct (_ && _); [|done]. apply bind_in_fuel; [apply nearest_non_chain_in_fuel|done].
Qed.

Lemma OnIbStart_quiet submit_index ib_index ib_info type c : typed c -> in_submit c ->
  wp True (Creator_OnIbStart submit_index ib_index ib_info type) (fun _ c' => quiet (c_tree c) c c') c.
Proof.
  intros Hc Hs. unfold Creator_OnIbStart. apply wp_bind, wp_get, wp_bind, wp_checked. cbn [base_OnIbStart].
  set (tracker := PushEnableMask _ _).
  assert (quiet (c_tree c) c (set_cur_ib_level (info_ib_level ib_info) (set_state_tracker tracker c))) as Hq1.
  { pose proof (quiet_refl _ Hc) as Hq. apply (quiet_set (c_tree c) c c (fun c => set_cur_ib_level _ (set_state_tracker tracker c)));
      [exact Hq|done|done|done|done|refer (q_refers Hq)]. }
  apply wp_bind, wp_modify, wp_bind. set (c1 := set_cur_ib_level _ _) in *.
  eapply (wp_mono _ _ (fun _ c' => quiet (c_tree c) c c' /\ c_ib_stack c' = c_ib_stack c)).
  { apply wp_if; intros E; [|by apply wp_ret].
    apply (q_set_shared_parent (c_tree c) c); [done| |by intros parents Hq2].
    destruct (ref_ib_packet _ _ (proj2 Hc)) as [(K & _ & Ht)|E']; [left; by eapply is_node_type|].
    rewrite E' in E. by rewrite Z.eqb_refl in E. }
  intros [] c2 [Hq2 Ei2]. apply wp_bind.
  eapply (wp_mono _ _ (fun _ c' => quiet (c_tree c) c c' /\ c_ib_stack c' = c_ib_stack c)).
  { apply wp_if; intros E; [|by apply wp_ret]. apply (q_set_shared_parent (c_tree c) c); [done| |by intros parents Hq3].
    eapply or_none_mono; [|by apply find_group_node, Hc]. apply is_node_mono, (q_advanced Hq2). }
  intros [] c3 [Hq3 Ei3]. apply wp_bind.
  eapply (wp_mono _ _ (fun _ c' => quiet (c_tree c) c c' /\ c_ib_stack c' = c_ib_stack c)).
  { destruct Hc as [Hok Hr]. apply wp_if; intros E; [|apply wp_if; intros E'; [|by apply wp_ret]].
    - eapply wp_mono; [apply q_add_ib_field; [exact Hq3|apply Hr]|]. cbn. intros [] c' [? ?]. split; congruence.
    - eapply wp_mono; [apply q_add_ib_field; [exact Hq3|apply Hr]|]. cbn. intros [] c' [? ?]. split; congruence. }
  intros [] c4 [Hq4 Ei4]. apply wp_bind, (q_add_node (c_tree c) c); [done|]. intros t5 Hq5 Hle Ht Hu _.
  set (n := tree_size (c_tree c4)) in *. apply wp_bind, wp_get, wp_bind, wp_checked_done; [apply ib_parent_in_fuel|].
  intros p Hp.
  destruct (ib_parent_spec (c_tree c) type (set_tree t5 c4) p) as (K & He & HK); [|by cbn; rewrite (q_submit Hq4)|done|].
  { cbn [c_ib_stack set_tree]. rewrite Ei4. apply Hc. }
  apply wp_bind, (q_add_child (c_tree c) c _ _ K kIbNode); [done|by left|lia|exact Ht|done|apply Hu|]. intros t6 Hq6 Eh _ _ _.
  apply wp_bind, wp_modify, wp_ret.
  apply (quiet_set (c_tree c) c _ (fun c => set_ib_stack _ (set_new_ib_start true (set_cmd_begin_packet_node_indices []
    (set_cmd_begin_event_node_indices [] c))))); [exact Hq6|done|done|done|done|refer (q_refers Hq6)].
  constructor; [|done]. cbn in Eh |- *. unfold types_of, tree_nodes in *. by rewrite Eh.
Qed.

Lemma pop_chains_spec (P Q : Z -> Prop) h : forall ibs starts ibs' starts', Forall P ibs -> Forall Q starts ->
  pop_chains ibs starts h = Done (ibs', starts') -> Forall P ibs' /\ Forall Q starts'.
Proof.
  induction ibs as [|i ibs IH]; intros starts ibs' starts' Hi Hs; cbn [pop_chains]; [done|].
  destruct (GetIbNodeType i h) as [type| |]; [|done|done]. cbn [mbind outcome_bind].
  destruct (type =? _); [|by intros [= <- <-]].
  destruct starts as [|s starts]; [done|]. cbn [pop_back mbind outcome_bind]. inversion Hi; inversion Hs; subst. by apply IH.
Qed.

Lemma pop_chains_in_fuel h : forall ibs starts, pop_chains ibs starts h <> OutOfFuel.
Proof.
  induction ibs as [|i ibs IH]; intros starts; cbn [pop_chains]; [done|]. apply bind_in_fuel; [apply aux_field_in_fuel|].
  intros type. destruct (type =? _); [|done]. apply bind_in_fuel; [apply pop_back_in_fuel|apply IH].
Qed.

Lemma OnIbEnd_quiet submit_index ib_index ib_info c : typed c ->
  wp True (Creator_OnIbEnd submit_index ib_index ib_info) (fun _ c' => quiet (c_tree c) c c') c.
Proof.
  intros Hc. unfold Creator_OnIbEnd. pose proof (quiet_refl _ Hc) as Hq. apply wp_bind, wp_get, wp_bind, wp_checked.
  unfold base_OnIbEnd. destruct (PopEnableMask _) as [tracker|]; [|done].
  assert (quiet (c_tree c) c (set_state_tracker tracker c)) as Hq1.
  { apply (quiet_set (c_tree c) c c (set_state_tracker tracker)); [exact Hq|done|done|done|done|refer (q_refers Hq)]. }
  apply wp_bind, wp_modify, wp_bind. set (c1 := set_state_tracker _ _) in *.
  eapply (wp_mono _ _ (fun _ c' => quiet (c_tree c) c c')).
  { apply wp_if; intros E.
    - apply wp_modify. apply (quiet_set (c_tree c) c c1 (set_new_ib_start false)); [exact Hq1|done|done|done|done|refer (q_refers Hq1)].
    - apply wp_bind, wp_checked_done; [apply back_in_fuel|]. intros index Hi.
      apply wp_bind, (q_set_range (c_tree c) c); [done| | |].
      + pose proof (ref_ibs _ _ (q_refers Hq1)) as Hs. cbn [c_ib_stack set_state_tracker c1] in Hs.
        destruct (c_ib_stack c) as [|i l]; [done|]. injection Hi as ->. inversion Hs; subst. by eapply has_type_in.
      + eapply is_a_in. apply (ref_last _ _ (q_refers Hq1)).
      + intros t2 Hq2 _. apply (q_pop_start (c_tree c) c); [done|]. by intros starts Hq3. }
  intros [] c2 Hq2. apply wp_bind, wp_get, wp_bind, wp_checked_done; [apply pop_chains_in_fuel|].
  intros [ibs starts] Hp. apply (pop_chains_spec _ _ _ _ _ _ _ (ref_ibs _ _ (q_refers Hq2))
    (ref_starts _ _ (q_refers Hq2) kSubmitTopology)) in Hp as [Hi Hs].
  apply wp_bind, wp_checked_done; [apply pop_back_in_fuel|]. intros ibs' Hp.
  apply wp_bind, wp_modify, wp_ret.
  apply (quiet_set (c_tree c) c c2 (fun c => set_ib_stack _ (set_start_node_stack (set_type _ _ (c_start_node_stack c))
    (set_cmd_begin_packet_node_indices [] (set_cmd_begin_event_node_indices [] (set_cur_ib_level _ c))))));
    [exact Hq2|done|done|done|done|refer (q_refers Hq2)].
  - destruct ibs as [|i ibs]; [done|]. injection Hp as <-. by inversion Hi.
  - intros []; [done|]. apply (ref_starts0 kAllEventTopology).
Qed.

(** ** Events *)

Definition events_of (t : NodeTree) : list Z := m_event_node_indices (tree_nodes t).

(** The events are numbered in the order they were found in (with 32 bits), and each is
    the child, in the event topology, of what [m_node_parent_info] says. *)
Record events_ok (c : Creator) : Prop := {
  ev_num : c_num_events c = wrap 32 (vec_size (events_of (c_tree c)));
  ev_id k e : events_of (c_tree c) !! k = Some e ->
    exists type ignore, m_aux_info (tree_nodes (c_tree c)) !! Z.to_nat e = Some (EventNode (wrap 32 (Z.of_nat k)) type ignore);
  ev_info e : e ∈ events_of (c_tree c) -> is_Some (c_node_parent_info c !! e);
  ev_parent e p : c_node_parent_info c !! e = Some p ->
    exists l, at_all_event (c_node_children (c_tree c)) !! Z.to_nat p = Some l /\ e ∈ l
}.

Definition creator_ok (c : Creator) : Prop := typed c /\ events_ok c.

(** What a callback leaves. *)
Record moved (c c' : Creator) : Prop := {
  mv_ok : creator_ok c';
  mv_advanced : advanced (c_tree c) (c_tree c');
  mv_submit : c_cur_submit_node_index c' = c_cur_submit_node_index c
}.

Lemma quiet_moved c c' : quiet (c_tree c) c c' -> events_ok c -> moved c c'.
Proof.
  intros [Hok Hr A Ee En Ei Es] [Hn Hi Hin Hp]. split; [split; [done|]|done|done]. unfold events_of in *.
  split; unfold events_of; rewrite ?Ee, ?En, ?Ei; try done.
  - intros k e Hk. destruct (Hi k e Hk) as (type & ignore & Ha). exists type, ignore.
    eapply prefix_lookup_Some; [exact Ha|apply A].
  - intros e p He. destruct (Hp e p He) as (l & Hl & Hel). destruct (adv_kept _ _ A _ _ Hl) as [l' Hl'].
    exists (l ++ l'). split; [done|]. apply elem_of_app. by left.
Qed.

Lemma moved_trans c1 c2 c3 : moved c1 c2 -> moved c2 c3 -> moved c1 c3.
Proof. intros [] []. split; [done|by eapply advanced_trans|congruence]. Qed.

(** A node that was just added becomes an event. *)
Definition with_event (e : Z) (t : NodeTree) : NodeTree :=
  let n := tree_nodes t in
  set_tree_hierarchy
    (set_nodes (mkNodes (m_node_type n) (m_description n) (m_aux_info n) (m_event_node_indices n ++ [e]))
       (c_command_hierarchy t)) t.

Lemma with_event_ok e t : tree_ok t -> has_type (types_of t) kEventNode e -> Forall (fun x => x < e) (events_of t) ->
  tree_ok (with_event e t).
Proof.
  intros [] He Hlt. unfold types_of, events_of, tree_nodes in *. split; try done.
  - cbn. apply Forall_app. split; [done|]. by constructor.
  - cbn. apply StronglySorted_app_2; [|done|by repeat constructor].
    intros x y Hx ->%list_elem_of_singleton. rewrite Forall_forall in Hlt. by apply Hlt.
Qed.

(** ** Reading *)

Section Packets.
Context `{AdrenoPm4} `{Pm4Info} {M : Type} `{IMemoryManager M}.

(** What reads takes no fuel. *)
Lemma reads_bind_in_fuel {A B} (m : M -> outcome (A * M)) (k : A -> M -> outcome (B * M)) :
  in_fuel m -> (forall a, in_fuel (k a)) -> in_fuel (fun mem => '(a, mem) ← m mem; k a mem).
Proof. intros Hm Hk mem. specialize (Hm mem). destruct (m mem) as [[a mem']| |]; [apply Hk|done|by destruct Hm]. Qed.

Lemma given_in_fuel {A} (o : outcome A) : o <> OutOfFuel -> in_fuel (given (M := M) o).
Proof. intros Ho mem. by apply bind_in_fuel. Qed.

Lemma ret_in_fuel {A} (a : A) : in_fuel (fun mem : M => Done (a, mem)).
Proof. done. Qed.

Lemma IsRegSet_current_in_fuel offset tr : IsRegSet_current offset tr <> OutOfFuel.
Proof. unfold IsRegSet_current, at_current_pass, IsRegSet. by repeat case_match. Qed.

Ltac in_fuel_step :=
  first
    [ exact (ret_in_fuel _) | apply in_fuel_retrieve | apply given_in_fuel
    | apply IsRegSet_current_in_fuel | apply GetRegValue_in_fuel
    | apply reads_bind_in_fuel; [|intros ?]
    | match goal with |- in_fuel (if ?b then _ else _) => destruct b end
    | match goal with |- in_fuel (match ?x with _ => _ end) => destruct x end ].

Lemma GetSyncType_in_fuel submit va opcode tr : in_fuel (M := M) (GetSyncType submit va opcode tr).
Proof. unfold GetSyncType. repeat in_fuel_step. Qed.

Lemma IsEvent_in_fuel submit va opcode tr : in_fuel (M := M) (IsEvent submit va opcode tr).
Proof. unfold IsEvent. repeat first [apply GetSyncType_in_fuel|in_fuel_step]. Qed.

Lemma GetEventType_in_fuel submit va opcode tr : in_fuel (M := M) (GetEventType submit va opcode tr).
Proof. unfold GetEventType. repeat first [apply GetSyncType_in_fuel|in_fuel_step]. Qed.

Lemma event_write_string_in_fuel opcode t : event_write_string opcode t <> OutOfFuel.
Proof. unfold event_write_string. by repeat case_match. Qed.

Lemma GetEventString_in_fuel submit va header tr : in_fuel (M := M) (GetEventString submit va header tr).
Proof.
  unfold GetEventString, draw_indirect_multi_string. cbv zeta.
  repeat first [apply GetSyncType_in_fuel|apply event_write_string_in_fuel|in_fuel_step].
Qed.

Lemma ShouldIgnore_in_fuel submit va header : in_fuel (M := M) (ShouldIgnoreEventDuringCorrelation submit va header).
Proof. unfold ShouldIgnoreEventDuringCorrelation. repeat in_fuel_step. Qed.

Lemma set_reg_loop_in_fuel passes offset value : forall tr, set_reg_loop passes offset value tr <> OutOfFuel.
Proof.
  induction passes as [|i passes IH]; intros tr; cbn [set_reg_loop]; [done|]. destruct (negb _); [|apply IH].
  apply bind_in_fuel; [|apply IH]. unfold set_reg_at. by case_match.
Qed.

Lemma reg_bunch_in_fuel submit va count : forall fuel dword tr, (Z.to_nat (count - dword) <= fuel)%nat ->
  in_fuel (M := M) (reg_bunch_loop fuel submit va count dword tr).
Proof.
  induction fuel as [|fuel IH]; intros dword tr Hf mem; cbn [reg_bunch_loop];
    (destruct (Z.ltb_spec dword count); [|done]); [lia|].
  apply bind_in_fuel; [apply bind_in_fuel; [apply in_fuel_retrieve|by intros []]|]. intros [[o v] mem1].
  apply bind_in_fuel; [apply set_reg_loop_in_fuel|]. intros tr1. destruct (is_64_bit o); [|apply IH; lia].
  apply bind_in_fuel; [apply bind_in_fuel; [apply in_fuel_retrieve|by intros []]|]. intros [[o' v'] mem2].
  destruct (o' =? _); [|apply IH; lia]. apply bind_in_fuel; [apply set_reg_loop_in_fuel|]. intros tr2. apply IH. lia.
Qed.

Lemma set_reg_dwords_in_fuel submit va offset : forall n i tr,
  in_fuel (M := M) (set_reg_dwords n i submit va offset tr).
Proof.
  induction n as [|n IH]; intros i tr mem; cbn [set_reg_dwords]; [done|]. destruct (retrieve_dword _ _ _) as [v mem'].
  apply bind_in_fuel; [apply set_reg_loop_in_fuel|]. intros tr'. apply IH.
Qed.

Lemma type4_loop_in_fuel submit va header : forall fuel offset dword tr,
  (Z.to_nat (type4_count header - dword) <= fuel)%nat ->
  in_fuel (M := M) (type4_loop fuel submit va header offset dword tr).
Proof.
  induction fuel as [|fuel IH]; intros offset dword tr Hf mem; cbn [type4_loop];
    (destruct (Z.ltb_spec dword (type4_count header)); [|done]); [lia|].
  apply bind_in_fuel; [apply set_reg_dwords_in_fuel|]. intros [tr' mem']. apply IH. destruct (is_64_bit _); lia.
Qed.

Lemma base_OnPacket_in_fuel submit ix va header tr : in_fuel (fun mem : M =>
  '(ok, tracker, mem) ← base_OnPacket submit ix va header tr mem; Done (ok, tracker, mem)).
Proof.
  intros mem. apply bind_in_fuel; [|by intros [[??]?]]. unfold base_OnPacket, Tracker_OnPacket.
  apply bind_in_fuel.
  { destruct (is_packet _ _); [|done]. apply bind_in_fuel; [apply in_fuel_retrieve|by intros []]. }
  intros [tr1 mem1]. apply bind_in_fuel; [|by intros []].
  destruct (is_packet _ _); [apply reg_bunch_in_fuel; lia|]. destruct (_ =? _); [apply type4_loop_in_fuel; lia|done].
Qed.

(** *** Steps with the memory *)

Lemma wp_on_creator {A} bad (m : Steps Creator A) (Q : A -> Creator * M -> Prop) c mem :
  wp bad m (fun a c' => Q a (c', mem)) c -> wp bad (on_creator m) Q (c, mem).
Proof. unfold wp, on_creator. cbn [fst snd]. by destruct (m c) as [[a c']| |]. Qed.

Lemma wp_get_creator bad (Q : Creator -> Creator * M -> Prop) c mem : Q c (c, mem) -> wp bad get_creator Q (c, mem).
Proof. done. Qed.

Lemma wp_update_creator bad f (Q : () -> Creator * M -> Prop) c mem : Q () (f c, mem) -> wp bad (update_creator f) Q (c, mem).
Proof. done. Qed.

Lemma wp_reads {A} (m : Reads A) (Q : A -> Creator * M -> Prop) c mem : in_fuel m ->
  (forall a mem', Q a (c, mem')) -> wp True (reads m) Q (c, mem).
Proof. intros Hm HQ. specialize (Hm mem). unfold wp, reads. cbn [fst snd]. destruct (m mem) as [[a mem']| |]; [apply HQ|done|by destruct Hm]. Qed.

Lemma wp_parsing {A} bad (m : Parsing A) (Q : A -> Creator * M -> Prop) c mem :
  wp bad m (fun a s => Q a (set_tree (fst s) c, snd s)) (c_tree c, mem) -> wp bad (parsing m) Q (c, mem).
Proof. unfold wp, parsing. cbn [fst snd]. by destruct (m (c_tree c, mem)) as [[a [t mem']]| |]. Qed.

(** *** Events *)

Lemma refers_set_num n t c : refers t c -> refers t (set_num_events n c).
Proof. intros []. by split. Qed.

(** What is left of [OnEvent] when the node is there. *)
Lemma event_links c0 c2 e P p n mem : creator_ok c0 -> quiet (c_tree c0) c2 c2 ->
  has_type (types_of (c_tree c0)) P p -> edge_ok kAllEventTopology P kEventNode = true ->
  tree_size (c_tree c0) <= e -> has_type (types_of (c_tree c2)) kEventNode e ->
  e ∉ concat (at_all_event (c_node_children (c_tree c2))) -> has_type (types_of (c_tree c2)) kPacketNode n ->
  wp True (update_creator (fun c => set_cmd_begin_event_node_indices (c_cmd_begin_event_node_indices c ++ [e]) c) ;;
           on_creator (set_range kAllEventTopology e n) ;;
           update_creator (set_new_event_start true) ;;
           on_creator (pop_start kAllEventTopology) ;;
           on_creator (add_child kAllEventTopology p e) ;;
           update_creator (fun c => set_node_parent_info (<[e := p]> (c_node_parent_info c)) c) : Handling ())
    (fun (_ : ()) (s : Creator * M) => let c := fst s in typed c /\ advanced (c_tree c0) (c_tree c) /\
       c_cur_submit_node_index c = c_cur_submit_node_index c2 /\ tree_nodes (c_tree c) = tree_nodes (c_tree c2) /\
       c_num_events c = c_num_events c2 /\ c_node_parent_info c = <[e := p]> (c_node_parent_info c2) /\
       exists l, at_all_event (c_node_children (c_tree c)) !! Z.to_nat p = Some l /\ e ∈ l)
    (c2, mem).
Proof.
  intros Hc0 Hq2 Hp He Hle Het Hu Hn. apply wp_bind, wp_update_creator.
  set (c3 := set_cmd_begin_event_node_indices _ c2).
  assert (quiet (c_tree c0) c2 c3) as Hq3.
  { apply (quiet_set (c_tree c0) c2 c2 (fun c => set_cmd_begin_event_node_indices (c_cmd_begin_event_node_indices c ++ [e]) c));
      [exact Hq2|done|done|done|done|refer (q_refers Hq2)]. apply Forall_app. split; [done|]. by constructor. }
  apply wp_bind, wp_on_creator, (q_set_range (c_tree c0) c2); [done|exact (has_type_in _ _ _ Het)|exact (has_type_in _ _ _ Hn)|]. intros t4 Hq4 S4.
  apply wp_bind, wp_update_creator.
  assert (quiet (c_tree c0) c2 (set_new_event_start true (set_tree t4 c3))) as Hq5.
  { apply (quiet_set (c_tree c0) c2 _ (set_new_event_start true)); [exact Hq4|done|done|done|done|refer (q_refers Hq4)]. }
  apply wp_bind, wp_on_creator, (q_pop_start (c_tree c0) c2); [done|]. intros starts Hq6.
  set (c6 := set_start_node_stack starts _) in *.
  assert (c_tree c6 = t4) as E6 by done. destruct S4 as [S4h S4c].
  assert (tree_nodes t4 = tree_nodes (c_tree c2)) as Et4 by (unfold tree_nodes; by rewrite S4h).
  apply wp_bind, wp_on_creator, (q_add_child (c_tree c0) c2 _ _ P kEventNode); [done|by left|done| |done| |].
  { rewrite E6. unfold types_of. by rewrite Et4. }
  { rewrite E6. cbn [of_type]. rewrite S4c. done. }
  intros t7 Hq7 Eh7 Ec7 _ _. apply wp_update_creator. cbn [fst].
  set (c7 := set_tree t7 c6) in *. destruct Hq7 as [Hok7 Hr7 A7 Ee7 En7 Ei7 Es7].
  split; [split; [done|]; destruct Hr7; by split|]. split; [done|]. split; [done|].
  split; [unfold tree_nodes in *; cbn; by rewrite Eh7, E6, S4h|]. split; [done|].
  split; [cbn; by rewrite <- Ei7|].
  change (c_tree (set_node_parent_info _ c7)) with t7. cbn [of_type] in Ec7. rewrite Ec7, list_lookup_alter_eq.
  pose proof (has_type_prefix _ _ _ _ (adv_types _ _ (q_advanced Hq6)) Hp) as Hp6. apply has_type_size in Hp6.
  pose proof (ok_children _ (q_ok Hq6) kAllEventTopology) as Hlen. cbn [of_type] in Hlen.
  destruct (lookup_lt_is_Some_2 (at_all_event (c_node_children (c_tree c6))) (Z.to_nat p)) as [l Hl];
    [unfold vec_size in Hlen; lia|].
  rewrite Hl. exists (l ++ [e]). split; [done|]. apply elem_of_app. right. by apply list_elem_of_singleton.
Qed.

Lemma OnEvent_moved submit va opcode header n c mem : creator_ok c -> in_submit c -> has_type (types_of (c_tree c)) kPacketNode n ->
  wp True (OnEvent submit va opcode header n) (fun _ s => moved c (fst s)) (c, mem).
Proof.
  intros [Hc Hev] Hs Hn. unfold OnEvent. apply wp_bind, wp_get_creator. cbv zeta.
  set (p := if negb _ then _ else _).
  assert (exists P, has_type (types_of (c_tree c)) P p /\ edge_ok kAllEventTopology P kEventNode = true) as (P & Hp & He).
  { unfold p. destruct (Z.eqb_spec (c_render_marker_index c) kInvalidRenderMarkerIndex) as [|Hm]; cbn [negb].
    - by exists kSubmitNode.
    - exists kRenderMarkerNode. split; [|done]. by destruct (ref_marker _ _ (proj2 Hc)). }
  apply wp_bind. unfold add_event_node. apply wp_bind, wp_get_creator, wp_bind, wp_reads; [apply GetEventString_in_fuel|].
  intros desc mem1. apply wp_bind, wp_update_creator. set (c1 := set_num_events _ c).
  apply wp_bind, wp_reads; [apply GetEventType_in_fuel|]. intros type mem2.
  apply wp_bind, wp_reads; [apply ShouldIgnore_in_fuel|]. intros ignore mem3.
  assert (quiet (c_tree c) c1 c1) as Hq1.
  { split; try done; [apply Hc|apply refers_set_num, Hc|apply advanced_refl, Hc]. }
  apply wp_bind, wp_on_creator, (q_add_node (c_tree c) c1); [done|]. intros t1 Hq2 _ Ht Hu Ha.
  change (c_tree c1) with (c_tree c) in *. set (e := tree_size (c_tree c)) in *.
  apply wp_bind, wp_on_creator, wp_on_nodes, wp_modify, wp_ret.
  set (c2 := set_tree (with_event e t1) c1). cbv beta.
  lazymatch goal with |- wp ?b ?m ?Q (_, ?me) => change (wp b m Q (c2, me)) end.
  pose proof (q_events Hq2) as Ee. cbn [c_tree set_tree] in Ee. change (c_tree c1) with (c_tree c) in Ee.
  assert (tree_ok (with_event e t1)) as Hok.
  { apply with_event_ok; [apply (q_ok Hq2)|done|]. unfold events_of. rewrite Ee. pose proof (ok_events_nodes _ (proj1 Hc)) as Hev'.
    eapply Forall_impl; [exact Hev'|]. intros x Hx%has_type_size. cbn. unfold e. lia. }
  assert (quiet (c_tree c) c2 c2) as Hq3.
  { destruct (q_advanced Hq2) as [Aok Aty Aau Aev Ato Al Ak]. cbn [c_tree set_tree] in *.
    split; try done; [destruct (q_refers Hq2); by split|].
    split; try done. cbn. etrans; [exact Aev|]. by apply prefix_app_r. }
  eapply wp_mono; [apply (event_links c c2 e P p n); [by split|done|done|done|done|done|apply (Hu kAllEventTopology)|]|].
  { eapply has_type_prefix; [apply (q_advanced Hq3)|done]. }
  intros [] [c' mem'] (Hty & A & Es & Et & En & Ei & l & Hl & Hel). cbn [fst] in *.
  assert (events_of (c_tree c') = events_of (c_tree c) ++ [e]) as Eev.
  { unfold events_of. rewrite Et. cbn. by rewrite Ee. }
  split; [split; [done|]|done|done]. destruct Hev as [Hnum Hid Hinfo Hpar]. split.
  - rewrite En, Eev. cbn [c_num_events c2 set_tree c1 set_num_events]. rewrite Hnum.
    unfold vec_size. rewrite length_app. cbn [length]. rewrite Nat2Z.inj_add. unfold wrap. by rewrite Zplus_mod_idemp_l.
  - intros k x. rewrite Eev. intros [Hk|[Hk1 Hk2]]%lookup_app_Some.
    + destruct (Hid k x Hk) as (ty & ig & Hax). exists ty, ig. eapply prefix_lookup_Some; [exact Hax|apply A].
    + apply list_lookup_singleton_Some in Hk2 as [Hk2 <-]. exists type, ignore.
      assert (Z.of_nat k = vec_size (events_of (c_tree c))) as Ek by (unfold vec_size; lia).
      rewrite Ek, <- Hnum, Et. change (tree_nodes (c_tree c2)) with (tree_nodes (with_event e t1)). cbn. rewrite Ha.
      pose proof (proj2 (ok_nodes _ (proj1 Hc))) as Hlen.
      unfold e, tree_size, vec_size. rewrite Nat2Z.id, <- Hlen, lookup_app_r, Nat.sub_diag by done. done.
  - intros x. rewrite Eev, Ei, elem_of_app, list_elem_of_singleton. intros [Hx| ->].
    + destruct (decide (x = e)) as [->|]; [by rewrite lookup_insert_eq|]. rewrite lookup_insert_ne by done. by apply Hinfo.
    + by rewrite lookup_insert_eq.
  - intros x q. rewrite Ei. destruct (decide (x = e)) as [->|Hne].
    + rewrite lookup_insert_eq. intros [= <-]. by exists l.
    + rewrite lookup_insert_ne by done. intros Hq. destruct (Hpar x q Hq) as (l1 & Hl1 & Hin).
      destruct (adv_kept _ _ A _ _ Hl1) as [l2 Hl2]. exists (l1 ++ l2). split; [done|]. apply elem_of_app. by left.
Qed.

(** *** Passes *)

Lemma q_end_pass t0 c0 c : quiet t0 c0 c -> wp True end_pass (fun _ c' => quiet t0 c0 c') c.
Proof.
  intros Hq. apply wp_bind, wp_get. apply wp_if; intros E; [|by apply wp_ret].
  apply wp_bind, (q_pop_start t0 c0); [done|]. intros starts Hq1.
  assert (has_type (types_of (c_tree c)) kRenderMarkerNode (c_render_marker_index c)) as Hm.
  { destruct (ref_marker _ _ (q_refers Hq)) as [|Em]; [done|]. rewrite Em in E. by rewrite Z.eqb_refl in E. }
  apply wp_bind, (q_set_range t0 c0); [done|exact (has_type_in _ _ _ Hm)|exact (is_a_in _ _ _ (ref_last _ _ (q_refers Hq)))|].
  intros t2 Hq2 _. apply (q_pop_start t0 c0); [done|]. by intros starts' Hq3.
Qed.

(** A filter excludes one more pass. *)
Lemma q_exclude t0 c0 c filter i (Q : () -> Creator -> Prop) : quiet t0 c0 c ->
  has_type (types_of (c_tree c)) kRenderMarkerNode i ->
  (forall t, quiet t0 c0 (set_tree t c) -> tree_nodes t = tree_nodes (c_tree c) -> c_node_children t = c_node_children (c_tree c) ->
     Q () (set_tree t c)) ->
  wp True (on_hierarchy (AddToFilterExcludeIndexList i filter)) Q c.
Proof.
  intros Hq Hi HQ. apply wp_modify, HQ; [|done|done].
  destruct (q_ok Hq) as [Oz On Oc Osh Ost Oe Or Of Oi Oed Osn Osn' Oen Orn Oev Oes Ofi].
  set (t := set_tree_hierarchy _ (c_tree c)).
  assert (tree_ok t) as Hok.
  { split; try done. intros f x. cbn [c_command_hierarchy t set_tree_hierarchy]. intros Hx.
    assert (x = i \/ x ∈ GetFilterExcludeIndices f (c_command_hierarchy (c_tree c))) as [->|Hx']; [|done|by eapply Ofi].
    destruct filter, f; cbn in Hx; set_solver. }
  destruct (q_advanced Hq) as [Aok Aty Aau Aev Ato Al Ak]. apply quiet_tree; [done| |done].
  split; try done; [intros type x; by left|]. intros q l Hl. exists []. by rewrite app_nil_r.
Qed.

Lemma q_exclude_pass t0 c0 c marker i : quiet t0 c0 c -> has_type (types_of (c_tree c)) kRenderMarkerNode i ->
  wp True (exclude_pass marker i) (fun _ c' => quiet t0 c0 c' /\ tree_nodes (c_tree c') = tree_nodes (c_tree c) /\
    c_node_children (c_tree c') = c_node_children (c_tree c) /\ c_render_marker_index c' = c_render_marker_index c) c.
Proof.
  intros Hq Hi. unfold exclude_pass. set (P := fun (_ : ()) c' => _).
  assert (forall c1 b, P () c1 -> quiet t0 c0 (set_tracking_first_tile_pass_start b c1)) as Htrack.
  { intros c1 b (Hq1 & _). apply (quiet_set t0 c0 c1 (set_tracking_first_tile_pass_start b));
      [exact Hq1|done|done|done|done|refer (q_refers Hq1)]. }
  assert (forall c1 filter, P () c1 -> wp True (on_hierarchy (AddToFilterExcludeIndexList i filter)) P c1) as Hex.
  { intros c1 filter (Hq1 & En & Ec & Em). apply (q_exclude t0 c0); [done|unfold types_of; by rewrite En|].
    intros t Hq2 En' Ec'. split; [done|]. cbn [c_tree set_tree c_render_marker_index]. rewrite En', Ec'. done. }
  apply wp_bind, wp_get, wp_bind. eapply (wp_mono _ _ P).
  { apply wp_if; intros _; [|by apply wp_ret]. apply wp_bind, wp_modify. apply Hex. split; [by apply Htrack|done]. }
  intros [] c1 H1'. apply wp_bind, wp_get. apply wp_if; intros _; [|by apply wp_ret].
  apply wp_bind. eapply wp_mono; [by apply Hex|]. intros [] c2 H2'. apply wp_bind. eapply (wp_mono _ _ P).
  { apply wp_if; intros _; [|by apply wp_ret]. apply wp_bind. eapply wp_mono; [by apply Hex|]. intros [] c3 H3'. by apply Hex. }
  intros [] c3 H3'. apply wp_if; intros _; [|by apply wp_ret]. apply wp_modify.
  split; [by apply Htrack|]. by destruct H3'.
Qed.

Lemma quiet_type t0 c0 c K i : quiet t0 c0 c -> has_type (types_of t0) K i -> has_type (types_of (c_tree c)) K i.
Proof. intros Hq. apply has_type_prefix, (q_advanced Hq). Qed.

Lemma start_pass_quiet c marker desc n : typed c -> in_submit c -> has_type (types_of (c_tree c)) kPacketNode n ->
  wp True (start_pass marker desc n) (fun _ c' => quiet (c_tree c) c c') c.
Proof.
  intros Hc Hs Hn. pose proof (quiet_refl _ Hc) as Hq. unfold start_pass.
  apply wp_bind. eapply wp_mono; [by apply (q_end_pass (c_tree c) c)|].
  intros [] c1 Hq1. apply wp_bind, (q_add_node (c_tree c) c); [done|]. intros t2 Hq2 Hle Ht Hu _.
  set (i := tree_size (c_tree c1)) in *. apply wp_bind, wp_modify.
  set (c2 := set_render_marker_index i _).
  assert (quiet (c_tree c) c c2) as Hq2'.
  { apply (quiet_set (c_tree c) c _ (set_render_marker_index i)); [exact Hq2|done|done|done|done|refer (q_refers Hq2)]. }
  apply wp_bind. eapply wp_mono; [by apply (q_exclude_pass (c_tree c) c)|]. intros [] c3 (Hq3 & En3 & Ec3 & _).
  apply wp_bind, wp_get, wp_bind, (q_add_child (c_tree c) c _ _ kSubmitNode kRenderMarkerNode);
    [done|left; by rewrite (q_submit Hq3)|done|unfold types_of; by rewrite En3|done|rewrite Ec3; apply (Hu kAllEventTopology)|].
  intros t4 Hq4 Eh4 _ _ _. apply wp_bind, (q_push_start (c_tree c) c); [done|by apply (quiet_type _ _ _ _ _ Hq4)|].
  intros starts Hq5. apply wp_modify. apply (quiet_set (c_tree c) c _ (set_new_event_start true));
    [exact Hq5|done|done|done|done|refer (q_refers Hq5)].
Qed.

Lemma quiet_weaken t0 c0 c c' : quiet t0 c0 c -> quiet (c_tree c) c c' -> quiet t0 c0 c'.
Proof. apply quiet_trans. Qed.

(** What is quiet from the state it is called in. *)
Definition calm {A} (m : Handling A) (c : Creator) : Prop :=
  forall mem, wp True m (fun _ (s : Creator * M) => quiet (c_tree c) c (fst s)) (c, mem).

Lemma calm_ret {A} (a : A) c : typed c -> calm (mret a) c.
Proof. intros Hc mem. apply wp_ret. by apply quiet_refl. Qed.

Lemma calm_creator {A} (m : Steps Creator A) c : wp True m (fun _ c' => quiet (c_tree c) c c') c -> calm (on_creator m) c.
Proof. intros Hm mem. by apply wp_on_creator. Qed.

Lemma calm_update f c : typed c -> (refers (c_tree c) c -> refers (c_tree c) (f c)) -> c_tree (f c) = c_tree c ->
  c_num_events (f c) = c_num_events c -> c_node_parent_info (f c) = c_node_parent_info c ->
  c_cur_submit_node_index (f c) = c_cur_submit_node_index c -> calm (update_creator f) c.
Proof.
  intros Hc Hr ???? mem. apply wp_update_creator. cbn [fst]. apply quiet_set; try done; [by apply quiet_refl|]. by apply Hr, Hc.
Qed.

Lemma calm_parsing {A} (m : Parsing A) c K p : typed c -> below (c_tree c) K p m -> has_type (types_of (c_tree c)) K p ->
  calm (parsing m) c.
Proof.
  intros Hc Hm Hp mem. apply wp_parsing. eapply wp_mono; [by apply Hm; [apply grown_refl, Hc|]|].
  intros a [t mem'] [G _]. cbn [fst] in *. apply quiet_tree; [by apply quiet_refl|by apply grown_advanced|apply G].
Qed.

Ltac update_creator := apply calm_update; [done|intros [] ; split; cbn; try done|done|done|done|done].

Lemma after_packet_node_calm submit va opcode n c : typed c -> in_submit c -> has_type (types_of (c_tree c)) kPacketNode n ->
  calm (after_packet_node submit va opcode n) c.
Proof.
  intros Hc Hs Hn. unfold after_packet_node.
  destruct (_ || _); [update_creator; left; exists kPacketNode; split; [apply packet_or_root|done]|].
  destruct (is_load_state opcode).
  { intros mem. apply wp_bind, wp_get_creator. apply (calm_parsing _ c kPacketNode n); [done|by apply below_AppendLoadState|done]. }
  destruct (_ =? _); [apply (calm_parsing _ c kPacketNode n); [done|by apply below_AppendMemRegNodes|done]|].
  destruct (_ =? _); [update_creator; by left|]. destruct (_ =? _); [update_creator; by right|].
  destruct (_ =? _); [update_creator; by left|].
  destruct (_ =? _); [|by apply calm_ret]. intros mem. unfold OnSetMarker. apply wp_bind, wp_reads; [apply in_fuel_retrieve|].
  intros packet mem'. destruct (pass_desc _); [|by apply calm_ret]. apply calm_creator. by apply start_pass_quiet.
Qed.

(** *** Packets *)

Lemma cache_groups_spec (P : Z -> Prop) packet children : Forall P children ->
  forall n i groups groups', Forall (fun g => P g.1) groups -> cache_groups n i children packet groups = Done groups' ->
  Forall (fun g => P g.1) groups'.
Proof.
  intros Hc. induction n as [|n IH]; intros i groups groups' Hg; cbn [cache_groups]; [by intros [= <-]|].
  destruct (vec_at children _) as [child| |] eqn:Ec; [|done|done]. cbn [mbind outcome_bind].
  destruct (vec_set _ _ groups) as [groups1| |] eqn:Eg; [|done|done]. cbn [mbind outcome_bind]. apply IH.
  eapply vec_set_Forall; [exact Hg| |exact Eg]. cbn. by eapply vec_at_Forall in Ec.
Qed.

Lemma cache_groups_in_fuel packet children : forall n i groups, cache_groups n i children packet groups <> OutOfFuel.
Proof.
  induction n as [|n IH]; intros i groups; cbn [cache_groups]; [done|]. apply bind_in_fuel; [apply vec_at_in_fuel|].
  intros child. apply bind_in_fuel; [apply vec_set_in_fuel|]. intros groups'. apply IH.
Qed.

Lemma children_are_nodes t type p l : tree_ok t -> of_type type (c_node_children t) !! p = Some l -> Forall (is_node t) l.
Proof.
  intros Hok Hl. apply Forall_lookup. intros k x Hx. destruct (ok_edges _ Hok type p k x) as (P & K & _ & Ht & _).
  { unfold child_at. by rewrite Hl. }
  by exists K.
Qed.

Lemma Cache_calm submit va n header c : typed c -> calm (CacheSetDrawStateGroupInfo submit va n header) c.
Proof.
  intros Hc mem. unfold CacheSetDrawStateGroupInfo. apply wp_bind, wp_get_creator, wp_bind, wp_on_creator, wp_checked_done;
    [apply vec_at_in_fuel|]. intros children Hch. apply wp_bind, wp_reads; [apply in_fuel_retrieve|]. intros packet mem1.
  apply wp_bind, wp_on_creator, wp_checked_done; [apply cache_groups_in_fuel|]. intros groups Hg.
  apply (calm_update (fun c => set_group_info_size _ (set_group_info groups c))); [done|intros []; split; cbn; try done|done..].
  eapply cache_groups_spec; [|exact ref_groups0|exact Hg].
  unfold vec_at in Hch. destruct (vec_has _ _); [|done]. destruct (_ !! _) as [l|] eqn:E; [|done]. injection Hch as ->.
  eapply (children_are_nodes _ kSubmitTopology); [apply Hc|exact E].
Qed.

Lemma start_ranges_quiet n c : typed c -> has_type (types_of (c_tree c)) kPacketNode n ->
  wp True (start_ranges n) (fun _ c' => quiet (c_tree c) c c') c.
Proof.
  intros Hc Hn. pose proof (quiet_refl _ Hc) as Hq. unfold start_ranges. apply wp_bind, wp_get, wp_bind.
  assert (forall topology (f : Creator -> Creator) c1, quiet (c_tree c) c c1 -> quiet (c_tree c) c (f c1) ->
    wp True (modify f ;; push_start topology n) (fun _ c' => quiet (c_tree c) c c') c1) as Hp.
  { intros topology f c1 Hq1 Hf. apply wp_bind, wp_modify, (q_push_start (c_tree c) c); [done| |by intros starts Hq2].
    by eapply quiet_type. }
  eapply (wp_mono _ _ (fun _ c' => quiet (c_tree c) c c')).
  { apply wp_if; intros _; [|by apply wp_ret]. apply Hp; [done|].
    apply (quiet_set (c_tree c) c c (set_new_event_start false)); [exact Hq|done|done|done|done|refer (q_refers Hq)]. }
  intros [] c1 Hq1. apply wp_if; intros _; [|by apply wp_ret]. apply Hp; [done|].
  apply (quiet_set (c_tree c) c c1 (set_new_ib_start false)); [exact Hq1|done|done|done|done|refer (q_refers Hq1)].
Qed.

Lemma link_packet_quiet n c : typed c -> has_type (types_of (c_tree c)) kPacketNode n ->
  wp True (link_packet n) (fun _ c' => quiet (c_tree c) c c') c.
Proof.
  intros Hc Hn. pose proof (quiet_refl _ Hc) as Hq. unfold link_packet. apply wp_bind, wp_get, wp_bind, wp_checked_done;
    [apply vec_at_in_fuel|]. intros p _.
  apply wp_bind, (q_add_shared_child (c_tree c) c); [done|done|]. intros t1 Hq1 _.
  apply (q_add_shared_child (c_tree c) c); [done|by eapply quiet_type|]. by intros t2 Hq2 _.
Qed.

Lemma quiet_typed t0 c0 c : quiet t0 c0 c -> typed c.
Proof. intros Hq. split; apply Hq. Qed.

Lemma in_submit_quiet c c' : in_submit c -> quiet (c_tree c) c c' -> in_submit c'.
Proof. intros Hs Hq. unfold in_submit. rewrite (q_submit Hq). by eapply quiet_type. Qed.

(** Calm operations one after the other. *)
Lemma calm_bind {A} (m : Handling A) c1 c mem (Q : A -> Creator * M -> Prop) : quiet (c_tree c) c c1 -> calm m c1 ->
  (forall a c2 mem', quiet (c_tree c) c c2 -> quiet (c_tree c1) c1 c2 -> Q a (c2, mem')) -> wp True m Q (c1, mem).
Proof.
  intros Hq Hm HQ. eapply wp_mono; [apply Hm|]. intros a [c2 mem'] Hq2. cbn [fst] in *. apply HQ; [by eapply quiet_trans|done].
Qed.

Lemma calm_if {A} (b : bool) (m1 m2 : Handling A) c : (b = true -> calm m1 c) -> (b = false -> calm m2 c) ->
  calm (if b then m1 else m2) c.
Proof. destruct b; auto. Qed.

Lemma moved_quiet c c1 c2 : quiet (c_tree c) c c1 -> events_ok c -> moved c1 c2 -> moved c c2.
Proof. intros Hq He. by apply moved_trans, quiet_moved. Qed.

Lemma OnPacket_moved submit ix va header c mem : creator_ok c -> in_submit c ->
  wp True (Creator_OnPacket submit ix va header) (fun _ s => moved c (fst s)) (c, mem).
Proof.
  intros [Hc Hev] Hs. unfold Creator_OnPacket. apply wp_bind, wp_get_creator, wp_bind, wp_reads; [apply base_OnPacket_in_fuel|].
  intros [ok tracker] mem1. apply wp_bind, (calm_bind _ c c); [by apply quiet_refl|update_creator|]. intros [] c1 mem2 Hq1 _.
  apply wp_if; intros _; [by apply wp_ret, quiet_moved|].
  apply wp_if; intros Et; [by apply wp_ret, quiet_moved|].
  assert (header_type header = 7 \/ header_type header = 4) as Hh.
  { apply andb_false_iff in Et as [E|E]; apply negb_false_iff, Z.eqb_eq in E; auto. }
  apply wp_bind, wp_parsing. eapply wp_mono; [apply AddPacketNode_spec, (q_ok Hq1)|].
  intros n [t2 mem3] [G Hn]. cbn [fst snd] in *. specialize (Hn Hh) as (_ & Hn & _).
  assert (quiet (c_tree c) c (set_tree t2 c1)) as Hq2.
  { apply quiet_tree; [done|by apply grown_advanced|apply G]. }
  apply wp_bind, (calm_bind _ _ c); [done|apply calm_creator, start_ranges_quiet; [by eapply quiet_typed|done]|].
  intros [] c3 mem4 Hq3 Hq23. pose proof (quiet_type _ _ _ _ _ Hq23 Hn) as Hn3.
  apply wp_bind, (calm_bind _ _ c); [done|apply calm_creator, link_packet_quiet; [by eapply quiet_typed|done]|].
  intros [] c4 mem5 Hq4 Hq34. pose proof (quiet_type _ _ _ _ _ Hq34 Hn3) as Hn4. cbv zeta.
  set (opcode := if header_type header =? 7 then _ else _).
  apply wp_bind, (calm_bind _ _ c); [done| |].
  { pose proof (quiet_typed _ _ _ Hq4). update_creator. apply Forall_app. split; [done|]. by constructor. }
  intros [] c5 mem6 Hq5 Hq45. pose proof (quiet_type _ _ _ _ _ Hq45 Hn4) as Hn5.
  apply wp_bind, (calm_bind _ _ c); [done| |].
  { apply calm_if; intros _; [apply Cache_calm|apply calm_ret]; by eapply quiet_typed. }
  intros [] c6 mem7 Hq6 Hq56. pose proof (quiet_type _ _ _ _ _ Hq56 Hn5) as Hn6.
  pose proof (quiet_typed _ _ _ Hq6) as Hc6. pose proof (in_submit_quiet _ _ Hs Hq6) as Hs6.
  destruct (quiet_moved _ _ Hq6 Hev) as [[_ Hev6] _ _].
  apply wp_bind, wp_get_creator, wp_bind, wp_reads; [apply IsEvent_in_fuel|]. intros is_event mem8. apply wp_bind.
  eapply (wp_mono _ _ (fun _ s => moved c (fst s) /\ has_type (types_of (c_tree (fst s))) kPacketNode n)).
  { eapply (wp_mono _ _ (fun _ s => moved c6 (fst s))).
    - apply wp_if; intros _; [by apply OnEvent_moved|].
      eapply wp_mono; [by apply after_packet_node_calm|]. intros a s Hq7. by apply quiet_moved.
    - intros [] s Hm. split; [by eapply moved_quiet|]. eapply has_type_prefix; [|exact Hn6]. apply (mv_advanced _ _ Hm). }
  intros [] [c7 mem9] [Hm7 Hn7]. cbn [fst] in *. apply wp_bind, wp_get_creator, wp_bind.
  destruct (mv_ok _ _ Hm7) as [Hc7 Hev7].
  apply (calm_bind _ _ c7); [by apply quiet_refl| |].
  { apply calm_if; intros _; [|by apply calm_ret]. apply calm_creator.
    apply (q_add_shared_child (c_tree c7) c7); [by apply quiet_refl|done|]. by intros t8 Hq8 _. }
  intros [] c8 mem10 Hq8 _. pose proof (quiet_type _ _ _ _ _ Hq8 Hn7) as Hn8.
  apply wp_bind, (calm_bind _ _ c7); [done| |].
  { pose proof (quiet_typed _ _ _ Hq8). update_creator. exists kPacketNode. split; [apply packet_or_root|done]. }
  intros [] c9 mem11 Hq9 _. apply wp_ret. cbn [fst]. eapply moved_trans; [done|]. by apply quiet_moved.
Qed.
End Packets.

(** ** Submits *)

Definition rooted (t : NodeTree) : Prop := has_type (types_of t) kRootNode kRootNodeIndex.

Lemma rooted_advanced t t' : advanced t t' -> rooted t -> rooted t'.
Proof. intros A. apply has_type_prefix, A. Qed.

(** [sort_submit_children] orders the children of one node. *)
Lemma concat_insert_perm {A} (cs : list (list A)) i l l' : cs !! i = Some l -> l' ≡ₚ l -> concat (<[i := l']> cs) ≡ₚ concat cs.
Proof.
  revert i. induction cs as [|ch cs IH]; intros i; [done|]. destruct i as [|i]; cbn.
  - intros [= ->] Hp. by rewrite Hp.
  - intros Hl Hp. by rewrite (IH i Hl Hp).
Qed.

Lemma child_at_insert_perm cs i l l' p k c : cs !! i = Some l -> l' ≡ₚ l -> child_at (<[i := l']> cs) p k = Some c ->
  exists k', child_at cs p k' = Some c.
Proof.
  intros Hl Hp. unfold child_at. destruct (decide (p = i)) as [->|Hne].
  - rewrite list_lookup_insert_eq by (by eapply lookup_lt_Some). cbn. intros Hc%list_elem_of_lookup_2.
    rewrite Hp in Hc. apply list_elem_of_lookup_1 in Hc as [k' Hk']. exists k'. by rewrite Hl.
  - rewrite list_lookup_insert_ne by done. intros Hc. by exists k.
Qed.

Lemma reordered t i l l' : tree_ok t -> at_submit (c_node_children t) !! i = Some l -> l' ≡ₚ l ->
  let t' := set_tree_children (set_type kSubmitTopology (<[i := l']> (at_submit (c_node_children t))) (c_node_children t)) t in
  advanced t t'.
Proof.
  intros Hok Hl Hp t'. set (cs' := <[i := l']> _) in t'.
  assert (forall type, of_type type (c_node_children t') = match type with kSubmitTopology => cs' | kAllEventTopology => at_all_event (c_node_children t) end) as E by (by intros []).
  assert (tree_ok t') as Hok'.
  { destruct Hok as [Oz On Oc Osh Ost Oe Or Of Oi Oed Osn Osn' Oen Orn Oev Oes Ofi].
    split; try done; intros type; rewrite E; destruct type;
      try apply (Oc kAllEventTopology); try apply (Of kAllEventTopology); try apply (Oi kAllEventTopology); try apply (Oed kAllEventTopology).
    - unfold cs', vec_size. rewrite length_insert. apply (Oc kSubmitTopology).
    - destruct (Of kSubmitTopology) as [Hr Hn]. cbn [of_type] in *. split; unfold cs'; rewrite (concat_insert_perm _ _ l l') by done.
      + rewrite length_insert. done.
      + done.
    - intros p k c Hc. unfold cs' in Hc. destruct (child_at_insert_perm _ _ _ _ _ _ _ Hl Hp Hc) as [k' Hk'].
      by apply (Oi kSubmitTopology p k').
    - intros p k c Hc. unfold cs' in Hc. destruct (child_at_insert_perm _ _ _ _ _ _ _ Hl Hp Hc) as [k' Hk'].
      by apply (Oed kSubmitTopology p k'). }
  split; try done.
  - intros type c. rewrite E. destruct type; [|by left]. unfold cs'. rewrite (concat_insert_perm _ _ l l') by done. by left.
  - intros p lp Hlp. exists []. by rewrite app_nil_r.
Qed.

Lemma with_ib_index_fst nodes h pairs : with_ib_index nodes h = Done pairs -> pairs.*1 = nodes.
Proof.
  revert pairs. induction nodes as [|n nodes IH]; intros pairs; cbn [with_ib_index]; [by intros [= <-]|].
  destruct (GetIbNodeIndex n h); [|done|done]. destruct (with_ib_index nodes h) as [rest| |]; [|done|done].
  intros [= <-]. cbn. f_equal. by apply IH.
Qed.

Lemma with_ib_index_in_fuel nodes h : with_ib_index nodes h <> OutOfFuel.
Proof.
  induction nodes as [|n nodes IH]; cbn [with_ib_index]; [done|]. apply bind_in_fuel; [apply aux_field_in_fuel|].
  intros ?. by apply bind_in_fuel.
Qed.

Section Submits.
Context `{StdSort} (m_capture_data : Pm4CaptureData).

Lemma sort_submit_children_quiet c : typed c -> wp True sort_submit_children (fun _ c' => quiet (c_tree c) c c') c.
Proof.
  intros Hc. unfold sort_submit_children. apply wp_bind, wp_get, wp_bind, wp_checked_done.
  { apply bind_in_fuel; [apply vec_at_in_fuel|]. intros ?. apply with_ib_index_in_fuel. }
  intros nodes Hn. apply wp_bind, wp_checked_done; [apply vec_set_in_fuel|]. intros children Hch. apply wp_modify.
  apply quiet_tree; [by apply quiet_refl| |done].
  set (i := c_cur_submit_node_index c) in *. unfold vec_at in Hn. unfold vec_set in Hch.
  destruct (vec_has _ i) eqn:Eh; [|done]. destruct (_ !! _) as [l|] eqn:El; [|done]. injection Hch as <-.
  apply (reordered _ _ l); [apply Hc|done|]. cbn [mbind outcome_bind] in Hn. apply with_ib_index_fst in Hn as <-.
  by rewrite std_sort_perm.
Qed.

Lemma engine_and_queue_in_fuel e q : engine_and_queue e q <> OutOfFuel.
Proof. apply bind_in_fuel; [apply vec_at_in_fuel|]. intros ?. by apply bind_in_fuel; [apply vec_at_in_fuel|]. Qed.

Lemma present_string_in_fuel i info : present_string i info <> OutOfFuel.
Proof.
  unfold present_string. destruct (m_valid_data info); [|done]. apply bind_in_fuel; [apply engine_and_queue_in_fuel|].
  intros ?. by repeat case_match.
Qed.

(** The child of the root. *)
Lemma q_add_top t0 c0 c topology child n (Q : () -> Creator -> Prop) : quiet t0 c0 c -> rooted t0 -> tree_size t0 <= n ->
  has_type (types_of (c_tree c)) child n -> edge_ok topology kRootNode child = true ->
  n ∉ concat (of_type topology (c_node_children (c_tree c))) ->
  (forall t, quiet t0 c0 (set_tree t c) -> tree_nodes t = tree_nodes (c_tree c) ->
     (forall topology', topology' <> topology ->
        of_type topology' (c_node_children t) = of_type topology' (c_node_children (c_tree c))) ->
     Q () (set_tree t c)) ->
  wp True (add_child topology kRootNodeIndex n) Q c.
Proof.
  intros Hq Hr Hn Ht He Hin HQ. apply (q_add_child t0 c0 _ _ kRootNode child); [done|by left|done..|].
  intros t Hq' Eh _ _ Hne. apply HQ; [done|unfold tree_nodes; by rewrite Eh|done].
Qed.

Lemma OnSubmitEnd_quiet submit_index submit_info c : typed c -> rooted (c_tree c) ->
  wp True (Creator_OnSubmitEnd m_capture_data submit_index submit_info) (fun _ c' => quiet (c_tree c) c c') c.
Proof.
  intros Hc Hr. unfold Creator_OnSubmitEnd. apply wp_bind. eapply wp_mono; [by apply sort_submit_children_quiet|].
  intros [] c1 Hq1. apply (wp_each _ (fun _ c' => quiet (c_tree c) c c')); [done|].
  intros j info c2 _ Hq2. unfold add_present. apply wp_if; intros _; [by apply wp_ret|].
  apply wp_bind, wp_checked_done; [apply present_string_in_fuel|]. intros desc _.
  apply wp_bind, (q_add_node (c_tree c) c); [done|]. intros t3 Hq3 Hle Ht Hu _.
  apply (q_add_top (c_tree c) c _ _ kPresentNode); [done|done|done|done|done|apply Hu|]. by intros t4 Hq4 _ _.
Qed.

Lemma OnSubmitStart_spec submit_index submit_info c : creator_ok c -> rooted (c_tree c) ->
  wp True (Creator_OnSubmitStart submit_index submit_info)
    (fun _ c' => creator_ok c' /\ in_submit c' /\ advanced (c_tree c) (c_tree c')) c.
Proof.
  intros [Hc Hev] Hr. pose proof (quiet_refl _ Hc) as Hq. unfold Creator_OnSubmitStart.
  apply wp_bind, wp_checked_done.
  { apply bind_in_fuel; [apply engine_and_queue_in_fuel|done]. }
  intros desc _. apply wp_bind, (q_add_node (c_tree c) c); [done|]. intros t1 Hq1 Hle Ht Hu _.
  set (n := tree_size (c_tree c)) in *.
  apply wp_bind, (q_add_top (c_tree c) c _ _ kSubmitNode); [done|done|done|done|done|apply Hu|]. intros t2 Hq2 En2 Hne.
  cbn [c_tree set_tree] in En2, Hne. assert (types_of t2 = types_of t1) as Et2 by (unfold types_of; by rewrite En2).
  apply wp_bind, (q_add_top (c_tree c) c _ _ kSubmitNode); [done|done|done|cbn; by rewrite Et2|done| |].
  { cbn [c_tree set_tree]. rewrite Hne by done. apply Hu. }
  intros t3 Hq3 En3 _. cbn [c_tree set_tree] in En3.
  assert (has_type (types_of t3) kSubmitNode n) as Ht3 by (unfold types_of; by rewrite En3, En2).
  apply wp_bind, (q_same_tree (c_tree c) c); [done|apply SetRoot_spec; [apply (q_ok Hq3)|exact (has_type_in _ _ _ Ht3)..]|].
  intros t4 Hq4 [Eh4 _]. cbn [c_tree set_tree] in Eh4.
  assert (has_type (types_of t4) kSubmitNode n) as Ht4 by (unfold types_of, tree_nodes; by rewrite Eh4).
  apply wp_bind, (q_same_tree (c_tree c) c); [done|apply SetRoot_spec; [apply (q_ok Hq4)|exact (has_type_in _ _ _ Ht4)..]|].
  intros t5 Hq5 [Eh5 _]. cbn [c_tree set_tree] in Eh5.
  assert (has_type (types_of t5) kSubmitNode n) as Ht5 by (unfold types_of, tree_nodes; by rewrite Eh5).
  apply wp_bind, wp_modify. set (c5 := set_tree t5 _) in *.
  destruct (quiet_moved _ _ Hq5 Hev) as [[Hc5 Hev5] A5 _].
  set (c6 := set_cur_ib_level 1 (set_cur_submit_node_index n c5)).
  assert (typed c6) as Hc6.
  { split; [apply Hc5|]. destruct (proj2 Hc5); split; cbn; try done. exists kSubmitNode. split; [right; left|done]. }
  assert (events_ok c6) as Hev6 by (destruct Hev5; by split).
  apply wp_bind, (q_set_shared_parent (c_tree c6) c6); [by apply quiet_refl|left; by exists kSubmitNode|].
  intros parents Hq7. apply wp_modify. set (c7 := set_shared_node_ib_parent_stack parents c6) in *.
  assert (quiet (c_tree c6) c6 (set_cur_ib_packet_node_index UINT64_MAX (set_ib_stack [] (set_start_node_stack (mkPerTopology [] [])
      (set_render_marker_index kInvalidRenderMarkerIndex (set_state_tracker (Tracker_Reset (c_state_tracker c7))
        (set_new_event_start true (set_new_ib_start true (set_tracking_first_tile_pass_start false c7))))))))) as Hq8.
  { apply (quiet_set (c_tree c6) c6 c7 (fun c7 => set_cur_ib_packet_node_index _ (set_ib_stack [] (set_start_node_stack _
      (set_render_marker_index _ (set_state_tracker (Tracker_Reset (c_state_tracker c7)) (set_new_event_start _ (set_new_ib_start _
        (set_tracking_first_tile_pass_start _ c7)))))))));
      [exact Hq7|done|done|done|done|refer (q_refers Hq7)]; try by right. by intros []. }
  split; [by apply (quiet_moved _ _ Hq8)|]. split.
  - exact (in_submit_quiet c6 _ Ht5 Hq8).
  - eapply advanced_trans; [exact A5|apply (q_advanced Hq8)].
Qed.
End Submits.
