(* ===== verification/EmulateKeeps.v ===== *)
(** * EmulateKeeps: invariants of callbacks

    What every callback preserves of its state, the emulation of [Emulate] preserves,
    with any fuel and whatever it answers. *)

From S2P Require Import Prelude Wire Memory Pm4 StateTracker Emulate.

#[local] Open Scope Z_scope.

Section Keeps.
Context `{AdrenoPm4} {C M : Type} `{IMemoryManager M} `{!EmulateCallbacks C M}.

(** [O] holds between submits and [I] within one. *)
Class CallbackInvariant (O I : C -> Prop) := {
  OnIbStart_keeps submit ix info type c ok c' : I c -> OnIbStart submit ix info type c = Done (ok, c') -> I c';
  OnIbEnd_keeps submit ix info c ok c' : I c -> OnIbEnd submit ix info c = Done (ok, c') -> I c';
  OnPacket_keeps submit ix va header c mem ok c' mem' : I c -> OnPacket submit ix va header c mem = Done (ok, c', mem') -> I c';
  OnSubmitStart_keeps submit info c : O c -> I (OnSubmitStart submit info c);
  OnSubmitEnd_keeps submit info c : I c -> O (OnSubmitEnd submit info c)
}.

Context {O I : C -> Prop} `{!CallbackInvariant O I}.

Definition keeps {A} (m : Emu C M A) : Prop :=
  forall e c mem a e' c' mem', I c -> m (e, c, mem) = Done (a, (e', c', mem')) -> I c'.

Lemma keeps_mret {A} (a : A) : keeps (mret a).
Proof. by intros e c mem a' e' c' mem' Hc [= <- <- <- <-]. Qed.

Lemma keeps_mbind {A B} (m : Emu C M A) (k : A -> Emu C M B) : keeps m -> (forall a, keeps (k a)) -> keeps (m ≫= k).
Proof.
  intros Hm Hk e c mem b e' c' mem' Hc. unfold mbind, Emu_bind.
  destruct (m (e, c, mem)) as [[[a|] [[e1 c1] mem1]]| |] eqn:E; [|intros [= <- <- <- <-]; by eapply Hm|done|done].
  apply Hk. by eapply Hm.
Qed.

Lemma keeps_false {A} : keeps (@return_false C M A).
Proof. by intros e c mem a' e' c' mem' Hc [= <- <- <- <-]. Qed.

Lemma keeps_out_of_bounds {A} : keeps (@out_of_bounds C M A).
Proof. done. Qed.

Lemma keeps_out_of_fuel {A} : keeps (@out_of_fuel C M A).
Proof. done. Qed.

Lemma keeps_get_state : keeps get_state.
Proof. by intros e c mem a' e' c' mem' Hc [= <- <- <- <-]. Qed.

Lemma keeps_update_state f : keeps (update_state f).
Proof. by intros e c mem a' e' c' mem' Hc [= <- <- <- <-]. Qed.

Lemma keeps_access {A} (f : M -> outcome (A * M)) : keeps (access f).
Proof. intros e c mem a e' c' mem' Hc. unfold access. destruct (f mem) as [[x mem1]| |]; [|done|done]. by intros [= <- <- <- <-]. Qed.

Lemma keeps_callback f : (forall c mem ok c' mem', I c -> f c mem = Done (ok, c', mem') -> I c') -> keeps (callback f).
Proof.
  intros Hf e c mem a e' c' mem' Hc. unfold callback. destruct (f c mem) as [[[ok c1] mem1]| |] eqn:E; [|done|done].
  intros [= <- <- <- <-]. by eapply Hf.
Qed.

Lemma with_mem_inv (f : C -> outcome (bool * C)) c (mem : M) ok c' mem' : with_mem f c mem = Done (ok, c', mem') -> f c = Done (ok, c').
Proof. unfold with_mem. destruct (f c) as [[ok1 c1]| |]; [|done|done]. by intros [= -> -> _]. Qed.

Ltac keeps_step :=
  first
    [ apply keeps_mret | apply keeps_false | apply keeps_get_state | apply keeps_update_state | apply keeps_access
    | apply keeps_out_of_bounds | apply keeps_out_of_fuel
    | match goal with |- keeps (mbind _ _) => apply keeps_mbind; [|intros ?] end
    | match goal with |- keeps (if ?b then _ else _) => destruct b end
    | match goal with |- keeps (match ?x with _ => _ end) => destruct x end ].
Ltac keeps_tac := repeat keeps_step.

Lemma keeps_get_level level : keeps (get_level level).
Proof. unfold get_level. keeps_tac. Qed.

Lemma keeps_GetCurIb : keeps GetCurIb.
Proof. unfold GetCurIb. keeps_tac. apply keeps_get_level. Qed.

Lemma keeps_update_level level f : keeps (update_level level f).
Proof. unfold update_level. keeps_tac. apply keeps_get_level. Qed.

Lemma keeps_update_cur f : keeps (update_cur f).
Proof. apply keeps_mbind; [apply keeps_get_state|]. intros e. apply keeps_update_level. Qed.

Ltac keeps_auto :=
  repeat first [apply keeps_GetCurIb | apply keeps_update_cur | apply keeps_update_level | keeps_step].

Lemma keeps_QueueIB addr size skip type mask : keeps (QueueIB addr size skip type mask).
Proof. unfold QueueIB. keeps_auto. Qed.

Lemma keeps_start_cur_ib : keeps start_cur_ib.
Proof.
  unfold start_cur_ib. keeps_auto. apply keeps_callback. intros c mem ok c' mem' Hc E%with_mem_inv. by eapply OnIbStart_keeps.
Qed.

Lemma keeps_AdvanceToQueuedIB : keeps AdvanceToQueuedIB.
Proof. unfold AdvanceToQueuedIB. repeat first [apply keeps_start_cur_ib|progress keeps_auto]. Qed.

Lemma keeps_AdvanceOutOfIB : keeps AdvanceOutOfIB.
Proof.
  unfold AdvanceOutOfIB. keeps_auto. apply keeps_callback. intros c mem ok c' mem' Hc E%with_mem_inv. by eapply OnIbEnd_keeps.
Qed.

Lemma keeps_check_loop fuel : keeps (check_loop fuel).
Proof.
  induction fuel as [|fuel IH]; cbn [check_loop];
    repeat first [apply IH|apply keeps_AdvanceOutOfIB|apply keeps_AdvanceToQueuedIB|progress keeps_auto].
Qed.

Lemma keeps_for_range n (body : Z -> Emu C M unit) : (forall i, keeps (body i)) -> forall i, keeps (for_range n i body).
Proof. intros Hb. induction n as [|n IH]; intros i; cbn [for_range]; [apply keeps_mret|]. apply keeps_mbind; [apply Hb|intros _; apply IH]. Qed.

Lemma keeps_queue_draw_states packet n : forall i queued, keeps (queue_draw_states packet n i queued).
Proof.
  induction n as [|n IH]; intros i queued; cbn [queue_draw_states];
    repeat first [apply IH|apply keeps_QueueIB|progress keeps_auto].
Qed.

Lemma keeps_read_packet n k : keeps (read_packet n k).
Proof. unfold read_packet. keeps_auto. Qed.

Lemma keeps_AdvanceCb fuel header : keeps (AdvanceCb fuel header).
Proof.
  unfold AdvanceCb, advance_call, advance_amble, advance_draw_state, advance_bins, advance_draw_table, CheckAndAdvanceIB,
    AdvancePacket, reset_queue.
  repeat first [apply keeps_QueueIB|apply keeps_read_packet|apply keeps_queue_draw_states|apply keeps_AdvanceToQueuedIB
               |apply keeps_check_loop|apply keeps_for_range; intros ?|progress keeps_auto].
Qed.

Lemma keeps_execute fuel ibs : keeps (execute fuel ibs).
Proof.
  assert (forall l, keeps (queue_ibs l)) as Hq.
  { induction l as [|i l IH]; cbn [queue_ibs]; repeat first [apply IH|apply keeps_QueueIB|progress keeps_auto]. }
  assert (forall f, keeps (execute_packet f)) as Hp.
  { intros f. unfold execute_packet. repeat first [apply keeps_AdvanceCb|progress keeps_auto].
    apply keeps_callback. intros. by eapply OnPacket_keeps. }
  assert (forall f, keeps (execute_loop f)) as Hl.
  { induction f as [|f IH]; cbn [execute_loop]; repeat first [apply IH|apply Hp|progress keeps_auto]. }
  unfold execute, CheckAndAdvanceIB. repeat first [apply Hq|apply Hl|apply keeps_check_loop|apply keeps_AdvanceToQueuedIB|progress keeps_auto].
Qed.

Lemma ExecuteSubmit_keeps fuel submit ibs c (mem : M) ok c' mem' :
  I c -> ExecuteSubmit fuel submit ibs c mem = Done (ok, c', mem') -> I c'.
Proof.
  intros Hc. unfold ExecuteSubmit. destruct (execute _ _ _) as [[r [[e1 c1] mem1]]| |] eqn:E; [|done|done].
  intros [= _ <- _]. by eapply keeps_execute.
Qed.

(** A refusal may leave the callbacks within a submit. *)
Lemma ProcessSubmits_keeps fuel submits c (mem : M) ok c' mem' :
  O c -> ProcessSubmits fuel submits c mem = Done (ok, c', mem') -> if ok : bool then O c' else I c'.
Proof.
  unfold ProcessSubmits. generalize 0. revert c mem. induction submits as [|info submits IH]; intros c mem submit Hc; cbn [process_submits].
  { by intros [= <- <- _]. }
  pose proof (OnSubmitStart_keeps submit info c Hc) as Hi.
  destruct (m_is_dummy_submit info); [by apply IH, OnSubmitEnd_keeps|].
  destruct (_ && _); [by apply IH, OnSubmitEnd_keeps|].
  destruct (ExecuteSubmit _ _ _ _ _) as [[[ok1 c1] mem1]| |] eqn:E; [|done|done]. cbn [mbind outcome_bind].
  pose proof (ExecuteSubmit_keeps _ _ _ _ _ _ _ _ Hi E) as Hi1.
  destruct ok1; [by apply IH, OnSubmitEnd_keeps|]. by intros [= <- <- _].
Qed.
End Keeps.
