(* ===== verification/CreatorTrees.v ===== *)
(** * CreatorTrees: the hierarchies that are created

    What [CreateTrees] leaves, by the invariant of [CreatorTypes]: every topology is that
    of a forest of the nodes in which each node is of a type that may be there, and the
    events are numbered in the order of the capture. Then captures whose hierarchy is not
    what is meant. *)

From stdpp Require Import strings gmap sorting.
From Stdlib Require Import Sorted.
From S2P Require Import Prelude Wire Memory Pm4 StateTracker Emulate CaptureData Topology Hierarchy EventInfo DiveStrings NodeTree PacketNodes HierarchyCreator CreatorTypes EmulateKeeps.

#[local] Open Scope Z_scope.

(** ** What is promised *)

(** A hierarchy whose nodes have the type [types]. *)
Record well_formed (h : CommandHierarchy) : Prop := {
  wf_nodes : nodes_aligned (m_nodes h);
  wf_root : has_type (m_node_type (m_nodes h)) kRootNode kRootNodeIndex;
  wf_children type : exists cs, length cs = length (m_node_type (m_nodes h)) /\
    represents (of_type type (m_topology h)) cs /\ forest cs /\ increasing cs /\
    edges_ok type (m_node_type (m_nodes h)) cs;
  wf_shared type : exists shared, length shared = length (m_node_type (m_nodes h)) /\
    shows_shared (of_type type (m_topology h)) shared /\
    Forall (Forall (has_type (m_node_type (m_nodes h)) kPacketNode)) shared;
  wf_ranges type : let s := of_type type (m_topology h) in
    Forall (fun v => vec_size v = hierarchy_size h /\ Forall (node_in (hierarchy_size h)) v)
      [m_start_shared_child s; m_end_shared_child s; m_root_node_index s];
  wf_events : StronglySorted Z.lt (m_event_node_indices (m_nodes h)) /\
    Forall (has_type (m_node_type (m_nodes h)) kEventNode) (m_event_node_indices (m_nodes h));
  wf_filters filter i : i ∈ GetFilterExcludeIndices filter h -> has_type (m_node_type (m_nodes h)) kRenderMarkerNode i
}.

Definition no_topologies : PerTopology SharedNodeTopology := mkPerTopology new_SharedNodeTopology new_SharedNodeTopology.

(** From the nodes and their children to the hierarchy. *)
Lemma topologies_well_formed t t' : tree_ok t -> rooted t -> m_topology (c_command_hierarchy t) = no_topologies ->
  Creator_CreateTopologies t = Done ((), t') ->
  well_formed (c_command_hierarchy t') /\ tree_nodes t' = tree_nodes t /\
  forall type, represents (of_type type (m_topology (c_command_hierarchy t'))) (of_type type (c_node_children t)).
Proof.
  intros Hok Hroot Et E. pose proof (Creator_CreateTopologies_spec True t Hok Et) as Hw.
  apply (wp_done _ _ _ _ _ _ Hw) in E as (En & Ef & Hs).
  assert (m_nodes (c_command_hierarchy t') = tree_nodes t) as Em by exact En.
  split; [|split; [done|apply Hs]].
  assert (forall A (v : list A), vec_size v = tree_size t -> length v = length (m_node_type (tree_nodes t))) as Hlen.
  { intros A v. unfold tree_size, vec_size. lia. }
  destruct Hok as [Oz On Oc Osh Ost Oe Or Of Oi Oed Osn Osn' Oen Orn Oev Oes Ofi].
  split; rewrite ?Em; try done.
  - intros type. exists (of_type type (c_node_children t)). split; [by apply Hlen|]. split; [apply Hs|done].
  - intros type. exists (of_type type (c_shared_children t)). split; [by apply Hlen|]. split; [apply Hs|done].
  - intros type. destruct (Hs type) as (_ & _ & E1 & E2 & E3). cbv zeta. rewrite E1, E2, E3.
    assert (hierarchy_size (c_command_hierarchy t') = tree_size t) as Ez by (unfold hierarchy_size; by rewrite Em).
    rewrite Ez. repeat constructor; done.
  - intros filter i Hi. apply (Ofi filter). revert Hi. unfold GetFilterExcludeIndices. by rewrite Ef.
Qed.

(** ** The callbacks keep the invariant *)

Section Creation.
Context `{AdrenoPm4} `{Pm4Info} {M : Type} `{IMemoryManager M} `{StdSort} (m_capture_data : Pm4CaptureData).

Definition within (P : Creator -> Prop) (o : option Creator) : Prop := match o with Some c => P c | None => True end.

Definition between_submits (c : Creator) : Prop :=
  creator_ok c /\ rooted (c_tree c) /\ m_topology (c_command_hierarchy (c_tree c)) = no_topologies.
Definition in_a_submit (c : Creator) : Prop := between_submits c /\ in_submit c.

Lemma between_moved c c' : between_submits c -> moved c c' -> between_submits c'.
Proof.
  intros (_ & Hr & Et) Hm. split; [apply Hm|]. split; [by eapply rooted_advanced; [apply Hm|]|].
  by rewrite (adv_topology _ _ (mv_advanced _ _ Hm)).
Qed.

Lemma in_a_submit_moved c c' : in_a_submit c -> moved c c' -> in_a_submit c'.
Proof.
  intros [Hb Hs] Hm. split; [by eapply between_moved|]. unfold in_submit. rewrite (mv_submit _ _ Hm).
  eapply has_type_prefix; [apply (mv_advanced _ _ Hm)|done].
Qed.

Lemma in_a_submit_quiet c c' : in_a_submit c -> quiet (c_tree c) c c' -> in_a_submit c'.
Proof. intros Hc Hq. eapply in_a_submit_moved; [done|]. apply quiet_moved; [done|apply Hc]. Qed.

(** A callback that leaves the state of the creator. *)
Lemma within_steps {A} (P Q : Creator -> Prop) (m : Steps Creator A) (o : option Creator) ok o' :
  within P o -> (forall c, P c -> wp True m (fun _ c' => Q c') c) ->
  (c ← existing o; '(a, c) ← m c; Done (a, Some c)) = Done (ok, o') -> within Q o'.
Proof.
  intros Ho Hm. destruct o as [c|]; [|done]. specialize (Hm c Ho). cbn [existing mbind outcome_bind].
  unfold wp in Hm. destruct (m c) as [[a c']| |]; [|done|done]. by intros [= _ <-].
Qed.

#[local] Instance callbacks : EmulateCallbacks (option Creator) M := creator_callbacks m_capture_data.

#[local] Instance creator_invariant : CallbackInvariant (within between_submits) (within in_a_submit).
Proof.
  split.
  - intros submit ix info type o ok o' Ho. apply (within_steps in_a_submit in_a_submit _ _ _ _ Ho).
    intros c Hc. eapply wp_mono; [apply OnIbStart_quiet; apply Hc|]. intros a c'. by apply in_a_submit_quiet.
  - intros submit ix info o ok o' Ho. apply (within_steps in_a_submit in_a_submit _ _ _ _ Ho).
    intros c Hc. eapply wp_mono; [apply OnIbEnd_quiet; apply Hc|]. intros a c'. by apply in_a_submit_quiet.
  - intros submit ix va header o mem ok o' mem' Ho. destruct o as [c|]; [|done]. cbn.
    pose proof (OnPacket_moved submit ix va header c mem (proj1 (proj1 Ho)) (proj2 Ho)) as Hw. unfold wp in Hw.
    destruct (Creator_OnPacket _ _ _ _ _) as [[a [c1 mem1]]| |]; [|done|done]. cbn. intros [= _ <- _].
    by eapply in_a_submit_moved.
  - intros submit info o Ho. destruct o as [c|]; [|done]. cbn. destruct Ho as (Hok & Hr & Et).
    pose proof (OnSubmitStart_spec submit info c Hok Hr) as Hw. unfold wp in Hw.
    destruct (Creator_OnSubmitStart _ _ _) as [[a c1]| |]; [|done|done]. cbn. destruct Hw as (Hok1 & Hs1 & A1).
    split; [|done]. split; [done|]. split; [by eapply rooted_advanced|]. by rewrite (adv_topology _ _ A1).
  - intros submit info o Ho. destruct o as [c|]; [|done]. cbn. destruct Ho as [Hb Hs].
    pose proof (OnSubmitEnd_quiet m_capture_data submit info c (proj1 (proj1 Hb)) (proj1 (proj2 Hb))) as Hw. unfold wp in Hw.
    destruct (Creator_OnSubmitEnd _ _ _ _) as [[a c1]| |]; [|done|done]. cbn.
    eapply between_moved; [done|]. apply quiet_moved; [done|apply Hb].
Qed.

Lemma new_tree_ok : tree_ok (new_NodeTree new_CommandHierarchy).
Proof.
  assert (forall A (p : PerTopology (list A)), p = mkPerTopology [] [] -> forall type, of_type type p = []) as He by (by intros A p -> []).
  split; try match goal with |- forall _ : TopologyType, _ => intros type; rewrite ?He by done end; try done; try by constructor.
  - split; constructor.
  - by intros [].
Qed.

(** The root. *)
Lemma begin_trees_spec flatten h : wp True (begin_trees flatten) (fun _ c => between_submits c) (new_Creator h).
Proof.
  unfold begin_trees. apply wp_bind, wp_modify, wp_bind, wp_on_nodes.
  match goal with |- wp _ _ _ ?t => change t with (new_NodeTree new_CommandHierarchy) end. pose proof new_tree_ok as Hok0.
  eapply wp_mono; [by apply Creator_AddNode_spec|]. intros n t (-> & Hs & G & Ht & Ha & Hu). apply wp_modify.
  assert (has_type (types_of t) kRootNode 0) as Hr.
  { unfold types_of. rewrite Ht. split; [lia|]. done. }
  split; [|split; [exact Hr|exact (grown_topology _ _ G)]].
  split; [split; [apply G|]|].
  - assert (forall Ks, kRootNode ∈ Ks -> is_a t Ks 0) as Ha0 by (intros Ks HK; by exists kRootNode).
    assert (is_node t 0) as Hn0 by by exists kRootNode.
    split; try done; try by right.
    + apply Ha0. left.
    + apply Ha0. left.
    + left. apply Ha0. left.
    + by intros [].
    + exact (Forall_replicate _ _ _ (or_introl Hn0)).
    + exact (Forall_replicate (fun g => is_node t g.1) kMaxPendingIbs (0, 0) Hn0).
  - split; unfold events_of; cbn; rewrite ?(grown_events _ _ G); try done. intros e He. by apply elem_of_nil in He.
Qed.

(** What a creation that succeeds has collected. *)
Lemma CreateTrees_collected fuel flatten h (mem : M) c mem' :
  CreateTrees m_capture_data fuel flatten (new_Creator h) mem = Done (true, c, mem') ->
  exists c1, between_submits c1 /\ Creator_CreateTopologies (c_tree c1) = Done ((), c_tree c) /\
    c_node_parent_info c = c_node_parent_info c1.
Proof.
  unfold CreateTrees, CreateTrees_of. pose proof (begin_trees_spec flatten h) as Hb. unfold wp in Hb.
  destruct (begin_trees flatten (new_Creator h)) as [[[] c0]| |]; [|done|done]. cbn [mbind outcome_bind].
  destruct (ProcessSubmits _ _ _ _) as [[[ok o] mem1]| |] eqn:E; [|done|done]. cbn [mbind outcome_bind].
  apply (ProcessSubmits_keeps (O := within between_submits) (I := within in_a_submit)) in E; [|done].
  destruct o as [c1|]; [|done]. cbn [existing mbind outcome_bind]. destruct ok; cbn [negb]; [|done]. cbn in E.
  unfold on_nodes. destruct (Creator_CreateTopologies (c_tree c1)) as [[[] t]| |] eqn:Et; [|done|done].
  cbn. intros [= <- _]. by exists c1.
Qed.

(** ** Properties *)

(** C15: Every hierarchy that [CreateTrees] creates is well-typed. Both topologies are those
    of a forest of the nodes, in which a node is the child of one node at most, which was
    added before it, and whose type may have children of its type: submits and presents
    below the root, IBs below submits and IBs, passes and events below submits, events
    below passes, registers and fields below packets. The shared children are packets,
    the ranges are of nodes, the events are event nodes in the order they were added in,
    and what a filter excludes are passes. *)
Theorem hierarchy_typed fuel flatten h (mem : M) c mem' :
  CreateTrees m_capture_data fuel flatten (new_Creator h) mem = Done (true, c, mem') ->
  well_formed (c_command_hierarchy (c_tree c)).
Proof.
  intros (c1 & (Hok & Hr & Et) & Ect & _)%CreateTrees_collected. destruct Hok as [[Hok _] _].
  by apply (topologies_well_formed (c_tree c1)).
Qed.

(** C16: The events of a hierarchy that is created are numbered from 0 in the order of the
    capture: the [k]-th event's node says [k] (with 32 bits), its index among the events
    is [k + 1], and in the event topology its parent is a submit or a pass. *)
Theorem events_numbered fuel flatten h (mem : M) c mem' k e :
  CreateTrees m_capture_data fuel flatten (new_Creator h) mem = Done (true, c, mem') ->
  m_event_node_indices (tree_nodes (c_tree c)) !! k = Some e ->
  let h := c_command_hierarchy (c_tree c) in
  GetNodeType e h = Done kEventNode /\ GetEventNodeId e h = Done (wrap 32 (Z.of_nat k)) /\
  GetEventIndex e h = Z.of_nat k + 1 /\
  exists p P, GetParentNodeIndex e (at_all_event (m_topology h)) = Done p /\ GetNodeType p h = Done P /\
    (P = kSubmitNode \/ P = kRenderMarkerNode).
Proof.
  intros (c1 & (Hok & Hr & Et) & Ect & _)%CreateTrees_collected. destruct Hok as [[Hok Href] [Hnum Hid Hinfo Hpar]].
  destruct (topologies_well_formed _ _ Hok Hr Et Ect) as (Hwf & En & Hrep). cbv zeta. rewrite En. intros Hk.
  assert (e ∈ events_of (c_tree c1)) as Hin by by eapply list_elem_of_lookup_2.
  assert (m_nodes (c_command_hierarchy (c_tree c)) = tree_nodes (c_tree c1)) as Em by exact En.
  assert (forall K i, has_type (types_of (c_tree c1)) K i -> GetNodeType i (c_command_hierarchy (c_tree c)) = Done K) as Htype.
  { intros K i [H0' Hl]. unfold GetNodeType. rewrite Em. by apply vec_at_lookup. }
  pose proof (ok_events_nodes _ Hok) as Hev. rewrite Forall_forall in Hev. specialize (Hev e Hin).
  split; [by apply Htype|]. split; [|split].
  - destruct (Hid k e Hk) as (type & ignore & Ha). unfold GetEventNodeId, aux_field. rewrite Em.
    rewrite (vec_at_lookup _ _ _ (proj1 Hev) Ha). cbn [mbind outcome_bind]. f_equal. unfold EventNode. unpack. apply wrap_wrap.
  - destruct (GetEventIndex_spec (c_command_hierarchy (c_tree c)) e) as [Hgi _]; [apply Hwf|]. apply Hgi. by rewrite Em.
  - destruct (Hinfo e Hin) as [p Hp]. destruct (Hpar e p Hp) as (l & Hl & Hel). apply list_elem_of_lookup_1 in Hel as [j Hj].
    assert (child_at (at_all_event (c_node_children (c_tree c1))) (Z.to_nat p) j = Some e) as Hc by (unfold child_at; by rewrite Hl).
    destruct (rep_linked _ _ (Hrep kAllEventTopology) _ _ _ Hc) as [Hpa _].
    destruct (ok_edges _ Hok kAllEventTopology _ _ _ Hc) as (P & K & HP & HK & He).
    exists (Z.of_nat (Z.to_nat p)), P. split; [by apply vec_at_lookup; [apply Hev|]|].
    split; [apply Htype; split; [lia|by rewrite Nat2Z.id]|].
    destruct HK as [_ HK], Hev as [_ Hev]. unfold types_of in Hev. rewrite Hev in HK. injection HK as <-.
    destruct P; try done; auto.
Qed.
End Creation.

(** ** Filters of passes *)

Section PassFilters.
Context `{AdrenoPm4}.

(** The markers of passes differ. *)
Definition markers_differ : Prop :=
  RM6_BIN_VISIBILITY <> RM6_BIN_RENDER_START /\ RM6_BIN_VISIBILITY <> RM6_BIN_RESOLVE /\
  RM6_BIN_RENDER_START <> RM6_BIN_RESOLVE.

Definition filters_of (c : Creator) (filter : FilterListType) : gset Z :=
  GetFilterExcludeIndices filter (c_command_hierarchy (c_tree c)).

(** Which filters exclude a pass, where the first tile may be [tracking]. *)
Definition excludes (filter : FilterListType) (marker : Z) (tracking : bool) : bool :=
  let tile := (marker =? RM6_BIN_RENDER_START) || (marker =? RM6_BIN_RESOLVE) in
  match filter with
  | kBinningPassOnly => tile
  | kFirstTilePassOnly => (marker =? RM6_BIN_VISIBILITY) || (tile && negb tracking)
  | kBinningAndFirstTilePass => tile && negb tracking
  end.

Definition tracking_after (marker : Z) (tracking : bool) : bool :=
  if marker =? RM6_BIN_VISIBILITY then true else if marker =? RM6_BIN_RESOLVE then false else tracking.

Lemma exclude_pass_spec marker i c : markers_differ ->
  exists c', exclude_pass marker i c = Done ((), c') /\
    (forall filter, filters_of c' filter =
       if excludes filter marker (c_tracking_first_tile_pass_start c) then {[i]} ∪ filters_of c filter else filters_of c filter) /\
    c_tracking_first_tile_pass_start c' = tracking_after marker (c_tracking_first_tile_pass_start c).
Proof.
  intros (H1 & H2 & H3). unfold exclude_pass, excludes, tracking_after, mbind, Steps_bind, get, modify, on_hierarchy, mret, Steps_ret.
  cbn [mbind outcome_bind].
  destruct (Z.eqb_spec marker RM6_BIN_VISIBILITY) as [->|Hv].
  { rewrite (proj2 (Z.eqb_neq _ _) H1), (proj2 (Z.eqb_neq _ _) H2). eexists. split; [reflexivity|]. split; [|done].
    by intros []. }
  destruct (Z.eqb_spec marker RM6_BIN_RENDER_START) as [->|Hs].
  { rewrite (proj2 (Z.eqb_neq _ _) H3). destruct (c_tracking_first_tile_pass_start c) eqn:E; cbn; rewrite E; cbn;
      (eexists; split; [reflexivity|]); cbn; rewrite ?E; split; try done; by intros []. }
  destruct (Z.eqb_spec marker RM6_BIN_RESOLVE) as [->|Hr]; cbn.
  { destruct (c_tracking_first_tile_pass_start c) eqn:E; cbn;
      (eexists; split; [reflexivity|]); cbn; rewrite ?E; split; try done; by intros []. }
  eexists. split; [reflexivity|]. split; [by intros []|done].
Qed.

(** Passes one after the other, with their nodes. *)
Definition exclude_passes (passes : list (Z * Z)) : Steps Creator () :=
  each 0 passes (fun _ pass => exclude_pass pass.1 pass.2).

(** A tile's rendering pass and its resolve. *)
Definition tile_passes (tile : Z * Z) : list (Z * Z) := [(RM6_BIN_RENDER_START, tile.1); (RM6_BIN_RESOLVE, tile.2)].
Definition tile_nodes (tiles : list (Z * Z)) : list Z := concat ((fun tile => [tile.1; tile.2]) <$> tiles).

Lemma each_from {St A} (body : A -> Steps St ()) (l : list A) i j (s : St) :
  each i l (fun _ => body) s = each j l (fun _ => body) s.
Proof.
  revert i j s. induction l as [|a l IH]; intros i j s; [done|]. cbn. unfold mbind, Steps_bind.
  destruct (body a s) as [[[] s']| |]; [|done|done]. cbn. apply IH.
Qed.

Lemma exclude_passes_cons pass passes c c1 : exclude_pass pass.1 pass.2 c = Done ((), c1) ->
  exclude_passes (pass :: passes) c = exclude_passes passes c1.
Proof.
  intros E. unfold exclude_passes. cbn [each]. unfold mbind, Steps_bind. rewrite E. cbn. apply (each_from (fun pass => exclude_pass pass.1 pass.2)).
Qed.

Lemma later_tiles tiles c : markers_differ -> c_tracking_first_tile_pass_start c = false ->
  exists c', exclude_passes (concat (tile_passes <$> tiles)) c = Done ((), c') /\
    forall filter, filters_of c' filter = list_to_set (tile_nodes tiles) ∪ filters_of c filter.
Proof.
  intros Hd. revert c. induction tiles as [|[a b] tiles IH]; intros c Ht.
  { exists c. split; [done|]. intros filter. unfold tile_nodes. cbn. clear; set_solver. }
  pose proof Hd as (H1 & H2 & H3).
  destruct (exclude_pass_spec RM6_BIN_RENDER_START a c Hd) as (c1 & E1 & F1 & T1).
  destruct (exclude_pass_spec RM6_BIN_RESOLVE b c1 Hd) as (c2 & E2 & F2 & T2).
  unfold tracking_after in T1, T2. unfold excludes in F1, F2.
  rewrite (proj2 (Z.eqb_neq _ _) (not_eq_sym H1)), (proj2 (Z.eqb_neq _ _) H3), Ht in T1. rewrite Z.eqb_refl, Ht in F1. rewrite T1 in F2.
  rewrite Z.eqb_refl, (proj2 (Z.eqb_neq _ _) (not_eq_sym H2)) in T2. rewrite Z.eqb_refl, orb_true_r in F2.
  destruct (IH c2 T2) as (c' & E & F). exists c'. split.
  - cbn [fmap list_fmap concat tile_passes app]. change (?x :: ?y :: concat ?l) with (x :: (y :: concat l)).
    rewrite (exclude_passes_cons (RM6_BIN_RENDER_START, a) _ c c1 E1), (exclude_passes_cons (RM6_BIN_RESOLVE, b) _ c1 c2 E2). exact E.
  - intros filter. rewrite F, F2, F1. unfold tile_nodes. cbn [fmap list_fmap concat app list_to_set].
    destruct filter; cbn; rewrite ?orb_true_r; cbn; clear; set_solver.
Qed.

(** The filters of passes. Of a binning pass and the tiles that follow it, each with a
    rendering pass and a resolve, "binning pass only" excludes all tiles, "first tile
    only" the binning pass and all tiles but the first, and "binning and first tile"
    all tiles but the first; nothing else becomes excluded. *)
Theorem tiles_filtered binning first tiles c : markers_differ ->
  exists c', exclude_passes ((RM6_BIN_VISIBILITY, binning) :: concat (tile_passes <$> first :: tiles)) c = Done ((), c') /\
    filters_of c' kBinningPassOnly = list_to_set (tile_nodes (first :: tiles)) ∪ filters_of c kBinningPassOnly /\
    filters_of c' kFirstTilePassOnly = {[binning]} ∪ list_to_set (tile_nodes tiles) ∪ filters_of c kFirstTilePassOnly /\
    filters_of c' kBinningAndFirstTilePass = list_to_set (tile_nodes tiles) ∪ filters_of c kBinningAndFirstTilePass.
Proof.
  intros Hd. pose proof Hd as (H1 & H2 & H3). destruct first as [a b].
  destruct (exclude_pass_spec RM6_BIN_VISIBILITY binning c Hd) as (c0 & E0 & F0 & T0).
  destruct (exclude_pass_spec RM6_BIN_RENDER_START a c0 Hd) as (c1 & E1 & F1 & T1).
  destruct (exclude_pass_spec RM6_BIN_RESOLVE b c1 Hd) as (c2 & E2 & F2 & T2).
  unfold tracking_after in T0, T1, T2. unfold excludes in F0, F1, F2.
  rewrite Z.eqb_refl in T0. rewrite Z.eqb_refl, (proj2 (Z.eqb_neq _ _) H1), (proj2 (Z.eqb_neq _ _) H2) in F0.
  rewrite (proj2 (Z.eqb_neq _ _) (not_eq_sym H1)), (proj2 (Z.eqb_neq _ _) H3), T0 in T1.
  rewrite Z.eqb_refl, (proj2 (Z.eqb_neq _ _) (not_eq_sym H1)), T0 in F1. rewrite T1 in F2.
  rewrite Z.eqb_refl, (proj2 (Z.eqb_neq _ _) (not_eq_sym H2)) in T2.
  rewrite Z.eqb_refl, (proj2 (Z.eqb_neq _ _) (not_eq_sym H2)), orb_true_r in F2.
  destruct (later_tiles tiles c2 Hd T2) as (c' & E & F). exists c'. split.
  - cbn [fmap list_fmap concat tile_passes app].
    rewrite (exclude_passes_cons (RM6_BIN_VISIBILITY, binning) _ c c0 E0), (exclude_passes_cons (RM6_BIN_RENDER_START, a) _ c0 c1 E1),
      (exclude_passes_cons (RM6_BIN_RESOLVE, b) _ c1 c2 E2). exact E.
  - rewrite !F, !F2, !F1, !F0. unfold tile_nodes. cbn [fmap list_fmap concat app list_to_set orb andb negb].
    split; [|split]; clear; set_solver.
Qed.
End PassFilters.

(** ** Captures to evaluate *)

Definition by_key {A} (key : A -> Z) (a b : A) : Prop := key a <= key b.

#[global] Instance by_key_dec {A} (key : A -> Z) : RelDecision (by_key key) := fun a b => Z_le_dec (key a) (key b).

#[global] Program Instance merge_sort_by : StdSort := {|
  std_sort A key v := merge_sort (by_key key) v
|}.
Next Obligation. intros. apply merge_sort_Permutation. Qed.
Next Obligation.
  intros A key v.
  assert (Transitive (by_key key)) by (intros a b c; unfold by_key; lia).
  assert (Total (by_key key)) by (intros a b; unfold by_key; lia).
  apply (StronglySorted_merge_sort (by_key key)).
Qed.

(** Every packet has one field, of its first dword. *)
Definition test_info_of (registers : Z -> option RegInfo) : Pm4Info := {|
  sizeof_packet name := 8%nat;
  packet_field name l := 0;
  CP_BLIT := 0x2c;
  CP_EVENT_WRITE7 := 0x46;
  CP_WAIT_MEM_WRITES := 0x12;
  CP_WAIT_FOR_IDLE := 0x26;
  CP_WAIT_FOR_ME := 0x13;
  CP_LOAD_STATE6 := 0x36;
  CP_LOAD_STATE6_GEOM := 0x32;
  CP_LOAD_STATE6_FRAG := 0x34;
  CP_MEM_TO_REG := 0x42;
  enumerator name := if bool_decide (name = "RM6_COMPUTE") then 8 else 0;
  GetOpCodeString opcode := "Packet";
  GetRegOffsetByName name := 0;
  GetFullRegInfo := registers;
  GetPacketInfo opcode := Some (mkPacketInfo "Packet" 1 [mkPacketField "FIELD" 1 kUint None 0 0 0xffffffff]);
  GetSharpInfo name := None;
  GetEnumString handle value := None;
  print_float bits := "";
  print_fixed bits := "";
  print_double n radix := ""
|}.

#[global] Instance test_info : Pm4Info | 100 := test_info_of (fun _ => None).

(** A pass with a dispatch, in an IB; a second IB with a dispatch. *)
Definition test_dispatch : Z := make_type7 0x33 1.
Definition test_pass (marker : Z) : list Z := [make_type7 0x65 1; marker].
Definition test_capture : Pm4CaptureData :=
  set_submits [mkSubmit kUniversal kQueueUniversal 0 false [mkIbInfo 4096 4 1 7 false; mkIbInfo 8192 2 1 7 false]]
    new_Pm4CaptureData.
Definition test_capture_memory : MemoryManager :=
  test_memory_of [(4096, test_pass 1 ++ [test_dispatch; 0]); (8192, [test_dispatch; 0])].

#[local] Abbreviation test_creation capture mem := (CreateTrees capture 100 false (new_Creator new_CommandHierarchy) mem).

(** The creation succeeds with a creator that passes a check. *)
Definition created_with (capture : Pm4CaptureData) (mem : MemoryManager) (check : Creator -> bool) : bool :=
  match test_creation capture mem with Done (true, c, _) => check c | _ => false end.

Lemma created_with_inv capture mem check : created_with capture mem check = true ->
  exists c mem', test_creation capture mem = Done (true, c, mem') /\ check c = true.
Proof. unfold created_with. destruct (test_creation capture mem) as [[[[] c] mem']| |]; try done. by exists c, mem'. Qed.

Lemma test_created : created_with test_capture test_capture_memory
  (fun c => bool_decide (m_event_node_indices (tree_nodes (c_tree c)) !! 1%nat = Some 12)) = true.
Proof. vm_compute. reflexivity. Qed.

Lemma hierarchy_typed_witness : exists c mem',
  test_creation test_capture test_capture_memory = Done (true, c, mem') /\ well_formed (c_command_hierarchy (c_tree c)).
Proof.
  destruct (created_with_inv _ _ _ test_created) as (c & mem' & E & _).
  exists c, mem'. split; [exact E|]. exact (hierarchy_typed test_capture 100 false new_CommandHierarchy test_capture_memory c mem' E).
Defined.

Lemma events_numbered_witness : exists c mem',
  test_creation test_capture test_capture_memory = Done (true, c, mem') /\
  m_event_node_indices (tree_nodes (c_tree c)) !! 1%nat = Some 12 /\
  GetEventIndex 12 (c_command_hierarchy (c_tree c)) = 2.
Proof.
  destruct (created_with_inv _ _ _ test_created) as (c & mem' & E & Hk%bool_decide_eq_true_1).
  exists c, mem'. split; [exact E|]. split; [exact Hk|].
  exact (proj1 (proj2 (proj2
    (events_numbered test_capture 100 false new_CommandHierarchy test_capture_memory c mem' 1 12 E Hk)))).
Defined.

Lemma tiles_filtered_witness : markers_differ /\
  exists c', exclude_passes ((RM6_BIN_VISIBILITY, 1) :: concat (tile_passes <$> [(2, 3); (4, 5)])) (new_Creator new_CommandHierarchy)
    = Done ((), c') /\ filters_of c' kBinningAndFirstTilePass = list_to_set [4; 5] ∪ ∅.
Proof.
  assert markers_differ as Hd by done. split; [exact Hd|].
  destruct (tiles_filtered 1 (2, 3) [(4, 5)] (new_Creator new_CommandHierarchy) Hd) as (c' & E & _ & _ & F).
  exists c'. split; [exact E|exact F].
Defined.

(** ** What is not meant

    An IB with a packet that refers to a second IB, and a third one of the submit. *)
Definition two_ibs : Pm4CaptureData :=
  set_submits [mkSubmit kUniversal kQueueUniversal 0 false [mkIbInfo 4096 6 1 7 false; mkIbInfo 12288 2 1 7 false]]
    new_Pm4CaptureData.
Definition two_ibs_memory (opcode : Z) : MemoryManager :=
  test_memory_of [(4096, [test_dispatch; 0; make_type7 opcode 3; 8192; 0; 2]); (8192, [test_dispatch; 0]);
                  (12288, [test_dispatch; 0])].

Definition gives {A} `{EqDecision A} (o : outcome A) (a : A) : bool :=
  match o with Done b => bool_decide (b = a) | _ => false end.

(** A node of a type, its parent in the submit topology and the packet it is a shared
    child of. *)
Definition placed (c : Creator) (node : Z) (type : NodeType) (parent : Z) (parent_type : NodeType) : bool :=
  let h := c_command_hierarchy (c_tree c) in
  gives (GetNodeType node h) type && gives (GetNodeType parent h) parent_type &&
  gives (GetParentNodeIndex node (GetSubmitHierarchyTopology h)) parent.
Definition shared_by (c : Creator) (parent : Z) (packets : list Z) : bool :=
  bool_decide (at_submit (c_shared_children (c_tree c)) !! Z.to_nat parent = Some packets).

Lemma two_ibs_created :
  created_with two_ibs (two_ibs_memory CP_INDIRECT_BUFFER_PFE) (fun c =>
    placed c 2 kIbNode 1 kSubmitNode && placed c 10 kIbNode 2 kIbNode && placed c 14 kIbNode 1 kSubmitNode &&
    shared_by c 1 [3; 6] && shared_by c 6 [11; 15]) = true /\
  created_with two_ibs (two_ibs_memory CP_INDIRECT_BUFFER_CHAIN) (fun c =>
    placed c 2 kIbNode 1 kSubmitNode && placed c 10 kIbNode 2 kIbNode && placed c 14 kIbNode 2 kIbNode) = true.
Proof. split; vm_compute; reflexivity. Qed.

(** An example of how what precedes an IB of a submit misplaces it. With a submit of two IBs, of which
    the first refers to a third one: when it calls it, the packet of the second IB of the
    submit (15) is a shared child of the call's packet (6), as that of the called IB (11)
    is, and not of the submit, as those of the first IB are; when it chains to it, the
    second IB of the submit (14) is a child of the first IB (2) instead of the submit. *)
Theorem later_ibs_misplaced :
  (exists c mem', test_creation two_ibs (two_ibs_memory CP_INDIRECT_BUFFER_PFE) = Done (true, c, mem') /\
     placed c 14 kIbNode 1 kSubmitNode = true /\ shared_by c 1 [3; 6] = true /\ shared_by c 6 [11; 15] = true) /\
  (exists c mem', test_creation two_ibs (two_ibs_memory CP_INDIRECT_BUFFER_CHAIN) = Done (true, c, mem') /\
     placed c 2 kIbNode 1 kSubmitNode = true /\ placed c 14 kIbNode 2 kIbNode = true).
Proof.
  destruct two_ibs_created as [Hcall Hchain]. split.
  - destruct (created_with_inv _ _ _ Hcall) as (c & mem' & E & Hc). exists c, mem'.
    apply andb_true_iff in Hc as [Hc H6]. apply andb_true_iff in Hc as [Hc H1]. apply andb_true_iff in Hc as [_ H14].
    exact (conj E (conj H14 (conj H1 H6))).
  - destruct (created_with_inv _ _ _ Hchain) as (c & mem' & E & Hc). exists c, mem'.
    apply andb_true_iff in Hc as [Hc H14]. apply andb_true_iff in Hc as [H2 _].
    exact (conj E (conj H2 H14)).
Qed.
