(* ===== verification/CreatorTrace.v ===== *)
(** * CreatorTrace: the nodes of submits, IBs and packets

    The callbacks of the creator add to the hierarchy exactly one node for each submit, each
    IB and each packet of type 4 or 7 that they are called with: for a replay of a record
    of [EmulateTrace], these nodes are the record's, in its order. *)

From stdpp Require Import strings.
From S2P Require Import Prelude Wire Memory Pm4 StateTracker Emulate Traversal EmulateSteps EmulateRefine EmulateEnds EmulateTrace CaptureData Topology Hierarchy EventInfo DiveStrings NodeTree PacketNodes HierarchyCreator.

#[local] Open Scope Z_scope.

(** ** The nodes that are shown *)

(** The type, description and other information of a node. *)
Definition NodeEntry : Type := NodeType * string * AuxInfo.

Definition in_frame (e : NodeEntry) : bool :=
  bool_decide (e.1.1 = kSubmitNode) || bool_decide (e.1.1 = kIbNode) || bool_decide (e.1.1 = kPacketNode).

Definition entries (n : Nodes) : list NodeEntry := zip (zip (m_node_type n) (m_description n)) (m_aux_info n).

(** The submits, IBs and packets of a hierarchy, in the order of creation. *)
Definition frame (n : Nodes) : list NodeEntry := filter (fun e => in_frame e = true) (entries n).

(** The nodes [n'] are [n] with [l] added to the frame. *)
Definition extends_frame (l : list NodeEntry) (n n' : Nodes) : Prop :=
  nodes_aligned n -> nodes_aligned n' /\ frame n' = frame n ++ l.

Lemma extends_same n : extends_frame [] n n.
Proof. intros Ha. split; [done|]. by rewrite app_nil_r. Qed.

Lemma extends_trans l1 l2 n1 n2 n3 : extends_frame l1 n1 n2 -> extends_frame l2 n2 n3 -> extends_frame (l1 ++ l2) n1 n3.
Proof. intros E1 E2 Ha. destruct (E1 Ha) as [Ha2 F1]. destruct (E2 Ha2) as [Ha3 F2]. split; [done|]. by rewrite F2, F1, app_assoc. Qed.

Lemma extends_AddNode type desc aux n :
  extends_frame (filter (fun e => in_frame e = true) [(type, desc, aux)]) n (Nodes_AddNode type desc aux n).2.
Proof.
  intros [H1 H2]. cbn. split; [split; cbn; rewrite !length_app; cbn; lia|]. unfold frame, entries. cbn.
  rewrite (zip_with_app _ (m_node_type n)), (zip_with_app _ (zip (m_node_type n) (m_description n))) by (rewrite ?length_zip_with; lia).
  etrans; [apply filter_app|done].
Qed.

(** ** Steps

    [adds l m]: [m] adds [l] to the frame and stays at the level of IBs. *)
Class Framed (St : Type) := {
  tree_in : St -> NodeTree;
  level_in : St -> Z
}.

#[global] Instance Framed_tree : Framed NodeTree := {| tree_in t := t; level_in _ := 0 |}.
#[global] Instance Framed_creator : Framed Creator := {| tree_in := c_tree; level_in := c_cur_ib_level |}.
#[global] Instance Framed_memory {St M} `{Framed St} : Framed (St * M) :=
  {| tree_in s := tree_in (fst s); level_in s := level_in (fst s) |}.

Definition adds {St A} `{Framed St} (l : list NodeEntry) (m : Steps St A) : Prop := forall s a s', m s = Done (a, s') ->
  extends_frame l (tree_nodes (tree_in s)) (tree_nodes (tree_in s')) /\ level_in s' = level_in s.

Section Adds.
Context {St : Type} `{Framed St}.

Lemma adds_ret {A} (a : A) : adds [] (mret a : Steps St A).
Proof. intros s a' s' [= _ <-]. split; [apply extends_same|done]. Qed.

Lemma adds_get : adds [] (get : Steps St St).
Proof. intros s a' s' [= _ <-]. split; [apply extends_same|done]. Qed.

Lemma adds_fuel {A} l : adds l ((fun _ => OutOfFuel) : Steps St A).
Proof. done. Qed.

Lemma adds_checked {A} (o : outcome A) : adds [] (checked o : Steps St A).
Proof. intros s a' s'. unfold checked. destruct o; [|done|done]. intros [= _ <-]. split; [apply extends_same|done]. Qed.

Lemma adds_modify (f : St -> St) : (forall s, tree_nodes (tree_in (f s)) = tree_nodes (tree_in s)) ->
  (forall s, level_in (f s) = level_in s) -> adds [] (modify f).
Proof. intros Hf Hl s a s' [= _ <-]. rewrite Hf, Hl. split; [apply extends_same|done]. Qed.

Lemma adds_bind {A B} l1 l2 (m : Steps St A) (k : A -> Steps St B) :
  adds l1 m -> (forall a, adds l2 (k a)) -> adds (l1 ++ l2) (m ≫= k).
Proof.
  intros Hm Hk s b s'. unfold mbind, Steps_bind. destruct (m s) as [[a s1]| |] eqn:E; [|done|done]. cbn [mbind outcome_bind].
  intros E2. destruct (Hm _ _ _ E) as [F1 L1], (Hk a _ _ _ E2) as [F2 L2]. split; [by eapply extends_trans|congruence].
Qed.

Lemma adds_then {A B} l (m : Steps St A) (k : A -> Steps St B) : adds [] m -> (forall a, adds l (k a)) -> adds l (m ≫= k).
Proof. apply (adds_bind []). Qed.

Lemma adds_first {A B} l (m : Steps St A) (k : A -> Steps St B) : adds l m -> (forall a, adds [] (k a)) -> adds l (m ≫= k).
Proof. intros Hm Hk. rewrite <- (app_nil_r l). by apply adds_bind. Qed.

Lemma adds_each {A} (l : list A) body : (forall i a, adds [] (body i a : Steps St ())) -> forall i, adds [] (each i l body).
Proof. intros Hb. induction l as [|a l IH]; intros i; cbn [each]; [apply adds_ret|]. by apply adds_then. Qed.
End Adds.

Lemma adds_AddNode type desc aux :
  adds (filter (fun e => in_frame e = true) [(type, desc, aux)]) (Creator_AddNode type desc aux).
Proof.
  intros t n t'. unfold Creator_AddNode. destruct (_ <=? _); [done|]. intros [= _ <-]. split; [|done]. apply extends_AddNode.
Qed.

Section Lifts.
Context {M : Type}.

Lemma adds_on_tree {A} l (m : Steps NodeTree A) : adds l m -> adds l (on_tree (M := M) m).
Proof.
  intros Hm [t mem] a [t' mem']. unfold on_tree. cbn [fst snd]. destruct (m t) as [[b t1]| |] eqn:E; [|done|done].
  intros [= _ <- _]. by apply (Hm _ _ _ E).
Qed.

Lemma adds_reading {A} (m : M -> outcome (A * M)) : adds [] (reading m).
Proof.
  intros [t mem] a [t' mem']. unfold reading. cbn [fst snd]. destruct (m mem) as [[b m1]| |]; [|done|done].
  intros [= _ <- _]. split; [apply extends_same|done].
Qed.

Lemma adds_on_nodes {A} l (m : Steps NodeTree A) : adds l m -> adds l (on_nodes m).
Proof.
  intros Hm c a c'. unfold on_nodes. destruct (m (c_tree c)) as [[b t1]| |] eqn:E; [|done|done]. intros [= _ <-].
  split; [|done]. by apply (Hm _ _ _ E).
Qed.

Lemma adds_on_creator {A} l (m : Steps Creator A) : adds l m -> adds l (on_creator (M := M) m).
Proof.
  intros Hm [c mem] a [c' mem']. unfold on_creator. cbn [fst snd]. destruct (m c) as [[b c1]| |] eqn:E; [|done|done].
  intros [= _ <- _]. by apply (Hm _ _ _ E).
Qed.

Lemma adds_parsing {A} l (m : Parsing (M := M) A) : adds l m -> adds l (parsing m).
Proof.
  intros Hm [c mem] a [c' mem']. unfold parsing. cbn [fst snd]. destruct (m (c_tree c, mem)) as [[b [t1 m1]]| |] eqn:E; [|done|done].
  intros [= _ <- _]. split; [|done]. by apply (Hm _ _ _ E).
Qed.

Lemma adds_reads {A} (m : Reads (M := M) A) : adds [] (reads m).
Proof.
  intros [c mem] a [c' mem']. unfold reads. cbn [fst snd]. destruct (m mem) as [[b m1]| |]; [|done|done].
  intros [= _ <- _]. split; [apply extends_same|done].
Qed.
End Lifts.

Create HintDb framing.
#[export] Hint Resolve adds_ret adds_get adds_fuel adds_checked adds_reading adds_reads : framing.
#[export] Hint Extern 1 (adds [] (mret _)) => (apply adds_ret) : framing.
#[export] Hint Extern 1 (adds [] get) => (apply adds_get) : framing.
#[export] Hint Extern 1 (adds [] (Creator_AddNode ?type ?desc ?aux)) => (apply (adds_AddNode type desc aux)) : framing.
#[export] Hint Extern 1 (adds [] (modify _)) => (by apply adds_modify) : framing.

(** Through sequences, loops and cases that add no node of the frame. *)
Ltac framed :=
  repeat first
    [ progress intros
    | solve [auto with framing]
    | apply adds_then
    | apply adds_on_tree
    | apply adds_on_nodes
    | apply adds_on_creator
    | apply adds_parsing
    | apply adds_each
    | case_match ].

(** ** Operations on the nodes *)

Lemma adds_AddChild type p c : adds [] (Creator_AddChild type p c).
Proof. unfold Creator_AddChild. framed. Qed.

Lemma adds_AddSharedChild type p c : adds [] (AddSharedChild type p c).
Proof. unfold AddSharedChild. framed. Qed.

Lemma adds_SetStart type p c : adds [] (SetStartSharedChildrenNodeIndex type p c).
Proof. unfold SetStartSharedChildrenNodeIndex. framed. Qed.

Lemma adds_SetEnd type p c : adds [] (SetEndSharedChildrenNodeIndex type p c).
Proof. unfold SetEndSharedChildrenNodeIndex. framed. Qed.

Lemma adds_SetRoot type p c : adds [] (SetSharedChildRootNodeIndex type p c).
Proof. unfold SetSharedChildRootNodeIndex. framed. Qed.

(** Only the list of events changes. *)
Lemma adds_AppendEventNodeIndex n : adds [] (AppendEventNodeIndex n).
Proof.
  intros t a t' [= _ <-]. split; [|done]. intros Ha. split; [exact Ha|]. by rewrite app_nil_r.
Qed.

Lemma adds_CreateTopologies : adds [] Creator_CreateTopologies.
Proof.
  intros t a t'. unfold Creator_CreateTopologies.
  destruct (create_topology kSubmitTopology t) as [s1| |]; [|done|done]. cbn [mbind outcome_bind].
  destruct (create_topology kAllEventTopology t) as [s2| |]; [|done|done]. cbn [mbind outcome_bind].
  intros [= _ <-]. split; [apply extends_same|done].
Qed.

#[export] Hint Resolve adds_AddChild adds_AddSharedChild adds_SetStart adds_SetEnd adds_SetRoot adds_AppendEventNodeIndex : framing.

(** ** The nodes below a packet *)

Section Packets.
Context `{AdrenoPm4} `{Pm4Info} {M : Type} `{IMemoryManager M}.

#[local] Abbreviation quiet m := (adds (St := NodeTree * M) [] m).

Lemma adds_not_null {A} (o : option A) : quiet (not_null o).
Proof. apply adds_checked. Qed.

Lemma adds_read_dword submit va : quiet (read_dword submit va).
Proof. apply adds_reading. Qed.
Hint Resolve adds_not_null adds_read_dword : framing.

Lemma adds_add_to_both p c : quiet (add_to_both p c).
Proof. unfold add_to_both. framed. Qed.
Hint Resolve adds_add_to_both : framing.

Lemma adds_add_field p desc : quiet (add_field p desc).
Proof. unfold add_field. framed. Qed.
Hint Resolve adds_add_field : framing.

Lemma adds_append_register p reg value : quiet (append_register p reg value).
Proof. unfold append_register, AddRegisterNode. framed. Qed.
Hint Resolve adds_append_register : framing.

Lemma adds_AppendRegNodes_pairs submit va count p : forall fuel dword, quiet (AppendRegNodes_pairs fuel submit va count p dword).
Proof. induction fuel as [|fuel IH]; intros dword; cbn [AppendRegNodes_pairs]; framed. Qed.

Lemma adds_AppendRegNodes_type4 submit va header p : forall fuel offset dword,
  quiet (AppendRegNodes_type4 fuel submit va header p offset dword).
Proof. induction fuel as [|fuel IH]; intros offset dword; cbn [AppendRegNodes_type4]; framed. Qed.

Lemma adds_append_fields submit va count p prefix base : forall fields end_dword,
  quiet (append_fields fields submit va count p prefix base end_dword).
Proof. induction fields as [|f fields IH]; intros end_dword; cbn [append_fields]; framed. Qed.
Hint Resolve adds_append_fields : framing.

Lemma adds_append_array submit va count info p prefix : forall n array end_dword,
  quiet (append_array n array submit va count info p prefix end_dword).
Proof. induction n as [|n IH]; intros array end_dword; cbn [append_array]; framed. Qed.
Hint Resolve adds_append_array : framing.

Lemma adds_AppendPacketFieldNodes submit va count extra info p prefix :
  quiet (AppendPacketFieldNodes submit va count extra info p prefix).
Proof. unfold AppendPacketFieldNodes. framed. Qed.
Hint Resolve adds_AppendPacketFieldNodes adds_AppendRegNodes_pairs adds_AppendRegNodes_type4 : framing.

Lemma adds_constants_row T submit src num : forall n i text, quiet (constants_row n T submit src i num text).
Proof. induction n as [|n IH]; intros i text; cbn [constants_row]; framed. Qed.
Hint Resolve adds_constants_row : framing.

Lemma adds_constants_rows T submit src p num per_row : forall n i, quiet (constants_rows n T submit src p i num per_row).
Proof. induction n as [|n IH]; intros i; cbn [constants_rows]; framed. Qed.
Hint Resolve adds_constants_rows : framing.

Lemma adds_AppendLoadState submit va p tr : quiet (AppendLoadStateExtBufferNode submit va p tr).
Proof. unfold AppendLoadStateExtBufferNode, AddConstantsToPacketNode, AppendSharps. framed. Qed.

Lemma adds_AppendMemRegNodes submit va p : quiet (AppendMemRegNodes submit va p).
Proof. unfold AppendMemRegNodes, AddConstantsToPacketNode. framed. Qed.

(** The node of a packet, with the level of its IB. *)
Definition packet_entry (level va header : Z) : list NodeEntry :=
  if header_type header =? 7 then
    let opcode := type7_opcode header in
    [(kPacketNode, GetOpCodeString opcode +:+ " 0x" +:+ hex header, PacketNode va opcode level)]
  else if header_type header =? 4 then
    [(kPacketNode, "TYPE4 REGWRITE 0x" +:+ hex header, PacketNode va UINT8_MAX level)]
  else [].

Lemma adds_AddPacketNode submit va header level :
  adds (St := NodeTree * M) (packet_entry level va header) (AddPacketNode submit va header level).
Proof.
  unfold AddPacketNode, packet_entry. destruct (header_type header =? 7); [|destruct (header_type header =? 4); [|apply adds_ret]].
  - apply adds_first; [apply adds_on_tree, adds_AddNode|]. framed.
  - apply adds_first; [apply adds_on_tree, adds_AddNode|]. framed.
Qed.
End Packets.

(** ** The callbacks

    Steps that also get to a level, and steps that answer [true]. *)
Definition adds_to {A} (level : Z) (l : list NodeEntry) (m : Steps Creator A) : Prop := forall c a c', m c = Done (a, c') ->
  extends_frame l (tree_nodes (c_tree c)) (tree_nodes (c_tree c')) /\ c_cur_ib_level c' = level.

Lemma adds_to_bind {A B} level l1 l2 (m : Steps Creator A) (k : A -> Steps Creator B) :
  adds l1 m -> (forall a, adds_to level l2 (k a)) -> adds_to level (l1 ++ l2) (m ≫= k).
Proof.
  intros Hm Hk c b c'. unfold mbind, Steps_bind. destruct (m c) as [[a c1]| |] eqn:E; [|done|done]. cbn [mbind outcome_bind].
  intros E2. destruct (Hm _ _ _ E) as [F1 _], (Hk a _ _ _ E2) as [F2 L2]. split; [|done]. by eapply extends_trans.
Qed.

Lemma adds_to_then {A B} level l (m : Steps Creator A) (k : A -> Steps Creator B) :
  adds [] m -> (forall a, adds_to level l (k a)) -> adds_to level l (m ≫= k).
Proof. apply (adds_to_bind level []). Qed.

Lemma adds_to_set {A} level l (f : Creator -> Creator) (k : () -> Steps Creator A) :
  (forall c, tree_nodes (c_tree (f c)) = tree_nodes (c_tree c)) -> (forall c, c_cur_ib_level (f c) = level) ->
  adds l (k ()) -> adds_to level l (modify f ≫= k).
Proof.
  intros Hf Hl Hk c a c' E. destruct (Hk _ _ _ E) as [F L]. cbn [tree_in level_in Framed_creator] in *.
  rewrite Hf in F. by rewrite L, Hl.
Qed.

Definition accepts {St} (m : Steps St bool) : Prop := forall s ok s', m s = Done (ok, s') -> ok = true.

Lemma accepts_ret {St} : accepts (mret true : Steps St bool).
Proof. by intros s ok s' [= <- _]. Qed.

Lemma accepts_bind {St A} (m : Steps St A) (k : A -> Steps St bool) : (forall a, accepts (k a)) -> accepts (m ≫= k).
Proof. intros Hk s ok s'. unfold mbind, Steps_bind. destruct (m s) as [[a s1]| |]; [apply Hk|done..]. Qed.

Ltac accepting := repeat first [progress intros|apply accepts_ret|apply accepts_bind|case_match].

Section Callbacks.
Context `{AdrenoPm4} `{Pm4Info} {M : Type} `{IMemoryManager M} `{StdSort} (m_capture_data : Pm4CaptureData).

#[local] Abbreviation quiet m := (adds (St := Creator) [] m).
#[local] Abbreviation quietly m := (adds (St := Creator * M) [] m).

Lemma adds_push_start type n : quiet (push_start type n).
Proof. unfold push_start. framed. Qed.

Lemma adds_pop_start type : quiet (pop_start type).
Proof. unfold pop_start. framed. Qed.

Lemma adds_set_range type n last : quiet (set_range type n last).
Proof. unfold set_range. framed. Qed.

Lemma adds_set_shared_parent n : quiet (set_shared_parent n).
Proof. unfold set_shared_parent. framed. Qed.

Lemma adds_add_child type p c : quiet (add_child type p c).
Proof. unfold add_child. framed. Qed.

Lemma adds_add_shared_child type p c : quiet (add_shared_child type p c).
Proof. unfold add_shared_child. framed. Qed.

Hint Resolve adds_push_start adds_pop_start adds_set_range adds_set_shared_parent adds_add_child adds_add_shared_child : framing.

Lemma adds_add_ib_field p desc : quiet (add_ib_field p desc).
Proof. unfold add_ib_field. framed. Qed.

Lemma adds_start_ranges p : quiet (start_ranges p).
Proof. unfold start_ranges. framed. Qed.

Lemma adds_link_packet p : quiet (link_packet p).
Proof. unfold link_packet. framed. Qed.

Hint Resolve adds_add_ib_field adds_start_ranges adds_link_packet : framing.

(** The filters are beside the nodes. *)
Lemma adds_exclude node filter : quiet (on_hierarchy (AddToFilterExcludeIndexList node filter)).
Proof. unfold on_hierarchy. apply adds_modify; [by intros c; destruct filter|done]. Qed.

Hint Resolve adds_exclude : framing.

Lemma adds_start_pass marker desc p : quiet (start_pass marker desc p).
Proof. unfold start_pass, end_pass, exclude_pass. framed. Qed.

Lemma adds_get_creator : quietly get_creator.
Proof. unfold get_creator. framed. Qed.

Lemma adds_update_creator f : (forall c, c_tree (f c) = c_tree c) -> (forall c, c_cur_ib_level (f c) = c_cur_ib_level c) ->
  quietly (update_creator f).
Proof. intros Hf Hl. unfold update_creator. apply adds_on_creator, adds_modify; [intros c; cbn; by rewrite Hf|done]. Qed.

Hint Resolve adds_start_pass adds_get_creator : framing.
Hint Extern 1 (adds [] (update_creator _)) => (by apply adds_update_creator) : framing.
Hint Resolve adds_AppendLoadState adds_AppendMemRegNodes : framing.

Lemma adds_CacheSetDrawStateGroupInfo submit va p header : quietly (CacheSetDrawStateGroupInfo submit va p header).
Proof. unfold CacheSetDrawStateGroupInfo. framed. Qed.

Lemma adds_OnEvent submit va opcode header p : quietly (OnEvent submit va opcode header p).
Proof. unfold OnEvent, add_event_node. framed. Qed.

Lemma adds_after_packet_node submit va opcode p : quietly (after_packet_node submit va opcode p).
Proof. unfold after_packet_node, OnSetMarker. framed. Qed.

Hint Resolve adds_CacheSetDrawStateGroupInfo adds_OnEvent adds_after_packet_node : framing.

Lemma Steps_then_inv {St A B} (m : Steps St A) (k : A -> Steps St B) s b s' :
  (m ≫= k) s = Done (b, s') -> exists a s1, m s = Done (a, s1) /\ k a s1 = Done (b, s').
Proof. unfold mbind, Steps_bind. destruct (m s) as [[a s1]| |]; [|done|done]. intros E. by exists a, s1. Qed.

Lemma OnPacket_adds submit ix va header c mem ok c' mem' :
  Creator_OnPacket submit ix va header (c, mem) = Done (ok, (c', mem')) ->
  extends_frame (packet_entry (c_cur_ib_level c) va header) (tree_nodes (c_tree c)) (tree_nodes (c_tree c')) /\
  c_cur_ib_level c' = c_cur_ib_level c /\ ok = true.
Proof.
  unfold Creator_OnPacket. intros (c1 & s1 & [= <- <-] & E)%Steps_then_inv.
  apply Steps_then_inv in E as ([ok1 tracker] & [c1 mem1] & E1 & E). unfold reads in E1. cbn [fst snd] in E1.
  destruct (base_OnPacket submit ix va header (c_state_tracker c) mem) as [[[ok2 t2] mem2]| |] eqn:Eb; [|done|done].
  injection E1 as <- <- <- <-. pose proof (base_OnPacket_accepts _ _ _ _ _ _ _ _ _ Eb) as ->.
  match type of E with ?m _ = _ =>
    assert (adds (packet_entry (c_cur_ib_level c) va header) m) as Ha; [|assert (accepts m) as Hok] end.
  - apply adds_then; [framed|]. intros []. cbn [negb]. unfold packet_entry at 1.
    destruct (negb (header_type header =? 4) && negb (header_type header =? 7)) eqn:Eh.
    + apply andb_true_iff in Eh as [->%negb_true_iff ->%negb_true_iff]. apply adds_ret.
    + apply adds_first; [apply adds_parsing, adds_AddPacketNode|]. framed.
  - apply accepts_bind. intros []. cbn [negb]. accepting.
  - destruct (Ha _ _ _ E) as [Hf Hl]. split; [exact Hf|]. split; [exact Hl|]. by apply (Hok _ _ _ E).
Qed.

(** The node of an IB. *)
Definition ib_entry (ix : Z) (info : IndirectBufferInfo) (type : IbType) : list NodeEntry :=
  [(kIbNode, ib_string ix info type, IbNode ix type (info_size_in_dwords info) (negb (info_skip info)))].

Lemma OnIbStart_adds submit ix info type : adds_to (info_ib_level info) (ib_entry ix info type) (Creator_OnIbStart submit ix info type).
Proof.
  unfold Creator_OnIbStart. apply adds_to_then; [framed|]. intros c. apply adds_to_then; [framed|]. intros [ok tracker].
  apply adds_to_set; [done|done|]. do 3 (apply adds_then; [framed|]; intros []). cbv zeta.
  apply adds_first; [apply adds_on_nodes, adds_AddNode|]. framed.
Qed.

Lemma OnIbEnd_adds submit ix info : adds_to (info_ib_level info) [] (Creator_OnIbEnd submit ix info).
Proof.
  unfold Creator_OnIbEnd. apply adds_to_then; [framed|]. intros c. apply adds_to_then; [framed|]. intros [ok tracker].
  do 2 (apply adds_to_then; [framed|]; intros []). apply adds_to_then; [framed|]. intros c1.
  apply adds_to_then; [framed|]. intros [ibs starts]. apply adds_to_then; [framed|]. intros ibs'.
  apply adds_to_set; [done|done|framed].
Qed.

Lemma OnIbStart_accepted submit ix info type : accepts (Creator_OnIbStart submit ix info type).
Proof. unfold Creator_OnIbStart. accepting. Qed.

Lemma OnIbEnd_accepted submit ix info : accepts (Creator_OnIbEnd submit ix info).
Proof. unfold Creator_OnIbEnd. accepting. Qed.

(** The node of a submit, whose name needs its engine and queue. *)
Definition submit_entry (submit : Z) (info : SubmitInfo) : list NodeEntry :=
  [(kSubmitNode, match submit_string submit info with Done desc => desc | _ => "" end,
    SubmitNode (m_engine_type info) submit)].

Lemma OnSubmitStart_adds submit info : adds_to 1 (submit_entry submit info) (Creator_OnSubmitStart submit info).
Proof.
  unfold Creator_OnSubmitStart, submit_entry. destruct (submit_string submit info) as [desc| |]; [|done|done].
  intros c a c' E. apply Steps_then_inv in E as (desc' & c1 & [= <- <-] & E).
  match type of E with ?m _ = _ => assert (adds_to 1 ([(kSubmitNode, desc, SubmitNode (m_engine_type info) submit)] ++ []) m) as Ha end.
  - apply adds_to_bind; [apply adds_on_nodes, adds_AddNode|]. intros n. do 4 (apply adds_to_then; [framed|]; intros []).
    apply adds_to_set; [done|done|framed].
  - by apply (Ha _ _ _ E).
Qed.

Lemma checked_inv {St A} (o : outcome A) (s : St) a s' : checked o s = Done (a, s') -> s' = s.
Proof. unfold checked. destruct o; [|done|done]. by intros [= _ <-]. Qed.

Lemma adds_sort_submit_children : quiet sort_submit_children.
Proof.
  intros c a c' E. unfold sort_submit_children in E. apply Steps_then_inv in E as (c1 & c2 & [= <- <-] & E).
  apply Steps_then_inv in E as (nodes & c1 & ->%checked_inv & E). apply Steps_then_inv in E as (children & c1 & ->%checked_inv & E).
  injection E as _ <-. split; [apply extends_same|done].
Qed.

Lemma OnSubmitEnd_adds submit info : quiet (Creator_OnSubmitEnd m_capture_data submit info).
Proof. unfold Creator_OnSubmitEnd. apply adds_then; [apply adds_sort_submit_children|]. unfold add_present. framed. Qed.

(** ** Replays *)

(** What an occurrence adds at a level, and the level behind it. *)
Definition entries_of (level : Z) (o : occurrence) : list NodeEntry :=
  match o with
  | SubmitStarted submit info => submit_entry submit info
  | IbStarted _ ix info type => ib_entry ix info type
  | PacketSeen _ _ va header => packet_entry level va header
  | IbEnded _ _ _ | SubmitEnded _ _ => []
  end.

Definition level_after (level : Z) (o : occurrence) : Z :=
  match o with
  | SubmitStarted _ _ => 1
  | IbStarted _ _ info _ | IbEnded _ _ info => info_ib_level info
  | PacketSeen _ _ _ _ | SubmitEnded _ _ => level
  end.

(** The submits, IBs and packets of a record. *)
Fixpoint frame_of (level : Z) (log : list occurrence) : list NodeEntry :=
  match log with
  | [] => []
  | o :: log => entries_of level o ++ frame_of (level_after level o) log
  end.

Lemma frame_of_snoc log : forall level o, frame_of level (log ++ [o]) = frame_of level log ++ entries_of (foldl level_after level log) o.
Proof.
  induction log as [|o' log IH]; intros level o; cbn [frame_of foldl app]; [by rewrite app_nil_r|]. by rewrite IH, app_assoc.
Qed.

#[local] Instance creating_nodes : EmulateCallbacks (option Creator) M := creator_callbacks m_capture_data.

#[export] Instance creating_accepts : CallbacksAccept (option Creator) M.
Proof.
  split.
  - intros submit ix info type [c|] ok c'; [|done]. cbn. destruct (Creator_OnIbStart submit ix info type c) as [[ok1 c1]| |] eqn:E; [|done|done].
    intros [= <- _]. by apply (OnIbStart_accepted _ _ _ _ _ _ _ E).
  - intros submit ix info [c|] ok c'; [|done]. cbn. destruct (Creator_OnIbEnd submit ix info c) as [[ok1 c1]| |] eqn:E; [|done|done].
    intros [= <- _]. by apply (OnIbEnd_accepted _ _ _ _ _ _ E).
  - intros submit ix va header [c|] mem ok c' mem'; [|done]. cbn.
    destruct (Creator_OnPacket submit ix va header (c, mem)) as [[ok1 [c1 mem1]]| |] eqn:E; [|done|done].
    intros [= <- _ _]. by apply (OnPacket_adds _ _ _ _ _ _ _ _ _ E).
Qed.

(** [c] has the frame of [c0] and of the record. *)
Definition framed_by (c0 : Creator) (log : list occurrence) (c : Creator) : Prop :=
  extends_frame (frame_of (c_cur_ib_level c0) log) (tree_nodes (c_tree c0)) (tree_nodes (c_tree c)) /\
  c_cur_ib_level c = foldl level_after (c_cur_ib_level c0) log.

Lemma framed_by_snoc c0 log c o c' : framed_by c0 log c ->
  extends_frame (entries_of (c_cur_ib_level c) o) (tree_nodes (c_tree c)) (tree_nodes (c_tree c')) ->
  c_cur_ib_level c' = level_after (c_cur_ib_level c) o -> framed_by c0 (log ++ [o]) c'.
Proof.
  intros [Hf Hl] Hf' Hl'. split; [|by rewrite foldl_snoc, <- Hl]. rewrite frame_of_snoc, <- Hl. by eapply extends_trans.
Qed.

Lemma replay_frame `{!MemoryLaws M} (mem : M) c0 log o : replays mem (Some c0) log o ->
  match o with Some c => framed_by c0 log c | None => True end.
Proof.
  induction 1 as [|log o c1 c2 _ IH Ho]; [split; [apply extends_same|done]|].
  destruct c1 as [c1|], o as [submit info|submit ix info type|submit ix va header|submit ix info|submit info];
    cbn [responds] in Ho; try (by subst c2); try discriminate Ho; try (by destruct Ho as (_ & _ & ? & ? & _ & Ho)).
  - subst c2. cbn. unfold survived. cbn. destruct (Creator_OnSubmitStart submit info c1) as [[a c]| |] eqn:E; [|done|done].
    destruct (OnSubmitStart_adds _ _ _ _ _ E) as [Hf Hl]. by apply (framed_by_snoc _ _ c1).
  - cbn in Ho. destruct (Creator_OnIbStart submit ix info type c1) as [[ok c]| |] eqn:E; [|done|done]. injection Ho as _ <-.
    destruct (OnIbStart_adds _ _ _ _ _ _ _ E) as [Hf Hl]. by apply (framed_by_snoc _ _ c1).
  - destruct Ho as (_ & _ & mem1 & mem2 & _ & Ho). cbn in Ho.
    destruct (Creator_OnPacket submit ix va header (c1, mem1)) as [[ok [c mem3]]| |] eqn:E; [|done|done]. injection Ho as _ <- _.
    destruct (OnPacket_adds _ _ _ _ _ _ _ _ _ E) as (Hf & Hl & _). by apply (framed_by_snoc _ _ c1).
  - cbn in Ho. destruct (Creator_OnIbEnd submit ix info c1) as [[ok c]| |] eqn:E; [|done|done]. injection Ho as _ <-.
    destruct (OnIbEnd_adds _ _ _ _ _ _ E) as [Hf Hl]. by apply (framed_by_snoc _ _ c1).
  - subst c2. cbn. unfold survived. cbn. destruct (Creator_OnSubmitEnd m_capture_data submit info c1) as [[a c]| |] eqn:E; [|done|done].
    destruct (OnSubmitEnd_adds _ _ _ _ _ E) as [Hf Hl]. by apply (framed_by_snoc _ _ c1).
Qed.
End Callbacks.
