(* ===== verification/CreatorEnds.v ===== *)
(** * CreatorEnds: the hierarchy of every well-formed capture is created to an end

    The callbacks of the creator end and leave the captured memory as it is, so that
    [EmulateEnds] applies to the emulation that drives them; and what [CreateTrees]
    answers for a capture of well-formed submits. *)

From stdpp Require Import strings.
From S2P Require Import Prelude Wire Memory Pm4 StateTracker Emulate EmulateSteps EmulateRefine EmulateEnds EmulateTrace CaptureData Topology Hierarchy EventInfo DiveStrings NodeTree PacketNodes HierarchyCreator CreatorTypes EmulateKeeps CreatorTrees CreatorTrace.

#[local] Open Scope Z_scope.

(** ** Steps that end

    [R] relates states to later ones, and a state that is good to itself. [settles R m]:
    from a good state [m] ends in one that [R] relates to it, or leaves an array. *)
Class Stays {St : Type} (R : relation St) := {
  stays_trans :: Transitive R;
  stays_good s s' : R s s' -> R s' s'
}.

Section Settles.
Context {St : Type} (R : relation St) `{!Stays R}.

Definition settles {A} (m : Steps St A) : Prop := forall s, R s s -> wp True m (fun _ s' => R s s') s.

(** With a result that satisfies [Q]. *)
Definition settles_to {A} (Q : A -> Prop) (m : Steps St A) : Prop :=
  forall s, R s s -> wp True m (fun a s' => R s s' /\ Q a) s.

Lemma settles_any {A} (m : Steps St A) : settles m <-> settles_to (fun _ => True) m.
Proof. split; intros Hm s Hs; (eapply wp_mono; [by apply Hm|]); [done|]. by intros a s' [H _]. Qed.

Lemma settles_to_ret {A} (Q : A -> Prop) a : Q a -> settles_to Q (mret a).
Proof. intros HQ s Hs. by apply wp_ret. Qed.

Lemma settles_to_bind_to {A B} P Q (m : Steps St A) (k : A -> Steps St B) :
  settles_to P m -> (forall a, P a -> settles_to Q (k a)) -> settles_to Q (m ≫= k).
Proof.
  intros Hm Hk s Hs. apply wp_bind. eapply wp_mono; [by apply Hm|]. intros a s1 [H1 HP].
  eapply wp_mono; [by eapply Hk, stays_good|]. intros b s2 [H2 HQ]. split; [by transitivity s1|done].
Qed.

Lemma settles_to_bind {A B} Q (m : Steps St A) (k : A -> Steps St B) :
  settles m -> (forall a, settles_to Q (k a)) -> settles_to Q (m ≫= k).
Proof. intros Hm%settles_any Hk. eapply settles_to_bind_to; [done|auto]. Qed.

Lemma settles_bind_to {A B} Q (m : Steps St A) (k : A -> Steps St B) :
  settles_to Q m -> (forall a, Q a -> settles (k a)) -> settles (m ≫= k).
Proof. intros Hm Hk. apply settles_any. eapply settles_to_bind_to; [done|]. intros a Ha. by apply settles_any, Hk. Qed.

Lemma settles_ret {A} (a : A) : settles (mret a).
Proof. by apply settles_any, settles_to_ret. Qed.

Lemma settles_bind {A B} (m : Steps St A) (k : A -> Steps St B) : settles m -> (forall a, settles (k a)) -> settles (m ≫= k).
Proof. intros Hm%settles_any Hk. eapply settles_bind_to; [done|auto]. Qed.

Lemma settles_each {A} (l : list A) body : (forall i a, settles (body i a)) -> forall i, settles (each i l body).
Proof. intros Hb. induction l as [|a l IH]; intros i; cbn [each]; [apply settles_ret|]. by apply settles_bind. Qed.

Lemma settles_checked {A} (o : outcome A) : o <> OutOfFuel -> settles (checked o).
Proof. intros Ho s Hs. apply wp_checked. by destruct o. Qed.

Lemma settles_get : settles get.
Proof. intros s Hs. by apply wp_get. Qed.
End Settles.

(** Of the nodes and the creator's state, only that operations on them end. *)
#[global] Instance always_stays {St} : Stays (fun _ _ : St => True).
Proof. by split. Qed.

#[local] Abbreviation ends_always := (settles (fun _ _ => True)).

Lemma ends_modify {St} (f : St -> St) : ends_always (modify f).
Proof. intros s _. by apply wp_modify. Qed.

(** *** Memory *)

Section Memories.
Context {M : Type} `{MemoryLaws M}.

(** The captured bytes stay; a memory that is good is seen as itself. *)
Definition memory_kept {St} (memory : St -> M) : relation St := fun s s' => same_view (memory s) (memory s').

#[global] Instance memory_kept_stays {St} (memory : St -> M) : Stays (memory_kept memory).
Proof.
  split; [intros s1 s2 s3; apply same_view_trans|]. intros s s' [Hs _]. by apply same_view_refl.
Qed.

(** What reads the memory, and an operation with a memory beside it. *)
#[local] Abbreviation reads_on := (settles (memory_kept (fun mem : M => mem))).
#[local] Abbreviation keeps_memory := (settles (memory_kept snd)).

Lemma reads_retrieve n k submit va : reads_on (retrieve n k submit va).
Proof.
  intros mem Hm. unfold wp, retrieve. destruct (n <? k)%nat; [done|].
  destruct (memory_RetrieveMemoryData _ _ _ _) as [[ok buf] mem'] eqn:E. eapply retrieve_view; [apply Hm|done].
Qed.

Lemma reads_retrieve_pair submit va :
  reads_on (fun mem => '(reg, value, mem) ← retrieve_pair submit va mem; Done (reg, value, mem)).
Proof.
  intros mem Hm. unfold wp, retrieve_pair. pose proof (reads_retrieve 8 8 submit va mem Hm) as Hr. unfold wp in Hr.
  destruct (retrieve 8 8 submit va mem) as [[b mem']| |]; exact Hr.
Qed.

Lemma reads_retrieve_bytes submit va buffer : reads_on (fun mem =>
  let '(ok, bytes, mem) := memory_RetrieveMemoryData submit va buffer mem in Done (ok, bytes, mem)).
Proof.
  intros mem Hm. unfold wp. destruct (memory_RetrieveMemoryData _ _ _ _) as [[ok buf] mem'] eqn:E. eapply retrieve_view; [apply Hm|done].
Qed.

Lemma reads_retrieve_dword submit va : reads_on (fun mem => Done (retrieve_dword submit va mem)).
Proof.
  intros mem Hm. unfold wp, retrieve_dword. destruct (memory_RetrieveMemoryData _ _ _ _) as [[ok buf] mem'] eqn:E. eapply retrieve_view; [apply Hm|done].
Qed.

Lemma keeps_on_tree {A} (m : Steps NodeTree A) : ends_always m -> keeps_memory (on_tree (M := M) m).
Proof.
  intros Hm [t mem] Hg. specialize (Hm t I). unfold wp in *. unfold on_tree. cbn [fst snd].
  by destruct (m t) as [[a t']| |].
Qed.

Lemma keeps_reading {A} (m : M -> outcome (A * M)) : reads_on m -> keeps_memory (reading m).
Proof.
  intros Hm [t mem] Hg. specialize (Hm mem Hg). unfold wp in *. unfold reading. cbn [fst snd].
  by destruct (m mem) as [[a mem']| |].
Qed.
End Memories.

#[local] Abbreviation reads_on := (settles (memory_kept (fun mem => mem))).
#[local] Abbreviation keeps_memory := (settles (memory_kept snd)).

Create HintDb settling.
#[export] Hint Extern 1 (settles _ (mret _)) => (apply settles_ret) : settling.
#[export] Hint Extern 1 (settles _ get) => (apply settles_get) : settling.
#[export] Hint Resolve ends_modify reads_retrieve reads_retrieve_pair reads_retrieve_bytes
  reads_retrieve_dword keeps_on_tree keeps_reading : settling.

(** Through sequences, loops and cases. *)
Ltac settle :=
  repeat first
    [ progress intros
    | apply settles_bind; [apply _|..]
    | solve [auto with settling]
    | apply keeps_on_tree
    | apply keeps_reading
    | apply settles_each; [apply _|]
    | case_match ].

(** ** Reading packets *)

Section Readers.
Context `{AdrenoPm4} `{Pm4Info} {M : Type} `{MemoryLaws M}.

Lemma reads_given {A} (o : outcome A) : o <> OutOfFuel -> settles (memory_kept (fun mem : M => mem)) (given o).
Proof. intros Ho mem Hm. unfold wp, given. by destruct o. Qed.

Hint Resolve reads_given IsRegSet_current_in_fuel GetRegValue_in_fuel : settling.

Lemma reads_GetSyncType submit addr opcode tr : settles (memory_kept (fun mem : M => mem)) (GetSyncType submit addr opcode tr).
Proof. unfold GetSyncType, read_struct. settle. Qed.

Hint Resolve reads_GetSyncType : settling.

Lemma reads_IsEvent submit addr opcode tr : settles (memory_kept (fun mem : M => mem)) (IsEvent submit addr opcode tr).
Proof. unfold IsEvent. settle. Qed.

Lemma reads_GetEventType submit addr opcode tr : settles (memory_kept (fun mem : M => mem)) (GetEventType submit addr opcode tr).
Proof. unfold GetEventType. settle. Qed.

Hint Resolve event_write_string_in_fuel : settling.

Lemma reads_GetEventString submit va header tr : settles (memory_kept (fun mem : M => mem)) (GetEventString submit va header tr).
Proof. unfold GetEventString, draw_indirect_multi_string, read_struct, read_dwords. settle. Qed.

Lemma reads_ShouldIgnore submit va header :
  settles (memory_kept (fun mem : M => mem)) (ShouldIgnoreEventDuringCorrelation submit va header).
Proof. unfold ShouldIgnoreEventDuringCorrelation, read_dwords. settle. Qed.
End Readers.
#[export] Hint Resolve reads_given IsRegSet_current_in_fuel GetRegValue_in_fuel reads_IsEvent reads_GetEventType reads_GetEventString
  reads_ShouldIgnore : settling.

(** ** Nodes *)

Section Trees.
Lemma ends_checked {St A} (o : outcome A) : o <> OutOfFuel -> settles (St := St) (fun _ _ => True) (checked o).
Proof. apply settles_checked. Qed.

Lemma vec_push_in_fuel {A} i (a : A) v : vec_push i a v <> OutOfFuel.
Proof. unfold vec_push. apply bind_in_fuel; [apply vec_at_in_fuel|]. intros x. apply vec_set_in_fuel. Qed.

Hint Resolve ends_checked vec_at_in_fuel vec_set_in_fuel vec_push_in_fuel : settling.

Lemma ends_AddNode type desc aux : ends_always (Creator_AddNode type desc aux).
Proof. intros t _. unfold wp, Creator_AddNode. by destruct (_ <=? _). Qed.
Lemma ends_AppendEventNodeIndex i : ends_always (AppendEventNodeIndex i).
Proof. unfold AppendEventNodeIndex. settle. Qed.
Lemma ends_AddChild type p c : ends_always (Creator_AddChild type p c).
Proof. unfold Creator_AddChild. settle. Qed.
Lemma ends_AddSharedChild type p c : ends_always (AddSharedChild type p c).
Proof. unfold AddSharedChild. settle. Qed.
Lemma ends_SetStart type p c : ends_always (SetStartSharedChildrenNodeIndex type p c).
Proof. unfold SetStartSharedChildrenNodeIndex. settle. Qed.
Lemma ends_SetEnd type p c : ends_always (SetEndSharedChildrenNodeIndex type p c).
Proof. unfold SetEndSharedChildrenNodeIndex. settle. Qed.
Lemma ends_SetRoot type p c : ends_always (SetSharedChildRootNodeIndex type p c).
Proof. unfold SetSharedChildRootNodeIndex. settle. Qed.
End Trees.
#[export] Hint Resolve ends_checked vec_at_in_fuel vec_set_in_fuel vec_push_in_fuel ends_AddNode ends_AppendEventNodeIndex
  ends_AddChild ends_AddSharedChild ends_SetStart ends_SetEnd ends_SetRoot : settling.

(** ** Nodes of packets *)

Section PacketNodesEnd.
Context `{AdrenoPm4} `{Pm4Info} {M : Type} `{MemoryLaws M}.

#[local] Abbreviation keeps := (settles (memory_kept (M := M) snd)).

Lemma keeps_checked {A} (o : outcome A) : o <> OutOfFuel -> keeps (checked (St := NodeTree * M) o).
Proof. apply settles_checked. Qed.

Lemma keeps_not_null {A} (o : option A) : keeps (not_null (M := M) o).
Proof. apply keeps_checked. by destruct o. Qed.

Lemma keeps_read_dword submit va : keeps (read_dword (M := M) submit va).
Proof. unfold read_dword. settle. Qed.

Hint Resolve keeps_checked keeps_not_null keeps_read_dword : settling.

Lemma keeps_add_to_both p c : keeps (add_to_both (M := M) p c).
Proof. unfold add_to_both. settle. Qed.
Hint Resolve keeps_add_to_both : settling.

Lemma keeps_add_field p desc : keeps (add_field (M := M) p desc).
Proof. unfold add_field. settle. Qed.
Hint Resolve keeps_add_field : settling.

Lemma keeps_append_register p reg value : keeps (append_register (M := M) p reg value).
Proof. unfold append_register, AddRegisterNode. settle. Qed.
Hint Resolve keeps_append_register : settling.

Lemma keeps_AppendRegNodes_pairs submit va count p : forall fuel dword, (Z.to_nat (count - dword) <= fuel)%nat ->
  keeps (AppendRegNodes_pairs (M := M) fuel submit va count p dword).
Proof.
  induction fuel as [|fuel IH]; intros dword Hf; cbn [AppendRegNodes_pairs];
    (destruct (Z.ltb_spec dword count); [|auto with settling]); [lia|].
  apply settles_bind; [apply _|settle|]. intros [reg value]. cbv zeta.
  apply (settles_bind_to _ (fun r : Z * Z => dword + 2 <= r.1)).
  - destruct (ri_is_64_bit _); [|by apply settles_to_ret]. apply settles_to_bind; [apply _|settle|].
    intros [new_reg new_value]. destruct (new_reg =? _); apply settles_to_ret; cbn; lia.
  - intros [dword' v] Hd. cbn [fst] in Hd. apply settles_bind; [apply _|auto with settling|]. intros []. apply IH. lia.
Qed.

Lemma keeps_AppendRegNodes_type4 submit va header p : forall fuel offset dword,
  (Z.to_nat (type4_count header - dword) <= fuel)%nat ->
  keeps (AppendRegNodes_type4 (M := M) fuel submit va header p offset dword).
Proof.
  induction fuel as [|fuel IH]; intros offset dword Hf; cbn [AppendRegNodes_type4];
    (destruct (Z.ltb_spec dword (type4_count header)); [|auto with settling]); [lia|].
  apply settles_bind; [apply _|settle|]. intros bytes. apply settles_bind; [apply _|auto with settling|].
  intros []. apply IH. destruct (ri_is_64_bit _); lia.
Qed.

Lemma keeps_append_fields submit va count p prefix base : forall fields end_dword,
  keeps (append_fields (M := M) fields submit va count p prefix base end_dword).
Proof. induction fields as [|f fields IH]; intros end_dword; cbn [append_fields]; settle. Qed.
Hint Resolve keeps_append_fields : settling.

Lemma keeps_append_array submit va count info p prefix : forall n array end_dword,
  keeps (append_array (M := M) n array submit va count info p prefix end_dword).
Proof. induction n as [|n IH]; intros array end_dword; cbn [append_array]; settle. Qed.
Hint Resolve keeps_append_array : settling.

Lemma keeps_AppendPacketFieldNodes submit va count extra info p prefix :
  keeps (AppendPacketFieldNodes (M := M) submit va count extra info p prefix).
Proof. unfold AppendPacketFieldNodes. settle. Qed.
Hint Resolve keeps_AppendPacketFieldNodes : settling.

Lemma keeps_constants_row T submit src num : forall n i text, keeps (constants_row (M := M) n T submit src i num text).
Proof. induction n as [|n IH]; intros i text; cbn [constants_row]; settle. Qed.
Hint Resolve keeps_constants_row : settling.

Lemma keeps_constants_rows T submit src p num per_row : forall n i,
  keeps (constants_rows (M := M) n T submit src p i num per_row).
Proof. induction n as [|n IH]; intros i; cbn [constants_rows]; settle. Qed.
Hint Resolve keeps_constants_rows : settling.

Lemma keeps_AppendSharps submit src p num name size : keeps (AppendSharps (M := M) submit src p num name size).
Proof. unfold AppendSharps. settle. Qed.
Hint Resolve keeps_AppendSharps state_source_in_fuel : settling.

Lemma keeps_AppendLoadState submit va p tr : keeps (AppendLoadStateExtBufferNode (M := M) submit va p tr).
Proof. unfold AppendLoadStateExtBufferNode, AddConstantsToPacketNode, read_struct. settle. Qed.

Lemma keeps_AppendMemRegNodes submit va p : keeps (AppendMemRegNodes (M := M) submit va p).
Proof. unfold AppendMemRegNodes, AddConstantsToPacketNode, read_struct. settle. Qed.

Lemma keeps_AddPacketNode submit va header level : keeps (AddPacketNode (M := M) submit va header level).
Proof.
  assert (forall p, keeps (AppendRegNodes_pairs (M := M) (Z.to_nat (type7_count header)) submit (wrap 64 (va + 4))
    (type7_count header) p 0)) as Hp by (intros p; apply keeps_AppendRegNodes_pairs; lia).
  assert (forall p, keeps (AppendRegNodes_type4 (M := M) (Z.to_nat (type4_count header)) submit va header p 0 0)) as H4
    by (intros p; apply keeps_AppendRegNodes_type4; lia).
  unfold AddPacketNode. settle.
Qed.
End PacketNodesEnd.
#[export] Hint Resolve keeps_AppendLoadState keeps_AppendMemRegNodes keeps_AddPacketNode : settling.

(** ** The callbacks *)

Section CallbacksEnd.
Context `{AdrenoPm4} `{!AdrenoSizes} `{Pm4Info} {M : Type} `{MemoryLaws M} `{StdSort} (m_capture_data : Pm4CaptureData).

Lemma ends_on_nodes {A} (m : Steps NodeTree A) : ends_always m -> ends_always (on_nodes m).
Proof.
  intros Hm c _. specialize (Hm (c_tree c) I). unfold wp, on_nodes in *. by destruct (m (c_tree c)) as [[a t]| |].
Qed.

Lemma base_OnIbEnd_in_fuel submit ix info tr : base_OnIbEnd submit ix info tr <> OutOfFuel.
Proof. unfold base_OnIbEnd. by destruct (PopEnableMask tr). Qed.

Hint Resolve ends_on_nodes back_in_fuel pop_back_in_fuel ib_parent_in_fuel pop_chains_in_fuel base_OnIbEnd_in_fuel
  cache_groups_in_fuel : settling.

Lemma ends_OnIbStart submit ix info type : ends_always (Creator_OnIbStart submit ix info type).
Proof. unfold Creator_OnIbStart, add_ib_field, set_shared_parent, add_child, base_OnIbStart. settle. Qed.

Lemma ends_OnIbEnd submit ix info : ends_always (Creator_OnIbEnd submit ix info).
Proof. unfold Creator_OnIbEnd, set_range, pop_start. settle. Qed.

#[local] Abbreviation keeps := (settles (memory_kept (M := M) snd)).

Lemma keeps_on_creator {A} (m : Steps Creator A) : ends_always m -> keeps (on_creator m).
Proof.
  intros Hm [c mem] Hg. specialize (Hm c I). unfold wp, on_creator in *. cbn [fst snd].
  by destruct (m c) as [[a c']| |].
Qed.

Lemma keeps_parsing {A} (m : Parsing A) : keeps m -> settles (memory_kept snd) (parsing m).
Proof.
  intros Hm [c mem] Hg. specialize (Hm (c_tree c, mem) Hg). unfold wp, parsing in *. cbn [fst snd].
  by destruct (m (c_tree c, mem)) as [[a [t mem']]| |].
Qed.

Lemma keeps_reads {A} (m : Reads A) : settles (memory_kept (fun mem => mem)) m -> settles (St := Creator * M) (memory_kept snd) (reads m).
Proof.
  intros Hm [c mem] Hg. specialize (Hm mem Hg). unfold wp, reads in *. cbn [fst snd]. by destruct (m mem) as [[a mem']| |].
Qed.

Hint Resolve keeps_on_creator keeps_parsing keeps_reads : settling.

Lemma keeps_get_creator : settles (St := Creator * M) (memory_kept snd) get_creator.
Proof. unfold get_creator. settle. Qed.
Lemma keeps_update_creator f : settles (St := Creator * M) (memory_kept snd) (update_creator f).
Proof. unfold update_creator. settle. Qed.

Hint Resolve keeps_get_creator keeps_update_creator : settling.

Lemma ends_pass marker desc p : ends_always (start_pass marker desc p).
Proof. unfold start_pass, end_pass, exclude_pass, on_hierarchy, add_child, push_start, set_range, pop_start. settle. Qed.

Lemma ends_start_ranges p : ends_always (start_ranges p).
Proof. unfold start_ranges, push_start. settle. Qed.

Lemma ends_add_shared_child type p c : ends_always (add_shared_child type p c).
Proof. unfold add_shared_child. settle. Qed.

Lemma ends_link_packet p : ends_always (link_packet p).
Proof. unfold link_packet, add_shared_child. settle. Qed.

Lemma ends_set_range type p last : ends_always (set_range type p last).
Proof. unfold set_range. settle. Qed.

Lemma ends_pop_start type : ends_always (pop_start type).
Proof. unfold pop_start. settle. Qed.

Lemma ends_add_child type p c : ends_always (add_child type p c).
Proof. unfold add_child. settle. Qed.

Hint Resolve ends_pass ends_start_ranges ends_add_shared_child ends_link_packet ends_set_range ends_pop_start
  ends_add_child : settling.

Lemma keeps_CacheSetDrawStateGroupInfo submit va p header :
  settles (St := Creator * M) (memory_kept snd) (CacheSetDrawStateGroupInfo submit va p header).
Proof. unfold CacheSetDrawStateGroupInfo. settle. Qed.

Lemma keeps_OnEvent submit va opcode header p :
  settles (St := Creator * M) (memory_kept snd) (OnEvent submit va opcode header p).
Proof. unfold OnEvent, add_event_node. settle. Qed.

Lemma keeps_after_packet_node submit va opcode p :
  settles (St := Creator * M) (memory_kept snd) (after_packet_node submit va opcode p).
Proof. unfold after_packet_node, OnSetMarker. settle. Qed.

Hint Resolve keeps_CacheSetDrawStateGroupInfo keeps_OnEvent keeps_after_packet_node : settling.

Lemma keeps_OnPacket submit ix va header : 0 <= va -> va + 2 ^ 18 < 2 ^ 64 ->
  settles (St := Creator * M) (memory_kept snd) (Creator_OnPacket submit ix va header).
Proof.
  intros Hva Hend.
  assert (forall tr, settles (memory_kept (fun mem : M => mem)) (fun mem =>
    '(ok, tracker, mem) ← base_OnPacket submit ix va header tr mem; Done (ok, tracker, mem))) as Hbase.
  { intros tr mem [Hm _]. unfold wp, base_OnPacket, memory_kept.
    pose proof (Tracker_OnPacket_ends submit va header tr mem Hm Hva Hend) as Ht.
    by destruct (Tracker_OnPacket submit va header tr mem) as [[[ok tr'] mem']| |]. }
  assert (forall o : bool, settles (St := Creator * M) (memory_kept snd) (mret o)) as Hret by (intros o; apply settles_ret).
  unfold Creator_OnPacket. apply settles_bind; [apply _|auto with settling|]. intros c.
  apply settles_bind; [apply _|apply keeps_reads, Hbase|]. intros [ok tr]. apply settles_bind; [apply _|auto with settling|].
  intros _. destruct (negb ok); [done|]. destruct (_ && _); [done|].
  do 4 (apply settles_bind; [apply _|auto with settling|intros ?]).
  apply settles_bind; [apply _|destruct (_ =? _); auto with settling|]. intros _.
  do 2 (apply settles_bind; [apply _|auto with settling|intros ?]).
  apply settles_bind; [apply _|case_match; auto with settling|]. intros _.
  apply settles_bind; [apply _|auto with settling|]. intros c2.
  apply settles_bind; [apply _|case_match; auto with settling|]. intros _.
  by apply settles_bind; [apply _|auto with settling|].
Qed.

#[local] Instance creating : EmulateCallbacks (option Creator) M := creator_callbacks m_capture_data.
#[local] Existing Instance creator_invariant.

#[global] Instance creator_laws : CallbackLaws (option Creator) M.
Proof.
  split.
  - intros submit ix info type [c|]; [|done]. cbn. pose proof (ends_OnIbStart submit ix info type c I) as Hc. unfold wp in Hc.
    by destruct (Creator_OnIbStart submit ix info type c) as [[ok c']| |].
  - intros submit ix info [c|]; [|done]. cbn. pose proof (ends_OnIbEnd submit ix info c I) as Hc. unfold wp in Hc.
    by destruct (Creator_OnIbEnd submit ix info c) as [[ok c']| |].
  - intros submit ix va header [c|] mem Hm Hva Hend; [|done]. cbn.
    pose proof (keeps_OnPacket submit ix va header Hva Hend (c, mem) (same_view_refl mem Hm)) as Hc.
    unfold wp, memory_kept in Hc.
    destruct (Creator_OnPacket submit ix va header (c, mem)) as [[ok [c' mem']]| |]; [exact Hc|done|done].
Qed.

(** ** Creation *)

(** The root alone is not in the frame. *)
Lemma begin_frame flatten h c0 : begin_trees flatten (new_Creator h) = Done ((), c0) ->
  nodes_aligned (tree_nodes (c_tree c0)) /\ frame (tree_nodes (c_tree c0)) = [] /\ c_cur_ib_level c0 = 0.
Proof. by intros [= <-]. Qed.

(** C34: The hierarchy of a capture is created to an end. If the submits that are executed
    are well-formed, [CreateTrees] ends for every fuel that is enough, always with the same
    answer: an access outside of an array, or an answer that leaves the captured memory as
    it is. It is [true] if and only if the traversal of the capture gets to its end; the
    hierarchy is well-formed then. The nodes for submits, IBs and packets are, in the order
    of their creation and with their descriptions and values, those of what was traversed,
    up to an IB or a packet that is refused: one for each submit, for each IB that starts
    and for each packet of type 4 or 7, with the level of its IB. *)
Theorem creation_ends bound R flatten h (mem : M) :
  mem_good mem -> 0 <= R -> submits_good bound R 0 (m_submits m_capture_data) mem ->
  exists enough r,
    (forall fuel, (enough <= fuel)%nat -> CreateTrees m_capture_data fuel flatten (new_Creator h) mem = r) /\
    match r with
    | Done (ok, c, mem') => same_view mem mem' /\ (ok = true -> well_formed (c_command_hierarchy (c_tree c))) /\
        exists log, traversed (m_submits m_capture_data) mem ok log /\ frame (tree_nodes (c_tree c)) = frame_of 0 log
    | OutOfBounds => True
    | OutOfFuel => False
    end.
Proof.
  intros Hm HR Hg. unfold CreateTrees, CreateTrees_of.
  pose proof (begin_trees_spec flatten h) as Hb. unfold wp in Hb.
  destruct (begin_trees flatten (new_Creator h)) as [[[] c0]| |] eqn:E0; [|by exists 0%nat, OutOfBounds|done]. cbn [mbind outcome_bind].
  destruct (begin_frame _ _ _ E0) as (Ha0 & Hf0 & Hl0).
  destruct (ProcessSubmits_traced bound R (m_submits m_capture_data) (Some c0) mem Hm HR Hg) as (enough & r & Hf & Hr).
  assert (forall fuel, (enough <= fuel)%nat ->
    @ProcessSubmits _ _ _ _ (creator_callbacks m_capture_data) fuel (m_submits m_capture_data) (Some c0) mem = r) as Hp
    by exact Hf.
  exists enough. destruct r as [[[ok o] mem1]| |]; [|exists OutOfBounds; split; [intros fuel Hl; by rewrite Hp|done]|done].
  destruct Hr as (Hv & log & Ht & Hlog%replay_frame). pose proof (Hp enough ltac:(done)) as E.
  apply (ProcessSubmits_keeps (O := within between_submits) (I := within in_a_submit)) in E; [|exact Hb].
  destruct o as [c1|]; [|exists OutOfBounds; split; [intros fuel Hl; by rewrite Hp|done]].
  destruct Hlog as [Hlog _]. destruct (Hlog Ha0) as [_ Hframe]. rewrite Hf0, Hl0 in Hframe. cbn [app] in Hframe.
  destruct ok; [|exists (Done (false, c1, mem1)); split; [intros fuel Hl; by rewrite Hp|by split; [|split; [|exists log]]]].
  destruct E as ([Htree _] & Hroot & Etop). destruct Htree as [Htree _].
  pose proof (Creator_CreateTopologies_spec False (c_tree c1) Htree Etop) as Hw. unfold wp in Hw.
  destruct (Creator_CreateTopologies (c_tree c1)) as [[[] t']| |] eqn:Ec; [|done|done].
  exists (Done (true, set_tree t' c1, mem1)). split.
  - intros fuel Hl. rewrite Hp by done. cbn [existing mbind outcome_bind negb]. unfold on_nodes. by rewrite Ec.
  - split; [exact Hv|]. split; [intros _; by apply (topologies_well_formed (c_tree c1))|].
    exists log. split; [exact Ht|]. destruct Hw as (En & _). cbn [c_tree set_tree]. by rewrite En.
Qed.
End CallbacksEnd.

(** The submit with a call and a chain of [EmulateEnds]. *)
Definition chained_capture : Pm4CaptureData :=
  set_submits [mkSubmit kUniversal kQueueUniversal 0 false test_submit] new_Pm4CaptureData.

Lemma creation_ends_witness : exists enough r,
  (forall fuel, (enough <= fuel)%nat -> CreateTrees chained_capture fuel true (new_Creator new_CommandHierarchy) test_ibs = r) /\
  r <> OutOfFuel.
Proof.
  assert (submits_good 0 1 0 (m_submits chained_capture) test_ibs) as Hg.
  { intros [|k] info Hk Hi; [|destruct k; discriminate Hk]. injection Hk as <-. exact test_submit_good. }
  assert (mem_good test_ibs) as Hm by exact test_ibs_ok.
  destruct (creation_ends chained_capture 0 1 true new_CommandHierarchy test_ibs Hm) as (enough & r & Hf & Hr); [lia|exact Hg|].
  exists enough, r. split; [exact Hf|]. intros E. rewrite E in Hr. exact Hr.
Defined.
