(* ===== verification/RegisterNodes.v ===== *)
(** * RegisterNodes: the registers that are shown are those that are set

    Two components read the registers of a packet: the state tracker of the emulation
    ([StateTracker], [emulate_pm4.cpp]) to keep their values, the creator of the
    hierarchy ([PacketNodes], [command_hierarchy.cpp]) to show them. *)

From stdpp Require Import strings.
From coqutil Require Import LittleEndianList.
From S2P Require Import Prelude Wire Memory Pm4 StateTracker Emulate Topology Hierarchy EventInfo NodeTree PacketNodes CreatorTrees.

#[local] Open Scope Z_scope.

(** ** Operations on nodes alone *)

Section NodesOnly.
Context {M : Type}.

Definition with_memory {A} (mem : M) (r : outcome (A * (NodeTree * M))) : outcome (A * (NodeTree * M)) :=
  '(a, (t, _)) ← r; Done (a, (t, mem)).

(** The memory has no part in the result and is left alone. *)
Definition nodes_only {A} (m : Parsing (M := M) A) : Prop := forall t mem mem0, m (t, mem) = with_memory mem (m (t, mem0)).

Lemma nodes_only_ret {A} (a : A) : nodes_only (mret a).
Proof. done. Qed.

Lemma nodes_only_checked {A} (o : outcome A) : nodes_only (checked o).
Proof. intros t mem mem0. by destruct o. Qed.

Lemma nodes_only_tree {A} (m : Steps NodeTree A) : nodes_only (on_tree m).
Proof. intros t mem mem0. unfold on_tree. cbn [fst snd]. by destruct (m t) as [[a t']| |]. Qed.

Lemma nodes_only_bind {A B} (m : Parsing A) (k : A -> Parsing B) :
  nodes_only m -> (forall a, nodes_only (k a)) -> nodes_only (m ≫= k).
Proof.
  intros Hm Hk t mem mem0. unfold mbind, Parsing_bind, Steps_bind. rewrite (Hm t mem mem0).
  destruct (m (t, mem0)) as [[a [t' mem']]| |]; [|done|done]. cbn. apply Hk.
Qed.

Lemma nodes_only_each {A} (body : nat -> A -> Parsing ()) l : (forall i a, nodes_only (body i a)) ->
  forall i, nodes_only (each i l body).
Proof. intros Hb. induction l as [|a l IH]; intros i; cbn [each]; [apply nodes_only_ret|]. by apply nodes_only_bind. Qed.
End NodesOnly.

(** ** Registers of type-4 packets *)

Section Registers.
Context `{AdrenoPm4} `{Pm4Info} {M : Type} `{MemoryLaws M}.

Lemma add_field_nodes_only p desc : nodes_only (M := M) (add_field p desc).
Proof.
  apply nodes_only_bind; [apply nodes_only_tree|]. intros n. apply nodes_only_bind; [apply nodes_only_tree|]. done.
Qed.

Lemma append_register_nodes_only p reg value : nodes_only (M := M) (append_register p reg value).
Proof.
  apply nodes_only_bind; [|intros r; apply nodes_only_tree].
  apply nodes_only_bind; [destruct (ri_enum_handle _); [apply nodes_only_checked|apply nodes_only_ret]|]. intros text.
  apply nodes_only_bind; [apply nodes_only_tree|]. intros r. apply nodes_only_bind; [|intros _; apply nodes_only_ret].
  apply nodes_only_each. intros i f. apply nodes_only_bind; [apply add_field_nodes_only|]. intros _. apply nodes_only_ret.
Qed.

Definition append_registers (p : Z) (regs : list (Z * Z)) : Parsing (M := M) () :=
  each 0 regs (fun _ reg => append_register p reg.1 reg.2).

Lemma append_registers_nodes_only p regs : nodes_only (append_registers p regs).
Proof. apply nodes_only_each. intros i reg. apply append_register_nodes_only. Qed.

Lemma each_position {St A} (body : A -> Steps St ()) (l : list A) i j (s : St) :
  each i l (fun _ => body) s = each j l (fun _ => body) s.
Proof.
  revert i j s. induction l as [|a l IH]; intros i j s; [done|]. cbn. unfold mbind, Steps_bind.
  destruct (body a s) as [[[] s']| |]; [|done|done]. cbn. apply IH.
Qed.

(** Two dwords as one value. *)
Lemma join_dwords lo hi : in_width 32 lo -> Z.lor lo (Z.shiftl hi 32) = lo + 2 ^ 32 * hi.
Proof.
  intros Hlo. cbv [in_width] in Hlo.
  assert (Z.land lo (Z.shiftl hi 32) = 0) as Hz.
  { apply Z.bits_inj'. intros j Hj. rewrite Z.land_spec, Z.shiftl_spec, Z.bits_0 by done.
    destruct (decide (j < 32)) as [Hlt|Hge]; [by rewrite (Z.testbit_neg_r hi), andb_false_r by lia|].
    rewrite <- (Z.mod_small lo (2 ^ 32)) by lia. rewrite Z.mod_pow2_bits_high by lia. done. }
  rewrite <- Z.lxor_lor, <- Z.add_nocarry_lxor by done. rewrite Z.shiftl_mul_pow2 by lia. lia.
Qed.

(** The registers from dword [dword] on with their values, of 32 or 64 bits. *)
Fixpoint type4_registers (fuel : nat) (count offset submit va_addr : Z) (mem : M) (dword : Z) : list (Z * Z) :=
  if dword <? count then
    match fuel with
    | O => []
    | S fuel =>
        let value k := dword_at submit (va_addr + 4 + 4 * k) mem in
        let rest := type4_registers fuel count offset submit va_addr mem in
        if is_64_bit (offset + dword) then (offset + dword, value dword + 2 ^ 32 * value (dword + 1)) :: rest (dword + 2)
        else (offset + dword, value dword) :: rest (dword + 1)
    end
  else [].

(** The writes that set a register. *)
Definition register_dwords (reg : Z * Z) : list (Z * Z) :=
  if is_64_bit reg.1 then [(reg.1, wrap 32 reg.2); (reg.1 + 1, reg.2 / 2 ^ 32)] else [reg].

Lemma register_dwords_64 o lo hi : is_64_bit o = true -> in_width 32 lo ->
  register_dwords (o, lo + 2 ^ 32 * hi) = [(o, lo); (o + 1, hi)].
Proof.
  intros E Hlo. cbv [in_width] in Hlo. unfold register_dwords. cbn [fst snd]. rewrite E. unfold wrap.
  rewrite <- (Z.mod_unique (lo + 2 ^ 32 * hi) (2 ^ 32) hi lo) by lia.
  by rewrite <- (Z.div_unique (lo + 2 ^ 32 * hi) (2 ^ 32) hi lo) by lia.
Qed.

Lemma register_dwords_writes submit va offset mem count : forall fuel dword, 0 <= dword ->
  count - dword <= Z.of_nat fuel ->
  concat (register_dwords <$> type4_registers fuel count offset submit va mem dword)
  = type4_write submit va offset mem <$> seqZ dword (type4_dwords fuel count offset dword - dword).
Proof.
  induction fuel as [|fuel IH]; intros dword Hd Hf; cbn [type4_registers type4_dwords];
    destruct (Z.ltb_spec dword count) as [Hlt|Hge]; try (by rewrite Z.sub_diag).
  assert (forall k, 1 <= k <= 2 -> dword + k <= type4_dwords fuel count offset (dword + k)) as Hb.
  { intros k Hk. apply type4_dwords_bounds; lia. }
  destruct (is_64_bit (offset + dword)) eqn:E; rewrite fmap_cons; cbn [concat].
  - rewrite (register_dwords_64 _ _ _ E) by apply dword_at_range. rewrite IH by lia. specialize (Hb 2 ltac:(lia)).
    rewrite (seqZ_cons dword), fmap_cons by lia. rewrite (seqZ_cons (Z.succ dword)), fmap_cons by lia. cbn [app].
    unfold type4_write at 1 2. replace (offset + Z.succ dword) with (offset + dword + 1) by lia.
    replace (Z.succ dword) with (dword + 1) by lia. repeat f_equal; try lia. unfold type4_write. f_equal; lia.
  - unfold register_dwords at 1. cbn [fst]. rewrite E, IH by lia. specialize (Hb 1 ltac:(lia)).
    rewrite (seqZ_cons dword), fmap_cons by lia. cbn [app]. repeat f_equal; lia.
Qed.

Lemma type4_registers_view fuel count offset submit va mem mem' dword : same_view mem mem' ->
  type4_registers fuel count offset submit va mem' dword = type4_registers fuel count offset submit va mem dword.
Proof.
  intros Hv. revert dword. induction fuel as [|fuel IH]; intros dword; cbn [type4_registers]; [done|].
  rewrite !(dword_at_view _ _ mem mem') by done. by rewrite !IH.
Qed.

(** The tables of the tracker and of the hierarchy are the same one. *)
Definition tables_agree : Prop := forall reg, ri_is_64_bit (register_info reg) = is_64_bit reg.

Lemma le_combine_eight submit va (mem : M) :
  le_combine (bytes_from submit va 8 mem) = dword_at submit va mem + 2 ^ 32 * dword_at submit (va + 4) mem.
Proof.
  destruct (le_combine_pair submit va mem) as [E1 E2].
  rewrite <- join_dwords, <- E1, <- E2 by apply dword_at_range.
  rewrite <- (take_drop 4 (bytes_from submit va 8 mem)) at 1. by rewrite le_combine_app.
Qed.

Lemma le_combine_zeros l n : le_combine (l ++ replicate n "000"%byte) = le_combine l.
Proof. rewrite <- (le_combine_app_0 l n). do 2 f_equal. induction n as [|n IH]; [done|]. cbn. by rewrite IH. Qed.

(** *** Reading and showing *)

Lemma append_registers_cons p reg regs t (mem mem0 : M) :
  append_registers p (reg :: regs) (t, mem)
  = '(_, (t, _)) ← append_register p reg.1 reg.2 (t, mem0); append_registers p regs (t, mem).
Proof.
  unfold append_registers. cbn [each]. unfold mbind at 1, Steps_bind. rewrite (append_register_nodes_only p _ _ t mem mem0).
  destruct (append_register p reg.1 reg.2 (t, mem0)) as [[[] [t' mem']]| |]; [|done|done]. cbn.
  apply (each_position (fun reg => append_register p reg.1 reg.2)).
Qed.

Lemma AppendRegNodes_type4_registers submit va header p : tables_agree -> forall fuel dword t (mem : M),
  mem_good mem -> 0 <= va -> va + 16 + 4 * type4_count header < 2 ^ 64 -> 0 <= dword ->
  type4_count header - dword <= Z.of_nat fuel ->
  exists mem' : M, same_view mem mem' /\
    AppendRegNodes_type4 fuel submit va header p (4 * dword) dword (t, mem)
    = with_memory mem' (append_registers p
        (type4_registers fuel (type4_count header) (type4_offset header) submit va mem dword) (t, mem)).
Proof.
  intros Ht. pose proof (bits_range 0 7 header ltac:(lia)) as Hc. fold (type4_count header) in Hc. cbv [in_width] in Hc.
  induction fuel as [|fuel IH]; intros dword t mem Hm Hva Hend Hd Hf; cbn [AppendRegNodes_type4 type4_registers];
    destruct (Z.ltb_spec dword (type4_count header)) as [Hlt|Hge]; try lia;
    try (exists mem; split; [by apply same_view_refl|done]).
  rewrite (wrap_small 64) by (split; lia). cbv zeta. rewrite Ht. set (reg := type4_offset header + dword).
  set (two := is_64_bit reg). set (n := if two then 8%nat else 4%nat).
  assert (Z.to_nat (if two then 8 else 4) = n) as -> by (by unfold n; destruct two).
  destruct (retrieve_spec submit (va + 4 + 4 * dword) 8 n mem) as (mem1 & E1 & Hv1); [done|lia|unfold n; destruct two; lia|unfold n; destruct two; lia|].
  unfold mbind at 1, Parsing_bind at 1, Steps_bind at 1, reading at 1. cbn [fst snd]. rewrite E1. cbn [mbind outcome_bind].
  set (value := le_combine _).
  set (dword' := dword + (if two then 2 else 1)).
  assert (4 * dword + (if two then 8 else 4) = 4 * dword') as -> by (unfold dword'; destruct two; lia).
  assert ((if two then dword + 2 else dword + 1) = dword') as -> by (by unfold dword'; destruct two).
  set (regs := type4_registers fuel (type4_count header) (type4_offset header) submit va mem dword').
  assert ((if two then (reg, dword_at submit (va + 4 + 4 * dword) mem + 2 ^ 32 * dword_at submit (va + 4 + 4 * (dword + 1)) mem)
             :: type4_registers fuel (type4_count header) (type4_offset header) submit va mem (dword + 2)
           else (reg, dword_at submit (va + 4 + 4 * dword) mem)
             :: type4_registers fuel (type4_count header) (type4_offset header) submit va mem (dword + 1))
          = (reg, value) :: regs) as ->.
  { unfold value, regs, dword', n. destruct two.
    - rewrite Nat.sub_diag, app_nil_r, le_combine_eight. by replace (va + 4 + 4 * (dword + 1)) with (va + 4 + 4 * dword + 4) by lia.
    - by rewrite le_combine_zeros. }
  rewrite (append_registers_cons _ _ _ _ _ mem1). cbn [fst snd]. unfold mbind at 1, Parsing_bind at 1, Steps_bind at 1.
  rewrite (append_register_nodes_only p reg value t mem1 mem1).
  destruct (append_register p reg value (t, mem1)) as [[[] [t2 mem2]]| |]; cbn;
    [|by exists mem1|by exists mem1].
  destruct (IH dword' t2 mem1) as (mem' & Hv' & E'); [by destruct Hv1|done|done|unfold dword'; destruct two; lia|unfold dword'; destruct two; lia|].
  exists mem'. split; [by eapply same_view_trans|]. rewrite E'. rewrite (type4_registers_view _ _ _ _ _ mem mem1) by done.
  fold regs. rewrite (append_registers_nodes_only p regs t2 mem1 mem).
  by destruct (append_registers p regs (t2, mem)) as [[[] [t3 mem3]]| |].
Qed.
(** *** What the nodes show *)

(** The text of a value of a type. *)
Definition value_text (type : ValueType) (v bit_width radix : Z) : string :=
  match type with
  | kBoolean => if decide (v = 0) then "False" else "True"
  | kUint => pretty v
  | kInt => pretty (if decide (v mod 2 ^ 32 < 2 ^ 31) then v mod 2 ^ 32 else v mod 2 ^ 32 - 2 ^ 32)
  | kFloat => print_float (v mod 2 ^ 32)
  | kFixed =>
      if decide (Z.land v (2 ^ bit_width mod 2 ^ 64) = 0) then print_double v radix
      else print_double ((2 ^ (bit_width + 1) mod 2 ^ 64 - v) mod 2 ^ 64) radix
  | kUFixed => print_double v radix
  | kRegID => "r" +:+ pretty (v / 4) +:+ "." +:+ default "" (["x"; "y"; "z"; "w"]%string !! Z.to_nat (v mod 4))
  | _ => "0x" +:+ hex v
  end.

Lemma OutputValue_text type v bit_width radix : OutputValue type v bit_width radix = value_text type v bit_width radix.
Proof.
  unfold OutputValue, value_text. destruct type; try done.
  - case_decide; [by subst|]. by rewrite (proj2 (Z.eqb_neq _ _)).
  - unfold int32, wrap. case_decide as E; [by rewrite (proj2 (Z.ltb_lt _ _))|by rewrite (proj2 (Z.ltb_ge _ _)) by lia].
  - unfold wrap. rewrite !Z.shiftl_1_l. case_decide as E; [by rewrite E|]. by rewrite (proj2 (Z.eqb_neq _ _)).
  - rewrite Z.shiftr_div_pow2 by lia. do 4 f_equal. change 0x3 with (Z.ones 2). rewrite Z.land_ones by lia.
    pose proof (Z.mod_pos_bound v (2 ^ 2) ltac:(lia)) as Hm. change (2 ^ 2) with 4 in *.
    assert (v mod 4 = 0 \/ v mod 4 = 1 \/ v mod 4 = 2 \/ v mod 4 = 3) as [->|[->|[->| ->]]] by lia; reflexivity.
Qed.

(** The text of a field: its bits of the register's value, shifted to their place. *)
Definition field_text (value : Z) (f : RegField) : string :=
  let v := Z.shiftl (Z.shiftr (Z.land value (rf_mask f)) (rf_shift f)) (rf_shr f) mod 2 ^ 64 in
  rf_name f +:+ ": " +:+
  match rf_enum_handle f with
  | None => value_text (rf_type f) v (rf_bit_width f) (rf_radix f)
  | Some handle =>
      match GetEnumString handle (v mod 2 ^ 32) with Some text => text | None => value_text (rf_type f) v 0 0 end
  end.

(** What is known of a register; an unknown one is shown as a boolean. *)
Definition known_register (reg : Z) : RegInfo :=
  match GetFullRegInfo reg with Some info => info | None => mkRegInfo "Unknown" false kBoolean None 0 0 0 [] end.

(** The text of a register and those of its fields; none where its table of names has no
    entry for the value. *)
Definition register_texts (reg : Z * Z) : option (string * list string) :=
  let info := known_register reg.1 in
  let v := Z.shiftl reg.2 (ri_shr info) mod 2 ^ 64 in
  text ← match ri_enum_handle info with
         | None => Some (value_text (ri_type info) v (ri_bit_width info) (ri_radix info))
         | Some handle => GetEnumString handle (v mod 2 ^ 32)
         end;
  Some (ri_name info +:+ ": " +:+ text, field_text v <$> ri_fields info).

Lemma field_text_eq v f : reg_field_desc v f = field_text v f.
Proof.
  unfold reg_field_desc, field_text, enum_or_value, wrap. rewrite !OutputValue_text.
  destruct (rf_enum_handle f) as [handle|]; [|done]. by destruct (GetEnumString handle _).
Qed.

(** *** The nodes that are added *)

(** A node: its type, its text and its children, the same in both topologies. *)
#[local] Abbreviation Entry := (NodeType * string * list Z)%type (only parsing).

(** A register's node with the nodes of its fields, the first of them the node [base]. *)
Definition register_entries (base : Z) (texts : string * list string) : list Entry :=
  (kRegNode, texts.1, seqZ (base + 1) (Z.of_nat (length texts.2))) :: ((fun text => (kFieldNode, text, [])) <$> texts.2).

(** Those of several registers, and the registers' own nodes. *)
Fixpoint registers_entries (base : Z) (regs : list (string * list string)) : list Entry :=
  match regs with
  | [] => []
  | reg :: regs => register_entries base reg ++ registers_entries (base + 1 + Z.of_nat (length reg.2)) regs
  end.
Fixpoint register_nodes (base : Z) (regs : list (string * list string)) : list Z :=
  match regs with
  | [] => []
  | reg :: regs => base :: register_nodes (base + 1 + Z.of_nat (length reg.2)) regs
  end.

(** A packet's node, the node [base], with its registers. *)
Definition packet_entries (base : Z) (text : string) (regs : list (string * list string)) : list Entry :=
  (kPacketNode, text, register_nodes (base + 1) regs) :: registers_entries (base + 1) regs.

(** The tree [t'] is [t] with these nodes behind its own. *)
Record extends (t t' : NodeTree) (es : list Entry) : Prop := {
  ex_types : m_node_type (tree_nodes t') = m_node_type (tree_nodes t) ++ ((fun e => e.1.1) <$> es);
  ex_texts : m_description (tree_nodes t') = m_description (tree_nodes t) ++ ((fun e => e.1.2) <$> es);
  ex_children type : of_type type (c_node_children t') = of_type type (c_node_children t) ++ (snd <$> es)
}.

(** Every node has a list of children. *)
Definition children_aligned (t : NodeTree) : Prop :=
  forall type, vec_size (of_type type (c_node_children t)) = tree_size t.

Lemma steps_bind {St A B} (m : Steps St A) (k : A -> Steps St B) s a s' :
  m s = Done (a, s') -> (m ≫= k) s = k a s'.
Proof. intros E. unfold mbind, Steps_bind. by rewrite E. Qed.

Section Extending.
Context (t0 : NodeTree).
Hypothesis Hal : children_aligned t0.

Definition at_end (es : list Entry) : Z := tree_size t0 + vec_size es.

Lemma extends_size t es : extends t0 t es -> tree_size t = at_end es.
Proof.
  intros Hx. unfold tree_size, at_end, vec_size. rewrite (ex_types _ _ _ Hx), length_app, length_fmap.
  unfold tree_size, vec_size. lia.
Qed.

Lemma add_node_extends t es type text aux : extends t0 t es -> at_end es < UINT64_MAX ->
  exists t', Creator_AddNode type text aux t = Done (at_end es, t') /\ extends t0 t' (es ++ [(type, text, [])]).
Proof.
  intros Hx Hs. pose proof (extends_size _ _ Hx) as Hsize. destruct Hx as [X1 X2 X3].
  unfold Creator_AddNode. rewrite (proj2 (Z.leb_gt _ _)) by lia.
  unfold Hierarchy_AddNode, Nodes_AddNode. cbv zeta.
  eexists. split.
  - f_equal. f_equal. rewrite <- Hsize. unfold tree_size, vec_size, tree_nodes. reflexivity.
  - split; cbn.
    + unfold tree_nodes in X1 |- *. cbn. by rewrite X1, fmap_app, app_assoc.
    + unfold tree_nodes in X2 |- *. cbn. by rewrite X2, fmap_app, app_assoc.
    + intros tp. specialize (X3 tp). rewrite fmap_app, app_assoc, <- X3. by destruct tp.
Qed.

Lemma add_child_extends t es k e c : extends t0 t es -> es !! k = Some e ->
  exists t', (Creator_AddChild kSubmitTopology (tree_size t0 + Z.of_nat k) c ;;
              Creator_AddChild kAllEventTopology (tree_size t0 + Z.of_nat k) c) t = Done ((), t') /\
    extends t0 t' (<[k := (e.1, e.2 ++ [c])]> es).
Proof.
  intros [X1 X2 X3] Hk. pose proof (lookup_lt_Some _ _ _ Hk) as Hlt.
  assert (Hin : forall tp, vec_push (tree_size t0 + Z.of_nat k) c (of_type tp (c_node_children t))
            = Done (of_type tp (c_node_children t0) ++ (snd <$> <[k := (e.1, e.2 ++ [c])]> es))).
  { intros tp. pose proof (Hal tp) as Ha. unfold vec_size in Ha. rewrite X3, vec_push_spec.
    2:{ unfold vec_size. rewrite length_app, length_fmap. lia. }
    f_equal. replace (Z.to_nat _) with (length (of_type tp (c_node_children t0)) + k)%nat by lia.
    rewrite alter_app_r. f_equal. rewrite list_fmap_insert. cbn [snd].
    apply list_eq. intros j. destruct (decide (j = k)) as [->|Hne].
    - rewrite list_lookup_alter_eq, list_lookup_insert_eq by by rewrite length_fmap.
      by rewrite list_lookup_fmap, Hk.
    - by rewrite list_lookup_alter_ne, list_lookup_insert_ne. }
  unfold Creator_AddChild, mbind, Steps_bind, get, checked, modify. cbn [mbind outcome_bind].
  pose proof (Hin kSubmitTopology) as E1. pose proof (Hin kAllEventTopology) as E2. cbn [of_type] in E1, E2.
  cbn [of_type]. rewrite E1. cbn [mbind outcome_bind set_tree_children set_type c_node_children of_type at_all_event].
  rewrite E2. cbn [mbind outcome_bind]. eexists. split; [reflexivity|].
  split; cbn; try done.
  - unfold tree_nodes in *. cbn. rewrite X1. f_equal. rewrite list_fmap_insert. symmetry.
    apply list_insert_id. rewrite list_lookup_fmap, Hk. done.
  - unfold tree_nodes in *. cbn. rewrite X2. f_equal. rewrite list_fmap_insert. symmetry.
    apply list_insert_id. rewrite list_lookup_fmap, Hk. done.
  - intros []; reflexivity.
Qed.

Lemma add_to_both_extends t (mem : M) es k e c : extends t0 t es -> es !! k = Some e ->
  exists t', add_to_both (tree_size t0 + Z.of_nat k) c (t, mem) = Done ((), (t', mem)) /\
    extends t0 t' (<[k := (e.1, e.2 ++ [c])]> es).
Proof.
  intros Hx Hk. destruct (add_child_extends t es k e c Hx Hk) as (t' & E & Hx').
  exists t'. split; [|done]. unfold add_to_both, on_tree. cbn [fst snd]. by rewrite E.
Qed.

Lemma add_field_extends t (mem : M) es k e text : extends t0 t es -> es !! k = Some e -> at_end es < UINT64_MAX ->
  exists t', add_field (tree_size t0 + Z.of_nat k) text (t, mem) = Done (at_end es, (t', mem)) /\
    extends t0 t' (<[k := (e.1, e.2 ++ [at_end es])]> es ++ [(kFieldNode, text, [])]).
Proof.
  intros Hx Hk Hs. destruct (add_node_extends t es kFieldNode text (RegFieldNode false) Hx Hs) as (t1 & E1 & Hx1).
  destruct (add_to_both_extends t1 mem _ k e (at_end es) Hx1) as (t' & E & Hx'); [by apply lookup_app_l_Some|].
  exists t'. split.
  - unfold add_field, mbind, Parsing_bind, Steps_bind, on_tree at 1. cbn [fst snd]. rewrite E1.
    cbn [mbind outcome_bind]. by rewrite E.
  - rewrite insert_app_l in Hx' by by eapply lookup_lt_Some. done.
Qed.

(** The loop over the fields of a register. *)
Lemma fields_extend value fs : forall i t (mem : M) es k e, extends t0 t es -> es !! k = Some e ->
  at_end es + vec_size fs <= UINT64_MAX ->
  exists t', each i fs (fun _ f => add_field (tree_size t0 + Z.of_nat k) (reg_field_desc value f) ;; mret ()) (t, mem)
      = Done ((), (t', mem)) /\
    extends t0 t' (<[k := (e.1, e.2 ++ seqZ (at_end es) (vec_size fs))]> es
                   ++ ((fun f => (kFieldNode, field_text value f, [])) <$> fs)).
Proof.
  induction fs as [|f fs IH]; intros i t mem es k e Hx Hk Hs.
  { exists t. split; [done|]. change (vec_size []) with 0. rewrite seqZ_nil, !app_nil_r by done.
    destruct e as [e1 e2]. cbn [fst snd]. by rewrite list_insert_id. }
  unfold vec_size in Hs. cbn [length] in Hs.
  destruct (add_field_extends t mem es k e (reg_field_desc value f) Hx Hk) as (t1 & E1 & Hx1); [lia|].
  set (es1 := <[k := _]> es ++ _) in Hx1. pose proof (lookup_lt_Some _ _ _ Hk) as Hlt.
  assert (Hend : at_end es1 = at_end es + 1).
  { unfold at_end, es1, vec_size. rewrite length_app, length_insert. cbn [length]. lia. }
  destruct (IH (S i) t1 mem es1 k (e.1, e.2 ++ [at_end es]) Hx1) as (t' & E & Hx').
  { unfold es1. rewrite lookup_app_l by by rewrite length_insert. by apply list_lookup_insert_eq. }
  { rewrite Hend. unfold vec_size. lia. }
  exists t'. split.
  - cbn [each]. etransitivity; [eapply steps_bind|exact E].
    etransitivity; [eapply steps_bind, E1|reflexivity].
  - rewrite Hend in Hx'. cbn [fst snd] in Hx'. unfold es1 in Hx'.
    rewrite insert_app_l in Hx' by by rewrite length_insert. rewrite list_insert_insert_eq in Hx'.
    rewrite <- !app_assoc in Hx'. cbn [app] in Hx'. rewrite field_text_eq in Hx'.
    replace (vec_size (f :: fs)) with (Z.succ (vec_size fs)) by (unfold vec_size; cbn [length]; lia).
    rewrite (seqZ_cons (at_end es)) by (unfold vec_size; lia). rewrite Z.pred_succ. exact Hx'.
Qed.

(** One register below the packet, which is the first of the new nodes. *)
Lemma append_register_extends t (mem : M) text ch es reg texts :
  extends t0 t ((kPacketNode, text, ch) :: es) -> register_texts reg = Some texts ->
  let base := at_end ((kPacketNode, text, ch) :: es) in
  base + 1 + vec_size texts.2 <= UINT64_MAX ->
  exists t', append_register (tree_size t0) reg.1 reg.2 (t, mem) = Done ((), (t', mem)) /\
    extends t0 t' ((kPacketNode, text, ch ++ [base]) :: es ++ register_entries base texts).
Proof.
  intros Hx Ht base Hs. set (es0 := (kPacketNode, text, ch) :: es) in *.
  unfold register_texts in Ht. fold (register_info reg.1) in Ht.
  change (known_register reg.1) with (register_info reg.1) in Ht. set (info := register_info reg.1) in *.
  set (v := Z.shiftl reg.2 (ri_shr info) mod 2 ^ 64) in *.
  destruct (match ri_enum_handle info with None => _ | Some _ => _ end) as [shown|] eqn:Es; [|done].
  cbn [mbind option_bind] in Ht. injection Ht as <-. cbn [fst snd] in Hs.
  unfold vec_size in Hs. rewrite length_fmap in Hs. fold (vec_size (ri_fields info)) in Hs.
  destruct (add_node_extends t es0 kRegNode (ri_name info +:+ ": " +:+ shown) (RegFieldNode false) Hx)
    as (t1 & E1 & Hx1); [unfold vec_size in Hs; fold base; lia|]. fold base in E1.
  assert (Hk : (es0 ++ [(kRegNode, ri_name info +:+ ": " +:+ shown, [])]) !! length es0
               = Some (kRegNode, ri_name info +:+ ": " +:+ shown, [])).
  { by rewrite lookup_app_r, Nat.sub_diag by lia. }
  assert (Hend : at_end (es0 ++ [(kRegNode, ri_name info +:+ ": " +:+ shown, [])]) = base + 1).
  { unfold base, at_end, vec_size. rewrite length_app. cbn [length]. lia. }
  destruct (fields_extend v (ri_fields info) 0 t1 mem _ (length es0) _ Hx1 Hk) as (t2 & E2 & Hx2); [rewrite Hend; lia|].
  change (tree_size t0 + Z.of_nat (length es0)) with base in E2. rewrite Hend in Hx2. cbn [fst snd app] in Hx2.
  rewrite insert_app_r_alt, Nat.sub_diag in Hx2 by lia. cbn [insert list_insert] in Hx2. rewrite <- app_assoc in Hx2.
  destruct (add_to_both_extends t2 mem _ 0 (kPacketNode, text, ch) base Hx2) as (t3 & E3 & Hx3); [done|].
  exists t3. split.
  - change (Z.of_nat 0) with 0 in E3. rewrite Z.add_0_r in E3.
    assert ((match ri_enum_handle info with
             | Some handle => not_null (GetEnumString handle (v mod 2 ^ 32))
             | None => mret (OutputValue (ri_type info) v (ri_bit_width info) (ri_radix info))
             end : Parsing (M := M) string) (t, mem) = Done (shown, (t, mem))) as Htext.
    { destruct (ri_enum_handle info); rewrite ?OutputValue_text, ?Es; [done|]. by injection Es as ->. }
    assert (AddRegisterNode reg.1 reg.2 info (t, mem) = Done (base, (t2, mem))) as En.
    { unfold AddRegisterNode. etransitivity; [eapply steps_bind, Htext|]. cbn beta.
      etransitivity; [eapply steps_bind; unfold on_tree; cbn [fst snd]; rewrite E1; reflexivity|].
      etransitivity; [eapply steps_bind, E2|reflexivity]. }
    unfold append_register. etransitivity; [eapply steps_bind, En|exact E3].
  - cbn [insert list_insert fst snd app es0] in Hx3. unfold register_entries. cbn [fst snd].
    rewrite length_fmap. fold (vec_size (ri_fields info)). rewrite <- list_fmap_compose. exact Hx3.
Qed.

(** The registers that can be shown, all of them. *)
Lemma append_registers_extends regs : forall t (mem : M) text ch es texts,
  extends t0 t ((kPacketNode, text, ch) :: es) -> mapM register_texts regs = Some texts ->
  let base := at_end ((kPacketNode, text, ch) :: es) in
  base + vec_size (registers_entries base texts) <= UINT64_MAX ->
  exists t', append_registers (tree_size t0) regs (t, mem) = Done ((), (t', mem)) /\
    extends t0 t' ((kPacketNode, text, ch ++ register_nodes base texts) :: es ++ registers_entries base texts).
Proof.
  induction regs as [|reg regs IH]; intros t mem text ch es texts Hx Ht base Hs.
  { injection Ht as <-. exists t. split; [done|]. cbn. by rewrite !app_nil_r. }
  cbn [mapM] in Ht. destruct (register_texts reg) as [tx|] eqn:Er; [|done]. cbn [mbind option_bind] in Ht.
  destruct (mapM register_texts regs) as [rest|]; [|done]. injection Ht as <-.
  cbn [registers_entries register_nodes] in *. unfold vec_size in Hs. rewrite length_app in Hs.
  assert (Hl : length (register_entries base tx) = S (length tx.2)).
  { unfold register_entries. cbn [length]. by rewrite length_fmap. }
  destruct (append_register_extends t mem text ch es reg tx Hx Er) as (t1 & E1 & Hx1); [fold base; unfold vec_size; lia|].
  fold base in Hx1.
  assert (Hend : at_end ((kPacketNode, text, ch ++ [base]) :: es ++ register_entries base tx)
                 = base + 1 + Z.of_nat (length tx.2)).
  { unfold at_end, vec_size. cbn [length]. rewrite length_app, Hl. unfold base, at_end, vec_size. cbn [length]. lia. }
  destruct (IH t1 mem text _ _ rest Hx1 eq_refl) as (t' & E' & Hx'); [rewrite Hend; unfold vec_size; lia|].
  exists t'. rewrite (append_registers_cons _ _ _ _ _ mem), E1. cbn [mbind outcome_bind]. split; [exact E'|].
  rewrite Hend, <- !app_assoc in Hx'. exact Hx'.
Qed.
End Extending.

(** C19: the registers of a type-4 packet that the hierarchy shows are those that the
    emulation sets. Where the two tables agree on which registers have 64 bits, and the
    packet does not lie at the end of the address space, it is read as one list of
    registers and values: the state tracker writes each register, the upper half of a
    64-bit one into the register behind it; and the creator adds behind the nodes of the
    tree the packet's node and, as its children in both topologies, a node for each
    register in this order, each with the register's name and the text of its value
    ([register_texts]), and with a node for each of its fields below it, with the name and
    the text of its bits. This is where every value of a register with a table of names is
    in the table, every node of the tree has a list of children and there is room for the
    nodes. Both leave the captured memory as it is. *)
Theorem registers_shown submit va header ib_level t tr texts (mem : M) : tables_agree ->
  mem_good mem -> 0 <= va -> va + 2 ^ 18 < 2 ^ 64 -> header_type header = 4 ->
  let count := type4_count header in
  let regs := type4_registers (Z.to_nat count) count (type4_offset header) submit va mem 0 in
  let entries := packet_entries (tree_size t) ("TYPE4 REGWRITE 0x" +:+ hex header) texts in
  children_aligned t -> mapM register_texts regs = Some texts ->
  tree_size t + vec_size entries <= UINT64_MAX ->
  packet_writes (concat (register_dwords <$> regs)) tr mem (Tracker_OnPacket submit va header tr mem) /\
  exists (mem' : M) t', same_view mem mem' /\
    AddPacketNode submit va header ib_level (t, mem) = Done (tree_size t, (t', mem')) /\ extends t t' entries.
Proof.
  intros Ht Hm Hva Hend H4 count regs entries Hal Htexts Hroom.
  pose proof (bits_range 0 7 header ltac:(lia)) as Hc.
  fold (type4_count header) in Hc. fold count in Hc. cbv [in_width] in Hc. split.
  - rewrite Tracker_OnPacket_type4 by done. apply packet_of_writes. unfold regs. rewrite register_dwords_writes by lia.
    apply type4_loop_writes; try done; unfold count in *; lia.
  - assert (Hx : extends t t []) by (split; intros; cbn; by rewrite app_nil_r).
    assert (Hb : at_end t [] = tree_size t) by (unfold at_end, vec_size; cbn; lia).
    unfold entries, packet_entries, vec_size in Hroom. cbn [length] in Hroom.
    destruct (add_node_extends t t [] kPacketNode ("TYPE4 REGWRITE 0x" +:+ hex header)
      (PacketNode va UINT8_MAX ib_level) Hx) as (t1 & E1 & Hx1); [lia|]. rewrite Hb in E1. cbn [app] in Hx1.
    assert (Hb1 : at_end t [(kPacketNode, "TYPE4 REGWRITE 0x" +:+ hex header, [])] = tree_size t + 1) by done.
    destruct (append_registers_extends t Hal regs t1 mem _ _ _ texts Hx1 Htexts) as (t2 & E2 & Hx2);
      [rewrite Hb1; unfold vec_size; lia|]. rewrite Hb1 in Hx2. cbn [app] in Hx2.
    unfold AddPacketNode. rewrite H4. cbn [Z.eqb Pos.eqb]. unfold mbind, Parsing_bind, Steps_bind, on_tree. cbn [fst snd].
    rewrite E1. cbn [mbind outcome_bind].
    destruct (AppendRegNodes_type4_registers submit va header (tree_size t) Ht (Z.to_nat (type4_count header)) 0 t1 mem)
      as (mem' & Hv & E); [done|done|unfold count in *; lia|lia|lia|].
    exists mem', t2. split; [done|]. change (4 * 0) with 0 in E. rewrite E. fold count. fold regs.
    rewrite E2. by split.
Qed.
End Registers.

(** The address of a vertex shader has 64 bits, the register behind it 32. *)
#[local] Instance test_addresses : Pm4Info :=
  test_info_of (fun reg => if reg =? 0xa81c then Some (mkRegInfo "SP_VS" true kAddress None 0 0 0 []) else None).

Definition address_and_state : MemoryManager := test_memory_of [(4096, [make_type4 0xa81c 3; 0x1000; 5; 7])].

Lemma registers_shown_witness :
  tables_agree /\
  type4_registers 3 3 0xa81c 0 4096 address_and_state 0 = [(0xa81c, 0x500001000); (0xa81e, 7)] /\
  exists mem' t', AddPacketNode 0 4096 (make_type4 0xa81c 3) 1 (new_NodeTree new_CommandHierarchy, address_and_state) = Done (0, (t', mem')) /\
    m_description (tree_nodes t')
    = ["TYPE4 REGWRITE 0x" +:+ hex (make_type4 0xa81c 3); "SP_VS: 0x500001000"; "Unknown: True"]%string.
Proof.
  assert (tables_agree) as Ht.
  { intros reg. unfold register_info, is_64_bit. cbn. by destruct (reg =? 0xa81c). }
  split; [exact Ht|]. split; [vm_compute; reflexivity|].
  assert (mem_good address_and_state) as Hm by (apply (test_memory_of_ok 0); [lia|reflexivity]).
  destruct (registers_shown 0 4096 (make_type4 0xa81c 3) 1 (new_NodeTree new_CommandHierarchy) new_EmulateStateTracker
    [("SP_VS: 0x500001000", []); ("Unknown: True", [])]%string
    address_and_state Ht Hm) as (_ & mem' & t' & _ & E & Hx); [lia|lia|reflexivity|by intros []|vm_compute; reflexivity|
      vm_compute; discriminate|].
  exists mem', t'. split; [exact E|]. rewrite (ex_texts _ _ _ Hx). vm_compute. reflexivity.
Defined.
