(* ===== verification/EventState.v ===== *)
(** * EventState: the state of the GPU at each event

    Models [src/dive_core/event_state.{h,cpp}]: [EventStateInfo], a structure of arrays.
    All arrays lie in one buffer, one behind the other, each with room for [m_cap]
    elements, and a vector of bits says which fields of which element were set. An [Id]
    is the index of an element. A field's value is its bytes; enumerations have four
    bytes and [max_align_t] has 32, aligned to 16. Writing or reading outside of a
    buffer is [OutOfBounds]. *)

From S2P Require Import Prelude Memory Pm4.

#[local] Open Scope Z_scope.

(** ** Fields *)

Module Field.
Inductive EventField :=
  | Topology | PrimRestartEnabled | PatchControlPoints | Viewport | Scissor | DepthClampEnabled
  | RasterizerDiscardEnabled | PolygonMode | CullMode | FrontFace | DepthBiasEnabled
  | DepthBiasConstantFactor | DepthBiasClamp | DepthBiasSlopeFactor | LineWidth | RasterizationSamples
  | SampleShadingEnabled | MinSampleShading | SampleMask | AlphaToCoverageEnabled | DepthTestEnabled
  | DepthWriteEnabled | DepthCompareOp | DepthBoundsTestEnabled | MinDepthBounds | MaxDepthBounds
  | StencilTestEnabled | StencilOpStateFront | StencilOpStateBack | LogicOpEnabled | LogicOp | Attachment
  | BlendConstant | LRZEnabled | LRZWrite | LRZDirStatus | LRZDirWrite | ZTestMode | BinW | BinH
  | WindowScissorTLX | WindowScissorTLY | WindowScissorBRX | WindowScissorBRY | RenderMode
  | BuffersLocation | ThreadSize | EnableAllHelperLanes | EnablePartialHelperLanes | UBWCEnabled
  | UBWCLosslessEnabled | UBWCEnabledOnDS | UBWCLosslessEnabledOnDS | ResolveScissor | ResolveBaseGmem
  | ResolveBaseSysmem | ResolveFormat | ResolveTileMode.

#[global] Instance EventField_eq_dec : EqDecision EventField.
Proof. solve_decision. Defined.

Definition all_fields : list EventField :=
  [ Topology; PrimRestartEnabled; PatchControlPoints; Viewport; Scissor; DepthClampEnabled;
    RasterizerDiscardEnabled; PolygonMode; CullMode; FrontFace; DepthBiasEnabled; DepthBiasConstantFactor;
    DepthBiasClamp; DepthBiasSlopeFactor; LineWidth; RasterizationSamples; SampleShadingEnabled;
    MinSampleShading; SampleMask; AlphaToCoverageEnabled; DepthTestEnabled; DepthWriteEnabled;
    DepthCompareOp; DepthBoundsTestEnabled; MinDepthBounds; MaxDepthBounds; StencilTestEnabled;
    StencilOpStateFront; StencilOpStateBack; LogicOpEnabled; LogicOp; Attachment; BlendConstant;
    LRZEnabled; LRZWrite; LRZDirStatus; LRZDirWrite; ZTestMode; BinW; BinH; WindowScissorTLX;
    WindowScissorTLY; WindowScissorBRX; WindowScissorBRY; RenderMode; BuffersLocation; ThreadSize;
    EnableAllHelperLanes; EnablePartialHelperLanes; UBWCEnabled; UBWCLosslessEnabled; UBWCEnabledOnDS;
    UBWCLosslessEnabledOnDS; ResolveScissor; ResolveBaseGmem; ResolveBaseSysmem; ResolveFormat;
    ResolveTileMode ].

(** [sizeof] of the type of an element. *)
Definition element_size (f : EventField) : nat :=
  match f with
  | PrimRestartEnabled | DepthClampEnabled | RasterizerDiscardEnabled | DepthBiasEnabled
  | SampleShadingEnabled | AlphaToCoverageEnabled | DepthTestEnabled | DepthWriteEnabled
  | DepthBoundsTestEnabled | StencilTestEnabled | LogicOpEnabled | LRZEnabled | LRZWrite | LRZDirWrite
  | EnableAllHelperLanes | EnablePartialHelperLanes | UBWCEnabled | UBWCLosslessEnabled | UBWCEnabledOnDS
  | UBWCLosslessEnabledOnDS => 1
  | WindowScissorTLX | WindowScissorTLY | WindowScissorBRX | WindowScissorBRY => 2
  | ResolveBaseSysmem => 8
  | Scissor | ResolveScissor => 16
  | Viewport => 24
  | StencilOpStateFront | StencilOpStateBack => 28
  | Attachment => 32
  | _ => 4
  end.

(** [ArrayCount], 1 for a field that is not an array. *)
Definition array_count (f : EventField) : nat :=
  match f with
  | BlendConstant => 4
  | LogicOpEnabled | LogicOp | Attachment | UBWCEnabled | UBWCLosslessEnabled => 8
  | Viewport | Scissor => 16
  | _ => 1
  end.

Definition is_array (f : EventField) : bool := (1 <? array_count f)%nat.
End Field.

Import Field.
Abbreviation EventField := Field.EventField.

Definition field_size (f : EventField) : nat := element_size f * array_count f.

(** The fields that are declared before one. *)
Fixpoint fields_before (f : EventField) (l : list EventField) : list EventField :=
  match l with
  | [] => []
  | g :: l => if bool_decide (g = f) then [] else g :: fields_before f l
  end.

Definition sum_of (g : EventField -> nat) (l : list EventField) : Z := Z.of_nat (sum_list_with g l).

Definition field_offset (f : EventField) : Z := sum_of field_size (fields_before f all_fields).
Definition field_index (f : EventField) : Z := sum_of array_count (fields_before f all_fields).
Definition kElemSize : Z := sum_of field_size all_fields.
Definition kNumFields : Z := sum_of array_count all_fields.

Definition kAlignment : Z := 16.
Definition sizeof_max_align_t : Z := 32.

(** ** Buffers *)

Definition slice (p n : Z) (buffer : list byte) : outcome (list byte) :=
  if p + n <=? Z.of_nat (length buffer) then Done (take (Z.to_nat n) (drop (Z.to_nat p) buffer))
  else OutOfBounds.

Definition splice (p : Z) (v buffer : list byte) : outcome (list byte) :=
  if p + Z.of_nat (length v) <=? Z.of_nat (length buffer) then
    Done (take (Z.to_nat p) buffer ++ v ++ drop (Z.to_nat p + length v) buffer)
  else OutOfBounds.

Definition zeros (n : Z) : list byte := replicate (Z.to_nat n) Byte.x00.

(** ** EventStateInfo *)

Record EventStateInfo := mkEventState {
  es_size : Z;
  es_cap : Z;
  es_buffer : list byte;
  es_is_set_buffer : list Z
}.

Definition new_EventStateInfo : EventStateInfo := mkEventState 0 0 [] [].

Definition set_es_size n (s : EventStateInfo) := mkEventState n (es_cap s) (es_buffer s) (es_is_set_buffer s).
Definition set_es_buffer b (s : EventStateInfo) := mkEventState (es_size s) (es_cap s) b (es_is_set_buffer s).
Definition set_es_is_set_buffer v (s : EventStateInfo) := mkEventState (es_size s) (es_cap s) (es_buffer s) v.

Definition IsValidId (id : Z) (s : EventStateInfo) : bool := id <? es_size s.

(** The bit of a field: the product has 64 bits, the variable it is stored in 32. *)
Definition field_bit (id field_index : Z) : Z := wrap 32 (id * kNumFields + field_index).

Definition MarkFieldSet (id field_index : Z) (s : EventStateInfo) : outcome EventStateInfo :=
  let bit := field_bit id field_index in
  match es_is_set_buffer s !! Z.to_nat (bit / 8) with
  | Some b => Done (set_es_is_set_buffer (<[Z.to_nat (bit / 8) := Z.lor b (Z.shiftl 1 (bit mod 8))]> (es_is_set_buffer s)) s)
  | None => OutOfBounds
  end.

Definition IsFieldSet (id field_index : Z) (s : EventStateInfo) : outcome bool :=
  let bit := field_bit id field_index in
  match es_is_set_buffer s !! Z.to_nat (bit / 8) with
  | Some b => Done (negb (Z.land b (Z.shiftl 1 (bit mod 8)) =? 0))
  | None => OutOfBounds
  end.

(** The accessors of each field [X] with their index into an array, 0 for other fields:
    [XPtr], as an offset into the buffer, [X], [SetX] and [IsXSet]. *)
Definition FieldPtr (f : EventField) (id i : Z) (s : EventStateInfo) : Z :=
  field_offset f * es_cap s + wrap 32 (id * Z.of_nat (array_count f) + i) * Z.of_nat (element_size f).

Definition GetField (f : EventField) (id i : Z) (s : EventStateInfo) : outcome (list byte) :=
  slice (FieldPtr f id i s) (Z.of_nat (element_size f)) (es_buffer s).

(** Stores into an element, without marking it. *)
Definition store (f : EventField) (id i : Z) (value : list byte) (s : EventStateInfo) : outcome EventStateInfo :=
  buffer ← splice (FieldPtr f id i s) value (es_buffer s); Done (set_es_buffer buffer s).

Definition SetField (f : EventField) (id i : Z) (value : list byte) (s : EventStateInfo) : outcome EventStateInfo :=
  s ← store f id i value s; MarkFieldSet id (field_index f + i) s.

Definition IsSet (f : EventField) (id i : Z) (s : EventStateInfo) : outcome bool :=
  IsFieldSet id (field_index f + i) s.

(** ** Growing *)

(** [std::vector::resize] *)
Definition vector_resize {A} (n : Z) (a : A) (v : list A) : list A :=
  take (Z.to_nat n) v ++ replicate (Z.to_nat n - length v) a.

(** [memcpy] of a field's array from the old buffer. *)
Definition copy_field (old : EventStateInfo) (new_cap : Z) (f : EventField) (buffer : list byte)
  : outcome (list byte) :=
  data ← slice (field_offset f * es_cap old) (Z.of_nat (field_size f) * es_size old) (es_buffer old);
  splice (field_offset f * new_cap) data buffer.

Fixpoint copy_fields (old : EventStateInfo) (new_cap : Z) (l : list EventField) (buffer : list byte)
  : outcome (list byte) :=
  match l with
  | [] => Done buffer
  | f :: l => buffer ← copy_field old new_cap f buffer; copy_fields old new_cap l buffer
  end.

Definition Reserve (new_cap : Z) (s : EventStateInfo) : outcome EventStateInfo :=
  if new_cap <=? es_cap s then Done s
  else
    let new_cap := wrap 32 (Z.land (new_cap + kAlignment - 1) (Z.lnot (kAlignment - 1))) in
    let num_bytes := new_cap * kElemSize in
    let is_set_num_bytes := new_cap * kNumFields / 8 + 1 in
    let is_set_buffer := vector_resize is_set_num_bytes 0 (es_is_set_buffer s) in
    let new_buffer_size := (num_bytes + sizeof_max_align_t - 1) / sizeof_max_align_t in
    buffer ← copy_fields s new_cap all_fields (zeros (sizeof_max_align_t * new_buffer_size));
    Done (mkEventState (es_size s) new_cap buffer is_set_buffer).

(** Value-initialization of the elements of one field, and of all of them. *)
Fixpoint init_elements (f : EventField) (id : Z) (n : nat) (i : Z) (s : EventStateInfo) : outcome EventStateInfo :=
  match n with
  | O => Done s
  | S n =>
      s ← store f id i (zeros (Z.of_nat (element_size f))) s;
      init_elements f id n (i + 1) s
  end.

Fixpoint init_fields (id : Z) (l : list EventField) (s : EventStateInfo) : outcome EventStateInfo :=
  match l with
  | [] => Done s
  | f :: l => s ← init_elements f id (array_count f) 0 s; init_fields id l s
  end.

Definition ensure_room (s : EventStateInfo) : outcome (option EventStateInfo) :=
  if es_cap s <=? es_size s then
    let new_cap := if 0 <? es_cap s then wrap 32 (es_cap s * 2) else kAlignment in
    if new_cap <=? es_cap s then Done None else s ← Reserve new_cap s; Done (Some s)
  else Done (Some s).

(** The iterator it returns is an [Id]; at the greatest capacity it is [end]. *)
Definition Add (s : EventStateInfo) : outcome (Z * EventStateInfo) :=
  room ← ensure_room s;
  match room with
  | None => Done (es_size s, s)
  | Some s =>
      let id := es_size s in
      s ← init_fields id all_fields s;
      Done (id, set_es_size (wrap 32 (es_size s + 1)) s)
  end.

Definition Clear (s : EventStateInfo) : EventStateInfo := set_es_size 0 s.

(** ** Assigning an element to another, of the same object *)

Definition copy_array (f : EventField) (id other_id : Z) (s : EventStateInfo) : outcome EventStateInfo :=
  data ← slice (FieldPtr f other_id 0 s) (Z.of_nat (field_size f)) (es_buffer s); store f id 0 data s.

Definition assign_field (f : EventField) (id other_id : Z) (s : EventStateInfo) : outcome EventStateInfo :=
  if is_array f then copy_array f id other_id s
  else value ← GetField f other_id 0 s; SetField f id 0 value s.

Fixpoint assign_fields (l : list EventField) (id other_id : Z) (s : EventStateInfo) : outcome EventStateInfo :=
  match l with
  | [] => Done s
  | f :: l => s ← assign_field f id other_id s; assign_fields l id other_id s
  end.

Definition Ref_assign (id other_id : Z) (s : EventStateInfo) : outcome EventStateInfo :=
  assign_fields all_fields id other_id s.

Definition swap_field (f : EventField) (id other_id : Z) (s : EventStateInfo) : outcome EventStateInfo :=
  if is_array f then
    val ← slice (FieldPtr f id 0 s) (Z.of_nat (field_size f)) (es_buffer s);
    s ← copy_array f id other_id s; store f other_id 0 val s
  else
    val ← GetField f id 0 s;
    other_val ← GetField f other_id 0 s;
    s ← SetField f id 0 other_val s; SetField f other_id 0 val s.

Fixpoint swap_fields (l : list EventField) (id other_id : Z) (s : EventStateInfo) : outcome EventStateInfo :=
  match l with
  | [] => Done s
  | f :: l => s ← swap_field f id other_id s; swap_fields l id other_id s
  end.

Definition Ref_swap (id other_id : Z) (s : EventStateInfo) : outcome EventStateInfo :=
  swap_fields all_fields id other_id s.

(** ** The layout *)

Lemma all_fields_complete f : f ∈ all_fields.
Proof. apply list_elem_of_In. destruct f; vm_compute; tauto. Qed.

Lemma all_fields_NoDup : NoDup all_fields.
Proof. apply (bool_decide_unpack _). by vm_compute. Qed.

(** What holds of all fields, or of all pairs of fields, is checked by evaluation. *)
Lemma for_all_fields (P : EventField -> bool) f : forallb P all_fields = true -> P f = true.
Proof. rewrite forallb_forall. intros Hp. apply Hp, list_elem_of_In, all_fields_complete. Qed.

Definition apart (start : EventField -> Z) (size : EventField -> nat) (f g : EventField) : bool :=
  bool_decide (f = g) || (start f + Z.of_nat (size f) <=? start g) || (start g + Z.of_nat (size g) <=? start f).

Lemma apart_spec start size f g :
  forallb (fun f => forallb (apart start size f) all_fields) all_fields = true -> f <> g ->
  start f + Z.of_nat (size f) <= start g \/ start g + Z.of_nat (size g) <= start f.
Proof.
  intros Ht Hne. apply (for_all_fields _ f), (for_all_fields _ g) in Ht. unfold apart in Ht.
  rewrite bool_decide_eq_false_2 in Ht by done. cbn [orb] in Ht. apply orb_true_iff in Ht as [?%Z.leb_le|?%Z.leb_le]; auto.
Qed.

Lemma field_index_apart f g : f <> g ->
  field_index f + Z.of_nat (array_count f) <= field_index g \/ field_index g + Z.of_nat (array_count g) <= field_index f.
Proof. apply apart_spec. by vm_compute. Qed.

Lemma field_offset_apart f g : f <> g ->
  field_offset f + Z.of_nat (field_size f) <= field_offset g \/ field_offset g + Z.of_nat (field_size g) <= field_offset f.
Proof. apply apart_spec. by vm_compute. Qed.

Definition within (start : EventField -> Z) (size : EventField -> nat) (total : Z) (f : EventField) : bool :=
  (0 <=? start f) && (start f + Z.of_nat (size f) <=? total).

Lemma field_index_within f : 0 <= field_index f /\ field_index f + Z.of_nat (array_count f) <= kNumFields.
Proof.
  pose proof (for_all_fields (within field_index array_count kNumFields) f (eq_refl _)) as H. unfold within in H. zbool. lia.
Qed.

Lemma field_offset_within f : 0 <= field_offset f /\ field_offset f + Z.of_nat (field_size f) <= kElemSize.
Proof.
  pose proof (for_all_fields (within field_offset field_size kElemSize) f (eq_refl _)) as H. unfold within in H. zbool. lia.
Qed.

Lemma array_count_range f : 1 <= Z.of_nat (array_count f) <= 16.
Proof. destruct f; cbn; lia. Qed.

Lemma element_size_range f : 1 <= Z.of_nat (element_size f) <= 32.
Proof. destruct f; cbn; lia. Qed.

Lemma kNumFields_eq : kNumFields = 126. Proof. by vm_compute. Qed.
Lemma kElemSize_eq : kElemSize = 1173. Proof. by vm_compute. Qed.

(** ** Lemmas on buffers *)

Definition bytes_at (p n : Z) (buffer : list byte) : list byte := take (Z.to_nat n) (drop (Z.to_nat p) buffer).

Definition spliced (p : Z) (v buffer : list byte) : list byte :=
  take (Z.to_nat p) buffer ++ v ++ drop (Z.to_nat p + length v) buffer.

Lemma slice_spec p n buffer : p + n <= Z.of_nat (length buffer) -> slice p n buffer = Done (bytes_at p n buffer).
Proof. intros H. unfold slice. by rewrite (proj2 (Z.leb_le _ _)). Qed.

Lemma splice_spec p v buffer : p + Z.of_nat (length v) <= Z.of_nat (length buffer) ->
  splice p v buffer = Done (spliced p v buffer).
Proof. intros H. unfold splice. by rewrite (proj2 (Z.leb_le _ _)). Qed.

Lemma length_spliced p v buffer : 0 <= p -> p + Z.of_nat (length v) <= Z.of_nat (length buffer) ->
  length (spliced p v buffer) = length buffer.
Proof. intros Hp H. unfold spliced. rewrite !length_app, length_take, length_drop. lia. Qed.

Lemma length_bytes_at p n buffer : 0 <= p -> 0 <= n -> p + n <= Z.of_nat (length buffer) -> length (bytes_at p n buffer) = Z.to_nat n.
Proof. intros Hp Hn H. unfold bytes_at. rewrite length_take, length_drop. lia. Qed.

Lemma bytes_at_spliced p v buffer : 0 <= p -> p + Z.of_nat (length v) <= Z.of_nat (length buffer) ->
  bytes_at p (Z.of_nat (length v)) (spliced p v buffer) = v.
Proof.
  intros Hp H. unfold bytes_at, spliced. rewrite Nat2Z.id, drop_app_length' by (rewrite length_take; lia). apply take_app_length.
Qed.

Lemma bytes_at_spliced_other p v q n buffer : 0 <= p -> 0 <= q -> 0 <= n ->
  p + Z.of_nat (length v) <= Z.of_nat (length buffer) -> q + n <= p \/ p + Z.of_nat (length v) <= q ->
  bytes_at q n (spliced p v buffer) = bytes_at q n buffer.
Proof.
  intros Hp Hq Hn Hl Hd. unfold bytes_at, spliced. apply list_eq. intros k. destruct (decide (k < Z.to_nat n)%nat).
  2: { by rewrite !lookup_take_ge by lia. }
  rewrite !lookup_take_lt, !lookup_drop by lia. destruct Hd as [Hd|Hd].
  - rewrite lookup_app_l by (rewrite length_take; lia). apply lookup_take_lt. lia.
  - rewrite !lookup_app_r by (rewrite ?length_take; lia). rewrite lookup_drop, length_take. f_equal. lia.
Qed.

(** A part of a range. *)
Lemma bytes_at_part p n q m buffer : 0 <= p -> 0 <= q -> 0 <= m -> q + m <= n ->
  bytes_at q m (bytes_at p n buffer) = bytes_at (p + q) m buffer.
Proof.
  intros Hp Hq Hm Hn. unfold bytes_at. apply list_eq. intros k. destruct (decide (k < Z.to_nat m)%nat).
  2: { by rewrite !lookup_take_ge by lia. }
  rewrite !lookup_take_lt, !lookup_drop, lookup_take_lt, lookup_drop by lia. f_equal. lia.
Qed.

(** ** Lemmas on bits *)

Definition bit_at (b : Z) (v : list Z) : bool :=
  match v !! Z.to_nat (b / 8) with Some x => Z.testbit x (b mod 8) | None => false end.

Lemma land_one_bit x k : 0 <= k -> negb (Z.land x (Z.shiftl 1 k) =? 0) = Z.testbit x k.
Proof.
  intros Hk. rewrite Z.shiftl_1_l. destruct (Z.testbit x k) eqn:E.
  - apply negb_true_iff, Z.eqb_neq. intros H. apply (f_equal (fun z => Z.testbit z k)) in H.
    by rewrite Z.land_spec, E, Z.pow2_bits_true, Z.bits_0 in H.
  - apply negb_false_iff, Z.eqb_eq, Z.bits_inj'. intros i Hi. rewrite Z.land_spec, Z.bits_0.
    destruct (decide (i = k)) as [->|]; [by rewrite E|]. by rewrite Z.pow2_bits_false, andb_false_r.
Qed.

Lemma bit_byte_inj b b' : 0 <= b -> 0 <= b' -> Z.to_nat (b / 8) = Z.to_nat (b' / 8) -> b mod 8 = b' mod 8 -> b = b'.
Proof.
  intros. pose proof (Z.div_pos b 8). pose proof (Z.div_pos b' 8).
  rewrite (Z.div_mod b 8), (Z.div_mod b' 8) by lia. lia.
Qed.

Lemma bit_at_marked v b b' x : 0 <= b -> 0 <= b' -> v !! Z.to_nat (b / 8) = Some x ->
  bit_at b' (<[Z.to_nat (b / 8) := Z.lor x (Z.shiftl 1 (b mod 8))]> v) = (b' =? b) || bit_at b' v.
Proof.
  intros Hb Hb' Hx. unfold bit_at. pose proof (Z.mod_pos_bound b 8). pose proof (Z.mod_pos_bound b' 8).
  destruct (decide (Z.to_nat (b' / 8) = Z.to_nat (b / 8))) as [E|Hne].
  - rewrite E, list_lookup_insert_eq, Hx by by eapply lookup_lt_Some. rewrite Z.lor_spec, Z.shiftl_1_l, Z.pow2_bits_eqb by lia.
    destruct (Z.eqb_spec b' b) as [->|]; [by rewrite Z.eqb_refl, orb_true_r|].
    rewrite (proj2 (Z.eqb_neq (b mod 8) (b' mod 8))), orb_false_r; [done|]. intros Em. by apply bit_byte_inj in E.
  - rewrite list_lookup_insert_ne by done. rewrite (proj2 (Z.eqb_neq b' b)); [done|]. by intros ->.
Qed.

Lemma bit_at_resized n v b : Z.of_nat (length v) <= n -> bit_at b (vector_resize n 0 v) = bit_at b v.
Proof.
  intros Hn. unfold bit_at, vector_resize. rewrite take_ge by lia. destruct (decide (Z.to_nat (b / 8) < length v)%nat).
  - by rewrite lookup_app_l.
  - rewrite lookup_app_r, (proj2 (lookup_ge_None v (Z.to_nat (b / 8)))) by lia.
    destruct (replicate _ _ !! _) eqn:E; [|done]. apply lookup_replicate in E as [-> _]. apply Z.bits_0.
Qed.

(** ** What the store represents

    An element is the map of the values that it was given; a field that was not set has
    zeros. *)

Definition field_number (f : EventField) : nat := length (fields_before f all_fields).

#[global] Instance EventField_countable : Countable EventField.
Proof.
  apply (inj_countable field_number (fun n => all_fields !! n)). intros f. by destruct f.
Defined.

Abbreviation Row := (gmap (EventField * nat) (list byte)) (only parsing).

Definition value_of (row : Row) (f : EventField) (i : nat) : list byte :=
  default (zeros (Z.of_nat (element_size f))) (row !! (f, i)).

Definition is_set_in (row : Row) (f : EventField) (i : nat) : bool := bool_decide (is_Some (row !! (f, i))).

(** The place of an element, and its bit. *)
Definition place (cap : Z) (f : EventField) (id i : nat) : Z :=
  field_offset f * cap + (Z.of_nat id * Z.of_nat (array_count f) + Z.of_nat i) * Z.of_nat (element_size f).

Definition flag_of (f : EventField) (id i : nat) : Z := Z.of_nat id * kNumFields + (field_index f + Z.of_nat i).

(** The capacity is a multiple of the alignment, and small enough for the bits to have
    32-bit numbers. *)
Record room (s : EventStateInfo) : Prop := {
  room_size : 0 <= es_size s <= es_cap s;
  room_bits : kNumFields * es_cap s < 2 ^ 32;
  room_buffer : kElemSize * es_cap s <= Z.of_nat (length (es_buffer s));
  room_is_set : kNumFields * es_cap s <= 8 * Z.of_nat (length (es_is_set_buffer s));
  room_is_set_fits : Z.of_nat (length (es_is_set_buffer s)) <= es_cap s * kNumFields / 8 + 1
}.

Record represents (s : EventStateInfo) (rows : list Row) : Prop := {
  rep_room : room s;
  rep_aligned : es_cap s mod kAlignment = 0;
  rep_size : es_size s = Z.of_nat (length rows);
  rep_values id row f i : rows !! id = Some row -> (i < array_count f)%nat ->
    bytes_at (place (es_cap s) f id i) (Z.of_nat (element_size f)) (es_buffer s) = value_of row f i;
  rep_flags id row f i : rows !! id = Some row -> (i < array_count f)%nat ->
    bit_at (flag_of f id i) (es_is_set_buffer s) = is_set_in row f i;
  rep_clear b : kNumFields * es_size s <= b -> bit_at b (es_is_set_buffer s) = false
}.

(** *** Places *)

Lemma field_size_mul f : Z.of_nat (field_size f) = Z.of_nat (array_count f) * Z.of_nat (element_size f).
Proof. unfold field_size. lia. Qed.

(** Elements lie in the array of their field. *)
Lemma place_in_array cap f id i : Z.of_nat id < cap -> (i < array_count f)%nat ->
  field_offset f * cap <= place cap f id i /\
  place cap f id i + Z.of_nat (element_size f) <= (field_offset f + Z.of_nat (field_size f)) * cap.
Proof.
  intros Hid Hi. unfold place. rewrite field_size_mul. pose proof (element_size_range f).
  set (e := Z.of_nat (element_size f)) in *. set (c := Z.of_nat (array_count f)). set (k := Z.of_nat id * c + Z.of_nat i).
  assert (0 <= k) as Hk by (subst k; nia). assert (k + 1 <= cap * c) as Hk' by (subst k c; nia).
  clearbody k e c. split; [nia|].
  transitivity (field_offset f * cap + cap * c * e); [|lia]. nia.
Qed.

Lemma place_in_buffer s f id i : room s -> Z.of_nat id < es_cap s -> (i < array_count f)%nat ->
  0 <= place (es_cap s) f id i /\
  place (es_cap s) f id i + Z.of_nat (element_size f) <= Z.of_nat (length (es_buffer s)).
Proof.
  intros Hr Hid Hi. destruct (place_in_array _ _ _ _ Hid Hi). pose proof (room_buffer _ Hr).
  pose proof (field_offset_within f). nia.
Qed.

Lemma place_apart cap f g id jd i j : Z.of_nat id < cap -> Z.of_nat jd < cap ->
  (i < array_count f)%nat -> (j < array_count g)%nat -> (f, id, i) <> (g, jd, j) ->
  place cap g jd j + Z.of_nat (element_size g) <= place cap f id i \/
  place cap f id i + Z.of_nat (element_size f) <= place cap g jd j.
Proof.
  intros Hid Hjd Hi Hj Hne. pose proof (place_in_array _ _ _ _ Hid Hi). pose proof (place_in_array _ _ _ _ Hjd Hj).
  destruct (decide (f = g)) as [->|Hfg].
  - unfold place. pose proof (element_size_range g).
    assert (Z.of_nat id * Z.of_nat (array_count g) + Z.of_nat i <> Z.of_nat jd * Z.of_nat (array_count g) + Z.of_nat j).
    { intros E. assert (id = jd) as <- by nia. apply Hne. repeat f_equal. lia. }
    nia.
  - destruct (field_offset_apart f g Hfg); [right|left]; nia.
Qed.

Lemma FieldPtr_place s f id i : room s -> Z.of_nat id < es_cap s -> (i < array_count f)%nat ->
  FieldPtr f (Z.of_nat id) (Z.of_nat i) s = place (es_cap s) f id i.
Proof.
  intros Hr Hid Hi. unfold FieldPtr, place. pose proof (room_bits _ Hr). rewrite kNumFields_eq in *.
  pose proof (array_count_range f). rewrite wrap_small; [done|]. unfold in_width. split; [lia|]. nia.
Qed.

(** *** Flags *)

Lemma flag_range s f id i : room s -> Z.of_nat id < es_cap s -> (i < array_count f)%nat ->
  0 <= flag_of f id i < kNumFields * es_cap s /\
  kNumFields * Z.of_nat id <= flag_of f id i < kNumFields * (Z.of_nat id + 1).
Proof.
  intros Hr Hid Hi. unfold flag_of. pose proof (field_index_within f). rewrite kNumFields_eq in *. lia.
Qed.

Lemma field_bit_flag s f id i : room s -> Z.of_nat id < es_cap s -> (i < array_count f)%nat ->
  field_bit (Z.of_nat id) (field_index f + Z.of_nat i) = flag_of f id i.
Proof.
  intros Hr Hid Hi. unfold field_bit, flag_of. pose proof (flag_range s f id i Hr Hid Hi) as Hf. unfold flag_of in Hf.
  pose proof (room_bits _ Hr). apply wrap_small. unfold in_width. lia.
Qed.

Lemma flag_inj f g id jd i j : (i < array_count f)%nat -> (j < array_count g)%nat ->
  flag_of f id i = flag_of g jd j -> (f, id, i) = (g, jd, j).
Proof.
  intros Hi Hj. unfold flag_of. pose proof (field_index_within f). pose proof (field_index_within g). rewrite kNumFields_eq in *.
  intros E. assert (id = jd) as -> by lia. destruct (decide (f = g)) as [->|Hne].
  - repeat f_equal. lia.
  - destruct (field_index_apart f g Hne); lia.
Qed.

Lemma flag_byte s f id i : room s -> Z.of_nat id < es_cap s -> (i < array_count f)%nat ->
  exists x, es_is_set_buffer s !! Z.to_nat (flag_of f id i / 8) = Some x.
Proof.
  intros Hr Hid Hi. apply lookup_lt_is_Some_2. pose proof (flag_range s f id i Hr Hid Hi). pose proof (room_is_set _ Hr).
  assert (flag_of f id i / 8 < Z.of_nat (length (es_is_set_buffer s))) by (apply Z.div_lt_upper_bound; lia).
  pose proof (Z.div_pos (flag_of f id i) 8). lia.
Qed.

(** *** Stores *)

Definition value_at (f : EventField) (id i : nat) (s : EventStateInfo) : list byte :=
  bytes_at (place (es_cap s) f id i) (Z.of_nat (element_size f)) (es_buffer s).

(** [s'] differs from [s] in the buffer only. *)
Definition same_but_buffer (s s' : EventStateInfo) : Prop :=
  es_size s' = es_size s /\ es_cap s' = es_cap s /\ es_is_set_buffer s' = es_is_set_buffer s /\
  length (es_buffer s') = length (es_buffer s).

Lemma same_room s s' : same_but_buffer s s' -> room s -> room s'.
Proof. intros (E1 & E2 & E3 & E4) [? ? ? ? ?]. split; by rewrite ?E1, ?E2, ?E3, ?E4. Qed.

Lemma same_trans s1 s2 s3 : same_but_buffer s1 s2 -> same_but_buffer s2 s3 -> same_but_buffer s1 s3.
Proof. unfold same_but_buffer. intuition congruence. Qed.

Lemma store_spec f id i v s : room s -> Z.of_nat id < es_cap s -> (i < array_count f)%nat -> length v = element_size f ->
  exists s', store f (Z.of_nat id) (Z.of_nat i) v s = Done s' /\ same_but_buffer s s' /\ value_at f id i s' = v /\
    (forall g jd j, Z.of_nat jd < es_cap s -> (j < array_count g)%nat -> (g, jd, j) <> (f, id, i) ->
      value_at g jd j s' = value_at g jd j s).
Proof.
  intros Hr Hid Hi Hv. destruct (place_in_buffer s f id i Hr Hid Hi) as [Hp Hb]. unfold store.
  rewrite FieldPtr_place, splice_spec by (try done; lia). eexists. split; [reflexivity|]. split; [|split].
  - repeat split. cbn. apply length_spliced; lia.
  - unfold value_at. cbn. rewrite <- Hv at 1. apply bytes_at_spliced; lia.
  - intros g jd j Hjd Hj Hne. destruct (place_in_buffer s g jd j Hr Hjd Hj).
    unfold value_at. cbn. apply bytes_at_spliced_other; try lia. rewrite Hv.
    destruct (place_apart (es_cap s) g f jd id j i); auto; lia.
Qed.

Lemma mark_spec f id i s : room s -> Z.of_nat id < es_cap s -> (i < array_count f)%nat ->
  exists v, MarkFieldSet (Z.of_nat id) (field_index f + Z.of_nat i) s = Done (set_es_is_set_buffer v s) /\
    length v = length (es_is_set_buffer s) /\
    (forall b, 0 <= b -> bit_at b v = (b =? flag_of f id i) || bit_at b (es_is_set_buffer s)).
Proof.
  intros Hr Hid Hi. destruct (flag_byte s f id i Hr Hid Hi) as [x Hx]. unfold MarkFieldSet.
  rewrite (field_bit_flag s) by done. rewrite Hx. eexists. split; [reflexivity|]. split; [apply length_insert|].
  intros b Hb. apply bit_at_marked; try done. pose proof (flag_range s f id i Hr Hid Hi). lia.
Qed.

(** ** Accessors *)

Lemma represents_lookup s rows id row : represents s rows -> rows !! id = Some row ->
  Z.of_nat id < es_size s /\ Z.of_nat id < es_cap s.
Proof.
  intros Hs Hl%lookup_lt_Some. pose proof (rep_size _ _ Hs). pose proof (room_size _ (rep_room _ _ Hs)). lia.
Qed.

Lemma GetField_value s f id i : room s -> Z.of_nat id < es_cap s -> (i < array_count f)%nat ->
  GetField f (Z.of_nat id) (Z.of_nat i) s = Done (value_at f id i s).
Proof.
  intros Hr Hid Hi. unfold GetField. rewrite FieldPtr_place by done. destruct (place_in_buffer s f id i) as [_ Hb]; try done.
  by rewrite slice_spec.
Qed.

Lemma IsSet_bit s f id i : room s -> Z.of_nat id < es_cap s -> (i < array_count f)%nat ->
  IsSet f (Z.of_nat id) (Z.of_nat i) s = Done (bit_at (flag_of f id i) (es_is_set_buffer s)).
Proof.
  intros Hr Hid Hi. unfold IsSet, IsFieldSet. rewrite (field_bit_flag s) by done. destruct (flag_byte s f id i) as [x Hx]; try done.
  unfold bit_at. rewrite Hx. f_equal. apply land_one_bit. by apply Z.mod_pos_bound.
Qed.

Lemma GetField_represents s rows id row f i : represents s rows -> rows !! id = Some row -> (i < array_count f)%nat ->
  GetField f (Z.of_nat id) (Z.of_nat i) s = Done (value_of row f i).
Proof.
  intros Hs Hl Hi. destruct (represents_lookup _ _ _ _ Hs Hl). rewrite GetField_value by (try done; apply Hs). f_equal. by apply Hs.
Qed.

Lemma IsSet_represents s rows id row f i : represents s rows -> rows !! id = Some row -> (i < array_count f)%nat ->
  IsSet f (Z.of_nat id) (Z.of_nat i) s = Done (is_set_in row f i).
Proof.
  intros Hs Hl Hi. destruct (represents_lookup _ _ _ _ Hs Hl). rewrite IsSet_bit by (try done; apply Hs). f_equal. by apply Hs.
Qed.

Lemma is_set_in_insert (row : Row) f i v g j :
  is_set_in (<[(f, i) := v]> row) g j = bool_decide ((f, i) = (g, j)) || is_set_in row g j.
Proof.
  unfold is_set_in. destruct (decide ((f, i) = (g, j))) as [E|E].
  - injection E as <- <-. rewrite lookup_insert_eq, (bool_decide_eq_true_2 (is_Some (Some v))), (bool_decide_eq_true_2 (_ = _)) by done. done.
  - rewrite lookup_insert_ne, (bool_decide_eq_false_2 _ E) by done. done.
Qed.

Lemma SetField_represents s rows id row f i v : represents s rows -> rows !! id = Some row -> (i < array_count f)%nat ->
  length v = element_size f ->
  exists s', SetField f (Z.of_nat id) (Z.of_nat i) v s = Done s' /\ represents s' (<[id := <[(f, i) := v]> row]> rows).
Proof.
  intros Hs Hl Hi Hv. destruct (represents_lookup _ _ _ _ Hs Hl) as [Hlt Hcap]. pose proof (rep_room _ _ Hs) as Hr.
  destruct (store_spec f id i v s Hr Hcap Hi Hv) as (s1 & E1 & Hsame & Hval & Hother).
  pose proof (same_room _ _ Hsame Hr) as Hr1. destruct Hsame as (Es & Ec & Eb & El).
  destruct (mark_spec f id i s1) as (flags & E2 & Hlen & Hbit); [done|by rewrite Ec|done|].
  unfold SetField. rewrite E1. cbn [mbind outcome_bind]. rewrite E2. eexists. split; [reflexivity|].
  assert (forall jd row', <[id := <[(f, i) := v]> row]> rows !! jd = Some row' ->
    exists row0, rows !! jd = Some row0 /\ row' = (if decide (jd = id) then <[(f, i) := v]> row else row0)) as Hrow.
  { intros jd row' Hl'. apply list_lookup_insert_Some in Hl' as [(<- & <- & _)|(Hne & Hl')].
    - exists row. by rewrite decide_True.
    - exists row'. by rewrite decide_False. }
  split; cbn.
  - destruct Hr1 as [? ? ? ? ?]. split; cbn; try done; by rewrite Hlen.
  - rewrite Ec. apply Hs.
  - rewrite Es, length_insert. apply Hs.
  - intros jd row' g j (row0 & Hl0 & ->)%Hrow Hj. destruct (represents_lookup _ _ _ _ Hs Hl0) as [_ Hjd].
    change (bytes_at _ _ _) with (value_at g jd j s1). destruct (decide ((g, jd, j) = (f, id, i))) as [E|E].
    + injection E as -> -> ->. rewrite decide_True by done. unfold value_of. by rewrite lookup_insert_eq.
    + rewrite Hother by done. unfold value_at. rewrite (rep_values _ _ Hs _ _ _ _ Hl0 Hj). case_decide; [|done]. subst.
      rewrite Hl in Hl0. injection Hl0 as <-. unfold value_of. rewrite lookup_insert_ne; [done|]. intros [= -> ->]. by apply E.
  - intros jd row' g j (row0 & Hl0 & ->)%Hrow Hj. destruct (represents_lookup _ _ _ _ Hs Hl0) as [_ Hjd].
    destruct (flag_range s g jd j Hr Hjd Hj) as [[Hf _] _]. rewrite Hbit, Eb, (rep_flags _ _ Hs _ _ _ _ Hl0 Hj) by done.
    destruct (Z.eqb_spec (flag_of g jd j) (flag_of f id i)) as [E|E]; cbn [orb].
    + apply flag_inj in E as [= -> -> ->]; try done. rewrite decide_True, is_set_in_insert, bool_decide_eq_true_2 by done. done.
    + case_decide; [|done]. subst. rewrite Hl in Hl0. injection Hl0 as <-.
      rewrite is_set_in_insert, bool_decide_eq_false_2; [done|]. intros [= -> ->]. by apply E.
  - intros b Hb. rewrite Es in Hb. destruct (flag_range s f id i Hr Hcap Hi) as [_ Hf].
    rewrite Hbit, Eb, (rep_clear _ _ Hs b Hb), orb_false_r by nia. apply Z.eqb_neq. nia.
Qed.

(** ** Growing *)

(** The array of a field, and the part of it that is in use. *)
Definition array_of (cap size : Z) (f : EventField) (buffer : list byte) : list byte :=
  bytes_at (field_offset f * cap) (Z.of_nat (field_size f) * size) buffer.

Lemma copy_field_spec old cap f buffer : room old -> es_cap old < cap -> kElemSize * cap <= Z.of_nat (length buffer) ->
  exists data, copy_field old cap f buffer = Done (spliced (field_offset f * cap) data buffer) /\
    data = array_of (es_cap old) (es_size old) f (es_buffer old) /\
    Z.of_nat (length data) = Z.of_nat (field_size f) * es_size old /\
    field_offset f * cap + Z.of_nat (length data) <= Z.of_nat (length buffer).
Proof.
  intros Hr Hc Hb. pose proof (room_size _ Hr). pose proof (room_buffer _ Hr). pose proof (field_offset_within f).
  unfold copy_field. rewrite slice_spec by nia. cbn [mbind outcome_bind].
  assert (Z.of_nat (length (array_of (es_cap old) (es_size old) f (es_buffer old))) = Z.of_nat (field_size f) * es_size old) as El.
  { unfold array_of. rewrite length_bytes_at by nia. lia. }
  eexists. split; [apply splice_spec; fold (array_of (es_cap old) (es_size old) f (es_buffer old)); nia|].
  split; [done|]. split; [done|]. fold (array_of (es_cap old) (es_size old) f (es_buffer old)). nia.
Qed.

Lemma copy_fields_spec old cap l : forall buffer, room old -> es_cap old < cap -> NoDup l ->
  kElemSize * cap <= Z.of_nat (length buffer) ->
  exists buffer', copy_fields old cap l buffer = Done buffer' /\ length buffer' = length buffer /\
    (forall f, f ∈ l -> array_of cap (es_size old) f buffer' = array_of (es_cap old) (es_size old) f (es_buffer old)) /\
    (forall f, f ∉ l -> array_of cap (es_size old) f buffer' = array_of cap (es_size old) f buffer).
Proof.
  induction l as [|f l IH]; intros buffer Hr Hc Hnd Hb.
  { eexists. split; [reflexivity|]. split; [done|]. split; [|done]. intros f Hf. by apply elem_of_nil in Hf. }
  apply NoDup_cons in Hnd as [Hf Hnd]. destruct (copy_field_spec old cap f buffer Hr Hc Hb) as (data & E & Ed & Hl & Hfit).
  pose proof (room_size _ Hr). pose proof (field_offset_within f).
  pose proof (length_spliced (field_offset f * cap) data buffer ltac:(nia) Hfit) as Elen.
  destruct (IH (spliced (field_offset f * cap) data buffer)) as (buffer' & E' & Hlen & Hin & Hout); try done; [by rewrite Elen|].
  cbn [copy_fields]. rewrite E. cbn [mbind outcome_bind]. rewrite E'. eexists. split; [reflexivity|].
  split; [by rewrite Hlen|]. split.
  - intros g [->|Hg]%elem_of_cons; [|by apply Hin]. rewrite Hout by done. rewrite <- Ed. unfold array_of. rewrite <- Hl.
    apply bytes_at_spliced; [nia|done].
  - intros g [Hne Hg]%not_elem_of_cons. rewrite Hout by done. unfold array_of. pose proof (field_offset_within g).
    apply bytes_at_spliced_other; try nia. destruct (field_offset_apart f g); [congruence|right|left]; nia.
Qed.

Lemma value_in_array cap size f id i buffer : 0 <= size <= cap -> Z.of_nat id < size -> (i < array_count f)%nat ->
  bytes_at (place cap f id i) (Z.of_nat (element_size f)) buffer =
  bytes_at (place cap f id i - field_offset f * cap) (Z.of_nat (element_size f)) (array_of cap size f buffer).
Proof.
  intros Hs Hid Hi. pose proof (field_offset_within f). pose proof (element_size_range f) as He.
  assert (0 <= Z.of_nat id * Z.of_nat (array_count f) + Z.of_nat i /\
          Z.of_nat id * Z.of_nat (array_count f) + Z.of_nat i + 1 <= size * Z.of_nat (array_count f)) as [Hk Hk'] by nia.
  unfold array_of, place. rewrite field_size_mul.
  set (k := Z.of_nat id * Z.of_nat (array_count f) + Z.of_nat i) in *. rewrite bytes_at_part by nia. f_equal. lia.
Qed.

Lemma round_up n : 0 <= n -> n + kAlignment < 2 ^ 32 ->
  wrap 32 (Z.land (n + kAlignment - 1) (Z.lnot (kAlignment - 1))) = (n + 15) / 16 * 16.
Proof.
  intros Hn Hb. change (kAlignment - 1) with (Z.ones 4). rewrite <- Z.ldiff_land, Z.ldiff_ones_r by lia.
  rewrite Z.shiftl_mul_pow2, Z.shiftr_div_pow2 by lia. change (2 ^ 4) with 16. replace (n + kAlignment - 1) with (n + 15) by (unfold kAlignment; lia).
  apply wrap_small. unfold in_width. unfold kAlignment in Hb. pose proof (Z.div_mod (n + 15) 16). pose proof (Z.mod_pos_bound (n + 15) 16). lia.
Qed.

Lemma Reserve_represents s rows n : represents s rows -> 0 <= n <= 2 ^ 25 ->
  exists s', Reserve n s = Done s' /\ represents s' rows /\ es_size s' = es_size s /\ n <= es_cap s'.
Proof.
  intros Hs Hn. unfold Reserve. destruct (Z.leb_spec n (es_cap s)) as [Hle|Hgt]; [by exists s|].
  pose proof (rep_room _ _ Hs) as Hr. rewrite round_up by (unfold kAlignment; lia).
  set (cap := (n + 15) / 16 * 16). assert (n <= cap <= 2 ^ 25 /\ cap mod 16 = 0) as [Hcap Hal].
  { subst cap. pose proof (Z.div_mod (n + 15) 16). pose proof (Z.mod_pos_bound (n + 15) 16).
    assert ((n + 15) / 16 < 2 ^ 21 + 1) by (apply Z.div_lt_upper_bound; lia). split; [lia|]. by apply Z.mod_mul. }
  pose proof kNumFields_eq as En. pose proof kElemSize_eq as Ek. pose proof (room_size _ Hr) as Hsz.
  set (len := sizeof_max_align_t * ((cap * kElemSize + sizeof_max_align_t - 1) / sizeof_max_align_t)).
  assert (kElemSize * cap <= len) as Hlen.
  { subst len. unfold sizeof_max_align_t. pose proof (Z.div_mod (cap * kElemSize + 32 - 1) 32).
    pose proof (Z.mod_pos_bound (cap * kElemSize + 32 - 1) 32). lia. }
  destruct (copy_fields_spec s cap all_fields (zeros len)) as (buffer & E & El & Hin & _); try done; [lia|apply all_fields_NoDup| |].
  { unfold zeros. rewrite length_replicate. lia. }
  rewrite E. eexists. split; [reflexivity|]. split; [|split; [done|cbn; lia]].
  unfold zeros in El. rewrite length_replicate in El. pose proof (room_is_set _ Hr). pose proof (room_is_set_fits _ Hr).
  assert (es_cap s * kNumFields / 8 <= cap * kNumFields / 8) by (apply Z.div_le_mono; lia).
  assert (0 <= cap * kNumFields / 8) by (apply Z.div_pos; lia).
  split; cbn [es_size es_cap es_buffer es_is_set_buffer].
  - split; cbn [es_size es_cap es_buffer es_is_set_buffer]; [lia|lia|lia| |]; unfold vector_resize;
      rewrite take_ge by lia; rewrite length_app, length_replicate; [|lia].
    pose proof (Z.div_mod (cap * kNumFields) 8). pose proof (Z.mod_pos_bound (cap * kNumFields) 8). lia.
  - done.
  - apply Hs.
  - intros id row f i Hl Hi. destruct (represents_lookup _ _ _ _ Hs Hl).
    rewrite (value_in_array cap (es_size s)), Hin by (try done; try lia; apply all_fields_complete).
    rewrite <- (rep_values _ _ Hs _ _ _ _ Hl Hi), (value_in_array (es_cap s) (es_size s)) by (done || lia).
    f_equal. unfold place. lia.
  - intros id row f i Hl Hi. rewrite bit_at_resized by lia. by apply Hs.
  - intros b Hb. rewrite bit_at_resized by lia. by apply Hs.
Qed.

(** ** Adding *)

(** [s'] is [s] with zeros in some elements of row [id]. *)
Definition zeroed (P : EventField -> nat -> Prop) (id : nat) (s s' : EventStateInfo) : Prop :=
  same_but_buffer s s' /\
  (forall f i, P f i -> (i < array_count f)%nat -> value_at f id i s' = zeros (Z.of_nat (element_size f))) /\
  (forall f jd i, Z.of_nat jd < es_cap s -> (i < array_count f)%nat -> jd <> id -> value_at f jd i s' = value_at f jd i s).

Lemma init_elements_spec f id n : forall i s, room s -> Z.of_nat id < es_cap s -> (i + n = array_count f)%nat ->
  exists s', init_elements f (Z.of_nat id) n (Z.of_nat i) s = Done s' /\
    zeroed (fun g j => g = f /\ (i <= j)%nat) id s s' /\
    (forall g j, (j < array_count g)%nat -> ~ (g = f /\ (i <= j)%nat) -> value_at g id j s' = value_at g id j s).
Proof.
  induction n as [|n IH]; intros i s Hr Hid Hi.
  { exists s. split; [done|]. split; [|done]. split; [done|]. split; [|done]. intros g j [-> Hj]. lia. }
  destruct (store_spec f id i (zeros (Z.of_nat (element_size f))) s) as (s1 & E & Hsame & Hv & Ho); try done; [lia| |].
  { unfold zeros. rewrite length_replicate. lia. }
  pose proof Hsame as (_ & Ecap & _).
  destruct (IH (S i) s1) as (s2 & E2 & (Hs2 & Hz2 & Ho2) & Hk2); [by eapply same_room|by rewrite Ecap|lia|].
  cbn [init_elements]. rewrite E. cbn [mbind outcome_bind]. replace (Z.of_nat i + 1) with (Z.of_nat (S i)) by lia.
  rewrite E2. eexists. split; [reflexivity|]. split; [split; [by eapply same_trans|split]|].
  - intros g j [-> Hj] Hlt. destruct (decide (j = i)) as [->|Hne]; [|apply Hz2; [split; [done|lia]|done]].
    rewrite Hk2; [done|lia|lia].
  - intros g jd j Hjd Hj Hne. rewrite Ho2, Ho; try done; [|by rewrite Ecap]. by intros [= -> -> ->].
  - intros g j Hj Hn. rewrite Hk2; [|done|intros [-> ?]; apply Hn; split; [done|lia]]. rewrite Ho; try done.
    intros [= -> ->]. by apply Hn.
Qed.

Lemma init_fields_spec id l : forall s, room s -> Z.of_nat id < es_cap s ->
  exists s', init_fields (Z.of_nat id) l s = Done s' /\ zeroed (fun g _ => g ∈ l) id s s' /\
    (forall g j, (j < array_count g)%nat -> g ∉ l -> value_at g id j s' = value_at g id j s).
Proof.
  induction l as [|f l IH]; intros s Hr Hid.
  { exists s. split; [done|]. split; [|done]. split; [done|]. split; [|done]. by intros g j ?%elem_of_nil. }
  destruct (init_elements_spec f id (array_count f) 0 s) as (s1 & E1 & (Hs1 & Hz1 & Ho1) & Hk1); try done; [].
  pose proof Hs1 as (_ & Ecap & _).
  destruct (IH s1) as (s2 & E2 & (Hs2 & Hz2 & Ho2) & Hk2); [by eapply same_room|by rewrite Ecap|].
  cbn [init_fields]. change 0 with (Z.of_nat 0). rewrite E1. cbn [mbind outcome_bind]. rewrite E2.
  eexists. split; [reflexivity|]. split; [split; [by eapply same_trans|split]|].
  - intros g j Hg Hj. destruct (decide (g ∈ l)) as [|Hn]; [by apply Hz2|]. apply elem_of_cons in Hg as [->|]; [|done].
    rewrite Hk2 by done. apply Hz1; [split; [done|lia]|done].
  - intros g jd j Hjd Hj Hne. rewrite Ho2, Ho1; try done. by rewrite Ecap.
  - intros g j Hj [Hne Hg]%not_elem_of_cons. rewrite Hk2, Hk1; try done. by intros [? _].
Qed.

Lemma ensure_room_represents s rows : represents s rows -> es_size s < 2 ^ 24 ->
  exists s', ensure_room s = Done (Some s') /\ represents s' rows /\ es_size s' = es_size s /\ es_size s' < es_cap s'.
Proof.
  intros Hs Hlt. unfold ensure_room. pose proof (room_size _ (rep_room _ _ Hs)) as Hsz.
  destruct (Z.leb_spec (es_cap s) (es_size s)) as [Hle|Hgt]; [|by exists s].
  set (n := if 0 <? es_cap s then wrap 32 (es_cap s * 2) else kAlignment).
  assert (es_cap s < n <= 2 ^ 25) as Hn.
  { subst n. unfold kAlignment. destruct (Z.ltb_spec 0 (es_cap s)); [|lia]. rewrite wrap_small by (unfold in_width; lia). lia. }
  rewrite (proj2 (Z.leb_gt _ _)) by lia. destruct (Reserve_represents s rows n Hs) as (s' & E & Hs' & Es & Hc); [lia|].
  rewrite E. exists s'. split; [done|]. split; [done|]. split; [done|]. lia.
Qed.

Lemma Add_represents s rows : represents s rows -> es_size s < 2 ^ 24 ->
  exists s', Add s = Done (Z.of_nat (length rows), s') /\ represents s' (rows ++ [∅]).
Proof.
  intros Hs Hlt. destruct (ensure_room_represents s rows Hs Hlt) as (s1 & E1 & Hs1 & Es1 & Hfree).
  unfold Add. rewrite E1. cbn [mbind outcome_bind]. rewrite (rep_size _ _ Hs1) in *. pose proof (rep_room _ _ Hs1) as Hr.
  destruct (init_fields_spec (length rows) all_fields s1 Hr Hfree) as (s2 & E2 & ((Es & Ec & Eb & El) & Hz & Ho) & _).
  rewrite E2. cbn [mbind outcome_bind]. eexists. split; [reflexivity|]. rewrite Es, (rep_size _ _ Hs1).
  rewrite wrap_small by (unfold in_width; lia).
  assert (forall jd row', (rows ++ [∅]) !! jd = Some row' -> rows !! jd = Some row' \/ jd = length rows /\ row' = ∅) as Hrow.
  { intros jd row' [Hl|[Hge Hl]]%lookup_app_Some; [by left|]. apply list_lookup_singleton_Some in Hl as [? <-]. right. split; [lia|done]. }
  split; cbn [set_es_size es_size es_cap es_buffer es_is_set_buffer].
  - destruct Hr as [? ? ? ? ?]. rewrite (rep_size _ _ Hs1) in *. split; cbn [set_es_size es_size es_cap es_buffer es_is_set_buffer]; rewrite ?Ec, ?Eb, ?El; try done. lia.
  - rewrite Ec. apply Hs1.
  - rewrite length_app. cbn. lia.
  - intros id row f i Hl Hi. change (bytes_at _ _ _) with (value_at f id i s2). destruct (Hrow _ _ Hl) as [Hl'|[-> ->]].
    + destruct (represents_lookup _ _ _ _ Hs1 Hl'). rewrite Ho; try done; [by apply Hs1|].
      apply lookup_lt_Some in Hl'. lia.
    + unfold value_of. rewrite lookup_empty. apply Hz; [apply all_fields_complete|done].
  - intros id row f i Hl Hi. rewrite Eb. destruct (Hrow _ _ Hl) as [Hl'|[-> ->]]; [by apply Hs1|].
    rewrite (rep_clear _ _ Hs1).
    + unfold is_set_in. by rewrite lookup_empty, bool_decide_eq_false_2 by by intros [? ?].
    + rewrite (rep_size _ _ Hs1). pose proof (flag_range s1 f (length rows) i Hr Hfree Hi). lia.
  - intros b Hb. rewrite Eb. apply (rep_clear _ _ Hs1). rewrite (rep_size _ _ Hs1). rewrite kNumFields_eq in *. lia.
Qed.

Lemma new_state_represents : represents new_EventStateInfo [].
Proof.
  split; [by split; vm_compute|done..|]. intros b _. unfold bit_at. cbn. by destruct (Z.to_nat (b / 8)).
Qed.

(** ** No loop that does not end

    Operations may leave a buffer, but never run out of fuel. *)
Definition in_fuel {A} (o : outcome A) : Prop := o <> OutOfFuel.

Lemma in_fuel_bind {A B} (m : outcome A) (k : A -> outcome B) : in_fuel m -> (forall a, in_fuel (k a)) -> in_fuel (m ≫= k).
Proof. unfold in_fuel. intros Hm Hk. destruct m; [apply Hk|done|by destruct Hm]. Qed.

Lemma slice_in_fuel p n buffer : in_fuel (slice p n buffer).
Proof. unfold in_fuel, slice. by case_match. Qed.

Lemma splice_in_fuel p v buffer : in_fuel (splice p v buffer).
Proof. unfold in_fuel, splice. by case_match. Qed.

Lemma store_in_fuel f id i value s : in_fuel (store f id i value s).
Proof. apply in_fuel_bind; [apply splice_in_fuel|done]. Qed.

Lemma SetField_in_fuel f id i value s : in_fuel (SetField f id i value s).
Proof. apply in_fuel_bind; [apply store_in_fuel|]. intros s'. unfold in_fuel, MarkFieldSet. by case_match. Qed.

Lemma copy_fields_in_fuel old new_cap l : forall buffer, in_fuel (copy_fields old new_cap l buffer).
Proof.
  induction l as [|f l IH]; intros buffer; [done|]. apply in_fuel_bind; [|done].
  apply in_fuel_bind; [apply slice_in_fuel|]. intros. apply splice_in_fuel.
Qed.

Lemma init_elements_in_fuel f id n : forall i s, in_fuel (init_elements f id n i s).
Proof. induction n as [|n IH]; intros i s; [done|]. apply in_fuel_bind; [apply store_in_fuel|done]. Qed.

Lemma init_fields_in_fuel id l : forall s, in_fuel (init_fields id l s).
Proof. induction l as [|f l IH]; intros s; [done|]. apply in_fuel_bind; [apply init_elements_in_fuel|done]. Qed.

Lemma Add_in_fuel s : in_fuel (Add s).
Proof.
  apply in_fuel_bind.
  - unfold ensure_room. destruct (es_cap s <=? es_size s); [|done]. set (n := if 0 <? es_cap s then _ else _).
    destruct (n <=? es_cap s); [done|]. apply in_fuel_bind; [|done]. unfold Reserve. destruct (n <=? es_cap s); [done|].
    apply in_fuel_bind; [apply copy_fields_in_fuel|done].
  - intros [s'|]; [|done]. apply in_fuel_bind; [apply init_fields_in_fuel|done].
Qed.

(** ** Refinement *)

Inductive StateOp :=
  | DoAdd
  | DoReserve (new_cap : Z)
  | DoSet (f : EventField) (id i : nat) (value : list byte).

Definition store_step (op : StateOp) (s : EventStateInfo) : outcome EventStateInfo :=
  match op with
  | DoAdd => '(_, s) ← Add s; Done s
  | DoReserve new_cap => Reserve new_cap s
  | DoSet f id i value => SetField f (Z.of_nat id) (Z.of_nat i) value s
  end.

Fixpoint store_run (ops : list StateOp) (s : EventStateInfo) : outcome EventStateInfo :=
  match ops with [] => Done s | op :: ops => s ← store_step op s; store_run ops s end.

(** The specification: a list of maps. [None] for an operation that is not allowed: an
    element or an index that does not exist, a value of another size, more than 2^24
    elements, room for more than 2^25. *)
Definition rows_step (op : StateOp) (rows : list Row) : option (list Row) :=
  match op with
  | DoAdd => if Z.of_nat (length rows) <? 2 ^ 24 then Some (rows ++ [∅]) else None
  | DoReserve new_cap => if (0 <=? new_cap) && (new_cap <=? 2 ^ 25) then Some rows else None
  | DoSet f id i value =>
      row ← rows !! id;
      if (i <? array_count f)%nat && (length value =? element_size f)%nat then Some (<[id := <[(f, i) := value]> row]> rows)
      else None
  end.

Fixpoint rows_run (ops : list StateOp) (rows : list Row) : option (list Row) :=
  match ops with [] => Some rows | op :: ops => rows ← rows_step op rows; rows_run ops rows end.

Lemma store_step_refines op s rows rows' : represents s rows -> rows_step op rows = Some rows' ->
  exists s', store_step op s = Done s' /\ represents s' rows'.
Proof.
  intros Hs. destruct op as [|n|f id i v]; cbn [rows_step store_step].
  - destruct (Z.ltb_spec (Z.of_nat (length rows)) (2 ^ 24)); [|done]. intros [= <-].
    destruct (Add_represents s rows Hs) as (s' & E & Hs'); [by rewrite (rep_size _ _ Hs)|]. rewrite E. by exists s'.
  - destruct (_ && _) eqn:E; [|done]. intros [= <-]. zbool.
    destruct (Reserve_represents s rows n Hs) as (s' & E' & Hs' & _); [done|]. by exists s'.
  - destruct (rows !! id) as [row|] eqn:El; [|done]. cbn [mbind option_bind]. destruct (_ && _) eqn:E; [|done].
    apply andb_true_iff in E as [Hi%Nat.ltb_lt Hv%Nat.eqb_eq]. intros [= <-]. by apply SetField_represents.
Qed.

Lemma store_run_refines ops : forall s rows rows', represents s rows -> rows_run ops rows = Some rows' ->
  exists s', store_run ops s = Done s' /\ represents s' rows'.
Proof.
  induction ops as [|op ops IH]; cbn [rows_run store_run]; intros s rows rows' Hs; [intros [= <-]; by exists s|].
  destruct (rows_step op rows) as [rows1|] eqn:E; [|done]. cbn [mbind option_bind]. intros Hr.
  destruct (store_step_refines op s rows rows1 Hs E) as (s1 & E1 & Hs1). rewrite E1. by eapply IH.
Qed.

(** C8: The structure of arrays is a list of maps: after any sequence of additions,
    reservations and assignments to fields (of up to 2^24 elements), which never leave
    the buffers, every field of every element has the value that it was given last, or
    zeros, and is marked if and only if it was given one. *)
Theorem event_state_refines ops rows :
  rows_run ops [] = Some rows ->
  exists s, store_run ops new_EventStateInfo = Done s /\ es_size s = Z.of_nat (length rows) /\
    forall id row f i, rows !! id = Some row -> (i < array_count f)%nat ->
      GetField f (Z.of_nat id) (Z.of_nat i) s = Done (value_of row f i) /\
      IsSet f (Z.of_nat id) (Z.of_nat i) s = Done (is_set_in row f i).
Proof.
  intros Hr. destruct (store_run_refines ops _ _ _ new_state_represents Hr) as (s & E & Hs). exists s. split; [done|].
  split; [apply Hs|]. intros id row f i Hl Hi. split; [by eapply GetField_represents|by eapply IsSet_represents].
Qed.

Definition test_ops : list StateOp :=
  [DoAdd; DoSet DepthTestEnabled 0 0 [Byte.x01]; DoSet Viewport 0 3 (replicate 24 Byte.x02); DoReserve 17;
   DoAdd; DoSet BinW 1 0 [Byte.x04; Byte.x00; Byte.x00; Byte.x00]; DoSet DepthTestEnabled 0 0 [Byte.x00]].

Lemma event_state_refines_witness : exists s,
  store_run test_ops new_EventStateInfo = Done s /\ GetField Viewport 0 3 s = Done (replicate 24 Byte.x02) /\
  IsSet Viewport 0 2 s = Done false /\ IsSet DepthTestEnabled 0 0 s = Done true.
Proof.
  destruct (rows_run test_ops []) as [rows|] eqn:E; [|discriminate].
  destruct (event_state_refines test_ops rows E) as (s & Hs & _ & Hf). exists s. split; [exact Hs|].
  cbn in E. injection E as <-.
  split; [|split].
  - refine (proj1 (Hf 0%nat _ Viewport 3%nat eq_refl _)). cbn. lia.
  - refine (proj2 (Hf 0%nat _ Viewport 2%nat eq_refl _)). cbn. lia.
  - refine (proj2 (Hf 0%nat _ DepthTestEnabled 0%nat eq_refl _)). cbn. lia.
Defined.

(** ** Assigning *)

(** [s'] is [s] with one field of [id] assigned from [jd]. *)
Record field_assigned (f : EventField) (id jd : nat) (s s' : EventStateInfo) : Prop := {
  fa_room : room s';
  fa_size : es_size s' = es_size s;
  fa_cap : es_cap s' = es_cap s;
  fa_value i : (i < array_count f)%nat -> value_at f id i s' = value_at f jd i s;
  fa_others g kd i : Z.of_nat kd < es_cap s -> (i < array_count g)%nat -> (g, kd) <> (f, id) -> value_at g kd i s' = value_at g kd i s;
  fa_marks g kd i : Z.of_nat kd < es_cap s -> (i < array_count g)%nat -> bit_at (flag_of g kd i) (es_is_set_buffer s') =
    negb (is_array f) && bool_decide ((g, kd) = (f, id)) || bit_at (flag_of g kd i) (es_is_set_buffer s)
}.

Lemma place_0 cap f id i : place cap f id i = place cap f id 0 + Z.of_nat i * Z.of_nat (element_size f).
Proof. unfold place. lia. Qed.

Lemma array_in_buffer s f id : room s -> Z.of_nat id < es_cap s ->
  0 <= place (es_cap s) f id 0 /\ place (es_cap s) f id 0 + Z.of_nat (field_size f) <= Z.of_nat (length (es_buffer s)).
Proof.
  intros Hr Hid. pose proof (array_count_range f). destruct (place_in_buffer s f id 0 Hr Hid) as [H0 _]; [lia|].
  destruct (place_in_buffer s f id (array_count f - 1) Hr Hid) as [_ H1]; [lia|].
  rewrite place_0 in H1. split; [done|]. rewrite field_size_mul. nia.
Qed.

Lemma copy_array_spec f id jd s : room s -> Z.of_nat id < es_cap s -> Z.of_nat jd < es_cap s -> is_array f = true ->
  exists s', copy_array f (Z.of_nat id) (Z.of_nat jd) s = Done s' /\ field_assigned f id jd s s'.
Proof.
  intros Hr Hid Hjd Ha. pose proof (array_count_range f). unfold copy_array, store. change 0 with (Z.of_nat 0).
  rewrite !FieldPtr_place by (done || lia). destruct (array_in_buffer s f id Hr Hid) as [Hp Hb], (array_in_buffer s f jd Hr Hjd) as [Hq Hc].
  rewrite slice_spec by done. cbn [mbind outcome_bind]. set (data := bytes_at _ _ _).
  assert (Z.of_nat (length data) = Z.of_nat (field_size f)) as Hd by (subst data; rewrite length_bytes_at; lia).
  rewrite splice_spec by lia. eexists. split; [reflexivity|]. split; cbn [set_es_buffer es_size es_cap es_buffer es_is_set_buffer]; try done.
  - eapply same_room; [|exact Hr]. repeat split. cbn. apply length_spliced; lia.
  - intros i Hi. unfold value_at. cbn [set_es_buffer es_cap es_buffer]. rewrite !(place_0 _ _ _ i).
    pose proof (element_size_range f). pose proof (field_size_mul f).
    rewrite <- (bytes_at_part (place (es_cap s) f id 0) (Z.of_nat (length data))) by nia. rewrite bytes_at_spliced by lia.
    subst data. rewrite bytes_at_part by nia. done.
  - intros g kd i Hkd Hi Hne. unfold value_at. cbn [set_es_buffer es_cap es_buffer]. destruct (place_in_buffer s g kd i Hr Hkd Hi).
    apply bytes_at_spliced_other; try lia. rewrite Hd, field_size_mul.
    pose proof (place_0 (es_cap s) f id (array_count f - 1)). pose proof (element_size_range f).
    destruct (decide (f = g)) as [->|Hfg].
    + assert (kd <> id) by congruence. unfold place. nia.
    + pose proof (place_in_array (es_cap s) f id 0 Hid). pose proof (place_in_array (es_cap s) f id (array_count f - 1) Hid).
      pose proof (place_in_array (es_cap s) g kd i Hkd Hi). destruct (field_offset_apart f g Hfg); nia.
  - rewrite Ha. done.
Qed.

Lemma assign_field_spec f id jd s : room s -> Z.of_nat id < es_cap s -> Z.of_nat jd < es_cap s ->
  exists s', assign_field f (Z.of_nat id) (Z.of_nat jd) s = Done s' /\ field_assigned f id jd s s'.
Proof.
  intros Hr Hid Hjd. unfold assign_field. destruct (is_array f) eqn:Ha; [by apply copy_array_spec|].
  assert (array_count f = 1%nat) as Hc. { unfold is_array in Ha. apply Nat.ltb_ge in Ha. pose proof (array_count_range f). lia. }
  change 0 with (Z.of_nat 0). rewrite GetField_value by (done || lia). cbn [mbind outcome_bind]. unfold SetField.
  destruct (place_in_buffer s f jd 0 Hr Hjd) as [Hp Hb]; [lia|].
  destruct (store_spec f id 0 (value_at f jd 0 s) s) as (s1 & E1 & Hsame & Hv & Ho); try done; [lia|unfold value_at; rewrite length_bytes_at; lia|].
  pose proof (same_room _ _ Hsame Hr) as Hr1. destruct Hsame as (Es & Ec & Eb & El).
  destruct (mark_spec f id 0 s1 Hr1) as (flags & E2 & Hlen & Hbit); [by rewrite Ec|lia|].
  rewrite E1. cbn [mbind outcome_bind]. rewrite E2. eexists. split; [reflexivity|]. split; cbn [set_es_is_set_buffer es_size es_cap es_buffer es_is_set_buffer]; try done.
  - destruct Hr1 as [? ? ? ? ?]. split; cbn; try done; by rewrite Hlen.
  - intros i Hi. assert (i = 0%nat) as -> by lia. exact Hv.
  - intros g kd i Hkd Hi Hne. apply (Ho g kd i); try done. intros [= -> -> _]. done.
  - intros g kd i Hkd Hi. destruct (flag_range s g kd i Hr Hkd Hi) as [[Hf _] _]. rewrite Hbit, Eb, Ha by done. cbn [negb andb]. f_equal.
    apply eq_true_iff_eq. rewrite Z.eqb_eq, bool_decide_eq_true. split.
    + intros E. apply flag_inj in E as [= -> -> _]; [done|done|lia].
    + intros [= -> ->]. assert (i = 0%nat) as -> by lia. done.
Qed.

Lemma assign_fields_spec id jd l : NoDup l -> forall s, room s -> Z.of_nat id < es_cap s -> Z.of_nat jd < es_cap s ->
  exists s', assign_fields l (Z.of_nat id) (Z.of_nat jd) s = Done s' /\ room s' /\ es_cap s' = es_cap s /\
    (forall g i, g ∈ l -> (i < array_count g)%nat -> value_at g id i s' = value_at g jd i s) /\
    (forall g kd i, Z.of_nat kd < es_cap s -> (i < array_count g)%nat -> kd <> id \/ g ∉ l -> value_at g kd i s' = value_at g kd i s) /\
    (forall g kd i, Z.of_nat kd < es_cap s -> (i < array_count g)%nat -> bit_at (flag_of g kd i) (es_is_set_buffer s') =
       negb (is_array g) && bool_decide (g ∈ l /\ kd = id) || bit_at (flag_of g kd i) (es_is_set_buffer s)).
Proof.
  induction l as [|f l IH]; intros Hnd s Hr Hid Hjd; cbn [assign_fields].
  { exists s. do 3 (split; [done|]). split; [by intros g i ?%elem_of_nil|]. split; [done|]. intros g kd i _ _. rewrite bool_decide_eq_false_2; [by rewrite andb_false_r|].
    by intros [?%elem_of_nil _]. }
  apply NoDup_cons in Hnd as [Hf Hnd]. destruct (assign_field_spec f id jd s Hr Hid Hjd) as (s1 & E1 & [Hr1 _ Hc1 Hv1 Ho1 Hm1]).
  destruct (IH Hnd s1) as (s2 & E2 & Hr2 & Hc2 & Hv2 & Ho2 & Hm2); [done|by rewrite Hc1|by rewrite Hc1|]. rewrite Hc1 in *.
  rewrite E1. cbn [mbind outcome_bind]. exists s2. split; [done|]. split; [done|]. split; [done|]. split; [|split].
  - intros g i [->|Hg]%elem_of_cons Hi; [by rewrite Ho2, Hv1 by auto|]. rewrite Hv2 by done. apply Ho1; try done. intros [= -> _]. done.
  - intros g kd i Hkd Hi Hor. rewrite elem_of_cons in Hor. rewrite Ho2 by (try done; tauto). apply Ho1; try done.
    intros [= -> ->]. tauto.
  - intros g kd i Hkd Hi. rewrite Hm2, Hm1 by done. destruct (is_array g) eqn:Hga.
    + cbn [negb andb orb]. destruct (is_array f) eqn:Hfa; [done|]. rewrite bool_decide_eq_false_2; [done|]. intros [= -> ->]. congruence.
    + cbn [negb andb]. destruct (decide (g = f)) as [->|Hgf].
      * rewrite Hga. cbn [negb andb]. destruct (decide (kd = id)) as [->|Hk].
        -- rewrite (bool_decide_eq_false_2 (f ∈ l /\ _)) by tauto. rewrite !bool_decide_eq_true_2; [done|split; [left|done]|done].
        -- rewrite !bool_decide_eq_false_2; [done|intros [_ ?]; done|intros [= ?]; done|intros [_ ?]; done].
      * rewrite (bool_decide_eq_false_2 ((g, kd) = (f, id))) by (intros [= ? _]; done). rewrite andb_false_r. cbn [orb].
        rewrite (bool_decide_ext (g ∈ f :: l /\ kd = id) (g ∈ l /\ kd = id)); [done|]. rewrite elem_of_cons. tauto.
Qed.

(** ** What does not hold *)

(** Assigning an element to another copies all values, but it marks every field that is
    not an array, set or not, and no array. *)
Theorem assigned_marks s rows id jd row row' f i :
  represents s rows -> rows !! id = Some row -> rows !! jd = Some row' -> (i < array_count f)%nat ->
  exists s', Ref_assign (Z.of_nat id) (Z.of_nat jd) s = Done s' /\
    GetField f (Z.of_nat id) (Z.of_nat i) s' = Done (value_of row' f i) /\
    IsSet f (Z.of_nat id) (Z.of_nat i) s' = Done (negb (is_array f) || is_set_in row f i).
Proof.
  intros Hs Hl Hl' Hi. destruct (represents_lookup _ _ _ _ Hs Hl) as [_ Hid], (represents_lookup _ _ _ _ Hs Hl') as [_ Hjd].
  destruct (assign_fields_spec id jd all_fields all_fields_NoDup s (rep_room _ _ Hs) Hid Hjd) as (s' & E & Hr & Hc & Hv & _ & Hm).
  exists s'. split; [exact E|]. pose proof (all_fields_complete f) as Hf. rewrite GetField_value, IsSet_bit by (done || by rewrite Hc). split; f_equal.
  - rewrite Hv by done. by apply Hs.
  - rewrite Hm by done. rewrite bool_decide_eq_true_2, andb_true_r by done. f_equal. by apply Hs.
Qed.

(** [Clear] keeps the marks: the element that is added after it has the marks of the first
    element before, with zeros as the values. *)
Theorem cleared_marks s rows row :
  represents s (row :: rows) ->
  exists s', Add (Clear s) = Done (0, s') /\ forall f i, (i < array_count f)%nat ->
    IsSet f 0 (Z.of_nat i) s' = Done (is_set_in row f i) /\
    GetField f 0 (Z.of_nat i) s' = Done (zeros (Z.of_nat (element_size f))).
Proof.
  intros Hs. destruct (represents_lookup s _ 0 row Hs eq_refl) as [_ Hcap].
  assert (room (Clear s)) as Hr by (destruct (rep_room _ _ Hs); split; cbn; lia).
  destruct (init_fields_spec 0 all_fields (Clear s) Hr Hcap) as (s' & E & ((Es & Ec & Eb & El) & Hz & _) & _).
  assert (ensure_room (Clear s) = Done (Some (Clear s))) as Eroom.
  { unfold ensure_room. cbn [Clear set_es_size es_size es_cap]. by rewrite (proj2 (Z.leb_gt _ _)) by lia. }
  unfold Add. rewrite Eroom. cbn [mbind outcome_bind]. change (es_size (Clear s)) with (Z.of_nat 0). rewrite E. cbn [mbind outcome_bind].
  eexists. split; [reflexivity|]. intros f i Hi. set (s2 := set_es_size _ s').
  assert (room s2) as Hr2.
  { destruct Hr. subst s2. split; cbn in *; rewrite ?Es, ?Ec, ?Eb, ?El; try done. change (0 <= wrap 32 1 <= es_cap s). rewrite wrap_small by (unfold in_width; lia). lia. }
  assert (Z.of_nat 0 < es_cap s2) as Hcap2 by (subst s2; cbn; rewrite Ec; exact Hcap).
  change 0 with (Z.of_nat 0). rewrite GetField_value, IsSet_bit by done. split; f_equal.
  - subst s2. cbn. rewrite Eb. by apply (rep_flags _ _ Hs 0%nat row f i eq_refl).
  - apply Hz; [apply all_fields_complete|done].
Qed.

(** From element 34087042 on, marks are shared with earlier elements. *)
Theorem marks_shared : exists id f i g j, 0 <= id < 2 ^ 32 /\ (id, f, i) <> (0, g, j) /\
  field_bit id (field_index f + i) = field_bit 0 (field_index g + j).
Proof. exists 34087042, Viewport, 1, Topology, 0. split; [lia|]. split; [by intros [=]|]. by vm_compute. Qed.
