(* ===== verification/EventFields.v ===== *)
(** * EventFields: the accessors of each field

    Models the members of [EventStateInfo], [src/dive_core/event_state.h], that are there
    for each field [X]: [XPtr], [X], [SetX], [IsXSet], [GetXName] and [GetXDescription].
    They are the operations of [EventState] on the field, so each block of members is a
    record of them. *)

From stdpp Require Import strings gmap.
From S2P Require Import Prelude Memory Pm4 EventState.
Import Field.

#[local] Open Scope Z_scope.

(** The members for a field; the index into an array is 0 for other fields. *)
Record FieldAccessors := mkAccessors {
  acc_field : EventField;
  acc_ptr : Z -> Z -> EventStateInfo -> Z;
  acc_get : Z -> Z -> EventStateInfo -> outcome (list byte);
  acc_set : Z -> Z -> list byte -> EventStateInfo -> outcome EventStateInfo;
  acc_is_set : Z -> Z -> EventStateInfo -> outcome bool;
  acc_name : string;
  acc_description : string
}.

Definition accessors (f : EventField) (name description : string) : FieldAccessors :=
  mkAccessors f (FieldPtr f) (GetField f) (SetField f) (IsSet f) name description.

Definition Topology_accessors : FieldAccessors :=
  accessors Topology "Topology" "The primitive topology for this event".
Definition PrimRestartEnabled_accessors : FieldAccessors :=
  accessors PrimRestartEnabled "PrimRestartEnabled" "Controls whether a special vertex index value is treated as restarting the assembly of primitives".
Definition PatchControlPoints_accessors : FieldAccessors :=
  accessors PatchControlPoints "PatchControlPoints" "Number of control points per patch".
Definition Viewport_accessors : FieldAccessors :=
  accessors Viewport "Viewport" "Defines the viewport transforms".
Definition Scissor_accessors : FieldAccessors :=
  accessors Scissor "Scissor" "Defines the rectangular bounds of the scissor for the corresponding viewport".
Definition DepthClampEnabled_accessors : FieldAccessors :=
  accessors DepthClampEnabled "DepthClampEnabled" "Controls whether to clamp the fragment’s depth values".
Definition RasterizerDiscardEnabled_accessors : FieldAccessors :=
  accessors RasterizerDiscardEnabled "RasterizerDiscardEnabled" "Controls whether primitives are discarded immediately before the rasterization stage".
Definition PolygonMode_accessors : FieldAccessors :=
  accessors PolygonMode "PolygonMode" "The triangle rendering mode".
Definition CullMode_accessors : FieldAccessors :=
  accessors CullMode "CullMode" "The triangle facing direction used for primitive culling".
Definition FrontFace_accessors : FieldAccessors :=
  accessors FrontFace "FrontFace" "A VkFrontFace value specifying the front-facing triangle orientation to be used for culling".
Definition DepthBiasEnabled_accessors : FieldAccessors :=
  accessors DepthBiasEnabled "DepthBiasEnabled" "Whether to bias fragment depth values".
Definition DepthBiasConstantFactor_accessors : FieldAccessors :=
  accessors DepthBiasConstantFactor "DepthBiasConstantFactor" "A scalar factor controlling the constant depth value added to each fragment.".
Definition DepthBiasClamp_accessors : FieldAccessors :=
  accessors DepthBiasClamp "DepthBiasClamp" "The maximum (or minimum) depth bias of a fragment".
Definition DepthBiasSlopeFactor_accessors : FieldAccessors :=
  accessors DepthBiasSlopeFactor "DepthBiasSlopeFactor" "A scalar factor applied to a fragment’s slope in depth bias calculations".
Definition LineWidth_accessors : FieldAccessors :=
  accessors LineWidth "LineWidth" "The width of rasterized line segments".
Definition RasterizationSamples_accessors : FieldAccessors :=
  accessors RasterizationSamples "RasterizationSamples" "A VkSampleCountFlagBits value specifying the number of samples used in rasterization".
Definition SampleShadingEnabled_accessors : FieldAccessors :=
  accessors SampleShadingEnabled "SampleShadingEnabled" "Whether sample shading is enabled".
Definition MinSampleShading_accessors : FieldAccessors :=
  accessors MinSampleShading "MinSampleShading" "Specifies a minimum fraction of sample shading if SampleShadingEnable is set to VK_TRUE".
Definition SampleMask_accessors : FieldAccessors :=
  accessors SampleMask "SampleMask" "Each bit in the sample mask is associated with a unique sample index as defined for the coverage mask. If the bit is set to 0, the coverage mask bit is set to 0".
Definition AlphaToCoverageEnabled_accessors : FieldAccessors :=
  accessors AlphaToCoverageEnabled "AlphaToCoverageEnabled" "Whether a temporary coverage value is generated based on the alpha component of the fragment’s first color output".
Definition DepthTestEnabled_accessors : FieldAccessors :=
  accessors DepthTestEnabled "DepthTestEnabled" "Whether depth testing is enabled".
Definition DepthWriteEnabled_accessors : FieldAccessors :=
  accessors DepthWriteEnabled "DepthWriteEnabled" "Whether depth writes are enabled. Depth writes are always disabled when DepthTestEnable is false.".
Definition DepthCompareOp_accessors : FieldAccessors :=
  accessors DepthCompareOp "DepthCompareOp" "Comparison operator used for the depth test".
Definition DepthBoundsTestEnabled_accessors : FieldAccessors :=
  accessors DepthBoundsTestEnabled "DepthBoundsTestEnabled" "Whether depth bounds testing is enabled".
Definition MinDepthBounds_accessors : FieldAccessors :=
  accessors MinDepthBounds "MinDepthBounds" "Minimum depth bound used in the depth bounds test".
Definition MaxDepthBounds_accessors : FieldAccessors :=
  accessors MaxDepthBounds "MaxDepthBounds" "Maximum depth bound used in the depth bounds test".
Definition StencilTestEnabled_accessors : FieldAccessors :=
  accessors StencilTestEnabled "StencilTestEnabled" "Whether stencil testing is enabled".
Definition StencilOpStateFront_accessors : FieldAccessors :=
  accessors StencilOpStateFront "StencilOpStateFront" "Front parameter of the stencil test".
Definition StencilOpStateBack_accessors : FieldAccessors :=
  accessors StencilOpStateBack "StencilOpStateBack" "Back parameter of the stencil test".
Definition LogicOpEnabled_accessors : FieldAccessors :=
  accessors LogicOpEnabled "LogicOpEnabled" "Whether to apply Logical Operations".
Definition LogicOp_accessors : FieldAccessors :=
  accessors LogicOp "LogicOp" "Which logical operation to apply".
Definition Attachment_accessors : FieldAccessors :=
  accessors Attachment "Attachment" "Per target attachment color blend states".
Definition BlendConstant_accessors : FieldAccessors :=
  accessors BlendConstant "BlendConstant" "A color constant used for blending".
Definition LRZEnabled_accessors : FieldAccessors :=
  accessors LRZEnabled "LRZEnabled" "Whether LRZ is enabled for depth".
Definition LRZWrite_accessors : FieldAccessors :=
  accessors LRZWrite "LRZWrite" "Whether LRZ write is enabled".
Definition LRZDirStatus_accessors : FieldAccessors :=
  accessors LRZDirStatus "LRZDirStatus" "LRZ direction".
Definition LRZDirWrite_accessors : FieldAccessors :=
  accessors LRZDirWrite "LRZDirWrite" "Whether LRZ direction write is enabled".
Definition ZTestMode_accessors : FieldAccessors :=
  accessors ZTestMode "ZTestMode" "Depth test mode".
Definition BinW_accessors : FieldAccessors :=
  accessors BinW "BinW" "Bin width".
Definition BinH_accessors : FieldAccessors :=
  accessors BinH "BinH" "Bin Height".
Definition WindowScissorTLX_accessors : FieldAccessors :=
  accessors WindowScissorTLX "WindowScissorTLX" "Window scissor Top Left X-coordinate".
Definition WindowScissorTLY_accessors : FieldAccessors :=
  accessors WindowScissorTLY "WindowScissorTLY" "Window scissor Top Left Y-coordinate".
Definition WindowScissorBRX_accessors : FieldAccessors :=
  accessors WindowScissorBRX "WindowScissorBRX" "Window scissor Bottom Right X-coordinate".
Definition WindowScissorBRY_accessors : FieldAccessors :=
  accessors WindowScissorBRY "WindowScissorBRY" "Window scissor Bottom Right Y-coordinate".
Definition RenderMode_accessors : FieldAccessors :=
  accessors RenderMode "RenderMode" "Whether in binning pass or rendering pass".
Definition BuffersLocation_accessors : FieldAccessors :=
  accessors BuffersLocation "BuffersLocation" "Whether the target buffer is in GMEM or SYSMEM".
Definition ThreadSize_accessors : FieldAccessors :=
  accessors ThreadSize "ThreadSize" "Whether the thread size is 64 or 128".
Definition EnableAllHelperLanes_accessors : FieldAccessors :=
  accessors EnableAllHelperLanes "EnableAllHelperLanes" "Whether all helper lanes are enabled of the 2x2 quad for fine derivatives".
Definition EnablePartialHelperLanes_accessors : FieldAccessors :=
  accessors EnablePartialHelperLanes "EnablePartialHelperLanes" "Whether 3 out of 4 helper lanes are enabled of the 2x2 quad for coarse derivatives".
Definition UBWCEnabled_accessors : FieldAccessors :=
  accessors UBWCEnabled "UBWCEnabled" "Whether UBWC is enabled for this attachment".
Definition UBWCLosslessEnabled_accessors : FieldAccessors :=
  accessors UBWCLosslessEnabled "UBWCLosslessEnabled" "Whether UBWC Lossless compression (A7XX+) is enabled for this attachment".
Definition UBWCEnabledOnDS_accessors : FieldAccessors :=
  accessors UBWCEnabledOnDS "UBWCEnabledOnDS" "Whether UBWC is enabled for this depth stencil attachment".
Definition UBWCLosslessEnabledOnDS_accessors : FieldAccessors :=
  accessors UBWCLosslessEnabledOnDS "UBWCLosslessEnabledOnDS" "Whether UBWC Lossless compression (A7XX+) is enabled for this depth stencil attachment".
Definition ResolveScissor_accessors : FieldAccessors :=
  accessors ResolveScissor "ResolveScissor" "Defines the rectangular bounds of the resolve operation".
Definition ResolveBaseGmem_accessors : FieldAccessors :=
  accessors ResolveBaseGmem "ResolveBaseGmem" "The base offset in Gmem for the resolve operation".
Definition ResolveBaseSysmem_accessors : FieldAccessors :=
  accessors ResolveBaseSysmem "ResolveBaseSysmem" "The base address in system memory for the resolve operation".
Definition ResolveFormat_accessors : FieldAccessors :=
  accessors ResolveFormat "ResolveFormat" "The format of the buffer being resolved".
Definition ResolveTileMode_accessors : FieldAccessors :=
  accessors ResolveTileMode "ResolveTileMode" "The tile mode of the buffer being resolved".

Definition event_accessors : list FieldAccessors :=
  [ Topology_accessors; PrimRestartEnabled_accessors; PatchControlPoints_accessors; Viewport_accessors;
    Scissor_accessors; DepthClampEnabled_accessors; RasterizerDiscardEnabled_accessors;
    PolygonMode_accessors; CullMode_accessors; FrontFace_accessors; DepthBiasEnabled_accessors;
    DepthBiasConstantFactor_accessors; DepthBiasClamp_accessors; DepthBiasSlopeFactor_accessors;
    LineWidth_accessors; RasterizationSamples_accessors; SampleShadingEnabled_accessors;
    MinSampleShading_accessors; SampleMask_accessors; AlphaToCoverageEnabled_accessors;
    DepthTestEnabled_accessors; DepthWriteEnabled_accessors; DepthCompareOp_accessors;
    DepthBoundsTestEnabled_accessors; MinDepthBounds_accessors; MaxDepthBounds_accessors;
    StencilTestEnabled_accessors; StencilOpStateFront_accessors; StencilOpStateBack_accessors;
    LogicOpEnabled_accessors; LogicOp_accessors; Attachment_accessors; BlendConstant_accessors;
    LRZEnabled_accessors; LRZWrite_accessors; LRZDirStatus_accessors; LRZDirWrite_accessors;
    ZTestMode_accessors; BinW_accessors; BinH_accessors; WindowScissorTLX_accessors;
    WindowScissorTLY_accessors; WindowScissorBRX_accessors; WindowScissorBRY_accessors;
    RenderMode_accessors; BuffersLocation_accessors; ThreadSize_accessors;
    EnableAllHelperLanes_accessors; EnablePartialHelperLanes_accessors; UBWCEnabled_accessors;
    UBWCLosslessEnabled_accessors; UBWCEnabledOnDS_accessors; UBWCLosslessEnabledOnDS_accessors;
    ResolveScissor_accessors; ResolveBaseGmem_accessors; ResolveBaseSysmem_accessors;
    ResolveFormat_accessors; ResolveTileMode_accessors ].

(** ** The accessors of a field are its own *)

Lemma event_accessors_fields : acc_field <$> event_accessors = all_fields.
Proof. reflexivity. Qed.

Lemma event_accessors_names : NoDup (acc_name <$> event_accessors).
Proof. apply (bool_decide_unpack _). by vm_compute. Qed.

Lemma event_accessors_own : Forall (fun a => a = accessors (acc_field a) (acc_name a) (acc_description a)) event_accessors.
Proof. repeat (apply Forall_cons; split; [reflexivity|]). constructor. Qed.

(** Fields are told apart by their names. *)
Lemma accessors_by_name a b : a ∈ event_accessors -> b ∈ event_accessors ->
  acc_field a = acc_field b <-> acc_name a = acc_name b.
Proof.
  intros (i & Ha)%list_elem_of_lookup (j & Hb)%list_elem_of_lookup.
  assert (forall {A} (g : FieldAccessors -> A), NoDup (g <$> event_accessors) -> g a = g b -> i = j) as Hinj.
  { intros A g Hn E. eapply NoDup_lookup; [exact Hn| |]; rewrite list_lookup_fmap; [by rewrite Ha|by rewrite Hb, E]. }
  split; intros E.
  - apply (Hinj _ acc_field) in E as <-; [congruence|]. rewrite event_accessors_fields. apply all_fields_NoDup.
  - apply (Hinj _ acc_name) in E as <-; [congruence|]. apply event_accessors_names.
Qed.

(** Of a state with elements, what is set through an accessor is what the same accessor
    returns of that element and index, and it is marked; every other accessor, element
    and index returns what it did. *)
Theorem accessors_independent s rows a id i value :
  represents s rows -> a ∈ event_accessors -> (id < length rows)%nat -> (i < array_count (acc_field a))%nat ->
  length value = element_size (acc_field a) ->
  exists s', acc_set a (Z.of_nat id) (Z.of_nat i) value s = Done s' /\
    forall b jd j, b ∈ event_accessors -> (jd < length rows)%nat -> (j < array_count (acc_field b))%nat ->
      let same := bool_decide ((acc_name b, jd, j) = (acc_name a, id, i)) in
      acc_get b (Z.of_nat jd) (Z.of_nat j) s' =
        (if same then Done value else acc_get b (Z.of_nat jd) (Z.of_nat j) s) /\
      acc_is_set b (Z.of_nat jd) (Z.of_nat j) s' =
        (if same then Done true else acc_is_set b (Z.of_nat jd) (Z.of_nat j) s).
Proof.
  intros Hs Ha Hid Hi Hv. pose proof event_accessors_own as Hown. rewrite Forall_forall in Hown.
  destruct (lookup_lt_is_Some_2 rows id Hid) as [row Hrow].
  destruct (SetField_represents s rows id row (acc_field a) i value Hs Hrow Hi Hv) as (s' & E & Hs').
  exists s'. rewrite (Hown a Ha). split; [exact E|]. intros b jd j Hb Hjd Hj. cbv zeta. rewrite (Hown b Hb) in *. cbn [accessors acc_get acc_is_set acc_name acc_field] in *.
  destruct (lookup_lt_is_Some_2 rows jd Hjd) as [row' Hrow'].
  assert (exists row'', <[id := <[(acc_field a, i) := value]> row]> rows !! jd = Some row'' /\
    (if decide (jd = id) then row'' = <[(acc_field a, i) := value]> row' else row'' = row')) as (row'' & Hl & Er).
  { destruct (decide (jd = id)) as [->|]; [|rewrite list_lookup_insert_ne by done; by exists row'].
    rewrite list_lookup_insert_eq by done. eexists. split; [done|]. congruence. }
  rewrite (GetField_represents s' _ jd row'' (acc_field b) j Hs' Hl Hj), (IsSet_represents s' _ jd row'' (acc_field b) j Hs' Hl Hj),
    (GetField_represents s rows jd row' (acc_field b) j Hs Hrow' Hj), (IsSet_represents s rows jd row' (acc_field b) j Hs Hrow' Hj).
  unfold value_of, is_set_in. case_bool_decide as Hsame.
  - injection Hsame as En -> ->. rewrite (proj2 (accessors_by_name b a Hb Ha) En) in *. rewrite decide_True in Er by done. subst row''.
    rewrite lookup_insert_eq. by rewrite bool_decide_eq_true_2.
  - assert (row'' !! (acc_field b, j) = row' !! (acc_field b, j)) as ->; [|done]. case_decide; subst; [|done].
    apply lookup_insert_ne. intros [= Ef ->]. apply Hsame. by rewrite (proj1 (accessors_by_name b a Hb Ha)).
Qed.
