(* ===== verification/FillState.v ===== *)
(** * FillState: the state of an event from the registers

    Models the functions of [CaptureMetadataCreator], [src/dive_core/data_core.cpp], that
    read the registers when there is an event and set the fields of its element of
    [EventState]. They only set fields, so each is the list of the fields that it sets,
    in order. Floating-point fields are the bits of a binary32 number; a NaN that an
    operation gives is the positive quiet one without a payload. *)

From Stdlib Require Import SpecFloat.
From S2P Require Import Prelude Wire Memory Pm4 StateTracker EventInfo EventState.
Import Field.

#[local] Open Scope Z_scope.

(** ** binary32 *)

Definition float32_of_bits (z : Z) : spec_float :=
  let sign := Z.testbit z 31 in
  let exponent := bits 23 8 z in
  let fraction := bits 0 23 z in
  if exponent =? 255 then if fraction =? 0 then S754_infinity sign else S754_nan
  else if exponent =? 0 then
    match fraction with Z.pos p => S754_finite sign p (-149) | _ => S754_zero sign end
  else match fraction + 2 ^ 23 with Z.pos p => S754_finite sign p (exponent - 150) | _ => S754_nan end.

Definition bits_of_float32 (f : spec_float) : Z :=
  let with_sign (sign : bool) (z : Z) := Z.lor (Z.shiftl (Z.b2z sign) 31) z in
  match f with
  | S754_zero sign => with_sign sign 0
  | S754_infinity sign => with_sign sign (Z.shiftl 255 23)
  | S754_nan => Z.shiftl 511 22
  | S754_finite sign p e =>
      if Z.pos p <? 2 ^ 23 then with_sign sign (Z.pos p)
      else with_sign sign (Z.lor (Z.shiftl (e + 150) 23) (Z.pos p - 2 ^ 23))
  end.

Definition float_op (op : spec_float -> spec_float -> spec_float) (a b : Z) : Z :=
  bits_of_float32 (op (float32_of_bits a) (float32_of_bits b)).
Definition float_add : Z -> Z -> Z := float_op (SFadd 24 128).
Definition float_sub : Z -> Z -> Z := float_op (SFsub 24 128).
Definition float_mul : Z -> Z -> Z := float_op (SFmul 24 128).

(** The conversion of an unsigned integer, and the literal [2.0f]. *)
Definition float_of_uint (z : Z) : Z := bits_of_float32 (binary_normalize 24 128 z 0 false).
Definition two : Z := float_of_uint 2.

(** ** Setting fields *)

Definition FieldWrite : Type := EventField * nat * list byte.

(** The tables of the generator, [src/dive_core/generatePm4Info_adreno.py], that depend on
    the GPU. *)
Class GpuVariants := {
  GetGPUVariantType : Z;
  kA7XX : Z;
  m_gpu_variants : RegField -> Z
}.

Definition Filling (A : Type) : Type := EmulateStateTracker -> outcome (A * list FieldWrite).
#[global] Instance Filling_ret : MRet Filling := fun A a t => Done (a, []).
#[global] Instance Filling_bind : MBind Filling := fun A B k m t =>
  '(a, l) ← m t; '(b, l') ← k a t; Done (b, l ++ l').

Definition asks {A} (f : EmulateStateTracker -> outcome A) : Filling A := fun t => a ← f t; Done (a, []).
Definition set_at (f : EventField) (i : nat) (value : list byte) : Filling () := fun _ => Done ((), [(f, i, value)]).
Definition set (f : EventField) (value : list byte) : Filling () := set_at f 0 value.

Definition bool_value (b : bool) : list byte := [if b then Byte.x01 else Byte.x00].
Definition u16_value (z : Z) : list byte := le_split 2 z.
Definition u32_value (z : Z) : list byte := le_split 4 z.
Definition u64_value (z : Z) : list byte := le_split 8 z.

(** [if (IsRegSet(offset)) { ... GetRegValue(offset) ... }] *)
Definition if_set (offset : Z) (k : Z -> Filling ()) : Filling () :=
  is_set ← asks (IsRegSet_current offset);
  if (is_set : bool) then value ← asks (GetRegValue_current offset); k value else mret ().

Definition read_register (offset : Z) : Filling Z := asks (GetRegValue_current (wrap 32 offset)).

(** A loop over an array of registers, [stride] apart, while they are set, from [id] on
    and at most [n]. *)
Fixpoint while_set (n id : nat) (start stride : Z) (body : nat -> Z -> Filling ()) : Filling () :=
  match n with
  | O => mret ()
  | S n =>
      let offset := wrap 32 (start + stride * Z.of_nat id) in
      is_set ← asks (IsRegSet_current offset);
      if (is_set : bool) then body id offset;; while_set n (S id) start stride body else mret ()
  end.

Section Filling.
Context `{Pm4Info} `{GpuVariants}.

(** A bit field of the structure of a register, by their names. *)
Definition bitfield (name : string) (value : Z) : Z := packet_field name (le_split 4 value).
Definition flag (name : string) (value : Z) : bool := negb (bitfield name value =? 0).
Definition is_one (name : string) (value : Z) : bool := bitfield name value =? 1.

(** [VkRect2D] from two corners. *)
Definition rect_value (x y x2 y2 : Z) : list byte :=
  u32_value (wrap 32 x) ++ u32_value (wrap 32 y) ++ u32_value (wrap 32 (x2 - x)) ++ u32_value (wrap 32 (y2 - y)).

(** ** Resolves and clears *)

Definition FillResolveOrClearEventStateInfo : Filling () :=
  if_set (GetRegOffsetByName "RB_RESOLVE_GMEM_BUFFER_BASE") (fun value => set ResolveBaseGmem (u32_value value));;
  is_set ← asks (IsRegSet_current (GetRegOffsetByName "RB_RESOLVE_CNTL_1"));
  if (is_set : bool) then
    is_set2 ← asks (IsRegSet_current (GetRegOffsetByName "RB_RESOLVE_CNTL_2"));
    if (is_set2 : bool) then
      cntl_1 ← asks (GetRegValue_current (GetRegOffsetByName "RB_RESOLVE_CNTL_1"));
      cntl_2 ← asks (GetRegValue_current (GetRegOffsetByName "RB_RESOLVE_CNTL_2"));
      set ResolveScissor
        (rect_value (bitfield "RB_RESOLVE_CNTL_1.bitfields.X" cntl_1) (bitfield "RB_RESOLVE_CNTL_1.bitfields.Y" cntl_1)
                    (bitfield "RB_RESOLVE_CNTL_2.bitfields.X" cntl_2) (bitfield "RB_RESOLVE_CNTL_2.bitfields.Y" cntl_2))
    else mret ()
  else mret ().

Definition FillResolveEventStateInfo : Filling () :=
  let offset := GetRegOffsetByName "RB_RESOLVE_SYSTEM_BUFFER_BASE" in
  is_set ← asks (IsRegSet_current offset);
  if (is_set : bool) then addr ← asks (GetReg64Value_current offset); set ResolveBaseSysmem (u64_value addr)
  else mret ().

(** ** Draws *)

Definition FillInputAssemblyState : Filling () :=
  if_set (GetRegOffsetByName "PC_CNTL") (fun value =>
    set PrimRestartEnabled (bool_value (is_one "VPC_PC_CNTL.bitfields.PRIMITIVE_RESTART" value))).

Definition FillTessellationState : Filling () :=
  if_set (GetRegOffsetByName "PC_HS_PARAM_1") (fun value =>
    set PatchControlPoints (u32_value (bitfield "PC_HS_PARAM_1.bitfields.SIZE" value))).

(** [VkViewport]: x, y, width, height and the depths, from the offsets and scales. *)
Definition viewport_value (xoffset xscale yoffset yscale zoffset zscale : Z) : list byte :=
  u32_value (float_sub xoffset xscale) ++ u32_value (float_sub yoffset yscale)
  ++ u32_value (float_mul xscale two) ++ u32_value (float_mul yscale two)
  ++ u32_value zoffset ++ u32_value (float_add zscale zoffset).

Definition fill_viewport (viewport_id : nat) (viewport_reg : Z) : Filling () :=
  xoffset ← read_register viewport_reg;
  xscale ← read_register (viewport_reg + 1);
  yoffset ← read_register (viewport_reg + 2);
  yscale ← read_register (viewport_reg + 3);
  zoffset ← read_register (viewport_reg + 4);
  zscale ← read_register (viewport_reg + 5);
  set_at Viewport viewport_id (viewport_value xoffset xscale yoffset yscale zoffset zscale).

Definition fill_scissor (scissor_id : nat) (scissor_reg : Z) : Filling () :=
  tl ← read_register scissor_reg;
  br ← read_register (scissor_reg + 1);
  set_at Scissor scissor_id
    (rect_value (bitfield "GRAS_SC_VIEWPORT_SCISSOR_TL.bitfields.X" tl) (bitfield "GRAS_SC_VIEWPORT_SCISSOR_TL.bitfields.Y" tl)
                (bitfield "GRAS_SC_VIEWPORT_SCISSOR_BR.bitfields.X" br) (bitfield "GRAS_SC_VIEWPORT_SCISSOR_BR.bitfields.Y" br)).

Definition FillViewportState : Filling () :=
  while_set 16 0 (GetRegOffsetByName "GRAS_CL_VIEWPORT0_XOFFSET") 6 fill_viewport;;
  while_set 16 0 (GetRegOffsetByName "GRAS_SC_VIEWPORT_SCISSOR0_TL") 2 fill_scissor.

(** [VkPolygonMode], [VkCullModeFlags] and [VkFrontFace] are given by their values. *)
Definition fill_polygon_mode (value : Z) : Filling () :=
  let mode := bitfield "PC_DGEN_RAST_CNTL.bitfields.MODE" value in
  if mode =? enumerator "POLYMODE6_TRIANGLES" then set PolygonMode (u32_value 0)
  else if mode =? enumerator "POLYMODE6_LINES" then set PolygonMode (u32_value 1)
  else if mode =? enumerator "POLYMODE6_POINTS" then set PolygonMode (u32_value 2)
  else mret ().

Definition fill_su_cntl (value : Z) : Filling () :=
  let cull_mode := Z.lor (if flag "GRAS_SU_CNTL.bitfields.CULL_FRONT" value then 1 else 0)
                         (if flag "GRAS_SU_CNTL.bitfields.CULL_BACK" value then 2 else 0) in
  set CullMode (u32_value cull_mode);;
  set FrontFace (u32_value (if bitfield "GRAS_SU_CNTL.bitfields.FRONT_CW" value =? 0 then 0 else 1));;
  set DepthBiasEnabled (bool_value (is_one "GRAS_SU_CNTL.bitfields.POLY_OFFSET" value));;
  set LineWidth (u32_value (float_mul (float_of_uint (bitfield "GRAS_SU_CNTL.bitfields.LINEHALFWIDTH" value)) two)).

Definition FillRasterizerState : Filling () :=
  if_set (GetRegOffsetByName "GRAS_CL_CNTL") (fun value =>
    set DepthClampEnabled (bool_value (negb (is_one "GRAS_CL_CNTL.bitfields.Z_CLAMP_ENABLE" value))));;
  if_set (GetRegOffsetByName "VPC_RAST_STREAM_CNTL") (fun value =>
    set RasterizerDiscardEnabled (bool_value (is_one "VPC_RAST_STREAM_CNTL.bitfields.DISCARD" value)));;
  if_set (GetRegOffsetByName "PC_DGEN_RAST_CNTL") fill_polygon_mode;;
  if_set (GetRegOffsetByName "GRAS_SU_CNTL") fill_su_cntl;;
  if_set (GetRegOffsetByName "GRAS_SU_POLY_OFFSET_OFFSET") (fun value => set DepthBiasConstantFactor (u32_value value));;
  if_set (GetRegOffsetByName "GRAS_SU_POLY_OFFSET_OFFSET_CLAMP") (fun value => set DepthBiasClamp (u32_value value));;
  if_set (GetRegOffsetByName "GRAS_SU_POLY_OFFSET_SCALE") (fun value => set DepthBiasSlopeFactor (u32_value value)).

Definition FillMultisamplingState : Filling () :=
  if_set (GetRegOffsetByName "GRAS_SC_RAS_MSAA_CNTL") (fun value =>
    set RasterizationSamples (u32_value (wrap 32 (Z.shiftl 1 (bitfield "GRAS_SC_RAS_MSAA_CNTL.bitfields.SAMPLES" value)))));;
  if_set (GetRegOffsetByName "RB_BLEND_CNTL") (fun value =>
    set AlphaToCoverageEnabled (bool_value (negb (is_one "RB_BLEND_CNTL.bitfields.ALPHA_TO_COVERAGE" value)))).

Definition fill_depth (value : Z) : Filling () :=
  set DepthTestEnabled (bool_value (flag "RB_DEPTH_CNTL.bitfields.Z_TEST_ENABLE" value));;
  set DepthWriteEnabled (bool_value (flag "RB_DEPTH_CNTL.bitfields.Z_WRITE_ENABLE" value));;
  set DepthCompareOp (u32_value (bitfield "RB_DEPTH_CNTL.bitfields.ZFUNC" value));;
  set DepthBoundsTestEnabled (bool_value (is_one "RB_DEPTH_CNTL.bitfields.Z_BOUNDS_ENABLE" value));;
  if_set (GetRegOffsetByName "RB_DEPTH_BOUND_MIN") (fun value => set MinDepthBounds (u32_value value));;
  if_set (GetRegOffsetByName "RB_DEPTH_BOUND_MAX") (fun value => set MaxDepthBounds (u32_value value)).

(** [VkStencilOpState] in the order of its members. *)
Record StencilOp := mkStencil {
  st_failOp : Z;
  st_passOp : Z;
  st_depthFailOp : Z;
  st_compareOp : Z;
  st_compareMask : Z;
  st_writeMask : Z;
  st_reference : Z
}.

Definition stencil_value (s : StencilOp) : list byte :=
  concat (u32_value <$> [st_failOp s; st_passOp s; st_depthFailOp s; st_compareOp s; st_compareMask s; st_writeMask s;
                         st_reference s]).

Definition set_compareMask z (s : StencilOp) :=
  mkStencil (st_failOp s) (st_passOp s) (st_depthFailOp s) (st_compareOp s) z (st_writeMask s) (st_reference s).
Definition set_writeMask z (s : StencilOp) :=
  mkStencil (st_failOp s) (st_passOp s) (st_depthFailOp s) (st_compareOp s) (st_compareMask s) z (st_reference s).
Definition set_reference z (s : StencilOp) :=
  mkStencil (st_failOp s) (st_passOp s) (st_depthFailOp s) (st_compareOp s) (st_compareMask s) (st_writeMask s) z.

(** One face; the three members that the register does not have are uninitialized. *)
Definition stencil_of (suffix : string) (uninitialized : string -> Z) (value : Z) : StencilOp :=
  let f name := bitfield ("RB_STENCIL_CNTL.bitfields." +:+ name +:+ suffix) value in
  mkStencil (f "FAIL") (f "ZPASS") (f "ZFAIL") (f "FUNC")
    (uninitialized ("compareMask" +:+ suffix)) (uninitialized ("writeMask" +:+ suffix)) (uninitialized ("reference" +:+ suffix)).

(** A register that has a value for both faces. *)
Definition both_faces (register front back : string) (update : Z -> StencilOp -> StencilOp) (faces : StencilOp * StencilOp)
  : Filling (StencilOp * StencilOp) :=
  let offset := GetRegOffsetByName register in
  is_set ← asks (IsRegSet_current offset);
  if (is_set : bool) then
    value ← asks (GetRegValue_current offset);
    mret (update (bitfield (register +:+ ".bitfields." +:+ front) value) (fst faces),
          update (bitfield (register +:+ ".bitfields." +:+ back) value) (snd faces))
  else mret faces.

Definition fill_stencil (uninitialized : string -> Z) (value : Z) : Filling () :=
  set StencilTestEnabled (bool_value (is_one "RB_STENCIL_CNTL.bitfields.STENCIL_ENABLE" value));;
  let faces := (stencil_of "" uninitialized value, stencil_of "_BF" uninitialized value) in
  faces ← both_faces "RB_STENCIL_REF_CNTL" "REF" "BFREF" set_reference faces;
  faces ← both_faces "RB_STENCIL_MASK" "MASK" "BFMASK" set_compareMask faces;
  faces ← both_faces "RB_STENCIL_WRITE_MASK" "WRMASK" "BFWRMASK" set_writeMask faces;
  set StencilOpStateFront (stencil_value (fst faces));;
  set StencilOpStateBack (stencil_value (snd faces)).

Definition FillDepthState (uninitialized : string -> Z) : Filling () :=
  if_set (GetRegOffsetByName "RB_DEPTH_CNTL") fill_depth;;
  if_set (GetRegOffsetByName "RB_STENCIL_CNTL") (fill_stencil uninitialized).

(** The values of [VkLogicOp] by [a3xx_rop_code]. *)
Definition logic_op_lookup : list Z := [0; 8; 4; 12; 2; 10; 6; 14; 1; 9; 5; 13; 3; 11; 7; 15].

Definition attachment_value (control blend_control : Z) : list byte :=
  let f name := bitfield ("RB_MRT_BLEND_CONTROL.bitfields." +:+ name) blend_control in
  concat (u32_value <$>
    [Z.b2z (is_one "RB_MRT_CONTROL.bitfields.BLEND" control); f "RGB_SRC_FACTOR"; f "RGB_DEST_FACTOR"; f "RGB_BLEND_OPCODE";
     f "ALPHA_SRC_FACTOR"; f "ALPHA_DEST_FACTOR"; f "ALPHA_BLEND_OPCODE"; bitfield "RB_MRT_CONTROL.bitfields.COMPONENT_ENABLE" control]).

Definition fill_render_target (rt_id : nat) (mrt_reg : Z) : Filling () :=
  control ← read_register mrt_reg;
  blend_control ← read_register (mrt_reg + 1);
  set_at Attachment rt_id (attachment_value control blend_control);;
  match logic_op_lookup !! Z.to_nat (bitfield "RB_MRT_CONTROL.bitfields.ROP_CODE" control) with
  | Some op =>
      set_at LogicOpEnabled rt_id (bool_value (is_one "RB_MRT_CONTROL.bitfields.ROP_ENABLE" control));;
      set_at LogicOp rt_id (u32_value op)
  | None => mret ()
  end.

Definition fill_blend_constants (red : Z) : Filling () :=
  green ← asks (GetRegValue_current (GetRegOffsetByName "RB_BLEND_CONSTANT_GREEN_FP32"));
  blue ← asks (GetRegValue_current (GetRegOffsetByName "RB_BLEND_CONSTANT_BLUE_FP32"));
  alpha ← asks (GetRegValue_current (GetRegOffsetByName "RB_BLEND_CONSTANT_ALPHA_FP32"));
  set_at BlendConstant 0 (u32_value red);;
  set_at BlendConstant 1 (u32_value green);;
  set_at BlendConstant 2 (u32_value blue);;
  set_at BlendConstant 3 (u32_value alpha).

Definition FillColorBlendState : Filling () :=
  while_set 8 0 (GetRegOffsetByName "RB_MRT0_CONTROL") 8 fill_render_target;;
  if_set (GetRegOffsetByName "RB_BLEND_CONSTANT_RED_FP32") fill_blend_constants.

(** ** Hardware *)

Definition fill_lrz (value : Z) : Filling () :=
  let lrz_enabled := flag "GRAS_LRZ_CNTL.bitfields.ENABLE" value in
  set LRZEnabled (bool_value lrz_enabled);;
  if lrz_enabled then
    set LRZWrite (bool_value (flag "GRAS_LRZ_CNTL.bitfields.LRZ_WRITE" value));;
    set LRZDirStatus (u32_value (bitfield "GRAS_LRZ_CNTL.bitfields.DIR" value));;
    set LRZDirWrite (bool_value (flag "GRAS_LRZ_CNTL.bitfields.DIR_WRITE" value))
  else mret ().

Definition GetRegFieldByName (name : string) (info : option RegInfo) : option RegField :=
  info ← info; List.find (fun f => String.eqb name (rf_name f)) (ri_fields info).

(** Through the field's pointer. *)
Definition field_shr (field : option RegField) : outcome Z :=
  match field with Some f => Done (rf_shr f) | None => OutOfBounds end.

Definition IsFieldEnabled (field : option RegField) : outcome bool :=
  match field with
  | Some f => Done (negb (Z.land GetGPUVariantType (m_gpu_variants f) =? 0))
  | None => OutOfBounds
  end.

Definition fill_bins (offset value : Z) : Filling () :=
  let reg_info := GetFullRegInfo offset in
  shr_w ← asks (fun _ => field_shr (GetRegFieldByName "BINW" reg_info));
  shr_h ← asks (fun _ => field_shr (GetRegFieldByName "BINH" reg_info));
  set BinW (u32_value (wrap 32 (Z.shiftl (bitfield "GRAS_SC_BIN_CNTL.bitfields.BINW" value) shr_w)));;
  set BinH (u32_value (wrap 32 (Z.shiftl (bitfield "GRAS_SC_BIN_CNTL.bitfields.BINH" value) shr_h)));;
  set RenderMode (u32_value (bitfield "GRAS_SC_BIN_CNTL.bitfields.RENDER_MODE" value));;
  enabled ← asks (fun _ => IsFieldEnabled (GetRegFieldByName "BUFFERS_LOCATION" reg_info));
  if (enabled : bool) then set BuffersLocation (u32_value (bitfield "GRAS_SC_BIN_CNTL.bitfields.BUFFERS_LOCATION" value))
  else mret ().

Definition fill_helper_lanes (value : Z) : Filling () :=
  set ThreadSize (u32_value (bitfield "SP_PS_CNTL_0.bitfields.THREADSIZE" value));;
  set EnableAllHelperLanes (bool_value (flag "SP_PS_CNTL_0.bitfields.LODPIXMASK" value));;
  set EnablePartialHelperLanes (bool_value (flag "SP_PS_CNTL_0.bitfields.PIXLODENABLE" value)).

Definition fill_ubwc (rt_id : nat) (mrt_reg : Z) : Filling () :=
  info ← read_register mrt_reg;
  set_at UBWCEnabled rt_id (bool_value (bitfield "RB_MRT_BUF_INFO.bitfields.COLOR_TILE_MODE" info =? enumerator "TILE6_3"));;
  if kA7XX <=? GetGPUVariantType then
    set_at UBWCLosslessEnabled rt_id (bool_value (is_one "RB_MRT_BUF_INFO.bitfields.LOSSLESSCOMPEN" info))
  else mret ().

Definition fill_depth_ubwc (value : Z) : Filling () :=
  set UBWCEnabledOnDS (bool_value (bitfield "RB_DEPTH_BUFFER_INFO.bitfields.TILEMODE" value =? enumerator "TILE6_3"));;
  set UBWCLosslessEnabledOnDS (bool_value (is_one "RB_DEPTH_BUFFER_INFO.bitfields.LOSSLESSCOMPEN" value)).

Definition FillHardwareSpecificStates : Filling () :=
  if_set (GetRegOffsetByName "GRAS_LRZ_CNTL") fill_lrz;;
  if_set (GetRegOffsetByName "GRAS_SU_DEPTH_PLANE_CNTL") (fun value =>
    set ZTestMode (u32_value (bitfield "GRAS_SU_DEPTH_PLANE_CNTL.bitfields.Z_MODE" value)));;
  if_set (GetRegOffsetByName "GRAS_SC_BIN_CNTL") (fill_bins (GetRegOffsetByName "GRAS_SC_BIN_CNTL"));;
  if_set (GetRegOffsetByName "GRAS_SC_WINDOW_SCISSOR_TL") (fun value =>
    set WindowScissorTLX (u16_value (bitfield "GRAS_SC_WINDOW_SCISSOR_TL.bitfields.X" value));;
    set WindowScissorTLY (u16_value (bitfield "GRAS_SC_WINDOW_SCISSOR_TL.bitfields.Y" value)));;
  if_set (GetRegOffsetByName "GRAS_SC_WINDOW_SCISSOR_BR") (fun value =>
    set WindowScissorBRX (u16_value (bitfield "GRAS_SC_WINDOW_SCISSOR_BR.bitfields.X" value));;
    set WindowScissorBRY (u16_value (bitfield "GRAS_SC_WINDOW_SCISSOR_BR.bitfields.Y" value)));;
  if_set (GetRegOffsetByName "SP_PS_CNTL_0") fill_helper_lanes;;
  while_set 8 0 (GetRegOffsetByName "RB_MRT0_BUF_INFO") 8 fill_ubwc;;
  if kA7XX <=? GetGPUVariantType then if_set (GetRegOffsetByName "RB_DEPTH_BUFFER_INFO") fill_depth_ubwc else mret ().

Definition FillDrawEventStateInfo (uninitialized : string -> Z) : Filling () :=
  FillInputAssemblyState;;
  FillTessellationState;;
  FillViewportState;;
  FillRasterizerState;;
  FillMultisamplingState;;
  FillDepthState uninitialized;;
  FillColorBlendState;;
  FillHardwareSpecificStates.
End Filling.

(** ** What is set exists

    Every value that is set has the size of its field and an index in its array. *)
Definition write_ok (w : FieldWrite) : Prop :=
  let '(f, i, value) := w in (i < array_count f)%nat /\ length value = element_size f.

Definition well_filled {A} (m : Filling A) : Prop := forall t,
  match m t with Done (_, l) => Forall write_ok l | OutOfBounds => True | OutOfFuel => False end.

Create HintDb filling discriminated.
#[export] Hint Constants Opaque : filling.

Section WellFilled.

Lemma well_filled_ret {A} (a : A) : well_filled (mret a).
Proof. constructor. Qed.

Lemma well_filled_bind {A B} (m : Filling A) (k : A -> Filling B) :
  well_filled m -> (forall a, well_filled (k a)) -> well_filled (m ≫= k).
Proof.
  intros Hm Hk t. specialize (Hm t). unfold mbind, Filling_bind. destruct (m t) as [[a l1]| |]; [|done|done]. cbn [mbind outcome_bind].
  specialize (Hk a t). destruct (k a t) as [[b l2]| |]; [|done|done]. by apply Forall_app_2.
Qed.

Lemma well_filled_asks {A} (f : EmulateStateTracker -> outcome A) : (forall t, f t <> OutOfFuel) -> well_filled (asks f).
Proof. intros Hf t. specialize (Hf t). unfold asks. destruct (f t); [constructor|done|done]. Qed.

Lemma well_filled_is_set offset : well_filled (asks (IsRegSet_current offset)).
Proof. apply well_filled_asks. intros t. unfold IsRegSet_current, at_current_pass, IsRegSet. by repeat case_match. Qed.

Lemma well_filled_value offset : well_filled (asks (GetRegValue_current offset)).
Proof. apply well_filled_asks. intros t. unfold GetRegValue_current, at_current_pass, GetRegValue. by repeat case_match. Qed.

Lemma well_filled_value64 offset : well_filled (asks (GetReg64Value_current offset)).
Proof.
  apply well_filled_asks. intros t. unfold GetReg64Value_current, at_current_pass, GetReg64Value, GetRegValue.
  destruct (m_shader_enable_bit t); [|done]. destruct (in_regs offset); [|done]. cbn [mbind outcome_bind]. by destruct (in_regs _).
Qed.

Lemma well_filled_set_at f i value : (i < array_count f)%nat -> length value = element_size f -> well_filled (set_at f i value).
Proof. intros Hi Hv t. by repeat constructor. Qed.

Lemma well_filled_set f value : length value = element_size f -> well_filled (set f value).
Proof. intros Hv. apply well_filled_set_at; [|done]. pose proof (array_count_range f). lia. Qed.

Lemma well_filled_read_register offset : well_filled (read_register offset).
Proof. apply well_filled_value. Qed.

Lemma well_filled_if_set offset k : (forall value, well_filled (k value)) -> well_filled (if_set offset k).
Proof.
  intros Hk. apply well_filled_bind; [apply well_filled_is_set|]. intros []; [|apply well_filled_ret].
  apply well_filled_bind; [apply well_filled_value|done].
Qed.

Lemma well_filled_while_set n start stride body : forall id,
  (forall i offset, (i < id + n)%nat -> well_filled (body i offset)) -> well_filled (while_set n id start stride body).
Proof.
  induction n as [|n IH]; intros id Hb; cbn [while_set]; [apply well_filled_ret|]. apply well_filled_bind; [apply well_filled_is_set|].
  intros []; [|apply well_filled_ret]. apply well_filled_bind; [apply Hb; lia|]. intros _. apply IH. intros. apply Hb. lia.
Qed.
End WellFilled.

Ltac fill_step :=
  lazymatch goal with
  | |- well_filled (mret _) => apply well_filled_ret
  | |- well_filled (asks (IsRegSet_current _)) => apply well_filled_is_set
  | |- well_filled (asks (GetRegValue_current _)) => apply well_filled_value
  | |- well_filled (asks (GetReg64Value_current _)) => apply well_filled_value64
  | |- well_filled (asks (fun _ => ?o)) => apply well_filled_asks; intros _; by destruct (GetRegFieldByName _ _)
  | |- well_filled (read_register _) => apply well_filled_read_register
  | |- well_filled (set _ _) => apply well_filled_set; rewrite ?length_app, ?length_le_split; reflexivity
  | |- well_filled (set_at _ _ _) =>
      apply well_filled_set_at; [cbn [array_count]; lia|rewrite ?length_app, ?length_le_split; reflexivity]
  | |- well_filled (if_set _ _) => apply well_filled_if_set; intros ?
  | |- well_filled (while_set _ _ _ _ _) => apply well_filled_while_set; intros ? ? ?
  | |- well_filled (mbind _ _) => apply well_filled_bind; [|intros ?]
  | |- well_filled (if ?b then _ else _) => destruct b
  | |- well_filled (match ?x with _ => _ end) => destruct x
  | |- well_filled (let _ := _ in _) => cbv zeta
  | |- well_filled _ => solve [auto with filling nocore]
  end.
Ltac filled := repeat fill_step.

Section Filled.
Context `{Pm4Info} `{GpuVariants}.

Lemma FillResolveOrClear_filled : well_filled FillResolveOrClearEventStateInfo.
Proof. unfold FillResolveOrClearEventStateInfo. filled. Qed.

Lemma FillResolve_filled : well_filled FillResolveEventStateInfo.
Proof. unfold FillResolveEventStateInfo. filled. Qed.

Lemma FillViewportState_filled : well_filled FillViewportState.
Proof. unfold FillViewportState, fill_viewport, fill_scissor. filled. Qed.

Lemma FillRasterizerState_filled : well_filled FillRasterizerState.
Proof. unfold FillRasterizerState, fill_polygon_mode, fill_su_cntl. filled. Qed.

Lemma FillDepthState_filled uninitialized : well_filled (FillDepthState uninitialized).
Proof. unfold FillDepthState, fill_depth, fill_stencil, both_faces. filled. Qed.

Lemma FillColorBlendState_filled : well_filled FillColorBlendState.
Proof. unfold FillColorBlendState, fill_render_target, fill_blend_constants. filled. Qed.

Lemma FillHardwareSpecificStates_filled : well_filled FillHardwareSpecificStates.
Proof. unfold FillHardwareSpecificStates, fill_lrz, fill_bins, fill_helper_lanes, fill_ubwc, fill_depth_ubwc. filled. Qed.

Hint Resolve FillViewportState_filled FillRasterizerState_filled FillDepthState_filled FillColorBlendState_filled
  FillHardwareSpecificStates_filled : filling.

Lemma FillDraw_filled uninitialized : well_filled (FillDrawEventStateInfo uninitialized).
Proof.
  unfold FillDrawEventStateInfo, FillInputAssemblyState, FillTessellationState, FillMultisamplingState. filled.
Qed.
End Filled.

#[export] Hint Resolve FillResolveOrClear_filled FillResolve_filled FillDraw_filled : filling.

(** ** What a field is set to

    The row that the writes make. *)
Definition write_row (row : Row) (w : FieldWrite) : Row := let '(f, i, value) := w in <[(f, i) := value]> row.
Definition row_of (l : list FieldWrite) : Row := foldl write_row ∅ l.

Definition avoids {A} (f : EventField) (m : Filling A) : Prop := forall t a l, m t = Done (a, l) -> Forall (fun w => w.1.1 <> f) l.

(** If [m] gives writes from [t], they leave [o] in the element. *)
Definition leaves {A} (t : EmulateStateTracker) (f : EventField) (i : nat) (o : option (list byte)) (m : Filling A) : Prop :=
  forall a l, m t = Done (a, l) -> row_of l !! (f, i) = o.

(** The value of a register in the current pass, if it is set. *)
Definition register_now (offset : Z) (t : EmulateStateTracker) : option Z :=
  match IsRegSet_current offset t, GetRegValue_current offset t with Done true, Done value => Some value | _, _ => None end.

Section Leaves.
Context (f : EventField).

Lemma write_rows_avoid i l : forall r, Forall (fun w => w.1.1 <> f) l -> foldl write_row r l !! (f, i) = r !! (f, i).
Proof.
  induction l as [|[[g j] v] l IH]; intros r Ha; [done|]. apply Forall_cons in Ha as [Hg Hl]. cbn in *. rewrite IH by done.
  apply lookup_insert_ne. by intros [= ? _].
Qed.

Lemma write_rows_same i l : forall r r' : Row, r !! (f, i) = r' !! (f, i) -> foldl write_row r l !! (f, i) = foldl write_row r' l !! (f, i).
Proof.
  induction l as [|[[g j] v] l IH]; intros r r' E; [done|]. apply IH. cbn.
  destruct (decide ((g, j) = (f, i))) as [->|]; [by rewrite !lookup_insert_eq|by rewrite !lookup_insert_ne].
Qed.

Lemma avoids_ret {A} (a : A) : avoids f (mret a).
Proof. intros t a' l [= _ <-]. constructor. Qed.

Lemma avoids_asks {A} (g : EmulateStateTracker -> outcome A) : avoids f (asks g).
Proof. intros t a l. unfold asks. destruct (g t); [|done|done]. intros [= _ <-]. constructor. Qed.

Lemma avoids_set_at g i value : g <> f -> avoids f (set_at g i value).
Proof. intros Hg t a l [= _ <-]. by repeat constructor. Qed.

Lemma avoids_bind {A B} (m : Filling A) (k : A -> Filling B) : avoids f m -> (forall a, avoids f (k a)) -> avoids f (m ≫= k).
Proof.
  intros Hm Hk t b l. unfold mbind, Filling_bind. destruct (m t) as [[a l1]| |] eqn:E1; [|done|done]. cbn [mbind outcome_bind].
  destruct (k a t) as [[b' l2]| |] eqn:E2; [|done|done]. intros [= _ <-]. apply Forall_app_2; [by eapply Hm|by eapply Hk].
Qed.

Lemma avoids_if_set offset k : (forall value, avoids f (k value)) -> avoids f (if_set offset k).
Proof.
  intros Hk. apply avoids_bind; [apply avoids_asks|]. intros []; [|apply avoids_ret]. apply avoids_bind; [apply avoids_asks|done].
Qed.

Lemma avoids_while_set n start stride body : (forall i offset, avoids f (body i offset)) ->
  forall id, avoids f (while_set n id start stride body).
Proof.
  intros Hb. induction n as [|n IH]; intros id; cbn [while_set]; [apply avoids_ret|]. apply avoids_bind; [apply avoids_asks|].
  intros []; [|apply avoids_ret]. by apply avoids_bind.
Qed.

Context (t : EmulateStateTracker) (i : nat).

Lemma leaves_first {A B} o (m : Filling A) (k : A -> Filling B) : leaves t f i o m -> (forall a, avoids f (k a)) -> leaves t f i o (m ≫= k).
Proof.
  intros Hm Hk b l. unfold mbind, Filling_bind. destruct (m t) as [[a l1]| |] eqn:E1; [|done|done]. cbn [mbind outcome_bind].
  destruct (k a t) as [[b' l2]| |] eqn:E2; [|done|done]. intros [= _ <-]. unfold row_of. rewrite foldl_app, write_rows_avoid by by eapply Hk.
  by eapply Hm.
Qed.

Lemma leaves_second {A B} o (m : Filling A) (k : A -> Filling B) : avoids f m -> (forall a, leaves t f i o (k a)) -> leaves t f i o (m ≫= k).
Proof.
  intros Hm Hk b l. unfold mbind, Filling_bind. destruct (m t) as [[a l1]| |] eqn:E1; [|done|done]. cbn [mbind outcome_bind].
  destruct (k a t) as [[b' l2]| |] eqn:E2; [|done|done]. intros [= _ <-]. unfold row_of. rewrite foldl_app.
  rewrite (write_rows_same _ _ _ ∅); [by eapply Hk|]. by rewrite write_rows_avoid by by eapply Hm.
Qed.

Lemma leaves_set_at value : leaves t f i (Some value) (set_at f i value).
Proof. intros a l [= _ <-]. unfold row_of. cbn. apply lookup_insert_eq. Qed.

Lemma leaves_if_set offset k g : (forall value, leaves t f i (Some (g value)) (k value)) ->
  leaves t f i (g <$> register_now offset t) (if_set offset k).
Proof.
  intros Hk a l. unfold if_set, mbind, Filling_bind, asks, register_now. destruct (IsRegSet_current offset t) as [[]| |]; cbn; try done.
  - destruct (GetRegValue_current offset t) as [value| |]; cbn; try done. destruct (k value t) as [[a' l']| |] eqn:E; [|done|done].
    intros [= _ <-]. by eapply Hk.
  - by intros [= _ <-].
Qed.
End Leaves.

(** Through a function that fills. *)
Ltac avoid :=
  repeat lazymatch goal with
  | |- avoids _ (mret _) => apply avoids_ret
  | |- avoids _ (asks _) => apply avoids_asks
  | |- avoids _ (read_register _) => apply avoids_asks
  | |- avoids _ (set _ _) => apply avoids_set_at; discriminate
  | |- avoids _ (set_at _ _ _) => apply avoids_set_at; discriminate
  | |- avoids _ (if_set _ _) => apply avoids_if_set; intros ?
  | |- avoids _ (while_set _ _ _ _ _) => apply avoids_while_set; intros ? ?
  | |- avoids _ (mbind _ _) => apply avoids_bind; [|intros ?]
  | |- avoids _ (if ?b then _ else _) => destruct b
  | |- avoids _ (match ?x with _ => _ end) => destruct x
  | |- avoids _ (let _ := _ in _) => cbv zeta
  end.

Ltac leave :=
  lazymatch goal with
  | |- leaves _ ?f _ _ (set ?f _) => apply leaves_set_at
  | |- leaves _ _ _ _ (if_set _ _) => apply leaves_if_set; intros ?; leave
  | |- leaves _ _ _ _ (mbind _ _) =>
      first [apply leaves_first; [leave|intros ?; solve [avoid]] | apply leaves_second; [solve [avoid]|intros ?; leave]]
  | |- leaves _ _ _ _ (let _ := _ in _) => cbv zeta; leave
  end.

Section DrawFields.
Context `{Pm4Info} `{GpuVariants}.

(** A field that has the value of a part of one register. *)
Record RegisterField := mkRegisterField {
  df_field : EventField;
  df_register : string;
  df_value : Z -> list byte
}.

Definition word_of (name : string) (value : Z) : list byte := u32_value (bitfield name value).
Definition half_of (name : string) (value : Z) : list byte := u16_value (bitfield name value).
Definition flag_of_register (name : string) (value : Z) : list byte := bool_value (flag name value).
Definition one_bit_of (name : string) (value : Z) : list byte := bool_value (is_one name value).
Definition not_one_bit_of (name : string) (value : Z) : list byte := bool_value (negb (is_one name value)).

(** The specification of a draw's state, as a table. *)
Definition draw_fields : list RegisterField :=
  [ mkRegisterField PrimRestartEnabled "PC_CNTL" (one_bit_of "VPC_PC_CNTL.bitfields.PRIMITIVE_RESTART");
    mkRegisterField PatchControlPoints "PC_HS_PARAM_1" (word_of "PC_HS_PARAM_1.bitfields.SIZE");
    mkRegisterField DepthClampEnabled "GRAS_CL_CNTL" (not_one_bit_of "GRAS_CL_CNTL.bitfields.Z_CLAMP_ENABLE");
    mkRegisterField RasterizerDiscardEnabled "VPC_RAST_STREAM_CNTL" (one_bit_of "VPC_RAST_STREAM_CNTL.bitfields.DISCARD");
    mkRegisterField CullMode "GRAS_SU_CNTL" (fun value =>
      u32_value (Z.lor (if flag "GRAS_SU_CNTL.bitfields.CULL_FRONT" value then 1 else 0)
                       (if flag "GRAS_SU_CNTL.bitfields.CULL_BACK" value then 2 else 0)));
    mkRegisterField FrontFace "GRAS_SU_CNTL" (fun value =>
      u32_value (if bitfield "GRAS_SU_CNTL.bitfields.FRONT_CW" value =? 0 then 0 else 1));
    mkRegisterField DepthBiasEnabled "GRAS_SU_CNTL" (one_bit_of "GRAS_SU_CNTL.bitfields.POLY_OFFSET");
    mkRegisterField LineWidth "GRAS_SU_CNTL" (fun value =>
      u32_value (float_mul (float_of_uint (bitfield "GRAS_SU_CNTL.bitfields.LINEHALFWIDTH" value)) two));
    mkRegisterField DepthBiasConstantFactor "GRAS_SU_POLY_OFFSET_OFFSET" u32_value;
    mkRegisterField DepthBiasClamp "GRAS_SU_POLY_OFFSET_OFFSET_CLAMP" u32_value;
    mkRegisterField DepthBiasSlopeFactor "GRAS_SU_POLY_OFFSET_SCALE" u32_value;
    mkRegisterField RasterizationSamples "GRAS_SC_RAS_MSAA_CNTL" (fun value =>
      u32_value (wrap 32 (Z.shiftl 1 (bitfield "GRAS_SC_RAS_MSAA_CNTL.bitfields.SAMPLES" value))));
    mkRegisterField AlphaToCoverageEnabled "RB_BLEND_CNTL" (not_one_bit_of "RB_BLEND_CNTL.bitfields.ALPHA_TO_COVERAGE");
    mkRegisterField DepthTestEnabled "RB_DEPTH_CNTL" (flag_of_register "RB_DEPTH_CNTL.bitfields.Z_TEST_ENABLE");
    mkRegisterField DepthWriteEnabled "RB_DEPTH_CNTL" (flag_of_register "RB_DEPTH_CNTL.bitfields.Z_WRITE_ENABLE");
    mkRegisterField DepthCompareOp "RB_DEPTH_CNTL" (word_of "RB_DEPTH_CNTL.bitfields.ZFUNC");
    mkRegisterField DepthBoundsTestEnabled "RB_DEPTH_CNTL" (one_bit_of "RB_DEPTH_CNTL.bitfields.Z_BOUNDS_ENABLE");
    mkRegisterField StencilTestEnabled "RB_STENCIL_CNTL" (one_bit_of "RB_STENCIL_CNTL.bitfields.STENCIL_ENABLE");
    mkRegisterField LRZEnabled "GRAS_LRZ_CNTL" (flag_of_register "GRAS_LRZ_CNTL.bitfields.ENABLE");
    mkRegisterField ZTestMode "GRAS_SU_DEPTH_PLANE_CNTL" (word_of "GRAS_SU_DEPTH_PLANE_CNTL.bitfields.Z_MODE");
    mkRegisterField RenderMode "GRAS_SC_BIN_CNTL" (word_of "GRAS_SC_BIN_CNTL.bitfields.RENDER_MODE");
    mkRegisterField WindowScissorTLX "GRAS_SC_WINDOW_SCISSOR_TL" (half_of "GRAS_SC_WINDOW_SCISSOR_TL.bitfields.X");
    mkRegisterField WindowScissorTLY "GRAS_SC_WINDOW_SCISSOR_TL" (half_of "GRAS_SC_WINDOW_SCISSOR_TL.bitfields.Y");
    mkRegisterField WindowScissorBRX "GRAS_SC_WINDOW_SCISSOR_BR" (half_of "GRAS_SC_WINDOW_SCISSOR_BR.bitfields.X");
    mkRegisterField WindowScissorBRY "GRAS_SC_WINDOW_SCISSOR_BR" (half_of "GRAS_SC_WINDOW_SCISSOR_BR.bitfields.Y");
    mkRegisterField ThreadSize "SP_PS_CNTL_0" (word_of "SP_PS_CNTL_0.bitfields.THREADSIZE");
    mkRegisterField EnableAllHelperLanes "SP_PS_CNTL_0" (flag_of_register "SP_PS_CNTL_0.bitfields.LODPIXMASK");
    mkRegisterField EnablePartialHelperLanes "SP_PS_CNTL_0" (flag_of_register "SP_PS_CNTL_0.bitfields.PIXLODENABLE") ].

(** [m] leaves in a field what the table says. *)
Definition shows (m : Filling ()) (df : RegisterField) : Prop := forall t,
  leaves t (df_field df) 0 (df_value df <$> register_now (GetRegOffsetByName (df_register df)) t) m.

Lemma FillDraw_shows uninitialized : Forall (shows (FillDrawEventStateInfo uninitialized)) draw_fields.
Proof.
  unfold FillDrawEventStateInfo, FillInputAssemblyState, FillTessellationState, FillViewportState, fill_viewport, fill_scissor,
    FillRasterizerState, fill_polygon_mode, fill_su_cntl, FillMultisamplingState, FillDepthState, fill_depth, fill_stencil,
    both_faces, FillColorBlendState, fill_render_target, fill_blend_constants, FillHardwareSpecificStates, fill_lrz, fill_bins,
    fill_helper_lanes, fill_ubwc, fill_depth_ubwc.
  unfold draw_fields. repeat (apply Forall_cons; split; [intros t; cbn [df_field df_value df_register]; leave|]). constructor.
Qed.
End DrawFields.
