(* ===== verification/MetaData.v ===== *)
(** * MetaData: the events of a capture

    Models [CaptureMetadataCreator] of [src/dive_core/data_core.{h,cpp}], the callbacks of
    an emulation that collect each event with its kind, pass, description, state
    ([FillState]) and shaders, and [EventInfo] and [ShaderReference] of
    [capture_event_info.h]. A shader is the submit and the address that its disassembly
    is made from; the disassembly itself and the logs are not modelled. *)

From S2P Require Import Prelude Wire Memory Pm4 StateTracker Emulate EventInfo NodeTree EventState FillState.

#[local] Open Scope Z_scope.

(** ** Data *)

Inductive RenderModeType :=
  | kDirect | kBinningVis | kBinningDirect | kTiled | kResolve | kDispatchMode | kUnknownMode.

#[global] Instance RenderModeType_eq_dec : EqDecision RenderModeType.
Proof. solve_decision. Defined.

#[global] Instance ShaderStage_eq_dec : EqDecision ShaderStage.
Proof. solve_decision. Defined.

Record ShaderReference := mkReference {
  m_shader_index : Z;
  m_stage : ShaderStage;
  ref_enable_mask : Z
}.

Definition or_enable_mask (mask : Z) (r : ShaderReference) :=
  mkReference (m_shader_index r) (m_stage r) (Z.lor (ref_enable_mask r) mask).

Record EventInfo := mkEventInfo {
  m_shader_references : list ShaderReference;
  m_num_indices : Z;
  ei_submit_index : Z;
  ei_type : Z;
  m_render_mode : RenderModeType;
  m_str : string
}.

Definition new_EventInfo : EventInfo := mkEventInfo [] 0 0 kUnknown kUnknownMode "".

Definition set_references l (e : EventInfo) :=
  mkEventInfo l (m_num_indices e) (ei_submit_index e) (ei_type e) (m_render_mode e) (m_str e).
Definition set_num_indices n (e : EventInfo) :=
  mkEventInfo (m_shader_references e) n (ei_submit_index e) (ei_type e) (m_render_mode e) (m_str e).

(** The enumerators of [Util::EventType]. *)
Definition IsResolve (type : Z) : bool :=
  (4 <=? type) && (type <=? 6) || (8 <=? type) && (type <=? 10) || (type =? 12).
Definition IsGmemClear (type : Z) : bool :=
  (type =? 6) || (type =? 7) || (type =? 10) || (type =? 11).

(** The arguments of a [Disassembly]. *)
Record Shader := mkShader { sh_submit_index : Z; sh_addr : Z }.

(** [CaptureMetadata], without the hierarchy. *)
Record CaptureMetadata := mkMetadata {
  m_shaders : list Shader;
  m_event_info : list EventInfo;
  m_event_state : EventStateInfo;
  m_num_pm4_packets : Z
}.

Definition new_CaptureMetadata : CaptureMetadata := mkMetadata [] [] new_EventStateInfo 0.

Record MetadataCreator := mkMetadataCreator {
  mc_state_tracker : EmulateStateTracker;
  m_shader_addrs : gmap Z Z;
  m_capture_metadata : CaptureMetadata;
  m_current_render_mode : RenderModeType
}.

Definition new_MetadataCreator (m : CaptureMetadata) : MetadataCreator :=
  mkMetadataCreator new_EmulateStateTracker ∅
    (mkMetadata (m_shaders m) (m_event_info m) (m_event_state m) 0) kUnknownMode.

Definition set_mc_tracker t (c : MetadataCreator) :=
  mkMetadataCreator t (m_shader_addrs c) (m_capture_metadata c) (m_current_render_mode c).
Definition set_shader_addrs a (c : MetadataCreator) :=
  mkMetadataCreator (mc_state_tracker c) a (m_capture_metadata c) (m_current_render_mode c).
Definition set_render_mode r (c : MetadataCreator) :=
  mkMetadataCreator (mc_state_tracker c) (m_shader_addrs c) (m_capture_metadata c) r.
Definition update_metadata (f : CaptureMetadata -> CaptureMetadata) (c : MetadataCreator) :=
  mkMetadataCreator (mc_state_tracker c) (m_shader_addrs c) (f (m_capture_metadata c)) (m_current_render_mode c).

Definition set_shaders s (m : CaptureMetadata) := mkMetadata s (m_event_info m) (m_event_state m) (m_num_pm4_packets m).
Definition set_event_info e (m : CaptureMetadata) := mkMetadata (m_shaders m) e (m_event_state m) (m_num_pm4_packets m).
Definition set_event_state s (m : CaptureMetadata) := mkMetadata (m_shaders m) (m_event_info m) s (m_num_pm4_packets m).
Definition count_packet (m : CaptureMetadata) :=
  mkMetadata (m_shaders m) (m_event_info m) (m_event_state m) (wrap 64 (m_num_pm4_packets m + 1)).

(** Updates the last event. *)
Definition update_last {A} (f : A -> A) (l : list A) : list A :=
  match rev l with [] => [] | x :: l => rev (f x :: l) end.

(** What an uninitialized local variable holds when an event is handled, by the event's
    number and the variable. *)
Class Indeterminate := indeterminate : Z -> string -> Z.

(** ** Shaders *)

(** The loop that adds to the masks of references to the shader; and whether there was
    one. *)
Fixpoint add_enable_mask (shader_index enable_mask : Z) (references : list ShaderReference) : list ShaderReference * bool :=
  match references with
  | [] => ([], false)
  | r :: references =>
      let '(references, found) := add_enable_mask shader_index enable_mask references in
      if m_shader_index r =? shader_index then (or_enable_mask enable_mask r :: references, true)
      else (r :: references, found)
  end.

Definition refer (stage : ShaderStage) (shader_index enable_mask : Z) (e : EventInfo) : EventInfo :=
  set_references (m_shader_references e ++ [mkReference shader_index stage enable_mask]) e.

(** A shader that was seen before, and one that was not. *)
Definition seen_shader (stage : ShaderStage) (shader_index enable_mask : Z) (e : EventInfo) : EventInfo :=
  let '(references, found) := add_enable_mask shader_index enable_mask (m_shader_references e) in
  if found then set_references references e else refer stage shader_index enable_mask e.

Definition add_shader (stage : ShaderStage) (addr enable_mask submit_index : Z) (c : MetadataCreator) : MetadataCreator :=
  let m := m_capture_metadata c in
  let shader_index := wrap 32 (Z.of_nat (length (m_shaders m))) in
  set_shader_addrs (<[addr := shader_index]> (m_shader_addrs c))
    (update_metadata (fun m =>
       set_event_info (update_last (refer stage shader_index enable_mask) (m_event_info m))
         (set_shaders (m_shaders m ++ [mkShader submit_index addr]) m)) c).

Definition use_shader (stage : ShaderStage) (addr enable_mask submit_index : Z) (c : MetadataCreator) : MetadataCreator :=
  match m_shader_addrs c !! addr with
  | Some shader_index =>
      update_metadata (fun m => set_event_info (update_last (seen_shader stage shader_index enable_mask) (m_event_info m)) m) c
  | None => add_shader stage addr enable_mask submit_index c
  end.

Definition shader_stages : list ShaderStage :=
  [kShaderStageCs; kShaderStageGs; kShaderStageHs; kShaderStagePs; kShaderStageVs].
Definition shader_enable_bits : list ShaderEnableBit := [kBINNING; kGMEM; kSYSMEM].

(** Dispatches have compute shaders only, draws the others. *)
Definition is_valid_shader (is_dispatch : bool) (stage : ShaderStage) : bool :=
  is_dispatch && bool_decide (stage = kShaderStageCs) || negb is_dispatch && negb (bool_decide (stage = kShaderStageCs)).

Section Metadata.
Context `{AdrenoPm4} `{Pm4Info} `{GpuVariants} `{Indeterminate} {M : Type} `{IMemoryManager M}.

Definition handle_shader (submit_index opcode : Z) (stage : ShaderStage) (_ : nat) (bit : ShaderEnableBit)
  : Steps MetadataCreator () :=
  c ← get;
  addr ← checked (GetCurShaderAddr stage bit (mc_state_tracker c));
  if is_valid_shader (IsDispatchEventOpcode opcode) stage && negb (addr =? UINT64_MAX) && negb (addr =? 0) then
    modify (use_shader stage addr (Z.shiftl 1 (ShaderEnableBit_to_Z bit)) submit_index)
  else mret ().

Definition HandleShaders (submit_index opcode : Z) : Steps MetadataCreator bool :=
  each 0 shader_stages (fun _ stage => each 0 shader_enable_bits (handle_shader submit_index opcode stage));;
  mret true.

(** ** Packets *)

(** The [switch] on a marker. *)
Definition render_mode_of (marker : Z) : RenderModeType :=
  if marker =? RM6_DIRECT_RENDER then kDirect
  else if marker =? RM6_BIN_VISIBILITY then kBinningVis
  else if marker =? RM6_BIN_DIRECT then kBinningDirect
  else if marker =? RM6_BIN_RENDER_START then kTiled
  else if marker =? RM6_BIN_END_OF_DRAWS then kUnknownMode
  else if marker =? RM6_BIN_RESOLVE then kResolve
  else if marker =? enumerator "RM6_COMPUTE" then kDispatchMode
  else kUnknownMode.

(** Operations on the creator and the memory, which caches. *)
Definition Gathering (A : Type) : Type := Steps (MetadataCreator * M) A.
#[local] Instance Gathering_ret : MRet Gathering := Steps_ret.
#[local] Instance Gathering_bind : MBind Gathering := @Steps_bind (MetadataCreator * M).

Definition gather {A} (m : Steps MetadataCreator A) : Gathering A := fun s =>
  '(a, c) ← m (fst s); Done (a, (c, snd s)).
Definition gather_read {A} (m : Reads A) : Gathering A := fun s => '(a, mem) ← m (snd s); Done (a, (fst s, mem)).
Definition get_gathered : Gathering MetadataCreator := gather get.
Definition update_gathered (f : MetadataCreator -> MetadataCreator) : Gathering () := gather (modify f).

(** The fields that a function sets, in the element of the event. *)
Fixpoint write_fields (it : Z) (l : list FieldWrite) (s : EventStateInfo) : outcome EventStateInfo :=
  match l with
  | [] => Done s
  | (f, i, value) :: l => s ← SetField f it (Z.of_nat i) value s; write_fields it l s
  end.

Definition fill (it : Z) (m : Filling ()) : Steps MetadataCreator () := fun c =>
  '(_, l) ← m (mc_state_tracker c);
  s ← write_fields it l (m_event_state (m_capture_metadata c));
  Done ((), update_metadata (set_event_state s) c).

Definition on_last_event (f : EventInfo -> EventInfo) : Steps MetadataCreator () :=
  modify (update_metadata (fun m => set_event_info (update_last f (m_event_info m)) m)).

(** [Add] on the event state; its iterator. *)
Definition add_state : Steps MetadataCreator Z := fun c =>
  '(it, s) ← Add (m_event_state (m_capture_metadata c)); Done (it, update_metadata (set_event_state s) c).

Definition VkPrimitiveTopology_to_Z (t : VkPrimitiveTopology) : Z :=
  match t with
  | VK_PRIMITIVE_TOPOLOGY_POINT_LIST => 0 | VK_PRIMITIVE_TOPOLOGY_LINE_LIST => 1 | VK_PRIMITIVE_TOPOLOGY_LINE_STRIP => 2
  | VK_PRIMITIVE_TOPOLOGY_TRIANGLE_LIST => 3 | VK_PRIMITIVE_TOPOLOGY_TRIANGLE_STRIP => 4 | VK_PRIMITIVE_TOPOLOGY_TRIANGLE_FAN => 5
  | VK_PRIMITIVE_TOPOLOGY_LINE_LIST_WITH_ADJACENCY => 6 | VK_PRIMITIVE_TOPOLOGY_LINE_STRIP_WITH_ADJACENCY => 7
  | VK_PRIMITIVE_TOPOLOGY_TRIANGLE_LIST_WITH_ADJACENCY => 8 | VK_PRIMITIVE_TOPOLOGY_TRIANGLE_STRIP_WITH_ADJACENCY => 9
  end.

(** The indices and the topology of a draw. *)
Definition gather_draw (submit_index va_addr header it : Z) : Gathering () :=
  num_indices ← gather_read (GetIndexCount submit_index va_addr header);
  gather (on_last_event (set_num_indices num_indices));;
  topology ← gather_read (GetTopology submit_index va_addr header);
  match topology with
  | Some t => gather (fill it (set Field.Topology (u32_value (VkPrimitiveTopology_to_Z t))))
  | None => mret ()
  end.

(** The state of an event by its type. *)
Definition gather_state (submit_index opcode type it : Z) : Steps MetadataCreator bool :=
  if (type =? kDraw) || (type =? kDispatch) then
    (if type =? kDraw then fill it (FillDrawEventStateInfo (indeterminate it)) else mret ());;
    HandleShaders submit_index opcode
  else if IsResolve type then
    fill it FillResolveOrClearEventStateInfo;; fill it FillResolveEventStateInfo;; mret true
  else if IsGmemClear type then fill it FillResolveOrClearEventStateInfo;; mret true
  else mret true.

Definition gather_event (submit_index va_addr opcode header : Z) : Gathering bool :=
  c ← get_gathered;
  type ← gather_read (GetEventType submit_index va_addr opcode (mc_state_tracker c));
  it ← gather add_state;
  str ← gather_read (GetEventString submit_index va_addr header (mc_state_tracker c));
  gather (modify (update_metadata (fun m =>
    set_event_info (m_event_info m ++ [mkEventInfo [] 0 submit_index type (m_current_render_mode c) str]) m)));;
  (if type =? kDraw then gather_draw submit_index va_addr header it else mret ());;
  gather (gather_state submit_index opcode type it).

Definition gather_marker (submit_index va_addr : Z) : Gathering () :=
  packet ← gather_read (retrieve sizeof_SET_MARKER sizeof_SET_MARKER submit_index va_addr);
  update_gathered (set_render_mode (render_mode_of (Z.land (SET_MARKER_u32All0 packet) 0xf))).

Definition Metadata_OnPacket (submit_index ib_index va_addr header : Z) : Gathering bool :=
  update_gathered (update_metadata count_packet);;
  c ← get_gathered;
  '(ok, tracker) ← gather_read (fun mem =>
    '(ok, tracker, mem) ← base_OnPacket submit_index ib_index va_addr header (mc_state_tracker c) mem;
    Done (ok, tracker, mem));
  update_gathered (set_mc_tracker tracker);;
  if negb ok then mret false
  else if negb (header_type header =? 7) then mret true
  else
    let opcode := type7_opcode header in
    (if opcode =? CP_SET_MARKER then gather_marker submit_index va_addr else mret ());;
    c ← get_gathered;
    is_event ← gather_read (IsEvent submit_index va_addr opcode (mc_state_tracker c));
    if (is_event : bool) then gather_event submit_index va_addr opcode header else mret true.

Definition Metadata_OnSubmitStart (submit_index : Z) (submit_info : SubmitInfo) (c : MetadataCreator) : MetadataCreator :=
  set_render_mode kUnknownMode (set_mc_tracker (Tracker_Reset (mc_state_tracker c)) c).

Definition metadata_callbacks : EmulateCallbacks MetadataCreator M := {|
  OnIbStart submit_index ib_index ib_info type c :=
    '(ok, t) ← base_OnIbStart submit_index ib_index ib_info type (mc_state_tracker c); Done (true, set_mc_tracker t c);
  OnIbEnd submit_index ib_index ib_info c :=
    '(ok, t) ← base_OnIbEnd submit_index ib_index ib_info (mc_state_tracker c); Done (true, set_mc_tracker t c);
  OnPacket submit_index ib_index va_addr header c mem :=
    '(ok, (c, mem)) ← Metadata_OnPacket submit_index ib_index va_addr header (c, mem); Done (ok, c, mem);
  OnSubmitStart := Metadata_OnSubmitStart;
  OnSubmitEnd submit_index submit_info c := c
|}.

(** [DataCore::CreatePm4MetaData] on the submits and the memory of the capture. *)
Definition CreatePm4MetaData (fuel : nat) (submits : list SubmitInfo) (m : CaptureMetadata) (mem : M)
  : outcome (bool * CaptureMetadata * M) :=
  '(ok, c, mem) ← @ProcessSubmits _ _ _ _ metadata_callbacks fuel submits (new_MetadataCreator m) mem;
  Done (ok, m_capture_metadata c, mem).
End Metadata.
