(* ===== verification/MetaEvents.v ===== *)
(** * MetaEvents: what a capture's events say

    What [CreatePm4MetaData] of [MetaData] collects: an invariant of its callbacks
    relates each event and its element of the event state to its source, a packet with the
    state of the GPU at it. *)

From stdpp Require Import strings gmap.
From S2P Require Import Prelude Wire Memory Pm4 StateTracker Emulate EmulateTrace EventInfo NodeTree EventState FillState MetaData.

#[local] Open Scope Z_scope.

(** ** Partial triples

    If [m] gives a result from [s], it satisfies [Q]. *)
Definition yields {St A} (m : Steps St A) (Q : A -> St -> Prop) (s : St) : Prop :=
  forall a s', m s = Done (a, s') -> Q a s'.

Section Yields.
Context {St : Type}.

Lemma yields_wp bad {A} (m : Steps St A) Q s : wp bad m Q s -> yields m Q s.
Proof. unfold wp, yields. intros Hw a s' E. by rewrite E in Hw. Qed.

Lemma yields_then {A B} (m : Steps St A) (k : A -> Steps St B) Q s :
  yields m (fun a => yields (k a) Q) s -> yields (m ≫= k) Q s.
Proof.
  unfold yields, mbind, Steps_bind. intros Hm b s'. destruct (m s) as [[a s1]| |]; [|done|done]. cbn. by apply Hm.
Qed.

Lemma yields_mono {A} (m : Steps St A) (P Q : A -> St -> Prop) s :
  yields m P s -> (forall a s, P a s -> Q a s) -> yields m Q s.
Proof. unfold yields. auto. Qed.

Lemma yields_mret {A} (a : A) (Q : A -> St -> Prop) s : Q a s -> yields (mret a) Q s.
Proof. by intros HQ a' s' [= <- <-]. Qed.

Lemma yields_get (Q : St -> St -> Prop) s : Q s s -> yields get Q s.
Proof. by intros HQ a' s' [= <- <-]. Qed.

Lemma yields_modify f (Q : () -> St -> Prop) s : Q () (f s) -> yields (modify f) Q s.
Proof. by intros HQ a' s' [= <- <-]. Qed.

Lemma yields_any {A} (m : Steps St A) (Q : A -> St -> Prop) s :
  (forall a s', m s = Done (a, s') -> Q a s') -> yields m Q s.
Proof. done. Qed.
End Yields.

(** ** Rows of the event state *)

Lemma row_of_app l l' : foldl write_row (row_of l) l' = row_of (l ++ l').
Proof. unfold row_of. by rewrite foldl_app. Qed.

Lemma write_fields_represents l : forall s rows id row, represents s rows -> rows !! id = Some row -> Forall write_ok l ->
  exists s', write_fields (Z.of_nat id) l s = Done s' /\ represents s' (<[id := foldl write_row row l]> rows).
Proof.
  induction l as [|[[f i] value] l IH]; intros s rows id row Hs Hl Hok; cbn [write_fields foldl write_row].
  { exists s. split; [done|]. by rewrite list_insert_id. }
  apply Forall_cons in Hok as [[Hi Hv] Hok].
  destruct (SetField_represents s rows id row f i value Hs Hl Hi Hv) as (s1 & E1 & Hs1). rewrite E1. cbn [mbind outcome_bind].
  destruct (IH s1 _ id (<[(f, i) := value]> row) Hs1) as (s2 & E2 & Hs2); [|done|].
  { apply list_lookup_insert_eq. by eapply lookup_lt_Some. }
  exists s2. split; [done|]. by rewrite list_insert_insert_eq in Hs2.
Qed.

(** ** References to shaders *)

(** [used stage bit addr]: the shader of a stage in one kind of pass is at an address.
    References to shaders at [addrs] are one for each shader that is used, with the
    passes that it is used in. *)
Record references_ok (addrs : list Z) (used : ShaderStage -> ShaderEnableBit -> Z -> Prop) (refs : list ShaderReference) : Prop := {
  refs_distinct : NoDup (m_shader_index <$> refs);
  refs_complete stage bit addr : used stage bit addr ->
    exists k r, addrs !! k = Some addr /\ r ∈ refs /\ m_shader_index r = Z.of_nat k /\
      Z.testbit (ref_enable_mask r) (ShaderEnableBit_to_Z bit) = true;
  refs_sound r : r ∈ refs ->
    exists k addr, m_shader_index r = Z.of_nat k /\ addrs !! k = Some addr /\
      (exists bit, used (m_stage r) bit addr) /\
      forall n, 0 <= n -> Z.testbit (ref_enable_mask r) n = true ->
        exists stage bit, n = ShaderEnableBit_to_Z bit /\ used stage bit addr
}.

Lemma references_ok_more addrs addrs' used refs :
  addrs `prefix_of` addrs' -> references_ok addrs used refs -> references_ok addrs' used refs.
Proof.
  intros Hp [Hd Hc Hs]. split; [done| |].
  - intros stage bit addr Hu. destruct (Hc _ _ _ Hu) as (k & r & Hk & ?). exists k, r. split; [by eapply prefix_lookup_Some|done].
  - intros r Hr. destruct (Hs r Hr) as (k & addr & E & Hk & ?). exists k, addr. split; [done|]. split; [by eapply prefix_lookup_Some|done].
Qed.

Lemma references_ok_iff addrs used used' refs :
  (forall stage bit addr, used stage bit addr <-> used' stage bit addr) -> references_ok addrs used refs -> references_ok addrs used' refs.
Proof.
  intros Hi [Hd Hc Hs]. split; [done| |].
  - intros stage bit addr Hu%Hi. by apply (Hc stage).
  - intros r Hr. destruct (Hs r Hr) as (k & addr & E & Hk & (bit & Hb) & Hn). exists k, addr. split; [done|]. split; [done|].
    split; [exists bit; by apply Hi|]. intros n H0 Ht. destruct (Hn n H0 Ht) as (stage & b & -> & Hu). exists stage, b. by rewrite <- Hi.
Qed.

Lemma references_ok_nil addrs used : (forall stage bit addr, ~ used stage bit addr) -> references_ok addrs used [].
Proof.
  intros Hn. split; [constructor|by intros stage bit addr ?%Hn|]. by intros r ?%elem_of_nil.
Qed.

(** One more shader that is used. *)
Definition and_also (used : ShaderStage -> ShaderEnableBit -> Z -> Prop) stage bit addr : ShaderStage -> ShaderEnableBit -> Z -> Prop :=
  fun stage' bit' addr' => used stage' bit' addr' \/ stage' = stage /\ bit' = bit /\ addr' = addr.

Definition mask_of (bit : ShaderEnableBit) : Z := Z.shiftl 1 (ShaderEnableBit_to_Z bit).

Lemma mask_of_testbit bit n : Z.testbit (mask_of bit) n = (n =? ShaderEnableBit_to_Z bit).
Proof.
  unfold mask_of. rewrite Z.shiftl_1_l, Z.pow2_bits_eqb by (destruct bit; cbn; lia). apply Z.eqb_sym.
Qed.

(** A shader without a reference. *)
Lemma refer_ok addrs used refs stage bit addr k :
  references_ok addrs used refs -> addrs !! k = Some addr -> Z.of_nat k ∉ m_shader_index <$> refs ->
  references_ok addrs (and_also used stage bit addr) (refs ++ [mkReference (Z.of_nat k) stage (mask_of bit)]).
Proof.
  intros [Hd Hc Hs] Hk Hnew. split.
  - rewrite fmap_app. apply NoDup_app. split; [done|]. split; [|apply NoDup_singleton].
    intros x Hx ->%list_elem_of_singleton. by apply Hnew.
  - intros stage' bit' addr' [Hu|(-> & -> & ->)].
    + destruct (Hc _ _ _ Hu) as (k' & r & ? & Hr & ?). exists k', r. split; [done|]. split; [|done]. apply elem_of_app. by left.
    + eexists k, _. split; [done|]. split; [apply elem_of_app; right; by left|]. split; [done|]. cbn.
      by rewrite mask_of_testbit, Z.eqb_refl.
  - intros r [Hr| ->%list_elem_of_singleton]%elem_of_app.
    + destruct (Hs r Hr) as (k' & addr' & E & Hk' & (b & Hb) & Hn). exists k', addr'. split; [done|]. split; [done|].
      split; [exists b; by left|]. intros n H0 Ht. destruct (Hn n H0 Ht) as (st & b' & -> & Hu). exists st, b'. split; [done|by left].
    + exists k, addr. split; [done|]. split; [done|]. split; [exists bit; by right|]. cbn. intros n H0. rewrite mask_of_testbit.
      intros ->%Z.eqb_eq. exists stage, bit. split; [done|by right].
Qed.

Lemma add_enable_mask_spec k mask refs : 
  let '(refs', found) := add_enable_mask k mask refs in
  refs' = (fun r => if m_shader_index r =? k then or_enable_mask mask r else r) <$> refs /\
  found = bool_decide (k ∈ m_shader_index <$> refs).
Proof.
  induction refs as [|r refs IH]; cbn [add_enable_mask]; [done|]. destruct (add_enable_mask k mask refs) as [refs' found].
  destruct IH as [-> ->]. rewrite !fmap_cons. destruct (Z.eqb_spec (m_shader_index r) k) as [E|Hne].
  - split; [done|]. rewrite bool_decide_eq_true_2; [done|]. rewrite E. left.
  - split; [done|]. apply bool_decide_ext. rewrite elem_of_cons. split; [by right|]. by intros [?|]; [congruence|].
Qed.

(** A shader that has one. *)
Lemma mask_ok addrs used refs stage bit addr k : NoDup addrs ->
  references_ok addrs used refs -> addrs !! k = Some addr -> Z.of_nat k ∈ m_shader_index <$> refs ->
  references_ok addrs (and_also used stage bit addr)
    ((fun r => if m_shader_index r =? Z.of_nat k then or_enable_mask (mask_of bit) r else r) <$> refs).
Proof.
  intros Hnd [Hd Hc Hs] Hk Hold. set (g := fun r => if m_shader_index r =? Z.of_nat k then or_enable_mask (mask_of bit) r else r).
  assert (forall r, m_shader_index (g r) = m_shader_index r) as Hg by (intros r; subst g; cbn; by case_match).
  assert (forall r n, Z.testbit (ref_enable_mask (g r)) n =
    Z.testbit (ref_enable_mask r) n || (m_shader_index r =? Z.of_nat k) && (n =? ShaderEnableBit_to_Z bit)) as Hbits.
  { intros r n. subst g. cbn. destruct (_ =? _); cbn; [|by rewrite orb_false_r]. by rewrite Z.lor_spec, mask_of_testbit. }
  split.
  - assert (m_shader_index <$> (g <$> refs) = m_shader_index <$> refs) as ->; [|done].
    rewrite <- list_fmap_compose. apply list_fmap_ext. intros i r _. apply Hg.
  - intros stage' bit' addr' [Hu|(-> & -> & ->)].
    + destruct (Hc _ _ _ Hu) as (k' & r & Hk' & Hr & Ei & Hm). exists k', (g r). split; [done|]. split; [by apply list_elem_of_fmap_2|].
      rewrite Hg, Hbits, Hm. done.
    + apply list_elem_of_fmap in Hold as (r & Er & Hr). exists k, (g r). split; [done|]. split; [by apply list_elem_of_fmap_2|].
      rewrite Hg, Hbits, <- Er, !Z.eqb_refl, orb_true_r. done.
  - intros r' (r & -> & Hr)%list_elem_of_fmap. destruct (Hs r Hr) as (k' & addr' & E & Hk' & (b & Hb) & Hn). exists k', addr'.
    rewrite Hg. split; [done|]. split; [done|]. split.
    { exists b. left. subst g. cbn. by case_match. }
    intros n H0. rewrite Hbits. intros [Ht|[E1%Z.eqb_eq ->%Z.eqb_eq]%andb_true_iff]%orb_true_iff.
    + destruct (Hn n H0 Ht) as (st & b' & -> & Hu). exists st, b'. split; [done|by left].
    + exists stage, bit. split; [done|]. right. split; [done|]. split; [done|]. assert (k' = k) as -> by lia. congruence.
Qed.

Lemma seen_shader_ok addrs used e stage bit addr k : NoDup addrs ->
  references_ok addrs used (m_shader_references e) -> addrs !! k = Some addr ->
  references_ok addrs (and_also used stage bit addr) (m_shader_references (seen_shader stage (Z.of_nat k) (mask_of bit) e)).
Proof.
  intros Hnd Hr Hk. unfold seen_shader. pose proof (add_enable_mask_spec (Z.of_nat k) (mask_of bit) (m_shader_references e)) as Hs.
  destruct (add_enable_mask _ _ _) as [refs found]. destruct Hs as [-> ->]. case_bool_decide; [by apply mask_ok|by apply refer_ok].
Qed.

(** ** Handling the shaders of an event *)

Definition addrs_of (c : MetadataCreator) : list Z := sh_addr <$> m_shaders (m_capture_metadata c).

(** The shaders have different addresses, which are looked up in a map. *)
Definition indexed (c : MetadataCreator) : Prop :=
  NoDup (addrs_of c) /\
  forall addr i, m_shader_addrs c !! addr = Some i <-> exists k, i = Z.of_nat k /\ addrs_of c !! k = Some addr.

Lemma update_last_app {A} (f : A -> A) l a : update_last f (l ++ [a]) = l ++ [f a].
Proof. unfold update_last. rewrite rev_unit. cbn [rev]. by rewrite rev_involutive. Qed.

Lemma seen_shader_set stage k mask e refs :
  seen_shader stage k mask (set_references refs e) = set_references (m_shader_references (seen_shader stage k mask (set_references refs e))) e.
Proof. unfold seen_shader, refer. cbn. destruct (add_enable_mask _ _ _) as [l []]; done. Qed.

Section Gathered.
Context `{AdrenoPm4} `{Pm4Info} `{GpuVariants} `{Indeterminate} {M : Type} `{IMemoryManager M}.

(** The shaders that the registers say an event uses. *)
Definition uses (P : ShaderStage -> ShaderEnableBit -> Prop) (opcode : Z) (t : EmulateStateTracker)
    (stage : ShaderStage) (bit : ShaderEnableBit) (addr : Z) : Prop :=
  P stage bit /\ is_valid_shader (IsDispatchEventOpcode opcode) stage = true /\ GetCurShaderAddr stage bit t = Done addr /\
  addr <> UINT64_MAX /\ addr <> 0.

Definition uses_shader : Z -> EmulateStateTracker -> ShaderStage -> ShaderEnableBit -> Z -> Prop :=
  uses (fun stage bit => stage ∈ shader_stages).

(** From [c0], whose last event is [e] after [es], [n] pairs of a stage and a pass were
    handled, those that satisfy [P]. *)
Record handling (c0 : MetadataCreator) (es : list EventInfo) (e : EventInfo) (opcode : Z)
    (P : ShaderStage -> ShaderEnableBit -> Prop) (n : nat) (c : MetadataCreator) : Prop := {
  hd_tracker : mc_state_tracker c = mc_state_tracker c0;
  hd_state : m_event_state (m_capture_metadata c) = m_event_state (m_capture_metadata c0);
  hd_events : exists refs, m_event_info (m_capture_metadata c) = es ++ [set_references refs e] /\
    references_ok (addrs_of c) (uses P opcode (mc_state_tracker c0)) refs;
  hd_indexed : indexed c;
  hd_shaders : addrs_of c0 `prefix_of` addrs_of c;
  hd_count : (length (addrs_of c) <= length (addrs_of c0) + n)%nat
}.

Lemma handling_weaken c0 es e opcode P P' n n' c : handling c0 es e opcode P n c -> (n <= n')%nat ->
  (forall stage bit addr, uses P opcode (mc_state_tracker c0) stage bit addr <-> uses P' opcode (mc_state_tracker c0) stage bit addr) ->
  handling c0 es e opcode P' n' c.
Proof.
  intros [Ht Hs (refs & E & Hr) Hi Hp Hc] Hn HP. split; try done; [|lia].
  exists refs. split; [done|]. by eapply references_ok_iff.
Qed.

Lemma use_shader_handling c0 es e opcode P n stage bit addr submit c :
  Z.of_nat (length (addrs_of c0) + n) < 2 ^ 32 ->
  handling c0 es e opcode P n c -> uses (fun _ _ => True) opcode (mc_state_tracker c0) stage bit addr ->
  handling c0 es e opcode (fun stage' bit' => P stage' bit' \/ stage' = stage /\ bit' = bit) (S n)
    (use_shader stage addr (mask_of bit) submit c).
Proof.
  intros Hn [Ht Hs (refs & E & Hr) [Hnd Hi] Hp Hc] (_ & Hu1 & Hu2 & Hu3).
  assert (forall addrs refs', references_ok addrs (and_also (uses P opcode (mc_state_tracker c0)) stage bit addr) refs' ->
    references_ok addrs (uses (fun stage' bit' => P stage' bit' \/ stage' = stage /\ bit' = bit) opcode (mc_state_tracker c0)) refs') as Hiff.
  { intros addrs refs'. apply references_ok_iff. intros st b a. unfold and_also, uses. split.
    - intros [(? & ?)|(-> & -> & ->)]; tauto.
    - intros ([HP|[-> ->]] & Hv & Ha & ?); [tauto|right]. split; [done|]. split; [done|]. congruence. }
  unfold use_shader. destruct (m_shader_addrs c !! addr) as [i|] eqn:Ea.
  - apply Hi in Ea as (k & -> & Hk). split; try done; [|unfold addrs_of in *; cbn; lia].
    cbn. rewrite E, update_last_app, seen_shader_set. eexists. split; [reflexivity|]. apply Hiff. by apply seen_shader_ok.
  - assert (addr ∉ addrs_of c) as Hnew.
    { intros (k & Hk)%list_elem_of_lookup. assert (m_shader_addrs c !! addr = Some (Z.of_nat k)) as Hk' by (apply Hi; by exists k). congruence. }
    assert (addrs_of (add_shader stage addr (mask_of bit) submit c) = addrs_of c ++ [addr]) as Eadd.
    { unfold addrs_of. cbn. by rewrite fmap_app. }
    assert (wrap 32 (Z.of_nat (length (m_shaders (m_capture_metadata c)))) = Z.of_nat (length (addrs_of c))) as Ew.
    { rewrite <- (length_fmap sh_addr (m_shaders _)). apply wrap_small. unfold addrs_of, in_width in *. lia. }
    assert ((addrs_of c ++ [addr]) !! length (addrs_of c) = Some addr) as Hlast.
    { by rewrite lookup_app_r, Nat.sub_diag. }
    split; rewrite ?Eadd; try done.
    + cbn. rewrite E, update_last_app, Ew. eexists. split; [reflexivity|]. apply Hiff. cbn.
      apply refer_ok; [by eapply references_ok_more; [|done]; apply prefix_app_r|done|].
      intros (r & Er & Hin)%list_elem_of_fmap. destruct (refs_sound _ _ _ Hr r Hin) as (k & a & Ek & Hk & _).
      apply lookup_lt_Some in Hk. lia.
    + split; rewrite Eadd.
      * apply NoDup_app. split; [done|]. split; [|apply NoDup_singleton]. by intros x Hx ->%list_elem_of_singleton.
      * intros a i. cbn. rewrite Ew. destruct (decide (a = addr)) as [->|Hne].
        -- rewrite lookup_insert_eq. split; [intros [= <-]; by exists (length (addrs_of c))|].
           intros (k & -> & Hk). f_equal. f_equal. apply lookup_app_Some in Hk as [Hk|[Hge Hk]].
           ++ by apply list_elem_of_lookup_2 in Hk.
           ++ apply list_lookup_singleton_Some in Hk. lia.
        -- rewrite lookup_insert_ne by done. rewrite Hi. split; intros (k & -> & Hk); exists k; (split; [done|]).
           ++ by apply lookup_app_l_Some.
           ++ apply lookup_app_Some in Hk as [Hk|[Hge Hk]]; [done|]. apply list_lookup_singleton_Some in Hk as [_ ?]. congruence.
    + etrans; [done|]. by apply prefix_app_r.
    + rewrite length_app. cbn. lia.
Qed.

Lemma GetCurShaderAddr_total stage bit t : exists addr, GetCurShaderAddr stage bit t = Done addr.
Proof.
  assert (forall offset, in_regs offset = true -> in_regs (wrap 32 (offset + 1)) = true ->
    exists addr, (IsRegSet offset bit t ≫= fun is_set : bool => if is_set then GetReg64Value offset bit t else Done UINT64_MAX) = Done addr) as Hat.
  { intros offset E E'. unfold IsRegSet, GetReg64Value, GetRegValue. rewrite E, E'. cbn [mbind outcome_bind]. case_match; eauto. }
  destruct stage; [apply Hat; by vm_compute..|]. by eexists.
Qed.

Lemma handle_shader_spec c0 es e opcode P n submit stage j bit c :
  Z.of_nat (length (addrs_of c0) + n) < 2 ^ 32 -> handling c0 es e opcode P n c ->
  wp False (handle_shader submit opcode stage j bit)
    (fun _ => handling c0 es e opcode (fun stage' bit' => P stage' bit' \/ stage' = stage /\ bit' = bit) (S n)) c.
Proof.
  intros Hn Hh. unfold handle_shader. apply wp_bind, wp_get, wp_bind, wp_checked. rewrite (hd_tracker _ _ _ _ _ _ _ Hh).
  destruct (GetCurShaderAddr_total stage bit (mc_state_tracker c0)) as [addr Ea]. rewrite Ea.
  destruct (_ && _) eqn:E.
  - apply andb_true_iff in E as [[Hv Hmax%negb_true_iff%Z.eqb_neq]%andb_true_iff Hz%negb_true_iff%Z.eqb_neq].
    by apply wp_modify, use_shader_handling.
  - apply wp_ret. eapply handling_weaken; [done|lia|]. intros st b a. unfold uses. split; [tauto|].
    intros ([HP|[-> ->]] & Hv & Hst & Hne & Hz); [tauto|exfalso]. rewrite Hv in E. cbn in E.
    assert (a = addr) as -> by congruence. apply not_true_iff_false in E. apply E. apply andb_true_iff.
    split; apply negb_true_iff, Z.eqb_neq; done.
Qed.

Lemma stage_bits_spec c0 es e opcode i stage submit c :
  Z.of_nat (length (addrs_of c0) + 3 * i + 3) < 2 ^ 32 -> shader_stages !! i = Some stage ->
  handling c0 es e opcode (fun st _ => st ∈ take i shader_stages) (3 * i) c ->
  wp False (each 0 shader_enable_bits (handle_shader submit opcode stage))
    (fun _ => handling c0 es e opcode (fun st _ => st ∈ take (S i) shader_stages) (3 * S i)) c.
Proof.
  intros Hn Hi Hh. eapply wp_mono.
  - apply (wp_each False (fun j => handling c0 es e opcode
      (fun st bit => st ∈ take i shader_stages \/ st = stage /\ bit ∈ take j shader_enable_bits) (3 * i + j))).
    + eapply handling_weaken; [exact Hh|lia|]. intros st bit addr. unfold uses. rewrite take_0, elem_of_nil. tauto.
    + intros j bit c' Hj Hc'. cbn [Nat.add] in *. pose proof (lookup_lt_Some _ _ _ Hj) as Hlt. cbn in Hlt. eapply wp_mono.
      { apply handle_shader_spec; [|exact Hc']. lia. }
      intros [] c'' Hc''. eapply handling_weaken; [exact Hc''|lia|]. intros st b addr. unfold uses.
      rewrite (take_S_r _ _ bit Hj), elem_of_app, list_elem_of_singleton. tauto.
  - intros [] c' Hc'. eapply handling_weaken; [exact Hc'|cbn; lia|]. intros st bit addr. unfold uses.
    rewrite (take_S_r _ _ stage Hi), elem_of_app, list_elem_of_singleton.
    assert (bit ∈ take (0 + length shader_enable_bits) shader_enable_bits) by (apply list_elem_of_In; destruct bit; cbn; tauto). tauto.
Qed.

Lemma HandleShaders_spec es e opcode submit c :
  Z.of_nat (length (addrs_of c) + 15) < 2 ^ 32 -> indexed c -> m_event_info (m_capture_metadata c) = es ++ [e] ->
  m_shader_references e = [] ->
  wp False (HandleShaders submit opcode) (fun ok => handling c es e opcode (fun st _ => st ∈ shader_stages) 15) c.
Proof.
  intros Hn Hi He Hr. unfold HandleShaders. apply wp_bind. eapply wp_mono.
  - apply (wp_each False (fun i => handling c es e opcode (fun st _ => st ∈ take i shader_stages) (3 * i))).
    + split; try done; [|lia]. exists []. split; [rewrite He; by destruct e; cbn in Hr; subst|].
      apply references_ok_nil. intros st bit addr [Hin _]. by apply elem_of_nil in Hin.
    + intros i stage c' Hst Hc'. cbn [Nat.add] in *. pose proof (lookup_lt_Some _ _ _ Hst) as Hlt. cbn in Hlt.
      apply stage_bits_spec; [lia|done|done].
  - intros [] c' Hc'. apply wp_ret. by eapply handling_weaken; [exact Hc'| |].
Qed.

(** ** One event

    What is read of the packet of an event: the type, the description and, for a draw,
    the indices and the topology. *)
Definition EventReads : Type := Z * string * Z * option VkPrimitiveTopology.

Definition event_reads (submit va header : Z) (t : EmulateStateTracker) (mem : M) : outcome (EventReads * M) :=
  '(type, mem) ← GetEventType submit va (type7_opcode header) t mem;
  '(str, mem) ← GetEventString submit va header t mem;
  if type =? kDraw then
    '(num_indices, mem) ← GetIndexCount submit va header mem;
    '(topology, mem) ← GetTopology submit va header mem;
    Done ((type, str, num_indices, topology), mem)
  else Done ((type, str, 0, None), mem).

(** What fills the element of the [k]-th event. *)
Definition topology_filling (topology : option VkPrimitiveTopology) : Filling () :=
  match topology with Some t => set Field.Topology (u32_value (VkPrimitiveTopology_to_Z t)) | None => mret () end.

Definition state_filling (k : Z) (type : Z) : Filling () :=
  if type =? kDraw then FillDrawEventStateInfo (indeterminate k)
  else if type =? kDispatch then mret ()
  else if IsResolve type then FillResolveOrClearEventStateInfo;; FillResolveEventStateInfo
  else if IsGmemClear type then FillResolveOrClearEventStateInfo
  else mret ().

Definition event_filling (k : Z) (type : Z) (topology : option VkPrimitiveTopology) : Filling () :=
  topology_filling topology;; state_filling k type.

Definition has_shaders (type : Z) : bool := (type =? kDraw) || (type =? kDispatch).

Definition shaders_of (type opcode : Z) (t : EmulateStateTracker) stage bit addr : Prop :=
  has_shaders type = true /\ uses_shader opcode t stage bit addr.

(** What an event is gathered from: a packet, the registers at it and the memory. *)
Record EventSource := mkSource {
  src_submit : Z;
  src_va : Z;
  src_header : Z;
  src_tracker : EmulateStateTracker;
  src_mem : M
}.

(** The [k]-th event [e] with the state [row] is what its packet and the registers at it
    say; the shaders are at [addrs]. *)
Definition describes (src : EventSource) (addrs : list Z) (k : nat) (e : EventInfo) (row : Row) : Prop :=
  ei_submit_index e = src_submit src /\ exists mem' topology writes,
    event_reads (src_submit src) (src_va src) (src_header src) (src_tracker src) (src_mem src) =
      Done ((ei_type e, m_str e, m_num_indices e, topology), mem') /\
    event_filling (Z.of_nat k) (ei_type e) topology (src_tracker src) = Done ((), writes) /\ row = row_of writes /\
    references_ok addrs (shaders_of (ei_type e) (type7_opcode (src_header src)) (src_tracker src)) (m_shader_references e).

Lemma describes_more src addrs addrs' k e row : addrs `prefix_of` addrs' -> describes src addrs k e row -> describes src addrs' k e row.
Proof.
  intros Hp (Hs & mem' & topology & writes & E1 & E2 & E3 & E4). split; [done|].
  exists mem', topology, writes. repeat split; try done; by eapply references_ok_more.
Qed.

(** The element of the event in progress is [row], behind [rows]. *)
Record filling_at (c0 : MetadataCreator) (es : list EventInfo) (e : EventInfo) (rows : list Row) (row : Row) (c : MetadataCreator) : Prop := {
  fa_tracker : mc_state_tracker c = mc_state_tracker c0;
  fa_shaders : m_shaders (m_capture_metadata c) = m_shaders (m_capture_metadata c0);
  fa_addrs : m_shader_addrs c = m_shader_addrs c0;
  fa_events : m_event_info (m_capture_metadata c) = es ++ [e];
  fa_rows : represents (m_event_state (m_capture_metadata c)) (rows ++ [row])
}.

Lemma fill_spec c0 es e rows row c (m : Filling ()) : well_filled m -> filling_at c0 es e rows row c ->
  yields (fill (Z.of_nat (length rows)) m)
    (fun _ c' => exists l, m (mc_state_tracker c0) = Done ((), l) /\ filling_at c0 es e rows (foldl write_row row l) c') c.
Proof.
  intros Hm [Ht Hs Ha He Hr] a c'. unfold fill. rewrite Ht. specialize (Hm (mc_state_tracker c0)). destruct (m (mc_state_tracker c0)) as [[[] l]| |] eqn:E; [|done|done].
  cbn [mbind outcome_bind]. destruct (write_fields_represents l _ (rows ++ [row]) (length rows) row Hr) as (s' & Es & Hs').
  { by apply list_lookup_middle. }
  { done. }
  rewrite Es. intros [= _ <-]. exists l. split; [done|]. rewrite insert_app_r_alt, Nat.sub_diag in Hs' by done. by split.
Qed.

(** The event in progress with its state and shaders. *)
Record filled_by (c0 : MetadataCreator) (es : list EventInfo) (e : EventInfo) (rows : list Row) (row : Row) (type opcode : Z)
    (fi_refs : list ShaderReference) (fi_writes : list FieldWrite) (c : MetadataCreator) : Prop := {
  fi_filling : state_filling (Z.of_nat (length rows)) type (mc_state_tracker c0) = Done ((), fi_writes);
  fi_rows : represents (m_event_state (m_capture_metadata c)) (rows ++ [foldl write_row row fi_writes]);
  fi_events : m_event_info (m_capture_metadata c) = es ++ [set_references fi_refs e];
  fi_indexed : indexed c;
  fi_shaders : addrs_of c0 `prefix_of` addrs_of c;
  fi_count : (length (addrs_of c) <= length (addrs_of c0) + 15)%nat;
  fi_references : references_ok (addrs_of c) (shaders_of type opcode (mc_state_tracker c0)) fi_refs
}.

Definition filled c0 es e rows row type opcode c : Prop := exists refs l, filled_by c0 es e rows row type opcode refs l c.

Lemma filling_addrs c0 es e rows row c : filling_at c0 es e rows row c -> addrs_of c = addrs_of c0.
Proof. intros [_ Hs _ _ _]. unfold addrs_of. by rewrite Hs. Qed.

Lemma filling_indexed c0 es e rows row c : filling_at c0 es e rows row c -> indexed c0 -> indexed c.
Proof. intros Hf [Hn Hi]. unfold indexed. by rewrite (filling_addrs _ _ _ _ _ _ Hf), (fa_addrs _ _ _ _ _ _ Hf). Qed.

(** With or without shaders. *)
Lemma filled_without c0 es e rows row l type opcode c : has_shaders type = false -> m_shader_references e = [] -> indexed c0 ->
  state_filling (Z.of_nat (length rows)) type (mc_state_tracker c0) = Done ((), l) ->
  filling_at c0 es e rows (foldl write_row row l) c -> filled c0 es e rows row type opcode c.
Proof.
  intros Ht Hr Hi El Hf. pose proof (filling_addrs _ _ _ _ _ _ Hf) as Ea.
  exists [], l. split; rewrite ?Ea; try done; [apply Hf| |by eapply filling_indexed|lia|].
  - rewrite (fa_events _ _ _ _ _ _ Hf). destruct e. cbn in Hr. by subst.
  - apply references_ok_nil. intros stage bit addr [Hs _]. by rewrite Ht in Hs.
Qed.

Lemma shaders_spec c0 es e rows row l type opcode submit c : has_shaders type = true -> m_shader_references e = [] ->
  indexed c0 -> Z.of_nat (length (addrs_of c0) + 15) < 2 ^ 32 ->
  state_filling (Z.of_nat (length rows)) type (mc_state_tracker c0) = Done ((), l) ->
  filling_at c0 es e rows (foldl write_row row l) c ->
  yields (HandleShaders submit opcode) (fun _ => filled c0 es e rows row type opcode) c.
Proof.
  intros Ht Hr Hi Hn El Hf. pose proof (filling_addrs _ _ _ _ _ _ Hf) as Ea. eapply yields_wp, wp_mono.
  { eapply HandleShaders_spec; [by rewrite Ea|by eapply filling_indexed|apply Hf|done]. }
  intros _ c' [Htr Hst (refs & Ev & Href) Hind Hp Hc]. rewrite Ea in *.
  exists refs, l. split; try done; [rewrite Hst; apply Hf|].
  eapply references_ok_iff; [|exact Href]. intros stage bit addr. unfold shaders_of, uses_shader.
  rewrite Ht, (fa_tracker _ _ _ _ _ _ Hf). tauto.
Qed.

Lemma gather_state_spec c0 es e rows row type opcode submit c : m_shader_references e = [] ->
  indexed c0 -> Z.of_nat (length (addrs_of c0) + 15) < 2 ^ 32 -> filling_at c0 es e rows row c ->
  yields (gather_state submit opcode type (Z.of_nat (length rows))) (fun _ => filled c0 es e rows row type opcode) c.
Proof.
  intros Hr Hi Hn Hf. unfold gather_state.
  assert (forall l, state_filling (Z.of_nat (length rows)) type (mc_state_tracker c0) = Done ((), l) -> has_shaders type = false ->
    forall c', filling_at c0 es e rows (foldl write_row row l) c' -> filled c0 es e rows row type opcode c') as Hwithout.
  { intros l El Ht c' Hc'. by eapply filled_without. }
  assert (forall l, state_filling (Z.of_nat (length rows)) type (mc_state_tracker c0) = Done ((), l) -> has_shaders type = true ->
    forall c', filling_at c0 es e rows (foldl write_row row l) c' ->
      yields (HandleShaders submit opcode) (fun _ => filled c0 es e rows row type opcode) c') as Hwith.
  { intros l El Ht c' Hc'. by eapply shaders_spec. }
  unfold state_filling, has_shaders in Hwithout, Hwith.
  destruct (type =? kDraw) eqn:Edraw; [cbn [orb] in *|destruct (type =? kDispatch) eqn:Edisp; cbn [orb] in *].
  - apply yields_then. eapply yields_mono; [apply fill_spec; [apply FillDraw_filled|exact Hf]|].
    intros [] c' (l & El & Hc'). by eapply Hwith.
  - apply yields_then, yields_mret. by eapply (Hwith []).
  - destruct (IsResolve type).
    + apply yields_then. eapply yields_mono; [apply fill_spec; [apply FillResolveOrClear_filled|exact Hf]|].
      intros [] c1 (l1 & El1 & Hc1). apply yields_then.
      eapply yields_mono; [apply fill_spec; [apply FillResolve_filled|exact Hc1]|].
      intros [] c2 (l2 & El2 & Hc2). apply yields_mret. rewrite <- foldl_app in Hc2. eapply (Hwithout (l1 ++ l2)); [|done|done].
      unfold mbind, Filling_bind. rewrite El1. cbn. by rewrite El2.
    + destruct (IsGmemClear type).
      * apply yields_then. eapply yields_mono; [apply fill_spec; [apply FillResolveOrClear_filled|exact Hf]|].
        intros [] c1 (l1 & El1 & Hc1). apply yields_mret. by eapply Hwithout.
      * apply yields_mret. by eapply (Hwithout []).
Qed.

(** ** The invariant *)
Record gathered (c : MetadataCreator) (rows : list Row) (srcs : list EventSource) : Prop := {
  ga_rows : represents (m_event_state (m_capture_metadata c)) rows;
  ga_length : length rows = length (m_event_info (m_capture_metadata c));
  ga_indexed : indexed c;
  ga_count : (length (addrs_of c) <= 15 * length rows)%nat;
  ga_sources : length srcs = length rows;
  ga_events k e row src : m_event_info (m_capture_metadata c) !! k = Some e -> rows !! k = Some row -> srcs !! k = Some src ->
    describes src (addrs_of c) k e row
}.

Lemma yields_gather {A} (m : Steps MetadataCreator A) (Q : A -> MetadataCreator * M -> Prop) c mem :
  yields m (fun a c' => Q a (c', mem)) c -> yields (gather m) Q (c, mem).
Proof.
  intros Hm a s'. unfold gather. cbn [fst snd]. destruct (m c) as [[a1 c1]| |] eqn:E; [|done|done]. intros [= <- <-]. by apply Hm.
Qed.

Lemma yields_read {A} (m : Reads A) (Q : A -> MetadataCreator * M -> Prop) c mem :
  (forall a mem', m mem = Done (a, mem') -> Q a (c, mem')) -> yields (gather_read m) Q (c, mem).
Proof.
  intros Hm a s'. unfold gather_read. cbn [fst snd]. destruct (m mem) as [[a1 c1]| |] eqn:E; [|done|done]. intros [= <- <-]. by apply Hm.
Qed.

Lemma topology_filling_ok topology : well_filled (topology_filling topology).
Proof. unfold topology_filling. filled. Qed.

(** The topology apart, a draw shows the registers of [draw_fields]. *)
Lemma event_filling_shows k topology df t : df ∈ draw_fields ->
  leaves t (df_field df) 0 (df_value df <$> register_now (GetRegOffsetByName (df_register df)) t) (event_filling k kDraw topology).
Proof.
  intros Hdf. unfold event_filling. apply leaves_second.
  - assert (df_field df <> Field.Topology) as Hne.
    { assert (Forall (fun df => df_field df <> Field.Topology) draw_fields) as Ha by (repeat (apply Forall_cons; split; [discriminate|]); constructor).
      rewrite Forall_forall in Ha. by apply Ha. }
    destruct topology; [apply avoids_set_at; congruence|apply avoids_ret].
  - intros []. unfold state_filling. rewrite Z.eqb_refl. pose proof (FillDraw_shows (indeterminate k)) as Ha.
    rewrite Forall_forall in Ha. by apply Ha.
Qed.

(** The indices and the topology of a draw. *)
Lemma gather_draw_spec c0 es e rows submit va header c mem : filling_at c0 es e rows ∅ c ->
  yields (gather_draw submit va header (Z.of_nat (length rows)))
    (fun _ s => exists n topology mem1 l, GetIndexCount submit va header mem = Done (n, mem1) /\
       GetTopology submit va header mem1 = Done (topology, snd s) /\
       topology_filling topology (mc_state_tracker c0) = Done ((), l) /\
       filling_at c0 es (set_num_indices n e) rows (row_of l) (fst s)) (c, mem).
Proof.
  intros Hf. unfold gather_draw. apply yields_then, yields_read. intros n mem1 E1.
  apply yields_then, yields_gather, yields_modify, yields_then, yields_read. intros topology mem2 E2.
  assert (filling_at c0 es (set_num_indices n e) rows ∅
    (update_metadata (fun m => set_event_info (update_last (set_num_indices n) (m_event_info m)) m) c)) as Hf1.
  { destruct Hf as [? ? ? He ?]. split; try done. cbn. by rewrite He, update_last_app. }
  destruct topology as [topology|].
  - apply yields_gather. eapply yields_mono; [apply fill_spec; [apply (topology_filling_ok (Some topology))|exact Hf1]|].
    intros [] c' (l & El & Hc'). by exists n, (Some topology), mem1, l.
  - apply yields_mret. by exists n, None, mem1, [].
Qed.

(** The event and its state, when the event is handled, is described by the packet. *)
Lemma gathered_event c0 e0 es rows srcs row type opcode refs l c va header t mem mem' topology writes :
  gathered c0 rows srcs -> es = m_event_info (m_capture_metadata c0) -> t = mc_state_tracker c0 -> opcode = type7_opcode header ->
  event_reads (ei_submit_index e0) va header t mem = Done ((type, m_str e0, m_num_indices e0, topology), mem') ->
  ei_type e0 = type -> topology_filling topology t = Done ((), writes) -> row = row_of writes ->
  filled_by c0 es e0 rows row type opcode refs l c ->
  gathered c (rows ++ [row_of (writes ++ l)]) (srcs ++ [mkSource (ei_submit_index e0) va header t mem]).
Proof.
  intros Hg -> -> -> Er Et Ew -> [Hl Hr He Hi Hs Hc Href]. rewrite row_of_app in Hr. split; try done.
  - rewrite He, !length_app, (ga_length _ _ _ Hg). done.
  - rewrite length_app. pose proof (ga_count _ _ _ Hg). cbn. lia.
  - rewrite !length_app, (ga_sources _ _ _ Hg). done.
  - intros k e row src. rewrite He. intros Hk Hk' Hsrc. pose proof (ga_length _ _ _ Hg) as Hlen. pose proof (ga_sources _ _ _ Hg) as Hls.
    apply lookup_app_Some in Hk as [Hk|[Hge Hk]].
    + rewrite lookup_app_l in Hk' by (apply lookup_lt_Some in Hk; lia). rewrite lookup_app_l in Hsrc by (apply lookup_lt_Some in Hk; lia).
      eapply describes_more; [done|]. by eapply (ga_events _ _ _ Hg).
    + apply list_lookup_singleton_Some in Hk as [Hk <-]. assert (k = length rows) as -> by lia.
      rewrite list_lookup_middle in Hk' by done. rewrite list_lookup_middle in Hsrc by done. injection Hk' as <-. injection Hsrc as <-.
      split; [done|]. exists mem', topology, (writes ++ l). cbn. rewrite Et. split; [exact Er|].
      split; [|split; [done|exact Href]]. unfold event_filling, mbind, Filling_bind. rewrite Ew. cbn. by rewrite Hl.
Qed.

Lemma gather_event_spec submit va header c rows srcs mem : gathered c rows srcs -> Z.of_nat (length rows) < 2 ^ 24 ->
  yields (gather_event submit va (type7_opcode header) header)
    (fun _ s => exists row, gathered (fst s) (rows ++ [row]) (srcs ++ [mkSource submit va header (mc_state_tracker c) mem])) (c, mem).
Proof.
  intros Hg Hn. unfold gather_event. apply yields_then, yields_gather, yields_get, yields_then, yields_read.
  intros type mem1 E1. apply yields_then, yields_gather. unfold add_state. intros it c1.
  destruct (Add_represents _ rows (ga_rows _ _ _ Hg)) as (s & Es & Hs); [by rewrite (rep_size _ _ (ga_rows _ _ _ Hg))|].
  rewrite Es. cbn [mbind outcome_bind]. intros [= <- <-]. apply yields_then, yields_read. cbn [mc_state_tracker update_metadata].
  intros str mem2 E2. apply yields_then, yields_gather, yields_modify, yields_then.
  set (e := mkEventInfo [] 0 submit type _ str). set (es := m_event_info (m_capture_metadata c)).
  match goal with |- yields _ _ (?c, _) => set (c1 := c) end.
  assert (filling_at c es e rows ∅ c1) as Hf by done.
  assert (Z.of_nat (length (addrs_of c) + 15) < 2 ^ 32) as Hroom by (pose proof (ga_count _ _ _ Hg); lia).
  assert (forall e' topology writes mem' c2,
    event_reads submit va header (mc_state_tracker c) mem = Done ((type, str, m_num_indices e', topology), mem') ->
    topology_filling topology (mc_state_tracker c) = Done ((), writes) ->
    m_shader_references e' = [] -> ei_type e' = type -> m_str e' = str -> ei_submit_index e' = submit ->
    filling_at c es e' rows (row_of writes) c2 ->
    yields (gather (gather_state submit (type7_opcode header) type (Z.of_nat (length rows))))
      (fun _ s => exists row, gathered (fst s) (rows ++ [row]) (srcs ++ [mkSource submit va header (mc_state_tracker c) mem])) (c2, mem')) as Hstate.
  { intros e' topology writes mem' c2 Er Ew Href Ety Estr Esub Hc2. apply yields_gather.
    eapply yields_mono; [apply gather_state_spec; [exact Href|apply Hg|exact Hroom|exact Hc2]|].
    intros _ c3 (refs & l & Hl). eexists. cbn [fst]. rewrite <- Esub. eapply (gathered_event c e'); try done. by rewrite Esub, Estr. }
  destruct (type =? kDraw) eqn:Ed.
  - eapply yields_mono; [by apply gather_draw_spec|]. intros [] [c2 mem3] (n & topology & mem' & l & En & Eto & El & Hc2).
    eapply (Hstate (set_num_indices n e) topology l); [|exact El|reflexivity..|exact Hc2]. unfold event_reads. rewrite E1. cbn [mbind outcome_bind]. rewrite E2. cbn [mbind outcome_bind].
    rewrite Ed, En. cbn [mbind outcome_bind]. by rewrite Eto.
  - apply yields_mret. eapply (Hstate e None []); [|reflexivity..|exact Hf]. unfold event_reads. rewrite E1. cbn [mbind outcome_bind]. rewrite E2.
    cbn [mbind outcome_bind]. by rewrite Ed.
Qed.

(** ** How many events there are *)
Definition num_events (c : MetadataCreator) : nat := length (m_event_info (m_capture_metadata c)).

(** Steps that add no event and leave the registers. *)
Definition progress_of (c : MetadataCreator) : nat * EmulateStateTracker := (num_events c, mc_state_tracker c).
Definition adds_none {A} (m : Steps MetadataCreator A) : Prop := forall c, yields m (fun _ c' => progress_of c' = progress_of c) c.

Lemma adds_none_bind {A B} (m : Steps MetadataCreator A) (k : A -> Steps MetadataCreator B) :
  adds_none m -> (forall a, adds_none (k a)) -> adds_none (m ≫= k).
Proof.
  intros Hm Hk c. apply yields_then. eapply yields_mono; [apply Hm|]. intros a c' <-. apply Hk.
Qed.

Lemma adds_none_ret {A} (a : A) : adds_none (mret a).
Proof. intros c. by apply yields_mret. Qed.

Lemma adds_none_get : adds_none get.
Proof. intros c. by apply yields_get. Qed.

Lemma adds_none_checked {A} (o : outcome A) : adds_none (checked o).
Proof. intros c a c'. unfold checked. destruct o; [|done|done]. by intros [= _ <-]. Qed.

Lemma adds_none_modify f : (forall c, progress_of (f c) = progress_of c) -> adds_none (modify f).
Proof. intros Hf c. by apply yields_modify. Qed.

Lemma adds_none_each {A} (l : list A) body : (forall i a, adds_none (body i a)) -> forall i, adds_none (each i l body).
Proof. intros Hb. induction l as [|a l IH]; intros i; cbn [each]; [apply adds_none_ret|]. by apply adds_none_bind. Qed.

Lemma length_update_last {A} (f : A -> A) l : length (update_last f l) = length l.
Proof.
  destruct l as [|a l] using rev_ind; [done|]. by rewrite update_last_app, !length_app.
Qed.

Lemma adds_none_HandleShaders submit opcode : adds_none (HandleShaders submit opcode).
Proof.
  apply adds_none_bind; [|intros []; apply adds_none_ret]. apply adds_none_each. intros _ stage. apply adds_none_each. intros j bit.
  unfold handle_shader. apply adds_none_bind; [apply adds_none_get|]. intros c0.
  apply adds_none_bind; [apply adds_none_checked|]. intros addr. destruct (_ && _); [|apply adds_none_ret].
  apply adds_none_modify. intros c. unfold progress_of, use_shader, num_events. case_match; cbn; by rewrite length_update_last.
Qed.

Lemma adds_none_fill it (m : Filling ()) : adds_none (fill it m).
Proof.
  intros c a c'. unfold fill. destruct (m (mc_state_tracker c)) as [[u l]| |]; [|done|done]. cbn [mbind outcome_bind].
  destruct (write_fields _ _ _); [|done|done]. by intros [= _ <-].
Qed.

Lemma adds_none_gather_state submit opcode type it : adds_none (gather_state submit opcode type it).
Proof.
  unfold gather_state.
  repeat lazymatch goal with
  | |- adds_none (mbind _ _) => apply adds_none_bind; [|intros ?]
  | |- adds_none (if ?b then _ else _) => destruct b
  | |- _ => first [apply adds_none_ret|apply adds_none_fill|apply adds_none_HandleShaders]
  end.
Qed.

Lemma yields_adds_none {A} (m : Steps MetadataCreator A) (Q : A -> MetadataCreator * M -> Prop) n c mem :
  adds_none m -> progress_of c = n -> (forall a c', progress_of c' = n -> Q a (c', mem)) -> yields (gather m) Q (c, mem).
Proof. intros Hm Hn HQ. apply yields_gather. eapply yields_mono; [apply Hm|]. intros a c' E. apply HQ. congruence. Qed.

Lemma gather_event_adds submit va opcode header c mem :
  yields (gather_event submit va opcode header) (fun _ s => progress_of (fst s) = (S (num_events c), mc_state_tracker c)) (c, mem).
Proof.
  unfold gather_event. apply yields_then, yields_gather, yields_get, yields_then, yields_read. intros type mem1 _.
  apply yields_then. eapply yields_adds_none; [|reflexivity|].
  { intros c0 a c'. unfold add_state. destruct (Add _) as [[it s]| |]; [|done|done]. by intros [= _ <-]. }
  intros it c1 E1. apply yields_then, yields_read. intros str mem2 _. apply yields_then, yields_gather, yields_modify, yields_then.
  injection E1 as E1 T1.
  match goal with |- yields _ _ (?c', _) => assert (progress_of c' = (S (num_events c), mc_state_tracker c)) as E2
    by (unfold progress_of, num_events in *; cbn; rewrite length_app, E1, T1; cbn; f_equal; lia); revert E2; generalize c' end.
  intros c2 E2. set (goal := (S (num_events c), mc_state_tracker c)) in *.
  assert (forall c3 mem3, progress_of c3 = goal ->
    yields (gather (gather_state submit opcode type it)) (fun _ (s : MetadataCreator * M) => progress_of (fst s) = goal) (c3, mem3)) as Hstate.
  { intros c3 mem3 E3. by eapply yields_adds_none; [apply adds_none_gather_state|exact E3|]. }
  destruct (type =? kDraw); [|by apply yields_mret, Hstate]. unfold gather_draw.
  apply yields_then, yields_read. intros n mem3 _. apply yields_then. eapply yields_adds_none; [|exact E2|].
  { apply adds_none_modify. intros c3. unfold progress_of, num_events. cbn. by rewrite length_update_last. }
  intros [] c3 E3. apply yields_then, yields_read. intros [t|] mem4 _; [|by apply yields_mret, Hstate].
  by eapply yields_adds_none; [apply adds_none_fill|exact E3|intros; apply Hstate].
Qed.

(** ** The callbacks keep the invariant

    The events were gathered from [srcs]; the state holds [2^24] of them. *)
Definition gathered_from (c : MetadataCreator) (srcs : list EventSource) : Prop :=
  length srcs = num_events c /\ (Z.of_nat (num_events c) <= 2 ^ 24 -> exists rows, gathered c rows srcs).

(** Of the creator, the invariant depends on the events with their states and shaders. *)
Definition same_gathering (c c' : MetadataCreator) : Prop :=
  m_shader_addrs c' = m_shader_addrs c /\ m_shaders (m_capture_metadata c') = m_shaders (m_capture_metadata c) /\
  m_event_info (m_capture_metadata c') = m_event_info (m_capture_metadata c) /\
  m_event_state (m_capture_metadata c') = m_event_state (m_capture_metadata c).

Lemma same_gathered c c' srcs : same_gathering c c' -> gathered_from c srcs -> gathered_from c' srcs.
Proof.
  intros (Ea & Es & Ee & Er) [Hl Hw]. unfold gathered_from, num_events in *. rewrite Ee. split; [done|].
  intros Hn. destruct (Hw Hn) as [rows [? ? [Hnd Hi] ? ? ?]].
  assert (addrs_of c' = addrs_of c) as E by (unfold addrs_of; by rewrite Es).
  exists rows. split; rewrite ?E, ?Ee, ?Er; try done. unfold indexed. by rewrite E, Ea.
Qed.

Ltac keeps_gathering c := apply (same_gathered c); [by repeat split|done].

(** A packet updates the registers; it is gathered if it is an event. *)
Definition packet_gathered (submit ix va header : Z) (t : EmulateStateTracker) (mem : M) (t' : EmulateStateTracker)
    (src : option EventSource) : Prop :=
  exists mem1, base_OnPacket submit ix va header t mem = Done (true, t', mem1) /\
    if header_type header =? 7 then
      exists mem2 mem3 is_event, (mem2 = mem1 \/ exists packet, retrieve sizeof_SET_MARKER sizeof_SET_MARKER submit va mem1 = Done (packet, mem2)) /\
        IsEvent submit va (type7_opcode header) t' mem2 = Done (is_event, mem3) /\
        src = if is_event : bool then Some (mkSource submit va header t' mem3) else None
    else src = None.

Lemma gather_state_accepts submit opcode type it c ok c' : gather_state submit opcode type it c = Done (ok, c') -> ok = true.
Proof.
  assert (forall (m : Steps MetadataCreator ()) s ok s', (m;; mret true : Steps MetadataCreator bool) s = Done (ok, s') -> ok = true) as Hret.
  { intros m s ok1 s'. unfold mbind, Steps_bind. destruct (m s) as [[[] s1]| |]; [|done|done]. by intros [= <- _]. }
  unfold gather_state, HandleShaders. destruct (_ || _).
  - unfold mbind at 1, Steps_bind at 1. destruct (if type =? kDraw then _ else _) as [[[] s1]| |]; [|done|done]. apply Hret.
  - destruct (IsResolve type).
    + unfold mbind at 1, Steps_bind at 1. destruct (fill it _ c) as [[[] s1]| |]; [|done|done]. apply Hret.
    + destruct (IsGmemClear type); [apply Hret|]. by intros [= <- _].
Qed.

Lemma gather_event_accepts submit va opcode header s :
  yields (gather_event submit va opcode header : Gathering bool) (fun ok _ => ok = true) s.
Proof.
  unfold gather_event. do 5 (apply yields_then, yields_any; intros ? ? _). apply yields_then, yields_any. intros [] [c mem] _.
  apply yields_gather. intros ok c'. apply gather_state_accepts.
Qed.

Lemma OnPacket_gathered submit ix va header c mem srcs : gathered_from c srcs ->
  yields (Metadata_OnPacket submit ix va header) (fun ok s => ok = true /\ exists src,
    packet_gathered submit ix va header (mc_state_tracker c) mem (mc_state_tracker (fst s)) src /\
    gathered_from (fst s) (srcs ++ option_list src)) (c, mem).
Proof.
  intros Hc. unfold Metadata_OnPacket, get_gathered, update_gathered.
  apply yields_then, yields_gather, yields_modify, yields_then, yields_gather, yields_get, yields_then, yields_read.
  intros [ok t'] mem1. cbn [mc_state_tracker update_metadata]. set (t := mc_state_tracker c).
  destruct (base_OnPacket submit ix va header t mem) as [[[ok1 t1] mem1']| |] eqn:Eb; [|done|done].
  cbn [mbind outcome_bind]. intros [= -> -> ->].
  pose proof (base_OnPacket_accepts _ _ _ _ _ _ _ _ _ Eb) as ->. apply yields_then, yields_gather, yields_modify.
  match goal with |- yields _ _ (?c', _) => assert (gathered_from c' srcs) as Hc1 by (keeps_gathering c);
    assert (mc_state_tracker c' = t') as Ht by done; revert Hc1 Ht; generalize c' end.
  clearbody t. clear c Hc. intros c Hc Ht. cbn [negb].
  destruct (header_type header =? 7) eqn:E7; cbn [negb].
  2: { apply yields_mret. split; [done|]. exists None. rewrite app_nil_r. split; [|done]. exists mem1. cbn [fst]. by rewrite Ht, E7. }
  apply yields_then, (yields_mono _ (fun _ s => gathered_from (fst s) srcs /\ mc_state_tracker (fst s) = t' /\
    (snd s = mem1 \/ exists packet, retrieve sizeof_SET_MARKER sizeof_SET_MARKER submit va mem1 = Done (packet, snd s)))).
  - destruct (type7_opcode header =? CP_SET_MARKER); [|by apply yields_mret; split; [|split; [|left]]]. unfold gather_marker, update_gathered.
    apply yields_then, yields_read. intros packet mem2 Ep. apply yields_gather, yields_modify. cbn [fst snd].
    split; [keeps_gathering c|]. split; [done|]. right. by exists packet.
  - intros [] [c2 mem2] (Hc2 & Ht2 & Hmem2). cbn [fst snd] in *.
    apply yields_then, yields_gather, yields_get, yields_then, yields_read. rewrite Ht2. intros is_event mem3 Ei.
    set (source := mkSource submit va header t' mem3).
    assert (forall c', mc_state_tracker c' = t' -> gathered_from c' (srcs ++ (if is_event then [source] else [])) -> exists src,
      packet_gathered submit ix va header t mem (mc_state_tracker c') src /\ gathered_from c' (srcs ++ option_list src)) as Hsrc.
    { intros c' -> Hg. exists (if is_event then Some source else None). split; [|by destruct is_event].
      exists mem1. split; [done|]. rewrite E7. by exists mem2, mem3, is_event. }
    destruct is_event; [|apply yields_mret; split; [done|]; apply Hsrc; [done|by rewrite app_nil_r]].
    intros ok2 s2 E. split; [by apply (gather_event_accepts _ _ _ _ _ _ _ E)|].
    pose proof (gather_event_adds _ _ _ _ _ _ _ _ E) as En. cbn [fst] in En. injection En as En Et.
    apply Hsrc; [by rewrite Et|]. destruct Hc2 as [Hl2 Hg2]. split; [rewrite length_app, Hl2, En; cbn; lia|].
    intros Hle. destruct (Hg2 ltac:(lia)) as [rows Hg]. assert (Z.of_nat (length rows) < 2 ^ 24) as Hlt.
    { rewrite (ga_length _ _ _ Hg). unfold num_events in *. lia. }
    destruct (gather_event_spec submit va header c2 rows srcs mem3 Hg Hlt _ _ E) as [row Hrow]. rewrite Ht2 in Hrow. by eexists.
Qed.

Lemma Metadata_OnPacket_accepts submit ix va header s :
  yields (Metadata_OnPacket submit ix va header : Gathering bool) (fun ok _ => ok = true) s.
Proof.
  destruct s as [c mem]. unfold Metadata_OnPacket, get_gathered, update_gathered.
  apply yields_then, yields_gather, yields_modify, yields_then, yields_gather, yields_get, yields_then, yields_read.
  intros [ok t] mem1 E. destruct (base_OnPacket _ _ _ _ _ _) as [[[ok1 t1] mem1']| |] eqn:Eb; [|done|done].
  injection E as <- <- <-. pose proof (base_OnPacket_accepts _ _ _ _ _ _ _ _ _ Eb) as ->.
  apply yields_then, yields_gather, yields_modify. cbn [negb]. destruct (negb _); [by apply yields_mret|].
  do 2 (apply yields_then, yields_any; intros ? ? _). apply yields_then, yields_any. intros [] s _; [apply gather_event_accepts|by apply yields_mret].
Qed.

Lemma new_gathered : gathered_from (new_MetadataCreator new_CaptureMetadata) [].
Proof.
  split; [done|]. intros _. exists []. split; [apply new_state_represents|done| |cbn; lia|done|by intros [|k] e row src].
  split; [constructor|]. intros addr i. cbn. rewrite lookup_empty. split; [done|]. intros ([|k] & _ & Hk); done.
Qed.

(** What the events of a capture say, read through the accessors of the event state; they
    were gathered from [srcs]. *)
Record metadata_ok (m : CaptureMetadata) (srcs : list EventSource) : Prop := {
  md_size : es_size (m_event_state m) = Z.of_nat (length (m_event_info m));
  md_shaders : NoDup (sh_addr <$> m_shaders m);
  md_events k e src : m_event_info m !! k = Some e -> srcs !! k = Some src ->
    exists row, describes src (sh_addr <$> m_shaders m) k e row /\
      forall f i, (i < Field.array_count f)%nat ->
        GetField f (Z.of_nat k) (Z.of_nat i) (m_event_state m) = Done (value_of row f i) /\
        IsSet f (Z.of_nat k) (Z.of_nat i) (m_event_state m) = Done (is_set_in row f i)
}.

Lemma gathered_metadata c rows srcs : gathered c rows srcs -> metadata_ok (m_capture_metadata c) srcs.
Proof.
  intros [Hr Hl [Hn _] Hc Hs He]. split; [by rewrite (rep_size _ _ Hr), Hl|done|]. intros k e src Hk Hsrc.
  destruct (lookup_lt_is_Some_2 rows k) as [row Hrow]; [rewrite Hl; by eapply lookup_lt_Some|].
  exists row. split; [by eapply He|]. intros f i Hi. split; [by eapply GetField_represents|by eapply IsSet_represents].
Qed.
End Gathered.
