(* ===== verification/MetaEnds.v ===== *)
(** * MetaEnds: the events of every well-formed capture are collected

    The callbacks of [MetaData] end and leave the captured memory as it is, so that
    [EmulateEnds] and [EmulateTrace] apply to the emulation that drives them; and the
    properties of what is collected, by the invariant of [MetaEvents]. *)

From stdpp Require Import strings gmap.
From S2P Require Import Prelude Wire Memory Pm4 StateTracker Emulate Traversal EmulateSteps EmulateRefine EmulateEnds EmulateTrace CaptureData EventInfo NodeTree CreatorTypes CreatorTrees CreatorEnds EventState FillState MetaData MetaEvents.

#[local] Open Scope Z_scope.

#[local] Abbreviation ends_always := (settles (fun _ _ => True)).

Section Ends.
Context `{AdrenoPm4} `{!AdrenoSizes} `{Pm4Info} `{GpuVariants} `{Indeterminate} {M : Type} `{MemoryLaws M}.

#[local] Abbreviation reads_on := (settles (memory_kept (fun mem : M => mem))).
#[local] Abbreviation keeps := (settles (memory_kept (M := M) snd)).

Lemma ends_HandleShaders submit opcode : ends_always (HandleShaders submit opcode).
Proof.
  assert (forall stage i bit, ends_always (handle_shader submit opcode stage i bit)) as Hs.
  { intros stage i bit. unfold handle_shader. settle. apply ends_checked.
    by destruct (GetCurShaderAddr_total stage bit (mc_state_tracker a)) as [addr ->]. }
  unfold HandleShaders. apply settles_bind; [apply _| |intros []; apply settles_ret].
  apply settles_each; [apply _|]. intros _ stage. apply settles_each; [apply _|]. intros i bit. apply Hs.
Qed.

Lemma write_fields_in_fuel it l : forall s, in_fuel (write_fields it l s).
Proof. induction l as [|[[f i] value] l IH]; intros s; [done|]. apply in_fuel_bind; [apply SetField_in_fuel|done]. Qed.

Lemma ends_fill it m : well_filled m -> ends_always (fill it m).
Proof.
  intros Hm c _. unfold wp, fill. specialize (Hm (mc_state_tracker c)). destruct (m (mc_state_tracker c)) as [[[] l]| |]; [|done|done].
  cbn [mbind outcome_bind]. pose proof (write_fields_in_fuel it l (m_event_state (m_capture_metadata c))) as Hw.
  by destruct (write_fields _ _ _).
Qed.

Lemma ends_add_state : ends_always add_state.
Proof.
  intros c _. unfold wp, add_state. pose proof (Add_in_fuel (m_event_state (m_capture_metadata c))) as Ha. by destruct (Add _) as [[it s]| |].
Qed.

Lemma ends_on_last_event f : ends_always (on_last_event f).
Proof. apply ends_modify. Qed.

Hint Resolve ends_add_state ends_on_last_event : settling.

Lemma ends_gather_state submit opcode type it : ends_always (gather_state submit opcode type it).
Proof.
  unfold gather_state.
  repeat lazymatch goal with
  | |- settles _ (mbind _ _) => apply settles_bind; [apply _| |intros ?]
  | |- settles _ (if ?b then _ else _) => destruct b
  | |- settles _ (mret _) => apply settles_ret
  | |- settles _ (HandleShaders _ _) => apply ends_HandleShaders
  | |- settles _ (fill _ _) => apply ends_fill; auto with filling
  end.
Qed.

Lemma keeps_gather {A} (m : Steps MetadataCreator A) : ends_always m -> keeps (gather m).
Proof.
  intros Hm [c mem] Hg. specialize (Hm c I). unfold wp, gather in *. cbn [fst snd]. by destruct (m c) as [[a c']| |].
Qed.

Lemma keeps_gather_read {A} (m : Reads A) : reads_on m -> settles (St := MetadataCreator * M) (memory_kept snd) (gather_read m).
Proof.
  intros Hm [c mem] Hg. specialize (Hm mem Hg). unfold wp, gather_read in *. cbn [fst snd]. by destruct (m mem) as [[a mem']| |].
Qed.

Lemma reads_GetIndexCount submit va header : reads_on (GetIndexCount submit va header).
Proof. unfold GetIndexCount, read_struct, read_dwords. settle. Qed.

Lemma reads_GetTopology submit va header : reads_on (GetTopology submit va header).
Proof.
  unfold GetTopology. cbv zeta. set (va' := wrap 64 _). intros mem Hm. pose proof (reads_retrieve_dword submit va' mem Hm) as Hr.
  unfold wp in *. by destruct (retrieve_dword submit va' mem) as [b mem'].
Qed.

Lemma ends_topology it topology : ends_always (fill it (set Field.Topology (u32_value (VkPrimitiveTopology_to_Z topology)))).
Proof. apply ends_fill, (topology_filling_ok (Some topology)). Qed.

Lemma keeps_gather_draw submit va header it : settles (St := MetadataCreator * M) (memory_kept snd) (gather_draw submit va header it).
Proof.
  unfold gather_draw.
  apply settles_bind; [apply _|apply keeps_gather_read, reads_GetIndexCount|]. intros n.
  apply settles_bind; [apply _|apply keeps_gather; auto with settling|]. intros [].
  apply settles_bind; [apply _|apply keeps_gather_read, reads_GetTopology|].
  intros [t|]; [apply keeps_gather, ends_topology|apply settles_ret].
Qed.

Lemma keeps_gather_event submit va opcode header :
  settles (St := MetadataCreator * M) (memory_kept snd) (gather_event submit va opcode header).
Proof.
  unfold gather_event, get_gathered.
  apply settles_bind; [apply _|apply keeps_gather; auto with settling|]. intros c.
  apply settles_bind; [apply _|apply keeps_gather_read; auto with settling|]. intros type.
  apply settles_bind; [apply _|apply keeps_gather; auto with settling|]. intros it.
  apply settles_bind; [apply _|apply keeps_gather_read; auto with settling|]. intros str.
  apply settles_bind; [apply _|apply keeps_gather; auto with settling|]. intros [].
  apply settles_bind; [apply _| |intros _; apply keeps_gather, ends_gather_state].
  destruct (_ =? _); [apply keeps_gather_draw|apply settles_ret].
Qed.

Lemma keeps_Metadata_OnPacket submit ix va header : 0 <= va -> va + 2 ^ 18 < 2 ^ 64 ->
  settles (St := MetadataCreator * M) (memory_kept snd) (Metadata_OnPacket submit ix va header).
Proof.
  intros Hva Hend. unfold Metadata_OnPacket, get_gathered, update_gathered, gather_marker.
  assert (forall tr, reads_on (fun mem =>
    '(ok, tracker, mem) ← base_OnPacket submit ix va header tr mem; Done (ok, tracker, mem))) as Hbase.
  { intros tr mem [Hm _]. unfold wp, base_OnPacket, memory_kept.
    pose proof (Tracker_OnPacket_ends submit va header tr mem Hm Hva Hend) as Ht.
    by destruct (Tracker_OnPacket submit va header tr mem) as [[[ok tr'] mem']| |]. }
  apply settles_bind; [apply _|apply keeps_gather; auto with settling|]. intros [].
  apply settles_bind; [apply _|apply keeps_gather; auto with settling|]. intros c.
  apply settles_bind; [apply _|apply keeps_gather_read, Hbase|]. intros [ok tracker].
  apply settles_bind; [apply _|apply keeps_gather; auto with settling|]. intros [].
  destruct (negb ok); [apply settles_ret|]. destruct (negb _); [apply settles_ret|].
  apply settles_bind; [apply _| |].
  - destruct (_ =? _); [|apply settles_ret].
    apply settles_bind; [apply _|apply keeps_gather_read; auto with settling|intros packet; apply keeps_gather; auto with settling].
  - intros []. apply settles_bind; [apply _|apply keeps_gather; auto with settling|]. intros c2.
    apply settles_bind; [apply _|apply keeps_gather_read; auto with settling|]. intros []; [apply keeps_gather_event|apply settles_ret].
Qed.

#[local] Instance gathering : EmulateCallbacks MetadataCreator M := metadata_callbacks.

#[export] Instance gathering_laws : CallbackLaws MetadataCreator M.
Proof.
  split.
  - done.
  - intros submit ix info c. cbn. unfold base_OnIbEnd. by destruct (PopEnableMask _).
  - intros submit ix va header c mem Hm Hva Hend. cbn.
    pose proof (keeps_Metadata_OnPacket submit ix va header Hva Hend (c, mem) (same_view_refl mem Hm)) as Hc.
    unfold wp, memory_kept in Hc. by destruct (Metadata_OnPacket submit ix va header (c, mem)) as [[ok [c' mem']]| |].
Qed.

#[export] Instance gathering_accepts : CallbacksAccept MetadataCreator M.
Proof.
  split.
  - by intros submit ix info type c ok c' [= <- _].
  - intros submit ix info c ok c'. cbn. unfold base_OnIbEnd. destruct (PopEnableMask _); [|done]. by intros [= <- _].
  - intros submit ix va header c mem ok c' mem'. cbn.
    destruct (Metadata_OnPacket submit ix va header (c, mem)) as [[ok1 [c1 mem1]]| |] eqn:E; [|done|done].
    intros [= <- _ _]. by apply (Metadata_OnPacket_accepts _ _ _ _ _ _ _ E).
Qed.

(** ** Where the events are from

    Which packets are events: draws, dispatches and blits, waits, and the writes of a resolve
    event with a register that has one of the operations. *)
Definition event_opcodes : list Z :=
  [CP_DRAW_INDX; CP_DRAW_INDX_OFFSET; CP_DRAW_INDIRECT; CP_DRAW_INDX_INDIRECT; CP_DRAW_INDIRECT_MULTI; CP_DRAW_AUTO;
   CP_EXEC_CS; CP_EXEC_CS_INDIRECT; CP_BLIT].
Definition wait_opcodes : list Z := [CP_WAIT_MEM_WRITES; CP_WAIT_FOR_IDLE; CP_WAIT_FOR_ME].
Definition resolve_operations : list Z :=
  enumerator <$> ["BLIT_EVENT_STORE"; "BLIT_EVENT_STORE_AND_CLEAR"; "BLIT_EVENT_CLEAR"; "BLIT_EVENT_LOAD"].

Definition resolves (mem : M) (submit va : Z) (t : EmulateStateTracker) : Prop :=
  exists packet mem' value, read_struct "PM4_CP_EVENT_WRITE" submit va mem = Done (packet, mem') /\
    packet_field "PM4_CP_EVENT_WRITE.bitfields0.EVENT" packet = enumerator "CCU_RESOLVE" /\
    register_now (GetRegOffsetByName "RB_RESOLVE_OPERATION") t = Some value /\
    packet_field "RB_RESOLVE_OPERATION.bitfields.TYPE" (le_split 4 value) ∈ resolve_operations.

Definition event_packet (mem : M) (submit va opcode : Z) (t : EmulateStateTracker) : Prop :=
  opcode ∈ event_opcodes \/
  if decide (opcode = CP_EVENT_WRITE7) then resolves mem submit va t else opcode ∈ wait_opcodes.

Lemma event_opcodes_spec opcode :
  IsDrawDispatchEventOpcode opcode || (opcode =? CP_BLIT) = true <-> opcode ∈ event_opcodes.
Proof.
  unfold IsDrawDispatchEventOpcode, IsDrawEventOpcode, IsDispatchEventOpcode, event_opcodes.
  rewrite !orb_true_iff, !Z.eqb_eq, !elem_of_cons, elem_of_nil. tauto.
Qed.

Lemma resolve_of_register_spec value : resolve_of_register value <> EventInfo.kNone <->
  packet_field "RB_RESOLVE_OPERATION.bitfields.TYPE" (le_split 4 value) ∈ resolve_operations.
Proof.
  unfold resolve_of_register, resolve_type, resolve_operations. rewrite !fmap_cons, fmap_nil, !elem_of_cons, elem_of_nil.
  set (type := packet_field _ _). set (depth := negb _). clearbody type depth.
  repeat match goal with |- context [type =? ?e] => destruct (Z.eqb_spec type e) end; destruct depth; naive_solver.
Qed.

Lemma IsEvent_spec submit va opcode t (mem : M) b mem' :
  IsEvent submit va opcode t mem = Done (b, mem') -> b = true <-> event_packet mem submit va opcode t.
Proof.
  unfold IsEvent, event_packet. rewrite <- event_opcodes_spec. destruct (IsDrawDispatchEventOpcode opcode); cbn [orb].
  { intros [= <- _]. tauto. }
  destruct (opcode =? CP_BLIT); [intros [= <- _]; tauto|]. unfold GetSyncType, wait_opcodes, resolves.
  destruct (decide (opcode = CP_EVENT_WRITE7)) as [->|Hne].
  - rewrite Z.eqb_refl. unfold mbind at 1 2, Reads_bind at 1 2. cbn [mbind outcome_bind].
    destruct (read_struct "PM4_CP_EVENT_WRITE" submit va mem) as [[packet mem1]| |] eqn:Ep; [|done|done]. cbn [mbind outcome_bind].
    destruct (Z.eqb_spec (packet_field "PM4_CP_EVENT_WRITE.bitfields0.EVENT" packet) (enumerator "CCU_RESOLVE")) as [He|He].
    2: { intros [= <- _]. split; [done|]. intros [|(packet' & mem2 & value & [= <- <-] & ? & _)]; done. }
    unfold register_now, given, mbind, Reads_bind. destruct (IsRegSet_current _ t) as [[]| |]; cbn [mbind outcome_bind]; [| |done|done].
    2: { intros [= <- _]. split; [done|]. intros [|(packet' & mem2 & value & _ & _ & ? & _)]; done. }
    destruct (GetRegValue_current _ t) as [value| |]; cbn [mbind outcome_bind]; [|done|done]. intros [= <- _].
    pose proof (resolve_of_register_spec value) as Hv. split.
    + intros Hb. right. exists packet, mem1, value. repeat split; try done. apply Hv. intros E. by rewrite E in Hb.
    + intros [|(packet' & mem2 & value' & _ & _ & [= <-] & Hin)]; [done|]. apply Hv in Hin. by destruct (resolve_of_register value).
  - rewrite (proj2 (Z.eqb_neq _ _) Hne). rewrite !elem_of_cons, elem_of_nil.
    destruct (Z.eqb_spec opcode CP_WAIT_MEM_WRITES), (Z.eqb_spec opcode CP_WAIT_FOR_IDLE), (Z.eqb_spec opcode CP_WAIT_FOR_ME);
      intros [= <- _]; naive_solver.
Qed.

(** What is gathered at the occurrence [o] after [log]: an event, if it is a type-7 packet
    that is one, with the registers as the occurrences so far have left them. *)
Definition source_of (mem : M) (log : list occurrence) (o : occurrence) (src : option EventSource) : Prop :=
  match o with
  | PacketSeen submit _ va header =>
      exists t, registers_after mem (log ++ [o]) = Done t /\
        if header_type header =? 7 then
          exists mem1 mem2 is_event, same_view mem mem1 /\ same_view mem mem2 /\
            (is_event = true <-> event_packet mem1 submit va (type7_opcode header) t) /\
            src = if is_event : bool then Some (mkSource submit va header t mem2) else None
        else src = None
  | _ => src = None
  end.

(** The events of a record, in their order. *)
Inductive gathers (mem : M) : list occurrence -> list EventSource -> Prop :=
  | gathers_nil : gathers mem [] []
  | gathers_snoc log srcs o src : gathers mem log srcs -> source_of mem log o src ->
      gathers mem (log ++ [o]) (srcs ++ option_list src).

Lemma gathers_none mem log srcs o : gathers mem log srcs -> source_of mem log o None -> gathers mem (log ++ [o]) srcs.
Proof. intros Hg Ho. pose proof (gathers_snoc mem log srcs o None Hg Ho) as Hn. by rewrite app_nil_r in Hn. Qed.

(** The memory at a packet, at its event and behind it. *)
Lemma packet_gathered_source submit ix va header (mem mem1 : M) log t t' src :
  same_view mem mem1 -> mem_good mem -> 0 <= va -> va + 2 ^ 18 < 2 ^ 64 -> registers_after mem log = Done t ->
  packet_gathered submit ix va header t mem1 t' src ->
  registers_after mem (log ++ [PacketSeen submit ix va header]) = Done t' /\
  source_of mem log (PacketSeen submit ix va header) src.
Proof.
  intros Hv Hm Hva Hend Ht (m1 & Eb & Hsrc). unfold base_OnPacket in Eb.
  destruct (Tracker_OnPacket_view submit va header t mem mem1 _ _ _ Hv Hm Hva Hend Eb) as (m2 & E2).
  assert (registers_after mem (log ++ [PacketSeen submit ix va header]) = Done t') as Et.
  { rewrite (registers_after_snoc _ _ _ _ Ht). cbn [update_registers]. by rewrite E2. }
  split; [done|]. exists t'. split; [done|]. destruct (header_type header =? 7); [|done].
  destruct Hsrc as (m3 & m4 & is_event & Hm3 & Ei & ->).
  assert (same_view mem1 m1) as Hv1.
  { pose proof (Tracker_OnPacket_ends submit va header t mem1) as Hends. rewrite Eb in Hends. apply Hends; [by destruct Hv|done|done]. }
  assert (same_view mem m1) as Hvm by by apply (same_view_trans mem mem1).
  assert (same_view mem m3) as Hvm3.
  { destruct Hm3 as [->|[packet Ep]]; [done|]. apply (same_view_trans mem m1); [done|].
    pose proof (reads_retrieve sizeof_SET_MARKER sizeof_SET_MARKER submit va m1 (same_view_refl m1 (proj1 Hvm))) as Hr.
    unfold wp in Hr. by rewrite Ep in Hr. }
  exists m3, m4, is_event. split; [done|]. split; [|split; [by eapply IsEvent_spec|done]]. apply (same_view_trans mem m3); [done|].
  pose proof (reads_IsEvent submit va (type7_opcode header) t' m3 (same_view_refl m3 (proj1 Hvm3))) as Hr.
  unfold wp in Hr. by rewrite Ei in Hr.
Qed.

(** What the callbacks collect of a record. *)
Lemma replay_gathers (mem : M) log c : mem_good mem ->
  replays mem (new_MetadataCreator new_CaptureMetadata) log c ->
  registers_after mem log = Done (mc_state_tracker c) /\ exists srcs, gathers mem log srcs /\ gathered_from c srcs.
Proof.
  intros Hm Hl. induction Hl as [|log o c1 c2 _ (Ht & srcs & Hs & Hg) Ho].
  { split; [done|]. exists []. split; [constructor|apply new_gathered]. }
  assert (forall t, update_registers mem o (mc_state_tracker c1) = Done t -> mc_state_tracker c2 = t ->
    same_gathering c1 c2 -> source_of mem log o None ->
    registers_after mem (log ++ [o]) = Done (mc_state_tracker c2) /\
    exists srcs, gathers mem (log ++ [o]) srcs /\ gathered_from c2 srcs) as Hquiet.
  { intros t Et <- Hsame Hsrc. rewrite (registers_after_snoc _ _ _ _ Ht). split; [done|]. exists srcs.
    split; [by apply gathers_none|by apply (same_gathered c1)]. }
  destruct o as [submit info|submit ix info type|submit ix va header|submit ix info|submit info]; cbn [responds] in Ho.
  - subst c2. by eapply Hquiet.
  - injection Ho as <-. by eapply Hquiet.
  - destruct Ho as (Hva & Hend & mem1 & mem2 & Hv & Eo). cbn in Eo.
    destruct (Metadata_OnPacket submit ix va header (c1, mem1)) as [[ok [c' mem']]| |] eqn:E; [|done|done].
    injection Eo as -> -> _. destruct (OnPacket_gathered _ _ _ _ _ _ _ Hg _ _ E) as (_ & src & Hp & Hg'). cbn [fst] in *.
    destruct (packet_gathered_source _ _ _ _ _ _ _ _ _ _ Hv Hm Hva Hend Ht Hp) as [Et Hsrc].
    split; [done|]. exists (srcs ++ option_list src). split; [by constructor|done].
  - cbn in Ho. unfold base_OnIbEnd in Ho. destruct (PopEnableMask (mc_state_tracker c1)) as [t|] eqn:Ep; [|done].
    injection Ho as <-. eapply (Hquiet t); try done. cbn [update_registers]. by rewrite Ep.
  - subst c2. by eapply Hquiet.
Qed.

(** ** Properties *)

(** What [CreatePm4MetaData] answers, with any fuel for which it does. *)
Definition metadata_gathered (submits : list SubmitInfo) (mem : M) (r : outcome (bool * CaptureMetadata * M)) : Prop :=
  match r with
  | Done (ok, m, mem') => same_view mem mem' /\ exists log srcs, traversed submits mem ok log /\ gathers mem log srcs /\
      length (m_event_info m) = length srcs /\ (Z.of_nat (length (m_event_info m)) <= 2 ^ 24 -> metadata_ok m srcs)
  | OutOfBounds => True
  | OutOfFuel => False
  end.

Lemma replayed_gathered submits (mem : M) r : mem_good mem ->
  replayed submits (new_MetadataCreator new_CaptureMetadata) mem r ->
  metadata_gathered submits mem ('(ok, c, mem) ← r; Done (ok, m_capture_metadata c, mem)).
Proof.
  intros Hm. destruct r as [[[ok c] mem1]| |]; [|done|done]. intros (Hv & log & Ht & Hl). split; [done|].
  destruct (replay_gathers mem log c Hm Hl) as (_ & srcs & Hs & Hlen & Hrows). exists log, srcs. split; [done|]. split; [done|].
  split; [done|]. intros Hn. destruct (Hrows Hn) as [rows Hrow]. by eapply gathered_metadata.
Qed.

Lemma CreatePm4MetaData_gathered bound R submits fuel (mem : M) ok m mem' :
  mem_good mem -> 0 <= R -> submits_good bound R 0 submits mem ->
  CreatePm4MetaData fuel submits new_CaptureMetadata mem = Done (ok, m, mem') ->
  metadata_gathered submits mem (Done (ok, m, mem')).
Proof.
  intros Hm HR Hg E. rewrite <- E. apply replayed_gathered; [done|].
  apply (ProcessSubmits_replayed bound R); [done..|]. intros En. unfold CreatePm4MetaData in E. unfold gathering in En. by rewrite En in E.
Qed.

(** C17: The events of a capture are the event packets of its submits, with their registers.
    Let the submits that are executed be well-formed, and the metadata of the capture be
    created, with up to 2^24 events. Then the events are, in their order, the type-7 packets
    of the traversal that are a draw, a dispatch, a blit, a wait or a resolve. The source of
    each has the registers that the submits, IBs and packets so far have left, and a memory
    with the captured bytes. An event's type, description and indices are those that the
    functions of [EventInfo] read from its packet; its element of the event state has the values
    of the writes that its registers give, and marks exactly those; and it refers once to each
    shader that the registers have for the event's stages, with exactly the passes that it is
    used in. Shaders have different addresses. *)
Theorem capture_events bound R fuel submits (mem : M) ok m mem' :
  mem_good mem -> 0 <= R -> submits_good bound R 0 submits mem ->
  CreatePm4MetaData fuel submits new_CaptureMetadata mem = Done (ok, m, mem') ->
  Z.of_nat (length (m_event_info m)) <= 2 ^ 24 ->
  es_size (m_event_state m) = Z.of_nat (length (m_event_info m)) /\ NoDup (sh_addr <$> m_shaders m) /\
  exists log srcs, traversed submits mem ok log /\ gathers mem log srcs /\ length (m_event_info m) = length srcs /\
  forall k e src, m_event_info m !! k = Some e -> srcs !! k = Some src ->
    let header := src_header src in
    let t := src_tracker src in
    ei_submit_index e = src_submit src /\ exists mem2 topology writes,
      event_reads (src_submit src) (src_va src) header t (src_mem src) =
        Done ((ei_type e, m_str e, m_num_indices e, topology), mem2) /\
      event_filling (Z.of_nat k) (ei_type e) topology t = Done ((), writes) /\
      references_ok (sh_addr <$> m_shaders m) (shaders_of (ei_type e) (type7_opcode header) t) (m_shader_references e) /\
      forall f i, (i < Field.array_count f)%nat ->
        GetField f (Z.of_nat k) (Z.of_nat i) (m_event_state m) = Done (value_of (row_of writes) f i) /\
        IsSet f (Z.of_nat k) (Z.of_nat i) (m_event_state m) = Done (is_set_in (row_of writes) f i).
Proof.
  intros Hm HR Hg E Hn.
  destruct (CreatePm4MetaData_gathered bound R submits fuel mem ok m mem' Hm HR Hg E) as (_ & log & srcs & Ht & Hs & Hlen & Hok).
  destruct (Hok Hn) as [Hsize Hd He]. split; [done|]. split; [done|]. exists log, srcs. split; [done|]. split; [done|]. split; [done|].
  intros k e src Hk Hsrc header t. destruct (He k e src Hk Hsrc) as (row & (Esub & mem2 & topology & writes & Er & Ew & -> & Href) & Hrow).
  split; [done|]. by exists mem2, topology, writes.
Qed.

(** C18: A draw shows the registers. Let the submits that are executed be well-formed. Each
    draw of a capture is a packet of the traversal, and each of the fields of [draw_fields]
    is marked in the draw's element if and only if the field's register was set in the
    draw's pass by the packets so far; its value is what the table says of the register's
    value, and zeros where it is not set. *)
Theorem draws_show_registers bound R fuel submits (mem : M) ok m mem' k e :
  mem_good mem -> 0 <= R -> submits_good bound R 0 submits mem ->
  CreatePm4MetaData fuel submits new_CaptureMetadata mem = Done (ok, m, mem') ->
  Z.of_nat (length (m_event_info m)) <= 2 ^ 24 -> m_event_info m !! k = Some e -> ei_type e = kDraw ->
  exists log srcs src, traversed submits mem ok log /\ gathers mem log srcs /\ srcs !! k = Some src /\
    forall df, df ∈ draw_fields ->
      let value := register_now (GetRegOffsetByName (df_register df)) (src_tracker src) in
      let f := df_field df in
      IsSet f (Z.of_nat k) 0 (m_event_state m) = Done (bool_decide (is_Some value)) /\
      GetField f (Z.of_nat k) 0 (m_event_state m) =
        Done (default (zeros (Z.of_nat (Field.element_size f))) (df_value df <$> value)).
Proof.
  intros Hm HR Hg E Hn Hk Htype.
  destruct (CreatePm4MetaData_gathered bound R submits fuel mem ok m mem' Hm HR Hg E) as (_ & log & srcs & Ht & Hs & Hlen & Hok).
  destruct (Hok Hn) as [_ _ He].
  destruct (lookup_lt_is_Some_2 srcs k) as [src Hsrc]; [rewrite <- Hlen; by eapply lookup_lt_Some|].
  destruct (He k e src Hk Hsrc) as (row & (_ & mem2 & topology & writes & _ & Ew & -> & _) & Hrow). rewrite Htype in *.
  exists log, srcs, src. split; [done|]. split; [done|]. split; [done|]. intros df Hdf. cbv zeta.
  pose proof (event_filling_shows (Z.of_nat k) topology df (src_tracker src) Hdf _ _ Ew) as Hshow.
  destruct (Hrow (df_field df) 0%nat) as [Hget Hset]; [pose proof (array_count_range (df_field df)); lia|]. change (Z.of_nat 0) with 0 in *.
  rewrite Hget, Hset. unfold value_of, is_set_in. rewrite Hshow. split; [|done]. f_equal. apply bool_decide_ext.
  by rewrite fmap_is_Some.
Qed.

(** C35: The events of a capture are collected to an end. If the submits that are executed are
    well-formed, [CreatePm4MetaData] ends for every fuel that is enough, always with the same
    answer: an access outside of an array, or what was collected with the captured memory as
    it is. It then answers [true] if and only if the traversal of the capture gets to its
    end, and has collected an event for each event packet of what was traversed, up to an IB
    or a packet that is refused. With up to 2^24 events, which the event state can hold, the
    events say what their packets and registers do. *)
Theorem gathering_ends bound R submits (mem : M) :
  mem_good mem -> 0 <= R -> submits_good bound R 0 submits mem ->
  exists enough r,
    (forall fuel, (enough <= fuel)%nat -> CreatePm4MetaData fuel submits new_CaptureMetadata mem = r) /\
    match r with
    | Done (ok, m, mem') => same_view mem mem' /\ exists log srcs, traversed submits mem ok log /\ gathers mem log srcs /\
        length (m_event_info m) = length srcs /\ (Z.of_nat (length (m_event_info m)) <= 2 ^ 24 -> metadata_ok m srcs)
    | OutOfBounds => True
    | OutOfFuel => False
    end.
Proof.
  intros Hm HR Hg.
  destruct (ProcessSubmits_traced bound R submits (new_MetadataCreator new_CaptureMetadata) mem Hm HR Hg) as (enough & r & Hf & Hr).
  exists enough. eexists. split; [|exact (replayed_gathered submits mem r Hm Hr)].
  intros fuel Hl. unfold CreatePm4MetaData. by rewrite <- (Hf fuel Hl).
Qed.
End Ends.

(** ** A capture to evaluate

    A pass that sets the address of a vertex shader, enables the depth test and draws. *)
#[local] Instance draw_info : Pm4Info :=
  let info := test_info_of (fun _ => None) in {|
  sizeof_packet := @sizeof_packet info;
  packet_field name l := if bool_decide (name = "RB_DEPTH_CNTL.bitfields.Z_TEST_ENABLE") then field_dword 0 l mod 2 else 0;
  CP_BLIT := @CP_BLIT info;
  CP_EVENT_WRITE7 := @CP_EVENT_WRITE7 info;
  CP_WAIT_MEM_WRITES := @CP_WAIT_MEM_WRITES info;
  CP_WAIT_FOR_IDLE := @CP_WAIT_FOR_IDLE info;
  CP_WAIT_FOR_ME := @CP_WAIT_FOR_ME info;
  CP_LOAD_STATE6 := @CP_LOAD_STATE6 info;
  CP_LOAD_STATE6_GEOM := @CP_LOAD_STATE6_GEOM info;
  CP_LOAD_STATE6_FRAG := @CP_LOAD_STATE6_FRAG info;
  CP_MEM_TO_REG := @CP_MEM_TO_REG info;
  enumerator := @enumerator info;
  GetOpCodeString := @GetOpCodeString info;
  GetRegOffsetByName name := if bool_decide (name = "RB_DEPTH_CNTL") then 0x8871 else 0;
  GetFullRegInfo := @GetFullRegInfo info;
  GetPacketInfo := @GetPacketInfo info;
  GetSharpInfo := @GetSharpInfo info;
  GetEnumString := @GetEnumString info;
  print_float := @print_float info;
  print_fixed := @print_fixed info;
  print_double := @print_double info
|}.

#[local] Instance draw_variants : GpuVariants := {| GetGPUVariantType := 1; kA7XX := 1; m_gpu_variants _ := 1 |}.
#[local] Instance draw_indeterminate : Indeterminate := fun _ _ => 0.

Definition draw_stream : list Z :=
  test_pass 1 ++ [make_type4 0xa81c 2; 0x1000; 0x5; make_type4 0x8871 1; 3; make_type7 0x38 1; 0].

Definition draw_submits : list SubmitInfo :=
  [mkSubmit kUniversal kQueueUniversal 0 false [mkIbInfo 4096 (Z.of_nat (length draw_stream)) 1 7 false]].

#[local] Abbreviation test_gathering := (CreatePm4MetaData 100 draw_submits new_CaptureMetadata (test_memory_of [(4096, draw_stream)])).

(** The capture is one draw, with one shader. *)
Definition gathered_with (r : outcome (bool * CaptureMetadata * MemoryManager)) (check : CaptureMetadata -> bool) : bool :=
  match r with Done (true, m, _) => check m | _ => false end.

Lemma gathered_with_inv r check : gathered_with r check = true -> exists m mem', r = Done (true, m, mem') /\ check m = true.
Proof. unfold gathered_with. destruct r as [[[[] m] mem']| |]; try done. by exists m, mem'. Qed.

Definition one_draw (m : CaptureMetadata) : bool :=
  bool_decide (length (m_event_info m) = 1%nat) && bool_decide (ei_type <$> m_event_info m !! 0%nat = Some kDraw) &&
  bool_decide (length (m_shaders m) = 1%nat).

Lemma test_gathered : gathered_with test_gathering one_draw = true.
Proof. vm_compute. reflexivity. Qed.

Lemma one_draw_inv m : one_draw m = true ->
  length (m_event_info m) = 1%nat /\ (exists e, m_event_info m !! 0%nat = Some e /\ ei_type e = kDraw) /\ length (m_shaders m) = 1%nat.
Proof.
  intros [[H1%bool_decide_eq_true_1 H2%bool_decide_eq_true_1]%andb_true_iff H3%bool_decide_eq_true_1]%andb_true_iff.
  split; [done|]. split; [|done]. by apply fmap_Some in H2 as (e & ? & ?); exists e.
Qed.

(** The submit is well-formed: its four packets follow one another. *)
Definition draw_memory : MemoryManager := test_memory_of [(4096, draw_stream)].

Definition draw_positions : list (Z * Z * Z) :=
  [(0, 4096, 4132); (0, 4104, 4132); (0, 4116, 4132); (0, 4124, 4132); (0, 4132, 4132)].

Lemma draw_memory_ok : mem_good draw_memory.
Proof. apply (test_memory_of_ok 0); [lia|reflexivity]. Qed.

Lemma draw_stream_ok : stream_ok 0 0 0 draw_memory (listed draw_positions).
Proof.
  split.
  - intros r va e Hin. listed_cases Hin; unfold UINT64_MAX; lia.
  - intros r va e HP Hlt. cbv zeta. listed_cases HP; try lia; (split; [lia|]); intros _.
    + exists (mkDecoded 4104 false []). split; [vm_compute; reflexivity|]. goes_on. constructor.
    + exists (mkDecoded 4116 false []). split; [vm_compute; reflexivity|]. goes_on. constructor.
    + exists (mkDecoded 4124 false []). split; [vm_compute; reflexivity|]. goes_on. constructor.
    + exists (mkDecoded 4132 false []). split; [vm_compute; reflexivity|]. goes_on. constructor.
Qed.

Lemma draw_submits_good : submits_good 0 0 0 draw_submits draw_memory.
Proof.
  intros [|k] info Hk Hi; [|destruct k; discriminate Hk]. injection Hk as <-.
  exists (listed draw_positions). split; [exact draw_stream_ok|].
  change (nonempty_ibs _) with [mkQueued kNormal 4096 9 false 7]. constructor; [|constructor].
  by apply (goes_by _ _ _ 0); [| |apply listed_in].
Qed.

Lemma capture_events_witness : exists m mem' log src,
  test_gathering = Done (true, m, mem') /\ length (m_event_info m) = 1%nat /\ es_size (m_event_state m) = 1 /\
  traversed draw_submits draw_memory true log /\ gathers draw_memory log [src].
Proof.
  destruct (gathered_with_inv _ _ test_gathered) as (m & mem' & E & Hm). destruct (one_draw_inv m Hm) as (Hn & _ & _).
  destruct (capture_events 0 0 _ _ _ _ _ _ draw_memory_ok (Z.le_refl 0) draw_submits_good E)
    as (Hs & _ & log & srcs & Ht & Hg & Hlen & _); [rewrite Hn; lia|].
  rewrite Hn in Hlen. destruct srcs as [|src [|]]; [discriminate Hlen| |discriminate Hlen].
  exists m, mem', log, src. split; [exact E|]. split; [exact Hn|]. split; [rewrite Hs, Hn; reflexivity|]. split; [exact Ht|exact Hg].
Defined.

Lemma draws_show_registers_witness : exists m mem' log srcs src,
  test_gathering = Done (true, m, mem') /\ gathers draw_memory log srcs /\ srcs !! 0%nat = Some src /\
  IsSet Field.DepthTestEnabled 0 0 (m_event_state m) = Done (bool_decide (is_Some (register_now 0x8871 (src_tracker src)))).
Proof.
  destruct (gathered_with_inv _ _ test_gathered) as (m & mem' & E & Hm). destruct (one_draw_inv m Hm) as (Hn & (e & He & Ht) & _).
  destruct (draws_show_registers 0 0 _ _ _ _ _ _ 0 e draw_memory_ok (Z.le_refl 0) draw_submits_good E)
    as (log & srcs & src & _ & Hg & Hsrc & Hd); [rewrite Hn; lia|exact He|exact Ht|].
  exists m, mem', log, srcs, src. split; [exact E|]. split; [exact Hg|]. split; [exact Hsrc|].
  refine (proj1 (Hd (mkRegisterField Field.DepthTestEnabled "RB_DEPTH_CNTL" _) _)).
  unfold draw_fields. do 13 right. left.
Defined.

Lemma gathering_ends_witness : exists enough r,
  (forall fuel, (enough <= fuel)%nat -> CreatePm4MetaData fuel (m_submits chained_capture) new_CaptureMetadata test_ibs = r) /\
  r <> OutOfFuel.
Proof.
  assert (submits_good 0 1 0 (m_submits chained_capture) test_ibs) as Hg.
  { intros [|k] info Hk Hi; [|destruct k; discriminate Hk]. injection Hk as <-. exact test_submit_good. }
  assert (mem_good test_ibs) as Hm by exact test_ibs_ok.
  destruct (gathering_ends 0 1 (m_submits chained_capture) test_ibs Hm) as (enough & r & Hf & Hr); [lia|exact Hg|].
  exists enough, r. split; [exact Hf|]. intros E. rewrite E in Hr. exact Hr.
Defined.

(** ** What does not hold

    A shader is recognized by its address alone, over all submits: where two submits use
    different code at the same address, the events of both refer to the shader that was
    first, disassembled from the memory of the first submit. A draw before any marker
    reads the registers without a current pass, where the optional has no value. *)
Theorem metadata_hazards `{AdrenoPm4} `{Pm4Info} `{GpuVariants} :
  (forall submit submit' info stage addr mask (c : MetadataCreator) i, m_shader_addrs c !! addr = Some i ->
     let c' := use_shader stage addr mask submit' (Metadata_OnSubmitStart submit info c) in
     m_shaders (m_capture_metadata c') = m_shaders (m_capture_metadata c) /\ m_shader_addrs c' !! addr = Some i) /\
  (forall uninitialized t, m_shader_enable_bit t = None -> FillDrawEventStateInfo uninitialized t = OutOfBounds).
Proof.
  split.
  - intros submit submit' info stage addr mask c i Hi. unfold use_shader. cbn. by rewrite Hi.
  - intros uninitialized t Ht. unfold FillDrawEventStateInfo, FillInputAssemblyState, if_set, mbind, Filling_bind, asks,
      IsRegSet_current, at_current_pass. by rewrite Ht.
Qed.
