(* ===== verification/GpuTiming.v ===== *)
(** * GpuTiming: the table of GPU times

    Models [AvailableGpuTiming] of [src/dive_core/available_gpu_time.{h,cpp}], which
    reads the CSV text that a looping replay writes ([FrameMetrics.GetStatsCSVString]
    behind the header line of [src/gfxr_ext/decode/dive_vulkan_replay_consumer.h]) and
    serves it to the UI by object and by row. A stream is the text that is left; the
    outputs to [std::cerr] are left out. *)

From Stdlib Require Import SpecFloat Ascii.
From S2P Require Import Prelude FrameMetrics Numbers.

#[local] Open Scope Z_scope.

(** ** Lines and fields *)

(** [std::getline(stream, text, delimiter)]: the text up to the delimiter and what is
    left behind it; [None] at the end of the stream. *)
Fixpoint until (delimiter : ascii) (s : string) : string * string :=
  match s with
  | EmptyString => (EmptyString, EmptyString)
  | String c s =>
      if bool_decide (c = delimiter) then (EmptyString, s)
      else let '(line, behind) := until delimiter s in (String c line, behind)
  end.

Definition getline (delimiter : ascii) (s : string) : option (string * string) :=
  match s with
  | EmptyString => None
  | _ => Some (until delimiter s)
  end.

(** All texts of [while (std::getline(...))]. *)
Definition cons_first (c : ascii) (lines : list string) : list string :=
  match lines with
  | [] => [String c EmptyString]
  | line :: lines => String c line :: lines
  end.

Fixpoint getlines (delimiter : ascii) (s : string) : list string :=
  match s with
  | EmptyString => []
  | String c s =>
      if bool_decide (c = delimiter) then EmptyString :: getlines delimiter s
      else if bool_decide (s = EmptyString) then [String c EmptyString]
      else cons_first c (getlines delimiter s)
  end.

Definition line_feed : ascii := ascii_of_nat 10.

(** ** The data *)

Inductive ObjectType := kFrame | kCommandBuffer | kRenderPass | nObjectTypes.

Inductive ColumnType := kObjectType | kId | kMeanMs | kMedianMs | nColumnTypes.

#[global] Instance ObjectType_eq_dec : EqDecision ObjectType.
Proof. solve_decision. Defined.

Definition ObjectType_to_nat (t : ObjectType) : nat :=
  match t with kFrame => 0 | kCommandBuffer => 1 | kRenderPass => 2 | nObjectTypes => 3 end%nat.

Definition ColumnType_of_Z (z : Z) : ColumnType :=
  if z =? 0 then kObjectType else if z =? 1 then kId else if z =? 2 then kMeanMs
  else if z =? 3 then kMedianMs else nColumnTypes.

Record TimingEntry := mkEntry { object_type : ObjectType; per_frame_id : Z }.

Record TimingStats := mkTimingStats { mean_ms : double; median_ms : double }.

Record AvailableGpuTiming := mkTiming {
  m_ordered_entries : list TimingEntry;
  m_stats : list (list TimingStats);
  m_total_frames : Z;
  m_loaded : bool;
  m_timing_valid : bool
}.

Definition new_AvailableGpuTiming : AvailableGpuTiming :=
  mkTiming [] (replicate (ObjectType_to_nat nObjectTypes) []) 0 false false.

Definition set_total_frames (z : Z) (t : AvailableGpuTiming) : AvailableGpuTiming :=
  mkTiming (m_ordered_entries t) (m_stats t) z (m_loaded t) (m_timing_valid t).

Definition set_loaded (t : AvailableGpuTiming) : AvailableGpuTiming :=
  mkTiming (m_ordered_entries t) (m_stats t) (m_total_frames t) true (m_timing_valid t).

Definition set_timing_valid (t : AvailableGpuTiming) : AvailableGpuTiming :=
  mkTiming (m_ordered_entries t) (m_stats t) (m_total_frames t) (m_loaded t) true.

(** [m_stats[index].push_back(stats); m_ordered_entries.push_back(entry)] *)
Definition push_row (index : nat) (stats : TimingStats) (entry : TimingEntry)
    (t : AvailableGpuTiming) : AvailableGpuTiming :=
  mkTiming (m_ordered_entries t ++ [entry]) (alter (fun v => v ++ [stats]) index (m_stats t))
    (m_total_frames t) (m_loaded t) (m_timing_valid t).

Definition stats_of (index : nat) (t : AvailableGpuTiming) : list TimingStats :=
  default [] (m_stats t !! index).

(** ** Names *)

Definition GetObjectTypeString (t : ObjectType) : string :=
  match t with
  | kFrame => "Frame"
  | kCommandBuffer => "CommandBuffer"
  | kRenderPass => "RenderPass"
  | nObjectTypes => ""
  end.

Definition GetObjectType (object_type_str : string) : ObjectType :=
  if bool_decide (object_type_str = "Frame"%string) then kFrame
  else if bool_decide (object_type_str = "CommandBuffer"%string) then kCommandBuffer
  else if bool_decide (object_type_str = "RenderPass"%string) then kRenderPass
  else nObjectTypes.

Definition GetColumnTypeString (column_type : ColumnType) : string :=
  match column_type with
  | kObjectType => "Type"
  | kId => "Id"
  | kMeanMs => "Mean [ms]"
  | kMedianMs => "Median [ms]"
  | nColumnTypes => ""
  end.

Definition GetColumns : Z := 4.

Definition GetColumnHeader (col : Z) : string :=
  if (col <? 0) || (GetColumns <=? col) then "" else GetColumnTypeString (ColumnType_of_Z col).

(** ** Loading *)

Definition has_point (s : string) : bool := negb (all_chars (fun c => negb (bool_decide (c = "."%char))) s).

(** The header: the names of the columns, in order. *)
Fixpoint check_header (fields : list string) (i : Z) : bool :=
  match fields with
  | [] => true
  | field :: fields =>
      bool_decide (field = GetColumnTypeString (ColumnType_of_Z i)) && check_header fields (i + 1)
  end.

(** The numbers of a row; both exceptions are caught. *)
Definition row_numbers (id mean median : string) : option (Z * TimingStats) :=
  match stoi id with
  | inr _ => None
  | inl z =>
      match stof mean with
      | inr _ => None
      | inl mean =>
          match stof median with
          | inr _ => None
          | inl median => Some (wrap 32 z, mkTimingStats mean median)
          end
      end
  end.

Definition LoadLine (row : Z) (line : string) (t : AvailableGpuTiming) : bool * AvailableGpuTiming :=
  match getlines "," line with
  | [] => (true, t)
  | [type; field1; field2; field3] as fields =>
      if row =? 0 then (check_header fields 0, t)
      else
        match row_numbers field1 field2 field3 with
        | None => (false, t)
        | Some (id, stats) =>
            if has_point field1 || negb (has_point field2) || negb (has_point field3) then (false, t)
            else
              let object_type := GetObjectType type in
              if bool_decide (object_type = nObjectTypes) then (false, t)
              else
                let is_frame := bool_decide (object_type = kFrame) in
                let t := if is_frame then set_total_frames id t else t in
                let entry := mkEntry object_type (if is_frame then 0 else id) in
                let index := ObjectType_to_nat object_type in
                if negb (Z.of_nat (length (stats_of index t)) =? per_frame_id entry) then (false, t)
                else
                  let t := push_row index stats entry t in
                  (row =? Z.of_nat (length (m_ordered_entries t)), t)
        end
  | _ => (false, t)
  end.

Fixpoint load_lines (lines : list string) (row : Z) (t : AvailableGpuTiming)
  : bool * AvailableGpuTiming :=
  match lines with
  | [] => (true, t)
  | line :: lines =>
      if bool_decide (line = EmptyString) then load_lines lines row t
      else
        match LoadLine row line t with
        | (true, t) => load_lines lines (wrap 32 (row + 1)) t
        | (false, t) => (false, t)
        end
  end.

Definition LoadFromStream (stream : string) (t : AvailableGpuTiming) : bool * AvailableGpuTiming :=
  load_lines (getlines line_feed stream) 0 t.

Definition Validate (t : AvailableGpuTiming) : AvailableGpuTiming :=
  if (sum_list (length <$> m_stats t) =? length (m_ordered_entries t))%nat then set_timing_valid t
  else t.

(** The part that [LoadFromString] and [LoadFromCsv] share. *)
Definition load_and_validate (stream : string) (t : AvailableGpuTiming) : bool * AvailableGpuTiming :=
  match LoadFromStream stream t with
  | (true, t) => let t := Validate t in (m_timing_valid t, t)
  | (false, t) => (false, t)
  end.

Definition LoadFromString (full_text : string) (t : AvailableGpuTiming) : bool * AvailableGpuTiming :=
  if m_loaded t then (false, t) else load_and_validate full_text (set_loaded t).

(** [contents] is [None] when the file cannot be opened. *)
Definition LoadFromCsv (extension : string) (contents : option string) (t : AvailableGpuTiming)
  : bool * AvailableGpuTiming :=
  if m_loaded t then (false, t)
  else
    let t := set_loaded t in
    if negb (bool_decide (extension = ".csv"%string)) then (false, t)
    else
      match contents with
      | None => (false, t)
      | Some contents => load_and_validate contents t
      end.

(** ** Queries *)

Definition GetStatsByType (object_type : ObjectType) (object_id : Z) (t : AvailableGpuTiming)
  : option TimingStats :=
  if negb (m_timing_valid t) then None
  else
    let index := ObjectType_to_nat object_type in
    if (length (m_stats t) <=? index)%nat then None
    else if Z.of_nat (length (stats_of index t)) <=? object_id then None
    else stats_of index t !! Z.to_nat object_id.

Definition GetStatsByRow (row_id : Z) (t : AvailableGpuTiming) : option TimingStats :=
  if negb (m_timing_valid t) then None
  else if (row_id <? 1) || (Z.of_nat (length (m_ordered_entries t)) <? row_id) then None
  else
    entry ← m_ordered_entries t !! Z.to_nat (row_id - 1);
    GetStatsByType (object_type entry) (per_frame_id entry) t.

Definition to_int (z : Z) : Z := let z := wrap 32 z in if z <? 2 ^ 31 then z else z - 2 ^ 32.

Definition GetRows (t : AvailableGpuTiming) : Z :=
  if m_timing_valid t then to_int (Z.of_nat (length (m_ordered_entries t))) else -1.

Definition GetCell (row col : Z) (t : AvailableGpuTiming) : string :=
  if negb (m_timing_valid t) then ""
  else if (row <? 0) || (GetRows t <=? row) then ""
  else if (col <? 0) || (GetColumns <=? col) then ""
  else
    match m_ordered_entries t !! Z.to_nat row with
    | None => ""
    | Some entry =>
        if col =? 0 then GetObjectTypeString (object_type entry)
        else if col =? 1 then pretty (per_frame_id entry)
        else
          match GetStatsByRow (wrap 32 (row + 1)) t with
          | None => ""
          | Some stats =>
              if col =? 2 then show_fixed 3 (mean_ms stats) else show_fixed 3 (median_ms stats)
          end
    end.

(** ** The replay's side *)

(** [gpu_time_stats_csv_header_str_] *)
Definition csv_header : string := "Type,Id,Mean [ms],Median [ms]" +:+ newline.

(** [GetGPUTimeStatsCSVStr]: the header and the last statistics. *)
Definition GetGPUTimeStatsCSVStr (m : FrameMetrics) (m_frame_index : Z) : string :=
  csv_header +:+ GetStatsCSVString m m_frame_index.

Definition times_text : string :=
  csv_header +:+ "Frame,10,0.345,0.341" +:+ newline +:+ "CommandBuffer,0,0.001,0.002" +:+ newline
  +:+ "RenderPass,0,0.228,0.229" +:+ newline +:+ "CommandBuffer,1,0.003,0.004" +:+ newline.

Example times_loaded :
  let '(ok, t) := LoadFromString times_text new_AvailableGpuTiming in
  ok = true /\ GetRows t = 4
  /\ (fun col => GetCell 0 col t) <$> [0; 1; 2; 3] = ["Frame"; "0"; "0.345"; "0.341"]%string
  /\ (fun col => GetCell 3 col t) <$> [0; 1; 2; 3] = ["CommandBuffer"; "1"; "0.003"; "0.004"]%string
  /\ GetStatsByType kFrame 1 t = None
  /\ fst (LoadFromString times_text t) = false
  /\ fst (LoadFromString (csv_header +:+ "CommandBuffer,0,1,0.2") new_AvailableGpuTiming) = false
  /\ fst (LoadFromString "" new_AvailableGpuTiming) = true.
Proof. vm_compute. repeat split. Qed.

(** ** Splitting *)

Lemma getlines_cons d c s :
  getlines d (String c s)
  = if bool_decide (c = d) then ""%string :: getlines d s
    else if bool_decide (s = ""%string) then [String c ""] else cons_first c (getlines d s).
Proof. done. Qed.

(** [getlines] is the loop over [std::getline]. *)
Lemma getlines_loop d s :
  getlines d s = match getline d s with None => [] | Some (line, s) => line :: getlines d s end.
Proof.
  destruct s as [|c s]; [done|]. unfold getline. revert c.
  induction s as [|c' s IH]; intros c; rewrite getlines_cons; cbn [until].
  - by destruct (bool_decide (c = d)).
  - destruct (bool_decide (c = d)); [done|]. rewrite bool_decide_false by done.
    rewrite IH. cbn [until]. destruct (bool_decide (c' = d)); [done|]. by destruct (until d s).
Qed.

(** A text without the delimiter. *)
Definition free_of (d : ascii) : string -> bool := all_chars (fun c => negb (bool_decide (c = d))).

Lemma until_free d l r : free_of d l = true -> until d (l +:+ String d r) = (l, r).
Proof.
  induction l as [|c l IH]; intros Hl.
  - change ("" +:+ String d r) with (String d r). cbn [until]. by rewrite bool_decide_true.
  - unfold free_of in Hl. simpl in Hl. zbool. rewrite string_app_cons. cbn [until].
    rewrite H, IH by done. done.
Qed.

Lemma getlines_line d l r : free_of d l = true -> getlines d (l +:+ String d r) = l :: getlines d r.
Proof.
  intros Hl. rewrite getlines_loop. unfold getline. rewrite until_free by done.
  by destruct l.
Qed.

Lemma until_last d l : free_of d l = true -> until d l = (l, ""%string).
Proof.
  induction l as [|c l IH]; [done|]. intros Hl. unfold free_of in Hl. simpl in Hl. zbool.
  cbn [until]. by rewrite H, IH.
Qed.

Lemma getlines_last d l : free_of d l = true -> l <> ""%string -> getlines d l = [l].
Proof.
  intros Hl Hne. rewrite getlines_loop. unfold getline. rewrite until_last by done. by destruct l.
Qed.

(** ** The rows of a table *)

Abbreviation Row := (ObjectType * TimingStats)%type.

Definition stats_in (ty : ObjectType) (rows : list Row) : list TimingStats :=
  omap (fun row => if bool_decide (fst row = ty) then Some (snd row) else None) rows.

(** How many rows of the type of row [r] come before it. *)
Definition entries_of (rows : list Row) : list TimingEntry :=
  imap (fun r row => mkEntry (fst row) (Z.of_nat (length (stats_in (fst row) (take r rows))))) rows.

Definition shows (rows : list Row) (t : AvailableGpuTiming) : Prop :=
  m_ordered_entries t = entries_of rows
  /\ m_stats t = [stats_in kFrame rows; stats_in kCommandBuffer rows; stats_in kRenderPass rows]
  /\ Forall (fun row => fst row <> nObjectTypes) rows.

(** What a table means: a header and rows, of each type numbered in order; a frame's
    number is not its index. *)
Definition type_names : list (string * ObjectType) :=
  [("Frame", kFrame); ("CommandBuffer", kCommandBuffer); ("RenderPass", kRenderPass)]%string.

Definition pointed (s : string) : bool := bool_decide ("."%char ∈ String.list_ascii_of_string s).

Definition read_row (line : string) : option (ObjectType * Z * TimingStats) :=
  match getlines "," line with
  | [type; field1; field2; field3] =>
      '(_, ty) ← List.find (fun entry => bool_decide (entry.1 = type)) type_names;
      match stoi field1, stof field2, stof field3 with
      | inl id, inl mean, inl median =>
          if negb (pointed field1) && pointed field2 && pointed field3
          then Some (ty, wrap 32 id, mkTimingStats mean median) else None
      | _, _, _ => None
      end
  | _ => None
  end.

Definition next_id (ty : ObjectType) (id : Z) : Z := if bool_decide (ty = kFrame) then 0 else id.

Fixpoint number_rows (lines : list string) (rows : list Row) : option (list Row) :=
  match lines with
  | [] => Some rows
  | line :: lines =>
      '(ty, id, stats) ← read_row line;
      if Z.of_nat (length (stats_in ty rows)) =? next_id ty id
      then number_rows lines (rows ++ [(ty, stats)]) else None
  end.

Definition filled_lines (text : string) : list string :=
  filter (fun line => line <> ""%string) (getlines line_feed text).

Definition table_of (text : string) : option (list Row) :=
  match filled_lines text with
  | [] => Some []
  | header :: lines =>
      if bool_decide (getlines "," header = ["Type"; "Id"; "Mean [ms]"; "Median [ms]"]%string)
      then number_rows lines [] else None
  end.

Lemma has_point_pointed s : has_point s = pointed s.
Proof.
  unfold has_point, pointed. induction s as [|c s IH]; [done|]. cbn [all_chars String.list_ascii_of_string].
  rewrite negb_andb, negb_involutive, IH. apply eq_true_iff_eq. rewrite orb_true_iff, !bool_decide_eq_true, elem_of_cons.
  by split; intros [<-|?]; auto.
Qed.

(** The names are those of the code. *)
Lemma read_row_code line : read_row line =
  match getlines "," line with
  | [type; field1; field2; field3] =>
      '(id, stats) ← row_numbers field1 field2 field3;
      if negb (has_point field1) && has_point field2 && has_point field3
         && negb (bool_decide (GetObjectType type = nObjectTypes))
      then Some (GetObjectType type, id, stats) else None
  | _ => None
  end.
Proof.
  unfold read_row. destruct (getlines _ _) as [|type [|f1 [|f2 [|f3 [|]]]]]; try done.
  rewrite !has_point_pointed. unfold row_numbers.
  assert (List.find (fun entry => bool_decide (entry.1 = type)) type_names
    = if bool_decide (GetObjectType type = nObjectTypes) then None else Some (type, GetObjectType type)) as ->.
  { unfold GetObjectType, type_names. cbn [List.find fst].
    destruct (decide (type = "Frame"%string)) as [->|H1]; [done|]. destruct (decide (type = "CommandBuffer"%string)) as [->|H2]; [done|].
    destruct (decide (type = "RenderPass"%string)) as [->|H3]; [done|].
    rewrite !(bool_decide_eq_false_2 (_ = type)) by congruence. by rewrite !(bool_decide_eq_false_2 (type = _)) by done. }
  destruct (stoi f1) as [id|], (stof f2) as [mean|], (stof f3) as [median|]; cbn [mbind option_bind];
    destruct (bool_decide (GetObjectType _ = _)); cbn [mbind option_bind negb]; try done; by rewrite ?andb_false_r, ?andb_true_r.
Qed.

(** ** Loading reads the table *)

Lemma stats_in_app ty rows rows' : stats_in ty (rows ++ rows') = stats_in ty rows ++ stats_in ty rows'.
Proof. apply omap_app. Qed.

Lemma stats_of_shows ty rows t :
  shows rows t -> ty <> nObjectTypes -> stats_of (ObjectType_to_nat ty) t = stats_in ty rows.
Proof. intros (_ & E & _) Hty. unfold stats_of. rewrite E. by destruct ty. Qed.

Lemma entries_of_length rows : length (entries_of rows) = length rows.
Proof. apply length_imap. Qed.

Lemma entries_of_snoc rows row :
  entries_of (rows ++ [row])
  = entries_of rows ++ [mkEntry (fst row) (Z.of_nat (length (stats_in (fst row) rows)))].
Proof.
  unfold entries_of. rewrite imap_app. f_equal.
  - apply imap_ext. intros r x Hx. rewrite take_app_le; [done|].
    apply lookup_lt_Some in Hx. lia.
  - simpl. by rewrite Nat.add_0_r, take_app_length.
Qed.

Lemma push_row_shows ty stats rows t :
  shows rows t -> ty <> nObjectTypes ->
  shows (rows ++ [(ty, stats)])
    (push_row (ObjectType_to_nat ty) stats (mkEntry ty (Z.of_nat (length (stats_in ty rows)))) t).
Proof.
  intros (Ee & Es & Hty) Hne. unfold shows, push_row. cbn [m_ordered_entries m_stats].
  rewrite Ee, Es, entries_of_snoc, !stats_in_app. split; [done|]. split.
  - destruct ty; try done; cbn; by rewrite ?app_nil_r.
  - rewrite Forall_app. split; [done|]. by constructor.
Qed.

Lemma set_total_shows z rows t : shows rows t -> shows rows (set_total_frames z t).
Proof. done. Qed.

(** One line behind the header. *)
Lemma LoadLine_row row line rows t :
  shows rows t -> row = Z.of_nat (length rows) + 1 -> line <> ""%string ->
  match read_row line with
  | Some (ty, id, stats) =>
      if Z.of_nat (length (stats_in ty rows)) =? next_id ty id then
        exists t', LoadLine row line t = (true, t') /\ shows (rows ++ [(ty, stats)]) t'
                   /\ m_timing_valid t' = m_timing_valid t
      else fst (LoadLine row line t) = false
           /\ m_timing_valid (snd (LoadLine row line t)) = m_timing_valid t
  | None => LoadLine row line t = (false, t)
  end.
Proof.
  intros Hs Hrow Hline. rewrite read_row_code. unfold LoadLine.
  destruct (getlines "," line) as [|type [|field1 [|field2 [|field3 [|]]]]] eqn:El; try done.
  { destruct line; [done|]. rewrite getlines_loop in El. simpl in El. by case_match. }
  rewrite (proj2 (Z.eqb_neq _ _)) by lia.
  destruct (row_numbers field1 field2 field3) as [[id stats]|]; [|done]. cbn [mbind option_bind].
  destruct (has_point field1), (has_point field2), (has_point field3); try done. cbn [negb andb orb].
  set (ty := GetObjectType type). destruct (decide (ty = nObjectTypes)) as [E|Hty].
  { by rewrite bool_decide_true. }
  rewrite bool_decide_false by done. cbn [negb].
  set (t1 := if bool_decide (ty = kFrame) then set_total_frames id t else t).
  assert (shows rows t1) as Hs1 by (unfold t1; by destruct (bool_decide _)).
  assert (m_timing_valid t1 = m_timing_valid t) as Hv by (unfold t1; by destruct (bool_decide _)).
  cbn [per_frame_id]. fold (next_id ty id). rewrite (stats_of_shows ty rows t1) by done.
  destruct (_ =? next_id ty id) eqn:Eid; cbn [negb]; [|by rewrite <- Hv].
  zbool. rewrite <- Eid. eexists. split; [|split; [by apply push_row_shows|done]].
  f_equal. destruct Hs1 as [Ee _]. unfold push_row. cbn [m_ordered_entries].
  rewrite Ee, length_app, entries_of_length. apply Z.eqb_eq. simpl. lia.
Qed.

Lemma load_lines_filled lines row t :
  load_lines lines row t = load_lines (filter (fun line => line <> ""%string) lines) row t.
Proof.
  revert row t. induction lines as [|line lines IH]; intros row t; [done|].
  rewrite filter_cons. simpl. destruct (decide (line <> ""%string)) as [Hl|Hl].
  - simpl. rewrite bool_decide_false by done. destruct (LoadLine row line t) as [[] t']; auto.
  - rewrite bool_decide_true; [apply IH|]. by apply dec_stable.
Qed.

Lemma load_rows lines rows t :
  shows rows t -> Forall (fun line => line <> ""%string) lines ->
  Z.of_nat (length rows + length lines) + 1 < 2 ^ 32 ->
  match number_rows lines rows with
  | Some rows' =>
      exists t', load_lines lines (Z.of_nat (length rows) + 1) t = (true, t') /\ shows rows' t'
                 /\ m_timing_valid t' = m_timing_valid t
  | None =>
      exists t', load_lines lines (Z.of_nat (length rows) + 1) t = (false, t')
                 /\ m_timing_valid t' = m_timing_valid t
  end.
Proof.
  revert rows t. induction lines as [|line lines IH]; intros rows t Hs Hl Hb; [simpl; eauto|].
  apply Forall_cons in Hl as [Hline Hl]. cbn [number_rows load_lines].
  rewrite bool_decide_false by done.
  pose proof (LoadLine_row _ line rows t Hs eq_refl Hline) as H.
  destruct (read_row line) as [[[ty id] stats]|]; cbn [mbind option_bind]; [|rewrite H; eauto].
  destruct (_ =? _); [|destruct (LoadLine _ _ _) as [[] t']; destruct H as [? Hv]; [done|eauto]].
  destruct H as (t1 & -> & Hs1 & Hv1).
  specialize (IH (rows ++ [(ty, stats)]) t1 Hs1 Hl). rewrite length_app in IH. simpl in IH.
  replace (wrap 32 _) with (Z.of_nat (length rows + 1) + 1).
  - rewrite Hv1 in IH. apply IH. simpl in Hb. lia.
  - rewrite wrap_small; [lia|]. unfold in_width. simpl in Hb. lia.
Qed.

Lemma new_shows : shows [] new_AvailableGpuTiming.
Proof. done. Qed.

Lemma stats_total rows : Forall (fun row => fst row <> nObjectTypes) rows ->
  (length (stats_in kFrame rows) + length (stats_in kCommandBuffer rows)
   + length (stats_in kRenderPass rows))%nat = length rows.
Proof.
  induction 1 as [|[ty stats] rows Hne _ IH]; [done|]. unfold stats_in in *. cbn [omap list_omap fst snd].
  destruct ty; try done; repeat (rewrite bool_decide_true by done || rewrite bool_decide_false by done);
    simpl; lia.
Qed.

Lemma Validate_shows rows t : shows rows t -> Validate t = set_timing_valid t.
Proof.
  intros (Ee & Es & Hty). unfold Validate. rewrite Ee, Es, entries_of_length.
  rewrite (proj2 (Nat.eqb_eq _ _)); [done|]. simpl. pose proof (stats_total rows Hty). lia.
Qed.

Lemma header_checked line t :
  line <> ""%string ->
  LoadLine 0 line t
  = (bool_decide (getlines "," line = ["Type"; "Id"; "Mean [ms]"; "Median [ms]"]%string), t).
Proof.
  intros Hl. unfold LoadLine.
  destruct (getlines "," line) as [|a [|b [|c [|d [|]]]]] eqn:E;
    try by rewrite bool_decide_false.
  { destruct line; [done|]. rewrite getlines_loop in E. simpl in E. by case_match. }
  simpl. f_equal. change (ColumnType_of_Z 0) with kObjectType. simpl.
  repeat case_bool_decide; simplify_eq/=; done.
Qed.

Lemma loaded_table text :
  Z.of_nat (length (filled_lines text)) < 2 ^ 32 ->
  match table_of text with
  | Some rows =>
      exists t, LoadFromString text new_AvailableGpuTiming = (true, t) /\ shows rows t
                /\ m_timing_valid t = true
  | None =>
      exists t, LoadFromString text new_AvailableGpuTiming = (false, t) /\ m_timing_valid t = false
  end.
Proof.
  intros Hb. unfold LoadFromString, load_and_validate, LoadFromStream. cbn [m_loaded new_AvailableGpuTiming].
  rewrite load_lines_filled. fold (filled_lines text). unfold table_of.
  set (t0 := set_loaded _). assert (shows [] t0) as Hs0 by done.
  assert (Forall (fun line => line <> ""%string) (filled_lines text)) as Hl.
  { apply Forall_forall. intros line Hin. by apply list_elem_of_filter in Hin as [? _]. }
  destruct (filled_lines text) as [|header lines].
  { simpl. rewrite (Validate_shows []) by done. eauto. }
  apply Forall_cons in Hl as [Hh Hl]. cbn [load_lines]. rewrite (bool_decide_false (header = ""%string)) by done.
  rewrite header_checked by done. destruct (bool_decide _); [|eauto].
  pose proof (load_rows lines [] t0 Hs0 Hl) as H. simpl in H, Hb.
  specialize (H ltac:(lia)). change (wrap 32 (0 + 1)) with (Z.of_nat 0 + 1).
  destruct (number_rows lines []) as [rows|].
  - destruct H as (t & -> & Hs & _). rewrite (Validate_shows rows) by done. eauto.
  - destruct H as (t & -> & Hv). eauto.
Qed.

(** ** Queries *)

Lemma stats_in_lookup rows r ty stats :
  rows !! r = Some (ty, stats) ->
  stats_in ty rows !! length (stats_in ty (take r rows)) = Some stats.
Proof.
  intros Hr. rewrite <- (take_drop_middle _ _ _ Hr) at 2. rewrite stats_in_app.
  rewrite lookup_app_r by done. rewrite Nat.sub_diag. unfold stats_in at 1. simpl.
  by rewrite bool_decide_true.
Qed.

Lemma entries_of_lookup rows r ty stats :
  rows !! r = Some (ty, stats) ->
  entries_of rows !! r = Some (mkEntry ty (Z.of_nat (length (stats_in ty (take r rows))))).
Proof. intros Hr. unfold entries_of. by rewrite list_lookup_imap, Hr. Qed.

Section Shown.

Context (rows : list Row) (t : AvailableGpuTiming).
Hypothesis Hshows : shows rows t.
Hypothesis Hvalid : m_timing_valid t = true.
Hypothesis Hsmall : Z.of_nat (length rows) < 2 ^ 31 - 1.

Lemma by_type ty k : ty <> nObjectTypes -> 0 <= k ->
  GetStatsByType ty k t = stats_in ty rows !! Z.to_nat k.
Proof.
  intros Hty Hk. unfold GetStatsByType. rewrite Hvalid. cbn [negb].
  rewrite (stats_of_shows ty rows) by done. destruct Hshows as (_ & Es & _).
  rewrite Es. assert (ObjectType_to_nat ty < 3)%nat by (destruct ty; simpl; lia || done).
  rewrite (proj2 (Nat.leb_gt _ _)) by (simpl; lia).
  destruct (_ <=? k) eqn:E; [|done]. zbool. symmetry. apply lookup_ge_None. lia.
Qed.

Lemma rows_shown : GetRows t = Z.of_nat (length rows).
Proof.
  unfold GetRows. rewrite Hvalid. destruct Hshows as (-> & _). rewrite entries_of_length.
  unfold to_int. rewrite wrap_small by (unfold in_width; lia).
  by rewrite (proj2 (Z.ltb_lt _ _)) by lia.
Qed.

Lemma row_stats r ty stats : rows !! r = Some (ty, stats) -> GetStatsByRow (Z.of_nat r + 1) t = Some stats.
Proof.
  intros Hr. pose proof (lookup_lt_Some _ _ _ Hr). unfold GetStatsByRow. rewrite Hvalid. cbn [negb].
  pose proof Hshows as (Ee & _ & Hty). rewrite Ee, entries_of_length.
  destruct (_ || _) eqn:E; [apply orb_true_iff in E as [E|E]; zbool; lia|].
  replace (Z.to_nat (Z.of_nat r + 1 - 1)) with r by lia.
  rewrite (entries_of_lookup rows r ty stats Hr). cbn [mbind option_bind object_type per_frame_id].
  rewrite by_type by (lia || exact (Forall_lookup_1 _ _ _ _ Hty Hr)).
  rewrite Nat2Z.id. by apply stats_in_lookup.
Qed.

Lemma cells_shown r ty stats : rows !! r = Some (ty, stats) ->
  (fun col => GetCell (Z.of_nat r) col t) <$> [0; 1; 2; 3]
  = [GetObjectTypeString ty; pretty (Z.of_nat (length (stats_in ty (take r rows))));
     show_fixed 3 (mean_ms stats); show_fixed 3 (median_ms stats)].
Proof.
  intros Hr. pose proof (lookup_lt_Some _ _ _ Hr). unfold GetCell. simpl.
  rewrite Hvalid, rows_shown. cbn [negb].
  rewrite !(proj2 (Z.ltb_ge _ _)), !(proj2 (Z.leb_gt _ _)) by lia. cbn [orb].
  rewrite Nat2Z.id. pose proof Hshows as (Ee & _ & _).
  rewrite Ee, (entries_of_lookup rows r ty stats Hr).
  rewrite wrap_small by (unfold in_width; lia). by rewrite (row_stats r ty stats Hr).
Qed.

Lemma columns_outside r col : col < 0 \/ 4 <= col -> GetCell r col t = ""%string.
Proof.
  intros Hc. unfold GetCell, GetColumns. destruct (negb _); [done|]. destruct (_ || _); [done|].
  destruct ((col <? 0) || _) eqn:E; [done|]. apply orb_false_iff in E as [E1 E2]. zbool. lia.
Qed.

Lemma type_unknown k : GetStatsByType nObjectTypes k t = None.
Proof. unfold GetStatsByType. destruct (negb _); [done|]. destruct Hshows as (_ & -> & _). done. Qed.

Lemma named ty : ty <> nObjectTypes -> (GetObjectTypeString ty, ty) ∈ type_names.
Proof. rewrite list_elem_of_In. destruct ty; cbn; tauto. Qed.

Lemma outside r : r < 0 \/ Z.of_nat (length rows) <= r ->
  (forall col, GetCell r col t = ""%string) /\ GetStatsByRow (r + 1) t = None.
Proof.
  intros Hr. unfold GetCell, GetStatsByRow. rewrite Hvalid, rows_shown. cbn [negb].
  pose proof Hshows as (-> & _). rewrite entries_of_length. split; intros.
  - destruct (_ || _) eqn:E; [done|]. zbool. lia.
  - destruct ((r + 1 <? 1) || _) eqn:E; [done|]. zbool. lia.
Qed.

End Shown.

(** A table that was not loaded answers nothing. *)
Lemma invalid_silent t : m_timing_valid t = false ->
  GetRows t = -1 /\ (forall ty k, GetStatsByType ty k t = None)
  /\ (forall r, GetStatsByRow r t = None) /\ (forall row col, GetCell row col t = ""%string).
Proof.
  intros Hv. unfold GetRows, GetStatsByType, GetStatsByRow, GetCell. by rewrite Hv.
Qed.

Lemma number_rows_frames lines rows rows' :
  number_rows lines rows = Some rows' ->
  (length (stats_in kFrame rows) <= 1)%nat -> (length (stats_in kFrame rows') <= 1)%nat.
Proof.
  revert rows. induction lines as [|line lines IH]; intros rows H Hf; simpl in H; [by simplify_eq|].
  destruct (read_row line) as [[[ty id] stats]|]; [|done]. simpl in H.
  destruct (_ =? _) eqn:E; [|done]. apply IH in H; [done|]. zbool.
  rewrite stats_in_app, length_app. unfold stats_in at 2. simpl. case_bool_decide; simpl; [|lia].
  subst ty. unfold next_id in E. simpl in E. lia.
Qed.

Lemma number_rows_length lines rows rows' :
  number_rows lines rows = Some rows' -> length rows' = (length rows + length lines)%nat.
Proof.
  revert rows. induction lines as [|line lines IH]; intros rows H; simpl in H; [simplify_eq; simpl; lia|].
  destruct (read_row line) as [[[ty id] stats]|]; [|done]. simpl in H.
  destruct (_ =? _) eqn:E; [|done]. apply IH in H. rewrite length_app in H. simpl in *. lia.
Qed.

Lemma table_of_facts text rows : table_of text = Some rows ->
  (length rows <= length (filled_lines text))%nat /\ (length (stats_in kFrame rows) <= 1)%nat.
Proof.
  unfold table_of. destruct (filled_lines text) as [|h lines]; [intros [= <-]; simpl; lia|].
  case_bool_decide; [|done]. intros Hn. pose proof (number_rows_length _ _ _ Hn).
  pose proof (number_rows_frames _ _ _ Hn). simpl in *. lia.
Qed.

(** C10: loading a text of less than 2^31 - 1 lines succeeds exactly when it is a table, and
    then the object serves the table: as many rows as the text has lines behind the header,
    at most one of them a frame; row [r] is found by its row number and by its type and
    number within the type (the rows of a type are numbered from 0 in the order of the
    file), its four cells are the type's name, that number and the two times; a row, a
    column, a type or a number within a type that the table does not have is refused, and
    an object whose loading failed answers nothing. A line of a table has four fields: the
    name of a type, the number, an integer without a point (of a frame any, of the others
    the next of its type), and two numbers with a point. *)
Theorem gpu_table_served (text : string) :
  Z.of_nat (length (filled_lines text)) < 2 ^ 31 - 1 ->
  match table_of text with
  | Some rows =>
      exists t, LoadFromString text new_AvailableGpuTiming = (true, t)
        /\ GetRows t = Z.of_nat (length rows) /\ (length (stats_in kFrame rows) <= 1)%nat
        /\ (forall ty k, ty <> nObjectTypes -> 0 <= k ->
              GetStatsByType ty k t = stats_in ty rows !! Z.to_nat k)
        /\ (forall k, GetStatsByType nObjectTypes k t = None)
        /\ (forall r ty stats, rows !! r = Some (ty, stats) ->
              let n := Z.of_nat (length (stats_in ty (take r rows))) in
              GetStatsByRow (Z.of_nat r + 1) t = Some stats /\ GetStatsByType ty n t = Some stats
              /\ exists name, (name, ty) ∈ type_names
                 /\ (fun col => GetCell (Z.of_nat r) col t) <$> [0; 1; 2; 3]
                    = [name; pretty n; show_fixed 3 (mean_ms stats); show_fixed 3 (median_ms stats)])
        /\ (forall r, r < 0 \/ Z.of_nat (length rows) <= r ->
              (forall col, GetCell r col t = ""%string) /\ GetStatsByRow (r + 1) t = None)
        /\ (forall r col, col < 0 \/ 4 <= col -> GetCell r col t = ""%string)
  | None =>
      exists t, LoadFromString text new_AvailableGpuTiming = (false, t)
        /\ GetRows t = -1 /\ (forall ty k, GetStatsByType ty k t = None)
        /\ (forall r, GetStatsByRow r t = None) /\ (forall row col, GetCell row col t = ""%string)
  end.
Proof.
  intros Hb. pose proof (loaded_table text ltac:(lia)) as H. pose proof (table_of_facts text) as Hf.
  destruct (table_of text) as [rows|].
  - destruct H as (t & Hload & Hs & Hv). destruct (Hf rows eq_refl) as [Hlen Hframes].
    assert (Z.of_nat (length rows) < 2 ^ 31 - 1) as Hsmall by lia.
    exists t. split; [done|]. split; [by apply rows_shown|]. split; [done|].
    split; [intros; by apply by_type|]. split; [intros; by apply (type_unknown rows)|].
    split; [|split; [intros; by apply (outside rows)|intros; by apply columns_outside]].
    intros r ty stats Hr. pose proof (Forall_lookup_1 _ _ _ _ (proj2 (proj2 Hs)) Hr) as Hty. cbn [fst] in Hty.
    cbv zeta. split; [by apply (row_stats rows t Hs Hv r ty)|].
    split; [|exists (GetObjectTypeString ty); split; [by apply named|by apply cells_shown]].
    rewrite (by_type rows t), Nat2Z.id by (done || lia). by apply stats_in_lookup.
  - destruct H as (t & Hload & Hv). exists t. split; [done|]. by apply invalid_silent.
Qed.

Lemma gpu_table_served_witness :
  Z.of_nat (length (filled_lines times_text)) < 2 ^ 31 - 1
  /\ (length <$> table_of times_text) = Some 4%nat
  /\ exists t, LoadFromString times_text new_AvailableGpuTiming = (true, t).
Proof.
  assert (Z.of_nat (length (filled_lines times_text)) < 2 ^ 31 - 1) as H by (vm_compute; reflexivity).
  split; [exact H|]. split; [vm_compute; reflexivity|].
  pose proof (gpu_table_served times_text H) as Hs.
  destruct (table_of times_text) eqn:E; [|vm_compute in E; discriminate].
  destruct Hs as (t & Ht & _). exists t. exact Ht.
Defined.

(** ** From the replay to the table *)

Abbreviation Reported := (ObjectType * Stats)%type.

Fixpoint reported_renderpasses (m : FrameMetrics) (n index : nat) : list Reported :=
  match n with
  | O => []
  | S n => (kRenderPass, GetFrameRenderPassTimeStats index m) :: reported_renderpasses m n (S index)
  end.

Fixpoint reported_cmds (m : FrameMetrics) (n i rp : nat) : list Reported :=
  match n with
  | O => []
  | S n =>
      let count := Z.to_nat (GetCmdRenderPassCount i m) in
      ((kCommandBuffer, GetFrameCmdTimeStats i m) :: reported_renderpasses m count rp)
      ++ reported_cmds m n (S i) (rp + count)
  end.

(** What a report has: the frame, and its command buffers, each with its render
    passes behind it. *)
Definition reported (m : FrameMetrics) : list Reported :=
  (kFrame, GetFrameTimeStats m) :: reported_cmds m (GetFrameCmdCount m) 0 0.

Definition count_of (ty : ObjectType) (l : list Reported) : nat :=
  length (filter (fun x => fst x = ty) l).

Lemma count_of_app ty l k : count_of ty (l ++ k) = (count_of ty l + count_of ty k)%nat.
Proof. unfold count_of. by rewrite filter_app, length_app. Qed.

(** The number and the line of an item that has [before] in front. *)
Definition id_of (z : Z) (before : list Reported) (x : Reported) : Z :=
  if bool_decide (fst x = kFrame) then z else Z.of_nat (count_of (fst x) before).

Definition line_of (frame_index : Z) (before : list Reported) (x : Reported) : string :=
  GetObjectTypeString (fst x) +:+ ","
  +:+ pretty (id_of frame_index before x)
  +:+ "," +:+ show_fixed 3 (average (snd x)) +:+ "," +:+ show_fixed 3 (median (snd x)).

Fixpoint text_of (frame_index : Z) (before l : list Reported) : string :=
  match l with
  | [] => ""
  | x :: l => line_of frame_index before x +:+ newline +:+ text_of frame_index (before ++ [x]) l
  end.

Lemma text_of_app z b l k : text_of z b (l ++ k) = text_of z b l +:+ text_of z (b ++ l) k.
Proof.
  revert b. induction l as [|x l IH]; intros b; [by rewrite app_nil_r|].
  simpl. rewrite IH, <- app_assoc, !string_app_assoc. done.
Qed.

Lemma csv_line_of z b ty stats : ty <> kFrame ->
  csv_line (GetObjectTypeString ty) (Z.of_nat (count_of ty b)) stats = line_of z b (ty, stats) +:+ newline.
Proof.
  intros Hty. unfold csv_line, line_of, id_of. cbn [fst snd]. rewrite bool_decide_false by done.
  by rewrite !string_app_assoc.
Qed.

Lemma renderpasses_text z m n index b : count_of kRenderPass b = index ->
  report_renderpasses (fun i => csv_line "RenderPass" (Z.of_nat i)) m n index
  = text_of z b (reported_renderpasses m n index).
Proof.
  revert index b. induction n as [|n IH]; intros index b Hb; [done|]. simpl.
  rewrite (IH (S index) (b ++ [(kRenderPass, GetFrameRenderPassTimeStats index m)]))
    by (rewrite count_of_app, Hb; unfold count_of; simpl; lia).
  subst index. rewrite (csv_line_of z b kRenderPass) by done. by rewrite string_app_assoc.
Qed.

Lemma count_renderpasses ty m n index :
  count_of ty (reported_renderpasses m n index) = if bool_decide (ty = kRenderPass) then n else O.
Proof.
  revert index. induction n as [|n IH]; intros index; simpl; [by destruct (bool_decide _)|].
  change (_ :: ?l) with ([(kRenderPass, GetFrameRenderPassTimeStats index m)] ++ l).
  rewrite count_of_app, IH. unfold count_of. destruct ty; done.
Qed.

Lemma cmds_text z m n i rp b : count_of kCommandBuffer b = i -> count_of kRenderPass b = rp ->
  report_cmds (fun i => csv_line "CommandBuffer" (Z.of_nat i))
    (fun i => csv_line "RenderPass" (Z.of_nat i)) m n i rp
  = text_of z b (reported_cmds m n i rp).
Proof.
  revert i rp b. induction n as [|n IH]; intros i rp b Hi Hrp; [done|]. cbn [report_cmds reported_cmds].
  set (count := Z.to_nat _). rewrite text_of_app. simpl text_of at 1.
  rewrite (renderpasses_text z m count rp (b ++ [(kCommandBuffer, GetFrameCmdTimeStats i m)]))
    by (rewrite count_of_app, Hrp; unfold count_of; simpl; lia).
  rewrite <- (IH (S i) (rp + count)%nat (b ++ _ :: _)).
  - subst i. rewrite (csv_line_of z b kCommandBuffer) by done. by rewrite !string_app_assoc.
  - change (?x :: ?l) with ([x] ++ l). rewrite !count_of_app, count_renderpasses, Hi.
    unfold count_of. simpl. lia.
  - change (?x :: ?l) with ([x] ++ l). rewrite !count_of_app, count_renderpasses, Hrp.
    unfold count_of. simpl. lia.
Qed.

Lemma report_text m z : GetStatsCSVString m z = text_of z [] (reported m).
Proof.
  unfold GetStatsCSVString, reported. cbn [text_of].
  rewrite (cmds_text z m _ 0 0 ([] ++ [(kFrame, GetFrameTimeStats m)])) by done.
  unfold csv_line, line_of, id_of. cbn [fst snd]. rewrite bool_decide_true by done.
  by rewrite !string_app_assoc.
Qed.

(** ** Reading a reported line *)

Lemma free_of_app d s t : free_of d (s +:+ t) = free_of d s && free_of d t.
Proof. apply all_chars_app. Qed.

Lemma free_of_fixed d s : ~ (char_code d = 46 \/ 48 <= char_code d <= 57) ->
  all_chars is_fixed_char s = true -> free_of d s = true.
Proof.
  intros Hd. apply all_chars_impl. intros c Hc%fixed_char_code.
  apply negb_true_iff, bool_decide_eq_false. by intros ->.
Qed.

Lemma pretty_digits z : 0 <= z -> all_chars is_digit (pretty z) = true.
Proof. intros Hz. rewrite pretty_Z_N by done. apply pretty_N_digits. Qed.

Lemma pretty_fixed z : 0 <= z -> all_chars is_fixed_char (pretty z) = true.
Proof.
  intros Hz. eapply all_chars_impl; [|by apply pretty_digits]. intros c Hc. unfold is_fixed_char.
  by rewrite Hc.
Qed.

Lemma pretty_no_point z : 0 <= z -> has_point (pretty z) = false.
Proof.
  intros Hz. unfold has_point. apply negb_false_iff.
  eapply all_chars_impl; [|by apply pretty_digits]. intros c Hc%digit_code.
  apply negb_true_iff, bool_decide_eq_false. intros ->. vm_compute in Hc. by destruct Hc.
Qed.

Lemma fixed_has_point n : has_point (fixed_text n) = true.
Proof.
  unfold has_point, fixed_text. rewrite !all_chars_app. apply negb_true_iff, andb_false_iff. by right.
Qed.

(** A duration that the table can show as it was reported: up to 16 seconds. *)
Definition shown_time (d : double) : Prop := within 16383 d.

Lemma shown_text d : shown_time d ->
  show_fixed 3 d = fixed_text (thousandths d) /\ 0 <= thousandths d <= 16383000.
Proof.
  intros Hd. split; [by apply (show_fixed_text 16383)|].
  apply (within_thousandths 16383) in Hd. lia.
Qed.

Lemma shown_read d : shown_time d ->
  exists f, stof (show_fixed 3 d) = inl f /\ show_fixed 3 f = show_fixed 3 d.
Proof. intros [-> Hn]%shown_text. by apply thousandths_read. Qed.

Lemma shown_chars d : shown_time d ->
  all_chars is_fixed_char (show_fixed 3 d) = true /\ has_point (show_fixed 3 d) = true.
Proof.
  intros [-> Hn]%shown_text. split; [apply fixed_text_chars; lia|apply fixed_has_point].
Qed.

(** The fields of a line of four. *)
Lemma four_fields a b c d :
  free_of "," a = true -> free_of "," b = true -> free_of "," c = true -> free_of "," d = true ->
  d <> ""%string ->
  getlines "," (a +:+ "," +:+ b +:+ "," +:+ c +:+ "," +:+ d) = [a; b; c; d].
Proof.
  intros Ha Hb Hc Hd Hne. rewrite !string_app_cons, !string_app_nil_l.
  by rewrite !getlines_line, getlines_last by done.
Qed.

Lemma type_read ty : ty <> nObjectTypes ->
  GetObjectType (GetObjectTypeString ty) = ty /\ free_of "," (GetObjectTypeString ty) = true
  /\ free_of line_feed (GetObjectTypeString ty) = true.
Proof. by destruct ty. Qed.

(** The row that reading an item gives. *)
Definition same_row (x : Reported) (row : Row) : Prop :=
  fst row = fst x /\ show_fixed 3 (mean_ms (snd row)) = show_fixed 3 (average (snd x))
  /\ show_fixed 3 (median_ms (snd row)) = show_fixed 3 (median (snd x)).

Definition item_ok (x : Reported) : Prop :=
  fst x <> nObjectTypes /\ shown_time (average (snd x)) /\ shown_time (median (snd x)).

Lemma read_line z b x : item_ok x -> 0 <= id_of z b x < 2 ^ 31 ->
  exists stats, read_row (line_of z b x) = Some (fst x, id_of z b x, stats) /\ same_row x (fst x, stats).
Proof.
  destruct x as [ty st]. intros (Hty & Ha & Hm) Hid. cbn [fst snd] in *.
  rewrite read_row_code. unfold line_of. cbn [fst snd].
  destruct (type_read ty Hty) as (Ht & Hc & _).
  destruct (shown_chars _ Ha) as [Hac Hap], (shown_chars _ Hm) as [Hmc Hmp].
  assert (~ (char_code ","%char = 46 \/ 48 <= char_code ","%char <= 57)) as Hcomma
    by (vm_compute; intuition congruence).
  rewrite four_fields.
  - destruct (shown_read _ Ha) as (f & Ef & Sf), (shown_read _ Hm) as (g & Eg & Sg).
    unfold row_numbers. rewrite stoi_pretty, Ef, Eg by done. cbn [mbind option_bind].
    rewrite pretty_no_point, Hap, Hmp, Ht by lia. rewrite bool_decide_false by done.
    cbn [negb andb]. rewrite wrap_small by (unfold in_width; lia). by eexists.
  - done.
  - apply free_of_fixed; [done|]. apply pretty_fixed. lia.
  - by apply free_of_fixed.
  - by apply free_of_fixed.
  - intros E. by rewrite E in Hmp.
Qed.

Lemma line_feed_free z b x : item_ok x -> 0 <= id_of z b x -> free_of line_feed (line_of z b x) = true.
Proof.
  destruct x as [ty st]. intros (Hty & Ha & Hm) Hid. cbn [fst snd] in *.
  unfold line_of. cbn [fst snd].
  destruct (type_read ty Hty) as (_ & _ & Hc).
  assert (~ (char_code line_feed = 46 \/ 48 <= char_code line_feed <= 57)) as Hlf
    by (vm_compute; intuition congruence).
  rewrite !free_of_app, Hc, (free_of_fixed line_feed (pretty _) Hlf) by by apply pretty_fixed.
  destruct (shown_chars _ Ha) as [Hac _], (shown_chars _ Hm) as [Hmc _].
  by rewrite (free_of_fixed _ _ Hlf Hac), (free_of_fixed _ _ Hlf Hmc).
Qed.

Lemma line_of_filled z b x : fst x <> nObjectTypes -> line_of z b x <> ""%string.
Proof. by destruct x as [[] st]. Qed.

Fixpoint lines_of (z : Z) (b l : list Reported) : list string :=
  match l with [] => [] | x :: l => line_of z b x :: lines_of z (b ++ [x]) l end.

(** Numbers of items fit when there are few of them and the frame's does. *)
Lemma id_of_range z b x n : 0 <= z < 2 ^ 31 -> (length b < n)%nat -> Z.of_nat n <= 2 ^ 31 ->
  0 <= id_of z b x < 2 ^ 31.
Proof.
  intros Hz Hb Hn. unfold id_of. case_bool_decide; [done|].
  pose proof (length_filter (fun y => fst y = fst x) b) as Hf. unfold count_of.
  assert (length (filter (fun y => fst y = fst x) b) <= length b)%nat by exact Hf. lia.
Qed.

(** ** The whole text *)

Lemma text_lines z l b n :
  Forall item_ok l -> 0 <= z < 2 ^ 31 -> (length b + length l <= n)%nat -> Z.of_nat n <= 2 ^ 31 ->
  getlines line_feed (text_of z b l) = lines_of z b l.
Proof.
  intros Hl Hz. revert b. induction l as [|x l IH]; intros b Hn Hsmall; [done|].
  apply Forall_cons in Hl as [Hx Hl]. cbn [text_of lines_of].
  change (newline +:+ ?s) with (String line_feed s). simpl in Hn. rewrite getlines_line.
  - f_equal. apply IH; [done| |done]. rewrite length_app. simpl. lia.
  - apply line_feed_free; [done|]. apply (id_of_range z b x n); [done|lia..].
Qed.

Lemma lines_of_filled z b l : Forall item_ok l ->
  filter (fun line => line <> ""%string) (lines_of z b l) = lines_of z b l.
Proof.
  intros Hl. revert b. induction Hl as [|x l [Hx _] _ IH]; intros b; [done|]. cbn [lines_of].
  rewrite filter_cons_True by by apply line_of_filled. by rewrite IH.
Qed.

Lemma same_rows_count ty l rows : Forall2 same_row l rows -> length (stats_in ty rows) = count_of ty l.
Proof.
  induction 1 as [|x row l rows (Hfst & _) _ IH]; [done|].
  unfold stats_in, count_of in *. cbn [omap list_omap]. rewrite filter_cons, Hfst.
  destruct (decide (fst x = ty)) as [E|E].
  - rewrite bool_decide_true by done. simpl. by rewrite IH.
  - rewrite bool_decide_false by done. exact IH.
Qed.

Lemma rows_numbered z l b rows n :
  Forall item_ok l -> 0 <= z < 2 ^ 31 -> (length b + length l <= n)%nat -> Z.of_nat n <= 2 ^ 31 ->
  (count_of kFrame (b ++ l) <= 1)%nat -> Forall2 same_row b rows ->
  exists rows', number_rows (lines_of z b l) rows = Some rows' /\ Forall2 same_row (b ++ l) rows'.
Proof.
  intros Hl Hz. revert b rows. induction l as [|x l IH]; intros b rows Hn Hsmall Hframes Hb.
  { exists rows. by rewrite app_nil_r. }
  apply Forall_cons in Hl as [Hx Hl]. cbn [lines_of number_rows]. simpl in Hn.
  destruct (read_line z b x Hx) as (stats & -> & Hrow).
  { apply (id_of_range z b x n); [done|lia..]. }
  cbn [mbind option_bind].
  assert (Z.of_nat (length (stats_in (fst x) rows)) = next_id (fst x) (id_of z b x)) as ->.
  { rewrite (same_rows_count _ b) by done. unfold next_id, id_of. case_bool_decide as E; [|done].
    rewrite count_of_app in Hframes. rewrite E. unfold count_of in Hframes at 2.
    rewrite filter_cons_True in Hframes by done. simpl in Hframes. lia. }
  rewrite Z.eqb_refl. destruct (IH Hl (b ++ [x]) (rows ++ [(fst x, stats)])) as (rows' & E & Hrows).
  - rewrite length_app. simpl. lia.
  - done.
  - by rewrite <- app_assoc.
  - apply Forall2_app; [done|]. by constructor.
  - rewrite <- app_assoc in Hrows. eauto.
Qed.

Lemma count_frames m : count_of kFrame (reported m) = 1%nat.
Proof.
  unfold reported. change (?x :: ?l) with ([x] ++ l). rewrite count_of_app.
  enough (forall n i rp, count_of kFrame (reported_cmds m n i rp) = 0%nat) as -> by done.
  induction n as [|n IH]; intros i rp; [done|]. cbn [reported_cmds].
  change (?x :: ?l) with ([x] ++ l). by rewrite !count_of_app, count_renderpasses, IH.
Qed.

Lemma report_loaded m z :
  0 <= z < 2 ^ 31 -> Forall item_ok (reported m) -> Z.of_nat (length (reported m)) < 2 ^ 31 - 2 ->
  Z.of_nat (length (filled_lines (GetGPUTimeStatsCSVStr m z))) < 2 ^ 31 - 1
  /\ exists rows, table_of (GetGPUTimeStatsCSVStr m z) = Some rows /\ Forall2 same_row (reported m) rows.
Proof.
  intros Hz Hok Hlen. unfold GetGPUTimeStatsCSVStr. rewrite report_text.
  assert (filled_lines (csv_header +:+ text_of z [] (reported m))
          = "Type,Id,Mean [ms],Median [ms]"%string :: lines_of z [] (reported m)) as E.
  { unfold filled_lines, csv_header. rewrite string_app_assoc.
    change (newline +:+ ?s) with (String line_feed s). rewrite getlines_line by done.
    rewrite (text_lines z _ [] (length (reported m))) by (done || lia).
    rewrite filter_cons_True by done. by rewrite lines_of_filled. }
  unfold table_of. rewrite E. split.
  - enough (forall b l, length (lines_of z b l) = length l) as Hlines by (cbn [length]; rewrite Hlines; lia).
    intros b l. revert b. induction l as [|x l IH]; intros b; simpl; by rewrite ?IH.
  - rewrite bool_decide_true by done.
    destruct (rows_numbered z (reported m) [] [] (length (reported m))) as (rows & Er & Hr);
      [done|done|simpl; lia|lia|by rewrite app_nil_l, count_frames|done|]. eauto.
Qed.

(** C22: what the replay measures is what the table shows. The text that the replay
    consumer makes of its metrics (the header line and [GetStatsCSVString]) is loaded
    whenever the frame index fits an [int] and every reported time is between 0 and
    16383 ms: the table has one row for each reported item, in the order of the report,
    and the cells of a row are the item's type, its number among the items of that type,
    and its average and median exactly as the report printed them, although they went
    through text and binary32. *)
Theorem gpu_times_shown (m : FrameMetrics) (m_frame_index : Z) :
  0 <= m_frame_index < 2 ^ 31 -> Forall item_ok (reported m) ->
  Z.of_nat (length (reported m)) < 2 ^ 31 - 2 ->
  exists t, LoadFromString (GetGPUTimeStatsCSVStr m m_frame_index) new_AvailableGpuTiming = (true, t)
    /\ GetRows t = Z.of_nat (length (reported m))
    /\ forall r ty stats, reported m !! r = Some (ty, stats) ->
         (fun col => GetCell (Z.of_nat r) col t) <$> [0; 1; 2; 3]
         = [GetObjectTypeString ty; pretty (Z.of_nat (count_of ty (take r (reported m))));
            show_fixed 3 (average stats); show_fixed 3 (median stats)].
Proof.
  intros Hz Hok Hlen. destruct (report_loaded m m_frame_index Hz Hok Hlen) as (Hlines & rows & E & Hrows).
  pose proof (loaded_table (GetGPUTimeStatsCSVStr m m_frame_index) ltac:(lia)) as H. rewrite E in H.
  destruct H as (t & Hload & Hs & Hv). pose proof (Forall2_length _ _ _ Hrows) as Hl.
  assert (Z.of_nat (length rows) < 2 ^ 31 - 1) as Hsmall by lia.
  exists t. split; [done|]. split; [rewrite Hl; by apply rows_shown|].
  intros r ty stats Hr. destruct (Forall2_lookup_l _ _ _ _ _ Hrows Hr) as ([ty' st] & Hr' & Hsame).
  destruct Hsame as (Hty & Ha & Hm). cbn [fst snd] in *. subst ty'.
  rewrite (cells_shown rows t Hs Hv Hsmall r ty st Hr'), Ha, Hm.
  rewrite (same_rows_count ty (take r (reported m))); [done|]. by apply Forall2_take.
Qed.

(** A frame with two command buffers, the first with one render pass. *)
Definition some_metrics : FrameMetrics :=
  default new_FrameMetrics
    (AddFrameData (d_div (d_of_Z 345) (d_of_Z 1000))
       [d_div (d_of_Z 12) (d_of_Z 100); d_of_Z 12345] [d_div (d_of_Z 1) (d_of_Z 3)] [1; 0]
       new_FrameMetrics).

Lemma gpu_times_shown_witness :
  exists t, LoadFromString (GetGPUTimeStatsCSVStr some_metrics 300) new_AvailableGpuTiming = (true, t)
    /\ GetRows t = 4
    /\ (fun col => GetCell 2 col t) <$> [0; 1; 2; 3] = ["RenderPass"; "0"; "0.333"; "0.333"]%string.
Proof.
  destruct (gpu_times_shown some_metrics 300) as (t & Ht & Hrows & Hcells).
  - split; [apply Z.leb_le; vm_compute; reflexivity|apply Z.ltb_lt; vm_compute; reflexivity].
  - assert (forallb (fun x => negb (bool_decide (fst x = nObjectTypes))
              && bool_decide (within 16383 (average (snd x))) && bool_decide (within 16383 (median (snd x))))
              (reported some_metrics) = true) as H by (vm_compute; reflexivity).
    apply Forall_forall. intros x Hx. rewrite forallb_forall in H.
    specialize (H x (proj1 (list_elem_of_In _ _) Hx)).
    apply andb_true_iff in H as [[H1 H2]%andb_true_iff H3].
    split; [|split]; [|by apply bool_decide_eq_true in H2|by apply bool_decide_eq_true in H3].
    apply negb_true_iff, bool_decide_eq_false in H1. exact H1.
  - vm_compute. reflexivity.
  - exists t. split; [exact Ht|]. split; [rewrite Hrows; vm_compute; reflexivity|].
    assert (exists stats, reported some_metrics !! 2%nat = Some (kRenderPass, stats)
              /\ show_fixed 3 (average stats) = "0.333"%string
              /\ show_fixed 3 (median stats) = "0.333"%string) as (stats & Hr & Ha & Hm).
    { vm_compute. eexists. repeat split. }
    specialize (Hcells 2%nat kRenderPass stats Hr). rewrite Ha, Hm in Hcells. exact Hcells.
Defined.
