(* ===== verification/CsvText.v ===== *)
(** * CsvText: lines and fields of CSV files

    [GetTrimmedLine] and [GetTrimmedField] of [src/src/dive/utils/string_utils.cpp], with
    quoted fields that may span lines. A file is the lines that [std::getline] will give
    ([GpuTiming.getlines_loop]); a string stream is the text that is left. *)

From Stdlib Require Import Ascii.
From S2P Require Import Prelude Numbers GpuTiming.

(** ** GetTrimmedLine *)

(** Quotes that are not followed by another one, pairs being skipped. *)
Fixpoint unescaped_quotes (s : string) : nat :=
  match s with
  | EmptyString => 0
  | String c s' =>
      if bool_decide (c = quote) then
        match s' with
        | String c' s'' =>
            if bool_decide (c' = quote) then unescaped_quotes s'' else S (unescaped_quotes s')
        | EmptyString => 1
        end
      else unescaped_quotes s'
  end.

(** [line] has [quotes] quotes so far; with an odd number the next line is part of the
    record. The second scan starts where the first one ended, at the line feed. *)
Fixpoint complete_line (line : string) (quotes : nat) (lines : list string)
  : option (string * list string) :=
  if Nat.even quotes then Some (Trim line, lines)
  else
    match lines with
    | [] => None
    | next_line :: lines =>
        let chunk := String line_feed next_line in
        complete_line (line +:+ chunk) (quotes + unescaped_quotes chunk) lines
    end.

Definition GetTrimmedLine (file : list string) : option (string * list string) :=
  match file with
  | [] => None
  | line :: lines => complete_line line (unescaped_quotes line) lines
  end.

(** All lines of [while (GetTrimmedLine(...))]; [fuel] bounds the number of lines. *)
Fixpoint trimmed_lines (fuel : nat) (file : list string) : list string :=
  match fuel with
  | O => []
  | S fuel =>
      match GetTrimmedLine file with
      | None => []
      | Some (line, file) => line :: trimmed_lines fuel file
      end
  end.

(** ** GetTrimmedField *)

Fixpoint eat_space (s : string) : string :=
  match s with
  | String c s' => if isspace c && negb (bool_decide (c = line_feed)) then eat_space s' else s
  | EmptyString => EmptyString
  end.

(** The loop over the characters of a field: the field and what is left. *)
Fixpoint scan_field (delimiter : ascii) (in_quotes : bool) (s : string) : string * string :=
  match s with
  | EmptyString => (EmptyString, EmptyString)
  | String c s' =>
      if in_quotes then
        if bool_decide (c = quote) then
          match s' with
          | String c' s'' =>
              if bool_decide (c' = quote) then
                let '(field, r) := scan_field delimiter true s'' in (String quote field, r)
              else scan_field delimiter false s'
          | EmptyString => (EmptyString, EmptyString)
          end
        else let '(field, r) := scan_field delimiter true s' in (String c field, r)
      else if bool_decide (c = delimiter) then
        (EmptyString, if bool_decide (s' = EmptyString) then s else s')
      else let '(field, r) := scan_field delimiter false s' in (String c field, r)
  end.

Definition GetTrimmedField (delimiter : ascii) (s : string) : option (string * string) :=
  if bool_decide (s = String delimiter EmptyString) then Some (EmptyString, EmptyString)
  else
    match eat_space s with
    | EmptyString => None
    | String c s' as s =>
        let '(field, r) :=
          if bool_decide (c = quote) then scan_field delimiter true s'
          else scan_field delimiter false s in
        Some (Trim field, r)
    end.

(** All fields of [while (GetTrimmedField(...))]. *)
Fixpoint fields_fuel (fuel : nat) (delimiter : ascii) (s : string) : list string :=
  match fuel with
  | O => []
  | S fuel =>
      match GetTrimmedField delimiter s with
      | None => []
      | Some (field, s) => field :: fields_fuel fuel delimiter s
      end
  end.

(** Every field takes a character ([fields_loop]). *)
Definition get_fields (delimiter : ascii) (s : string) : list string :=
  fields_fuel (String.length s) delimiter s.

Definition get_lines (file : list string) : list string := trimmed_lines (length file) file.

(** The rows of a file. *)
Definition csv_rows (text : string) : list (list string) :=
  get_fields "," <$> get_lines (getlines line_feed text).

Example fields_read :
  get_fields "," "a, b ,c" = ["a"; "b"; "c"]%string
  /\ get_fields "," "a,,b," = ["a"; ""; "b"; ""]%string
  /\ get_fields "," "a,," = ["a"; ""]%string /\ get_fields "," "," = [""]%string.
Proof. vm_compute. repeat split. Qed.

(** ** The loops end *)

Lemma scan_field_length d q s :
  (String.length (snd (scan_field d q s)) <= String.length s)%nat
  /\ (s <> ""%string -> q = false -> s <> String d "" ->
      (String.length (snd (scan_field d q s)) < String.length s)%nat).
Proof.
  revert q. induction s as [s IH] using (induction_ltof1 _ String.length). unfold ltof in IH.
  intros q. destruct s as [|c s]; [done|]. cbn [scan_field].
  assert (forall q, (String.length (snd (scan_field d q s)) <= String.length s)%nat) as Hs
    by (intros q'; apply IH; simpl; lia).
  destruct q; [split; [|done]|].
  - case_bool_decide; [|specialize (Hs true); destruct (scan_field d true s); simpl in *; lia].
    destruct s as [|c' s']; [simpl; lia|]. case_bool_decide; [|specialize (Hs false); simpl in *; lia].
    assert (String.length (snd (scan_field d true s')) <= String.length s')%nat as Hs'
      by (apply IH; simpl; lia).
    destruct (scan_field d true s'). simpl in *. lia.
  - case_bool_decide as Hc.
    + subst c. cbn [snd]. case_bool_decide; [subst s; split; [done|congruence]|simpl; lia].
    + specialize (Hs false). destruct (scan_field d false s). simpl in *. lia.
Qed.

Lemma eat_space_length s : (String.length (eat_space s) <= String.length s)%nat.
Proof. induction s as [|c s IH]; simpl; [done|]. destruct (_ && _); simpl; lia. Qed.

Lemma eat_space_delimiter s : (String.length (eat_space s) = String.length s)%nat -> eat_space s = s.
Proof.
  destruct s as [|c s]; simpl; [done|]. destruct (_ && _); [|done].
  pose proof (eat_space_length s). lia.
Qed.

(** A field is never taken out of nothing. *)
Lemma field_shorter d s field r : d <> quote ->
  GetTrimmedField d s = Some (field, r) -> (String.length r < String.length s)%nat.
Proof.
  intros Hd. unfold GetTrimmedField. case_bool_decide as Hs; [intros [= <- <-]; subst s; simpl; lia|].
  pose proof (eat_space_length s) as Hle. pose proof (eat_space_delimiter s) as Heq.
  destruct (eat_space s) as [|c s'] eqn:E; [done|].
  case_bool_decide as Hc.
  - pose proof (proj1 (scan_field_length d true s')) as H. destruct (scan_field d true s').
    intros [= <- <-]. simpl in *. lia.
  - destruct (scan_field_length d false (String c s')) as [H1 H2].
    destruct (decide (String c s' = String d "")) as [Ed|Hne].
    + destruct (scan_field d false _) as [f r']. intros [= <- <-]. cbn [snd] in H1.
      destruct (decide (String.length (String c s') = String.length s)) as [El|]; [|lia].
      specialize (Heq El). congruence.
    + specialize (H2 ltac:(done) ltac:(done) Hne).
      destruct (scan_field d false _) as [f r']. intros [= <- <-]. cbn [snd] in H2. lia.
Qed.

Lemma fields_enough d n m s : d <> quote -> (String.length s <= n)%nat -> (String.length s <= m)%nat ->
  fields_fuel n d s = fields_fuel m d s.
Proof.
  intros Hd. revert m s. induction n as [|n IH]; intros m s Hn Hm.
  - destruct s; [|simpl in Hn; lia]. by destruct m.
  - destruct m as [|m]; [destruct s; [done|simpl in Hm; lia]|]. simpl.
    destruct (GetTrimmedField d s) as [[field r]|] eqn:E; [|done].
    apply field_shorter in E; [|done]. rewrite (IH m); [done|lia..].
Qed.

(** The fuel of [get_fields] is enough: it is the loop. *)
Lemma fields_loop (d : ascii) s : d <> quote ->
  get_fields d s
  = match GetTrimmedField d s with None => [] | Some (field, r) => field :: get_fields d r end.
Proof.
  intros Hd. unfold get_fields. destruct (GetTrimmedField d s) as [[field r]|] eqn:E.
  - pose proof (field_shorter d s field r Hd E) as Hlt. destruct (String.length s) as [|n]; [lia|].
    simpl. rewrite E. f_equal. apply fields_enough; [done|lia..].
  - destruct (String.length s); [done|]. simpl. by rewrite E.
Qed.

(** ** Writing CSV *)

(** Quotes doubled, all fields quoted. *)
Fixpoint escape (s : string) : string :=
  match s with
  | EmptyString => EmptyString
  | String c s =>
      if bool_decide (c = quote) then String quote (String quote (escape s)) else String c (escape s)
  end.

Definition quoted (field : string) : string := String quote (escape field +:+ String quote "").

Fixpoint row_text (fields : list string) : string :=
  match fields with
  | [] => ""
  | [field] => quoted field
  | field :: fields => quoted field +:+ String "," (row_text fields)
  end.

Fixpoint csv_text (rows : list (list string)) : string :=
  match rows with
  | [] => ""
  | fields :: rows => row_text fields +:+ String line_feed (csv_text rows)
  end.

(** ** Fields are read back *)

Lemma scan_escaped d field r : (forall r', r <> String quote r') ->
  scan_field d true (escape field +:+ String quote r)
  = (field +:+ fst (scan_field d false r), snd (scan_field d false r)).
Proof.
  intros Hr. induction field as [|c field IH].
  - cbn [escape]. rewrite string_app_nil_l. cbn [scan_field]. rewrite bool_decide_true by done.
    destruct r as [|c r]; [done|]. rewrite bool_decide_false by (intros ->; by apply (Hr r)).
    by rewrite string_app_nil_l, <- surjective_pairing.
  - cbn [escape]. case_bool_decide as Hc; rewrite !string_app_cons; cbn [scan_field].
    + rewrite !bool_decide_true, IH by done. subst c. done.
    + by rewrite bool_decide_false, IH by done.
Qed.

Lemma quoted_cons field r :
  quoted field +:+ r = String quote (escape field +:+ String quote r).
Proof. unfold quoted. by rewrite string_app_cons, string_app_assoc. Qed.

Lemma field_read d field r : d <> quote -> (forall r', r <> String quote r') ->
  fst (scan_field d false r) = ""%string ->
  GetTrimmedField d (quoted field +:+ r) = Some (Trim field, snd (scan_field d false r)).
Proof.
  intros Hd Hr Hf. rewrite quoted_cons. unfold GetTrimmedField.
  rewrite bool_decide_false by congruence. cbn [eat_space].
  change (isspace quote) with false. cbn [andb]. rewrite bool_decide_true by done.
  by rewrite scan_escaped, Hf, string_app_nil_r.
Qed.

Lemma row_text_ne fields : fields <> [] -> row_text fields <> ""%string.
Proof. by destruct fields as [|f [|? ?]]. Qed.

Lemma row_fields fields : get_fields "," (row_text fields) = Trim <$> fields.
Proof.
  induction fields as [|field fields IH]; [done|]. rewrite fields_loop by done.
  destruct fields as [|f fields].
  - cbn [row_text]. rewrite <- (string_app_nil_r (quoted field)), field_read by done. done.
  - change (row_text (field :: f :: fields))
      with (quoted field +:+ String "," (row_text (f :: fields))).
    rewrite field_read by done. cbn [scan_field]. rewrite bool_decide_true by done. cbn [snd].
    rewrite bool_decide_false by by apply row_text_ne. by rewrite IH.
Qed.

(** ** Lines are read back *)

(** Whether a text that starts inside or outside of quotes ends inside of them;
    [None] when it has a line feed outside of quotes. *)
Fixpoint quote_state (inside : bool) (s : string) : option bool :=
  match s with
  | EmptyString => Some inside
  | String c s =>
      if bool_decide (c = quote) then quote_state (negb inside) s
      else if bool_decide (c = line_feed) then if inside then quote_state inside s else None
      else quote_state inside s
  end.

Lemma quote_state_app b s t : quote_state b (s +:+ t) = (b' ← quote_state b s; quote_state b' t).
Proof.
  revert b. induction s as [|c s IH]; intros b; [done|]. rewrite string_app_cons. cbn [quote_state].
  repeat case_bool_decide; try apply IH. by destruct b.
Qed.

Lemma quote_state_escape field : quote_state true (escape field) = Some true.
Proof.
  induction field as [|c field IH]; [done|]. cbn [escape]. case_bool_decide; cbn [quote_state].
  - by rewrite !bool_decide_true by done.
  - rewrite bool_decide_false by done. by case_bool_decide.
Qed.

Lemma quote_state_quoted field : quote_state false (quoted field) = Some false.
Proof.
  unfold quoted. cbn [quote_state]. rewrite bool_decide_true by done.
  by rewrite quote_state_app, quote_state_escape.
Qed.

Lemma quote_state_row fields : quote_state false (row_text fields) = Some false.
Proof.
  induction fields as [|field fields IH]; [done|]. destruct fields as [|f fields].
  - apply quote_state_quoted.
  - change (row_text (field :: f :: fields))
      with (quoted field +:+ String "," (row_text (f :: fields))).
    by rewrite quote_state_app, quote_state_quoted.
Qed.

(** Counting in pairs finds the same parity. *)
Lemma quote_state_parity b b' s :
  quote_state b s = Some b' -> b' = xorb b (Nat.odd (unescaped_quotes s)).
Proof.
  revert b. induction s as [s IH] using (induction_ltof1 _ String.length). unfold ltof in IH.
  intros b. destruct s as [|c s]; [intros [= ->]; by rewrite xorb_false_r|].
  cbn [quote_state unescaped_quotes]. case_bool_decide as Hc.
  - destruct s as [|c' s']; [intros [= <-]; by destruct b|]. case_bool_decide as Hc'.
    + cbn [quote_state]. rewrite bool_decide_true, negb_involutive by done. apply IH. simpl. lia.
    + intros H. apply IH in H; [|simpl; lia]. rewrite H, Nat.odd_succ, <- Nat.negb_odd.
      by destruct b, (Nat.odd _).
  - case_bool_decide; [destruct b; [|done]|]; apply IH; simpl; lia.
Qed.

Lemma first_line s :
  free_of line_feed s = true
  \/ exists l r, s = l +:+ String line_feed r /\ free_of line_feed l = true
                 /\ (String.length r < String.length s)%nat.
Proof.
  induction s as [|c s IH]; [by left|]. destruct (decide (c = line_feed)) as [->|Hc].
  - right. exists ""%string, s. by split; [|split; [|simpl; lia]].
  - destruct IH as [H|(l & r & -> & Hl & Hlen)].
    + left. unfold free_of in *. simpl. by rewrite bool_decide_false.
    + right. exists (String c l), r. split; [done|]. split; [|simpl in *; lia].
      unfold free_of in *. simpl. by rewrite bool_decide_false.
Qed.

Lemma odd_add_xorb n m : Nat.odd (n + m) = xorb (Nat.odd n) (Nat.odd m).
Proof. apply Nat.odd_add. Qed.

Lemma complete_done line q lines : Nat.odd q = false -> complete_line line q lines = Some (Trim line, lines).
Proof.
  intros Hq. rewrite <- Nat.negb_even in Hq. apply negb_false_iff in Hq.
  by destruct lines; cbn [complete_line]; rewrite Hq.
Qed.

Lemma complete_more line q next lines : Nat.odd q = true ->
  complete_line line q (next :: lines)
  = complete_line (line +:+ String line_feed next) (q + unescaped_quotes (String line_feed next)) lines.
Proof.
  intros Hq. rewrite <- Nat.negb_even in Hq. apply negb_true_iff in Hq. cbn [complete_line]. by rewrite Hq.
Qed.

(** A record with line feeds inside of quotes only is one line. *)
Lemma record_completed record : forall front q rest,
  quote_state (Nat.odd q) record = Some false ->
  exists line lines, getlines line_feed (record +:+ String line_feed rest) = line :: lines
    /\ complete_line (front +:+ line) (q + unescaped_quotes line) lines
       = Some (Trim (front +:+ record), getlines line_feed rest).
Proof.
  induction record as [record IH] using (induction_ltof1 _ String.length). unfold ltof in IH.
  intros front q rest Hq. destruct (first_line record) as [Hfree|(l & r & -> & Hl & Hlen)].
  - exists record, (getlines line_feed rest). rewrite getlines_line by done. split; [done|].
    apply complete_done. rewrite odd_add_xorb. by apply quote_state_parity in Hq.
  - rewrite quote_state_app in Hq. destruct (quote_state _ l) as [b|] eqn:El; [|done].
    apply quote_state_parity in El. simpl in Hq. destruct b; [|done].
    destruct (IH r Hlen (front +:+ l +:+ String line_feed "") (q + unescaped_quotes l)%nat rest)
      as (line & lines & E & Hc); [by rewrite odd_add_xorb, <- El|].
    rewrite string_app_assoc, string_app_cons, getlines_line by done. eexists _, _. split; [done|].
    rewrite E, complete_more by by rewrite odd_add_xorb, <- El.
    rewrite !string_app_assoc, !string_app_cons, !string_app_nil_l in *. exact Hc.
Qed.

Lemma complete_line_length lines line q line' lines' :
  complete_line line q lines = Some (line', lines') -> (length lines' <= length lines)%nat.
Proof.
  revert line q. induction lines as [|next lines IH]; intros line q; cbn [complete_line];
    destruct (Nat.even q); intros H; simplify_eq; try done. apply IH in H. simpl. lia.
Qed.

Lemma trimmed_enough n m file : (length file <= n)%nat -> (length file <= m)%nat ->
  trimmed_lines n file = trimmed_lines m file.
Proof.
  revert m file. induction n as [|n IH]; intros m file Hn Hm.
  - destruct file; [|simpl in Hn; lia]. by destruct m.
  - destruct m as [|m]; [destruct file; [done|simpl in Hm; lia]|]. simpl.
    destruct file as [|l file]; [done|]. simpl in *.
    destruct (complete_line l _ file) as [[line file']|] eqn:E; [|done].
    apply complete_line_length in E. rewrite (IH m); [done|lia..].
Qed.

(** The fuel of [get_lines] is enough. *)
Lemma lines_loop file :
  get_lines file = match GetTrimmedLine file with None => [] | Some (line, file) => line :: get_lines file end.
Proof.
  unfold get_lines. destruct file as [|l file]; [done|]. simpl.
  destruct (complete_line l _ file) as [[line file']|] eqn:E; [|done].
  apply complete_line_length in E. f_equal. apply trimmed_enough; lia.
Qed.

Lemma trim_right_last s c : isspace c = false -> trim_right (s +:+ String c "") = s +:+ String c "".
Proof.
  intros Hc. induction s as [|c' s IH].
  - rewrite string_app_nil_l. simpl. by rewrite Hc.
  - rewrite string_app_cons. cbn [trim_right]. rewrite IH.
    rewrite (bool_decide_false (_ = ""%string)) by by destruct s. by rewrite andb_false_r.
Qed.

Lemma row_text_ends fields : fields <> [] -> exists s, row_text fields = s +:+ String quote "".
Proof.
  induction fields as [|field fields IH]; [done|]. intros _. destruct fields as [|f fields].
  - by exists (String quote (escape field)).
  - destruct IH as [s Es]; [done|]. exists (quoted field +:+ String "," s).
    change (row_text (field :: f :: fields)) with (quoted field +:+ String "," (row_text (f :: fields))).
    by rewrite Es, string_app_assoc.
Qed.

Lemma Trim_row fields : Trim (row_text fields) = row_text fields.
Proof.
  destruct (decide (fields = [])) as [->|Hne]; [done|]. unfold Trim.
  destruct (row_text_ends fields Hne) as [s Es]. rewrite Es, trim_right_last, <- Es by done.
  by destruct fields as [|f [|? ?]].
Qed.

(** What is read of the written rows: each field trimmed. *)
Lemma csv_read (rows : list (list string)) :
  csv_rows (csv_text rows) = map (map Trim) rows.
Proof.
  unfold csv_rows. induction rows as [|fields rows IH]; [done|]. cbn [csv_text].
  destruct (record_completed (row_text fields) "" 0 (csv_text rows)) as (line & lines & E & Hc);
    [apply quote_state_row|].
  rewrite E, lines_loop. cbn [GetTrimmedLine]. rewrite !string_app_nil_l in Hc.
  rewrite Nat.add_0_l in Hc. rewrite Hc. cbn [fmap list_fmap map].
  rewrite Trim_row, row_fields. f_equal. exact IH.
Qed.

Definition awkward_rows : list (list string) :=
  [["a"; "b,c"]; [String quote "x"; ""]; [String line_feed " "; "l1" +:+ String line_feed "l2"]; []]%string.

Example awkward_read :
  csv_rows (csv_text awkward_rows)
  = [["a"; "b,c"]; [String quote "x"; ""]; [""; "l1" +:+ String line_feed "l2"]; []]%string.
Proof. vm_compute. reflexivity. Qed.
