(* ===== verification/PerfData.v ===== *)
(** * PerfData: metric descriptions and counter records

    [AvailableMetrics] of [src/dive_core/available_metrics.{h,cpp}] and [PerfMetricsData]
    of [src/dive_core/perf_metrics_data.{h,cpp}]: both are loaded from CSV files
    ([CsvText]); rows that are malformed are skipped. A file is its contents, [None] when
    it cannot be opened; pointers to descriptions are the descriptions. *)

From Stdlib Require Import SpecFloat Ascii Sorted.
From S2P Require Import Prelude FrameMetrics Numbers GpuTiming CsvText.

#[local] Open Scope Z_scope.

(** ** Metric descriptions *)

(** A [MetricType] is a [uint8_t]. *)
Definition kUnknownMetric : Z := 0.
Definition kCount : Z := 1.
Definition kPercent : Z := 2.

Record MetricInfo := mkMetricInfo {
  m_metric_id : Z;
  m_metric_type : Z;
  m_key : string;
  m_metric_name : string;
  m_metric_description : string
}.

(** [std::map<std::string, MetricInfo>]: in the order of its keys. *)
Abbreviation AvailableMetrics := (list (string * MetricInfo)) (only parsing).

(** [std::map::emplace]: an existing entry stays. *)
Fixpoint emplace_metric (key : string) (info : MetricInfo) (m : AvailableMetrics) : AvailableMetrics :=
  match m with
  | [] => [(key, info)]
  | (k, i) :: m' =>
      match String.compare key k with
      | Lt => (key, info) :: m
      | Eq => m
      | Gt => (k, i) :: emplace_metric key info m'
      end
  end.

Fixpoint GetMetricInfo (key : string) (m : AvailableMetrics) : option MetricInfo :=
  match m with
  | [] => None
  | (k, i) :: m => if bool_decide (key = k) then Some i else GetMetricInfo key m
  end.

Definition GetMetricType (key : string) (m : AvailableMetrics) : Z :=
  match GetMetricInfo key m with Some info => m_metric_type info | None => kUnknownMetric end.

Definition GetAllMetricKeys (m : AvailableMetrics) : list string := fst <$> m.

Definition kExpectedHeaders : list string :=
  ["MetricID"; "MetricType"; "Key"; "Name"; "Description"]%string.

(** The columns that both lists have. *)
Fixpoint columns_match (expected fields : list string) : bool :=
  match expected, fields with
  | e :: expected, f :: fields => bool_decide (f = e) && columns_match expected fields
  | _, _ => true
  end.

(** The first line, if it is there and not empty. *)
Definition header_line (file : list string) : option (string * list string) :=
  '(line, file) ← GetTrimmedLine file;
  if bool_decide (line = EmptyString) then None else Some (line, file).

(** One row: [None] when it is skipped. *)
Definition read_metric (fields : list string) : option MetricInfo :=
  match fields with
  | [field0; field1; key; name; description] =>
      id ← SafeConvertUnsigned 32 field0;
      metric_type_val ← SafeConvertUnsigned 32 field1;
      Some (mkMetricInfo id (wrap 8 metric_type_val) key name description)
  | _ => None
  end.

Definition add_metric (m : AvailableMetrics) (fields : list string) : AvailableMetrics :=
  match read_metric fields with
  | Some info => emplace_metric (m_key info) info m
  | None => m
  end.

Definition AvailableMetrics_LoadFromCsv (contents : option string) : option AvailableMetrics :=
  contents ← contents;
  '(line, file) ← header_line (getlines line_feed contents);
  let header := get_fields "," line in
  if columns_match kExpectedHeaders header && (length header =? length kExpectedHeaders)%nat
  then Some (fold_left add_metric (get_fields "," <$> get_lines file) [])
  else None.

(** ** Records *)

Record PerfMetricsRecord := mkRecord {
  m_context_id : Z;
  m_process_id : Z;
  m_frame_id : Z;
  m_cmd_buffer_id : Z;
  m_draw_id : Z;
  m_draw_label : Z;
  m_program_id : Z;
  m_draw_type : Z;
  m_lrz_state : Z;
  m_metric_values : list double
}.

Definition new_PerfMetricsRecord : PerfMetricsRecord := mkRecord 0 0 0 0 0 0 0 0 0 [].

Definition set_metric_values v (r : PerfMetricsRecord) : PerfMetricsRecord :=
  mkRecord (m_context_id r) (m_process_id r) (m_frame_id r) (m_cmd_buffer_id r) (m_draw_id r)
    (m_draw_label r) (m_program_id r) (m_draw_type r) (m_lrz_state r) v.

Definition set_frame_id z (r : PerfMetricsRecord) : PerfMetricsRecord :=
  mkRecord (m_context_id r) (m_process_id r) z (m_cmd_buffer_id r) (m_draw_id r)
    (m_draw_label r) (m_program_id r) (m_draw_type r) (m_lrz_state r) (m_metric_values r).

Definition kFixedHeaders : list string :=
  ["ContextID"; "ProcessID"; "FrameID"; "CmdBufferID"; "DrawID"; "DrawType"; "DrawLabel";
   "ProgramID"; "LRZState"]%string.

Definition kFixedPerfMetricsDataHeaderCount : nat := 9.

Record PerfMetricsData := mkPerfData {
  m_metric_names : list string;
  m_metric_infos : list (option MetricInfo);
  m_records : list PerfMetricsRecord
}.

(** The names behind the fixed columns, with their descriptions. *)
Definition ParseHeaders (line : string) (available_metrics : AvailableMetrics)
  : option (list string * list (option MetricInfo)) :=
  let fields := get_fields "," line in
  if columns_match kFixedHeaders fields && (kFixedPerfMetricsDataHeaderCount <=? length fields)%nat then
    let names := drop kFixedPerfMetricsDataHeaderCount fields in
    Some (names, (fun name => GetMetricInfo name available_metrics) <$> names)
  else None.

Definition ParseRecordFixedFields (fields : list string) : option PerfMetricsRecord :=
  match fields with
  | f0 :: f1 :: f2 :: f3 :: f4 :: f5 :: f6 :: f7 :: f8 :: _ =>
      context_id ← SafeConvertUnsigned 64 f0;
      process_id ← SafeConvertUnsigned 64 f1;
      frame_id ← SafeConvertUnsigned 64 f2;
      cmd_buffer_id ← SafeConvertUnsigned 64 f3;
      draw_id ← SafeConvertUnsigned 32 f4;
      draw_type ← SafeConvertUnsigned 8 f5;
      draw_label ← SafeConvertUnsigned 32 f6;
      program_id ← SafeConvertUnsigned 64 f7;
      lrz_state ← SafeConvertUnsigned 8 f8;
      Some (mkRecord context_id process_id frame_id cmd_buffer_id draw_id draw_label program_id
              draw_type lrz_state [])
  | _ => None
  end.

(** The metrics' columns, from [fields] on; [values] are the ones before. *)
Fixpoint ParseMetrics (fields : list string) (infos : list (option MetricInfo)) (values : list double)
  : option (list double) :=
  match infos with
  | [] => Some values
  | info :: infos =>
      match info, fields with
      | Some _, field :: fields =>
          value ← SafeConvertDouble field;
          ParseMetrics fields infos (values ++ [value])
      | _, _ => None
      end
  end.

Definition read_record (infos : list (option MetricInfo)) (fields : list string)
  : option PerfMetricsRecord :=
  if (length fields =? kFixedPerfMetricsDataHeaderCount + length infos)%nat then
    record ← ParseRecordFixedFields fields;
    values ← ParseMetrics (drop kFixedPerfMetricsDataHeaderCount fields) infos [];
    Some (set_metric_values values record)
  else None.

(** Every metric has a description, with a type that is supported. *)
Definition metrics_supported (infos : list (option MetricInfo)) : bool :=
  forallb (fun info =>
    match info with
    | Some info => (m_metric_type info =? kCount) || (m_metric_type info =? kPercent)
    | None => false
    end) infos.

Definition PerfMetricsData_LoadFromCsv (contents : option string) (available_metrics : AvailableMetrics)
  : option PerfMetricsData :=
  contents ← contents;
  '(line, file) ← header_line (getlines line_feed contents);
  '(metric_names, metric_infos) ← ParseHeaders line available_metrics;
  if metrics_supported metric_infos then
    Some (mkPerfData metric_names metric_infos
            (omap (read_record metric_infos) (get_fields "," <$> get_lines file)))
  else None.

(** ** Descriptions by key *)

Lemma compare_refl s : String.compare s s = Eq.
Proof.
  induction s as [|c s IH]; [done|]. simpl. unfold Ascii.compare. by rewrite N.compare_refl.
Qed.

Lemma compare_eq s t : String.compare s t = Eq <-> s = t.
Proof. split; [apply String.compare_eq_iff|]. intros ->. apply compare_refl. Qed.

Lemma compare_trans s t u :
  String.compare s t = Lt -> String.compare t u = Lt -> String.compare s u = Lt.
Proof.
  revert t u. induction s as [|a s IH]; intros [|b t] [|c u]; simpl; try done.
  unfold Ascii.compare. set (x := N_of_ascii a). set (y := N_of_ascii b). set (z := N_of_ascii c).
  destruct (N.compare_spec x y), (N.compare_spec y z); try done; intros Hst Htu;
    destruct (N.compare_spec x z); try lia; eauto.
Qed.

(** The keys ascend, and every description is found under its own. *)
Definition keys_ascend (m : AvailableMetrics) : Prop :=
  StronglySorted (fun x y => String.compare (fst x) (fst y) = Lt) m
  /\ Forall (fun x => m_key (snd x) = fst x) m.

Lemma find_below key (m : AvailableMetrics) :
  Forall (fun x => String.compare key (fst x) = Lt) m -> GetMetricInfo key m = None.
Proof.
  induction 1 as [|[k i] m Hk _ IH]; [done|]. cbn [GetMetricInfo]. simpl in Hk.
  rewrite bool_decide_false; [done|]. intros ->. by rewrite compare_refl in Hk.
Qed.

Lemma emplace_forall (P : string * MetricInfo -> Prop) k info m :
  P (k, info) -> Forall P m -> Forall P (emplace_metric k info m).
Proof.
  intros Hk. induction 1 as [|[k' i'] m H Hm IH]; [by constructor|]. cbn [emplace_metric].
  destruct (String.compare k k'); by repeat constructor.
Qed.

Lemma emplace_ascend info m : keys_ascend m -> keys_ascend (emplace_metric (m_key info) info m).
Proof.
  intros [Hs Hk]. split; [|by apply emplace_forall]. clear Hk.
  induction Hs as [|[k' i'] m Hs IH Hall]; [by repeat constructor|]. cbn [emplace_metric].
  destruct (String.compare (m_key info) k') eqn:E.
  - by constructor.
  - constructor; [by constructor|]. constructor; [done|].
    eapply Forall_impl; [exact Hall|]. intros x Hx. by eapply compare_trans.
  - constructor; [done|]. apply emplace_forall; [|done]. simpl.
    rewrite String.compare_antisym, E. done.
Qed.

Lemma find_emplace key k info m : keys_ascend m ->
  GetMetricInfo key (emplace_metric k info m)
  = match GetMetricInfo key m with
    | Some i => Some i
    | None => if bool_decide (key = k) then Some info else None
    end.
Proof.
  intros [Hs _]. induction Hs as [|[k' i'] m Hs IH Hall]; [done|]. cbn [emplace_metric].
  destruct (String.compare k k') eqn:E; cbn [GetMetricInfo].
  - apply compare_eq in E as ->. case_bool_decide; [done|]. by destruct (GetMetricInfo key m).
  - case_bool_decide as Hk; [|by destruct (bool_decide _), (GetMetricInfo key m)].
    subst k. rewrite bool_decide_false by (intros ->; by rewrite compare_refl in E).
    rewrite find_below; [done|]. eapply Forall_impl; [exact Hall|].
    intros x Hx. by eapply compare_trans.
  - rewrite IH. by destruct (bool_decide (key = k')).
Qed.

(** The first row with the key. *)
Definition first_with (key : string) (infos : list MetricInfo) : option MetricInfo :=
  list_find (fun i => m_key i = key) infos ≫= fun x => Some (snd x).

Lemma first_with_cons key i infos :
  first_with key (i :: infos) = if bool_decide (key = m_key i) then Some i else first_with key infos.
Proof.
  unfold first_with. cbn [list_find]. case_decide as H.
  - by rewrite bool_decide_true.
  - rewrite bool_decide_false by done. by destruct (list_find _ infos) as [[n x]|].
Qed.

Lemma metrics_added rows m key : keys_ascend m ->
  keys_ascend (fold_left add_metric rows m)
  /\ GetMetricInfo key (fold_left add_metric rows m)
     = match GetMetricInfo key m with
       | Some i => Some i
       | None => first_with key (omap read_metric rows)
       end.
Proof.
  revert m. induction rows as [|fields rows IH]; intros m Hm.
  { split; [done|]. simpl. by destruct (GetMetricInfo key m). }
  cbn [fold_left omap list_omap]. unfold add_metric at 2 4. destruct (read_metric fields) as [info|].
  - destruct (IH (emplace_metric (m_key info) info m)) as [IH1 IH2]; [by apply emplace_ascend|].
    split; [done|]. rewrite IH2, find_emplace, first_with_cons by done.
    destruct (GetMetricInfo key m); [done|]. by destruct (bool_decide _).
  - by apply IH.
Qed.

(** ** The lines behind the header *)

Lemma header_read (header : list string) rows : header <> [] ->
  exists line file, header_line (getlines line_feed (csv_text (header :: rows))) = Some (line, file)
    /\ get_fields "," line = map Trim header /\ (get_fields "," <$> get_lines file) = map (map Trim) rows.
Proof.
  intros Hh. cbn [csv_text].
  destruct (record_completed (row_text header) "" 0 (csv_text rows)) as (line & lines & E & Hc);
    [apply quote_state_row|].
  rewrite !string_app_nil_l, Nat.add_0_l, Trim_row in Hc.
  exists (row_text header), (getlines line_feed (csv_text rows)). split.
  - unfold header_line. rewrite E. cbn [GetTrimmedLine]. rewrite Hc. cbn [mbind option_bind].
    by rewrite bool_decide_false by by apply row_text_ne.
  - split; [apply row_fields|]. exact (csv_read rows).
Qed.

(** Loading the descriptions of metrics keeps them in the order of their keys, each
    under its own key, and finds for every key the first row of the file that has it:
    rows with a wrong number of columns or numbers that do not convert are skipped, a
    repeated key changes nothing. *)
Theorem metrics_by_key (rows : list (list string)) :
  exists m, AvailableMetrics_LoadFromCsv (Some (csv_text (kExpectedHeaders :: rows))) = Some m
    /\ keys_ascend m
    /\ forall key, GetMetricInfo key m = first_with key (omap read_metric (map (map Trim) rows)).
Proof.
  destruct (header_read kExpectedHeaders rows) as (line & file & E & Hh & Hrows); [done|].
  unfold AvailableMetrics_LoadFromCsv. cbn [mbind option_bind]. rewrite E. cbn [mbind option_bind].
  rewrite Hh, Hrows. change (columns_match _ _ && _) with true. cbv iota. eexists. split; [done|].
  assert (keys_ascend []) as H0 by (split; constructor).
  split; [exact (proj1 (metrics_added _ [] ""%string H0))|].
  intros key. exact (proj2 (metrics_added _ [] key H0)).
Qed.

(** ** Records are read back *)

Lemma trim_left_id c s : isspace c = false -> trim_left (String c s) = String c s.
Proof. intros Hc. simpl. by rewrite Hc. Qed.

Lemma trim_right_id s : all_chars (fun c => negb (isspace c)) s = true -> trim_right s = s.
Proof.
  induction s as [|c s IH]; [done|]. simpl. rewrite andb_true_iff, negb_true_iff.
  intros [-> Hs]. cbn [andb]. by rewrite IH.
Qed.

Lemma Trim_digits s : all_chars is_digit s = true -> Trim s = s.
Proof.
  intros Hs. unfold Trim.
  rewrite trim_right_id by (eapply all_chars_impl; [|exact Hs]; intros c Hc; by rewrite digit_not_space).
  destruct s as [|c s]; [done|]. simpl in Hs. zbool. by apply trim_left_digit.
Qed.

Lemma Trim_pretty z : 0 <= z -> Trim (pretty z) = pretty z.
Proof. intros Hz. by apply Trim_digits, pretty_digits. Qed.

(** The description of a metric: the one with its name as the key. *)
Definition description_of (m : AvailableMetrics) (name : string) : option MetricInfo :=
  (list_to_map m : gmap string MetricInfo) !! name.

Lemma GetMetricInfo_description name m : GetMetricInfo name m = description_of m name.
Proof.
  unfold description_of. induction m as [|[k i] m IH]; [by rewrite list_to_map_nil, lookup_empty|].
  rewrite list_to_map_cons. cbn [GetMetricInfo]. rewrite IH.
  case_bool_decide as E; [by rewrite E, lookup_insert_eq|]. by rewrite lookup_insert_ne.
Qed.

(** The metric is described, as a count (1) or a percentage (2). *)
Definition usable (m : AvailableMetrics) (name : string) : Prop :=
  exists info, description_of m name = Some info /\ (m_metric_type info = 1 \/ m_metric_type info = 2).

#[export] Instance usable_dec m name : Decision (usable m name).
Proof.
  unfold usable. destruct (description_of m name) as [info|]; [|right; by intros (? & [=] & _)].
  destruct (decide (m_metric_type info = 1 \/ m_metric_type info = 2)) as [Ht|Ht]; [by left; exists info|].
  right. by intros (? & [= <-] & ?).
Defined.

Lemma metrics_supported_usable m names :
  metrics_supported ((fun name => GetMetricInfo name m) <$> names) = bool_decide (Forall (usable m) names).
Proof.
  apply eq_true_iff_eq. rewrite bool_decide_eq_true. induction names as [|name names IH]; [by split|].
  cbn [fmap list_fmap metrics_supported forallb]. fold (metrics_supported ((fun name => GetMetricInfo name m) <$> names)).
  rewrite andb_true_iff, IH, Forall_cons, GetMetricInfo_description. unfold usable at 2, kCount, kPercent.
  destruct (description_of m name) as [info|]; [|naive_solver].
  rewrite orb_true_iff, !Z.eqb_eq. naive_solver.
Qed.

(** The columns that every record has. *)
Definition fixed_columns : list string :=
  ["ContextID"; "ProcessID"; "FrameID"; "CmdBufferID"; "DrawID"; "DrawType"; "DrawLabel";
   "ProgramID"; "LRZState"]%string.

(** A row for a record, its metrics' columns being [texts]. *)
Definition record_fields (r : PerfMetricsRecord) (texts : list string) : list string :=
  [pretty (m_context_id r); pretty (m_process_id r); pretty (m_frame_id r); pretty (m_cmd_buffer_id r);
   pretty (m_draw_id r); pretty (m_draw_type r); pretty (m_draw_label r); pretty (m_program_id r);
   pretty (m_lrz_state r)] ++ texts.

Definition record_fits (r : PerfMetricsRecord) : Prop :=
  in_width 64 (m_context_id r) /\ in_width 64 (m_process_id r) /\ in_width 64 (m_frame_id r)
  /\ in_width 64 (m_cmd_buffer_id r) /\ in_width 32 (m_draw_id r) /\ in_width 8 (m_draw_type r)
  /\ in_width 32 (m_draw_label r) /\ in_width 64 (m_program_id r) /\ in_width 8 (m_lrz_state r).

#[global] Instance record_fits_dec r : Decision (record_fits r).
Proof. unfold record_fits. apply _. Defined.

(** The columns [texts] stand for [values]. *)
Definition texts_of (texts : list string) (values : list double) : Prop :=
  mapM (fun text => SafeConvertDouble (Trim text)) texts = Some values.

Lemma metrics_parsed texts infos values before :
  texts_of texts values -> length texts = length infos -> metrics_supported infos = true ->
  ParseMetrics (map Trim texts) infos before = Some (before ++ values).
Proof.
  unfold texts_of. revert infos values before.
  induction texts as [|text texts IH]; intros [|info infos] values before Hv Hlen Hs; try done.
  { injection Hv as <-. simpl. by rewrite app_nil_r. }
  simpl in Hv, Hlen, Hs. zbool. destruct info as [info|]; [|done].
  destruct (SafeConvertDouble _) as [v|] eqn:Ev; [|done]. simpl in Hv.
  destruct (mapM _ texts) as [vs|] eqn:Evs; [|done]. injection Hv as <-.
  cbn [map ParseMetrics]. rewrite Ev. cbn [mbind option_bind].
  rewrite (IH infos vs) by (done || lia). by rewrite <- app_assoc.
Qed.

Lemma record_read infos r texts :
  record_fits r -> texts_of texts (m_metric_values r) -> length texts = length infos ->
  metrics_supported infos = true ->
  read_record infos (map Trim (record_fields r texts)) = Some r.
Proof.
  intros (H0 & H1 & H2 & H3 & H4 & H5 & H6 & H7 & H8) Ht Hlen Hs. unfold read_record, record_fields.
  rewrite length_map, length_app, Hlen. change (length _ + length infos =? _)%nat with (9 + length infos =? 9 + length infos)%nat.
  rewrite Nat.eqb_refl, map_app. cbn [map].
  rewrite !Trim_pretty by (apply H0 || apply H1 || apply H2 || apply H3 || apply H4 || apply H5 || apply H6 || apply H7 || apply H8).
  cbn [app ParseRecordFixedFields].
  rewrite !(unsigned_read 64), !(unsigned_read 32), !(unsigned_read 8) by (done || lia).
  cbn [mbind option_bind drop kFixedPerfMetricsDataHeaderCount].
  rewrite (metrics_parsed texts infos (m_metric_values r)) by done. by destruct r.
Qed.

(** A row of the file: a record's, or one with a wrong number of columns. *)
Inductive PerfRow := RecordRow (r : PerfMetricsRecord) (texts : list string) | Malformed (fields : list string).

Definition row_fields_of (row : PerfRow) : list string :=
  match row with RecordRow r texts => record_fields r texts | Malformed fields => fields end.

Definition row_ok (columns : nat) (row : PerfRow) : Prop :=
  match row with
  | RecordRow r texts => record_fits r /\ texts_of texts (m_metric_values r) /\ length texts = columns
  | Malformed fields => length fields <> (9 + columns)%nat
  end.

Definition record_of (row : PerfRow) : option PerfMetricsRecord :=
  match row with RecordRow r _ => Some r | Malformed _ => None end.

Lemma rows_read infos rows : metrics_supported infos = true -> Forall (row_ok (length infos)) rows ->
  omap (read_record infos) (map (map Trim) (map row_fields_of rows)) = omap record_of rows.
Proof.
  intros Hs. induction 1 as [|row rows Hrow _ IH]; [done|]. cbn [map omap list_omap].
  destruct row as [r texts|fields]; cbn [row_fields_of record_of].
  - destruct Hrow as (Hr & Ht & Hlen). rewrite record_read by done. f_equal. exact IH.
  - unfold read_record. rewrite length_map. simpl in Hrow.
    rewrite (proj2 (Nat.eqb_neq _ _)) by done. exact IH.
Qed.


Definition some_descriptions : AvailableMetrics :=
  default [] (AvailableMetrics_LoadFromCsv (Some (csv_text
    [kExpectedHeaders; ["1"; "1"; "COUNTER_A"; "Counter A"; "first"]; ["2"; "x"; "B"; ""; ""];
     ["3"; "2"; "COUNTER_B"; "Counter B"; "a, " +:+ String quote "quoted"];
     ["4"; "7"; "COUNTER_B"; "again"; "ignored"]]%string))).

Definition some_record (frame draw : Z) (a b : Z) : PerfMetricsRecord :=
  mkRecord 1 100 frame 10000 draw 1 7 1 2 [d_of_Z a; d_of_Z b].

#[local] Abbreviation two_names := ["COUNTER_A"; "COUNTER_B"]%string.

