(* ===== verification/Correlator.v ===== *)
(** * Correlator: counter records and the nodes of a capture

    [PerfMetricsDataProvider] and its [Correlator], [src/dive_core/perf_metrics_data.cpp].
    A file of counter records has several frames; the longest is the template, and the
    records of the frames with the same draws are averaged. Draw calls of the command
    hierarchy and draw records are matched by their order. *)

From Stdlib Require Import SpecFloat Sorted.
From S2P Require Import Prelude FrameMetrics Numbers PerfData Wire Memory Pm4 StateTracker Topology Hierarchy EventInfo.

#[local] Open Scope Z_scope.

(** ** IndexWrapper

    An index whose greatest value means that there is none. *)
Abbreviation Index := Z (only parsing).

Definition kInvalidWrapped : Index := 2 ^ 64 - 1.

Definition wrapped_value (i : Index) : bool := negb (i =? kInvalidWrapped).

Definition AsOptional (i : Index) : option Z := if wrapped_value i then Some i else None.

(** [Into] of a vector and of a map. *)
Definition into_vector (v : list Index) (i : Index) : Index :=
  if wrapped_value i && (i <? Z.of_nat (length v)) then default kInvalidWrapped (v !! Z.to_nat i)
  else kInvalidWrapped.

Definition into_map (m : gmap Z Index) (i : Index) : Index :=
  if wrapped_value i then default kInvalidWrapped (m !! i) else kInvalidWrapped.

(** ** The state *)

Record Correlator := mkCorrelator {
  m_draw_to_node : list Index;
  m_node_to_draw : gmap Z Index;
  m_draw_to_metric : list Index;
  m_metric_to_draw : list Index;
  m_record_to_metric : list Index
}.

(** [Reset], and a new one. *)
Definition new_Correlator : Correlator := mkCorrelator [] ∅ [] [] [].

Definition GetPatternSize (c : Correlator) : nat := length (m_metric_to_draw c).

Definition MatchOf (record : Index) (c : Correlator) : Index := into_vector (m_record_to_metric c) record.

Definition CorrelationEnabled (c : Correlator) : bool :=
  bool_decide (m_draw_to_node c = [])
  || (length (m_draw_to_metric c) =? length (m_draw_to_node c))%nat.

Definition RequireCorrelationEnabled (i : Index) (c : Correlator) : Index :=
  if CorrelationEnabled c then i else kInvalidWrapped.

Definition GetNodeFromDraw (i : Index) (c : Correlator) : Index := into_vector (m_draw_to_node c) i.
Definition GetDrawFromNode (i : Index) (c : Correlator) : Index := into_map (m_node_to_draw c) i.
Definition GetDrawFromMetric (i : Index) (c : Correlator) : Index :=
  into_vector (m_metric_to_draw c) (RequireCorrelationEnabled i c).
Definition GetMetricFromDraw (i : Index) (c : Correlator) : Index :=
  into_vector (m_draw_to_metric c) (RequireCorrelationEnabled i c).
Definition GetNodeFromMetric (i : Index) (c : Correlator) : Index :=
  GetNodeFromDraw (GetDrawFromMetric i c) c.
Definition GetMetricFromNode (i : Index) (c : Correlator) : Index :=
  GetMetricFromDraw (GetDrawFromNode i c) c.

(** ** The draws of a command hierarchy *)

(** What the loop distinguishes: a submit, a render marker and whether it is of a tile
    pass, a draw of a GFXR capture, a draw or dispatch event, and other nodes. *)
Inductive NodeKind := SubmitKind | MarkerKind (tile : bool) | GfxrDrawKind | DrawKind | OtherKind.

Definition node_kind (i : Z) (h : CommandHierarchy) : outcome NodeKind :=
  node_type ← GetNodeType i h;
  match node_type with
  | kSubmitNode => Done SubmitKind
  | kRenderMarkerNode => Done (MarkerKind (bool_decide (i ∈ GetFilterExcludeIndices kBinningPassOnly h)))
  | kGfxrVulkanDrawCommandNode => Done GfxrDrawKind
  | kEventNode =>
      event_type ← GetEventNodeType i h;
      Done (if (event_type =? kDraw) || (event_type =? kDispatch) then DrawKind else OtherKind)
  | _ => Done OtherKind
  end.

(** [into_alias]: [draws] points to [alias_draws]. *)
Record DrawScan := mkScan {
  node_to_draw : gmap Z Index;
  gfxr_draws : list Index;
  actual_draws : list Index;
  alias_draws : list Index;
  into_alias : bool
}.

Definition new_DrawScan : DrawScan := mkScan ∅ [] [] [] false.

(** [node_to_draw[nodes[i]] = base + i] *)
Fixpoint number_nodes (nodes : list Index) (base : Z) (m : gmap Z Index) : gmap Z Index :=
  match nodes with
  | [] => m
  | node :: nodes => number_nodes nodes (base + 1) (<[node := base]> m)
  end.

(** The tile pass has the last draws that were found before. *)
Definition dedupe (s : DrawScan) : DrawScan :=
  mkScan
    (if (length (alias_draws s) <=? length (actual_draws s))%nat then
       number_nodes (alias_draws s)
         (Z.of_nat (length (actual_draws s)) - Z.of_nat (length (alias_draws s))) (node_to_draw s)
     else node_to_draw s)
    (gfxr_draws s) (actual_draws s) [] false.

Definition push_draw (i : Z) (s : DrawScan) : DrawScan :=
  if into_alias s then
    mkScan (node_to_draw s) (gfxr_draws s) (actual_draws s) (alias_draws s ++ [i]) true
  else mkScan (node_to_draw s) (gfxr_draws s) (actual_draws s ++ [i]) (alias_draws s) false.

Definition scan_node (i : Z) (kind : NodeKind) (s : DrawScan) : DrawScan :=
  match kind with
  | SubmitKind => dedupe s
  | MarkerKind tile =>
      let s := dedupe s in
      mkScan (node_to_draw s) (gfxr_draws s) (actual_draws s) (alias_draws s) tile
  | GfxrDrawKind =>
      mkScan (node_to_draw s) (gfxr_draws s ++ [i]) (actual_draws s) (alias_draws s) (into_alias s)
  | DrawKind => push_draw i s
  | OtherKind => s
  end.

Fixpoint scan_nodes (n : nat) (i : Z) (h : CommandHierarchy) (s : DrawScan) : outcome DrawScan :=
  match n with
  | O => Done s
  | S n => kind ← node_kind i h; scan_nodes n (i + 1) h (scan_node i kind s)
  end.

(** The last dedupe and the numbers of the draws. *)
Definition scan_end (s : DrawScan) : list Index * gmap Z Index :=
  let s := dedupe s in
  let m := number_nodes (gfxr_draws s) 0 (number_nodes (actual_draws s) 0 (node_to_draw s)) in
  (if bool_decide (actual_draws s = []) then gfxr_draws s else actual_draws s, m).

Definition ExtractDraws (h : CommandHierarchy) : outcome (list Index * gmap Z Index) :=
  s ← scan_nodes (Z.to_nat (hierarchy_size h)) 0 h new_DrawScan; Done (scan_end s).

Definition AnalyzeCommands (h : CommandHierarchy) (c : Correlator) : outcome Correlator :=
  '(draw_to_node, node_to_draw) ← ExtractDraws h;
  Done (mkCorrelator draw_to_node node_to_draw (m_draw_to_metric c) (m_metric_to_draw c)
          (m_record_to_metric c)).

(** ** Frames *)

Definition IsMetricsRecordDrawOrDispatch (r : PerfMetricsRecord) : bool :=
  (m_draw_type r =? 1) || (m_draw_type r =? 3).

(** The calls of [emit_frame(start, end)]: a frame ends where the frame's identifier is
    another one than at its start, and at the end. [id] is that of [frame_start]. *)
Fixpoint emitted_frames (records : list PerfMetricsRecord) (i frame_start : nat) (id : Z)
  : list (nat * nat) :=
  match records with
  | [] => [(frame_start, i)]
  | r :: records =>
      if id =? m_frame_id r then emitted_frames records (S i) frame_start id
      else (frame_start, i) :: emitted_frames records (S i) i (m_frame_id r)
  end.

Definition frame_ranges (records : list PerfMetricsRecord) : list (nat * nat) :=
  match records with
  | [] => []
  | r :: _ => emitted_frames records 0 0 (m_frame_id r)
  end.

Definition range_of (records : list PerfMetricsRecord) (range : nat * nat) : list PerfMetricsRecord :=
  take (range.2 - range.1) (drop range.1 records).

(** The first of the longest frames: its start and its size. *)
Definition longer_range (t range : nat * nat) : nat * nat :=
  if (t.2 <? range.2 - range.1)%nat then (range.1, (range.2 - range.1)%nat) else t.

Definition template_frame (ranges : list (nat * nat)) : nat * nat :=
  fold_left longer_range ranges (0%nat, 0%nat).

Fixpoint MatchDrawSignatures (signatures records : list PerfMetricsRecord) : bool :=
  match signatures, records with
  | [], [] => true
  | s :: signatures, r :: records =>
      (m_cmd_buffer_id r =? m_cmd_buffer_id s) && (m_draw_id r =? m_draw_id s)
      && MatchDrawSignatures signatures records
  | _, _ => false
  end.

(** The records of the template that are draws, and back: [i] is the index of the
    first record, the lists have the indices so far. *)
Fixpoint number_draws (records : list PerfMetricsRecord) (i : nat) (draw_to_metric metric_to_draw : list Index)
  : list Index * list Index :=
  match records with
  | [] => (draw_to_metric, metric_to_draw)
  | r :: records =>
      if IsMetricsRecordDrawOrDispatch r then
        number_draws records (S i) (draw_to_metric ++ [Z.of_nat i])
          (<[i := Z.of_nat (length draw_to_metric)]> metric_to_draw)
      else number_draws records (S i) draw_to_metric metric_to_draw
  end.

(** [record_to_metric[start + i] = i] *)
Fixpoint number_records (n i start : nat) (v : list Index) : list Index :=
  match n with
  | O => v
  | S n => number_records n (S i) start (<[(start + i)%nat := Z.of_nat i]> v)
  end.

Definition match_frame (signatures records : list PerfMetricsRecord) (v : list Index) (range : nat * nat)
  : list Index :=
  if MatchDrawSignatures signatures (range_of records range)
  then number_records (range.2 - range.1) 0 range.1 v else v.

Definition AnalyzeRecords (records : list PerfMetricsRecord) (c : Correlator) : Correlator :=
  match records with
  | [] => mkCorrelator (m_draw_to_node c) (m_node_to_draw c) (m_draw_to_metric c) (m_metric_to_draw c) []
  | _ =>
      let ranges := frame_ranges records in
      let '(start, size) := template_frame ranges in
      let template := range_of records (start, (start + size)%nat) in
      let '(draw_to_metric, metric_to_draw) :=
        number_draws template 0 [] (replicate size kInvalidWrapped) in
      mkCorrelator (m_draw_to_node c) (m_node_to_draw c) draw_to_metric metric_to_draw
        (fold_left (match_frame template records) ranges (replicate (length records) kInvalidWrapped))
  end.

(** ** The provider *)

Record Provider := mkProvider {
  m_correlator : Correlator;
  m_raw_data : option PerfMetricsData;
  m_computed_records : list PerfMetricsRecord
}.

Definition new_Provider : Provider := mkProvider new_Correlator None [].

Definition Update (data : option PerfMetricsData) (p : Provider) : Provider :=
  match data with
  | None => p
  | Some data => mkProvider new_Correlator (Some data) []
  end.

Definition Create (data : option PerfMetricsData) : Provider := Update data new_Provider.

(** [resize]: cut, or filled up. *)
Definition resize {A} (n : nat) (a : A) (v : list A) : list A := take n v ++ replicate (n - length v) a.

(** Sums of a pattern's metrics and how many records are in them. *)
Record MetricSum := mkSum { m_metric_sums : list double; m_record_count : Z }.

(** One record of the loop: the computed records and the sums. *)
Definition add_record (num_metrics : nat) (c : Correlator) (record_index : nat) (record : PerfMetricsRecord)
    (state : list PerfMetricsRecord * list MetricSum) : list PerfMetricsRecord * list MetricSum :=
  let pattern_index := MatchOf (Z.of_nat record_index) c in
  if wrapped_value pattern_index then
    let '(computed, sums) := state in
    let i := Z.to_nat pattern_index in
    let data := default (mkSum [] 0) (sums !! i) in
    let '(computed, data) :=
      if m_record_count data =? 0
      then (<[i := record]> computed, mkSum (resize num_metrics d_zero (m_metric_sums data)) 0)
      else (computed, data) in
    let data :=
      if (length (m_metric_values record) =? num_metrics)%nat then
        mkSum (zip_with d_add (m_metric_sums data) (m_metric_values record))
          (wrap 32 (m_record_count data + 1))
      else data in
    (computed, <[i := data]> sums)
  else state.

Fixpoint add_records (num_metrics : nat) (c : Correlator) (record_index : nat)
    (records : list PerfMetricsRecord) (state : list PerfMetricsRecord * list MetricSum)
  : list PerfMetricsRecord * list MetricSum :=
  match records with
  | [] => state
  | r :: records =>
      add_records num_metrics c (S record_index) records (add_record num_metrics c record_index r state)
  end.

Definition averaged_record (record : PerfMetricsRecord) (sum : MetricSum) : PerfMetricsRecord :=
  let record := set_frame_id 0 (set_metric_values [] record) in
  if (m_record_count sum =? 0) || bool_decide (m_metric_sums sum = []) then record
  else set_metric_values ((fun s => d_div s (d_of_Z (m_record_count sum))) <$> m_metric_sums sum) record.

Definition Analyze (command_hierarchy : option CommandHierarchy) (p : Provider) : outcome Provider :=
  match m_raw_data p with
  | None => Done p
  | Some data =>
      let num_metrics := length (m_metric_names data) in
      let records := m_records data in
      c ← match command_hierarchy with
          | Some h => AnalyzeCommands h new_Correlator
          | None => Done new_Correlator
          end;
      let c := AnalyzeRecords records c in
      let pattern_size := GetPatternSize c in
      let '(computed, sums) :=
        add_records num_metrics c 0 records
          (resize pattern_size new_PerfMetricsRecord (m_computed_records p),
           replicate pattern_size (mkSum [] 0)) in
      Done (mkProvider c (Some data) (zip_with averaged_record computed sums))
  end.

Definition GetMetricsNames (p : Provider) : list string :=
  match m_raw_data p with Some data => m_metric_names data | None => [] end.

Definition GetRecordHeader (p : Provider) : list string := kFixedHeaders ++ GetMetricsNames p.

Definition GetCorrelatedComputedRecordIndex (node_index : Z) (p : Provider) : option Z :=
  AsOptional (GetMetricFromNode node_index (m_correlator p)).
Definition GetComputedRecordIndexFromDrawIndex (draw_index : Z) (p : Provider) : option Z :=
  AsOptional (GetMetricFromDraw draw_index (m_correlator p)).
Definition GetDrawIndexFromComputedRecordIndex (index : Z) (p : Provider) : option Z :=
  AsOptional (GetDrawFromMetric index (m_correlator p)).

(** [None]: there is no data, and the null pointer is read. *)
Definition GetMetricsDescription (metric_index : Z) (p : Provider) : option string :=
  data ← m_raw_data p;
  Some (match m_metric_infos data !! Z.to_nat metric_index with
        | Some (Some info) => m_metric_description info
        | _ => ""%string
        end).

(** ** Frames as lists *)

(** The frame that has [front] so far, and the ones behind it. *)
Fixpoint split_frames (front : list PerfMetricsRecord) (id : Z) (records : list PerfMetricsRecord)
  : list (list PerfMetricsRecord) :=
  match records with
  | [] => [front]
  | r :: records =>
      if id =? m_frame_id r then split_frames (front ++ [r]) id records
      else front :: split_frames [r] (m_frame_id r) records
  end.

Definition frames_of (records : list PerfMetricsRecord) : list (list PerfMetricsRecord) :=
  match records with
  | [] => []
  | r :: records => split_frames [r] (m_frame_id r) records
  end.

(** The ranges of consecutive frames. *)
Fixpoint offsets (start : nat) (frames : list (list PerfMetricsRecord)) : list (nat * nat) :=
  match frames with
  | [] => []
  | f :: frames => (start, (start + length f)%nat) :: offsets (start + length f) frames
  end.

Lemma emitted_offsets records front start id :
  emitted_frames records (start + length front) start id = offsets start (split_frames front id records).
Proof.
  revert front start id. induction records as [|r records IH]; intros front start id; [done|].
  cbn [emitted_frames split_frames]. destruct (id =? m_frame_id r).
  - rewrite <- IH, length_app. simpl. f_equal. lia.
  - cbn [offsets]. f_equal. rewrite <- IH. simpl. f_equal. lia.
Qed.

Lemma frame_ranges_offsets records : frame_ranges records = offsets 0 (frames_of records).
Proof.
  destruct records as [|r records]; [done|]. cbn [frame_ranges frames_of emitted_frames].
  rewrite Z.eqb_refl. exact (emitted_offsets records [r] 0 (m_frame_id r)).
Qed.

Lemma split_concat records front id : concat (split_frames front id records) = front ++ records.
Proof.
  revert front id. induction records as [|r records IH]; intros front id; [done|]. cbn [split_frames].
  destruct (id =? _); [by rewrite IH, <- app_assoc|]. cbn [concat]. by rewrite IH.
Qed.

Lemma frames_concat records : concat (frames_of records) = records.
Proof. destruct records as [|r records]; [done|]. apply split_concat. Qed.

(** A frame has records of one identifier, another one than the frame behind it. *)
Definition frame_has_id (id : Z) (f : list PerfMetricsRecord) : Prop :=
  f <> [] /\ Forall (fun r => m_frame_id r = id) f.

Inductive maximal_frames : list (list PerfMetricsRecord) -> Prop :=
| maximal_nil : maximal_frames []
| maximal_one id f : frame_has_id id f -> maximal_frames [f]
| maximal_cons id id' f g fs :
    frame_has_id id f -> frame_has_id id' g -> id <> id' -> maximal_frames (g :: fs) ->
    maximal_frames (f :: g :: fs).

Lemma split_maximal records front id : frame_has_id id front ->
  exists f fs, split_frames front id records = f :: fs /\ frame_has_id id f /\ maximal_frames (f :: fs).
Proof.
  revert front id. induction records as [|r records IH]; intros front id [Hne Hf]; cbn [split_frames].
  { exists front, []. by repeat econstructor. }
  destruct (id =? m_frame_id r) eqn:E; zbool.
  - apply IH. split; [by destruct front|]. rewrite Forall_app. split; [done|]. by constructor.
  - destruct (IH [r] (m_frame_id r)) as (g & gs & Eg & Hg & Hm); [by repeat constructor|].
    exists front, (g :: gs). rewrite Eg. split; [done|]. split; [done|]. by econstructor.
Qed.

Lemma frames_maximal records : maximal_frames (frames_of records).
Proof.
  destruct records as [|r records]; [constructor|]. simpl.
  destruct (split_maximal records [r] (m_frame_id r)) as (f & fs & -> & _ & Hm); [by repeat constructor|done].
Qed.

Lemma range_in pre (f post : list PerfMetricsRecord) :
  range_of (pre ++ f ++ post) (length pre, (length pre + length f)%nat) = f.
Proof.
  unfold range_of. cbn [fst snd]. rewrite drop_app_length, Nat.add_comm, Nat.add_sub.
  apply take_app_length.
Qed.

(** ** The template *)

Definition longer (t f : list PerfMetricsRecord) : list PerfMetricsRecord :=
  if (length t <? length f)%nat then f else t.

Definition longest (frames : list (list PerfMetricsRecord)) : list PerfMetricsRecord :=
  fold_left longer frames [].

Lemma longer_eq t f : longer t f = if (length t <? length f)%nat then f else t.
Proof. done. Qed.

Lemma longer_range_eq s n start (f : list PerfMetricsRecord) :
  longer_range (s, n) (start, (start + length f)%nat)
  = if (n <? length f)%nat then (start, length f) else (s, n).
Proof.
  unfold longer_range. cbn [fst snd]. by replace (start + length f - start)%nat with (length f) by lia.
Qed.

Lemma template_step records pre frames t start :
  records = pre ++ concat frames -> range_of records (start, (start + length t)%nat) = t ->
  let '(start', size') := fold_left longer_range (offsets (length pre) frames) (start, length t) in
  let t' := fold_left longer frames t in
  size' = length t' /\ range_of records (start', (start' + size')%nat) = t'.
Proof.
  revert pre t start. induction frames as [|f frames IH]; intros pre t start Hr Ht; [done|].
  cbn [offsets fold_left concat] in *. rewrite longer_range_eq, longer_eq.
  assert (records = (pre ++ f) ++ concat frames) as Hr' by by rewrite <- app_assoc.
  rewrite <- length_app. destruct (length t <? length f)%nat; apply IH; try done.
  rewrite Hr. apply range_in.
Qed.

Lemma template_longest records :
  let '(start, size) := template_frame (frame_ranges records) in
  size = length (longest (frames_of records))
  /\ range_of records (start, (start + size)%nat) = longest (frames_of records).
Proof.
  rewrite frame_ranges_offsets. apply (template_step records [] (frames_of records) [] 0); [|done].
  by rewrite frames_concat.
Qed.

Lemma fold_longest frames t :
  let t' := fold_left longer frames t in
  (t' = t \/ t' ∈ frames) /\ (length t <= length t')%nat
  /\ Forall (fun f => (length f <= length t')%nat) frames.
Proof.
  revert t. induction frames as [|f frames IH]; intros t; cbn [fold_left]; [by repeat split; auto|].
  rewrite !(longer_eq t f).
  destruct (Nat.ltb_spec (length t) (length f)).
  - destruct (IH f) as (H1 & H2 & H3). split; [right; rewrite elem_of_cons; tauto|].
    split; [lia|]. by constructor.
  - destruct (IH t) as (H1 & H2 & H3). split; [rewrite elem_of_cons; tauto|].
    split; [lia|]. constructor; [lia|done].
Qed.

(** ** Which record belongs to which pattern *)

Definition frame_pattern (template f : list PerfMetricsRecord) : list Index :=
  if MatchDrawSignatures template f then Z.of_nat <$> seq 0 (length f)
  else replicate (length f) kInvalidWrapped.

Lemma number_records_spec n i pre (v post : list Index) :
  length v = n ->
  number_records n i (length pre - i) (pre ++ v ++ post) = pre ++ (Z.of_nat <$> seq i n) ++ post
  \/ (length pre < i)%nat.
Proof.
  revert i pre v. induction n as [|n IH]; intros i pre v Hn.
  { destruct v; [by left|done]. }
  destruct v as [|x v]; [done|]. destruct (decide (length pre < i)%nat) as [|Hi]; [by right|left].
  cbn [number_records seq]. replace (length pre - i + i)%nat with (length pre + 0)%nat by lia.
  rewrite insert_app_r. simpl. destruct (IH (S i) (pre ++ [Z.of_nat i]) v) as [H|H].
  - simpl in Hn. lia.
  - rewrite length_app in H. simpl in H. replace (length pre + 1 - S i)%nat with (length pre - i)%nat in H by lia.
    rewrite <- !app_assoc in H. exact H.
  - rewrite length_app in H. simpl in H. lia.
Qed.

Lemma frames_matched template records pre frames (v : list Index) :
  records = pre ++ concat frames -> length v = length pre ->
  fold_left (match_frame template records) (offsets (length pre) frames)
    (v ++ replicate (length (concat frames)) kInvalidWrapped)
  = v ++ concat (frame_pattern template <$> frames).
Proof.
  revert pre v. induction frames as [|f frames IH]; intros pre v Hr Hv; [done|].
  cbn [offsets fold_left concat fmap list_fmap] in *.
  assert (records = (pre ++ f) ++ concat frames) as Hr' by by rewrite <- app_assoc.
  rewrite <- length_app, app_assoc, <- (IH (pre ++ f)); [|done|].
  - f_equal. unfold match_frame, frame_pattern. rewrite Hr. rewrite length_app, range_in. cbn [fst snd].
    replace (length pre + length f - length pre)%nat with (length f) by lia.
    rewrite length_app, replicate_add. destruct (MatchDrawSignatures template f); [|by rewrite app_assoc].
    destruct (number_records_spec (length f) 0 v (replicate (length f) kInvalidWrapped)
      (replicate (length (concat frames)) kInvalidWrapped)) as [H|H]; [by rewrite length_replicate| |lia].
    rewrite Nat.sub_0_r, Hv in H. by rewrite H, app_assoc.
  - rewrite !length_app. unfold frame_pattern.
    destruct (MatchDrawSignatures _ _); rewrite ?length_fmap, ?length_seq, ?length_replicate; lia.
Qed.

Definition pattern_of (records : list PerfMetricsRecord) : list Index :=
  concat (frame_pattern (longest (frames_of records)) <$> frames_of records).

(** What [AnalyzeRecords] finds. *)
Lemma AnalyzeRecords_spec records c :
  records <> [] ->
  let template := longest (frames_of records) in
  let '(d, m) := number_draws template 0 [] (replicate (length template) kInvalidWrapped) in
  AnalyzeRecords records c
  = mkCorrelator (m_draw_to_node c) (m_node_to_draw c) d m (pattern_of records).
Proof.
  intros Hne template. unfold AnalyzeRecords. destruct records as [|r records']; [done|].
  set (records := r :: records') in *. pose proof (template_longest records) as Ht.
  destruct (template_frame (frame_ranges records)) as [start size]. destruct Ht as [-> ->].
  fold template. destruct (number_draws template 0 [] _) as [d m]. f_equal.
  rewrite frame_ranges_offsets.
  pose proof (frames_matched template records [] (frames_of records) []) as H.
  rewrite frames_concat in H. by apply H.
Qed.

(** ** Sums *)

(** One record with the pattern it belongs to. *)
Definition add_pair (num_metrics : nat) (state : list PerfMetricsRecord * list MetricSum)
    (p : Index * PerfMetricsRecord) : list PerfMetricsRecord * list MetricSum :=
  add_record num_metrics (mkCorrelator [] ∅ [] [] [p.1]) 0 p.2 state.

Lemma into_vector_at (v : list Index) n : Z.of_nat (length v) < 2 ^ 64 ->
  into_vector v (Z.of_nat n) = default kInvalidWrapped (v !! n).
Proof.
  intros Hv. unfold into_vector. destruct (v !! n) as [x|] eqn:E.
  - apply lookup_lt_Some in E as Hn. unfold wrapped_value, kInvalidWrapped.
    rewrite (proj2 (Z.eqb_neq _ _)), (proj2 (Z.ltb_lt _ _)) by lia. cbn [negb andb].
    by rewrite Nat2Z.id, E.
  - apply lookup_ge_None in E. rewrite (proj2 (Z.ltb_ge (Z.of_nat n) _)) by lia. by rewrite andb_false_r.
Qed.

Lemma add_record_pair num c n r state x :
  Z.of_nat (length (m_record_to_metric c)) < 2 ^ 64 -> m_record_to_metric c !! n = Some x ->
  add_record num c n r state = add_pair num state (x, r).
Proof.
  intros Hb Hx. unfold add_pair, add_record, MatchOf. rewrite into_vector_at, Hx by done. done.
Qed.

Lemma add_records_pairs num c records : forall n state,
  Z.of_nat (length (m_record_to_metric c)) < 2 ^ 64 ->
  (n + length records)%nat = length (m_record_to_metric c) ->
  add_records num c n records state
  = fold_left (add_pair num) (zip (drop n (m_record_to_metric c)) records) state.
Proof.
  induction records as [|r records IH]; intros n state Hb Hn.
  { by rewrite zip_with_nil_r. }
  cbn [add_records]. destruct (m_record_to_metric c !! n) as [x|] eqn:Ex.
  2:{ apply lookup_ge_None in Ex. simpl in Hn. lia. }
  rewrite (add_record_pair num c n r state x Hb Ex), IH by (done || (simpl in Hn; lia)).
  by rewrite (drop_S _ x n Ex).
Qed.

(** The records of a pattern, in order, and their sums. *)
Definition records_at (i : nat) (pairs : list (Index * PerfMetricsRecord)) : list PerfMetricsRecord :=
  omap (fun p => if p.1 =? Z.of_nat i then Some p.2 else None) pairs.

Definition totals (num_metrics : nat) (rs : list PerfMetricsRecord) : list double :=
  fold_left (fun sums r => zip_with d_add sums (m_metric_values r)) rs (replicate num_metrics d_zero).

Definition sum_of (num_metrics : nat) (rs : list PerfMetricsRecord) : MetricSum :=
  match rs with
  | [] => mkSum [] 0
  | _ => mkSum (totals num_metrics rs) (Z.of_nat (length rs))
  end.

Definition sums_to (num size : nat) (init : list PerfMetricsRecord)
    (pairs : list (Index * PerfMetricsRecord)) (state : list PerfMetricsRecord * list MetricSum) : Prop :=
  length state.1 = size /\ length state.2 = size
  /\ forall i, (i < size)%nat ->
       state.1 !! i = Some (match records_at i pairs with
                            | [] => default new_PerfMetricsRecord (init !! i)
                            | r :: _ => r
                            end)
       /\ state.2 !! i = Some (sum_of num (records_at i pairs)).

Lemma records_at_snoc i pairs p :
  records_at i (pairs ++ [p]) = records_at i pairs ++ if p.1 =? Z.of_nat i then [p.2] else [].
Proof. unfold records_at. rewrite omap_app. simpl. by destruct (_ =? _). Qed.

Lemma records_at_length i pairs : (length (records_at i pairs) <= length pairs)%nat.
Proof.
  unfold records_at. induction pairs as [|p pairs IH]; [done|]. cbn [omap list_omap].
  destruct (p.1 =? _); [by apply le_n_S|]. by apply le_S.
Qed.

Lemma totals_snoc num rs r :
  totals num (rs ++ [r]) = zip_with d_add (totals num rs) (m_metric_values r).
Proof. unfold totals. by rewrite fold_left_app. Qed.

Lemma sum_snoc num rs r : length (m_metric_values r) = num -> Z.of_nat (length rs) + 1 < 2 ^ 32 ->
  let data := sum_of num rs in
  let data' := if m_record_count data =? 0
               then mkSum (resize num d_zero (m_metric_sums data)) 0 else data in
  sum_of num (rs ++ [r])
  = mkSum (zip_with d_add (m_metric_sums data') (m_metric_values r)) (wrap 32 (m_record_count data' + 1)).
Proof.
  intros Hr Hlen. destruct rs as [|r0 rs]; cbv zeta.
  - cbn. unfold resize. rewrite take_nil, Nat.sub_0_r. done.
  - cbn [sum_of m_record_count]. rewrite (proj2 (Z.eqb_neq _ _)) by (cbn [length]; lia).
    cbn [m_metric_sums m_record_count app]. change (r0 :: rs ++ [r]) with ((r0 :: rs) ++ [r]).
    unfold sum_of. cbn [app]. change (r0 :: rs ++ [r]) with ((r0 :: rs) ++ [r]).
    rewrite totals_snoc, length_app. f_equal. rewrite wrap_small; [simpl; lia|].
    unfold in_width. lia.
Qed.

(** An entry of a pattern's index, or of none. *)
Definition pair_ok (num size : nat) (p : Index * PerfMetricsRecord) : Prop :=
  (p.1 = kInvalidWrapped \/ exists i, (i < size)%nat /\ p.1 = Z.of_nat i)
  /\ length (m_metric_values p.2) = num.

Lemma add_pairs_sums num size init pairs sums0 :
  Forall (pair_ok num size) pairs -> Z.of_nat (length pairs) < 2 ^ 32 -> Z.of_nat size < 2 ^ 64 - 1 ->
  length init = size -> sums0 = replicate size (mkSum [] 0) ->
  sums_to num size init pairs (fold_left (add_pair num) pairs (init, sums0)).
Proof.
  intros Hok Hlen Hsize Hinit ->. induction pairs as [|p pairs IH] using rev_ind.
  { split; [done|]. split; [apply length_replicate|]. intros i Hi. simpl. split.
    - destruct (lookup_lt_is_Some_2 init i) as [r Hr]; [lia|]. by rewrite Hr.
    - by apply lookup_replicate. }
  apply Forall_app in Hok as [Hok [[Hx Hr] _]%Forall_cons]. rewrite length_app in Hlen. simpl in Hlen.
  destruct IH as (H1 & H2 & Hi); [done|lia|]. rewrite fold_left_app. cbn [fold_left].
  destruct (fold_left (add_pair num) pairs _) as [computed sums]. cbn [fst snd] in H1, H2, Hi.
  destruct p as [x r]. cbn [fst snd] in Hx, Hr. unfold add_pair, add_record, MatchOf. cbn [fst snd].
  change (Z.of_nat 0) with (Z.of_nat O). rewrite into_vector_at by (simpl; lia).
  cbn [m_record_to_metric lookup list_lookup default]. unfold id.
  destruct Hx as [->|(i & Hlt & ->)].
  - change (wrapped_value kInvalidWrapped) with false. cbv iota. split; [done|]. split; [done|].
    intros j Hj. rewrite records_at_snoc. cbn [fst]. unfold kInvalidWrapped.
    rewrite (proj2 (Z.eqb_neq _ _)), app_nil_r by lia. by apply Hi.
  - assert (wrapped_value (Z.of_nat i) = true) as ->.
    { unfold wrapped_value, kInvalidWrapped. apply negb_true_iff, Z.eqb_neq. lia. }
    rewrite Nat2Z.id. destruct (Hi i Hlt) as [Hci Hsi]. rewrite Hsi. cbn [default].
    pose proof (records_at_length i pairs) as Hrl.
    pose proof (sum_snoc num (records_at i pairs) r Hr ltac:(lia)) as Hsum. cbv zeta in Hsum.
    rewrite Hr, Nat.eqb_refl. unfold id.
    destruct (m_record_count (sum_of num (records_at i pairs)) =? 0) eqn:Ez;
      cbn [m_metric_sums m_record_count] in *; rewrite <- Hsum;
      (split; [cbn [fst]; by rewrite ?length_insert|]; split; [cbn [snd]; by rewrite length_insert|]);
      intros j Hj; rewrite records_at_snoc; cbn [fst snd];
      (destruct (decide (j = i)) as [->|Hne];
       [rewrite Z.eqb_refl|rewrite (proj2 (Z.eqb_neq _ _)), app_nil_r by lia]).
    + rewrite !list_lookup_insert_eq by lia. split; [|done]. f_equal.
      destruct (records_at i pairs); [done|]. simpl in Ez. zbool. lia.
    + rewrite !list_lookup_insert_ne by done. by apply Hi.
    + rewrite list_lookup_insert_eq by lia. split; [|done]. rewrite Hci. f_equal.
      by destruct (records_at i pairs).
    + rewrite list_lookup_insert_ne by done. by apply Hi.
Qed.

(** ** Averages *)

Lemma match_length s r : MatchDrawSignatures s r = true -> length r = length s.
Proof.
  revert r. induction s as [|x s IH]; intros [|y r]; simpl; try done. intros H. zbool. f_equal. by apply IH.
Qed.

Lemma records_at_app i p q : records_at i (p ++ q) = records_at i p ++ records_at i q.
Proof. apply omap_app. Qed.

Lemma records_at_seq i k f :
  records_at i (zip (Z.of_nat <$> seq k (length f)) f)
  = if (k <=? i)%nat then option_list (f !! (i - k)%nat) else [].
Proof.
  revert k. induction f as [|r f IH]; intros k; [by destruct (k <=? i)%nat|].
  cbn [length seq fmap list_fmap zip zip_with]. change (?p :: ?l) with ([p] ++ l).
  rewrite records_at_app. rewrite IH. unfold records_at. cbn [omap list_omap fst snd].
  destruct (Nat.leb_spec k i), (Nat.leb_spec (S k) i), (Z.eqb_spec (Z.of_nat k) (Z.of_nat i)); try lia.
  - replace (i - k)%nat with (S (i - S k)) by lia. done.
  - by replace (i - k)%nat with O by lia.
  - done.
Qed.

Lemma records_at_invalid i f : Z.of_nat i < 2 ^ 64 - 1 ->
  records_at i (zip (replicate (length f) kInvalidWrapped) f) = [].
Proof.
  intros Hi. induction f as [|r f IH]; [done|]. cbn [length replicate zip zip_with].
  change (?p :: ?l) with ([p] ++ l). rewrite records_at_app. rewrite IH.
  unfold records_at. cbn [omap list_omap fst snd]. unfold kInvalidWrapped.
  by rewrite (proj2 (Z.eqb_neq _ _)) by lia.
Qed.

(** The command buffer's and the draw's number of each record. *)
Definition draw_keys (f : list PerfMetricsRecord) : list (Z * Z) :=
  (fun r => (m_cmd_buffer_id r, m_draw_id r)) <$> f.

Lemma match_draw_keys s f : MatchDrawSignatures s f = true <-> draw_keys f = draw_keys s.
Proof.
  revert f. induction s as [|x s IH]; intros [|y f]; try done. simpl.
  rewrite !andb_true_iff, !Z.eqb_eq, IH. split; [intros [[-> ->] ->]; done|].
  intros [= -> -> E]. done.
Qed.

(** The [i]th records of the frames that match. *)
Definition column (template : list PerfMetricsRecord) (frames : list (list PerfMetricsRecord)) (i : nat)
  : list PerfMetricsRecord :=
  omap (fun f => f !! i) (filter (fun f => draw_keys f = draw_keys template) frames).

Lemma records_at_frames template frames i : Z.of_nat i < 2 ^ 64 - 1 ->
  records_at i (zip (concat (frame_pattern template <$> frames)) (concat frames)) = column template frames i.
Proof.
  intros Hi. induction frames as [|f frames IH]; [done|]. cbn [fmap list_fmap concat].
  rewrite zip_with_app.
  2:{ unfold frame_pattern. by destruct (MatchDrawSignatures _ _);
      rewrite ?length_fmap, ?length_seq, ?length_replicate. }
  rewrite records_at_app, IH. unfold column. rewrite filter_cons. unfold frame_pattern.
  pose proof (match_draw_keys template f) as Hkeys. destruct (MatchDrawSignatures template f).
  - rewrite decide_True by by apply Hkeys. cbn [omap list_omap].
    pose proof (records_at_seq i 0 f) as H. rewrite H, Nat.sub_0_r.
    cbn [Nat.leb]. by destruct (f !! i).
  - rewrite decide_False by by rewrite <- Hkeys. pose proof (records_at_invalid i f Hi) as H. by rewrite H.
Qed.

Lemma frame_pattern_ok template frames : Z.of_nat (length template) < 2 ^ 64 - 1 ->
  Forall (fun x => x = kInvalidWrapped \/ exists i, (i < length template)%nat /\ x = Z.of_nat i)
    (concat (frame_pattern template <$> frames)).
Proof.
  intros Ht. apply Forall_concat, Forall_fmap, Forall_true. intros f. unfold compose, frame_pattern.
  destruct (MatchDrawSignatures template f) eqn:E.
  - apply match_length in E. rewrite Forall_fmap. apply Forall_forall. intros i Hi.
    apply elem_of_seq in Hi. right. exists i. split; [lia|done].
  - apply Forall_replicate. by left.
Qed.

(** The record that stands for [rs]: the first one without its frame, with the averages
    of all. *)
Definition average_of (num_metrics : nat) (rs : list PerfMetricsRecord) : PerfMetricsRecord :=
  let n := d_of_Z (Z.of_nat (length rs)) in
  let r := default (mkRecord 0 0 0 0 0 0 0 0 0 []) (head rs) in
  mkRecord (m_context_id r) (m_process_id r) 0 (m_cmd_buffer_id r) (m_draw_id r) (m_draw_label r)
    (m_program_id r) (m_draw_type r) (m_lrz_state r)
    ((fun s => d_div s n) <$> totals num_metrics rs).

Definition averages (num_metrics : nat) (records : list PerfMetricsRecord) : list PerfMetricsRecord :=
  let frames := frames_of records in
  let template := longest frames in
  (fun i => average_of num_metrics (column template frames i)) <$> seq 0 (length template).

Lemma pattern_of_length records : length (pattern_of records) = length records.
Proof.
  unfold pattern_of. rewrite <- (frames_concat records) at 3. generalize (frames_of records) at 2 3.
  intros frames. induction frames as [|f frames IH]; [done|]. cbn [fmap list_fmap concat].
  rewrite !length_app, IH. unfold frame_pattern.
  by destruct (MatchDrawSignatures _ _); rewrite ?length_fmap, ?length_seq, ?length_replicate.
Qed.

Lemma number_draws_length records i d m :
  length (number_draws records i d m).2 = length m.
Proof.
  revert i d m. induction records as [|r records IH]; intros i d m; [done|]. cbn [number_draws].
  destruct (IsMetricsRecordDrawOrDispatch r); rewrite IH; by rewrite ?length_insert.
Qed.

Lemma averaged_eq num rs r :
  Z.of_nat (length rs) < 2 ^ 32 -> head rs = Some r -> averaged_record r (sum_of num rs) = average_of num rs.
Proof.
  intros Hlen Hr. unfold averaged_record, average_of. rewrite Hr.
  destruct rs as [|r0 rs]; [done|]. cbn [sum_of m_record_count m_metric_sums default]. unfold id.
  rewrite (proj2 (Z.eqb_neq _ _)) by (cbn [length]; lia). cbn [orb].
  case_bool_decide as E; [rewrite E|]; by destruct r.
Qed.

Lemma longest_in records : records <> [] -> longest (frames_of records) ∈ frames_of records.
Proof.
  intros Hne. destruct (fold_longest (frames_of records) []) as ([E|] & _ & Hall); [|done].
  unfold longest. pose proof (frames_maximal records) as Hm. rewrite E in *.
  destruct (frames_of records) as [|f fs] eqn:Ef.
  - pose proof (frames_concat records) as Hc. by rewrite Ef in Hc.
  - apply Forall_cons in Hall as [Hf _]. assert (f <> []) as Hne' by (inversion Hm as [|? ? []|? ? ? ? ? []]; done).
    by destruct f; [|simpl in Hf; lia].
Qed.

Lemma column_head template frames i : template ∈ frames -> (i < length template)%nat ->
  exists r, head (column template frames i) = Some r.
Proof.
  intros Hin Hi. unfold column. destruct (lookup_lt_is_Some_2 _ _ Hi) as [x Hx].
  assert (x ∈ column template frames i) as Hc.
  { apply list_elem_of_omap. exists template. split; [|done].
    by apply list_elem_of_filter. }
  unfold column in Hc. destruct (omap _ _); [by apply elem_of_nil in Hc|eauto].
Qed.

Lemma column_length template records i : (length (column template (frames_of records) i) <= length records)%nat.
Proof.
  rewrite <- (frames_concat records) at 2. unfold column.
  pose proof (frames_maximal records) as Hm. induction (frames_of records) as [|f fs IH]; [done|].
  assert (f <> [] /\ maximal_frames fs) as [Hne Hfs].
  { inversion Hm as [|? ? []|? ? ? ? ? []]; subst; split; try done; constructor. }
  specialize (IH Hfs). rewrite filter_cons. cbn [concat]. rewrite length_app.
  destruct f as [|r f]; [done|]. case_decide; cbn [omap list_omap].
  - destruct ((r :: f) !! i); [apply le_n_S|]; (etrans; [exact IH|]); cbn [length]; apply Nat.le_add_l || lia.
  - etrans; [exact IH|simpl; lia].
Qed.

(** The computed records, whatever the hierarchy and the records of an earlier
    analysis. *)
Lemma computed_averages num records c init :
  let c := AnalyzeRecords records c in
  m_metric_to_draw c = (if bool_decide (records = []) then [] else m_metric_to_draw c) ->
  Forall (fun r => length (m_metric_values r) = num) records -> Z.of_nat (length records) < 2 ^ 32 ->
  length init = GetPatternSize c ->
  let '(computed, sums) :=
    add_records num c 0 records (init, replicate (GetPatternSize c) (mkSum [] 0)) in
  zip_with averaged_record computed sums = averages num records.
Proof.
  intros c' Hempty Hnum Hlen Hinit. destruct (decide (records = [])) as [->|Hne].
  { rewrite bool_decide_true in Hempty by done. unfold GetPatternSize in *. rewrite Hempty in *.
    by destruct init. }
  clear Hempty. pose proof (AnalyzeRecords_spec records c Hne) as E. cbv zeta in E. fold c' in E.
  set (template := longest (frames_of records)) in *.
  pose proof (number_draws_length template 0 [] (replicate (length template) kInvalidWrapped)) as Hm.
  destruct (number_draws template 0 [] _) as [d m]. cbn [snd] in Hm. rewrite length_replicate in Hm.
  assert (GetPatternSize c' = length template) as Hsize by (unfold GetPatternSize; by rewrite E).
  assert (m_record_to_metric c' = pattern_of records) as Hpat by by rewrite E.
  clearbody c'. clear E. rewrite Hsize in *.
  pose proof (pattern_of_length records) as Hpl.
  assert (Z.of_nat (length template) < 2 ^ 64 - 1) as Htl.
  { pose proof (longest_in records Hne) as Hin. apply list_elem_of_split in Hin as (a & b & Hab).
    pose proof (frames_concat records) as Hc. rewrite Hab in Hc. fold template in Hc.
    apply (f_equal length) in Hc. rewrite concat_app, length_app in Hc. simpl in Hc.
    rewrite length_app in Hc. lia. }
  rewrite add_records_pairs by (rewrite Hpat, Hpl; lia || done). rewrite Hpat. cbn [drop].
  destruct (add_pairs_sums num (length template) init (zip (pattern_of records) records)
    (replicate (length template) (mkSum [] 0))) as (H1 & H2 & Hi); [|rewrite length_zip; lia|done|done|done|].
  { apply Forall_forall. intros p Hp. split.
    - pose proof (frame_pattern_ok template (frames_of records) Htl) as Hf.
      rewrite Forall_forall in Hf. apply Hf. by apply (list_elem_of_fmap_2 fst) in Hp as Hp';
        rewrite fst_zip in Hp' by lia.
    - rewrite Forall_forall in Hnum. apply Hnum. by apply (list_elem_of_fmap_2 snd) in Hp as Hp';
        rewrite snd_zip in Hp' by lia. }
  destruct (fold_left (add_pair num) _ _) as [computed sums]. cbn [fst snd] in *.
  apply list_eq. intros i. unfold averages. fold template. rewrite list_lookup_fmap.
  destruct (decide (i < length template)%nat) as [Hlt|Hge].
  - destruct (Hi i Hlt) as [Hc Hs]. rewrite lookup_zip_with, Hc, Hs.
    rewrite lookup_seq_lt by done. cbn [mbind option_bind fmap option_fmap option_map Nat.add].
    assert (records_at i (zip (pattern_of records) records) = column template (frames_of records) i) as ->.
    { rewrite <- (frames_concat records) at 2. apply records_at_frames. lia. }
    destruct (column_head template (frames_of records) i) as [r Hr]; [by apply longest_in|done|].
    pose proof (column_length template records i) as Hcl.
    rewrite <- (averaged_eq num _ r) by (done || lia).
    by destruct (column template (frames_of records) i); simplify_eq/=.
  - rewrite (proj2 (lookup_ge_None (zip_with _ _ _) i)) by (rewrite length_zip_with; lia).
    by rewrite lookup_seq_ge by lia.
Qed.

Lemma resize_length {A} n (a : A) v : length (resize n a v) = n.
Proof. unfold resize. rewrite length_app, length_take, length_replicate. lia. Qed.

Lemma AnalyzeCommands_rest h c c' : AnalyzeCommands h c = Done c' ->
  m_metric_to_draw c' = m_metric_to_draw c /\ m_draw_to_metric c' = m_draw_to_metric c.
Proof.
  unfold AnalyzeCommands. destruct (ExtractDraws h) as [[d m]| |]; [|done..]. cbn. by intros [= <-].
Qed.

(** The correlator that an analysis starts from. *)
Definition commands_of (command_hierarchy : option CommandHierarchy) : outcome Correlator :=
  match command_hierarchy with
  | Some h => AnalyzeCommands h new_Correlator
  | None => Done new_Correlator
  end.

Lemma Analyze_inv h p p' data :
  Analyze h p = Done p' -> m_raw_data p = Some data ->
  exists c0, commands_of h = Done c0 /\ m_metric_to_draw c0 = [] /\ m_draw_to_metric c0 = []
    /\ m_correlator p' = AnalyzeRecords (m_records data) c0 /\ m_raw_data p' = Some data
    /\ let c := AnalyzeRecords (m_records data) c0 in
       let '(computed, sums) :=
         add_records (length (m_metric_names data)) c 0 (m_records data)
           (resize (GetPatternSize c) new_PerfMetricsRecord (m_computed_records p),
            replicate (GetPatternSize c) (mkSum [] 0)) in
       m_computed_records p' = zip_with averaged_record computed sums.
Proof.
  unfold Analyze. intros H Hd. rewrite Hd in H. fold (commands_of h) in H.
  destruct (commands_of h) as [c0| |] eqn:Ec; [|done..]. cbn [mbind outcome_bind] in H.
  exists c0. split; [done|].
  assert (m_metric_to_draw c0 = [] /\ m_draw_to_metric c0 = []) as [H1 H2].
  { destruct h as [h|]; simpl in Ec; [by apply AnalyzeCommands_rest in Ec|by simplify_eq]. }
  destruct (add_records _ _ _ _ _) as [computed sums]. by simplify_eq/=.
Qed.

(** C23: the analysis averages the frames. For less than 2^32 records that all have a
    value for each metric, whenever an analysis answers (the accessors of the hierarchy
    can fail), the records are split where the frame's identifier changes; the first of
    the longest frames is the template; the computed records are one for each of its
    records, in its order: the record at that place in the first of the frames that have
    the template's command buffer and draw numbers, all and in its order, with each
    counter averaged over all of these frames (sum and division of doubles) and the frame
    number erased. Nothing of an earlier analysis is left in the result. *)
Theorem analysis_averages (h : option CommandHierarchy) (p p' : Provider) (data : PerfMetricsData) :
  m_raw_data p = Some data ->
  Forall (fun r => length (m_metric_values r) = length (m_metric_names data)) (m_records data) ->
  Z.of_nat (length (m_records data)) < 2 ^ 32 -> Analyze h p = Done p' ->
  let frames := frames_of (m_records data) in
  m_computed_records p' = averages (length (m_metric_names data)) (m_records data)
  /\ concat frames = m_records data /\ maximal_frames frames
  /\ (m_records data <> [] -> longest frames ∈ frames)
  /\ Forall (fun f => (length f <= length (longest frames))%nat) frames.
Proof.
  intros Hd Hnum Hlen H. destruct (Analyze_inv h p p' data H Hd) as (c0 & _ & Hm & _ & _ & _ & Hc).
  split; [|split; [apply frames_concat|split; [apply frames_maximal|split; [apply longest_in|]]]].
  - pose proof (computed_averages (length (m_metric_names data)) (m_records data) c0
      (resize (GetPatternSize (AnalyzeRecords (m_records data) c0)) new_PerfMetricsRecord
         (m_computed_records p))) as Ha.
    cbv zeta in *. destruct (add_records _ _ _ _ _) as [computed sums]. rewrite Hc. apply Ha; [|done|done|].
    + case_bool_decide as E; [|done]. by rewrite E.
    + apply resize_length.
  - apply (fold_longest _ []).
Qed.

(** Three frames: the first has one draw less. *)
Definition some_frames : PerfMetricsData :=
  mkPerfData ["COUNTER_A"; "COUNTER_B"]%string [None; None]
    [some_record 5 1 30 40; some_record 6 1 10 20; some_record 6 2 50 60; some_record 7 1 30 60;
     some_record 7 2 70 61].

Lemma analysis_averages_witness :
  exists p', Analyze None (Create (Some some_frames)) = Done p'
    /\ m_computed_records p' = [some_record 0 1 20 40; mkRecord 1 100 0 10000 2 1 7 1 2
                                  [d_of_Z 60; d_div (d_of_Z 121) (d_of_Z 2)]].
Proof.
  destruct (Analyze None (Create (Some some_frames))) as [p'| |] eqn:E;
    [|vm_compute in E; discriminate|vm_compute in E; discriminate].
  exists p'. split; [reflexivity|].
  destruct (analysis_averages None (Create (Some some_frames)) p' some_frames) as [H _];
    [reflexivity|repeat constructor|vm_compute; reflexivity|exact E|].
  rewrite H. vm_compute. reflexivity.
Defined.

(** ** Draws of the template *)

(** The records of draws (1) and of dispatches (3). *)
Definition is_draw_record (r : PerfMetricsRecord) : bool :=
  bool_decide (m_draw_type r = 1 \/ m_draw_type r = 3).

Lemma is_draw_record_eq r : IsMetricsRecordDrawOrDispatch r = is_draw_record r.
Proof.
  apply eq_true_iff_eq. unfold IsMetricsRecordDrawOrDispatch, is_draw_record.
  by rewrite orb_true_iff, !Z.eqb_eq, bool_decide_eq_true.
Qed.

(** The positions of the draws among the records. *)
Fixpoint draw_positions (records : list PerfMetricsRecord) (i : nat) : list nat :=
  match records with
  | [] => []
  | r :: records =>
      if is_draw_record r then i :: draw_positions records (S i)
      else draw_positions records (S i)
  end.

Lemma draw_positions_range records i k : k ∈ draw_positions records i -> (i <= k < i + length records)%nat.
Proof.
  revert i. induction records as [|r records IH]; intros i; simpl; [by rewrite elem_of_nil|].
  destruct (is_draw_record r); rewrite ?elem_of_cons; intros H.
  - destruct H as [->|H]; [lia|]. apply IH in H. lia.
  - apply IH in H. lia.
Qed.

Lemma draw_positions_lt records i j j' k k' :
  draw_positions records i !! j = Some k -> draw_positions records i !! j' = Some k' ->
  (j < j')%nat -> (k < k')%nat.
Proof.
  revert i j j'. induction records as [|r records IH]; intros i j j'; simpl; [done|].
  destruct (is_draw_record r); [|apply IH].
  destruct j' as [|j']; [lia|]. destruct j as [|j]; simpl; intros Hj Hj' Hlt.
  - simplify_eq. apply list_elem_of_lookup_2, draw_positions_range in Hj'. lia.
  - eapply IH; eauto. lia.
Qed.

Lemma number_draws_fst records i d m :
  (number_draws records i d m).1 = d ++ (Z.of_nat <$> draw_positions records i).
Proof.
  revert i d m. induction records as [|r records IH]; intros i d m; simpl; [by rewrite app_nil_r|].
  rewrite is_draw_record_eq. destruct (is_draw_record r); rewrite IH; [by rewrite <- app_assoc|done].
Qed.

Lemma number_draws_snd records i d m k :
  (i + length records <= length m)%nat ->
  (number_draws records i d m).2 !! k
  = match list_find (fun x => x = k) (draw_positions records i) with
    | Some (j, _) => Some (Z.of_nat (length d + j))
    | None => m !! k
    end.
Proof.
  revert i d m. induction records as [|r records IH]; intros i d m Hm; [done|].
  cbn [number_draws draw_positions length] in *. rewrite is_draw_record_eq. destruct (is_draw_record r); [|apply IH; lia].
  rewrite IH by (rewrite length_insert; lia). cbn [list_find]. case_decide as E.
  - subst k. destruct (list_find _ (draw_positions records (S i))) as [[j x]|] eqn:El.
    + apply list_find_Some in El as (Hj & -> & _).
      apply list_elem_of_lookup_2, draw_positions_range in Hj. lia.
    + rewrite list_lookup_insert_eq by lia. by rewrite Nat.add_0_r.
  - destruct (list_find _ (draw_positions records (S i))) as [[j x]|]; simpl.
    + rewrite length_app. simpl. do 2 f_equal. lia.
    + by rewrite list_lookup_insert_ne.
Qed.

Lemma found_at records i k j :
  draw_positions records i !! j = Some k <->
  list_find (fun x => x = k) (draw_positions records i) = Some (j, k).
Proof.
  rewrite list_find_Some. split; [|tauto]. intros Hj. split; [done|]. split; [done|].
  intros j' k' Hj' Hlt ->. pose proof (draw_positions_lt records i j' j k k Hj' Hj Hlt). lia.
Qed.

Lemma as_optional_at (v : list Index) (z : Z) :
  0 <= z -> Z.of_nat (length v) < 2 ^ 64 - 1 -> Forall (fun x => 0 <= x) v ->
  AsOptional (into_vector v z)
  = (x ← v !! Z.to_nat z; if x =? kInvalidWrapped then None else Some x).
Proof.
  intros Hz Hv Hx. unfold into_vector, AsOptional.
  destruct (v !! Z.to_nat z) as [x|] eqn:E; cbn [default mbind option_bind].
  - apply lookup_lt_Some in E as Hlt.
    assert (wrapped_value z = true) as -> by
      (unfold wrapped_value, kInvalidWrapped; apply negb_true_iff, Z.eqb_neq; lia).
    rewrite (proj2 (Z.ltb_lt z _)) by lia. cbn [andb]. unfold id, wrapped_value.
    by destruct (x =? kInvalidWrapped).
  - apply lookup_ge_None in E. rewrite (proj2 (Z.ltb_ge z _)) by lia. by rewrite andb_false_r.
Qed.

(** ** The scan of the nodes *)

Fixpoint scan_kinds (kinds : list NodeKind) (i : Z) (s : DrawScan) : DrawScan :=
  match kinds with
  | [] => s
  | kind :: kinds => scan_kinds kinds (i + 1) (scan_node i kind s)
  end.

(** The kinds of the nodes from [i] on. *)
Definition kinds_at (h : CommandHierarchy) (i : Z) (kinds : list NodeKind) : Prop :=
  forall j kind, kinds !! j = Some kind -> node_kind (i + Z.of_nat j) h = Done kind.

Lemma kinds_at_cons h i kind kinds :
  kinds_at h i (kind :: kinds) <-> node_kind i h = Done kind /\ kinds_at h (i + 1) kinds.
Proof.
  split.
  - intros H. split; [rewrite <- (Z.add_0_r i); by apply (H O)|]. intros j k Hk.
    replace (i + 1 + Z.of_nat j) with (i + Z.of_nat (S j)) by lia. by apply H.
  - intros [H0 H] [|j] k Hk; simplify_eq/=; [by rewrite Z.add_0_r|].
    replace (i + Z.of_nat (S j)) with (i + 1 + Z.of_nat j) by lia. by apply H.
Qed.

Lemma scan_nodes_kinds h kinds i s :
  kinds_at h i kinds -> scan_nodes (length kinds) i h s = Done (scan_kinds kinds i s).
Proof.
  revert i s. induction kinds as [|kind kinds IH]; intros i s Hk; [done|].
  apply kinds_at_cons in Hk as [H0 Hk]. cbn [length scan_nodes scan_kinds]. rewrite H0. simpl. by apply IH.
Qed.

Lemma scan_nodes_inv h n i s s' : scan_nodes n i h s = Done s' ->
  exists kinds, length kinds = n /\ kinds_at h i kinds /\ s' = scan_kinds kinds i s.
Proof.
  revert i s. induction n as [|n IH]; intros i s; cbn [scan_nodes]; [intros [= <-]; by exists []|].
  destruct (node_kind i h) as [kind| |] eqn:E; [|done..]. simpl. intros H.
  destruct (IH _ _ H) as (kinds & Hl & Hk & ->). exists (kind :: kinds).
  split; [simpl; lia|]. split; [by apply kinds_at_cons|done].
Qed.

(** The draws outside of tile passes, and those of a GFXR capture. *)
Fixpoint outside (kinds : list NodeKind) (i : Z) (tile : bool) : list Index :=
  match kinds with
  | [] => []
  | DrawKind :: kinds => (if tile then [] else [i]) ++ outside kinds (i + 1) tile
  | SubmitKind :: kinds => outside kinds (i + 1) false
  | MarkerKind tile :: kinds => outside kinds (i + 1) tile
  | _ :: kinds => outside kinds (i + 1) tile
  end.

Fixpoint gfxr_nodes (kinds : list NodeKind) (i : Z) : list Index :=
  match kinds with
  | [] => []
  | GfxrDrawKind :: kinds => i :: gfxr_nodes kinds (i + 1)
  | _ :: kinds => gfxr_nodes kinds (i + 1)
  end.

Lemma scan_actual kinds i s :
  actual_draws (scan_kinds kinds i s) = actual_draws s ++ outside kinds i (into_alias s).
Proof.
  revert i s. induction kinds as [|kind kinds IH]; intros i s; [by rewrite app_nil_r|].
  cbn [scan_kinds]. rewrite IH. destruct kind; cbn [scan_node outside]; try done.
  unfold push_draw. destruct (into_alias s); cbn [actual_draws into_alias]; [done|].
  by rewrite <- app_assoc.
Qed.

Lemma scan_gfxr kinds i s :
  gfxr_draws (scan_kinds kinds i s) = gfxr_draws s ++ gfxr_nodes kinds i.
Proof.
  revert i s. induction kinds as [|kind kinds IH]; intros i s; [by rewrite app_nil_r|].
  cbn [scan_kinds]. rewrite IH. destruct kind; cbn [scan_node gfxr_nodes]; try done.
  - cbn [gfxr_draws]. by rewrite <- app_assoc.
  - unfold push_draw. by destruct (into_alias s).
Qed.

Lemma outside_kind kinds i tile n : n ∈ outside kinds i tile ->
  exists j, n = i + Z.of_nat j /\ kinds !! j = Some DrawKind.
Proof.
  revert i tile. induction kinds as [|kind kinds IH]; intros i tile; cbn [outside]; [by rewrite elem_of_nil|].
  assert (forall tile, n ∈ outside kinds (i + 1) tile ->
            exists j, n = i + Z.of_nat j /\ (kind :: kinds) !! j = Some DrawKind) as Hrest.
  { intros tile' H. apply IH in H as (j & -> & Hj). exists (S j). split; [lia|done]. }
  destruct kind; try apply Hrest. rewrite elem_of_app. intros [H|H]; [|by apply (Hrest tile)].
  destruct tile; [by apply elem_of_nil in H|]. apply list_elem_of_singleton in H as ->.
  exists O. split; [lia|done].
Qed.

Lemma gfxr_kind kinds i n : n ∈ gfxr_nodes kinds i ->
  exists j, n = i + Z.of_nat j /\ kinds !! j = Some GfxrDrawKind.
Proof.
  revert i. induction kinds as [|kind kinds IH]; intros i; cbn [gfxr_nodes]; [by rewrite elem_of_nil|].
  assert (n ∈ gfxr_nodes kinds (i + 1) ->
            exists j, n = i + Z.of_nat j /\ (kind :: kinds) !! j = Some GfxrDrawKind) as Hrest.
  { intros H. apply IH in H as (j & -> & Hj). exists (S j). split; [lia|done]. }
  destruct kind; try apply Hrest. rewrite elem_of_cons. intros [->|H]; [|by apply Hrest].
  exists O. split; [lia|done].
Qed.

Lemma outside_NoDup kinds i tile : NoDup (outside kinds i tile).
Proof.
  revert i tile. induction kinds as [|kind kinds IH]; intros i tile; cbn [outside]; [constructor|].
  destruct kind; try apply IH. destruct tile; [apply IH|]. cbn [app]. constructor; [|apply IH].
  intros (j & E & _)%outside_kind. lia.
Qed.

Lemma gfxr_NoDup kinds i : NoDup (gfxr_nodes kinds i).
Proof.
  revert i. induction kinds as [|kind kinds IH]; intros i; cbn [gfxr_nodes]; [constructor|].
  destruct kind; try apply IH. constructor; [|apply IH]. intros (j & E & _)%gfxr_kind. lia.
Qed.

Lemma number_nodes_other nodes base m n : n ∉ nodes -> number_nodes nodes base m !! n = m !! n.
Proof.
  revert base m. induction nodes as [|x nodes IH]; intros base m; [done|]. cbn [number_nodes].
  rewrite not_elem_of_cons. intros [Hx Hn]. rewrite IH by done. by rewrite lookup_insert_ne.
Qed.

Lemma number_nodes_at nodes base m j n : NoDup nodes -> nodes !! j = Some n ->
  number_nodes nodes base m !! n = Some (base + Z.of_nat j).
Proof.
  intros Hd. revert base m j. induction Hd as [|x nodes Hx Hd IH]; intros base m j; [done|]. cbn [number_nodes].
  destruct j as [|j]; cbn [lookup list_lookup].
  - intros [= ->]. rewrite number_nodes_other by done. rewrite lookup_insert_eq. f_equal. lia.
  - intros Hj. rewrite (IH _ _ j Hj). f_equal. lia.
Qed.

(** Draws and nodes at the end of the scan. *)
Definition draws_of (kinds : list NodeKind) : list Index :=
  if bool_decide (outside kinds 0 false = []) then gfxr_nodes kinds 0 else outside kinds 0 false.

Lemma outside_not_gfxr kinds i tile n : n ∈ outside kinds i tile -> n ∉ gfxr_nodes kinds i.
Proof.
  intros (j & -> & Hj)%outside_kind (j' & E & Hj')%gfxr_kind.
  assert (j' = j) as -> by lia. congruence.
Qed.

Lemma scanned_draws kinds :
  let '(draws, m) := scan_end (scan_kinds kinds 0 new_DrawScan) in
  draws = draws_of kinds
  /\ forall d node, draws !! d = Some node -> m !! node = Some (Z.of_nat d).
Proof.
  unfold scan_end, dedupe. cbn [actual_draws gfxr_draws node_to_draw].
  rewrite scan_actual, scan_gfxr. cbn [new_DrawScan actual_draws gfxr_draws into_alias app].
  fold (draws_of kinds). split; [done|]. unfold draws_of. intros d node Hd.
  case_bool_decide as E.
  - rewrite E. cbn [number_nodes]. by rewrite (number_nodes_at _ 0 _ d) by (done || apply gfxr_NoDup).
  - apply list_elem_of_lookup_2 in Hd as Hin. rewrite number_nodes_other by by eapply outside_not_gfxr.
    by rewrite (number_nodes_at _ 0 _ d) by (done || apply outside_NoDup).
Qed.

Lemma commands_of_inv h c : commands_of (Some h) = Done c ->
  exists kinds, length kinds = Z.to_nat (hierarchy_size h) /\ kinds_at h 0 kinds
    /\ (m_draw_to_node c, m_node_to_draw c) = scan_end (scan_kinds kinds 0 new_DrawScan).
Proof.
  unfold commands_of, AnalyzeCommands, ExtractDraws.
  destruct (scan_nodes _ 0 h new_DrawScan) as [s| |] eqn:E; [|done..].
  apply scan_nodes_inv in E as (kinds & Hl & Hk & ->). cbn [mbind outcome_bind].
  destruct (scan_end _) as [d m] eqn:Ed. intros [= <-]. exists kinds. by rewrite Ed.
Qed.

Lemma AnalyzeRecords_nodes records c :
  m_draw_to_node (AnalyzeRecords records c) = m_draw_to_node c
  /\ m_node_to_draw (AnalyzeRecords records c) = m_node_to_draw c.
Proof.
  unfold AnalyzeRecords. destruct records; [done|]. destruct (template_frame _).
  by destruct (number_draws _ _ _ _).
Qed.

(** The positions of the draws in the template. *)
Definition template_draws (data : PerfMetricsData) : list nat :=
  draw_positions (longest (frames_of (m_records data))) 0.

(** The matching is in force: no draws in the hierarchy, or as many as in the template. *)
Definition draws_agree (nodes : list Index) (data : PerfMetricsData) : bool :=
  bool_decide (nodes = []) || (length nodes =? length (template_draws data))%nat.

Lemma template_length records :
  (length (longest (frames_of records)) <= length records)%nat.
Proof.
  destruct (decide (records = [])) as [->|Hne]; [done|].
  pose proof (longest_in records Hne) as Hin. apply list_elem_of_split in Hin as (a & b & Hab).
  pose proof (frames_concat records) as Hc. rewrite Hab in Hc.
  apply (f_equal length) in Hc. rewrite concat_app, length_app in Hc. simpl in Hc.
  rewrite length_app in Hc. lia.
Qed.

(** The two maps between draws and records, before the test that they are in force. *)
Lemma analyzed_draws records c :
  records <> [] ->
  let c' := AnalyzeRecords records c in
  let template := longest (frames_of records) in
  m_draw_to_metric c' = Z.of_nat <$> draw_positions template 0
  /\ length (m_metric_to_draw c') = length template
  /\ forall k, (k < length template)%nat ->
       m_metric_to_draw c' !! k
       = Some (match list_find (fun x => x = k) (draw_positions template 0) with
               | Some (j, _) => Z.of_nat j
               | None => kInvalidWrapped
               end).
Proof.
  intros Hne c' template. pose proof (AnalyzeRecords_spec records c Hne) as E. cbv zeta in E.
  fold template in E. set (v := replicate (length template) kInvalidWrapped) in *.
  pose proof (number_draws_fst template 0 [] v) as H1.
  pose proof (number_draws_length template 0 [] v) as H2.
  assert (length v = length template) as Hv by apply length_replicate.
  pose proof (fun k => number_draws_snd template 0 [] v k ltac:(lia)) as H3.
  destruct (number_draws template 0 [] v) as [d m]. unfold c'. rewrite E.
  cbn [fst snd m_draw_to_metric m_metric_to_draw] in *. split; [done|]. split; [by rewrite H2|].
  intros k Hk. rewrite H3. destruct (list_find _ _) as [[j x]|]; [done|].
  unfold v. by apply lookup_replicate.
Qed.

Lemma positions_small records i k j :
  draw_positions records i !! j = Some k -> (j + i <= k)%nat.
Proof.
  revert i j. induction records as [|r records IH]; intros i j; simpl; [done|].
  destruct (is_draw_record r).
  - destruct j as [|j]; simpl; [intros [= ->]; lia|]. intros H%IH. lia.
  - intros H%IH. lia.
Qed.

Lemma positions_length records i : (length (draw_positions records i) <= length records)%nat.
Proof.
  revert i. induction records as [|r records IH]; intros i; simpl; [done|].
  destruct (is_draw_record r); simpl; specialize (IH (S i)); lia.
Qed.

Section Matched.

Context (data : PerfMetricsData) (p' : Provider) (c0 : Correlator).
Hypothesis Hrecords : m_records data <> [].
Hypothesis Hsmall : Z.of_nat (length (m_records data)) < 2 ^ 32.
Hypothesis Hc : m_correlator p' = AnalyzeRecords (m_records data) c0.

#[local] Abbreviation c := (m_correlator p').

Lemma template_small :
  Z.of_nat (length (template_draws data)) < 2 ^ 32
  /\ Z.of_nat (length (longest (frames_of (m_records data)))) < 2 ^ 32.
Proof.
  pose proof (template_length (m_records data)).
  pose proof (positions_length (longest (frames_of (m_records data))) 0).
  unfold template_draws. lia.
Qed.

Lemma correlation_agrees : CorrelationEnabled c = draws_agree (m_draw_to_node c) data.
Proof.
  destruct (analyzed_draws (m_records data) c0 Hrecords) as (Hd & _). rewrite <- Hc in Hd.
  unfold CorrelationEnabled, draws_agree. rewrite Hd, length_fmap. f_equal. apply Nat.eqb_sym.
Qed.

Lemma metric_of_draw d : 0 <= d ->
  GetComputedRecordIndexFromDrawIndex d p'
  = if draws_agree (m_draw_to_node c) data then Z.of_nat <$> template_draws data !! Z.to_nat d else None.
Proof.
  intros Hd0. destruct (analyzed_draws (m_records data) c0 Hrecords) as (Hd & _). rewrite <- Hc in Hd.
  destruct template_small as [Ht1 Ht2].
  unfold GetComputedRecordIndexFromDrawIndex, GetMetricFromDraw, RequireCorrelationEnabled.
  rewrite correlation_agrees. destruct (draws_agree _ data); [|done].
  rewrite as_optional_at; [|done|rewrite Hd, length_fmap; unfold template_draws in *; lia|].
  - rewrite Hd, list_lookup_fmap. fold (template_draws data).
    destruct (template_draws data !! Z.to_nat d) as [k|] eqn:Ek; [|done].
    cbn. apply list_elem_of_lookup_2, draw_positions_range in Ek. unfold kInvalidWrapped.
    by rewrite (proj2 (Z.eqb_neq _ _)) by lia.
  - rewrite Hd, Forall_fmap. apply Forall_true. intros x. unfold compose. lia.
Qed.

Lemma draw_of_metric k : 0 <= k ->
  GetDrawIndexFromComputedRecordIndex k p'
  = if draws_agree (m_draw_to_node c) data
    then '(j, _) ← list_find (fun x => x = Z.to_nat k) (template_draws data); Some (Z.of_nat j) else None.
Proof.
  intros Hk0. destruct (analyzed_draws (m_records data) c0 Hrecords) as (_ & Hsize & Hm).
  rewrite <- Hc in *. destruct template_small as [Ht1 Ht2].
  unfold GetDrawIndexFromComputedRecordIndex, GetDrawFromMetric, RequireCorrelationEnabled.
  rewrite correlation_agrees. destruct (draws_agree _ data); [|done]. fold (template_draws data) in Hm.
  rewrite as_optional_at; [|done|lia|].
  - destruct (decide (Z.to_nat k < length (longest (frames_of (m_records data))))%nat) as [Hlt|Hge].
    + rewrite Hm by done. cbn [mbind option_bind].
      destruct (list_find _ _) as [[j x]|] eqn:El; [|by rewrite Z.eqb_refl].
      apply list_find_Some in El as (Hj & _). apply lookup_lt_Some in Hj. unfold kInvalidWrapped.
      by rewrite (proj2 (Z.eqb_neq _ _)) by lia.
    + rewrite (proj2 (lookup_ge_None _ _)) by lia.
      destruct (list_find _ _) as [[j x]|] eqn:El; [|done].
      apply list_find_Some in El as (Hj & -> & _).
      apply list_elem_of_lookup_2, draw_positions_range in Hj. lia.
  - apply Forall_lookup. intros i x Hi. pose proof (lookup_lt_Some _ _ _ Hi) as Hlt.
    rewrite Hsize in Hlt. rewrite Hm in Hi by done. injection Hi as <-.
    destruct (list_find _ _) as [[j ?]|]; [lia|]. unfold kInvalidWrapped. lia.
Qed.

Lemma maps_inverse d k : 0 <= d -> 0 <= k ->
  GetComputedRecordIndexFromDrawIndex d p' = Some k <-> GetDrawIndexFromComputedRecordIndex k p' = Some d.
Proof.
  intros Hd0 Hk0. rewrite metric_of_draw, draw_of_metric by done.
  destruct (draws_agree _ data); [|done]. rewrite fmap_Some. split.
  - intros (k' & Hk' & ->). rewrite Nat2Z.id. apply found_at in Hk'. unfold template_draws. rewrite Hk'.
    cbn. by rewrite Z2Nat.id.
  - destruct (list_find _ _) as [[j x]|] eqn:El; [|done]. cbn. intros [= <-].
    apply list_find_Some in El as (Hj & -> & _). exists (Z.to_nat k). rewrite Nat2Z.id, Z2Nat.id by done. done.
Qed.

End Matched.

(** A node that is a draw of the hierarchy, and its number. *)
Lemma draw_of_node h c0 d node :
  (forall hierarchy, h = Some hierarchy -> hierarchy_size hierarchy < 2 ^ 64 - 1) ->
  commands_of h = Done c0 -> m_draw_to_node c0 !! d = Some node ->
  wrapped_value node = true /\ m_node_to_draw c0 !! node = Some (Z.of_nat d).
Proof.
  intros Hh Hc0 Hnode. destruct h as [hierarchy|]; [|cbn in Hc0; by injection Hc0 as <-].
  destruct (commands_of_inv hierarchy c0 Hc0) as (kinds & Hkl & Hk & E).
  pose proof (scanned_draws kinds) as Hs. destruct (scan_end _) as [ds m]. injection E as E1 E2.
  destruct Hs as [Eds Hs]. rewrite E1 in Hnode. split; [|rewrite E2; by apply Hs].
  rewrite Eds in Hnode. apply list_elem_of_lookup_2 in Hnode.
  assert (exists j, node = Z.of_nat j /\ (j < length kinds)%nat) as (j & -> & Hj).
  { unfold draws_of in Hnode. case_bool_decide.
    - apply gfxr_kind in Hnode as (j & -> & Hj). apply lookup_lt_Some in Hj. by exists j.
    - apply outside_kind in Hnode as (j & -> & Hj). apply lookup_lt_Some in Hj. by exists j. }
  specialize (Hh hierarchy eq_refl). unfold wrapped_value, kInvalidWrapped.
  apply negb_true_iff, Z.eqb_neq. lia.
Qed.

(** ** The draws of a hierarchy *)

Section HierarchyDraws.

Context (h : CommandHierarchy).

Definition is_submit (i : Z) : Prop := GetNodeType i h = Done kSubmitNode.
Definition is_render_marker (i : Z) : Prop := GetNodeType i h = Done kRenderMarkerNode.

(** The event of a draw or of a dispatch. *)
Definition is_draw_event (i : Z) : Prop :=
  GetNodeType i h = Done kEventNode /\
  exists type, GetEventNodeType i h = Done type /\ (type = kDraw \/ type = kDispatch).

Definition is_gfxr_draw (i : Z) : Prop := GetNodeType i h = Done kGfxrVulkanDrawCommandNode.

(** The last render marker or submit before the node is the marker of a tile pass: one
    that is hidden when only binning passes are shown. *)
Definition in_tile_pass (i : Z) : Prop :=
  exists j, 0 <= j < i /\ is_render_marker j /\ j ∈ GetFilterExcludeIndices kBinningPassOnly h /\
    forall k, j < k < i -> ~ is_submit k /\ ~ is_render_marker k.

(** The nodes with [P], in order. *)
Definition nodes_with (P : Z -> Prop) (nodes : list Z) : Prop :=
  StronglySorted Z.lt nodes /\ forall i, i ∈ nodes <-> 0 <= i < hierarchy_size h /\ P i.

(** The draws of the hierarchy: the draws and dispatches outside of tile passes, and
    those of the GFXR capture if there are none. *)
Definition hierarchy_draws (nodes : list Z) : Prop :=
  (nodes <> [] /\ nodes_with (fun i => is_draw_event i /\ ~ in_tile_pass i) nodes) \/
  (nodes_with (fun i => is_draw_event i /\ ~ in_tile_pass i) [] /\ nodes_with is_gfxr_draw nodes).

Lemma node_kind_spec i kind : node_kind i h = Done kind ->
  (is_submit i <-> kind = SubmitKind) /\ (is_render_marker i <-> exists tile, kind = MarkerKind tile) /\
  (is_draw_event i <-> kind = DrawKind) /\ (is_gfxr_draw i <-> kind = GfxrDrawKind) /\
  forall tile, kind = MarkerKind tile -> tile = bool_decide (i ∈ GetFilterExcludeIndices kBinningPassOnly h).
Proof.
  unfold node_kind, is_submit, is_render_marker, is_draw_event, is_gfxr_draw.
  destruct (GetNodeType i h) as [type| |]; cbn [mbind outcome_bind]; [|done..].
  destruct type; cbn [mbind outcome_bind]; try (intros [= <-]; split_and!; naive_solver).
  destruct (GetEventNodeType i h) as [type| |]; cbn [mbind outcome_bind]; [|done..].
  destruct (Z.eqb_spec type kDraw), (Z.eqb_spec type kDispatch); cbn [orb]; intros [= <-];
    split_and!; naive_solver.
Qed.

(** Whether the node at [j] is in a tile pass, when [tile] says so of the one before. *)
Definition tile_at (kinds : list NodeKind) (tile : bool) (j : nat) : Prop :=
  (exists k, (k < j)%nat /\ kinds !! k = Some (MarkerKind true) /\
     forall l kind, (k < l < j)%nat -> kinds !! l = Some kind -> kind <> SubmitKind /\ forall t, kind <> MarkerKind t) \/
  (tile = true /\
     forall l kind, (l < j)%nat -> kinds !! l = Some kind -> kind <> SubmitKind /\ forall t, kind <> MarkerKind t).

Lemma tile_at_0 kinds tile : tile_at kinds tile 0 <-> tile = true.
Proof.
  unfold tile_at. split.
  - intros [(k & Hk & _)|[H _]]; [lia|done].
  - intros H. right. split; [done|]. lia.
Qed.

Lemma tile_at_S kind kinds tile j :
  tile_at (kind :: kinds) tile (S j)
  <-> tile_at kinds (match kind with SubmitKind => false | MarkerKind t => t | _ => tile end) j.
Proof.
  assert (Hrest : forall from, (forall l k, (from < l < S j)%nat -> (kind :: kinds) !! l = Some k ->
              k <> SubmitKind /\ forall t, k <> MarkerKind t) <->
            (forall l k, (from <= l < j)%nat -> kinds !! l = Some k ->
              k <> SubmitKind /\ forall t, k <> MarkerKind t)).
  { intros from. split.
    - intros H l k Hl Hk. apply (H (S l)); [lia|done].
    - intros H [|l] k Hl Hk; [lia|]. apply (H l); [lia|done]. }
  unfold tile_at. split.
  - intros [(k & Hk & Hm & Hb)|[Ht Hb]].
    + destruct k as [|k]; simplify_eq/=.
      * right. split; [done|]. intros l k Hl. apply (proj1 (Hrest 0%nat)); [exact Hb|lia].
      * left. exists k. split; [lia|]. split; [done|]. intros l k' Hl Hk'. apply (Hb (S l)); [lia|done].
    + right. assert (Hb0 : kind <> SubmitKind /\ forall t, kind <> MarkerKind t) by (apply (Hb 0%nat); [lia|done]).
      split; [destruct kind; naive_solver|]. intros l k Hl Hk. apply (Hb (S l)); [lia|done].
  - intros [(k & Hk & Hm & Hb)|[Ht Hb]].
    + left. exists (S k). split; [lia|]. split; [done|]. intros [|l] k' Hl Hk'; [lia|]. apply (Hb l); [lia|done].
    + assert (Hgt : forall l k, (0 < l < S j)%nat -> (kind :: kinds) !! l = Some k ->
                k <> SubmitKind /\ forall t, k <> MarkerKind t).
      { apply Hrest. intros l k Hl. apply Hb. lia. }
      destruct kind as [|t| | |]; [done|subst t; left; exists 0%nat; split_and!; [lia|done|exact Hgt]|..];
        (right; split; [done|]; intros [|l] k Hl Hk; [simplify_eq/=; done|apply (Hgt (S l)); [lia|done]]).
Qed.

Lemma elem_of_outside kinds i tile n :
  n ∈ outside kinds i tile <->
  exists j, n = i + Z.of_nat j /\ kinds !! j = Some DrawKind /\ ~ tile_at kinds tile j.
Proof.
  revert i tile. induction kinds as [|kind kinds IH]; intros i tile.
  { cbn. rewrite elem_of_nil. split; [done|]. by intros (j & _ & Hj & _). }
  set (t := match kind with SubmitKind => false | MarkerKind t => t | _ => tile end).
  assert (n ∈ outside (kind :: kinds) i tile <->
          (n = i /\ kind = DrawKind /\ tile = false) \/ n ∈ outside kinds (i + 1) t) as ->.
  { subst t. destruct kind; cbn [outside]; try naive_solver. rewrite elem_of_app.
    destruct tile; rewrite ?elem_of_nil, ?list_elem_of_singleton; naive_solver. }
  rewrite IH. split.
  - intros [(-> & -> & ->)|(j & -> & Hj & Ht)].
    + exists 0%nat. split_and!; [lia|done|]. by rewrite tile_at_0.
    + exists (S j). split_and!; [lia|done|]. by rewrite tile_at_S.
  - intros ([|j] & -> & Hj & Ht).
    + left. rewrite tile_at_0 in Ht. simplify_eq/=. split_and!; [lia|done|by destruct tile].
    + right. exists j. rewrite tile_at_S in Ht. split_and!; [lia|done|done].
Qed.

Lemma elem_of_gfxr_nodes kinds i n :
  n ∈ gfxr_nodes kinds i <-> exists j, n = i + Z.of_nat j /\ kinds !! j = Some GfxrDrawKind.
Proof.
  split; [apply gfxr_kind|]. intros (j & -> & Hj). revert i j Hj.
  induction kinds as [|kind kinds IH]; intros i [|j] Hj; simplify_eq/=.
  - rewrite Z.add_0_r. apply elem_of_cons. by left.
  - replace (i + Z.of_nat (S j)) with (i + 1 + Z.of_nat j) by lia. specialize (IH (i + 1) j Hj).
    destruct kind; try exact IH. by right.
Qed.

Lemma outside_sorted kinds i tile : StronglySorted Z.lt (outside kinds i tile).
Proof.
  revert i tile. induction kinds as [|kind kinds IH]; intros i tile; cbn [outside]; [constructor|].
  destruct kind; try apply IH. destruct tile; [apply IH|]. constructor; [apply IH|].
  apply Forall_forall. intros x (j & -> & _)%elem_of_outside. lia.
Qed.

Lemma gfxr_sorted kinds i : StronglySorted Z.lt (gfxr_nodes kinds i).
Proof.
  revert i. induction kinds as [|kind kinds IH]; intros i; cbn [gfxr_nodes]; [constructor|].
  destruct kind; try apply IH. constructor; [apply IH|].
  apply Forall_forall. intros x (j & -> & _)%elem_of_gfxr_nodes. lia.
Qed.

Section Kinds.

Context (kinds : list NodeKind).
Hypothesis Hlen : length kinds = Z.to_nat (hierarchy_size h).
Hypothesis Hkinds : kinds_at h 0 kinds.

Lemma kind_of_node i : 0 <= i < hierarchy_size h ->
  exists kind, kinds !! Z.to_nat i = Some kind /\ node_kind i h = Done kind.
Proof.
  intros Hi. destruct (lookup_lt_is_Some_2 kinds (Z.to_nat i)) as [kind Hk]; [lia|].
  exists kind. split; [done|]. apply Hkinds in Hk. by rewrite Z.add_0_l, Z2Nat.id in Hk by lia.
Qed.

Lemma kinds_lookup j kind : kinds !! j = Some kind -> node_kind (Z.of_nat j) h = Done kind.
Proof. apply Hkinds. Qed.

Lemma tile_at_pass j : (j < length kinds)%nat -> tile_at kinds false j <-> in_tile_pass (Z.of_nat j).
Proof.
  intros Hj. unfold tile_at, in_tile_pass. split.
  - intros [(k & Hk & Hm & Hb)|[]]; [|done]. exists (Z.of_nat k).
    pose proof (node_kind_spec _ _ (kinds_lookup _ _ Hm)) as (_ & Hmk & _ & _ & Ht).
    split_and!; [lia|lia|apply Hmk; eauto|by eapply bool_decide_eq_true_1; rewrite <- (Ht true)|].
    intros l Hl. destruct (kind_of_node l) as (kind & Hkl & Hkind); [lia|].
    destruct (Hb (Z.to_nat l) kind) as [H1 H2]; [lia|done|].
    destruct (node_kind_spec _ _ Hkind) as (-> & -> & _). split; [done|]. intros [t ->]. by apply (H2 t).
  - intros (k & Hk & Hm & Hin & Hb). left. exists (Z.to_nat k). split; [lia|].
    destruct (kind_of_node k) as (kind & Hkk & Hkind); [lia|].
    pose proof (node_kind_spec _ _ Hkind) as (_ & Hmk & _ & _ & Ht).
    apply Hmk in Hm as [t ->]. rewrite (Ht t eq_refl), bool_decide_true in Hkk by done. split; [done|].
    intros l kind Hl Hkl%kinds_lookup. destruct (Hb (Z.of_nat l)) as [H1 H2]; [lia|].
    destruct (node_kind_spec _ _ Hkl) as (E1 & E2 & _). split; [by rewrite <- E1|].
    intros t' ->. apply H2, E2. eauto.
Qed.

Lemma outside_nodes : nodes_with (fun i => is_draw_event i /\ ~ in_tile_pass i) (outside kinds 0 false).
Proof.
  split; [apply outside_sorted|]. intros i. rewrite elem_of_outside. split.
  - intros (j & -> & Hj & Ht). rewrite Z.add_0_l. pose proof (lookup_lt_Some _ _ _ Hj) as Hlt.
    rewrite tile_at_pass in Ht by done. split; [lia|]. split; [|done].
    by apply (node_kind_spec _ _ (kinds_lookup _ _ Hj)).
  - intros (Hi & Hd & Ht). exists (Z.to_nat i). split; [lia|].
    destruct (kind_of_node i Hi) as (kind & Hk & Hkind). split.
    + rewrite Hk. f_equal. by apply (node_kind_spec _ _ Hkind).
    + rewrite tile_at_pass by lia. by rewrite Z2Nat.id by lia.
Qed.

Lemma gfxr_nodes_with : nodes_with is_gfxr_draw (gfxr_nodes kinds 0).
Proof.
  split; [apply gfxr_sorted|]. intros i. rewrite elem_of_gfxr_nodes. split.
  - intros (j & -> & Hj). rewrite Z.add_0_l. pose proof (lookup_lt_Some _ _ _ Hj) as Hlt.
    split; [lia|]. by apply (node_kind_spec _ _ (kinds_lookup _ _ Hj)).
  - intros (Hi & Hd). exists (Z.to_nat i). split; [lia|].
    destruct (kind_of_node i Hi) as (kind & Hk & Hkind). rewrite Hk. f_equal.
    by apply (node_kind_spec _ _ Hkind).
Qed.

Lemma draws_of_hierarchy : hierarchy_draws (draws_of kinds).
Proof.
  unfold draws_of, hierarchy_draws. pose proof outside_nodes as Ho. case_bool_decide as E.
  - right. rewrite E in Ho. split; [done|apply gfxr_nodes_with].
  - by left.
Qed.
End Kinds.
End HierarchyDraws.

Lemma commands_draws h c : commands_of h = Done c ->
  match h with Some h => hierarchy_draws h (m_draw_to_node c) | None => m_draw_to_node c = [] end.
Proof.
  destruct h as [h|]; [|by intros [= <-]].
  intros (kinds & Hlen & Hk & E)%commands_of_inv. pose proof (scanned_draws kinds) as Hs.
  destruct (scan_end _) as [ds m]. injection E as -> _. destruct Hs as [-> _]. by apply draws_of_hierarchy.
Qed.

(** C24: draws, records and nodes are matched one to one. When the hierarchy has no
    draws, or as many as the template (the first of the longest frames), the [d]th draw
    is the template's [d]th record of a draw or a dispatch, and the way back from a
    record gives the same pairs; otherwise nothing is matched. A node that is the [d]th
    draw of the hierarchy has the record of the [d]th draw. The draws of the hierarchy
    are, in the order of its nodes, the events of draws and dispatches outside of tile
    passes, and if there are none the draws of the GFXR capture. This is for less than
    2^32 records, at least one, less than 2^64 - 1 nodes, and whenever the analysis
    answers. *)
Theorem draws_correlated (h : option CommandHierarchy) (p p' : Provider) (data : PerfMetricsData) :
  m_raw_data p = Some data -> m_records data <> [] ->
  Z.of_nat (length (m_records data)) < 2 ^ 32 ->
  (forall hierarchy, h = Some hierarchy -> hierarchy_size hierarchy < 2 ^ 64 - 1) ->
  Analyze h p = Done p' ->
  let nodes := m_draw_to_node (m_correlator p') in
  (forall d, 0 <= d ->
     GetComputedRecordIndexFromDrawIndex d p'
     = if draws_agree nodes data then Z.of_nat <$> template_draws data !! Z.to_nat d else None)
  /\ (forall d k, 0 <= d -> 0 <= k ->
        GetComputedRecordIndexFromDrawIndex d p' = Some k <-> GetDrawIndexFromComputedRecordIndex k p' = Some d)
  /\ (forall d node, nodes !! d = Some node ->
        GetCorrelatedComputedRecordIndex node p' = GetComputedRecordIndexFromDrawIndex (Z.of_nat d) p')
  /\ match h with Some hierarchy => hierarchy_draws hierarchy nodes | None => nodes = [] end.
Proof.
  intros Hd Hne Hlen Hh H. destruct (Analyze_inv h p p' data H Hd) as (c0 & Hc0 & _ & _ & Hc & _).
  split; [intros d; by apply (metric_of_draw data p' c0)|].
  split; [intros d k; by apply (maps_inverse data p' c0)|].
  destruct (AnalyzeRecords_nodes (m_records data) c0) as [Hn Hm]. rewrite <- Hc in Hn, Hm.
  split; [|rewrite Hn; by apply commands_draws].
  intros d node Hnode. rewrite Hn in Hnode.
  destruct (draw_of_node h c0 d node Hh Hc0 Hnode) as [Hv Hmap].
  unfold GetCorrelatedComputedRecordIndex, GetMetricFromNode, GetComputedRecordIndexFromDrawIndex,
    GetDrawFromNode, into_map. by rewrite Hv, Hm, Hmap.
Qed.

(** ** Tile passes *)

Lemma scan_app a b i s : scan_kinds (a ++ b) i s = scan_kinds b (i + Z.of_nat (length a)) (scan_kinds a i s).
Proof.
  revert i s. induction a as [|k a IH]; intros i s; [by rewrite Z.add_0_r|].
  cbn [app scan_kinds length]. rewrite IH. f_equal. lia.
Qed.

Lemma outside_app a b i : exists tile,
  outside (a ++ b) i false = outside a i false ++ outside b (i + Z.of_nat (length a)) tile.
Proof.
  generalize false at 1 2 as t. intros t. revert i t. induction a as [|k a IH]; intros i t.
  { exists t. by rewrite Z.add_0_r. }
  replace (i + Z.of_nat (length (k :: a))) with (i + 1 + Z.of_nat (length a)) by (cbn [length]; lia).
  destruct k; cbn [app outside]; try apply IH.
  destruct (IH (i + 1) t) as [t' E]. exists t'. by rewrite E, app_assoc.
Qed.

Lemma dedupe_keeps s n : n ∉ alias_draws s -> node_to_draw (dedupe s) !! n = node_to_draw s !! n.
Proof. intros Hn. unfold dedupe. cbn [node_to_draw]. destruct (_ <=? _)%nat; [by apply number_nodes_other|done]. Qed.

Lemma scan_keeps kinds i s n : n < i -> n ∉ alias_draws s ->
  node_to_draw (dedupe (scan_kinds kinds i s)) !! n = node_to_draw s !! n.
Proof.
  revert i s. induction kinds as [|kind kinds IH]; intros i s Hi Hn; [by apply dedupe_keeps|].
  cbn [scan_kinds]. destruct kind; cbn [scan_node].
  - rewrite IH by (lia || apply not_elem_of_nil). by apply dedupe_keeps.
  - rewrite IH by (lia || apply not_elem_of_nil). by apply dedupe_keeps.
  - by rewrite IH by (lia || done).
  - unfold push_draw. destruct (into_alias s).
    + rewrite IH; [done|lia|]. cbn [alias_draws]. rewrite not_elem_of_app, list_elem_of_singleton.
      split; [done|lia].
    + by rewrite IH by (lia || done).
  - by rewrite IH by (lia || done).
Qed.

(** Nodes within a pass: nothing that ends it. *)
Definition within_pass (kind : NodeKind) : Prop :=
  match kind with SubmitKind | MarkerKind _ => False | _ => True end.

Definition ends_pass (kinds : list NodeKind) : Prop :=
  match kinds with [] => True | kind :: _ => ~ within_pass kind end.

Lemma scan_tile mid i s : into_alias s = true -> Forall within_pass mid ->
  node_to_draw (scan_kinds mid i s) = node_to_draw s
  /\ actual_draws (scan_kinds mid i s) = actual_draws s
  /\ alias_draws (scan_kinds mid i s) = alias_draws s ++ outside mid i false.
Proof.
  intros Hs Hm. revert i s Hs. induction Hm as [|kind mid Hk _ IH]; intros i s Hs.
  { cbn. by rewrite app_nil_r. }
  cbn [scan_kinds outside]. destruct kind; try done; cbn [scan_node].
  - destruct (IH (i + 1) (mkScan (node_to_draw s) (gfxr_draws s ++ [i]) (actual_draws s) (alias_draws s)
      (into_alias s)) Hs) as (-> & -> & ->). done.
  - unfold push_draw. rewrite Hs.
    destruct (IH (i + 1) (mkScan (node_to_draw s) (gfxr_draws s) (actual_draws s) (alias_draws s ++ [i])
      true) eq_refl) as (-> & -> & ->). cbn. by rewrite <- app_assoc.
  - by apply IH.
Qed.

Lemma outside_within mid post i : Forall within_pass mid ->
  outside (mid ++ post) i true = outside post (i + Z.of_nat (length mid)) true.
Proof.
  intros Hm. revert i. induction Hm as [|kind mid Hk _ IH]; intros i; [by rewrite Z.add_0_r|].
  cbn [app length]. replace (i + Z.of_nat (S (length mid))) with (i + 1 + Z.of_nat (length mid)) by lia.
  rewrite <- IH. by destruct kind.
Qed.

Section Tile.

Context (pre mid post : list NodeKind).
Hypothesis Hmid : Forall within_pass mid.
Hypothesis Hpost : ends_pass post.

#[local] Abbreviation kinds := (pre ++ MarkerKind true :: mid ++ post).

(** The draws found before the tile pass, and its own. *)
Definition binning_draws : list Index := outside pre 0 false.
Definition tile_draws : list Index := outside mid (Z.of_nat (length pre) + 1) false.

Lemma tile_scanned node :
  node < Z.of_nat (length pre) + 1 + Z.of_nat (length mid) ->
  node_to_draw (dedupe (scan_kinds kinds 0 new_DrawScan)) !! node
  = if bool_decide (node ∈ tile_draws) && (length tile_draws <=? length binning_draws)%nat
    then number_nodes tile_draws (Z.of_nat (length binning_draws) - Z.of_nat (length tile_draws)) ∅ !! node
    else node_to_draw (dedupe (scan_kinds pre 0 new_DrawScan)) !! node.
Proof.
  intros Hnode. rewrite scan_app. cbn [scan_kinds scan_node]. rewrite Z.add_0_l, scan_app.
  pose proof (scan_actual pre 0 new_DrawScan) as Ha. cbn [new_DrawScan actual_draws app into_alias] in Ha.
  set (s1 := scan_kinds pre 0 new_DrawScan) in *. fold new_DrawScan in s1.
  set (s2 := mkScan _ _ _ _ true).
  destruct (scan_tile mid (Z.of_nat (length pre) + 1) s2 eq_refl Hmid) as (E1 & E2 & E3).
  set (s3 := scan_kinds mid _ s2) in *. fold tile_draws in E3. cbn [alias_draws s2 app dedupe] in E3.
  change (actual_draws s2) with (actual_draws s1) in E2. rewrite Ha in E2. fold binning_draws in E2.
  assert (forall n, node_to_draw (dedupe s3) !! n
    = if bool_decide (n ∈ tile_draws) && (length tile_draws <=? length binning_draws)%nat
      then number_nodes tile_draws (Z.of_nat (length binning_draws) - Z.of_nat (length tile_draws)) ∅ !! n
      else node_to_draw (dedupe s1) !! n) as H3.
  { intros n. unfold dedupe at 1. cbn [node_to_draw]. rewrite E1, E2, E3.
    change (node_to_draw s2) with (node_to_draw (dedupe s1)).
    destruct (_ <=? _)%nat; [|by rewrite andb_false_r]. rewrite andb_true_r.
    case_bool_decide as Hin; [|by apply number_nodes_other].
    apply list_elem_of_lookup_1 in Hin as [j Hj].
    by rewrite !(number_nodes_at _ _ _ j) by (done || apply outside_NoDup). }
  destruct post as [|kind post']; [apply H3|]. cbn [scan_kinds].
  rewrite <- H3. destruct kind; cbn in Hpost; try (exfalso; by apply Hpost);
    by rewrite scan_keeps by (lia || apply not_elem_of_nil).
Qed.

Lemma tile_numbered j node :
  (length tile_draws <= length binning_draws)%nat -> tile_draws !! j = Some node ->
  (scan_end (scan_kinds kinds 0 new_DrawScan)).2 !! node
  = Some (Z.of_nat (length binning_draws - length tile_draws + j)).
Proof.
  intros Hle Hj. apply list_elem_of_lookup_2 in Hj as Hin.
  pose proof Hin as (k & Hk & Hkind)%outside_kind. pose proof (lookup_lt_Some _ _ _ Hkind) as Hlt.
  assert (kinds !! (length pre + S k)%nat = Some DrawKind) as Hall.
  { rewrite lookup_app_r by lia. replace (length pre + S k - length pre)%nat with (S k) by lia.
    change ((mid ++ post) !! k = Some DrawKind). by rewrite lookup_app_l. }
  unfold scan_end. cbn [snd]. rewrite !number_nodes_other.
  - rewrite tile_scanned by lia. rewrite bool_decide_true, (proj2 (Nat.leb_le _ _)) by done. cbn [andb].
    rewrite (number_nodes_at _ _ _ j) by (done || apply outside_NoDup). f_equal. lia.
  - unfold dedupe. cbn [actual_draws]. rewrite scan_actual. cbn [new_DrawScan actual_draws app into_alias].
    destruct (outside_app pre (MarkerKind true :: mid ++ post) 0) as [tile ->].
    rewrite not_elem_of_app. split.
    + intros (k' & E & Hk')%outside_kind. apply lookup_lt_Some in Hk'. lia.
    + cbn [outside]. clear tile. intros Hout. revert Hout.
      rewrite outside_within by done. intros (k' & E & _)%outside_kind. lia.
  - unfold dedupe. cbn [gfxr_draws]. rewrite scan_gfxr. cbn [new_DrawScan gfxr_draws app].
    intros (k' & E & Hk')%gfxr_kind. assert (k' = length pre + S k)%nat as -> by lia. congruence.
Qed.

End Tile.

Lemma kinds_unique h i ks ks' : length ks = length ks' -> kinds_at h i ks -> kinds_at h i ks' -> ks = ks'.
Proof.
  intros Hl H H'. apply list_eq_same_length with (n := length ks); [done|done|].
  intros j x y _ Hx Hy. apply H in Hx. apply H' in Hy. congruence.
Qed.

(** The draws of a tile pass have the records of the draws of the binning pass that
    they repeat. In any capture whose nodes fall into a part with [n] draws outside of
    tile passes, a marker of a tile pass, nodes without another marker or submit among
    which there are [m] draws, [m] not more than [n], and a rest that starts with a
    marker or a submit (or is empty), the [j]th draw of the tile pass is correlated with
    the same computed record as the draw number [n - m + j] of the first part. *)
Theorem tile_passes_correlated (h : CommandHierarchy) (p p' : Provider) (data : PerfMetricsData)
    (pre mid post : list NodeKind) (j : nat) (node node' : Z) :
  m_raw_data p = Some data -> Analyze (Some h) p = Done p' -> hierarchy_size h < 2 ^ 64 - 1 ->
  let kinds := pre ++ MarkerKind true :: mid ++ post in
  length kinds = Z.to_nat (hierarchy_size h) -> kinds_at h 0 kinds ->
  Forall within_pass mid -> ends_pass post ->
  let binning := binning_draws pre in
  let tile := tile_draws pre mid in
  (length tile <= length binning)%nat -> tile !! j = Some node ->
  binning !! (length binning - length tile + j)%nat = Some node' ->
  GetCorrelatedComputedRecordIndex node p' = GetCorrelatedComputedRecordIndex node' p'.
Proof.
  intros Hd H Hsize kinds Hlen Hkinds Hmid Hpost binning tile Hle Hj Hj'.
  destruct (Analyze_inv (Some h) p p' data H Hd) as (c0 & Hc0 & _ & _ & Hc & _).
  destruct (AnalyzeRecords_nodes (m_records data) c0) as [_ Hm]. rewrite <- Hc in Hm.
  destruct (commands_of_inv h c0 Hc0) as (kinds' & Hl' & Hk' & E).
  assert (kinds' = kinds) as -> by (apply (kinds_unique h 0); [by rewrite Hl', Hlen|done|done]).
  pose proof (tile_numbered pre mid post Hmid Hpost j node Hle Hj) as Hnode.
  pose proof (scanned_draws kinds) as Hs. fold kinds in Hnode. destruct (scan_end _) as [ds m].
  injection E as _ E2. cbn [snd] in Hnode. destruct Hs as [Eds Hs].
  assert (m !! node' = Some (Z.of_nat (length binning - length tile + j))) as Hnode'.
  { apply Hs. rewrite Eds. unfold draws_of.
    destruct (outside_app pre (MarkerKind true :: mid ++ post) 0) as [t Et].
    unfold kinds. rewrite Et. rewrite bool_decide_false; [by apply lookup_app_l_Some|].
    fold (binning_draws pre) binning. by destruct binning. }
  assert (forall n, n ∈ tile \/ n ∈ binning -> wrapped_value n = true) as Hv.
  { intros n Hn. unfold wrapped_value, kInvalidWrapped. apply negb_true_iff, Z.eqb_neq.
    unfold kinds in Hlen. rewrite length_app in Hlen. cbn [length] in Hlen. rewrite length_app in Hlen.
    destruct Hn as [(k & -> & Hk)%outside_kind|(k & -> & Hk)%outside_kind]; apply lookup_lt_Some in Hk; lia. }
  unfold GetCorrelatedComputedRecordIndex, GetMetricFromNode, GetDrawFromNode, into_map.
  rewrite !Hv by (eauto using list_elem_of_lookup_2). by rewrite Hm, E2, Hnode, Hnode'.
Qed.

(** A submit with a binning pass of three draws and a tile pass that repeats two. *)
Definition tiled_nodes : list (NodeType * Z) :=
  [(kRootNode, 0); (kSubmitNode, 0); (kRenderMarkerNode, 0); (kEventNode, 2 ^ 32); (kEventNode, 2 * 2 ^ 32);
   (kPacketNode, 0); (kEventNode, 3 * 2 ^ 32); (kEventNode, 2 ^ 32); (kRenderMarkerNode, 0);
   (kEventNode, 2 * 2 ^ 32); (kEventNode, 2 ^ 32); (kRenderMarkerNode, 0)].

Definition tiled_hierarchy : CommandHierarchy :=
  mkHierarchy (mkNodes (fst <$> tiled_nodes) ((fun _ => ""%string) <$> tiled_nodes) (snd <$> tiled_nodes) [])
    (mkExclude {[8]} ∅ ∅) (mkPerTopology new_SharedNodeTopology new_SharedNodeTopology).

Definition tiled_data : PerfMetricsData :=
  mkPerfData ["COUNTER_A"; "COUNTER_B"]%string [None; None]
    [some_record 5 1 30 40; mkRecord 1 100 5 10000 2 1 7 2 2 [d_zero; d_zero]; some_record 5 3 50 60;
     some_record 5 4 70 80].

Definition tiled_kinds : list NodeKind * list NodeKind * list NodeKind :=
  ([OtherKind; SubmitKind; MarkerKind false; DrawKind; DrawKind; OtherKind; OtherKind; DrawKind],
   [DrawKind; DrawKind], [MarkerKind false]).

Lemma draws_correlated_witness :
  exists p', Analyze (Some tiled_hierarchy) (Create (Some tiled_data)) = Done p'
    /\ GetComputedRecordIndexFromDrawIndex 1 p' = Some 2
    /\ GetCorrelatedComputedRecordIndex 4 p' = Some 2
    /\ GetDrawIndexFromComputedRecordIndex 2 p' = Some 1.
Proof.
  destruct (Analyze (Some tiled_hierarchy) (Create (Some tiled_data))) as [p'| |] eqn:E;
    [|vm_compute in E; discriminate|vm_compute in E; discriminate].
  exists p'. split; [reflexivity|].
  destruct (draws_correlated (Some tiled_hierarchy) (Create (Some tiled_data)) p' tiled_data) as (H1 & H2 & H3 & _);
    [reflexivity|discriminate|vm_compute; reflexivity| |exact E|].
  - intros h [= <-]. vm_compute. reflexivity.
  - assert (m_draw_to_node (m_correlator p') = [3; 4; 7]) as En.
    { vm_compute in E. injection E as <-. reflexivity. }
    rewrite En in *. assert (GetComputedRecordIndexFromDrawIndex 1 p' = Some 2) as H.
    { rewrite H1 by lia. vm_compute. reflexivity. }
    split; [exact H|]. split; [rewrite (H3 1%nat 4 eq_refl); exact H|]. apply H2; [lia|lia|exact H].
Defined.

Lemma tile_passes_correlated_witness :
  exists p', Analyze (Some tiled_hierarchy) (Create (Some tiled_data)) = Done p'
    /\ GetCorrelatedComputedRecordIndex 10 p' = GetCorrelatedComputedRecordIndex 7 p'
    /\ GetCorrelatedComputedRecordIndex 7 p' = Some 3.
Proof.
  destruct (Analyze (Some tiled_hierarchy) (Create (Some tiled_data))) as [p'| |] eqn:E;
    [|vm_compute in E; discriminate|vm_compute in E; discriminate].
  exists p'. split; [reflexivity|]. split.
  - apply (tile_passes_correlated tiled_hierarchy (Create (Some tiled_data)) p' tiled_data
             tiled_kinds.1.1 tiled_kinds.1.2 tiled_kinds.2 1 10 7);
      [reflexivity|exact E|vm_compute; reflexivity|reflexivity| | |intros []|vm_compute; lia|reflexivity|reflexivity].
    + intros j kind Hj. do 12 (destruct j as [|j]; [injection Hj as <-; vm_compute; reflexivity|]). discriminate.
    + repeat constructor.
  - vm_compute in E. injection E as <-. vm_compute. reflexivity.
Defined.
