(* ===== verification/DumpResources.v ===== *)
(** * Finding the resources to dump

    [src/gfxr_dump_resources]: the entries ([dump_entry.h]), the state machine of one
    command buffer ([states.cpp], [state_machine.{h,cpp}]) and the consumer that runs
    one of them for each command buffer ([dump_resources_builder_consumer.cpp]). The
    consumer is fed by gfxreconstruct with the calls of a capture ([Call]); functions
    that a state does not handle are the empty ones of [VulkanConsumer]. *)

From S2P Require Import Prelude.
From stdpp Require Import sorting.
#[local] Open Scope Z_scope.

(** ** Entries *)

Record DumpRenderPass := mkDumpRenderPass { begin_block_index : Z; end_block_index : Z }.

Definition RenderPass_IsComplete (p : DumpRenderPass) : bool :=
  negb (begin_block_index p =? 0) && negb (end_block_index p =? 0).

Record DumpEntry := mkDumpEntry {
  begin_command_buffer_block_index : Z;
  render_passes : list DumpRenderPass;
  draws : list Z;
  queue_submit_block_index : Z;
}.

Definition DumpEntry_IsComplete (e : DumpEntry) : bool :=
  negb (begin_command_buffer_block_index e =? 0) && negb (queue_submit_block_index e =? 0)
  && negb (bool_decide (render_passes e = [])) && negb (bool_decide (draws e = []))
  && forallb RenderPass_IsComplete (render_passes e).

#[global] Instance DumpRenderPass_eq_dec : EqDecision DumpRenderPass.
Proof. solve_decision. Defined.

#[global] Instance DumpEntry_eq_dec : EqDecision DumpEntry.
Proof. solve_decision. Defined.

(** ** The state machine *)

Abbreviation HandleId := Z (only parsing).

Inductive MachineState := LookingForBeginCommandBuffer | LookingForBeginRenderPass | LookingForDraw.

Record StateMachine := mkStateMachine {
  command_buffer_ : HandleId;
  state_ : MachineState;
  dump_entry_ : DumpEntry;
}.

Definition new_StateMachine (command_buffer : HandleId) : StateMachine :=
  mkStateMachine command_buffer LookingForBeginCommandBuffer (mkDumpEntry 0 [] [] 0).

Definition with_entry (s : MachineState) (e : DumpEntry) (m : StateMachine) : StateMachine :=
  mkStateMachine (command_buffer_ m) s e.

(** The functions of the states; each does nothing in the other states. *)
Definition machine_BeginCommandBuffer (index : Z) (m : StateMachine) : StateMachine :=
  match state_ m with
  | LookingForBeginCommandBuffer =>
      let e := dump_entry_ m in
      with_entry LookingForBeginRenderPass
        (mkDumpEntry index (render_passes e) (draws e) (queue_submit_block_index e)) m
  | _ => m
  end.

Definition machine_BeginRenderPass (index : Z) (m : StateMachine) : StateMachine :=
  match state_ m with
  | LookingForBeginRenderPass =>
      let e := dump_entry_ m in
      with_entry LookingForDraw
        (mkDumpEntry (begin_command_buffer_block_index e)
           (render_passes e ++ [mkDumpRenderPass index 0]) (draws e) (queue_submit_block_index e)) m
  | _ => m
  end.

Definition machine_Draw (index : Z) (m : StateMachine) : StateMachine :=
  match state_ m with
  | LookingForDraw =>
      let e := dump_entry_ m in
      with_entry LookingForDraw
        (mkDumpEntry (begin_command_buffer_block_index e) (render_passes e) (draws e ++ [index])
           (queue_submit_block_index e)) m
  | _ => m
  end.

(** [render_passes.back().end_block_index = index] *)
Definition end_last (index : Z) (passes : list DumpRenderPass) : list DumpRenderPass :=
  alter (fun p => mkDumpRenderPass (begin_block_index p) index) (pred (length passes)) passes.

Definition machine_EndRenderPass (index : Z) (m : StateMachine) : StateMachine :=
  match state_ m with
  | LookingForDraw =>
      let e := dump_entry_ m in
      with_entry LookingForBeginRenderPass
        (mkDumpEntry (begin_command_buffer_block_index e) (end_last index (render_passes e)) (draws e)
           (queue_submit_block_index e)) m
  | _ => m
  end.

(** What a machine does: it goes on, or calls one of its two functions. *)
Inductive Verdict :=
| GoesOn (m : StateMachine)
| Accepts (e : DumpEntry)
| Rejects.

Definition Done (m : StateMachine) : Verdict :=
  if DumpEntry_IsComplete (dump_entry_ m) then Accepts (dump_entry_ m) else Rejects.

(** The command buffers that a vkQueueSubmit visits, submit by submit. The inner
    loops take the number of command buffers from the first submit; [None] is a
    read behind the array of a submit that has fewer. *)
Fixpoint visited (count : nat) (submits : list (list HandleId)) : option (list HandleId) :=
  match submits with
  | [] => Some []
  | submit :: submits =>
      if (count <=? length submit)%nat then
        rest ← visited count submits;
        Some (take count submit ++ rest)
      else None
  end.

Definition submitted_buffers (submits : list (list HandleId)) : option (list HandleId) :=
  visited (length (hd [] submits)) submits.

(** A machine that is asked has its command buffer among the ones visited, or does
    nothing; it stops at the first occurrence, so [ids] is what is read at least. *)
Definition machine_QueueSubmit (index : Z) (ids : list HandleId) (m : StateMachine) : Verdict :=
  match state_ m with
  | LookingForBeginRenderPass =>
      if bool_decide (command_buffer_ m ∈ ids) then
        let e := dump_entry_ m in
        Done (with_entry LookingForBeginRenderPass
               (mkDumpEntry (begin_command_buffer_block_index e) (render_passes e) (draws e) index) m)
      else GoesOn m
  | _ => GoesOn m
  end.

(** ** The consumer *)

Inductive Call :=
| vkBeginCommandBuffer (index : Z) (commandBuffer : HandleId)
| vkCmdBeginRenderPass (index : Z) (commandBuffer : HandleId)
| vkCmdBeginRenderPass2KHR (index : Z) (commandBuffer : HandleId)
| vkCmdDraw (index : Z) (commandBuffer : HandleId)
| vkCmdDrawIndexed (index : Z) (commandBuffer : HandleId)
| vkCmdEndRenderPass (index : Z) (commandBuffer : HandleId)
| vkCmdEndRenderPass2KHR (index : Z) (commandBuffer : HandleId)
| vkQueueSubmit (index : Z) (submits : list (list HandleId)).

(** [found] is what [dump_found_callback_] was called with. *)
Record Consumer := mkConsumer {
  incomplete_dumps_ : gmap HandleId StateMachine;
  found : list DumpEntry;
}.

Definition new_Consumer : Consumer := mkConsumer ∅ [].

Definition InvokeIfFound (command_buffer : HandleId) (function : StateMachine -> Verdict)
    (c : Consumer) : Consumer :=
  match incomplete_dumps_ c !! command_buffer with
  | None => c
  | Some machine =>
      match function machine with
      | GoesOn machine => mkConsumer (<[command_buffer := machine]> (incomplete_dumps_ c)) (found c)
      | Accepts e => mkConsumer (delete command_buffer (incomplete_dumps_ c)) (found c ++ [e])
      | Rejects => mkConsumer (delete command_buffer (incomplete_dumps_ c)) (found c)
      end
  end.

Definition Process_vkBeginCommandBuffer (index : Z) (command_buffer : HandleId) (c : Consumer) :
    Consumer :=
  mkConsumer
    (<[command_buffer := machine_BeginCommandBuffer index (new_StateMachine command_buffer)]>
       (incomplete_dumps_ c)) (found c).

Definition Process_vkQueueSubmit (index : Z) (submits : list (list HandleId)) (c : Consumer) :
    option Consumer :=
  ids ← submitted_buffers submits;
  Some (foldl (fun c id => InvokeIfFound id (machine_QueueSubmit index ids) c) c ids).

Definition Process (call : Call) (c : Consumer) : option Consumer :=
  let invoke cb f := Some (InvokeIfFound cb (fun m => GoesOn (f m)) c) in
  match call with
  | vkBeginCommandBuffer index cb => Some (Process_vkBeginCommandBuffer index cb c)
  | vkCmdBeginRenderPass index cb => invoke cb (machine_BeginRenderPass index)
  | vkCmdBeginRenderPass2KHR index cb => invoke cb (machine_BeginRenderPass index)
  | vkCmdDraw index cb => invoke cb (machine_Draw index)
  | vkCmdDrawIndexed index cb => invoke cb (machine_Draw index)
  | vkCmdEndRenderPass index cb => invoke cb (machine_EndRenderPass index)
  | vkCmdEndRenderPass2KHR index cb => invoke cb (machine_EndRenderPass index)
  | vkQueueSubmit index submits => Process_vkQueueSubmit index submits c
  end.

Fixpoint Process_all (calls : list Call) (c : Consumer) : option Consumer :=
  match calls with
  | [] => Some c
  | call :: calls => c ← Process call c; Process_all calls c
  end.

(** [FindDumpableResources], when the file can be opened. *)
Definition FindDumpableResources (calls : list Call) : option (list DumpEntry) :=
  found <$> Process_all calls new_Consumer.

(** ** What entries and machines look like *)

(** Render passes that lie one after the other between [lo] and [hi]. *)
Fixpoint chain (lo : Z) (passes : list DumpRenderPass) (hi : Z) : Prop :=
  match passes with
  | [] => lo < hi
  | p :: passes => lo < begin_block_index p /\ begin_block_index p < end_block_index p /\
      chain (end_block_index p) passes hi
  end.

Definition drawn_in (passes : list DumpRenderPass) (d : Z) : Prop :=
  exists p, p ∈ passes /\ begin_block_index p < d < end_block_index p.

(** An entry that the replay can use: the blocks are in the order of the calls, and
    every draw lies in one of the render passes. *)
Record usable (e : DumpEntry) : Prop := {
  us_complete : DumpEntry_IsComplete e = true;
  us_begin : 0 < begin_command_buffer_block_index e;
  us_passes : chain (begin_command_buffer_block_index e) (render_passes e) (queue_submit_block_index e);
  us_draws : Forall (drawn_in (render_passes e)) (draws e);
  us_order : StronglySorted Z.lt (draws e);
}.

(** The machine of a command buffer, when all indices so far are below [now]. *)
Record machine_ok (now : Z) (cb : HandleId) (m : StateMachine) : Prop := {
  mo_buffer : command_buffer_ m = cb;
  mo_begin : 0 < begin_command_buffer_block_index (dump_entry_ m);
  mo_state :
    match state_ m with
    | LookingForBeginCommandBuffer => False
    | LookingForBeginRenderPass =>
        chain (begin_command_buffer_block_index (dump_entry_ m)) (render_passes (dump_entry_ m)) now /\
        Forall (drawn_in (render_passes (dump_entry_ m))) (draws (dump_entry_ m))
    | LookingForDraw => exists passes b,
        render_passes (dump_entry_ m) = passes ++ [mkDumpRenderPass b 0] /\ b < now /\
        chain (begin_command_buffer_block_index (dump_entry_ m)) passes b /\
        Forall (fun d => drawn_in passes d \/ b < d) (draws (dump_entry_ m))
    end;
  mo_draws : Forall (fun d => d < now) (draws (dump_entry_ m));
  mo_order : StronglySorted Z.lt (draws (dump_entry_ m));
}.

Definition consumer_ok (now : Z) (c : Consumer) : Prop :=
  map_Forall (machine_ok now) (incomplete_dumps_ c) /\ Forall usable (found c).

Lemma chain_weaken lo passes hi hi' : chain lo passes hi -> hi <= hi' -> chain lo passes hi'.
Proof.
  revert lo. induction passes as [|p passes IH]; intros lo; simpl; [lia|].
  intros (H1 & H2 & H3) Hle. split_and!; [done..|]. by apply IH.
Qed.

Lemma chain_snoc lo passes b e hi :
  chain lo passes b -> b < e -> e < hi -> chain lo (passes ++ [mkDumpRenderPass b e]) hi.
Proof.
  revert lo. induction passes as [|p passes IH]; intros lo; simpl; [lia|].
  intros (H1 & H2 & H3) Hbe He. split_and!; [done..|]. by apply IH.
Qed.

Lemma drawn_in_app passes passes' d : drawn_in passes d -> drawn_in (passes ++ passes') d.
Proof. intros (p & Hp & Hd). exists p. split; [|done]. apply elem_of_app. by left. Qed.

Lemma StronglySorted_snoc l x : StronglySorted Z.lt l -> Forall (fun d => d < x) l ->
  StronglySorted Z.lt (l ++ [x]).
Proof.
  intros Hs Hl. apply StronglySorted_app_2; [|done|by repeat constructor].
  intros y z Hy ->%list_elem_of_singleton. rewrite Forall_forall in Hl. by apply Hl.
Qed.

Lemma end_last_snoc i passes p :
  end_last i (passes ++ [p]) = passes ++ [mkDumpRenderPass (begin_block_index p) i].
Proof.
  unfold end_last. rewrite length_app. simpl. rewrite Nat.add_1_r. simpl.
  rewrite <- (Nat.add_0_r (length passes)). by rewrite alter_app_r.
Qed.

Lemma Forall_draws_below now now' (l : list Z) :
  Forall (fun d => d < now) l -> now <= now' -> Forall (fun d => d < now') l.
Proof. intros Hl Hle. eapply Forall_impl; [exact Hl|]. simpl. lia. Qed.

(** Time passes. *)
Lemma machine_ok_later now now' cb m : machine_ok now cb m -> now <= now' -> machine_ok now' cb m.
Proof.
  intros [Hb Hbegin Hs Hd Ho] Hle. split; try done; [|by eapply Forall_draws_below].
  destruct (state_ m); [done| |].
  - destruct Hs as [Hc Hdr]. split; [by eapply chain_weaken|done].
  - destruct Hs as (passes & b & Hp & Hb' & Hc & Hdr). exists passes, b. split_and!; [done|lia|done..].
Qed.

Section steps.
Variables (now index : Z) (cb : HandleId).
Hypothesis Hindex : now <= index.
Hypothesis Hnow : 0 < now.

Lemma BeginCommandBuffer_ok :
  machine_ok (index + 1) cb (machine_BeginCommandBuffer index (new_StateMachine cb)).
Proof. split; simpl; try done; [lia| |constructor]. split; [lia|constructor]. Qed.

Lemma BeginRenderPass_ok m : machine_ok now cb m ->
  machine_ok (index + 1) cb (machine_BeginRenderPass index m).
Proof.
  intros Hm. unfold machine_BeginRenderPass.
  destruct (state_ m) eqn:Es; try (apply (machine_ok_later now); [done|lia]).
  destruct Hm as [Hb Hbegin Hs Hd Ho]. rewrite Es in Hs. destruct Hs as [Hc Hdr].
  split; simpl; try done; [|eapply Forall_draws_below; [done|lia]].
  exists (render_passes (dump_entry_ m)), index. split_and!; [done|lia|by eapply chain_weaken|].
  eapply Forall_impl; [exact Hdr|]. by left.
Qed.

Lemma Draw_ok m : machine_ok now cb m -> machine_ok (index + 1) cb (machine_Draw index m).
Proof.
  intros Hm. unfold machine_Draw.
  destruct (state_ m) eqn:Es; try (apply (machine_ok_later now); [done|lia]).
  destruct Hm as [Hb Hbegin Hs Hd Ho]. rewrite Es in Hs. destruct Hs as (passes & b & Hp & Hlt & Hc & Hdr).
  split; simpl; try done.
  - exists passes, b. split_and!; [done|lia|done|]. apply Forall_app. split; [done|].
    constructor; [right; lia|constructor].
  - apply Forall_app. split; [eapply Forall_draws_below; [done|lia]|]. constructor; [lia|constructor].
  - apply StronglySorted_snoc; [done|]. by eapply Forall_draws_below.
Qed.

Lemma EndRenderPass_ok m : machine_ok now cb m ->
  machine_ok (index + 1) cb (machine_EndRenderPass index m).
Proof.
  intros Hm. unfold machine_EndRenderPass.
  destruct (state_ m) eqn:Es; try (apply (machine_ok_later now); [done|lia]).
  destruct Hm as [Hb Hbegin Hs Hd Ho]. rewrite Es in Hs. destruct Hs as (passes & b & Hp & Hlt & Hc & Hdr).
  split; simpl; try done; [|eapply Forall_draws_below; [done|lia]].
  rewrite Hp, end_last_snoc. simpl. split; [apply chain_snoc; [done|lia..]|].
  rewrite Forall_forall in Hdr, Hd. apply Forall_forall. intros d Hin.
  destruct (Hdr d Hin) as [Hin'|Hbd]; [by apply drawn_in_app|].
  exists (mkDumpRenderPass b index). split; [apply elem_of_app; right; by apply list_elem_of_singleton|].
  simpl. specialize (Hd d Hin). lia.
Qed.

(** A submission changes no machine, it only ends some. *)
Lemma QueueSubmit_ok ids m : machine_ok now cb m ->
  match machine_QueueSubmit index ids m with
  | GoesOn m' => m' = m
  | Accepts e => usable e
  | Rejects => True
  end.
Proof.
  intros Hm. unfold machine_QueueSubmit. destruct (state_ m) eqn:Es; [done| |done].
  case_bool_decide; [|done]. unfold Done. simpl. destruct (DumpEntry_IsComplete _) eqn:Ec; [|done].
  destruct Hm as [Hb Hbegin Hs Hd Ho]. rewrite Es in Hs. destruct Hs as [Hc Hdr].
  split; simpl; try done. by eapply chain_weaken.
Qed.
End steps.

Definition call_index (call : Call) : Z :=
  match call with
  | vkBeginCommandBuffer i _ | vkCmdBeginRenderPass i _ | vkCmdBeginRenderPass2KHR i _
  | vkCmdDraw i _ | vkCmdDrawIndexed i _ | vkCmdEndRenderPass i _ | vkCmdEndRenderPass2KHR i _
  | vkQueueSubmit i _ => i
  end.

Section consumer.
Implicit Types c : Consumer.

Lemma consumer_ok_later now now' c : consumer_ok now c -> now <= now' -> consumer_ok now' c.
Proof.
  intros [Hm Hf] Hle. split; [|done]. eapply map_Forall_impl; [exact Hm|].
  intros cb m Hok. by eapply machine_ok_later.
Qed.

Lemma Invoke_machine_ok now index cb f c :
  consumer_ok now c -> now <= index ->
  (forall m, machine_ok now cb m -> machine_ok (index + 1) cb (f m)) ->
  consumer_ok (index + 1) (InvokeIfFound cb (fun m => GoesOn (f m)) c).
Proof.
  intros Hc Hle Hf. pose proof (consumer_ok_later now (index + 1) c Hc ltac:(lia)) as [Hm' Hfo].
  destruct Hc as [Hm _]. unfold InvokeIfFound.
  destruct (incomplete_dumps_ c !! cb) as [m|] eqn:El; [|done]. split; [|done]. simpl.
  apply map_Forall_insert_2; [|done]. apply Hf. exact (Hm _ _ El).
Qed.

Lemma Invoke_submit_ok now index ids id c : now <= index ->
  consumer_ok now c -> consumer_ok now (InvokeIfFound id (machine_QueueSubmit index ids) c).
Proof.
  intros Hle Hc. pose proof Hc as [Hm Hf]. unfold InvokeIfFound.
  destruct (incomplete_dumps_ c !! id) as [m|] eqn:El; [|done].
  pose proof (QueueSubmit_ok now index id Hle ids m (Hm _ _ El)) as Hq.
  destruct (machine_QueueSubmit index ids m) as [m'|e|].
  - subst m'. split; [|done]. simpl. by rewrite insert_id.
  - split; simpl; [by apply map_Forall_delete|]. apply Forall_app. split; [done|by constructor].
  - split; simpl; [by apply map_Forall_delete|done].
Qed.

Lemma submits_ok now index ids ids' c : now <= index -> consumer_ok now c ->
  consumer_ok now (foldl (fun c id => InvokeIfFound id (machine_QueueSubmit index ids) c) c ids').
Proof.
  intros Hle. revert c. induction ids' as [|id ids' IH]; intros c Hc; simpl; [done|].
  by apply IH, Invoke_submit_ok.
Qed.

Lemma Process_ok now call c c' : 0 < now -> now <= call_index call -> consumer_ok now c ->
  Process call c = Some c' -> consumer_ok (call_index call + 1) c'.
Proof.
  intros Hnow Hle Hc Hp. destruct call as [i cb|i cb|i cb|i cb|i cb|i cb|i cb|i submits]; simpl in *.
  2-7: injection Hp as <-; apply (Invoke_machine_ok now); [done|done|].
  - injection Hp as <-. pose proof (consumer_ok_later now (i + 1) c Hc ltac:(lia)) as [Hm Hf].
    split; [|done]. simpl. apply map_Forall_insert_2; [|done]. by apply (BeginCommandBuffer_ok now).
  - intros m. by apply (BeginRenderPass_ok now).
  - intros m. by apply (BeginRenderPass_ok now).
  - intros m. by apply (Draw_ok now).
  - intros m. by apply (Draw_ok now).
  - intros m. by apply (EndRenderPass_ok now).
  - intros m. by apply (EndRenderPass_ok now).
  - unfold Process_vkQueueSubmit in Hp. destruct (submitted_buffers submits) as [ids|]; [|done].
    injection Hp as <-. apply (consumer_ok_later now); [|lia]. by apply submits_ok.
Qed.
End consumer.

(** The indices of the calls increase. *)
Fixpoint increasing (now : Z) (calls : list Call) : Prop :=
  match calls with
  | [] => True
  | call :: calls => now <= call_index call /\ increasing (call_index call + 1) calls
  end.

Lemma Process_all_ok calls now c c' : 0 < now -> increasing now calls -> consumer_ok now c ->
  Process_all calls c = Some c' -> Forall usable (found c').
Proof.
  revert now c. induction calls as [|call calls IH]; intros now c Hnow Hi Hc Hp; simpl in *.
  - injection Hp as <-. apply Hc.
  - destruct Hi as [Hle Hi]. destruct (Process call c) as [c1|] eqn:E; [|done].
    apply (IH (call_index call + 1) c1); [lia|done| |done]. by eapply Process_ok.
Qed.

(** ** Recordings *)

(** The call has nothing to do with the command buffer. *)
Definition unrelated (cb : HandleId) (call : Call) : Prop :=
  match call with
  | vkBeginCommandBuffer _ b | vkCmdBeginRenderPass _ b | vkCmdBeginRenderPass2KHR _ b
  | vkCmdDraw _ b | vkCmdDrawIndexed _ b | vkCmdEndRenderPass _ b | vkCmdEndRenderPass2KHR _ b => b <> cb
  | vkQueueSubmit _ submits => forall ids, submitted_buffers submits = Some ids -> cb ∉ ids
  end.

Definition begins_pass (cb i : Z) (call : Call) : Prop :=
  call = vkCmdBeginRenderPass i cb \/ call = vkCmdBeginRenderPass2KHR i cb.

Definition draws_at (cb i : Z) (call : Call) : Prop :=
  call = vkCmdDraw i cb \/ call = vkCmdDrawIndexed i cb.

Definition ends_pass (cb i : Z) (call : Call) : Prop :=
  call = vkCmdEndRenderPass i cb \/ call = vkCmdEndRenderPass2KHR i cb.

(** [records cb calls passes ds]: among calls that have nothing to do with it, the
    command buffer records these render passes with these draws. [in_pass] is the same
    inside of a render pass that has begun at [b]. *)
Inductive records (cb : HandleId) : list Call -> list DumpRenderPass -> list Z -> Prop :=
| records_nil : records cb [] [] []
| records_unrelated call calls passes ds :
    unrelated cb call -> records cb calls passes ds -> records cb (call :: calls) passes ds
| records_pass b call calls passes ds :
    begins_pass cb b call -> in_pass cb b calls passes ds -> records cb (call :: calls) passes ds
with in_pass (cb : HandleId) : Z -> list Call -> list DumpRenderPass -> list Z -> Prop :=
| in_unrelated b call calls passes ds :
    unrelated cb call -> in_pass cb b calls passes ds -> in_pass cb b (call :: calls) passes ds
| in_draw b i call calls passes ds :
    draws_at cb i call -> in_pass cb b calls passes ds -> in_pass cb b (call :: calls) passes (i :: ds)
| in_end b e call calls passes ds :
    ends_pass cb e call -> records cb calls passes ds ->
    in_pass cb b (call :: calls) (mkDumpRenderPass b e :: passes) ds.

Scheme records_mut := Induction for records Sort Prop
with in_pass_mut := Induction for in_pass Sort Prop.
Combined Scheme records_in_pass from records_mut, in_pass_mut.

Lemma Invoke_other id cb f c : id <> cb ->
  incomplete_dumps_ (InvokeIfFound id f c) !! cb = incomplete_dumps_ c !! cb.
Proof.
  intros Hne. unfold InvokeIfFound. destruct (incomplete_dumps_ c !! id) as [m|]; [|done].
  destruct (f m); simpl; by rewrite ?lookup_insert_ne, ?lookup_delete_ne.
Qed.

Lemma Invoke_found id f c : found c `prefix_of` found (InvokeIfFound id f c).
Proof.
  unfold InvokeIfFound. destruct (incomplete_dumps_ c !! id) as [m|]; [|done].
  destruct (f m); simpl; [done|by eexists|done].
Qed.

Lemma submits_other ids ids' index cb c : cb ∉ ids' ->
  incomplete_dumps_ (foldl (fun c id => InvokeIfFound id (machine_QueueSubmit index ids) c) c ids') !! cb
  = incomplete_dumps_ c !! cb.
Proof.
  revert c. induction ids' as [|id ids' IH]; intros c Hcb; simpl; [done|].
  apply not_elem_of_cons in Hcb as [Hne Hcb]. rewrite IH by done. apply Invoke_other. congruence.
Qed.

Lemma submits_found ids ids' index c :
  found c `prefix_of` found (foldl (fun c id => InvokeIfFound id (machine_QueueSubmit index ids) c) c ids').
Proof.
  revert c. induction ids' as [|id ids' IH]; intros c; simpl; [done|].
  etrans; [apply Invoke_found|apply IH].
Qed.

Lemma Process_unrelated cb call c c' : unrelated cb call -> Process call c = Some c' ->
  incomplete_dumps_ c' !! cb = incomplete_dumps_ c !! cb.
Proof.
  intros Hu Hp. destruct call as [i b|i b|i b|i b|i b|i b|i b|i submits]; simpl in *.
  2-7: injection Hp as <-; by apply Invoke_other.
  - injection Hp as <-. simpl. by rewrite lookup_insert_ne.
  - unfold Process_vkQueueSubmit in Hp. destruct (submitted_buffers submits) as [ids|] eqn:E; [|done].
    injection Hp as <-. apply submits_other. by apply Hu.
Qed.

Lemma Process_found call c c' : Process call c = Some c' -> found c `prefix_of` found c'.
Proof.
  intros Hp. destruct call as [i b|i b|i b|i b|i b|i b|i b|i submits]; simpl in *.
  2-7: injection Hp as <-; apply Invoke_found.
  - by injection Hp as <-.
  - unfold Process_vkQueueSubmit in Hp. destruct (submitted_buffers submits) as [ids|] eqn:E; [|done].
    injection Hp as <-. apply submits_found.
Qed.

Lemma Process_all_found calls c c' : Process_all calls c = Some c' -> found c `prefix_of` found c'.
Proof.
  revert c. induction calls as [|call calls IH]; intros c Hp; simpl in *; [by injection Hp as <-|].
  destruct (Process call c) as [c1|] eqn:E; [|done]. etrans; [by eapply Process_found|by apply IH].
Qed.

Lemma Process_all_app calls1 calls2 c :
  Process_all (calls1 ++ calls2) c = c ← Process_all calls1 c; Process_all calls2 c.
Proof.
  revert c. induction calls1 as [|call calls IH]; intros c; simpl; [done|].
  by destruct (Process call c); simpl.
Qed.

(** The machine of [cb] outside of render passes, and inside of one. *)
Definition outside (cb begin : Z) (passes : list DumpRenderPass) (ds : list Z) : StateMachine :=
  mkStateMachine cb LookingForBeginRenderPass (mkDumpEntry begin passes ds 0).

Definition inside_pass (cb begin b : Z) (passes : list DumpRenderPass) (ds : list Z) : StateMachine :=
  mkStateMachine cb LookingForDraw (mkDumpEntry begin (passes ++ [mkDumpRenderPass b 0]) ds 0).

Lemma Invoke_self cb f c m :
  incomplete_dumps_ c !! cb = Some m ->
  incomplete_dumps_ (InvokeIfFound cb (fun m => GoesOn (f m)) c) !! cb = Some (f m).
Proof. intros Hm. unfold InvokeIfFound. rewrite Hm. simpl. by rewrite lookup_insert_eq. Qed.

(** A step that hands the call to the machine [m] of [cb]. *)
Ltac machine_step Hm Hp :=
  simpl in Hp; injection Hp as <-; rewrite (Invoke_self _ _ _ _ Hm).

Lemma records_machine cb begin :
  (forall calls passes ds, records cb calls passes ds -> forall passes0 ds0 c c',
   incomplete_dumps_ c !! cb = Some (outside cb begin passes0 ds0) -> Process_all calls c = Some c' ->
   incomplete_dumps_ c' !! cb = Some (outside cb begin (passes0 ++ passes) (ds0 ++ ds))) /\
  (forall b calls passes ds, in_pass cb b calls passes ds -> forall passes0 ds0 c c',
   incomplete_dumps_ c !! cb = Some (inside_pass cb begin b passes0 ds0) ->
   Process_all calls c = Some c' ->
   incomplete_dumps_ c' !! cb = Some (outside cb begin (passes0 ++ passes) (ds0 ++ ds))).
Proof.
  apply records_in_pass.
  - intros passes0 ds0 c c' Hm [= <-]. by rewrite !app_nil_r.
  - intros call calls passes ds Hu _ IH passes0 ds0 c c' Hm Hp. simpl in Hp.
    destruct (Process call c) as [c1|] eqn:E; [|done]. apply (IH _ _ c1); [|done].
    by rewrite (Process_unrelated cb call c c1).
  - intros b call calls passes ds Hb _ IH passes0 ds0 c c' Hm Hp. simpl in Hp.
    destruct (Process call c) as [c1|] eqn:E; [|done]. apply (IH _ _ c1); [|done].
    destruct Hb as [->| ->]; by machine_step Hm E.
  - intros b call calls passes ds Hu _ IH passes0 ds0 c c' Hm Hp. simpl in Hp.
    destruct (Process call c) as [c1|] eqn:E; [|done]. apply (IH _ _ c1); [|done].
    by rewrite (Process_unrelated cb call c c1).
  - intros b i call calls passes ds Hd _ IH passes0 ds0 c c' Hm Hp. simpl in Hp.
    destruct (Process call c) as [c1|] eqn:E; [|done].
    rewrite (IH passes0 (ds0 ++ [i]) c1 c'); [by rewrite <- app_assoc| |done].
    destruct Hd as [->| ->]; by machine_step Hm E.
  - intros b e call calls passes ds He _ IH passes0 ds0 c c' Hm Hp. simpl in Hp.
    destruct (Process call c) as [c1|] eqn:E; [|done].
    rewrite (IH (passes0 ++ [mkDumpRenderPass b e]) ds0 c1 c'); [by rewrite <- app_assoc| |done].
    destruct He as [->| ->]; machine_step Hm E; unfold machine_EndRenderPass; simpl;
      by rewrite end_last_snoc.
Qed.

(** A submission of a machine that is outside of render passes. *)
Lemma submits_entry index ids ids' cb begin passes ds c :
  incomplete_dumps_ c !! cb = Some (outside cb begin passes ds) -> cb ∈ ids' -> cb ∈ ids ->
  DumpEntry_IsComplete (mkDumpEntry begin passes ds index) = true ->
  mkDumpEntry begin passes ds index ∈
  found (foldl (fun c id => InvokeIfFound id (machine_QueueSubmit index ids) c) c ids').
Proof.
  intros Hm Hin Hids Hc. revert c Hm. induction ids' as [|id ids' IH]; intros c Hm; [by apply not_elem_of_nil in Hin|].
  simpl. destruct (decide (id = cb)) as [->|Hne].
  - eapply elem_of_prefix; [|apply submits_found].
    unfold InvokeIfFound. rewrite Hm. unfold machine_QueueSubmit. simpl.
    rewrite bool_decide_eq_true_2 by done. unfold Done. simpl. rewrite Hc. simpl.
    apply elem_of_app. right. by apply list_elem_of_singleton.
  - apply elem_of_cons in Hin as [->|Hin]; [done|]. apply IH; [done|]. by rewrite Invoke_other.
Qed.

(** ** Theorems *)

(** C29: what is found can be dumped. If the block indices of a capture's calls are
    positive and increase, then every entry that is found has all of its indices set,
    its command buffer begins before the first render pass, the render passes lie one
    after the other in the order of the calls and end before the submission, and each of
    the draws, in ascending order, lies inside one of these render passes. *)
Theorem entries_usable (calls : list Call) (entries : list DumpEntry) :
  increasing 1 calls -> FindDumpableResources calls = Some entries -> Forall usable entries.
Proof.
  intros Hi Hf. unfold FindDumpableResources in Hf.
  destruct (Process_all calls new_Consumer) as [c|] eqn:E; [|done]. injection Hf as <-.
  apply (Process_all_ok calls 1 new_Consumer c); [lia|done| |done].
  split; [apply map_Forall_empty|constructor].
Qed.

(** Two command buffers that are recorded at the same time; the third is submitted
    twice and never begun. *)
Definition test_calls : list Call :=
  [vkBeginCommandBuffer 1 7; vkBeginCommandBuffer 2 8; vkCmdBeginRenderPass 3 7; vkCmdDraw 4 7;
   vkCmdBeginRenderPass2KHR 5 8; vkCmdDrawIndexed 6 8; vkCmdDraw 7 7; vkCmdEndRenderPass 8 7;
   vkQueueSubmit 9 [[9]]; vkCmdEndRenderPass2KHR 10 8; vkCmdBeginRenderPass 11 7;
   vkCmdEndRenderPass 12 7; vkQueueSubmit 13 [[7]; [9]]; vkQueueSubmit 14 [[8]]].

Lemma entries_usable_witness :
  increasing 1 test_calls /\
  exists entries, FindDumpableResources test_calls = Some entries /\ length entries = 2%nat /\
  Forall usable entries.
Proof.
  assert (Hi : increasing 1 test_calls) by (simpl; lia).
  destruct (FindDumpableResources test_calls) as [entries|] eqn:E; [|vm_compute in E; discriminate].
  split; [exact Hi|]. exists entries. split; [reflexivity|]. split.
  - vm_compute in E. injection E as <-. reflexivity.
  - exact (entries_usable test_calls entries Hi E).
Defined.

(** A recording is found however it is interleaved. If a command buffer begins,
    records render passes with draws among calls that have nothing to do with it
    (recordings of other command buffers and their submissions), and is submitted, then the
    entry with exactly these render passes and draws is among the results, whatever comes
    before and after, provided there is at least one render pass and one draw and no
    index is the sentinel zero. *)
Theorem recording_found (before mid after : list Call) (begin submit : Z) (cb : HandleId)
    (submits : list (list HandleId)) (ids : list HandleId) (passes : list DumpRenderPass)
    (ds : list Z) (entries : list DumpEntry) :
  records cb mid passes ds -> submitted_buffers submits = Some ids -> cb ∈ ids ->
  DumpEntry_IsComplete (mkDumpEntry begin passes ds submit) = true ->
  FindDumpableResources
    (before ++ vkBeginCommandBuffer begin cb :: mid ++ vkQueueSubmit submit submits :: after)
    = Some entries ->
  mkDumpEntry begin passes ds submit ∈ entries.
Proof.
  intros Hrec Hids Hcb Hc Hf. unfold FindDumpableResources in Hf.
  destruct (Process_all _ new_Consumer) as [c|] eqn:E; [|done]. injection Hf as <-.
  rewrite Process_all_app in E. destruct (Process_all before new_Consumer) as [c0|]; [|done].
  simpl in E. rewrite Process_all_app in E.
  destruct (Process_all mid _) as [c1|] eqn:E1; [|done]. simpl in E.
  assert (Hm : incomplete_dumps_ c1 !! cb = Some (outside cb begin passes ds)).
  { apply (proj1 (records_machine cb begin) mid passes ds Hrec [] []
            (Process_vkBeginCommandBuffer begin cb c0)); [|done].
    unfold Process_vkBeginCommandBuffer. simpl. by rewrite lookup_insert_eq. }
  unfold Process_vkQueueSubmit in E. rewrite Hids in E. simpl in E.
  eapply elem_of_prefix; [by apply (submits_entry submit ids ids cb begin passes ds c1)|].
  by eapply Process_all_found.
Qed.

Lemma recording_found_witness :
  exists entries, FindDumpableResources test_calls = Some entries /\
  mkDumpEntry 1 [mkDumpRenderPass 3 8; mkDumpRenderPass 11 12] [4; 7] 13 ∈ entries.
Proof.
  destruct (FindDumpableResources test_calls) as [entries|] eqn:E; [|vm_compute in E; discriminate].
  exists entries. split; [reflexivity|].
  eapply (recording_found [] (take 11 (drop 1 test_calls)) [vkQueueSubmit 14 [[8]]] 1 13 7 [[7]; [9]] [7; 9]).
  - simpl.
    apply records_unrelated; [done|]. eapply records_pass; [by left|].
    eapply in_draw; [by left|]. apply in_unrelated; [done|]. apply in_unrelated; [done|].
    eapply in_draw; [by left|]. eapply in_end; [by left|].
    apply records_unrelated; [intros ids [= <-]; by intros ?%list_elem_of_singleton|]. apply records_unrelated; [done|].
    eapply records_pass; [by left|]. eapply in_end; [by left|]. apply records_nil.
  - reflexivity.
  - left.
  - reflexivity.
  - exact E.
Defined.

Lemma visited_spec n submits ids : visited n submits = Some ids ->
  Forall (fun s => (n <= length s)%nat) submits /\ ids = concat (take n <$> submits).
Proof.
  revert ids. induction submits as [|s submits IH]; intros ids; simpl; [by intros [= <-]|].
  destruct (n <=? length s)%nat eqn:E; [|done]. apply Nat.leb_le in E.
  destruct (visited n submits) as [rest|]; [|done]. simpl. intros [= <-].
  destruct (IH rest eq_refl) as [Hall ->]. by split; [constructor|].
Qed.

Lemma visited_None n submits : visited n submits = None ->
  Exists (fun s => (length s < n)%nat) submits.
Proof.
  induction submits as [|s submits IH]; simpl; [done|].
  destruct (n <=? length s)%nat eqn:E; [|intros _; left; by apply Nat.leb_gt in E].
  destruct (visited n submits); [done|]. intros _. right. by apply IH.
Qed.

(** A vkQueueSubmit is read with the number of command buffers of its first submit.
    A later submit with fewer is read behind the end of its array; of one with more, the
    command buffers in excess are ignored: nothing is found for them, and they
    stay unfinished. *)
Theorem first_submit_count (index : Z) (first : list HandleId) (rest : list (list HandleId))
    (c : Consumer) :
  match Process (vkQueueSubmit index (first :: rest)) c with
  | None => Exists (fun s => (length s < length first)%nat) rest
  | Some c' => Forall (fun s => (length first <= length s)%nat) rest /\
      forall cb, Forall (fun s => cb ∉ take (length first) s) (first :: rest) ->
      incomplete_dumps_ c' !! cb = incomplete_dumps_ c !! cb
  end.
Proof.
  simpl. unfold Process_vkQueueSubmit.
  destruct (submitted_buffers (first :: rest)) as [ids|] eqn:E; simpl.
  - apply visited_spec in E as [Hall ->]. apply Forall_cons in Hall as [_ Hall]. split; [done|].
    intros cb Hcb. apply submits_other.
    intros (s & Hs & Hin)%list_elem_of_In%in_concat. apply list_elem_of_In in Hs, Hin.
    apply list_elem_of_fmap in Hs as (s' & -> & Hs). rewrite Forall_forall in Hcb.
    by apply (Hcb s').
  - apply visited_None, Exists_cons in E as [E|E]; [simpl in E; lia|done].
Qed.
